(* ===== verification/_CoqProject ===== *)
-Q . S2P
Prelude.v
Bytes.v
Utf8.v
Str.v
Errors.v
Constants.v
SuperBlock.v
DiskTypes.v
Checksum.v
Dir.v
Image.v
Extent.v
Xattr.v
Geometry.v
Paths.v
FileTree.v
Reader.v
Bitmaps.v
Formatter.v
UnlinkSpec.v
FormatterSpec.v
CreateSpec.v
Close.v
CloseSpec.v
FormatterLimits.v
SampleImage.v
ReaderSpec.v
ReadBack.v
Transitions.v
Lifecycle.v
LockManager.v
Unpack.v
Condition.v
Policy.v
PolicySpec.v
OciLayer.v
HostFs.v
HostProg.v
OciResolve.v
OciStore.v
OciStoreSpec.v
OciResume.v
OciImages.v
OciWorld.v
Secrets.v
SecretsSpec.v
SecretsWorld.v
MachineModel.v
MachineDb.v
Machines.v
MachinesSpec.v
MachinesCreate.v
MachineRefs.v
MachinesChange.v
MachineWorld.v
Units.v
Metadata.v
MetadataSpec.v
Launch.v
LaunchSpec.v
NetDriver.v
NetDriverSpec.v
Broker.v
BrokerSpec.v
Endpoints.v
EndpointsSpec.v
Vmmon.v
VmmonSpec.v
ShellText.v
ShellTextSpec.v
ShellArith.v
ShellExpand.v
ShellWords.v
ShellEnds.v
ShellExec.v
ShellScript.v
ShellWorld.v
ShellSpec.v
