(* ===== verification/Prelude.v ===== *)
(** * A verification development for BentoBox

    BentoBox runs virtual machines from OCI images.  This library models the parts of its
    Rust code that carry its own logic, and proves what makes them correct.

    ** The program's parts

    - [common/ext4] builds an ext4 image from the layers of an OCI image and reads images
      back.  [types.rs] holds the on-disk structures, [dir.rs], [extent.rs], [xattr.rs] and
      [checksum.rs] their encodings, [file_tree.rs] the in-memory tree, [formatter.rs] the
      builder, [unpack.rs] applies archive layers to a builder, [reader.rs] and
      [reader_io.rs] open an image.
    - [runtime/ocidisk] gets an image from a registry, an archive or a file, and keeps a
      cache of layers and of finished ext4 images.
    - [common/policy] loads network policies written in HCL and evaluates their conditions.
    - [runtime/libvm] is the registry of machines: it creates, finds, changes and removes
      them, in a database, in directories of the host and with lock numbers that its lock
      manager hands out; it reconciles the state of a machine with the processes of the
      host, prepares its network and launches its monitor.
    - [runtime/vmmon] is the monitor of one machine: it configures the virtual machine,
      serves a control socket, publishes the status and supervises endpoint plugins, which
      are written with [runtime/plugins].
    - [specs/protocol], [specs/vm-spec], [common/utils] and [virt/virt] hold the data these
      programs exchange: negotiation frames, metadata, the specification of a machine,
      sizes and addresses, the configuration handed to a hypervisor.
    - [guest/init] is the first process of the guest; it contains a small shell.
    - [app/cli] is the command line; its secret commands keep credentials in a file that
      policies refer to.

    ** Files

    - [Prelude]: outcomes, machine integers, list segments, stable sorting, automation.
    - [Bytes], [Utf8], [Str]: buffers, the [DiskStruct] interface that every on-disk
      structure implements, lossy decoding, [str] methods on bytes.
    - [Errors], [Constants], [SuperBlock], [DiskTypes]: [error.rs], [constants.rs] and
      [types.rs]; the structures are instances of [DiskStructOk], which gives their round
      trips.
    - [Checksum], [Dir], [Extent], [Xattr]: the files of the same name.  [Image] models a
      [File] as its bytes.
    - [Geometry]: the block-group arithmetic of [formatter.rs] and the placement of payload.
    - [Paths], [FileTree]: [std::path] as the code uses it, and [file_tree.rs].
    - [Formatter]: the state of a [Formatter] and [create], [link], [unlink] and the
      setters, in a state-and-error monad; [UnlinkSpec], [FormatterSpec], [CreateSpec] and
      [FormatterLimits] hold the theorems.
    - [Bitmaps], [Close]: [Formatter::close] with its stages; [CloseSpec] the theorems.
    - [Reader]: [reader.rs] and [reader_io.rs]; [SampleImage] an image to evaluate it on,
      [ReaderSpec] the theorems, [ReadBack] those that join formatter and reader.
    - [Unpack]: [unpack.rs] over the formatter's operations.
    - [Transitions]: the reducer of [runtime/transitions.rs], the observation of the host
      and the reconciliation in [runtime/core.rs]; [Lifecycle]: the sections of
      [machine/lifecycle.rs] that hold the machine lock; [LockManager]: [lock_manager.rs].
    - [MachineModel]: the data of the registry with [machine/memory.rs], [name_generator.rs],
      [reference.rs], [builder.rs] and [update.rs]; [MachineDb]: its database, the tables
      with their constraints, the statements of [store] and transactions, and the state a
      command runs on (host, database, locks); [Machines]: the commands of
      [runtime/core.rs] and [network/mod.rs].  [MachinesSpec] holds the invariant of the
      registry, [MachinesCreate] what a creation does and undoes, [MachineRefs] names and
      references, [MachinesChange] updates, removals and the release of networks,
      [MachineWorld] an instance of the libraries, the class [RtDeps].
    - [Units]: sizes and addresses of [common/utils]; [Metadata]: the JSON of
      [specs/protocol] as protobuf, with [MetadataSpec]; [Launch]: from a machine of the
      registry to the configuration of its hypervisor, [vmmon/launch_spec.rs] and
      [vmmon/launch.rs] of [libvm], [startup.rs], [machine.rs] and [ext.rs] of [vmmon] and
      [types.rs] of [virt]; [LaunchSpec] the theorem that joins them.
    - [NetDriver]: the preparation of a machine's network, [network] of [libvm];
      [NetDriverSpec] the theorems.
    - [Vmmon]: negotiation on the control socket, the status store and its streams, and
      the policy for upgrades; [VmmonSpec] the theorems.
    - [Broker]: the frames between the monitor and a plugin and the broker of both sides;
      [Endpoints]: the event loops and the supervisor of [endpoints.rs]; [BrokerSpec] and
      [EndpointsSpec] the theorems.
    - [Condition], [Policy]: [condition.rs], [parse.rs] and [model.rs]; [PolicySpec] the
      theorems.
    - [OciLayer], [OciResolve]: sources, platforms, the ext4 writer, layers with whiteouts,
      manifests and archives of [runtime/ocidisk]; [HostFs]: [std::fs] on a disk whose
      operations may fail; [HostProg]: programs on such a host, with what they keep, need
      and guarantee; [OciStore]: [store.rs] and [lock.rs], over the class [Deps] of
      libraries.  [OciStoreSpec], [OciResume] and [OciImages] hold the theorems,
      [OciWorld] an instance of [Deps].
    - [Secrets]: [commands/secret.rs], with the store and the device login; [SecretsSpec]
      the theorems, [SecretsWorld] an instance of its libraries.
    - [ShellText]: [sys.rs] and the parts of [applets/shell] that only look at text;
      [ShellExpand]: expansion and tokens, over the interface [OS] of the operating
      system; [ShellExec]: the built-in commands; [ShellScript]: pipelines, control
      structures, scripts and [sh].  [ShellTextSpec], [ShellArith], [ShellWords],
      [ShellEnds] and [ShellSpec] hold the theorems, [ShellWorld] an instance of [OS].

    ** Conventions

    A [u32] is a [Z] with its bounds; [uadd], [usub] and [umul] panic on overflow, [as]
    casts are [wrap].  [Result] is [outcome], with panics as a third case; code that can
    only panic returns an [option].  A method on [&mut self] returns the state with every
    outcome, since what was changed before an error stays changed.

    ** What the theorems show

    - Encodings: superblock, inode, extents, directory blocks and extended attributes read
      back what was written; every parser returns on arbitrary bytes; the checksum of a
      group descriptor binds it to image and group.
    - Placement: a payload gets distinct blocks outside reserved metadata and each byte
      lies where the recorded ranges say.
    - The tree under construction: [create] makes the parents, stores the file and leaves
      other paths alone; [link] counts references and fails without effect; [unlink]
      removes exactly a subtree, releases inodes and blocks with the last reference, and
      needs no more fuel than there are nodes.
    - [close]: the walk over directories ends and meets every node once; the group layout
      holds all data and inodes with the fewest groups; block and inode bitmaps mark
      exactly what is used and their counts agree; superblocks, their copies and the
      descriptor tables read back, with valid checksums.
    - The reader: opening ends on any bytes, caching is unobservable, reads return exactly
      the requested part of a file, and a file the formatter stored is what is read.
    - Unpacking: a set of hard links is accepted exactly when it has no cycle; a layer with
      whiteouts removes what it names.
    - Machines: under any interleaving of sections, the phases of a machine and the answers
      to its clients are those of a small abstract machine, and the invariant of the row
      is kept; at most one start succeeds, a failed or
      abandoned start is settled, a stop completes only for the run it was meant for.
      Reservations of lock numbers by concurrent clients are distinct.
    - The registry: whatever fails, every command keeps the constraints of the tables and a
      lock number of its own for each machine; a creation stores the machine it was asked
      for, or leaves nothing behind; an update is stored as a whole or not at all; a
      removal takes rows, lock number and directory; a reference finds
      the machine with that id, beginning of an id or name; a network is stopped with its last user, and a
      helper process is recorded or stopped.
    - The launch: what the registry holds of a machine is what the hypervisor is
      configured with, its network address included; metadata survives the wire.
    - The monitor: a request on the control socket gets the answer the policy gives, and
      client and server agree on the result; a stream of the status shows the updates in
      order and tells of the ones it lost; every connection a plugin asks for is answered
      once; a plugin is restarted after delays that double up to a limit.
    - Images: under any failures of the file system and any answers of a registry, entries
      of the cache are complete and blobs have the hash they are named after, a layer that
      is returned was verified, and the index changes as a whole or not at all; without
      failures an interrupted download completes; layers are applied in the order of the
      manifest, at paths below the root of the image.
    - Secrets: the file of the store is replaced as a whole or left as it was; a command
      that sets a credential sets the slots it was given and no other; what is shown holds
      no secret value; a device login ends.
    - Policies: whatever loads is well-formed (names declared, kinds right, ports and sizes
      in range), conditions compile to what the engine later sees.
    - The shell: patterns match what they stand for; a line of words, however quoted, is
      read as the values of the words; arithmetic expansion writes the value of the
      expression; expansion ends; a script of closed lines runs line by line.
    - The examples named in the manifest's findings evaluate the code on inputs where it
      departs from its documentation.

    ** Fuel

    [divide_out] 33 turns, since a [u32] at least halves; [skip_loop] two, since a group's
    metadata is followed by data; [layout_loop] five, for four candidates; [bfs] one turn
    per node ([bfs_order_complete]); [unlink] one more than there are nodes, [create] two
    more than the length of the path; [follow] one more than there are links, the lock
    scan one more than there are files; loops over strings their length; [scan] of the
    reader more than there are inode numbers ([reader_new_ends]); [resolve_loop] recurses
    on the 40 links it may follow and on the components, without fuel.  In each case a
    lemma or theorem shows that the fuel is enough.  [execute_script] is an interpreter and
    need not end: its fuel bounds the nesting of scripts and the turns of loops, and
    running out of it is an outcome of its own.  The device login polls at most 601 times
    when at least a second passes between two polls ([login_ends]).

    ** Parameters

    The clock, random identifiers, the process table of the host, the order in which a hash
    map is iterated, the tar decoder, the HCL parser, the CEL engine, SHA-256 and Unicode
    case tables, JSON, decompression, the registry client, the text of UUIDs, postcard, reflinks, the
    certificate authority and the behaviour of helper processes are arguments, with what
    the code relies on as hypotheses and a witness for each.  SQLite is its tables with
    their keys and constraints; a statement may fail, and one outside a transaction has its
    whole effect or none.  The broadcast channel of the monitor holds 256 updates, as the
    code asks for.  A double is the number it stands for.

    ** Not modelled

    Failures of devices while an ext4 image is written or read, [mmap], sockets and modes of
    files; progress events of image pulls; of the monitor, the gRPC servers behind the
    negotiation, the relay of bytes, signals, daemonising and the exit command; spawning the
    monitor and reading its files; keys and certificates; the guest agent, the hypervisor
    bindings, the foreign function interface of policies, the command line other than its
    secret commands and the applets of the guest's init other than the shell, which are
    system calls and glue around third-party crates; the network daemon, which is written
    in Go. *)

From Stdlib Require Import ZArith Lia.
From stdpp Require Import base list list_numbers option numbers.

Declare Scope bento_scope.
Delimit Scope bento_scope with bento.
Open Scope Z_scope.
Open Scope bento_scope.

(** ** Outcomes of fallible Rust code

    A Rust function returning [Result<A, E>] ends in [Ok], in [Err], or does
    not return because it panics (slice index out of range, arithmetic overflow
    in a build with overflow checks).  A function that has no error type but may
    panic returns an [option], with [None] for the panic. *)

Inductive outcome (E A : Type) : Type :=
| Ok (a : A)
| Err (e : E)
| Panic.
Arguments Ok {E A} a.
Arguments Err {E A} e.
Arguments Panic {E A}.

Definition obind {E A B} (m : outcome E A) (k : A -> outcome E B) : outcome E B :=
  match m with Ok a => k a | Err e => Err e | Panic => Panic end.

(** A panicking sub-computation inside a [Result]-returning function. *)
Definition lift {E A} (m : option A) : outcome E A :=
  match m with Some a => Ok a | None => Panic end.

(** [m.ok_or(e)?] *)
Definition ok_or {E A} (m : option A) (e : E) : outcome E A :=
  match m with Some a => Ok a | None => Err e end.

Notation "x <- m ;; k" := (obind m (fun x => k))
  (at level 20, m at level 99, k at level 200, right associativity) : bento_scope.
Notation "' p <- m ;; k" := (obind m (fun x => match x with p => k end))
  (at level 20, p pattern, m at level 99, k at level 200, right associativity) : bento_scope.
Notation "x <-! m ;; k" := (obind (lift m) (fun x => k))
  (at level 20, m at level 99, k at level 200, right associativity) : bento_scope.

Section OutcomeLaws.
Context {E A B C : Type}.
Implicit Types (m : outcome E A).

Lemma obind_ok_inv m (k : A -> outcome E B) b :
  obind m k = Ok b -> exists a, m = Ok a /\ k a = Ok b.
Proof. destruct m; simpl; intros H; try discriminate; eauto. Qed.

Lemma obind_assoc m (f : A -> outcome E B) (g : B -> outcome E C) :
  obind (obind m f) g = obind m (fun a => obind (f a) g).
Proof. by destruct m. Qed.

Lemma lift_ok_inv (o : option A) a : lift (E:=E) o = Ok a -> o = Some a.
Proof. destruct o; simpl; congruence. Qed.
End OutcomeLaws.

(** ** Machine integers

    An unsigned integer of [w] bits is a [Z] in [0, 2^w). *)

Definition uint (w z : Z) : Prop := 0 <= z < 2 ^ w.
Definition uintb (w z : Z) : bool := (0 <=? z) && (z <? 2 ^ w).

#[export] Instance uint_decision w z : Decision (uint w z).
Proof. unfold uint. apply _. Defined.

(** [z as uN]: keep the low [w] bits. *)
Definition wrap (w z : Z) : Z := z mod 2 ^ w.

(** Arithmetic that must stay in range: [None] is the overflow panic of a build
    with overflow checks; where it is [Some], the release build agrees. *)
Definition chk (w z : Z) : option Z := if uintb w z then Some z else None.
Definition uadd (w a b : Z) : option Z := chk w (a + b).
Definition usub (w a b : Z) : option Z := chk w (a - b).
Definition umul (w a b : Z) : option Z := chk w (a * b).

(** [a.div_ceil(b)] on unsigned operands, [b > 0]. *)
Definition div_ceil (a b : Z) : Z := (a + b - 1) / b.

Lemma uintb_spec w z : uintb w z = true <-> uint w z.
Proof. unfold uintb, uint. rewrite andb_true_iff, Z.leb_le, Z.ltb_lt. lia. Qed.

Lemma chk_some w z : uint w z -> chk w z = Some z.
Proof. intros H. unfold chk. by rewrite (proj2 (uintb_spec w z) H). Qed.

Lemma chk_inv w z r : chk w z = Some r -> r = z /\ uint w z.
Proof.
  unfold chk. destruct (uintb w z) eqn:E; intros H; simplify_eq.
  split; [done|]. by apply uintb_spec.
Qed.

Lemma chk_none w z : ~ uint w z -> chk w z = None.
Proof.
  unfold chk. intros H. destruct (uintb w z) eqn:E; [|done].
  apply uintb_spec in E. contradiction.
Qed.

Lemma uint_mono w w' z : 0 <= w <= w' -> uint w z -> uint w' z.
Proof.
  unfold uint. intros Hw [? ?]. split; [done|].
  pose proof (Z.pow_le_mono_r 2 w w'). lia.
Qed.

Lemma wrap_uint w z : 0 <= w -> uint w (wrap w z).
Proof. intros. unfold uint, wrap. apply Z.mod_pos_bound. lia. Qed.

Lemma wrap_id w z : uint w z -> wrap w z = z.
Proof. intros H. unfold wrap. apply Z.mod_small, H. Qed.

Lemma uint_bits w z : 0 <= w -> uint w z <-> 0 <= z /\ Z.shiftr z w = 0.
Proof.
  intros Hw. unfold uint. split; intros [H1 H2]; (split; [done|]).
  - rewrite Z.shiftr_div_pow2 by done. apply Z.div_small. lia.
  - rewrite Z.shiftr_div_pow2 in H2 by done. pose proof (Z.div_mod z (2 ^ w)).
    pose proof (Z.mod_pos_bound z (2 ^ w)). lia.
Qed.

Lemma lxor_uint w a b : 0 <= w -> uint w a -> uint w b -> uint w (Z.lxor a b).
Proof.
  intros Hw. rewrite !uint_bits by done. intros [? Ha] [? Hb]. rewrite Z.shiftr_lxor, Ha, Hb.
  split; [|done]. by apply Z.lxor_nonneg.
Qed.

Lemma shiftr_uint w n a : 0 <= n -> uint w a -> uint w (Z.shiftr a n).
Proof.
  unfold uint. intros Hn [? ?]. rewrite Z.shiftr_div_pow2 by done.
  split; [apply Z.div_pos; lia|]. apply Z.div_lt_upper_bound; [lia|]. pose proof (Z.pow_pos_nonneg 2 n). nia.
Qed.

(** Combining a low and a high half, [lo | (hi << w)], as every split field of
    the on-disk structures does. *)
Lemma lor_shiftl_add w lo hi :
  0 <= w -> uint w lo -> 0 <= hi -> Z.lor lo (Z.shiftl hi w) = lo + hi * 2 ^ w.
Proof.
  intros Hw [Hlo1 Hlo2] Hhi.
  assert (Hd : Z.land lo (Z.shiftl hi w) = 0).
  { apply Z.bits_inj_0. intros n.
    destruct (Z.lt_ge_cases n 0); [by rewrite Z.testbit_neg_r|].
    rewrite Z.land_spec, Z.shiftl_spec by done.
    destruct (Z.lt_ge_cases n w).
    - rewrite (Z.testbit_neg_r hi) by lia. apply andb_false_r.
    - destruct (Z.eq_dec lo 0) as [->|]; [by rewrite Z.testbit_0_l|].
      rewrite (Z.bits_above_log2 lo n); [done|done|].
      apply Z.log2_lt_pow2; [lia|]. pose proof (Z.pow_le_mono_r 2 w n). lia. }
  rewrite <- Z.shiftl_mul_pow2, <- Z.lxor_lor by done.
  symmetry. by apply Z.add_nocarry_lxor.
Qed.

Lemma div_ceil_spec a b :
  0 <= a -> 0 < b -> (div_ceil a b - 1) * b < a <= div_ceil a b * b \/ (a = 0 /\ div_ceil a b = 0).
Proof.
  intros Ha Hb. unfold div_ceil.
  destruct (Z.eq_dec a 0) as [->|].
  - right. split; [done|]. apply Z.div_small. lia.
  - left. pose proof (Z.div_mod (a + b - 1) b). pose proof (Z.mod_pos_bound (a + b - 1) b). nia.
Qed.

(** [(n + a - 1) & !(a - 1)] rounds up to a multiple of [a = 2^k]. *)
Lemma land_lnot_align k n :
  0 <= k -> 0 <= n ->
  Z.land (n + 2 ^ k - 1) (Z.lnot (2 ^ k - 1)) = div_ceil n (2 ^ k) * 2 ^ k.
Proof.
  intros Hk Hn. rewrite <- Z.ldiff_land.
  replace (2 ^ k - 1) with (Z.ones k) by (rewrite Z.ones_equiv; lia).
  rewrite Z.ldiff_ones_r, Z.shiftl_mul_pow2, Z.shiftr_div_pow2 by done. done.
Qed.

Lemma div_ceil_bounds n b : 0 <= n -> 0 < b -> n <= div_ceil n b * b < n + b.
Proof.
  intros Hn Hb. unfold div_ceil.
  pose proof (Z.div_mod (n + b - 1) b). pose proof (Z.mod_pos_bound (n + b - 1) b). nia.
Qed.

(** [fn align_up], defined alike in [dir.rs] and [xattr.rs]: [(n + align - 1) & !(align - 1)]. *)
Definition align_up (n align : Z) : Z := Z.land (n + align - 1) (Z.lnot (align - 1)).

Lemma align_up_4 n : 0 <= n -> n <= align_up n 4 < n + 4 /\ align_up n 4 mod 4 = 0.
Proof.
  intros Hn. unfold align_up.
  pose proof (land_lnot_align 2 n ltac:(lia) Hn) as E. change (2 ^ 2) with 4 in E. rewrite E.
  split; [by apply div_ceil_bounds|]. apply Z_mod_mult.
Qed.

(** ** Lists addressed by [Z] *)

Definition zlen {A} (l : list A) : Z := Z.of_nat (length l).

(** [l[off..off+len]], defined to be what is there when it runs past the end. *)
Definition slice {A} (off len : Z) (l : list A) : list A :=
  take (Z.to_nat len) (drop (Z.to_nat off) l).

(** [l] with [bs] written over it from [off] on. *)
Definition splice {A} (l : list A) (off : Z) (bs : list A) : list A :=
  take (Z.to_nat off) l ++ bs ++ drop (Z.to_nat off + length bs) l.

Definition zlookup {A} (l : list A) (i : Z) : option A :=
  if 0 <=? i then l !! Z.to_nat i else None.

(** [&l[a..b]]: [None] is the panic of a bad range. *)
Definition get_range {A} (l : list A) (a b : Z) : option (list A) :=
  if (0 <=? a) && (a <=? b) && (b <=? zlen l) then Some (slice a (b - a) l) else None.

Section ZLists.
Context {A : Type}.
Implicit Types (l bs : list A).

Lemma zlen_nonneg l : 0 <= zlen l.
Proof. unfold zlen. lia. Qed.
Lemma zlen_nil : zlen (A:=A) [] = 0.
Proof. done. Qed.
Lemma zlen_cons x l : zlen (x :: l) = 1 + zlen l.
Proof. unfold zlen. simpl length. lia. Qed.
Lemma zlen_app l1 l2 : zlen (l1 ++ l2) = zlen l1 + zlen l2.
Proof. unfold zlen. rewrite length_app. lia. Qed.
Lemma zlen_snoc l x : zlen (l ++ [x]) = zlen l + 1.
Proof. unfold zlen. rewrite length_app. simpl. lia. Qed.

Lemma zlen_drop n l : 0 <= n -> zlen (drop (Z.to_nat n) l) = Z.max 0 (zlen l - n).
Proof. intros. unfold zlen. rewrite length_drop. lia. Qed.
Lemma zlen_drop_nat n l : zlen (drop n l) = Z.max 0 (zlen l - Z.of_nat n).
Proof. unfold zlen. rewrite length_drop. lia. Qed.
Lemma zlen_take n l : 0 <= n -> zlen (take (Z.to_nat n) l) = Z.min n (zlen l).
Proof. intros. unfold zlen. rewrite length_take. lia. Qed.
Lemma zlen_replicate n (x : A) : 0 <= n -> zlen (replicate (Z.to_nat n) x) = n.
Proof. intros. unfold zlen. rewrite length_replicate. lia. Qed.

Lemma slice_app_skip off len l1 l2 :
  zlen l1 <= off -> slice off len (l1 ++ l2) = slice (off - zlen l1) len l2.
Proof.
  unfold slice, zlen. intros H. f_equal.
  rewrite drop_app_ge by lia. f_equal. lia.
Qed.

Lemma slice_app_hit len l1 l2 : zlen l1 = len -> slice 0 len (l1 ++ l2) = l1.
Proof.
  unfold slice, zlen. intros H. rewrite drop_0, take_app_le by lia.
  apply take_ge. lia.
Qed.

Lemma zlen_slice off len l :
  0 <= off -> 0 <= len -> off + len <= zlen l -> zlen (slice off len l) = len.
Proof.
  unfold slice, zlen. intros. rewrite length_take, length_drop. lia.
Qed.

Lemma slice_slice off len off' len' l :
  0 <= off -> 0 <= off' -> 0 <= len' -> off' + len' <= len ->
  slice off' len' (slice off len l) = slice (off + off') len' l.
Proof.
  unfold slice. intros.
  replace (Z.to_nat len) with (Z.to_nat off' + Z.to_nat (len - off'))%nat by lia.
  rewrite <- take_drop_commute, take_take, drop_drop. f_equal; [lia|f_equal; lia].
Qed.

Lemma slice_cons_app off n m l :
  0 <= off -> 0 <= n -> 0 <= m ->
  slice off n l ++ slice (off + n) m l = slice off (n + m) l.
Proof.
  unfold slice. intros.
  replace (Z.to_nat (off + n)) with (Z.to_nat off + Z.to_nat n)%nat by lia.
  rewrite <- drop_drop. replace (Z.to_nat (n + m)) with (Z.to_nat n + Z.to_nat m)%nat by lia.
  apply take_take_drop.
Qed.

Lemma zlen_splice l off bs :
  0 <= off -> off + zlen bs <= zlen l -> zlen (splice l off bs) = zlen l.
Proof.
  unfold splice, zlen. intros. rewrite !length_app, length_take, length_drop. lia.
Qed.

Lemma splice_app (d r : list A) bs off :
  zlen d = off -> splice (d ++ r) off bs = (d ++ bs) ++ drop (length bs) r.
Proof.
  intros Hd. unfold splice.
  assert (E : Z.to_nat off = length d) by (unfold zlen in Hd; lia).
  rewrite E, take_app_length, <- drop_drop, drop_app_length. by rewrite app_assoc.
Qed.

Lemma get_range_ok l a b :
  0 <= a <= b -> b <= zlen l -> get_range l a b = Some (slice a (b - a) l).
Proof.
  intros. unfold get_range.
  by rewrite (proj2 (Z.leb_le 0 a)), (proj2 (Z.leb_le a b)), (proj2 (Z.leb_le b _)) by lia.
Qed.

Lemma zlookup_nonneg l i : 0 <= i -> zlookup l i = l !! Z.to_nat i.
Proof. unfold zlookup. intros. by rewrite (proj2 (Z.leb_le 0 i)). Qed.
End ZLists.

Create HintDb bento.
Create Rewrite HintDb zlen.
#[export] Hint Rewrite @zlen_nil @zlen_cons @zlen_app : zlen.
#[export] Hint Resolve zlen_nonneg wrap_uint : bento.

Ltac zlen := autorewrite with zlen in *.

(** Turn boolean comparisons in the context and goal into propositions. *)
Ltac breflect :=
  repeat match goal with
  | H : (_ && _) = true |- _ => apply andb_true_iff in H as [? ?]
  | H : (_ || _) = false |- _ => apply orb_false_iff in H as [? ?]
  | H : negb _ = true |- _ => apply negb_true_iff in H
  | H : negb _ = false |- _ => apply negb_false_iff in H
  | H : (_ <=? _) = true |- _ => apply Z.leb_le in H
  | H : (_ <=? _) = false |- _ => apply Z.leb_gt in H
  | H : (_ <? _) = true |- _ => apply Z.ltb_lt in H
  | H : (_ <? _) = false |- _ => apply Z.ltb_ge in H
  | H : (_ =? _) = true |- _ => apply Z.eqb_eq in H
  | H : (_ =? _) = false |- _ => apply Z.eqb_neq in H
  end.

(** ** Stable sorting

    [slice::sort_by] and [sort_by_key]: a stable sort by a total preorder [le]. *)

Section StableSort.
Context {A : Type} (le : A -> A -> bool).

Fixpoint insert_by (x : A) (l : list A) : list A :=
  match l with
  | [] => [x]
  | y :: l => if le x y then x :: y :: l else y :: insert_by x l
  end.

Definition sort_by (l : list A) : list A := foldr insert_by [] l.

Lemma insert_by_perm x l : insert_by x l ≡ₚ x :: l.
Proof. induction l as [|y l IH]; simpl; [done|]. destruct (le x y); [done|]. rewrite IH. apply Permutation_swap. Qed.

Lemma sort_by_perm l : sort_by l ≡ₚ l.
Proof. induction l as [|x l IH]; simpl; [done|]. by rewrite insert_by_perm, IH. Qed.

Lemma elem_of_sort_by x l : x ∈ sort_by l <-> x ∈ l.
Proof. by rewrite sort_by_perm. Qed.

(** The elements that compare equal to each other keep their order. *)
Lemma insert_by_filter (P : A -> bool) x l : (forall y, P y = true -> P x = true -> le x y = true) ->
  List.filter P (insert_by x l) = List.filter P (x :: l).
Proof.
  intros H. induction l as [|y l IH]; [done|]. cbn [insert_by]. destruct (le x y) eqn:E; [done|].
  cbn [List.filter] in *. rewrite IH. destruct (P y) eqn:Py; [|done]. destruct (P x) eqn:Px; [|done].
  by rewrite H in E.
Qed.

Lemma sort_by_stable (P : A -> bool) l : (forall x y, P x = true -> P y = true -> le x y = true) ->
  List.filter P (sort_by l) = List.filter P l.
Proof.
  intros H. induction l as [|x l IH]; simpl; [done|]. rewrite insert_by_filter by auto. simpl. by rewrite IH.
Qed.
End StableSort.
