(* ===== verification/Bytes.v ===== *)
(** * Little-endian byte buffers

    The private helpers at the top of [common/ext4/src/types.rs]: [get_u8] ..
    [get_u64], [put_u8] .. [put_u64], [get_bytes] and [put_bytes].  A buffer
    [&[u8]] is a [list Z] of bytes; indexing outside it panics ([None]).

    The second half proves what the on-disk structures need: a buffer that is
    the concatenation of segments is read back segment by segment, and writing
    the segments at their offsets one after the other builds that concatenation.
    The class [DiskStruct] states what a structure of [types.rs] promises its
    clients (fixed size, encoding, total write, exact read, byte-for-byte
    inverse); its instances are in [SuperBlock.v] and [DiskTypes.v]. *)

From stdpp Require Import base list option numbers.
From S2P Require Import Prelude.

Abbreviation buffer := (list Z).

Definition byte_ok (b : Z) : Prop := uint 8 b.
Definition bytes_ok (buf : buffer) : Prop := Forall byte_ok buf.

#[export] Instance bytes_ok_decision buf : Decision (bytes_ok buf).
Proof. unfold bytes_ok, byte_ok. apply _. Defined.

(** [uN::to_le_bytes] and [uN::from_le_bytes], [n] bytes. *)
Fixpoint to_le_bytes (n : nat) (v : Z) : buffer :=
  match n with
  | O => []
  | S n => Z.land v 0xFF :: to_le_bytes n (Z.shiftr v 8)
  end.

Fixpoint from_le_bytes (bs : buffer) : Z :=
  match bs with
  | [] => 0
  | b :: bs => Z.lor b (Z.shiftl (from_le_bytes bs) 8)
  end.

(** ** The accessors *)

(** [buf[off]] *)
Definition get_u8 (buf : buffer) (off : Z) : option Z := zlookup buf off.

(** [buf[off] = v] *)
Definition put_u8 (buf : buffer) (off v : Z) : option buffer :=
  if (0 <=? off) && (off <? zlen buf) then Some (splice buf off [v]) else None.

Definition get_u16 (buf : buffer) (off : Z) : option Z :=
  b0 ← zlookup buf off;
  b1 ← zlookup buf (off + 1);
  Some (from_le_bytes [b0; b1]).

Definition put_u16 (buf : buffer) (off v : Z) : option buffer :=
  let b := to_le_bytes 2 v in
  b0 ← zlookup b 0; buf ← put_u8 buf off b0;
  b1 ← zlookup b 1; put_u8 buf (off + 1) b1.

(** [buf[off..off + src.len()].copy_from_slice(src)] *)
Definition put_bytes (buf : buffer) (off : Z) (src : buffer) : option buffer :=
  if (0 <=? off) && (off + zlen src <=? zlen buf) then Some (splice buf off src) else None.

Definition get_u32 (buf : buffer) (off : Z) : option Z :=
  b0 ← zlookup buf off;
  b1 ← zlookup buf (off + 1);
  b2 ← zlookup buf (off + 2);
  b3 ← zlookup buf (off + 3);
  Some (from_le_bytes [b0; b1; b2; b3]).

Definition put_u32 (buf : buffer) (off v : Z) : option buffer :=
  put_bytes buf off (to_le_bytes 4 v).

Definition get_u64 (buf : buffer) (off : Z) : option Z :=
  b0 ← zlookup buf off;
  b1 ← zlookup buf (off + 1);
  b2 ← zlookup buf (off + 2);
  b3 ← zlookup buf (off + 3);
  b4 ← zlookup buf (off + 4);
  b5 ← zlookup buf (off + 5);
  b6 ← zlookup buf (off + 6);
  b7 ← zlookup buf (off + 7);
  Some (from_le_bytes [b0; b1; b2; b3; b4; b5; b6; b7]).

Definition put_u64 (buf : buffer) (off v : Z) : option buffer :=
  put_bytes buf off (to_le_bytes 8 v).

(** [get_bytes::<N>]: [buf[off..off + N]] as an array. *)
Definition get_bytes (n : Z) (buf : buffer) (off : Z) : option buffer :=
  if (0 <=? off) && (off + n <=? zlen buf) then Some (slice off n buf) else None.

(** [buf[..n].fill(0)] *)
Definition fill_zero (buf : buffer) (n : Z) : option buffer :=
  put_bytes buf 0 (replicate (Z.to_nat n) 0).

(** [for (i, item) in arr.iter_mut().enumerate() { *item = get_u32(buf, off + i * 4) }] *)
Fixpoint get_u32_loop (n : nat) (buf : buffer) (off : Z) : option (list Z) :=
  match n with
  | O => Some []
  | S n => v ← get_u32 buf off; vs ← get_u32_loop n buf (off + 4); Some (v :: vs)
  end.

(** [for i in 0..n { put_u32(buf, off + i * 4, arr[i]) }]: the array is walked
    from its head, running out of elements is the index panic. *)
Fixpoint put_u32_loop (n : nat) (buf : buffer) (off : Z) (arr : list Z) : option buffer :=
  match n with
  | O => Some buf
  | S n => match arr with
           | [] => None
           | v :: arr => buf ← put_u32 buf off v; put_u32_loop n buf (off + 4) arr
           end
  end.

(** ** Little-endian encoding *)

Lemma to_le_bytes_length n v : length (to_le_bytes n v) = n.
Proof. revert v. induction n; intros v; simpl; [done|]. by rewrite IHn. Qed.

Lemma zlen_to_le_bytes n v : zlen (to_le_bytes n v) = Z.of_nat n.
Proof. unfold zlen. by rewrite to_le_bytes_length. Qed.

Lemma land_255 v : Z.land v 255 = v mod 2 ^ 8.
Proof. change 255 with (Z.ones 8). by apply Z.land_ones. Qed.

Lemma to_le_bytes_ok n v : bytes_ok (to_le_bytes n v).
Proof.
  revert v. induction n; intros v; simpl; constructor; [|apply IHn].
  unfold byte_ok, uint. rewrite land_255. by apply Z.mod_pos_bound.
Qed.

Lemma from_le_bytes_cons b bs :
  byte_ok b -> 0 <= from_le_bytes bs -> from_le_bytes (b :: bs) = b + from_le_bytes bs * 2 ^ 8.
Proof. intros Hb Hbs. cbn [from_le_bytes]. by apply lor_shiftl_add. Qed.

Lemma from_le_bytes_bound bs :
  bytes_ok bs -> 0 <= from_le_bytes bs < 2 ^ (8 * zlen bs).
Proof.
  induction 1 as [|b bs Hb Hbs IH]; [done|].
  rewrite from_le_bytes_cons by (done || lia). zlen.
  replace (8 * (1 + zlen bs)) with (8 * zlen bs + 8) by lia.
  pose proof (zlen_nonneg bs). rewrite Z.pow_add_r by lia.
  unfold byte_ok, uint in Hb. lia.
Qed.

Lemma from_to_le_bytes n v :
  from_le_bytes (to_le_bytes n v) = v mod 2 ^ (8 * Z.of_nat n).
Proof.
  revert v. induction n as [|n IH]; intros v; [by rewrite Z.mod_1_r|].
  cbn [to_le_bytes].
  pose proof (from_le_bytes_bound _ (to_le_bytes_ok n (Z.shiftr v 8))).
  rewrite from_le_bytes_cons; [|unfold byte_ok, uint|lia].
  2:{ rewrite land_255. by apply Z.mod_pos_bound. }
  rewrite IH, land_255, Z.shiftr_div_pow2 by lia.
  replace (8 * Z.of_nat (S n)) with (8 + 8 * Z.of_nat n) by lia.
  rewrite (Z.pow_add_r 2 8), Z.rem_mul_r by lia. lia.
Qed.

Lemma to_from_le_bytes bs :
  bytes_ok bs -> to_le_bytes (length bs) (from_le_bytes bs) = bs.
Proof.
  induction 1 as [|b bs Hb Hbs IH]; [done|].
  pose proof (from_le_bytes_bound bs Hbs).
  rewrite from_le_bytes_cons by (done || lia). cbn [length to_le_bytes].
  unfold byte_ok, uint in Hb. f_equal.
  - rewrite land_255, Z_mod_plus_full. by apply Z.mod_small.
  - rewrite Z.shiftr_div_pow2, Z.div_add, (Z.div_small b) by lia.
    rewrite Z.add_0_l. apply IH.
Qed.

Lemma from_to_le_bytes_id n v :
  uint (8 * Z.of_nat n) v -> from_le_bytes (to_le_bytes n v) = v.
Proof. intros H. rewrite from_to_le_bytes. apply Z.mod_small, H. Qed.

Lemma bytes_ok_take n buf : bytes_ok buf -> bytes_ok (take n buf).
Proof. apply Forall_take. Qed.
Lemma bytes_ok_drop n buf : bytes_ok buf -> bytes_ok (drop n buf).
Proof. apply Forall_drop. Qed.
Lemma bytes_ok_slice off n buf : bytes_ok buf -> bytes_ok (slice off n buf).
Proof. intros. by apply bytes_ok_take, bytes_ok_drop. Qed.
Lemma bytes_ok_app b1 b2 : bytes_ok (b1 ++ b2) <-> bytes_ok b1 /\ bytes_ok b2.
Proof. apply Forall_app. Qed.
Lemma bytes_ok_zeros n : bytes_ok (replicate n 0).
Proof. apply Forall_replicate. split; lia. Qed.

Lemma to_from_slice n off buf :
  bytes_ok buf -> 0 <= off -> off + Z.of_nat n <= zlen buf ->
  to_le_bytes n (from_le_bytes (slice off (Z.of_nat n) buf)) = slice off (Z.of_nat n) buf.
Proof.
  intros Hok Hoff Hlen.
  pose proof (to_from_le_bytes _ (bytes_ok_slice off (Z.of_nat n) _ Hok)) as E.
  assert (L : length (slice off (Z.of_nat n) buf) = n).
  { pose proof (zlen_slice off (Z.of_nat n) buf). unfold zlen in *. lia. }
  by rewrite L in E.
Qed.

Lemma from_slice_uint n off buf :
  bytes_ok buf -> 0 <= off -> 0 <= n -> off + n <= zlen buf ->
  uint (8 * n) (from_le_bytes (slice off n buf)).
Proof.
  intros Hok ???. pose proof (from_le_bytes_bound _ (bytes_ok_slice off n _ Hok)) as Hb.
  rewrite zlen_slice in Hb by lia. exact Hb.
Qed.

(** ** Every accessor is a [get_bytes] or a [put_bytes] *)

Lemma get_bytes_in n buf off :
  0 <= off -> off + n <= zlen buf -> get_bytes n buf off = Some (slice off n buf).
Proof. intros. unfold get_bytes. by rewrite (proj2 (Z.leb_le _ _)), (proj2 (Z.leb_le _ _)). Qed.

Lemma get_bytes_out n buf off : zlen buf < off + n -> get_bytes n buf off = None.
Proof. intros. unfold get_bytes. by rewrite (proj2 (Z.leb_gt (off + n) _)), andb_false_r. Qed.

Lemma put_bytes_in buf off src :
  0 <= off -> off + zlen src <= zlen buf -> put_bytes buf off src = Some (splice buf off src).
Proof. intros. unfold put_bytes. by rewrite (proj2 (Z.leb_le _ _)), (proj2 (Z.leb_le _ _)). Qed.

Lemma put_bytes_out buf off src : zlen buf < off + zlen src -> put_bytes buf off src = None.
Proof.
  intros. unfold put_bytes. by rewrite (proj2 (Z.leb_gt (off + zlen src) _)), andb_false_r.
Qed.

Lemma put_bytes_zlen buf off src buf' : put_bytes buf off src = Some buf' -> zlen buf' = zlen buf.
Proof.
  unfold put_bytes. case_match; intros; simplify_eq. breflect. by apply zlen_splice.
Qed.

Lemma slice_0 {A} off (l : list A) : slice off 0 l = [].
Proof. done. Qed.

Lemma slice_succ off n (buf : buffer) b :
  0 <= off -> 0 <= n -> zlookup buf off = Some b ->
  slice off (1 + n) buf = b :: slice (off + 1) n buf.
Proof.
  intros Ho Hn Hb. rewrite zlookup_nonneg in Hb by done.
  unfold slice. replace (Z.to_nat (1 + n)) with (S (Z.to_nat n)) by lia.
  rewrite (drop_S buf b) by done. cbn [take]. by replace (Z.to_nat (off + 1)) with (S (Z.to_nat off)) by lia.
Qed.

Lemma get_bytes_succ n buf off :
  0 <= off -> 0 < n ->
  get_bytes (1 + n) buf off =
    (b ← zlookup buf off; bs ← get_bytes n buf (off + 1); Some (b :: bs)).
Proof.
  intros Ho Hn. destruct (zlookup buf off) as [b|] eqn:Hb; simpl.
  - assert (off < zlen buf).
    { rewrite zlookup_nonneg in Hb by done. apply lookup_lt_Some in Hb. unfold zlen. lia. }
    destruct (Z.le_gt_cases (off + (1 + n)) (zlen buf)).
    + rewrite !get_bytes_in by lia. simpl. by rewrite (slice_succ off n buf b) by (done || lia).
    + by rewrite !get_bytes_out by lia.
  - rewrite zlookup_nonneg in Hb by done. apply lookup_ge_None in Hb.
    apply get_bytes_out. unfold zlen. lia.
Qed.

Lemma get_bytes_one buf off :
  0 <= off -> get_bytes 1 buf off = (b ← zlookup buf off; Some [b]).
Proof.
  intros Ho. destruct (zlookup buf off) as [b|] eqn:Hb; simpl.
  - assert (off < zlen buf).
    { rewrite zlookup_nonneg in Hb by done. apply lookup_lt_Some in Hb. unfold zlen. lia. }
    rewrite get_bytes_in by lia. f_equal. by apply (slice_succ off 0).
  - rewrite zlookup_nonneg in Hb by done. apply lookup_ge_None in Hb.
    apply get_bytes_out. unfold zlen. lia.
Qed.

Ltac gather_bytes :=
  repeat match goal with
  | |- context [get_bytes 1 ?b ?o] => rewrite (get_bytes_one b o) by lia
  | |- context [get_bytes ?n ?b ?o] =>
      let m := eval vm_compute in (n - 1) in
      let H := fresh in
      pose proof (get_bytes_succ m b o) as H; change (1 + m) with n in H;
      rewrite H by lia; clear H
  | |- context [zlookup ?b ?o ≫= _] => destruct (zlookup b o); simpl; [|done]
  end.

Lemma get_u8_spec buf off :
  0 <= off -> get_u8 buf off = (bs ← get_bytes 1 buf off; Some (from_le_bytes bs)).
Proof.
  intros Ho. unfold get_u8. rewrite get_bytes_one by done.
  destruct (zlookup buf off); simpl; [|done]. by rewrite Z.lor_0_r.
Qed.

Lemma get_u16_spec buf off :
  0 <= off -> get_u16 buf off = (bs ← get_bytes 2 buf off; Some (from_le_bytes bs)).
Proof. intros Ho. unfold get_u16. gather_bytes. done. Qed.

Lemma get_u32_spec buf off :
  0 <= off -> get_u32 buf off = (bs ← get_bytes 4 buf off; Some (from_le_bytes bs)).
Proof.
  intros Ho. unfold get_u32.
  replace (off + 3) with (off + 1 + 1 + 1) by lia. replace (off + 2) with (off + 1 + 1) by lia.
  gather_bytes. done.
Qed.

Lemma get_u64_spec buf off :
  0 <= off -> get_u64 buf off = (bs ← get_bytes 8 buf off; Some (from_le_bytes bs)).
Proof.
  intros Ho. unfold get_u64.
  replace (off + 7) with (off + 1 + 1 + 1 + 1 + 1 + 1 + 1) by lia.
  replace (off + 6) with (off + 1 + 1 + 1 + 1 + 1 + 1) by lia.
  replace (off + 5) with (off + 1 + 1 + 1 + 1 + 1) by lia.
  replace (off + 4) with (off + 1 + 1 + 1 + 1) by lia.
  replace (off + 3) with (off + 1 + 1 + 1) by lia. replace (off + 2) with (off + 1 + 1) by lia.
  gather_bytes. done.
Qed.

Lemma put_u8_put_bytes buf off v : put_u8 buf off v = put_bytes buf off [v].
Proof.
  unfold put_u8, put_bytes. zlen.
  by replace (off + (1 + 0) <=? zlen buf) with (off <? zlen buf) by lia.
Qed.

Lemma put_u8_spec buf off v :
  uint 8 v -> put_u8 buf off v = put_bytes buf off (to_le_bytes 1 v).
Proof.
  intros Hv. rewrite put_u8_put_bytes. cbn [to_le_bytes]. by rewrite land_255, Z.mod_small.
Qed.

Lemma splice_splice_next (buf : buffer) off b0 b1 :
  0 <= off -> off + 2 <= zlen buf ->
  splice (splice buf off [b0]) (off + 1) [b1] = splice buf off [b0; b1].
Proof.
  intros Ho Hl. unfold zlen in Hl.
  assert (E : splice buf off [b0] =
    (take (Z.to_nat off) buf ++ [b0]) ++ drop (Z.to_nat off + 1) buf)
    by (unfold splice; by rewrite <- app_assoc).
  rewrite E, splice_app.
  - unfold splice. rewrite drop_drop, <- !app_assoc. simpl. do 4 f_equal. lia.
  - zlen. rewrite zlen_take by done. unfold zlen. lia.
Qed.

Lemma put_u16_spec buf off v :
  0 <= off -> put_u16 buf off v = put_bytes buf off (to_le_bytes 2 v).
Proof.
  intros Ho. unfold put_u16. set (b := to_le_bytes 2 v).
  assert (zlen b = 2) by apply zlen_to_le_bytes.
  change (zlookup b 0) with (Some (Z.land v 255)).
  change (zlookup b 1) with (Some (Z.land (Z.shiftr v 8) 255)). cbn [mbind option_bind].
  rewrite put_u8_put_bytes.
  destruct (Z.lt_ge_cases off (zlen buf)).
  - rewrite put_bytes_in by (zlen; lia). simpl. rewrite put_u8_put_bytes.
    assert (Hl : zlen (splice buf off [Z.land v 255]) = zlen buf) by (apply zlen_splice; zlen; lia).
    destruct (Z.lt_ge_cases (off + 1) (zlen buf)).
    + rewrite !put_bytes_in by (zlen; lia). f_equal. apply splice_splice_next; lia.
    + by rewrite !put_bytes_out by (zlen; lia).
  - by rewrite !put_bytes_out by (zlen; lia).
Qed.

(** ** Segmented buffers

    A structure is described by the list of its encoded fields ([segs]) and the
    list of their lengths ([lens]). *)

Definition zsum (l : list Z) : Z := foldr Z.add 0 l.

(** The segment that starts at [off]: its index, if a segment starts there. *)
Fixpoint find_seg (lens : list Z) (off : Z) : option nat :=
  match lens with
  | [] => None
  | l :: lens => if off =? 0 then Some O else S <$> find_seg lens (off - l)
  end.

(** Write the segments one after the other from [off] on. *)
Fixpoint write_segs (off : Z) (lens : list Z) (segs : list buffer) (buf : buffer) : option buffer :=
  match lens, segs with
  | l :: lens, s :: segs => buf ← put_bytes buf off s; write_segs (off + l) lens segs buf
  | _, _ => Some buf
  end.

(** Cut [buf] at the given lengths. *)
Fixpoint cut (off : Z) (lens : list Z) (buf : buffer) : list buffer :=
  match lens with
  | [] => []
  | l :: lens => slice off l buf :: cut (off + l) lens buf
  end.

Lemma zsum_cons z l : zsum (z :: l) = z + zsum l.
Proof. done. Qed.

Lemma zsum_app l1 l2 : zsum (l1 ++ l2) = zsum l1 + zsum l2.
Proof. unfold zsum. induction l1; simpl; lia. Qed.
Lemma zsum_perm l1 l2 : l1 ≡ₚ l2 -> zsum l1 = zsum l2.
Proof. unfold zsum. induction 1; simpl; lia. Qed.
Lemma zsum_nonneg l : Forall (fun z => 0 <= z) l -> 0 <= zsum l.
Proof. induction 1; simpl; lia. Qed.

Lemma zlen_concat (segs : list buffer) : zlen (concat segs) = zsum (zlen <$> segs).
Proof. induction segs as [|s segs IH]; simpl; [done|]. by rewrite zlen_app, IH. Qed.

Lemma zsum_zlens_nonneg (segs : list buffer) : 0 <= zsum (zlen <$> segs).
Proof. rewrite <- zlen_concat. apply zlen_nonneg. Qed.

Lemma get_bytes_seg lens segs rest off i s :
  zlen <$> segs = lens -> find_seg lens off = Some i -> segs !! i = Some s ->
  get_bytes (zlen s) (concat segs ++ rest) off = Some s.
Proof.
  intros <-. revert off i. induction segs as [|s0 segs IH]; intros off i Hf Hs; [done|].
  cbn [fmap list_fmap find_seg] in Hf. destruct (Z.eqb_spec off 0) as [->|Hne].
  - simplify_eq. simpl in Hs. simplify_eq. rewrite get_bytes_in.
    + simpl. rewrite <- app_assoc. f_equal. by apply slice_app_hit.
    + lia.
    + simpl. rewrite !zlen_app. pose proof (zlen_nonneg (concat segs)). pose proof (zlen_nonneg rest). lia.
  - destruct (find_seg _ (off - zlen s0)) as [j|] eqn:E; [|done]. simpl in Hf. simplify_eq.
    simpl in Hs. specialize (IH _ _ E Hs).
    unfold get_bytes in IH |- *. case_match eqn:C; [|done]. breflect. simplify_eq.
    simpl. rewrite <- app_assoc.
    rewrite zlen_app, !(proj2 (Z.leb_le _ _)) by (pose proof (zlen_nonneg s0); lia).
    simpl. f_equal. rewrite slice_app_skip by lia. congruence.
Qed.

Lemma write_segs_spec lens segs off pre buf :
  zlen <$> segs = lens -> zlen pre = off -> 0 <= zsum lens <= zlen buf ->
  write_segs off lens segs (pre ++ buf) =
    Some (pre ++ concat segs ++ drop (Z.to_nat (zsum lens)) buf).
Proof.
  intros <-. revert off pre buf. induction segs as [|s segs IH]; intros off pre buf Hp Hl; [done|].
  rewrite fmap_cons, zsum_cons in *. cbn [write_segs concat].
  pose proof (zsum_zlens_nonneg segs). pose proof (zlen_nonneg pre). pose proof (zlen_nonneg s).
  rewrite put_bytes_in by (rewrite ?zlen_app; lia). cbn [mbind option_bind].
  rewrite splice_app by done.
  rewrite IH; [|by rewrite zlen_app, Hp|rewrite zlen_drop_nat; unfold zlen in *; lia].
  rewrite drop_drop, <- !app_assoc. do 5 f_equal. unfold zlen in *. lia.
Qed.

Lemma write_segs_short lens segs off buf :
  zlen <$> segs = lens -> 0 <= off <= zlen buf -> zlen buf < off + zsum lens ->
  write_segs off lens segs buf = None.
Proof.
  intros <-. revert off buf. induction segs as [|s segs IH]; intros off buf Ho Hs.
  { unfold zsum in Hs. simpl in Hs. lia. }
  rewrite fmap_cons, zsum_cons in *. cbn [write_segs].
  destruct (put_bytes buf off s) as [buf'|] eqn:E; simpl; [|done].
  pose proof (put_bytes_zlen _ _ _ _ E). pose proof (zlen_nonneg s).
  assert (off + zlen s <= zlen buf).
  { unfold put_bytes in E. case_match; [|done]. breflect. lia. }
  apply IH; lia.
Qed.

Lemma concat_cut off lens buf :
  0 <= off -> Forall (fun l => 0 <= l) lens ->
  concat (cut off lens buf) = slice off (zsum lens) buf.
Proof.
  intros Ho Hl. revert off Ho. induction Hl as [|l lens Hl Hls IH]; intros off Ho; simpl; [done|].
  rewrite IH by lia. apply slice_cons_app; [lia|lia|by apply zsum_nonneg].
Qed.

(** ** Fixed-size arrays of [u32] *)

Definition u32_array (vs : list Z) : buffer := concat (to_le_bytes 4 <$> vs).

Lemma zlen_u32_array vs : zlen (u32_array vs) = 4 * zlen vs.
Proof.
  unfold u32_array. induction vs as [|v vs IH]; [done|].
  rewrite fmap_cons. cbn [concat]. rewrite zlen_app, IH, zlen_to_le_bytes, zlen_cons. lia.
Qed.

Lemma u32_array_ok vs : bytes_ok (u32_array vs).
Proof.
  unfold u32_array. induction vs as [|v vs IH]; [constructor|].
  apply bytes_ok_app. split; [apply to_le_bytes_ok|done].
Qed.

Lemma put_u32_loop_spec n buf off vs :
  length vs = S n -> 0 <= off ->
  put_u32_loop (S n) buf off vs = put_bytes buf off (u32_array vs).
Proof.
  revert buf off vs. induction n as [|n IH]; intros buf off [|v vs] Hv Ho; try done; cbn [length] in Hv.
  - destruct vs; [|done]. cbn [put_u32_loop]. unfold u32_array. cbn [fmap list_fmap concat].
    rewrite app_nil_r. unfold put_u32. by destruct (put_bytes _ _ _).
  - change (put_u32_loop (S (S n)) buf off (v :: vs))
      with (put_u32 buf off v ≫= fun b => put_u32_loop (S n) b (off + 4) vs).
    unfold put_u32. change (u32_array (v :: vs)) with (to_le_bytes 4 v ++ u32_array vs).
    assert (H4 : zlen (to_le_bytes 4 v) = 4) by apply zlen_to_le_bytes.
    assert (Hvs : zlen (u32_array vs) = 4 * (1 + Z.of_nat n))
      by (rewrite zlen_u32_array; unfold zlen; lia).
    destruct (Z.le_gt_cases (off + 4) (zlen buf)).
    + rewrite put_bytes_in by lia. cbn [mbind option_bind]. rewrite IH by lia.
      assert (Hl : zlen (splice buf off (to_le_bytes 4 v)) = zlen buf) by (apply zlen_splice; lia).
      destruct (Z.le_gt_cases (off + 4 + zlen (u32_array vs)) (zlen buf)).
      * rewrite !put_bytes_in by (rewrite ?zlen_app; lia). f_equal.
        unfold splice at 2. rewrite app_assoc, splice_app.
        -- unfold splice. rewrite drop_drop, length_app, <- !app_assoc. do 4 f_equal. lia.
        -- rewrite zlen_app, zlen_take by lia. lia.
      * by rewrite !put_bytes_out by (rewrite ?zlen_app; lia).
    + by rewrite !put_bytes_out by (rewrite ?zlen_app; lia).
Qed.

Lemma get_u32_in buf off :
  0 <= off -> off + 4 <= zlen buf ->
  get_u32 buf off = Some (from_le_bytes (slice off 4 buf)).
Proof. intros. by rewrite get_u32_spec, get_bytes_in. Qed.

Lemma get_u32_loop_app n vs rest pre off :
  length vs = n -> Forall (uint 32) vs -> zlen pre = off ->
  get_u32_loop n (pre ++ u32_array vs ++ rest) off = Some vs.
Proof.
  revert vs pre off. induction n as [|n IH]; intros [|v vs] pre off Hv Hf Hp; try done.
  apply Forall_cons_1 in Hf as [Hu Hf]. cbn [length] in Hv.
  assert (Hl : zlen (to_le_bytes 4 v) = 4) by apply zlen_to_le_bytes.
  change (u32_array (v :: vs)) with (to_le_bytes 4 v ++ u32_array vs).
  pose proof (zlen_nonneg pre). pose proof (zlen_nonneg rest). pose proof (zlen_nonneg (u32_array vs)).
  cbn [get_u32_loop]. rewrite get_u32_in by (rewrite ?zlen_app; lia).
  rewrite slice_app_skip, <- app_assoc by lia. replace (off - zlen pre) with 0 by lia.
  rewrite slice_app_hit, from_to_le_bytes_id by done. cbn [mbind option_bind].
  rewrite app_assoc, IH; [done|lia|done|]. rewrite zlen_app. lia.
Qed.

Lemma get_u32_loop_total n buf off :
  bytes_ok buf -> 0 <= off -> off + 4 * Z.of_nat n <= zlen buf ->
  exists vs, get_u32_loop n buf off = Some vs /\ zlen vs = Z.of_nat n /\
             Forall (uint 32) vs /\ u32_array vs = slice off (4 * Z.of_nat n) buf.
Proof.
  intros Hok. revert off. induction n as [|n IH]; intros off Ho Hl.
  { exists []. repeat split; auto. }
  destruct (IH (off + 4)) as (vs & E & Hv & Hf & Ha); [lia..|].
  exists (from_le_bytes (slice off 4 buf) :: vs). repeat split.
  - cbn [get_u32_loop]. rewrite get_u32_in by lia. cbn [mbind option_bind]. by rewrite E.
  - rewrite zlen_cons. lia.
  - constructor; [|done]. apply (from_slice_uint 4); [done|lia..].
  - change (u32_array (from_le_bytes (slice off 4 buf) :: vs))
      with (to_le_bytes 4 (from_le_bytes (slice off 4 buf)) ++ u32_array vs).
    rewrite (to_from_slice 4) by (done || lia). rewrite Ha. change (Z.of_nat 4) with 4.
    rewrite slice_cons_app by lia. f_equal. lia.
Qed.

(** ** The contract of an on-disk structure *)

Class DiskStruct (A : Type) := {
  ds_size : Z;                        (** [A::SIZE] *)
  ds_wf : A -> Prop;                  (** every field within its Rust type *)
  ds_layout : A -> list buffer;       (** the encoded fields, in disk order *)
  ds_lens : list Z;
  ds_read : buffer -> option A;       (** [A::read_from] *)
  ds_write : A -> buffer -> option buffer;  (** [A::write_to] *)
}.

Definition ds_bytes {A} `{DiskStruct A} (a : A) : buffer := concat (ds_layout a).

Class DiskStructOk (A : Type) `{DiskStruct A} : Prop := {
  ds_lens_sum : zsum (ds_lens (A:=A)) = ds_size (A:=A);
  ds_lens_nonneg : Forall (fun l => 0 <= l) (ds_lens (A:=A));
  ds_lens_ok (a : A) : ds_wf a -> zlen <$> ds_layout a = ds_lens (A:=A);
  ds_layout_ok (a : A) : ds_wf a -> Forall bytes_ok (ds_layout a);
  ds_write_segs (a : A) buf : ds_wf a ->
    exists buf0, (ds_size (A:=A) <= zlen buf -> zlen buf0 = zlen buf /\
      drop (Z.to_nat (ds_size (A:=A))) buf0 = drop (Z.to_nat (ds_size (A:=A))) buf) /\
    ds_write a buf = if ds_size (A:=A) <=? zlen buf
                     then write_segs 0 (ds_lens (A:=A)) (ds_layout a) buf0 else None;
  ds_read_bytes (a : A) rest : ds_wf a -> ds_read (ds_bytes a ++ rest) = Some a;
  ds_read_total buf : bytes_ok buf -> ds_size (A:=A) <= zlen buf ->
    exists a : A, ds_read buf = Some a /\ ds_wf a /\
      ds_layout a = cut 0 (ds_lens (A:=A)) buf;
  ds_read_short buf : zlen buf < ds_size (A:=A) -> ds_read (A:=A) buf = None;
}.

(** What a client of a structure may use, whatever the structure. *)
Section DiskStructFacts.
Context {A : Type} {DS : DiskStruct A} {DSO : DiskStructOk A}.
Implicit Types (a : A) (buf : buffer).
Local Abbreviation size := (ds_size (A:=A)).

Lemma ds_size_nonneg : 0 <= size.
Proof. rewrite <- ds_lens_sum. apply zsum_nonneg, ds_lens_nonneg. Qed.

Lemma ds_bytes_zlen a : ds_wf a -> zlen (ds_bytes a) = size.
Proof. intros H. unfold ds_bytes. by rewrite zlen_concat, ds_lens_ok, ds_lens_sum. Qed.

Lemma ds_bytes_bytes_ok a : ds_wf a -> bytes_ok (ds_bytes a).
Proof.
  intros H. unfold ds_bytes. apply ds_layout_ok in H.
  induction H; simpl; [constructor|]. by apply bytes_ok_app.
Qed.

(** A write succeeds exactly when the buffer holds the structure, and replaces
    its first [size] bytes by the encoding. *)
Lemma ds_write_spec a buf :
  ds_wf a -> size <= zlen buf ->
  ds_write a buf = Some (ds_bytes a ++ drop (Z.to_nat size) buf).
Proof.
  intros Hwf Hl. destruct (ds_write_segs a buf Hwf) as (buf0 & Hb & ->).
  destruct (Hb Hl) as [Hl0 Hd]. rewrite (proj2 (Z.leb_le _ _)) by done.
  rewrite (write_segs_spec _ _ 0 [] buf0);
    [|by apply ds_lens_ok|done|rewrite ds_lens_sum; pose proof ds_size_nonneg; lia].
  rewrite ds_lens_sum, Hd. done.
Qed.

Lemma ds_write_short a buf : ds_wf a -> zlen buf < size -> ds_write a buf = None.
Proof.
  intros Hwf Hl. destruct (ds_write_segs a buf Hwf) as (buf0 & _ & ->).
  by rewrite (proj2 (Z.leb_gt _ _)).
Qed.

Lemma ds_write_read a buf :
  ds_wf a -> size <= zlen buf ->
  exists buf', ds_write a buf = Some buf' /\ ds_read buf' = Some a /\
    zlen buf' = zlen buf /\ drop (Z.to_nat size) buf' = drop (Z.to_nat size) buf.
Proof.
  intros Hwf Hl. eexists. split; [by apply ds_write_spec|]. split; [by apply ds_read_bytes|].
  pose proof (ds_bytes_zlen a Hwf). pose proof ds_size_nonneg. split.
  - rewrite zlen_app, zlen_drop by done. lia.
  - apply drop_app_length'. unfold zlen in *. lia.
Qed.

Lemma ds_read_bytes_eq a buf :
  bytes_ok buf -> ds_read buf = Some a ->
  ds_wf a /\ ds_bytes a = take (Z.to_nat size) buf.
Proof.
  intros Hok Hr.
  destruct (Z.le_gt_cases size (zlen buf)) as [Hl|Hl]; [|by rewrite ds_read_short in Hr].
  destruct (ds_read_total buf Hok Hl) as (a' & Hr' & Hwf & Hla). simplify_eq.
  split; [done|]. unfold ds_bytes. rewrite Hla, concat_cut, ds_lens_sum; [done|done|].
  apply ds_lens_nonneg.
Qed.

(** Every byte is owned by a field: writing back what was read is the identity. *)
Lemma ds_read_write a buf :
  bytes_ok buf -> ds_read buf = Some a -> ds_write a buf = Some buf.
Proof.
  intros Hok Hr. destruct (ds_read_bytes_eq a buf Hok Hr) as [Hwf Hb].
  rewrite ds_write_spec, Hb; [by rewrite take_drop|done|].
  destruct (Z.le_gt_cases size (zlen buf)); [done|]. by rewrite ds_read_short in Hr.
Qed.

Lemma ds_bytes_inj a a' : ds_wf a -> ds_wf a' -> ds_bytes a = ds_bytes a' -> a = a'.
Proof.
  intros H H' E. pose proof (ds_read_bytes a [] H). rewrite E, ds_read_bytes in *; congruence.
Qed.
End DiskStructFacts.

(** ** Automation for the instances *)

#[global] Arguments cut : simpl never.
#[global] Arguments slice : simpl never.
#[global] Arguments to_le_bytes : simpl never.
#[global] Arguments from_le_bytes : simpl never.

(** [debug_assert!(b)]: where it fails the accesses below it are out of range. *)
Definition debug_assert (b : bool) : option unit := if b then Some tt else None.

Section Steps.
Implicit Types (segs : list buffer) (buf rest s : buffer).

Lemma write_step (k : buffer -> option buffer) off off' l lens s segs buf :
  off + l = off' -> (forall b, k b = write_segs off' lens segs b) ->
  (put_bytes buf off s ≫= k) = write_segs off (l :: lens) (s :: segs) buf.
Proof. intros <- Hk. simpl. destruct (put_bytes buf off s); simpl; [apply Hk|done]. Qed.

Lemma write_last off l s buf : put_bytes buf off s = write_segs off [l] [s] buf.
Proof. simpl. by destruct (put_bytes buf off s). Qed.

Lemma read_seg n lens segs rest off i s :
  zlen <$> segs = lens -> find_seg lens off = Some i -> segs !! i = Some s -> zlen s = n ->
  get_bytes n (concat segs ++ rest) off = Some s.
Proof. intros ??? <-. by eapply get_bytes_seg. Qed.

Lemma find_seg_nonneg lens off i :
  Forall (fun l => 0 <= l) lens -> find_seg lens off = Some i -> 0 <= off.
Proof.
  intros Hl. revert off i. induction Hl as [|l lens Hl Hls IH]; intros off i; simpl; [done|].
  destruct (Z.eqb_spec off 0); [lia|].
  destruct (find_seg lens (off - l)) eqn:E; simpl; [|done]. intros _. apply IH in E. lia.
Qed.

Section Read.
Context (lens : list Z) segs rest (Hlens : zlen <$> segs = lens).

Lemma read_nonneg off i : find_seg lens off = Some i -> 0 <= off.
Proof.
  apply find_seg_nonneg. rewrite <- Hlens. apply Forall_fmap, Forall_true.
  intros. apply zlen_nonneg.
Qed.

Local Ltac read spec :=
  intros Hi Hs Hv; rewrite spec by (by eapply read_nonneg);
  erewrite read_seg; [|done|done|done|apply zlen_to_le_bytes];
  cbn [mbind option_bind]; by rewrite from_to_le_bytes_id.

Lemma read_u8_seg off i v :
  find_seg lens off = Some i -> segs !! i = Some (to_le_bytes 1 v) -> uint 8 v ->
  get_u8 (concat segs ++ rest) off = Some v.
Proof. read get_u8_spec. Qed.
Lemma read_u16_seg off i v :
  find_seg lens off = Some i -> segs !! i = Some (to_le_bytes 2 v) -> uint 16 v ->
  get_u16 (concat segs ++ rest) off = Some v.
Proof. read get_u16_spec. Qed.
Lemma read_u32_seg off i v :
  find_seg lens off = Some i -> segs !! i = Some (to_le_bytes 4 v) -> uint 32 v ->
  get_u32 (concat segs ++ rest) off = Some v.
Proof. read get_u32_spec. Qed.
Lemma read_u64_seg off i v :
  find_seg lens off = Some i -> segs !! i = Some (to_le_bytes 8 v) -> uint 64 v ->
  get_u64 (concat segs ++ rest) off = Some v.
Proof. read get_u64_spec. Qed.

Lemma read_array_seg n off i vs :
  find_seg lens off = Some i -> segs !! i = Some (u32_array vs) ->
  zlen vs = Z.of_nat n -> Forall (uint 32) vs ->
  get_u32_loop n (concat segs ++ rest) off = Some vs.
Proof.
  intros Hi Hs Hn Hv. pose proof (read_nonneg _ _ Hi).
  pose proof (read_seg _ lens segs rest off i _ Hlens Hi Hs eq_refl) as E.
  unfold get_bytes in E. case_match eqn:C; [|done]. breflect. injection E as E.
  set (b := concat segs ++ rest) in *.
  rewrite <- (take_drop (Z.to_nat off) b) at 1. unfold slice in E.
  rewrite <- (take_drop (Z.to_nat (zlen (u32_array vs))) (drop (Z.to_nat off) b)), E.
  apply get_u32_loop_app; [unfold zlen in Hn; lia|done|].
  rewrite zlen_take by done. pose proof (zlen_nonneg (u32_array vs)). lia.
Qed.
End Read.

Lemma get_u8_in buf off :
  0 <= off -> off + 1 <= zlen buf -> get_u8 buf off = Some (from_le_bytes (slice off 1 buf)).
Proof. intros. by rewrite get_u8_spec, get_bytes_in. Qed.
Lemma get_u16_in buf off :
  0 <= off -> off + 2 <= zlen buf -> get_u16 buf off = Some (from_le_bytes (slice off 2 buf)).
Proof. intros. by rewrite get_u16_spec, get_bytes_in. Qed.
Lemma get_u64_in buf off :
  0 <= off -> off + 8 <= zlen buf -> get_u64 buf off = Some (from_le_bytes (slice off 8 buf)).
Proof. intros. by rewrite get_u64_spec, get_bytes_in. Qed.

Lemma cut_step off off' l lens buf s segs :
  off + l = off' -> s = slice off l buf -> segs = cut off' lens buf ->
  s :: segs = cut off (l :: lens) buf.
Proof. intros <- -> ->. reflexivity. Qed.

Lemma fill_zero_spec buf n :
  0 <= n <= zlen buf ->
  exists buf0, fill_zero buf n = Some buf0 /\ zlen buf0 = zlen buf /\
               drop (Z.to_nat n) buf0 = drop (Z.to_nat n) buf.
Proof.
  intros Hn. eexists. split; [apply put_bytes_in; rewrite ?zlen_replicate; lia|].
  split; [apply zlen_splice; rewrite ?zlen_replicate; lia|].
  unfold splice. rewrite take_0, length_replicate. simpl.
  rewrite drop_app_length'; [done|]. by rewrite length_replicate.
Qed.
End Steps.

(** Closed comparisons of constants, defined or literal. *)
Ltac zconst := first [ lia | vm_compute; congruence ].

(** Symbolic execution of a [write_to] body against [write_segs]. *)
Ltac write_fields :=
  repeat (cbn beta; lazymatch goal with
  | |- _ = write_segs _ [_] [_] _ =>
      lazymatch goal with
      | |- put_u16 ?b ?o ?v = _ => rewrite (put_u16_spec b o v) by zconst
      | |- put_u8 ?b ?o ?v = _ => rewrite (put_u8_spec b o v) by assumption
      | |- put_u32 ?b ?o ?v = _ => change (put_u32 b o v) with (put_bytes b o (to_le_bytes 4 v))
      | _ => idtac
      end; apply write_last
  | |- (put_u16 ?b ?o ?v ≫= _) = _ => rewrite (put_u16_spec b o v) by zconst
  | |- (put_u8 ?b ?o ?v ≫= _) = _ => rewrite (put_u8_spec b o v) by assumption
  | |- (put_u32 ?b ?o ?v ≫= ?k) = ?r =>
      change ((put_bytes b o (to_le_bytes 4 v) ≫= k) = r)
  | |- (put_u64 ?b ?o ?v ≫= ?k) = ?r =>
      change ((put_bytes b o (to_le_bytes 8 v) ≫= k) = r)
  | |- (_ !! _ ≫= _) = _ => cbn [lookup list_lookup mbind option_bind]
  | |- (put_u32_loop ?n ?b ?o ?v ≫= _) = _ =>
      let m := eval compute in (pred n) in
      rewrite (put_u32_loop_spec m b o v) by (unfold zlen in *; lia)
  | |- (put_bytes _ ?o _ ≫= _) = write_segs _ (?l :: _) _ _ =>
      let o' := eval vm_compute in (o + l) in
      apply (write_step _ o o' l); [reflexivity | intros ?]
  end).

(** Evaluate the reads of a [read_from] body on an encoded buffer; [Hl] is the
    equation [zlen <$> segs = lens]. *)
Ltac read_fields Hl :=
  repeat (cbn [mbind option_bind]; lazymatch goal with
  | |- (get_u8 _ _ ≫= _) = _ => erewrite (read_u8_seg _ _ _ Hl); [|reflexivity|reflexivity|assumption]
  | |- (get_u16 _ _ ≫= _) = _ => erewrite (read_u16_seg _ _ _ Hl); [|reflexivity|reflexivity|assumption]
  | |- (get_u32 _ _ ≫= _) = _ => erewrite (read_u32_seg _ _ _ Hl); [|reflexivity|reflexivity|assumption]
  | |- (get_u64 _ _ ≫= _) = _ => erewrite (read_u64_seg _ _ _ Hl); [|reflexivity|reflexivity|assumption]
  | |- (get_bytes _ _ _ ≫= _) = _ => erewrite (read_seg _ _ _ _ _ _ _ Hl); [|reflexivity|reflexivity|assumption]
  | |- (get_u32_loop _ _ _ ≫= _) = _ =>
      erewrite (read_array_seg _ _ _ Hl); [|reflexivity|reflexivity|assumption|assumption]
  end).

(** Evaluate the reads of a [read_from] body on any long enough buffer. *)
Ltac read_any :=
  repeat (cbn [mbind option_bind]; lazymatch goal with
  | |- context [get_u8 ?b ?o ≫= _] => rewrite (get_u8_in b o) by lia
  | |- context [get_u16 ?b ?o ≫= _] => rewrite (get_u16_in b o) by lia
  | |- context [get_u32 ?b ?o ≫= _] => rewrite (get_u32_in b o) by lia
  | |- context [get_u64 ?b ?o ≫= _] => rewrite (get_u64_in b o) by lia
  | |- context [get_bytes ?n ?b ?o ≫= _] => rewrite (get_bytes_in n b o) by lia
  | Hok : bytes_ok ?b |- context [get_u32_loop ?n ?b ?o ≫= _] =>
      let vs := fresh "vs" in let E := fresh "E" in
      destruct (get_u32_loop_total n b o Hok ltac:(lia) ltac:(lia)) as (vs & E & ? & ? & ?);
      rewrite E; clear E
  end).

(** [layout = cut] after [read_any]. *)
Ltac cut_fields :=
  repeat lazymatch goal with
  | |- _ :: _ = cut ?o (?l :: _) _ =>
      let o' := eval vm_compute in (o + l) in
      apply (cut_step o o' l); [reflexivity
        | first [ reflexivity
                | apply (to_from_slice 4); [assumption|lia|lia]
                | apply (to_from_slice 2); [assumption|lia|lia]
                | apply (to_from_slice 1); [assumption|lia|lia]
                | apply (to_from_slice 8); [assumption|lia|lia]
                | assumption ] |]
  | |- [] = cut _ [] _ => reflexivity
  end.

(** ** The proofs every structure's instance needs

    The arguments are the structure's own definitions, in the order the lemma
    uses them. *)

Ltac ds_lens_ok wf layout lens :=
  let H := fresh "Hfields" in
  unfold wf; intros H; destruct_and?; unfold layout, lens;
  rewrite ?fmap_cons, ?fmap_nil, ?zlen_to_le_bytes, ?zlen_u32_array;
  repeat f_equal; done || lia.

Ltac ds_write_ok wf write_to layout lens :=
  let H := fresh "Hfields" in let Hl := fresh "Hlen" in
  unfold wf; intros H Hl; destruct_and?; unfold write_to;
  rewrite (proj2 (Z.leb_le _ _) Hl); cbn [debug_assert mbind option_bind];
  match goal with |- exists _, zlen _ = zlen ?b /\ _ => exists b end;
  split; [done|]; split; [done|]; unfold layout, lens; write_fields.

(** The same for a writer that zeroes the buffer first. *)
Ltac ds_write_zeroed_ok wf write_to layout lens size :=
  let H := fresh "Hfields" in let Hl := fresh "Hlen" in let E := fresh "Efill" in
  unfold wf; intros H Hl; destruct_and?; unfold write_to;
  rewrite (proj2 (Z.leb_le _ _) Hl); cbn [debug_assert mbind option_bind];
  match goal with |- exists _, zlen _ = zlen ?b /\ _ =>
    let b0 := fresh "buf" in
    destruct (fill_zero_spec b size) as (b0 & E & ? & ?); [split; [done|exact Hl]|];
    rewrite E; cbn [mbind option_bind]; exists b0 end;
  split; [done|]; split; [done|]; unfold layout, lens; write_fields.

Ltac ds_read_size Hl layout lens size :=
  let Hs := fresh "Hs" in
  match goal with |- _ (concat (layout ?x) ++ ?rest) = _ =>
    assert (Hs : size <= zlen (concat (layout x) ++ rest));
    [rewrite zlen_app, zlen_concat, Hl; change (zsum lens) with size;
     pose proof (zlen_nonneg rest); lia|] end.

Ltac ds_read_ok lens_ok wf read_from layout lens size :=
  let Hwf := fresh "Hwf" in let Hl := fresh "Hlen" in
  intros Hwf; pose proof (lens_ok _ Hwf) as Hl; unfold wf in Hwf; destruct_and?;
  ds_read_size Hl layout lens size;
  match goal with |- _ (concat (layout ?x) ++ _) = _ =>
    unfold read_from;
    match goal with Hs : size <= _ |- _ => rewrite (proj2 (Z.leb_le _ _) Hs) end;
    cbn [debug_assert]; read_fields Hl; clear; by destruct x end.

(** Every field read from well-formed bytes is within its type. *)
Ltac ds_fields_wf :=
  split_and!;
  first [ assumption | reflexivity | apply zlen_slice; lia | by apply bytes_ok_slice
        | apply (from_slice_uint 4); [assumption|lia..] | apply (from_slice_uint 2); [assumption|lia..]
        | apply (from_slice_uint 1); [assumption|lia..] | apply (from_slice_uint 8); [assumption|lia..]
        | repeat (apply Forall_cons_2; [apply (from_slice_uint 4); [assumption|lia..]|]); apply Forall_nil_2 ].

Ltac ds_read_total wf read_from layout lens size :=
  let Hok := fresh "Hbytes" in let Hs := fresh "Hsize" in
  intros Hok Hs; unfold read_from;
  rewrite (proj2 (Z.leb_le _ _) Hs); cbn [debug_assert]; unfold size in Hs;
  read_any; eexists; split; [reflexivity|]; split;
  [unfold wf; simpl; ds_fields_wf | unfold layout, lens; simpl; cut_fields].

(** Assembling the instance from the four lemmas. *)
Ltac ds_instance wf layout size write_to read_from lens_ok write_ok read_ok read_total :=
  split;
  [ reflexivity
  | by apply (bool_decide_unpack (Forall _ _))
  | apply lens_ok
  | let x := fresh in let H := fresh "Hfields" in
    intros x H; change (wf x) in H; unfold wf in H; destruct_and?;
    change (Forall bytes_ok (layout x)); unfold layout;
    repeat (apply Forall_cons_2; [first [assumption | apply to_le_bytes_ok | apply u32_array_ok]|]);
    apply Forall_nil_2
  | let x := fresh in let buf := fresh in let Hwf := fresh "Hwf" in let Hl := fresh "Hlen" in
    intros x buf Hwf; simpl; destruct (Z.leb_spec size (zlen buf)) as [Hl|Hl];
    [ let buf0 := fresh in
      destruct (write_ok x buf Hwf Hl) as (buf0 & ? & ? & ?); by exists buf0
    | exists buf; split; [lia|]; unfold write_to; by rewrite (proj2 (Z.leb_gt _ _) Hl) ]
  | apply read_ok
  | apply read_total
  | let buf := fresh in let Hl := fresh "Hlen" in
    intros buf Hl; simpl in *; unfold read_from; by rewrite (proj2 (Z.leb_gt _ _) Hl) ].
