(* ===== verification/Utf8.v ===== *)
(** * UTF-8 as the standard library decodes it

    File names travel through the image as bytes: the writers take the bytes of a
    [&str] (valid UTF-8 by construction), the readers go through
    [String::from_utf8_lossy].  This file models that function, chunk by chunk, as
    [core::str::lossy] documents it: a maximal ill-formed prefix of one to three
    bytes becomes U+FFFD. *)

From Stdlib Require Ascii.
From stdpp Require Import base list option numbers strings.
From S2P Require Import Prelude Bytes.

(** The bytes of a string literal of the source. *)
Definition bstr (s : string) : buffer :=
  (fun c => Z.of_N (Ascii.N_of_ascii c)) <$> String.list_ascii_of_string s.

Definition in_range (lo hi b : Z) : bool := (lo <=? b) && (b <=? hi).
Definition cont (b : Z) : bool := in_range 0x80 0xBF b.

(** Byte [i] of the input, 0 past its end (0 is no continuation byte). *)
Definition safe_get (bs : buffer) (i : nat) : Z := default 0 (bs !! i).

(** Bytes consumed by the next chunk, and whether they are a scalar value. *)
Definition utf8_step (bs : buffer) : nat * bool :=
  let b := safe_get bs 0 in
  let b1 := safe_get bs 1 in let b2 := safe_get bs 2 in let b3 := safe_get bs 3 in
  let three := if cont b2 then (3%nat, true) else (2%nat, false) in
  let four := if cont b2 then (if cont b3 then (4%nat, true) else (3%nat, false)) else (2%nat, false) in
  if b <? 0x80 then (1%nat, true)
  else if in_range 0xC2 0xDF b then (if cont b1 then (2%nat, true) else (1%nat, false))
  else if b =? 0xE0 then (if in_range 0xA0 0xBF b1 then three else (1%nat, false))
  else if in_range 0xE1 0xEC b || in_range 0xEE 0xEF b then (if cont b1 then three else (1%nat, false))
  else if b =? 0xED then (if in_range 0x80 0x9F b1 then three else (1%nat, false))
  else if b =? 0xF0 then (if in_range 0x90 0xBF b1 then four else (1%nat, false))
  else if in_range 0xF1 0xF3 b then (if cont b1 then four else (1%nat, false))
  else if b =? 0xF4 then (if in_range 0x80 0x8F b1 then four else (1%nat, false))
  else (1%nat, false).

Fixpoint lossy_loop (fuel : nat) (bs : buffer) : buffer :=
  match fuel, bs with
  | S fuel, _ :: _ =>
      let '(n, ok) := utf8_step bs in
      (if ok then take n bs else [0xEF; 0xBF; 0xBD]) ++ lossy_loop fuel (drop n bs)
  | _, _ => []
  end.

(** [String::from_utf8_lossy(bs)], as bytes; every chunk consumes a byte, so the
    length of the input is fuel enough. *)
Definition from_utf8_lossy (bs : buffer) : buffer := lossy_loop (length bs) bs.

Fixpoint utf8_loop (fuel : nat) (bs : buffer) : bool :=
  match fuel, bs with
  | S fuel, _ :: _ => let '(n, ok) := utf8_step bs in ok && utf8_loop fuel (drop n bs)
  | _, _ => true
  end.

(** The bytes of some [&str]. *)
Definition utf8_valid (bs : buffer) : bool := utf8_loop (length bs) bs.

Lemma utf8_step_pos bs : (1 <= (utf8_step bs).1 <= 4)%nat.
Proof. unfold utf8_step. repeat case_match; simpl; lia. Qed.

Lemma lossy_loop_valid fuel bs :
  (length bs <= fuel)%nat -> utf8_loop fuel bs = true -> lossy_loop fuel bs = bs.
Proof.
  revert bs. induction fuel as [|fuel IH]; intros [|b bs] Hf Hv; try done; [simpl in Hf; lia|].
  cbn [utf8_loop lossy_loop] in *. pose proof (utf8_step_pos (b :: bs)) as Hp.
  destruct (utf8_step (b :: bs)) as [n ok]. simpl in Hp. destruct ok; [|done]. simpl in Hv.
  rewrite IH; [by rewrite take_drop|rewrite length_drop; simpl in *; lia|done].
Qed.

(** Decoding the bytes of a [&str] gives the string back. *)
Lemma from_utf8_lossy_valid bs : utf8_valid bs = true -> from_utf8_lossy bs = bs.
Proof. apply lossy_loop_valid. lia. Qed.

(** ASCII is valid UTF-8. *)
Lemma ascii_utf8_valid bs : Forall (fun b => b < 0x80) bs -> utf8_valid bs = true.
Proof.
  unfold utf8_valid. intros H. induction H as [|b bs Hb Hbs IH]; [done|].
  cbn [length utf8_loop].
  assert (E : utf8_step (b :: bs) = (1%nat, true)).
  { unfold utf8_step. change (safe_get (b :: bs) 0) with b. by rewrite (proj2 (Z.ltb_lt _ _)). }
  rewrite E. simpl. by rewrite drop_0.
Qed.
