(* ===== verification/Str.v ===== *)
(** * Operations of [str]

    The functions of the standard library's [str] the policy loader and the
    archive unpacker use, on the bytes of a string.  Indices are byte offsets. *)

From stdpp Require Import base list option numbers strings.
From S2P Require Import Prelude Bytes Utf8.

(** [strip_prefix], [starts_with], [ends_with] *)
Fixpoint strip_prefix (pre s : buffer) : option buffer :=
  match pre, s with
  | [], _ => Some s
  | p :: pre, c :: s => if p =? c then strip_prefix pre s else None
  | _ :: _, [] => None
  end.
Definition starts_with (pre s : buffer) : bool := bool_decide (is_Some (strip_prefix pre s)).
Definition ends_with (suf s : buffer) : bool := starts_with (rev suf) (rev s).

(** [find]: the offset of the first occurrence. *)
Fixpoint find (pat s : buffer) : option nat :=
  if starts_with pat s then Some 0%nat
  else match s with
       | [] => None
       | _ :: s => S <$> find pat s
       end.
Definition contains (pat s : buffer) : bool := bool_decide (is_Some (find pat s)).

(** [find] with a predicate on ASCII characters. *)
Fixpoint find_if (f : Z -> bool) (s : buffer) : option nat :=
  match s with
  | [] => None
  | c :: s => if f c then Some 0%nat else S <$> find_if f s
  end.

(** [replace]; the pattern is not empty, so the length of the string is enough. *)
Fixpoint replace_loop (fuel : nat) (pat rep s : buffer) : buffer :=
  match fuel with
  | O => s
  | S fuel =>
      match find pat s with
      | None => s
      | Some i => take i s ++ rep ++ replace_loop fuel pat rep (drop (i + length pat) s)
      end
  end.
Definition replace (pat rep s : buffer) : buffer := replace_loop (S (length s)) pat rep s.

(** [split_once] at an ASCII character *)
Definition split_once (c : Z) (s : buffer) : option (buffer * buffer) :=
  i ← find [c] s; Some (take i s, drop (S i) s).

(** The bytes of the whitespace character a string starts with, if any: the
    characters with the Unicode property [White_Space]. *)
Definition ws_len (s : buffer) : nat :=
  match s with
  | c :: s' =>
      if (in_range 9 13 c || (c =? 32))%bool then 1%nat
      else match s' with
      | d :: s'' =>
          if ((c =? 0xC2) && ((d =? 0x85) || (d =? 0xA0)))%bool then 2%nat
          else match s'' with
          | e :: _ =>
              if (((c =? 0xE1) && (d =? 0x9A) && (e =? 0x80)) ||
                  ((c =? 0xE2) && (d =? 0x80) && (in_range 0x80 0x8A e || (e =? 0xA8) || (e =? 0xA9) || (e =? 0xAF))) ||
                  ((c =? 0xE2) && (d =? 0x81) && (e =? 0x9F)) ||
                  ((c =? 0xE3) && (d =? 0x80) && (e =? 0x80)))%bool then 3%nat else 0%nat
          | [] => 0%nat
          end
      | [] => 0%nat
      end
  | [] => 0%nat
  end.

(** [trim_start] *)
Fixpoint trim_start_loop (fuel : nat) (s : buffer) : buffer :=
  match fuel with
  | O => s
  | S fuel => match ws_len s with O => s | n => trim_start_loop fuel (drop n s) end
  end.
Definition trim_start (s : buffer) : buffer := trim_start_loop (length s) s.

(** The bytes of the whitespace character a string ends with. *)
Definition ws_len_end (s : buffer) : nat :=
  let n := length s in
  if bool_decide (ws_len (drop (n - 1) s) = 1%nat) then 1%nat
  else if bool_decide (ws_len (drop (n - 2) s) = 2%nat) then 2%nat
  else if bool_decide (ws_len (drop (n - 3) s) = 3%nat) then 3%nat
  else 0%nat.

Fixpoint trim_end_loop (fuel : nat) (s : buffer) : buffer :=
  match fuel with
  | O => s
  | S fuel => match ws_len_end s with O => s | n => trim_end_loop fuel (take (length s - n) s) end
  end.
Definition trim (s : buffer) : buffer := let t := trim_start s in trim_end_loop (length t) t.

(** [lines]: the pieces that end in a line feed, without it and a carriage return
    before it, and what is left over. *)
Definition newline : Z := 10.
Definition strip_cr (l : buffer) : buffer := match list.last l with Some 13 => take (length l - 1) l | _ => l end.
Fixpoint lines_loop (s acc : buffer) : list buffer :=
  match s with
  | [] => match acc with [] => [] | _ => [rev acc] end
  | c :: s => if c =? newline then strip_cr (rev acc) :: lines_loop s [] else lines_loop s (c :: acc)
  end.
Definition lines (s : buffer) : list buffer := lines_loop s [].

(** ASCII classes of [u8] and [char] *)
Definition is_ascii_digit (c : Z) : bool := in_range 48 57 c.
Definition is_ascii_alphabetic (c : Z) : bool := in_range 65 90 c || in_range 97 122 c.
Definition is_ascii_alphanumeric (c : Z) : bool := is_ascii_alphabetic c || is_ascii_digit c.
Definition to_ascii_lowercase (c : Z) : Z := if in_range 65 90 c then c + 32 else c.

(** [str::is_char_boundary] *)
Definition is_char_boundary (s : buffer) (i : nat) : bool :=
  bool_decide (i = length s) || match s !! i with Some c => negb (cont c) | None => false end.

(** [str::to_lowercase]: ASCII is mapped byte by byte, the rest goes through the
    Unicode tables, which are a parameter. *)
Section lowercase.
Context (unicode_lowercase : buffer -> buffer).
Definition to_lowercase (s : buffer) : buffer :=
  if forallb (fun c => c <? 0x80) s then to_ascii_lowercase <$> s else unicode_lowercase s.
End lowercase.

(** Digits to a number. *)
Definition digits_value (s : buffer) : Z := fold_left (fun n c => 10 * n + (c - 48)) s 0.

(** [parse::<iN>()] and [parse::<uN>()]: an optional sign, digits, and the value in
    range; [-] is not a sign of an unsigned number. *)
Definition parse_int (lo hi : Z) (s : buffer) : option Z :=
  let '(neg, ds) :=
    match s with
    | c :: ds => if c =? 43 then (false, ds)
                 else if ((c =? 45) && (lo <? 0))%bool then (true, ds) else (false, s)
    | [] => (false, s)
    end in
  if (bool_decide (ds <> []) && forallb is_ascii_digit ds)%bool then
    let v := if neg then - digits_value ds else digits_value ds in
    if ((lo <=? v) && (v <=? hi))%bool then Some v else None
  else None.
Definition parse_i64 : buffer -> option Z := parse_int (- 2 ^ 63) (2 ^ 63 - 1).
Definition parse_i32 : buffer -> option Z := parse_int (- 2 ^ 31) (2 ^ 31 - 1).
Definition parse_u16 : buffer -> option Z := parse_int 0 (2 ^ 16 - 1).

(** The order of strings, as [str::cmp] and [BTreeMap] have it. *)
Fixpoint bytes_le (a b : buffer) : bool :=
  match a, b with
  | [], _ => true
  | _ :: _, [] => false
  | x :: a, y :: b => if x =? y then bytes_le a b else x <? y
  end.

(** ** Lemmas *)

Lemma strip_prefix_app pre s : strip_prefix pre (pre ++ s) = Some s.
Proof. induction pre as [|c pre IH]; [done|]. simpl. by rewrite Z.eqb_refl. Qed.

Lemma strip_prefix_some pre s t : strip_prefix pre s = Some t -> s = pre ++ t.
Proof.
  revert s. induction pre as [|p pre IH]; intros [|c s]; simpl; try done; [by intros [= <-]|by intros [= <-]|].
  destruct (Z.eqb_spec p c) as [->|]; [|done]. intros H. by rewrite (IH _ H).
Qed.

Lemma starts_with_spec pre s : starts_with pre s = true <-> exists t, s = pre ++ t.
Proof.
  unfold starts_with. rewrite bool_decide_eq_true. split.
  - intros [t Ht]. exists t. by apply strip_prefix_some.
  - intros [t ->]. rewrite strip_prefix_app. eauto.
Qed.

Lemma digits_value_nonneg s : forallb is_ascii_digit s = true -> 0 <= digits_value s.
Proof.
  unfold digits_value. intros H. assert (Hg : forall n, 0 <= n -> 0 <= fold_left (fun n c => 10 * n + (c - 48)) s n); [|by apply Hg].
  induction s as [|c s IH]; intros n Hn; simpl; [done|]. simpl in H. apply andb_true_iff in H as [Hc Hs].
  apply IH; [done|]. unfold is_ascii_digit, in_range in Hc. rewrite andb_true_iff, !Z.leb_le in Hc. lia.
Qed.

Lemma parse_int_range lo hi s v : parse_int lo hi s = Some v -> lo <= v <= hi.
Proof.
  unfold parse_int. destruct (match s with [] => _ | _ => _ end) as [neg ds]. case_match; [|done].
  match goal with |- context [if ?b then Some _ else None] => destruct b eqn:E end; [|done].
  intros [= <-]. rewrite andb_true_iff, !Z.leb_le in E. lia.
Qed.

Lemma bytes_le_total a b : bytes_le a b = true \/ bytes_le b a = true.
Proof.
  revert b. induction a as [|x a IH]; intros [|y b]; simpl; try (by auto). rewrite (Z.eqb_sym y x).
  destruct (Z.eqb_spec x y); [apply IH|]. destruct (Z.lt_total x y) as [?|[?|?]]; [left|lia|right]; by apply Z.ltb_lt.
Qed.
Lemma bytes_le_antisym a b : bytes_le a b = true -> bytes_le b a = true -> a = b.
Proof.
  revert b. induction a as [|x a IH]; intros [|y b]; simpl; try done. rewrite (Z.eqb_sym y x).
  destruct (Z.eqb_spec x y) as [->|]; [intros; f_equal; by apply IH|]. rewrite !Z.ltb_lt. lia.
Qed.
Lemma bytes_le_trans a b c : bytes_le a b = true -> bytes_le b c = true -> bytes_le a c = true.
Proof.
  revert b c. induction a as [|x a IH]; intros [|y b] [|z c]; simpl; try done.
  destruct (Z.eqb_spec x y) as [->|Hxy], (Z.eqb_spec y z) as [->|Hyz]; [by apply IH|done| |].
  - intros Hl _. by rewrite (proj2 (Z.eqb_neq x z)) by lia.
  - rewrite !Z.ltb_lt. intros. rewrite (proj2 (Z.eqb_neq x z)) by lia. apply Z.ltb_lt. lia.
Qed.
