(* ===== verification/Errors.v ===== *)
(** * Errors of the ext4 crate

    [common/ext4/src/error.rs].  Paths and names are their bytes; the [Io]
    variants carry no information the code looks at. *)

From stdpp Require Import base list.
From S2P Require Import Prelude Bytes.

Inductive ReadError : Type :=
| RNotFound (p : buffer)
| CouldNotReadSuperBlock (p : buffer) (off len : Z)
| InvalidSuperBlock
| DeepExtentsUnsupported
| InvalidExtents
| InvalidXattrEntry
| CouldNotReadBlock (n : Z)
| CouldNotReadInode (n : Z)
| CouldNotReadGroup (n : Z)
| PathNotFound (p : buffer)
| NotAFile (p : buffer)
| IsDirectory (p : buffer)
| NotADirectory (p : buffer)
| SymlinkLoop (p : buffer)
| InvalidPath (p : buffer)
| RIo.

Inductive FormatError : Type :=
| NotDirectory (p : buffer)
| NotFile (p : buffer)
| NotFound (p : buffer)
| AlreadyExists (p : buffer)
| UnsupportedFiletype
| MaximumLinksExceeded (p : buffer)
| FileTooBig (n : Z)
| InvalidLink (p : buffer)
| InvalidName (s : buffer)
| NoSpaceForTrailingDirEntry
| InsufficientSpaceForGroupDescriptorBlocks
| CannotHardlinkDirectory (p : buffer)
| UnsupportedBlockSize (n : Z)
| InvalidLabel (s : buffer)
| CannotTruncateFile (p : buffer)
| CannotCreateSparseFile (p : buffer)
| CannotResizeFs (n : Z)
| XattrInsufficientSpace (ino : Z)
| MalformedXattrBuffer
| InvalidAsciiString (s : buffer)
| CircularLinks
| InvalidPathEncoding (s : buffer)
| Io.
