(* ===== verification/Constants.v ===== *)
(** * Constants of the ext4 image format

    [common/ext4/src/constants.rs]: magic numbers, reserved inodes, sizes, limits,
    feature and flag bits (one Module per Rust module), the directory-entry file
    types and the mode helpers. *)

From stdpp Require Import base list option numbers.
From S2P Require Import Prelude.

Definition SUPERBLOCK_MAGIC : Z := 0xEF53.
Definition EXTENT_HEADER_MAGIC : Z := 0xF30A.
Definition XATTR_HEADER_MAGIC : Z := 0xEA020000.
Definition DEFECTIVE_BLOCK_INODE : Z := 1.
Definition ROOT_INODE : Z := 2.
Definition FIRST_INODE : Z := 11.
Definition LOST_AND_FOUND_INODE : Z := 11.
Definition INODE_ACTUAL_SIZE : Z := 160.
Definition INODE_EXTRA_SIZE : Z := 96.
Definition INODE_SIZE : Z := 256.
Definition EXTRA_ISIZE : Z := INODE_ACTUAL_SIZE - 128.
Definition XATTR_INODE_HEADER_SIZE : Z := 4.
Definition XATTR_BLOCK_HEADER_SIZE : Z := 32.
Definition MAX_LINKS : Z := 65000.
Definition EXT4_NAME_LEN : Z := 255.
Definition MAX_BLOCKS_PER_EXTENT : Z := 0x8000.
Definition MAX_FILE_SIZE : Z := 128 * 1024 * 1024 * 1024.
Definition SUPERBLOCK_OFFSET : Z := 1024.
Definition INODE_BLOCK_SIZE : Z := 60.
Module compat.
Definition DIR_PREALLOC : Z := 0x1.
Definition IMAGIC_INODES : Z := 0x2.
Definition HAS_JOURNAL : Z := 0x4.
Definition EXT_ATTR : Z := 0x8.
Definition RESIZE_INODE : Z := 0x10.
Definition DIR_INDEX : Z := 0x20.
Definition LAZY_BG : Z := 0x40.
Definition EXCLUDE_INODE : Z := 0x80.
Definition EXCLUDE_BITMAP : Z := 0x100.
Definition SPARSE_SUPER2 : Z := 0x200.
End compat.

Module incompat.
Definition COMPRESSION : Z := 0x1.
Definition FILETYPE : Z := 0x2.
Definition RECOVER : Z := 0x4.
Definition JOURNAL_DEV : Z := 0x8.
Definition META_BG : Z := 0x10.
Definition EXTENTS : Z := 0x40.
Definition BIT64 : Z := 0x80.
Definition MMP : Z := 0x100.
Definition FLEX_BG : Z := 0x200.
Definition EA_INODE : Z := 0x400.
Definition DIRDATA : Z := 0x1000.
Definition CSUM_SEED : Z := 0x2000.
Definition LARGEDIR : Z := 0x4000.
Definition INLINE_DATA : Z := 0x8000.
Definition ENCRYPT : Z := 0x10000.
End incompat.

Module ro_compat.
Definition SPARSE_SUPER : Z := 0x1.
Definition LARGE_FILE : Z := 0x2.
Definition BTREE_DIR : Z := 0x4.
Definition HUGE_FILE : Z := 0x8.
Definition GDT_CSUM : Z := 0x10.
Definition DIR_NLINK : Z := 0x20.
Definition EXTRA_ISIZE : Z := 0x40.
Definition HAS_SNAPSHOT : Z := 0x80.
Definition QUOTA : Z := 0x100.
Definition BIGALLOC : Z := 0x200.
Definition METADATA_CSUM : Z := 0x400.
Definition REPLICA : Z := 0x800.
Definition READONLY : Z := 0x1000.
Definition PROJECT : Z := 0x2000.
End ro_compat.

Module bg_flags.
Definition INODE_UNINIT : Z := 0x1.
Definition BLOCK_UNINIT : Z := 0x2.
Definition INODE_ZEROED : Z := 0x4.
End bg_flags.

Module inode_flags.
Definition SECRM : Z := 0x1.
Definition UNRM : Z := 0x2.
Definition COMPRESSED : Z := 0x4.
Definition SYNC : Z := 0x8.
Definition IMMUTABLE : Z := 0x10.
Definition APPEND : Z := 0x20.
Definition NODUMP : Z := 0x40.
Definition NOATIME : Z := 0x80.
Definition DIRTY_COMPRESSED : Z := 0x100.
Definition COMPRESSED_CLUSTERS : Z := 0x200.
Definition NO_COMPRESS : Z := 0x400.
Definition ENCRYPTED : Z := 0x800.
Definition HASHED_INDEX : Z := 0x1000.
Definition MAGIC : Z := 0x2000.
Definition JOURNAL_DATA : Z := 0x4000.
Definition NO_TAIL : Z := 0x8000.
Definition DIR_SYNC : Z := 0x10000.
Definition TOP_DIR : Z := 0x20000.
Definition HUGE_FILE : Z := 0x40000.
Definition EXTENTS : Z := 0x80000.
Definition EA_INODE : Z := 0x200000.
Definition EOF_BLOCKS : Z := 0x400000.
Definition SNAPFILE : Z := 0x01000000.
Definition SNAPFILE_DELETED : Z := 0x04000000.
Definition SNAPFILE_SHRUNK : Z := 0x08000000.
Definition INLINE_DATA : Z := 0x10000000.
Definition PROJECT_ID_INHERIT : Z := 0x20000000.
Definition RESERVED : Z := 0x80000000.
End inode_flags.

Module file_mode.
Definition S_IXOTH : Z := 0x1.
Definition S_IWOTH : Z := 0x2.
Definition S_IROTH : Z := 0x4.
Definition S_IXGRP : Z := 0x8.
Definition S_IWGRP : Z := 0x10.
Definition S_IRGRP : Z := 0x20.
Definition S_IXUSR : Z := 0x40.
Definition S_IWUSR : Z := 0x80.
Definition S_IRUSR : Z := 0x100.
Definition S_ISVTX : Z := 0x200.
Definition S_ISGID : Z := 0x400.
Definition S_ISUID : Z := 0x800.
Definition S_IFIFO : Z := 0x1000.
Definition S_IFCHR : Z := 0x2000.
Definition S_IFDIR : Z := 0x4000.
Definition S_IFBLK : Z := 0x6000.
Definition S_IFREG : Z := 0x8000.
Definition S_IFLNK : Z := 0xA000.
Definition S_IFSOCK : Z := 0xC000.
Definition TYPE_MASK : Z := 0xF000.
End file_mode.


(** ** Directory entry file types *)

Inductive FileType : Set :=
| Unknown | Regular | Directory | Character | Block | Fifo | Socket | SymbolicLink.

#[export] Instance FileType_eq_dec : EqDecision FileType.
Proof. solve_decision. Defined.

(** The [repr(u8)] discriminants, [ft as u8]. *)
Definition FileType_as_u8 (ft : FileType) : Z :=
  match ft with
  | Unknown => 0 | Regular => 1 | Directory => 2 | Character => 3
  | Block => 4 | Fifo => 5 | Socket => 6 | SymbolicLink => 7
  end.

(** [FileType::from_mode] *)
Definition from_mode (mode : Z) : FileType :=
  let t := Z.land mode file_mode.TYPE_MASK in
  if t =? file_mode.S_IFREG then Regular
  else if t =? file_mode.S_IFDIR then Directory
  else if t =? file_mode.S_IFCHR then Character
  else if t =? file_mode.S_IFBLK then Block
  else if t =? file_mode.S_IFIFO then Fifo
  else if t =? file_mode.S_IFSOCK then Socket
  else if t =? file_mode.S_IFLNK then SymbolicLink
  else Unknown.

(** ** Mode helpers *)

Definition make_mode (file_type perm : Z) : Z := Z.lor file_type perm.
Definition is_dir (mode : Z) : bool := Z.land mode file_mode.TYPE_MASK =? file_mode.S_IFDIR.
Definition is_reg (mode : Z) : bool := Z.land mode file_mode.TYPE_MASK =? file_mode.S_IFREG.
Definition is_link (mode : Z) : bool := Z.land mode file_mode.TYPE_MASK =? file_mode.S_IFLNK.

(** Permission bits (all below the type mask) never change the type of a mode. *)
Lemma land_make_mode_type ty perm :
  Z.land ty file_mode.TYPE_MASK = ty -> Z.land perm file_mode.TYPE_MASK = 0 ->
  Z.land (make_mode ty perm) file_mode.TYPE_MASK = ty.
Proof. intros Ht Hp. unfold make_mode. by rewrite Z.land_lor_distr_l, Ht, Hp, Z.lor_0_r. Qed.

Lemma perm_type_mask perm : 0 <= perm < 0x1000 -> Z.land perm file_mode.TYPE_MASK = 0.
Proof.
  intros Hp. change file_mode.TYPE_MASK with (Z.shiftl 15 12).
  apply Z.bits_inj_0. intros n. rewrite Z.land_spec.
  destruct (Z.lt_ge_cases n 12).
  - destruct (Z.lt_ge_cases n 0); [by rewrite !Z.testbit_neg_r by lia|].
    rewrite (Z.shiftl_spec_low 15 12 n) by lia. apply andb_false_r.
  - destruct (Z.eq_dec perm 0) as [->|]; [by rewrite Z.testbit_0_l|].
    rewrite (Z.bits_above_log2 perm n); [done|lia|].
    apply Z.log2_lt_pow2; [lia|]. pose proof (Z.pow_le_mono_r 2 12 n). lia.
Qed.

(** The three mode predicates are exclusive and agree with [from_mode]. *)
Lemma from_mode_is_dir mode : from_mode mode = Directory <-> is_dir mode = true.
Proof.
  unfold from_mode, is_dir. set (t := Z.land mode _).
  destruct (Z.eqb_spec t file_mode.S_IFDIR) as [->|]; [split; by intros|].
  repeat case_match; split; by intros.
Qed.
