(* ===== verification/SuperBlock.v ===== *)
(** * The ext4 superblock

    [common/ext4/src/types.rs], section 1: the 1024-byte superblock as a record
    with the source's fields, [Default], [read_from] and [write_to], and the
    contract [DiskStruct] of [Bytes.v]. *)

From stdpp Require Import base list option numbers.
From S2P Require Import Prelude Bytes Constants.

Definition SUPERBLOCK_SIZE : Z := 1024.

Module SuperBlock.

(** [struct SuperBlock] *)
Record t : Type := mk {
  inodes_count : Z;
  blocks_count_lo : Z;
  r_blocks_count_lo : Z;
  free_blocks_count_lo : Z;
  free_inodes_count : Z;
  first_data_block : Z;
  log_block_size : Z;
  log_cluster_size : Z;
  blocks_per_group : Z;
  clusters_per_group : Z;
  inodes_per_group : Z;
  mtime : Z;
  wtime : Z;
  mount_count : Z;
  max_mount_count : Z;
  magic : Z;
  state : Z;
  errors : Z;
  minor_rev_level : Z;
  lastcheck : Z;
  check_interval : Z;
  creator_os : Z;
  rev_level : Z;
  def_resuid : Z;
  def_resgid : Z;
  first_ino : Z;
  inode_size : Z;
  block_group_nr : Z;
  feature_compat : Z;
  feature_incompat : Z;
  feature_ro_compat : Z;
  uuid : list Z;  (** [[u8; 16]] *)
  volume_name : list Z;  (** [[u8; 16]] *)
  last_mounted : list Z;  (** [[u8; 64]] *)
  algorithm_usage_bitmap : Z;
  prealloc_blocks : Z;
  prealloc_dir_blocks : Z;
  reserved_gdt_blocks : Z;
  journal_uuid : list Z;  (** [[u8; 16]] *)
  journal_inum : Z;
  journal_dev : Z;
  last_orphan : Z;
  hash_seed : list Z;  (** [[u32; 4]] *)
  def_hash_version : Z;
  journal_backup_type : Z;
  desc_size : Z;
  default_mount_opts : Z;
  first_meta_bg : Z;
  mkfs_time : Z;
  journal_blocks : list Z;  (** [[u32; 17]] *)
  blocks_count_hi : Z;
  r_blocks_count_hi : Z;
  free_blocks_count_hi : Z;
  min_extra_isize : Z;
  want_extra_isize : Z;
  flags : Z;
  raid_stride : Z;
  mmp_interval : Z;
  mmp_block : Z;
  raid_stripe_width : Z;
  log_groups_per_flex : Z;
  checksum_type : Z;
  reserved_pad : Z;
  kbytes_written : Z;
  snapshot_inum : Z;
  snapshot_id : Z;
  snapshot_r_blocks_count : Z;
  snapshot_list : Z;
  error_count : Z;
  first_error_time : Z;
  first_error_ino : Z;
  first_error_block : Z;
  first_error_func : list Z;  (** [[u8; 32]] *)
  first_error_line : Z;
  last_error_time : Z;
  last_error_ino : Z;
  last_error_line : Z;
  last_error_block : Z;
  last_error_func : list Z;  (** [[u8; 32]] *)
  mount_opts : list Z;  (** [[u8; 64]] *)
  usr_quota_inum : Z;
  grp_quota_inum : Z;
  overhead_blocks : Z;
  backup_bgs : list Z;  (** [[u32; 2]] *)
  encrypt_algos : list Z;  (** [[u8; 4]] *)
  encrypt_pw_salt : list Z;  (** [[u8; 16]] *)
  lpf_ino : Z;
  prj_quota_inum : Z;
  checksum_seed : Z;
  wtime_hi : Z;
  mtime_hi : Z;
  mkfs_time_hi : Z;
  lastcheck_hi : Z;
  first_error_time_hi : Z;
  last_error_time_hi : Z;
  pad : list Z;  (** [[u8; 2]] *)
  reserved : list Z;  (** [[u32; 96]] *)
  checksum : Z;
}.

Definition SIZE : Z := SUPERBLOCK_SIZE.

(** [impl Default for SuperBlock]: every field zero. *)
Definition default : t := {|
  inodes_count := 0; blocks_count_lo := 0; r_blocks_count_lo := 0; free_blocks_count_lo := 0;
  free_inodes_count := 0; first_data_block := 0; log_block_size := 0; log_cluster_size := 0;
  blocks_per_group := 0; clusters_per_group := 0; inodes_per_group := 0; mtime := 0; wtime := 0;
  mount_count := 0; max_mount_count := 0; magic := 0; state := 0; errors := 0;
  minor_rev_level := 0; lastcheck := 0; check_interval := 0; creator_os := 0; rev_level := 0;
  def_resuid := 0; def_resgid := 0; first_ino := 0; inode_size := 0; block_group_nr := 0;
  feature_compat := 0; feature_incompat := 0; feature_ro_compat := 0; uuid := replicate 16 0;
  volume_name := replicate 16 0; last_mounted := replicate 64 0; algorithm_usage_bitmap := 0;
  prealloc_blocks := 0; prealloc_dir_blocks := 0; reserved_gdt_blocks := 0;
  journal_uuid := replicate 16 0; journal_inum := 0; journal_dev := 0; last_orphan := 0;
  hash_seed := replicate 4 0; def_hash_version := 0; journal_backup_type := 0; desc_size := 0;
  default_mount_opts := 0; first_meta_bg := 0; mkfs_time := 0; journal_blocks := replicate 17 0;
  blocks_count_hi := 0; r_blocks_count_hi := 0; free_blocks_count_hi := 0; min_extra_isize := 0;
  want_extra_isize := 0; flags := 0; raid_stride := 0; mmp_interval := 0; mmp_block := 0;
  raid_stripe_width := 0; log_groups_per_flex := 0; checksum_type := 0; reserved_pad := 0;
  kbytes_written := 0; snapshot_inum := 0; snapshot_id := 0; snapshot_r_blocks_count := 0;
  snapshot_list := 0; error_count := 0; first_error_time := 0; first_error_ino := 0;
  first_error_block := 0; first_error_func := replicate 32 0; first_error_line := 0;
  last_error_time := 0; last_error_ino := 0; last_error_line := 0; last_error_block := 0;
  last_error_func := replicate 32 0; mount_opts := replicate 64 0; usr_quota_inum := 0;
  grp_quota_inum := 0; overhead_blocks := 0; backup_bgs := replicate 2 0;
  encrypt_algos := replicate 4 0; encrypt_pw_salt := replicate 16 0; lpf_ino := 0;
  prj_quota_inum := 0; checksum_seed := 0; wtime_hi := 0; mtime_hi := 0; mkfs_time_hi := 0;
  lastcheck_hi := 0; first_error_time_hi := 0; last_error_time_hi := 0; pad := replicate 2 0;
  reserved := replicate 96 0; checksum := 0 |}.

(** [read_from] *)
Definition read_from (buf : buffer) : option t :=
  _ ← debug_assert (SIZE <=? zlen buf);
  hash_seed ← get_u32_loop 4 buf 0xEC;
  journal_blocks ← get_u32_loop 17 buf 0x10C;
  backup_bgs_0 ← get_u32 buf 0x24C;
  backup_bgs_1 ← get_u32 buf 0x250;
  reserved ← get_u32_loop 96 buf 0x27C;
  inodes_count ← get_u32 buf 0x00;
  blocks_count_lo ← get_u32 buf 0x04;
  r_blocks_count_lo ← get_u32 buf 0x08;
  free_blocks_count_lo ← get_u32 buf 0x0C;
  free_inodes_count ← get_u32 buf 0x10;
  first_data_block ← get_u32 buf 0x14;
  log_block_size ← get_u32 buf 0x18;
  log_cluster_size ← get_u32 buf 0x1C;
  blocks_per_group ← get_u32 buf 0x20;
  clusters_per_group ← get_u32 buf 0x24;
  inodes_per_group ← get_u32 buf 0x28;
  mtime ← get_u32 buf 0x2C;
  wtime ← get_u32 buf 0x30;
  mount_count ← get_u16 buf 0x34;
  max_mount_count ← get_u16 buf 0x36;
  magic ← get_u16 buf 0x38;
  state ← get_u16 buf 0x3A;
  errors ← get_u16 buf 0x3C;
  minor_rev_level ← get_u16 buf 0x3E;
  lastcheck ← get_u32 buf 0x40;
  check_interval ← get_u32 buf 0x44;
  creator_os ← get_u32 buf 0x48;
  rev_level ← get_u32 buf 0x4C;
  def_resuid ← get_u16 buf 0x50;
  def_resgid ← get_u16 buf 0x52;
  first_ino ← get_u32 buf 0x54;
  inode_size ← get_u16 buf 0x58;
  block_group_nr ← get_u16 buf 0x5A;
  feature_compat ← get_u32 buf 0x5C;
  feature_incompat ← get_u32 buf 0x60;
  feature_ro_compat ← get_u32 buf 0x64;
  uuid ← get_bytes 16 buf 0x68;
  volume_name ← get_bytes 16 buf 0x78;
  last_mounted ← get_bytes 64 buf 0x88;
  algorithm_usage_bitmap ← get_u32 buf 0xC8;
  prealloc_blocks ← get_u8 buf 0xCC;
  prealloc_dir_blocks ← get_u8 buf 0xCD;
  reserved_gdt_blocks ← get_u16 buf 0xCE;
  journal_uuid ← get_bytes 16 buf 0xD0;
  journal_inum ← get_u32 buf 0xE0;
  journal_dev ← get_u32 buf 0xE4;
  last_orphan ← get_u32 buf 0xE8;
  def_hash_version ← get_u8 buf 0xFC;
  journal_backup_type ← get_u8 buf 0xFD;
  desc_size ← get_u16 buf 0xFE;
  default_mount_opts ← get_u32 buf 0x100;
  first_meta_bg ← get_u32 buf 0x104;
  mkfs_time ← get_u32 buf 0x108;
  blocks_count_hi ← get_u32 buf 0x150;
  r_blocks_count_hi ← get_u32 buf 0x154;
  free_blocks_count_hi ← get_u32 buf 0x158;
  min_extra_isize ← get_u16 buf 0x15C;
  want_extra_isize ← get_u16 buf 0x15E;
  flags ← get_u32 buf 0x160;
  raid_stride ← get_u16 buf 0x164;
  mmp_interval ← get_u16 buf 0x166;
  mmp_block ← get_u64 buf 0x168;
  raid_stripe_width ← get_u32 buf 0x170;
  log_groups_per_flex ← get_u8 buf 0x174;
  checksum_type ← get_u8 buf 0x175;
  reserved_pad ← get_u16 buf 0x176;
  kbytes_written ← get_u64 buf 0x178;
  snapshot_inum ← get_u32 buf 0x180;
  snapshot_id ← get_u32 buf 0x184;
  snapshot_r_blocks_count ← get_u64 buf 0x188;
  snapshot_list ← get_u32 buf 0x190;
  error_count ← get_u32 buf 0x194;
  first_error_time ← get_u32 buf 0x198;
  first_error_ino ← get_u32 buf 0x19C;
  first_error_block ← get_u64 buf 0x1A0;
  first_error_func ← get_bytes 32 buf 0x1A8;
  first_error_line ← get_u32 buf 0x1C8;
  last_error_time ← get_u32 buf 0x1CC;
  last_error_ino ← get_u32 buf 0x1D0;
  last_error_line ← get_u32 buf 0x1D4;
  last_error_block ← get_u64 buf 0x1D8;
  last_error_func ← get_bytes 32 buf 0x1E0;
  mount_opts ← get_bytes 64 buf 0x200;
  usr_quota_inum ← get_u32 buf 0x240;
  grp_quota_inum ← get_u32 buf 0x244;
  overhead_blocks ← get_u32 buf 0x248;
  encrypt_algos ← get_bytes 4 buf 0x254;
  encrypt_pw_salt ← get_bytes 16 buf 0x258;
  lpf_ino ← get_u32 buf 0x268;
  prj_quota_inum ← get_u32 buf 0x26C;
  checksum_seed ← get_u32 buf 0x270;
  wtime_hi ← get_u8 buf 0x274;
  mtime_hi ← get_u8 buf 0x275;
  mkfs_time_hi ← get_u8 buf 0x276;
  lastcheck_hi ← get_u8 buf 0x277;
  first_error_time_hi ← get_u8 buf 0x278;
  last_error_time_hi ← get_u8 buf 0x279;
  pad ← get_bytes 2 buf 0x27A;
  checksum ← get_u32 buf 0x3FC;
  Some {| inodes_count := inodes_count;
     blocks_count_lo := blocks_count_lo;
     r_blocks_count_lo := r_blocks_count_lo;
     free_blocks_count_lo := free_blocks_count_lo;
     free_inodes_count := free_inodes_count;
     first_data_block := first_data_block;
     log_block_size := log_block_size;
     log_cluster_size := log_cluster_size;
     blocks_per_group := blocks_per_group;
     clusters_per_group := clusters_per_group;
     inodes_per_group := inodes_per_group;
     mtime := mtime;
     wtime := wtime;
     mount_count := mount_count;
     max_mount_count := max_mount_count;
     magic := magic;
     state := state;
     errors := errors;
     minor_rev_level := minor_rev_level;
     lastcheck := lastcheck;
     check_interval := check_interval;
     creator_os := creator_os;
     rev_level := rev_level;
     def_resuid := def_resuid;
     def_resgid := def_resgid;
     first_ino := first_ino;
     inode_size := inode_size;
     block_group_nr := block_group_nr;
     feature_compat := feature_compat;
     feature_incompat := feature_incompat;
     feature_ro_compat := feature_ro_compat;
     uuid := uuid;
     volume_name := volume_name;
     last_mounted := last_mounted;
     algorithm_usage_bitmap := algorithm_usage_bitmap;
     prealloc_blocks := prealloc_blocks;
     prealloc_dir_blocks := prealloc_dir_blocks;
     reserved_gdt_blocks := reserved_gdt_blocks;
     journal_uuid := journal_uuid;
     journal_inum := journal_inum;
     journal_dev := journal_dev;
     last_orphan := last_orphan;
     hash_seed := hash_seed;
     def_hash_version := def_hash_version;
     journal_backup_type := journal_backup_type;
     desc_size := desc_size;
     default_mount_opts := default_mount_opts;
     first_meta_bg := first_meta_bg;
     mkfs_time := mkfs_time;
     journal_blocks := journal_blocks;
     blocks_count_hi := blocks_count_hi;
     r_blocks_count_hi := r_blocks_count_hi;
     free_blocks_count_hi := free_blocks_count_hi;
     min_extra_isize := min_extra_isize;
     want_extra_isize := want_extra_isize;
     flags := flags;
     raid_stride := raid_stride;
     mmp_interval := mmp_interval;
     mmp_block := mmp_block;
     raid_stripe_width := raid_stripe_width;
     log_groups_per_flex := log_groups_per_flex;
     checksum_type := checksum_type;
     reserved_pad := reserved_pad;
     kbytes_written := kbytes_written;
     snapshot_inum := snapshot_inum;
     snapshot_id := snapshot_id;
     snapshot_r_blocks_count := snapshot_r_blocks_count;
     snapshot_list := snapshot_list;
     error_count := error_count;
     first_error_time := first_error_time;
     first_error_ino := first_error_ino;
     first_error_block := first_error_block;
     first_error_func := first_error_func;
     first_error_line := first_error_line;
     last_error_time := last_error_time;
     last_error_ino := last_error_ino;
     last_error_line := last_error_line;
     last_error_block := last_error_block;
     last_error_func := last_error_func;
     mount_opts := mount_opts;
     usr_quota_inum := usr_quota_inum;
     grp_quota_inum := grp_quota_inum;
     overhead_blocks := overhead_blocks;
     backup_bgs := [backup_bgs_0; backup_bgs_1];
     encrypt_algos := encrypt_algos;
     encrypt_pw_salt := encrypt_pw_salt;
     lpf_ino := lpf_ino;
     prj_quota_inum := prj_quota_inum;
     checksum_seed := checksum_seed;
     wtime_hi := wtime_hi;
     mtime_hi := mtime_hi;
     mkfs_time_hi := mkfs_time_hi;
     lastcheck_hi := lastcheck_hi;
     first_error_time_hi := first_error_time_hi;
     last_error_time_hi := last_error_time_hi;
     pad := pad;
     reserved := reserved;
     checksum := checksum |}.

(** [write_to] *)
Definition write_to (self : t) (buf : buffer) : option buffer :=
  _ ← debug_assert (SIZE <=? zlen buf);
  buf ← fill_zero buf SIZE;
  buf ← put_u32 buf 0x00 (self.(inodes_count));
  buf ← put_u32 buf 0x04 (self.(blocks_count_lo));
  buf ← put_u32 buf 0x08 (self.(r_blocks_count_lo));
  buf ← put_u32 buf 0x0C (self.(free_blocks_count_lo));
  buf ← put_u32 buf 0x10 (self.(free_inodes_count));
  buf ← put_u32 buf 0x14 (self.(first_data_block));
  buf ← put_u32 buf 0x18 (self.(log_block_size));
  buf ← put_u32 buf 0x1C (self.(log_cluster_size));
  buf ← put_u32 buf 0x20 (self.(blocks_per_group));
  buf ← put_u32 buf 0x24 (self.(clusters_per_group));
  buf ← put_u32 buf 0x28 (self.(inodes_per_group));
  buf ← put_u32 buf 0x2C (self.(mtime));
  buf ← put_u32 buf 0x30 (self.(wtime));
  buf ← put_u16 buf 0x34 (self.(mount_count));
  buf ← put_u16 buf 0x36 (self.(max_mount_count));
  buf ← put_u16 buf 0x38 (self.(magic));
  buf ← put_u16 buf 0x3A (self.(state));
  buf ← put_u16 buf 0x3C (self.(errors));
  buf ← put_u16 buf 0x3E (self.(minor_rev_level));
  buf ← put_u32 buf 0x40 (self.(lastcheck));
  buf ← put_u32 buf 0x44 (self.(check_interval));
  buf ← put_u32 buf 0x48 (self.(creator_os));
  buf ← put_u32 buf 0x4C (self.(rev_level));
  buf ← put_u16 buf 0x50 (self.(def_resuid));
  buf ← put_u16 buf 0x52 (self.(def_resgid));
  buf ← put_u32 buf 0x54 (self.(first_ino));
  buf ← put_u16 buf 0x58 (self.(inode_size));
  buf ← put_u16 buf 0x5A (self.(block_group_nr));
  buf ← put_u32 buf 0x5C (self.(feature_compat));
  buf ← put_u32 buf 0x60 (self.(feature_incompat));
  buf ← put_u32 buf 0x64 (self.(feature_ro_compat));
  buf ← put_bytes buf 0x68 (self.(uuid));
  buf ← put_bytes buf 0x78 (self.(volume_name));
  buf ← put_bytes buf 0x88 (self.(last_mounted));
  buf ← put_u32 buf 0xC8 (self.(algorithm_usage_bitmap));
  buf ← put_u8 buf 0xCC (self.(prealloc_blocks));
  buf ← put_u8 buf 0xCD (self.(prealloc_dir_blocks));
  buf ← put_u16 buf 0xCE (self.(reserved_gdt_blocks));
  buf ← put_bytes buf 0xD0 (self.(journal_uuid));
  buf ← put_u32 buf 0xE0 (self.(journal_inum));
  buf ← put_u32 buf 0xE4 (self.(journal_dev));
  buf ← put_u32 buf 0xE8 (self.(last_orphan));
  buf ← put_u32_loop 4 buf 0xEC (self.(hash_seed));
  buf ← put_u8 buf 0xFC (self.(def_hash_version));
  buf ← put_u8 buf 0xFD (self.(journal_backup_type));
  buf ← put_u16 buf 0xFE (self.(desc_size));
  buf ← put_u32 buf 0x100 (self.(default_mount_opts));
  buf ← put_u32 buf 0x104 (self.(first_meta_bg));
  buf ← put_u32 buf 0x108 (self.(mkfs_time));
  buf ← put_u32_loop 17 buf 0x10C (self.(journal_blocks));
  buf ← put_u32 buf 0x150 (self.(blocks_count_hi));
  buf ← put_u32 buf 0x154 (self.(r_blocks_count_hi));
  buf ← put_u32 buf 0x158 (self.(free_blocks_count_hi));
  buf ← put_u16 buf 0x15C (self.(min_extra_isize));
  buf ← put_u16 buf 0x15E (self.(want_extra_isize));
  buf ← put_u32 buf 0x160 (self.(flags));
  buf ← put_u16 buf 0x164 (self.(raid_stride));
  buf ← put_u16 buf 0x166 (self.(mmp_interval));
  buf ← put_u64 buf 0x168 (self.(mmp_block));
  buf ← put_u32 buf 0x170 (self.(raid_stripe_width));
  buf ← put_u8 buf 0x174 (self.(log_groups_per_flex));
  buf ← put_u8 buf 0x175 (self.(checksum_type));
  buf ← put_u16 buf 0x176 (self.(reserved_pad));
  buf ← put_u64 buf 0x178 (self.(kbytes_written));
  buf ← put_u32 buf 0x180 (self.(snapshot_inum));
  buf ← put_u32 buf 0x184 (self.(snapshot_id));
  buf ← put_u64 buf 0x188 (self.(snapshot_r_blocks_count));
  buf ← put_u32 buf 0x190 (self.(snapshot_list));
  buf ← put_u32 buf 0x194 (self.(error_count));
  buf ← put_u32 buf 0x198 (self.(first_error_time));
  buf ← put_u32 buf 0x19C (self.(first_error_ino));
  buf ← put_u64 buf 0x1A0 (self.(first_error_block));
  buf ← put_bytes buf 0x1A8 (self.(first_error_func));
  buf ← put_u32 buf 0x1C8 (self.(first_error_line));
  buf ← put_u32 buf 0x1CC (self.(last_error_time));
  buf ← put_u32 buf 0x1D0 (self.(last_error_ino));
  buf ← put_u32 buf 0x1D4 (self.(last_error_line));
  buf ← put_u64 buf 0x1D8 (self.(last_error_block));
  buf ← put_bytes buf 0x1E0 (self.(last_error_func));
  buf ← put_bytes buf 0x200 (self.(mount_opts));
  buf ← put_u32 buf 0x240 (self.(usr_quota_inum));
  buf ← put_u32 buf 0x244 (self.(grp_quota_inum));
  buf ← put_u32 buf 0x248 (self.(overhead_blocks));
  v ← self.(backup_bgs) !! 0%nat; buf ← put_u32 buf 0x24C v;
  v ← self.(backup_bgs) !! 1%nat; buf ← put_u32 buf 0x250 v;
  buf ← put_bytes buf 0x254 (self.(encrypt_algos));
  buf ← put_bytes buf 0x258 (self.(encrypt_pw_salt));
  buf ← put_u32 buf 0x268 (self.(lpf_ino));
  buf ← put_u32 buf 0x26C (self.(prj_quota_inum));
  buf ← put_u32 buf 0x270 (self.(checksum_seed));
  buf ← put_u8 buf 0x274 (self.(wtime_hi));
  buf ← put_u8 buf 0x275 (self.(mtime_hi));
  buf ← put_u8 buf 0x276 (self.(mkfs_time_hi));
  buf ← put_u8 buf 0x277 (self.(lastcheck_hi));
  buf ← put_u8 buf 0x278 (self.(first_error_time_hi));
  buf ← put_u8 buf 0x279 (self.(last_error_time_hi));
  buf ← put_bytes buf 0x27A (self.(pad));
  buf ← put_u32_loop 96 buf 0x27C (self.(reserved));
  put_u32 buf 0x3FC (self.(checksum)).

(** Every field within its Rust type. *)
Definition wf (self : t) : Prop :=
  uint 32 (self.(inodes_count)) /\
  uint 32 (self.(blocks_count_lo)) /\
  uint 32 (self.(r_blocks_count_lo)) /\
  uint 32 (self.(free_blocks_count_lo)) /\
  uint 32 (self.(free_inodes_count)) /\
  uint 32 (self.(first_data_block)) /\
  uint 32 (self.(log_block_size)) /\
  uint 32 (self.(log_cluster_size)) /\
  uint 32 (self.(blocks_per_group)) /\
  uint 32 (self.(clusters_per_group)) /\
  uint 32 (self.(inodes_per_group)) /\
  uint 32 (self.(mtime)) /\
  uint 32 (self.(wtime)) /\
  uint 16 (self.(mount_count)) /\
  uint 16 (self.(max_mount_count)) /\
  uint 16 (self.(magic)) /\
  uint 16 (self.(state)) /\
  uint 16 (self.(errors)) /\
  uint 16 (self.(minor_rev_level)) /\
  uint 32 (self.(lastcheck)) /\
  uint 32 (self.(check_interval)) /\
  uint 32 (self.(creator_os)) /\
  uint 32 (self.(rev_level)) /\
  uint 16 (self.(def_resuid)) /\
  uint 16 (self.(def_resgid)) /\
  uint 32 (self.(first_ino)) /\
  uint 16 (self.(inode_size)) /\
  uint 16 (self.(block_group_nr)) /\
  uint 32 (self.(feature_compat)) /\
  uint 32 (self.(feature_incompat)) /\
  uint 32 (self.(feature_ro_compat)) /\
  zlen (self.(uuid)) = 16 /\ bytes_ok (self.(uuid)) /\
  zlen (self.(volume_name)) = 16 /\ bytes_ok (self.(volume_name)) /\
  zlen (self.(last_mounted)) = 64 /\ bytes_ok (self.(last_mounted)) /\
  uint 32 (self.(algorithm_usage_bitmap)) /\
  uint 8 (self.(prealloc_blocks)) /\
  uint 8 (self.(prealloc_dir_blocks)) /\
  uint 16 (self.(reserved_gdt_blocks)) /\
  zlen (self.(journal_uuid)) = 16 /\ bytes_ok (self.(journal_uuid)) /\
  uint 32 (self.(journal_inum)) /\
  uint 32 (self.(journal_dev)) /\
  uint 32 (self.(last_orphan)) /\
  zlen (self.(hash_seed)) = 4 /\ Forall (uint 32) (self.(hash_seed)) /\
  uint 8 (self.(def_hash_version)) /\
  uint 8 (self.(journal_backup_type)) /\
  uint 16 (self.(desc_size)) /\
  uint 32 (self.(default_mount_opts)) /\
  uint 32 (self.(first_meta_bg)) /\
  uint 32 (self.(mkfs_time)) /\
  zlen (self.(journal_blocks)) = 17 /\ Forall (uint 32) (self.(journal_blocks)) /\
  uint 32 (self.(blocks_count_hi)) /\
  uint 32 (self.(r_blocks_count_hi)) /\
  uint 32 (self.(free_blocks_count_hi)) /\
  uint 16 (self.(min_extra_isize)) /\
  uint 16 (self.(want_extra_isize)) /\
  uint 32 (self.(flags)) /\
  uint 16 (self.(raid_stride)) /\
  uint 16 (self.(mmp_interval)) /\
  uint 64 (self.(mmp_block)) /\
  uint 32 (self.(raid_stripe_width)) /\
  uint 8 (self.(log_groups_per_flex)) /\
  uint 8 (self.(checksum_type)) /\
  uint 16 (self.(reserved_pad)) /\
  uint 64 (self.(kbytes_written)) /\
  uint 32 (self.(snapshot_inum)) /\
  uint 32 (self.(snapshot_id)) /\
  uint 64 (self.(snapshot_r_blocks_count)) /\
  uint 32 (self.(snapshot_list)) /\
  uint 32 (self.(error_count)) /\
  uint 32 (self.(first_error_time)) /\
  uint 32 (self.(first_error_ino)) /\
  uint 64 (self.(first_error_block)) /\
  zlen (self.(first_error_func)) = 32 /\ bytes_ok (self.(first_error_func)) /\
  uint 32 (self.(first_error_line)) /\
  uint 32 (self.(last_error_time)) /\
  uint 32 (self.(last_error_ino)) /\
  uint 32 (self.(last_error_line)) /\
  uint 64 (self.(last_error_block)) /\
  zlen (self.(last_error_func)) = 32 /\ bytes_ok (self.(last_error_func)) /\
  zlen (self.(mount_opts)) = 64 /\ bytes_ok (self.(mount_opts)) /\
  uint 32 (self.(usr_quota_inum)) /\
  uint 32 (self.(grp_quota_inum)) /\
  uint 32 (self.(overhead_blocks)) /\
  zlen (self.(backup_bgs)) = 2 /\ Forall (uint 32) (self.(backup_bgs)) /\
  zlen (self.(encrypt_algos)) = 4 /\ bytes_ok (self.(encrypt_algos)) /\
  zlen (self.(encrypt_pw_salt)) = 16 /\ bytes_ok (self.(encrypt_pw_salt)) /\
  uint 32 (self.(lpf_ino)) /\
  uint 32 (self.(prj_quota_inum)) /\
  uint 32 (self.(checksum_seed)) /\
  uint 8 (self.(wtime_hi)) /\
  uint 8 (self.(mtime_hi)) /\
  uint 8 (self.(mkfs_time_hi)) /\
  uint 8 (self.(lastcheck_hi)) /\
  uint 8 (self.(first_error_time_hi)) /\
  uint 8 (self.(last_error_time_hi)) /\
  zlen (self.(pad)) = 2 /\ bytes_ok (self.(pad)) /\
  zlen (self.(reserved)) = 96 /\ Forall (uint 32) (self.(reserved)) /\
  uint 32 (self.(checksum)).

(** The encoded fields in disk order, and their lengths. *)
Definition layout (self : t) : list buffer :=
  [to_le_bytes 4 (self.(inodes_count));
   to_le_bytes 4 (self.(blocks_count_lo));
   to_le_bytes 4 (self.(r_blocks_count_lo));
   to_le_bytes 4 (self.(free_blocks_count_lo));
   to_le_bytes 4 (self.(free_inodes_count));
   to_le_bytes 4 (self.(first_data_block));
   to_le_bytes 4 (self.(log_block_size));
   to_le_bytes 4 (self.(log_cluster_size));
   to_le_bytes 4 (self.(blocks_per_group));
   to_le_bytes 4 (self.(clusters_per_group));
   to_le_bytes 4 (self.(inodes_per_group));
   to_le_bytes 4 (self.(mtime));
   to_le_bytes 4 (self.(wtime));
   to_le_bytes 2 (self.(mount_count));
   to_le_bytes 2 (self.(max_mount_count));
   to_le_bytes 2 (self.(magic));
   to_le_bytes 2 (self.(state));
   to_le_bytes 2 (self.(errors));
   to_le_bytes 2 (self.(minor_rev_level));
   to_le_bytes 4 (self.(lastcheck));
   to_le_bytes 4 (self.(check_interval));
   to_le_bytes 4 (self.(creator_os));
   to_le_bytes 4 (self.(rev_level));
   to_le_bytes 2 (self.(def_resuid));
   to_le_bytes 2 (self.(def_resgid));
   to_le_bytes 4 (self.(first_ino));
   to_le_bytes 2 (self.(inode_size));
   to_le_bytes 2 (self.(block_group_nr));
   to_le_bytes 4 (self.(feature_compat));
   to_le_bytes 4 (self.(feature_incompat));
   to_le_bytes 4 (self.(feature_ro_compat));
   self.(uuid);
   self.(volume_name);
   self.(last_mounted);
   to_le_bytes 4 (self.(algorithm_usage_bitmap));
   to_le_bytes 1 (self.(prealloc_blocks));
   to_le_bytes 1 (self.(prealloc_dir_blocks));
   to_le_bytes 2 (self.(reserved_gdt_blocks));
   self.(journal_uuid);
   to_le_bytes 4 (self.(journal_inum));
   to_le_bytes 4 (self.(journal_dev));
   to_le_bytes 4 (self.(last_orphan));
   u32_array (self.(hash_seed));
   to_le_bytes 1 (self.(def_hash_version));
   to_le_bytes 1 (self.(journal_backup_type));
   to_le_bytes 2 (self.(desc_size));
   to_le_bytes 4 (self.(default_mount_opts));
   to_le_bytes 4 (self.(first_meta_bg));
   to_le_bytes 4 (self.(mkfs_time));
   u32_array (self.(journal_blocks));
   to_le_bytes 4 (self.(blocks_count_hi));
   to_le_bytes 4 (self.(r_blocks_count_hi));
   to_le_bytes 4 (self.(free_blocks_count_hi));
   to_le_bytes 2 (self.(min_extra_isize));
   to_le_bytes 2 (self.(want_extra_isize));
   to_le_bytes 4 (self.(flags));
   to_le_bytes 2 (self.(raid_stride));
   to_le_bytes 2 (self.(mmp_interval));
   to_le_bytes 8 (self.(mmp_block));
   to_le_bytes 4 (self.(raid_stripe_width));
   to_le_bytes 1 (self.(log_groups_per_flex));
   to_le_bytes 1 (self.(checksum_type));
   to_le_bytes 2 (self.(reserved_pad));
   to_le_bytes 8 (self.(kbytes_written));
   to_le_bytes 4 (self.(snapshot_inum));
   to_le_bytes 4 (self.(snapshot_id));
   to_le_bytes 8 (self.(snapshot_r_blocks_count));
   to_le_bytes 4 (self.(snapshot_list));
   to_le_bytes 4 (self.(error_count));
   to_le_bytes 4 (self.(first_error_time));
   to_le_bytes 4 (self.(first_error_ino));
   to_le_bytes 8 (self.(first_error_block));
   self.(first_error_func);
   to_le_bytes 4 (self.(first_error_line));
   to_le_bytes 4 (self.(last_error_time));
   to_le_bytes 4 (self.(last_error_ino));
   to_le_bytes 4 (self.(last_error_line));
   to_le_bytes 8 (self.(last_error_block));
   self.(last_error_func);
   self.(mount_opts);
   to_le_bytes 4 (self.(usr_quota_inum));
   to_le_bytes 4 (self.(grp_quota_inum));
   to_le_bytes 4 (self.(overhead_blocks));
   to_le_bytes 4 (nth 0 (self.(backup_bgs)) 0);
   to_le_bytes 4 (nth 1 (self.(backup_bgs)) 0);
   self.(encrypt_algos);
   self.(encrypt_pw_salt);
   to_le_bytes 4 (self.(lpf_ino));
   to_le_bytes 4 (self.(prj_quota_inum));
   to_le_bytes 4 (self.(checksum_seed));
   to_le_bytes 1 (self.(wtime_hi));
   to_le_bytes 1 (self.(mtime_hi));
   to_le_bytes 1 (self.(mkfs_time_hi));
   to_le_bytes 1 (self.(lastcheck_hi));
   to_le_bytes 1 (self.(first_error_time_hi));
   to_le_bytes 1 (self.(last_error_time_hi));
   self.(pad);
   u32_array (self.(reserved));
   to_le_bytes 4 (self.(checksum))].

Definition lens : list Z :=
  [4; 4; 4; 4; 4; 4; 4; 4; 4; 4; 4; 4; 4; 2; 2; 2; 2; 2; 2; 4; 4; 4; 4; 2; 2; 4; 2; 2; 4; 4; 4; 16; 16; 64; 4; 1; 1; 2; 16; 4; 4; 4; 16; 1; 1; 2; 4; 4; 4; 68; 4; 4; 4; 2; 2; 4; 2; 2; 8; 4; 1; 1; 2; 8; 4; 4; 8; 4; 4; 4; 4; 8; 32; 4; 4; 4; 4; 8; 32; 64; 4; 4; 4; 4; 4; 4; 16; 4; 4; 4; 1; 1; 1; 1; 1; 1; 2; 384; 4].

#[global] Instance disk_struct : DiskStruct t := {|
  ds_size := SIZE; ds_wf := wf; ds_layout := layout; ds_lens := lens;
  ds_read := read_from; ds_write := write_to |}.


Lemma superBlock_lens_ok (x : t) : wf x -> zlen <$> layout x = lens.
Proof. ds_lens_ok wf layout lens. Qed.

Lemma superBlock_write_ok (x : t) buf :
  wf x -> SIZE <= zlen buf ->
  exists buf0, zlen buf0 = zlen buf /\ drop (Z.to_nat SIZE) buf0 = drop (Z.to_nat SIZE) buf /\
    write_to x buf = write_segs 0 lens (layout x) buf0.
Proof.
  unfold wf. intros H Hl. destruct_and?. unfold write_to.
  rewrite (proj2 (Z.leb_le _ _) Hl). cbn [debug_assert mbind option_bind].
  destruct (fill_zero_spec buf SIZE) as (buf0 & E & ? & ?); [unfold SIZE, SUPERBLOCK_SIZE in *; lia|].
  rewrite E. cbn [mbind option_bind]. exists buf0. split; [done|]. split; [done|].
  assert (Hb : exists b0 b1, x.(backup_bgs) = [b0; b1]).
  { destruct (x.(backup_bgs)) as [|b0 [|b1 [|]]] eqn:E'; unfold zlen in *; simpl in *; try lia; eauto. }
  destruct Hb as (b0 & b1 & Hb).
  unfold layout, lens. rewrite !Hb. write_fields.
Qed.

Lemma superBlock_read_ok (x : t) rest : wf x -> read_from (concat (layout x) ++ rest) = Some x.
Proof.
  intros Hwf. pose proof (superBlock_lens_ok x Hwf) as Hl. unfold wf in Hwf. destruct_and?.
  assert (Hs : SIZE <= zlen (concat (layout x) ++ rest)).
  { rewrite zlen_app, zlen_concat, Hl. change (zsum lens) with SIZE.
    pose proof (zlen_nonneg rest). lia. }
  unfold read_from. rewrite (proj2 (Z.leb_le _ _) Hs). cbn [debug_assert].
  destruct x as [].
  cbn [inodes_count blocks_count_lo r_blocks_count_lo free_blocks_count_lo free_inodes_count first_data_block log_block_size log_cluster_size blocks_per_group clusters_per_group inodes_per_group mtime wtime mount_count max_mount_count magic state errors minor_rev_level lastcheck check_interval creator_os rev_level def_resuid def_resgid first_ino inode_size block_group_nr feature_compat feature_incompat feature_ro_compat uuid volume_name last_mounted algorithm_usage_bitmap prealloc_blocks prealloc_dir_blocks reserved_gdt_blocks journal_uuid journal_inum journal_dev last_orphan hash_seed def_hash_version journal_backup_type desc_size default_mount_opts first_meta_bg mkfs_time journal_blocks blocks_count_hi r_blocks_count_hi free_blocks_count_hi min_extra_isize want_extra_isize flags raid_stride mmp_interval mmp_block raid_stripe_width log_groups_per_flex checksum_type reserved_pad kbytes_written snapshot_inum snapshot_id snapshot_r_blocks_count snapshot_list error_count first_error_time first_error_ino first_error_block first_error_func first_error_line last_error_time last_error_ino last_error_line last_error_block last_error_func mount_opts usr_quota_inum grp_quota_inum overhead_blocks backup_bgs encrypt_algos encrypt_pw_salt lpf_ino prj_quota_inum checksum_seed wtime_hi mtime_hi mkfs_time_hi lastcheck_hi first_error_time_hi last_error_time_hi pad reserved checksum] in *.
  assert (Hb : exists b0 b1, backup_bgs0 = [b0; b1]).
  { destruct backup_bgs0 as [|b0 [|b1 [|]]]; unfold zlen in *; simpl in *; try lia; eauto. }
  destruct Hb as (b0 & b1 & ->).
  match goal with H : Forall (uint 32) [b0; b1] |- _ =>
    apply Forall_cons_1 in H as [? H]; apply Forall_cons_1 in H as [? _] end.
  read_fields Hl. reflexivity.
Qed.

Lemma superBlock_read_total buf :
  bytes_ok buf -> SIZE <= zlen buf ->
  exists x, read_from buf = Some x /\ wf x /\ layout x = cut 0 lens buf.
Proof.
  intros Hok Hs. unfold read_from.
  rewrite (proj2 (Z.leb_le _ _) Hs). cbn [debug_assert]. unfold SIZE, SUPERBLOCK_SIZE in Hs.
  read_any. eexists. split; [reflexivity|]. split.
  - unfold wf. simpl. ds_fields_wf.
  - unfold layout, lens. simpl. cut_fields.
Qed.

#[global] Instance disk_struct_ok : DiskStructOk t.
Proof.
  ds_instance wf layout SIZE write_to read_from superBlock_lens_ok superBlock_write_ok superBlock_read_ok superBlock_read_total.
Qed.

End SuperBlock.

(** ** Properties *)

(** A superblock written to any buffer of at least 1024 bytes reads back
    equal, only those 1024 bytes change; and reading any 1024 bytes and writing the
    result over them changes nothing: no byte of the structure is lost. *)
Theorem superblock_roundtrip (sb : SuperBlock.t) (buf : buffer) :
  SuperBlock.wf sb -> bytes_ok buf -> SuperBlock.SIZE <= zlen buf ->
  (exists buf', SuperBlock.write_to sb buf = Some buf' /\ SuperBlock.read_from buf' = Some sb /\
     zlen buf' = zlen buf /\ drop 1024 buf' = drop 1024 buf) /\
  (exists sb', SuperBlock.read_from buf = Some sb' /\ SuperBlock.wf sb' /\
     SuperBlock.write_to sb' buf = Some buf).
Proof.
  intros Hwf Hok Hl. split; [exact (ds_write_read sb buf Hwf Hl)|].
  pose proof (ds_read_total (A:=SuperBlock.t) buf Hok) as Ht. destruct (Ht Hl) as (sb' & Hr & Hwf' & _).
  exists sb'. split; [exact Hr|]. split; [exact Hwf'|]. exact (ds_read_write sb' buf Hok Hr).
Qed.

Lemma superblock_roundtrip_witness :
  (exists buf', SuperBlock.write_to SuperBlock.default (replicate 1024 7) = Some buf' /\
     SuperBlock.read_from buf' = Some SuperBlock.default /\
     zlen buf' = 1024 /\ drop 1024 buf' = drop 1024 (replicate 1024 7)) /\
  (exists sb', SuperBlock.read_from (replicate 1024 7) = Some sb' /\ SuperBlock.wf sb' /\
     SuperBlock.write_to sb' (replicate 1024 7) = Some (replicate 1024 7)).
Proof.
  apply (superblock_roundtrip SuperBlock.default (replicate 1024 7)).
  - apply (bool_decide_unpack _). vm_compute. exact I.
  - apply Forall_replicate. by vm_compute.
  - by vm_compute.
Defined.

(** On a buffer shorter than the structure both operations panic rather
    than touch a partial superblock. *)
Theorem superblock_short_buffer (sb : SuperBlock.t) (buf : buffer) :
  SuperBlock.wf sb -> zlen buf < SuperBlock.SIZE ->
  SuperBlock.write_to sb buf = None /\ SuperBlock.read_from buf = None.
Proof.
  intros Hwf Hl. split; [exact (ds_write_short sb buf Hwf Hl)|].
  pose proof (ds_read_short (A:=SuperBlock.t) buf) as Hs. exact (Hs Hl).
Qed.

Lemma superblock_short_buffer_witness :
  SuperBlock.write_to SuperBlock.default [1; 2] = None /\ SuperBlock.read_from [1; 2] = None.
Proof.
  apply (superblock_short_buffer SuperBlock.default [1; 2]); [|by vm_compute].
  apply (bool_decide_unpack _). vm_compute. exact I.
Defined.
