(* ===== verification/DiskTypes.v ===== *)
(** * The on-disk structures

    [common/ext4/src/types.rs], sections 2 to 9: group descriptor, inode, extent
    header, leaf, index and tail, directory entry and xattr entry headers.  Each
    Module holds the struct as a record, its [read_from] and [write_to], and
    proves the contract [DiskStruct] of [Bytes.v] for it. *)

From stdpp Require Import base list option numbers.
From S2P Require Import Prelude Bytes Constants.

Module GroupDescriptor.

(** [struct GroupDescriptor] *)
Record t : Type := mk {
  block_bitmap_lo : Z;
  inode_bitmap_lo : Z;
  inode_table_lo : Z;
  free_blocks_count_lo : Z;
  free_inodes_count_lo : Z;
  used_dirs_count_lo : Z;
  flags : Z;
  exclude_bitmap_lo : Z;
  block_bitmap_csum_lo : Z;
  inode_bitmap_csum_lo : Z;
  itable_unused_lo : Z;
  checksum : Z;
}.

Definition SIZE : Z := 32.

(** [read_from] *)
Definition read_from (buf : buffer) : option t :=
  _ ← debug_assert (SIZE <=? zlen buf);
  block_bitmap_lo ← get_u32 buf 0x00;
  inode_bitmap_lo ← get_u32 buf 0x04;
  inode_table_lo ← get_u32 buf 0x08;
  free_blocks_count_lo ← get_u16 buf 0x0C;
  free_inodes_count_lo ← get_u16 buf 0x0E;
  used_dirs_count_lo ← get_u16 buf 0x10;
  flags ← get_u16 buf 0x12;
  exclude_bitmap_lo ← get_u32 buf 0x14;
  block_bitmap_csum_lo ← get_u16 buf 0x18;
  inode_bitmap_csum_lo ← get_u16 buf 0x1A;
  itable_unused_lo ← get_u16 buf 0x1C;
  checksum ← get_u16 buf 0x1E;
  Some {| block_bitmap_lo := block_bitmap_lo;
     inode_bitmap_lo := inode_bitmap_lo;
     inode_table_lo := inode_table_lo;
     free_blocks_count_lo := free_blocks_count_lo;
     free_inodes_count_lo := free_inodes_count_lo;
     used_dirs_count_lo := used_dirs_count_lo;
     flags := flags;
     exclude_bitmap_lo := exclude_bitmap_lo;
     block_bitmap_csum_lo := block_bitmap_csum_lo;
     inode_bitmap_csum_lo := inode_bitmap_csum_lo;
     itable_unused_lo := itable_unused_lo;
     checksum := checksum |}.

(** [write_to] *)
Definition write_to (self : t) (buf : buffer) : option buffer :=
  _ ← debug_assert (SIZE <=? zlen buf);
  buf ← fill_zero buf SIZE;
  buf ← put_u32 buf 0x00 (self.(block_bitmap_lo));
  buf ← put_u32 buf 0x04 (self.(inode_bitmap_lo));
  buf ← put_u32 buf 0x08 (self.(inode_table_lo));
  buf ← put_u16 buf 0x0C (self.(free_blocks_count_lo));
  buf ← put_u16 buf 0x0E (self.(free_inodes_count_lo));
  buf ← put_u16 buf 0x10 (self.(used_dirs_count_lo));
  buf ← put_u16 buf 0x12 (self.(flags));
  buf ← put_u32 buf 0x14 (self.(exclude_bitmap_lo));
  buf ← put_u16 buf 0x18 (self.(block_bitmap_csum_lo));
  buf ← put_u16 buf 0x1A (self.(inode_bitmap_csum_lo));
  buf ← put_u16 buf 0x1C (self.(itable_unused_lo));
  put_u16 buf 0x1E (self.(checksum)).

(** Every field within its Rust type. *)
Definition wf (self : t) : Prop :=
  uint 32 (self.(block_bitmap_lo)) /\
  uint 32 (self.(inode_bitmap_lo)) /\
  uint 32 (self.(inode_table_lo)) /\
  uint 16 (self.(free_blocks_count_lo)) /\
  uint 16 (self.(free_inodes_count_lo)) /\
  uint 16 (self.(used_dirs_count_lo)) /\
  uint 16 (self.(flags)) /\
  uint 32 (self.(exclude_bitmap_lo)) /\
  uint 16 (self.(block_bitmap_csum_lo)) /\
  uint 16 (self.(inode_bitmap_csum_lo)) /\
  uint 16 (self.(itable_unused_lo)) /\
  uint 16 (self.(checksum)).

(** The encoded fields in disk order, and their lengths. *)
Definition layout (self : t) : list buffer :=
  [to_le_bytes 4 (self.(block_bitmap_lo));
   to_le_bytes 4 (self.(inode_bitmap_lo));
   to_le_bytes 4 (self.(inode_table_lo));
   to_le_bytes 2 (self.(free_blocks_count_lo));
   to_le_bytes 2 (self.(free_inodes_count_lo));
   to_le_bytes 2 (self.(used_dirs_count_lo));
   to_le_bytes 2 (self.(flags));
   to_le_bytes 4 (self.(exclude_bitmap_lo));
   to_le_bytes 2 (self.(block_bitmap_csum_lo));
   to_le_bytes 2 (self.(inode_bitmap_csum_lo));
   to_le_bytes 2 (self.(itable_unused_lo));
   to_le_bytes 2 (self.(checksum))].

Definition lens : list Z :=
  [4; 4; 4; 2; 2; 2; 2; 4; 2; 2; 2; 2].

#[global] Instance disk_struct : DiskStruct t := {|
  ds_size := SIZE; ds_wf := wf; ds_layout := layout; ds_lens := lens;
  ds_read := read_from; ds_write := write_to |}.


Lemma groupDescriptor_lens_ok (x : t) : wf x -> zlen <$> layout x = lens.
Proof. ds_lens_ok wf layout lens. Qed.

Lemma groupDescriptor_write_ok (x : t) buf :
  wf x -> SIZE <= zlen buf ->
  exists buf0, zlen buf0 = zlen buf /\ drop (Z.to_nat SIZE) buf0 = drop (Z.to_nat SIZE) buf /\
    write_to x buf = write_segs 0 lens (layout x) buf0.
Proof. ds_write_zeroed_ok wf write_to layout lens SIZE. Qed.

Lemma groupDescriptor_read_ok (x : t) rest : wf x -> read_from (concat (layout x) ++ rest) = Some x.
Proof. ds_read_ok groupDescriptor_lens_ok wf read_from layout lens SIZE. Qed.

Lemma groupDescriptor_read_total buf :
  bytes_ok buf -> SIZE <= zlen buf ->
  exists x, read_from buf = Some x /\ wf x /\ layout x = cut 0 lens buf.
Proof. ds_read_total wf read_from layout lens SIZE. Qed.

#[global] Instance disk_struct_ok : DiskStructOk t.
Proof.
  ds_instance wf layout SIZE write_to read_from groupDescriptor_lens_ok groupDescriptor_write_ok groupDescriptor_read_ok groupDescriptor_read_total.
Qed.

(** [gd.checksum = c] *)
Definition set_checksum (c : Z) (gd : t) : t :=
  {| block_bitmap_lo := gd.(block_bitmap_lo); inode_bitmap_lo := gd.(inode_bitmap_lo);
     inode_table_lo := gd.(inode_table_lo); free_blocks_count_lo := gd.(free_blocks_count_lo);
     free_inodes_count_lo := gd.(free_inodes_count_lo); used_dirs_count_lo := gd.(used_dirs_count_lo);
     flags := gd.(flags); exclude_bitmap_lo := gd.(exclude_bitmap_lo);
     block_bitmap_csum_lo := gd.(block_bitmap_csum_lo); inode_bitmap_csum_lo := gd.(inode_bitmap_csum_lo);
     itable_unused_lo := gd.(itable_unused_lo); checksum := c |}.

Lemma set_checksum_wf c gd : wf gd -> uint 16 c -> wf (set_checksum c gd).
Proof. unfold wf. simpl. intros H Hc. destruct_and?. by split_and!. Qed.

End GroupDescriptor.

Module Inode.

(** [struct Inode] *)
Record t : Type := mk {
  mode : Z;
  uid : Z;
  size_lo : Z;
  atime : Z;
  ctime : Z;
  mtime : Z;
  dtime : Z;
  gid : Z;
  links_count : Z;
  blocks_lo : Z;
  flags : Z;
  version : Z;
  block : list Z;  (** [[u8; INODE_BLOCK_SIZE]] *)
  generation : Z;
  xattr_block_lo : Z;
  size_hi : Z;
  obsolete_fragment_addr : Z;
  blocks_hi : Z;
  xattr_block_hi : Z;
  uid_hi : Z;
  gid_hi : Z;
  checksum_lo : Z;
  reserved : Z;
  extra_isize : Z;
  checksum_hi : Z;
  ctime_extra : Z;
  mtime_extra : Z;
  atime_extra : Z;
  crtime : Z;
  crtime_extra : Z;
  version_hi : Z;
  projid : Z;
  inline_xattrs : list Z;  (** [[u8; 96]] *)
}.

Definition SIZE : Z := INODE_SIZE.

Definition OFF_MODE : Z := 0x00.
Definition OFF_UID : Z := 0x02.
Definition OFF_SIZE_LO : Z := 0x04.
Definition OFF_ATIME : Z := 0x08.
Definition OFF_CTIME : Z := 0x0C.
Definition OFF_MTIME : Z := 0x10.
Definition OFF_DTIME : Z := 0x14.
Definition OFF_GID : Z := 0x18.
Definition OFF_LINKS : Z := 0x1A.
Definition OFF_BLOCKS_LO : Z := 0x1C.
Definition OFF_FLAGS : Z := 0x20.
Definition OFF_VERSION : Z := 0x24.
Definition OFF_BLOCK : Z := 0x28.
Definition OFF_GENERATION : Z := 0x64.
Definition OFF_XATTR_LO : Z := 0x68.
Definition OFF_SIZE_HI : Z := 0x6C.
Definition OFF_FRAG_ADDR : Z := 0x70.
Definition OFF_BLOCKS_HI : Z := 0x74.
Definition OFF_XATTR_HI : Z := 0x76.
Definition OFF_UID_HI : Z := 0x78.
Definition OFF_GID_HI : Z := 0x7A.
Definition OFF_CSUM_LO : Z := 0x7C.
Definition OFF_RESERVED : Z := 0x7E.
Definition OFF_EXTRA_ISIZE : Z := 0x80.
Definition OFF_CSUM_HI : Z := 0x82.
Definition OFF_CTIME_EXTRA : Z := 0x84.
Definition OFF_MTIME_EXTRA : Z := 0x88.
Definition OFF_ATIME_EXTRA : Z := 0x8C.
Definition OFF_CRTIME : Z := 0x90.
Definition OFF_CRTIME_EXTRA : Z := 0x94.
Definition OFF_VERSION_HI : Z := 0x98.
Definition OFF_PROJID : Z := 0x9C.
Definition OFF_INLINE_XATTRS : Z := INODE_ACTUAL_SIZE.

(** [impl Default for Inode] *)
Definition default : t := {|
  mode := 0; uid := 0; size_lo := 0; atime := 0; ctime := 0; mtime := 0; dtime := 0;
  gid := 0; links_count := 0; blocks_lo := 0; flags := 0; version := 0;
  block := replicate 60 0;
  generation := 0; xattr_block_lo := 0; size_hi := 0; obsolete_fragment_addr := 0;
  blocks_hi := 0; xattr_block_hi := 0; uid_hi := 0; gid_hi := 0; checksum_lo := 0; reserved := 0;
  extra_isize := 0; checksum_hi := 0; ctime_extra := 0; mtime_extra := 0; atime_extra := 0;
  crtime := 0; crtime_extra := 0; version_hi := 0; projid := 0;
  inline_xattrs := replicate 96 0 |}.


(** [read_from] *)
Definition read_from (buf : buffer) : option t :=
  _ ← debug_assert (SIZE <=? zlen buf);
  mode ← get_u16 buf OFF_MODE;
  uid ← get_u16 buf OFF_UID;
  size_lo ← get_u32 buf OFF_SIZE_LO;
  atime ← get_u32 buf OFF_ATIME;
  ctime ← get_u32 buf OFF_CTIME;
  mtime ← get_u32 buf OFF_MTIME;
  dtime ← get_u32 buf OFF_DTIME;
  gid ← get_u16 buf OFF_GID;
  links_count ← get_u16 buf OFF_LINKS;
  blocks_lo ← get_u32 buf OFF_BLOCKS_LO;
  flags ← get_u32 buf OFF_FLAGS;
  version ← get_u32 buf OFF_VERSION;
  block ← get_bytes INODE_BLOCK_SIZE buf OFF_BLOCK;
  generation ← get_u32 buf OFF_GENERATION;
  xattr_block_lo ← get_u32 buf OFF_XATTR_LO;
  size_hi ← get_u32 buf OFF_SIZE_HI;
  obsolete_fragment_addr ← get_u32 buf OFF_FRAG_ADDR;
  blocks_hi ← get_u16 buf OFF_BLOCKS_HI;
  xattr_block_hi ← get_u16 buf OFF_XATTR_HI;
  uid_hi ← get_u16 buf OFF_UID_HI;
  gid_hi ← get_u16 buf OFF_GID_HI;
  checksum_lo ← get_u16 buf OFF_CSUM_LO;
  reserved ← get_u16 buf OFF_RESERVED;
  extra_isize ← get_u16 buf OFF_EXTRA_ISIZE;
  checksum_hi ← get_u16 buf OFF_CSUM_HI;
  ctime_extra ← get_u32 buf OFF_CTIME_EXTRA;
  mtime_extra ← get_u32 buf OFF_MTIME_EXTRA;
  atime_extra ← get_u32 buf OFF_ATIME_EXTRA;
  crtime ← get_u32 buf OFF_CRTIME;
  crtime_extra ← get_u32 buf OFF_CRTIME_EXTRA;
  version_hi ← get_u32 buf OFF_VERSION_HI;
  projid ← get_u32 buf OFF_PROJID;
  inline_xattrs ← get_bytes 96 buf OFF_INLINE_XATTRS;
  Some {| mode := mode;
     uid := uid;
     size_lo := size_lo;
     atime := atime;
     ctime := ctime;
     mtime := mtime;
     dtime := dtime;
     gid := gid;
     links_count := links_count;
     blocks_lo := blocks_lo;
     flags := flags;
     version := version;
     block := block;
     generation := generation;
     xattr_block_lo := xattr_block_lo;
     size_hi := size_hi;
     obsolete_fragment_addr := obsolete_fragment_addr;
     blocks_hi := blocks_hi;
     xattr_block_hi := xattr_block_hi;
     uid_hi := uid_hi;
     gid_hi := gid_hi;
     checksum_lo := checksum_lo;
     reserved := reserved;
     extra_isize := extra_isize;
     checksum_hi := checksum_hi;
     ctime_extra := ctime_extra;
     mtime_extra := mtime_extra;
     atime_extra := atime_extra;
     crtime := crtime;
     crtime_extra := crtime_extra;
     version_hi := version_hi;
     projid := projid;
     inline_xattrs := inline_xattrs |}.

(** [write_to] *)
Definition write_to (self : t) (buf : buffer) : option buffer :=
  _ ← debug_assert (SIZE <=? zlen buf);
  buf ← fill_zero buf SIZE;
  buf ← put_u16 buf OFF_MODE (self.(mode));
  buf ← put_u16 buf OFF_UID (self.(uid));
  buf ← put_u32 buf OFF_SIZE_LO (self.(size_lo));
  buf ← put_u32 buf OFF_ATIME (self.(atime));
  buf ← put_u32 buf OFF_CTIME (self.(ctime));
  buf ← put_u32 buf OFF_MTIME (self.(mtime));
  buf ← put_u32 buf OFF_DTIME (self.(dtime));
  buf ← put_u16 buf OFF_GID (self.(gid));
  buf ← put_u16 buf OFF_LINKS (self.(links_count));
  buf ← put_u32 buf OFF_BLOCKS_LO (self.(blocks_lo));
  buf ← put_u32 buf OFF_FLAGS (self.(flags));
  buf ← put_u32 buf OFF_VERSION (self.(version));
  buf ← put_bytes buf OFF_BLOCK (self.(block));
  buf ← put_u32 buf OFF_GENERATION (self.(generation));
  buf ← put_u32 buf OFF_XATTR_LO (self.(xattr_block_lo));
  buf ← put_u32 buf OFF_SIZE_HI (self.(size_hi));
  buf ← put_u32 buf OFF_FRAG_ADDR (self.(obsolete_fragment_addr));
  buf ← put_u16 buf OFF_BLOCKS_HI (self.(blocks_hi));
  buf ← put_u16 buf OFF_XATTR_HI (self.(xattr_block_hi));
  buf ← put_u16 buf OFF_UID_HI (self.(uid_hi));
  buf ← put_u16 buf OFF_GID_HI (self.(gid_hi));
  buf ← put_u16 buf OFF_CSUM_LO (self.(checksum_lo));
  buf ← put_u16 buf OFF_RESERVED (self.(reserved));
  buf ← put_u16 buf OFF_EXTRA_ISIZE (self.(extra_isize));
  buf ← put_u16 buf OFF_CSUM_HI (self.(checksum_hi));
  buf ← put_u32 buf OFF_CTIME_EXTRA (self.(ctime_extra));
  buf ← put_u32 buf OFF_MTIME_EXTRA (self.(mtime_extra));
  buf ← put_u32 buf OFF_ATIME_EXTRA (self.(atime_extra));
  buf ← put_u32 buf OFF_CRTIME (self.(crtime));
  buf ← put_u32 buf OFF_CRTIME_EXTRA (self.(crtime_extra));
  buf ← put_u32 buf OFF_VERSION_HI (self.(version_hi));
  buf ← put_u32 buf OFF_PROJID (self.(projid));
  put_bytes buf OFF_INLINE_XATTRS (self.(inline_xattrs)).

(** Every field within its Rust type. *)
Definition wf (self : t) : Prop :=
  uint 16 (self.(mode)) /\
  uint 16 (self.(uid)) /\
  uint 32 (self.(size_lo)) /\
  uint 32 (self.(atime)) /\
  uint 32 (self.(ctime)) /\
  uint 32 (self.(mtime)) /\
  uint 32 (self.(dtime)) /\
  uint 16 (self.(gid)) /\
  uint 16 (self.(links_count)) /\
  uint 32 (self.(blocks_lo)) /\
  uint 32 (self.(flags)) /\
  uint 32 (self.(version)) /\
  zlen (self.(block)) = INODE_BLOCK_SIZE /\ bytes_ok (self.(block)) /\
  uint 32 (self.(generation)) /\
  uint 32 (self.(xattr_block_lo)) /\
  uint 32 (self.(size_hi)) /\
  uint 32 (self.(obsolete_fragment_addr)) /\
  uint 16 (self.(blocks_hi)) /\
  uint 16 (self.(xattr_block_hi)) /\
  uint 16 (self.(uid_hi)) /\
  uint 16 (self.(gid_hi)) /\
  uint 16 (self.(checksum_lo)) /\
  uint 16 (self.(reserved)) /\
  uint 16 (self.(extra_isize)) /\
  uint 16 (self.(checksum_hi)) /\
  uint 32 (self.(ctime_extra)) /\
  uint 32 (self.(mtime_extra)) /\
  uint 32 (self.(atime_extra)) /\
  uint 32 (self.(crtime)) /\
  uint 32 (self.(crtime_extra)) /\
  uint 32 (self.(version_hi)) /\
  uint 32 (self.(projid)) /\
  zlen (self.(inline_xattrs)) = 96 /\ bytes_ok (self.(inline_xattrs)).

(** The encoded fields in disk order, and their lengths. *)
Definition layout (self : t) : list buffer :=
  [to_le_bytes 2 (self.(mode));
   to_le_bytes 2 (self.(uid));
   to_le_bytes 4 (self.(size_lo));
   to_le_bytes 4 (self.(atime));
   to_le_bytes 4 (self.(ctime));
   to_le_bytes 4 (self.(mtime));
   to_le_bytes 4 (self.(dtime));
   to_le_bytes 2 (self.(gid));
   to_le_bytes 2 (self.(links_count));
   to_le_bytes 4 (self.(blocks_lo));
   to_le_bytes 4 (self.(flags));
   to_le_bytes 4 (self.(version));
   self.(block);
   to_le_bytes 4 (self.(generation));
   to_le_bytes 4 (self.(xattr_block_lo));
   to_le_bytes 4 (self.(size_hi));
   to_le_bytes 4 (self.(obsolete_fragment_addr));
   to_le_bytes 2 (self.(blocks_hi));
   to_le_bytes 2 (self.(xattr_block_hi));
   to_le_bytes 2 (self.(uid_hi));
   to_le_bytes 2 (self.(gid_hi));
   to_le_bytes 2 (self.(checksum_lo));
   to_le_bytes 2 (self.(reserved));
   to_le_bytes 2 (self.(extra_isize));
   to_le_bytes 2 (self.(checksum_hi));
   to_le_bytes 4 (self.(ctime_extra));
   to_le_bytes 4 (self.(mtime_extra));
   to_le_bytes 4 (self.(atime_extra));
   to_le_bytes 4 (self.(crtime));
   to_le_bytes 4 (self.(crtime_extra));
   to_le_bytes 4 (self.(version_hi));
   to_le_bytes 4 (self.(projid));
   self.(inline_xattrs)].

Definition lens : list Z :=
  [2; 2; 4; 4; 4; 4; 4; 2; 2; 4; 4; 4; INODE_BLOCK_SIZE; 4; 4; 4; 4; 2; 2; 2; 2; 2; 2; 2; 2; 4; 4; 4; 4; 4; 4; 4; 96].

#[global] Instance disk_struct : DiskStruct t := {|
  ds_size := SIZE; ds_wf := wf; ds_layout := layout; ds_lens := lens;
  ds_read := read_from; ds_write := write_to |}.


Lemma inode_lens_ok (x : t) : wf x -> zlen <$> layout x = lens.
Proof. ds_lens_ok wf layout lens. Qed.

Lemma inode_write_ok (x : t) buf :
  wf x -> SIZE <= zlen buf ->
  exists buf0, zlen buf0 = zlen buf /\ drop (Z.to_nat SIZE) buf0 = drop (Z.to_nat SIZE) buf /\
    write_to x buf = write_segs 0 lens (layout x) buf0.
Proof. ds_write_zeroed_ok wf write_to layout lens SIZE. Qed.

Lemma inode_read_ok (x : t) rest : wf x -> read_from (concat (layout x) ++ rest) = Some x.
Proof. ds_read_ok inode_lens_ok wf read_from layout lens SIZE. Qed.

Lemma inode_read_total buf :
  bytes_ok buf -> SIZE <= zlen buf ->
  exists x, read_from buf = Some x /\ wf x /\ layout x = cut 0 lens buf.
Proof.
  intros Hok Hs. unfold read_from.
  rewrite (proj2 (Z.leb_le _ _) Hs). cbn [debug_assert]. unfold SIZE, INODE_SIZE in Hs. unfold OFF_MODE, OFF_UID, OFF_SIZE_LO, OFF_ATIME, OFF_CTIME, OFF_MTIME, OFF_DTIME, OFF_GID, OFF_LINKS, OFF_BLOCKS_LO, OFF_FLAGS, OFF_VERSION, OFF_BLOCK, OFF_GENERATION, OFF_XATTR_LO, OFF_SIZE_HI, OFF_FRAG_ADDR, OFF_BLOCKS_HI, OFF_XATTR_HI, OFF_UID_HI, OFF_GID_HI, OFF_CSUM_LO, OFF_RESERVED, OFF_EXTRA_ISIZE, OFF_CSUM_HI, OFF_CTIME_EXTRA, OFF_MTIME_EXTRA, OFF_ATIME_EXTRA, OFF_CRTIME, OFF_CRTIME_EXTRA, OFF_VERSION_HI, OFF_PROJID, OFF_INLINE_XATTRS, INODE_ACTUAL_SIZE, INODE_BLOCK_SIZE in *.
  read_any. eexists. split; [reflexivity|]. split.
  - unfold wf, INODE_BLOCK_SIZE. simpl. ds_fields_wf.
  - unfold layout, lens. simpl. cut_fields.
Qed.

#[global] Instance disk_struct_ok : DiskStructOk t.
Proof.
  ds_instance wf layout SIZE write_to read_from inode_lens_ok inode_write_ok inode_read_ok inode_read_total.
Qed.

(** ** Constructors and accessors *)

(** [timestamp_now()] is the wall clock; [now = (seconds_lo, extra)]. *)
Definition root_inode (now : Z * Z) : t :=
  let '(time_lo, time_extra) := now in
  {| mode := Z.lor file_mode.S_IFDIR 0x1ED (* 0o755 *); uid := default.(uid); size_lo := default.(size_lo);
     atime := time_lo; ctime := time_lo; mtime := time_lo; dtime := default.(dtime);
     gid := default.(gid); links_count := 2; blocks_lo := default.(blocks_lo);
     flags := inode_flags.HUGE_FILE; version := default.(version); block := default.(block);
     generation := default.(generation); xattr_block_lo := default.(xattr_block_lo);
     size_hi := default.(size_hi); obsolete_fragment_addr := default.(obsolete_fragment_addr);
     blocks_hi := default.(blocks_hi); xattr_block_hi := default.(xattr_block_hi);
     uid_hi := default.(uid_hi); gid_hi := default.(gid_hi); checksum_lo := default.(checksum_lo);
     reserved := default.(reserved); extra_isize := EXTRA_ISIZE; checksum_hi := default.(checksum_hi);
     ctime_extra := time_extra; mtime_extra := time_extra; atime_extra := time_extra;
     crtime := time_lo; crtime_extra := time_extra; version_hi := default.(version_hi);
     projid := default.(projid); inline_xattrs := default.(inline_xattrs) |}.

Definition is_dir (self : t) : bool := Constants.is_dir self.(mode).
Definition is_reg (self : t) : bool := Constants.is_reg self.(mode).
Definition is_link (self : t) : bool := Constants.is_link self.(mode).

Definition file_size (self : t) : Z :=
  Z.lor (self.(size_lo)) (Z.shiftl (self.(size_hi)) 32).
Definition uid_full (self : t) : Z := Z.lor (self.(uid)) (Z.shiftl (self.(uid_hi)) 16).
Definition gid_full (self : t) : Z := Z.lor (self.(gid)) (Z.shiftl (self.(gid_hi)) 16).

(** One-field updates, [inode.field = v]. *)
Definition set_mode (v : Z) (self : t) : t :=
  {| mode := v; uid := self.(uid); size_lo := self.(size_lo); atime := self.(atime);
     ctime := self.(ctime); mtime := self.(mtime); dtime := self.(dtime); gid := self.(gid);
     links_count := self.(links_count); blocks_lo := self.(blocks_lo); flags := self.(flags);
     version := self.(version); block := self.(block); generation := self.(generation);
     xattr_block_lo := self.(xattr_block_lo); size_hi := self.(size_hi);
     obsolete_fragment_addr := self.(obsolete_fragment_addr); blocks_hi := self.(blocks_hi);
     xattr_block_hi := self.(xattr_block_hi); uid_hi := self.(uid_hi); gid_hi := self.(gid_hi);
     checksum_lo := self.(checksum_lo); reserved := self.(reserved);
     extra_isize := self.(extra_isize); checksum_hi := self.(checksum_hi);
     ctime_extra := self.(ctime_extra); mtime_extra := self.(mtime_extra);
     atime_extra := self.(atime_extra); crtime := self.(crtime);
     crtime_extra := self.(crtime_extra); version_hi := self.(version_hi);
     projid := self.(projid); inline_xattrs := self.(inline_xattrs) |}.
Definition set_size_lo (v : Z) (self : t) : t :=
  {| mode := self.(mode); uid := self.(uid); size_lo := v; atime := self.(atime);
     ctime := self.(ctime); mtime := self.(mtime); dtime := self.(dtime); gid := self.(gid);
     links_count := self.(links_count); blocks_lo := self.(blocks_lo); flags := self.(flags);
     version := self.(version); block := self.(block); generation := self.(generation);
     xattr_block_lo := self.(xattr_block_lo); size_hi := self.(size_hi);
     obsolete_fragment_addr := self.(obsolete_fragment_addr); blocks_hi := self.(blocks_hi);
     xattr_block_hi := self.(xattr_block_hi); uid_hi := self.(uid_hi); gid_hi := self.(gid_hi);
     checksum_lo := self.(checksum_lo); reserved := self.(reserved);
     extra_isize := self.(extra_isize); checksum_hi := self.(checksum_hi);
     ctime_extra := self.(ctime_extra); mtime_extra := self.(mtime_extra);
     atime_extra := self.(atime_extra); crtime := self.(crtime);
     crtime_extra := self.(crtime_extra); version_hi := self.(version_hi);
     projid := self.(projid); inline_xattrs := self.(inline_xattrs) |}.
Definition set_size_hi (v : Z) (self : t) : t :=
  {| mode := self.(mode); uid := self.(uid); size_lo := self.(size_lo); atime := self.(atime);
     ctime := self.(ctime); mtime := self.(mtime); dtime := self.(dtime); gid := self.(gid);
     links_count := self.(links_count); blocks_lo := self.(blocks_lo); flags := self.(flags);
     version := self.(version); block := self.(block); generation := self.(generation);
     xattr_block_lo := self.(xattr_block_lo); size_hi := v;
     obsolete_fragment_addr := self.(obsolete_fragment_addr); blocks_hi := self.(blocks_hi);
     xattr_block_hi := self.(xattr_block_hi); uid_hi := self.(uid_hi); gid_hi := self.(gid_hi);
     checksum_lo := self.(checksum_lo); reserved := self.(reserved);
     extra_isize := self.(extra_isize); checksum_hi := self.(checksum_hi);
     ctime_extra := self.(ctime_extra); mtime_extra := self.(mtime_extra);
     atime_extra := self.(atime_extra); crtime := self.(crtime);
     crtime_extra := self.(crtime_extra); version_hi := self.(version_hi);
     projid := self.(projid); inline_xattrs := self.(inline_xattrs) |}.
Definition set_uid_lo (v : Z) (self : t) : t :=
  {| mode := self.(mode); uid := v; size_lo := self.(size_lo); atime := self.(atime);
     ctime := self.(ctime); mtime := self.(mtime); dtime := self.(dtime); gid := self.(gid);
     links_count := self.(links_count); blocks_lo := self.(blocks_lo); flags := self.(flags);
     version := self.(version); block := self.(block); generation := self.(generation);
     xattr_block_lo := self.(xattr_block_lo); size_hi := self.(size_hi);
     obsolete_fragment_addr := self.(obsolete_fragment_addr); blocks_hi := self.(blocks_hi);
     xattr_block_hi := self.(xattr_block_hi); uid_hi := self.(uid_hi); gid_hi := self.(gid_hi);
     checksum_lo := self.(checksum_lo); reserved := self.(reserved);
     extra_isize := self.(extra_isize); checksum_hi := self.(checksum_hi);
     ctime_extra := self.(ctime_extra); mtime_extra := self.(mtime_extra);
     atime_extra := self.(atime_extra); crtime := self.(crtime);
     crtime_extra := self.(crtime_extra); version_hi := self.(version_hi);
     projid := self.(projid); inline_xattrs := self.(inline_xattrs) |}.
Definition set_uid_hi (v : Z) (self : t) : t :=
  {| mode := self.(mode); uid := self.(uid); size_lo := self.(size_lo); atime := self.(atime);
     ctime := self.(ctime); mtime := self.(mtime); dtime := self.(dtime); gid := self.(gid);
     links_count := self.(links_count); blocks_lo := self.(blocks_lo); flags := self.(flags);
     version := self.(version); block := self.(block); generation := self.(generation);
     xattr_block_lo := self.(xattr_block_lo); size_hi := self.(size_hi);
     obsolete_fragment_addr := self.(obsolete_fragment_addr); blocks_hi := self.(blocks_hi);
     xattr_block_hi := self.(xattr_block_hi); uid_hi := v; gid_hi := self.(gid_hi);
     checksum_lo := self.(checksum_lo); reserved := self.(reserved);
     extra_isize := self.(extra_isize); checksum_hi := self.(checksum_hi);
     ctime_extra := self.(ctime_extra); mtime_extra := self.(mtime_extra);
     atime_extra := self.(atime_extra); crtime := self.(crtime);
     crtime_extra := self.(crtime_extra); version_hi := self.(version_hi);
     projid := self.(projid); inline_xattrs := self.(inline_xattrs) |}.
Definition set_gid_lo (v : Z) (self : t) : t :=
  {| mode := self.(mode); uid := self.(uid); size_lo := self.(size_lo); atime := self.(atime);
     ctime := self.(ctime); mtime := self.(mtime); dtime := self.(dtime); gid := v;
     links_count := self.(links_count); blocks_lo := self.(blocks_lo); flags := self.(flags);
     version := self.(version); block := self.(block); generation := self.(generation);
     xattr_block_lo := self.(xattr_block_lo); size_hi := self.(size_hi);
     obsolete_fragment_addr := self.(obsolete_fragment_addr); blocks_hi := self.(blocks_hi);
     xattr_block_hi := self.(xattr_block_hi); uid_hi := self.(uid_hi); gid_hi := self.(gid_hi);
     checksum_lo := self.(checksum_lo); reserved := self.(reserved);
     extra_isize := self.(extra_isize); checksum_hi := self.(checksum_hi);
     ctime_extra := self.(ctime_extra); mtime_extra := self.(mtime_extra);
     atime_extra := self.(atime_extra); crtime := self.(crtime);
     crtime_extra := self.(crtime_extra); version_hi := self.(version_hi);
     projid := self.(projid); inline_xattrs := self.(inline_xattrs) |}.
Definition set_gid_hi (v : Z) (self : t) : t :=
  {| mode := self.(mode); uid := self.(uid); size_lo := self.(size_lo); atime := self.(atime);
     ctime := self.(ctime); mtime := self.(mtime); dtime := self.(dtime); gid := self.(gid);
     links_count := self.(links_count); blocks_lo := self.(blocks_lo); flags := self.(flags);
     version := self.(version); block := self.(block); generation := self.(generation);
     xattr_block_lo := self.(xattr_block_lo); size_hi := self.(size_hi);
     obsolete_fragment_addr := self.(obsolete_fragment_addr); blocks_hi := self.(blocks_hi);
     xattr_block_hi := self.(xattr_block_hi); uid_hi := self.(uid_hi); gid_hi := v;
     checksum_lo := self.(checksum_lo); reserved := self.(reserved);
     extra_isize := self.(extra_isize); checksum_hi := self.(checksum_hi);
     ctime_extra := self.(ctime_extra); mtime_extra := self.(mtime_extra);
     atime_extra := self.(atime_extra); crtime := self.(crtime);
     crtime_extra := self.(crtime_extra); version_hi := self.(version_hi);
     projid := self.(projid); inline_xattrs := self.(inline_xattrs) |}.
(** The four time stamps with their extra words. *)
Definition set_times (atime_ ctime_ mtime_ crtime_ : Z * Z) (self : t) : t :=
  {| mode := self.(mode); uid := self.(uid); size_lo := self.(size_lo); atime := atime_.1;
     ctime := ctime_.1; mtime := mtime_.1; dtime := self.(dtime); gid := self.(gid);
     links_count := self.(links_count); blocks_lo := self.(blocks_lo); flags := self.(flags);
     version := self.(version); block := self.(block); generation := self.(generation);
     xattr_block_lo := self.(xattr_block_lo); size_hi := self.(size_hi);
     obsolete_fragment_addr := self.(obsolete_fragment_addr); blocks_hi := self.(blocks_hi);
     xattr_block_hi := self.(xattr_block_hi); uid_hi := self.(uid_hi); gid_hi := self.(gid_hi);
     checksum_lo := self.(checksum_lo); reserved := self.(reserved);
     extra_isize := self.(extra_isize); checksum_hi := self.(checksum_hi);
     ctime_extra := ctime_.2; mtime_extra := mtime_.2;
     atime_extra := atime_.2; crtime := crtime_.1;
     crtime_extra := crtime_.2; version_hi := self.(version_hi);
     projid := self.(projid); inline_xattrs := self.(inline_xattrs) |}.
Definition set_extra_isize (v : Z) (self : t) : t :=
  {| mode := self.(mode); uid := self.(uid); size_lo := self.(size_lo); atime := self.(atime);
     ctime := self.(ctime); mtime := self.(mtime); dtime := self.(dtime); gid := self.(gid);
     links_count := self.(links_count); blocks_lo := self.(blocks_lo); flags := self.(flags);
     version := self.(version); block := self.(block); generation := self.(generation);
     xattr_block_lo := self.(xattr_block_lo); size_hi := self.(size_hi);
     obsolete_fragment_addr := self.(obsolete_fragment_addr); blocks_hi := self.(blocks_hi);
     xattr_block_hi := self.(xattr_block_hi); uid_hi := self.(uid_hi); gid_hi := self.(gid_hi);
     checksum_lo := self.(checksum_lo); reserved := self.(reserved);
     extra_isize := v; checksum_hi := self.(checksum_hi);
     ctime_extra := self.(ctime_extra); mtime_extra := self.(mtime_extra);
     atime_extra := self.(atime_extra); crtime := self.(crtime);
     crtime_extra := self.(crtime_extra); version_hi := self.(version_hi);
     projid := self.(projid); inline_xattrs := self.(inline_xattrs) |}.
Definition set_links_count (v : Z) (self : t) : t :=
  {| mode := self.(mode); uid := self.(uid); size_lo := self.(size_lo); atime := self.(atime);
     ctime := self.(ctime); mtime := self.(mtime); dtime := self.(dtime); gid := self.(gid);
     links_count := v; blocks_lo := self.(blocks_lo); flags := self.(flags);
     version := self.(version); block := self.(block); generation := self.(generation);
     xattr_block_lo := self.(xattr_block_lo); size_hi := self.(size_hi);
     obsolete_fragment_addr := self.(obsolete_fragment_addr); blocks_hi := self.(blocks_hi);
     xattr_block_hi := self.(xattr_block_hi); uid_hi := self.(uid_hi); gid_hi := self.(gid_hi);
     checksum_lo := self.(checksum_lo); reserved := self.(reserved);
     extra_isize := self.(extra_isize); checksum_hi := self.(checksum_hi);
     ctime_extra := self.(ctime_extra); mtime_extra := self.(mtime_extra);
     atime_extra := self.(atime_extra); crtime := self.(crtime);
     crtime_extra := self.(crtime_extra); version_hi := self.(version_hi);
     projid := self.(projid); inline_xattrs := self.(inline_xattrs) |}.
Definition set_blocks_lo (v : Z) (self : t) : t :=
  {| mode := self.(mode); uid := self.(uid); size_lo := self.(size_lo); atime := self.(atime);
     ctime := self.(ctime); mtime := self.(mtime); dtime := self.(dtime); gid := self.(gid);
     links_count := self.(links_count); blocks_lo := v; flags := self.(flags);
     version := self.(version); block := self.(block); generation := self.(generation);
     xattr_block_lo := self.(xattr_block_lo); size_hi := self.(size_hi);
     obsolete_fragment_addr := self.(obsolete_fragment_addr); blocks_hi := self.(blocks_hi);
     xattr_block_hi := self.(xattr_block_hi); uid_hi := self.(uid_hi); gid_hi := self.(gid_hi);
     checksum_lo := self.(checksum_lo); reserved := self.(reserved);
     extra_isize := self.(extra_isize); checksum_hi := self.(checksum_hi);
     ctime_extra := self.(ctime_extra); mtime_extra := self.(mtime_extra);
     atime_extra := self.(atime_extra); crtime := self.(crtime);
     crtime_extra := self.(crtime_extra); version_hi := self.(version_hi);
     projid := self.(projid); inline_xattrs := self.(inline_xattrs) |}.
Definition set_flags (v : Z) (self : t) : t :=
  {| mode := self.(mode); uid := self.(uid); size_lo := self.(size_lo); atime := self.(atime);
     ctime := self.(ctime); mtime := self.(mtime); dtime := self.(dtime); gid := self.(gid);
     links_count := self.(links_count); blocks_lo := self.(blocks_lo); flags := v;
     version := self.(version); block := self.(block); generation := self.(generation);
     xattr_block_lo := self.(xattr_block_lo); size_hi := self.(size_hi);
     obsolete_fragment_addr := self.(obsolete_fragment_addr); blocks_hi := self.(blocks_hi);
     xattr_block_hi := self.(xattr_block_hi); uid_hi := self.(uid_hi); gid_hi := self.(gid_hi);
     checksum_lo := self.(checksum_lo); reserved := self.(reserved);
     extra_isize := self.(extra_isize); checksum_hi := self.(checksum_hi);
     ctime_extra := self.(ctime_extra); mtime_extra := self.(mtime_extra);
     atime_extra := self.(atime_extra); crtime := self.(crtime);
     crtime_extra := self.(crtime_extra); version_hi := self.(version_hi);
     projid := self.(projid); inline_xattrs := self.(inline_xattrs) |}.
Definition set_block (v : list Z) (self : t) : t :=
  {| mode := self.(mode); uid := self.(uid); size_lo := self.(size_lo); atime := self.(atime);
     ctime := self.(ctime); mtime := self.(mtime); dtime := self.(dtime); gid := self.(gid);
     links_count := self.(links_count); blocks_lo := self.(blocks_lo); flags := self.(flags);
     version := self.(version); block := v; generation := self.(generation);
     xattr_block_lo := self.(xattr_block_lo); size_hi := self.(size_hi);
     obsolete_fragment_addr := self.(obsolete_fragment_addr); blocks_hi := self.(blocks_hi);
     xattr_block_hi := self.(xattr_block_hi); uid_hi := self.(uid_hi); gid_hi := self.(gid_hi);
     checksum_lo := self.(checksum_lo); reserved := self.(reserved);
     extra_isize := self.(extra_isize); checksum_hi := self.(checksum_hi);
     ctime_extra := self.(ctime_extra); mtime_extra := self.(mtime_extra);
     atime_extra := self.(atime_extra); crtime := self.(crtime);
     crtime_extra := self.(crtime_extra); version_hi := self.(version_hi);
     projid := self.(projid); inline_xattrs := self.(inline_xattrs) |}.
Definition set_xattr_block_lo (v : Z) (self : t) : t :=
  {| mode := self.(mode); uid := self.(uid); size_lo := self.(size_lo); atime := self.(atime);
     ctime := self.(ctime); mtime := self.(mtime); dtime := self.(dtime); gid := self.(gid);
     links_count := self.(links_count); blocks_lo := self.(blocks_lo); flags := self.(flags);
     version := self.(version); block := self.(block); generation := self.(generation);
     xattr_block_lo := v; size_hi := self.(size_hi);
     obsolete_fragment_addr := self.(obsolete_fragment_addr); blocks_hi := self.(blocks_hi);
     xattr_block_hi := self.(xattr_block_hi); uid_hi := self.(uid_hi); gid_hi := self.(gid_hi);
     checksum_lo := self.(checksum_lo); reserved := self.(reserved);
     extra_isize := self.(extra_isize); checksum_hi := self.(checksum_hi);
     ctime_extra := self.(ctime_extra); mtime_extra := self.(mtime_extra);
     atime_extra := self.(atime_extra); crtime := self.(crtime);
     crtime_extra := self.(crtime_extra); version_hi := self.(version_hi);
     projid := self.(projid); inline_xattrs := self.(inline_xattrs) |}.
Definition set_dtime (v : Z) (self : t) : t :=
  {| mode := self.(mode); uid := self.(uid); size_lo := self.(size_lo); atime := self.(atime);
     ctime := self.(ctime); mtime := self.(mtime); dtime := v; gid := self.(gid);
     links_count := self.(links_count); blocks_lo := self.(blocks_lo); flags := self.(flags);
     version := self.(version); block := self.(block); generation := self.(generation);
     xattr_block_lo := self.(xattr_block_lo); size_hi := self.(size_hi);
     obsolete_fragment_addr := self.(obsolete_fragment_addr); blocks_hi := self.(blocks_hi);
     xattr_block_hi := self.(xattr_block_hi); uid_hi := self.(uid_hi); gid_hi := self.(gid_hi);
     checksum_lo := self.(checksum_lo); reserved := self.(reserved);
     extra_isize := self.(extra_isize); checksum_hi := self.(checksum_hi);
     ctime_extra := self.(ctime_extra); mtime_extra := self.(mtime_extra);
     atime_extra := self.(atime_extra); crtime := self.(crtime);
     crtime_extra := self.(crtime_extra); version_hi := self.(version_hi);
     projid := self.(projid); inline_xattrs := self.(inline_xattrs) |}.
Definition set_inline_xattrs (v : list Z) (self : t) : t :=
  {| mode := self.(mode); uid := self.(uid); size_lo := self.(size_lo); atime := self.(atime);
     ctime := self.(ctime); mtime := self.(mtime); dtime := self.(dtime); gid := self.(gid);
     links_count := self.(links_count); blocks_lo := self.(blocks_lo); flags := self.(flags);
     version := self.(version); block := self.(block); generation := self.(generation);
     xattr_block_lo := self.(xattr_block_lo); size_hi := self.(size_hi);
     obsolete_fragment_addr := self.(obsolete_fragment_addr); blocks_hi := self.(blocks_hi);
     xattr_block_hi := self.(xattr_block_hi); uid_hi := self.(uid_hi); gid_hi := self.(gid_hi);
     checksum_lo := self.(checksum_lo); reserved := self.(reserved);
     extra_isize := self.(extra_isize); checksum_hi := self.(checksum_hi);
     ctime_extra := self.(ctime_extra); mtime_extra := self.(mtime_extra);
     atime_extra := self.(atime_extra); crtime := self.(crtime);
     crtime_extra := self.(crtime_extra); version_hi := self.(version_hi);
     projid := self.(projid); inline_xattrs := v |}.
Definition set_file_size (size : Z) (self : t) : t :=
  set_size_hi (wrap 32 (Z.shiftr size 32)) (set_size_lo (wrap 32 size) self).
Definition set_uid (u : Z) (self : t) : t :=
  set_uid_hi (wrap 16 (Z.shiftr u 16)) (set_uid_lo (wrap 16 u) self).
Definition set_gid (g : Z) (self : t) : t :=
  set_gid_hi (wrap 16 (Z.shiftr g 16)) (set_gid_lo (wrap 16 g) self).

(** *** Splitting a value over two fields loses nothing *)

Lemma split_join w x : 0 <= w -> uint (2 * w) x ->
  Z.lor (wrap w x) (Z.shiftl (wrap w (Z.shiftr x w)) w) = x.
Proof.
  intros Hw Hx. assert (Hp : 0 < 2 ^ w) by lia.
  assert (Hhi : uint w (Z.shiftr x w)).
  { unfold uint in *. rewrite Z.shiftr_div_pow2 by done.
    replace (2 * w) with (w + w) in Hx by lia. rewrite Z.pow_add_r in Hx by done.
    split; [apply Z.div_pos|apply Z.div_lt_upper_bound]; lia. }
  rewrite (wrap_id w (Z.shiftr x w)) by done.
  rewrite lor_shiftl_add; [|done|by apply wrap_uint|apply Hhi].
  unfold wrap. rewrite Z.shiftr_div_pow2 by done. pose proof (Z.div_mod x (2 ^ w)). lia.
Qed.

Lemma set_file_size_spec size x : uint 64 size -> file_size (set_file_size size x) = size.
Proof. intros. by apply (split_join 32). Qed.
Lemma set_uid_spec u x : uint 32 u -> uid_full (set_uid u x) = u.
Proof. intros. by apply (split_join 16). Qed.
Lemma set_gid_spec g x : uint 32 g -> gid_full (set_gid g x) = g.
Proof. intros. by apply (split_join 16). Qed.

Lemma default_wf : wf default.
Proof. by apply (bool_decide_unpack _). Qed.

Lemma root_inode_wf now : uint 32 now.1 -> uint 32 now.2 -> wf (root_inode now).
Proof.
  destruct now as [lo ex]. simpl. intros Hl He. unfold wf. simpl.
  split_and!; first [ assumption | by apply (bool_decide_unpack _) | done ].
Qed.

Lemma root_inode_dir now : is_dir (root_inode now) = true.
Proof. by destruct now. Qed.

End Inode.

Module ExtentHeader.

(** [struct ExtentHeader] *)
Record t : Type := mk {
  magic : Z;
  entries : Z;
  max : Z;
  depth : Z;
  generation : Z;
}.

Definition SIZE : Z := 12.

(** [read_from] *)
Definition read_from (buf : buffer) : option t :=
  _ ← debug_assert (SIZE <=? zlen buf);
  magic ← get_u16 buf 0;
  entries ← get_u16 buf 2;
  max ← get_u16 buf 4;
  depth ← get_u16 buf 6;
  generation ← get_u32 buf 8;
  Some {| magic := magic;
     entries := entries;
     max := max;
     depth := depth;
     generation := generation |}.

(** [write_to] *)
Definition write_to (self : t) (buf : buffer) : option buffer :=
  _ ← debug_assert (SIZE <=? zlen buf);
  buf ← put_u16 buf 0 (self.(magic));
  buf ← put_u16 buf 2 (self.(entries));
  buf ← put_u16 buf 4 (self.(max));
  buf ← put_u16 buf 6 (self.(depth));
  put_u32 buf 8 (self.(generation)).

(** Every field within its Rust type. *)
Definition wf (self : t) : Prop :=
  uint 16 (self.(magic)) /\
  uint 16 (self.(entries)) /\
  uint 16 (self.(max)) /\
  uint 16 (self.(depth)) /\
  uint 32 (self.(generation)).

(** The encoded fields in disk order, and their lengths. *)
Definition layout (self : t) : list buffer :=
  [to_le_bytes 2 (self.(magic));
   to_le_bytes 2 (self.(entries));
   to_le_bytes 2 (self.(max));
   to_le_bytes 2 (self.(depth));
   to_le_bytes 4 (self.(generation))].

Definition lens : list Z :=
  [2; 2; 2; 2; 4].

#[global] Instance disk_struct : DiskStruct t := {|
  ds_size := SIZE; ds_wf := wf; ds_layout := layout; ds_lens := lens;
  ds_read := read_from; ds_write := write_to |}.


Lemma extentHeader_lens_ok (x : t) : wf x -> zlen <$> layout x = lens.
Proof. ds_lens_ok wf layout lens. Qed.

Lemma extentHeader_write_ok (x : t) buf :
  wf x -> SIZE <= zlen buf ->
  exists buf0, zlen buf0 = zlen buf /\ drop (Z.to_nat SIZE) buf0 = drop (Z.to_nat SIZE) buf /\
    write_to x buf = write_segs 0 lens (layout x) buf0.
Proof. ds_write_ok wf write_to layout lens. Qed.

Lemma extentHeader_read_ok (x : t) rest : wf x -> read_from (concat (layout x) ++ rest) = Some x.
Proof. ds_read_ok extentHeader_lens_ok wf read_from layout lens SIZE. Qed.

Lemma extentHeader_read_total buf :
  bytes_ok buf -> SIZE <= zlen buf ->
  exists x, read_from buf = Some x /\ wf x /\ layout x = cut 0 lens buf.
Proof. ds_read_total wf read_from layout lens SIZE. Qed.

#[global] Instance disk_struct_ok : DiskStructOk t.
Proof.
  ds_instance wf layout SIZE write_to read_from extentHeader_lens_ok extentHeader_write_ok extentHeader_read_ok extentHeader_read_total.
Qed.

End ExtentHeader.

Module ExtentLeaf.

(** [struct ExtentLeaf] *)
Record t : Type := mk {
  block : Z;
  len : Z;
  start_hi : Z;
  start_lo : Z;
}.

Definition SIZE : Z := 12.

(** [read_from] *)
Definition read_from (buf : buffer) : option t :=
  _ ← debug_assert (SIZE <=? zlen buf);
  block ← get_u32 buf 0;
  len ← get_u16 buf 4;
  start_hi ← get_u16 buf 6;
  start_lo ← get_u32 buf 8;
  Some {| block := block;
     len := len;
     start_hi := start_hi;
     start_lo := start_lo |}.

(** [write_to] *)
Definition write_to (self : t) (buf : buffer) : option buffer :=
  _ ← debug_assert (SIZE <=? zlen buf);
  buf ← put_u32 buf 0 (self.(block));
  buf ← put_u16 buf 4 (self.(len));
  buf ← put_u16 buf 6 (self.(start_hi));
  put_u32 buf 8 (self.(start_lo)).

(** Every field within its Rust type. *)
Definition wf (self : t) : Prop :=
  uint 32 (self.(block)) /\
  uint 16 (self.(len)) /\
  uint 16 (self.(start_hi)) /\
  uint 32 (self.(start_lo)).

(** The encoded fields in disk order, and their lengths. *)
Definition layout (self : t) : list buffer :=
  [to_le_bytes 4 (self.(block));
   to_le_bytes 2 (self.(len));
   to_le_bytes 2 (self.(start_hi));
   to_le_bytes 4 (self.(start_lo))].

Definition lens : list Z :=
  [4; 2; 2; 4].

#[global] Instance disk_struct : DiskStruct t := {|
  ds_size := SIZE; ds_wf := wf; ds_layout := layout; ds_lens := lens;
  ds_read := read_from; ds_write := write_to |}.


Lemma extentLeaf_lens_ok (x : t) : wf x -> zlen <$> layout x = lens.
Proof. ds_lens_ok wf layout lens. Qed.

Lemma extentLeaf_write_ok (x : t) buf :
  wf x -> SIZE <= zlen buf ->
  exists buf0, zlen buf0 = zlen buf /\ drop (Z.to_nat SIZE) buf0 = drop (Z.to_nat SIZE) buf /\
    write_to x buf = write_segs 0 lens (layout x) buf0.
Proof. ds_write_ok wf write_to layout lens. Qed.

Lemma extentLeaf_read_ok (x : t) rest : wf x -> read_from (concat (layout x) ++ rest) = Some x.
Proof. ds_read_ok extentLeaf_lens_ok wf read_from layout lens SIZE. Qed.

Lemma extentLeaf_read_total buf :
  bytes_ok buf -> SIZE <= zlen buf ->
  exists x, read_from buf = Some x /\ wf x /\ layout x = cut 0 lens buf.
Proof. ds_read_total wf read_from layout lens SIZE. Qed.

#[global] Instance disk_struct_ok : DiskStructOk t.
Proof.
  ds_instance wf layout SIZE write_to read_from extentLeaf_lens_ok extentLeaf_write_ok extentLeaf_read_ok extentLeaf_read_total.
Qed.

(** [ExtentLeaf::start]: the full 48-bit physical start block. *)
Definition start (self : t) : Z :=
  Z.lor (self.(start_lo)) (Z.shiftl (self.(start_hi)) 32).

Lemma start_eq x : wf x -> start x = x.(start_lo) + x.(start_hi) * 2 ^ 32.
Proof. unfold wf, start. intros (? & ? & Hh & Hl). apply lor_shiftl_add; [done|done|apply Hh]. Qed.

End ExtentLeaf.

Module ExtentIndex.

(** [struct ExtentIndex] *)
Record t : Type := mk {
  block : Z;
  leaf_lo : Z;
  leaf_hi : Z;
  unused : Z;
}.

Definition SIZE : Z := 12.

(** [read_from] *)
Definition read_from (buf : buffer) : option t :=
  _ ← debug_assert (SIZE <=? zlen buf);
  block ← get_u32 buf 0;
  leaf_lo ← get_u32 buf 4;
  leaf_hi ← get_u16 buf 8;
  unused ← get_u16 buf 10;
  Some {| block := block;
     leaf_lo := leaf_lo;
     leaf_hi := leaf_hi;
     unused := unused |}.

(** [write_to] *)
Definition write_to (self : t) (buf : buffer) : option buffer :=
  _ ← debug_assert (SIZE <=? zlen buf);
  buf ← put_u32 buf 0 (self.(block));
  buf ← put_u32 buf 4 (self.(leaf_lo));
  buf ← put_u16 buf 8 (self.(leaf_hi));
  put_u16 buf 10 (self.(unused)).

(** Every field within its Rust type. *)
Definition wf (self : t) : Prop :=
  uint 32 (self.(block)) /\
  uint 32 (self.(leaf_lo)) /\
  uint 16 (self.(leaf_hi)) /\
  uint 16 (self.(unused)).

(** The encoded fields in disk order, and their lengths. *)
Definition layout (self : t) : list buffer :=
  [to_le_bytes 4 (self.(block));
   to_le_bytes 4 (self.(leaf_lo));
   to_le_bytes 2 (self.(leaf_hi));
   to_le_bytes 2 (self.(unused))].

Definition lens : list Z :=
  [4; 4; 2; 2].

#[global] Instance disk_struct : DiskStruct t := {|
  ds_size := SIZE; ds_wf := wf; ds_layout := layout; ds_lens := lens;
  ds_read := read_from; ds_write := write_to |}.


Lemma extentIndex_lens_ok (x : t) : wf x -> zlen <$> layout x = lens.
Proof. ds_lens_ok wf layout lens. Qed.

Lemma extentIndex_write_ok (x : t) buf :
  wf x -> SIZE <= zlen buf ->
  exists buf0, zlen buf0 = zlen buf /\ drop (Z.to_nat SIZE) buf0 = drop (Z.to_nat SIZE) buf /\
    write_to x buf = write_segs 0 lens (layout x) buf0.
Proof. ds_write_ok wf write_to layout lens. Qed.

Lemma extentIndex_read_ok (x : t) rest : wf x -> read_from (concat (layout x) ++ rest) = Some x.
Proof. ds_read_ok extentIndex_lens_ok wf read_from layout lens SIZE. Qed.

Lemma extentIndex_read_total buf :
  bytes_ok buf -> SIZE <= zlen buf ->
  exists x, read_from buf = Some x /\ wf x /\ layout x = cut 0 lens buf.
Proof. ds_read_total wf read_from layout lens SIZE. Qed.

#[global] Instance disk_struct_ok : DiskStructOk t.
Proof.
  ds_instance wf layout SIZE write_to read_from extentIndex_lens_ok extentIndex_write_ok extentIndex_read_ok extentIndex_read_total.
Qed.

(** [ExtentIndex::leaf]: the full 48-bit physical block of the child node. *)
Definition leaf (self : t) : Z :=
  Z.lor (self.(leaf_lo)) (Z.shiftl (self.(leaf_hi)) 32).

Lemma leaf_eq x : wf x -> leaf x = x.(leaf_lo) + x.(leaf_hi) * 2 ^ 32.
Proof. unfold wf, leaf. intros (? & Hl & Hh & ?). apply lor_shiftl_add; [done|done|apply Hh]. Qed.

End ExtentIndex.

Module ExtentTail.

(** [struct ExtentTail] *)
Record t : Type := mk {
  checksum : Z;
}.

Definition SIZE : Z := 4.

(** [read_from] *)
Definition read_from (buf : buffer) : option t :=
  _ ← debug_assert (SIZE <=? zlen buf);
  checksum ← get_u32 buf 0;
  Some {| checksum := checksum |}.

(** [write_to] *)
Definition write_to (self : t) (buf : buffer) : option buffer :=
  _ ← debug_assert (SIZE <=? zlen buf);
  put_u32 buf 0 (self.(checksum)).

(** Every field within its Rust type. *)
Definition wf (self : t) : Prop :=
  uint 32 (self.(checksum)).

(** The encoded fields in disk order, and their lengths. *)
Definition layout (self : t) : list buffer :=
  [to_le_bytes 4 (self.(checksum))].

Definition lens : list Z :=
  [4].

#[global] Instance disk_struct : DiskStruct t := {|
  ds_size := SIZE; ds_wf := wf; ds_layout := layout; ds_lens := lens;
  ds_read := read_from; ds_write := write_to |}.


Lemma extentTail_lens_ok (x : t) : wf x -> zlen <$> layout x = lens.
Proof. ds_lens_ok wf layout lens. Qed.

Lemma extentTail_write_ok (x : t) buf :
  wf x -> SIZE <= zlen buf ->
  exists buf0, zlen buf0 = zlen buf /\ drop (Z.to_nat SIZE) buf0 = drop (Z.to_nat SIZE) buf /\
    write_to x buf = write_segs 0 lens (layout x) buf0.
Proof. ds_write_ok wf write_to layout lens. Qed.

Lemma extentTail_read_ok (x : t) rest : wf x -> read_from (concat (layout x) ++ rest) = Some x.
Proof. ds_read_ok extentTail_lens_ok wf read_from layout lens SIZE. Qed.

Lemma extentTail_read_total buf :
  bytes_ok buf -> SIZE <= zlen buf ->
  exists x, read_from buf = Some x /\ wf x /\ layout x = cut 0 lens buf.
Proof. ds_read_total wf read_from layout lens SIZE. Qed.

#[global] Instance disk_struct_ok : DiskStructOk t.
Proof.
  ds_instance wf layout SIZE write_to read_from extentTail_lens_ok extentTail_write_ok extentTail_read_ok extentTail_read_total.
Qed.

End ExtentTail.

Module DirectoryEntry.

(** [struct DirectoryEntry] *)
Record t : Type := mk {
  inode : Z;
  rec_len : Z;
  name_len : Z;
  file_type : Z;
}.

Definition SIZE : Z := 8.

(** [read_from] *)
Definition read_from (buf : buffer) : option t :=
  _ ← debug_assert (SIZE <=? zlen buf);
  inode ← get_u32 buf 0;
  rec_len ← get_u16 buf 4;
  name_len ← get_u8 buf 6;
  file_type ← get_u8 buf 7;
  Some {| inode := inode;
     rec_len := rec_len;
     name_len := name_len;
     file_type := file_type |}.

(** [write_to] *)
Definition write_to (self : t) (buf : buffer) : option buffer :=
  _ ← debug_assert (SIZE <=? zlen buf);
  buf ← put_u32 buf 0 (self.(inode));
  buf ← put_u16 buf 4 (self.(rec_len));
  buf ← put_u8 buf 6 (self.(name_len));
  put_u8 buf 7 (self.(file_type)).

(** Every field within its Rust type. *)
Definition wf (self : t) : Prop :=
  uint 32 (self.(inode)) /\
  uint 16 (self.(rec_len)) /\
  uint 8 (self.(name_len)) /\
  uint 8 (self.(file_type)).

(** The encoded fields in disk order, and their lengths. *)
Definition layout (self : t) : list buffer :=
  [to_le_bytes 4 (self.(inode));
   to_le_bytes 2 (self.(rec_len));
   to_le_bytes 1 (self.(name_len));
   to_le_bytes 1 (self.(file_type))].

Definition lens : list Z :=
  [4; 2; 1; 1].

#[global] Instance disk_struct : DiskStruct t := {|
  ds_size := SIZE; ds_wf := wf; ds_layout := layout; ds_lens := lens;
  ds_read := read_from; ds_write := write_to |}.


Lemma directoryEntry_lens_ok (x : t) : wf x -> zlen <$> layout x = lens.
Proof. ds_lens_ok wf layout lens. Qed.

Lemma directoryEntry_write_ok (x : t) buf :
  wf x -> SIZE <= zlen buf ->
  exists buf0, zlen buf0 = zlen buf /\ drop (Z.to_nat SIZE) buf0 = drop (Z.to_nat SIZE) buf /\
    write_to x buf = write_segs 0 lens (layout x) buf0.
Proof. ds_write_ok wf write_to layout lens. Qed.

Lemma directoryEntry_read_ok (x : t) rest : wf x -> read_from (concat (layout x) ++ rest) = Some x.
Proof. ds_read_ok directoryEntry_lens_ok wf read_from layout lens SIZE. Qed.

Lemma directoryEntry_read_total buf :
  bytes_ok buf -> SIZE <= zlen buf ->
  exists x, read_from buf = Some x /\ wf x /\ layout x = cut 0 lens buf.
Proof. ds_read_total wf read_from layout lens SIZE. Qed.

#[global] Instance disk_struct_ok : DiskStructOk t.
Proof.
  ds_instance wf layout SIZE write_to read_from directoryEntry_lens_ok directoryEntry_write_ok directoryEntry_read_ok directoryEntry_read_total.
Qed.

End DirectoryEntry.

Module XAttrEntry.

(** [struct XAttrEntry] *)
Record t : Type := mk {
  name_len : Z;
  name_index : Z;
  value_offset : Z;
  value_inum : Z;
  value_size : Z;
  hash : Z;
}.

Definition SIZE : Z := 16.

(** [read_from] *)
Definition read_from (buf : buffer) : option t :=
  _ ← debug_assert (SIZE <=? zlen buf);
  name_len ← get_u8 buf 0;
  name_index ← get_u8 buf 1;
  value_offset ← get_u16 buf 2;
  value_inum ← get_u32 buf 4;
  value_size ← get_u32 buf 8;
  hash ← get_u32 buf 12;
  Some {| name_len := name_len;
     name_index := name_index;
     value_offset := value_offset;
     value_inum := value_inum;
     value_size := value_size;
     hash := hash |}.

(** [write_to] *)
Definition write_to (self : t) (buf : buffer) : option buffer :=
  _ ← debug_assert (SIZE <=? zlen buf);
  buf ← put_u8 buf 0 (self.(name_len));
  buf ← put_u8 buf 1 (self.(name_index));
  buf ← put_u16 buf 2 (self.(value_offset));
  buf ← put_u32 buf 4 (self.(value_inum));
  buf ← put_u32 buf 8 (self.(value_size));
  put_u32 buf 12 (self.(hash)).

(** Every field within its Rust type. *)
Definition wf (self : t) : Prop :=
  uint 8 (self.(name_len)) /\
  uint 8 (self.(name_index)) /\
  uint 16 (self.(value_offset)) /\
  uint 32 (self.(value_inum)) /\
  uint 32 (self.(value_size)) /\
  uint 32 (self.(hash)).

(** The encoded fields in disk order, and their lengths. *)
Definition layout (self : t) : list buffer :=
  [to_le_bytes 1 (self.(name_len));
   to_le_bytes 1 (self.(name_index));
   to_le_bytes 2 (self.(value_offset));
   to_le_bytes 4 (self.(value_inum));
   to_le_bytes 4 (self.(value_size));
   to_le_bytes 4 (self.(hash))].

Definition lens : list Z :=
  [1; 1; 2; 4; 4; 4].

#[global] Instance disk_struct : DiskStruct t := {|
  ds_size := SIZE; ds_wf := wf; ds_layout := layout; ds_lens := lens;
  ds_read := read_from; ds_write := write_to |}.


Lemma xAttrEntry_lens_ok (x : t) : wf x -> zlen <$> layout x = lens.
Proof. ds_lens_ok wf layout lens. Qed.

Lemma xAttrEntry_write_ok (x : t) buf :
  wf x -> SIZE <= zlen buf ->
  exists buf0, zlen buf0 = zlen buf /\ drop (Z.to_nat SIZE) buf0 = drop (Z.to_nat SIZE) buf /\
    write_to x buf = write_segs 0 lens (layout x) buf0.
Proof. ds_write_ok wf write_to layout lens. Qed.

Lemma xAttrEntry_read_ok (x : t) rest : wf x -> read_from (concat (layout x) ++ rest) = Some x.
Proof. ds_read_ok xAttrEntry_lens_ok wf read_from layout lens SIZE. Qed.

Lemma xAttrEntry_read_total buf :
  bytes_ok buf -> SIZE <= zlen buf ->
  exists x, read_from buf = Some x /\ wf x /\ layout x = cut 0 lens buf.
Proof. ds_read_total wf read_from layout lens SIZE. Qed.

#[global] Instance disk_struct_ok : DiskStructOk t.
Proof.
  ds_instance wf layout SIZE write_to read_from xAttrEntry_lens_ok xAttrEntry_write_ok xAttrEntry_read_ok xAttrEntry_read_total.
Qed.

End XAttrEntry.

(** ** Properties *)

(** An inode written into a table slot reads back equal and touches only its
    256 bytes; reading any slot and writing the inode back leaves the slot as it
    was. *)
Theorem inode_roundtrip (i : Inode.t) (buf : buffer) :
  Inode.wf i -> bytes_ok buf -> Inode.SIZE <= zlen buf ->
  (exists buf', Inode.write_to i buf = Some buf' /\ Inode.read_from buf' = Some i /\
     zlen buf' = zlen buf /\ drop 256 buf' = drop 256 buf) /\
  (exists i', Inode.read_from buf = Some i' /\ Inode.wf i' /\ Inode.write_to i' buf = Some buf).
Proof.
  intros Hwf Hok Hl. split; [exact (ds_write_read i buf Hwf Hl)|].
  pose proof (ds_read_total (A:=Inode.t) buf Hok) as Ht. destruct (Ht Hl) as (i' & Hr & Hwf' & _).
  exists i'. split; [exact Hr|]. split; [exact Hwf'|]. exact (ds_read_write i' buf Hok Hr).
Qed.

Lemma inode_roundtrip_witness :
  (exists buf', Inode.write_to (Inode.root_inode (5, 6)) (replicate 256 7) = Some buf' /\
     Inode.read_from buf' = Some (Inode.root_inode (5, 6)) /\
     zlen buf' = 256 /\ drop 256 buf' = drop 256 (replicate 256 7)) /\
  (exists i', Inode.read_from (replicate 256 7) = Some i' /\ Inode.wf i' /\
     Inode.write_to i' (replicate 256 7) = Some (replicate 256 7)).
Proof.
  apply (inode_roundtrip (Inode.root_inode (5, 6)) (replicate 256 7)).
  - by apply Inode.root_inode_wf.
  - apply Forall_replicate. by vm_compute.
  - by vm_compute.
Defined.

(** The accessors of the fields that are split over two places of the inode
    (64-bit size, 32-bit uid and gid) return what the setters stored, and a setter
    leaves the other two values alone. *)
Theorem inode_split_fields size u g (i : Inode.t) :
  uint 64 size -> uint 32 u -> uint 32 g ->
  let i' := Inode.set_file_size size (Inode.set_uid u (Inode.set_gid g i)) in
  Inode.file_size i' = size /\ Inode.uid_full i' = u /\ Inode.gid_full i' = g.
Proof.
  intros Hs Hu Hg i'. split; [by apply Inode.set_file_size_spec|]. split.
  - exact (Inode.set_uid_spec u (Inode.set_gid g i) Hu).
  - exact (Inode.set_gid_spec g i Hg).
Qed.

Lemma inode_split_fields_witness :
  let i' := Inode.set_file_size (2 ^ 40 + 5) (Inode.set_uid 100000 (Inode.set_gid 70000 Inode.default)) in
  Inode.file_size i' = 2 ^ 40 + 5 /\ Inode.uid_full i' = 100000 /\ Inode.gid_full i' = 70000.
Proof. apply (inode_split_fields (2 ^ 40 + 5) 100000 70000 Inode.default); by vm_compute. Defined.

(** The same for group descriptors in their 32-byte table slots. *)
Theorem group_descriptor_roundtrip (gd : GroupDescriptor.t) (buf : buffer) :
  GroupDescriptor.wf gd -> bytes_ok buf -> GroupDescriptor.SIZE <= zlen buf ->
  (exists buf', GroupDescriptor.write_to gd buf = Some buf' /\ GroupDescriptor.read_from buf' = Some gd /\
     zlen buf' = zlen buf /\ drop 32 buf' = drop 32 buf) /\
  (exists gd', GroupDescriptor.read_from buf = Some gd' /\ GroupDescriptor.wf gd' /\
     GroupDescriptor.write_to gd' buf = Some buf).
Proof.
  intros Hwf Hok Hl. split; [exact (ds_write_read gd buf Hwf Hl)|].
  pose proof (ds_read_total (A:=GroupDescriptor.t) buf Hok) as Ht. destruct (Ht Hl) as (gd' & Hr & Hwf' & _).
  exists gd'. split; [exact Hr|]. split; [exact Hwf'|]. exact (ds_read_write gd' buf Hok Hr).
Qed.

Lemma group_descriptor_roundtrip_witness :
  exists gd, (exists buf', GroupDescriptor.write_to gd (replicate 32 9) = Some buf' /\
     GroupDescriptor.read_from buf' = Some gd /\ zlen buf' = 32 /\
     drop 32 buf' = drop 32 (replicate 32 9)) /\
  (exists gd', GroupDescriptor.read_from (replicate 32 9) = Some gd' /\ GroupDescriptor.wf gd' /\
     GroupDescriptor.write_to gd' (replicate 32 9) = Some (replicate 32 9)).
Proof.
  exists (GroupDescriptor.mk 1 2 3 4 5 6 7 8 9 10 11 12).
  apply (group_descriptor_roundtrip (GroupDescriptor.mk 1 2 3 4 5 6 7 8 9 10 11 12) (replicate 32 9)).
  - apply (bool_decide_unpack _). vm_compute. exact I.
  - apply Forall_replicate. by vm_compute.
  - by vm_compute.
Defined.
