(* ===== verification/Checksum.v ===== *)
(** * Group descriptor checksums

    [common/ext4/src/checksum.rs]: the bit-by-bit CRC-16/IBM and the checksum of a
    group descriptor over (uuid, group number, descriptor body). *)

From Stdlib Require Import Btauto.
From stdpp Require Import base list list_numbers option numbers.
From S2P Require Import Prelude Bytes DiskTypes.

(** One turn of the inner loop. *)
Definition crc16_bit (crc : Z) : Z :=
  if negb (Z.land crc 1 =? 0) then Z.lxor (Z.shiftr crc 1) 0xA001 else Z.shiftr crc 1.

(** [fn crc16] *)
Definition crc16 (crc : Z) (buf : buffer) : Z :=
  foldl (fun crc b => Nat.iter 8 crc16_bit (Z.lxor crc b)) crc buf.

(** [fn group_descriptor] *)
Definition group_descriptor (uuid : buffer) (group_nr : Z) (gd : GroupDescriptor.t) : option Z :=
  tmp ← GroupDescriptor.write_to gd (replicate (Z.to_nat GroupDescriptor.SIZE) 0);
  let crc := 0xFFFF in
  let crc := crc16 crc uuid in
  let crc := crc16 crc (to_le_bytes 4 group_nr) in
  body ← get_bytes 0x1E tmp 0;
  Some (crc16 crc body).

(** ** The register stays 16 bits wide, and every step is injective *)

Lemma shiftr_uint16 a : uint 16 a -> uint 15 (Z.shiftr a 1).
Proof.
  unfold uint. intros [? ?]. rewrite Z.shiftr_div_pow2 by done. change (2 ^ 1) with 2.
  split; [by apply Z.div_pos|]. apply Z.div_lt_upper_bound; lia.
Qed.

Lemma crc16_bit_uint c : uint 16 c -> uint 16 (crc16_bit c).
Proof.
  intros Hc. pose proof (shiftr_uint16 c Hc) as Hs.
  assert (Hs' : uint 16 (Z.shiftr c 1)) by (eapply uint_mono; [|done]; lia).
  unfold crc16_bit. case_match; [|done]. apply lxor_uint; [done|done|]. split; lia.
Qed.

Lemma land_1_mod c : Z.land c 1 = c mod 2.
Proof. exact (Z.land_ones c 1 ltac:(lia)). Qed.

Lemma testbit15_small a : uint 15 a -> Z.testbit a 15 = false.
Proof.
  unfold uint. intros [? ?]. destruct (Z.eq_dec a 0) as [->|]; [done|].
  apply Z.bits_above_log2; [lia|]. apply Z.log2_lt_pow2; lia.
Qed.

Lemma half_inj a b : Z.shiftr a 1 = Z.shiftr b 1 -> Z.land a 1 = Z.land b 1 -> a = b.
Proof.
  rewrite !Z.shiftr_div_pow2, !land_1_mod by done. change (2 ^ 1) with 2. intros.
  pose proof (Z.div_mod a 2). pose proof (Z.div_mod b 2). lia.
Qed.

(** Bit 15 of the result tells which branch was taken, so nothing is lost. *)
Lemma crc16_bit_inj a b : uint 16 a -> uint 16 b -> crc16_bit a = crc16_bit b -> a = b.
Proof.
  intros Ha Hb E. pose proof (shiftr_uint16 a Ha). pose proof (shiftr_uint16 b Hb).
  assert (Hpar : Z.land a 1 = 0 \/ Z.land a 1 = 1) by (rewrite land_1_mod; pose proof (Z.mod_pos_bound a 2); lia).
  assert (Hpbr : Z.land b 1 = 0 \/ Z.land b 1 = 1) by (rewrite land_1_mod; pose proof (Z.mod_pos_bound b 2); lia).
  pose proof (f_equal (fun z => Z.testbit z 15) E) as T. unfold crc16_bit in E, T.
  destruct Hpar as [Pa|Pa], Hpbr as [Pb|Pb]; rewrite Pa, Pb in E; rewrite Pa, Pb in T; cbn [Z.eqb negb] in E, T;
    rewrite ?Z.lxor_spec, (testbit15_small (Z.shiftr a 1)), (testbit15_small (Z.shiftr b 1)) in T by done;
    try discriminate T.
  - apply half_inj; congruence.
  - apply half_inj; [|congruence].
    apply (f_equal (fun z => Z.lxor z 0xA001)) in E.
    by rewrite !Z.lxor_assoc, Z.lxor_nilpotent, !Z.lxor_0_r in E.
Qed.

Lemma crc16_bits_uint n c : uint 16 c -> uint 16 (Nat.iter n crc16_bit c).
Proof. intros H. induction n; simpl; [done|]. by apply crc16_bit_uint. Qed.

Lemma crc16_bits_inj n a b :
  uint 16 a -> uint 16 b -> Nat.iter n crc16_bit a = Nat.iter n crc16_bit b -> a = b.
Proof.
  intros Ha Hb. induction n; simpl; [done|]. intros E. apply IHn.
  apply crc16_bit_inj; [by apply crc16_bits_uint..|done].
Qed.

Lemma crc16_app c b1 b2 : crc16 c (b1 ++ b2) = crc16 (crc16 c b1) b2.
Proof. apply foldl_app. Qed.

Lemma byte_uint16 b : byte_ok b -> uint 16 b.
Proof. intros H. eapply uint_mono; [|exact H]. lia. Qed.

Lemma crc16_uint c buf : uint 16 c -> bytes_ok buf -> uint 16 (crc16 c buf).
Proof.
  intros Hc Hb. revert c Hc. induction Hb as [|b buf Hb Hbs IH]; intros c Hc; simpl; [done|].
  apply IH, (crc16_bits_uint 8), lxor_uint; [done|done|by apply byte_uint16].
Qed.

Lemma crc16_init_inj a b buf :
  uint 16 a -> uint 16 b -> bytes_ok buf -> crc16 a buf = crc16 b buf -> a = b.
Proof.
  intros Ha Hb Hok. revert a b Ha Hb. induction Hok as [|x buf Hx Hok IH]; intros a b Ha Hb E; [done|].
  apply byte_uint16 in Hx. simpl in E.
  apply IH in E; [|by apply (crc16_bits_uint 8), lxor_uint..].
  apply (crc16_bits_inj 8) in E; [|by apply lxor_uint..].
  apply (f_equal (fun z => Z.lxor z x)) in E.
  by rewrite !Z.lxor_assoc, Z.lxor_nilpotent, !Z.lxor_0_r in E.
Qed.

Lemma crc16_byte_inj c x y buf :
  uint 16 c -> byte_ok x -> byte_ok y -> bytes_ok buf ->
  crc16 c (x :: buf) = crc16 c (y :: buf) -> x = y.
Proof.
  intros Hc Hx Hy Hok E. apply byte_uint16 in Hx, Hy. simpl in E.
  apply crc16_init_inj in E; [|by apply (crc16_bits_uint 8), lxor_uint..|done].
  apply (crc16_bits_inj 8) in E; [|by apply lxor_uint..].
  apply (f_equal (Z.lxor c)) in E.
  by rewrite <- !Z.lxor_assoc, Z.lxor_nilpotent, !Z.lxor_0_l in E.
Qed.

(** ** Bursts of two bytes *)

(** The register update is linear over exclusive or. *)
Lemma crc16_bit_lxor a b : crc16_bit (Z.lxor a b) = Z.lxor (crc16_bit a) (crc16_bit b).
Proof.
  assert (Hl : forall z, negb (Z.land z 1 =? 0) = Z.testbit z 0).
  { intros z. rewrite land_1_mod, <- Z.bit0_mod. by destruct (Z.testbit z 0). }
  unfold crc16_bit. rewrite !Hl, Z.lxor_spec, Z.shiftr_lxor.
  destruct (Z.testbit a 0), (Z.testbit b 0); cbn [xorb]; apply Z.bits_inj'; intros n _;
    rewrite ?Z.lxor_spec; btauto.
Qed.

Lemma crc16_bits_lxor n a b :
  Nat.iter n crc16_bit (Z.lxor a b) = Z.lxor (Nat.iter n crc16_bit a) (Nat.iter n crc16_bit b).
Proof. induction n; simpl; [done|]. by rewrite IHn, crc16_bit_lxor. Qed.

(** No byte but 0 leaves a byte in the register: all 256 of them tried. *)
Lemma crc16_byte_spreads d : byte_ok d -> byte_ok (Nat.iter 8 crc16_bit d) -> d = 0.
Proof.
  intros Hd H. assert (Hall : Forall (fun d => uintb 8 (Nat.iter 8 crc16_bit d) = true -> d = 0) (seqZ 0 256)).
  { apply (bool_decide_unpack _). vm_compute. exact I. }
  rewrite list.Forall_forall in Hall. apply Hall; [|by apply uintb_spec].
  apply elem_of_seqZ. unfold byte_ok, uint in Hd. lia.
Qed.

Lemma lxor_exchange a b x y : Z.lxor a x = Z.lxor b y -> Z.lxor a b = Z.lxor x y.
Proof.
  intros E. apply Z.bits_inj'. intros n _. apply (f_equal (fun z => Z.testbit z n)) in E.
  rewrite !Z.lxor_spec in *.
  destruct (Z.testbit a n), (Z.testbit b n), (Z.testbit x n), (Z.testbit y n); simpl in *; congruence.
Qed.

(** Two different byte pairs leave different registers. *)
Lemma crc16_pair_inj c x0 x1 y0 y1 rest :
  uint 16 c -> bytes_ok [x0; x1; y0; y1] -> bytes_ok rest ->
  crc16 c (x0 :: x1 :: rest) = crc16 c (y0 :: y1 :: rest) -> x0 = y0 /\ x1 = y1.
Proof.
  intros Hc Hb Hr E. repeat (apply Forall_cons_1 in Hb as [? Hb]).
  assert (Hx : forall z, byte_ok z -> uint 16 (Nat.iter 8 crc16_bit (Z.lxor c z))).
  { intros z Hz. apply (crc16_bits_uint 8), lxor_uint; [done|done|by apply byte_uint16]. }
  change (crc16 (Nat.iter 8 crc16_bit (Z.lxor (Nat.iter 8 crc16_bit (Z.lxor c x0)) x1)) rest =
          crc16 (Nat.iter 8 crc16_bit (Z.lxor (Nat.iter 8 crc16_bit (Z.lxor c y0)) y1)) rest) in E.
  apply crc16_init_inj in E; [..|done];
    [|apply (crc16_bits_uint 8), lxor_uint; [done|by apply Hx|by apply byte_uint16]..].
  apply (crc16_bits_inj 8) in E; [|apply lxor_uint; [done|by apply Hx|by apply byte_uint16]..].
  assert (Hd : Nat.iter 8 crc16_bit (Z.lxor x0 y0) = Z.lxor x1 y1).
  { replace (Z.lxor x0 y0) with (Z.lxor (Z.lxor c x0) (Z.lxor c y0)).
    2:{ apply Z.bits_inj'. intros n _. rewrite !Z.lxor_spec. btauto. }
    rewrite crc16_bits_lxor. by apply lxor_exchange. }
  assert (Hz : Z.lxor x0 y0 = 0).
  { apply crc16_byte_spreads; [by apply lxor_uint|]. rewrite Hd. by apply lxor_uint. }
  rewrite Hz in Hd. change (Nat.iter 8 crc16_bit 0) with 0 in Hd.
  split; [by apply Z.lxor_eq|by apply Z.lxor_eq].
Qed.

(** The checksum in closed form, once the descriptor is well-formed. *)
Lemma group_descriptor_eq uuid nr gd :
  GroupDescriptor.wf gd ->
  group_descriptor uuid nr gd =
    Some (crc16 0xFFFF (uuid ++ to_le_bytes 4 nr ++ take 30 (ds_bytes gd))).
Proof.
  intros Hwf. unfold group_descriptor.
  pose proof (ds_write_spec gd (replicate (Z.to_nat GroupDescriptor.SIZE) 0) Hwf) as E.
  pose proof (ds_bytes_zlen gd Hwf) as Hl.
  change (GroupDescriptor.write_to gd) with (ds_write gd).
  rewrite E by (by rewrite zlen_replicate). cbn [mbind option_bind].
  change (ds_size (A:=GroupDescriptor.t)) with 32 in *.
  rewrite get_bytes_in by (rewrite ?zlen_app; lia || (rewrite Hl; unfold zlen; lia)).
  cbn [mbind option_bind]. f_equal. rewrite !crc16_app. f_equal.
Qed.

(** *** Published and pinned vectors of the source's tests *)

Example crc16_check_vector :
  crc16 0 [0x31; 0x32; 0x33; 0x34; 0x35; 0x36; 0x37; 0x38; 0x39] = 0xBB3D.
Proof. vm_compute. reflexivity. Qed.

Definition pinned_gd : GroupDescriptor.t :=
  {| GroupDescriptor.block_bitmap_lo := 0x123; GroupDescriptor.inode_bitmap_lo := 0x124;
     GroupDescriptor.inode_table_lo := 0x200; GroupDescriptor.free_blocks_count_lo := 1000;
     GroupDescriptor.free_inodes_count_lo := 200; GroupDescriptor.used_dirs_count_lo := 0;
     GroupDescriptor.flags := 3; GroupDescriptor.exclude_bitmap_lo := 0;
     GroupDescriptor.block_bitmap_csum_lo := 0; GroupDescriptor.inode_bitmap_csum_lo := 0;
     GroupDescriptor.itable_unused_lo := 8192; GroupDescriptor.checksum := 0xFFFF |}.

Definition pinned_uuid : buffer := (fun i => 0x11 + i) <$> seqZ 0 16.

Example group_descriptor_pinned : group_descriptor pinned_uuid 7 pinned_gd = Some 0x0DAF.
Proof. vm_compute. reflexivity. Qed.

(** ** Properties *)

(** The CRC of two buffers that differ in exactly one byte is different,
    wherever the byte is and whatever the register started from. *)
Theorem crc16_detects_byte c pre x y post :
  uint 16 c -> bytes_ok pre -> byte_ok x -> byte_ok y -> bytes_ok post -> x <> y ->
  crc16 c (pre ++ x :: post) <> crc16 c (pre ++ y :: post).
Proof.
  intros Hc Hp Hx Hy Hq Hne E. rewrite !crc16_app in E. apply Hne.
  eapply crc16_byte_inj; [|exact Hx|exact Hy|exact Hq|exact E]. by apply crc16_uint.
Qed.

Lemma crc16_detects_byte_witness : crc16 0xFFFF ([1; 2] ++ 3 :: [4]) <> crc16 0xFFFF ([1; 2] ++ 7 :: [4]).
Proof.
  apply (crc16_detects_byte 0xFFFF [1; 2] 3 7 [4]); try (by vm_compute); repeat constructor; by vm_compute.
Defined.

Lemma le_u16_bytes nr : uint 16 nr -> to_le_bytes 4 nr = [nr mod 256; nr / 256; 0; 0].
Proof.
  intros [Hn0 Hn1]. unfold to_le_bytes. rewrite !land_255, !Z.shiftr_shiftr by lia.
  assert (nr / 256 < 256) by (apply Z.div_lt_upper_bound; lia).
  assert (0 <= nr / 256) by (apply Z.div_pos; lia).
  rewrite !Z.shiftr_div_pow2 by lia. cbn [Z.add Pos.add]. change (2 ^ 8) with 256.
  rewrite (Z.mod_small (nr / 256)) by lia.
  rewrite (Z.div_small nr (2 ^ (8 + 8))), (Z.div_small nr (2 ^ (8 + 8 + 8))) by (simpl in *; lia). done.
Qed.

(** The group-descriptor checksum does not depend on the descriptor's own
    checksum field, so storing it does not invalidate it, and the same descriptor
    under another group number (both below 65536) always gets another checksum. *)
Theorem gd_checksum_binds uuid nr nr' gd c :
  bytes_ok uuid -> GroupDescriptor.wf gd -> uint 16 c -> uint 16 nr -> uint 16 nr' -> nr <> nr' ->
  group_descriptor uuid nr (GroupDescriptor.set_checksum c gd) = group_descriptor uuid nr gd /\
  exists k k', group_descriptor uuid nr gd = Some k /\ group_descriptor uuid nr' gd = Some k' /\ k <> k'.
Proof.
  intros Hu Hwf Hc Hn Hn' Hne. split.
  { rewrite (group_descriptor_eq _ _ _ Hwf),
      (group_descriptor_eq _ _ _ (GroupDescriptor.set_checksum_wf _ _ Hwf Hc)).
    assert (E : take 30 (ds_bytes (GroupDescriptor.set_checksum c gd)) = take 30 (ds_bytes gd)) by reflexivity.
    by rewrite E. }
  rewrite !(group_descriptor_eq _ _ _ Hwf). do 2 eexists. split; [reflexivity|]. split; [reflexivity|].
  rewrite !le_u16_bytes by done. cbn [app].
  assert (Hok : bytes_ok (0 :: 0 :: take 30 (ds_bytes gd))).
  { constructor; [done|]. constructor; [done|]. apply bytes_ok_take. by apply ds_bytes_bytes_ok. }
  assert (Hb : forall z, uint 16 z -> byte_ok (z mod 256) /\ byte_ok (z / 256)).
  { intros z [? ?]. split; [by apply Z.mod_pos_bound|]. split; [by apply Z.div_pos|].
    apply Z.div_lt_upper_bound; lia. }
  destruct (Hb nr Hn), (Hb nr' Hn').
  rewrite (crc16_app 0xFFFF uuid), (crc16_app 0xFFFF uuid). intros E. apply Hne.
  destruct (crc16_pair_inj (crc16 0xFFFF uuid) (nr mod 256) (nr / 256) (nr' mod 256) (nr' / 256)
              (0 :: 0 :: take 30 (ds_bytes gd))) as [E0 E1];
    [apply crc16_uint; [by split|exact Hu]|repeat (apply Forall_cons_2; [assumption|]); apply Forall_nil_2|exact Hok| |].
  { exact E. }
  rewrite (Z.div_mod nr 256), (Z.div_mod nr' 256) by lia. lia.
Qed.

Lemma gd_checksum_binds_witness :
  group_descriptor pinned_uuid 7 (GroupDescriptor.set_checksum 1 pinned_gd) = group_descriptor pinned_uuid 7 pinned_gd /\
  exists k k', group_descriptor pinned_uuid 7 pinned_gd = Some k /\
    group_descriptor pinned_uuid 8 pinned_gd = Some k' /\ k <> k'.
Proof.
  apply (gd_checksum_binds pinned_uuid 7 8 pinned_gd 1); try (by vm_compute).
  apply (bool_decide_unpack _). vm_compute. exact I.
Defined.
