(* ===== verification/Dir.v ===== *)
(** * Directory blocks

    [common/ext4/src/dir.rs].  The formatter appends records to an in-memory
    [Vec<u8>] ([write_dir_entry], [finish_dir_entry_block]); the writer state is
    that vector together with [left], the bytes remaining in the current block.
    The reader walks records in raw bytes ([parse_dir_entries]).  Names are their
    bytes; a read name goes through [from_utf8_lossy]. *)

From stdpp Require Import base list option numbers.
From S2P Require Import Prelude Bytes Utf8 Constants DiskTypes.

Definition dir_file_type (mode : Z) : Z := FileType_as_u8 (from_mode mode).

(** [fn finish_dir_entry_block]: [None] is the panic of [remaining - 8]. *)
Definition finish_dir_entry_block (w : buffer) (left block_size : Z) : option (buffer * Z) :=
  if left <=? 0 then Some (w, block_size)
  else
    let remaining := left in
    let term := {| DirectoryEntry.inode := 0; DirectoryEntry.rec_len := wrap 16 remaining;
                   DirectoryEntry.name_len := 0; DirectoryEntry.file_type := 0 |} in
    header_buf ← DirectoryEntry.write_to term (replicate (Z.to_nat DirectoryEntry.SIZE) 0);
    fill ← usub 64 remaining DirectoryEntry.SIZE;
    Some (w ++ header_buf ++ replicate (Z.to_nat fill) 0, block_size).

(** [fn write_dir_entry] *)
Definition write_dir_entry (w : buffer) (name_bytes : buffer) (inode mode : Z)
    (link_inode link_mode : option Z) (block_size left : Z) : option (buffer * Z) :=
  let entry_size := align_up (DirectoryEntry.SIZE + zlen name_bytes) 4 in
  let min_trailing := 12 in
  st ← (if wrap 64 left <? entry_size + min_trailing
        then finish_dir_entry_block w left block_size else Some (w, left));
  let w := st.1 in let left := st.2 in
  let actual_inode := default inode link_inode in
  let actual_mode := default mode link_mode in
  let entry := {| DirectoryEntry.inode := actual_inode;
                  DirectoryEntry.rec_len := wrap 16 entry_size;
                  DirectoryEntry.name_len := wrap 8 (zlen name_bytes);
                  DirectoryEntry.file_type := dir_file_type actual_mode |} in
  header_buf ← DirectoryEntry.write_to entry (replicate (Z.to_nat DirectoryEntry.SIZE) 0);
  let padding := entry_size - DirectoryEntry.SIZE - zlen name_bytes in
  zeros ← (if 0 <? padding then get_bytes padding (replicate 4 0) 0 else Some []);
  Some (w ++ header_buf ++ name_bytes ++ zeros, left - entry_size).

(** The loop of [parse_dir_entries]; [None] is an index panic or no fuel. *)
Fixpoint parse_loop (fuel : nat) (data : buffer) (offset : Z) : option (list (buffer * Z)) :=
  match fuel with
  | O => None
  | S fuel =>
      if offset + DirectoryEntry.SIZE <=? zlen data then
        entry ← DirectoryEntry.read_from (drop (Z.to_nat offset) data);
        if DirectoryEntry.rec_len entry =? 0 then Some []
        else
          let found :=
            if negb (DirectoryEntry.inode entry =? 0) && (0 <? DirectoryEntry.name_len entry) then
              let name_start := offset + DirectoryEntry.SIZE in
              let name_end := name_start + DirectoryEntry.name_len entry in
              if name_end <=? zlen data then
                [(from_utf8_lossy (slice name_start (DirectoryEntry.name_len entry) data),
                  DirectoryEntry.inode entry)]
              else []
            else [] in
          rest ← parse_loop fuel data (offset + DirectoryEntry.rec_len entry);
          Some (found ++ rest)
      else Some []
  end.

(** [fn parse_dir_entries]: a record advances by at least one byte, so
    [data.len() + 1] turns are enough. *)
Definition parse_dir_entries (data : buffer) : option (list (buffer * Z)) :=
  parse_loop (S (length data)) data 0.

(** The loop of the formatter that fills one directory: every child in turn, then
    the terminator ([commit_directories] in [formatter.rs]). *)
Record dirent := mk_dirent {
  de_name : buffer; de_inode : Z; de_mode : Z; de_link : option (Z * Z) }.

Fixpoint write_entries (w : buffer) (left block_size : Z) (es : list dirent)
    : option (buffer * Z) :=
  match es with
  | [] => finish_dir_entry_block w left block_size
  | e :: es =>
      st ← write_dir_entry w e.(de_name) e.(de_inode) e.(de_mode)
             (fst <$> e.(de_link)) (snd <$> e.(de_link)) block_size left;
      write_entries st.1 st.2 block_size es
  end.

Lemma from_mode_uint mode : uint 8 (dir_file_type mode).
Proof. unfold dir_file_type, from_mode. repeat case_match; unfold uint; simpl; lia. Qed.

(** ** The parser *)

Section Parser.
Implicit Types (data rest bs body : buffer).

Lemma read_entry_total data :
  bytes_ok data -> DirectoryEntry.SIZE <= zlen data ->
  exists e, DirectoryEntry.read_from data = Some e /\ DirectoryEntry.wf e.
Proof.
  intros Hok Hl. pose proof (ds_read_total (A:=DirectoryEntry.t) data Hok) as H.
  destruct (H Hl) as (e & ? & ? & _). eauto.
Qed.

Lemma parse_loop_mono f f' data off r :
  parse_loop f data off = Some r -> (f <= f')%nat -> parse_loop f' data off = Some r.
Proof.
  revert f' off r. induction f as [|f IH]; intros [|f'] off r H Hle; try done; [lia|].
  cbn [parse_loop] in *. case_match; [|done].
  destruct (DirectoryEntry.read_from _); [|done]. cbn [mbind option_bind] in *.
  case_match; [done|].
  destruct (parse_loop f data (off + _)) eqn:E; [|done].
  rewrite (IH f' _ _ E) by lia. done.
Qed.

Lemma parse_loop_total f data off :
  bytes_ok data -> 0 <= off -> zlen data - off < Z.of_nat f ->
  (0 < f)%nat -> exists r, parse_loop f data off = Some r.
Proof.
  intros Hok. revert off. induction f as [|f IH]; intros off Ho Hf Hpos; [lia|].
  cbn [parse_loop]. destruct (Z.leb_spec (off + DirectoryEntry.SIZE) (zlen data)); [|eauto].
  unfold DirectoryEntry.SIZE in *.
  destruct (read_entry_total (drop (Z.to_nat off) data)) as (e & -> & Hwf).
  { by apply bytes_ok_drop. }
  { rewrite zlen_drop by done. unfold DirectoryEntry.SIZE. lia. }
  cbn [mbind option_bind]. destruct (Z.eqb_spec (DirectoryEntry.rec_len e) 0); [eauto|].
  destruct Hwf as (_ & [Hr _] & _).
  destruct (IH (off + DirectoryEntry.rec_len e)) as [r ->]; [lia..|]. eauto.
Qed.

Lemma parse_dir_entries_det f data r :
  bytes_ok data -> parse_loop f data 0 = Some r -> parse_dir_entries data = Some r.
Proof.
  intros Hok H. unfold parse_dir_entries.
  destruct (parse_loop_total (S (length data)) data 0) as [r' E]; [done|lia|unfold zlen; lia|lia|].
  rewrite E. apply (parse_loop_mono _ (f + S (length data))) in E; [|lia].
  apply (parse_loop_mono _ (f + S (length data))) in H; [|lia]. congruence.
Qed.

Lemma parse_loop_shift f (pre : buffer) data off :
  0 <= off -> bytes_ok data -> parse_loop f (pre ++ data) (zlen pre + off) = parse_loop f data off.
Proof.
  revert off. induction f as [|f IH]; intros off Ho Hok; [done|].
  cbn [parse_loop]. rewrite zlen_app. pose proof (zlen_nonneg pre).
  replace (zlen pre + off + DirectoryEntry.SIZE <=? zlen pre + zlen data)
    with (off + DirectoryEntry.SIZE <=? zlen data) by lia.
  destruct (Z.leb_spec (off + DirectoryEntry.SIZE) (zlen data)) as [Hs|]; [|done].
  replace (drop (Z.to_nat (zlen pre + off)) (pre ++ data)) with (drop (Z.to_nat off) data).
  2:{ rewrite drop_app_ge by (unfold zlen; lia). f_equal. unfold zlen. lia. }
  destruct (read_entry_total (drop (Z.to_nat off) data)) as (e & -> & Hwf).
  { by apply bytes_ok_drop. }
  { rewrite zlen_drop by done. unfold DirectoryEntry.SIZE in *. lia. }
  cbn [mbind option_bind]. destruct Hwf as (_ & [Hr _] & [Hn _] & _).
  rewrite <- !Z.add_assoc, IH by (lia || done).
  set (nl := DirectoryEntry.name_len e) in *.
  replace (zlen pre + (off + (DirectoryEntry.SIZE + nl)) <=? zlen pre + zlen data)
    with (off + (DirectoryEntry.SIZE + nl) <=? zlen data) by lia.
  rewrite slice_app_skip by (unfold DirectoryEntry.SIZE; lia).
  by replace (zlen pre + (off + DirectoryEntry.SIZE) - zlen pre) with (off + DirectoryEntry.SIZE) by lia.
Qed.

(** The entry a record contributes. *)
Definition found (e : DirectoryEntry.t) body : list (buffer * Z) :=
  if negb (DirectoryEntry.inode e =? 0) && (0 <? DirectoryEntry.name_len e)
  then [(from_utf8_lossy (take (Z.to_nat (DirectoryEntry.name_len e)) body), DirectoryEntry.inode e)]
  else [].

(** A run of records and the entries they hold. *)
Inductive records : buffer -> list (buffer * Z) -> Prop :=
| records_nil : records [] []
| records_snoc bs es e body :
    records bs es -> DirectoryEntry.wf e -> bytes_ok body ->
    zlen body = DirectoryEntry.rec_len e - DirectoryEntry.SIZE ->
    DirectoryEntry.name_len e <= zlen body ->
    records (bs ++ ds_bytes e ++ body) (es ++ found e body).

Lemma records_bytes_ok bs es : records bs es -> bytes_ok bs.
Proof.
  induction 1; [constructor|]. apply bytes_ok_app. split; [done|].
  apply bytes_ok_app. split; [by apply ds_bytes_bytes_ok|done].
Qed.

Lemma parse_record f e body rest r :
  DirectoryEntry.wf e -> bytes_ok rest ->
  zlen body = DirectoryEntry.rec_len e - DirectoryEntry.SIZE ->
  DirectoryEntry.name_len e <= zlen body ->
  parse_loop f rest 0 = Some r ->
  parse_loop (S f) (ds_bytes e ++ body ++ rest) 0 = Some (found e body ++ r).
Proof.
  intros Hwf Hok Hb Hn Hr. pose proof (ds_bytes_zlen e Hwf) as Hl.
  change (ds_size (A:=DirectoryEntry.t)) with DirectoryEntry.SIZE in Hl.
  pose proof (zlen_nonneg rest). pose proof (zlen_nonneg body).
  cbn [parse_loop]. rewrite (proj2 (Z.leb_le _ _)) by (rewrite !zlen_app; lia).
  change (Z.to_nat 0) with 0%nat. rewrite drop_0.
  pose proof (ds_read_bytes e (body ++ rest) Hwf : DirectoryEntry.read_from _ = Some e) as E.
  rewrite E.
  unfold DirectoryEntry.SIZE in *.
  cbn [mbind option_bind]. rewrite (proj2 (Z.eqb_neq _ _)) by lia.
  destruct Hwf as (_ & _ & [Hnl _] & _).
  set (nl := DirectoryEntry.name_len e) in *.
  rewrite (proj2 (Z.leb_le (0 + 8 + nl) _)) by (rewrite !zlen_app; lia).
  replace (0 + DirectoryEntry.rec_len e) with (zlen (ds_bytes e ++ body) + 0)
    by (rewrite zlen_app; lia).
  rewrite app_assoc, parse_loop_shift, Hr by done. cbn [mbind option_bind].
  unfold found. fold nl. rewrite <- app_assoc, slice_app_skip, Hl by lia.
  replace (0 + 8 - 8) with 0 by lia. unfold slice. rewrite drop_0.
  rewrite take_app_le by (unfold zlen in *; lia). done.
Qed.

Lemma parse_records bs es rest f r :
  records bs es -> bytes_ok rest -> parse_loop f rest 0 = Some r ->
  exists f', parse_loop f' (bs ++ rest) 0 = Some (es ++ r).
Proof.
  intros Hr. revert rest f r. induction Hr as [|bs es e body Hr IH Hwf Hok Hb Hn];
    intros rest f r Hrest H; [eauto|].
  rewrite <- !app_assoc. eapply IH; [|by apply parse_record].
  apply bytes_ok_app. split; [by apply ds_bytes_bytes_ok|]. by apply bytes_ok_app.
Qed.

(** Parsing a run of records returns exactly its entries. *)
Lemma parse_dir_entries_records bs es :
  records bs es -> parse_dir_entries bs = Some es.
Proof.
  intros H. pose proof (records_bytes_ok _ _ H).
  destruct (parse_records bs es [] 1 [] H) as [f E]; [constructor|done|].
  rewrite !app_nil_r in E. by apply parse_dir_entries_det in E.
Qed.
End Parser.


(** ** The writer *)

Lemma write_header e :
  DirectoryEntry.wf e ->
  DirectoryEntry.write_to e (replicate (Z.to_nat DirectoryEntry.SIZE) 0) = Some (ds_bytes e).
Proof.
  intros Hwf.
  pose proof (ds_write_spec e (replicate (Z.to_nat DirectoryEntry.SIZE) 0) Hwf) as H.
  rewrite zlen_replicate in H by done. etrans; [apply H; done|].
  done.
Qed.

Lemma header_zlen e : DirectoryEntry.wf e -> zlen (ds_bytes e) = 8.
Proof. intros Hwf. pose proof (ds_bytes_zlen e Hwf) as H. exact H. Qed.

(** What the formatter hands to [write_dir_entry]: file names are at most 255
    bytes of UTF-8 and an inode number is never 0. *)
Definition effective_inode (e : dirent) : Z := default e.(de_inode) (fst <$> e.(de_link)).

Definition dirent_ok (e : dirent) : Prop :=
  bytes_ok e.(de_name) /\ utf8_valid e.(de_name) = true /\ 0 < zlen e.(de_name) <= 255 /\
  uint 32 (effective_inode e) /\ effective_inode e <> 0.

(** The pair a reader should see for an entry. *)
Definition dirent_view (e : dirent) : buffer * Z := (e.(de_name), effective_inode e).

Section Writer.
Context (bsz : Z) (Hbsz : 276 <= bsz < 65536).
Implicit Types (w cur b : buffer) (out : list (buffer * Z)).

(** [w] is finished blocks followed by a current one with [left] bytes to go. *)
Definition written w left out : Prop :=
  exists blocks ess cur ec,
    w = concat blocks ++ cur /\ Forall2 (fun b es => zlen b = bsz /\ records b es) blocks ess /\
    records cur ec /\ zlen cur = bsz - left /\ 12 <= left <= bsz /\ out = concat ess ++ ec.

Lemma written_nil : written [] bsz [].
Proof.
  exists [], [], [], []. repeat split; try done; [apply records_nil|rewrite zlen_nil; lia|lia..].
Qed.

Lemma finish_written w left out :
  written w left out ->
  exists w', finish_dir_entry_block w left bsz = Some (w', bsz) /\ written w' bsz out.
Proof.
  intros (blocks & ess & cur & ec & -> & Hb & Hc & Hl & Hleft & ->).
  set (term := {| DirectoryEntry.inode := 0; DirectoryEntry.rec_len := left;
                  DirectoryEntry.name_len := 0; DirectoryEntry.file_type := 0 |}).
  assert (Hwf : DirectoryEntry.wf term) by (repeat split; simpl; lia).
  unfold finish_dir_entry_block. rewrite (proj2 (Z.leb_gt _ _)) by lia.
  rewrite wrap_id by (split; simpl; lia). fold term. rewrite write_header by done.
  unfold usub. rewrite chk_some by (unfold uint, DirectoryEntry.SIZE; lia).
  cbn [mbind option_bind]. eexists. split; [done|].
  assert (Hrec : records (cur ++ ds_bytes term ++ replicate (Z.to_nat (left - 8)) 0) (ec ++ [])).
  { apply (records_snoc cur ec term (replicate (Z.to_nat (left - 8)) 0)); try done.
    - apply Forall_replicate. by vm_compute.
    - rewrite zlen_replicate by lia. done.
    - rewrite zlen_replicate by lia. simpl. lia. }
  exists (blocks ++ [cur ++ ds_bytes term ++ replicate (Z.to_nat (left - 8)) 0]), (ess ++ [ec]), [], [].
  split; [by rewrite concat_app; simpl; rewrite !app_nil_r, <- app_assoc|].
  split; [|repeat split; try lia; [apply records_nil|rewrite zlen_nil; lia|]].
  - apply Forall2_app; [done|]. constructor; [|done]. rewrite app_nil_r in Hrec. split; [|done].
    rewrite !zlen_app, zlen_replicate, header_zlen by (done || lia). lia.
  - by rewrite concat_app; simpl; rewrite !app_nil_r.
Qed.

(** The record [write_dir_entry] appends. *)
Lemma entry_record cur ec e :
  dirent_ok e -> records cur ec ->
  let n := zlen e.(de_name) in
  let size := align_up (DirectoryEntry.SIZE + n) 4 in
  let h := {| DirectoryEntry.inode := effective_inode e; DirectoryEntry.rec_len := size;
              DirectoryEntry.name_len := n;
              DirectoryEntry.file_type := dir_file_type (default e.(de_mode) (snd <$> e.(de_link))) |} in
  let pad := size - DirectoryEntry.SIZE - n in
  20 <= size + 12 <= 276 /\ 0 <= pad <= 3 /\ DirectoryEntry.wf h /\ zlen (ds_bytes h) = 8 /\
  records (cur ++ ds_bytes h ++ e.(de_name) ++ replicate (Z.to_nat pad) 0) (ec ++ [dirent_view e]).
Proof.
  intros (Hn & Hu & Hlen & Hi & Hi0) Hr n size h pad.
  destruct (align_up_4 (DirectoryEntry.SIZE + n)) as [Ha Hm]; [unfold DirectoryEntry.SIZE; lia|].
  fold size in Ha, Hm. unfold DirectoryEntry.SIZE in *.
  assert (Hs : size <= 264) by (pose proof (Z.div_mod size 4); lia).
  assert (Hwf : DirectoryEntry.wf h).
  { split; [done|]. split; [unfold uint; simpl; lia|]. split; [unfold uint; simpl; lia|].
    apply from_mode_uint. }
  split; [lia|]. split; [lia|]. split; [done|]. split; [by apply header_zlen|].
  replace [dirent_view e] with (found h (e.(de_name) ++ replicate (Z.to_nat pad) 0)).
  { apply records_snoc; try done.
    - apply bytes_ok_app. split; [done|]. apply Forall_replicate. by vm_compute.
    - rewrite zlen_app, zlen_replicate by lia. simpl. unfold DirectoryEntry.SIZE. lia.
    - rewrite zlen_app, zlen_replicate by lia. simpl. lia. }
  unfold found. simpl. rewrite (proj2 (Z.eqb_neq _ _)) by done.
  rewrite (proj2 (Z.ltb_lt 0 n)) by lia. simpl. f_equal. unfold dirent_view. f_equal.
  rewrite take_app_le by (unfold n, zlen; lia).
  rewrite take_ge by (unfold n, zlen; lia). by apply from_utf8_lossy_valid.
Qed.

Lemma zeros_prefix n : 0 <= n <= 3 ->
  (if 0 <? n then get_bytes n (replicate 4 0) 0 else Some []) = Some (replicate (Z.to_nat n) 0).
Proof.
  intros Hn. assert (n = 0 \/ n = 1 \/ n = 2 \/ n = 3) as [->|[->|[->| ->]]] by lia; done.
Qed.

(** The part of [write_dir_entry] after the block switch. *)
Lemma append_written w left out e :
  dirent_ok e -> written w left out ->
  align_up (DirectoryEntry.SIZE + zlen e.(de_name)) 4 + 12 <= left ->
  exists st, write_dir_entry w e.(de_name) e.(de_inode) e.(de_mode)
      (fst <$> e.(de_link)) (snd <$> e.(de_link)) bsz left = Some st /\
    written st.1 st.2 (out ++ [dirent_view e]).
Proof.
  intros He (blocks & ess & cur & ec & -> & Hb & Hc & Hl & Hleft & ->) Hroom.
  destruct (entry_record cur ec e He Hc) as (Hsz & Hpad & Hwf & Hh & Hrec).
  destruct He as (_ & _ & Hlen & _).
  unfold write_dir_entry. rewrite (wrap_id 64 left) by (unfold uint; lia).
  rewrite (proj2 (Z.ltb_ge left _)) by lia. cbn [mbind option_bind fst snd].
  rewrite !wrap_id by (unfold uint, DirectoryEntry.SIZE in *; lia).
  fold (effective_inode e). rewrite write_header by done. cbn [mbind option_bind].
  rewrite zeros_prefix by done. cbn [mbind option_bind].
  eexists. split; [done|]. exists blocks, ess. do 2 eexists.
  split; [by rewrite <- app_assoc|]. split; [done|]. split; [exact Hrec|].
  split; [|split; [simpl; lia|by rewrite app_assoc]].
  cbn [fst snd]. rewrite !zlen_app, Hh, zlen_replicate by lia. unfold DirectoryEntry.SIZE in *. lia.
Qed.

Lemma write_dir_entry_written w left out e :
  dirent_ok e -> written w left out ->
  exists st, write_dir_entry w e.(de_name) e.(de_inode) e.(de_mode)
      (fst <$> e.(de_link)) (snd <$> e.(de_link)) bsz left = Some st /\
    written st.1 st.2 (out ++ [dirent_view e]).
Proof.
  intros He Hw.
  destruct (Z.le_gt_cases (align_up (DirectoryEntry.SIZE + zlen (de_name e)) 4 + 12) left) as [Hle|Hgt];
    [by apply append_written|].
  destruct (finish_written _ _ _ Hw) as (w' & Hf & Hw').
  destruct (entry_record [] [] e He records_nil) as (Hsz & _).
  destruct (append_written w' bsz out e He Hw') as (st & Hst & Hwst); [lia|].
  exists st. split; [|done]. rewrite <- Hst. unfold write_dir_entry.
  assert (12 <= left <= bsz) by (destruct Hw as (? & ? & ? & ? & ? & ? & ? & ? & ? & ?); done).
  rewrite (wrap_id 64 left), (wrap_id 64 bsz) by (unfold uint; lia).
  rewrite (proj2 (Z.ltb_lt left _)), (proj2 (Z.ltb_ge bsz _)) by lia.
  by rewrite Hf.
Qed.

Lemma write_entries_written es w left out :
  Forall dirent_ok es -> written w left out ->
  exists w', write_entries w left bsz es = Some (w', bsz) /\
    written w' bsz (out ++ (dirent_view <$> es)).
Proof.
  intros Hes. revert w left out. induction Hes as [|e es He Hes IH]; intros w left out Hw.
  { rewrite app_nil_r. by apply finish_written. }
  destruct (write_dir_entry_written w left out e He Hw) as ([w1 l1] & Hst & Hw1).
  cbn [write_entries]. rewrite Hst. cbn [mbind option_bind].
  destruct (IH _ _ _ Hw1) as (w' & E & Hw'). exists w'. split; [done|].
  by rewrite <- app_assoc in Hw'.
Qed.
End Writer.

(** ** Properties *)

(** C3 dir_roundtrip: A directory written by the formatter is a whole number of blocks, and parsing
    each block on its own, as the reader does, returns exactly the entries that
    were written, in order, a hard link under the inode it points to.  The bounds
    say an entry of 255 bytes and a terminator fit in a block and a record length
    fits in its 16 bits. *)
Theorem dir_roundtrip bsz es :
  276 <= bsz < 65536 -> Forall dirent_ok es ->
  exists blocks ess,
    write_entries [] bsz bsz es = Some (concat blocks, bsz) /\
    Forall (fun b => zlen b = bsz) blocks /\
    mapM parse_dir_entries blocks = Some ess /\
    concat ess = dirent_view <$> es.
Proof.
  intros Hb Hes.
  destruct (write_entries_written bsz Hb es [] bsz [] Hes (written_nil bsz Hb)) as (w & E & Hw).
  destruct Hw as (blocks & ess & cur & ec & -> & Hbs & Hc & Hl & _ & Hout).
  assert (cur = []) as -> by (destruct cur; [done|]; zlen; pose proof (zlen_nonneg cur); lia).
  rewrite app_nil_r in E. exists blocks, ess. split; [done|]. split; [|split].
  - eapply Forall2_Forall_l; [exact Hbs|]. apply Forall_true. by intros ? ? [].
  - apply mapM_Some. eapply Forall2_impl; [|exact Hbs]. intros b es' [_ Hr].
    by apply parse_dir_entries_records.
  - apply parse_dir_entries_records in Hc. vm_compute in Hc. simplify_eq.
    by rewrite app_nil_r in Hout.
Qed.

Lemma dir_roundtrip_witness :
  exists blocks ess,
    write_entries [] 4096 4096
      [mk_dirent [46] 2 0x41ED None; mk_dirent [97; 98] 12 0x81A4 (Some (13, 0x81A4))]
      = Some (concat blocks, 4096) /\
    Forall (fun b => zlen b = 4096) blocks /\
    mapM parse_dir_entries blocks = Some ess /\ concat ess = [([46], 2); ([97; 98], 13)].
Proof.
  apply (dir_roundtrip 4096 [mk_dirent [46] 2 0x41ED None;
                             mk_dirent [97; 98] 12 0x81A4 (Some (13, 0x81A4))]); [lia|].
  repeat constructor; vm_compute; congruence.
Defined.

(** Parsing arbitrary bytes as a directory block always returns: no index
    panic and no endless loop, whatever the record lengths say. *)
Theorem parse_dir_entries_total data :
  bytes_ok data -> exists es, parse_dir_entries data = Some es.
Proof.
  intros Hok. apply parse_loop_total; [done|lia|unfold zlen; lia|lia].
Qed.

Lemma parse_dir_entries_total_witness :
  exists es, parse_dir_entries [1; 0; 0; 0; 3; 0; 255; 1; 65; 66; 67; 68; 69] = Some es.
Proof.
  apply (parse_dir_entries_total [1; 0; 0; 0; 3; 0; 255; 1; 65; 66; 67; 68; 69]).
  repeat constructor; vm_compute; congruence.
Defined.
