(* ===== verification/Image.v ===== *)
(** * Files under construction

    The formatter and the reader work on a [File] (or a [Cursor] in tests) through
    [seek], [write_all], [read_exact] and [set_len].  A file is its bytes; writing
    past the end fills the gap with zeros, as [std::fs::File] and [Cursor] do.
    Failures of the device itself are outside the model: a write succeeds, and a
    read fails only when it runs past the end. *)

From stdpp Require Import base list option numbers.
From S2P Require Import Prelude Bytes.

(** [seek(Start(pos)); write_all(bs)] *)
Definition file_write (f : buffer) (pos : Z) (bs : buffer) : buffer :=
  if zlen bs =? 0 then f else
  let f := f ++ replicate (Z.to_nat (pos + zlen bs - zlen f)) 0 in
  splice f pos bs.

(** [seek(Start(pos)); read_exact(&mut [0; n])]: [None] is [UnexpectedEof]. *)
Definition file_read (f : buffer) (pos n : Z) : option buffer :=
  if (0 <=? pos) && (pos + n <=? zlen f) then Some (slice pos n f)
  else if n =? 0 then Some [] else None.

(** [set_len] *)
Definition set_len (f : buffer) (n : Z) : buffer :=
  take (Z.to_nat n) f ++ replicate (Z.to_nat (n - zlen f)) 0.

(** [f(&mut buf[off..off + len])] for a function that rewrites a slice in place. *)
Definition with_slice (buf : buffer) (off len : Z) (f : buffer -> option buffer) : option buffer :=
  if (0 <=? off) && (off + len <=? zlen buf) then
    s ← f (slice off len buf); Some (splice buf off s)
  else None.

Section SpliceFacts.
Context {A : Type}.
Implicit Types (l bs : list A).

Lemma slice_splice_hit l off bs :
  0 <= off -> off + zlen bs <= zlen l -> slice off (zlen bs) (splice l off bs) = bs.
Proof.
  intros Ho Hl. pose proof (zlen_nonneg bs). unfold splice.
  rewrite slice_app_skip by (rewrite zlen_take; lia).
  rewrite zlen_take, Z.min_l by lia. replace (off - off) with 0 by lia. by apply slice_app_hit.
Qed.

Lemma slice_splice_miss l off bs pos n :
  0 <= off -> off + zlen bs <= zlen l -> 0 <= pos -> 0 <= n ->
  pos + n <= off \/ off + zlen bs <= pos -> slice pos n (splice l off bs) = slice pos n l.
Proof.
  intros Ho Hl Hp Hn H. apply list_eq. intros i. unfold slice, splice.
  destruct (Nat.lt_ge_cases i (Z.to_nat n)) as [Hi|Hi].
  2:{ rewrite !lookup_take_ge by lia. done. }
  rewrite !lookup_take_lt by lia. rewrite !lookup_drop. unfold zlen in *.
  destruct H as [H|H].
  - rewrite lookup_app_l by (rewrite length_take; lia).
    by rewrite lookup_take_lt by lia.
  - rewrite lookup_app_r by (rewrite length_take; lia).
    rewrite lookup_app_r by (rewrite length_take; lia).
    rewrite lookup_drop. f_equal. rewrite length_take. lia.
Qed.

Lemma slice_app_l pos n l1 l2 :
  0 <= pos -> 0 <= n -> pos + n <= zlen l1 -> slice pos n (l1 ++ l2) = slice pos n l1.
Proof.
  intros. unfold slice, zlen in *. rewrite drop_app_le by lia.
  apply take_app_le. rewrite length_drop. lia.
Qed.
End SpliceFacts.

Section FileFacts.
Implicit Types (f bs : buffer).

Lemma zlen_padded f n : zlen (f ++ replicate (Z.to_nat (n - zlen f)) 0) = Z.max (zlen f) n.
Proof.
  rewrite zlen_app. destruct (Z.le_gt_cases n (zlen f)).
  - replace (Z.to_nat (n - zlen f)) with 0%nat by lia. simpl. rewrite zlen_nil. lia.
  - rewrite zlen_replicate by lia. lia.
Qed.

Lemma zlen_file_write f pos bs :
  0 <= pos -> 0 < zlen bs -> zlen (file_write f pos bs) = Z.max (zlen f) (pos + zlen bs).
Proof.
  intros Hp Hb. unfold file_write. rewrite (proj2 (Z.eqb_neq _ _)) by lia.
  rewrite zlen_splice; rewrite ?zlen_padded; lia.
Qed.

(** What was written is read back. *)
Lemma file_read_write_hit f pos bs :
  0 <= pos -> file_read (file_write f pos bs) pos (zlen bs) = Some bs.
Proof.
  intros Hp. pose proof (zlen_nonneg bs).
  destruct (Z.eq_dec (zlen bs) 0) as [Hz|Hz].
  { unfold file_read. rewrite Hz. assert (bs = []) as ->.
    { destruct bs; [done|]. rewrite zlen_cons in Hz. pose proof (zlen_nonneg bs). lia. }
    by case_match. }
  unfold file_read. rewrite zlen_file_write by lia.
  rewrite (proj2 (Z.leb_le 0 pos)), (proj2 (Z.leb_le (pos + _) _)) by lia. cbn [andb].
  f_equal. unfold file_write. rewrite (proj2 (Z.eqb_neq _ _)) by lia.
  apply slice_splice_hit; [done|]. rewrite zlen_padded. lia.
Qed.

(** A write leaves every disjoint read that succeeded before as it was. *)
Lemma file_read_write_miss f pos bs p n r :
  0 <= pos -> 0 <= p -> 0 <= n -> p + n <= pos \/ pos + zlen bs <= p ->
  file_read f p n = Some r -> file_read (file_write f pos bs) p n = Some r.
Proof.
  intros Hp Hp' Hn Hd. pose proof (zlen_nonneg bs). unfold file_write.
  destruct (Z.eqb_spec (zlen bs) 0) as [|Hz]; [done|]. unfold file_read.
  rewrite zlen_splice, zlen_padded by (rewrite ?zlen_padded; lia).
  rewrite (proj2 (Z.leb_le 0 p)) by lia. cbn [andb].
  destruct (Z.leb_spec (p + n) (zlen f)) as [Hle|Hgt].
  - rewrite (proj2 (Z.leb_le (p + n) _)) by lia. intros [= <-]. f_equal.
    rewrite slice_splice_miss; try lia; [|rewrite zlen_padded; lia].
    by apply slice_app_l.
  - destruct (Z.eqb_spec n 0) as [->|]; [|done]. intros [= <-].
    by case_match.
Qed.

Lemma with_slice_ok (buf : buffer) off len (f : buffer -> option buffer) s :
  0 <= off -> off + len <= zlen buf -> f (slice off len buf) = Some s ->
  with_slice buf off len f = Some (splice buf off s).
Proof.
  intros Ho Hl Hf. unfold with_slice.
  rewrite (proj2 (Z.leb_le 0 off)), (proj2 (Z.leb_le (off + len) _)) by done. simpl. by rewrite Hf.
Qed.

Lemma bytes_ok_splice f off bs : bytes_ok f -> bytes_ok bs -> bytes_ok (splice f off bs).
Proof.
  intros Hf Hb. unfold splice. apply bytes_ok_app. split; [by apply Forall_take|].
  apply bytes_ok_app. split; [done|]. by apply Forall_drop.
Qed.

Lemma bytes_ok_file_write f pos bs : bytes_ok f -> bytes_ok bs -> bytes_ok (file_write f pos bs).
Proof.
  intros Hf Hb. unfold file_write. case_match; [done|]. apply bytes_ok_splice; [|done].
  apply bytes_ok_app. split; [done|]. apply bytes_ok_zeros.
Qed.
End FileFacts.

(** Byte [p] of a file, 0 in holes and past the end. *)
Definition byte_at (f : buffer) (p : Z) : Z := default 0 (zlookup f p).

Lemma lookup_pad (f : buffer) n p : default 0 ((f ++ replicate n 0) !! p) = default 0 (f !! p).
Proof.
  destruct (Nat.lt_ge_cases p (length f)) as [Hi|Hi]; [by rewrite lookup_app_l|].
  rewrite lookup_app_r, (lookup_ge_None_2 f) by done. simpl.
  destruct (replicate n 0 !! (p - length f)%nat) eqn:E; [|done].
  by apply lookup_replicate in E as [-> _].
Qed.

Lemma byte_at_write f pos bs p :
  0 <= pos -> 0 <= p ->
  byte_at (file_write f pos bs) p =
    if (pos <=? p) && (p <? pos + zlen bs) then byte_at bs (p - pos) else byte_at f p.
Proof.
  intros Hpos Hp. pose proof (zlen_nonneg bs). unfold file_write.
  destruct (Z.eqb_spec (zlen bs) 0) as [Hz|Hz].
  { rewrite Hz. destruct (Z.leb_spec pos p); [|done]. by rewrite (proj2 (Z.ltb_ge _ _)) by lia. }
  assert (Hpad : pos + zlen bs <= zlen (f ++ replicate (Z.to_nat (pos + zlen bs - zlen f)) 0))
    by (rewrite zlen_padded; lia).
  unfold byte_at. rewrite (zlookup_nonneg f p), (zlookup_nonneg (splice _ _ _) p) by done. unfold splice.
  set (g := f ++ _) in *. unfold zlen in *.
  destruct (Z.leb_spec pos p) as [Hle|Hgt]; cbn [andb].
  - destruct (Z.ltb_spec p (pos + Z.of_nat (length bs))) as [Hlt|Hge].
    + rewrite lookup_app_r by (rewrite length_take; lia).
      rewrite lookup_app_l by (rewrite length_take; lia).
      rewrite zlookup_nonneg by lia. do 2 f_equal. rewrite length_take. lia.
    + rewrite lookup_app_r by (rewrite length_take; lia).
      rewrite lookup_app_r by (rewrite length_take; lia).
      rewrite lookup_drop, length_take.
      replace (_ + _)%nat with (Z.to_nat p) by lia. apply lookup_pad.
  - rewrite lookup_app_l by (rewrite length_take; lia). rewrite lookup_take_lt by lia. apply lookup_pad.
Qed.

#[export] Hint Resolve bytes_ok_splice bytes_ok_zeros bytes_ok_file_write : bento.
