(* ===== verification/Extent.v ===== *)
(** * Extent trees

    [common/ext4/src/extent.rs].  The write path cuts block ranges into leaves of
    at most [MAX_BLOCKS_PER_EXTENT] blocks and stores them in the inode's 60-byte
    [block] field, or in leaf blocks the field points to; the read path turns the
    field back into physical ranges.  [None] is a panic (arithmetic overflow,
    index out of range, the [debug_assert!] on the tree's depth). *)

From stdpp Require Import base list list_numbers option numbers.
From S2P Require Import Prelude Bytes Constants DiskTypes Errors Image.

(** [struct BlockRange] of [file_tree.rs]: the blocks [start, end). *)
Record BlockRange := mk_range { br_start : Z; br_end : Z }.

(** ** Write path *)

(** [iter().map(..).sum::<u32>()] *)
Fixpoint sum_u32 (xs : list Z) (acc : Z) : option Z :=
  match xs with
  | [] => Some acc
  | x :: xs => acc ← uadd 32 acc x; sum_u32 xs acc
  end.

(** [range.end - range.start] *)
Definition range_len (r : BlockRange) : option Z := usub 32 r.(br_end) r.(br_start).

(** The [while remaining > 0] loop; [fuel] bounds its turns. *)
Fixpoint range_leaves (fuel : nat) (remaining phys logical : Z)
    : option (list ExtentLeaf.t * Z) :=
  if 0 <? remaining then
    match fuel with
    | O => None
    | S fuel =>
        let len := Z.min remaining MAX_BLOCKS_PER_EXTENT in
        let leaf := {| ExtentLeaf.block := logical; ExtentLeaf.len := wrap 16 len;
                       ExtentLeaf.start_hi := 0; ExtentLeaf.start_lo := phys |} in
        phys ← uadd 32 phys len;
        logical ← uadd 32 logical len;
        remaining ← usub 32 remaining len;
        rest ← range_leaves fuel remaining phys logical;
        Some (leaf :: rest.1, rest.2)
    end
  else Some ([], logical).

(** The [for range in blocks] loop. *)
Fixpoint ranges_leaves (blocks : list BlockRange) (logical : Z) : option (list ExtentLeaf.t) :=
  match blocks with
  | [] => Some []
  | r :: blocks =>
      remaining ← range_len r;
      st ← range_leaves (Z.to_nat (div_ceil remaining MAX_BLOCKS_PER_EXTENT)) remaining r.(br_start) logical;
      rest ← ranges_leaves blocks st.2;
      Some (st.1 ++ rest)
  end.

Definition fill_extent_leaves_from_ranges (blocks : list BlockRange) : option (list ExtentLeaf.t) :=
  lens ← mapM range_len blocks;
  _ ← sum_u32 ((fun n => div_ceil n MAX_BLOCKS_PER_EXTENT) <$> lens) 0;
  ranges_leaves blocks 0.

(** [for (i, x) in xs.iter().enumerate()]: write [x] at [off + i * size]. *)
Fixpoint write_table {A} (size : Z) (write_to : A -> buffer -> option buffer)
    (off : Z) (xs : list A) (buf : buffer) : option buffer :=
  match xs with
  | [] => Some buf
  | x :: xs => buf ← with_slice buf off size (write_to x); write_table size write_to (off + size) xs buf
  end.

Definition add_inode_blocks (inode : Inode.t) (filesystem_blocks block_size : Z) : option Inode.t :=
  blocks ← (if negb (Z.land inode.(Inode.flags) inode_flags.HUGE_FILE =? 0) then Some filesystem_blocks
            else umul 32 filesystem_blocks (block_size / 512));
  n ← uadd 32 inode.(Inode.blocks_lo) blocks;
  Some (Inode.set_blocks_lo n inode).

Definition mark_extents (inode : Inode.t) : Inode.t :=
  Inode.set_flags (Z.lor inode.(Inode.flags) inode_flags.EXTENTS) inode.

Definition write_inline_extents (inode : Inode.t) (data_blocks : Z) (leaves : list ExtentLeaf.t)
    (block_size : Z) : option Inode.t :=
  let buf := replicate (Z.to_nat INODE_BLOCK_SIZE) 0 in
  let header := {| ExtentHeader.magic := EXTENT_HEADER_MAGIC;
                   ExtentHeader.entries := wrap 16 (zlen leaves); ExtentHeader.max := 4;
                   ExtentHeader.depth := 0; ExtentHeader.generation := 0 |} in
  buf ← with_slice buf 0 ExtentHeader.SIZE (ExtentHeader.write_to header);
  buf ← write_table ExtentLeaf.SIZE ExtentLeaf.write_to ExtentHeader.SIZE leaves buf;
  inode ← add_inode_blocks (Inode.set_block buf inode) data_blocks block_size;
  Some (mark_extents inode).

(** [(block_size - ExtentHeader::SIZE - ExtentTail::SIZE) / ExtentLeaf::SIZE] *)
Definition leaves_per_block (block_size : Z) : option Z :=
  a ← usub 64 block_size ExtentHeader.SIZE;
  b ← usub 64 a ExtentTail.SIZE;
  Some (b / ExtentLeaf.SIZE).

(** The index entry of leaf block [i]. *)
Definition index_entry (all_leaves : list ExtentLeaf.t) (lpb index_block_start i : Z)
    : option ExtentIndex.t :=
  l ← all_leaves !! Z.to_nat (i * lpb);
  leaf_lo ← uadd 32 index_block_start i;
  Some {| ExtentIndex.block := l.(ExtentLeaf.block); ExtentIndex.leaf_lo := leaf_lo;
          ExtentIndex.leaf_hi := 0; ExtentIndex.unused := 0 |}.

(** The bytes of one leaf block. *)
Definition leaf_block (block_leaves : list ExtentLeaf.t) (lpb block_size : Z) : option buffer :=
  let block_buf := replicate (Z.to_nat block_size) 0 in
  let leaf_header := {| ExtentHeader.magic := EXTENT_HEADER_MAGIC;
                        ExtentHeader.entries := wrap 16 (zlen block_leaves);
                        ExtentHeader.max := wrap 16 lpb;
                        ExtentHeader.depth := 0; ExtentHeader.generation := 0 |} in
  block_buf ← with_slice block_buf 0 ExtentHeader.SIZE (ExtentHeader.write_to leaf_header);
  block_buf ← write_table ExtentLeaf.SIZE ExtentLeaf.write_to ExtentHeader.SIZE block_leaves block_buf;
  let tail := {| ExtentTail.checksum := 0 |} in
  tail_off ← usub 64 block_size ExtentTail.SIZE;
  with_slice block_buf tail_off ExtentTail.SIZE (ExtentTail.write_to tail).

(** The loop over leaf blocks [i ..]: build, seek to [current_block], write. *)
Fixpoint write_leaf_blocks (n : nat) (i : Z) (all_leaves : list ExtentLeaf.t)
    (lpb block_size : Z) (writer : buffer) (current_block : Z) : option (buffer * Z) :=
  match n with
  | O => Some (writer, current_block)
  | S n =>
      let leaf_start := i * lpb in
      let leaf_end := Z.min ((i + 1) * lpb) (zlen all_leaves) in
      block_leaves ← get_range all_leaves leaf_start leaf_end;
      block_buf ← leaf_block block_leaves lpb block_size;
      let writer := file_write writer (current_block * block_size) block_buf in
      current_block ← uadd 32 current_block 1;
      write_leaf_blocks n (i + 1) all_leaves lpb block_size writer current_block
  end.

Definition write_indexed_extents (inode : Inode.t) (data_blocks : Z) (all_leaves : list ExtentLeaf.t)
    (block_size : Z) (writer : buffer) (current_block : Z) : option (Inode.t * buffer * Z) :=
  lpb ← leaves_per_block block_size;
  num_index_blocks ← (if wrap 32 lpb =? 0 then None
                      else Some (div_ceil (wrap 32 (zlen all_leaves)) (wrap 32 lpb)));
  _ ← debug_assert (num_index_blocks <=? 4);
  let index_block_start := current_block in
  indices ← mapM (index_entry all_leaves lpb index_block_start) (seqZ 0 num_index_blocks);
  let buf := replicate (Z.to_nat INODE_BLOCK_SIZE) 0 in
  let header := {| ExtentHeader.magic := EXTENT_HEADER_MAGIC;
                   ExtentHeader.entries := wrap 16 num_index_blocks; ExtentHeader.max := 4;
                   ExtentHeader.depth := 1; ExtentHeader.generation := 0 |} in
  buf ← with_slice buf 0 ExtentHeader.SIZE (ExtentHeader.write_to header);
  buf ← write_table ExtentIndex.SIZE ExtentIndex.write_to ExtentHeader.SIZE indices buf;
  let inode := Inode.set_block buf inode in
  st ← write_leaf_blocks (Z.to_nat num_index_blocks) 0 all_leaves lpb block_size writer current_block;
  total_blocks ← uadd 32 data_blocks num_index_blocks;
  inode ← add_inode_blocks inode total_blocks block_size;
  Some (mark_extents inode, st.1, st.2).

(** [fn write_extents]: the new inode, the output and the next free block. *)
Definition write_extents (inode : Inode.t) (blocks : list BlockRange) (block_size : Z)
    (writer : buffer) (current_block : Z) : option (Inode.t * buffer * Z) :=
  lens ← mapM range_len blocks;
  data_blocks ← sum_u32 lens 0;
  if data_blocks =? 0 then Some (inode, writer, current_block)
  else
    leaves ← fill_extent_leaves_from_ranges blocks;
    let num_extents := wrap 32 (zlen leaves) in
    let max_inline := 4 in
    if num_extents <=? max_inline then
      inode ← write_inline_extents inode data_blocks leaves block_size;
      Some (inode, writer, current_block)
    else write_indexed_extents inode data_blocks leaves block_size writer current_block.

(** ** Read path *)

(** One leaf of the table in [buf], as a physical range. *)
Definition read_leaf (buf : buffer) (off : Z) : outcome ReadError (Z * Z) :=
  if zlen buf <? off + ExtentLeaf.SIZE then Err InvalidExtents
  else
    leaf <-! ExtentLeaf.read_from (drop (Z.to_nat off) buf) ;;
    phys_end <-! uadd 32 leaf.(ExtentLeaf.start_lo) leaf.(ExtentLeaf.len) ;;
    Ok (leaf.(ExtentLeaf.start_lo), phys_end).

(** [for j in 0..entries] over the leaf table. *)
Fixpoint read_leaves (n : nat) (off : Z) (buf : buffer) : outcome ReadError (list (Z * Z)) :=
  match n with
  | O => Ok []
  | S n =>
      r <- read_leaf buf off ;;
      rs <- read_leaves n (off + ExtentLeaf.SIZE) buf ;;
      Ok (r :: rs)
  end.

Definition parse_depth0 (block_field : buffer) (header : ExtentHeader.t)
    : outcome ReadError (list (Z * Z)) :=
  read_leaves (Z.to_nat header.(ExtentHeader.entries)) ExtentHeader.SIZE block_field.

(** One index entry: read its leaf block from the disk and the leaves in it. *)
Definition read_index (block_field : buffer) (block_size : Z) (reader : buffer) (off : Z)
    : outcome ReadError (list (Z * Z)) :=
  if zlen block_field <? off + ExtentIndex.SIZE then Err InvalidExtents
  else
    index <-! ExtentIndex.read_from (drop (Z.to_nat off) block_field) ;;
    let phys_block := ExtentIndex.leaf index in
    byte_offset <-! umul 64 phys_block block_size ;;
    leaf_buf <- ok_or (file_read reader byte_offset block_size) (CouldNotReadBlock (wrap 32 phys_block)) ;;
    leaf_header <-! ExtentHeader.read_from leaf_buf ;;
    if negb (leaf_header.(ExtentHeader.magic) =? EXTENT_HEADER_MAGIC)
       || negb (leaf_header.(ExtentHeader.depth) =? 0)
    then Err InvalidExtents
    else read_leaves (Z.to_nat leaf_header.(ExtentHeader.entries)) ExtentHeader.SIZE leaf_buf.

Fixpoint read_indices (n : nat) (off : Z) (block_field : buffer) (block_size : Z) (reader : buffer)
    : outcome ReadError (list (Z * Z)) :=
  match n with
  | O => Ok []
  | S n =>
      rs <- read_index block_field block_size reader off ;;
      rest <- read_indices n (off + ExtentIndex.SIZE) block_field block_size reader ;;
      Ok (rs ++ rest)
  end.

Definition parse_depth1 (block_field : buffer) (header : ExtentHeader.t) (block_size : Z)
    (reader : buffer) : outcome ReadError (list (Z * Z)) :=
  read_indices (Z.to_nat header.(ExtentHeader.entries)) ExtentHeader.SIZE block_field block_size reader.

Definition parse_extents (inode : Inode.t) (block_size : Z) (reader : buffer)
    : outcome ReadError (list (Z * Z)) :=
  header <-! ExtentHeader.read_from inode.(Inode.block) ;;
  if negb (header.(ExtentHeader.magic) =? EXTENT_HEADER_MAGIC) then Ok []
  else if header.(ExtentHeader.depth) =? 0 then parse_depth0 inode.(Inode.block) header
  else if header.(ExtentHeader.depth) =? 1
  then parse_depth1 inode.(Inode.block) header block_size reader
  else Err DeepExtentsUnsupported.

(** ** Leaves *)

Definition range_ok (r : BlockRange) : Prop := 0 <= r.(br_start) <= r.(br_end) /\ r.(br_end) < 2 ^ 32.
Definition size_of (r : BlockRange) : Z := r.(br_end) - r.(br_start).
Definition extents_of (n : Z) : Z := div_ceil n MAX_BLOCKS_PER_EXTENT.

(** The physical blocks of a range, of a leaf, and of a parsed range, in file order. *)
Definition range_blocks (r : BlockRange) : list Z := seqZ r.(br_start) (size_of r).
Definition leaf_blocks (l : ExtentLeaf.t) : list Z := seqZ l.(ExtentLeaf.start_lo) l.(ExtentLeaf.len).
Definition parsed_blocks (p : Z * Z) : list Z := seqZ p.1 (p.2 - p.1).

Definition leaf_ok (l : ExtentLeaf.t) : Prop :=
  ExtentLeaf.wf l /\ 0 < l.(ExtentLeaf.len) <= MAX_BLOCKS_PER_EXTENT /\
  l.(ExtentLeaf.start_hi) = 0 /\ l.(ExtentLeaf.start_lo) + l.(ExtentLeaf.len) < 2 ^ 32.

(** The leaves cover the logical blocks from [logical] on without gap or overlap. *)
Fixpoint contiguous (logical : Z) (ls : list ExtentLeaf.t) : Prop :=
  match ls with
  | [] => True
  | l :: ls => l.(ExtentLeaf.block) = logical /\ contiguous (logical + l.(ExtentLeaf.len)) ls
  end.

Definition leaves_len (ls : list ExtentLeaf.t) : Z := zsum (ExtentLeaf.len <$> ls).

Lemma contiguous_app logical l1 l2 :
  contiguous logical (l1 ++ l2) <-> contiguous logical l1 /\ contiguous (logical + leaves_len l1) l2.
Proof.
  revert logical. induction l1 as [|l l1 IH]; intros logical; simpl.
  - unfold leaves_len. simpl. rewrite Z.add_0_r. tauto.
  - rewrite IH. unfold leaves_len. simpl. rewrite Z.add_assoc. tauto.
Qed.

Lemma sum_u32_spec xs acc :
  Forall (fun x => 0 <= x) xs -> 0 <= acc -> acc + zsum xs < 2 ^ 32 ->
  sum_u32 xs acc = Some (acc + zsum xs).
Proof.
  intros Hx. revert acc. induction Hx as [|x xs Hx Hxs IH]; intros acc Ha Hs; simpl in *.
  - f_equal. lia.
  - assert (0 <= zsum xs) by (clear -Hxs; induction Hxs; simpl; lia).
    unfold uadd. rewrite chk_some by (split; lia). simpl. rewrite IH by lia. f_equal. lia.
Qed.

Lemma range_leaves_spec fuel remaining phys logical :
  0 <= remaining <= Z.of_nat fuel * MAX_BLOCKS_PER_EXTENT -> 0 <= phys -> phys + remaining < 2 ^ 32 ->
  0 <= logical -> logical + remaining < 2 ^ 32 ->
  exists ls, range_leaves fuel remaining phys logical = Some (ls, logical + remaining) /\
    Forall leaf_ok ls /\ contiguous logical ls /\ leaves_len ls = remaining /\
    concat (leaf_blocks <$> ls) = seqZ phys remaining /\ zlen ls = extents_of remaining.
Proof.
  revert remaining phys logical. unfold MAX_BLOCKS_PER_EXTENT.
  induction fuel as [|fuel IH]; intros remaining phys logical Hr Hp Hpr Hl Hlr.
  all: cbn [range_leaves]; destruct (Z.ltb_spec 0 remaining) as [Hpos|Hz].
  1: lia.
  1,3: assert (remaining = 0) as -> by lia; exists []; rewrite Z.add_0_r; repeat split; constructor.
  unfold MAX_BLOCKS_PER_EXTENT. set (len := Z.min remaining 0x8000).
  assert (Hlen : 0 < len <= 0x8000 /\ len <= remaining) by lia.
  unfold uadd, usub. rewrite !chk_some by (unfold uint; lia). cbn [mbind option_bind].
  destruct (IH (remaining - len) (phys + len) (logical + len)) as (ls & E & Hok & Hc & Hs & Hb & Hn);
    [lia..|].
  rewrite E. cbn [mbind option_bind fst snd]. eexists. split; [do 2 f_equal; lia|].
  rewrite wrap_id by (unfold uint; lia).
  split; [|split; [|split; [|split]]].
  - constructor; [|done]. split; [|simpl; unfold MAX_BLOCKS_PER_EXTENT; lia].
    repeat split; simpl; unfold uint; lia.
  - split; [done|]. done.
  - unfold leaves_len in *. rewrite fmap_cons, zsum_cons, Hs. simpl. lia.
  - rewrite fmap_cons. cbn [concat]. rewrite Hb. unfold leaf_blocks. simpl.
    rewrite <- seqZ_app by lia. f_equal. lia.
  - rewrite zlen_cons, Hn. unfold extents_of, div_ceil, MAX_BLOCKS_PER_EXTENT.
    subst len. destruct (Z.min_spec remaining 0x8000) as [[? ->]|[? ->]].
    + replace (remaining - remaining) with 0 by lia.
      rewrite <- (Z.div_unique (remaining + 0x8000 - 1) 0x8000 1 (remaining - 1)) by lia. done.
    + replace (remaining + 0x8000 - 1) with (remaining - 0x8000 + 0x8000 - 1 + 1 * 0x8000) by lia.
      rewrite Z.div_add by lia. lia.
Qed.

Lemma range_len_ok r : range_ok r -> range_len r = Some (size_of r).
Proof. intros [? ?]. apply chk_some. unfold uint, size_of in *. lia. Qed.

Lemma mapM_range_len blocks : Forall range_ok blocks -> mapM range_len blocks = Some (size_of <$> blocks).
Proof.
  intros H. apply mapM_Some. apply Forall2_fmap_r. apply Forall_Forall2_diag.
  eapply Forall_impl; [|exact H]. apply range_len_ok.
Qed.

Lemma sizes_nonneg blocks : Forall range_ok blocks -> Forall (fun x => 0 <= x) (size_of <$> blocks).
Proof. intros H. apply Forall_fmap. eapply Forall_impl; [|exact H]. intros r [? ?]. unfold compose, size_of. lia. Qed.

Lemma ranges_leaves_spec blocks logical :
  Forall range_ok blocks -> 0 <= logical -> logical + zsum (size_of <$> blocks) < 2 ^ 32 ->
  exists ls, ranges_leaves blocks logical = Some ls /\
    Forall leaf_ok ls /\ contiguous logical ls /\ leaves_len ls = zsum (size_of <$> blocks) /\
    concat (leaf_blocks <$> ls) = concat (range_blocks <$> blocks) /\
    zlen ls = zsum (extents_of ∘ size_of <$> blocks).
Proof.
  intros Hb. revert logical. induction Hb as [|r blocks Hr Hb IH]; intros logical Hl Hs.
  { exists []. repeat split; constructor. }
  rewrite !fmap_cons, ?zsum_cons in *. cbn [ranges_leaves concat].
  pose proof (zsum_nonneg _ (sizes_nonneg _ Hb)).
  rewrite (range_len_ok r Hr). cbn [mbind option_bind]. destruct Hr as [Hr1 Hr2].
  destruct (range_leaves_spec (Z.to_nat (div_ceil (size_of r) MAX_BLOCKS_PER_EXTENT)) (size_of r)
              (br_start r) logical) as (l1 & -> & Hok1 & Hc1 & Hs1 & Hb1 & Hn1).
  { unfold size_of, MAX_BLOCKS_PER_EXTENT.
    pose proof (div_ceil_bounds (br_end r - br_start r) 0x8000). lia. }
  1-4: unfold size_of in *; lia.
  cbn [mbind option_bind fst snd].
  destruct (IH (logical + size_of r)) as (l2 & -> & Hok2 & Hc2 & Hs2 & Hb2 & Hn2);
    [unfold size_of in *; lia..|].
  cbn [mbind option_bind]. eexists. split; [done|]. split; [|split; [|split; [|split]]].
  - by apply Forall_app.
  - apply contiguous_app. by rewrite Hs1.
  - unfold leaves_len in *. rewrite fmap_app, zsum_app. lia.
  - by rewrite fmap_app, concat_app, Hb1, Hb2.
  - rewrite zlen_app, Hn1, Hn2. done.
Qed.

Lemma extents_of_bounds n : 0 <= n -> 0 <= extents_of n <= n.
Proof.
  intros Hn. unfold extents_of, MAX_BLOCKS_PER_EXTENT, div_ceil. split; [apply Z.div_pos; lia|].
  destruct (Z.eq_dec n 0) as [->|]; [done|]. apply Z.div_le_upper_bound; lia.
Qed.

Lemma extents_sum_bounds blocks :
  Forall range_ok blocks ->
  0 <= zsum (extents_of ∘ size_of <$> blocks) <= zsum (size_of <$> blocks).
Proof.
  induction 1 as [|r blocks Hr _ IH]; [done|].
  rewrite !fmap_cons, !zsum_cons. unfold compose at 1 3.
  pose proof (extents_of_bounds (size_of r)). destruct Hr. unfold size_of in *. lia.
Qed.

Lemma fill_spec blocks :
  Forall range_ok blocks -> zsum (size_of <$> blocks) < 2 ^ 32 ->
  exists ls, fill_extent_leaves_from_ranges blocks = Some ls /\
    Forall leaf_ok ls /\ contiguous 0 ls /\ leaves_len ls = zsum (size_of <$> blocks) /\
    concat (leaf_blocks <$> ls) = concat (range_blocks <$> blocks) /\
    zlen ls = zsum (extents_of ∘ size_of <$> blocks).
Proof.
  intros Hb Hs. pose proof (extents_sum_bounds _ Hb).
  unfold fill_extent_leaves_from_ranges. rewrite mapM_range_len by done. cbn [mbind option_bind].
  rewrite sum_u32_spec; [|..].
  - cbn [mbind option_bind]. by apply ranges_leaves_spec.
  - apply Forall_fmap. eapply Forall_impl; [|by apply sizes_nonneg].
    intros n Hn. by apply extents_of_bounds.
  - done.
  - rewrite <- list_fmap_compose. unfold extents_of in *. lia.
Qed.

(** ** Tables of disk structures *)

Section Tables.
Context {A : Type} `{DiskStructOk A}.
Implicit Types (x : A) (xs : list A) (pre post : buffer).
Local Abbreviation size := (ds_size (A:=A)).

Definition table xs : buffer := concat (ds_bytes <$> xs).

Lemma table_cons x xs : table (x :: xs) = ds_bytes x ++ table xs.
Proof. done. Qed.

Lemma zlen_table xs : Forall ds_wf xs -> zlen (table xs) = size * zlen xs.
Proof.
  induction 1 as [|x xs Hx _ IH]; [unfold table, zlen; simpl; lia|].
  rewrite table_cons, zlen_app, zlen_cons, IH, (ds_bytes_zlen x) by done. lia.
Qed.

Lemma with_slice_write x pre mid post :
  ds_wf x -> zlen mid = size ->
  with_slice (pre ++ mid ++ post) (zlen pre) size (ds_write x) = Some (pre ++ ds_bytes x ++ post).
Proof.
  intros Hx Hm. pose proof (ds_bytes_zlen x Hx) as Hl.
  assert (Hs : slice (zlen pre) size (pre ++ mid ++ post) = mid).
  { rewrite slice_app_skip, Z.sub_diag by lia. by apply slice_app_hit. }
  rewrite (with_slice_ok _ _ _ _ (ds_bytes x)).
  - f_equal. rewrite splice_app by done. rewrite <- app_assoc. do 2 f_equal.
    apply drop_app_length'. unfold zlen in *. lia.
  - apply zlen_nonneg.
  - rewrite !zlen_app. pose proof (zlen_nonneg post). lia.
  - rewrite Hs, ds_write_spec by (done || lia). f_equal.
    rewrite drop_ge by (unfold zlen in *; lia). apply app_nil_r.
Qed.

Lemma write_table_spec xs pre post :
  Forall ds_wf xs -> zlen (table xs) <= zlen post ->
  write_table size ds_write (zlen pre) xs (pre ++ post) =
    Some (pre ++ table xs ++ drop (length (table xs)) post).
Proof.
  intros Hxs. revert pre post. induction Hxs as [|x xs Hx Hxs IH]; intros pre post Hl; [done|].
  rewrite table_cons, zlen_app, (ds_bytes_zlen x Hx) in Hl. pose proof (zlen_nonneg (table xs)).
  pose proof (ds_size_nonneg (A:=A)).
  cbn [write_table].
  rewrite <- (take_drop (Z.to_nat size) post) at 1.
  rewrite with_slice_write by (done || rewrite zlen_take; lia).
  cbn [mbind option_bind].
  replace (zlen pre + size) with (zlen (pre ++ ds_bytes x)) by (by rewrite zlen_app, ds_bytes_zlen).
  rewrite app_assoc, IH by (rewrite zlen_drop; lia).
  rewrite table_cons, length_app, <- !app_assoc, drop_drop. do 5 f_equal.
  pose proof (ds_bytes_zlen x Hx). unfold zlen in *. lia.
Qed.

Lemma read_at x pre post : ds_wf x ->
  ds_read (drop (Z.to_nat (zlen pre)) (pre ++ ds_bytes x ++ post)) = Some x.
Proof.
  intros Hx. rewrite drop_app_length' by (unfold zlen; lia). by apply ds_read_bytes.
Qed.
End Tables.

(** ** Reading leaves back *)

Definition parsed (l : ExtentLeaf.t) : Z * Z :=
  (l.(ExtentLeaf.start_lo), l.(ExtentLeaf.start_lo) + l.(ExtentLeaf.len)).

Lemma parsed_blocks_parsed (ls : list ExtentLeaf.t) : parsed_blocks <$> (parsed <$> ls) = leaf_blocks <$> ls.
Proof.
  rewrite <- list_fmap_compose. apply list_fmap_ext. intros _ l _.
  unfold compose, parsed_blocks, parsed, leaf_blocks. simpl. f_equal. lia.
Qed.

Lemma leaves_wf ls : Forall leaf_ok ls -> Forall ExtentLeaf.wf ls.
Proof. intros H. eapply Forall_impl; [|exact H]. by intros l [? _]. Qed.

Lemma zlen_leaves ls : Forall leaf_ok ls -> zlen (table ls) = 12 * zlen ls.
Proof. intros H. pose proof (zlen_table ls (leaves_wf ls H)) as E. exact E. Qed.

Lemma read_leaf_spec pre l post :
  leaf_ok l -> read_leaf (pre ++ ds_bytes l ++ post) (zlen pre) = Ok (parsed l).
Proof.
  intros (Hwf & Hlen & Hhi & Hsum). unfold read_leaf.
  pose proof (ds_bytes_zlen l Hwf : _ = 12) as Hl. pose proof (zlen_nonneg post).
  rewrite (proj2 (Z.ltb_ge _ _)) by (rewrite !zlen_app; unfold ExtentLeaf.SIZE; lia).
  pose proof (read_at l pre post Hwf : ExtentLeaf.read_from _ = _) as E. rewrite E. cbn [lift obind].
  unfold uadd. rewrite chk_some by (destruct Hwf as (? & ? & ? & [? ?]); unfold uint; lia). done.
Qed.

Lemma read_leaves_spec ls pre post :
  Forall leaf_ok ls ->
  read_leaves (length ls) (zlen pre) (pre ++ table ls ++ post) = Ok (parsed <$> ls).
Proof.
  intros Hls. revert pre. induction Hls as [|l ls Hl Hls IH]; intros pre; [done|].
  rewrite table_cons, <- app_assoc. cbn [length read_leaves].
  rewrite read_leaf_spec by done. cbn [obind].
  replace (zlen pre + ExtentLeaf.SIZE) with (zlen (pre ++ ds_bytes l)).
  2:{ rewrite zlen_app. by f_equal. }
  rewrite app_assoc, IH. done.
Qed.

(** A node: a header, a table, whatever follows. *)
Definition header_of (entries max depth : Z) : ExtentHeader.t :=
  {| ExtentHeader.magic := EXTENT_HEADER_MAGIC; ExtentHeader.entries := entries;
     ExtentHeader.max := max; ExtentHeader.depth := depth; ExtentHeader.generation := 0 |}.

Lemma header_wf entries max depth :
  uint 16 entries -> uint 16 max -> uint 16 depth -> ExtentHeader.wf (header_of entries max depth).
Proof. intros. repeat split; try done; apply H || apply H0 || apply H1. Qed.

Lemma read_header h rest : ExtentHeader.wf h -> ExtentHeader.read_from (ds_bytes h ++ rest) = Some h.
Proof. intros Hwf. exact (ds_read_bytes h rest Hwf). Qed.

Lemma header_bytes_zlen h : ExtentHeader.wf h -> zlen (ds_bytes h) = 12.
Proof. intros Hwf. exact (ds_bytes_zlen h Hwf). Qed.

(** Writing a header and then a table over a zeroed buffer. *)
Lemma write_node {A} `{DiskStructOk A} h (xs : list A) n :
  ExtentHeader.wf h -> Forall ds_wf xs -> 12 + zlen (table xs) <= n ->
  exists buf,
    with_slice (replicate (Z.to_nat n) 0) 0 ExtentHeader.SIZE (ExtentHeader.write_to h) = Some buf /\
    write_table (ds_size (A:=A)) ds_write ExtentHeader.SIZE xs buf =
      Some (ds_bytes h ++ table xs ++ replicate (Z.to_nat (n - 12 - zlen (table xs))) 0).
Proof.
  intros Hh Hxs Hn. pose proof (zlen_nonneg (table xs)).
  pose proof (header_bytes_zlen h Hh) as Hhl.
  replace (Z.to_nat n) with (12 + Z.to_nat (n - 12))%nat by lia.
  rewrite replicate_add.
  pose proof (with_slice_write h [] (replicate 12 0) (replicate (Z.to_nat (n - 12)) 0) Hh eq_refl
    : with_slice _ 0 ExtentHeader.SIZE (ExtentHeader.write_to h) = _) as E.
  cbn [app] in E. eexists. split; [exact E|].
  change ExtentHeader.SIZE with 12. rewrite <- Hhl at 1.
  rewrite write_table_spec by (done || (rewrite zlen_replicate; lia)).
  rewrite drop_replicate. do 4 f_equal. unfold zlen. lia.
Qed.

(** ** The inline case *)

Definition block_units (inode : Inode.t) (n bs : Z) : Z :=
  if negb (Z.land inode.(Inode.flags) inode_flags.HUGE_FILE =? 0) then n else n * (bs / 512).

Lemma add_inode_blocks_ok inode n bs :
  0 <= n -> 512 <= bs -> 0 <= inode.(Inode.blocks_lo) ->
  inode.(Inode.blocks_lo) + n * (bs / 512) < 2 ^ 32 ->
  add_inode_blocks inode n bs =
    Some (Inode.set_blocks_lo (inode.(Inode.blocks_lo) + block_units inode n bs) inode).
Proof.
  intros Hn Hbs Hb Hs. assert (1 <= bs / 512) by (apply Z.div_le_lower_bound; lia).
  unfold add_inode_blocks, block_units, umul, uadd. case_match; cbn [mbind option_bind].
  - rewrite chk_some by (unfold uint; nia). done.
  - rewrite (chk_some _ (n * _)) by (unfold uint; nia). cbn [mbind option_bind].
    rewrite chk_some by (unfold uint; nia). done.
Qed.

Lemma parse_inline inode ls max post bs f :
  Forall leaf_ok ls -> uint 16 (zlen ls) -> uint 16 max ->
  inode.(Inode.block) = ds_bytes (header_of (zlen ls) max 0) ++ table ls ++ post ->
  parse_extents inode bs f = Ok (parsed <$> ls).
Proof.
  intros Hls Hn Hm E. unfold parse_extents. rewrite E.
  assert (Hwf : ExtentHeader.wf (header_of (zlen ls) max 0)) by (by apply header_wf).
  rewrite read_header by done. cbn [lift obind]. simpl negb. cbn iota.
  unfold parse_depth0. cbn [header_of ExtentHeader.depth ExtentHeader.entries].
  rewrite <- (header_bytes_zlen _ Hwf : _ = ExtentHeader.SIZE).
  unfold zlen at 1. rewrite Nat2Z.id. by apply read_leaves_spec.
Qed.

Lemma write_inline_spec inode n ls bs :
  Forall leaf_ok ls -> zlen ls <= 4 -> 0 <= n -> 512 <= bs -> 0 <= inode.(Inode.blocks_lo) ->
  inode.(Inode.blocks_lo) + n * (bs / 512) < 2 ^ 32 ->
  exists inode' post, write_inline_extents inode n ls bs = Some inode' /\
    inode'.(Inode.block) = ds_bytes (header_of (zlen ls) 4 0) ++ table ls ++ post /\
    inode'.(Inode.blocks_lo) = inode.(Inode.blocks_lo) + block_units inode n bs.
Proof.
  intros Hls Hn Hd Hbs Hb Hs. pose proof (zlen_nonneg ls).
  unfold write_inline_extents. rewrite wrap_id by (unfold uint; lia). fold (header_of (zlen ls) 4 0).
  destruct (write_node (header_of (zlen ls) 4 0) ls INODE_BLOCK_SIZE) as (buf & -> & W).
  { apply header_wf; unfold uint; lia. }
  { by apply leaves_wf. }
  { rewrite zlen_leaves by done. unfold INODE_BLOCK_SIZE. lia. }
  cbn [mbind option_bind]. rewrite (W : write_table ExtentLeaf.SIZE ExtentLeaf.write_to _ _ _ = _).
  cbn [mbind option_bind]. rewrite add_inode_blocks_ok by done. cbn [mbind option_bind].
  do 2 eexists. split; [done|]. split; [reflexivity|]. done.
Qed.

(** ** The indexed case *)

Section Indexed.
Context (all : list ExtentLeaf.t) (lpb bs : Z).
Hypothesis Hall : Forall leaf_ok all.
Hypothesis Hlpb : 0 < lpb.
Hypothesis Hbs : 12 + 12 * lpb + 4 <= bs.
Hypothesis Hbs_max : bs <= 65536.

(** The leaves of leaf block [i]. *)
Definition chunk (i : Z) : list ExtentLeaf.t :=
  slice (i * lpb) (Z.min ((i + 1) * lpb) (zlen all) - i * lpb) all.

Lemma chunk_ok i : Forall leaf_ok (chunk i).
Proof. unfold chunk, slice. by apply Forall_take, Forall_drop. Qed.

Lemma zlen_chunk i : 0 <= i -> i * lpb < zlen all -> 0 < zlen (chunk i) <= lpb.
Proof using Hlpb.
  clear Hbs_max Hbs Hall. intros Hi Hl. unfold chunk. rewrite zlen_slice; nia. Qed.

Lemma chunk_range i : 0 <= i -> i * lpb < zlen all ->
  get_range all (i * lpb) (Z.min ((i + 1) * lpb) (zlen all)) = Some (chunk i).
Proof using Hlpb.
  clear Hbs_max Hbs Hall. intros Hi Hl. apply get_range_ok; nia. Qed.

(** Cutting the leaves into chunks and joining them is the identity. *)
Lemma concat_chunks n i : 0 <= i -> zlen all <= (i + Z.of_nat n) * lpb ->
  concat (chunk <$> seqZ i (Z.of_nat n)) = drop (Z.to_nat (i * lpb)) all.
Proof using Hlpb.
  clear Hbs_max Hbs Hall. revert i. induction n as [|n IH]; intros i Hi Hn.
  { simpl. rewrite drop_ge by (unfold zlen in *; nia). done. }
  rewrite seqZ_cons by lia. replace (Z.pred (Z.of_nat (S n))) with (Z.of_nat n) by lia.
  rewrite fmap_cons. cbn [concat]. rewrite IH by lia. unfold chunk, slice.
  destruct (Z.le_gt_cases (zlen all) (i * lpb)) as [Hle|Hgt].
  { rewrite !(drop_ge all) by (unfold zlen in *; nia). by rewrite take_nil. }
  replace (Z.to_nat (Z.succ i * lpb)) with (Z.to_nat (i * lpb) + Z.to_nat lpb)%nat by nia.
  rewrite <- drop_drop. set (r := drop (Z.to_nat (i * lpb)) all).
  rewrite <- (take_drop (Z.to_nat lpb) r) at 3. f_equal.
  assert (Hr : length r = (length all - Z.to_nat (i * lpb))%nat) by apply length_drop.
  destruct (Z.le_gt_cases ((i + 1) * lpb) (zlen all)).
  - f_equal. nia.
  - rewrite !take_ge; [done|unfold zlen in *; nia..].
Qed.

Definition leaf_header (ls : list ExtentLeaf.t) : ExtentHeader.t := header_of (zlen ls) lpb 0.

(** A block that holds the leaves [ls]. *)
Definition holds (b : buffer) (ls : list ExtentLeaf.t) : Prop :=
  zlen b = bs /\ exists post, b = ds_bytes (leaf_header ls) ++ table ls ++ post.

Lemma leaf_header_wf ls : zlen ls <= lpb -> ExtentHeader.wf (leaf_header ls).
Proof. intros H. pose proof (zlen_nonneg ls). apply header_wf; unfold uint; lia. Qed.

Lemma leaf_block_spec ls : Forall leaf_ok ls -> zlen ls <= lpb ->
  exists b, leaf_block ls lpb bs = Some b /\ holds b ls.
Proof.
  intros Hls Hn. pose proof (zlen_nonneg ls). pose proof (zlen_leaves ls Hls) as Ht.
  unfold leaf_block. rewrite !wrap_id by (unfold uint; lia). fold (header_of (zlen ls) lpb 0).
  pose proof (leaf_header_wf ls Hn) as Hwf.
  destruct (write_node (leaf_header ls) ls bs) as (buf & E & W); [done|by apply leaves_wf|lia|].
  unfold leaf_header in *. rewrite E. cbn [mbind option_bind].
  rewrite (W : write_table ExtentLeaf.SIZE ExtentLeaf.write_to _ _ _ = _).
  unfold usub. rewrite chk_some by (unfold uint, ExtentTail.SIZE; lia). cbn [mbind option_bind].
  set (pre := ds_bytes (header_of (zlen ls) lpb 0) ++ table ls ++
              replicate (Z.to_nat (bs - 12 - zlen (table ls) - 4)) 0).
  pose proof (header_bytes_zlen _ Hwf) as Hhl.
  assert (Hpre : zlen pre = bs - 4).
  { unfold pre. rewrite !zlen_app, zlen_replicate, Hhl by lia. lia. }
  replace (Z.to_nat (bs - 12 - zlen (table ls)))
    with (Z.to_nat (bs - 12 - zlen (table ls) - 4) + 4)%nat by lia.
  rewrite replicate_add, !app_assoc, <- !(app_assoc (ds_bytes _)). fold pre.
  set (tail := {| ExtentTail.checksum := 0 |}).
  assert (Htail : ExtentTail.wf tail) by (unfold ExtentTail.wf, uint; simpl; lia).
  pose proof (with_slice_write tail pre (replicate 4 0) [] Htail eq_refl
    : with_slice _ _ ExtentTail.SIZE (ExtentTail.write_to tail) = _) as T.
  rewrite Hpre, app_nil_r in T. exists (pre ++ ds_bytes tail). split; [rewrite app_nil_r in T; exact T|].
  split; [rewrite zlen_app, Hpre; exact (Z.sub_add 4 bs)|].
  unfold pre. eexists. by rewrite <- !app_assoc.
Qed.

(** [f'] agrees with [f] outside the bytes [lo, hi). *)
Definition preserved_outside (lo hi : Z) (f f' : buffer) : Prop :=
  (forall p n r, 0 <= p -> 0 <= n -> p + n <= lo \/ hi <= p ->
     file_read f p n = Some r -> file_read f' p n = Some r) /\
  (forall p, 0 <= p -> p < lo \/ hi <= p -> byte_at f' p = byte_at f p).

Lemma preserved_trans lo mid hi f1 f2 f3 :
  lo <= mid <= hi -> preserved_outside lo mid f1 f2 -> preserved_outside mid hi f2 f3 ->
  preserved_outside lo hi f1 f3.
Proof.
  intros Hm [H1 H1'] [H2 H2']. split.
  - intros p n r Hp Hn Ho Hr. apply H2; [lia..|]. apply H1; [lia..|done].
  - intros p Hp Ho. rewrite H2', H1' by lia. done.
Qed.

Lemma write_leaf_blocks_spec n i w cur :
  0 <= i -> 0 <= cur -> cur + Z.of_nat n < 2 ^ 32 ->
  (forall k, 0 <= k < Z.of_nat n -> (i + k) * lpb < zlen all) ->
  exists w', write_leaf_blocks n i all lpb bs w cur = Some (w', cur + Z.of_nat n) /\
    preserved_outside (cur * bs) ((cur + Z.of_nat n) * bs) w w' /\
    forall k, 0 <= k < Z.of_nat n ->
      exists b, file_read w' ((cur + k) * bs) bs = Some b /\ holds b (chunk (i + k)).
Proof.
  revert i w cur. induction n as [|n IH]; intros i w cur Hi Hc Hcn Hk.
  { exists w. cbn [Z.of_nat]. rewrite Z.add_0_r. split; [done|]. split; [by split|lia]. }
  assert (H0 : i * lpb < zlen all) by (rewrite <- (Z.add_0_r i); apply Hk; lia).
  pose proof (zlen_chunk i Hi H0).
  cbn [write_leaf_blocks]. rewrite chunk_range by done. cbn [mbind option_bind].
  destruct (leaf_block_spec (chunk i) (chunk_ok i)) as (b & -> & Hb); [lia|].
  cbn [mbind option_bind]. unfold uadd. rewrite chk_some by (unfold uint; lia). cbn [mbind option_bind].
  set (w1 := file_write w (cur * bs) b).
  destruct (IH (i + 1) w1 (cur + 1)) as (w' & -> & Hp & Hr); [lia..| |].
  { intros k Hk'. replace (i + 1 + k) with (i + (k + 1)) by lia. apply Hk. lia. }
  assert (Hw1 : preserved_outside (cur * bs) ((cur + 1) * bs) w w1).
  { split; [intros p m r Hp0 Hm Ho; apply file_read_write_miss; [nia|done|done|]; rewrite (proj1 Hb); lia|].
    intros p Hp0 Ho. unfold w1. rewrite byte_at_write by nia. rewrite (proj1 Hb).
    destruct (Z.leb_spec (cur * bs) p); [|done]. by rewrite (proj2 (Z.ltb_ge _ _)) by lia. }
  exists w'. split; [do 2 f_equal; lia|]. split.
  { replace (cur + Z.of_nat (S n)) with (cur + 1 + Z.of_nat n) by lia.
    eapply preserved_trans; [|done|done]. nia. }
  intros k Hk'. destruct (Z.eq_dec k 0) as [->|].
  - rewrite !Z.add_0_r. exists b. split; [|done]. apply (proj1 Hp); [nia|lia|nia|].
    pose proof (file_read_write_hit w (cur * bs) b) as E. rewrite (proj1 Hb) in E. apply E. nia.
  - destruct (Hr (k - 1)) as (b' & Hb' & Hh); [lia|].
    replace (cur + 1 + (k - 1)) with (cur + k) in Hb' by lia.
    replace (i + 1 + (k - 1)) with (i + k) in Hh by lia. eauto.
Qed.

(** The index entries of the blocks [cur], [cur + 1], ... *)
Definition index_ok (cur i : Z) (x : ExtentIndex.t) : Prop :=
  ExtentIndex.wf x /\ x.(ExtentIndex.leaf_lo) = cur + i /\ x.(ExtentIndex.leaf_hi) = 0.

Lemma index_entries_spec cur n :
  0 <= cur -> cur + n < 2 ^ 32 -> (forall k, 0 <= k < n -> k * lpb < zlen all) ->
  exists xs, mapM (index_entry all lpb cur) (seqZ 0 n) = Some xs /\
    Forall2 (index_ok cur) (seqZ 0 n) xs.
Proof.
  intros Hc Hcn Hk.
  assert (Hex : Forall (fun i => exists x, index_entry all lpb cur i = Some x /\ index_ok cur i x) (seqZ 0 n)).
  { apply Forall_seqZ. intros i Hi. unfold index_entry.
    destruct (lookup_lt_is_Some_2 all (Z.to_nat (i * lpb))) as [l Hl].
    { specialize (Hk i). unfold zlen in Hk. nia. }
    rewrite Hl. unfold uadd. cbn [mbind option_bind]. rewrite chk_some by (unfold uint; lia).
    eexists. split; [done|]. apply (Forall_lookup_1 _ _ _ _ Hall) in Hl as [(? & _) _].
    repeat split; simpl; unfold uint in *; lia. }
  clear Hk Hcn. induction Hex as [|i ixs (x & Hx & Hok) _ (xs & Hxs & Hoks)].
  - exists []. done.
  - exists (x :: xs). cbn [mapM]. rewrite Hx. cbn [mbind option_bind]. rewrite Hxs. by split; [|constructor].
Qed.

Lemma read_index_spec cur i x pre post f b :
  index_ok cur i x -> 0 <= cur + i < 2 ^ 32 ->
  file_read f ((cur + i) * bs) bs = Some b -> holds b (chunk i) -> zlen (chunk i) <= lpb ->
  read_index (pre ++ ds_bytes x ++ post) bs f (zlen pre) = Ok (parsed <$> chunk i).
Proof.
  intros (Hwf & Hlo & Hhi) Hci Hr (Hbl & rest & ->) Hn. unfold read_index.
  pose proof (ds_bytes_zlen x Hwf : _ = 12) as Hl. pose proof (zlen_nonneg post).
  rewrite (proj2 (Z.ltb_ge _ _)) by (rewrite !zlen_app; unfold ExtentIndex.SIZE; lia).
  pose proof (read_at x pre post Hwf : ExtentIndex.read_from _ = _) as E. rewrite E. cbn [lift obind].
  rewrite ExtentIndex.leaf_eq, Hlo, Hhi by done. rewrite Z.mul_0_l, Z.add_0_r.
  unfold umul. rewrite chk_some by (unfold uint; nia). cbn [lift obind]. rewrite Hr. cbn [ok_or obind].
  pose proof (leaf_header_wf _ Hn) as Hh. rewrite read_header by done. cbn [lift obind].
  simpl negb. cbn iota. unfold leaf_header, header_of. cbn [ExtentHeader.entries orb].
  fold (header_of (zlen (chunk i)) lpb 0).
  rewrite <- (header_bytes_zlen _ Hh : _ = ExtentHeader.SIZE). unfold zlen at 1. rewrite Nat2Z.id.
  apply read_leaves_spec, chunk_ok.
Qed.

Lemma read_indices_spec cur f ixs xs pre post :
  Forall2 (index_ok cur) ixs xs ->
  Forall (fun i => 0 <= cur + i < 2 ^ 32 /\ zlen (chunk i) <= lpb /\
    exists b, file_read f ((cur + i) * bs) bs = Some b /\ holds b (chunk i)) ixs ->
  read_indices (length xs) (zlen pre) (pre ++ table xs ++ post) bs f =
    Ok (parsed <$> concat (chunk <$> ixs)).
Proof.
  intros H2. revert pre. induction H2 as [|i x ixs xs Hx H2 IH]; intros pre Hf; [done|].
  apply Forall_cons_1 in Hf as [(Hci & Hn & b & Hb & Hh) Hf].
  rewrite table_cons, <- app_assoc. cbn [length read_indices].
  rewrite (read_index_spec cur i x pre _ f b) by done. cbn [obind].
  replace (zlen pre + ExtentIndex.SIZE) with (zlen (pre ++ ds_bytes x)) by (by rewrite zlen_app).
  rewrite app_assoc, IH by done. cbn [obind]. by rewrite fmap_cons; cbn [concat]; rewrite fmap_app.
Qed.
End Indexed.

(** ** Writing an extent tree *)

(** What [write_extents] guarantees: the tree reads back as the physical blocks
    of [blocks], and only the blocks [cur, cur') of the output are touched. *)
Definition extents_written (blocks : list BlockRange) (bs : Z) (f : buffer) (cur : Z)
    (inode' : Inode.t) (f' : buffer) (cur' : Z) : Prop :=
  (exists ranges, parse_extents inode' bs f' = Ok ranges /\
     concat (parsed_blocks <$> ranges) = concat (range_blocks <$> blocks)) /\
  cur <= cur' <= cur + 4 /\ preserved_outside (cur * bs) (cur' * bs) f f'.

Lemma div_ceil_index k n d : 0 < d -> 0 <= n -> 0 <= k < div_ceil n d -> k * d < n.
Proof.
  intros Hd Hn Hk. destruct (div_ceil_spec n d Hn Hd) as [[H _]|[-> H]]; [nia|lia].
Qed.

Lemma leaves_per_block_spec bs :
  1024 <= bs <= 65536 -> leaves_per_block bs = Some ((bs - 16) / 12) /\
  84 <= (bs - 16) / 12 <= 5460 /\ 12 + 12 * ((bs - 16) / 12) + 4 <= bs.
Proof.
  intros Hbs. pose proof (Z.div_mod (bs - 16) 12). pose proof (Z.mod_pos_bound (bs - 16) 12).
  split; [|lia]. unfold leaves_per_block, usub, ExtentHeader.SIZE, ExtentTail.SIZE, ExtentLeaf.SIZE.
  rewrite chk_some by (unfold uint; lia). cbn [mbind option_bind].
  rewrite chk_some by (unfold uint; lia). cbn [mbind option_bind]. do 2 f_equal. lia.
Qed.

(** Reading a depth-1 tree whose leaf blocks hold the chunks of [all]. *)
Lemma parse_indexed inode all lpb bs f cur num xs post :
  Forall leaf_ok all -> 0 < lpb -> 12 + 12 * lpb + 4 <= bs -> bs <= 65536 ->
  0 <= num <= 4 -> zlen all <= num * lpb -> 0 <= cur -> cur + 4 < 2 ^ 32 ->
  (forall k, 0 <= k < num -> k * lpb < zlen all) ->
  Forall2 (index_ok cur) (seqZ 0 num) xs ->
  (forall k, 0 <= k < num ->
     exists b, file_read f ((cur + k) * bs) bs = Some b /\ holds lpb bs b (chunk all lpb k)) ->
  inode.(Inode.block) = ds_bytes (header_of num 4 1) ++ table xs ++ post ->
  parse_extents inode bs f = Ok (parsed <$> all).
Proof.
  intros Hall Hlpb Hbs Hbs' Hnum Hcov Hc Hc4 Hk Hxs Hr E.
  assert (Hh : ExtentHeader.wf (header_of num 4 1)) by (apply header_wf; unfold uint; lia).
  unfold parse_extents. rewrite E, read_header by done. cbn [lift obind]. simpl negb. cbn iota.
  unfold parse_depth1. cbn [header_of ExtentHeader.depth ExtentHeader.entries].
  change (1 =? 0) with false. change (1 =? 1) with true. cbn iota. fold (header_of num 4 1).
  rewrite <- (header_bytes_zlen _ Hh : _ = ExtentHeader.SIZE).
  replace (Z.to_nat num) with (length xs)
    by (apply Forall2_length in Hxs; rewrite length_seqZ in Hxs; lia).
  rewrite (read_indices_spec all lpb bs Hall Hlpb Hbs Hbs' cur f (seqZ 0 num) xs); [|done|].
  - pose proof (concat_chunks all lpb Hlpb (Z.to_nat num) 0) as Hcc.
    rewrite Z2Nat.id in Hcc by lia. by rewrite Hcc by lia.
  - apply Forall_seqZ. intros i Hi. split; [lia|]. split; [|by apply Hr].
    apply zlen_chunk; [done|lia|]. by apply Hk.
Qed.

Lemma write_indexed_spec inode n all bs f cur :
  Forall leaf_ok all -> 1024 <= bs <= 65536 -> zlen all <= 4 * ((bs - 16) / 12) ->
  0 <= n -> 0 <= cur -> cur + 4 < 2 ^ 32 -> 0 <= inode.(Inode.blocks_lo) ->
  inode.(Inode.blocks_lo) + (n + 4) * (bs / 512) < 2 ^ 32 -> n + 4 < 2 ^ 32 ->
  exists inode' f' cur', write_indexed_extents inode n all bs f cur = Some (inode', f', cur') /\
    parse_extents inode' bs f' = Ok (parsed <$> all) /\
    cur <= cur' <= cur + 4 /\ preserved_outside (cur * bs) (cur' * bs) f f'.
Proof.
  intros Hall Hbs Hfit Hn Hc Hc4 Hb Hbn Hn4. unfold write_indexed_extents.
  destruct (leaves_per_block_spec bs Hbs) as (-> & Hlpb & Hlpb'). cbn [mbind option_bind].
  set (lpb := (bs - 16) / 12) in *. pose proof (zlen_nonneg all).
  rewrite (wrap_id 32 lpb), (wrap_id 32 (zlen all)) by (unfold uint; lia).
  rewrite (proj2 (Z.eqb_neq lpb 0)) by lia. cbn [mbind option_bind].
  set (num := div_ceil (zlen all) lpb).
  pose proof (div_ceil_bounds (zlen all) lpb ltac:(lia) ltac:(lia)) as Hnum. fold num in Hnum.
  assert (0 <= num <= 4) by nia.
  rewrite (proj2 (Z.leb_le num 4)) by lia. cbn [debug_assert mbind option_bind].
  assert (Hk : forall k, 0 <= k < num -> k * lpb < zlen all) by (intros; apply div_ceil_index; lia).
  destruct (index_entries_spec all lpb Hall ltac:(lia) cur num) as (xs & -> & Hxs); [lia..|done|].
  cbn [mbind option_bind]. rewrite wrap_id by (unfold uint; lia). fold (header_of num 4 1).
  assert (Hwf : Forall ExtentIndex.wf xs) by (clear -Hxs; induction Hxs as [|????[? _]]; by constructor).
  assert (Ht : zlen (table xs) = 12 * num).
  { pose proof (zlen_table xs Hwf : _ = 12 * zlen xs) as ->.
    apply Forall2_length in Hxs. rewrite length_seqZ in Hxs. unfold zlen. lia. }
  destruct (write_node (header_of num 4 1) xs INODE_BLOCK_SIZE) as (buf & -> & W);
    [apply header_wf; unfold uint; lia|done|unfold INODE_BLOCK_SIZE; lia|].
  cbn [mbind option_bind]. rewrite (W : write_table ExtentIndex.SIZE ExtentIndex.write_to _ _ _ = _).
  cbn [mbind option_bind].
  destruct (write_leaf_blocks_spec all lpb bs Hall ltac:(lia) ltac:(lia) ltac:(lia)
              (Z.to_nat num) 0 f cur) as (f' & -> & Hp & Hr); [lia..| |].
  { intros k Hk'. apply Hk. lia. }
  cbn [mbind option_bind fst snd]. unfold uadd. rewrite chk_some by (unfold uint; lia).
  cbn [mbind option_bind]. assert (0 <= bs / 512) by (apply Z.div_pos; lia).
  rewrite add_inode_blocks_ok by (simpl; nia). cbn [mbind option_bind].
  rewrite Z2Nat.id in * by lia.
  do 3 eexists. split; [done|]. split; [|split; [lia|done]].
  eapply (parse_indexed _ all lpb bs f' cur num xs); done || lia.
Qed.

(** The whole write path, read back. *)
Lemma write_extents_spec inode blocks bs f cur :
  Forall range_ok blocks -> 0 < zsum (size_of <$> blocks) ->
  zsum (size_of <$> blocks) + 4 < 2 ^ 32 -> 1024 <= bs <= 65536 ->
  zsum (extents_of ∘ size_of <$> blocks) <= 4 * ((bs - 16) / 12) ->
  0 <= cur -> cur + 4 < 2 ^ 32 -> 0 <= inode.(Inode.blocks_lo) ->
  inode.(Inode.blocks_lo) + (zsum (size_of <$> blocks) + 4) * (bs / 512) < 2 ^ 32 ->
  exists inode' f' cur', write_extents inode blocks bs f cur = Some (inode', f', cur') /\
    extents_written blocks bs f cur inode' f' cur'.
Proof.
  intros Hr Hpos Hs Hbs Hfit Hc Hc4 Hb Hbn. unfold write_extents.
  rewrite mapM_range_len by done. cbn [mbind option_bind].
  rewrite sum_u32_spec by (by apply sizes_nonneg || lia). cbn [mbind option_bind].
  rewrite Z.add_0_l, (proj2 (Z.eqb_neq _ 0)) by lia.
  destruct (fill_spec blocks Hr ltac:(lia)) as (ls & -> & Hok & _ & _ & Hblk & Hlen).
  cbn [mbind option_bind]. pose proof (extents_sum_bounds _ Hr).
  rewrite wrap_id by (unfold uint; lia).
  assert (Hpb : concat (parsed_blocks <$> (parsed <$> ls)) = concat (range_blocks <$> blocks))
    by (by rewrite parsed_blocks_parsed).
  assert (0 <= bs / 512) by (apply Z.div_pos; lia).
  destruct (Z.leb_spec (zlen ls) 4) as [Hi|Hi].
  - destruct (write_inline_spec inode (zsum (size_of <$> blocks)) ls bs) as (inode' & post & -> & Hblock & _);
      [done|lia..|nia|].
    cbn [mbind option_bind]. do 3 eexists. split; [done|]. split; [|split; [lia|by split]].
    exists (parsed <$> ls). split; [|done].
    pose proof (zlen_nonneg ls). eapply parse_inline; [done|..|done]; unfold uint; lia.
  - destruct (write_indexed_spec inode (zsum (size_of <$> blocks)) ls bs f cur)
      as (inode' & f' & cur' & -> & Hp & Hcur & Hpres); [done|lia..|].
    do 3 eexists. split; [done|]. split; [by eexists|done].
Qed.

(** C1 extents_roundtrip: An extent tree written for any block ranges reads back as exactly the
    physical blocks of those ranges in file order, whether it fits in the inode
    or needs leaf blocks, and writing it changes nothing of the output outside
    the leaf blocks it allocates.  The hypotheses are the format's limits: 32-bit
    block numbers and counts, and at most four leaf blocks; the ranges hold at least one
    block. *)
Theorem extents_roundtrip inode blocks bs f cur :
  Forall range_ok blocks -> 0 < zsum (size_of <$> blocks) ->
  zsum (size_of <$> blocks) + 4 < 2 ^ 32 -> 1024 <= bs <= 65536 ->
  zsum (extents_of ∘ size_of <$> blocks) <= 4 * ((bs - 16) / 12) ->
  0 <= cur -> cur + 4 < 2 ^ 32 -> 0 <= inode.(Inode.blocks_lo) ->
  inode.(Inode.blocks_lo) + (zsum (size_of <$> blocks) + 4) * (bs / 512) < 2 ^ 32 ->
  exists inode' f' cur', write_extents inode blocks bs f cur = Some (inode', f', cur') /\
    extents_written blocks bs f cur inode' f' cur'.
Proof. apply write_extents_spec. Qed.

(** The leaves built for a file start at logical block 0, follow each other
    without gap, hold 1 to [MAX_BLOCKS_PER_EXTENT] blocks each and spell out the
    physical blocks of the ranges in order; there are as many as each range
    needs on its own. *)
Theorem leaves_cover blocks :
  Forall range_ok blocks -> zsum (size_of <$> blocks) < 2 ^ 32 ->
  exists ls, fill_extent_leaves_from_ranges blocks = Some ls /\
    Forall leaf_ok ls /\ contiguous 0 ls /\ leaves_len ls = zsum (size_of <$> blocks) /\
    concat (leaf_blocks <$> ls) = concat (range_blocks <$> blocks) /\
    zlen ls = zsum (extents_of ∘ size_of <$> blocks).
Proof. apply fill_spec. Qed.

Definition five_ranges : list BlockRange :=
  [mk_range 10 20; mk_range 30 35; mk_range 40 41; mk_range 50 52; mk_range 60 63].

Lemma extents_roundtrip_witness :
  exists inode' f' cur', write_extents Inode.default five_ranges 1024 [] 70 = Some (inode', f', cur') /\
    extents_written five_ranges 1024 [] 70 inode' f' cur'.
Proof.
  apply (extents_roundtrip Inode.default five_ranges 1024 [] 70);
    [repeat constructor; by vm_compute|by vm_compute..].
Defined.

Lemma leaves_cover_witness :
  exists ls, fill_extent_leaves_from_ranges [mk_range 7 0x10009] = Some ls /\
    Forall leaf_ok ls /\ contiguous 0 ls /\ leaves_len ls = 0x10002 /\
    concat (leaf_blocks <$> ls) = concat (range_blocks <$> [mk_range 7 0x10009]) /\ zlen ls = 3.
Proof.
  apply (leaves_cover [mk_range 7 0x10009]); [|by vm_compute].
  repeat constructor; by vm_compute.
Defined.
