(* ===== verification/Xattr.v ===== *)
(** * Extended attributes

    [common/ext4/src/xattr.rs]: names with a prefix table, the two storage areas
    of an inode ([XattrState]), and their serialisation.  Names and values are
    byte lists. *)

From stdpp Require Import base list option numbers strings sorting.
From S2P Require Import Prelude Bytes Utf8 Constants DiskTypes Errors Image.

Definition XATTR_PREFIXES : list (Z * buffer) :=
  [(1, bstr "user."); (2, bstr "system.posix_acl_access"); (3, bstr "system.posix_acl_default");
   (4, bstr "trusted."); (6, bstr "security."); (7, bstr "system."); (8, bstr "system.richacl")].

(** [struct ExtendedAttribute] *)
Record ExtendedAttribute := mk_attr { ea_name : buffer; ea_index : Z; ea_value : buffer }.

(** [str::starts_with], with the name first *)
Definition has_prefix (name prefix : buffer) : bool :=
  bool_decide (take (length prefix) name = prefix).

(** One turn of the loop over the table: keep the longest matching prefix. *)
Definition longer_prefix (name : buffer) (best : Z * Z) (entry : Z * buffer) : Z * Z :=
  if has_prefix name entry.2 && (best.2 <? zlen entry.2) then (entry.1, zlen entry.2) else best.

Definition compress_name (name : buffer) : Z * buffer :=
  let best := fold_left (longer_prefix name) XATTR_PREFIXES (0, 0) in
  (best.1, drop (Z.to_nat best.2) name).

Fixpoint decompress_with (table : list (Z * buffer)) (index : Z) (suffix : buffer) : buffer :=
  match table with
  | [] => suffix
  | (idx, prefix) :: table =>
      if idx =? index then prefix ++ suffix else decompress_with table index suffix
  end.

Definition decompress_name : Z -> buffer -> buffer := decompress_with XATTR_PREFIXES.

(** [ExtendedAttribute::new] *)
Definition new_attr (full_name value : buffer) : ExtendedAttribute :=
  let c := compress_name full_name in mk_attr c.2 c.1 value.

Definition entry_size (a : ExtendedAttribute) : Z := wrap 32 (align_up (zlen a.(ea_name) + 16) 4).
Definition value_size (a : ExtendedAttribute) : Z := wrap 32 (align_up (zlen a.(ea_value)) 4).
Definition total_size (a : ExtendedAttribute) : option Z := uadd 32 (entry_size a) (value_size a).

(** ** The hash *)

Definition NAME_HASH_SHIFT : Z := 5.
Definition VALUE_HASH_SHIFT : Z := 16.

(** [(h << s) ^ (h >> (32 - s)) ^ x] on [u32] *)
Definition mix (s h x : Z) : Z :=
  Z.lxor (Z.lxor (wrap 32 (Z.shiftl h s)) (Z.shiftr h (8 * 4 - s))) x.

(** Full little-endian words, then the trailing bytes padded with zeros. *)
Fixpoint hash_value (h : Z) (value : buffer) : Z :=
  match value with
  | b0 :: b1 :: b2 :: b3 :: rest => hash_value (mix VALUE_HASH_SHIFT h (from_le_bytes [b0; b1; b2; b3])) rest
  | [] => h
  | tail => mix VALUE_HASH_SHIFT h (from_le_bytes (take 4 (tail ++ [0; 0; 0; 0])))
  end.

Definition hash (a : ExtendedAttribute) : Z :=
  hash_value (fold_left (mix NAME_HASH_SHIFT) a.(ea_name) 0) a.(ea_value).

(** ** [struct XattrState] *)

Record XattrState := mk_state {
  inode_capacity : Z; block_capacity : Z;
  inline_attrs : list ExtendedAttribute; block_attrs : list ExtendedAttribute;
  used_inline : Z; used_block : Z; inode_number : Z }.

(** [XattrState::new] *)
Definition new_state (inode inode_capacity block_capacity : Z) : XattrState :=
  {| inode_capacity := inode_capacity; block_capacity := block_capacity;
     inline_attrs := []; block_attrs := [];
     used_inline := XATTR_INODE_HEADER_SIZE; used_block := XATTR_BLOCK_HEADER_SIZE;
     inode_number := inode |}.

(** [XattrState::add] *)
Definition add (st : XattrState) (attr : ExtendedAttribute) : outcome FormatError XattrState :=
  if EXT4_NAME_LEN <? zlen attr.(ea_name)
  then Err (InvalidName (decompress_name attr.(ea_index) attr.(ea_name)))
  else
    total <-! total_size attr ;;
    inl <-! (a ← uadd 32 st.(used_inline) total; uadd 32 a 4) ;;
    if inl <=? st.(inode_capacity) then
      Ok {| inode_capacity := st.(inode_capacity); block_capacity := st.(block_capacity);
            inline_attrs := st.(inline_attrs) ++ [attr]; block_attrs := st.(block_attrs);
            used_inline := st.(used_inline) + total; used_block := st.(used_block);
            inode_number := st.(inode_number) |}
    else
      blk <-! (a ← uadd 32 st.(used_block) total; uadd 32 a 4) ;;
      if blk <=? st.(block_capacity) then
        Ok {| inode_capacity := st.(inode_capacity); block_capacity := st.(block_capacity);
              inline_attrs := st.(inline_attrs); block_attrs := st.(block_attrs) ++ [attr];
              used_inline := st.(used_inline); used_block := st.(used_block) + total;
              inode_number := st.(inode_number) |}
      else Err (XattrInsufficientSpace st.(inode_number)).

Definition has_inline (st : XattrState) : bool := negb (bool_decide (st.(inline_attrs) = [])).
Definition has_block (st : XattrState) : bool := negb (bool_decide (st.(block_attrs) = [])).

(** [fn write_xattr_entry] *)
Definition write_xattr_entry (name : buffer) (name_index value_offset value_size hash : Z)
    (buf : buffer) : option buffer :=
  buf ← put_u8 buf 0 (wrap 8 (zlen name));
  buf ← put_u8 buf 1 name_index;
  buf ← put_bytes buf 2 (to_le_bytes 2 value_offset);
  buf ← put_bytes buf 4 (to_le_bytes 4 0);
  buf ← put_bytes buf 8 (to_le_bytes 4 value_size);
  buf ← put_bytes buf 12 (to_le_bytes 4 hash);
  put_bytes buf 16 name.

(** The loop both serialisers run: entries grow from the front, values from the
    back.  [rel] is what the value offset is relative to, [hash_of] the hash
    stored with an entry. *)
Fixpoint write_attrs (rel : Z) (hash_of : ExtendedAttribute -> Z) (attrs : list ExtendedAttribute)
    (buf : buffer) (entry_offset value_end : Z) : outcome FormatError buffer :=
  match attrs with
  | [] => Ok buf
  | attr :: attrs =>
      let val_size_aligned := align_up (zlen attr.(ea_value)) 4 in
      value_end <-! usub 64 value_end val_size_aligned ;;
      rel_value_offset <-! usub 64 value_end rel ;;
      if zlen buf <? entry_offset + 16 + zlen attr.(ea_name) then Err MalformedXattrBuffer
      else
        buf <-! with_slice buf entry_offset (zlen buf - entry_offset)
          (write_xattr_entry attr.(ea_name) attr.(ea_index) (wrap 16 rel_value_offset)
             (wrap 32 (zlen attr.(ea_value))) (hash_of attr)) ;;
        let entry_offset := entry_offset + align_up (16 + zlen attr.(ea_name)) 4 in
        buf <-! put_bytes buf value_end attr.(ea_value) ;;
        write_attrs rel hash_of attrs buf entry_offset value_end
  end.

(** [XattrState::write_inline] *)
Definition write_inline (st : XattrState) : outcome FormatError buffer :=
  let capacity := st.(inode_capacity) in
  let buf := replicate (Z.to_nat capacity) 0 in
  buf <-! put_bytes buf 0 (to_le_bytes 4 XATTR_HEADER_MAGIC) ;;
  write_attrs XATTR_INODE_HEADER_SIZE (fun _ => 0) st.(inline_attrs) buf XATTR_INODE_HEADER_SIZE capacity.

(** The comparison of [write_block]: index, then name length, then name. *)
Fixpoint bytes_cmp (a b : buffer) : comparison :=
  match a, b with
  | [], [] => Eq
  | [], _ => Lt
  | _, [] => Gt
  | x :: a, y :: b => match x ?= y with Eq => bytes_cmp a b | c => c end
  end.

Definition attr_cmp (a b : ExtendedAttribute) : comparison :=
  match a.(ea_index) ?= b.(ea_index) with
  | Eq => match zlen a.(ea_name) ?= zlen b.(ea_name) with
          | Eq => bytes_cmp a.(ea_name) b.(ea_name)
          | c => c
          end
  | c => c
  end.

(** [slice::sort_by], a stable sort. *)
Fixpoint insert_attr (a : ExtendedAttribute) (l : list ExtendedAttribute) : list ExtendedAttribute :=
  match l with
  | [] => [a]
  | b :: l => match attr_cmp a b with Gt => b :: insert_attr a l | _ => a :: b :: l end
  end.

Definition sort_attrs (l : list ExtendedAttribute) : list ExtendedAttribute := foldr insert_attr [] l.

(** [XattrState::write_block] *)
Definition write_block (st : XattrState) : outcome FormatError buffer :=
  let capacity := st.(block_capacity) in
  let buf := replicate (Z.to_nat capacity) 0 in
  buf <-! put_bytes buf 0 (to_le_bytes 4 XATTR_HEADER_MAGIC) ;;
  buf <-! put_bytes buf 4 (to_le_bytes 4 1) ;;
  buf <-! put_bytes buf 8 (to_le_bytes 4 1) ;;
  write_attrs 0 hash (sort_attrs st.(block_attrs)) buf XATTR_BLOCK_HEADER_SIZE capacity.

(** ** Names *)

Lemma longer_prefix_inv name table best :
  let r := fold_left (longer_prefix name) table best in
  best.2 <= r.2 /\
  (forall e, e ∈ table -> has_prefix name e.2 = true -> zlen e.2 <= r.2) /\
  (r = best \/ exists e, e ∈ table /\ has_prefix name e.2 = true /\ r = (e.1, zlen e.2)).
Proof.
  revert best. induction table as [|e table IH]; intros best; cbn [fold_left].
  { split; [lia|]. split; [by intros e ?%elem_of_nil|by left]. }
  destruct (IH (longer_prefix name best e)) as (Hle & Hall & Hr).
  assert (Hstep : longer_prefix name best e = best /\ (has_prefix name e.2 = true -> zlen e.2 <= best.2) \/
                  longer_prefix name best e = (e.1, zlen e.2) /\ has_prefix name e.2 = true /\
                  best.2 < zlen e.2).
  { unfold longer_prefix. destruct (has_prefix name e.2); simpl; [|by left].
    destruct (Z.ltb_spec best.2 (zlen e.2)); [by right|left; split; [done|lia]]. }
  destruct Hstep as [[Hs Hn]|(Hs & Hp & Hlt)]; rewrite Hs in *; simpl in Hle.
  - split; [done|]. split.
    + intros e' [->|He']%elem_of_cons Hsw; [|by apply Hall]. specialize (Hn Hsw). lia.
    + destruct Hr as [Hr|(e' & He' & Hr)]; [by left|]. right. exists e'. split; [by right|done].
  - split; [lia|]. split.
    + intros e' [->|He']%elem_of_cons Hsw; [done|by apply Hall].
    + right. destruct Hr as [Hr|(e' & He' & Hr)]; [exists e|exists e'].
      * split; [by left|done].
      * split; [by right|done].
Qed.

Lemma has_prefix_app name p : has_prefix name p = true -> p ++ drop (length p) name = name.
Proof. unfold has_prefix. rewrite bool_decide_eq_true. intros H. rewrite <- H at 1. apply take_drop. Qed.

(** Compressing an attribute name and decompressing it gives the name back,
    and no prefix of the table that matches the name is longer than the one
    taken out. *)
Theorem compress_name_roundtrip name :
  let c := compress_name name in
  decompress_name c.1 c.2 = name /\
  forall e, e ∈ XATTR_PREFIXES -> has_prefix name e.2 = true -> zlen c.2 <= zlen name - zlen e.2.
Proof.
  intros c. pose proof (longer_prefix_inv name XATTR_PREFIXES (0, 0)) as (Hle & Hall & Hr).
  unfold c, compress_name. set (r := fold_left (longer_prefix name) XATTR_PREFIXES (0, 0)) in *.
  clearbody r. cbn [fst snd] in *. split.
  - destruct Hr as [->|(e & He & Hs & ->)]; [done|]. cbn [fst snd]. unfold zlen. rewrite Nat2Z.id.
    apply has_prefix_app in Hs. rewrite <- Hs at 2.
    repeat (apply elem_of_cons in He as [->|He]; [reflexivity|]). by apply elem_of_nil in He.
  - intros e He Hs. specialize (Hall e He Hs). rewrite zlen_drop by lia.
    apply has_prefix_app in Hs. apply (f_equal zlen) in Hs. rewrite zlen_app in Hs.
    pose proof (zlen_nonneg (drop (length e.2) name)). lia.
Qed.

(** ** Placement *)

Definition footprint (a : ExtendedAttribute) : Z :=
  align_up (16 + zlen a.(ea_name)) 4 + align_up (zlen a.(ea_value)) 4.

(** An attribute of [ExtendedAttribute::new] whose value is of a sane size. *)
Definition attr_ok (a : ExtendedAttribute) : Prop :=
  bytes_ok a.(ea_name) /\ bytes_ok a.(ea_value) /\ uint 8 a.(ea_index) /\ zlen a.(ea_value) < 2 ^ 30.

Definition placed_ok (cap used header : Z) (attrs : list ExtendedAttribute) : Prop :=
  used = header + zsum (footprint <$> attrs) /\ (attrs <> [] -> used + 4 <= cap) /\
  Forall (fun a => attr_ok a /\ zlen a.(ea_name) <= EXT4_NAME_LEN) attrs.

Definition xattr_inv (st : XattrState) : Prop :=
  uint 31 st.(inode_capacity) /\ uint 31 st.(block_capacity) /\
  placed_ok st.(inode_capacity) st.(used_inline) XATTR_INODE_HEADER_SIZE st.(inline_attrs) /\
  placed_ok st.(block_capacity) st.(used_block) XATTR_BLOCK_HEADER_SIZE st.(block_attrs).

Lemma footprint_bounds a : 16 <= footprint a /\
  footprint a < 16 + zlen a.(ea_name) + zlen a.(ea_value) + 8 /\
  16 + zlen a.(ea_name) + zlen a.(ea_value) <= footprint a.
Proof.
  unfold footprint. pose proof (zlen_nonneg a.(ea_name)). pose proof (zlen_nonneg a.(ea_value)).
  destruct (align_up_4 (16 + zlen (ea_name a))) as [? _]; [lia|].
  destruct (align_up_4 (zlen (ea_value a))) as [? _]; [lia|]. lia.
Qed.

Lemma total_size_ok a :
  attr_ok a -> zlen a.(ea_name) <= EXT4_NAME_LEN -> total_size a = Some (footprint a).
Proof.
  intros (_ & _ & _ & Hv) Hn. unfold EXT4_NAME_LEN in Hn.
  pose proof (zlen_nonneg a.(ea_name)). pose proof (zlen_nonneg a.(ea_value)).
  unfold total_size, entry_size, value_size, footprint.
  destruct (align_up_4 (16 + zlen (ea_name a))) as [? _]; [lia|].
  destruct (align_up_4 (zlen (ea_value a))) as [? _]; [lia|].
  replace (zlen (ea_name a) + 16) with (16 + zlen (ea_name a)) by lia.
  rewrite !wrap_id by (unfold uint; lia). apply chk_some. unfold uint. lia.
Qed.

Lemma placed_snoc cap used header attrs a :
  placed_ok cap used header attrs -> attr_ok a -> zlen a.(ea_name) <= EXT4_NAME_LEN ->
  used + footprint a + 4 <= cap -> placed_ok cap (used + footprint a) header (attrs ++ [a]).
Proof.
  intros (Hu & _ & Hf) Ha Hn Hc. split; [|split].
  - rewrite fmap_app, zsum_app, Hu. simpl. lia.
  - intros _. done.
  - apply Forall_app. split; [done|]. by constructor.
Qed.

Lemma placed_used cap used header attrs :
  placed_ok cap used header attrs -> uint 31 cap -> 0 <= header <= 32 -> 0 <= used < 2 ^ 31.
Proof.
  intros (Hu & Hf & _) [_ Hc] Hh. assert (0 <= zsum (footprint <$> attrs)).
  { apply zsum_nonneg, Forall_fmap, Forall_true. intros a. unfold compose. pose proof (footprint_bounds a). lia. }
  destruct attrs; [simpl in *; lia|]. specialize (Hf ltac:(done)). lia.
Qed.

(** Every outcome of [add]: no panic; a new attribute goes into exactly one area
    that has room for it and its terminator; the error means neither has. *)
Lemma add_cases st a :
  xattr_inv st -> attr_ok a -> zlen a.(ea_name) <= EXT4_NAME_LEN ->
  (exists st', add st a = Ok st' /\ xattr_inv st' /\
     ((inline_attrs st' = inline_attrs st ++ [a] /\ block_attrs st' = block_attrs st) \/
      (inline_attrs st' = inline_attrs st /\ block_attrs st' = block_attrs st ++ [a] /\
       inode_capacity st < used_inline st + footprint a + 4))) \/
  (add st a = Err (XattrInsufficientSpace st.(inode_number)) /\
   inode_capacity st < used_inline st + footprint a + 4 /\
   block_capacity st < used_block st + footprint a + 4).
Proof.
  intros (Hci & Hcb & Hi & Hb) Ha Hn. unfold add.
  rewrite (proj2 (Z.ltb_ge _ _)), total_size_ok by done. cbn [lift obind].
  assert (0 <= used_inline st < 2 ^ 31) by (by eapply placed_used).
  assert (0 <= used_block st < 2 ^ 31) by (by eapply placed_used).
  assert (Hfp : 0 <= footprint a < 2 ^ 30 + 300).
  { destruct Ha as (_ & _ & _ & ?). unfold EXT4_NAME_LEN in Hn. pose proof (footprint_bounds a). lia. }
  unfold uadd. do 2 (rewrite chk_some by (unfold uint; lia); cbn [mbind option_bind lift obind]).
  destruct (Z.leb_spec (used_inline st + footprint a + 4) (inode_capacity st)).
  { left. eexists. split; [done|]. split; [|left; done].
    split; [done|]. split; [done|]. split; [by apply placed_snoc|done]. }
  do 2 (rewrite chk_some by (unfold uint; lia); cbn [mbind option_bind lift obind]).
  destruct (Z.leb_spec (used_block st + footprint a + 4) (block_capacity st)); [|by right].
  left. eexists. split; [done|]. split; [|right; done].
  split; [done|]. split; [done|]. split; [done|by apply placed_snoc].
Qed.

(** ** Serialisation *)

(** The ext4 on-disk format, read back: entries follow each other on 4-byte
    boundaries until four zero bytes; a value lies [base + value_offset] bytes
    into the area. *)
Fixpoint read_attrs (fuel : nat) (base : Z) (buf : buffer) (off : Z)
    : option (list (ExtendedAttribute * Z)) :=
  match fuel with
  | O => None
  | S fuel =>
      if bool_decide (slice off 4 buf = [0; 0; 0; 0]) then Some []
      else
        e ← XAttrEntry.read_from (drop (Z.to_nat off) buf);
        let name := slice (off + 16) e.(XAttrEntry.name_len) buf in
        let value := slice (base + e.(XAttrEntry.value_offset)) e.(XAttrEntry.value_size) buf in
        rest ← read_attrs fuel base buf (off + align_up (16 + e.(XAttrEntry.name_len)) 4);
        Some ((mk_attr name e.(XAttrEntry.name_index) value, e.(XAttrEntry.hash)) :: rest)
  end.

Definition header_for (a : ExtendedAttribute) (rel_off h : Z) : XAttrEntry.t :=
  {| XAttrEntry.name_len := zlen a.(ea_name); XAttrEntry.name_index := a.(ea_index);
     XAttrEntry.value_offset := rel_off; XAttrEntry.value_inum := 0;
     XAttrEntry.value_size := zlen a.(ea_value); XAttrEntry.hash := h |}.

Definition zeros (n : Z) : buffer := replicate (Z.to_nat n) 0.

Lemma zlen_zeros n : 0 <= n -> zlen (zeros n) = n.
Proof. apply zlen_replicate. Qed.

Lemma zeros_app n m : 0 <= n -> 0 <= m -> zeros (n + m) = zeros n ++ zeros m.
Proof. intros. unfold zeros. rewrite Z2Nat.inj_add by done. apply replicate_add. Qed.

(** [write_xattr_entry] is [XAttrEntry::write_to] followed by the name. *)
Lemma write_xattr_entry_spec a rel_off h buf :
  XAttrEntry.wf (header_for a rel_off h) -> 16 + zlen a.(ea_name) <= zlen buf ->
  write_xattr_entry a.(ea_name) a.(ea_index) rel_off (zlen a.(ea_value)) h buf =
    Some (ds_bytes (header_for a rel_off h) ++ a.(ea_name) ++ drop (Z.to_nat (16 + zlen a.(ea_name))) buf).
Proof.
  intros Hwf Hl. pose proof (zlen_nonneg a.(ea_name)).
  pose proof (ds_write_spec (header_for a rel_off h) buf Hwf : (16 <= _) -> XAttrEntry.write_to _ _ = _) as W.
  specialize (W ltac:(lia)). unfold XAttrEntry.write_to in W.
  rewrite (proj2 (Z.leb_le XAttrEntry.SIZE _)) in W by (unfold XAttrEntry.SIZE; lia).
  cbn [debug_assert mbind option_bind header_for XAttrEntry.name_len XAttrEntry.name_index
       XAttrEntry.value_offset XAttrEntry.value_inum XAttrEntry.value_size XAttrEntry.hash] in W.
  unfold write_xattr_entry. rewrite wrap_id by apply (proj1 Hwf).
  destruct (put_u8 buf 0 _) as [b0|]; cbn [mbind option_bind] in *; [|done].
  destruct (put_u8 b0 1 _) as [b1|]; cbn [mbind option_bind] in *; [|done].
  rewrite put_u16_spec in W by done.
  destruct (put_bytes b1 2 _) as [b2|]; cbn [mbind option_bind] in *; [|done].
  unfold put_u32 in W.
  destruct (put_bytes b2 4 _) as [b3|]; cbn [mbind option_bind] in *; [|done].
  destruct (put_bytes b3 8 _) as [b4|]; cbn [mbind option_bind] in *; [|done].
  rewrite W. cbn [mbind option_bind]. clear W b0 b1 b2 b3 b4.
  fold (header_for a rel_off h). pose proof (ds_bytes_zlen _ Hwf : _ = 16) as Hh.
  change (ds_size (A:=XAttrEntry.t)) with 16.
  rewrite put_bytes_in by (rewrite ?zlen_app, ?zlen_drop; (done || lia)).
  rewrite splice_app by done. rewrite <- app_assoc, drop_drop. do 4 f_equal. unfold zlen in *. lia.
Qed.

Lemma with_slice_tail (front t t' : buffer) f :
  f t = Some t' -> zlen t' = zlen t ->
  with_slice (front ++ t) (zlen front) (zlen (front ++ t) - zlen front) f = Some (front ++ t').
Proof.
  intros Hf Hl. pose proof (zlen_nonneg front). rewrite zlen_app.
  replace (zlen front + zlen t - zlen front) with (zlen t) by lia.
  assert (Hs : slice (zlen front) (zlen t) (front ++ t) = t).
  { rewrite slice_app_skip, Z.sub_diag by lia. rewrite <- (app_nil_r t) at 2. by rewrite slice_app_hit. }
  rewrite (with_slice_ok _ _ _ _ t') by (rewrite ?Hs, ?zlen_app; (done || lia)).
  f_equal. rewrite splice_app by done. rewrite drop_ge by (unfold zlen in *; lia). apply app_nil_r.
Qed.

Lemma drop_zeros n k (back : buffer) : 0 <= n <= k -> drop (Z.to_nat n) (zeros k ++ back) = zeros (k - n) ++ back.
Proof.
  intros H. rewrite drop_app_le by (unfold zeros; rewrite length_replicate; lia).
  f_equal. unfold zeros. rewrite drop_replicate. f_equal. lia.
Qed.

Section Layout.
Context (rel : Z) (hash_of : ExtendedAttribute -> Z).
Hypothesis Hhash : forall a, attr_ok a -> uint 32 (hash_of a).
Implicit Types (front back : buffer) (a : ExtendedAttribute) (attrs : list ExtendedAttribute).

Definition entry_pad a : Z := align_up (16 + zlen a.(ea_name)) 4 - 16 - zlen a.(ea_name).
Definition value_pad a : Z := align_up (zlen a.(ea_value)) 4 - zlen a.(ea_value).
Definition entry_bytes a (vend : Z) : buffer :=
  ds_bytes (header_for a (vend - rel) (hash_of a)) ++ a.(ea_name) ++ zeros (entry_pad a).
Definition value_bytes a : buffer := a.(ea_value) ++ zeros (value_pad a).

(** An attribute that fits between [front] and [back], with room for the end mark. *)
Definition fits front k a : Prop :=
  attr_ok a /\ zlen a.(ea_name) <= EXT4_NAME_LEN /\ footprint a + 4 <= k /\
  zlen front + k <= 65535 /\ 0 <= rel <= zlen front.

Lemma pads a : 0 <= entry_pad a < 4 /\ 0 <= value_pad a < 4 /\
  footprint a = 16 + zlen a.(ea_name) + entry_pad a + zlen a.(ea_value) + value_pad a.
Proof.
  unfold entry_pad, value_pad, footprint.
  pose proof (zlen_nonneg a.(ea_name)). pose proof (zlen_nonneg a.(ea_value)).
  destruct (align_up_4 (16 + zlen (ea_name a))) as [? _]; [lia|].
  destruct (align_up_4 (zlen (ea_value a))) as [? _]; [lia|]. lia.
Qed.

Lemma header_for_wf front k a vend :
  fits front k a -> vend = zlen front + k - align_up (zlen a.(ea_value)) 4 ->
  XAttrEntry.wf (header_for a (vend - rel) (hash_of a)) /\ zlen front + 20 <= vend.
Proof.
  intros (Ha & Hn & Hf & Hk & Hrel) ->. destruct (pads a) as (? & ? & Hfp).
  pose proof (zlen_nonneg a.(ea_name)). pose proof (zlen_nonneg a.(ea_value)).
  unfold value_pad, EXT4_NAME_LEN in *. split; [|lia].
  repeat split; simpl; try (unfold uint; lia); try apply Ha; try apply Hhash; try done; lia.
Qed.

Lemma write_attrs_step front k back a attrs :
  fits front k a ->
  let vend := zlen front + k - align_up (zlen a.(ea_value)) 4 in
  let front' := front ++ entry_bytes a vend in
  let k' := k - footprint a in
  write_attrs rel hash_of (a :: attrs) (front ++ zeros k ++ back) (zlen front) (zlen front + k) =
  write_attrs rel hash_of attrs (front' ++ zeros k' ++ value_bytes a ++ back)
    (zlen front') (zlen front' + k').
Proof.
  intros Hfit vend front' k'. destruct (header_for_wf front k a vend Hfit eq_refl) as [Hwf Hv].
  destruct Hfit as (Ha & Hn & Hf & Hk & Hrel). destruct (pads a) as (He & Hvp & Hfp).
  pose proof (ds_bytes_zlen _ Hwf : _ = 16) as Hh.
  pose proof (zlen_nonneg front). pose proof (zlen_nonneg back).
  pose proof (zlen_nonneg a.(ea_name)). pose proof (zlen_nonneg a.(ea_value)).
  assert (Hfl : zlen front' = zlen front + align_up (16 + zlen (ea_name a)) 4).
  { unfold front', entry_bytes. rewrite !zlen_app, zlen_zeros, Hh by lia. unfold entry_pad. lia. }
  assert (Hve : vend = zlen front + k - zlen (ea_value a) - value_pad a) by (unfold vend, value_pad; lia).
  cbn [write_attrs]. unfold usub. rewrite chk_some by (fold vend; unfold uint; lia). cbn [lift obind].
  fold vend. rewrite chk_some by (unfold uint; lia). cbn [lift obind].
  rewrite (proj2 (Z.ltb_ge _ _)) by (rewrite !zlen_app, zlen_zeros; lia).
  rewrite (wrap_id 16), (wrap_id 32) by (apply Hwf || (unfold uint; lia)).
  rewrite (with_slice_tail front _ _ _ (write_xattr_entry_spec a _ _ (zeros k ++ back) Hwf ltac:(rewrite zlen_app, zlen_zeros; lia)))
    by (rewrite !zlen_app, Hh, zlen_drop, zlen_app, zlen_zeros; lia).
  cbn [lift obind]. rewrite drop_zeros by lia.
  set (pre := front' ++ zeros k').
  assert (Hb : front ++ ds_bytes (header_for a (vend - rel) (hash_of a)) ++ a.(ea_name) ++
                 zeros (k - (16 + zlen a.(ea_name))) ++ back
               = pre ++ zeros (zlen a.(ea_value) + value_pad a) ++ back).
  { unfold pre, front', entry_bytes.
    replace (k - (16 + zlen a.(ea_name))) with (entry_pad a + (k' + (zlen a.(ea_value) + value_pad a))) by lia.
    rewrite !zeros_app by lia. by rewrite <- !app_assoc. }
  assert (Hpre : zlen pre = vend).
  { unfold pre. rewrite zlen_app, zlen_zeros, Hfl by lia. unfold vend, k', footprint. lia. }
  rewrite Hb, put_bytes_in by (rewrite ?zlen_app, ?zlen_zeros; lia). cbn [lift obind].
  rewrite splice_app by done.
  replace (length (ea_value a)) with (Z.to_nat (zlen (ea_value a))) by (unfold zlen; lia).
  rewrite drop_zeros by lia. unfold pre, value_bytes. rewrite <- !app_assoc.
  replace (zlen (ea_value a) + value_pad a - zlen (ea_value a)) with (value_pad a) by lia.
  rewrite Hfl. f_equal. unfold vend, k', footprint. lia.
Qed.

(** An entry with a non-zero value offset is not taken for the end mark. *)
Lemma entry_not_end h rest :
  XAttrEntry.wf h -> 0 < h.(XAttrEntry.value_offset) -> slice 0 4 (ds_bytes h ++ rest) <> [0; 0; 0; 0].
Proof.
  intros (_ & _ & [_ Hv] & _) Hpos E. cbv -[Z.land Z.shiftr XAttrEntry.value_offset] in E.
  injection E as _ _ E1 E2.
  rewrite land_255 in E1, E2. rewrite Z.shiftr_div_pow2 in E2 by lia.
  change (2 ^ 8) with 256 in *. pose proof (Z.div_mod (XAttrEntry.value_offset h) 256).
  pose proof (Z.div_mod (XAttrEntry.value_offset h / 256) 256).
  assert (XAttrEntry.value_offset h / 256 < 256) by (apply Z.div_lt_upper_bound; lia).
  assert (0 <= XAttrEntry.value_offset h / 256) by (apply Z.div_pos; lia).
  rewrite Z.mod_small in E2 by lia. lia.
Qed.

Lemma read_attrs_step fuel front mid back a vend :
  XAttrEntry.wf (header_for a (vend - rel) (hash_of a)) -> rel < vend -> 0 <= rel ->
  zlen (front ++ entry_bytes a vend) + zlen mid = vend ->
  let buf := (front ++ entry_bytes a vend) ++ mid ++ value_bytes a ++ back in
  read_attrs (S fuel) rel buf (zlen front) =
    (rest ← read_attrs fuel rel buf (zlen (front ++ entry_bytes a vend)); Some ((a, hash_of a) :: rest)).
Proof.
  intros Hwf Hv Hrel Hmid buf. pose proof (ds_bytes_zlen _ Hwf : _ = 16) as Hh.
  destruct (pads a) as (He & _ & _). pose proof (zlen_nonneg front). pose proof (zlen_nonneg a.(ea_value)).
  set (hd := header_for a (vend - rel) (hash_of a)) in *.
  assert (Hbuf : buf = front ++ ds_bytes hd ++ a.(ea_name) ++
                   (zeros (entry_pad a) ++ mid ++ value_bytes a ++ back)).
  { unfold buf, entry_bytes. fold hd. by rewrite <- !app_assoc. }
  assert (Hval : slice vend (zlen a.(ea_value)) buf = a.(ea_value)).
  { unfold buf. rewrite app_assoc, slice_app_skip by (rewrite zlen_app; lia).
    rewrite zlen_app. replace (vend - _) with 0 by lia. unfold value_bytes.
    rewrite <- app_assoc. by apply slice_app_hit. }
  assert (Hname : slice (zlen front + 16) (zlen a.(ea_name)) buf = a.(ea_name)).
  { rewrite Hbuf, app_assoc, slice_app_skip by (rewrite zlen_app; lia).
    rewrite zlen_app, Hh, Z.sub_diag. by apply slice_app_hit. }
  assert (Hread : XAttrEntry.read_from (drop (Z.to_nat (zlen front)) buf) = Some hd).
  { rewrite Hbuf, drop_app_length' by (unfold zlen; lia). exact (ds_read_bytes hd _ Hwf). }
  assert (Hend : slice (zlen front) 4 buf <> [0; 0; 0; 0]).
  { rewrite Hbuf, slice_app_skip, Z.sub_diag by lia. apply entry_not_end; [done|simpl; lia]. }
  cbn [read_attrs]. rewrite bool_decide_eq_false_2 by done. rewrite Hread. cbn [mbind option_bind].
  unfold hd, header_for. cbn [XAttrEntry.name_len XAttrEntry.value_offset XAttrEntry.value_size
    XAttrEntry.name_index XAttrEntry.hash].
  replace (rel + (vend - rel)) with vend by lia. rewrite Hname, Hval.
  replace (zlen (front ++ entry_bytes a vend)) with (zlen front + align_up (16 + zlen (ea_name a)) 4).
  2:{ unfold entry_bytes. fold hd. rewrite !zlen_app, zlen_zeros, Hh by lia. unfold entry_pad. lia. }
  by destruct a.
Qed.

Lemma write_attrs_read attrs : forall front k back,
  Forall (fun a => attr_ok a /\ zlen a.(ea_name) <= EXT4_NAME_LEN) attrs ->
  zsum (footprint <$> attrs) + 4 <= k -> zlen front + k <= 65535 -> 0 <= rel <= zlen front ->
  exists mid, zlen mid = k /\
    write_attrs rel hash_of attrs (front ++ zeros k ++ back) (zlen front) (zlen front + k) =
      Ok (front ++ mid ++ back) /\
    read_attrs (S (length attrs)) rel (front ++ mid ++ back) (zlen front) =
      Some ((fun a => (a, hash_of a)) <$> attrs).
Proof.
  induction attrs as [|a attrs IH]; intros front k back Hok Hk Hfk Hrel.
  { exists (zeros k). simpl in Hk. split; [apply zlen_zeros; lia|]. split; [done|]. cbn [read_attrs length].
    rewrite bool_decide_eq_true_2; [done|].
    rewrite slice_app_skip, Z.sub_diag by lia. replace k with (4 + (k - 4)) by lia.
    rewrite zeros_app, <- app_assoc by lia. by apply slice_app_hit. }
  apply Forall_cons_1 in Hok as [[Ha Hn] Hok]. rewrite fmap_cons, zsum_cons in Hk.
  assert (0 <= zsum (footprint <$> attrs)).
  { apply zsum_nonneg, Forall_fmap, Forall_true. intros b. unfold compose.
    pose proof (footprint_bounds b). lia. }
  assert (Hfit : fits front k a) by (split; [done|]; split; [done|]; lia).
  rewrite write_attrs_step by done. set (vend := zlen front + k - align_up (zlen (ea_value a)) 4).
  destruct (header_for_wf front k a vend Hfit eq_refl) as [Hwf Hv].
  set (front' := front ++ entry_bytes a vend). pose proof (ds_bytes_zlen _ Hwf : _ = 16) as Hh.
  destruct (pads a) as (He & _ & _).
  assert (Hfl : zlen front' + (k - footprint a) = vend).
  { unfold front', entry_bytes. rewrite !zlen_app, Hh, zlen_zeros by lia.
    unfold vend, entry_pad, footprint. lia. }
  pose proof (zlen_nonneg (entry_bytes a vend)). pose proof (footprint_bounds a).
  assert (zlen front' = zlen front + zlen (entry_bytes a vend)) by (unfold front'; apply zlen_app).
  destruct (align_up_4 (zlen (ea_value a))) as [Hav _]; [apply zlen_nonneg|].
  pose proof (zlen_nonneg (ea_value a)).
  destruct (IH front' (k - footprint a) (value_bytes a ++ back) Hok) as (mid & Hmid & Hw & Hr);
    [lia|unfold vend in *; lia|lia|].
  exists (entry_bytes a vend ++ mid ++ value_bytes a). rewrite Hw.
  rewrite <- !app_assoc. unfold front' in *. rewrite <- app_assoc in Hr |- *.
  split; [|split; [done|]].
  - rewrite !zlen_app. unfold value_bytes. rewrite zlen_app, zlen_zeros; unfold value_pad; [|lia].
    unfold vend in *. lia.
  - pose proof (read_attrs_step (S (length attrs)) front mid back a vend Hwf) as R.
    rewrite <- app_assoc in R. cbn [length]. rewrite R by (rewrite ?zlen_app in *; lia).
    rewrite Hr. done.
Qed.
End Layout.

(** ** The hash is a [u32], the sort a stable sort *)

Lemma mix_uint s h x : 0 <= s <= 32 -> uint 32 h -> uint 32 x -> uint 32 (mix s h x).
Proof.
  intros Hs Hh Hx. unfold mix. apply lxor_uint; [done| |done].
  apply lxor_uint; [done|by apply wrap_uint|]. apply shiftr_uint; [lia|done].
Qed.

Lemma byte_uint32 b : byte_ok b -> uint 32 b.
Proof. by apply uint_mono. Qed.

Lemma le_word_uint bs : bytes_ok bs -> zlen bs = 4 -> uint 32 (from_le_bytes bs).
Proof. intros Hb Hl. pose proof (from_le_bytes_bound bs Hb) as H. by rewrite Hl in H. Qed.

Lemma hash_value_uint n : forall value h,
  (length value <= n)%nat -> bytes_ok value -> uint 32 h -> uint 32 (hash_value h value).
Proof.
  induction n as [|n IH]; intros value h Hl Hv Hh; [by destruct value; simpl in Hl; [|lia]|].
  destruct value as [|b0 [|b1 [|b2 [|b3 rest]]]]; [done|..].
  1-3: apply mix_uint; [done|done|]; apply le_word_uint; [|done];
       apply bytes_ok_take, bytes_ok_app; split; [done|apply (bytes_ok_zeros 4)].
  apply (bytes_ok_app [b0; b1; b2; b3] rest) in Hv as [Hw Hr].
  cbn [hash_value]. apply IH; [simpl in Hl; lia|done|]. apply mix_uint; [done|done|].
  by apply le_word_uint.
Qed.

Lemma hash_uint a : attr_ok a -> uint 32 (hash a).
Proof.
  intros (Hn & Hv & _). apply (hash_value_uint (length a.(ea_value))); [done|done|].
  assert (H0 : uint 32 0) by done. revert H0. generalize 0. clear Hv.
  induction Hn as [|b name Hb _ IH]; intros h Hh; cbn [fold_left]; [done|].
  apply IH, mix_uint; [done|done|by apply byte_uint32].
Qed.

Lemma bytes_cmp_antisym a b : bytes_cmp b a = CompOpp (bytes_cmp a b).
Proof.
  revert b. induction a as [|x a IH]; intros [|y b]; simpl; try done.
  rewrite (Z.compare_antisym x y). destruct (x ?= y); simpl; [apply IH|done..].
Qed.

Lemma attr_cmp_antisym a b : attr_cmp b a = CompOpp (attr_cmp a b).
Proof.
  unfold attr_cmp. rewrite (Z.compare_antisym (ea_index a)). destruct (ea_index a ?= ea_index b); simpl; [|done..].
  rewrite (Z.compare_antisym (zlen (ea_name a))).
  destruct (zlen (ea_name a) ?= zlen (ea_name b)); simpl; [|done..]. apply bytes_cmp_antisym.
Qed.

Lemma insert_attr_perm a l : insert_attr a l ≡ₚ a :: l.
Proof. induction l as [|b l IH]; simpl; [done|]. case_match; [done..|]. rewrite IH. constructor. Qed.

Lemma sort_attrs_perm l : sort_attrs l ≡ₚ l.
Proof. induction l as [|a l IH]; simpl; [done|]. rewrite insert_attr_perm. by constructor. Qed.

(** Neighbours are in order. *)
Definition attr_le (a b : ExtendedAttribute) : Prop := attr_cmp a b <> Gt.

Lemma insert_attr_sorted a l : Sorted attr_le l -> Sorted attr_le (insert_attr a l).
Proof.
  induction 1 as [|b l Hs IH Hd]; simpl; [repeat constructor|].
  destruct (attr_cmp a b) eqn:E;
    try by (constructor; [by constructor|constructor; unfold attr_le; congruence]).
  assert (attr_le b a) by (unfold attr_le; rewrite attr_cmp_antisym, E; done).
  constructor; [done|]. destruct Hd; simpl; [by constructor|]. case_match; by constructor.
Qed.

Lemma sort_attrs_sorted l : Sorted attr_le (sort_attrs l).
Proof. induction l; simpl; [constructor|]. by apply insert_attr_sorted. Qed.

(** Filling a zeroed buffer from the front. *)
Lemma put_next pre n k bs :
  n = zlen pre -> zlen bs <= k ->
  put_bytes (pre ++ zeros k) n bs = Some ((pre ++ bs) ++ zeros (k - zlen bs)).
Proof.
  intros -> Hk. pose proof (zlen_nonneg pre). pose proof (zlen_nonneg bs).
  rewrite put_bytes_in by (rewrite ?zlen_app, ?zlen_zeros; lia). f_equal.
  rewrite splice_app by done. f_equal. rewrite <- (app_nil_r (zeros k)).
  replace (length bs) with (Z.to_nat (zlen bs)) by (unfold zlen; lia).
  rewrite drop_zeros by lia. apply app_nil_r.
Qed.

(** ** Properties *)

(** Adding an attribute never panics and has exactly three outcomes that keep
    the accounting invariant (used bytes are the header plus the footprints of
    the attributes in the area, and four bytes stay free for the end mark): it is
    appended inline, or to the block when inline has no room, or refused because
    neither area has room. *)
Theorem xattr_add_spec st a :
  xattr_inv st -> attr_ok a -> zlen a.(ea_name) <= EXT4_NAME_LEN ->
  (exists st', add st a = Ok st' /\ xattr_inv st' /\
     ((inline_attrs st' = inline_attrs st ++ [a] /\ block_attrs st' = block_attrs st) \/
      (inline_attrs st' = inline_attrs st /\ block_attrs st' = block_attrs st ++ [a] /\
       inode_capacity st < used_inline st + footprint a + 4))) \/
  (add st a = Err (XattrInsufficientSpace st.(inode_number)) /\
   inode_capacity st < used_inline st + footprint a + 4 /\
   block_capacity st < used_block st + footprint a + 4).
Proof. apply add_cases. Qed.

(** C4 xattr_inline_readback: Under the accounting invariant [write_inline] returns a buffer of exactly
    the inode's capacity, with the magic number, in which the on-disk format reads
    back every attribute (name, index, value, zero hash) in order and then the end
    mark: entries and values never overlap. *)
Theorem xattr_inline_readback st :
  xattr_inv st -> 8 <= st.(inode_capacity) <= 65535 ->
  exists buf, write_inline st = Ok buf /\ zlen buf = st.(inode_capacity) /\
    get_u32 buf 0 = Some XATTR_HEADER_MAGIC /\
    read_attrs (S (length st.(inline_attrs))) XATTR_INODE_HEADER_SIZE buf XATTR_INODE_HEADER_SIZE =
      Some ((fun a => (a, 0)) <$> st.(inline_attrs)).
Proof.
  intros (_ & _ & (Hu & Hroom & Hok) & _) Hcap. unfold write_inline, XATTR_INODE_HEADER_SIZE in *.
  set (cap := st.(inode_capacity)) in *. set (magic := to_le_bytes 4 XATTR_HEADER_MAGIC).
  assert (Hk : zsum (footprint <$> inline_attrs st) + 4 <= cap - 4).
  { destruct (inline_attrs st); [simpl; lia|]. specialize (Hroom ltac:(done)). lia. }
  assert (Hput : put_bytes (replicate (Z.to_nat cap) 0) 0 magic = Some (magic ++ zeros (cap - 4) ++ [])).
  { rewrite app_nil_r. apply (put_next [] 0 cap magic); [done|]. change (zlen magic) with 4. lia. }
  rewrite Hput. cbn [lift obind].
  destruct (write_attrs_read 4 (fun _ => 0) ltac:(done) (inline_attrs st) magic (cap - 4) [] Hok)
    as (mid & Hmid & Hw & Hr); [done|change (zlen magic) with 4; lia|done|].
  change (zlen magic) with 4 in *. replace (4 + (cap - 4)) with cap in Hw by lia.
  eexists. split; [exact Hw|]. split; [|split; [done|exact Hr]].
  rewrite !zlen_app, Hmid, zlen_nil. change (zlen magic) with 4. lia.
Qed.


Lemma xattr_block_header cap :
  32 <= cap ->
  (b0 ← put_bytes (zeros cap) 0 (to_le_bytes 4 XATTR_HEADER_MAGIC);
   b1 ← put_bytes b0 4 (to_le_bytes 4 1); put_bytes b1 8 (to_le_bytes 4 1)) =
  Some ((to_le_bytes 4 XATTR_HEADER_MAGIC ++ to_le_bytes 4 1 ++ to_le_bytes 4 1 ++ zeros 20) ++ zeros (cap - 32)).
Proof.
  intros Hc. set (m := to_le_bytes 4 XATTR_HEADER_MAGIC). set (one := to_le_bytes 4 1).
  change (zeros cap) with ([] ++ zeros cap). rewrite (put_next [] 0 cap m) by (done || (change (zlen m) with 4; lia)).
  cbn [mbind option_bind]. change (zlen m) with 4.
  rewrite (put_next _ 4 (cap - 4) one) by (done || (change (zlen one) with 4; lia)).
  cbn [mbind option_bind]. change (zlen one) with 4.
  rewrite (put_next _ 8 (cap - 4 - 4) one) by (done || (change (zlen one) with 4; lia)).
  change (zlen one) with 4. replace (cap - 4 - 4 - 4) with (20 + (cap - 32)) by lia.
  rewrite zeros_app by lia. by rewrite <- !app_assoc.
Qed.

(** Under the accounting invariant [write_block] returns one full block with
    magic, reference count 1 and block count 1, in which the on-disk format reads
    back every block attribute with its hash; the entries are a permutation of the
    attributes sorted by index, name length and name. *)
Theorem xattr_block_readback st :
  xattr_inv st -> 36 <= st.(block_capacity) <= 65535 ->
  exists buf sorted, write_block st = Ok buf /\ zlen buf = st.(block_capacity) /\
    (get_u32 buf 0, get_u32 buf 4, get_u32 buf 8) = (Some XATTR_HEADER_MAGIC, Some 1, Some 1) /\
    sorted ≡ₚ st.(block_attrs) /\ Sorted attr_le sorted /\
    read_attrs (S (length st.(block_attrs))) 0 buf XATTR_BLOCK_HEADER_SIZE =
      Some ((fun a => (a, hash a)) <$> sorted).
Proof.
  intros (_ & _ & _ & (Hu & Hroom & Hok)) Hcap. unfold write_block, XATTR_BLOCK_HEADER_SIZE in *.
  set (cap := st.(block_capacity)) in *.
  pose proof (sort_attrs_perm (block_attrs st)) as Hperm.
  assert (Hk : zsum (footprint <$> sort_attrs (block_attrs st)) + 4 <= cap - 32).
  { rewrite (zsum_perm _ (footprint <$> block_attrs st)) by (by rewrite Hperm). destruct (block_attrs st); [simpl; lia|]. specialize (Hroom ltac:(done)). lia. }
  pose proof (xattr_block_header cap ltac:(lia)) as Hhead. unfold zeros at 1 in Hhead.
  destruct (put_bytes (replicate (Z.to_nat cap) 0) 0 _) as [b0|]; cbn [lift obind mbind option_bind] in *; [|done].
  destruct (put_bytes b0 4 _) as [b1|]; cbn [lift obind mbind option_bind] in *; [|done].
  rewrite Hhead. cbn [lift obind]. clear Hhead b0 b1.
  set (hd := to_le_bytes 4 XATTR_HEADER_MAGIC ++ _). rewrite <- (app_nil_r (zeros (cap - 32))).
  destruct (write_attrs_read 0 hash hash_uint (sort_attrs (block_attrs st)) hd (cap - 32) [])
    as (mid & Hmid & Hw & Hr); [by rewrite Hperm|done|change (zlen hd) with 32; lia|done|].
  change (zlen hd) with 32 in *. replace (32 + (cap - 32)) with cap in Hw by lia.
  exists (hd ++ mid ++ []), (sort_attrs (block_attrs st)). split; [exact Hw|]. split; [|split; [done|]].
  { rewrite !zlen_app, Hmid, zlen_nil. change (zlen hd) with 32. lia. }
  split; [done|]. split; [apply sort_attrs_sorted|].
  by rewrite <- (Permutation_length Hperm).
Qed.

Lemma new_state_inv ino ci cb : uint 31 ci -> uint 31 cb -> xattr_inv (new_state ino ci cb).
Proof. intros Hi Hb. repeat split; try apply Hi; try apply Hb; try constructor; done. Qed.

(** A state with one attribute in each area, and the attributes in it. *)
Definition sample_attr (v : Z) : ExtendedAttribute := new_attr (bstr "user.mime") (replicate 60 v).
Definition sample_state : XattrState :=
  mk_state 120 4096 [sample_attr 1] [sample_attr 2] (4 + 80) (32 + 80) 12.

Example sample_state_reached :
  (st <- add (new_state 12 120 4096) (sample_attr 1) ;; add st (sample_attr 2)) = Ok sample_state.
Proof. vm_compute. reflexivity. Qed.

Lemma sample_attr_ok v : byte_ok v -> attr_ok (sample_attr v).
Proof.
  intros Hv. split; [|split; [|split]]; [|by apply Forall_replicate|done|done].
  repeat constructor; done.
Qed.

Lemma sample_state_inv : xattr_inv sample_state.
Proof.
  repeat split; try done.
  all: repeat constructor; try done; by apply sample_attr_ok.
Qed.

Lemma xattr_add_spec_witness :
  (exists st', add (new_state 12 120 4096) (sample_attr 1) = Ok st' /\ xattr_inv st' /\
     ((inline_attrs st' = [sample_attr 1] /\ block_attrs st' = []) \/
      (inline_attrs st' = [] /\ block_attrs st' = [sample_attr 1] /\ 120 < 4 + 80 + 4))) \/
  (add (new_state 12 120 4096) (sample_attr 1) = Err (XattrInsufficientSpace 12) /\
   120 < 4 + 80 + 4 /\ 4096 < 32 + 80 + 4).
Proof.
  apply (xattr_add_spec (new_state 12 120 4096) (sample_attr 1));
    [by apply new_state_inv|by apply sample_attr_ok|by vm_compute].
Defined.

Lemma xattr_inline_readback_witness :
  exists buf, write_inline sample_state = Ok buf /\ zlen buf = 120 /\
    get_u32 buf 0 = Some XATTR_HEADER_MAGIC /\
    read_attrs 2 XATTR_INODE_HEADER_SIZE buf XATTR_INODE_HEADER_SIZE = Some [(sample_attr 1, 0)].
Proof.
  apply (xattr_inline_readback sample_state); [exact sample_state_inv|by vm_compute].
Defined.

Lemma xattr_block_readback_witness :
  exists buf sorted, write_block sample_state = Ok buf /\ zlen buf = 4096 /\
    (get_u32 buf 0, get_u32 buf 4, get_u32 buf 8) = (Some XATTR_HEADER_MAGIC, Some 1, Some 1) /\
    sorted ≡ₚ [sample_attr 2] /\ Sorted attr_le sorted /\
    read_attrs 2 0 buf XATTR_BLOCK_HEADER_SIZE = Some ((fun a => (a, hash a)) <$> sorted).
Proof.
  apply (xattr_block_readback sample_state); [exact sample_state_inv|by vm_compute].
Defined.
