(* ===== verification/Geometry.v ===== *)
(** * Block groups and payload placement

    The part of [common/ext4/src/formatter.rs] that decides where bytes go: the
    computed properties of [Formatter], the sparse-superblock rule, and the loop
    that writes a file's payload around the metadata reserved at the start of
    block groups.  The formatter's [file] (with its seek position), [block_size]
    and [size] fields are the record [disk]. *)

From stdpp Require Import base list list_numbers option numbers.
From S2P Require Import Prelude Bytes Constants Errors Image Extent.

Record disk := mk_disk { d_file : buffer; d_pos : Z; d_block_size : Z; d_size : Z }.

Definition RESERVED_GDT_MULTIPLIER : Z := 32.

(** ** Computed properties *)

Section Computed.
Context (block_size size : Z).

Definition blocks_per_group : option Z := umul 32 block_size 8.
Definition max_inodes_per_group : option Z := umul 32 block_size 8.
Definition groups_per_descriptor_block : Z := block_size / 32.

(** [((size - 1) / block_size + 1) as u32] *)
Definition block_count : option Z :=
  s ← usub 64 size 1;
  n ← uadd 64 (s / block_size) 1;
  Some (wrap 32 n).

Definition group_count : option Z :=
  n ← block_count; n ← usub 32 n 1; bpg ← blocks_per_group; uadd 32 (n / bpg) 1.

Definition descriptor_blocks_for_groups (groups : Z) : option Z :=
  g ← usub 32 groups 1; uadd 32 (g / groups_per_descriptor_block) 1.

(** [saturating_mul] and [saturating_sub] on [u32] *)
Definition reserved_gdt_blocks_for_descriptor_blocks (descriptor_blocks : Z) : Z :=
  let addr_per_block := block_size / 4 in
  Z.min (Z.min (descriptor_blocks * (RESERVED_GDT_MULTIPLIER - 1)) (2 ^ 32 - 1))
        (Z.max 0 (addr_per_block - descriptor_blocks)).

Definition group_descriptor_area_blocks_for_groups (groups : Z) : option Z :=
  descriptor_blocks ← descriptor_blocks_for_groups groups;
  uadd 32 descriptor_blocks (reserved_gdt_blocks_for_descriptor_blocks descriptor_blocks).

Definition group_descriptor_blocks : option Z :=
  n ← group_count; group_descriptor_area_blocks_for_groups n.
End Computed.

(** The [while n % base == 0] loop of [is_power_of]. *)
Fixpoint divide_out (fuel : nat) (n base : Z) : option Z :=
  match fuel with
  | O => None
  | S fuel => if n mod base =? 0 then divide_out fuel (n / base) base else Some n
  end.

(** [fn is_power_of]: a [u32] halves at least at every turn, so 33 turns do. *)
Definition is_power_of (n base : Z) : option bool :=
  if n <? base then Some false
  else r ← divide_out 33 n base; Some (r =? 1).

Definition has_sparse_super (group : Z) : option bool :=
  p3 ← is_power_of group 3;
  p5 ← is_power_of group 5;
  p7 ← is_power_of group 7;
  Some ((group =? 0) || (group =? 1) || p3 || p5 || p7).

Definition has_sparse_super_backup (group : Z) : option bool :=
  s ← has_sparse_super group; Some (negb (group =? 0) && s).

Section Metadata.
Context (block_size size : Z).

Definition static_metadata_blocks_in_group (group : Z) : option Z :=
  s ← has_sparse_super group;
  (if (s : bool) then g ← group_descriptor_blocks block_size size; uadd 32 1 g else Some 0).

Definition reserved_metadata_end_for_block (block : Z) : option Z :=
  bpg ← blocks_per_group block_size;
  let group := block / bpg in
  group_start ← umul 32 group bpg;
  metadata_blocks ← static_metadata_blocks_in_group group;
  metadata_end ← uadd 32 group_start metadata_blocks;
  Some (if (group_start <=? block) && (block <? metadata_end) then metadata_end else block).
End Metadata.

(** ** Positions *)

Definition seek_to (d : disk) (p : Z) : disk := mk_disk d.(d_file) p d.(d_block_size) d.(d_size).

Definition current_block (d : disk) : Z := wrap 32 (d.(d_pos) / d.(d_block_size)).

Definition seek_to_block (d : disk) (block : Z) : option disk :=
  p ← umul 64 block d.(d_block_size); Some (seek_to d p).

Definition align_to_block (d : disk) : option disk :=
  if negb (d.(d_pos) mod d.(d_block_size) =? 0)
  then blk ← uadd 32 (current_block d) 1; seek_to_block d blk
  else Some d.

(** The loop of [skip_reserved_metadata_blocks]. *)
Fixpoint skip_loop (fuel : nat) (d : disk) : option disk :=
  match fuel with
  | O => None
  | S fuel =>
      let block := current_block d in
      next ← reserved_metadata_end_for_block d.(d_block_size) d.(d_size) block;
      if next =? block then Some d else d ← seek_to_block d next; skip_loop fuel d
  end.

Definition skip_reserved_metadata_blocks (d : disk) : option disk :=
  if negb (d.(d_pos) mod d.(d_block_size) =? 0) then Some d else skip_loop 2 d.

(** ** Payload *)

Fixpoint record_block_range (ranges : list BlockRange) (block : Z) : option (list BlockRange) :=
  match ranges with
  | [] => e ← uadd 32 block 1; Some [mk_range block e]
  | [last] =>
      if (last.(br_start) <=? block) && (block <? last.(br_end)) then Some [last]
      else if last.(br_end) =? block then e ← uadd 32 last.(br_end) 1; Some [mk_range last.(br_start) e]
      else e ← uadd 32 block 1; Some [last; mk_range block e]
  | r :: ranges => rs ← record_block_range ranges block; Some (r :: rs)
  end.

(** [write_all(bs)] at the current position, then [size = max(size, position)]. *)
Definition write_here (d : disk) (bs : buffer) : disk :=
  let p := d.(d_pos) + zlen bs in
  mk_disk (file_write d.(d_file) d.(d_pos) bs) p d.(d_block_size) (Z.max d.(d_size) p).

(** The loop of [write_payload_bytes] over what is left of [bytes]; every turn
    writes at least one byte. *)
Fixpoint write_payload_loop (fuel : nat) (d : disk) (bytes : buffer) (ranges : list BlockRange)
    : option (disk * list BlockRange) :=
  if zlen bytes =? 0 then Some (d, ranges)
  else match fuel with
  | O => None
  | S fuel =>
      d ← skip_reserved_metadata_blocks d;
      let block := current_block d in
      let block_offset := d.(d_pos) mod d.(d_block_size) in
      let writable := Z.min (d.(d_block_size) - block_offset) (zlen bytes) in
      let d := write_here d (take (Z.to_nat writable) bytes) in
      ranges ← record_block_range ranges block;
      write_payload_loop fuel d (drop (Z.to_nat writable) bytes) ranges
  end.

Definition write_payload_bytes (d : disk) (bytes : buffer) (ranges : list BlockRange)
    : option (disk * list BlockRange) :=
  write_payload_loop (length bytes) d bytes ranges.

(** [write_payload_from_reader]: [chunks] is what successive calls of
    [Read::read] return, up to the first empty one.  What was written stays
    written when the file grows too big, so the disk is returned in every case. *)
Fixpoint write_payload_from_reader (d : disk) (chunks : list buffer) (size : Z) (ranges : list BlockRange)
    : outcome FormatError Z * (disk * list BlockRange) :=
  match chunks with
  | [] => (Ok size, (d, ranges))
  | c :: chunks =>
      if zlen c =? 0 then (Ok size, (d, ranges))
      else match uadd 64 size (zlen c) with
      | None => (Panic, (d, ranges))
      | Some size =>
          if MAX_FILE_SIZE <? size then (Err (FileTooBig size), (d, ranges))
          else match write_payload_bytes d c ranges with
               | None => (Panic, (d, ranges))
               | Some st => write_payload_from_reader st.1 chunks size st.2
               end
      end
  end.

Definition write_aligned_payload_bytes (d : disk) (bytes : buffer) : option (disk * list BlockRange) :=
  d ← align_to_block d;
  d ← skip_reserved_metadata_blocks d;
  st ← write_payload_bytes d bytes [];
  d ← align_to_block st.1;
  Some (d, st.2).

(** ** Powers *)

Lemma divide_out_spec fuel : forall n base,
  2 <= base -> 0 < n < 2 ^ (Z.of_nat fuel - 1) ->
  exists r, divide_out fuel n base = Some r /\
    (r = 1 <-> exists k, 0 <= k /\ n = base ^ k).
Proof.
  induction fuel as [|fuel IH]; intros n base Hb Hn.
  { simpl in Hn. lia. }
  cbn [divide_out]. destruct (Z.eqb_spec (n mod base) 0) as [Hm|Hm].
  - pose proof (Z.div_mod n base). pose proof (Z.div_pos n base).
    assert (Hq : 0 < n / base < 2 ^ (Z.of_nat fuel - 1)).
    { replace (Z.of_nat (S fuel) - 1) with (Z.succ (Z.of_nat fuel - 1)) in Hn by lia.
      destruct fuel as [|fuel]; [simpl in Hn; nia|].
      rewrite Z.pow_succ_r in Hn by lia. nia. }
    destruct (IH (n / base) base Hb Hq) as (r & E & Hr). exists r. split; [done|]. rewrite Hr. split.
    + intros (k & Hk & E'). exists (Z.succ k). split; [lia|]. rewrite Z.pow_succ_r by done. nia.
    + intros (k & Hk & E'). destruct (Z.eq_dec k 0) as [->|].
      * rewrite Z.pow_0_r in E'. subst n. rewrite Z.mod_1_l in Hm by lia. lia.
      * exists (k - 1). split; [lia|]. rewrite E'. rewrite <- (Z.pow_pred_r base k) by lia.
        rewrite Z.mul_comm, Z.div_mul by lia. f_equal; lia.
  - exists n. split; [done|]. split.
    + intros ->. exists 0. split; [done|]. by rewrite Z.pow_0_r.
    + intros (k & Hk & ->). destruct (Z.eq_dec k 0) as [->|]; [apply Z.pow_0_r|].
      destruct Hm. rewrite <- (Z.pow_pred_r base k) by lia. rewrite Z.mul_comm; apply Z_mod_mult.
Qed.

Lemma is_power_of_spec n base :
  uint 32 n -> 2 <= base ->
  exists b, is_power_of n base = Some b /\ (b = true <-> exists k, 1 <= k /\ n = base ^ k).
Proof.
  intros [Hn0 Hn] Hb. unfold is_power_of. destruct (Z.ltb_spec n base) as [Hlt|Hge].
  - exists false. split; [done|]. split; [done|]. intros (k & Hk & ->).
    assert (base ^ 1 <= base ^ k) by (apply Z.pow_le_mono_r; lia). rewrite Z.pow_1_r in *. lia.
  - destruct (divide_out_spec 33 n base Hb) as (r & -> & Hr); [simpl in *; lia|].
    eexists. split; [done|]. rewrite Z.eqb_eq, Hr. split.
    + intros (k & Hk & E). exists k. split; [|done].
      destruct (Z.eq_dec k 0) as [->|]; [|lia]. rewrite Z.pow_0_r in E. lia.
    + intros (k & Hk & E). exists k. split; [lia|done].
Qed.

(** A group holds a copy of the superblock: ext4's [sparse_super] rule. *)
Definition sparse_group (group : Z) : Prop :=
  group = 0 \/ group = 1 \/ exists base k, (base = 3 \/ base = 5 \/ base = 7) /\ 1 <= k /\ group = base ^ k.

Lemma has_sparse_super_spec group :
  uint 32 group -> exists b, has_sparse_super group = Some b /\ (b = true <-> sparse_group group).
Proof.
  intros Hg. unfold has_sparse_super.
  destruct (is_power_of_spec group 3 Hg) as (b3 & -> & H3); [lia|].
  destruct (is_power_of_spec group 5 Hg) as (b5 & -> & H5); [lia|].
  destruct (is_power_of_spec group 7 Hg) as (b7 & -> & H7); [lia|].
  cbn [mbind option_bind]. eexists. split; [done|]. unfold sparse_group.
  rewrite !orb_true_iff, !Z.eqb_eq, H3, H5, H7. split.
  - intros [[[[?|?]|(k & ? & ?)]|(k & ? & ?)]|(k & ? & ?)]; eauto 10.
  - intros [?|[?|(base & k & [->|[->| ->]] & ? & ?)]]; eauto 10.
Qed.

(** ** Reserved metadata, for the block size the formatter accepts *)

Definition size_ok (size : Z) : Prop := 0 < size <= 2 ^ 44 - 4096.

Lemma group_descriptor_blocks_spec size :
  size_ok size -> exists m, group_descriptor_blocks 4096 size = Some m /\ 1 <= m <= 1024.
Proof.
  intros Hs. unfold size_ok in Hs. unfold group_descriptor_blocks, group_count, block_count, usub, uadd.
  rewrite chk_some by (unfold uint; lia). cbn [mbind option_bind].
  assert (Hq : 0 <= (size - 1) / 4096 < 2 ^ 32 - 1).
  { split; [apply Z.div_pos; lia|]. apply Z.div_lt_upper_bound; lia. }
  rewrite chk_some by (unfold uint; lia). cbn [mbind option_bind]. rewrite wrap_id by (unfold uint; lia).
  rewrite chk_some by (unfold uint; lia). cbn [mbind option_bind].
  unfold blocks_per_group, umul. rewrite chk_some by (unfold uint; lia). cbn [mbind option_bind].
  change (4096 * 8) with 32768. set (q := ((size - 1) / 4096 + 1 - 1) / 32768).
  assert (Hg : 0 <= q < 131072).
  { unfold q. split; [apply Z.div_pos; lia|]. apply Z.div_lt_upper_bound; lia. }
  rewrite chk_some by (unfold uint; lia). cbn [mbind option_bind].
  unfold group_descriptor_area_blocks_for_groups, descriptor_blocks_for_groups, usub, uadd.
  rewrite chk_some by (unfold uint; lia). cbn [mbind option_bind].
  change (groups_per_descriptor_block 4096) with 128. set (d := (q + 1 - 1) / 128).
  assert (Hd : 0 <= d < 1024).
  { unfold d. split; [apply Z.div_pos; lia|]. apply Z.div_lt_upper_bound; lia. }
  rewrite chk_some by (unfold uint; lia). cbn [mbind option_bind].
  unfold reserved_gdt_blocks_for_descriptor_blocks, RESERVED_GDT_MULTIPLIER. change (4096 / 4) with 1024.
  rewrite chk_some by (unfold uint; lia). eexists. split; [done|]. lia.
Qed.

Lemma static_metadata_spec size group :
  size_ok size -> uint 32 group ->
  exists m, static_metadata_blocks_in_group 4096 size group = Some m /\ 0 <= m <= 1025 /\
    (sparse_group group <-> 0 < m).
Proof.
  intros Hs Hg. unfold static_metadata_blocks_in_group.
  destruct (has_sparse_super_spec group Hg) as (b & -> & Hb). cbn [mbind option_bind].
  destruct b.
  - destruct (group_descriptor_blocks_spec size Hs) as (m & -> & Hm). cbn [mbind option_bind].
    unfold uadd. rewrite chk_some by (unfold uint; lia). eexists. split; [done|]. split; [lia|].
    rewrite <- Hb. split; [lia|done].
  - exists 0. split; [done|]. split; [lia|]. rewrite <- Hb. split; [done|lia].
Qed.

(** The end of the reserved area at the start of the group of [block]. *)
Lemma reserved_end_eq size block :
  size_ok size -> uint 32 block ->
  exists m, 0 <= m <= 1025 /\ forall b, b / 32768 = block / 32768 -> uint 32 b ->
    reserved_metadata_end_for_block 4096 size b =
      Some (if b <? block / 32768 * 32768 + m then block / 32768 * 32768 + m else b).
Proof.
  intros Hs [Hb0 Hb1]. assert (Hg : 0 <= block / 32768 < 131072).
  { split; [apply Z.div_pos; lia|]. apply Z.div_lt_upper_bound; lia. }
  destruct (static_metadata_spec size (block / 32768) Hs) as (m & Em & Hm & _); [unfold uint; lia|].
  exists m. split; [done|]. intros b Eb [Hb2 Hb3].
  unfold reserved_metadata_end_for_block, blocks_per_group, umul, uadd.
  rewrite chk_some by (unfold uint; lia). cbn [mbind option_bind].
  change (4096 * 8) with 32768. rewrite Eb. rewrite chk_some by (unfold uint; lia). cbn [mbind option_bind].
  rewrite Em. cbn [mbind option_bind]. rewrite chk_some by (unfold uint; lia). cbn [mbind option_bind].
  rewrite (proj2 (Z.leb_le _ b)); [done|]. rewrite <- Eb. pose proof (Z.div_mod b 32768).
  pose proof (Z.mod_pos_bound b 32768). lia.
Qed.

(** A block outside the reserved metadata. *)
Definition unreserved (size block : Z) : Prop :=
  reserved_metadata_end_for_block 4096 size block = Some block.

Lemma reserved_end_spec size block :
  size_ok size -> uint 32 block ->
  exists e, reserved_metadata_end_for_block 4096 size block = Some e /\
    block <= e <= block + 1025 /\ uint 32 e /\ unreserved size e.
Proof.
  intros Hs Hb. destruct (reserved_end_eq size block Hs Hb) as (m & Hm & E). unfold unreserved.
  rewrite (E block eq_refl Hb). destruct Hb as [Hb0 Hb1].
  assert (Hg : 0 <= block / 32768 < 131072).
  { split; [apply Z.div_pos; lia|]. apply Z.div_lt_upper_bound; lia. }
  pose proof (Z.div_mod block 32768). pose proof (Z.mod_pos_bound block 32768).
  destruct (Z.ltb_spec block (block / 32768 * 32768 + m)) as [Hlt|Hge].
  - eexists. split; [done|]. split; [lia|]. split; [unfold uint; lia|].
    rewrite E; [|symmetry; apply (Z.div_unique _ _ _ m); lia|unfold uint; lia].
    by rewrite (proj2 (Z.ltb_ge _ _)) by lia.
  - exists block. split; [done|]. split; [lia|]. split; [done|].
    rewrite E by done. by rewrite (proj2 (Z.ltb_ge _ _)) by lia.
Qed.

(** ** Recorded ranges *)

(** The blocks of the ranges, in order. *)
Definition flat (ranges : list BlockRange) : list Z := concat (range_blocks <$> ranges).

Lemma flat_app r1 r2 : flat (r1 ++ r2) = flat r1 ++ flat r2.
Proof. unfold flat. by rewrite fmap_app, concat_app. Qed.

Lemma flat_singleton r : flat [r] = range_blocks r.
Proof. unfold flat. simpl. apply app_nil_r. Qed.

Lemma range_blocks_one b : range_blocks (mk_range b (b + 1)) = [b].
Proof. unfold range_blocks, size_of. simpl. replace (b + 1 - b) with 1 by lia. done. Qed.

Definition range_pos (r : BlockRange) : Prop := 0 <= r.(br_start) < r.(br_end).

(** Every turn looks only at the last range. *)
Lemma record_snoc ranges r block :
  record_block_range (ranges ++ [r]) block =
    (rs ← record_block_range [r] block; Some (ranges ++ rs)).
Proof.
  induction ranges as [|r' ranges IH]; [cbn [app]; by destruct (record_block_range [r] block)|].
  rewrite <- app_comm_cons.
  destruct (ranges ++ [r]) as [|x xs] eqn:E; [by apply app_eq_nil in E as [_ ?]|].
  change (record_block_range (r' :: x :: xs) block)
    with (rs ← record_block_range (x :: xs) block; Some (r' :: rs)).
  rewrite IH. by destruct (record_block_range [r] block).
Qed.

Lemma seqZ_snoc m n : 0 <= n -> seqZ m (n + 1) = seqZ m n ++ [m + n].
Proof. intros Hn. rewrite seqZ_app by lia. done. Qed.

(** A block beyond every recorded one is appended. *)
Lemma record_new ranges block :
  Forall range_pos ranges -> 0 <= block < 2 ^ 32 - 1 -> (forall b, b ∈ flat ranges -> b < block) ->
  exists rs, record_block_range ranges block = Some rs /\ Forall range_pos rs /\
    flat rs = flat ranges ++ [block] /\ exists r, list.last rs = Some r /\ r.(br_end) = block + 1.
Proof.
  intros Hok Hb Hlt. destruct ranges as [|r ranges _] using rev_ind.
  { simpl. unfold uadd. rewrite chk_some by (unfold uint; lia). cbn [mbind option_bind].
    eexists. split; [done|]. split; [repeat constructor; simpl; lia|]. split; [|eexists; split; done].
    by rewrite flat_singleton, range_blocks_one. }
  apply Forall_app in Hok as [Hok Hr]. rewrite Forall_singleton in Hr. destruct Hr as [Hr0 Hr1].
  assert (Hend : br_end r <= block).
  { assert (br_end r - 1 < block); [|lia]. apply Hlt. rewrite flat_app, flat_singleton.
    apply elem_of_app. right. apply elem_of_seqZ. unfold size_of. lia. }
  rewrite record_snoc. cbn [record_block_range].
  rewrite (proj2 (Z.ltb_ge _ _)), andb_false_r by lia. unfold uadd.
  destruct (Z.eqb_spec (br_end r) block) as [<-|Hne];
    rewrite chk_some by (unfold uint; lia); cbn [mbind option_bind].
  - eexists. split; [done|]. split; [apply Forall_app; split; [done|]; repeat constructor; simpl; lia|].
    split; [|exists (mk_range (br_start r) (br_end r + 1)); by rewrite last_snoc].
    rewrite !flat_app, !flat_singleton, <- app_assoc. f_equal. unfold range_blocks, size_of. simpl.
    replace (br_end r + 1 - br_start r) with (br_end r - br_start r + 1) by lia.
    rewrite seqZ_snoc by lia. do 2 f_equal. lia.
  - eexists. split; [done|]. split.
    { apply Forall_app; split; [done|]. repeat constructor; simpl; lia. }
    split; [|exists (mk_range block (block + 1)); by rewrite (last_app_cons _ [_])].
    rewrite !flat_app, <- app_assoc. f_equal. rewrite flat_singleton.
    change (flat ?l) with (flat ([r] ++ [mk_range block (block + 1)])).
    by rewrite flat_app, !flat_singleton, range_blocks_one.
Qed.

(** A block that the last range covers is already recorded. *)
Lemma record_same ranges r block :
  list.last ranges = Some r -> r.(br_start) <= block < r.(br_end) ->
  record_block_range ranges block = Some ranges.
Proof.
  intros Hl Hb. apply last_Some in Hl as [rs ->]. rewrite record_snoc. cbn [record_block_range].
  by rewrite (proj2 (Z.leb_le _ _)), (proj2 (Z.ltb_lt _ _)) by lia.
Qed.

(** ** Where the payload goes *)

(** The disk address of payload byte [k], given the blocks that hold the payload. *)
Definition addr (blocks : list Z) (k : Z) : Z :=
  default 0 (zlookup blocks (k / 4096)) * 4096 + k mod 4096.

Section Payload.
(** The file and the position before the first payload byte. *)
Context (f0 : buffer) (p0 : Z).

(** What has been written so far: [data] lies in the blocks of [ranges], which
    are distinct, below the position, and outside the reserved metadata as long
    as the disk has not grown beyond [s]; the position is right behind the data. *)
Record payload_inv (s : Z) (d : disk) (ranges : list BlockRange) (data : buffer) : Prop := {
  pi_bs : d.(d_block_size) = 4096;
  pi_pos : 0 <= d.(d_pos) <= 2 ^ 44 - 4096;
  pi_keep : p0 <= d.(d_pos) /\ forall p, 0 <= p < p0 -> byte_at d.(d_file) p = byte_at f0 p;
  pi_size : size_ok d.(d_size) /\ s <= d.(d_size);
  pi_ranges : Forall range_pos ranges;
  pi_len : zlen data = zlen (flat ranges) * 4096 - (- d.(d_pos)) mod 4096;
  pi_last : d.(d_pos) mod 4096 <> 0 ->
    exists r, list.last ranges = Some r /\ r.(br_end) = d.(d_pos) / 4096 + 1;
  pi_below : forall b, b ∈ flat ranges -> b < div_ceil d.(d_pos) 4096;
  pi_nodup : NoDup (flat ranges);
  pi_free : d.(d_size) = s -> forall b, b ∈ flat ranges -> unreserved s b;
  pi_data : forall k, 0 <= k < zlen data ->
    0 <= addr (flat ranges) k < d.(d_pos) /\
    zlookup data k = Some (byte_at d.(d_file) (addr (flat ranges) k)) }.

Lemma skip_aligned d b :
  d.(d_block_size) = 4096 -> size_ok d.(d_size) -> uint 32 b -> d.(d_pos) = b * 4096 ->
  exists e, skip_reserved_metadata_blocks d = Some (seek_to d (e * 4096)) /\
    b <= e <= b + 1025 /\ uint 32 e /\ unreserved d.(d_size) e.
Proof.
  intros Hbs Hs Hb Hp. unfold skip_reserved_metadata_blocks. rewrite Hbs, Hp, Z_mod_mult. cbn [negb Z.eqb].
  destruct (reserved_end_spec _ b Hs Hb) as (e & E & He & Hu & Hfree).
  assert (Hcur : forall x, uint 32 x -> current_block (seek_to d (x * 4096)) = x).
  { intros x Hx. unfold current_block, seek_to. simpl. rewrite Hbs, Z.div_mul by lia. by apply wrap_id. }
  assert (Hseek : d = seek_to d (b * 4096)) by (destruct d; simpl in *; by subst).
  exists e. split; [|done]. cbn [skip_loop].
  assert (Hcd : current_block d = b) by (rewrite Hseek; by apply Hcur). rewrite Hcd, Hbs, E.
  cbn [mbind option_bind]. destruct (Z.eqb_spec e b) as [->|Hne]; [by rewrite <- Hseek|].
  unfold seek_to_block, umul. rewrite Hbs, chk_some by (destruct Hu; unfold uint; lia).
  cbn [mbind option_bind]. rewrite Hcur by done. unfold seek_to. simpl. rewrite Hbs, Hfree.
  cbn [mbind option_bind]. by rewrite Z.eqb_refl.
Qed.

Lemma neg_mod_aligned p : p mod 4096 = 0 -> (- p) mod 4096 = 0.
Proof. intros H. rewrite Z.mod_opp_l_z by lia. done. Qed.

Lemma neg_mod_unaligned p : p mod 4096 <> 0 -> (- p) mod 4096 = 4096 - p mod 4096.
Proof. intros H. by rewrite Z.mod_opp_l_nz. Qed.

(** The two cases of the loop body: the block that data [c] is written to. *)
Definition target (d : disk) (ranges : list BlockRange) (d1 : disk) (ranges' : list BlockRange) : Prop :=
  (d.(d_pos) mod 4096 <> 0 /\ d1 = d /\ ranges' = ranges) \/
  (d.(d_pos) mod 4096 = 0 /\ exists e, d1 = seek_to d (e * 4096) /\
     d.(d_pos) <= e * 4096 <= d.(d_pos) + 1025 * 4096 /\ unreserved d.(d_size) e /\
     Forall range_pos ranges' /\ flat ranges' = flat ranges ++ [e] /\
     exists r, list.last ranges' = Some r /\ r.(br_end) = e + 1).

Lemma payload_target s d ranges data :
  payload_inv s d ranges data -> d.(d_pos) < 2 ^ 44 - 1026 * 4096 ->
  exists d1 ranges', skip_reserved_metadata_blocks d = Some d1 /\
    record_block_range ranges (current_block d1) = Some ranges' /\ target d ranges d1 ranges'.
Proof.
  intros [Hbs Hp0 _ [Hs _] Hr Hlen Hlast Hbelow _ _ _] Hp.
  pose proof (Z.div_mod (d_pos d) 4096). pose proof (Z.mod_pos_bound (d_pos d) 4096).
  destruct (Z.eq_dec (d.(d_pos) mod 4096) 0) as [Hz|Hnz].
  - destruct (skip_aligned d (d_pos d / 4096) Hbs Hs) as (e & E & He & Hu & Hfree);
      [unfold uint; lia|lia|].
    assert (Hc : current_block (seek_to d (e * 4096)) = e).
    { unfold current_block, seek_to. simpl. rewrite Hbs, Z.div_mul by lia. by apply wrap_id. }
    destruct (record_new ranges e Hr) as (rs & Ers & Hrs & Hflat & Hl); [lia| |].
    { intros b Hb%Hbelow. unfold div_ceil in Hb.
      replace (d_pos d + 4096 - 1) with (d_pos d / 4096 * 4096 + 4095) in Hb by lia.
      rewrite Z.div_add_l in Hb by lia. change (4095 / 4096) with 0 in Hb. lia. }
    do 2 eexists. split; [done|]. rewrite Hc. split; [done|]. right. split; [done|].
    exists e. split; [done|]. split; [lia|done].
  - destruct (Hlast Hnz) as (r & Hl & He). exists d, ranges.
    unfold skip_reserved_metadata_blocks. rewrite Hbs, (proj2 (Z.eqb_neq _ _)) by done. split; [done|].
    split; [|by left]. unfold current_block. rewrite Hbs, wrap_id by (unfold uint; lia).
    eapply record_same; [done|]. apply last_Some in Hl as [rs ->]. apply Forall_app in Hr as [_ Hr].
    rewrite Forall_singleton in Hr. destruct Hr.
    split; [|lia]. lia.
Qed.

(** The common view of both cases: the block [q] of the position is the last one
    recorded and the data ends right at the position. *)
Record ready (s : Z) (d d1 : disk) (ranges ranges' : list BlockRange) (data : buffer) (pre : list Z) : Prop := {
  rd_pos : d.(d_pos) <= d1.(d_pos) /\
           (d1.(d_pos) mod 4096 = 0 -> d1.(d_pos) <= d.(d_pos) + 1025 * 4096) /\
           (d1.(d_pos) mod 4096 <> 0 -> d1 = d);
  rd_disk : d1 = seek_to d d1.(d_pos);
  rd_ranges : Forall range_pos ranges';
  rd_last : exists r, list.last ranges' = Some r /\ r.(br_end) = d1.(d_pos) / 4096 + 1;
  rd_flat : flat ranges' = pre ++ [d1.(d_pos) / 4096];
  rd_len : zlen data = zlen pre * 4096 + d1.(d_pos) mod 4096;
  rd_below : forall b, b ∈ flat ranges' -> b < d1.(d_pos) / 4096 + 1;
  rd_nodup : NoDup (flat ranges');
  rd_free : d.(d_size) = s -> forall b, b ∈ flat ranges' -> unreserved s b;
  rd_addr : forall k, 0 <= k < zlen data -> addr (flat ranges') k = addr (flat ranges) k }.

Lemma div_ceil_aligned p : p mod 4096 = 0 -> div_ceil p 4096 = p / 4096.
Proof.
  intros H. unfold div_ceil. pose proof (Z.div_mod p 4096).
  replace (p + 4096 - 1) with (p / 4096 * 4096 + 4095) by lia.
  rewrite Z.div_add_l by lia. change (4095 / 4096) with 0. lia.
Qed.

Lemma div_ceil_inside p r : p mod 4096 = r -> 0 < r -> div_ceil p 4096 = p / 4096 + 1.
Proof.
  intros Hr H. unfold div_ceil. pose proof (Z.div_mod p 4096). pose proof (Z.mod_pos_bound p 4096).
  replace (p + 4096 - 1) with ((p / 4096 + 1) * 4096 + (r - 1)) by lia.
  rewrite Z.div_add_l by lia. rewrite (Z.div_small (r - 1)) by lia. lia.
Qed.

Lemma zlookup_snoc {A} (l : list A) x : zlookup (l ++ [x]) (zlen l) = Some x.
Proof. rewrite zlookup_nonneg by apply zlen_nonneg. unfold zlen. rewrite Nat2Z.id. by apply list_lookup_middle. Qed.

Lemma zlookup_app_lt {A} (l l2 : list A) i : i < zlen l -> zlookup (l ++ l2) i = zlookup l i.
Proof.
  intros Hi. unfold zlookup. destruct (Z.leb_spec 0 i); [|done].
  apply lookup_app_l. unfold zlen in *. lia.
Qed.

Lemma ready_unaligned s d ranges data :
  payload_inv s d ranges data -> d.(d_pos) mod 4096 <> 0 -> exists pre, ready s d d ranges ranges data pre.
Proof.
  intros [Hbs Hp0 Hkeep Hs Hr Hlen Hlast Hbelow Hnd Hfree Hdata] Hnz.
  destruct (Hlast Hnz) as (r & Hl & He). pose proof Hl as Hl'. apply last_Some in Hl' as [rs ->].
  assert (Hrp : range_pos r) by (apply Forall_app in Hr as [_ Hr]; by rewrite Forall_singleton in Hr).
  assert (Hf : flat (rs ++ [r]) = (flat rs ++ seqZ (br_start r) (br_end r - br_start r - 1)) ++ [d_pos d / 4096]).
  { rewrite flat_app, flat_singleton, <- app_assoc. f_equal. unfold range_blocks, size_of. destruct Hrp.
    replace (br_end r - br_start r) with (br_end r - br_start r - 1 + 1) at 1 by lia.
    rewrite seqZ_snoc by lia. do 2 f_equal. lia. }
  eexists. split; try done.
  - by destruct d.
  - eauto.
  - rewrite Hlen, Hf, zlen_app, neg_mod_unaligned by done. zlen. lia.
  - intros b Hb%Hbelow. pose proof (Z.mod_pos_bound (d_pos d) 4096).
    rewrite (div_ceil_inside _ _ eq_refl) in Hb by lia. done.
Qed.

Lemma ready_aligned s d ranges data d1 ranges' e :
  payload_inv s d ranges data -> d.(d_pos) mod 4096 = 0 -> d1 = seek_to d (e * 4096) ->
  d.(d_pos) <= e * 4096 <= d.(d_pos) + 1025 * 4096 -> unreserved d.(d_size) e ->
  Forall range_pos ranges' -> flat ranges' = flat ranges ++ [e] ->
  (exists r, list.last ranges' = Some r /\ r.(br_end) = e + 1) ->
  ready s d d1 ranges ranges' data (flat ranges).
Proof.
  intros [Hbs Hp0 Hkeep Hs Hr Hlen Hlast Hbelow Hnd Hfree Hdata] Hz -> He Hu Hr' Hf Hl.
  assert (Hq : e * 4096 / 4096 = e) by (apply Z.div_mul; lia).
  assert (Hm : e * 4096 mod 4096 = 0) by apply Z_mod_mult.
  pose proof (Z.div_mod (d_pos d) 4096). rewrite neg_mod_aligned, Z.sub_0_r in Hlen by done.
  rewrite div_ceil_aligned in Hbelow by done.
  assert (Hnew : forall b, b ∈ flat ranges -> b < e) by (intros b Hb%Hbelow; lia).
  split; simpl; rewrite ?Hq, ?Hm; try done.
  - split; [lia|]. split; [lia|done].
  - lia.
  - intros b. rewrite Hf, elem_of_app, list_elem_of_singleton. intros [Hb%Hnew| ->]; lia.
  - rewrite Hf. apply list.NoDup_app. split; [done|]. split; [|apply NoDup_singleton].
    intros b Hb%Hnew ->%list_elem_of_singleton. lia.
  - intros Hsz b. rewrite Hf, elem_of_app, list_elem_of_singleton.
    intros [Hb| ->]; [by apply Hfree|by rewrite <- Hsz].
  - intros k Hk. rewrite Hf. unfold addr. rewrite zlookup_app_lt; [done|].
    apply Z.div_lt_upper_bound; lia.
Qed.

Lemma payload_ready s d ranges data :
  payload_inv s d ranges data -> d.(d_pos) < 2 ^ 44 - 1026 * 4096 ->
  exists d1 ranges' pre, skip_reserved_metadata_blocks d = Some d1 /\
    record_block_range ranges (current_block d1) = Some ranges' /\ ready s d d1 ranges ranges' data pre.
Proof.
  intros Hinv Hp. destruct (payload_target _ _ _ _ Hinv Hp) as (d1 & ranges' & Es & Er & Ht).
  destruct Ht as [(Hnz & -> & ->)|(Hz & e & -> & He & Hu & Hr & Hf & Hl)].
  - destruct (ready_unaligned _ _ _ _ Hinv Hnz) as [pre ?]. by exists d, ranges, pre.
  - do 3 eexists. split; [done|]. split; [done|]. by eapply ready_aligned.
Qed.

(** Writing [c] into the current block. *)
Lemma payload_step s d d1 ranges ranges' data pre c :
  payload_inv s d ranges data -> ready s d d1 ranges ranges' data pre ->
  0 < zlen c <= 4096 - d1.(d_pos) mod 4096 -> d1.(d_pos) + zlen c <= 2 ^ 44 - 4096 ->
  payload_inv s (write_here d1 c) ranges' (data ++ c).
Proof.
  intros Hinv [Hpos Hdisk Hr Hl Hf Hlen Hbelow Hnd Hfree Haddr] Hc Hmax.
  destruct Hinv as [Hbs Hp0 [Hk0 Hkeep] [[Hs0 Hs1] Hss] _ _ _ _ _ _ Hdata].
  set (p := d1.(d_pos)) in *. set (q := p / 4096) in *. set (r := p mod 4096) in *.
  assert (Hp : p = q * 4096 + r /\ 0 <= r < 4096).
  { pose proof (Z.div_mod p 4096). pose proof (Z.mod_pos_bound p 4096). lia. }
  assert (Hsz : d_size d1 = d_size d) by (by rewrite Hdisk).
  assert (Hfile : d_file d1 = d_file d) by (by rewrite Hdisk).
  assert (Hbs1 : d_block_size d1 = 4096) by (by rewrite Hdisk).
  pose proof (zlen_nonneg pre). pose proof (zlen_nonneg data).
  assert (Hdiv : (p + zlen c) mod 4096 <> 0 -> (p + zlen c) / 4096 = q).
  { intros Hm. symmetry. apply (Z.div_unique _ _ _ (r + zlen c)); [|lia].
    destruct (Z.eq_dec (r + zlen c) 4096) as [E|]; [|lia]. destruct Hm.
    replace (p + zlen c) with ((q + 1) * 4096) by lia. apply Z_mod_mult. }
  assert (Hceil : div_ceil (p + zlen c) 4096 = q + 1).
  { unfold div_ceil. symmetry. apply (Z.div_unique _ _ _ (r + zlen c - 1)); lia. }
  assert (Hnew : forall k, zlen data <= k < zlen data + zlen c ->
            addr (flat ranges') k = p + (k - zlen data)).
  { intros k Hk. unfold addr. rewrite Hf.
    assert (Hkq : k / 4096 = zlen pre) by (symmetry; apply (Z.div_unique _ _ _ (r + (k - zlen data))); lia).
    assert (Hkm : k mod 4096 = r + (k - zlen data)) by (symmetry; apply (Z.mod_unique _ _ (zlen pre)); lia).
    rewrite Hkq, Hkm, zlookup_snoc. simpl. lia. }
  split; simpl; rewrite ?Hsz, ?Hfile; fold p; try done; try lia.
  - split; [lia|]. intros x Hx. rewrite byte_at_write by lia.
    rewrite (proj2 (Z.leb_gt p x)) by lia. by apply Hkeep.
  - unfold size_ok. lia.
  - rewrite zlen_app, Hf, zlen_app, Hlen. zlen.
    assert (E : (- (p + zlen c)) mod 4096 = 4096 - r - zlen c)
      by (symmetry; apply (Z.mod_unique _ _ (- q - 1)); lia). lia.
  - intros Hm. rewrite Hdiv by done. done.
  - intros b Hb%Hbelow. by rewrite Hceil.
  - intros Hs. apply Hfree. lia.
  - intros k Hk. rewrite zlen_app in Hk. destruct (Z.lt_ge_cases k (zlen data)) as [Hlt|Hge].
    + destruct (Hdata k) as [Ha Hd]; [lia|]. rewrite Haddr by lia. split; [lia|].
      rewrite zlookup_app_lt, Hd by lia. f_equal. rewrite byte_at_write by lia.
      by rewrite (proj2 (Z.leb_gt p _)) by lia.
    + rewrite Hnew by lia. split; [lia|]. rewrite byte_at_write by lia.
      rewrite (proj2 (Z.leb_le p _)), (proj2 (Z.ltb_lt _ _)) by lia. cbn [andb].
      replace (p + (k - zlen data) - p) with (k - zlen data) by lia.
      unfold byte_at. rewrite !zlookup_nonneg by lia. unfold zlen in *.
      rewrite lookup_app_r by lia. replace (Z.to_nat k - length data)%nat with (Z.to_nat (k - Z.of_nat (length data))) by lia.
      destruct (lookup_lt_is_Some_2 c (Z.to_nat (k - Z.of_nat (length data)))) as [x Hx]; [lia|]. by rewrite Hx.
Qed.

(** A position from which [n] more payload bytes surely fit on the disk: every
    block may be pushed back by one reserved area. *)
Definition room (limit : Z) (d : disk) (n : Z) : Prop :=
  if n =? 0 then d.(d_pos) <= limit else d.(d_pos) + 1026 * (n + 4096) <= limit.

Lemma write_payload_loop_spec limit fuel : limit <= 2 ^ 44 - 4096 -> forall s d ranges data bytes,
  payload_inv s d ranges data -> zlen bytes <= Z.of_nat fuel -> room limit d (zlen bytes) ->
  exists d' ranges', write_payload_loop fuel d bytes ranges = Some (d', ranges') /\
    payload_inv s d' ranges' (data ++ bytes) /\ d'.(d_pos) <= limit.
Proof.
  intros Hlim. induction fuel as [|fuel IH]; intros s d ranges data bytes Hinv Hfuel Hroom;
    pose proof (zlen_nonneg bytes); cbn [write_payload_loop].
  all: destruct (Z.eqb_spec (zlen bytes) 0) as [Hz|Hnz].
  1,3: destruct bytes; [|rewrite zlen_cons in Hz; pose proof (zlen_nonneg bytes); lia];
       unfold room in Hroom; rewrite Hz in Hroom; simpl in Hroom; rewrite app_nil_r; eauto.
  1: lia.
  unfold room in Hroom. rewrite (proj2 (Z.eqb_neq _ _)) in Hroom by done.
  pose proof (pi_pos _ _ _ _ Hinv).
  destruct (payload_ready _ _ _ _ Hinv) as (d1 & ranges' & pre & -> & Er & Hrd); [lia|].
  cbn [mbind option_bind]. rewrite Er. cbn [mbind option_bind].
  assert (Hbs1 : d_block_size d1 = 4096)
    by (rewrite (rd_disk _ _ _ _ _ _ _ Hrd); apply (pi_bs _ _ _ _ Hinv)).
  rewrite Hbs1. pose proof (Z.mod_pos_bound (d_pos d1) 4096 ltac:(lia)) as Hmod.
  destruct (rd_pos _ _ _ _ _ _ _ Hrd) as (Hle & Hal & Hun).
  assert (Hd1 : d_pos d1 <= d_pos d + 1025 * 4096 /\ (d_pos d1 mod 4096 <> 0 -> d_pos d1 = d_pos d)).
  { destruct (Z.eq_dec (d_pos d1 mod 4096) 0) as [E|E]; [split; [by apply Hal|done]|].
    rewrite (Hun E). split; [lia|done]. }
  set (w := Z.min (4096 - d_pos d1 mod 4096) (zlen bytes)).
  assert (Hw : 0 < w /\ w <= zlen bytes /\ w <= 4096 - d_pos d1 mod 4096) by lia.
  set (c := take (Z.to_nat w) bytes).
  assert (Hc : zlen c = w) by (unfold c; rewrite zlen_take; lia).
  assert (Hrest : zlen (drop (Z.to_nat w) bytes) = zlen bytes - w) by (rewrite zlen_drop; lia).
  destruct (IH s (write_here d1 c) ranges' (data ++ c) (drop (Z.to_nat w) bytes)) as (d' & rs & E & Hinv' & Hlast).
  - eapply payload_step; [done|done|rewrite Hc; lia|rewrite Hc; lia].
  - rewrite Hrest. lia.
  - unfold room. rewrite Hrest. simpl. rewrite Hc.
    destruct (Z.eqb_spec (zlen bytes - w) 0); [lia|].
    assert (w = 4096 - d_pos d1 mod 4096) by lia.
    destruct (Z.eq_dec (d_pos d1 mod 4096) 0); lia.
  - exists d', rs. split; [done|]. rewrite <- app_assoc in Hinv'. unfold c in Hinv'.
    by rewrite take_drop in Hinv'.
Qed.

(** The chunks of a reader, none of them empty. *)
Lemma write_from_reader_spec s : forall chunks d ranges data limit,
  payload_inv s d ranges data -> Forall (fun c => c <> []) chunks ->
  limit <= 2 ^ 44 - 4096 -> d.(d_pos) + 1026 * (zlen (concat chunks) + 4096 * zlen chunks) <= limit ->
  zlen data + zlen (concat chunks) <= MAX_FILE_SIZE ->
  exists d' ranges', write_payload_from_reader d chunks (zlen data) ranges =
      (Ok (zlen (data ++ concat chunks)), (d', ranges')) /\
    payload_inv s d' ranges' (data ++ concat chunks) /\ d'.(d_pos) <= limit.
Proof.
  induction chunks as [|c chunks IH]; intros d ranges data limit Hinv Hne Hlim Hroom Hmax;
    cbn [concat write_payload_from_reader].
  { exists d, ranges. rewrite app_nil_r. unfold zlen in Hroom. simpl in Hroom. split; [done|]. split; [done|lia]. }
  apply Forall_cons_1 in Hne as [Hc Hne]. cbn [concat] in *. rewrite zlen_app, zlen_cons in *.
  pose proof (zlen_nonneg c). pose proof (zlen_nonneg (concat chunks)). pose proof (zlen_nonneg data).
  pose proof (zlen_nonneg chunks).
  destruct (Z.eqb_spec (zlen c) 0) as [Hz|Hz]; [destruct c; [done|rewrite zlen_cons in Hz; pose proof (zlen_nonneg c); lia]|].
  unfold MAX_FILE_SIZE in *. unfold uadd. rewrite chk_some by (unfold uint; lia).
  rewrite (proj2 (Z.ltb_ge _ _)) by lia.
  destruct (write_payload_loop_spec (limit - 1026 * (zlen (concat chunks) + 4096 * zlen chunks)) (length c)
              ltac:(lia) s d ranges data c Hinv) as (d1 & r1 & E1 & Hinv1 & Hpos1);
    [unfold zlen; lia|unfold room; rewrite (proj2 (Z.eqb_neq _ _)) by done; lia|].
  unfold write_payload_bytes. rewrite E1. cbn [fst snd].
  destruct (IH d1 r1 (data ++ c) limit Hinv1 Hne Hlim) as (d' & r' & E & Hinv' & Hpos');
    [lia|rewrite zlen_app; lia|].
  exists d', r'. rewrite !zlen_app in *. rewrite <- app_assoc in Hinv'. rewrite E.
  split; [by rewrite Z.add_assoc|done].
Qed.

Lemma align_to_block_spec d :
  d.(d_block_size) = 4096 -> 0 <= d.(d_pos) <= 2 ^ 44 - 4096 ->
  exists p, align_to_block d = Some (seek_to d p) /\ p = div_ceil d.(d_pos) 4096 * 4096.
Proof.
  intros Hbs Hp. unfold align_to_block, current_block, seek_to_block. rewrite Hbs.
  pose proof (Z.div_mod (d_pos d) 4096). pose proof (Z.mod_pos_bound (d_pos d) 4096).
  destruct (Z.eqb_spec (d_pos d mod 4096) 0) as [Hz|Hnz]; cbn [negb].
  - exists (d_pos d). split; [by destruct d|]. rewrite div_ceil_aligned by done. lia.
  - rewrite wrap_id by (unfold uint; lia). unfold uadd, umul.
    rewrite chk_some by (unfold uint; lia). cbn [mbind option_bind].
    rewrite chk_some by (unfold uint; lia). cbn [mbind option_bind]. eexists. split; [done|].
    rewrite (div_ceil_inside _ _ eq_refl) by lia. done.
Qed.

(** The invariant holds before the first byte. *)
Lemma payload_inv_start d :
  d.(d_block_size) = 4096 -> size_ok d.(d_size) -> 0 <= p0 <= d.(d_pos) -> d.(d_pos) <= 2 ^ 44 - 4096 ->
  d.(d_pos) mod 4096 = 0 ->
  d.(d_file) = f0 -> payload_inv d.(d_size) d [] [].
Proof.
  intros Hbs Hs Hp Hmax Hz Hf. split; try done; try lia.
  - split; [lia|]. by rewrite Hf.
  - unfold flat. simpl. rewrite neg_mod_aligned by done. done.
  - intros b Hb. by apply elem_of_nil in Hb.
  - constructor.
  - intros _ b Hb. by apply elem_of_nil in Hb.
  - intros k Hk. unfold zlen in Hk. simpl in Hk. lia.
Qed.
End Payload.

(** C2 payload_placed: Writing a payload allocates as many distinct blocks as it needs, none of
    them in the metadata reserved at the start of a block group (unless the image
    had to grow, which enlarges the descriptor area), stores byte [k] at the
    address the recorded ranges give it, leaves every earlier byte of the image
    alone, and ends on a block boundary.  The blocks have 4096 bytes, and the payload ends
    well within the 2^44 bytes that 32-bit block numbers reach. *)
Theorem payload_placed d bytes :
  d.(d_block_size) = 4096 -> size_ok d.(d_size) -> 0 <= d.(d_pos) ->
  d.(d_pos) + 1026 * (zlen bytes + 8192) <= 2 ^ 44 - 4096 ->
  exists d' ranges, write_aligned_payload_bytes d bytes = Some (d', ranges) /\
    NoDup (flat ranges) /\ zlen (flat ranges) = div_ceil (zlen bytes) 4096 /\
    (forall k, 0 <= k < zlen bytes ->
       zlookup bytes k = Some (byte_at d'.(d_file) (addr (flat ranges) k))) /\
    (d'.(d_size) = d.(d_size) -> forall b, b ∈ flat ranges -> unreserved d.(d_size) b) /\
    (forall p, 0 <= p < d.(d_pos) -> byte_at d'.(d_file) p = byte_at d.(d_file) p) /\
    d'.(d_pos) mod 4096 = 0.
Proof.
  intros Hbs Hs Hp Hroom. pose proof (zlen_nonneg bytes). unfold write_aligned_payload_bytes.
  destruct (align_to_block_spec d Hbs) as (p1 & -> & Hp1); [lia|]. cbn [mbind option_bind].
  pose proof (div_ceil_bounds (d_pos d) 4096 ltac:(lia) ltac:(lia)).
  destruct (skip_aligned (seek_to d p1) (p1 / 4096)) as (e & -> & He & Hu & _); [done|done|..].
  { unfold uint. split; [apply Z.div_pos; lia|]. apply Z.div_lt_upper_bound; lia. }
  { simpl. rewrite Hp1, Z.div_mul by lia. done. }
  rewrite Hp1, Z.div_mul in He by lia. cbn [mbind option_bind].
  set (d1 := seek_to (seek_to d p1) (e * 4096)).
  assert (Hinv : payload_inv (d_file d) (d_pos d) (d_size d) d1 [] []).
  { apply (payload_inv_start (d_file d) (d_pos d) d1); try done; simpl; [lia|lia|apply Z_mod_mult]. }
  destruct (write_payload_loop_spec (d_file d) (d_pos d) (2 ^ 44 - 4096) (length bytes) ltac:(done) (d_size d) d1 [] [] bytes Hinv)
    as (d2 & ranges & E & Hinv2 & _); [unfold zlen; lia| |].
  { unfold room. simpl. case_match; lia. }
  unfold write_payload_bytes. rewrite E. cbn [mbind option_bind fst snd].
  destruct Hinv2 as [Hbs2 Hp2 [_ Hkeep] [[Hs2a Hs2b] _] _ Hlen _ Hbelow Hnd Hfree Hdata].
  rewrite app_nil_l in *.
  destruct (align_to_block_spec d2 Hbs2 Hp2) as (p3 & -> & Hp3). cbn [mbind option_bind].
  do 2 eexists. split; [done|]. split; [done|]. split; [|split; [|split; [done|split; [done|]]]].
  - pose proof (Z.mod_pos_bound (- d_pos d2) 4096 ltac:(lia)). unfold div_ceil.
    apply (Z.div_unique _ _ _ (4095 - (- d_pos d2) mod 4096)); lia.
  - intros k Hk. by apply Hdata.
  - simpl. rewrite Hp3. apply Z_mod_mult.
Qed.

Lemma payload_placed_witness :
  exists d' ranges, write_aligned_payload_bytes (mk_disk [] 5000 4096 (64 * 1024 * 1024)) [1; 2; 3] = Some (d', ranges) /\
    NoDup (flat ranges) /\ zlen (flat ranges) = 1 /\
    (forall k, 0 <= k < 3 -> zlookup [1; 2; 3] k = Some (byte_at d'.(d_file) (addr (flat ranges) k))) /\
    (d'.(d_size) = 64 * 1024 * 1024 -> forall b, b ∈ flat ranges -> unreserved (64 * 1024 * 1024) b) /\
    (forall p, 0 <= p < 5000 -> byte_at d'.(d_file) p = byte_at [] p) /\
    d'.(d_pos) mod 4096 = 0.
Proof.
  apply (payload_placed (mk_disk [] 5000 4096 (64 * 1024 * 1024)) [1; 2; 3]); by vm_compute.
Defined.

(** A group carries a superblock copy exactly when its number is 0, 1 or a
    positive power of 3, 5 or 7, the rule ext4 readers rely on to find backups. *)
Theorem sparse_super_rule group :
  uint 32 group -> exists b, has_sparse_super group = Some b /\ (b = true <-> sparse_group group).
Proof. apply has_sparse_super_spec. Qed.

Lemma sparse_super_rule_witness :
  exists b, has_sparse_super 125 = Some b /\ (b = true <-> sparse_group 125).
Proof. apply (sparse_super_rule 125). by vm_compute. Defined.

(** From any aligned position, skipping the reserved metadata takes at most
    one jump inside the current group and ends on a block that is not reserved:
    the loop terminates. *)
Theorem skip_reserved_terminates d b :
  d.(d_block_size) = 4096 -> size_ok d.(d_size) -> uint 32 b -> d.(d_pos) = b * 4096 ->
  exists e, skip_reserved_metadata_blocks d = Some (seek_to d (e * 4096)) /\
    b <= e <= b + 1025 /\ uint 32 e /\ unreserved d.(d_size) e.
Proof. apply skip_aligned. Qed.

Lemma skip_reserved_terminates_witness :
  exists e, skip_reserved_metadata_blocks (mk_disk [] (32768 * 4096) 4096 (2 ^ 34)) =
      Some (seek_to (mk_disk [] (32768 * 4096) 4096 (2 ^ 34)) (e * 4096)) /\
    32768 <= e <= 32768 + 1025 /\ uint 32 e /\ unreserved (2 ^ 34) e.
Proof.
  apply (skip_reserved_terminates (mk_disk [] (32768 * 4096) 4096 (2 ^ 34)) 32768); by vm_compute.
Defined.

