(* ===== verification/Paths.v ===== *)
(** * Path strings

    The path helpers of [common/ext4/src/formatter.rs] ([parent_of], [basename],
    [validate_path_component_names]) and the part of [std::path] they and the file
    tree rely on ([Path::components] on Unix, [PathBuf::push]).  A path is its
    bytes. *)

From stdpp Require Import base list option numbers strings.
From S2P Require Import Prelude Bytes Utf8 Constants Errors.

Definition slash : Z := 0x2F.
Definition root_path : buffer := [slash].
Definition dot : buffer := [0x2E].

(** The pieces between slashes. *)
Fixpoint split_slash (p : buffer) : list buffer :=
  match p with
  | [] => [[]]
  | c :: p =>
      if c =? slash then [] :: split_slash p
      else match split_slash p with
           | [] => [[c]]
           | s :: ss => (c :: s) :: ss
           end
  end.

(** A piece that [components] yields as [Normal] or [ParentDir]. *)
Definition kept (s : buffer) : bool :=
  negb (bool_decide (s = [])) && negb (bool_decide (s = dot)).

(** [Path::components]: the root, or a leading [.], then the pieces that are
    neither empty nor [.]. *)
Definition components (p : buffer) : list buffer :=
  match p with
  | c :: _ => (if c =? slash then [root_path] else [])
  | [] => []
  end ++
  match split_slash p with
  | s :: _ => if bool_decide (s = dot) then [dot] else []
  | [] => []
  end ++
  filter (fun s => kept s = true) (split_slash p).

(** [PathBuf::push] *)
Definition push (p part : buffer) : buffer :=
  match part with
  | c :: _ => if c =? slash then part
              else match list.last p with
                   | None => part
                   | Some l => if l =? slash then p ++ part else p ++ [slash] ++ part
                   end
  | [] => match list.last p with
          | None => []
          | Some l => if l =? slash then p else p ++ [slash]
          end
  end.

(** [trim_end_matches('/')], on the reversed bytes. *)
Fixpoint trim_rev (r : buffer) : buffer :=
  match r with
  | c :: r' => if c =? slash then trim_rev r' else r
  | [] => []
  end.
Definition trim_end_slashes (p : buffer) : buffer := rev (trim_rev (rev p)).

(** [rfind('/')] as a cut: what precedes the last slash and what follows it. *)
Fixpoint cut_rev (r acc : buffer) : option (buffer * buffer) :=
  match r with
  | [] => None
  | c :: r => if c =? slash then Some (rev r, acc) else cut_rev r (c :: acc)
  end.
Definition rcut (p : buffer) : option (buffer * buffer) := cut_rev (rev p) [].

(** [fn parent_of] *)
Definition parent_of (path : buffer) : buffer :=
  if bool_decide (path = root_path) then root_path
  else match rcut (trim_end_slashes path) with
       | Some ([], _) => root_path
       | Some (pre, _) => pre
       | None => root_path
       end.

(** [fn basename] *)
Definition basename (path : buffer) : buffer :=
  if bool_decide (path = root_path) then root_path
  else let trimmed := trim_end_slashes path in
       match rcut trimmed with
       | Some (_, post) => post
       | None => trimmed
       end.

(** [fn validate_path_component_names]: a [Normal] component longer than a
    directory entry can hold is refused ([..], the only other one that survives
    [components], is two bytes long). *)
Definition validate_path_component_names (path : buffer) : outcome FormatError unit :=
  match filter (fun s => EXT4_NAME_LEN < zlen s) (components path) with
  | [] => Ok tt
  | name :: _ => Err (InvalidName name)
  end.

(** ** Lemmas *)

Definition no_slash (s : buffer) : Prop := Forall (fun c => c <> slash) s.

(** A name a directory entry can carry. *)
Definition name_ok (s : buffer) : Prop := no_slash s /\ s <> [] /\ s <> dot.

Lemma split_no_slash s : no_slash s -> split_slash s = [s].
Proof.
  induction 1 as [|c s Hc _ IH]; [done|]. simpl. rewrite (proj2 (Z.eqb_neq _ _)) by done. by rewrite IH.
Qed.

Lemma split_nonempty p : split_slash p <> [].
Proof. destruct p; simpl; [done|]. case_match; [done|]. by case_match. Qed.

Lemma split_app_slash p s : split_slash (p ++ slash :: s) = split_slash p ++ split_slash s.
Proof.
  induction p as [|c p IH]; [done|]. simpl. destruct (Z.eqb_spec c slash); [by rewrite IH|].
  rewrite IH. destruct (split_slash p) as [|x xs] eqn:E; [by apply split_nonempty in E|]. done.
Qed.

Lemma kept_name s : name_ok s -> kept s = true.
Proof.
  intros (_ & H1 & H2). unfold kept. by rewrite !bool_decide_eq_false_2.
Qed.

(** Joining a name to an absolute path adds one component. *)
Lemma components_snoc p s :
  name_ok s -> components (slash :: p ++ slash :: s) = components (slash :: p) ++ [s].
Proof.
  intros Hs. pose proof (kept_name s Hs) as Hk. destruct Hs as (Hn & _).
  unfold components. rewrite Z.eqb_refl. change (slash :: p ++ slash :: s) with ((slash :: p) ++ slash :: s).
  rewrite split_app_slash, (split_no_slash s Hn), filter_app.
  assert (Hf : filter (fun s => kept s = true) [s] = [s]) by (rewrite filter_cons_True; done).
  rewrite Hf. cbn [split_slash]. rewrite Z.eqb_refl. cbn [app]. by rewrite app_comm_cons.
Qed.

Lemma components_root_name s : name_ok s -> components (slash :: s) = [root_path; s].
Proof.
  intros Hs. pose proof (kept_name s Hs) as Hk. destruct Hs as (Hn & _).
  unfold components. cbn [split_slash]. rewrite Z.eqb_refl. cbn [app].
  rewrite (split_no_slash s Hn). rewrite filter_cons_False by done. by rewrite filter_cons_True.
Qed.

Lemma cut_rev_spec r acc : no_slash r -> cut_rev r acc = None.
Proof.
  revert acc. induction r as [|c r IH]; intros acc Hr; [done|]. apply Forall_cons_1 in Hr as [Hc Hr].
  simpl. rewrite (proj2 (Z.eqb_neq _ _)) by done. by apply IH.
Qed.

Lemma cut_rev_app s r acc : no_slash s -> cut_rev (s ++ slash :: r) acc = Some (rev r, rev s ++ acc).
Proof.
  revert acc. induction s as [|c s IH]; intros acc Hs; simpl; [done|].
  apply Forall_cons_1 in Hs as [Hc Hs]. rewrite (proj2 (Z.eqb_neq _ _)) by done.
  rewrite IH by done. by rewrite <- app_assoc.
Qed.

Lemma rcut_join p s : no_slash s -> rcut (p ++ slash :: s) = Some (p, s).
Proof.
  intros Hs. unfold rcut. rewrite rev_app_distr. simpl. rewrite <- app_assoc. cbn [app].
  rewrite cut_rev_app by (by apply Forall_rev). by rewrite !rev_involutive, app_nil_r.
Qed.

Lemma trim_end_name p s : no_slash s -> s <> [] -> trim_end_slashes (p ++ slash :: s) = p ++ slash :: s.
Proof.
  intros Hs Hne. unfold trim_end_slashes.
  destruct (exists_last Hne) as (s' & c & ->). apply Forall_app in Hs as [_ Hc].
  rewrite Forall_singleton in Hc. rewrite app_comm_cons, app_assoc, rev_unit. cbn [trim_rev].
  rewrite (proj2 (Z.eqb_neq _ _)) by done. rewrite <- rev_unit. apply rev_involutive.
Qed.

(** What the two helpers give on a well-formed absolute path. *)
Lemma parent_basename_join p s :
  name_ok s -> parent_of (p ++ slash :: s) = (if bool_decide (p = []) then root_path else p) /\
    basename (p ++ slash :: s) = s.
Proof.
  intros (Hn & Hne & _). unfold parent_of, basename.
  rewrite bool_decide_eq_false_2.
  2:{ unfold root_path. destruct p as [|c p]; intros E; simplify_eq/=.
      by destruct p. }
  rewrite trim_end_name, rcut_join by done. split; [|done]. by destruct p.
Qed.

(** The absolute path made of the given names. *)
Definition abs_path (names : list buffer) : buffer :=
  match names with [] => root_path | _ => concat ((fun s => slash :: s) <$> names) end.

Lemma abs_path_snoc names s :
  abs_path (names ++ [s]) = (if bool_decide (names = []) then [] else abs_path names) ++ slash :: s.
Proof.
  destruct names as [|x names]; [simpl; by rewrite app_nil_r|].
  rewrite bool_decide_eq_false_2 by done. unfold abs_path. rewrite <- app_comm_cons.
  rewrite app_comm_cons, fmap_app, concat_app. simpl. by rewrite app_nil_r.
Qed.

Lemma abs_path_last names s : name_ok s -> exists l, list.last (abs_path (names ++ [s])) = Some l /\ l <> slash.
Proof.
  intros (Hn & Hne & _). rewrite abs_path_snoc. destruct (exists_last Hne) as (s' & c & ->).
  exists c. apply Forall_app in Hn as [_ Hc]. rewrite Forall_singleton in Hc. split; [|done].
  rewrite app_comm_cons, app_assoc. apply last_snoc.
Qed.

Lemma components_abs names : Forall name_ok names -> components (abs_path names) = root_path :: names.
Proof.
  induction names as [|s names IH] using rev_ind; intros H; [done|].
  apply Forall_app in H as [Hn Hs]. rewrite Forall_singleton in Hs. rewrite abs_path_snoc.
  destruct names as [|x names]; [by apply components_root_name|].
  rewrite bool_decide_eq_false_2 by done. specialize (IH Hn). unfold abs_path in *.
  rewrite fmap_cons in *. cbn [concat app] in *. rewrite components_snoc by done. by rewrite IH.
Qed.

Lemma push_abs names s :
  Forall name_ok names -> name_ok s -> push (abs_path names) s = abs_path (names ++ [s]).
Proof.
  intros Hn Hs. rewrite abs_path_snoc. destruct Hs as (Hns & Hne & _).
  destruct s as [|c s]; [done|]. apply Forall_cons_1 in Hns as [Hc _].
  unfold push. rewrite (proj2 (Z.eqb_neq c slash)) by done.
  destruct names as [|x names _] using rev_ind; [done|].
  apply Forall_app in Hn as [_ Hx]. rewrite Forall_singleton in Hx.
  destruct (abs_path_last names x Hx) as (l & -> & Hl). rewrite (proj2 (Z.eqb_neq l slash)) by done.
  rewrite bool_decide_eq_false_2 by (by destruct names). done.
Qed.
