(* ===== verification/FileTree.v ===== *)
(** * The in-memory file tree

    [common/ext4/src/file_tree.rs]: a flat vector of nodes that refer to each
    other by index.  [None] is an index panic. *)

From stdpp Require Import base list option numbers strings.
From S2P Require Import Prelude Bytes Utf8 Extent Paths.

Record FileTreeNode := mk_node {
  n_inode : Z; n_name : buffer; n_children : list nat; n_parent : option nat;
  n_blocks : option BlockRange; n_additional_blocks : list BlockRange; n_link : option Z }.

Record FileTree := mk_tree { t_nodes : list FileTreeNode; t_root : nat }.

(** [FileTree::new] *)
Definition new_tree (root_inode : Z) (name : buffer) : FileTree :=
  {| t_nodes := [mk_node root_inode name [] None None [] None]; t_root := 0 |}.

(** [children.iter().find(|c| self.nodes[c].name == name)] *)
Fixpoint find_child (nodes : list FileTreeNode) (name : buffer) (children : list nat) : option (option nat) :=
  match children with
  | [] => Some None
  | c :: cs =>
      n ← nodes !! c;
      if bool_decide (n.(n_name) = name) then Some (Some c) else find_child nodes name cs
  end.

(** The loop of [lookup] over the components. *)
Fixpoint walk (t : FileTree) (current : nat) (comps : list buffer) : option (option nat) :=
  match comps with
  | [] => Some (Some current)
  | name :: comps =>
      if bool_decide (name = root_path) || bool_decide (name = []) then walk t current comps
      else
        node ← t.(t_nodes) !! current;
        found ← find_child t.(t_nodes) name node.(n_children);
        match found with
        | Some child => walk t child comps
        | None => Some None
        end
  end.

(** [FileTree::lookup] *)
Definition lookup (t : FileTree) (path : buffer) : option (option nat) :=
  walk t t.(t_root) (components path).

Definition set_parent (p : option nat) (n : FileTreeNode) : FileTreeNode :=
  mk_node n.(n_inode) n.(n_name) n.(n_children) p n.(n_blocks) n.(n_additional_blocks) n.(n_link).
Definition set_children (cs : list nat) (n : FileTreeNode) : FileTreeNode :=
  mk_node n.(n_inode) n.(n_name) cs n.(n_parent) n.(n_blocks) n.(n_additional_blocks) n.(n_link).

(** [FileTree::add_child] *)
Definition add_child (t : FileTree) (parent : nat) (node : FileTreeNode) : option (FileTree * nat) :=
  let idx := length t.(t_nodes) in
  let nodes := t.(t_nodes) ++ [set_parent (Some parent) node] in
  p ← nodes !! parent;
  Some (mk_tree (<[parent := set_children (p.(n_children) ++ [idx]) p]> nodes) t.(t_root), idx).

(** [children.iter().position(..)], then [children.remove(pos)]. *)
Fixpoint remove_first (nodes : list FileTreeNode) (name : buffer) (children : list nat) : option (list nat) :=
  match children with
  | [] => Some []
  | c :: cs =>
      n ← nodes !! c;
      if bool_decide (n.(n_name) = name) then Some cs
      else cs ← remove_first nodes name cs; Some (c :: cs)
  end.

(** [FileTree::remove_child] *)
Definition remove_child (t : FileTree) (parent : nat) (name : buffer) : option FileTree :=
  p ← t.(t_nodes) !! parent;
  cs ← remove_first t.(t_nodes) name p.(n_children);
  Some (mk_tree (<[parent := set_children cs p]> t.(t_nodes)) t.(t_root)).

(** The parent chain of [node_path], root first; a parent has a smaller index. *)
Fixpoint chain (fuel : nat) (t : FileTree) (current : nat) : option (list buffer) :=
  match fuel with
  | O => None
  | S fuel =>
      n ← t.(t_nodes) !! current;
      match n.(n_parent) with
      | Some p => parts ← chain fuel t p; Some (parts ++ [n.(n_name)])
      | None => Some [n.(n_name)]
      end
  end.

(** [FileTree::node_path] *)
Definition node_path (t : FileTree) (idx : nat) : option buffer :=
  parts ← chain (S (length t.(t_nodes))) t idx;
  Some (fold_left push parts []).

(** ** Well-formed trees *)

(** The root is node 0; every child has a larger index than its parent and names
    it back; siblings have different names. *)
Record tree_wf (t : FileTree) : Prop := {
  tw_root : t.(t_root) = 0%nat;
  tw_some : exists n, t.(t_nodes) !! 0%nat = Some n /\ n.(n_parent) = None;
  tw_child : forall i n c, t.(t_nodes) !! i = Some n -> c ∈ n.(n_children) ->
    (i < c)%nat /\ exists m, t.(t_nodes) !! c = Some m /\ m.(n_parent) = Some i;
  tw_parent : forall i n p, t.(t_nodes) !! i = Some n -> n.(n_parent) = Some p -> (p < i)%nat }.

(** The names of the children of a node. *)
Definition child_names (t : FileTree) (n : FileTreeNode) : list buffer :=
  omap (fun c => n_name <$> t.(t_nodes) !! c) n.(n_children).

Lemma find_child_total (nodes : list FileTreeNode) name cs :
  (forall c, c ∈ cs -> is_Some (nodes !! c)) -> exists r, find_child nodes name cs = Some r.
Proof.
  induction cs as [|c cs IH]; intros H; simpl; [eauto|].
  destruct (H c) as [n ->]; [by left|]. simpl. case_bool_decide; [eauto|].
  apply IH. intros c' Hc. apply H. by right.
Qed.

Lemma find_child_some (nodes : list FileTreeNode) name cs c :
  find_child nodes name cs = Some (Some c) ->
  c ∈ cs /\ exists n, nodes !! c = Some n /\ n.(n_name) = name.
Proof.
  induction cs as [|c' cs IH]; simpl; [done|].
  destruct (nodes !! c') as [n|] eqn:E; simpl; [|done]. case_bool_decide as Hn.
  - intros [= <-]. split; [by left|eauto].
  - intros H. destruct (IH H) as [? ?]. split; [by right|done].
Qed.

(** Nothing found is nothing there. *)
Lemma find_child_none (nodes : list FileTreeNode) name cs c n :
  find_child nodes name cs = Some None -> c ∈ cs -> nodes !! c = Some n -> n.(n_name) <> name.
Proof.
  induction cs as [|c' cs IH]; simpl; [by intros _ ?%elem_of_nil|].
  destruct (nodes !! c') as [n'|] eqn:E; simpl; [|done]. case_bool_decide as Hn; [done|].
  intros H [->|Hc]%elem_of_cons Hc'; [congruence|by apply IH].
Qed.

Lemma new_tree_wf ino name : tree_wf (new_tree ino name).
Proof.
  split; simpl; [done|by eexists|..].
  - intros [|[|i]] n c E Hc; simplify_eq/=. by apply elem_of_nil in Hc.
  - intros [|[|i]] n p E Hp; by simplify_eq/=.
Qed.

(** Lookups never index out of range in a well-formed tree. *)
Lemma walk_total t comps : tree_wf t -> forall cur, is_Some (t.(t_nodes) !! cur) ->
  exists r, walk t cur comps = Some r /\ forall i, r = Some i -> is_Some (t.(t_nodes) !! i).
Proof.
  intros Hwf. induction comps as [|name comps IH]; intros cur [n Hn]; simpl.
  { eexists. split; [done|]. intros i [= <-]. eauto. }
  destruct (_ || _); [by apply IH; eauto|]. rewrite Hn. simpl.
  destruct (find_child_total t.(t_nodes) name n.(n_children)) as [r Hr].
  { intros c Hc. destruct (tw_child _ Hwf _ _ _ Hn Hc) as (_ & m & ? & _). eauto. }
  rewrite Hr. simpl. destruct r as [c|]; [|eexists; split; [done|by intros ?]].
  apply find_child_some in Hr as (_ & m & ? & _). apply IH. eauto.
Qed.

Lemma lookup_total t path : tree_wf t ->
  exists r, lookup t path = Some r /\ forall i, r = Some i -> is_Some (t.(t_nodes) !! i).
Proof.
  intros Hwf. apply walk_total; [done|]. rewrite (tw_root _ Hwf).
  destruct (tw_some _ Hwf) as (n & ? & _). eauto.
Qed.

Lemma walk_app t cur c1 c2 :
  walk t cur (c1 ++ c2) =
    (r ← walk t cur c1; match r with Some i => walk t i c2 | None => Some None end).
Proof.
  revert cur. induction c1 as [|name c1 IH]; intros cur; simpl; [done|].
  destruct (_ || _); [apply IH|]. destruct (t_nodes t !! cur) as [n|]; simpl; [|done].
  destruct (find_child _ _ _) as [[c|]|]; simpl; [apply IH|done..].
Qed.

(** ** Adding a node *)

Lemma find_child_ext (nodes nodes' : list FileTreeNode) name cs :
  (forall c, c ∈ cs -> n_name <$> nodes !! c = n_name <$> nodes' !! c) ->
  find_child nodes name cs = find_child nodes' name cs.
Proof.
  induction cs as [|c cs IH]; intros H; simpl; [done|].
  assert (Hc : n_name <$> nodes !! c = n_name <$> nodes' !! c) by (apply H; by left).
  rewrite IH by (intros c' ?; apply H; by right).
  destruct (nodes !! c), (nodes' !! c); simplify_eq/=; [|done]. by rewrite Hc.
Qed.

Lemma find_child_app (nodes : list FileTreeNode) name cs cs' :
  find_child nodes name (cs ++ cs') =
    (r ← find_child nodes name cs; match r with Some c => Some (Some c) | None => find_child nodes name cs' end).
Proof.
  induction cs as [|c cs IH]; simpl; [done|].
  destruct (nodes !! c); simpl; [|done]. by case_bool_decide.
Qed.

(** Everything about the tree after [add_child]. *)
Record added (t : FileTree) (parent : nat) (node : FileTreeNode) (t' : FileTree) : Prop := {
  ad_root : t'.(t_root) = t.(t_root);
  ad_new : t'.(t_nodes) !! length t.(t_nodes) = Some (set_parent (Some parent) node);
  ad_parent : exists p, t.(t_nodes) !! parent = Some p /\
    t'.(t_nodes) !! parent = Some (set_children (p.(n_children) ++ [length t.(t_nodes)]) p);
  ad_other : forall i, i <> parent -> i <> length t.(t_nodes) -> t'.(t_nodes) !! i = t.(t_nodes) !! i }.

Lemma add_child_added t parent node :
  is_Some (t.(t_nodes) !! parent) ->
  exists t', add_child t parent node = Some (t', length t.(t_nodes)) /\ added t parent node t'.
Proof.
  intros [p Hp]. pose proof (lookup_lt_Some _ _ _ Hp) as Hlt. unfold add_child.
  rewrite lookup_app_l, Hp by done. cbn [mbind option_bind]. eexists. split; [done|]. split; simpl; [done|..].
  - rewrite list_lookup_insert_ne by lia. by apply list_lookup_middle.
  - exists p. split; [done|]. apply list_lookup_insert_eq. rewrite length_app. simpl. lia.
  - intros i Hi Hn. rewrite list_lookup_insert_ne by done.
    destruct (Nat.lt_ge_cases i (length (t_nodes t))); [by apply lookup_app_l|].
    rewrite lookup_app_r by done. rewrite (lookup_ge_None_2 (t_nodes t)) by done.
    apply lookup_ge_None_2. simpl. lia.
Qed.

(** The nodes that existed keep their names. *)
Lemma added_name t parent node t' i :
  added t parent node t' -> (i < length t.(t_nodes))%nat ->
  n_name <$> t'.(t_nodes) !! i = n_name <$> t.(t_nodes) !! i.
Proof.
  intros [_ _ (p & Hp & Hp') Ho] Hi. destruct (Nat.eq_dec i parent) as [->|].
  - by rewrite Hp, Hp'.
  - by rewrite Ho by lia.
Qed.

Lemma added_wf t parent node t' :
  tree_wf t -> added t parent node t' -> node.(n_children) = [] -> tree_wf t'.
Proof.
  intros Hwf Ha Hnc. destruct Ha as [Hr Hn (p & Hp & Hp') Ho].
  pose proof (lookup_lt_Some _ _ _ Hp) as Hlt.
  assert (Hold : forall i n, t_nodes t' !! i = Some n -> i = length (t_nodes t) \/
            exists n0, t_nodes t !! i = Some n0 /\ n_parent n = n_parent n0 /\
              (n_children n = n_children n0 \/ (i = parent /\ n_children n = n_children n0 ++ [length (t_nodes t)]))).
  { intros i n Hi. destruct (Nat.eq_dec i (length (t_nodes t))); [by left|right].
    destruct (Nat.eq_dec i parent) as [->|]; [|rewrite Ho in Hi by done; eauto 10].
    rewrite Hp' in Hi. simplify_eq. exists p. eauto 10. }
  assert (Hkeep : forall i m, t_nodes t !! i = Some m ->
            exists m', t_nodes t' !! i = Some m' /\ n_parent m' = n_parent m).
  { intros i m Hi. pose proof (lookup_lt_Some _ _ _ Hi). destruct (Nat.eq_dec i parent) as [->|].
    - simplify_eq. eauto.
    - exists m. by rewrite Ho by lia. }
  split.
  - rewrite Hr. apply (tw_root _ Hwf).
  - destruct (tw_some _ Hwf) as (n & Hn0 & Hpn). destruct (Hkeep _ _ Hn0) as (m' & ? & ?). exists m'. by split; [|congruence].
  - intros i n c Hi Hc. destruct (Hold i n Hi) as [->|(n0 & Hn0 & _ & [E|[-> E]])].
    + rewrite Hn in Hi. simplify_eq. simpl in Hc. rewrite Hnc in Hc. by apply elem_of_nil in Hc.
    + rewrite E in Hc. destruct (tw_child _ Hwf _ _ _ Hn0 Hc) as (? & m & Hm & Hpm).
      destruct (Hkeep _ _ Hm) as (m' & ? & ?). split; [done|]. exists m'. split; [done|congruence].
    + rewrite E in Hc. apply elem_of_app in Hc as [Hc|Hc].
      * destruct (tw_child _ Hwf _ _ _ Hn0 Hc) as (? & m & Hm & Hpm).
        destruct (Hkeep _ _ Hm) as (m' & ? & ?). split; [done|]. exists m'. split; [done|congruence].
      * apply list_elem_of_singleton in Hc as ->. split; [lia|]. eauto.
  - intros i n q Hi Hq. destruct (Hold i n Hi) as [->|(n0 & Hn0 & E & _)].
    + rewrite Hn in Hi. simplify_eq. simpl in Hq. simplify_eq. lia.
    + rewrite E in Hq. by eapply (tw_parent _ Hwf).
Qed.

(** Paths that resolved still resolve to the same node. *)
Lemma added_walk t parent node t' comps : tree_wf t -> added t parent node t' ->
  forall cur i, walk t cur comps = Some (Some i) -> walk t' cur comps = Some (Some i).
Proof.
  intros Hwf Ha. induction comps as [|name comps IH]; intros cur i H; simpl in *; [done|].
  destruct (_ || _); [by apply IH|].
  destruct (t_nodes t !! cur) as [n|] eqn:Hn; simpl in H; [|done].
  assert (Hnames : forall c, c ∈ n_children n -> n_name <$> t_nodes t !! c = n_name <$> t_nodes t' !! c).
  { intros c Hc. destruct (tw_child _ Hwf _ _ _ Hn Hc) as (_ & m & Hm & _).
    symmetry. eapply added_name; [done|]. by eapply lookup_lt_Some. }
  destruct (find_child (t_nodes t) name (n_children n)) as [[c|]|] eqn:Hf; simpl in H; [|done..].
  rewrite (find_child_ext _ _ _ _ Hnames) in Hf. apply IH in H.
  destruct Ha as [_ _ (p & Hp & Hp') Ho]. destruct (Nat.eq_dec cur parent) as [->|].
  - simplify_eq. rewrite Hp'. simpl. rewrite find_child_app, Hf. simpl. done.
  - rewrite Ho, Hn by (done || apply lookup_lt_Some in Hn; lia). simpl. by rewrite Hf.
Qed.

(** The new node is found under its parent's path. *)
Lemma added_lookup t parent node t' comps p :
  tree_wf t -> added t parent node t' -> walk t t.(t_root) comps = Some (Some parent) ->
  t.(t_nodes) !! parent = Some p -> find_child t.(t_nodes) node.(n_name) p.(n_children) = Some None ->
  node.(n_name) <> root_path -> node.(n_name) <> [] ->
  walk t' t'.(t_root) (comps ++ [node.(n_name)]) = Some (Some (length t.(t_nodes))).
Proof.
  intros Hwf Ha Hw Hp Hnone Hroot Hne. rewrite walk_app, (ad_root _ _ _ _ Ha).
  rewrite (added_walk _ _ _ _ _ Hwf Ha _ _ Hw). cbn [mbind option_bind walk].
  rewrite !bool_decide_eq_false_2 by done. cbn [orb].
  assert (Hnames : forall c, c ∈ n_children p -> n_name <$> t_nodes t !! c = n_name <$> t_nodes t' !! c).
  { intros c Hc. destruct (tw_child _ Hwf _ _ _ Hp Hc) as (_ & m & Hm & _).
    symmetry. eapply added_name; [done|]. by eapply lookup_lt_Some. }
  destruct Ha as [_ Hn (p' & Hp'' & Hp') _]. simplify_eq. rewrite Hp'. simpl.
  rewrite find_child_app, <- (find_child_ext _ _ _ _ Hnames), Hnone. simpl. rewrite Hn. simpl.
  by rewrite bool_decide_eq_true_2.
Qed.

(** ** Removing a child *)

(** Siblings are told apart by their names. *)
Definition distinct_names (t : FileTree) : Prop :=
  forall i n c1 c2 m1 m2, t.(t_nodes) !! i = Some n -> c1 ∈ n.(n_children) -> c2 ∈ n.(n_children) ->
    t.(t_nodes) !! c1 = Some m1 -> t.(t_nodes) !! c2 = Some m2 -> m1.(n_name) = m2.(n_name) -> c1 = c2.

Lemma remove_first_spec (nodes : list FileTreeNode) name cs :
  (forall c, c ∈ cs -> is_Some (nodes !! c)) -> NoDup cs ->
  (forall c1 c2 m1 m2, c1 ∈ cs -> c2 ∈ cs -> nodes !! c1 = Some m1 -> nodes !! c2 = Some m2 ->
     m1.(n_name) = m2.(n_name) -> c1 = c2) ->
  exists cs', remove_first nodes name cs = Some cs' /\
    forall c, c ∈ cs' <-> c ∈ cs /\ forall m, nodes !! c = Some m -> m.(n_name) <> name.
Proof.
  induction cs as [|c cs IH]; intros Hs Hnd Hd; simpl.
  { eexists. split; [done|]. intros c. split; [by intros ?%elem_of_nil|by intros [?%elem_of_nil _]]. }
  destruct (Hs c) as [n Hn]; [by left|]. rewrite Hn. simpl. apply NoDup_cons in Hnd as [Hc Hnd].
  case_bool_decide as E.
  - eexists. split; [done|]. intros x. split.
    + intros Hx. split; [by right|]. intros m Hm Hname.
      assert (x = c) as ->; [|done]. eapply (Hd x c m n); [by right|by left|done|done|congruence].
    + intros [[->|Hx]%elem_of_cons Hm]; [|done]. by destruct (Hm n Hn).
  - destruct IH as (cs' & -> & Hcs'); [by intros; apply Hs; right|done| |].
    { intros c1 c2 m1 m2 H1 H2. apply Hd; by right. }
    simpl. eexists. split; [done|]. intros x. rewrite !elem_of_cons, Hcs'. split.
    + intros [->|[Hx Hm]]; [split; [by left|]; intros m Hm; congruence|split; [by right|done]].
    + intros [[->|Hx] Hm]; [by left|by right].
Qed.

(** Walking down the tree only increases the index. *)
Lemma walk_le t comps : tree_wf t -> forall cur i, walk t cur comps = Some (Some i) -> (cur <= i)%nat.
Proof.
  intros Hwf. induction comps as [|name comps IH]; intros cur i H; simpl in *; [by simplify_eq|].
  destruct (_ || _); [by apply IH|].
  destruct (t_nodes t !! cur) as [n|] eqn:Hn; simpl in H; [|done].
  destruct (find_child _ _ _) as [[c|]|] eqn:Hf; simpl in H; [|done..].
  apply find_child_some in Hf as [Hc _]. destruct (tw_child _ Hwf _ _ _ Hn Hc) as [? _].
  apply IH in H. lia.
Qed.

(** Only the children of [parent] change, so a path that ends at or before it is
    not affected. *)
Lemma remove_walk t parent p cs comps :
  tree_wf t -> t.(t_nodes) !! parent = Some p ->
  let t' := mk_tree (<[parent := set_children cs p]> t.(t_nodes)) t.(t_root) in
  forall cur i, walk t cur comps = Some (Some i) -> (i <= parent)%nat -> walk t' cur comps = Some (Some i).
Proof.
  intros Hwf Hp t'. assert (Hnames : forall c, n_name <$> t_nodes t' !! c = n_name <$> t_nodes t !! c).
  { intros c. unfold t'. simpl. destruct (Nat.eq_dec c parent) as [->|].
    - rewrite list_lookup_insert_eq by (by eapply lookup_lt_Some). by rewrite Hp.
    - by rewrite list_lookup_insert_ne. }
  induction comps as [|name comps IH]; intros cur i H Hi; [done|]. cbn [walk] in *.
  destruct (_ || _); [by apply IH|].
  destruct (t_nodes t !! cur) as [n|] eqn:Hn; simpl in H; [|done].
  destruct (find_child _ _ _) as [[c|]|] eqn:Hf; simpl in H; [|done..].
  pose proof (walk_le _ _ Hwf _ _ H) as Hle.
  pose proof (find_child_some _ _ _ _ Hf) as [Hc _]. destruct (tw_child _ Hwf _ _ _ Hn Hc) as [Hlt _].
  assert (E : t_nodes t' !! cur = Some n) by (unfold t'; simpl; by rewrite list_lookup_insert_ne by lia).
  rewrite E. cbn [mbind option_bind]. erewrite find_child_ext; [rewrite Hf|by intros; apply Hnames].
  cbn [mbind option_bind]. by apply IH.
Qed.

(** ** Paths of nodes *)

(** [attached t i names]: node [i] hangs below the root along [names]. *)
Inductive attached (t : FileTree) : nat -> list buffer -> Prop :=
| att_root : attached t 0%nat []
| att_child p n c m names :
    attached t p names -> t.(t_nodes) !! p = Some n -> c ∈ n.(n_children) ->
    t.(t_nodes) !! c = Some m -> attached t c (names ++ [m.(n_name)]).

Lemma attached_chain t i names :
  tree_wf t -> attached t i names -> (exists r, t.(t_nodes) !! 0%nat = Some r /\ r.(n_name) = root_path) ->
  forall fuel, (i < fuel)%nat -> chain fuel t i = Some (root_path :: names).
Proof.
  intros Hwf Ha (r & Hr & Hname). induction Ha as [|p n c m names Ha IH Hn Hc Hm]; intros [|fuel] Hf; try lia;
    cbn [chain].
  - rewrite Hr. simpl. destruct (tw_some _ Hwf) as (r' & Hr' & Hpar). simplify_eq.
    by rewrite Hpar, Hname.
  - destruct (tw_child _ Hwf _ _ _ Hn Hc) as (Hlt & m' & Hm' & Hpar). simplify_eq.
    rewrite Hm. simpl. rewrite Hpar. rewrite IH by lia. done.
Qed.

Lemma fold_push names : Forall name_ok names ->
  fold_left push (root_path :: names) [] = abs_path names.
Proof.
  induction names as [|s names IH] using rev_ind; intros H; [done|].
  apply Forall_app in H as [Hn Hs]. rewrite Forall_singleton in Hs.
  rewrite app_comm_cons, fold_left_app, IH by done. simpl. by apply push_abs.
Qed.

Lemma find_child_distinct t i n c m :
  tree_wf t -> distinct_names t -> t.(t_nodes) !! i = Some n -> c ∈ n.(n_children) ->
  t.(t_nodes) !! c = Some m -> find_child t.(t_nodes) m.(n_name) n.(n_children) = Some (Some c).
Proof.
  intros Hwf Hd Hn Hc Hm. destruct (find_child_total t.(t_nodes) m.(n_name) n.(n_children)) as [r Hr].
  { intros x Hx. destruct (tw_child _ Hwf _ _ _ Hn Hx) as (_ & y & ? & _). eauto. }
  destruct r as [c'|].
  - pose proof (find_child_some _ _ _ _ Hr) as (Hc' & m' & Hm' & E).
    rewrite Hr. do 2 f_equal. by apply (Hd i n c' c m' m).
  - by destruct (find_child_none _ _ _ _ _ Hr Hc Hm).
Qed.

Lemma attached_walk t i names :
  tree_wf t -> distinct_names t -> attached t i names -> Forall name_ok names ->
  walk t 0%nat names = Some (Some i).
Proof.
  intros Hwf Hd Ha. induction Ha as [|p n c m names Ha IH Hn Hc Hm]; intros Hok; [done|].
  apply Forall_app in Hok as [Hok Hs]. rewrite Forall_singleton in Hs.
  rewrite walk_app, IH by done. cbn [mbind option_bind walk].
  destruct Hs as (Hns & Hne & _). rewrite !bool_decide_eq_false_2; [|done|].
  2:{ intros E. rewrite E in Hns. apply Forall_cons_1 in Hns as [? _]. done. }
  rewrite Hn. cbn [orb mbind option_bind]. by rewrite (find_child_distinct t p n c m).
Qed.

(** ** Paths and nodes, one to one *)

(** The invariant of a tree under construction. *)
Record tree_ok (t : FileTree) : Prop := {
  to_wf : tree_wf t;
  to_distinct : distinct_names t;
  to_nodup : forall i n, t.(t_nodes) !! i = Some n -> NoDup n.(n_children);
  to_names : forall i n, t.(t_nodes) !! i = Some n -> i <> 0%nat -> name_ok n.(n_name) }.

(** A tree without its edges: what removing a child does not change. *)
Definition skel (t : FileTree) : list FileTreeNode := set_children [] <$> t.(t_nodes).

Lemma name_ok_root s : name_ok s -> s <> root_path /\ s <> [].
Proof. intros (Hs & Hne & _). split; [|done]. intros ->. by apply Forall_cons_1 in Hs as [? _]. Qed.

Lemma walk_step t cur s q : name_ok s ->
  walk t cur (s :: q) =
    (node ← t.(t_nodes) !! cur; found ← find_child t.(t_nodes) s node.(n_children);
     match found with Some child => walk t child q | None => Some None end).
Proof. intros [??]%name_ok_root. cbn [walk]. by rewrite !bool_decide_eq_false_2. Qed.

Lemma walk_last t q s i : tree_wf t -> name_ok s -> walk t 0%nat (q ++ [s]) = Some (Some i) ->
  exists p n m, walk t 0%nat q = Some (Some p) /\ t.(t_nodes) !! p = Some n /\ i ∈ n.(n_children) /\
    t.(t_nodes) !! i = Some m /\ m.(n_name) = s /\ m.(n_parent) = Some p /\ (p < i)%nat.
Proof.
  intros Hwf Hs. rewrite walk_app. destruct (walk t 0%nat q) as [[p|]|] eqn:E; cbn [mbind option_bind]; try done.
  rewrite walk_step by done. destruct (t_nodes t !! p) as [n|] eqn:Hn; cbn [mbind option_bind]; [|done].
  destruct (find_child _ _ _) as [[c|]|] eqn:Hf; cbn [mbind option_bind walk]; try done. intros [= ->].
  apply find_child_some in Hf as (Hc & m & Hm & Hname).
  destruct (tw_child _ Hwf _ _ _ Hn Hc) as (Hlt & m' & Hm' & Hpar). simplify_eq. by exists p, n, m.
Qed.

(** Two paths to the same node are the same path. *)
Lemma walk_inj t q1 q2 i : tree_wf t -> Forall name_ok q1 -> Forall name_ok q2 ->
  walk t 0%nat q1 = Some (Some i) -> walk t 0%nat q2 = Some (Some i) -> q1 = q2.
Proof.
  intros Hwf. destruct (tw_some _ Hwf) as (r & Hr & Hrp). revert q2 i.
  induction q1 as [|s1 q1 IH] using rev_ind; intros q2 i H1 H2 W1 W2;
    destruct q2 as [|s2 q2 _] using rev_ind; [done|..].
  - injection W1 as <-. apply Forall_app in H2 as [_ H2]. rewrite Forall_singleton in H2.
    apply walk_last in W2 as (p & n & m & _ & _ & _ & Hm & _ & Hp & _); [|done..]. congruence.
  - injection W2 as <-. apply Forall_app in H1 as [_ H1]. rewrite Forall_singleton in H1.
    apply walk_last in W1 as (p & n & m & _ & _ & _ & Hm & _ & Hp & _); [|done..]. congruence.
  - apply Forall_app in H1 as [H1 Hs1], H2 as [H2 Hs2]. rewrite Forall_singleton in Hs1, Hs2.
    apply walk_last in W1 as (p1 & n1 & m1 & W1 & _ & _ & Hm1 & <- & Hp1 & _); [|done..].
    apply walk_last in W2 as (p2 & n2 & m2 & W2 & _ & _ & Hm2 & <- & Hp2 & _); [|done..].
    simplify_eq. f_equal. by eapply IH.
Qed.

Lemma remove_first_sub (nodes : list FileTreeNode) name cs cs' :
  remove_first nodes name cs = Some cs' -> cs' `sublist_of` cs.
Proof.
  revert cs'. induction cs as [|c cs IH]; intros cs'; simpl; [by intros [= <-]|].
  destruct (nodes !! c) as [n|]; simpl; [|done]. case_bool_decide; [intros [= <-]; by constructor|].
  destruct (remove_first nodes name cs) as [cs2|]; simpl; [|done]. intros [= <-]. constructor. by apply IH.
Qed.

(** Dropping the child called [name] leaves the search for the others as it was. *)
Lemma find_child_removed (nodes : list FileTreeNode) name cs cs' s :
  remove_first nodes name cs = Some cs' -> s <> name -> find_child nodes s cs' = find_child nodes s cs.
Proof.
  intros H Hs. revert cs' H. induction cs as [|c cs IH]; intros cs'; simpl; [by intros [= <-]|].
  destruct (nodes !! c) as [n|] eqn:Hn; simpl; [|done]. case_bool_decide as E.
  - intros [= <-]. rewrite bool_decide_eq_false_2 by congruence. done.
  - destruct (remove_first nodes name cs) as [cs2|]; simpl; [|done]. intros [= <-]. simpl. rewrite Hn. simpl.
    case_bool_decide; [done|]. by apply IH.
Qed.

Section Edit.
Context (t : FileTree) (parent : nat) (p : FileTreeNode) (cs : list nat).
Context (Hp : t.(t_nodes) !! parent = Some p).
Let t' : FileTree := mk_tree (<[parent := set_children cs p]> t.(t_nodes)) t.(t_root).

Lemma edit_lookup i : t'.(t_nodes) !! i = (if decide (i = parent) then Some (set_children cs p) else t.(t_nodes) !! i).
Proof.
  unfold t'. simpl. case_decide as E; [subst; apply list_lookup_insert_eq; by eapply lookup_lt_Some|].
  by apply list_lookup_insert_ne.
Qed.

Lemma edit_back i n : t'.(t_nodes) !! i = Some n ->
  exists n0, t.(t_nodes) !! i = Some n0 /\ n.(n_name) = n0.(n_name) /\ n.(n_parent) = n0.(n_parent) /\
    (n.(n_children) = n0.(n_children) \/ n.(n_children) = cs /\ n0 = p /\ i = parent).
Proof.
  rewrite edit_lookup. case_decide; intros E; simplify_eq; [exists p; repeat split; auto|].
  exists n. repeat split; [done|by left].
Qed.

Lemma edit_name i : n_name <$> t'.(t_nodes) !! i = n_name <$> t.(t_nodes) !! i.
Proof. rewrite edit_lookup. case_decide as E; [subst; by rewrite Hp|done]. Qed.

Lemma edit_skel : skel t' = skel t.
Proof.
  apply list_eq. intros i. unfold skel. rewrite !list_lookup_fmap, edit_lookup.
  case_decide as E; [subst; by rewrite Hp|done].
Qed.

Lemma edit_ok : tree_ok t -> cs `sublist_of` p.(n_children) -> tree_ok t'.
Proof.
  intros [[Hr (r & Hr0 & Hrp) Hc Hpar] Hd Hnd Hnm] Hsub.
  assert (Hin : forall c, c ∈ cs -> c ∈ p.(n_children)) by (intros c Hc0; by eapply elem_of_sublist).
  assert (Hkids : forall i n c, t'.(t_nodes) !! i = Some n -> c ∈ n.(n_children) ->
            exists n0, t.(t_nodes) !! i = Some n0 /\ c ∈ n0.(n_children)).
  { intros i n c E Hcn. destruct (edit_back _ _ E) as (n0 & E0 & _ & _ & [Hs|(Hs & -> & ->)]); (exists n0 || exists p).
    - by rewrite <- Hs.
    - split; [done|]. rewrite Hs in Hcn. by apply Hin. }
  split; [split; [done|..]|..].
  - destruct (t_nodes t' !! 0%nat) as [n|] eqn:E.
    + exists n. split; [done|]. apply edit_back in E as (n0 & E0 & _ & Ep & _). congruence.
    + rewrite edit_lookup in E. case_decide; congruence.
  - intros i n c E Hcn. destruct (Hkids i n c E Hcn) as (n0 & E0 & Hc0).
    destruct (Hc i n0 c E0 Hc0) as (Hlt & m & Hm & Hmp). split; [done|].
    rewrite edit_lookup. case_decide as Ed; [subst; exists (set_children cs p); simplify_eq; done|eauto].
  - intros i n q E Hq. apply edit_back in E as (n0 & E0 & _ & Ep & _). rewrite Ep in Hq. by eapply Hpar.
  - intros i n c1 c2 m1 m2 E H1 H2 E1 E2 Hnames.
    destruct (Hkids i n c1 E H1) as (n0 & E0 & H1'). destruct (Hkids i n c2 E H2) as (n0' & E0' & H2'). simplify_eq.
    apply edit_back in E1 as (m1' & E1 & N1 & _). apply edit_back in E2 as (m2' & E2 & N2 & _).
    apply (Hd i n0 c1 c2 m1' m2'); congruence.
  - intros i n E. apply edit_back in E as (n0 & E0 & _ & _ & [Hs|(Hs & -> & ->)]); rewrite Hs; [by eapply Hnd|].
    eapply sublist_NoDup; [|exact Hsub]. by eapply Hnd.
  - intros i n E Hi. apply edit_back in E as (n0 & E0 & En & _). rewrite En. by eapply Hnm.
Qed.
End Edit.

(** Which paths a removal touches: those through the removed child, no other. *)
Lemma removed_walk t parent p comps name cs : tree_ok t ->
  t.(t_nodes) !! parent = Some p -> Forall name_ok comps -> name_ok name ->
  walk t 0%nat comps = Some (Some parent) -> remove_first t.(t_nodes) name p.(n_children) = Some cs ->
  let t' := mk_tree (<[parent := set_children cs p]> t.(t_nodes)) t.(t_root) in
  forall r q cur, Forall name_ok q -> Forall name_ok r -> walk t 0%nat q = Some (Some cur) ->
    ~ (comps ++ [name]) `prefix_of` q ->
    walk t' cur r = (if decide ((comps ++ [name]) `prefix_of` (q ++ r)) then Some None else walk t cur r).
Proof.
  intros Hok Hp Hcomps Hname Hw Hcs t'. pose proof (to_wf _ Hok) as Hwf.
  destruct (remove_first_spec t.(t_nodes) name p.(n_children)) as (cs0 & Ecs & Hspec);
    [intros c Hc; by destruct (tw_child _ Hwf _ _ _ Hp Hc) as (_ & m & -> & _)|by apply (to_nodup _ Hok parent)|
     intros c1 c2 m1 m2 ?????; by apply (to_distinct _ Hok parent p c1 c2 m1 m2)|].
  rewrite Hcs in Ecs. injection Ecs as <-.
  pose proof (edit_lookup t parent p cs Hp) as Hedit. pose proof (edit_name t parent p cs Hp) as Hnm.
  fold t' in Hedit, Hnm.
  induction r as [|s r IH]; intros q cur Hq Hr Hcur Hnp.
  { rewrite app_nil_r. by rewrite decide_False by done. }
  apply Forall_cons_1 in Hr as [Hs Hr].
  assert (Hnext : forall n c, t.(t_nodes) !! cur = Some n -> find_child t.(t_nodes) s n.(n_children) = Some (Some c) ->
            walk t 0%nat (q ++ [s]) = Some (Some c)).
  { intros n c Hn Hf. rewrite walk_app, Hcur. cbn [mbind option_bind]. rewrite walk_step, Hn by done.
    cbn [mbind option_bind]. by rewrite Hf. }
  assert (Hqs : Forall name_ok (q ++ [s])) by (apply Forall_app; by rewrite Forall_singleton).
  rewrite !walk_step by done. rewrite Hedit.
  replace (q ++ s :: r) with ((q ++ [s]) ++ r) by (by rewrite <- app_assoc).
  destruct (decide (cur = parent)) as [->|Hne]; cbn [mbind option_bind set_children n_children].
  - assert (q = comps) as -> by (by eapply walk_inj).
    rewrite (find_child_ext _ (t_nodes t)) by (intros; apply Hnm). rewrite Hp. cbn [mbind option_bind].
    destruct (decide (s = name)) as [->|Hsn].
    + rewrite decide_True by (by apply prefix_app_r).
      destruct (find_child_total (t_nodes t) name cs) as [[c|] Hf];
        [intros c Hc; apply Hspec in Hc as [Hc _]; by destruct (tw_child _ Hwf _ _ _ Hp Hc) as (_ & m & -> & _)| |by rewrite Hf].
      apply find_child_some in Hf as (Hc & m & Hm & E). apply Hspec in Hc as [_ Hc]. by destruct (Hc m Hm).
    + rewrite (find_child_removed _ _ _ _ _ Hcs Hsn).
      assert (Hnp' : ~ (comps ++ [name]) `prefix_of` (comps ++ [s])).
      { intros [k E]. rewrite <- app_assoc in E. apply app_inv_head in E. by simplify_eq/=. }
      assert (Hnp2 : ~ (comps ++ [name]) `prefix_of` ((comps ++ [s]) ++ r)).
      { intros [k E]. rewrite <- !app_assoc in E. apply app_inv_head in E. by simplify_eq/=. }
      destruct (find_child _ _ _) as [[c|]|] eqn:Hf; cbn [mbind option_bind];
        [by apply IH; eauto|by rewrite decide_False|by rewrite decide_False].
  - assert (Hnp' : ~ (comps ++ [name]) `prefix_of` (q ++ [s])).
    { intros [k E]. destruct k as [|x k _] using rev_ind.
      - rewrite app_nil_r in E. apply app_inj_tail in E as [-> ->]. congruence.
      - rewrite app_assoc in E. apply app_inj_tail in E as [-> _]. by destruct Hnp; exists k. }
    destruct (t_nodes t !! cur) as [n|] eqn:Hn; cbn [mbind option_bind];
      [|exfalso; destruct (walk_total t q Hwf 0%nat) as (r0 & E0 & Hr0);
        [by destruct (tw_some _ Hwf) as (? & -> & _)|];
        rewrite Hcur in E0; simplify_eq; destruct (Hr0 cur eq_refl); congruence].
    rewrite (find_child_ext _ (t_nodes t)) by (intros; apply Hnm).
    destruct (find_child _ _ _) as [[c|]|] eqn:Hf; cbn [mbind option_bind];
      [by apply IH; eauto| |].
    + case_decide; done.
    + exfalso. destruct (find_child_total (t_nodes t) s n.(n_children)) as [r0 E0]; [|congruence].
      intros c Hc. by destruct (tw_child _ Hwf _ _ _ Hn Hc) as (_ & m & -> & _).
Qed.

Lemma remove_child_ok t parent comps name : tree_ok t -> Forall name_ok comps -> name_ok name ->
  walk t 0%nat comps = Some (Some parent) ->
  exists t', remove_child t parent name = Some t' /\ tree_ok t' /\ skel t' = skel t /\
    forall q, Forall name_ok q ->
      walk t' 0%nat q = (if decide ((comps ++ [name]) `prefix_of` q) then Some None else walk t 0%nat q).
Proof.
  intros Hok Hcomps Hname Hw. pose proof (to_wf _ Hok) as Hwf.
  destruct (walk_total t comps Hwf 0%nat) as (r0 & E0 & Hr0); [by destruct (tw_some _ Hwf) as (? & -> & _)|].
  rewrite Hw in E0. simplify_eq. destruct (Hr0 parent eq_refl) as [p Hp].
  destruct (remove_first_spec t.(t_nodes) name p.(n_children)) as (cs & Ecs & _);
    [intros c Hc; by destruct (tw_child _ Hwf _ _ _ Hp Hc) as (_ & m & -> & _)|by apply (to_nodup _ Hok parent)|
     intros c1 c2 m1 m2 ?????; by apply (to_distinct _ Hok parent p c1 c2 m1 m2)|].
  unfold remove_child. rewrite Hp. cbn [mbind option_bind]. rewrite Ecs. cbn [mbind option_bind].
  eexists. split; [done|]. split; [by apply edit_ok; [..|eapply remove_first_sub]|]. split; [by apply edit_skel|].
  intros q Hq. apply (removed_walk t parent p comps name cs Hok Hp Hcomps Hname Hw Ecs q []); try done.
  intros [k E]. by destruct comps.
Qed.

(** What is found in the tree with one more node. *)
Lemma added_back t parent node t' i n : added t parent node t' -> t'.(t_nodes) !! i = Some n ->
  (i = length t.(t_nodes) /\ n = set_parent (Some parent) node) \/
  exists n0, t.(t_nodes) !! i = Some n0 /\ n.(n_name) = n0.(n_name) /\ n.(n_inode) = n0.(n_inode) /\
    n.(n_link) = n0.(n_link) /\
    (n = n0 \/ i = parent /\ n.(n_children) = n0.(n_children) ++ [length t.(t_nodes)]).
Proof.
  intros [_ Hnew (p & Hp & Hp') Ho] E.
  destruct (Nat.eq_dec i (length t.(t_nodes))) as [->|Hi]; [left; split; [done|congruence]|]. right.
  destruct (Nat.eq_dec i parent) as [->|Hne].
  - rewrite Hp' in E. injection E as <-. exists p. repeat split; [done|]. by right.
  - rewrite Ho in E by done. exists n. repeat split; [done|]. by left.
Qed.

Lemma added_children t parent node t' i n c : added t parent node t' -> node.(n_children) = [] ->
  t'.(t_nodes) !! i = Some n -> c ∈ n.(n_children) ->
  (c = length t.(t_nodes) /\ i = parent) \/ exists n0, t.(t_nodes) !! i = Some n0 /\ c ∈ n0.(n_children).
Proof.
  intros Ha Hnc E Hc. destruct (added_back _ _ _ _ _ _ Ha E) as [[_ ->]|(n0 & E0 & _ & _ & _ & [->|[-> Hch]])].
  - simpl in Hc. rewrite Hnc in Hc. by apply elem_of_nil in Hc.
  - right. eauto.
  - rewrite Hch in Hc. apply elem_of_app in Hc as [Hc|Hc%list_elem_of_singleton]; [right; eauto|by left].
Qed.

Lemma added_ok t parent node t' p : tree_ok t -> added t parent node t' -> node.(n_children) = [] ->
  name_ok node.(n_name) -> t.(t_nodes) !! parent = Some p ->
  find_child t.(t_nodes) node.(n_name) p.(n_children) = Some None -> tree_ok t'.
Proof.
  intros [Hwf Hd Hnd Hnm] Ha Hnc Hname Hp Hnone. pose proof (added_wf _ _ _ _ Hwf Ha Hnc) as Hwf'.
  assert (Hfresh : forall i n0 c, t.(t_nodes) !! i = Some n0 -> c ∈ n0.(n_children) -> (c < length t.(t_nodes))%nat).
  { intros i n0 c E Hc. destruct (tw_child _ Hwf _ _ _ E Hc) as (_ & m & Hm & _). by eapply lookup_lt_Some. }
  assert (Hold : forall c m, t'.(t_nodes) !! c = Some m -> (c < length t.(t_nodes))%nat ->
            exists m0, t.(t_nodes) !! c = Some m0 /\ m.(n_name) = m0.(n_name)).
  { intros c m E Hc. destruct (added_back _ _ _ _ _ _ Ha E) as [[-> _]|(m0 & ? & ? & _)]; [lia|eauto]. }
  split; [done|..].
  - intros i n c1 c2 m1 m2 E H1 H2 E1 E2 En.
    destruct (added_children _ _ _ _ _ _ _ Ha Hnc E H1) as [[-> ->]|(n1 & En1 & H1')];
      destruct (added_children _ _ _ _ _ _ _ Ha Hnc E H2) as [[-> ?]|(n2 & En2 & H2')]; [done|..].
    + rewrite (ad_new _ _ _ _ Ha) in E1. injection E1 as <-. simpl in En.
      destruct (Hold c2 m2 E2 (Hfresh _ _ _ En2 H2')) as (m0 & Em & Hm). simplify_eq.
      destruct (find_child_none _ _ _ _ _ Hnone H2' Em). congruence.
    + subst i. rewrite (ad_new _ _ _ _ Ha) in E2. injection E2 as <-. simpl in En.
      destruct (Hold c1 m1 E1 (Hfresh _ _ _ En1 H1')) as (m0 & Em & Hm). simplify_eq.
      destruct (find_child_none _ _ _ _ _ Hnone H1' Em). congruence.
    + destruct (Hold c1 m1 E1 (Hfresh _ _ _ En1 H1')) as (k1 & F1 & G1).
      destruct (Hold c2 m2 E2 (Hfresh _ _ _ En2 H2')) as (k2 & F2 & G2). apply (Hd i n2 c1 c2 k1 k2); congruence.
  - intros i n E. destruct (added_back _ _ _ _ _ _ Ha E) as [[_ ->]|(n0 & E0 & _ & _ & _ & [->|[-> Hch]])].
    + simpl. rewrite Hnc. constructor.
    + by eapply Hnd.
    + rewrite Hch. apply list.NoDup_app. split; [by eapply Hnd|]. split; [|apply NoDup_singleton].
      intros c Hc ->%list_elem_of_singleton. pose proof (Hfresh _ _ _ E0 Hc). lia.
  - intros i n E Hi. destruct (added_back _ _ _ _ _ _ Ha E) as [[_ ->]|(n0 & E0 & En & _)]; [done|].
    rewrite En. by eapply Hnm.
Qed.

(** ** Properties *)

(** Adding a node under an existing one keeps the tree well-formed, every
    path that resolved still resolves to the same node, and the new node is what
    its parent's path extended by its name resolves to. *)
Theorem tree_add_child t parent p node comps :
  tree_wf t -> node.(n_children) = [] -> t.(t_nodes) !! parent = Some p ->
  walk t t.(t_root) comps = Some (Some parent) ->
  find_child t.(t_nodes) node.(n_name) p.(n_children) = Some None ->
  node.(n_name) <> root_path -> node.(n_name) <> [] ->
  exists t' idx, add_child t parent node = Some (t', idx) /\ tree_wf t' /\
    walk t' t'.(t_root) (comps ++ [node.(n_name)]) = Some (Some idx) /\
    forall path i, lookup t path = Some (Some i) -> lookup t' path = Some (Some i).
Proof.
  intros Hwf Hc Hp Hw Hf Hr Hne. destruct (add_child_added t parent node) as (t' & E & Ha); [eauto|].
  exists t', (length (t_nodes t)). split; [done|]. split; [by eapply added_wf|].
  split; [by eapply added_lookup|]. intros path i Hl. unfold lookup in *.
  rewrite (ad_root _ _ _ _ Ha). by eapply added_walk.
Qed.

Definition sample_tree : FileTree := new_tree 2 root_path.
Definition sample_node (name : string) (ino : Z) : FileTreeNode := mk_node ino (bstr name) [] None None [] None.

Lemma tree_add_child_witness :
  exists t' idx, add_child sample_tree 0 (sample_node "etc" 12) = Some (t', idx) /\ tree_wf t' /\
    walk t' t'.(t_root) ([] ++ [bstr "etc"]) = Some (Some idx) /\
    forall path i, lookup sample_tree path = Some (Some i) -> lookup t' path = Some (Some i).
Proof.
  apply (tree_add_child sample_tree 0 (mk_node 2 root_path [] None None [] None) (sample_node "etc" 12) []);
    try done. apply new_tree_wf.
Defined.

(** Removing a child by name makes exactly the paths through that child
    unresolvable: every other path resolves to what it did before, and the tree
    keeps its invariant. *)
Theorem tree_remove_child t parent comps name :
  tree_ok t -> Forall name_ok comps -> name_ok name -> walk t 0%nat comps = Some (Some parent) ->
  exists t', remove_child t parent name = Some t' /\ tree_ok t' /\
    forall names, Forall name_ok names ->
      lookup t' (abs_path names) =
        (if decide ((comps ++ [name]) `prefix_of` names) then Some None else lookup t (abs_path names)).
Proof.
  intros Hok Hc Hn Hw. destruct (remove_child_ok t parent comps name Hok Hc Hn Hw) as (t' & E & Hok' & _ & Hq).
  exists t'. split; [done|]. split; [done|]. intros names Hnames. unfold lookup.
  rewrite (tw_root _ (to_wf _ Hok)), (tw_root _ (to_wf _ Hok')), components_abs by done.
  exact (Hq names Hnames).
Qed.

(** The path that [node_path] reconstructs for a node that hangs below the
    root resolves to that node: the two directions of the path mapping agree. *)
Theorem node_path_lookup t i names :
  tree_wf t -> distinct_names t -> attached t i names -> Forall name_ok names ->
  (exists r, t.(t_nodes) !! 0%nat = Some r /\ r.(n_name) = root_path) ->
  (i < length t.(t_nodes))%nat ->
  exists path, node_path t i = Some path /\ lookup t path = Some (Some i).
Proof.
  intros Hwf Hd Ha Hok Hr Hi. exists (abs_path names). unfold node_path.
  rewrite (attached_chain t i names) by (done || lia). cbn [mbind option_bind]. split.
  - f_equal. by apply fold_push.
  - unfold lookup. rewrite components_abs, (tw_root _ Hwf) by done. cbn [walk].
    rewrite bool_decide_eq_true_2 by done. by apply attached_walk.
Qed.

(** [/etc] and [/etc/hosts] *)
Definition two_level : FileTree :=
  {| t_nodes := [mk_node 2 root_path [1%nat] None None [] None;
                 mk_node 12 (bstr "etc") [2%nat] (Some 0%nat) None [] None;
                 mk_node 13 (bstr "hosts") [] (Some 1%nat) None [] None]; t_root := 0 |}.

Lemma two_level_wf : tree_wf two_level.
Proof.
  split; simpl; [done|by eexists|..].
  - intros [|[|[|i]]] n c E Hc; simplify_eq/=; try (by apply elem_of_nil in Hc);
      apply list_elem_of_singleton in Hc as ->; (split; [lia|by eexists]).
  - intros [|[|[|i]]] n p E Hp; simplify_eq/=; lia.
Qed.

Lemma two_level_distinct : distinct_names two_level.
Proof.
  intros [|[|[|i]]] n c1 c2 m1 m2 E H1 H2; simplify_eq/=; try (by apply elem_of_nil in H1);
    apply list_elem_of_singleton in H1 as ->; by apply list_elem_of_singleton in H2 as ->.
Qed.

Lemma name_ok_literal s : forallb (fun c => negb (c =? slash)) s && negb (bool_decide (s = [])) &&
  negb (bool_decide (s = dot)) = true -> name_ok s.
Proof.
  rewrite !andb_true_iff, !negb_true_iff, !bool_decide_eq_false, forallb_forall.
  intros [[H1 H2] H3]. split; [|done]. apply Forall_forall. intros c Hc.
  apply list_elem_of_In in Hc. by apply H1, negb_true_iff, Z.eqb_neq in Hc.
Qed.

Lemma node_path_lookup_witness :
  exists path, node_path two_level 2 = Some path /\ lookup two_level path = Some (Some 2%nat).
Proof.
  apply (node_path_lookup two_level 2 [bstr "etc"; bstr "hosts"]).
  - exact two_level_wf.
  - exact two_level_distinct.
  - apply (att_child two_level 1 (mk_node 12 (bstr "etc") [2%nat] (Some 0%nat) None [] None) 2
             (mk_node 13 (bstr "hosts") [] (Some 1%nat) None [] None) [bstr "etc"]); [|done|by left|done].
    apply (att_child two_level 0 (mk_node 2 root_path [1%nat] None None [] None) 1
             (mk_node 12 (bstr "etc") [2%nat] (Some 0%nat) None [] None) []); [constructor|done|by left|done].
  - rewrite !Forall_cons, Forall_nil. split_and!; [..|done]; by apply name_ok_literal.
  - by eexists.
  - simpl. lia.
Defined.

Lemma two_level_ok : tree_ok two_level.
Proof.
  split; [exact two_level_wf|exact two_level_distinct|..].
  - intros [|[|[|i]]] n E; simplify_eq/=; [apply NoDup_singleton..|constructor].
  - intros [|[|[|i]]] n E Hi; simplify_eq/=; by apply name_ok_literal.
Qed.

Lemma tree_remove_child_witness :
  exists t', remove_child two_level 1 (bstr "hosts") = Some t' /\ tree_ok t' /\
    forall names, Forall name_ok names ->
      lookup t' (abs_path names) =
        (if decide (([bstr "etc"] ++ [bstr "hosts"]) `prefix_of` names) then Some None
         else lookup two_level (abs_path names)).
Proof.
  apply (tree_remove_child two_level 1 [bstr "etc"] (bstr "hosts")); try done.
  - exact two_level_ok.
  - rewrite Forall_singleton. by apply name_ok_literal.
  - by apply name_ok_literal.
Defined.
