(* ===== verification/Reader.v ===== *)
(** * Reading an image

    [common/ext4/src/reader.rs] and [reader_io.rs]: the reader opens an image, walks its
    directories into a tree, resolves paths and reads files.  Group descriptors and
    inodes are cached, so every operation is a computation on the reader's state; the
    image does not change. *)

From stdpp Require Import base list list_numbers option numbers strings gmap.
From S2P Require Import Prelude Bytes Utf8 Str Errors Constants SuperBlock DiskTypes Dir Image Extent Xattr Paths FileTree.

(** [struct Reader] *)
Record Reader := mk_reader {
  r_file : buffer; r_superblock : SuperBlock.t; r_group_descriptors : gmap Z GroupDescriptor.t;
  r_inodes : gmap Z Inode.t; r_tree : FileTree; r_hardlinks : gmap buffer Z }.

Definition set_gds (g : gmap Z GroupDescriptor.t) (r : Reader) : Reader :=
  mk_reader r.(r_file) r.(r_superblock) g r.(r_inodes) r.(r_tree) r.(r_hardlinks).
Definition set_inode_cache (i : gmap Z Inode.t) (r : Reader) : Reader :=
  mk_reader r.(r_file) r.(r_superblock) r.(r_group_descriptors) i r.(r_tree) r.(r_hardlinks).
Definition set_reader_tree (t : FileTree) (r : Reader) : Reader :=
  mk_reader r.(r_file) r.(r_superblock) r.(r_group_descriptors) r.(r_inodes) t r.(r_hardlinks).
Definition set_hardlinks (h : gmap buffer Z) (r : Reader) : Reader :=
  mk_reader r.(r_file) r.(r_superblock) r.(r_group_descriptors) r.(r_inodes) r.(r_tree) h.

(** ** The monad *)

Definition R (A : Type) : Type := Reader -> outcome ReadError A * Reader.

Definition rret {A} (a : A) : R A := fun r => (Ok a, r).
Definition rtry {A} (o : outcome ReadError A) : R A := fun r => (o, r).
Definition rmust {A} (o : option A) : R A := fun r => (lift o, r).
Definition rget {A} (f : Reader -> A) : R A := fun r => (Ok (f r), r).
Definition rput (f : Reader -> Reader) : R unit := fun r => (Ok tt, f r).
Definition rbind {A B} (m : R A) (k : A -> R B) : R B := fun r =>
  match m r with
  | (Ok a, r) => k a r
  | (Err e, r) => (Err e, r)
  | (Panic, r) => (Panic, r)
  end.

Notation "x <~~ m ;; k" := (rbind m (fun x => k))
  (at level 20, m at level 99, k at level 200, right associativity) : bento_scope.

(** ** Low-level reads *)

(** [1024 * (1u64 << log_block_size)] *)
Definition block_size_of (sb : SuperBlock.t) : option Z :=
  if sb.(SuperBlock.log_block_size) <? 64 then umul 64 1024 (wrap 64 (Z.shiftl 1 sb.(SuperBlock.log_block_size))) else None.

Definition group_descriptor_size (sb : SuperBlock.t) : Z :=
  if negb (Z.land sb.(SuperBlock.feature_incompat) incompat.BIT64 =? 0) then sb.(SuperBlock.desc_size)
  else wrap 16 GroupDescriptor.SIZE.

(** [seek(Start(pos))?; read_exact(n)]: the offset of a seek is an [i64]. *)
Definition read_at (f : buffer) (pos n : Z) (e : ReadError) : outcome ReadError buffer :=
  if pos <? 2 ^ 63 then ok_or (file_read f pos n) e else Err RIo.

(** [fn read_group_descriptor] *)
Definition read_group_descriptor (f : buffer) (sb : SuperBlock.t) (number : Z) : outcome ReadError GroupDescriptor.t :=
  bs <-! block_size_of sb ;;
  n <-! umul 64 number (group_descriptor_size sb) ;;
  offset <-! uadd 64 bs n ;;
  b <- read_at f offset GroupDescriptor.SIZE (CouldNotReadGroup number) ;;
  lift (GroupDescriptor.read_from (b ++ replicate 32 0)).

(** [fn get_group_descriptor] *)
Definition get_group_descriptor (number : Z) : R GroupDescriptor.t := fun r =>
  match r.(r_group_descriptors) !! number with
  | Some gd => (Ok gd, r)
  | None =>
      match read_group_descriptor r.(r_file) r.(r_superblock) number with
      | Ok gd => (Ok gd, set_gds (<[number := gd]> r.(r_group_descriptors)) r)
      | Err e => (Err e, r)
      | Panic => (Panic, r)
      end
  end.

(** The group of an inode and its index there. *)
Definition inode_location (sb : SuperBlock.t) (number : Z) : option (Z * Z) :=
  n ← usub 32 number 1;
  if sb.(SuperBlock.inodes_per_group) =? 0 then None
  else Some (n / sb.(SuperBlock.inodes_per_group), n mod sb.(SuperBlock.inodes_per_group)).

(** The read of an inode, once its group is known. *)
Definition read_inode_in (f : buffer) (sb : SuperBlock.t) (number index_in_group : Z) (gd : GroupDescriptor.t)
    : outcome ReadError Inode.t :=
  bs <-! block_size_of sb ;;
  table_start <-! umul 64 gd.(GroupDescriptor.inode_table_lo) bs ;;
  n <-! umul 64 index_in_group sb.(SuperBlock.inode_size) ;;
  inode_offset <-! uadd 64 table_start n ;;
  b <- read_at f inode_offset INODE_SIZE (CouldNotReadInode number) ;;
  lift (Inode.read_from b).

(** [fn read_inode] *)
Definition read_inode (number : Z) : R Inode.t :=
  sb <~~ rget r_superblock ;;
  loc <~~ rmust (inode_location sb number) ;;
  gd <~~ get_group_descriptor loc.1 ;;
  f <~~ rget r_file ;;
  rtry (read_inode_in f sb number loc.2 gd).

(** [fn get_inode] *)
Definition get_inode (number : Z) : R Inode.t :=
  cache <~~ rget r_inodes ;;
  match cache !! number with
  | Some inode => rret inode
  | None =>
      inode <~~ read_inode number ;;
      _ <~~ rput (fun r => set_inode_cache (<[number := inode]> r.(r_inodes)) r) ;;
      rret inode
  end.

(** [self.block_size()] *)
Definition block_size : R Z := sb <~~ rget r_superblock ;; rmust (block_size_of sb).

(** [extent::parse_extents(&inode, self.block_size(), &mut self.file)] *)
Definition extents_of_inode (inode : Inode.t) : R (list (Z * Z)) :=
  bs <~~ block_size ;;
  f <~~ rget r_file ;;
  rtry (parse_extents inode bs f).

(** ** Directories *)

(** The blocks of one extent: parse each, in order. *)
Fixpoint read_dir_blocks (n : nat) (f : buffer) (bs phys_start i : Z) : outcome ReadError (list (buffer * Z)) :=
  match n with
  | O => Ok []
  | S n =>
      blk <-! uadd 32 phys_start i ;;
      b <- ok_or (file_read f (phys_start * bs + i * bs) bs) (CouldNotReadBlock blk) ;;
      es <-! parse_dir_entries b ;;
      rest <- read_dir_blocks n f bs phys_start (i + 1) ;;
      Ok (es ++ rest)
  end.

Fixpoint read_dir_extents (f : buffer) (bs : Z) (extents : list (Z * Z)) : outcome ReadError (list (buffer * Z)) :=
  match extents with
  | [] => Ok []
  | (phys_start, phys_end) :: extents =>
      pos <-! umul 64 phys_start bs ;;
      if 2 ^ 63 <=? pos then Err RIo
      else
        num_blocks <-! usub 32 phys_end phys_start ;;
        es <- read_dir_blocks (Z.to_nat num_blocks) f bs phys_start 0 ;;
        rest <- read_dir_extents f bs extents ;;
        Ok (es ++ rest)
  end.

Definition name_le (a b : buffer * Z) : bool := match bytes_cmp a.1 b.1 with Gt => false | _ => true end.

(** [fn get_dir_entries], and its public name [children_of] *)
Definition get_dir_entries (inode_number : Z) : R (list (buffer * Z)) :=
  inode <~~ get_inode inode_number ;;
  extents <~~ extents_of_inode inode ;;
  bs <~~ block_size ;;
  f <~~ rget r_file ;;
  entries <~~ rtry (read_dir_extents f bs extents) ;;
  rret (sort_by name_le entries).
Definition children_of : Z -> R (list (buffer * Z)) := get_dir_entries.

(** ** Opening an image *)

Definition dotdot : buffer := [0x2E; 0x2E].
Definition is_dots (name : buffer) : bool := bool_decide (name = dot) || bool_decide (name = dotdot).

(** [trim_start_matches('/')] and [trim_start_matches("./")] *)
Fixpoint trim_slashes (s : buffer) : buffer :=
  match s with
  | c :: s' => if c =? slash then trim_slashes s' else s
  | [] => []
  end.
Fixpoint trim_dot_slashes (s : buffer) : buffer :=
  match s with
  | c1 :: ((c2 :: s'') as s') => if (c1 =? 0x2E) && (c2 =? slash) then trim_dot_slashes s'' else s
  | _ => s
  end.

(** The node of a directory entry, with its block ranges. *)
Definition entry_node (name : buffer) (ino : Z) (blocks : list (Z * Z)) : FileTreeNode :=
  let ranges := (fun b => mk_range b.1 b.2) <$> blocks in
  mk_node ino name [] None (head ranges) (tail ranges) None.

(** One entry of a directory; [queue] is the stack of directories still to visit. *)
Definition visit_entry (parent_idx : nat) (queue : list (nat * Z)) (e : buffer * Z) : R (list (nat * Z)) :=
  let '(name, child_ino) := e in
  if is_dots name then rret queue
  else
    cache <~~ rget r_inodes ;;
    if bool_decide (is_Some (cache !! child_ino)) then
      t <~~ rget r_tree ;;
      parent_path <~~ rmust (node_path t parent_idx) ;;
      let key := trim_dot_slashes (trim_slashes (push parent_path name)) in
      _ <~~ rput (fun r => set_hardlinks (<[key := child_ino]> r.(r_hardlinks)) r) ;;
      rret queue
    else
      inode <~~ get_inode child_ino ;;
      blocks <~~ extents_of_inode inode ;;
      t <~~ rget r_tree ;;
      st <~~ rmust (add_child t parent_idx (entry_node name child_ino blocks)) ;;
      _ <~~ rput (set_reader_tree st.1) ;;
      child_inode <~~ get_inode child_ino ;;
      rret (if Inode.is_dir child_inode then (st.2, child_ino) :: queue else queue).

Fixpoint visit_entries (parent_idx : nat) (queue : list (nat * Z)) (es : list (buffer * Z)) : R (list (nat * Z)) :=
  match es with
  | [] => rret queue
  | e :: es => queue <~~ visit_entry parent_idx queue e ;; visit_entries parent_idx queue es
  end.

(** The traversal; [None] is running out of fuel. *)
Fixpoint scan (fuel : nat) (queue : list (nat * Z)) (r : Reader) : option (outcome ReadError unit * Reader) :=
  match queue with
  | [] => Some (Ok tt, r)
  | (parent_idx, inode_num) :: queue =>
      match fuel with
      | O => None
      | S fuel =>
          let step := children <~~ get_dir_entries inode_num ;; visit_entries parent_idx queue children in
          match step r with
          | (Ok queue, r) => scan fuel queue r
          | (Err e, r) => Some (Err e, r)
          | (Panic, r) => Some (Panic, r)
          end
      end
  end.

(** The state before the traversal; [image] is the file at [path], if it opens. *)
Definition open_image (path : buffer) (image : option buffer) : outcome ReadError Reader :=
  f <- ok_or image (RNotFound path) ;;
  b <- ok_or (file_read f SUPERBLOCK_OFFSET SUPERBLOCK_SIZE) (CouldNotReadSuperBlock path SUPERBLOCK_OFFSET SUPERBLOCK_SIZE) ;;
  superblock <-! SuperBlock.read_from b ;;
  if negb (superblock.(SuperBlock.magic) =? SUPERBLOCK_MAGIC) then Err InvalidSuperBlock
  else Ok (mk_reader f superblock ∅ ∅ (new_tree ROOT_INODE dot) ∅).

(** [Reader::new] *)
Definition reader_new (fuel : nat) (path : buffer) (image : option buffer) : option (outcome ReadError Reader) :=
  match open_image path image with
  | Ok r =>
      match scan fuel [(r.(r_tree).(t_root), ROOT_INODE)] r with
      | Some (Ok _, r) => Some (Ok r)
      | Some (Err e, _) => Some (Err e)
      | Some (Panic, _) => Some Panic
      | None => None
      end
  | Err e => Some (Err e)
  | Panic => Some Panic
  end.

(** ** File contents *)

(** The loop that reads up to 1 MiB at a time; [None] is running out of fuel. *)
Fixpoint read_chunks (fuel : nat) (f : buffer) (pos remaining : Z) : option buffer :=
  if remaining <=? 0 then Some []
  else match fuel with
  | O => None
  | S fuel =>
      let chunk := Z.min remaining (2 ^ 20) in
      let got := slice pos chunk f in
      if zlen got =? 0 then Some []
      else rest ← read_chunks fuel f (pos + zlen got) (remaining - zlen got); Some (got ++ rest)
  end.

(** Every turn but the last takes 1 MiB or ends. *)
Definition chunk_fuel (remaining : Z) : nat := S (S (Z.to_nat (remaining / 2 ^ 20))).

(** The loop of [read_from_extents] over the extents. *)
Fixpoint read_extents_loop (f : buffer) (bs start req_end count logical_offset : Z) (out : buffer)
    (extents : list (Z * Z)) : outcome ReadError buffer :=
  match extents with
  | [] => Ok out
  | (phys_start, phys_end) :: extents =>
      n <-! usub 64 phys_end phys_start ;;
      extent_bytes <-! umul 64 n bs ;;
      logical_end <-! uadd 64 logical_offset extent_bytes ;;
      if logical_end <=? start then read_extents_loop f bs start req_end count logical_end out extents
      else if req_end <=? logical_offset then Ok out
      else
        let overlap_start := Z.max start logical_offset in
        let overlap_end := Z.min req_end logical_end in
        remaining <-! usub 64 overlap_end overlap_start ;;
        if remaining =? 0 then read_extents_loop f bs start req_end count logical_end out extents
        else
          offset_into_extent <-! usub 64 overlap_start logical_offset ;;
          n <-! umul 64 phys_start bs ;;
          abs_byte_offset <-! uadd 64 n offset_into_extent ;;
          if 2 ^ 63 <=? abs_byte_offset then Err RIo
          else
            got <-! read_chunks (chunk_fuel remaining) f abs_byte_offset remaining ;;
            let out := out ++ got in
            if count <=? zlen out then Ok out
            else read_extents_loop f bs start req_end count logical_end out extents
  end.

(** [fn read_from_extents]; a capacity beyond [isize::MAX] panics. *)
Definition read_from_extents (inode_number start count : Z) : R buffer :=
  inode <~~ get_inode inode_number ;;
  extents <~~ extents_of_inode inode ;;
  match extents with
  | [] => rret []
  | _ =>
      bs <~~ block_size ;;
      f <~~ rget r_file ;;
      req_end <~~ rmust (uadd 64 start count) ;;
      _ <~~ rmust (if count <? 2 ^ 63 then Some tt else None) ;;
      out <~~ rtry (read_extents_loop f bs start req_end count 0 [] extents) ;;
      rret (take (Z.to_nat count) out)
  end.

(** [fn read_symlink_target] *)
Definition read_symlink_target (inode : Inode.t) (inode_number : Z) : R buffer :=
  let size := Inode.file_size inode in
  if size =? 0 then rret []
  else if size <? INODE_BLOCK_SIZE then
    bytes <~~ rmust (get_range inode.(Inode.block) 0 size) ;;
    rret (from_utf8_lossy bytes)
  else
    data <~~ read_from_extents inode_number 0 size ;;
    rret (from_utf8_lossy data).

(** ** Paths *)

(** [fn normalize_path] *)
Definition normalize_path (path : buffer) : list buffer :=
  let trimmed := default path (strip_prefix [slash] path) in
  filter (fun s => s <> []) (split_slash trimmed).

Definition MAX_SYMLINK_HOPS : nat := 40.

(** [entries.iter().find(|(n, _)| n == name)] *)
Fixpoint find_entry (name : buffer) (entries : list (buffer * Z)) : option Z :=
  match entries with
  | [] => None
  | (n, ino) :: entries => if bool_decide (n = name) then Some ino else find_entry name entries
  end.

(** The number a [..] component leads to. *)
Definition go_up (current : Z) (parent_stack : list Z) : R (Z * list Z) :=
  if current =? ROOT_INODE then rret (current, parent_stack)
  else match parent_stack with
  | parent :: stack => rret (parent, stack)
  | [] =>
      entries <~~ children_of current ;;
      rret (default current (find_entry dotdot entries), [])
  end.

(** The child a regular component names. *)
Definition go_down (current : Z) (name : buffer) : R (Z * Inode.t) :=
  current_inode <~~ get_inode current ;;
  if negb (Inode.is_dir current_inode) then rtry (Err (NotADirectory name))
  else
    entries <~~ children_of current ;;
    child_ino <~~ rtry (ok_or (find_entry name entries) (PathNotFound name)) ;;
    child_inode <~~ get_inode child_ino ;;
    rret (child_ino, child_inode).

(** The loop of [resolve_path], on the components from [idx] on; what lies before
    [idx] is not looked at again.  [hops] symbolic links may still be followed, and a
    call for fewer hops starts over with the link's target in front. *)
Fixpoint resolve_loop (hops : nat) (path : buffer) (follow_symlinks : bool) : list buffer -> Z -> list Z -> gset Z -> R Z :=
  fix go (components : list buffer) (current : Z) (parent_stack : list Z) (visited : gset Z) {struct components} : R Z :=
    match components with
    | [] => rret current
    | name :: rest =>
        if bool_decide (name = dot) then go rest current parent_stack visited
        else if bool_decide (name = dotdot) then
          st <~~ go_up current parent_stack ;; go rest st.1 st.2 visited
        else
          child <~~ go_down current name ;;
          if Inode.is_link child.2 && follow_symlinks then
            if bool_decide (child.1 ∈ visited) then rtry (Err (SymlinkLoop path))
            else match hops with
            | O => rtry (Err (SymlinkLoop path))
            | S hops =>
                target <~~ read_symlink_target child.2 child.1 ;;
                if bool_decide (target = []) then rtry (Err (InvalidPath (bstr "empty symlink target")))
                else
                  let components := normalize_path target ++ rest in
                  let visited := {[child.1]} ∪ visited in
                  if starts_with [slash] target
                  then resolve_loop hops path follow_symlinks components ROOT_INODE [] visited
                  else resolve_loop hops path follow_symlinks components current parent_stack visited
            end
          else go rest child.1 (current :: parent_stack) visited
    end.

(** [fn resolve_path] *)
Definition resolve_path (path : buffer) (follow_symlinks : bool) : R (Z * Inode.t) :=
  current <~~ resolve_loop MAX_SYMLINK_HOPS path follow_symlinks (normalize_path path) ROOT_INODE [] ∅ ;;
  final_inode <~~ get_inode current ;;
  rret (current, final_inode).

(** ** The public interface *)

(** [fn exists]: an error of any kind is [false]. *)
Definition path_exists (path : buffer) : R bool := fun r =>
  match resolve_path path true r with
  | (Ok _, r) => (Ok true, r)
  | (Err _, r) => (Ok false, r)
  | (Panic, r) => (Panic, r)
  end.
Definition stat (path : buffer) : R (Z * Inode.t) := resolve_path path true.
Definition stat_no_follow (path : buffer) : R (Z * Inode.t) := resolve_path path false.

(** [fn list_dir] *)
Definition read_list_dir (path : buffer) : R (list buffer) :=
  st <~~ stat path ;;
  if negb (Inode.is_dir st.2) then rtry (Err (NotADirectory path))
  else
    children <~~ children_of st.1 ;;
    rret (fst <$> filter (fun e => is_dots e.1 = false) children).

(** [fn read_file] *)
Definition read_file (path : buffer) (offset : Z) (count : option Z) : R buffer :=
  st <~~ stat path ;;
  if Inode.is_dir st.2 then rtry (Err (IsDirectory path))
  else if negb (Inode.is_reg st.2) then rtry (Err (NotAFile path))
  else
    let file_size := Inode.file_size st.2 in
    let start := Z.min offset file_size in
    let max_readable := file_size - start in
    let want := match count with Some c => Z.min c max_readable | None => max_readable end in
    if want =? 0 then rret [] else read_from_extents st.1 start want.

(** [fn read_file_into] *)
Definition read_file_into (path : buffer) (buf : buffer) (offset : Z) : R (Z * buffer) :=
  data <~~ read_file path offset (Some (zlen buf)) ;;
  let n := Z.min (zlen data) (zlen buf) in
  rret (n, take (Z.to_nat n) data ++ drop (Z.to_nat n) buf).
