(* ===== verification/Bitmaps.v ===== *)
(** * Allocation bitmaps

    The part of [Formatter::close] ([common/ext4/src/formatter.rs]) that fills the
    block bitmap and the inode bitmap of a block group.  A bitmap is its bytes; bit
    [i] is bit [i % 8] of byte [i / 8]. *)

From stdpp Require Import base list list_numbers option numbers.
From S2P Require Import Prelude Bytes Constants DiskTypes Extent.

(** [bitmap[(i / 8) as usize] |= 1 << (i % 8)], [&= !(1 << (i % 8))] and the test
    [(bitmap[(i / 8) as usize] >> (i % 8)) & 1]; an index out of range panics. *)
Definition upd_bit (f : Z -> Z -> Z) (bm : buffer) (i : Z) : option buffer :=
  b ← zlookup bm (i / 8); Some (<[Z.to_nat (i / 8) := f b (i mod 8)]> bm).
Definition set_bit : buffer -> Z -> option buffer := upd_bit (fun b k => Z.lor b (Z.shiftl 1 k)).
Definition clear_bit : buffer -> Z -> option buffer := upd_bit (fun b k => Z.ldiff b (Z.shiftl 1 k)).
Definition get_bit (bm : buffer) (i : Z) : option bool := b ← zlookup bm (i / 8); Some (Z.testbit b (i mod 8)).

(** [for i in lo..lo + n] with a body that may panic *)
Fixpoint for_range {S} (n : nat) (lo : Z) (f : Z -> S -> option S) (s : S) : option S :=
  match n with
  | O => Some s
  | S n => s ← f lo s; for_range n (lo + 1) f s
  end.

(** ** Block bitmap *)

(** A bitmap under construction with the count of its used blocks. *)
Definition marks : Type := buffer * Z.

(** Set a bit and count it. *)
Definition use_block (i : Z) (s : marks) : option marks :=
  bm ← set_bit s.1 i; n ← uadd 32 s.2 1; Some (bm, n).

(** Set a bit and count it if it was clear. *)
Definition reserve_block (i : Z) (s : marks) : option marks :=
  was_set ← get_bit s.1 i;
  bm ← set_bit s.1 i;
  if (was_set : bool) then Some (bm, s.2) else n ← uadd 32 s.2 1; Some (bm, n).

(** Clear a bit and uncount it if it was set. *)
Definition free_block (i : Z) (s : marks) : option marks :=
  was_set ← get_bit s.1 i;
  bm ← clear_bit s.1 i;
  if (was_set : bool) then n ← usub 32 s.2 1; Some (bm, n) else Some (bm, s.2).

(** The first loop: the blocks of the group below [data_size]. *)
Definition mark_data (block_size bpg group data_size : Z) : option marks :=
  group_start ← umul 32 group bpg;
  group_end ← uadd 32 group_start bpg;
  let empty := replicate (Z.to_nat block_size) 0 in
  if group_end <=? data_size then Some (replicate (Z.to_nat block_size) 0xFF, bpg)
  else if group_start <? data_size then
    for_range (Z.to_nat (data_size - group_start)) 0 use_block (empty, 0)
  else Some (empty, 0).

(** The blocks of the deleted ranges that lie in the group become free. *)
Definition free_range (bpg group : Z) (r : BlockRange) (s : marks) : option marks :=
  for_range (Z.to_nat (r.(br_end) - r.(br_start))) r.(br_start)
    (fun blk s => if blk / bpg =? group then free_block (blk mod bpg) s else Some s) s.

Fixpoint free_ranges (bpg group : Z) (rs : list BlockRange) (s : marks) : option marks :=
  match rs with
  | [] => Some s
  | r :: rs => s ← free_range bpg group r s; free_ranges bpg group rs s
  end.

(** The block bitmap of a group and its number of used blocks. *)
Definition block_bitmap (block_size bpg group data_size metadata_blocks : Z) (deleted : list BlockRange)
    : option marks :=
  s ← mark_data block_size bpg group data_size;
  s ← for_range (Z.to_nat (Z.min metadata_blocks bpg)) 0 reserve_block s;
  free_ranges bpg group deleted s.

(** ** Inode bitmap *)

Record inode_marks := mk_im { im_bitmap : buffer; im_used : Z; im_last : Z; im_dirs : Z }.

(** One turn of the loop over the inodes of a group. *)
Definition mark_inode (inodes : list Inode.t) (group inodes_per_group i : Z) (s : inode_marks) : option inode_marks :=
  base ← umul 32 group inodes_per_group;
  base ← uadd 32 1 base;
  ino ← uadd 32 base i;
  if wrap 32 (zlen inodes) <? ino then Some s
  else
    inode ← zlookup inodes (ino - 1);
    if (10 <? ino) && (inode.(Inode.links_count) =? 0) then Some s
    else
      bm ← set_bit s.(im_bitmap) i;
      used ← uadd 32 s.(im_used) 1;
      last ← uadd 32 i 1;
      dirs ← (if Inode.is_dir inode then uadd 32 s.(im_dirs) 1 else Some s.(im_dirs));
      Some (mk_im bm used last dirs).

(** The bits past the last inode are set. *)
Definition pad_inode_bitmap (inodes_per_group : Z) (bm : buffer) : buffer :=
  take (Z.to_nat (inodes_per_group / 8)) bm ++
  replicate (length bm - Z.to_nat (inodes_per_group / 8)) 0xFF.

Definition inode_bitmap (block_size : Z) (inodes : list Inode.t) (group inodes_per_group : Z) : option inode_marks :=
  s ← for_range (Z.to_nat inodes_per_group) 0 (mark_inode inodes group inodes_per_group)
        (mk_im (replicate (Z.to_nat block_size) 0) 0 0 0);
  Some (mk_im (pad_inode_bitmap inodes_per_group s.(im_bitmap)) s.(im_used) s.(im_last) s.(im_dirs)).

(** ** Bits *)

Definition bit (bm : buffer) (i : Z) : bool := match get_bit bm i with Some b => b | None => false end.

(** The number of set bits below [n]. *)
Fixpoint count (f : Z -> bool) (n : nat) : Z :=
  match n with
  | O => 0
  | S n => (if f (Z.of_nat n) then 1 else 0) + count f n
  end.

Lemma count_ext f g n : (forall i, 0 <= i < Z.of_nat n -> f i = g i) -> count f n = count g n.
Proof.
  induction n as [|n IH]; intros H; [done|]. cbn [count]. rewrite IH by (intros; apply H; lia). by rewrite H by lia.
Qed.

Lemma count_bounds f n : 0 <= count f n <= Z.of_nat n.
Proof. induction n as [|n IH]; cbn [count]; [lia|]. case_match; lia. Qed.

(** Changing one bit below [n]. *)
Lemma count_flip f g n i : 0 <= i < Z.of_nat n -> (forall j, j <> i -> g j = f j) ->
  count g n = count f n + (if g i then 1 else 0) - (if f i then 1 else 0).
Proof.
  intros Hi H. induction n as [|n IH]; [lia|]. cbn [count].
  destruct (decide (i = Z.of_nat n)) as [->|Hne].
  - rewrite (count_ext g f) by (intros j Hj; apply H; lia). case_match; case_match; lia.
  - rewrite IH by lia. rewrite (H (Z.of_nat n)) by lia. lia.
Qed.

Lemma count_none f n : (forall i, 0 <= i < Z.of_nat n -> f i = false) -> count f n = 0.
Proof.
  induction n as [|n IH]; intros H; [done|]. cbn [count]. rewrite H by lia. rewrite IH; [done|]. intros; apply H; lia.
Qed.

Lemma count_all f n : (forall i, 0 <= i < Z.of_nat n -> f i = true) -> count f n = Z.of_nat n.
Proof.
  induction n as [|n IH]; intros H; [done|]. cbn [count]. rewrite H by lia. rewrite IH; [lia|]. intros; apply H; lia.
Qed.

Lemma zlookup_in {A} (l : list A) i : 0 <= i < zlen l -> exists x, zlookup l i = Some x /\ l !! Z.to_nat i = Some x.
Proof.
  intros Hi. rewrite zlookup_nonneg by lia. destruct (lookup_lt_is_Some_2 l (Z.to_nat i)) as [x Hx]; [unfold zlen in Hi; lia|]. eauto.
Qed.

Lemma div8_range i n : 0 <= i < 8 * n -> 0 <= i / 8 < n.
Proof. intros H. split; [apply Z.div_pos; lia|apply Z.div_lt_upper_bound; lia]. Qed.

(** What an update of one bit does, for a byte operation that changes that bit. *)
Lemma upd_bit_spec (f : Z -> Z -> Z) (v : bool) bm i :
  (forall b k j, 0 <= k -> 0 <= j -> Z.testbit (f b k) j = if j =? k then v else Z.testbit b j) ->
  0 <= i < 8 * zlen bm ->
  exists bm', upd_bit f bm i = Some bm' /\ zlen bm' = zlen bm /\ (forall j, 0 <= j -> bit bm' j = if j =? i then v else bit bm j).
Proof.
  intros Hf Hi. pose proof (div8_range i (zlen bm) Hi) as Hb. destruct (zlookup_in bm (i / 8) Hb) as (b & Hz & Hl).
  unfold upd_bit. rewrite Hz. simpl. eexists. split; [done|]. split; [unfold zlen; by rewrite length_insert|].
  intros j Hj. unfold bit, get_bit. rewrite !zlookup_nonneg by (apply Z.div_pos; lia).
  pose proof (Z.mod_pos_bound i 8). pose proof (Z.mod_pos_bound j 8). pose proof (Z.div_mod i 8). pose proof (Z.div_mod j 8).
  destruct (decide (j / 8 = i / 8)) as [Hd|Hd].
  - rewrite Hd, list_lookup_insert_eq by (by apply lookup_lt_Some in Hl). rewrite Hl. simpl. rewrite Hf by lia.
    destruct (Z.eqb_spec (j mod 8) (i mod 8)), (Z.eqb_spec j i); try done; lia.
  - rewrite list_lookup_insert_ne by (pose proof (Z.div_pos j 8); lia).
    destruct (Z.eqb_spec j i) as [->|_]; [done|reflexivity].
Qed.

Lemma set_bit_spec bm i : 0 <= i < 8 * zlen bm ->
  exists bm', set_bit bm i = Some bm' /\ zlen bm' = zlen bm /\ (forall j, 0 <= j -> bit bm' j = if j =? i then true else bit bm j).
Proof.
  apply upd_bit_spec. intros b k j Hk Hj. rewrite Z.lor_spec, Z.shiftl_1_l, Z.pow2_bits_eqb by done.
  destruct (Z.eqb_spec k j), (Z.eqb_spec j k); try lia; by destruct (Z.testbit b j).
Qed.

Lemma clear_bit_spec bm i : 0 <= i < 8 * zlen bm ->
  exists bm', clear_bit bm i = Some bm' /\ zlen bm' = zlen bm /\ (forall j, 0 <= j -> bit bm' j = if j =? i then false else bit bm j).
Proof.
  apply upd_bit_spec. intros b k j Hk Hj. rewrite Z.ldiff_spec, Z.shiftl_1_l, Z.pow2_bits_eqb by done.
  destruct (Z.eqb_spec k j), (Z.eqb_spec j k); try lia; by destruct (Z.testbit b j).
Qed.

Lemma get_bit_in bm i : 0 <= i < 8 * zlen bm -> get_bit bm i = Some (bit bm i).
Proof.
  intros Hi. destruct (zlookup_in bm (i / 8) (div8_range _ _ Hi)) as (b & Hz & _). unfold bit, get_bit. by rewrite Hz.
Qed.


(** ** Loops *)

Lemma for_range_inv {S} (I : Z -> S -> Prop) (f : Z -> S -> option S) n lo s :
  I lo s ->
  (forall i s, lo <= i < lo + Z.of_nat n -> I i s -> exists s', f i s = Some s' /\ I (i + 1) s') ->
  exists s', for_range n lo f s = Some s' /\ I (lo + Z.of_nat n) s'.
Proof.
  revert lo s. induction n as [|n IH]; intros lo s Hs Hf; cbn [for_range].
  - exists s. split; [done|]. by rewrite Z.add_0_r.
  - destruct (Hf lo s) as (s1 & -> & H1); [lia|done|]. cbn [mbind option_bind].
    destruct (IH (lo + 1) s1 H1) as (s' & -> & H'); [intros; apply Hf; [lia|done]|].
    exists s'. split; [done|]. by replace (lo + Z.of_nat (Datatypes.S n)) with (lo + 1 + Z.of_nat n) by lia.
Qed.

(** The bound of a loop that runs [n] times from [lo]. *)
Lemma ltb_loop_end j lo n : lo <= j -> (j <? lo + Z.of_nat (Z.to_nat n)) = (j <? lo + n).
Proof. intros. destruct (Z.ltb_spec j (lo + Z.of_nat (Z.to_nat n))), (Z.ltb_spec j (lo + n)); done || lia. Qed.

Section Marks.
Context (bs : Z) (Hbs : 0 < bs) (H32 : 8 * bs < 2 ^ 32).

(** The bitmap holds the set [P] and the counter its size. *)
Definition marked (P : Z -> bool) (s : marks) : Prop :=
  zlen s.1 = bs /\ (forall i, 0 <= i < 8 * bs -> bit s.1 i = P i) /\ s.2 = count P (Z.to_nat (8 * bs)).

Lemma marked_ext P Q s : (forall i, 0 <= i < 8 * bs -> P i = Q i) -> marked P s -> marked Q s.
Proof.
  intros H (Hl & Hb & Hc). split; [done|]. split; [intros i Hi; by rewrite <- H, Hb|].
  rewrite Hc. apply count_ext. intros i Hi. apply H. lia.
Qed.

Lemma mark_step P i bm s : 0 <= i < 8 * bs -> marked P s -> zlen bm = bs ->
  (forall j, 0 <= j -> bit bm j = if j =? i then true else bit s.1 j) ->
  marked (fun j => (j =? i) || P j) (bm, s.2 + (if P i then 0 else 1)).
Proof.
  intros Hi (Hl & Hb & Hc) Hl' Hb'. split; [done|]. split; simpl.
  - intros j Hj. rewrite Hb' by lia. case_match; [done|]. by rewrite Hb.
  - rewrite (count_flip P (fun j => (j =? i) || P j) _ i) by (try (intros j Hne; apply Z.eqb_neq in Hne as ->); done || lia).
    rewrite Z.eqb_refl, Hc. simpl. destruct (P i); lia.
Qed.

Lemma unmark_step P i bm s : 0 <= i < 8 * bs -> marked P s -> zlen bm = bs ->
  (forall j, 0 <= j -> bit bm j = if j =? i then false else bit s.1 j) ->
  marked (fun j => negb (j =? i) && P j) (bm, s.2 - (if P i then 1 else 0)).
Proof.
  intros Hi (Hl & Hb & Hc) Hl' Hb'. split; [done|]. split; simpl.
  - intros j Hj. rewrite Hb' by lia. case_match; [done|]. by rewrite Hb.
  - rewrite (count_flip P (fun j => negb (j =? i) && P j) _ i) by (try (intros j Hne; apply Z.eqb_neq in Hne as ->); done || lia).
    rewrite Z.eqb_refl, Hc. simpl. destruct (P i); lia.
Qed.

(** The counter of a marked bitmap is in range, and below the number of bits when a
    bit is clear. *)
Lemma marked_counter P i s : 0 <= i < 8 * bs -> marked P s ->
  0 <= s.2 + (if P i then 0 else 1) < 2 ^ 32 /\ 0 <= s.2 - (if P i then 1 else 0) < 2 ^ 32.
Proof.
  intros Hi (Hl & Hb & Hc). rewrite Hc.
  pose proof (count_bounds P (Z.to_nat (8 * bs))). pose proof (count_bounds (fun j => negb (j =? i) && P j) (Z.to_nat (8 * bs))) as Hn.
  rewrite (count_flip P _ _ i) in Hn by (try (intros j Hne; apply Z.eqb_neq in Hne as ->); done || lia).
  rewrite Z.eqb_refl in Hn. simpl in Hn. destruct (P i); lia.
Qed.

Lemma use_block_marks P i s : 0 <= i < 8 * bs -> P i = false -> marked P s ->
  exists s', use_block i s = Some s' /\ marked (fun j => (j =? i) || P j) s'.
Proof.
  intros Hi HP Hm. pose proof Hm as (Hl & _ & _). unfold use_block.
  destruct (set_bit_spec s.1 i) as (bm & -> & Hl' & Hb); [lia|]. cbn [mbind option_bind].
  pose proof (marked_counter P i s Hi Hm) as Hr. pose proof (mark_step P i bm s Hi Hm ltac:(lia) Hb) as Hs. rewrite HP in *.
  unfold uadd. rewrite chk_some by (unfold uint; lia). simpl. eauto.
Qed.

Lemma reserve_block_marks P i s : 0 <= i < 8 * bs -> marked P s ->
  exists s', reserve_block i s = Some s' /\ marked (fun j => (j =? i) || P j) s'.
Proof.
  intros Hi Hm. pose proof Hm as (Hl & HP & _). unfold reserve_block. rewrite get_bit_in, HP by lia. cbn [mbind option_bind].
  destruct (set_bit_spec s.1 i) as (bm & -> & Hl' & Hb); [lia|]. cbn [mbind option_bind].
  pose proof (marked_counter P i s Hi Hm) as Hr. pose proof (mark_step P i bm s Hi Hm ltac:(lia) Hb) as Hs. destruct (P i).
  - rewrite Z.add_0_r in Hs. eauto.
  - unfold uadd. rewrite chk_some by (unfold uint; lia). simpl. eauto.
Qed.

Lemma free_block_marks P i s : 0 <= i < 8 * bs -> marked P s ->
  exists s', free_block i s = Some s' /\ marked (fun j => negb (j =? i) && P j) s'.
Proof.
  intros Hi Hm. pose proof Hm as (Hl & HP & _). unfold free_block. rewrite get_bit_in, HP by lia. cbn [mbind option_bind].
  destruct (clear_bit_spec s.1 i) as (bm & -> & Hl' & Hb); [lia|]. cbn [mbind option_bind].
  pose proof (marked_counter P i s Hi Hm) as Hr. pose proof (unmark_step P i bm s Hi Hm ltac:(lia) Hb) as Hs. destruct (P i).
  - unfold usub. rewrite chk_some by (unfold uint; lia). simpl. eauto.
  - rewrite Z.sub_0_r in Hs. eauto.
Qed.

(** *** The three loops *)

Definition is_data (group data_size i : Z) : bool := group * (8 * bs) + i <? data_size.
Definition in_range (r : BlockRange) (b : Z) : bool := (r.(br_start) <=? b) && (b <? r.(br_end)).

Lemma mark_data_marks group data_size : 0 <= group -> (group + 1) * (8 * bs) < 2 ^ 32 ->
  exists s, mark_data bs (8 * bs) group data_size = Some s /\ marked (is_data group data_size) s.
Proof.
  intros Hg Hr. unfold mark_data, umul, uadd. rewrite chk_some by (unfold uint; nia). cbn [mbind option_bind].
  rewrite chk_some by (unfold uint; nia). cbn [mbind option_bind].
  assert (He : marked (fun _ => false) (replicate (Z.to_nat bs) 0, 0)).
  { split; [unfold zlen; simpl; rewrite length_replicate; lia|]. split; simpl; [|by rewrite count_none].
    intros i Hi. unfold bit, get_bit. rewrite zlookup_nonneg by (apply Z.div_pos; lia).
    rewrite lookup_replicate_2 by (pose proof (div8_range i bs); lia). simpl. apply Z.bits_0. }
  destruct (Z.leb_spec (group * (8 * bs) + 8 * bs) data_size) as [Hfull|Hpart].
  - eexists. split; [done|]. apply (marked_ext (fun _ => true)); [intros i Hi; unfold is_data; symmetry; apply Z.ltb_lt; lia|].
    split; [unfold zlen; simpl; rewrite length_replicate; lia|]. split; simpl; [|rewrite count_all; lia || done].
    intros i Hi. unfold bit, get_bit. rewrite zlookup_nonneg by (apply Z.div_pos; lia).
    rewrite lookup_replicate_2 by (pose proof (div8_range i bs); lia). cbn [mbind option_bind].
    change 0xFF with (Z.ones 8). rewrite Z.testbit_ones by lia. pose proof (Z.mod_pos_bound i 8). lia.
  - destruct (Z.ltb_spec (group * (8 * bs)) data_size) as [Hsome|Hnone].
    + destruct (for_range_inv (fun k => marked (fun j => j <? k)) use_block (Z.to_nat (data_size - group * (8 * bs))) 0
                  (replicate (Z.to_nat bs) 0, 0)) as (s & E & Hm).
      * eapply marked_ext; [|exact He]. intros i Hi. simpl. lia.
      * intros i s Hi Hm. destruct (use_block_marks (fun j => j <? i) i s) as (s' & E & Hm'); [lia|apply Z.ltb_irrefl|done|].
        exists s'. split; [done|]. eapply marked_ext; [|exact Hm']. intros j Hj. simpl. lia.
      * exists s. split; [exact E|]. eapply marked_ext; [|exact Hm]. intros j Hj. unfold is_data.
        rewrite ltb_loop_end by lia. lia.
    + eexists. split; [done|]. eapply marked_ext; [|exact He]. intros i Hi. unfold is_data. lia.
Qed.

Lemma reserve_loop_marks P n s : n <= 8 * bs -> marked P s ->
  exists s', for_range (Z.to_nat n) 0 reserve_block s = Some s' /\ marked (fun j => P j || (j <? n)) s'.
Proof.
  intros Hn Hm.
  destruct (for_range_inv (fun k => marked (fun j => P j || (j <? k))) reserve_block (Z.to_nat n) 0 s) as (s' & E & Hm').
  - eapply marked_ext; [|exact Hm]. intros i Hi. simpl. destruct (P i); lia.
  - intros i s1 Hi H1. destruct (reserve_block_marks _ i s1 ltac:(lia) H1) as (s' & E & Hm').
    exists s'. split; [done|]. eapply marked_ext; [|exact Hm']. intros j Hj. simpl. destruct (P j); simpl; lia.
  - exists s'. split; [done|]. eapply marked_ext; [|exact Hm']. intros j Hj. cbv beta. by rewrite ltb_loop_end by lia.
Qed.

(** Freeing the blocks [lo, lo + n). *)
Lemma free_range_marks P group r s : 0 <= group -> 0 <= r.(br_start) -> marked P s ->
  exists s', free_range (8 * bs) group r s = Some s' /\
    marked (fun j => P j && negb (in_range r (group * (8 * bs) + j))) s'.
Proof.
  intros Hg Hr Hm. unfold free_range.
  set (Q k j := P j && negb ((r.(br_start) <=? group * (8 * bs) + j) && (group * (8 * bs) + j <? k))).
  destruct (for_range_inv (fun k => marked (Q k))
    (fun blk s => if blk / (8 * bs) =? group then free_block (blk mod (8 * bs)) s else Some s)
    (Z.to_nat (r.(br_end) - r.(br_start))) r.(br_start) s) as (s' & E & Hm').
  - eapply marked_ext; [|exact Hm]. intros i Hi. unfold Q. destruct (P i); simpl; lia.
  - intros b s1 Hb H1. pose proof (Z.div_mod b (8 * bs) ltac:(lia)). pose proof (Z.mod_pos_bound b (8 * bs) ltac:(lia)).
    destruct (Z.eqb_spec (b / (8 * bs)) group) as [Hd|Hd].
    + destruct (free_block_marks _ (b mod (8 * bs)) s1 ltac:(lia) H1) as (s' & E & Hm').
      exists s'. split; [done|]. eapply marked_ext; [|exact Hm']. intros j Hj. unfold Q. destruct (P j); simpl; lia.
    + exists s1. split; [done|]. eapply marked_ext; [|exact H1]. intros j Hj. unfold Q.
      assert (b <> group * (8 * bs) + j).
      { intros ->. apply Hd. rewrite Z.div_add_l, Z.div_small by lia. lia. }
      destruct (P j); simpl; lia.
  - exists s'. split; [done|]. eapply marked_ext; [|exact Hm']. intros j Hj. unfold Q, in_range.
    destruct (Z.leb_spec r.(br_start) (group * (8 * bs) + j)); [|done]. rewrite ltb_loop_end by lia. destruct (P j); simpl; lia.
Qed.

Lemma free_ranges_marks rs P group s : 0 <= group -> Forall (fun r => 0 <= r.(br_start)) rs -> marked P s ->
  exists s', free_ranges (8 * bs) group rs s = Some s' /\
    marked (fun j => P j && negb (existsb (fun r => in_range r (group * (8 * bs) + j)) rs)) s'.
Proof.
  intros Hg. revert P s. induction rs as [|r rs IH]; intros P s Hrs Hm; cbn [free_ranges].
  - exists s. split; [done|]. eapply marked_ext; [|exact Hm]. intros i Hi. simpl. by rewrite andb_true_r.
  - apply Forall_cons_1 in Hrs as [Hr Hrs]. destruct (free_range_marks P group r s Hg Hr Hm) as (s1 & -> & H1).
    cbn [mbind option_bind]. destruct (IH _ s1 Hrs H1) as (s' & -> & H'). exists s'. split; [done|].
    eapply marked_ext; [|exact H']. intros i Hi. simpl. by rewrite negb_orb, andb_assoc.
Qed.
End Marks.

(** C12 block_bitmap_exact: The block bitmap [close] writes for a group has bit [i] set
    exactly when block [i] of the group lies below the end of the data or in the group's
    superblock and descriptor copies, and is not in a deleted range; the count of used
    blocks that goes into the group descriptor is the number of set bits.  The bitmap
    code neither panics nor overflows, however the deleted ranges overlap. *)
Theorem block_bitmap_exact bs group data_size metadata_blocks deleted :
  0 < bs -> 0 <= group -> (group + 1) * (8 * bs) < 2 ^ 32 ->
  Forall (fun r => 0 <= r.(br_start)) deleted ->
  let used i := (is_data bs group data_size i || (i <? metadata_blocks)) &&
                negb (existsb (fun r => in_range r (group * (8 * bs) + i)) deleted) in
  exists bm n, block_bitmap bs (8 * bs) group data_size metadata_blocks deleted = Some (bm, n) /\
    zlen bm = bs /\ (forall i, 0 <= i < 8 * bs -> bit bm i = used i) /\ n = count used (Z.to_nat (8 * bs)).
Proof.
  intros Hbs Hg Hr Hd used. unfold block_bitmap.
  destruct (mark_data_marks bs Hbs ltac:(nia) group data_size Hg Hr) as (s0 & -> & H0). cbn [mbind option_bind].
  destruct (reserve_loop_marks bs Hbs ltac:(nia) _ (Z.min metadata_blocks (8 * bs)) s0 ltac:(lia) H0) as (s1 & -> & H1).
  cbn [mbind option_bind].
  destruct (free_ranges_marks bs Hbs ltac:(nia) deleted _ group s1 Hg Hd H1) as ([bm n] & -> & H2).
  exists bm, n. split; [done|]. eapply marked_ext with (Q := used) in H2; [exact H2|done|].
  intros i Hi. unfold used. f_equal. f_equal. lia.
Qed.

Lemma block_bitmap_exact_witness :
  exists bm n, block_bitmap 1 8 1 13 2 [mk_range 7 9; mk_range 8 11] = Some (bm, n) /\ bm = [24] /\ n = 2 /\
    bit bm 0 = false /\ bit bm 3 = true.
Proof.
  destruct (block_bitmap_exact 1 1 13 2 [mk_range 7 9; mk_range 8 11]) as (bm & n & E & _ & Hb & Hn);
    [lia|lia|lia|repeat constructor; simpl; lia|].
  exists bm, n. change (8 * 1) with 8 in E. split; [exact E|]. vm_compute in E. injection E as <- <-. auto.
Defined.

(** ** The inode bitmap *)

Section InodeMarks.
Context (bs : Z) (inodes : list Inode.t) (group ipg : Z).
Context (Hlen : zlen inodes < 2 ^ 32) (Hg : 0 <= group) (Hipg : 0 < ipg <= 8 * bs) (Hr : (group + 1) * ipg < 2 ^ 32).

(** Inode [i] of the group is in use: reserved, or linked. *)
Definition inode_used (i : Z) : bool :=
  let ino := 1 + group * ipg + i in
  match zlookup inodes (ino - 1) with
  | Some inode => (ino <=? 10) || negb (inode.(Inode.links_count) =? 0)
  | None => false
  end.

Definition inode_dir (i : Z) : bool :=
  inode_used i && match zlookup inodes (group * ipg + i) with Some inode => Inode.is_dir inode | None => false end.

(** The state after the first [k] inodes. *)
Definition inodes_marked (k : Z) (s : inode_marks) : Prop :=
  zlen s.(im_bitmap) = bs /\
  (forall i, 0 <= i -> bit s.(im_bitmap) i = (i <? k) && inode_used i) /\
  s.(im_used) = count inode_used (Z.to_nat k) /\ s.(im_dirs) = count inode_dir (Z.to_nat k) /\
  0 <= s.(im_last) <= k /\ (forall i, s.(im_last) <= i < k -> inode_used i = false) /\
  (0 < s.(im_last) -> inode_used (s.(im_last) - 1) = true).

Lemma count_succ f k : 0 <= k -> count f (Z.to_nat (k + 1)) = (if f k then 1 else 0) + count f (Z.to_nat k).
Proof. intros H. rewrite Z.add_1_r, Z2Nat.inj_succ by lia. cbn [count]. by rewrite Z2Nat.id by lia. Qed.

Lemma mark_inode_unused k s : 0 <= k < ipg -> inode_used k = false -> inodes_marked k s -> inodes_marked (k + 1) s.
Proof.
  intros Hk Hu (Hl & Hb & Hn & Hd & Hlast & Hafter & Hat). unfold inodes_marked.
  rewrite !count_succ by lia. unfold inode_dir at 1. rewrite Hu. simpl. repeat split; try done; try lia.
  - intros i Hi. rewrite Hb by done. destruct (Z.eq_dec i k) as [->|]; [by rewrite Hu, !andb_false_r|]. f_equal. lia.
  - intros i Hi. destruct (Z.eq_dec i k) as [->|]; [done|]. apply Hafter. lia.
Qed.

Lemma mark_inode_marks k s : 0 <= k < ipg -> inodes_marked k s ->
  exists s', mark_inode inodes group ipg k s = Some s' /\ inodes_marked (k + 1) s'.
Proof.
  intros Hk Hm. unfold mark_inode, umul, uadd. assert (0 <= group * ipg) by nia. assert (group * ipg + ipg < 2 ^ 32) by lia.
  rewrite (chk_some 32 (group * ipg)) by (unfold uint; lia). cbn [mbind option_bind].
  rewrite (chk_some 32 (1 + group * ipg)) by (unfold uint; lia). cbn [mbind option_bind].
  rewrite (chk_some 32 (1 + group * ipg + k)) by (unfold uint; lia). cbn [mbind option_bind].
  rewrite wrap_id by (unfold uint, zlen in *; lia).
  destruct (Z.ltb_spec (zlen inodes) (1 + group * ipg + k)) as [Hout|Hin].
  { exists s. split; [done|]. apply mark_inode_unused; try done. unfold inode_used.
    rewrite zlookup_nonneg, lookup_ge_None_2 by (unfold zlen in *; lia). done. }
  destruct (zlookup_in inodes (1 + group * ipg + k - 1)) as (inode & E & _); [lia|]. rewrite E. cbn [mbind option_bind].
  assert (Hu : inode_used k = negb ((10 <? 1 + group * ipg + k) && (Inode.links_count inode =? 0))).
  { unfold inode_used. rewrite E, negb_andb. f_equal. lia. }
  destruct ((10 <? 1 + group * ipg + k) && (Inode.links_count inode =? 0)) eqn:Hc.
  { exists s. split; [done|]. by apply mark_inode_unused. }
  simpl in Hu. destruct Hm as (Hl & Hb & Hn & Hd & Hlast & Hafter & Hat).
  destruct (set_bit_spec s.(im_bitmap) k) as (bm & -> & Hl' & Hb'); [lia|]. cbn [mbind option_bind].
  pose proof (count_bounds inode_used (Z.to_nat k)). pose proof (count_bounds inode_dir (Z.to_nat k)).
  rewrite (chk_some 32 (im_used s + 1)) by (unfold uint; lia). cbn [mbind option_bind].
  rewrite (chk_some 32 (k + 1)) by (unfold uint; lia). cbn [mbind option_bind].
  assert (Hdir : inode_dir k = Inode.is_dir inode).
  { unfold inode_dir. rewrite Hu. replace (group * ipg + k) with (1 + group * ipg + k - 1) by lia. by rewrite E. }
  set (dirs := s.(im_dirs) + (if Inode.is_dir inode then 1 else 0)).
  replace (if Inode.is_dir inode then chk 32 (im_dirs s + 1) else Some (im_dirs s)) with (Some dirs)
    by (unfold dirs; destruct (Inode.is_dir inode); [by rewrite chk_some by (unfold uint; lia)|by rewrite Z.add_0_r]).
  cbn [mbind option_bind]. eexists. split; [done|]. unfold inodes_marked; simpl. rewrite !count_succ, Hu, Hdir by lia.
  repeat split; try lia.
  - intros i Hi. rewrite Hb' by done. destruct (Z.eqb_spec i k) as [->|]; [rewrite Hu; lia|]. rewrite Hb by done. f_equal. lia.
  - intros _. by replace (k + 1 - 1) with k by lia.
Qed.

(** The padding keeps the bits below a multiple of eight and sets the others. *)
Lemma pad_inode_bitmap_bit bm i : ipg mod 8 = 0 -> zlen bm = bs -> 0 <= i < 8 * bs ->
  bit (pad_inode_bitmap ipg bm) i = if i <? ipg then bit bm i else true.
Proof.
  intros H8 Hl Hi. pose proof (Z.div_mod ipg 8). pose proof (div8_range i bs Hi). pose proof (Z.mod_pos_bound i 8).
  pose proof (Z.div_mod i 8). unfold bit, get_bit, pad_inode_bitmap. rewrite !zlookup_nonneg by lia. unfold zlen in Hl.
  destruct (Z.ltb_spec i ipg).
  - rewrite lookup_app_l by (rewrite length_take; lia). by rewrite lookup_take_lt by lia.
  - rewrite lookup_app_r, lookup_replicate_2 by (rewrite length_take; lia). cbn [mbind option_bind].
    change 0xFF with (Z.ones 8). rewrite Z.testbit_ones by lia. lia.
Qed.

(** The inode bitmap [close] writes for a group marks exactly the
    reserved inodes 1 to 10 and the inodes with a link, and every bit past the group's
    inodes; the counts of used inodes and of directories that go into the group
    descriptor are the sizes of those sets, and no inode from the recorded last index on
    is used, so [itable_unused] inodes at the end of the table are free. *)
Theorem inode_bitmap_exact : ipg mod 8 = 0 ->
  exists s, inode_bitmap bs inodes group ipg = Some s /\
    zlen s.(im_bitmap) = bs /\
    (forall i, 0 <= i < 8 * bs -> bit s.(im_bitmap) i = if i <? ipg then inode_used i else true) /\
    s.(im_used) = count inode_used (Z.to_nat ipg) /\ s.(im_dirs) = count inode_dir (Z.to_nat ipg) /\
    0 <= s.(im_last) <= ipg /\ (forall i, s.(im_last) <= i < ipg -> inode_used i = false) /\
    (0 < s.(im_last) -> inode_used (s.(im_last) - 1) = true).
Proof.
  intros H8. unfold inode_bitmap.
  destruct (for_range_inv inodes_marked (mark_inode inodes group ipg) (Z.to_nat ipg) 0
              (mk_im (replicate (Z.to_nat bs) 0) 0 0 0)) as (s & -> & Hm).
  - unfold inodes_marked; simpl. repeat split; try lia; [unfold zlen; rewrite length_replicate; lia|].
    intros i Hi. rewrite (proj2 (Z.ltb_ge i 0) Hi). unfold bit, get_bit. rewrite zlookup_nonneg by (apply Z.div_pos; lia).
    destruct (replicate _ 0 !! _) eqn:E; [|done]. apply lookup_replicate_1 in E as [-> _]. apply Z.bits_0.
  - intros i s Hi. apply mark_inode_marks. lia.
  - cbn [mbind option_bind]. eexists. split; [done|]. rewrite Z.add_0_l, Z2Nat.id in Hm by lia.
    destruct Hm as (Hl & Hb & Hn & Hd & Hlast & Hafter & Hat). simpl. split.
    { unfold pad_inode_bitmap, zlen in *. pose proof (Z.div_mod ipg 8). rewrite length_app, length_take, length_replicate. lia. }
    split; [|done]. intros i Hi. rewrite pad_inode_bitmap_bit by done. destruct (Z.ltb_spec i ipg) as [Hlt|]; [|done].
    rewrite Hb by lia. apply Z.ltb_lt in Hlt as ->. done.
Qed.
End InodeMarks.

Lemma inode_bitmap_exact_witness :
  exists s, inode_bitmap 2 (replicate 11 Inode.default) 0 16 = Some s /\ s.(im_bitmap) = [255; 3] /\
    s.(im_used) = 10 /\ inode_used (replicate 11 Inode.default) 0 16 10 = false.
Proof.
  destruct (inode_bitmap_exact 2 (replicate 11 Inode.default) 0 16) as (s & E & _ & _ & _ & _ & Hl & Ha & _);
    [done|lia|lia|lia|done|].
  exists s. split; [exact E|]. vm_compute in E. injection E as <-. split; [done|]. split; [done|].
  apply Ha. simpl. lia.
Defined.
