(* ===== verification/Formatter.v ===== *)
(** * The formatter: building the tree

    [common/ext4/src/formatter.rs] from [FormatOptions] to [unlink]: the state of
    a [Formatter] and the operations a caller uses between construction and
    [close].  Each operation is a computation in a state-and-error monad: a Rust
    method on [&mut self] that returns [Err] has still made the changes it made
    before, so the state is returned with every outcome. *)

From stdpp Require Import base list option numbers strings gmap.
From S2P Require Import Prelude Bytes Utf8 Errors Constants DiskTypes Image Extent Xattr Geometry Paths FileTree.

(** ** State *)

(** [struct FormatOptions] *)
Record FormatOptions := mk_options {
  o_block_size : Z; o_size : Z; o_uuid : option buffer; o_label : option buffer }.

(** [FormatOptions::new], and its setters *)
Definition options_new (size : Z) : FormatOptions := mk_options 4096 size None None.
Definition options_uuid (uuid : buffer) (o : FormatOptions) : FormatOptions :=
  mk_options o.(o_block_size) o.(o_size) (Some uuid) o.(o_label).
Definition options_label (label : buffer) (o : FormatOptions) : FormatOptions :=
  mk_options o.(o_block_size) o.(o_size) o.(o_uuid) (Some label).

(** [VOLUME_NAME_LEN] *)
Definition VOLUME_NAME_LEN : Z := 16.

(** [fn validate_label]; the message of the error is the label. *)
Definition validate_label (label : buffer) : outcome FormatError unit :=
  if VOLUME_NAME_LEN <? zlen label then Err (InvalidLabel label)
  else if existsb (Z.eqb 0) label then Err (InvalidLabel label)
  else Ok tt.

(** [struct FileTimestamps]: pairs [(seconds_lo, extra)]. *)
Record FileTimestamps := mk_ts {
  ts_access : Z * Z; ts_modification : Z * Z; ts_creation : Z * Z; ts_now : Z * Z }.

(** [impl Default for FileTimestamps] *)
Definition ts_default (now : Z * Z) : FileTimestamps := mk_ts now now now now.

(** [struct Formatter]: [f_disk] holds [file], [block_size] and [size]; [f_ticks]
    counts the readings of the wall clock so far. *)
Record Formatter := mk_fmt {
  f_disk : disk; f_inodes : list Inode.t; f_tree : FileTree;
  f_deleted : list BlockRange; f_deferred : gmap Z (list BlockRange);
  f_uuid : option buffer; f_label : option buffer; f_ticks : nat }.

Definition set_disk (d : disk) (s : Formatter) : Formatter :=
  mk_fmt d s.(f_inodes) s.(f_tree) s.(f_deleted) s.(f_deferred) s.(f_uuid) s.(f_label) s.(f_ticks).
Definition set_inodes (i : list Inode.t) (s : Formatter) : Formatter :=
  mk_fmt s.(f_disk) i s.(f_tree) s.(f_deleted) s.(f_deferred) s.(f_uuid) s.(f_label) s.(f_ticks).
Definition set_tree (t : FileTree) (s : Formatter) : Formatter :=
  mk_fmt s.(f_disk) s.(f_inodes) t s.(f_deleted) s.(f_deferred) s.(f_uuid) s.(f_label) s.(f_ticks).
Definition set_blocks (del : list BlockRange) (def : gmap Z (list BlockRange)) (s : Formatter) : Formatter :=
  mk_fmt s.(f_disk) s.(f_inodes) s.(f_tree) del def s.(f_uuid) s.(f_label) s.(f_ticks).
Definition tick (s : Formatter) : Formatter :=
  mk_fmt s.(f_disk) s.(f_inodes) s.(f_tree) s.(f_deleted) s.(f_deferred) s.(f_uuid) s.(f_label) (S s.(f_ticks)).

(** ** The monad *)

Definition M (A : Type) : Type := Formatter -> outcome FormatError A * Formatter.

Definition ret {A} (a : A) : M A := fun s => (Ok a, s).
Definition throw {A} (e : FormatError) : M A := fun s => (Err e, s).
Definition panic {A} : M A := fun s => (Panic, s).
Definition bind {A B} (m : M A) (k : A -> M B) : M B := fun s =>
  match m s with
  | (Ok a, s) => k a s
  | (Err e, s) => (Err e, s)
  | (Panic, s) => (Panic, s)
  end.
(** An outcome that does not touch the state. *)
Definition try {A} (o : outcome FormatError A) : M A := fun s => (o, s).
(** A read of the state, which may panic. *)
Definition reads {A} (f : Formatter -> option A) : M A := fun s => (lift (f s), s).
(** A change of the state, which may panic. *)
Definition updates (f : Formatter -> option Formatter) : M unit := fun s =>
  match f s with Some s' => (Ok tt, s') | None => (Panic, s) end.

Notation "x <~ m ;; k" := (bind m (fun x => k))
  (at level 20, m at level 99, k at level 200, right associativity) : bento_scope.

(** [for x in l { f(x)?; }] *)
Fixpoint for_each {A} (l : list A) (f : A -> M unit) : M unit :=
  match l with
  | [] => ret tt
  | x :: l => _ <~ f x ;; for_each l f
  end.

(** [self.inodes[(n - 1) as usize]] *)
Definition inode_index (n : Z) : option nat := i ← usub 32 n 1; Some (Z.to_nat i).
Definition get_inode (s : Formatter) (n : Z) : option Inode.t :=
  i ← inode_index n; s.(f_inodes) !! i.
Definition upd_inode (n : Z) (g : Inode.t -> option Inode.t) (s : Formatter) : option Formatter :=
  i ← inode_index n; x ← s.(f_inodes) !! i; y ← g x;
  Some (set_inodes (<[i := y]> s.(f_inodes)) s).

(** [self.tree.node(idx)] *)
Definition get_node (s : Formatter) (idx : nat) : option FileTreeNode := s.(f_tree).(t_nodes) !! idx.

(** [links_count += 1] on a [u16] *)
Definition bump_links (x : Inode.t) : option Inode.t :=
  n ← uadd 16 x.(Inode.links_count) 1; Some (Inode.set_links_count n x).
Definition drop_link (x : Inode.t) : option Inode.t :=
  n ← usub 16 x.(Inode.links_count) 1; Some (Inode.set_links_count n x).

(** A method of the disk part that changes it. *)
Definition on_disk (f : disk -> option disk) : M unit :=
  updates (fun s => d ← f s.(f_disk); Some (set_disk d s)).

(** [fn write_aligned_payload_bytes], on the formatter *)
Definition write_aligned (bytes : buffer) : M (list BlockRange) := fun s =>
  match write_aligned_payload_bytes s.(f_disk) bytes with
  | Some (d, ranges) => (Ok ranges, set_disk d s)
  | None => (Panic, s)
  end.

(** [self.skip_reserved_metadata_blocks()?; let mut cur = self.current_block();
    extent::write_extents(..)?]: the file ends up positioned behind the last leaf
    block when there are any. *)
Definition emit_extents (inode : Inode.t) (ranges : list BlockRange) : M Inode.t :=
  _ <~ on_disk skip_reserved_metadata_blocks ;;
  fun s =>
    let d := s.(f_disk) in
    let cur := current_block d in
    match write_extents inode ranges d.(d_block_size) d.(d_file) cur with
    | Some (inode, f, cur') =>
        let p := if cur' =? cur then d.(d_pos) else cur' * d.(d_block_size) in
        (Ok inode, set_disk (mk_disk f p d.(d_block_size) d.(d_size)) s)
    | None => (Panic, s)
    end.

(** [fn assign_node_ranges] *)
Definition assign_node_ranges (node : FileTreeNode) (ranges : list BlockRange) : FileTreeNode :=
  mk_node node.(n_inode) node.(n_name) node.(n_children) node.(n_parent)
    (head ranges) (tail ranges) node.(n_link).

(** ** Queries *)

Definition lookup_path (path : buffer) : M (option nat) := reads (fun s => lookup s.(f_tree) path).

(** [.lookup(..).ok_or(NotFound(..))?] *)
Definition lookup_or_not_found (path : buffer) : M nat :=
  found <~ lookup_path path ;;
  match found with Some idx => ret idx | None => throw (NotFound path) end.

Definition exists_path (s : Formatter) (path : buffer) : option bool :=
  found ← lookup s.(f_tree) path; Some (bool_decide (is_Some found)).

Definition is_dir_path (s : Formatter) (path : buffer) : option bool :=
  found ← lookup s.(f_tree) path;
  match found with
  | Some idx => node ← get_node s idx; inode ← get_inode s node.(n_inode); Some (Inode.is_dir inode)
  | None => Some false
  end.

(** The names of the children of a node, in order. *)
Definition names_of (s : Formatter) (node : FileTreeNode) : option (list buffer) :=
  mapM (fun c => n_name <$> get_node s c) node.(n_children).

Definition list_dir (s : Formatter) (path : buffer) : option (list buffer) :=
  found ← lookup s.(f_tree) path;
  match found with
  | Some idx => node ← get_node s idx; names_of s node
  | None => Some []
  end.

(** [fn set_permissions] *)
Definition set_permissions (path : buffer) (mode : Z) : M unit :=
  idx <~ lookup_or_not_found path ;;
  node <~ reads (fun s => get_node s idx) ;;
  updates (upd_inode node.(n_inode) (fun inode =>
    Some (Inode.set_mode (Z.lor (Z.land inode.(Inode.mode) file_mode.TYPE_MASK)
                                (Z.land mode (Z.lxor file_mode.TYPE_MASK 0xFFFF))) inode))).

(** [fn set_owner] *)
Definition set_owner (path : buffer) (uid gid : Z) : M unit :=
  idx <~ lookup_or_not_found path ;;
  node <~ reads (fun s => get_node s idx) ;;
  updates (upd_inode node.(n_inode) (fun inode => Some (Inode.set_gid gid (Inode.set_uid uid inode)))).

Section Operations.
Context (clock : nat -> Z * Z).

(** [timestamp_now()] *)
Definition timestamp_now : M (Z * Z) := fun s => (Ok (clock s.(f_ticks)), tick s).

(** ** [unlink] *)

Definition child_path (path child_name : buffer) : buffer :=
  if bool_decide (path = root_path) then slash :: child_name else path ++ slash :: child_name.

(** Detach from the parent and update its link count. *)
Definition detach (path : buffer) (node_is_dir : bool) : M unit :=
  found <~ lookup_path (parent_of path) ;;
  match found with
  | None => ret tt
  | Some parent_idx =>
      parent <~ reads (fun s => get_node s parent_idx) ;;
      _ <~ (if node_is_dir then
              inode <~ reads (fun s => get_inode s parent.(n_inode)) ;;
              if 2 <? inode.(Inode.links_count) then updates (upd_inode parent.(n_inode) drop_link) else ret tt
            else ret tt) ;;
      updates (fun s => t ← remove_child s.(f_tree) parent_idx (basename path); Some (set_tree t s))
  end.

(** The block ranges of a tree node. *)
Definition node_block_ranges (node : FileTreeNode) : list BlockRange :=
  match node.(n_blocks) with
  | Some b => if b.(br_start) =? b.(br_end) then [] else [b]
  | None => []
  end ++ node.(n_additional_blocks).

(** Last reference removed: reclaim the blocks and mark the inode deleted. *)
Definition reclaim (target_ino xattr_block : Z) (node_blocks : list BlockRange) : M unit :=
  _ <~ updates (fun s =>
    let deleted := s.(f_deleted) ++ node_blocks ++ default [] (s.(f_deferred) !! target_ino) in
    deleted ← (if xattr_block =? 0 then Some deleted
               else e ← uadd 32 xattr_block 1; Some (deleted ++ [mk_range xattr_block e]));
    Some (set_blocks deleted (delete target_ino s.(f_deferred)) s)) ;;
  now <~ timestamp_now ;;
  updates (upd_inode target_ino (fun _ => Some (Inode.set_dtime now.1 Inode.default))).

(** Drop one reference of [target_ino], held by the node [node_idx]. *)
Definition release (node_idx : nat) (target_ino : Z) : M unit :=
  if FIRST_INODE - 1 <? target_ino then
    inode <~ reads (fun s => get_inode s target_ino) ;;
    _ <~ (if 0 <? inode.(Inode.links_count) then updates (upd_inode target_ino drop_link) else ret tt) ;;
    node <~ reads (fun s => get_node s node_idx) ;;
    let node_blocks := node_block_ranges node in
    inode <~ reads (fun s => get_inode s target_ino) ;;
    if inode.(Inode.links_count) =? 0 then reclaim target_ino inode.(Inode.xattr_block_lo) node_blocks
    else if bool_decide (node_blocks = []) then ret tt
    else updates (fun s => Some (set_blocks s.(f_deleted)
           (<[target_ino := default [] (s.(f_deferred) !! target_ino) ++ node_blocks]> s.(f_deferred)) s))
  else ret tt.

(** [fn unlink]; running out of fuel stands for exhausting the stack. *)
Fixpoint unlink (fuel : nat) (path : buffer) (directory_whiteout : bool) : M unit :=
  match fuel with
  | O => panic
  | S fuel =>
      found <~ lookup_path path ;;
      match found with
      | None => ret tt
      | Some node_idx =>
          node <~ reads (fun s => get_node s node_idx) ;;
          _ <~ reads (fun _ => inode_index node.(n_inode)) ;;
          let target_ino := default node.(n_inode) node.(n_link) in
          _ <~ reads (fun _ => inode_index target_ino) ;;
          node_is_dir <~ (match node.(n_link) with
                          | Some _ => ret false
                          | None => reads (fun s => Inode.is_dir <$> get_inode s node.(n_inode))
                          end) ;;
          if directory_whiteout && negb node_is_dir then throw (NotDirectory path)
          else
            child_names <~ reads (fun s => names_of s node) ;;
            _ <~ for_each child_names (fun child_name => unlink fuel (child_path path child_name) false) ;;
            if directory_whiteout then ret tt
            else
              _ <~ detach path node_is_dir ;;
              release node_idx target_ino
      end
  end.

(** Enough for every tree: a child has a larger index than its parent. *)
Definition unlink_fuel (s : Formatter) : nat := S (length s.(f_tree).(t_nodes)).
Definition unlink_path (path : buffer) (directory_whiteout : bool) : M unit := fun s =>
  unlink (unlink_fuel s) path directory_whiteout s.

(** ** [link] *)

(** The node of a hard link; its [inode] is a placeholder. *)
Definition link_node (link_path : buffer) (target : Z) : FileTreeNode :=
  mk_node ROOT_INODE (basename link_path) [] None None [] (Some target).

Definition attach (parent_idx : nat) (node : FileTreeNode) : M unit :=
  updates (fun s => r ← add_child s.(f_tree) parent_idx node; Some (set_tree r.1 s)).

(** [fn link] *)
Definition link (link_path target_path : buffer) : M unit :=
  _ <~ try (validate_path_component_names link_path) ;;
  target_idx <~ lookup_or_not_found target_path ;;
  target_node <~ reads (fun s => get_node s target_idx) ;;
  let target_inode_num := target_node.(n_inode) in
  target_inode <~ reads (fun s => get_inode s target_inode_num) ;;
  if Inode.is_dir target_inode then throw (CannotHardlinkDirectory target_path)
  else
    existing_idx <~ lookup_path link_path ;;
    existing_target <~ (match existing_idx with
                        | Some idx => node <~ reads (fun s => get_node s idx) ;;
                                      ret (Some (default node.(n_inode) node.(n_link)))
                        | None => ret None
                        end) ;;
    if bool_decide (existing_target = Some target_inode_num) then ret tt
    else
      let parent_path := parent_of link_path in
      parent_idx <~ lookup_or_not_found parent_path ;;
      parent <~ reads (fun s => get_node s parent_idx) ;;
      parent_inode <~ reads (fun s => get_inode s parent.(n_inode)) ;;
      if MAX_LINKS <=? parent_inode.(Inode.links_count) then throw (MaximumLinksExceeded parent_path)
      else
        _ <~ (if bool_decide (is_Some existing_target) then unlink_path link_path false else ret tt) ;;
        _ <~ updates (upd_inode target_inode_num bump_links) ;;
        attach parent_idx (link_node link_path target_inode_num).

(** ** [create] *)

(** The cases of [create] where [path] exists; [true] when there is nothing left
    to do. *)
Definition create_existing (path : buffer) (mode : Z) (uid gid : option Z) : M bool :=
  found <~ lookup_path path ;;
  match found with
  | None => ret false
  | Some existing_idx =>
      node <~ reads (fun s => get_node s existing_idx) ;;
      existing_inode <~ reads (fun s => get_inode s node.(n_inode)) ;;
      if Constants.is_dir mode then
        if Inode.is_dir existing_inode then
          if bool_decide (node.(n_name) = basename path) then
            _ <~ (if bool_decide (is_Some uid) || bool_decide (is_Some gid) then
                    updates (upd_inode node.(n_inode) (fun inode =>
                      let inode := Inode.set_mode mode inode in
                      let inode := match uid with Some u => Inode.set_uid u inode | None => inode end in
                      Some (match gid with Some g => Inode.set_gid g inode | None => inode end)))
                  else ret tt) ;;
            ret true
          else ret false
        else throw (NotDirectory path)
      else match node.(n_link) with
      | Some _ => _ <~ unlink_path path false ;; ret false
      | None =>
          if Inode.is_dir existing_inode && negb (Constants.is_link mode) then throw (NotFile path)
          else _ <~ unlink_path path false ;; ret false
      end
  end.

(** The new inode with its mode, flags and owner. *)
Definition child_inode (mode : Z) (uid gid : option Z) (parent : Inode.t) : Inode.t :=
  let c := Inode.set_flags inode_flags.HUGE_FILE (Inode.set_mode mode Inode.default) in
  let c := match uid with
           | Some u => Inode.set_uid u c
           | None => Inode.set_uid_hi parent.(Inode.uid_hi) (Inode.set_uid_lo parent.(Inode.uid) c)
           end in
  match gid with
  | Some g => Inode.set_gid g c
  | None => Inode.set_gid_hi parent.(Inode.gid_hi) (Inode.set_gid_lo parent.(Inode.gid) c)
  end.

Fixpoint add_all (st : XattrState) (xattrs : list (buffer * buffer)) : outcome FormatError XattrState :=
  match xattrs with
  | [] => Ok st
  | (name, value) :: xattrs => st <- add st (new_attr name value) ;; add_all st xattrs
  end.

(** The extended attributes of a new inode; [xattrs] is the map in the order its
    iterator yields it. *)
Definition apply_xattrs (inode : Inode.t) (xattrs : option (list (buffer * buffer))) : M Inode.t :=
  match xattrs with
  | None | Some [] => ret inode
  | Some xattr_map =>
      child_ino <~ reads (fun s => uadd 32 (wrap 32 (zlen s.(f_inodes))) 1) ;;
      block_size <~ reads (fun s => Some s.(f_disk).(d_block_size)) ;;
      state <~ try (add_all (new_state child_ino INODE_EXTRA_SIZE block_size)
                            ((bstr "system.data", []) :: xattr_map)) ;;
      inode <~ (if has_inline state then
                  buf <~ try (write_inline state) ;;
                  if zlen buf =? 96 then ret (Inode.set_inline_xattrs buf inode) else panic
                else ret inode) ;;
      if has_block state then
        block_buf <~ try (write_block state) ;;
        ranges <~ write_aligned block_buf ;;
        let inode := match ranges with r :: _ => Inode.set_xattr_block_lo r.(br_start) inode | [] => inode end in
        let units := if Z.land inode.(Inode.flags) inode_flags.HUGE_FILE =? 0 then block_size / 512 else 1 in
        blocks <~ reads (fun _ => uadd 32 inode.(Inode.blocks_lo) units) ;;
        ret (Inode.set_blocks_lo blocks inode)
      else ret inode
  end.

Definition apply_timestamps (inode : Inode.t) (ts : option FileTimestamps) : M Inode.t :=
  ts <~ (match ts with Some ts => ret ts | None => now <~ timestamp_now ;; ret (ts_default now) end) ;;
  ret (Inode.set_extra_isize EXTRA_ISIZE (Inode.set_links_count 1
         (Inode.set_times ts.(ts_access) ts.(ts_now) ts.(ts_modification) ts.(ts_creation) inode))).

(** A symbolic link: a short target lives in the inode's [block] field. *)
Definition create_symlink (inode : Inode.t) (link_bytes : buffer) : M (Inode.t * list BlockRange) :=
  if zlen link_bytes <? 60 then
    block <~ reads (fun _ => put_bytes inode.(Inode.block) 0 link_bytes) ;;
    let inode := Inode.set_file_size (zlen link_bytes) (Inode.set_block block inode) in
    let inode := Inode.set_flags 0 (Inode.set_mode (Z.lor inode.(Inode.mode) 0x1FF) inode) in
    ret (Inode.set_blocks_lo 0 inode, [])
  else
    ranges <~ write_aligned link_bytes ;;
    let inode := Inode.set_file_size (zlen link_bytes) inode in
    let inode := Inode.set_flags 0 (Inode.set_mode (Z.lor inode.(Inode.mode) 0x1FF) inode) in
    inode <~ emit_extents inode ranges ;;
    ret (inode, ranges).

(** The payload of a regular file. *)
Definition write_data (chunks : list buffer) : M (Z * list BlockRange) :=
  _ <~ on_disk align_to_block ;;
  _ <~ on_disk skip_reserved_metadata_blocks ;;
  r <~ (fun s => let '(o, (d, ranges)) := write_payload_from_reader s.(f_disk) chunks 0 [] in
                 (size <- o ;; Ok (size, ranges), set_disk d s)) ;;
  _ <~ on_disk align_to_block ;;
  ret r.

Definition create_regular (inode : Inode.t) (data : option (list buffer)) : M (Inode.t * list BlockRange) :=
  r <~ (match data with Some chunks => write_data chunks | None => ret (0, []) end) ;;
  inode <~ emit_extents (Inode.set_file_size r.1 inode) r.2 ;;
  ret (inode, r.2).

(** Everything after the parents exist: build the inode, store the payload,
    register inode and node. *)
Definition create_entry (path parent_path : buffer) (mode : Z) (lnk : option buffer)
    (ts : option FileTimestamps) (data : option (list buffer)) (uid gid : option Z)
    (xattrs : option (list (buffer * buffer))) : M unit :=
  parent_idx <~ lookup_or_not_found parent_path ;;
  parent <~ reads (fun s => get_node s parent_idx) ;;
  let parent_inode_num := parent.(n_inode) in
  parent_inode <~ reads (fun s => get_inode s parent_inode_num) ;;
  if MAX_LINKS <=? parent_inode.(Inode.links_count) then throw (MaximumLinksExceeded parent_path)
  else
    inode <~ apply_xattrs (child_inode mode uid gid parent_inode) xattrs ;;
    inode <~ apply_timestamps inode ts ;;
    st <~ (if Constants.is_dir mode then
             _ <~ updates (upd_inode parent_inode_num bump_links) ;;
             ret (Inode.set_links_count 2 inode, [])
           else match lnk with
           | Some link_target => create_symlink inode link_target
           | None => if is_reg mode then create_regular inode data else throw UnsupportedFiletype
           end) ;;
    _ <~ updates (fun s => Some (set_inodes (s.(f_inodes) ++ [st.1]) s)) ;;
    child_inode_num <~ reads (fun s => Some (wrap 32 (zlen s.(f_inodes)))) ;;
    attach parent_idx
      (assign_node_ranges (mk_node child_inode_num (basename path) [] None None [] None) st.2).

(** [fn create]; the parents are created first. *)
Fixpoint create (fuel : nat) (path : buffer) (mode : Z) (lnk : option buffer)
    (ts : option FileTimestamps) (data : option (list buffer)) (uid gid : option Z)
    (xattrs : option (list (buffer * buffer))) : M unit :=
  match fuel with
  | O => panic
  | S fuel =>
      _ <~ try (validate_path_component_names path) ;;
      settled <~ create_existing path mode uid gid ;;
      if (settled : bool) then ret tt
      else
        let parent_path := parent_of path in
        _ <~ (if bool_decide (parent_path = path) then ret tt
              else create fuel parent_path (make_mode file_mode.S_IFDIR 0x1ED) None None None None None None) ;;
        create_entry path parent_path mode lnk ts data uid gid xattrs
  end.

(** A parent is shorter than its child, or the root. *)
Definition create_path (path : buffer) := create (S (S (length path))) path.

(** ** Construction *)

(** [Formatter::with_options]; the file is created empty. *)
Definition fresh (opts : FormatOptions) : Formatter :=
  mk_fmt (mk_disk (set_len [] opts.(o_size)) 0 opts.(o_block_size) opts.(o_size))
    ([Inode.default; Inode.root_inode (clock 0)] ++ replicate 8 Inode.default)
    (new_tree ROOT_INODE root_path) [] ∅ opts.(o_uuid) opts.(o_label) 1.

Definition with_options (opts : FormatOptions) : outcome FormatError Formatter :=
  if negb (opts.(o_block_size) =? 4096) then Err (UnsupportedBlockSize opts.(o_block_size))
  else
    _ <- match opts.(o_label) with Some label => validate_label label | None => Ok tt end ;;
    let run :=
      gdb <~ reads (fun s => group_descriptor_blocks s.(f_disk).(d_block_size) s.(f_disk).(d_size)) ;;
      b <~ reads (fun _ => uadd 32 gdb 1) ;;
      _ <~ on_disk (fun d => seek_to_block d b) ;;
      create_path (bstr "/lost+found") (make_mode file_mode.S_IFDIR 0x1C0) None None None None None None in
    match run (fresh opts) with
    | (Ok _, s) => Ok s
    | (Err e, _) => Err e
    | (Panic, _) => Panic
    end.

(** [Formatter::new] *)
Definition formatter_new (block_size min_disk_size : Z) : outcome FormatError Formatter :=
  with_options (mk_options block_size min_disk_size None None).
End Operations.
