(* ===== verification/UnlinkSpec.v ===== *)
(** * The formatter's invariant, and what [unlink] does

    The invariant every operation of the formatter keeps ([fs_ok]: a well-formed
    tree whose nodes refer to inodes that exist) and the specification of
    [unlink]: it terminates without an error on any well-formed state, exactly the
    paths below the removed entry stop resolving, and the inode it referred to
    loses one reference. *)

From stdpp Require Import base list option numbers strings gmap.
From S2P Require Import Prelude Bytes Utf8 Errors Constants DiskTypes Image Extent Xattr Geometry Paths FileTree Formatter.

(** ** The invariant *)

(** The fields of an inode that the tree operations compute with. *)
Definition inode_ok (x : Inode.t) : Prop :=
  uint 16 x.(Inode.links_count) /\ 0 <= x.(Inode.xattr_block_lo) < 2 ^ 32 - 1.

(** [n] is the number of an inode of the table. *)
Definition ino_in (s : Formatter) (n : Z) : Prop := 1 <= n <= zlen s.(f_inodes).

Record fs_ok (s : Formatter) : Prop := {
  fo_tree : tree_ok s.(f_tree);
  fo_root : exists r, s.(f_tree).(t_nodes) !! 0%nat = Some r /\ r.(n_name) = root_path /\
    r.(n_inode) = ROOT_INODE /\ r.(n_link) = None;
  fo_count : FIRST_INODE - 1 <= zlen s.(f_inodes) < 2 ^ 32;
  fo_refs : forall i n, s.(f_tree).(t_nodes) !! i = Some n ->
    ino_in s n.(n_inode) /\ forall l, n.(n_link) = Some l -> ino_in s l;
  fo_inodes : Forall inode_ok s.(f_inodes) }.

(** The step from [s] to [s'] leaves the tree and the size of the inode table. *)
Definition same_shape (s s' : Formatter) : Prop :=
  s'.(f_tree) = s.(f_tree) /\ length s'.(f_inodes) = length s.(f_inodes).

Lemma same_shape_refl s : same_shape s s.
Proof. done. Qed.

Lemma same_shape_trans s1 s2 s3 : same_shape s1 s2 -> same_shape s2 s3 -> same_shape s1 s3.
Proof. intros [? ?] [? ?]. split; congruence. Qed.

Lemma ino_in_shape s s' n : length s'.(f_inodes) = length s.(f_inodes) -> ino_in s n -> ino_in s' n.
Proof. unfold ino_in, zlen. by intros ->. Qed.

Lemma fs_ok_shape s s' : same_shape s s' -> fs_ok s -> Forall inode_ok s'.(f_inodes) -> fs_ok s'.
Proof.
  intros [Ht Hl] [H1 H0 H2 H3 H4] Hi. split; [by rewrite Ht..|unfold zlen in *; by rewrite Hl| |done].
  intros i n. rewrite Ht. intros E. destruct (H3 i n E) as [? Hlk].
  split; [by eapply ino_in_shape|]. intros l El. eapply ino_in_shape; eauto.
Qed.

(** ** Rules for the monad *)

Lemma bind_ok {A B} (m : M A) (k : A -> M B) s a s' : m s = (Ok a, s') -> bind m k s = k a s'.
Proof. intros H. unfold bind. by rewrite H. Qed.

Lemma reads_ok {A} (f : Formatter -> option A) s a : f s = Some a -> reads f s = (Ok a, s).
Proof. intros H. unfold reads. by rewrite H. Qed.

Lemma updates_ok f s s' : f s = Some s' -> updates f s = (Ok tt, s').
Proof. intros H. unfold updates. by rewrite H. Qed.

Lemma bind_reads {A B} (f : Formatter -> option A) (k : A -> M B) s a :
  f s = Some a -> bind (reads f) k s = k a s.
Proof. intros H. by apply bind_ok, reads_ok. Qed.

(** ** Inodes *)

Lemma inode_index_in s n : FIRST_INODE - 1 <= zlen s.(f_inodes) < 2 ^ 32 -> ino_in s n -> inode_index n = Some (Z.to_nat (n - 1)).
Proof.
  intros Hc [H1 H2]. unfold inode_index, usub. rewrite chk_some; [done|]. unfold uint. lia.
Qed.

Lemma get_inode_in s n : fs_ok s -> ino_in s n -> exists x, get_inode s n = Some x /\ inode_ok x.
Proof.
  intros Hok Hn. unfold get_inode. rewrite (inode_index_in s n (fo_count _ Hok) Hn). cbn [mbind option_bind].
  destruct Hn as [H1 H2]. unfold zlen in H2.
  destruct (lookup_lt_is_Some_2 s.(f_inodes) (Z.to_nat (n - 1))) as [x Hx]; [lia|].
  exists x. split; [done|]. by eapply Forall_lookup_1; [apply (fo_inodes _ Hok)|].
Qed.

Lemma upd_inode_in s n g x y : fs_ok s -> ino_in s n -> get_inode s n = Some x -> g x = Some y -> inode_ok y ->
  exists s', upd_inode n g s = Some s' /\ s' = set_inodes (<[Z.to_nat (n - 1) := y]> s.(f_inodes)) s /\
    fs_ok s' /\ same_shape s s'.
Proof.
  intros Hok Hn Hx Hy Hi. unfold upd_inode, get_inode in *.
  rewrite (inode_index_in s n (fo_count _ Hok) Hn) in *. cbn [mbind option_bind] in *. rewrite Hx.
  cbn [mbind option_bind]. rewrite Hy. cbn [mbind option_bind]. eexists. split; [done|]. split; [done|].
  assert (Hsh : same_shape s (set_inodes (<[Z.to_nat (n - 1):=y]> (f_inodes s)) s))
    by (split; [done|apply length_insert]).
  split; [|done]. eapply fs_ok_shape; eauto. simpl. apply Forall_insert; [apply (fo_inodes _ Hok)|done].
Qed.

Lemma inode_ok_links x n : inode_ok x -> uint 16 n -> inode_ok (Inode.set_links_count n x).
Proof. intros [_ H] Hn. by split. Qed.

Lemma drop_link_ok x : inode_ok x -> 0 < x.(Inode.links_count) ->
  drop_link x = Some (Inode.set_links_count (x.(Inode.links_count) - 1) x) /\
  inode_ok (Inode.set_links_count (x.(Inode.links_count) - 1) x).
Proof.
  intros Hx Hp. pose proof Hx as [[? ?] _]. unfold drop_link, usub.
  assert (uint 16 (Inode.links_count x - 1)) by (unfold uint; lia).
  rewrite chk_some by done. split; [done|]. by apply inode_ok_links.
Qed.

Lemma deleted_inode_ok now : inode_ok (Inode.set_dtime now Inode.default).
Proof. split; simpl; unfold uint; lia. Qed.

(** ** Paths *)

Lemma lookup_walk s q : fs_ok s -> Forall name_ok q -> lookup s.(f_tree) (abs_path q) = walk s.(f_tree) 0%nat q.
Proof.
  intros Hok Hq. unfold lookup. by rewrite (tw_root _ (to_wf _ (fo_tree _ Hok))), components_abs.
Qed.

Lemma parent_basename_abs q x : Forall name_ok q -> name_ok x ->
  parent_of (abs_path (q ++ [x])) = abs_path q /\ basename (abs_path (q ++ [x])) = x.
Proof.
  intros Hq Hx. rewrite abs_path_snoc.
  destruct (parent_basename_join (if bool_decide (q = []) then [] else abs_path q) x Hx) as [-> ->].
  split; [|done]. destruct q as [|y q]; [done|]. rewrite (bool_decide_eq_false_2 (y :: q = [])) by done.
  by rewrite bool_decide_eq_false_2.
Qed.

Lemma abs_path_root q : abs_path q = root_path -> Forall name_ok q -> q = [].
Proof.
  destruct q as [|y q _] using rev_ind; [done|]. intros E H. apply Forall_app in H as [_ H].
  rewrite Forall_singleton in H. destruct (abs_path_last q y H) as (l & El & Hl). rewrite E in El. by simplify_eq/=.
Qed.

Lemma child_path_abs q x : Forall name_ok q -> child_path (abs_path q) x = abs_path (q ++ [x]).
Proof.
  intros Hq. unfold child_path. rewrite abs_path_snoc. case_bool_decide as E.
  - apply abs_path_root in E as ->; [|done]. done.
  - by rewrite bool_decide_eq_false_2 by (by intros ->).
Qed.

Lemma walk_some s q : fs_ok s -> exists r, walk s.(f_tree) 0%nat q = Some r /\
  forall i, r = Some i -> is_Some (s.(f_tree).(t_nodes) !! i).
Proof.
  intros Hok. pose proof (to_wf _ (fo_tree _ Hok)) as Hwf.
  apply walk_total; [done|]. by destruct (tw_some _ Hwf) as (? & -> & _).
Qed.

Lemma walk_below s q r : walk s.(f_tree) 0%nat q = Some None -> q `prefix_of` r -> walk s.(f_tree) 0%nat r = Some None.
Proof. intros H [k ->]. by rewrite walk_app, H. Qed.

Lemma walk_some_1 s q i : fs_ok s -> walk s.(f_tree) 0%nat q = Some (Some i) ->
  exists n, get_node s i = Some n.
Proof.
  intros Hok E. destruct (walk_some s q Hok) as (r & E' & H). rewrite E in E'. simplify_eq.
  destruct (H i eq_refl) as [n ?]. by exists n.
Qed.

(** ** What removing an entry means *)

(** From [s] to [s'], exactly the paths that go through [q] stop resolving; nodes
    keep everything but their children, and no inode comes or goes. *)
Record removed (q : list buffer) (s s' : Formatter) : Prop := {
  rm_ok : fs_ok s';
  rm_skel : skel s'.(f_tree) = skel s.(f_tree);
  rm_inodes : length s'.(f_inodes) = length s.(f_inodes);
  rm_walk : forall r, Forall name_ok r ->
    walk s'.(f_tree) 0%nat r = (if decide (q `prefix_of` r) then Some None else walk s.(f_tree) 0%nat r) }.

Lemma skel_back t t' i n : skel t' = skel t -> t'.(t_nodes) !! i = Some n ->
  exists n0, t.(t_nodes) !! i = Some n0 /\ set_children [] n = set_children [] n0.
Proof.
  intros H E. assert (Hs : skel t' !! i = Some (set_children [] n)) by (unfold skel; by rewrite list_lookup_fmap, E).
  rewrite H in Hs. unfold skel in Hs. rewrite list_lookup_fmap in Hs.
  destruct (t_nodes t !! i) as [n0|]; simpl in Hs; [|done]. apply (inj Some) in Hs. by exists n0.
Qed.

Lemma skel_length t t' : skel t' = skel t -> length t'.(t_nodes) = length t.(t_nodes).
Proof. intros H. pose proof (f_equal length H) as E. unfold skel in E. by rewrite !length_fmap in E. Qed.

Lemma fs_ok_set_tree s t : fs_ok s -> tree_ok t -> skel t = skel s.(f_tree) -> fs_ok (set_tree t s).
Proof.
  intros [H1 H0 H2 H3 H4] Ht Hs. split; [done| |done| |done].
  { destruct H0 as (r & Hr & En & Ei & El).
    destruct (skel_back s.(f_tree) t 0%nat) with (n := default r (t.(t_nodes) !! 0%nat)) as (r0 & Er0 & Eq); [done| |].
    - destruct (tw_some _ (to_wf _ Ht)) as (r' & -> & _). done.
    - destruct (tw_some _ (to_wf _ Ht)) as (r' & Er' & _). rewrite Er' in Eq. simpl in Eq. simplify_eq.
      exists r'. split; [done|]. split_and!; congruence. }
  intros i n E.
  destruct (skel_back _ _ _ _ Hs E) as (n0 & E0 & En). destruct (H3 i n0 E0) as [Hi Hl].
  pose proof (f_equal n_inode En) as E1. pose proof (f_equal n_link En) as E2. simpl in E1, E2.
  rewrite E1, E2. by split.
Qed.

Lemma removed_shape q s s1 s' : same_shape s s1 -> removed q s1 s' -> removed q s s'.
Proof.
  intros [Ht Hl] [H1 H2 H3 H4]. split; [done|by rewrite H2, Ht|by rewrite H3|]. intros r Hr. by rewrite H4, Ht.
Qed.

Lemma removed_then_shape q s s1 s' : removed q s s1 -> same_shape s1 s' -> fs_ok s' -> removed q s s'.
Proof.
  intros [H1 H2 H3 H4] [Ht Hl] Hok. split; [done|by rewrite Ht|by rewrite Hl|]. intros r Hr. by rewrite Ht, H4.
Qed.

(** An entry that is not there is removed by doing nothing. *)
Lemma removed_absent q s : fs_ok s -> walk s.(f_tree) 0%nat q = Some None -> removed q s s.
Proof.
  intros Hok Hq. split; try done. intros r Hr. case_decide; [by eapply walk_below|done].
Qed.

Lemma detach_ok s q x p b : fs_ok s -> Forall name_ok q -> name_ok x ->
  walk s.(f_tree) 0%nat q = Some (Some p) ->
  exists s', detach (abs_path (q ++ [x])) b s = (Ok tt, s') /\ removed (q ++ [x]) s s'.
Proof.
  intros Hok Hq Hx Hw. destruct (parent_basename_abs q x Hq Hx) as [Hpo Hbn].
  unfold detach. rewrite Hpo, Hbn. unfold lookup_path.
  rewrite (bind_reads _ _ _ (Some p)) by (by rewrite lookup_walk). cbv beta iota.
  destruct (walk_some_1 s q p Hok Hw) as [n Hn]. rewrite (bind_reads _ _ _ n) by done.
  assert (Hcount : exists s1,
    (if b then inode <~ reads (fun s => get_inode s n.(n_inode)) ;;
       if 2 <? inode.(Inode.links_count) then updates (upd_inode n.(n_inode) drop_link) else ret tt
     else ret tt) s = (Ok tt, s1) /\ fs_ok s1 /\ same_shape s s1).
  { destruct b; [|by exists s]. destruct (fo_refs _ Hok p n Hn) as [Hin _].
    destruct (get_inode_in s _ Hok Hin) as (y & Hy & Hyok). rewrite (bind_reads _ _ _ y) by done.
    destruct (Z.ltb_spec 2 y.(Inode.links_count)); [|by exists s].
    destruct (drop_link_ok y Hyok) as [Hd Hdok]; [lia|].
    destruct (upd_inode_in s n.(n_inode) drop_link y _ Hok Hin Hy Hd Hdok) as (s1 & E & _ & ? & ?).
    exists s1. split; [by apply updates_ok|done]. }
  destruct Hcount as (s1 & E1 & Hok1 & Hsh). rewrite (bind_ok _ _ _ _ _ E1).
  destruct Hsh as [Ht Hl].
  destruct (remove_child_ok s1.(f_tree) p q x) as (t' & Et & Htok & Hsk & Hwalk);
    [apply (fo_tree _ Hok1)|done|done|by rewrite Ht|].
  exists (set_tree t' s1). split; [apply updates_ok; by rewrite Et|].
  apply (removed_shape _ _ s1); [done|]. split; [by apply fs_ok_set_tree|done|done|done].
Qed.

Section Release.
Context (clock : nat -> Z * Z).

Lemma reclaim_ok s n xb bs x : fs_ok s -> ino_in s n -> get_inode s n = Some x -> 0 <= xb < 2 ^ 32 - 1 ->
  exists s', reclaim clock n xb bs s = (Ok tt, s') /\ fs_ok s' /\ same_shape s s' /\
    s'.(f_inodes) = <[Z.to_nat (n - 1) := Inode.set_dtime (clock s.(f_ticks)).1 Inode.default]> s.(f_inodes) /\
    s'.(f_deleted) = s.(f_deleted) ++ bs ++ default [] (s.(f_deferred) !! n) ++
                     (if xb =? 0 then [] else [mk_range xb (xb + 1)]) /\
    s'.(f_deferred) = delete n s.(f_deferred).
Proof.
  intros Hok Hn Hx Hxb. unfold reclaim.
  set (s1 := set_blocks (s.(f_deleted) ++ bs ++ default [] (s.(f_deferred) !! n) ++
                     (if xb =? 0 then [] else [mk_range xb (xb + 1)])) (delete n s.(f_deferred)) s).
  rewrite (bind_ok _ _ _ tt s1).
  2:{ apply updates_ok. unfold s1. destruct (Z.eqb_spec xb 0); cbn [mbind option_bind].
      - by rewrite app_nil_r.
      - unfold uadd. rewrite chk_some by (unfold uint; lia). cbn [mbind option_bind]. by rewrite <- !app_assoc. }
  rewrite (bind_ok _ _ _ (clock s.(f_ticks)) (tick s1)) by done.
  assert (Hok1 : fs_ok (tick s1)) by (by apply (fs_ok_shape s); [..|apply (fo_inodes _ Hok)]).
  destruct (upd_inode_in (tick s1) n (fun _ => Some (Inode.set_dtime (clock s.(f_ticks)).1 Inode.default)) x
              _ Hok1 Hn Hx eq_refl (deleted_inode_ok _)) as (s' & E & -> & Hok' & Hsh).
  eexists. split; [apply updates_ok, E|]. split; [done|]. split; [|done].
  by apply (same_shape_trans _ (tick s1)).
Qed.

Lemma release_ok s idx n node : fs_ok s -> ino_in s n -> get_node s idx = Some node ->
  exists s', release clock idx n s = (Ok tt, s') /\ fs_ok s' /\ same_shape s s'.
Proof.
  intros Hok Hn Hnode. unfold release. destruct (Z.ltb_spec (FIRST_INODE - 1) n); [|by exists s].
  destruct (get_inode_in s n Hok Hn) as (x & Hx & Hxok). rewrite (bind_reads _ _ _ x) by done.
  assert (Hdrop : exists s1 y,
    (if 0 <? x.(Inode.links_count) then updates (upd_inode n drop_link) else ret tt) s = (Ok tt, s1) /\
    fs_ok s1 /\ same_shape s s1 /\ get_inode s1 n = Some y /\ inode_ok y).
  { destruct (Z.ltb_spec 0 x.(Inode.links_count)); [|by exists s, x].
    destruct (drop_link_ok x Hxok) as [Hd Hdok]; [lia|].
    destruct (upd_inode_in s n drop_link x _ Hok Hn Hx Hd Hdok) as (s1 & E & _ & Hok1 & Hsh).
    destruct (get_inode_in s1 n Hok1) as (y & Hy & Hyok); [by eapply ino_in_shape; [apply Hsh|]|].
    exists s1, y. split; [by apply updates_ok|done]. }
  destruct Hdrop as (s1 & y & E1 & Hok1 & Hsh1 & Hy & Hyok). rewrite (bind_ok _ _ _ _ _ E1).
  assert (Hnode1 : get_node s1 idx = Some node) by (unfold get_node; by rewrite (proj1 Hsh1)).
  rewrite (bind_reads _ _ _ node), (bind_reads _ _ _ y) by done.
  assert (Hn1 : ino_in s1 n) by (by eapply ino_in_shape; [apply Hsh1|]).
  destruct (Z.eqb_spec y.(Inode.links_count) 0).
  - destruct (reclaim_ok s1 n y.(Inode.xattr_block_lo) (node_block_ranges node) y Hok1 Hn1 Hy (proj2 Hyok))
      as (s' & E & Hok' & Hsh' & _).
    exists s'. split; [done|]. split; [done|]. by eapply same_shape_trans.
  - case_bool_decide; [by exists s1|]. eexists. split; [by apply updates_ok|]. split; [|done].
    by apply (fs_ok_shape s1); [..|apply (fo_inodes _ Hok1)].
Qed.
End Release.

(** ** [unlink] *)

Section Unlink.
Context (clock : nat -> Z * Z).

(** [unlink] with this fuel does its job on every entry whose subtree it covers. *)
Definition unlinks (fuel : nat) : Prop := forall s q, fs_ok s -> Forall name_ok q -> q <> [] -> (0 < fuel)%nat ->
  (forall i, walk s.(f_tree) 0%nat q = Some (Some i) -> (length s.(f_tree).(t_nodes) < i + fuel)%nat) ->
  exists s', unlink clock fuel (abs_path q) false s = (Ok tt, s') /\ removed q s s'.

(** The loop over the children of the node at [q]. *)
Lemma unlink_children fuel q idx : unlinks fuel -> Forall name_ok q ->
  forall names s, fs_ok s -> Forall name_ok names ->
  walk s.(f_tree) 0%nat q = Some (Some idx) -> (length s.(f_tree).(t_nodes) < S idx + fuel)%nat ->
  exists s', for_each names (fun n => unlink clock fuel (child_path (abs_path q) n) false) s = (Ok tt, s') /\
    fs_ok s' /\ skel s'.(f_tree) = skel s.(f_tree) /\ length s'.(f_inodes) = length s.(f_inodes) /\
    forall r, Forall name_ok r ->
      walk s'.(f_tree) 0%nat r =
        (if decide (Exists (fun n => (q ++ [n]) `prefix_of` r) names) then Some None else walk s.(f_tree) 0%nat r).
Proof.
  intros IH Hq. induction names as [|x names IHn]; intros s Hok Hnames Hw Hlen; cbn [for_each].
  { exists s. repeat (split; [done|]). intros r Hr. rewrite decide_False; [done|]. by intros ?%Exists_nil. }
  apply Forall_cons_1 in Hnames as [Hx Hnames]. rewrite child_path_abs by done.
  assert (Hqx : Forall name_ok (q ++ [x])) by (apply Forall_app; by rewrite Forall_singleton).
  pose proof (to_wf _ (fo_tree _ Hok)) as Hwf.
  destruct (IH s (q ++ [x]) Hok Hqx) as (s1 & E1 & [Hok1 Hsk1 Hin1 Hw1]); [by destruct q| |..].
  { destruct (walk_some_1 s q idx Hok Hw) as [n Hn]. apply lookup_lt_Some in Hn. lia. }
  { intros c Hc. apply walk_last in Hc as (p & _ & _ & Hp & _ & _ & _ & _ & _ & Hlt); [|done..].
    rewrite Hw in Hp. simplify_eq. lia. }
  rewrite (bind_ok _ _ _ _ _ E1).
  assert (Hw' : walk s1.(f_tree) 0%nat q = Some (Some idx)).
  { rewrite Hw1 by done. rewrite decide_False; [done|]. intros [k Hk]. apply (f_equal length) in Hk.
    rewrite !length_app in Hk. simpl in Hk. lia. }
  destruct (IHn s1 Hok1 Hnames Hw') as (s' & E & Hok' & Hsk & Hin & Hwalk); [by rewrite (skel_length _ _ Hsk1)|].
  exists s'. split; [done|]. split; [done|]. split; [congruence|]. split; [congruence|].
  intros r Hr. rewrite Hwalk by done. rewrite Hw1 by done.
  repeat case_decide; rewrite ?Exists_cons in *; tauto.
Qed.

(** The names of the children of a node, and that they are names. *)
Lemma names_of_ok s idx node : fs_ok s -> get_node s idx = Some node ->
  exists names, names_of s node = Some names /\ Forall name_ok names.
Proof.
  intros Hok Hnode. pose proof (to_wf _ (fo_tree _ Hok)) as Hwf. unfold names_of.
  assert (H : forall cs, (forall c, c ∈ cs -> (0 < c)%nat /\ is_Some (get_node s c)) ->
            exists names, mapM (fun c => n_name <$> get_node s c) cs = Some names /\ Forall name_ok names).
  { induction cs as [|c cs IH]; intros Hcs; simpl; [by exists []|].
    destruct (Hcs c) as [Hpos [m Hm]]; [by left|]. rewrite Hm. simpl.
    destruct IH as (names & -> & Hn); [intros; apply Hcs; by right|]. simpl. eexists. split; [done|].
    constructor; [|done]. apply (to_names _ (fo_tree _ Hok) c m Hm). lia. }
  apply H. intros c Hc. destruct (tw_child _ Hwf idx node c Hnode Hc) as (Hlt & m & Hm & _).
  split; [lia|]. by exists m.
Qed.

Lemma unlink_step fuel : unlinks fuel -> unlinks (S fuel).
Proof.
  intros IH s q Hok Hq Hne _ Hlen. cbn [unlink]. unfold lookup_path.
  destruct (walk_some s q Hok) as (r & Hr & _).
  rewrite (bind_reads _ _ _ r) by (by rewrite lookup_walk). destruct r as [idx|].
  2:{ exists s. split; [done|]. by apply removed_absent. }
  specialize (Hlen idx Hr). destruct (walk_some_1 s q idx Hok Hr) as [node Hnode].
  destruct (fo_refs _ Hok idx node Hnode) as [Hino Hlink].
  rewrite (bind_reads _ _ _ node) by done.
  rewrite (bind_reads _ _ _ _ (inode_index_in s _ (fo_count _ Hok) Hino)).
  set (target := default (n_inode node) (n_link node)).
  assert (Htarget : ino_in s target) by (unfold target; destruct (n_link node); [by apply Hlink|done]).
  rewrite (bind_reads _ _ _ _ (inode_index_in s _ (fo_count _ Hok) Htarget)).
  assert (Hdir : exists b, (match n_link node with
      Some _ => ret false | None => reads (fun s => Inode.is_dir <$> get_inode s node.(n_inode)) end) s = (Ok b, s)).
  { destruct (n_link node); [by exists false|]. destruct (get_inode_in s _ Hok Hino) as (x & Hx & _).
    exists (Inode.is_dir x). apply reads_ok. by rewrite Hx. }
  destruct Hdir as [b Hb]. rewrite (bind_ok _ _ _ _ _ Hb). cbn [andb].
  destruct (names_of_ok s idx node Hok Hnode) as (names & En & Hnames). rewrite (bind_reads _ _ _ names) by done.
  destruct (unlink_children fuel q idx IH Hq names s Hok Hnames Hr) as (s1 & E1 & Hok1 & Hsk1 & Hin1 & Hw1); [lia|].
  rewrite (bind_ok _ _ _ _ _ E1). cbn match.
  destruct (exists_last Hne) as (q0 & x & ->). apply Forall_app in Hq as [Hq0 Hx]. rewrite Forall_singleton in Hx.
  assert (Hkeep : forall r, Forall name_ok r -> ~ (q0 ++ [x]) `prefix_of` r ->
            walk s1.(f_tree) 0%nat r = walk s.(f_tree) 0%nat r).
  { intros r Hrn Hnp. rewrite Hw1 by done. rewrite decide_False; [done|].
    rewrite Exists_exists. intros (n & _ & [k ->]). apply Hnp. exists ([n] ++ k). by rewrite <- !app_assoc. }
  pose proof (to_wf _ (fo_tree _ Hok)) as Hwf.
  pose proof (walk_last _ _ _ _ Hwf Hx Hr) as (p & _ & _ & Hp & _).
  destruct (detach_ok s1 q0 x p b Hok1 Hq0 Hx) as (s2 & E2 & [Hok2 Hsk2 Hin2 Hw2]).
  { rewrite Hkeep; [done|done|]. intros [k Hk]. apply (f_equal length) in Hk. rewrite !length_app in Hk. simpl in Hk. lia. }
  rewrite (bind_ok _ _ _ _ _ E2).
  destruct (lookup_lt_is_Some_2 s2.(f_tree).(t_nodes) idx) as [n2 Hn2].
  { rewrite (skel_length s.(f_tree)) by congruence. by eapply lookup_lt_Some. }
  destruct (release_ok clock s2 idx target n2 Hok2) as (s3 & E3 & Hok3 & Hsh3); [|done|].
  { eapply ino_in_shape; [|exact Htarget]. congruence. }
  exists s3. split; [done|]. apply (removed_then_shape _ _ s2); [|done|done].
  split; [done|congruence|congruence|]. intros r Hrn. rewrite Hw2 by done. case_decide; [done|]. by apply Hkeep.
Qed.

Lemma unlinks_all fuel : unlinks fuel.
Proof.
  induction fuel as [|fuel IH]; [|by apply unlink_step]. intros s q ???? _. lia.
Qed.

Lemma unlink_path_ok s q : fs_ok s -> Forall name_ok q -> q <> [] ->
  exists s', unlink_path clock (abs_path q) false s = (Ok tt, s') /\ removed q s s'.
Proof.
  intros Hok Hq Hne. apply unlinks_all; try done; unfold unlink_fuel; [lia|]. intros i Hi. lia.
Qed.
End Unlink.

(** ** Emptying a directory *)

Lemma names_of_find s node names x : names_of s node = Some names -> x ∉ names ->
  find_child s.(f_tree).(t_nodes) x node.(n_children) = Some None.
Proof.
  unfold names_of, get_node. revert names. induction (n_children node) as [|c cs IH]; intros names; simpl; [done|].
  destruct (t_nodes (f_tree s) !! c) as [m|]; simpl; [|done].
  destruct (mapM _ cs) as [ns|]; simpl; [|done]. intros [= <-]. rewrite not_elem_of_cons. intros [Hne Hin].
  rewrite bool_decide_eq_false_2 by congruence. by apply (IH ns).
Qed.

Lemma whiteout_ok clock s q idx node x : fs_ok s -> Forall name_ok q ->
  walk s.(f_tree) 0%nat q = Some (Some idx) -> get_node s idx = Some node -> node.(n_link) = None ->
  get_inode s node.(n_inode) = Some x -> Inode.is_dir x = true ->
  exists s', unlink_path clock (abs_path q) true s = (Ok tt, s') /\ fs_ok s' /\
    forall r, Forall name_ok r ->
      walk s'.(f_tree) 0%nat r =
        (if decide (q `prefix_of` r /\ r <> q) then Some None else walk s.(f_tree) 0%nat r).
Proof.
  intros Hok Hq Hr Hnode Hlink Hx Hdir. unfold unlink_path, unlink_fuel. cbn [unlink]. unfold lookup_path.
  rewrite (bind_reads _ _ _ (Some idx)) by (by rewrite lookup_walk).
  destruct (fo_refs _ Hok idx node Hnode) as [Hino _].
  rewrite (bind_reads _ _ _ node) by done. rewrite Hlink. cbn [default from_option].
  rewrite !(bind_reads _ _ _ _ (inode_index_in s _ (fo_count _ Hok) Hino)).
  rewrite (bind_reads _ _ _ true) by (by rewrite Hx, <- Hdir). cbn [andb negb].
  destruct (names_of_ok s idx node Hok Hnode) as (names & En & Hnames). rewrite (bind_reads _ _ _ names) by done.
  destruct (unlink_children clock (length s.(f_tree).(t_nodes)) q idx (unlinks_all clock _) Hq names s Hok Hnames Hr)
    as (s1 & E1 & Hok1 & _ & _ & Hw1); [|rewrite (bind_ok _ _ _ _ _ E1)].
  { lia. }
  exists s1. split; [done|]. split; [done|]. intros r Hrn. rewrite Hw1 by done.
  destruct (decide (q `prefix_of` r /\ r <> q)) as [[[k ->] Hne]|Hnot].
  - destruct k as [|y k]; [by rewrite app_nil_r in Hne|]. case_decide as Hex; [done|].
    rewrite walk_app, Hr. cbn [mbind option_bind]. apply Forall_app in Hrn as [_ Hyk].
    apply Forall_cons_1 in Hyk as [Hy _]. rewrite walk_step by done.
    unfold get_node in Hnode. rewrite Hnode. cbn [mbind option_bind].
    rewrite (names_of_find s node names y En); [done|]. intros Hin. apply Hex, Exists_exists.
    exists y. split; [done|]. exists k. by rewrite <- app_assoc.
  - rewrite decide_False; [done|]. rewrite Exists_exists. intros (y & _ & [k ->]). apply Hnot. split.
    + exists (y :: k). by rewrite <- app_assoc.
    + rewrite <- app_assoc. intros E. apply (f_equal length) in E. rewrite length_app in E. simpl in E. lia.
Qed.

(** ** Dropping references *)

Lemma get_upd_eq s n y : FIRST_INODE - 1 <= zlen s.(f_inodes) < 2 ^ 32 -> ino_in s n ->
  get_inode (set_inodes (<[Z.to_nat (n - 1) := y]> s.(f_inodes)) s) n = Some y.
Proof.
  intros Hc Hn. unfold get_inode. rewrite (inode_index_in s n Hc Hn). cbn [mbind option_bind].
  simpl. apply list_lookup_insert_eq. destruct Hn. unfold zlen in *. lia.
Qed.

(** The part [release] has in common for every inode that is still referenced. *)
Lemma release_step clock s idx n node x : fs_ok s -> ino_in s n -> FIRST_INODE <= n ->
  get_node s idx = Some node -> get_inode s n = Some x -> 0 < x.(Inode.links_count) ->
  let y := Inode.set_links_count (x.(Inode.links_count) - 1) x in
  let s1 := set_inodes (<[Z.to_nat (n - 1) := y]> s.(f_inodes)) s in
  fs_ok s1 /\ ino_in s1 n /\ get_inode s1 n = Some y /\ inode_ok y /\
  release clock idx n s =
    (if y.(Inode.links_count) =? 0 then reclaim clock n y.(Inode.xattr_block_lo) (node_block_ranges node)
     else if bool_decide (node_block_ranges node = []) then ret tt
     else updates (fun s => Some (set_blocks s.(f_deleted)
            (<[n := default [] (s.(f_deferred) !! n) ++ node_block_ranges node]> s.(f_deferred)) s))) s1.
Proof.
  intros Hok Hn Hfirst Hnode Hx Hlinks y s1. unfold release. unfold FIRST_INODE in *.
  destruct (Z.ltb_spec (11 - 1) n); [|lia]. destruct (get_inode_in s n Hok Hn) as (x' & Hx' & Hxok).
  rewrite Hx in Hx'. injection Hx' as <-. rewrite (bind_reads _ _ _ x) by done.
  destruct (Z.ltb_spec 0 x.(Inode.links_count)); [|lia].
  destruct (drop_link_ok x Hxok) as [Hd Hdok]; [lia|].
  destruct (upd_inode_in s n drop_link x _ Hok Hn Hx Hd Hdok) as (s1' & E & Es1 & Hok1 & Hsh).
  fold y in Es1. fold s1 in Es1. subst s1'.
  assert (Hy : get_inode s1 n = Some y) by (apply get_upd_eq; [apply (fo_count _ Hok)|done]).
  split; [done|]. split; [by eapply ino_in_shape; [apply Hsh|]|]. split; [done|]. split; [done|].
  rewrite (bind_ok _ _ _ _ _ (updates_ok _ _ _ E)). by rewrite (bind_reads _ _ _ node), (bind_reads _ _ s1 y).
Qed.

(** [release] on an inode that keeps other references, and on one that does not. *)
Lemma release_more clock s idx n node x : fs_ok s -> ino_in s n -> FIRST_INODE <= n ->
  get_node s idx = Some node -> get_inode s n = Some x -> 1 < x.(Inode.links_count) ->
  exists s', release clock idx n s = (Ok tt, s') /\
    s'.(f_inodes) = <[Z.to_nat (n - 1) := Inode.set_links_count (x.(Inode.links_count) - 1) x]> s.(f_inodes) /\
    s'.(f_deleted) = s.(f_deleted) /\
    s'.(f_deferred) = (if bool_decide (node_block_ranges node = []) then s.(f_deferred)
      else <[n := default [] (s.(f_deferred) !! n) ++ node_block_ranges node]> s.(f_deferred)).
Proof.
  intros Hok Hn Hfirst Hnode Hx Hlinks.
  destruct (release_step clock s idx n node x Hok Hn Hfirst Hnode Hx) as (_ & _ & _ & _ & ->); [lia|].
  destruct (Z.eqb_spec (Inode.links_count (Inode.set_links_count (x.(Inode.links_count) - 1) x)) 0) as [Hz|_];
    [simpl in Hz; lia|].
  case_bool_decide as Hb; eexists; (split; [by apply updates_ok || done|]); done.
Qed.

Lemma release_last clock s idx n node x : fs_ok s -> ino_in s n -> FIRST_INODE <= n ->
  get_node s idx = Some node -> get_inode s n = Some x -> x.(Inode.links_count) = 1 ->
  exists s', release clock idx n s = (Ok tt, s') /\
    s'.(f_inodes) = <[Z.to_nat (n - 1) := Inode.set_dtime (clock s.(f_ticks)).1 Inode.default]> s.(f_inodes) /\
    s'.(f_deleted) = s.(f_deleted) ++ node_block_ranges node ++ default [] (s.(f_deferred) !! n) ++
      (if x.(Inode.xattr_block_lo) =? 0 then [] else [mk_range x.(Inode.xattr_block_lo) (x.(Inode.xattr_block_lo) + 1)]) /\
    s'.(f_deferred) = delete n s.(f_deferred).
Proof.
  intros Hok Hn Hfirst Hnode Hx Hlinks.
  destruct (release_step clock s idx n node x Hok Hn Hfirst Hnode Hx) as (Hok1 & Hn1 & Hy & Hyok & ->); [lia|].
  set (y := Inode.set_links_count _ x) in *.
  destruct (Z.eqb_spec y.(Inode.links_count) 0) as [_|Hz]; [|by destruct Hz; simpl; lia].
  destruct (reclaim_ok clock _ n y.(Inode.xattr_block_lo) (node_block_ranges node) y Hok1 Hn1 Hy (proj2 Hyok))
    as (s' & E' & _ & _ & Hi & Hdel & Hdef).
  exists s'. split; [done|]. rewrite Hi, Hdel, Hdef. simpl. split; [|done]. by rewrite list_insert_insert_eq.
Qed.

(** A childless entry that is not a directory: [unlink] detaches it and releases
    the inode it stands for. *)
Lemma unlink_leaf clock s q x idx node : fs_ok s -> Forall name_ok (q ++ [x]) ->
  walk s.(f_tree) 0%nat (q ++ [x]) = Some (Some idx) -> get_node s idx = Some node -> node.(n_children) = [] ->
  (node.(n_link) = None -> forall y, get_inode s node.(n_inode) = Some y -> Inode.is_dir y = false) ->
  exists s2, unlink_path clock (abs_path (q ++ [x])) false s = release clock idx (default node.(n_inode) node.(n_link)) s2 /\
    fs_ok s2 /\ get_node s2 idx = Some node /\ s2.(f_inodes) = s.(f_inodes) /\ s2.(f_ticks) = s.(f_ticks) /\
    s2.(f_deleted) = s.(f_deleted) /\ s2.(f_deferred) = s.(f_deferred).
Proof.
  intros Hok Hqx Hr Hnode Hnc Hnd. unfold unlink_path, unlink_fuel. cbn [unlink]. unfold lookup_path.
  rewrite (bind_reads _ _ _ (Some idx)) by (by rewrite lookup_walk).
  destruct (fo_refs _ Hok idx node Hnode) as [Hino Hlink]. rewrite (bind_reads _ _ _ node) by done.
  rewrite (bind_reads _ _ _ _ (inode_index_in s _ (fo_count _ Hok) Hino)).
  set (target := default (n_inode node) (n_link node)).
  assert (Htarget : ino_in s target) by (unfold target; destruct (n_link node); [by apply Hlink|done]).
  rewrite (bind_reads _ _ _ _ (inode_index_in s _ (fo_count _ Hok) Htarget)).
  rewrite (bind_ok _ _ _ false s).
  2:{ destruct (n_link node); [done|]. destruct (get_inode_in s _ Hok Hino) as (y & Hy & _).
      apply reads_ok. rewrite Hy. simpl. f_equal. by apply Hnd. }
  cbn [andb]. rewrite (bind_reads _ _ _ []) by (unfold names_of; by rewrite Hnc). cbn [for_each].
  rewrite (bind_ok _ _ _ tt s) by done. cbn match.
  apply Forall_app in Hqx as [Hq Hx]. rewrite Forall_singleton in Hx.
  pose proof (walk_last _ _ _ _ (to_wf _ (fo_tree _ Hok)) Hx Hr) as (p & pn & _ & Hp & Hpn & Hin & _ & _ & _ & Hlt).
  unfold detach. destruct (parent_basename_abs q x Hq Hx) as [-> ->]. unfold lookup_path.
  destruct (remove_child_ok s.(f_tree) p q x (fo_tree _ Hok) Hq Hx Hp) as (t' & Et & Htok & Hsk & _).
  rewrite (bind_ok _ _ _ tt (set_tree t' s)).
  2:{ rewrite (bind_reads _ _ _ (Some p)) by (by rewrite lookup_walk). cbv beta iota.
      rewrite (bind_reads _ _ _ pn), (bind_ok _ _ _ tt s) by done. apply updates_ok. by rewrite Et. }
  exists (set_tree t' s). split; [done|]. split; [by apply fs_ok_set_tree|]. split; [|done].
  unfold remove_child in Et. rewrite Hpn in Et. cbn [mbind option_bind] in Et.
  destruct (remove_first _ _ _) as [cs|]; simpl in Et; [|done]. injection Et as <-.
  unfold get_node in *. simpl. rewrite list_lookup_insert_ne by lia. done.
Qed.

(** ** Checking the invariant of a concrete state *)

Definition name_okb (s : buffer) : bool :=
  forallb (fun c => negb (c =? slash)) s && negb (bool_decide (s = [])) && negb (bool_decide (s = dot)).

Definition ino_inb (s : Formatter) (n : Z) : bool := (1 <=? n) && (n <=? zlen s.(f_inodes)).

Definition node_check (s : Formatter) (i : nat) (n : FileTreeNode) : bool :=
  forallb (fun c => (i <? c)%nat &&
    match get_node s c with Some m => bool_decide (m.(n_parent) = Some i) | None => false end) n.(n_children) &&
  match n.(n_parent) with Some p => (p <? i)%nat | None => true end &&
  bool_decide (NoDup (omap (fun c => n_name <$> get_node s c) n.(n_children))) &&
  ((i =? 0)%nat || name_okb n.(n_name)) &&
  ino_inb s n.(n_inode) && match n.(n_link) with Some l => ino_inb s l | None => true end.

Definition fs_check (s : Formatter) : bool :=
  (s.(f_tree).(t_root) =? 0)%nat &&
  match get_node s 0 with
  | Some n => bool_decide (n.(n_parent) = None) &&
              (bool_decide (n.(n_name) = root_path) && ((n.(n_inode) =? ROOT_INODE) && bool_decide (n.(n_link) = None)))
  | None => false
  end &&
  forallb (fun i => match get_node s i with Some n => node_check s i n | None => true end)
          (seq 0 (length s.(f_tree).(t_nodes))) &&
  ((FIRST_INODE - 1 <=? zlen s.(f_inodes)) && (zlen s.(f_inodes) <? 2 ^ 32)) &&
  forallb (fun x => uintb 16 x.(Inode.links_count) && (0 <=? x.(Inode.xattr_block_lo)) &&
                    (x.(Inode.xattr_block_lo) <? 2 ^ 32 - 1)) s.(f_inodes).

Lemma forallb_In {A} (f : A -> bool) l x : forallb f l = true -> x ∈ l -> f x = true.
Proof. rewrite forallb_forall. intros H Hx. apply H. by apply list_elem_of_In. Qed.

Lemma omap_names_inj s cs c1 c2 m1 m2 : NoDup (omap (fun c => n_name <$> get_node s c) cs) ->
  c1 ∈ cs -> c2 ∈ cs -> get_node s c1 = Some m1 -> get_node s c2 = Some m2 -> m1.(n_name) = m2.(n_name) -> c1 = c2.
Proof.
  induction cs as [|c cs IH]; simpl; [by intros _ ?%elem_of_nil|]. intros Hnd H1 H2 E1 E2 En.
  assert (Hmem : forall c m, c ∈ cs -> get_node s c = Some m -> m.(n_name) ∈ omap (fun c => n_name <$> get_node s c) cs).
  { intros c0 m0 Hc0 E0. apply list_elem_of_omap. exists c0. by rewrite E0. }
  apply elem_of_cons in H1 as [->|H1], H2 as [->|H2]; [done|..].
  - rewrite E1 in Hnd. simpl in Hnd. apply NoDup_cons in Hnd as [Hn _]. destruct Hn. rewrite En. by eapply Hmem.
  - rewrite E2 in Hnd. simpl in Hnd. apply NoDup_cons in Hnd as [Hn _]. destruct Hn. rewrite <- En. by eapply Hmem.
  - apply IH; try done. destruct (n_name <$> get_node s c); [by apply NoDup_cons in Hnd as [_ ?]|done].
Qed.

Lemma omap_names_nodup s cs : (forall c, c ∈ cs -> is_Some (get_node s c)) ->
  NoDup (omap (fun c => n_name <$> get_node s c) cs) -> NoDup cs.
Proof.
  induction cs as [|c cs IH]; intros Hs; [constructor|]. simpl.
  destruct (Hs c) as [m Hm]; [by left|]. rewrite Hm. simpl. intros [Hn Hnd]%NoDup_cons.
  apply NoDup_cons. split; [|apply IH; [intros; apply Hs; by right|done]].
  intros Hin. destruct Hn. apply list_elem_of_omap. exists c. by rewrite Hm.
Qed.

Lemma fs_check_sound s : fs_check s = true -> fs_ok s.
Proof.
  unfold fs_check. rewrite !andb_true_iff. intros [[[[Hr H0] Hn] Hc] Hi].
  apply Nat.eqb_eq in Hr. rewrite Z.leb_le, Z.ltb_lt in Hc.
  assert (H0' : exists r, get_node s 0 = Some r /\ r.(n_parent) = None /\ r.(n_name) = root_path /\
            r.(n_inode) = ROOT_INODE /\ r.(n_link) = None).
  { destruct (get_node s 0) as [r|]; [|done]. exists r.
    rewrite !andb_true_iff, !bool_decide_eq_true, Z.eqb_eq in H0. tauto. }
  assert (Hnode : forall i n, get_node s i = Some n -> node_check s i n = true).
  { intros i n E. pose proof (forallb_In _ _ i Hn) as H. cbv beta in H. rewrite E in H. apply H.
    apply elem_of_seq. apply lookup_lt_Some in E. lia. }
  assert (Hkid : forall i n c, get_node s i = Some n -> c ∈ n.(n_children) ->
            (i < c)%nat /\ exists m, get_node s c = Some m /\ m.(n_parent) = Some i).
  { intros i n c E Hcn. apply Hnode in E. unfold node_check in E. rewrite !andb_true_iff in E.
    destruct E as [[[[[Hch _] _] _] _] _]. pose proof (forallb_In _ _ c Hch Hcn) as H.
    apply andb_true_iff in H as [Hlt Hm]. apply Nat.ltb_lt in Hlt. split; [done|].
    destruct (get_node s c) as [m|]; [|done]. exists m. by rewrite bool_decide_eq_true in Hm. }
  split.
  - split; [split|..].
    + done.
    + destruct H0' as (r & ? & ? & _). by exists r.
    + exact Hkid.
    + intros i n p E Hp. apply Hnode in E. unfold node_check in E. rewrite !andb_true_iff, Hp in E.
      destruct E as [[[[[_ H] _] _] _] _]. by apply Nat.ltb_lt.
    + intros i n c1 c2 m1 m2 E H1 H2 E1 E2 En. pose proof (Hnode _ _ E) as Hnc. unfold node_check in Hnc.
      rewrite !andb_true_iff, bool_decide_eq_true in Hnc. destruct Hnc as [[[[[_ _] H] _] _] _].
      by eapply omap_names_inj.
    + intros i n E. pose proof (Hnode _ _ E) as Hnc. unfold node_check in Hnc.
      rewrite !andb_true_iff, bool_decide_eq_true in Hnc. destruct Hnc as [[[[[_ _] H] _] _] _].
      eapply omap_names_nodup; [|done]. intros c Hcn. destruct (Hkid _ _ _ E Hcn) as (_ & m & -> & _). done.
    + intros i n E Hne. apply Hnode in E. unfold node_check in E. rewrite !andb_true_iff, orb_true_iff in E.
      destruct E as [[[_ [H|H]] _] _]; [by apply Nat.eqb_eq in H|]. by apply name_ok_literal.
  - destruct H0' as (r & ? & _ & ?). by exists r.
  - done.
  - intros i n E. apply Hnode in E. unfold node_check, ino_inb in E. rewrite !andb_true_iff, !Z.leb_le in E.
    destruct E as [[_ H1] H2]. split; [done|]. intros l El. rewrite El in H2.
    by rewrite andb_true_iff, !Z.leb_le in H2.
  - apply Forall_forall. intros x Hx. pose proof (forallb_In _ _ x Hi Hx) as H.
    rewrite !andb_true_iff, uintb_spec, Z.leb_le, Z.ltb_lt in H. unfold inode_ok. tauto.
Qed.

(** ** Properties *)

(** C6 unlink_removes: On every well-formed state, [unlink] of an entry below the root
    returns [Ok] (the recursion over the subtree terminates and no index is out
    of range), keeps the invariant, and makes exactly the paths at and below that
    entry unresolvable: every other path resolves to the node it did before. *)
Theorem unlink_removes clock s q :
  fs_ok s -> Forall name_ok q -> q <> [] ->
  exists s', unlink_path clock (abs_path q) false s = (Ok tt, s') /\ fs_ok s' /\
    forall r, Forall name_ok r ->
      lookup s'.(f_tree) (abs_path r) =
        (if decide (q `prefix_of` r) then Some None else lookup s.(f_tree) (abs_path r)).
Proof.
  intros Hok Hq Hne. destruct (unlink_path_ok clock s q Hok Hq Hne) as (s' & E & [Hok' _ _ Hw]).
  exists s'. split; [done|]. split; [done|]. intros r Hr. rewrite !lookup_walk by done. by apply Hw.
Qed.

(** With [directory_whiteout], [unlink] of a directory (the root
    included) keeps the directory itself and removes exactly what is below it. *)
Theorem unlink_whiteout clock s q idx node x :
  fs_ok s -> Forall name_ok q -> lookup s.(f_tree) (abs_path q) = Some (Some idx) ->
  get_node s idx = Some node -> node.(n_link) = None ->
  get_inode s node.(n_inode) = Some x -> Inode.is_dir x = true ->
  exists s', unlink_path clock (abs_path q) true s = (Ok tt, s') /\ fs_ok s' /\
    forall r, Forall name_ok r ->
      lookup s'.(f_tree) (abs_path r) =
        (if decide (q `prefix_of` r /\ r <> q) then Some None else lookup s.(f_tree) (abs_path r)).
Proof.
  intros Hok Hq Hl Hnode Hlink Hx Hd. rewrite lookup_walk in Hl by done.
  destruct (whiteout_ok clock s q idx node x Hok Hq Hl Hnode Hlink Hx Hd) as (s' & E & Hok' & Hw).
  exists s'. split; [done|]. split; [done|]. intros r Hr. rewrite !lookup_walk by done. by apply Hw.
Qed.

(** Unlinking a file or hard link drops one reference of its inode.
    While others remain, the link count goes down by one and the blocks of the
    removed node wait under the inode's number; with the last one the inode is
    reset and stamped, and the node's blocks, the waiting ones and the
    extended-attribute block become free.  No other inode changes. *)
Theorem unlink_reference clock s q x idx node y :
  let n := default node.(n_inode) node.(n_link) in
  fs_ok s -> Forall name_ok (q ++ [x]) -> lookup s.(f_tree) (abs_path (q ++ [x])) = Some (Some idx) ->
  get_node s idx = Some node -> node.(n_children) = [] -> FIRST_INODE <= n ->
  get_inode s n = Some y -> 1 <= y.(Inode.links_count) -> Inode.is_dir y = false ->
  exists s', unlink_path clock (abs_path (q ++ [x])) false s = (Ok tt, s') /\
    (1 < y.(Inode.links_count) ->
       s'.(f_inodes) = <[Z.to_nat (n - 1) := Inode.set_links_count (y.(Inode.links_count) - 1) y]> s.(f_inodes) /\
       s'.(f_deleted) = s.(f_deleted) /\
       s'.(f_deferred) = (if bool_decide (node_block_ranges node = []) then s.(f_deferred)
         else <[n := default [] (s.(f_deferred) !! n) ++ node_block_ranges node]> s.(f_deferred))) /\
    (y.(Inode.links_count) = 1 ->
       s'.(f_inodes) = <[Z.to_nat (n - 1) := Inode.set_dtime (clock s.(f_ticks)).1 Inode.default]> s.(f_inodes) /\
       s'.(f_deleted) = s.(f_deleted) ++ node_block_ranges node ++ default [] (s.(f_deferred) !! n) ++
         (if y.(Inode.xattr_block_lo) =? 0 then []
          else [mk_range y.(Inode.xattr_block_lo) (y.(Inode.xattr_block_lo) + 1)]) /\
       s'.(f_deferred) = delete n s.(f_deferred)).
Proof.
  intros n Hok Hqx Hl Hnode Hnc Hfirst Hy Hlinks Hdir. rewrite lookup_walk in Hl by done.
  destruct (unlink_leaf clock s q x idx node Hok Hqx Hl Hnode Hnc) as (s2 & E & Hok2 & Hn2 & Ei & Et & Ed & Ef).
  { intros Hnone z Hz. unfold n in Hy. rewrite Hnone in Hy. simpl in Hy. congruence. }
  fold n in E. assert (Hn : ino_in s2 n).
  { destruct (fo_refs _ Hok idx node Hnode) as [? Hlk]. unfold ino_in. rewrite Ei. unfold n.
    destruct (n_link node); [by apply Hlk|done]. }
  assert (Hy2 : get_inode s2 n = Some y) by (unfold get_inode in *; by rewrite Ei).
  destruct (Z.eq_dec y.(Inode.links_count) 1) as [H1|H1].
  - destruct (release_last clock s2 idx n node y Hok2 Hn Hfirst Hn2 Hy2 H1) as (s' & E' & Hres).
    exists s'. split; [by rewrite E|]. split; [lia|]. rewrite <- Ei, <- Ed, <- Ef, <- Et. done.
  - destruct (release_more clock s2 idx n node y Hok2 Hn Hfirst Hn2 Hy2) as (s' & E' & Hres); [lia|].
    exists s'. split; [by rewrite E|]. split; [|lia]. rewrite <- Ei, <- Ed, <- Ef. done.
Qed.

(** A small image: [/lost+found], [/a/b/f] with two blocks of data, and [/g], a
    hard link to that file. *)
Definition sample_clock (n : nat) : Z * Z := (1000 + Z.of_nat n, 0).
Definition REG : Z := make_mode file_mode.S_IFREG 0x1A4.
Definition sample_fs : Formatter :=
  match with_options sample_clock (options_new 4096) with
  | Ok s =>
      let s := (create_path sample_clock (bstr "/a/b/f") REG None None (Some [replicate 5000 7]) None None None s).2 in
      (link sample_clock (bstr "/g") (bstr "/a/b/f") s).2
  | _ => fresh sample_clock (options_new 4096)
  end.

Lemma sample_fs_ok : fs_ok sample_fs.
Proof. apply fs_check_sound. vm_compute. reflexivity. Qed.

Lemma unlink_removes_witness :
  exists s', unlink_path sample_clock (abs_path [bstr "a"]) false sample_fs = (Ok tt, s') /\ fs_ok s' /\
    forall r, Forall name_ok r ->
      lookup s'.(f_tree) (abs_path r) =
        (if decide ([bstr "a"] `prefix_of` r) then Some None else lookup sample_fs.(f_tree) (abs_path r)).
Proof.
  apply (unlink_removes sample_clock sample_fs [bstr "a"]); [exact sample_fs_ok| |done].
  rewrite Forall_singleton. by apply name_ok_literal.
Defined.

(** The inode and node behind a path of the sample. *)
Definition node_at (s : Formatter) (path : string) : FileTreeNode :=
  default (mk_node 0 [] [] None None [] None)
    (idx ← default None (lookup s.(f_tree) (bstr path)); get_node s idx).
Definition inode_at (s : Formatter) (path : string) : Inode.t :=
  default Inode.default (get_inode s (default (node_at s path).(n_inode) (node_at s path).(n_link))).

Lemma unlink_whiteout_witness :
  exists s', unlink_path sample_clock (abs_path [bstr "a"; bstr "b"]) true sample_fs = (Ok tt, s') /\ fs_ok s' /\
    forall r, Forall name_ok r ->
      lookup s'.(f_tree) (abs_path r) =
        (if decide ([bstr "a"; bstr "b"] `prefix_of` r /\ r <> [bstr "a"; bstr "b"]) then Some None
         else lookup sample_fs.(f_tree) (abs_path r)).
Proof.
  apply (unlink_whiteout sample_clock sample_fs [bstr "a"; bstr "b"] 3 (node_at sample_fs "/a/b") (inode_at sample_fs "/a/b"));
    [exact sample_fs_ok| |vm_compute; reflexivity..].
  rewrite !Forall_cons, Forall_nil. split_and!; [..|done]; by apply name_ok_literal.
Defined.

Lemma unlink_reference_witness :
  let n := default (node_at sample_fs "/a/b/f").(n_inode) (node_at sample_fs "/a/b/f").(n_link) in
  let y := inode_at sample_fs "/a/b/f" in
  exists s', unlink_path sample_clock (abs_path ([bstr "a"; bstr "b"] ++ [bstr "f"])) false sample_fs = (Ok tt, s') /\
    (1 < y.(Inode.links_count) ->
       s'.(f_inodes) = <[Z.to_nat (n - 1) := Inode.set_links_count (y.(Inode.links_count) - 1) y]> sample_fs.(f_inodes) /\
       s'.(f_deleted) = sample_fs.(f_deleted) /\
       s'.(f_deferred) = (if bool_decide (node_block_ranges (node_at sample_fs "/a/b/f") = []) then sample_fs.(f_deferred)
         else <[n := default [] (sample_fs.(f_deferred) !! n) ++ node_block_ranges (node_at sample_fs "/a/b/f")]>
                sample_fs.(f_deferred))) /\
    (y.(Inode.links_count) = 1 ->
       s'.(f_inodes) = <[Z.to_nat (n - 1) := Inode.set_dtime (sample_clock sample_fs.(f_ticks)).1 Inode.default]> sample_fs.(f_inodes) /\
       s'.(f_deleted) = sample_fs.(f_deleted) ++ node_block_ranges (node_at sample_fs "/a/b/f") ++
         default [] (sample_fs.(f_deferred) !! n) ++
         (if y.(Inode.xattr_block_lo) =? 0 then []
          else [mk_range y.(Inode.xattr_block_lo) (y.(Inode.xattr_block_lo) + 1)]) /\
       s'.(f_deferred) = delete n sample_fs.(f_deferred)).
Proof.
  apply (unlink_reference sample_clock sample_fs [bstr "a"; bstr "b"] (bstr "f") 4 (node_at sample_fs "/a/b/f")
           (inode_at sample_fs "/a/b/f"));
    [exact sample_fs_ok| |vm_compute; (reflexivity || (intros ?; discriminate))..].
  rewrite Forall_app, !Forall_cons, Forall_nil. split_and!; try done; by apply name_ok_literal.
Defined.
