(* ===== verification/FormatterSpec.v ===== *)
(** * What [link], [create] and the attribute setters do

    The remaining operations on a formatter under construction: hard links,
    creation with [mkdir -p] semantics, permissions and ownership. *)

From stdpp Require Import base list option numbers strings gmap.
From S2P Require Import Prelude Bytes Utf8 Errors Constants DiskTypes Image Extent Xattr Geometry Paths FileTree Formatter UnlinkSpec.

(** ** Names *)

Definition valid_name (x : buffer) : Prop := name_ok x /\ zlen x <= EXT4_NAME_LEN.

Lemma valid_names_ok q : Forall valid_name q -> Forall name_ok q.
Proof. intros H. eapply Forall_impl; [exact H|]. by intros x [? _]. Qed.

Lemma validate_ok q : Forall valid_name q -> validate_path_component_names (abs_path q) = Ok tt.
Proof.
  intros H. unfold validate_path_component_names. rewrite components_abs by (by apply valid_names_ok).
  rewrite filter_cons_False by (vm_compute; intros ?; discriminate).
  replace (filter _ q) with (@nil buffer); [done|].
  induction H as [|x q [_ Hx] _ IH]; [done|]. rewrite filter_cons_False by lia. done.
Qed.

Lemma lookup_found s q i : fs_ok s -> Forall name_ok q -> walk s.(f_tree) 0%nat q = Some (Some i) ->
  lookup_or_not_found (abs_path q) s = (Ok i, s).
Proof.
  intros Hok Hq Hw. unfold lookup_or_not_found, lookup_path.
  by rewrite (bind_reads _ _ _ (Some i)) by (by rewrite lookup_walk).
Qed.

Lemma lookup_missing s q : fs_ok s -> Forall name_ok q -> walk s.(f_tree) 0%nat q = Some None ->
  lookup_or_not_found (abs_path q) s = (Err (NotFound (abs_path q)), s).
Proof.
  intros Hok Hq Hw. unfold lookup_or_not_found, lookup_path.
  by rewrite (bind_reads _ _ _ None) by (by rewrite lookup_walk).
Qed.

(** ** Attaching a node *)

(** [s'] is [s] with a node at [q]; what resolved still does. *)
Record attached_at (q : list buffer) (node : FileTreeNode) (s s' : Formatter) : Prop := {
  at_ok : fs_ok s';
  at_new : exists i, walk s'.(f_tree) 0%nat q = Some (Some i) /\ exists n, get_node s' i = Some n /\
    n.(n_inode) = node.(n_inode) /\ n.(n_link) = node.(n_link) /\ n.(n_children) = [] /\
    n.(n_blocks) = node.(n_blocks) /\ n.(n_additional_blocks) = node.(n_additional_blocks);
  at_walk : forall r i, walk s.(f_tree) 0%nat r = Some (Some i) -> walk s'.(f_tree) 0%nat r = Some (Some i);
  at_nodes : forall i n, get_node s i = Some n -> exists n', get_node s' i = Some n' /\
    n'.(n_inode) = n.(n_inode) /\ n'.(n_link) = n.(n_link) /\ n'.(n_name) = n.(n_name);
  at_inodes : s'.(f_inodes) = s.(f_inodes);
  at_disk : s'.(f_disk) = s.(f_disk) }.

Lemma added_forward t parent node t' i n : added t parent node t' -> t.(t_nodes) !! i = Some n ->
  exists n', t'.(t_nodes) !! i = Some n' /\ n'.(n_inode) = n.(n_inode) /\ n'.(n_link) = n.(n_link) /\
    n'.(n_name) = n.(n_name).
Proof.
  intros [_ _ (p & Hp & Hp') Ho] E. destruct (Nat.eq_dec i parent) as [->|].
  - simplify_eq. eexists. by split.
  - exists n. rewrite Ho; [done|done|]. apply lookup_lt_Some in E. lia.
Qed.

Lemma attach_ok s q x p node : fs_ok s -> Forall name_ok (q ++ [x]) ->
  walk s.(f_tree) 0%nat q = Some (Some p) -> walk s.(f_tree) 0%nat (q ++ [x]) = Some None ->
  node.(n_name) = x -> node.(n_children) = [] -> ino_in s node.(n_inode) ->
  (forall l, node.(n_link) = Some l -> ino_in s l) ->
  exists s', attach p node s = (Ok tt, s') /\ attached_at (q ++ [x]) node s s'.
Proof.
  intros Hok Hqx Hw Hnone Hx Hnc Hino Hlink. apply Forall_app in Hqx as [Hq Hxn]. rewrite Forall_singleton in Hxn.
  destruct (walk_some_1 s q p Hok Hw) as [pn Hpn]. unfold get_node in Hpn.
  destruct (add_child_added s.(f_tree) p node) as (t' & E & Ha); [eauto|].
  assert (Hfc : find_child s.(f_tree).(t_nodes) x pn.(n_children) = Some None).
  { rewrite walk_app, Hw in Hnone. cbn [mbind option_bind] in Hnone. rewrite walk_step, Hpn in Hnone by done.
    cbn [mbind option_bind] in Hnone. destruct (find_child _ _ _) as [[c|]|]; simpl in Hnone; done. }
  destruct (name_ok_root x Hxn) as [Hxr Hxe]. pose proof (to_wf _ (fo_tree _ Hok)) as Hwf.
  exists (set_tree t' s). split; [apply updates_ok; by rewrite E|].
  assert (Hnew : walk t' 0%nat (q ++ [x]) = Some (Some (length s.(f_tree).(t_nodes)))).
  { rewrite <- Hx. pose proof (tw_root _ Hwf) as Hroot. pose proof (ad_root _ _ _ _ Ha) as Hroot'.
    rewrite Hroot in Hroot'. rewrite <- Hroot' at 1.
    eapply added_lookup; [done|done|by rewrite Hroot|done|by rewrite Hx..]. }
  split.
  - split; simpl.
    + apply (added_ok s.(f_tree) p node t' pn); try done; [apply (fo_tree _ Hok)|by rewrite Hx..].
    + destruct (fo_root _ Hok) as (r & Hr & Hrn & Hri & Hrl).
      destruct (added_forward _ _ _ _ _ _ Ha Hr) as (r' & Hr' & Ei & El & En). exists r'. split_and!; congruence.
    + apply (fo_count _ Hok).
    + intros i n En. destruct (added_back _ _ _ _ _ _ Ha En) as [[_ ->]|(n0 & E0 & _ & Ei & El & _)]; [done|].
      rewrite Ei, El. by apply (fo_refs _ Hok i).
    + apply (fo_inodes _ Hok).
  - eexists. split; [exact Hnew|]. eexists. split; [apply (ad_new _ _ _ _ Ha)|]. simpl. by rewrite Hnc.
  - intros r i Hr. simpl. by eapply added_walk.
  - intros i n En. unfold get_node in *. simpl. by eapply added_forward.
  - done.
  - done.
Qed.

(** ** Inode updates seen through [get_inode] *)

Lemma get_inode_set s n m y : FIRST_INODE - 1 <= zlen s.(f_inodes) < 2 ^ 32 -> ino_in s n -> ino_in s m ->
  get_inode (set_inodes (<[Z.to_nat (n - 1) := y]> s.(f_inodes)) s) m =
    (if decide (m = n) then Some y else get_inode s m).
Proof.
  intros Hc Hn Hm. case_decide as E; [subst; by apply get_upd_eq|]. unfold get_inode.
  rewrite (inode_index_in s m Hc Hm). cbn [mbind option_bind]. simpl.
  apply list_lookup_insert_ne. destruct Hn, Hm. lia.
Qed.

Lemma bump_links_ok x : inode_ok x -> x.(Inode.links_count) < 2 ^ 16 - 1 ->
  bump_links x = Some (Inode.set_links_count (x.(Inode.links_count) + 1) x) /\
  inode_ok (Inode.set_links_count (x.(Inode.links_count) + 1) x).
Proof.
  intros Hx Hlt. pose proof Hx as [[? ?] _]. unfold bump_links, uadd.
  assert (uint 16 (Inode.links_count x + 1)) by (unfold uint; lia).
  rewrite chk_some by done. split; [done|]. by apply inode_ok_links.
Qed.

Lemma root_ino_in s : FIRST_INODE - 1 <= zlen s.(f_inodes) < 2 ^ 32 -> ino_in s ROOT_INODE.
Proof. unfold ino_in, FIRST_INODE, ROOT_INODE. lia. Qed.

(** ** [unlink] never fails on its own *)

Lemma bind_no_err {A B} (m : M A) (k : A -> M B) s e :
  (forall s e, (m s).1 <> Err e) -> (forall a s e, (k a s).1 <> Err e) -> (bind m k s).1 <> Err e.
Proof.
  intros Hm Hk. unfold bind. pose proof (Hm s) as H. destruct (m s) as [[a|e'|] s']; simpl in *; [apply Hk|by destruct (H e')|done].
Qed.

Lemma reads_no_err {A} (f : Formatter -> option A) s e : (reads f s).1 <> Err e.
Proof. unfold reads. by destruct (f s). Qed.
Lemma updates_no_err f s e : (updates f s).1 <> Err e.
Proof. unfold updates. by destruct (f s). Qed.
Lemma ret_no_err {A} (a : A) s e : (ret a s).1 <> Err e.
Proof. done. Qed.

Create HintDb no_err.
#[export] Hint Resolve reads_no_err updates_no_err ret_no_err : no_err.

Ltac no_err := repeat (intros; first
  [ solve [eauto with no_err] | apply bind_no_err | case_match | done ]).

Lemma for_each_no_err {A} (l : list A) f : (forall x s e, (f x s).1 <> Err e) -> forall s e, (for_each l f s).1 <> Err e.
Proof. intros Hf. induction l; simpl; no_err. Qed.

Lemma unlink_no_err clock fuel : forall path s e, (unlink clock fuel path false s).1 <> Err e.
Proof.
  induction fuel as [|fuel IH]; intros path s e; cbn [unlink andb]; [done|].
  unfold lookup_path, detach, release, reclaim, timestamp_now, lookup_path.
  no_err. apply for_each_no_err. intros. apply IH.
Qed.

(** ** Errors that leave no trace *)

Definition quiet {A} (m : M A) : Prop := forall s, (m s).2 = s.
Definition clean_err {A} (m : M A) : Prop := forall s e s', m s = (Err e, s') -> s' = s.

Lemma quiet_reads {A} (f : Formatter -> option A) : quiet (reads f).
Proof. done. Qed.
Lemma quiet_ret {A} (a : A) : quiet (ret a).
Proof. done. Qed.
Lemma quiet_try {A} (o : outcome FormatError A) : quiet (try o).
Proof. done. Qed.
Lemma quiet_throw {A} e : quiet (@throw A e).
Proof. done. Qed.
Lemma quiet_bind {A B} (m : M A) (k : A -> M B) : quiet m -> (forall a, quiet (k a)) -> quiet (bind m k).
Proof.
  intros Hm Hk s. unfold bind. specialize (Hm s). destruct (m s) as [[a|e|] s']; simpl in *; subst; [apply Hk|done..].
Qed.
Lemma clean_quiet {A} (m : M A) : quiet m -> clean_err m.
Proof. intros H s e s' E. specialize (H s). by rewrite E in H. Qed.
Lemma clean_no_err {A} (m : M A) : (forall s e, (m s).1 <> Err e) -> clean_err m.
Proof. intros H s e s' E. specialize (H s e). by rewrite E in H. Qed.
Lemma clean_bind {A B} (m : M A) (k : A -> M B) : quiet m -> (forall a, clean_err (k a)) -> clean_err (bind m k).
Proof.
  intros Hm Hk s e s'. unfold bind. specialize (Hm s). destruct (m s) as [[a|e0|] s1]; simpl in Hm; subst s1;
    intros E; [by eapply Hk|by simplify_eq..].
Qed.

Create HintDb quiet.
#[export] Hint Resolve quiet_reads quiet_ret quiet_try quiet_throw : quiet.

Lemma quiet_lookup path : quiet (lookup_path path).
Proof. done. Qed.
Lemma quiet_lookup_nf path : quiet (lookup_or_not_found path).
Proof. apply quiet_bind; [done|]. intros [i|]; auto with quiet. Qed.
#[export] Hint Resolve quiet_lookup quiet_lookup_nf : quiet.

Lemma link_clean clock lp tp : clean_err (link clock lp tp).
Proof.
  unfold link. do 4 (apply clean_bind; [by auto with quiet|intros ?]).
  match goal with |- context [Inode.is_dir ?x] => destruct (Inode.is_dir x); [by apply clean_quiet|] end.
  apply clean_bind; [by auto with quiet|intros existing].
  apply clean_bind; [destruct existing; [apply quiet_bind|]; auto with quiet|intros target].
  destruct (bool_decide (target = _)); [by apply clean_quiet|].
  do 3 (apply clean_bind; [by auto with quiet|intros ?]).
  match goal with |- context [MAX_LINKS <=? ?x] => destruct (MAX_LINKS <=? x); [by apply clean_quiet|] end.
  apply clean_no_err. intros s e. apply bind_no_err; [|no_err].
  intros s0 e0. destruct (bool_decide _); [apply (unlink_no_err clock (unlink_fuel s0))|apply ret_no_err].
Qed.

Lemma parent_basename_root q x : Forall name_ok (q ++ [x]) ->
  parent_of (abs_path (q ++ [x])) = abs_path q /\ basename (abs_path (q ++ [x])) = x.
Proof.
  intros H. apply Forall_app in H as [Hq Hx]. rewrite Forall_singleton in Hx. by apply parent_basename_abs.
Qed.

Lemma abs_path_ne q x : Forall name_ok (q ++ [x]) -> abs_path q <> abs_path (q ++ [x]).
Proof.
  intros H E. pose proof (proj1 (proj1 (Forall_app _ _ _) H)) as Hq. apply (f_equal components) in E.
  rewrite !components_abs in E by done. injection E as E. apply (f_equal length) in E. rewrite length_app in E.
  simpl in E. lia.
Qed.

(** A hard link at a free name below an existing entry. *)
Lemma link_ok clock s q x p pn px tq ti tn ty :
  fs_ok s -> Forall valid_name (q ++ [x]) -> Forall name_ok tq ->
  walk s.(f_tree) 0%nat q = Some (Some p) -> get_node s p = Some pn ->
  get_inode s pn.(n_inode) = Some px -> px.(Inode.links_count) < MAX_LINKS ->
  walk s.(f_tree) 0%nat (q ++ [x]) = Some None ->
  walk s.(f_tree) 0%nat tq = Some (Some ti) -> get_node s ti = Some tn ->
  get_inode s tn.(n_inode) = Some ty -> Inode.is_dir ty = false -> ty.(Inode.links_count) < 2 ^ 16 - 1 ->
  exists s', link clock (abs_path (q ++ [x])) (abs_path tq) s = (Ok tt, s') /\
    let s1 := set_inodes (<[Z.to_nat (tn.(n_inode) - 1) := Inode.set_links_count (ty.(Inode.links_count) + 1) ty]>
                            s.(f_inodes)) s in
    attached_at (q ++ [x]) (link_node (abs_path (q ++ [x])) tn.(n_inode)) s1 s'.
Proof.
  intros Hok Hv Htq Hp Hpn Hpx Hmax Hnone Ht Htn Hty Hnd Hlt.
  pose proof (valid_names_ok _ Hv) as Hqx. pose proof (proj1 (proj1 (Forall_app _ _ _) Hqx)) as Hq.
  destruct (parent_basename_root q x Hqx) as [Hpar Hbase].
  unfold link. rewrite (bind_ok _ _ _ tt s) by (unfold try; by rewrite validate_ok).
  rewrite (bind_ok _ _ _ _ _ (lookup_found s tq ti Hok Htq Ht)).
  rewrite (bind_reads _ _ _ tn), (bind_reads _ _ _ ty) by done. rewrite Hnd.
  unfold lookup_path. rewrite (bind_reads _ _ _ None) by (by rewrite lookup_walk).
  rewrite (bind_ok _ _ _ None s) by done. rewrite bool_decide_eq_false_2 by done. rewrite Hpar.
  rewrite (bind_ok _ _ _ _ _ (lookup_found s q p Hok Hq Hp)).
  rewrite (bind_reads _ _ _ pn), (bind_reads _ _ _ px) by done.
  destruct (Z.leb_spec MAX_LINKS px.(Inode.links_count)); [lia|].
  rewrite bool_decide_eq_false_2 by (by intros [? ?]). rewrite (bind_ok _ _ _ tt s) by done.
  destruct (fo_refs _ Hok ti tn Htn) as [Hin _].
  destruct (get_inode_in s _ Hok Hin) as (ty' & Ety & Hyok). rewrite Hty in Ety. injection Ety as <-.
  destruct (bump_links_ok ty Hyok Hlt) as [Hb Hbok].
  destruct (upd_inode_in s _ bump_links ty _ Hok Hin Hty Hb Hbok) as (s1 & E1 & Es1 & Hok1 & Hsh).
  rewrite (bind_ok _ _ _ _ _ (updates_ok _ _ _ E1)).
  destruct (attach_ok s1 q x p (link_node (abs_path (q ++ [x])) tn.(n_inode)) Hok1 Hqx) as (s' & E & Ha);
    try (by rewrite (proj1 Hsh)); try done.
  - apply root_ino_in. by apply (fo_count _ Hok1).
  - intros l [= <-]. eapply ino_in_shape; [apply Hsh|done].
  - exists s'. split; [done|]. cbv zeta. rewrite <- Es1. done.
Qed.

(** ** Directories *)

Record dir_at (s : Formatter) (q : list buffer) (idx : nat) (node : FileTreeNode) (x : Inode.t) : Prop := {
  da_walk : walk s.(f_tree) 0%nat q = Some (Some idx);
  da_node : get_node s idx = Some node;
  da_link : node.(n_link) = None;
  da_inode : get_inode s node.(n_inode) = Some x;
  da_dir : Inode.is_dir x = true }.

(** [q] is a directory that can take another entry. *)
Definition open_dir (s : Formatter) (q : list buffer) : Prop :=
  exists idx node x, dir_at s q idx node x /\ x.(Inode.links_count) < MAX_LINKS.

Lemma name_at s q idx node : fs_ok s -> Forall name_ok q -> walk s.(f_tree) 0%nat q = Some (Some idx) ->
  get_node s idx = Some node -> node.(n_name) = basename (abs_path q).
Proof.
  intros Hok Hq Hw Hn. destruct q as [|x q _] using rev_ind.
  - injection Hw as <-. destruct (fo_root _ Hok) as (r & Hr & Hname & _). unfold get_node in Hn. simplify_eq.
    by rewrite Hname.
  - destruct (parent_basename_root q x Hq) as [_ ->]. apply Forall_app in Hq as [_ Hx]. rewrite Forall_singleton in Hx.
    apply walk_last in Hw as (p & _ & m & _ & _ & _ & Hm & Hname & _); [|apply (to_wf _ (fo_tree _ Hok))|done].
    unfold get_node in Hn. congruence.
Qed.

Lemma create_existing_dir s q mode : fs_ok s -> Forall name_ok q -> open_dir s q -> Constants.is_dir mode = true ->
  forall clock, create_existing clock (abs_path q) mode None None s = (Ok true, s).
Proof.
  intros Hok Hq (idx & node & x & [Hw Hn Hl Hx Hd] & _) Hmode clock. unfold create_existing, lookup_path.
  rewrite (bind_reads _ _ _ (Some idx)) by (by rewrite lookup_walk).
  rewrite (bind_reads _ _ _ node), (bind_reads _ _ _ x) by done. rewrite Hmode, Hd.
  rewrite bool_decide_eq_true_2 by (by eapply name_at). by rewrite !bool_decide_eq_false_2 by (by intros [? ?]).
Qed.

Lemma create_absent s q mode uid gid : fs_ok s -> Forall name_ok q -> walk s.(f_tree) 0%nat q = Some None ->
  forall clock, create_existing clock (abs_path q) mode uid gid s = (Ok false, s).
Proof.
  intros Hok Hq Hw clock. unfold create_existing, lookup_path.
  by rewrite (bind_reads _ _ _ None) by (by rewrite lookup_walk).
Qed.

Lemma push_inode_ok s c : fs_ok s -> inode_ok c -> zlen s.(f_inodes) + 1 < 2 ^ 32 ->
  fs_ok (set_inodes (s.(f_inodes) ++ [c]) s).
Proof.
  intros [H1 H0 H2 H3 H4] Hc Hlen. split; [done|done|..]; simpl.
  - rewrite zlen_snoc. lia.
  - intros i n E. destruct (H3 i n E) as [Hi Hl]. unfold ino_in in *. simpl. rewrite zlen_snoc.
    split; [lia|]. intros l El. specialize (Hl l El). lia.
  - apply Forall_app. by rewrite Forall_singleton.
Qed.

Lemma get_inode_push s c m : fs_ok s -> ino_in s m ->
  get_inode (set_inodes (s.(f_inodes) ++ [c]) s) m = get_inode s m.
Proof.
  intros Hok Hm. unfold get_inode. rewrite (inode_index_in s m (fo_count _ Hok) Hm). cbn [mbind option_bind]. simpl.
  apply lookup_app_l. destruct Hm. unfold zlen in *. lia.
Qed.

Lemma get_inode_pushed s c : zlen s.(f_inodes) + 1 < 2 ^ 32 ->
  get_inode (set_inodes (s.(f_inodes) ++ [c]) s) (zlen s.(f_inodes) + 1) = Some c.
Proof.
  intros Hlen. unfold get_inode, inode_index, usub. pose proof (zlen_nonneg s.(f_inodes)).
  rewrite chk_some by (unfold uint; lia). cbn [mbind option_bind]. simpl.
  replace (Z.to_nat _) with (length s.(f_inodes)) by (unfold zlen; lia). by apply list_lookup_middle.
Qed.

(** Registering a finished inode under a free name. *)
Lemma register_ok s q x p c ranges : fs_ok s -> Forall name_ok (q ++ [x]) -> inode_ok c ->
  zlen s.(f_inodes) + 1 < 2 ^ 32 ->
  walk s.(f_tree) 0%nat q = Some (Some p) -> walk s.(f_tree) 0%nat (q ++ [x]) = Some None ->
  let s1 := set_inodes (s.(f_inodes) ++ [c]) s in
  let node := assign_node_ranges (mk_node (zlen s.(f_inodes) + 1) x [] None None [] None) ranges in
  exists s', (_ <~ updates (fun s => Some (set_inodes (s.(f_inodes) ++ [c]) s)) ;;
     child_inode_num <~ reads (fun s => Some (wrap 32 (zlen s.(f_inodes)))) ;;
     attach p (assign_node_ranges
       (mk_node child_inode_num (basename (abs_path (q ++ [x]))) [] None None [] None) ranges)) s = (Ok tt, s') /\
    attached_at (q ++ [x]) node s1 s'.
Proof.
  intros Hok Hqx Hc Hlen Hp Hnone s1 node. pose proof (zlen_nonneg s.(f_inodes)).
  destruct (parent_basename_root q x Hqx) as [_ ->].
  rewrite (bind_ok _ _ _ tt s1) by done.
  rewrite (bind_reads _ _ _ (zlen s.(f_inodes) + 1)).
  2:{ unfold s1. simpl. rewrite zlen_snoc. by rewrite wrap_id by (unfold uint; lia). }
  apply attach_ok; try done; [by apply push_inode_ok|]. simpl. unfold ino_in, s1. simpl.
  rewrite zlen_snoc. lia.
Qed.

(** The outcome of creating an entry: the tree has it, everything else resolves
    as before, and inodes other than the parent's are untouched. *)
Record created (q : list buffer) (s s' : Formatter) (c : Inode.t) : Prop := {
  cr_ok : fs_ok s';
  cr_new : exists i n, walk s'.(f_tree) 0%nat q = Some (Some i) /\ get_node s' i = Some n /\
    n.(n_inode) = zlen s.(f_inodes) + 1 /\ n.(n_link) = None /\ n.(n_children) = [];
  cr_inode : get_inode s' (zlen s.(f_inodes) + 1) = Some c;
  cr_count : zlen s'.(f_inodes) = zlen s.(f_inodes) + 1;
  cr_walk : forall r i, walk s.(f_tree) 0%nat r = Some (Some i) -> walk s'.(f_tree) 0%nat r = Some (Some i);
  cr_nodes : forall i n, get_node s i = Some n -> exists n', get_node s' i = Some n' /\
    n'.(n_inode) = n.(n_inode) /\ n'.(n_link) = n.(n_link) /\ n'.(n_name) = n.(n_name) }.

Lemma attached_created q s node s' c : fs_ok s -> zlen s.(f_inodes) + 1 < 2 ^ 32 ->
  node.(n_inode) = zlen s.(f_inodes) + 1 -> node.(n_link) = None ->
  attached_at q node (set_inodes (s.(f_inodes) ++ [c]) s) s' -> created q s s' c.
Proof.
  intros Hok Hlen Hino Hlink [H1 (i & Hi & n & Hn & Ei & El & Ec & _) H3 H4 H5 H6]. split; try done.
  - exists i, n. split_and!; congruence.
  - unfold get_inode. rewrite H5. by apply get_inode_pushed.
  - rewrite H5. simpl. by rewrite zlen_snoc.
Qed.

Lemma child_inode_ok mode uid gid parent : inode_ok (child_inode mode uid gid parent).
Proof. destruct uid, gid; split; simpl; unfold uint; lia. Qed.

Lemma created_shape q s s1 s' c : same_shape s s1 -> created q s1 s' c -> created q s s' c.
Proof.
  intros [Ht Hl] [H1 H2 H3 H4 H5 H6]. assert (Hz : zlen s1.(f_inodes) = zlen s.(f_inodes)) by (unfold zlen; by rewrite Hl).
  rewrite Hz, Ht in *. split; try done. intros i n E. apply H6. unfold get_node in *. by rewrite Ht.
Qed.

(** Time stamps change neither kind nor placement of an inode. *)
Lemma timestamps_ok clock inode ts s : inode_ok inode ->
  exists inode' s1, apply_timestamps clock inode ts s = (Ok inode', s1) /\ (s1 = s \/ s1 = tick s) /\
    inode'.(Inode.mode) = inode.(Inode.mode) /\ inode'.(Inode.links_count) = 1 /\ inode_ok inode' /\
    inode'.(Inode.blocks_lo) = inode.(Inode.blocks_lo) /\ inode'.(Inode.block) = inode.(Inode.block).
Proof.
  intros [Hl Hx]. unfold apply_timestamps. destruct ts as [ts|]; (eexists _, _; split; [reflexivity|]); simpl;
    split_and!; auto; (split; [unfold uint; simpl; lia|exact Hx]).
Qed.

(** A new directory under an existing one. *)
Lemma create_entry_dir clock s q x p pn px mode ts uid gid :
  fs_ok s -> Forall name_ok (q ++ [x]) -> dir_at s q p pn px -> px.(Inode.links_count) < MAX_LINKS ->
  walk s.(f_tree) 0%nat (q ++ [x]) = Some None -> zlen s.(f_inodes) + 1 < 2 ^ 32 -> Constants.is_dir mode = true ->
  exists s' c, create_entry clock (abs_path (q ++ [x])) (abs_path q) mode None ts None uid gid None s = (Ok tt, s') /\
    created (q ++ [x]) s s' c /\ c.(Inode.mode) = mode /\ c.(Inode.links_count) = 2 /\ s'.(f_disk) = s.(f_disk) /\
    forall m, ino_in s m -> get_inode s' m =
      (if decide (m = pn.(n_inode)) then Some (Inode.set_links_count (px.(Inode.links_count) + 1) px) else get_inode s m).
Proof.
  intros Hok Hqx [Hw Hn Hl Hx Hd] Hmax Hnone Hlen Hmode. pose proof (proj1 (proj1 (Forall_app _ _ _) Hqx)) as Hq.
  unfold create_entry. rewrite (bind_ok _ _ _ _ _ (lookup_found s q p Hok Hq Hw)).
  rewrite (bind_reads _ _ _ pn), (bind_reads _ _ _ px) by done.
  destruct (Z.leb_spec MAX_LINKS px.(Inode.links_count)); [lia|].
  rewrite (bind_ok _ _ _ (child_inode mode uid gid px) s) by done.
  destruct (timestamps_ok clock _ ts s (child_inode_ok mode uid gid px)) as (c0 & s1 & E1 & Hs1 & Hm & _ & Hc0 & _).
  rewrite (bind_ok _ _ _ _ _ E1). rewrite Hmode.
  assert (Hsh1 : same_shape s s1) by (by destruct Hs1 as [->| ->]).
  assert (Hi1 : s1.(f_inodes) = s.(f_inodes)) by (by destruct Hs1 as [->| ->]).
  assert (Hok1 : fs_ok s1) by (apply (fs_ok_shape s); [done|done|rewrite Hi1; apply (fo_inodes _ Hok)]).
  destruct (fo_refs _ Hok p pn Hn) as [Hin _]. destruct (get_inode_in s _ Hok Hin) as (px' & Epx & Hpxok).
  rewrite Hx in Epx. injection Epx as <-.
  destruct (bump_links_ok px Hpxok) as [Hb Hbok]; [unfold MAX_LINKS in *; lia|].
  assert (Hin1 : ino_in s1 pn.(n_inode)) by (by apply (ino_in_shape s); [apply Hsh1|]).
  assert (Hx1 : get_inode s1 pn.(n_inode) = Some px) by (unfold get_inode in *; by rewrite Hi1).
  destruct (upd_inode_in s1 pn.(n_inode) bump_links px _ Hok1 Hin1 Hx1 Hb Hbok) as (s2 & E2 & Es2 & Hok2 & Hsh2).
  set (c := Inode.set_links_count 2 c0).
  rewrite (bind_ok _ _ _ (c, []) s2).
  2:{ by rewrite (bind_ok _ _ _ _ _ (updates_ok _ _ _ E2)). }
  assert (Hsh : same_shape s s2) by (by eapply same_shape_trans).
  assert (Hc : inode_ok c) by (apply inode_ok_links; [done|unfold uint; lia]).
  assert (Hz : zlen s2.(f_inodes) = zlen s.(f_inodes)) by (unfold zlen; by rewrite (proj2 Hsh)).
  destruct (register_ok s2 q x p c [] Hok2 Hqx Hc) as (s' & E & Ha);
    [by rewrite Hz|by rewrite (proj1 Hsh)..|].
  exists s', c. split; [exact E|]. split; [|split; [|split; [done|split]]].
  - apply (created_shape _ _ s2); [done|]. eapply attached_created; [done|by rewrite Hz| | |exact Ha]; done.
  - unfold c. simpl. rewrite Hm. by destruct uid, gid.
  - rewrite (at_disk _ _ _ _ Ha), Es2. by destruct Hs1 as [->| ->].
  - intros m Hm'. unfold get_inode at 1. rewrite (at_inodes _ _ _ _ Ha).
    assert (Hm2 : ino_in s2 m) by (by apply (ino_in_shape s); [apply Hsh|]).
    pose proof (get_inode_push s2 c m Hok2 Hm2) as Hg. unfold get_inode at 1 in Hg. rewrite Hg.
    rewrite Es2. rewrite get_inode_set; [|apply (fo_count _ Hok1)|done|by apply (ino_in_shape s); [apply Hsh1|]].
    case_decide; [done|]. unfold get_inode. by rewrite Hi1.
Qed.

Lemma is_dir_perm perm : 0 <= perm < 0x1000 -> Constants.is_dir (make_mode file_mode.S_IFDIR perm) = true.
Proof.
  intros Hp. unfold Constants.is_dir. rewrite land_make_mode_type; [done|done|]. by apply perm_type_mask.
Qed.

Lemma created_open q s s' c : created q s s' c -> Inode.is_dir c = true -> c.(Inode.links_count) < MAX_LINKS ->
  open_dir s' q /\ forall x, name_ok x -> walk s'.(f_tree) 0%nat (q ++ [x]) = Some None.
Proof.
  intros [H1 (i & n & Hw & Hn & Hi & Hl & Hc) H3 H4 H5 H6] Hd Hlt. split.
  - exists i, n, c. split; [|done]. split; try done. by rewrite Hi.
  - intros x Hx. rewrite walk_app, Hw. cbn [mbind option_bind]. rewrite walk_step by done.
    unfold get_node in Hn. rewrite Hn. cbn [mbind option_bind]. by rewrite Hc.
Qed.

Lemma prefix_of_snoc {A} (p q : list A) x : p `prefix_of` q -> p `prefix_of` q ++ [x].
Proof. intros [k ->]. exists (k ++ [x]). by rewrite app_assoc. Qed.

(** [mkdir -p] as the recursion of [create] does it. *)
Lemma mkdirs clock q : forall fuel s, (length q < fuel)%nat -> fs_ok s -> Forall valid_name q ->
  zlen s.(f_inodes) + zlen q < 2 ^ 32 ->
  (forall p i, p `prefix_of` q -> walk s.(f_tree) 0%nat p = Some (Some i) -> open_dir s p) ->
  exists s', create clock fuel (abs_path q) (make_mode file_mode.S_IFDIR 0x1ED) None None None None None None s = (Ok tt, s') /\
    fs_ok s' /\ open_dir s' q /\ zlen s'.(f_inodes) <= zlen s.(f_inodes) + zlen q /\
    (forall r i, walk s.(f_tree) 0%nat r = Some (Some i) -> walk s'.(f_tree) 0%nat r = Some (Some i)) /\
    (walk s.(f_tree) 0%nat q = Some None -> forall x, name_ok x -> walk s'.(f_tree) 0%nat (q ++ [x]) = Some None) /\
    (walk s.(f_tree) 0%nat q <> Some None -> s' = s) /\ s'.(f_disk) = s.(f_disk).
Proof.
  set (dmode := make_mode _ _). assert (Hdm : Constants.is_dir dmode = true) by done.
  induction q as [|x q IH] using rev_ind; intros [|fuel] s Hfuel Hok Hv Hlen Hpre; try lia; cbn [create];
    pose proof (valid_names_ok _ Hv) as Hq;
    (rewrite (bind_ok _ _ _ tt s) by (unfold try; by rewrite validate_ok)).
  - destruct (Hpre [] 0%nat) as (idx & node & y & Hd & Hy); [done|done|].
    rewrite (bind_ok _ _ _ _ _ (create_existing_dir s [] dmode Hok Hq ltac:(by exists idx, node, y) Hdm clock)).
    exists s. split; [done|]. split; [done|]. split; [by exists idx, node, y|]. split; [unfold zlen; simpl; lia|].
    split; [done|]. split; [|by split]. intros E. done.
  - destruct (walk_some s (q ++ [x]) Hok) as (r & Hr & _). destruct r as [idx|].
    + pose proof (Hpre (q ++ [x]) idx (reflexivity _) Hr) as Hopen.
      rewrite (bind_ok _ _ _ _ _ (create_existing_dir s _ dmode Hok Hq Hopen Hdm clock)).
      exists s. split; [done|]. split; [done|]. split; [done|]. split; [pose proof (zlen_nonneg (q ++ [x])); lia|].
      split; [done|]. split; [intros E; congruence|by split].
    + rewrite (bind_ok _ _ _ _ _ (create_absent s _ dmode None None Hok Hq Hr clock)).
      rewrite length_app in Hfuel. simpl in Hfuel. rewrite zlen_snoc in *.
      apply Forall_app in Hv as [Hvq Hvx]. destruct (parent_basename_root q x Hq) as [Hpar _]. rewrite Hpar.
      rewrite bool_decide_eq_false_2.
      2:{ by apply abs_path_ne. }
      destruct (IH fuel s) as (s1 & E1 & Hok1 & (p & pn & px & Hdir & Hmax) & Hlen1 & Hw1 & Hnew & Hsame & Hdisk1); [lia|done|done|lia| |].
      { intros p i Hp. apply Hpre. by apply prefix_of_snoc. }
      rewrite (bind_ok _ _ _ _ _ E1).
      assert (Hnone : walk s1.(f_tree) 0%nat (q ++ [x]) = Some None).
      { destruct (walk_some s q Hok) as (r & Hrq & _). destruct r as [i|]; [rewrite Hsame by congruence; done|].
        apply Hnew; [done|]. apply Forall_app in Hq as [_ Hx]. by rewrite Forall_singleton in Hx. }
      destruct (create_entry_dir clock s1 q x p pn px dmode None None None Hok1 Hq Hdir Hmax Hnone) as (s' & c & E & Hc & Hcm & Hcl & Hcd & _);
        [lia|done|].
      exists s'. split; [exact E|]. split; [apply Hc|].
      destruct (created_open _ _ _ _ Hc) as [Hopen Hempty]; [unfold Inode.is_dir; by rewrite Hcm|rewrite Hcl; done|].
      split; [done|]. split; [rewrite (cr_count _ _ _ _ Hc); lia|]. split; [intros r i Hri; by apply (cr_walk _ _ _ _ Hc), Hw1|].
      split; [done|]. split; [intros Hne; by destruct Hne|]. congruence.
Qed.

(** [create] of an absent entry makes the parents, then the entry. *)
Lemma length_abs_path q : (length q <= length (abs_path q))%nat.
Proof.
  induction q as [|x q IH] using rev_ind; [simpl; lia|]. rewrite abs_path_snoc, !length_app. simpl.
  destruct q as [|y q]; [simpl; lia|]. rewrite bool_decide_eq_false_2 by done. lia.
Qed.

Lemma create_unfold clock fuel path mode lnk ts data uid gid xattrs :
  create clock (S fuel) path mode lnk ts data uid gid xattrs =
    (_ <~ try (validate_path_component_names path) ;;
     settled <~ create_existing clock path mode uid gid ;;
     if (settled : bool) then ret tt
     else
       let parent_path := parent_of path in
       _ <~ (if bool_decide (parent_path = path) then ret tt
             else create clock fuel parent_path (make_mode file_mode.S_IFDIR 0x1ED) None None None None None None) ;;
       create_entry clock path parent_path mode lnk ts data uid gid xattrs).
Proof. reflexivity. Qed.

Lemma create_absent_path clock s q x mode lnk ts data uid gid xattrs :
  fs_ok s -> Forall valid_name (q ++ [x]) -> zlen s.(f_inodes) + zlen q < 2 ^ 32 ->
  (forall p i, p `prefix_of` q -> walk s.(f_tree) 0%nat p = Some (Some i) -> open_dir s p) ->
  walk s.(f_tree) 0%nat (q ++ [x]) = Some None ->
  exists s1, create_path clock (abs_path (q ++ [x])) mode lnk ts data uid gid xattrs s =
      create_entry clock (abs_path (q ++ [x])) (abs_path q) mode lnk ts data uid gid xattrs s1 /\
    fs_ok s1 /\ open_dir s1 q /\ walk s1.(f_tree) 0%nat (q ++ [x]) = Some None /\
    zlen s1.(f_inodes) <= zlen s.(f_inodes) + zlen q /\ s1.(f_disk) = s.(f_disk) /\
    forall r i, walk s.(f_tree) 0%nat r = Some (Some i) -> walk s1.(f_tree) 0%nat r = Some (Some i).
Proof.
  intros Hok Hv Hlen Hpre Hnone. pose proof (valid_names_ok _ Hv) as Hq. unfold create_path. rewrite create_unfold.
  rewrite (bind_ok _ _ _ tt s) by (unfold try; by rewrite validate_ok).
  rewrite (bind_ok _ _ _ _ _ (create_absent s _ mode uid gid Hok Hq Hnone clock)).
  destruct (parent_basename_root q x Hq) as [Hpar _]. cbv beta iota zeta. rewrite Hpar.
  rewrite bool_decide_eq_false_2 by (by apply abs_path_ne).
  destruct (mkdirs clock q (S (length (abs_path (q ++ [x])))) s) as (s1 & E1 & Hok1 & Hopen & Hlen1 & Hw1 & Hnew & Hsame & Hdisk);
    [|done|by apply Forall_app in Hv as [? _]|done|done|].
  { pose proof (length_abs_path (q ++ [x])). rewrite length_app in H. simpl in H. lia. }
  exists s1. rewrite (bind_ok _ _ _ _ _ E1). split; [done|]. split; [done|]. split; [done|]. split; [|done].
  destruct (walk_some s q Hok) as (r & Hrq & _). destruct r as [i|]; [rewrite Hsame by congruence; done|].
  apply Hnew; [done|]. apply Forall_app in Hq as [_ Hx]. by rewrite Forall_singleton in Hx.
Qed.

(** ** Properties *)

(** C7 link_atomic: A hard link that is refused (missing target or parent, a directory as the
    target, a full parent, a name that is too long) leaves the formatter exactly
    as it was; in particular no link count has changed. *)
Theorem link_atomic clock link_path target_path s e s' :
  link clock link_path target_path s = (Err e, s') -> s' = s.
Proof. apply link_clean. Qed.

(** A hard link to a file under a free name adds one to the file's link count,
    touches no other inode, makes the new path resolve to a node for the same
    inode, and leaves every path that resolved as it was. *)
Theorem link_counts clock s q x p pn px tq ti tn ty :
  fs_ok s -> Forall valid_name (q ++ [x]) -> Forall name_ok tq ->
  lookup s.(f_tree) (abs_path q) = Some (Some p) -> get_node s p = Some pn ->
  get_inode s pn.(n_inode) = Some px -> px.(Inode.links_count) < MAX_LINKS ->
  lookup s.(f_tree) (abs_path (q ++ [x])) = Some None ->
  lookup s.(f_tree) (abs_path tq) = Some (Some ti) -> get_node s ti = Some tn ->
  get_inode s tn.(n_inode) = Some ty -> Inode.is_dir ty = false -> ty.(Inode.links_count) < 2 ^ 16 - 1 ->
  exists s' idx node, link clock (abs_path (q ++ [x])) (abs_path tq) s = (Ok tt, s') /\ fs_ok s' /\
    lookup s'.(f_tree) (abs_path (q ++ [x])) = Some (Some idx) /\ get_node s' idx = Some node /\
    node.(n_link) = Some tn.(n_inode) /\
    s'.(f_inodes) = <[Z.to_nat (tn.(n_inode) - 1) := Inode.set_links_count (ty.(Inode.links_count) + 1) ty]> s.(f_inodes) /\
    forall path i, lookup s.(f_tree) path = Some (Some i) -> lookup s'.(f_tree) path = Some (Some i).
Proof.
  intros Hok Hv Htq Hp Hpn Hpx Hmax Hnone Ht Htn Hty Hd Hlt. pose proof (valid_names_ok _ Hv) as Hqx.
  pose proof (proj1 (proj1 (Forall_app _ _ _) Hqx)) as Hq. rewrite lookup_walk in Hp, Hnone, Ht by done.
  destruct (link_ok clock s q x p pn px tq ti tn ty) as (s' & E & [Hok' (i & Hi & n & Hn & _ & Hl & _) Hw _ Hin _]); try done.
  exists s', i, n. split; [done|]. split; [done|]. split; [by rewrite lookup_walk|]. split; [done|]. split; [done|].
  split; [by rewrite Hin|]. intros path j. unfold lookup.
  rewrite (tw_root _ (to_wf _ (fo_tree _ Hok))), (tw_root _ (to_wf _ (fo_tree _ Hok'))). apply Hw.
Qed.

(** Creating a directory creates the missing parents, succeeds, gives an empty
    directory with the requested mode, keeps every path that resolved, touches no
    data block, and doing it again without an owner changes nothing. *)
Theorem mkdir_p clock s q x perm ts uid gid :
  fs_ok s -> Forall valid_name (q ++ [x]) -> zlen s.(f_inodes) + zlen q + 1 < 2 ^ 32 -> 0 <= perm < 0x1000 ->
  (forall p i, p `prefix_of` q -> lookup s.(f_tree) (abs_path p) = Some (Some i) -> open_dir s p) ->
  lookup s.(f_tree) (abs_path (q ++ [x])) = Some None ->
  let path := abs_path (q ++ [x]) in
  let mode := make_mode file_mode.S_IFDIR perm in
  exists s' idx node c, create_path clock path mode None ts None uid gid None s = (Ok tt, s') /\ fs_ok s' /\
    dir_at s' (q ++ [x]) idx node c /\ c.(Inode.mode) = mode /\ list_dir s' path = Some [] /\
    s'.(f_disk) = s.(f_disk) /\
    (forall r i, Forall name_ok r -> lookup s.(f_tree) (abs_path r) = Some (Some i) ->
       lookup s'.(f_tree) (abs_path r) = Some (Some i)) /\
    create_path clock path mode None ts None None None None s' = (Ok tt, s').
Proof.
  intros Hok Hv Hlen Hperm Hpre Hnone path mode. pose proof (valid_names_ok _ Hv) as Hqx.
  pose proof (proj1 (proj1 (Forall_app _ _ _) Hqx)) as Hq. rewrite lookup_walk in Hnone by done.
  pose proof (is_dir_perm perm Hperm) as Hmode. fold mode in Hmode. pose proof (zlen_nonneg q).
  destruct (create_absent_path clock s q x mode None ts None uid gid None Hok Hv) as
    (s1 & E0 & Hok1 & (p & pn & px & Hdir & Hmax) & Hnone1 & Hlen1 & Hdisk1 & Hw1); [lia| |done|].
  { intros p i Hp Hi. apply (Hpre p i); [done|]. rewrite lookup_walk; [done|done|].
    destruct Hp as [k ->]. by apply Forall_app in Hq as [? _]. }
  destruct (create_entry_dir clock s1 q x p pn px mode ts uid gid Hok1 Hqx Hdir Hmax Hnone1) as
    (s' & c & E & Hc & Hcm & Hcl & Hcd & _); [lia|done|].
  assert (Hd : Inode.is_dir c = true) by (unfold Inode.is_dir; by rewrite Hcm).
  pose proof Hc as [Hok' (i & n & Hi & Hn & Hni & Hnl & Hnc) Hino _ Hw' _].
  exists s', i, n, c. split; [unfold path; by rewrite E0|]. split; [done|]. split; [split; try done; by rewrite Hni|]. split; [done|].
  split; [|split; [congruence|split]].
  - unfold list_dir, path. rewrite lookup_walk by done. rewrite Hi. cbn [mbind option_bind]. rewrite Hn.
    cbn [mbind option_bind]. unfold names_of. by rewrite Hnc.
  - intros r j Hr. rewrite !lookup_walk by done. intros Hj. by apply Hw', Hw1.
  - unfold create_path. rewrite create_unfold. rewrite (bind_ok _ _ _ tt s') by (unfold try, path; by rewrite validate_ok).
    destruct (created_open _ _ _ _ Hc Hd) as [Hopen _]; [by rewrite Hcl|].
    by rewrite (bind_ok _ _ _ _ _ (create_existing_dir s' _ mode Hok' Hqx Hopen Hmode clock)).
Qed.

(** [set_permissions] replaces the twelve permission bits of the
    inode its path's node names and keeps its type bits and every other inode;
    a path that does not resolve is an error and changes nothing. *)
Theorem set_permissions_spec s q mode :
  fs_ok s -> Forall name_ok q ->
  (lookup s.(f_tree) (abs_path q) = Some None /\ set_permissions (abs_path q) mode s = (Err (NotFound (abs_path q)), s)) \/
  exists idx node y s', lookup s.(f_tree) (abs_path q) = Some (Some idx) /\ get_node s idx = Some node /\
    get_inode s node.(n_inode) = Some y /\ set_permissions (abs_path q) mode s = (Ok tt, s') /\ fs_ok s' /\
    s'.(f_tree) = s.(f_tree) /\
    exists m, s'.(f_inodes) = <[Z.to_nat (node.(n_inode) - 1) := Inode.set_mode m y]> s.(f_inodes) /\
      Z.land m file_mode.TYPE_MASK = Z.land y.(Inode.mode) file_mode.TYPE_MASK /\
      Z.land m 0xFFF = Z.land mode 0xFFF.
Proof.
  intros Hok Hq. rewrite lookup_walk by done. destruct (walk_some s q Hok) as (r & Hr & _). destruct r as [idx|].
  2:{ left. split; [done|]. unfold set_permissions, bind. by rewrite lookup_missing. }
  right. destruct (walk_some_1 s q idx Hok Hr) as [node Hn]. destruct (fo_refs _ Hok idx node Hn) as [Hin _].
  destruct (get_inode_in s _ Hok Hin) as (y & Hy & Hyok).
  unfold set_permissions. rewrite (bind_ok _ _ _ _ _ (lookup_found s q idx Hok Hq Hr)).
  rewrite (bind_reads _ _ _ node) by done.
  destruct (upd_inode_in s node.(n_inode)
              (fun inode => Some (Inode.set_mode (Z.lor (Z.land inode.(Inode.mode) file_mode.TYPE_MASK)
                 (Z.land mode (Z.lxor file_mode.TYPE_MASK 0xFFFF))) inode)) y _ Hok Hin Hy eq_refl)
    as (s' & E & Es & Hok' & [Ht _]); [done|].
  exists idx, node, y, s'. split; [done|]. split; [done|]. split; [done|]. split; [by apply updates_ok|].
  split; [done|]. split; [done|]. eexists. split; [by rewrite Es|]. change (Z.lxor file_mode.TYPE_MASK 65535) with 0xFFF.
  rewrite !Z.land_lor_distr_l, <- !Z.land_assoc.
  change (Z.land 0xFFF file_mode.TYPE_MASK) with 0. change (Z.land file_mode.TYPE_MASK 0xFFF) with 0.
  change (Z.land 0xFFF 0xFFF) with 0xFFF. change (Z.land file_mode.TYPE_MASK file_mode.TYPE_MASK) with file_mode.TYPE_MASK.
  rewrite !Z.land_0_r, Z.lor_0_r. by rewrite Z.lor_0_l.
Qed.

(** ** Witnesses *)

Lemma sample_valid_names (l : list string) :
  forallb (fun x => name_okb (bstr x) && (zlen (bstr x) <=? 255)) l = true -> Forall valid_name (bstr <$> l).
Proof.
  intros H. apply Forall_fmap, Forall_forall. intros x Hx. pose proof (forallb_In _ _ x H Hx) as Hv. cbv beta in Hv.
  apply andb_true_iff in Hv as [H1 H2]. split; [by apply name_ok_literal|by apply Z.leb_le].
Qed.

Lemma link_atomic_witness : (link sample_clock (bstr "/x") (bstr "/a") sample_fs).2 = sample_fs.
Proof.
  apply (link_atomic sample_clock (bstr "/x") (bstr "/a") sample_fs (CannotHardlinkDirectory (bstr "/a"))).
  assert (H : (link sample_clock (bstr "/x") (bstr "/a") sample_fs).1 = Err (CannotHardlinkDirectory (bstr "/a")))
    by (vm_compute; reflexivity).
  rewrite <- H. apply surjective_pairing.
Defined.

Lemma link_counts_witness :
  exists s' idx node, link sample_clock (abs_path ([bstr "a"] ++ [bstr "h"])) (abs_path [bstr "a"; bstr "b"; bstr "f"]) sample_fs
      = (Ok tt, s') /\ fs_ok s' /\
    lookup s'.(f_tree) (abs_path ([bstr "a"] ++ [bstr "h"])) = Some (Some idx) /\ get_node s' idx = Some node /\
    node.(n_link) = Some (node_at sample_fs "/a/b/f").(n_inode) /\
    s'.(f_inodes) = <[Z.to_nat ((node_at sample_fs "/a/b/f").(n_inode) - 1) :=
      Inode.set_links_count ((inode_at sample_fs "/a/b/f").(Inode.links_count) + 1) (inode_at sample_fs "/a/b/f")]>
      sample_fs.(f_inodes) /\
    forall path i, lookup sample_fs.(f_tree) path = Some (Some i) -> lookup s'.(f_tree) path = Some (Some i).
Proof.
  apply (link_counts sample_clock sample_fs [bstr "a"] (bstr "h") 2 (node_at sample_fs "/a") (inode_at sample_fs "/a")
           [bstr "a"; bstr "b"; bstr "f"] 4 (node_at sample_fs "/a/b/f") (inode_at sample_fs "/a/b/f"));
    [exact sample_fs_ok|by apply (sample_valid_names ["a"; "h"]%string)|
     by apply valid_names_ok, (sample_valid_names ["a"; "b"; "f"]%string)|vm_compute; reflexivity..].
Defined.

Lemma root_open : open_dir sample_fs [].
Proof.
  exists 0%nat, (node_at sample_fs "/"), (inode_at sample_fs "/"). split; [|vm_compute; reflexivity].
  split; vm_compute; reflexivity.
Qed.

Lemma prefix_of_single {A} (p : list A) y : p `prefix_of` [y] -> p = [] \/ p = [y].
Proof. intros [k E]. destruct p as [|z [|w p]]; simplify_eq/=; auto. Qed.

Lemma mkdir_p_witness :
  let path := abs_path ([bstr "srv"] ++ [bstr "www"]) in
  let mode := make_mode file_mode.S_IFDIR 0x1ED in
  exists s' idx node c, create_path sample_clock path mode None None None (Some 5) None None sample_fs = (Ok tt, s') /\ fs_ok s' /\
    dir_at s' ([bstr "srv"] ++ [bstr "www"]) idx node c /\ c.(Inode.mode) = mode /\ list_dir s' path = Some [] /\
    s'.(f_disk) = sample_fs.(f_disk) /\
    (forall r i, Forall name_ok r -> lookup sample_fs.(f_tree) (abs_path r) = Some (Some i) ->
       lookup s'.(f_tree) (abs_path r) = Some (Some i)) /\
    create_path sample_clock path mode None None None None None None s' = (Ok tt, s').
Proof.
  apply (mkdir_p sample_clock sample_fs [bstr "srv"] (bstr "www") 0x1ED None (Some 5) None);
    [exact sample_fs_ok|by apply (sample_valid_names ["srv"; "www"]%string)|vm_compute; reflexivity|lia| |vm_compute; reflexivity].
  intros p i [->| ->]%prefix_of_single Hl; [exact root_open|]. vm_compute in Hl. discriminate.
Defined.

Lemma set_permissions_spec_witness :
  (lookup sample_fs.(f_tree) (abs_path [bstr "a"]) = Some None /\
     set_permissions (abs_path [bstr "a"]) 0x1C0 sample_fs = (Err (NotFound (abs_path [bstr "a"])), sample_fs)) \/
  exists idx node y s', lookup sample_fs.(f_tree) (abs_path [bstr "a"]) = Some (Some idx) /\ get_node sample_fs idx = Some node /\
    get_inode sample_fs node.(n_inode) = Some y /\ set_permissions (abs_path [bstr "a"]) 0x1C0 sample_fs = (Ok tt, s') /\ fs_ok s' /\
    s'.(f_tree) = sample_fs.(f_tree) /\
    exists m, s'.(f_inodes) = <[Z.to_nat (node.(n_inode) - 1) := Inode.set_mode m y]> sample_fs.(f_inodes) /\
      Z.land m file_mode.TYPE_MASK = Z.land y.(Inode.mode) file_mode.TYPE_MASK /\
      Z.land m 0xFFF = Z.land 0x1C0 0xFFF.
Proof.
  apply (set_permissions_spec sample_fs [bstr "a"] 0x1C0); [exact sample_fs_ok|].
  by apply valid_names_ok, (sample_valid_names ["a"]%string).
Defined.
