(* ===== verification/CreateSpec.v ===== *)
(** * Creating a regular file

    The whole path of [create] for a regular file under an existing directory:
    payload placement, extent tree, inode and tree node, and the proof that the
    resulting image holds the file's bytes where the inode's extents say. *)

From stdpp Require Import base list list_numbers option numbers strings gmap.
From S2P Require Import Prelude Bytes Utf8 Errors Constants DiskTypes Image Extent Xattr Geometry Paths FileTree Formatter UnlinkSpec FormatterSpec.

(** ** The disk part *)

(** The formatter's cursor and size while files are being written. *)
Record disk_ok (d : disk) : Prop := {
  dk_bs : d.(d_block_size) = 4096;
  dk_size : size_ok d.(d_size);
  dk_pos : 0 <= d.(d_pos) }.

(** [data] lies in the blocks of [ranges] below the cursor, which is aligned; what
    was written before [p0] is still there. *)
Record stored (f0 : buffer) (p0 : Z) (d : disk) (ranges : list BlockRange) (data : buffer) : Prop := {
  st_ok : disk_ok d;
  st_align : d.(d_pos) mod 4096 = 0;
  st_pos : Forall range_pos ranges;
  st_ranges : Forall range_ok ranges;
  st_sum : zsum (size_of <$> ranges) = div_ceil (zlen data) 4096;
  st_nodup : NoDup (flat ranges);
  st_keep : p0 <= d.(d_pos) /\ forall p, 0 <= p < p0 -> byte_at d.(d_file) p = byte_at f0 p;
  st_data : forall k, 0 <= k < zlen data ->
    0 <= addr (flat ranges) k < d.(d_pos) /\ zlookup data k = Some (byte_at d.(d_file) (addr (flat ranges) k)) }.

Lemma zlen_range_blocks r : range_pos r -> zlen (range_blocks r) = size_of r.
Proof. intros [H1 H2]. unfold zlen, range_blocks, size_of. rewrite length_seqZ. lia. Qed.

Lemma zlen_flat ranges : Forall range_pos ranges -> zlen (flat ranges) = zsum (size_of <$> ranges).
Proof.
  induction 1 as [|r ranges Hr _ IH]; [done|]. unfold flat in *. cbn [fmap list_fmap concat].
  rewrite zlen_app, IH, zlen_range_blocks by done. done.
Qed.

Lemma ranges_below ranges bound : Forall range_pos ranges -> bound <= 2 ^ 32 - 1 ->
  (forall b, b ∈ flat ranges -> b < bound) -> Forall range_ok ranges.
Proof.
  intros Hp Hb Hbelow. apply Forall_forall. intros r Hr.
  pose proof (proj1 (Forall_forall _ _) Hp r Hr) as [H1 H2].
  assert (Hin : r.(br_end) - 1 ∈ flat ranges).
  { unfold flat. apply list_elem_of_In, in_concat. exists (range_blocks r). split.
    - apply list_elem_of_In, list_elem_of_fmap. by exists r.
    - apply list_elem_of_In. unfold range_blocks, size_of. apply elem_of_seqZ. lia. }
  apply Hbelow in Hin. unfold range_ok. lia.
Qed.

(** Aligning a finished payload. *)
Lemma stored_of_inv f0 p0 s d ranges data : payload_inv f0 p0 s d ranges data ->
  exists p, align_to_block d = Some (seek_to d p) /\ d.(d_pos) <= p < d.(d_pos) + 4096 /\
    stored f0 p0 (seek_to d p) ranges data.
Proof.
  intros [Hbs Hpos [Hp0 Hkeep] [Hsz _] Hr Hlen _ Hbelow Hnd _ Hdata].
  destruct (align_to_block_spec d Hbs Hpos) as (p & E & Hp). exists p. split; [done|].
  pose proof (div_ceil_bounds (d_pos d) 4096 ltac:(lia) ltac:(lia)) as Hdc.
  split; [lia|]. split; simpl.
  - by split; simpl; [| |lia].
  - rewrite Hp. apply Z_mod_mult.
  - done.
  - apply (ranges_below _ (div_ceil (d_pos d) 4096)); [done|lia|done].
  - rewrite <- zlen_flat by done. pose proof (Z.mod_pos_bound (- d_pos d) 4096 ltac:(lia)).
    unfold div_ceil. apply Z.div_unique with (4095 - (- d_pos d) mod 4096); lia.
  - done.
  - split; [lia|done].
  - intros k Hk. destruct (Hdata k Hk). split; [lia|done].
Qed.

(** [write_data]: the payload of a regular file. *)
Lemma write_data_ok s chunks : disk_ok s.(f_disk) -> Forall (fun c => c <> []) chunks ->
  zlen (concat chunks) <= MAX_FILE_SIZE ->
  s.(f_disk).(d_pos) + 1026 * (zlen (concat chunks) + 4096 * zlen chunks + 4096) <= 2 ^ 44 - 2 ^ 24 ->
  exists d ranges, write_data chunks s = (Ok (zlen (concat chunks), ranges), set_disk d s) /\
    d.(d_pos) <= 2 ^ 44 - 2 ^ 23 /\
    stored s.(f_disk).(d_file) s.(f_disk).(d_pos) d ranges (concat chunks).
Proof.
  intros [Hbs Hsz Hpos] Hne Hmax Hroom. pose proof (zlen_nonneg (concat chunks)). pose proof (zlen_nonneg chunks).
  set (d0 := s.(f_disk)) in *. unfold write_data.
  destruct (align_to_block_spec d0 Hbs) as (p1 & E1 & Hp1); [lia|].
  pose proof (div_ceil_bounds (d_pos d0) 4096 ltac:(lia) ltac:(lia)).
  rewrite (bind_ok _ _ _ tt (set_disk (seek_to d0 p1) s)) by (apply updates_ok; fold d0; by rewrite E1).
  destruct (skip_aligned (seek_to d0 p1) (p1 / 4096)) as (e & E2 & He & _ & _); [done|done|..].
  { unfold uint. split; [apply Z.div_pos; lia|]. apply Z.div_lt_upper_bound; lia. }
  { simpl. rewrite Hp1, Z.div_mul by lia. done. }
  rewrite Hp1, Z.div_mul in He by lia.
  set (d1 := seek_to (seek_to d0 p1) (e * 4096)) in *.
  rewrite (bind_ok _ _ _ tt (set_disk d1 s)) by (apply updates_ok; simpl; by rewrite E2).
  assert (Hinv : payload_inv (d_file d0) (d_pos d0) (d_size d0) d1 [] []).
  { apply (payload_inv_start (d_file d0) (d_pos d0) d1); try done; simpl; [lia|lia|apply Z_mod_mult]. }
  destruct (write_from_reader_spec (d_file d0) (d_pos d0) (d_size d0) chunks d1 [] [] (2 ^ 44 - 2 ^ 24) Hinv Hne)
    as (d2 & ranges & E3 & Hinv2 & Hp2); [lia|simpl; lia|rewrite zlen_nil; lia|].
  rewrite (bind_ok _ _ _ (zlen (concat chunks), ranges) (set_disk d2 s)).
  2:{ simpl f_disk. rewrite zlen_nil in E3. rewrite E3. done. }
  rewrite app_nil_l in Hinv2. destruct (stored_of_inv _ _ _ _ _ _ Hinv2) as (p3 & E4 & Hp3 & Hst).
  rewrite (bind_ok _ _ _ tt (set_disk (seek_to d2 p3) s)) by (apply updates_ok; simpl; by rewrite E4).
  exists (seek_to d2 p3), ranges. split; [done|]. split; [simpl; lia|done].
Qed.

(** ** Extents *)

(** The inode's extents, read from the image, are the blocks of the ranges, and
    the data is still in place. *)
Record readable (f0 : buffer) (p0 : Z) (d : disk) (inode : Inode.t) (data : buffer) : Prop := {
  rd_ok : disk_ok d;
  rd_keep : forall p, 0 <= p < p0 -> byte_at d.(d_file) p = byte_at f0 p;
  rd_data : exists rs, parse_extents inode 4096 d.(d_file) = Ok rs /\
    zlen (concat (parsed_blocks <$> rs)) = div_ceil (zlen data) 4096 /\
    forall k, 0 <= k < zlen data ->
      zlookup data k = Some (byte_at d.(d_file) (addr (concat (parsed_blocks <$> rs)) k)) }.

Lemma parse_no_extents inode f : inode.(Inode.block) = Inode.default.(Inode.block) ->
  parse_extents inode 4096 f = Ok [].
Proof. intros H. unfold parse_extents. rewrite H. vm_compute. reflexivity. Qed.

Lemma write_extents_none inode f cur : write_extents inode [] 4096 f cur = Some (inode, f, cur).
Proof. done. Qed.

Lemma emit_extents_ok f0 p0 s inode ranges data : stored f0 p0 s.(f_disk) ranges data ->
  s.(f_disk).(d_pos) <= 2 ^ 44 - 2 ^ 23 -> div_ceil (zlen data) 4096 <= 1360 ->
  (data = [] -> ranges = []) ->
  inode.(Inode.block) = Inode.default.(Inode.block) -> 0 <= inode.(Inode.blocks_lo) <= 8 ->
  exists inode' d, emit_extents inode ranges s = (Ok inode', set_disk d s) /\ readable f0 p0 d inode' data.
Proof.
  intros [[Hbs Hsz Hpos] Hal Hrp Hr Hsum Hnd [Hp0 Hkeep] Hdata] Hmax Hn Hemp Hblk Hlo.
  set (d0 := s.(f_disk)) in *. unfold emit_extents. set (b := d_pos d0 / 4096).
  assert (Hb : d_pos d0 = b * 4096) by (unfold b; pose proof (Z.div_mod (d_pos d0) 4096); lia).
  assert (Hb' : 0 <= b < 2 ^ 32 - 2000) by lia.
  destruct (skip_aligned d0 b Hbs Hsz) as (e & E1 & He & He32 & _); [unfold uint; lia|done|].
  rewrite (bind_ok _ _ _ tt (set_disk (seek_to d0 (e * 4096)) s)) by (apply updates_ok; fold d0; by rewrite E1).
  cbn [f_disk set_disk seek_to d_pos d_block_size d_file d_size current_block].
  unfold current_block. simpl. rewrite Hbs, Z.div_mul by lia. rewrite wrap_id by done.
  destruct (decide (data = [])) as [Hd|Hd].
  - rewrite (Hemp Hd), write_extents_none, Z.eqb_refl. do 2 eexists. split; [done|]. subst data. split; simpl.
    + split; [done|done|]. simpl. lia.
    + intros p Hp. by apply Hkeep.
    + exists []. split; [by apply parse_no_extents|]. split; [done|]. unfold zlen. simpl. lia.
  - assert (Hpos' : 0 < zlen data) by (destruct data; [done|rewrite zlen_cons; pose proof (zlen_nonneg data); lia]).
    pose proof (div_ceil_bounds (zlen data) 4096 ltac:(lia) ltac:(lia)).
    pose proof (extents_sum_bounds ranges Hr).
    destruct (write_extents_spec inode ranges 4096 (d_file d0) e) as (inode' & f' & cur' & E & (rs & Hrs & Hflat) & Hcur & _ & Hpres);
      rewrite ?Hsum; change (4 * ((4096 - 16) / 12)) with 1360; change (4096 / 512) with 8; [done|lia..|].
    rewrite E. do 2 eexists. split; [done|]. split; simpl.
    + split; [done|done|]. simpl. case_match; lia.
    + intros p Hp. rewrite Hpres by lia. by apply Hkeep.
    + exists rs. split; [done|]. rewrite Hflat. fold (flat ranges). split.
      * by rewrite zlen_flat.
      * intros k Hk. destruct (Hdata k Hk) as [Haddr ->]. f_equal. symmetry. apply Hpres; lia.
Qed.

(** What writing extents leaves of an inode. *)
Record same_meta (x y : Inode.t) : Prop := {
  sm_mode : y.(Inode.mode) = x.(Inode.mode);
  sm_links : y.(Inode.links_count) = x.(Inode.links_count);
  sm_size : Inode.file_size y = Inode.file_size x;
  sm_uid : Inode.uid_full y = Inode.uid_full x;
  sm_gid : Inode.gid_full y = Inode.gid_full x;
  sm_xattr : y.(Inode.xattr_block_lo) = x.(Inode.xattr_block_lo) }.

Lemma same_meta_refl x : same_meta x x.
Proof. by split. Qed.

Lemma add_blocks_meta x n bs y b : add_inode_blocks (Inode.set_block b x) n bs = Some y -> same_meta x (mark_extents y).
Proof.
  unfold add_inode_blocks. intros H. case_match; simpl in H;
    [|destruct (umul _ _ _); simpl in H; [|done]]; (destruct (uadd _ _ _); simpl in H; [|done]); injection H as <-; by split.
Qed.

Lemma write_extents_meta x blocks bs f cur y f' cur' :
  write_extents x blocks bs f cur = Some (y, f', cur') -> same_meta x y.
Proof.
  unfold write_extents. destruct (mapM range_len blocks) as [lens|]; cbn [mbind option_bind]; [|done].
  destruct (sum_u32 lens 0) as [n|]; cbn [mbind option_bind]; [|done].
  case_match; [intros [= -> _ _]; apply same_meta_refl|].
  destruct (fill_extent_leaves_from_ranges blocks) as [ls|]; cbn [mbind option_bind]; [|done].
  case_match.
  - unfold write_inline_extents. destruct (with_slice _ _ _ _) as [b1|]; cbn [mbind option_bind]; [|done].
    destruct (write_table _ _ _ _ b1) as [b2|]; cbn [mbind option_bind]; [|done].
    destruct (add_inode_blocks _ _ _) as [z|] eqn:E; cbn [mbind option_bind]; [|done]. intros [= <- _ _].
    by eapply add_blocks_meta.
  - unfold write_indexed_extents. destruct (leaves_per_block bs) as [lpb|]; cbn [mbind option_bind]; [|done].
    destruct (if wrap 32 lpb =? 0 then _ else _) as [k|]; cbn [mbind option_bind]; [|done].
    destruct (debug_assert _); cbn [mbind option_bind]; [|done].
    destruct (mapM _ (seqZ 0 k)) as [ix|]; cbn [mbind option_bind]; [|done].
    destruct (with_slice _ _ _ _) as [b1|]; cbn [mbind option_bind]; [|done].
    destruct (write_table _ _ _ _ b1) as [b2|]; cbn [mbind option_bind]; [|done].
    destruct (write_leaf_blocks _ _ _ _ _ _ _) as [st|]; cbn [mbind option_bind]; [|done].
    destruct (uadd _ _ _) as [tot|]; cbn [mbind option_bind]; [|done].
    destruct (add_inode_blocks _ _ _) as [z|] eqn:E; cbn [mbind option_bind]; [|done]. intros [= <- _ _].
    by eapply add_blocks_meta.
Qed.

Lemma emit_extents_meta x ranges s y s' : emit_extents x ranges s = (Ok y, s') -> same_meta x y.
Proof.
  unfold emit_extents, bind, on_disk, updates.
  destruct (skip_reserved_metadata_blocks _) as [d|]; simpl; [|done].
  destruct (write_extents _ _ _ _ _) as [[[z f] c]|] eqn:E; [|done]. intros [= <- _]. by eapply write_extents_meta.
Qed.

(** ** The whole operation *)

Lemma create_entry_reg clock s q x p pn px mode ts chunks uid gid :
  fs_ok s -> Forall name_ok (q ++ [x]) -> dir_at s q p pn px -> px.(Inode.links_count) < MAX_LINKS ->
  walk s.(f_tree) 0%nat (q ++ [x]) = Some None -> zlen s.(f_inodes) + 1 < 2 ^ 32 ->
  Constants.is_dir mode = false -> is_reg mode = true ->
  disk_ok s.(f_disk) -> Forall (fun c => c <> []) chunks -> zlen (concat chunks) <= 1360 * 4096 ->
  s.(f_disk).(d_pos) + 1026 * (zlen (concat chunks) + 4096 * zlen chunks + 4096) <= 2 ^ 44 - 2 ^ 24 ->
  exists s' c, create_entry clock (abs_path (q ++ [x])) (abs_path q) mode None ts (Some chunks) uid gid None s = (Ok tt, s') /\
    created (q ++ [x]) s s' c /\ c.(Inode.mode) = mode /\ c.(Inode.links_count) = 1 /\
    Inode.file_size c = zlen (concat chunks) /\
    readable s.(f_disk).(d_file) s.(f_disk).(d_pos) s'.(f_disk) c (concat chunks).
Proof.
  intros Hok Hqx [Hw Hn Hl Hx Hd] Hmax Hnone Hlen Hmode Hreg Hdisk Hne Hsize Hroom.
  pose proof (zlen_nonneg (concat chunks)).
  pose proof (proj1 (proj1 (Forall_app _ _ _) Hqx)) as Hq.
  unfold create_entry. rewrite (bind_ok _ _ _ _ _ (lookup_found s q p Hok Hq Hw)).
  rewrite (bind_reads _ _ _ pn), (bind_reads _ _ _ px) by done.
  destruct (Z.leb_spec MAX_LINKS px.(Inode.links_count)); [lia|].
  rewrite (bind_ok _ _ _ (child_inode mode uid gid px) s) by done.
  destruct (timestamps_ok clock _ ts s (child_inode_ok mode uid gid px)) as (c0 & s1 & E1 & Hs1 & Hm & Hl0 & Hc0 & Hlo & Hblk).
  rewrite (bind_ok _ _ _ _ _ E1). rewrite Hmode, Hreg.
  assert (Hsh1 : same_shape s s1) by (by destruct Hs1 as [->| ->]).
  assert (Hi1 : s1.(f_inodes) = s.(f_inodes) /\ s1.(f_disk) = s.(f_disk)) by (by destruct Hs1 as [->| ->]).
  destruct Hi1 as [Hi1 Hd1].
  assert (Hok1 : fs_ok s1) by (apply (fs_ok_shape s); [done|done|rewrite Hi1; apply (fo_inodes _ Hok)]).
  destruct (write_data_ok s1 chunks) as (d2 & ranges & E2 & Hp2 & Hst); rewrite ?Hd1; [done|done|unfold MAX_FILE_SIZE; lia|done|].
  rewrite Hd1 in Hst. set (s2 := set_disk d2 s1) in *.
  set (c1 := Inode.set_file_size (zlen (concat chunks)) c0).
  destruct (emit_extents_ok _ _ s2 c1 ranges (concat chunks) Hst Hp2) as (c & d3 & E3 & Hrd).
  { pose proof (div_ceil_bounds (zlen (concat chunks)) 4096 ltac:(lia) ltac:(lia)). lia. }
  { intros He. pose proof (st_sum _ _ _ _ _ Hst) as Hs. rewrite He in Hs. change (div_ceil (zlen []) 4096) with 0 in Hs.
    pose proof (st_pos _ _ _ _ _ Hst) as Hrp. destruct ranges as [|r rs]; [done|].
    apply Forall_cons_1 in Hrp as [[? ?] Hrs]. pose proof (zlen_nonneg (flat rs)) as Hf.
    rewrite zlen_flat in Hf by done. rewrite fmap_cons, zsum_cons in Hs. unfold size_of in *. lia. }
  { unfold c1. simpl. rewrite Hblk. by destruct uid, gid. }
  { unfold c1. simpl. rewrite Hlo. destruct uid, gid; simpl; lia. }
  pose proof (emit_extents_meta _ _ _ _ _ E3) as Hmeta.
  rewrite (bind_ok _ _ _ (c, ranges) (set_disk d3 s2)).
  2:{ unfold create_regular. rewrite (bind_ok _ _ _ _ _ E2). cbn [fst snd]. fold c1. by rewrite (bind_ok _ _ _ _ _ E3). }
  set (s3 := set_disk d3 s2) in *.
  assert (Hsh : same_shape s s3) by done.
  assert (Hok3 : fs_ok s3) by (apply (fs_ok_shape s1); [done|done|apply (fo_inodes _ Hok1)]).
  assert (Hc : inode_ok c).
  { destruct Hmeta as [_ Hml _ _ _ Hmx]. unfold inode_ok. rewrite Hml, Hmx. unfold c1. simpl. exact Hc0. }
  assert (Hz : zlen s3.(f_inodes) = zlen s.(f_inodes)) by (unfold zlen; by rewrite (proj2 Hsh)).
  destruct (register_ok s3 q x p c ranges Hok3 Hqx Hc) as (s' & E & Ha);
    [by rewrite Hz|by rewrite (proj1 Hsh)..|].
  exists s', c. split; [exact E|]. destruct Hmeta as [Hmm Hml Hms _ _ _]. split; [|split; [|split; [|split]]].
  - apply (created_shape _ _ s3); [done|]. eapply attached_created; [done|by rewrite Hz| | |exact Ha]; done.
  - rewrite Hmm. unfold c1. simpl. rewrite Hm. by destruct uid, gid.
  - rewrite Hml. unfold c1. simpl. done.
  - rewrite Hms. apply Inode.set_file_size_spec. unfold uint. lia.
  - by rewrite (at_disk _ _ _ _ Ha).
Qed.

(** ** Property *)

(** C5 create_file: Creating a regular file under a free path makes missing parents, succeeds,
    and afterwards the path resolves to an inode of the requested mode with one
    link and the file's size, whose extents, parsed from the image, are exactly
    the blocks the size needs, with byte [k] of the contents at the address they
    give it.  Nothing of the image in front of the old cursor has changed and
    every path that resolved still does.  (Files up to 1360 blocks: one extent
    per block would still fit the four leaf blocks; without extended attributes; where a parent
    exists, it is a directory that can take another entry; within 2^32 inodes and 2^44 bytes.) *)
Theorem create_file clock s q x mode ts chunks uid gid :
  fs_ok s -> disk_ok s.(f_disk) -> Forall valid_name (q ++ [x]) -> zlen s.(f_inodes) + zlen q + 1 < 2 ^ 32 ->
  (forall p i, p `prefix_of` q -> lookup s.(f_tree) (abs_path p) = Some (Some i) -> open_dir s p) ->
  lookup s.(f_tree) (abs_path (q ++ [x])) = Some None ->
  Constants.is_dir mode = false -> is_reg mode = true ->
  Forall (fun c => c <> []) chunks -> zlen (concat chunks) <= 1360 * 4096 ->
  s.(f_disk).(d_pos) + 1026 * (zlen (concat chunks) + 4096 * zlen chunks + 4096) <= 2 ^ 44 - 2 ^ 24 ->
  exists s' idx node c,
    create_path clock (abs_path (q ++ [x])) mode None ts (Some chunks) uid gid None s = (Ok tt, s') /\
    fs_ok s' /\ lookup s'.(f_tree) (abs_path (q ++ [x])) = Some (Some idx) /\ get_node s' idx = Some node /\
    get_inode s' node.(n_inode) = Some c /\ c.(Inode.mode) = mode /\ c.(Inode.links_count) = 1 /\
    Inode.file_size c = zlen (concat chunks) /\
    readable s.(f_disk).(d_file) s.(f_disk).(d_pos) s'.(f_disk) c (concat chunks) /\
    forall r i, Forall name_ok r -> lookup s.(f_tree) (abs_path r) = Some (Some i) ->
      lookup s'.(f_tree) (abs_path r) = Some (Some i).
Proof.
  intros Hok Hdisk Hv Hlen Hpre Hnone Hmode Hreg Hne Hsize Hroom. pose proof (valid_names_ok _ Hv) as Hqx.
  pose proof (proj1 (proj1 (Forall_app _ _ _) Hqx)) as Hq. rewrite lookup_walk in Hnone by done.
  destruct (create_absent_path clock s q x mode None ts (Some chunks) uid gid None Hok Hv) as
    (s1 & -> & Hok1 & (p & pn & px & Hdir & Hmax) & Hnone1 & Hlen1 & Hdisk1 & Hw1); [lia| |done|].
  { intros p i Hp Hi. apply (Hpre p i); [done|]. rewrite lookup_walk; [done|done|].
    destruct Hp as [k ->]. by apply Forall_app in Hq as [? _]. }
  destruct (create_entry_reg clock s1 q x p pn px mode ts chunks uid gid Hok1 Hqx Hdir Hmax Hnone1) as
    (s' & c & E & Hc & Hcm & Hcl & Hcs & Hrd); try (by rewrite ?Hdisk1); [lia|].
  destruct Hc as [Hok' (i & n & Hi & Hn & Hni & Hnl & Hnc) Hino _ Hw' _]. rewrite Hdisk1 in Hrd.
  exists s', i, n, c. split; [done|]. split; [done|]. split; [by rewrite lookup_walk|]. split; [done|].
  split; [by rewrite Hni|]. do 4 (split; [done|]). intros r j Hr. rewrite !lookup_walk by done. intros Hj. by apply Hw', Hw1.
Qed.

Lemma create_file_witness :
  exists s' idx node c,
    create_path sample_clock (abs_path ([bstr "a"] ++ [bstr "n"])) REG None None (Some [[1; 2; 3]; replicate 4096 9]) None None None sample_fs = (Ok tt, s') /\
    fs_ok s' /\ lookup s'.(f_tree) (abs_path ([bstr "a"] ++ [bstr "n"])) = Some (Some idx) /\ get_node s' idx = Some node /\
    get_inode s' node.(n_inode) = Some c /\ c.(Inode.mode) = REG /\ c.(Inode.links_count) = 1 /\
    Inode.file_size c = 4099 /\
    readable sample_fs.(f_disk).(d_file) sample_fs.(f_disk).(d_pos) s'.(f_disk) c (concat [[1; 2; 3]; replicate 4096 9]) /\
    forall r i, Forall name_ok r -> lookup sample_fs.(f_tree) (abs_path r) = Some (Some i) ->
      lookup s'.(f_tree) (abs_path r) = Some (Some i).
Proof.
  apply (create_file sample_clock sample_fs [bstr "a"] (bstr "n") REG None [[1; 2; 3]; replicate 4096 9] None None);
    [exact sample_fs_ok|split; vm_compute; (reflexivity || (intros ?; discriminate) || (split; (reflexivity || (intros ?; discriminate))))|
     by apply (sample_valid_names ["a"; "n"]%string)|vm_compute; reflexivity| |vm_compute; reflexivity..|
     by repeat constructor|vm_compute; intros ?; discriminate|vm_compute; intros ?; discriminate].
  intros p i [->| ->]%prefix_of_single Hl; [exact root_open|].
  exists 2%nat, (node_at sample_fs "/a"), (inode_at sample_fs "/a"). split; [|vm_compute; reflexivity].
  split; vm_compute; reflexivity.
Defined.
