(* ===== verification/Close.v ===== *)
(** * Closing the formatter

    [Formatter::close] and its helpers ([common/ext4/src/formatter.rs]): directory
    blocks, the resize inode, the layout of block groups, the inode table, bitmaps,
    group descriptors and superblocks.  The stages of [close] are definitions of their
    own, composed at the end the way the method runs them. *)

From stdpp Require Import base list list_numbers option numbers strings gmap sorting.
From S2P Require Import Prelude Bytes Utf8 Errors Constants SuperBlock DiskTypes Checksum Dir Image Extent Geometry Paths FileTree Bitmaps Formatter.

Definition RESIZE_INODE_NUMBER : Z := 7.
Definition EXT2_DIND_BLOCK : Z := 13.
Definition EXT2_NDIR_BLOCKS : Z := 12.

(** A computation that may panic. *)
Definition must {A} (o : option A) : M A := fun s => (lift o, s).

(** [self.file.write_all(bs)]: unlike [write_here], [size] stays as it is. *)
Definition write_all (bs : buffer) : M unit :=
  on_disk (fun d => Some (mk_disk (file_write d.(d_file) d.(d_pos) bs) (d.(d_pos) + zlen bs) d.(d_block_size) d.(d_size))).
Definition seek_block (block : Z) : M unit := on_disk (fun d => seek_to_block d block).

(** [self.size = n; self.file.set_len(n)] when [self.size < n] *)
Definition grow_to (n : Z) : M unit :=
  updates (fun s => let d := s.(f_disk) in
    Some (if d.(d_size) <? n then set_disk (mk_disk (set_len d.(d_file) n) d.(d_pos) d.(d_block_size) n) s else s)).

(** A value threaded through the turns of a loop. *)
Fixpoint fold_each {A S} (l : list A) (f : A -> S -> M S) (x : S) : M S :=
  match l with
  | [] => ret x
  | a :: l => x <~ f a x ;; fold_each l f x
  end.

(** ** Directories *)

(** The queue loop of [commit_directories]: pairs of a parent and a node. *)
Fixpoint bfs (fuel : nat) (t : FileTree) (queue : list (option nat * nat)) : option (list (option nat * nat)) :=
  match queue with
  | [] => Some []
  | (parent, node) :: queue =>
      match fuel with
      | O => None
      | S fuel =>
          n ← t.(t_nodes) !! node;
          let more := match n.(n_link) with
                      | Some _ => []
                      | None => (fun child => (Some node, child)) <$> n.(n_children)
                      end in
          rest ← bfs fuel t (queue ++ more); Some ((parent, node) :: rest)
      end
  end.

(** A node is in the queue once, so as many turns as there are nodes do. *)
Definition bfs_order (t : FileTree) : option (list (option nat * nat)) :=
  bfs (length t.(t_nodes)) t [(None, t.(t_root))].

(** [sort_by_key] on the inode number *)
Definition sort_by_key {A} (l : list (Z * A)) : list (Z * A) := sort_by (fun x y => x.1 <=? y.1) l.

(** The entry of one child, if its inode has links. *)
Definition child_entry (s : Formatter) (node : FileTreeNode) : option (option dirent) :=
  let child_ino := node.(n_inode) in
  match node.(n_link) with
  | Some linked_ino =>
      linked ← get_inode s linked_ino;
      if linked.(Inode.links_count) =? 0 then Some None
      else own ← get_inode s (Z.max child_ino 1);
           Some (Some (mk_dirent node.(n_name) child_ino own.(Inode.mode) (Some (linked_ino, linked.(Inode.mode)))))
  | None =>
      child ← get_inode s child_ino;
      if child.(Inode.links_count) =? 0 then Some None
      else own ← get_inode s (Z.max child_ino 1);
           Some (Some (mk_dirent node.(n_name) child_ino own.(Inode.mode) None))
  end.

(** The entries of a directory: [.], [..] and the children by inode number. *)
Definition dir_entries (s : Formatter) (parent_opt : option nat) (node : FileTreeNode) : option (list dirent) :=
  let inode_num := node.(n_inode) in
  inode ← get_inode s inode_num;
  parent_ino ← match parent_opt with
               | Some pidx => p ← get_node s pidx; Some p.(n_inode)
               | None => Some inode_num
               end;
  parent_inode ← get_inode s parent_ino;
  children ← mapM (fun ci => c ← get_node s ci; Some (c.(n_inode), c)) node.(n_children);
  entries ← mapM (child_entry s) (snd <$> sort_by_key children);
  Some (mk_dirent (bstr ".") inode_num inode.(Inode.mode) None ::
        mk_dirent (bstr "..") parent_ino parent_inode.(Inode.mode) None :: omap id entries).

Definition upd_node (idx : nat) (g : FileTreeNode -> FileTreeNode) (s : Formatter) : option Formatter :=
  n ← get_node s idx;
  Some (set_tree (mk_tree (<[idx := g n]> s.(f_tree).(t_nodes)) s.(f_tree).(t_root)) s).

(** One turn of the second loop of [commit_directories]. *)
Definition commit_directory (e : option nat * nat) : M unit :=
  let '(parent_opt, node_idx) := e in
  node <~ reads (fun s => get_node s node_idx) ;;
  let inode_num := node.(n_inode) in
  inode <~ reads (fun s => get_inode s inode_num) ;;
  if (inode.(Inode.links_count) =? 0) || bool_decide (is_Some node.(n_link)) || negb (Inode.is_dir inode) then ret tt
  else
    block_size <~ reads (fun s => Some s.(f_disk).(d_block_size)) ;;
    entries <~ reads (fun s => dir_entries s parent_opt node) ;;
    st <~ must (write_entries [] block_size block_size entries) ;;
    let dir_buf := st.1 in
    ranges <~ write_aligned dir_buf ;;
    _ <~ updates (upd_inode inode_num (fun x => Some (Inode.set_file_size (zlen dir_buf) x))) ;;
    _ <~ updates (upd_node node_idx (fun n => assign_node_ranges n ranges)) ;;
    inode <~ reads (fun s => get_inode s inode_num) ;;
    inode <~ emit_extents inode ranges ;;
    updates (upd_inode inode_num (fun _ => Some inode)).

(** [fn commit_directories] *)
Definition commit_directories : M unit :=
  order <~ reads (fun s => bfs_order s.(f_tree)) ;;
  for_each order commit_directory.

(** ** The inode table *)

(** The loop that serialises the inodes, through one buffer. *)
Fixpoint write_inodes (inode_buf : buffer) (inodes : list Inode.t) : M unit :=
  match inodes with
  | [] => ret tt
  | inode :: inodes =>
      inode_buf <~ must (Inode.write_to inode inode_buf) ;;
      _ <~ write_all inode_buf ;;
      write_inodes inode_buf inodes
  end.

(** [fn commit_inode_table] *)
Definition commit_inode_table (block_groups inodes_per_group : Z) : M Z :=
  _ <~ on_disk align_to_block ;;
  block_size <~ reads (fun s => Some s.(f_disk).(d_block_size)) ;;
  inode_table_offset <~ reads (fun s => Some (s.(f_disk).(d_pos) / block_size)) ;;
  inodes <~ reads (fun s => Some s.(f_inodes)) ;;
  _ <~ write_inodes (replicate (Z.to_nat Inode.SIZE) 0) inodes ;;
  table_size <~ must (n ← umul 64 INODE_SIZE block_groups; umul 64 n inodes_per_group) ;;
  written <~ must (umul 64 (zlen inodes) INODE_SIZE) ;;
  rest <~ must (usub 64 table_size written) ;;
  _ <~ (if 0 <? rest then
          let zero_block := replicate (Z.to_nat block_size) 0 in
          _ <~ for_each (replicate (Z.to_nat (rest / block_size)) zero_block) write_all ;;
          let remainder := rest mod block_size in
          if 0 <? remainder then write_all (replicate (Z.to_nat remainder) 0) else ret tt
        else ret tt) ;;
  ret inode_table_offset.

(** ** The resize inode *)

(** [fn allocate_resize_inode_dind_block] *)
Definition allocate_resize_inode_dind_block : M Z :=
  block_size <~ reads (fun s => Some s.(f_disk).(d_block_size)) ;;
  ranges <~ write_aligned (replicate (Z.to_nat block_size) 0) ;;
  match ranges with
  | range :: _ => ret range.(br_start)
  | [] => throw InsufficientSpaceForGroupDescriptorBlocks
  end.

(** The inode [configure_resize_inode] installs. *)
Definition resize_inode (now : Z * Z) (block_size dind_block reserved_gdt_blocks backup_group_count : Z) : option Inode.t :=
  let addr_per_block := block_size / 4 in
  sq ← umul 64 addr_per_block addr_per_block;
  n ← uadd 64 sq addr_per_block;
  n ← uadd 64 n EXT2_NDIR_BLOCKS;
  inode_size ← umul 64 n block_size;
  c ← uadd 32 1 backup_group_count;
  o ← umul 32 reserved_gdt_blocks c;
  owned_blocks ← uadd 32 1 o;
  let inode := Inode.set_extra_isize EXTRA_ISIZE (Inode.set_times now now now now
                 (Inode.set_links_count 1 (Inode.set_mode (Z.lor file_mode.S_IFREG 0x180) Inode.default))) in
  blocks_lo ← umul 32 owned_blocks (block_size / 512);
  let inode := Inode.set_blocks_lo blocks_lo (Inode.set_file_size inode_size inode) in
  block ← put_bytes inode.(Inode.block) (EXT2_DIND_BLOCK * 4) (to_le_bytes 4 dind_block);
  Some (Inode.set_block block inode).

(** The filter over the range of groups. *)
Fixpoint filter_groups (groups : list Z) : option (list Z) :=
  match groups with
  | [] => Some []
  | group :: groups =>
      b ← has_sparse_super_backup group;
      gs ← filter_groups groups;
      Some (if (b : bool) then group :: gs else gs)
  end.

(** [fn backup_groups] *)
Definition backup_groups (total_groups : Z) : option (list Z) := filter_groups (seqZ 1 (total_groups - 1)).

(** The pointers of one reserved descriptor block: one per backup group. *)
Fixpoint put_backups (gdt_buf : buffer) (idx gdt_blk blocks_per_group : Z) (groups : list Z) : option buffer :=
  match groups with
  | [] => Some gdt_buf
  | group :: groups =>
      g ← umul 32 group blocks_per_group;
      backup_gdt_block ← uadd 32 gdt_blk g;
      gdt_buf ← put_bytes gdt_buf (idx * 4) (to_le_bytes 4 backup_gdt_block);
      put_backups gdt_buf (idx + 1) gdt_blk blocks_per_group groups
  end.

(** [fn write_resize_inode_blocks] *)
Definition write_resize_inode_blocks (dind_block descriptor_blocks reserved_gdt_blocks : Z) (backup_groups : list Z) : M unit :=
  block_size <~ reads (fun s => Some s.(f_disk).(d_block_size)) ;;
  bpg <~ must (blocks_per_group block_size) ;;
  dind_buf <~ fold_each (seqZ 0 reserved_gdt_blocks) (fun rsv_off dind_buf =>
    gdt_blk <~ must (n ← uadd 32 1 descriptor_blocks; uadd 32 n rsv_off) ;;
    dind_index <~ must (uadd 32 descriptor_blocks rsv_off) ;;
    dind_buf <~ must (put_bytes dind_buf (dind_index * 4) (to_le_bytes 4 gdt_blk)) ;;
    gdt_buf <~ must (put_backups (replicate (Z.to_nat block_size) 0) 0 gdt_blk bpg backup_groups) ;;
    _ <~ seek_block gdt_blk ;;
    _ <~ write_all gdt_buf ;;
    ret dind_buf) (replicate (Z.to_nat block_size) 0) ;;
  _ <~ seek_block dind_block ;;
  _ <~ write_all dind_buf ;;
  next <~ must (uadd 32 dind_block 1) ;;
  seek_block next.

(** ** The layout of block groups *)

(** The closure [group_count] of [optimize_block_group_layout]. *)
Definition groups_needed (block_size blocks inodes ipg : Z) : option Z :=
  n ← umul 32 ipg INODE_SIZE;
  let inode_blocks_per_group := n / block_size in
  bpg ← blocks_per_group block_size;
  n ← usub 32 bpg inode_blocks_per_group;
  data_blocks_per_group ← usub 32 n 2;
  n ← umul 32 (Z.max 0 (inodes - 1) / ipg) data_blocks_per_group;
  min_blocks ← uadd 32 n 1;
  let effective_blocks := Z.max blocks min_blocks in
  if data_blocks_per_group =? 0 then None
  else Some ((effective_blocks + data_blocks_per_group - 1) / data_blocks_per_group).

(** The loop over multiples of [inc]: [best] is [(best_groups, best_ipg)]. *)
Fixpoint layout_loop (fuel : nat) (block_size blocks inodes inc ipg : Z) (best : Z * Z) : option (Z * Z) :=
  match fuel with
  | O => None
  | S fuel =>
      max ← max_inodes_per_group block_size;
      if ipg <=? max then
        g ← groups_needed block_size blocks inodes ipg;
        layout_loop fuel block_size blocks inodes inc (ipg + inc) (if g <? best.1 then (g, ipg) else best)
      else Some best
  end.

(** [fn optimize_block_group_layout]: [max_inodes_per_group] is four times [inc]. *)
Definition optimize_block_group_layout (block_size blocks inodes : Z) : option (Z * Z) :=
  n ← umul 32 block_size 512;
  let inc := n / INODE_SIZE in
  layout_loop 5 block_size blocks inodes inc inc (2 ^ 32 - 1, inc).

(** What step 3 of [close] settles. *)
Record plan := mk_plan {
  p_groups : Z; p_ipg : Z; p_table : Z; p_table_per_group : Z; p_data_size : Z }.

(** The arithmetic of step 3, for the block the inode table starts at. *)
Definition plan_layout (block_size table block_groups inodes_per_group : Z) : option plan :=
  n ← umul 32 inodes_per_group INODE_SIZE;
  let inode_table_size_per_group := n / block_size in
  inode_table_blocks ← umul 32 block_groups inode_table_size_per_group;
  bitmap_offset ← uadd 32 (wrap 32 table) inode_table_blocks;
  bitmap_size ← umul 32 block_groups 2;
  data_size ← uadd 32 bitmap_offset bitmap_size;
  Some (mk_plan block_groups inodes_per_group table inode_table_size_per_group data_size).

(** [minimum_disk_size] *)
Definition minimum_disk_size (bpg block_groups : Z) : option Z :=
  if block_groups =? 1 then Some bpg
  else n ← usub 32 block_groups 1; n ← umul 32 n bpg; uadd 32 n 1.

(** Step 3 of [close], up to the number of groups of the whole disk. *)
Definition lay_out : M (plan * Z) :=
  _ <~ updates (fun s => let d := s.(f_disk) in
         Some (set_disk (mk_disk d.(d_file) d.(d_pos) d.(d_block_size) (Z.max d.(d_size) (zlen d.(d_file)))) s)) ;;
  block_size <~ reads (fun s => Some s.(f_disk).(d_block_size)) ;;
  current_blk <~ reads (fun s => Some (current_block s.(f_disk))) ;;
  inode_count <~ reads (fun s => Some (wrap 32 (zlen s.(f_inodes)))) ;;
  best <~ must (optimize_block_group_layout block_size current_blk inode_count) ;;
  _ <~ on_disk align_to_block ;;
  table <~ reads (fun s => Some (current_block s.(f_disk))) ;;
  p <~ must (plan_layout block_size table best.1 best.2) ;;
  bpg <~ must (blocks_per_group block_size) ;;
  minimum <~ must (n ← minimum_disk_size bpg p.(p_groups); umul 64 n block_size) ;;
  _ <~ grow_to minimum ;;
  min_size <~ must (n ← usub 64 p.(p_data_size) 1; min_groups ← uadd 64 (n / bpg) 1;
                    n ← umul 64 min_groups bpg; umul 64 n block_size) ;;
  _ <~ grow_to min_size ;;
  size <~ reads (fun s => Some s.(f_disk).(d_size)) ;;
  total_groups <~ must (n ← usub 64 (size / block_size) 1; uadd 64 (n / bpg) 1) ;;
  full_size <~ must (n ← umul 64 total_groups bpg; umul 64 n block_size) ;;
  _ <~ grow_to full_size ;;
  ret (p, wrap 32 total_groups).

(** ** Bitmaps and group descriptors *)

(** The totals [close] keeps: descriptors so far, used blocks, used inodes. *)
Record totals := mk_totals { t_gds : list GroupDescriptor.t; t_blocks : Z; t_used_inodes : Z }.

(** The descriptor of a group that holds data. *)
Definition data_descriptor (p : plan) (bpg bitmap_offset group used_blocks : Z) (im : inode_marks) : option GroupDescriptor.t :=
  let free_blocks := if used_blocks <=? bpg then bpg - used_blocks else 0 in
  free_inodes ← usub 32 p.(p_ipg) im.(im_used);
  itable_unused ← usub 32 p.(p_ipg) im.(im_last);
  n ← umul 32 2 group;
  block_bitmap_lo ← uadd 32 bitmap_offset n;
  inode_bitmap_lo ← uadd 32 block_bitmap_lo 1;
  n ← umul 32 group p.(p_table_per_group);
  inode_table_lo ← uadd 32 (wrap 32 p.(p_table)) n;
  Some {| GroupDescriptor.block_bitmap_lo := block_bitmap_lo; GroupDescriptor.inode_bitmap_lo := inode_bitmap_lo;
          GroupDescriptor.inode_table_lo := inode_table_lo; GroupDescriptor.free_blocks_count_lo := wrap 16 free_blocks;
          GroupDescriptor.free_inodes_count_lo := wrap 16 free_inodes; GroupDescriptor.used_dirs_count_lo := wrap 16 im.(im_dirs);
          GroupDescriptor.flags := 0; GroupDescriptor.exclude_bitmap_lo := 0; GroupDescriptor.block_bitmap_csum_lo := 0;
          GroupDescriptor.inode_bitmap_csum_lo := 0; GroupDescriptor.itable_unused_lo := wrap 16 itable_unused;
          GroupDescriptor.checksum := 0 |}.

(** One turn of the loop over the groups that contain data. *)
Definition write_data_group (p : plan) (bitmap_offset group : Z) (t : totals) : M totals :=
  d <~ reads (fun s => Some s.(f_disk)) ;;
  bpg <~ must (blocks_per_group d.(d_block_size)) ;;
  metadata_blocks <~ must (static_metadata_blocks_in_group d.(d_block_size) d.(d_size) group) ;;
  deleted <~ reads (fun s => Some s.(f_deleted)) ;;
  inodes <~ reads (fun s => Some s.(f_inodes)) ;;
  bm <~ must (block_bitmap d.(d_block_size) bpg group p.(p_data_size) metadata_blocks deleted) ;;
  im <~ must (inode_bitmap d.(d_block_size) inodes group p.(p_ipg)) ;;
  _ <~ write_all (bm.1 ++ im.(im_bitmap)) ;;
  gd <~ must (data_descriptor p bpg bitmap_offset group bm.2 im) ;;
  blocks <~ must (uadd 32 t.(t_blocks) bm.2) ;;
  used_inodes <~ must (uadd 32 t.(t_used_inodes) im.(im_used)) ;;
  ret (mk_totals (t.(t_gds) ++ [gd]) blocks used_inodes).

(** [empty_inode_bitmap] *)
Definition empty_inode_bitmap (bpg inodes_per_group : Z) : option buffer :=
  for_range (Z.to_nat (wrap 16 inodes_per_group)) 0 (fun i bm => clear_bit bm i) (replicate (Z.to_nat (bpg / 8)) 0xFF).

(** The block bitmap of a group without data: [lo] used blocks, and the blocks past
    the end of the disk in the last group. *)
Definition empty_block_bitmap (bpg used blocks_in_group : Z) (last_group : bool) : option buffer :=
  bm ← for_range (Z.to_nat used) 0 (fun i bm => set_bit bm i) (replicate (Z.to_nat (bpg / 8)) 0);
  if last_group && (blocks_in_group <? bpg)
  then for_range (Z.to_nat (bpg - blocks_in_group)) blocks_in_group (fun i bm => set_bit bm i) bm
  else Some bm.

(** [blocks_in_group] *)
Definition blocks_in_group (block_size size bpg group total_groups : Z) : option Z :=
  last ← usub 32 total_groups 1;
  Some (if group =? last then let rem := (size / block_size) mod bpg in if rem =? 0 then bpg else wrap 32 rem else bpg).

(** The descriptor of a group without data. *)
Definition empty_descriptor (p : plan) (it_offset bb_offset ib_offset free_blocks_count : Z) (last_group : bool) : GroupDescriptor.t :=
  {| GroupDescriptor.block_bitmap_lo := bb_offset; GroupDescriptor.inode_bitmap_lo := ib_offset;
     GroupDescriptor.inode_table_lo := it_offset; GroupDescriptor.free_blocks_count_lo := wrap 16 free_blocks_count;
     GroupDescriptor.free_inodes_count_lo := wrap 16 p.(p_ipg); GroupDescriptor.used_dirs_count_lo := 0;
     GroupDescriptor.flags := if last_group then bg_flags.INODE_UNINIT else Z.lor bg_flags.INODE_UNINIT bg_flags.BLOCK_UNINIT;
     GroupDescriptor.exclude_bitmap_lo := 0; GroupDescriptor.block_bitmap_csum_lo := 0;
     GroupDescriptor.inode_bitmap_csum_lo := 0; GroupDescriptor.itable_unused_lo := wrap 16 p.(p_ipg);
     GroupDescriptor.checksum := 0 |}.

(** One turn of step 5. *)
Definition write_empty_group (p : plan) (total_groups : Z) (inode_bm : buffer) (group : Z) (t : totals) : M totals :=
  d <~ reads (fun s => Some s.(f_disk)) ;;
  bpg <~ must (blocks_per_group d.(d_block_size)) ;;
  in_group <~ must (blocks_in_group d.(d_block_size) d.(d_size) bpg group total_groups) ;;
  let last_group := group =? total_groups - 1 in
  group_start <~ must (umul 32 group bpg) ;;
  metadata_blocks <~ must (n ← static_metadata_blocks_in_group d.(d_block_size) d.(d_size) group; Some (Z.min n in_group)) ;;
  used_empty_blocks <~ must (n ← uadd 32 metadata_blocks p.(p_table_per_group); uadd 32 n 2) ;;
  it_offset <~ must (uadd 32 group_start metadata_blocks) ;;
  bb_offset <~ must (uadd 32 it_offset p.(p_table_per_group)) ;;
  ib_offset <~ must (uadd 32 bb_offset 1) ;;
  let free_blocks_count := Z.max 0 (in_group - used_empty_blocks) in
  let gd := empty_descriptor p it_offset bb_offset ib_offset free_blocks_count last_group in
  blocks <~ must (uadd 32 t.(t_blocks) (Z.min used_empty_blocks in_group)) ;;
  _ <~ seek_block bb_offset ;;
  bm <~ must (empty_block_bitmap bpg (Z.min used_empty_blocks in_group) in_group last_group) ;;
  _ <~ write_all bm ;;
  _ <~ write_all inode_bm ;;
  ret (mk_totals (t.(t_gds) ++ [gd]) blocks t.(t_used_inodes)).

(** Step 6: the checksums are filled in and the descriptors serialised. *)
Fixpoint put_descriptors (uuid_bytes : buffer) (group_nr : Z) (gds : list GroupDescriptor.t) (buf : buffer) : option buffer :=
  match gds with
  | [] => Some buf
  | gd :: gds =>
      c ← Checksum.group_descriptor uuid_bytes group_nr gd;
      buf ← with_slice buf (group_nr * GroupDescriptor.SIZE) GroupDescriptor.SIZE
              (GroupDescriptor.write_to (GroupDescriptor.set_checksum c gd));
      put_descriptors uuid_bytes (group_nr + 1) gds buf
  end.

(** ** The superblock *)

(** [u32::trailing_zeros] *)
Fixpoint trailing_zeros (w : nat) (n : Z) : Z :=
  match w with
  | O => 0
  | S w => if Z.testbit n 0 then 0 else 1 + trailing_zeros w (Z.shiftr n 1)
  end.

(** The superblock of step 7. *)
Definition superblock (block_size bpg ipg total_groups used_blocks used_inodes reserved_gdt_blocks : Z)
    (uuid_bytes : buffer) (label : option buffer) : option SuperBlock.t :=
  computed_inodes ← umul 64 total_groups ipg;
  blocks_count ← umul 64 total_groups bpg;
  let blocks_count := if blocks_count <? used_blocks then used_blocks else blocks_count in
  let total_free_blocks := Z.max 0 (blocks_count - used_blocks) in
  free_inodes ← usub 32 (wrap 32 computed_inodes) used_inodes;
  let log_bs := trailing_zeros 32 (block_size / 1024) in
  volume_name ← match label with
                | Some bytes => put_bytes (replicate 16 0) 0 bytes
                | None => Some (replicate 16 0)
                end;
  Some {|
  SuperBlock.inodes_count := wrap 32 computed_inodes; SuperBlock.blocks_count_lo := wrap 32 blocks_count;
  SuperBlock.r_blocks_count_lo := 0; SuperBlock.free_blocks_count_lo := wrap 32 total_free_blocks;
  SuperBlock.free_inodes_count := free_inodes; SuperBlock.first_data_block := 0;
  SuperBlock.log_block_size := log_bs; SuperBlock.log_cluster_size := log_bs;
  SuperBlock.blocks_per_group := bpg; SuperBlock.clusters_per_group := bpg; SuperBlock.inodes_per_group := ipg;
  SuperBlock.mtime := 0; SuperBlock.wtime := 0; SuperBlock.mount_count := 0; SuperBlock.max_mount_count := 0;
  SuperBlock.magic := SUPERBLOCK_MAGIC; SuperBlock.state := 1; SuperBlock.errors := 1;
  SuperBlock.minor_rev_level := 0; SuperBlock.lastcheck := 0; SuperBlock.check_interval := 0;
  SuperBlock.creator_os := 0; SuperBlock.rev_level := 1; SuperBlock.def_resuid := 0; SuperBlock.def_resgid := 0;
  SuperBlock.first_ino := FIRST_INODE; SuperBlock.inode_size := wrap 16 INODE_SIZE;
  SuperBlock.block_group_nr := 0; SuperBlock.feature_compat := Z.lor compat.EXT_ATTR compat.RESIZE_INODE;
  SuperBlock.feature_incompat := Z.lor (Z.lor incompat.FILETYPE incompat.EXTENTS) incompat.FLEX_BG;
  SuperBlock.feature_ro_compat := Z.lor (Z.lor (Z.lor (Z.lor ro_compat.LARGE_FILE ro_compat.HUGE_FILE) ro_compat.SPARSE_SUPER) ro_compat.EXTRA_ISIZE) ro_compat.GDT_CSUM;
  SuperBlock.uuid := uuid_bytes; SuperBlock.volume_name := volume_name;
  SuperBlock.last_mounted := replicate 64 0; SuperBlock.algorithm_usage_bitmap := 0;
  SuperBlock.prealloc_blocks := 0; SuperBlock.prealloc_dir_blocks := 0;
  SuperBlock.reserved_gdt_blocks := wrap 16 reserved_gdt_blocks; SuperBlock.journal_uuid := replicate 16 0;
  SuperBlock.journal_inum := 0; SuperBlock.journal_dev := 0; SuperBlock.last_orphan := 0;
  SuperBlock.hash_seed := replicate 4 0; SuperBlock.def_hash_version := 0; SuperBlock.journal_backup_type := 0;
  SuperBlock.desc_size := 0; SuperBlock.default_mount_opts := 0; SuperBlock.first_meta_bg := 0;
  SuperBlock.mkfs_time := 0; SuperBlock.journal_blocks := replicate 17 0;
  SuperBlock.blocks_count_hi := wrap 32 (Z.shiftr blocks_count 32); SuperBlock.r_blocks_count_hi := 0;
  SuperBlock.free_blocks_count_hi := wrap 32 (Z.shiftr total_free_blocks 32);
  SuperBlock.min_extra_isize := EXTRA_ISIZE; SuperBlock.want_extra_isize := EXTRA_ISIZE; SuperBlock.flags := 0;
  SuperBlock.raid_stride := 0; SuperBlock.mmp_interval := 0; SuperBlock.mmp_block := 0;
  SuperBlock.raid_stripe_width := 0; SuperBlock.log_groups_per_flex := 31; SuperBlock.checksum_type := 0;
  SuperBlock.reserved_pad := 0; SuperBlock.kbytes_written := 0; SuperBlock.snapshot_inum := 0;
  SuperBlock.snapshot_id := 0; SuperBlock.snapshot_r_blocks_count := 0; SuperBlock.snapshot_list := 0;
  SuperBlock.error_count := 0; SuperBlock.first_error_time := 0; SuperBlock.first_error_ino := 0;
  SuperBlock.first_error_block := 0; SuperBlock.first_error_func := replicate 32 0;
  SuperBlock.first_error_line := 0; SuperBlock.last_error_time := 0; SuperBlock.last_error_ino := 0;
  SuperBlock.last_error_line := 0; SuperBlock.last_error_block := 0;
  SuperBlock.last_error_func := replicate 32 0; SuperBlock.mount_opts := replicate 64 0;
  SuperBlock.usr_quota_inum := 0; SuperBlock.grp_quota_inum := 0; SuperBlock.overhead_blocks := 0;
  SuperBlock.backup_bgs := replicate 2 0; SuperBlock.encrypt_algos := replicate 4 0;
  SuperBlock.encrypt_pw_salt := replicate 16 0; SuperBlock.lpf_ino := LOST_AND_FOUND_INODE;
  SuperBlock.prj_quota_inum := 0; SuperBlock.checksum_seed := 0; SuperBlock.wtime_hi := 0;
  SuperBlock.mtime_hi := 0; SuperBlock.mkfs_time_hi := 0; SuperBlock.lastcheck_hi := 0;
  SuperBlock.first_error_time_hi := 0; SuperBlock.last_error_time_hi := 0; SuperBlock.pad := replicate 2 0;
  SuperBlock.reserved := replicate 96 0; SuperBlock.checksum := 0 |}.

(** [backup_sb.block_group_nr = nr] *)
Definition with_block_group_nr (nr : Z) (sb : SuperBlock.t) : SuperBlock.t := {|
  SuperBlock.inodes_count := SuperBlock.inodes_count sb;
  SuperBlock.blocks_count_lo := SuperBlock.blocks_count_lo sb;
  SuperBlock.r_blocks_count_lo := SuperBlock.r_blocks_count_lo sb;
  SuperBlock.free_blocks_count_lo := SuperBlock.free_blocks_count_lo sb;
  SuperBlock.free_inodes_count := SuperBlock.free_inodes_count sb;
  SuperBlock.first_data_block := SuperBlock.first_data_block sb;
  SuperBlock.log_block_size := SuperBlock.log_block_size sb;
  SuperBlock.log_cluster_size := SuperBlock.log_cluster_size sb;
  SuperBlock.blocks_per_group := SuperBlock.blocks_per_group sb;
  SuperBlock.clusters_per_group := SuperBlock.clusters_per_group sb;
  SuperBlock.inodes_per_group := SuperBlock.inodes_per_group sb; SuperBlock.mtime := SuperBlock.mtime sb;
  SuperBlock.wtime := SuperBlock.wtime sb; SuperBlock.mount_count := SuperBlock.mount_count sb;
  SuperBlock.max_mount_count := SuperBlock.max_mount_count sb; SuperBlock.magic := SuperBlock.magic sb;
  SuperBlock.state := SuperBlock.state sb; SuperBlock.errors := SuperBlock.errors sb;
  SuperBlock.minor_rev_level := SuperBlock.minor_rev_level sb; SuperBlock.lastcheck := SuperBlock.lastcheck sb;
  SuperBlock.check_interval := SuperBlock.check_interval sb; SuperBlock.creator_os := SuperBlock.creator_os sb;
  SuperBlock.rev_level := SuperBlock.rev_level sb; SuperBlock.def_resuid := SuperBlock.def_resuid sb;
  SuperBlock.def_resgid := SuperBlock.def_resgid sb; SuperBlock.first_ino := SuperBlock.first_ino sb;
  SuperBlock.inode_size := SuperBlock.inode_size sb; SuperBlock.block_group_nr := nr;
  SuperBlock.feature_compat := SuperBlock.feature_compat sb;
  SuperBlock.feature_incompat := SuperBlock.feature_incompat sb;
  SuperBlock.feature_ro_compat := SuperBlock.feature_ro_compat sb; SuperBlock.uuid := SuperBlock.uuid sb;
  SuperBlock.volume_name := SuperBlock.volume_name sb; SuperBlock.last_mounted := SuperBlock.last_mounted sb;
  SuperBlock.algorithm_usage_bitmap := SuperBlock.algorithm_usage_bitmap sb;
  SuperBlock.prealloc_blocks := SuperBlock.prealloc_blocks sb;
  SuperBlock.prealloc_dir_blocks := SuperBlock.prealloc_dir_blocks sb;
  SuperBlock.reserved_gdt_blocks := SuperBlock.reserved_gdt_blocks sb;
  SuperBlock.journal_uuid := SuperBlock.journal_uuid sb; SuperBlock.journal_inum := SuperBlock.journal_inum sb;
  SuperBlock.journal_dev := SuperBlock.journal_dev sb; SuperBlock.last_orphan := SuperBlock.last_orphan sb;
  SuperBlock.hash_seed := SuperBlock.hash_seed sb;
  SuperBlock.def_hash_version := SuperBlock.def_hash_version sb;
  SuperBlock.journal_backup_type := SuperBlock.journal_backup_type sb;
  SuperBlock.desc_size := SuperBlock.desc_size sb;
  SuperBlock.default_mount_opts := SuperBlock.default_mount_opts sb;
  SuperBlock.first_meta_bg := SuperBlock.first_meta_bg sb; SuperBlock.mkfs_time := SuperBlock.mkfs_time sb;
  SuperBlock.journal_blocks := SuperBlock.journal_blocks sb;
  SuperBlock.blocks_count_hi := SuperBlock.blocks_count_hi sb;
  SuperBlock.r_blocks_count_hi := SuperBlock.r_blocks_count_hi sb;
  SuperBlock.free_blocks_count_hi := SuperBlock.free_blocks_count_hi sb;
  SuperBlock.min_extra_isize := SuperBlock.min_extra_isize sb;
  SuperBlock.want_extra_isize := SuperBlock.want_extra_isize sb; SuperBlock.flags := SuperBlock.flags sb;
  SuperBlock.raid_stride := SuperBlock.raid_stride sb; SuperBlock.mmp_interval := SuperBlock.mmp_interval sb;
  SuperBlock.mmp_block := SuperBlock.mmp_block sb;
  SuperBlock.raid_stripe_width := SuperBlock.raid_stripe_width sb;
  SuperBlock.log_groups_per_flex := SuperBlock.log_groups_per_flex sb;
  SuperBlock.checksum_type := SuperBlock.checksum_type sb;
  SuperBlock.reserved_pad := SuperBlock.reserved_pad sb;
  SuperBlock.kbytes_written := SuperBlock.kbytes_written sb;
  SuperBlock.snapshot_inum := SuperBlock.snapshot_inum sb; SuperBlock.snapshot_id := SuperBlock.snapshot_id sb;
  SuperBlock.snapshot_r_blocks_count := SuperBlock.snapshot_r_blocks_count sb;
  SuperBlock.snapshot_list := SuperBlock.snapshot_list sb; SuperBlock.error_count := SuperBlock.error_count sb;
  SuperBlock.first_error_time := SuperBlock.first_error_time sb;
  SuperBlock.first_error_ino := SuperBlock.first_error_ino sb;
  SuperBlock.first_error_block := SuperBlock.first_error_block sb;
  SuperBlock.first_error_func := SuperBlock.first_error_func sb;
  SuperBlock.first_error_line := SuperBlock.first_error_line sb;
  SuperBlock.last_error_time := SuperBlock.last_error_time sb;
  SuperBlock.last_error_ino := SuperBlock.last_error_ino sb;
  SuperBlock.last_error_line := SuperBlock.last_error_line sb;
  SuperBlock.last_error_block := SuperBlock.last_error_block sb;
  SuperBlock.last_error_func := SuperBlock.last_error_func sb;
  SuperBlock.mount_opts := SuperBlock.mount_opts sb; SuperBlock.usr_quota_inum := SuperBlock.usr_quota_inum sb;
  SuperBlock.grp_quota_inum := SuperBlock.grp_quota_inum sb;
  SuperBlock.overhead_blocks := SuperBlock.overhead_blocks sb;
  SuperBlock.backup_bgs := SuperBlock.backup_bgs sb; SuperBlock.encrypt_algos := SuperBlock.encrypt_algos sb;
  SuperBlock.encrypt_pw_salt := SuperBlock.encrypt_pw_salt sb; SuperBlock.lpf_ino := SuperBlock.lpf_ino sb;
  SuperBlock.prj_quota_inum := SuperBlock.prj_quota_inum sb;
  SuperBlock.checksum_seed := SuperBlock.checksum_seed sb; SuperBlock.wtime_hi := SuperBlock.wtime_hi sb;
  SuperBlock.mtime_hi := SuperBlock.mtime_hi sb; SuperBlock.mkfs_time_hi := SuperBlock.mkfs_time_hi sb;
  SuperBlock.lastcheck_hi := SuperBlock.lastcheck_hi sb;
  SuperBlock.first_error_time_hi := SuperBlock.first_error_time_hi sb;
  SuperBlock.last_error_time_hi := SuperBlock.last_error_time_hi sb; SuperBlock.pad := SuperBlock.pad sb;
  SuperBlock.reserved := SuperBlock.reserved sb; SuperBlock.checksum := SuperBlock.checksum sb |}.

(** The copies in the backup groups; [sb_buf] is reused. *)
Fixpoint write_backups (sb : SuperBlock.t) (gd_table_buf sb_buf : buffer) (groups : list Z) : M unit :=
  match groups with
  | [] => ret tt
  | group :: groups =>
      block_size <~ reads (fun s => Some s.(f_disk).(d_block_size)) ;;
      group_start <~ must (bpg ← blocks_per_group block_size; umul 32 group bpg) ;;
      sb_buf <~ must (SuperBlock.write_to (with_block_group_nr (wrap 16 group) sb) sb_buf) ;;
      _ <~ seek_block group_start ;;
      _ <~ write_all sb_buf ;;
      next <~ must (uadd 32 group_start 1) ;;
      _ <~ seek_block next ;;
      _ <~ write_all gd_table_buf ;;
      write_backups sb gd_table_buf sb_buf groups
  end.

(** The writes of steps 6 and 7: descriptor table, superblock, copies. *)
Definition write_tables (sb : SuperBlock.t) (gd_table_buf : buffer) (groups : list Z) : M unit :=
  _ <~ seek_block 1 ;;
  _ <~ write_all gd_table_buf ;;
  _ <~ seek_block 0 ;;
  _ <~ write_all (replicate 1024 0) ;;
  sb_buf <~ must (SuperBlock.write_to sb (replicate (Z.to_nat SUPERBLOCK_SIZE) 0)) ;;
  _ <~ write_all sb_buf ;;
  _ <~ write_all (replicate 2048 0) ;;
  write_backups sb gd_table_buf sb_buf groups.

(** ** [close] *)

Section Close.
Context (clock : nat -> Z * Z) (new_v4 : buffer).

(** [fn configure_resize_inode] *)
Definition configure_resize_inode (dind_block reserved_gdt_blocks backup_group_count : Z) : M unit :=
  now <~ timestamp_now clock ;;
  block_size <~ reads (fun s => Some s.(f_disk).(d_block_size)) ;;
  inode <~ must (resize_inode now block_size dind_block reserved_gdt_blocks backup_group_count) ;;
  updates (upd_inode RESIZE_INODE_NUMBER (fun _ => Some inode)).

(** [Formatter::close]; [new_v4] is the identifier [Uuid::new_v4] draws. *)
Definition close : M unit :=
  _ <~ commit_directories ;;
  allocated <~ reads (fun s => group_descriptor_blocks s.(f_disk).(d_block_size) s.(f_disk).(d_size)) ;;
  resize_dind_block <~ allocate_resize_inode_dind_block ;;
  pt <~ lay_out ;;
  let '(p, total_groups) := pt in
  block_size <~ reads (fun s => Some s.(f_disk).(d_block_size)) ;;
  bpg <~ must (blocks_per_group block_size) ;;
  gd_block_count <~ must (descriptor_blocks_for_groups block_size total_groups) ;;
  gd_area_blocks <~ must (group_descriptor_area_blocks_for_groups block_size total_groups) ;;
  if allocated <? gd_area_blocks then throw InsufficientSpaceForGroupDescriptorBlocks
  else
    reserved_gdt_blocks <~ must (usub 32 gd_area_blocks gd_block_count) ;;
    groups <~ must (backup_groups total_groups) ;;
    _ <~ configure_resize_inode resize_dind_block reserved_gdt_blocks (wrap 32 (zlen groups)) ;;
    _ <~ write_resize_inode_blocks resize_dind_block gd_block_count reserved_gdt_blocks groups ;;
    _ <~ seek_block (wrap 32 p.(p_table)) ;;
    table <~ commit_inode_table p.(p_groups) p.(p_ipg) ;;
    let p := mk_plan p.(p_groups) p.(p_ipg) table p.(p_table_per_group) p.(p_data_size) in
    _ <~ on_disk align_to_block ;;
    bitmap_offset <~ reads (fun s => Some (current_block s.(f_disk))) ;;
    t <~ fold_each (seqZ 0 p.(p_groups)) (write_data_group p bitmap_offset) (mk_totals [] 0 0) ;;
    inode_bm <~ must (empty_inode_bitmap bpg p.(p_ipg)) ;;
    t <~ fold_each (seqZ p.(p_groups) (total_groups - p.(p_groups))) (write_empty_group p total_groups inode_bm) t ;;
    uuid_bytes <~ reads (fun s => Some (default new_v4 s.(f_uuid))) ;;
    gd_table_buf <~ must (put_descriptors uuid_bytes 0 t.(t_gds) (replicate (Z.to_nat (gd_block_count * block_size)) 0)) ;;
    label <~ reads (fun s => Some s.(f_label)) ;;
    sb <~ must (superblock block_size bpg p.(p_ipg) total_groups t.(t_blocks) t.(t_used_inodes)
                  reserved_gdt_blocks uuid_bytes label) ;;
    write_tables sb gd_table_buf groups.
End Close.
