(* ===== verification/CloseSpec.v ===== *)
(** * What [close] writes

    Theorems about [Close]: the order in which directories are written, the choice of
    the group layout, and the superblocks and descriptor tables read back. *)

From stdpp Require Import base list list_numbers option numbers strings gmap.
From S2P Require Import Prelude Bytes Utf8 Errors Constants SuperBlock DiskTypes Checksum Dir Image Extent Geometry Paths FileTree Bitmaps Formatter UnlinkSpec Close.

(** ** The walk over directories *)

(** The pairs of a parent and a node that hang below the root through nodes that are
    not hard links. *)
Inductive walked (t : FileTree) : option nat * nat -> Prop :=
| walked_root : walked t (None, 0%nat)
| walked_child q p n c : walked t (q, p) -> t.(t_nodes) !! p = Some n -> n.(n_link) = None ->
    c ∈ n.(n_children) -> walked t (Some p, c).

(** [seen] was popped and [queue] is waiting. *)
Record bfs_inv (t : FileTree) (seen queue : list (option nat * nat)) : Prop := {
  bi_nodup : NoDup (snd <$> seen ++ queue);
  bi_walked : Forall (walked t) (seen ++ queue);
  bi_root : (None, 0%nat) ∈ seen ++ queue;
  bi_parent : forall p c, (Some p, c) ∈ seen ++ queue -> p ∈ snd <$> seen;
  bi_closed : forall q p n c, (q, p) ∈ seen -> t.(t_nodes) !! p = Some n -> n.(n_link) = None ->
    c ∈ n.(n_children) -> (Some p, c) ∈ seen ++ queue }.

Lemma walked_in_tree t e : tree_wf t -> walked t e -> is_Some (t.(t_nodes) !! e.2) /\
  (forall p, e.1 = Some p -> exists m, t.(t_nodes) !! e.2 = Some m /\ m.(n_parent) = Some p) /\
  (e.1 = None -> e.2 = 0%nat).
Proof.
  intros Hwf He. destruct He as [|q p n c He Hn Hl Hc]; simpl.
  - destruct (tw_some _ Hwf) as (r & -> & _). split; [eauto|]. split; [intros ?|]; done.
  - destruct (tw_child _ Hwf _ _ _ Hn Hc) as (_ & m & Hm & Hp). split; [eauto|]. split; [|done].
    intros p' [= <-]. eauto.
Qed.

(** The children of the node in front of the queue. *)
Definition more (node : nat) (n : FileTreeNode) : list (option nat * nat) :=
  match n.(n_link) with Some _ => [] | None => (fun child => (Some node, child)) <$> n.(n_children) end.

Lemma elem_of_more node n q c : (q, c) ∈ more node n <-> n.(n_link) = None /\ q = Some node /\ c ∈ n.(n_children).
Proof.
  unfold more. destruct (n_link n); [rewrite elem_of_nil; naive_solver|].
  rewrite list_elem_of_fmap. split; [intros (? & [= -> ->] & ?); auto|]. intros (_ & -> & ?). eauto.
Qed.

Lemma more_nodup t node n : tree_ok t -> t.(t_nodes) !! node = Some n -> NoDup (snd <$> more node n).
Proof.
  intros Hok Hn. unfold more. destruct (n_link n); [constructor|]. rewrite <- list_fmap_compose. unfold compose; simpl.
  rewrite list_fmap_id. by eapply to_nodup.
Qed.

(** A child of the node in front is neither seen nor waiting. *)
Lemma more_fresh t seen queue parent node n c : tree_ok t -> bfs_inv t seen ((parent, node) :: queue) ->
  t.(t_nodes) !! node = Some n -> c ∈ snd <$> more node n -> c ∉ snd <$> seen ++ (parent, node) :: queue.
Proof.
  intros Hok Hinv Hn ((q & x) & -> & (_ & _ & Hx)%elem_of_more)%list_elem_of_fmap. cbn [snd].
  destruct (tw_child _ (to_wf _ Hok) _ _ _ Hn Hx) as (Hlt & m & Hm & Hp).
  intros ((q' & y) & E & Hin)%list_elem_of_fmap. cbn [snd] in E. subst y.
  pose proof (proj1 (Forall_forall _ _) (bi_walked _ _ _ Hinv) _ Hin) as Hw.
  destruct (walked_in_tree _ _ (to_wf _ Hok) Hw) as (_ & Hpar & Hroot). simpl in *.
  destruct q' as [p|]; [|specialize (Hroot eq_refl); lia].
  destruct (Hpar p eq_refl) as (m' & Hm' & Hp'). simplify_eq.
  pose proof (bi_parent _ _ _ Hinv _ _ Hin) as Hseen. pose proof (bi_nodup _ _ _ Hinv) as Hnd.
  rewrite fmap_app, list.NoDup_app in Hnd. destruct Hnd as (_ & Hdis & _).
  apply (Hdis _ Hseen). simpl. by left.
Qed.

Lemma bfs_inv_step t seen queue parent node n : tree_ok t -> bfs_inv t seen ((parent, node) :: queue) ->
  t.(t_nodes) !! node = Some n -> bfs_inv t (seen ++ [(parent, node)]) (queue ++ more node n).
Proof.
  intros Hok Hinv Hn. pose proof Hinv as [Hnd Hw Hr Hp Hc].
  assert (E : (seen ++ [(parent, node)]) ++ queue ++ more node n = (seen ++ (parent, node) :: queue) ++ more node n)
    by by rewrite <- !app_assoc.
  split; rewrite ?E.
  - rewrite fmap_app. apply list.NoDup_app. split; [done|]. split; [|by eapply more_nodup].
    intros c Hin Hm. by eapply more_fresh.
  - apply Forall_app. split; [done|]. apply Forall_forall. intros (q & c) (Hl & -> & Hx)%elem_of_more.
    apply (walked_child _ parent _ n); try done. rewrite Forall_forall in Hw. apply Hw. apply elem_of_app. right. by left.
  - apply elem_of_app. by left.
  - intros p c [Hin|(_ & [= <-] & _)%elem_of_more]%elem_of_app; rewrite fmap_app; apply elem_of_app; [left; by eapply Hp|right; by left].
  - intros q p n' c [Hin| [= -> ->]%list_elem_of_singleton]%elem_of_app Hn' Hl Hx; apply elem_of_app; [left; by eapply Hc|right].
    simplify_eq. by apply elem_of_more.
Qed.

(** Distinct nodes of the tree are no more than its nodes. *)
Lemma bfs_inv_bound t seen queue : tree_wf t -> bfs_inv t seen queue ->
  (length seen + length queue <= length t.(t_nodes))%nat.
Proof.
  intros Hwf Hinv. rewrite <- length_app, <- (length_fmap snd), <- (length_seq (length t.(t_nodes)) 0).
  apply submseteq_length, NoDup_submseteq; [exact (bi_nodup _ _ _ Hinv)|].
  intros c (e & -> & He)%list_elem_of_fmap. apply elem_of_seq.
  pose proof (proj1 (Forall_forall _ _) (bi_walked _ _ _ Hinv) _ He) as Hw.
  destruct (walked_in_tree _ _ Hwf Hw) as ([m Hm] & _). apply lookup_lt_Some in Hm. lia.
Qed.

Lemma bfs_spec t fuel : tree_ok t -> forall seen queue, bfs_inv t seen queue ->
  (length t.(t_nodes) <= fuel + length seen)%nat -> exists rest, bfs fuel t queue = Some rest /\ bfs_inv t (seen ++ rest) [].
Proof.
  intros Hok. induction fuel as [|fuel IH]; intros seen [|[parent node] queue] Hinv Hf; cbn [bfs];
    try (exists []; by rewrite app_nil_r); pose proof (bfs_inv_bound _ _ _ (to_wf _ Hok) Hinv) as Hb; simpl in Hb; [lia|].
  assert (Hw : walked t (parent, node)).
  { pose proof (bi_walked _ _ _ Hinv) as Hw. rewrite Forall_forall in Hw. apply Hw. apply elem_of_app. right. by left. }
  destruct (walked_in_tree _ _ (to_wf _ Hok) Hw) as ([n Hn] & _). cbn [snd] in Hn. rewrite Hn. cbn [mbind option_bind].
  destruct (IH (seen ++ [(parent, node)]) (queue ++ more node n)) as (rest & E & Hr);
    [by apply bfs_inv_step|rewrite length_app; simpl; lia|].
  unfold more in E. rewrite E. cbn [mbind option_bind]. eexists. split; [done|]. by rewrite <- app_assoc in Hr.
Qed.

(** On a well-formed tree the queue loop of [commit_directories]
    ends, and its order holds every node below the root, except what would hang below a
    hard link, with its parent, and no node twice: each directory is written exactly once
    and its [..] entry names the directory that lists it. *)
Theorem bfs_order_complete t : tree_ok t ->
  exists order, bfs_order t = Some order /\ NoDup (snd <$> order) /\ (forall e, e ∈ order <-> walked t e).
Proof.
  intros Hok. unfold bfs_order. rewrite (tw_root _ (to_wf _ Hok)).
  assert (H0 : bfs_inv t [] [(None, 0%nat)]).
  { split; simpl; try done; [apply NoDup_singleton|apply Forall_singleton; constructor|by left| |].
    - intros p c [=]%list_elem_of_singleton.
    - by intros q p n c ?%elem_of_nil. }
  destruct (bfs_spec t (length t.(t_nodes)) Hok [] _ H0) as (order & -> & [Hnd Hw Hr Hp Hc]); [simpl; lia|].
  rewrite app_nil_r in *. simpl in *. exists order. split; [done|]. split; [done|]. intros e. split.
  - intros He. rewrite Forall_forall in Hw. by apply Hw.
  - induction 1 as [|q p n c Hq IH Hn Hl Hx]; [done|]. by eapply Hc.
Qed.

Lemma bfs_order_complete_witness :
  exists order, bfs_order two_level = Some order /\ NoDup (snd <$> order) /\ (forall e, e ∈ order <-> walked two_level e) /\
    order = [(None, 0%nat); (Some 0%nat, 1%nat); (Some 1%nat, 2%nat)].
Proof.
  destruct (bfs_order_complete two_level two_level_ok) as (order & E & Hnd & Hin).
  exists order. do 3 (split; [done|]). vm_compute in E. by injection E as <-.
Defined.

(** ** The layout of block groups *)

(** What is left of a group of 32768 blocks beside [ipg] inodes and two bitmaps. *)
Definition data_blocks (ipg : Z) : Z := 32768 - ipg / 16 - 2.

(** The numbers of inodes per group [optimize_block_group_layout] tries. *)
Definition candidates : list Z := [8192; 16384; 24576; 32768].

(** [g] groups of [ipg] inodes hold the inodes and the data. *)
Definition fits (blocks inodes ipg g : Z) : Prop := inodes <= g * ipg /\ blocks <= g * data_blocks ipg.

Lemma candidates_cases ipg : ipg ∈ candidates -> ipg = 8192 \/ ipg = 16384 \/ ipg = 24576 \/ ipg = 32768.
Proof. unfold candidates. rewrite !elem_of_cons, elem_of_nil. tauto. Qed.

Lemma div_ceil_least a d : 0 < d -> 0 <= a -> a <= (a + d - 1) / d * d /\ forall g, a <= g * d -> (a + d - 1) / d <= g.
Proof.
  intros Hd Ha. pose proof (Z.div_mod (a + d - 1) d ltac:(lia)). pose proof (Z.mod_pos_bound (a + d - 1) d Hd). split; [nia|].
  intros g Hg. assert ((a + d - 1) / d < g + 1); [|lia]. apply Z.div_lt_upper_bound; nia.
Qed.

(** [group_count] of the source is the least number of groups that fit. *)
Lemma groups_needed_spec blocks inodes ipg : ipg ∈ candidates -> 0 <= blocks < 2 ^ 31 -> 1 <= inodes <= 2 ^ 29 ->
  exists g, groups_needed 4096 blocks inodes ipg = Some g /\ 1 <= g < 131072 /\ fits blocks inodes ipg g /\
    forall g', fits blocks inodes ipg g' -> g <= g'.
Proof.
  intros Hc Hb Hi. set (q := (inodes - 1) / ipg). set (d := data_blocks ipg).
  assert (Hd : 30718 <= d <= 32254 /\ ipg * 256 < 2 ^ 32 /\ ipg * 256 / 4096 = ipg / 16 /\ 8192 <= ipg /\ 0 <= ipg / 16).
  { unfold d, data_blocks. destruct (candidates_cases _ Hc) as [->|[->|[->| ->]]]; vm_compute; intuition congruence. }
  destruct Hd as (Hd & Hm & Hdiv & Hipg & H16).
  assert (Hq : 0 <= q <= 65536 /\ ipg * q <= inodes - 1 < ipg * q + ipg).
  { pose proof (Z.div_mod (inodes - 1) ipg ltac:(lia)). pose proof (Z.mod_pos_bound (inodes - 1) ipg ltac:(lia)).
    unfold q. split; [split; [apply Z.div_pos; lia|]|lia]. apply Z.div_le_upper_bound; nia. }
  assert (Hqd : 0 <= q * d < 2 ^ 31 - 1) by nia.
  set (e := Z.max blocks (q * d + 1)). destruct (div_ceil_least e d) as [Hup Hleast]; [lia|lia|].
  exists ((e + d - 1) / d). split.
  - unfold groups_needed, blocks_per_group, umul, usub, uadd, INODE_SIZE.
    rewrite (chk_some 32 (ipg * 256)) by (unfold uint; lia). cbn [mbind option_bind]. rewrite Hdiv.
    rewrite (chk_some 32 (4096 * 8)) by done. cbn [mbind option_bind]. change (4096 * 8) with 32768.
    rewrite (chk_some 32 (32768 - ipg / 16)) by (unfold uint, d, data_blocks in *; lia). cbn [mbind option_bind].
    change (32768 - ipg / 16 - 2) with d. rewrite (chk_some 32 d) by (unfold uint; lia). cbn [mbind option_bind].
    rewrite (Z.max_r 0 (inodes - 1)) by lia. fold q.
    rewrite (chk_some 32 (q * d)) by (unfold uint; lia). cbn [mbind option_bind].
    rewrite (chk_some 32 (q * d + 1)) by (unfold uint; lia). cbn [mbind option_bind]. fold e.
    by rewrite (proj2 (Z.eqb_neq d 0)) by lia.
  - assert (Hgq : q + 1 <= (e + d - 1) / d) by (unfold e in *; nia).
    split; [split; [lia|]; apply Z.div_lt_upper_bound; unfold e; lia|]. split; [unfold fits; fold d; split; unfold e in *; nia|].
    intros g' [H1 H2]. fold d in H2. apply Hleast. unfold e. assert (q < g') by nia. nia.
Qed.

(** One turn of the search keeps the best candidate so far. *)
Definition best_of (blocks inodes : Z) (tried : list Z) (best : Z * Z) : Prop :=
  best.2 ∈ tried /\ fits blocks inodes best.2 best.1 /\ 1 <= best.1 < 131072 /\
  forall ipg g, ipg ∈ tried -> fits blocks inodes ipg g -> best.1 <= g.

Lemma best_of_step blocks inodes tried best ipg g :
  best_of blocks inodes tried best -> 1 <= g < 131072 -> fits blocks inodes ipg g ->
  (forall g', fits blocks inodes ipg g' -> g <= g') ->
  best_of blocks inodes (ipg :: tried) (if g <? best.1 then (g, ipg) else best).
Proof.
  intros (Hin & Hf & Hr & Hmin) Hg Hfit Hleast. destruct (Z.ltb_spec g best.1); simpl; split; simpl.
  - by left.
  - split; [done|]. split; [done|]. intros ipg' g' [->|Hi]%elem_of_cons Hf'; [auto|]. specialize (Hmin _ _ Hi Hf'). lia.
  - by right.
  - split; [done|]. split; [done|]. intros ipg' g' [->|Hi]%elem_of_cons Hf'; [|eauto]. specialize (Hleast _ Hf'). lia.
Qed.

(** The plan for groups that hold the data and the inodes. *)
Lemma plan_layout_spec table inodes g ipg : ipg ∈ candidates -> 0 <= table -> 1 <= g < 131072 -> fits table inodes ipg g ->
  exists p, plan_layout 4096 table g ipg = Some p /\ p.(p_data_size) = table + g * (ipg / 16) + g * 2 /\
    p.(p_data_size) <= g * 32768.
Proof.
  intros Hc Ht Hg [_ Hf]. unfold data_blocks in Hf.
  assert (Hk : ipg * 256 / 4096 = ipg / 16 /\ 0 <= ipg / 16 <= 2048 /\ 0 <= ipg * 256 < 2 ^ 32).
  { destruct (candidates_cases _ Hc) as [->|[->|[->| ->]]]; vm_compute; intuition congruence. }
  destruct Hk as (Hk & Hk' & Hk''). unfold plan_layout, umul, uadd, INODE_SIZE.
  rewrite (chk_some 32 (ipg * 256)) by (unfold uint; lia). cbn [mbind option_bind]. rewrite Hk.
  rewrite (chk_some 32 (g * (ipg / 16))) by (unfold uint; nia). cbn [mbind option_bind].
  rewrite wrap_id by (unfold uint; nia).
  rewrite (chk_some 32 (table + g * (ipg / 16))) by (unfold uint; nia). cbn [mbind option_bind].
  rewrite (chk_some 32 (g * 2)) by (unfold uint; nia). cbn [mbind option_bind].
  rewrite chk_some by (unfold uint; nia). cbn [mbind option_bind]. eexists. split; [done|]. simpl. split; [done|nia].
Qed.

(** C11 layout_optimal: for fewer than 2^31 data blocks and at most 2^29 inodes
    [optimize_block_group_layout] returns, and the number of
    groups it picks, with its inodes per group, holds all data blocks and all inodes, and
    no smaller number of groups does, for any of the inode densities it considers; the
    inode tables and bitmaps planned behind the data then end inside those groups. *)
Theorem layout_optimal blocks inodes : 0 <= blocks < 2 ^ 31 -> 1 <= inodes <= 2 ^ 29 ->
  exists g ipg p, optimize_block_group_layout 4096 blocks inodes = Some (g, ipg) /\ ipg ∈ candidates /\
    fits blocks inodes ipg g /\ (forall ipg' g', ipg' ∈ candidates -> fits blocks inodes ipg' g' -> g <= g') /\
    plan_layout 4096 blocks g ipg = Some p /\ p.(p_data_size) <= g * 32768.
Proof.
  intros Hb Hi. unfold optimize_block_group_layout, umul, INODE_SIZE. rewrite (chk_some 32 (4096 * 512)) by done.
  cbn [mbind option_bind]. change (4096 * 512 / 256) with 8192.
  destruct (groups_needed_spec blocks inodes 8192) as (g1 & E1 & R1 & F1 & L1); [by repeat constructor|lia|lia|].
  destruct (groups_needed_spec blocks inodes 16384) as (g2 & E2 & R2 & F2 & L2); [by repeat constructor|lia|lia|].
  destruct (groups_needed_spec blocks inodes 24576) as (g3 & E3 & R3 & F3 & L3); [by repeat constructor|lia|lia|].
  destruct (groups_needed_spec blocks inodes 32768) as (g4 & E4 & R4 & F4 & L4); [by repeat constructor|lia|lia|].
  assert (B1 : best_of blocks inodes [8192] (if g1 <? 2 ^ 32 - 1 then (g1, 8192) else (2 ^ 32 - 1, 8192))).
  { rewrite (proj2 (Z.ltb_lt g1 _)) by lia. split; [by left|]. do 2 (split; [done|]).
    intros ipg g ->%list_elem_of_singleton. apply L1. }
  pose proof (best_of_step _ _ _ _ _ _ B1 R2 F2 L2) as B2. pose proof (best_of_step _ _ _ _ _ _ B2 R3 F3 L3) as B3.
  pose proof (best_of_step _ _ _ _ _ _ B3 R4 F4 L4) as B4. clear B1 B2 B3.
  cbn [layout_loop]. change (max_inodes_per_group 4096) with (Some 32768). cbn [mbind option_bind].
  change (8192 + 8192) with 16384. change (16384 + 8192) with 24576. change (24576 + 8192) with 32768.
  change (32768 + 8192) with 40960. change (8192 <=? 32768) with true. change (16384 <=? 32768) with true.
  change (24576 <=? 32768) with true. change (32768 <=? 32768) with true. change (40960 <=? 32768) with false.
  cbn [mbind option_bind]. rewrite E1. cbn [mbind option_bind]. rewrite E2. cbn [mbind option_bind]. rewrite E3.
  cbn [mbind option_bind]. rewrite E4. cbn [mbind option_bind].
  set (best := if g4 <? _ then _ else _) in *. destruct best as [g ipg] eqn:Eb. clear Eb.
  destruct B4 as (Hin & Hf & Hr & Hmin). cbn [fst snd] in *.
  assert (Hrev : forall i, i ∈ candidates <-> i ∈ [32768; 24576; 16384; 8192]).
  { intros i. unfold candidates. rewrite !elem_of_cons. tauto. }
  apply Hrev in Hin. destruct (plan_layout_spec blocks inodes g ipg) as (p & Ep & _ & Hp); [done|lia|done|done|].
  exists g, ipg, p. do 3 (split; [done|]). split; [|done]. intros ipg' g' ?%Hrev. by apply Hmin.
Qed.

Lemma layout_optimal_witness :
  exists g ipg p, optimize_block_group_layout 4096 40000 20000 = Some (g, ipg) /\ g = 2 /\ ipg = 16384 /\
    fits 40000 20000 ipg g /\ plan_layout 4096 40000 g ipg = Some p /\ p.(p_data_size) <= g * 32768.
Proof.
  destruct (layout_optimal 40000 20000) as (g & ipg & p & E & _ & Hf & _ & Ep & Hp); [lia|lia|].
  exists g, ipg, p. split; [exact E|]. vm_compute in E. by injection E as <- <-.
Defined.

(** ** Sequences of writes *)

Lemma zlen_replicate_nat n : zlen (replicate n 0) = Z.of_nat n.
Proof. unfold zlen. by rewrite length_replicate. Qed.

Definition apply_writes (f : buffer) (ws : list (Z * buffer)) : buffer :=
  foldl (fun f w => file_write f w.1 w.2) f ws.

Definition disjoint (w1 w2 : Z * buffer) : Prop := w1.1 + zlen w1.2 <= w2.1 \/ w2.1 + zlen w2.2 <= w1.1.

(** Writes at non-negative positions, no two of which overlap. *)
Fixpoint separate (ws : list (Z * buffer)) : Prop :=
  match ws with
  | [] => True
  | w :: ws => 0 <= w.1 /\ Forall (disjoint w) ws /\ separate ws
  end.

Lemma apply_writes_keep ws f p r : 0 <= p -> separate ws -> Forall (disjoint (p, r)) ws ->
  file_read f p (zlen r) = Some r -> file_read (apply_writes f ws) p (zlen r) = Some r.
Proof.
  intros Hp. revert f. induction ws as [|w ws IH]; intros f; [done|]. intros (Hw & _ & Hs) [Hd Hds]%Forall_cons_1 Hr.
  apply IH; [done|done|]. apply file_read_write_miss; [done|done|apply zlen_nonneg| |done].
  destruct Hd as [?|?]; simpl in *; [by left|by right].
Qed.

(** Every write of a separate sequence reads back at the end. *)
Lemma apply_writes_read ws f w : separate ws -> w ∈ ws -> file_read (apply_writes f ws) w.1 (zlen w.2) = Some w.2.
Proof.
  revert f. induction ws as [|w' ws IH]; intros f; [by intros _ ?%elem_of_nil|]. intros (Hw & Hd & Hs) [->|Hin]%elem_of_cons.
  - apply (apply_writes_keep ws _ w'.1 w'.2); [done|done|by destruct w'|]. by apply file_read_write_hit.
  - by apply IH.
Qed.

Lemma separate_app ws1 ws2 : separate ws1 -> separate ws2 -> Forall (fun w => Forall (disjoint w) ws2) ws1 ->
  separate (ws1 ++ ws2).
Proof.
  induction ws1 as [|w ws1 IH]; [done|]. intros (Hw & Hd & Hs) H2 [Hc Hcs]%Forall_cons_1. simpl.
  split; [done|]. split; [by apply Forall_app|]. by apply IH.
Qed.

(** ** The tables *)

(** The state after a sequence of writes: only the file and the position differ. *)
Definition written (s : Formatter) (ws : list (Z * buffer)) (s' : Formatter) : Prop :=
  exists pos, s' = set_disk (mk_disk (apply_writes s.(f_disk).(d_file) ws) pos s.(f_disk).(d_block_size) s.(f_disk).(d_size)) s.

Lemma written_refl s : written s [] s.
Proof. exists s.(f_disk).(d_pos). by destruct s as [[] ? ? ? ? ? ? ?]. Qed.

Lemma written_trans s s1 s2 ws1 ws2 : written s ws1 s1 -> written s1 ws2 s2 -> written s (ws1 ++ ws2) s2.
Proof. intros [p1 ->] [p2 ->]. exists p2. simpl. unfold apply_writes. by rewrite foldl_app. Qed.

Lemma written_block_size s ws s' : written s ws s' -> s'.(f_disk).(d_block_size) = s.(f_disk).(d_block_size).
Proof. by intros [p ->]. Qed.

(** [bs] written at [pos]. *)
Definition stored (s : Formatter) (pos : Z) (bs : buffer) : Formatter :=
  let d := s.(f_disk) in
  set_disk (mk_disk (file_write d.(d_file) pos bs) (pos + zlen bs) d.(d_block_size) d.(d_size)) s.

Lemma stored_written s pos bs : written s [(pos, bs)] (stored s pos bs).
Proof. by eexists. Qed.

(** [seek_to_block(b)?; write_all(bs)?] *)
Lemma seek_write_ok {B} s b bs (k : unit -> M B) : uint 64 (b * s.(f_disk).(d_block_size)) ->
  bind (seek_block b) (fun _ => bind (write_all bs) k) s = k tt (stored s (b * s.(f_disk).(d_block_size)) bs).
Proof. intros Hb. unfold bind, seek_block, on_disk, updates, seek_to_block, umul. by rewrite chk_some by done. Qed.

Lemma write_all_ok {B} s bs (k : unit -> M B) : bind (write_all bs) k s = k tt (stored s s.(f_disk).(d_pos) bs).
Proof. done. Qed.

Lemma must_ok {A B} (o : option A) a (k : A -> M B) s : o = Some a -> bind (must o) k s = k a s.
Proof. intros ->. done. Qed.

Section Tables.
Context (sb : SuperBlock.t) (gdt : buffer) (Hsb : SuperBlock.wf sb) (Hgdt : zlen gdt <= 32767 * 4096).

(** The bytes between the starts of two groups. *)
Definition GROUP_BYTES : Z := 32768 * 4096.

Definition backup_writes (group : Z) : list (Z * buffer) :=
  [(group * GROUP_BYTES, ds_bytes (with_block_group_nr (wrap 16 group) sb)); (group * GROUP_BYTES + 4096, gdt)].

Lemma with_block_group_nr_wf nr : uint 16 nr -> SuperBlock.wf (with_block_group_nr nr sb).
Proof.
  intros Hnr. pose proof Hsb as Hw. clear Hsb. unfold SuperBlock.wf in *. cbn.
  repeat match goal with H : _ /\ _ |- _ /\ _ => destruct H as [? H]; split; [first [exact Hnr|eassumption]|] end. exact Hw.
Qed.

Lemma sb_bytes_zlen x : SuperBlock.wf x -> zlen (ds_bytes x) = 1024.
Proof. intros Hx. exact (ds_bytes_zlen x Hx). Qed.

Lemma write_sb x buf : SuperBlock.wf x -> zlen buf = 1024 -> SuperBlock.write_to x buf = Some (ds_bytes x).
Proof.
  intros Hx Hl. pose proof (ds_write_spec x buf Hx) as E. change (ds_size (A:=SuperBlock.t)) with 1024 in E.
  change (SuperBlock.write_to x buf) with (ds_write x buf). rewrite E by lia.
  rewrite drop_ge, app_nil_r; [done|]. unfold zlen in Hl. lia.
Qed.

Lemma write_backups_ok groups s sb_buf : s.(f_disk).(d_block_size) = 4096 -> zlen sb_buf = 1024 ->
  Forall (fun g => 1 <= g < 2 ^ 16) groups ->
  exists s', write_backups sb gdt sb_buf groups s = (Ok tt, s') /\ written s (groups ≫= backup_writes) s'.
Proof.
  intros Hbs Hbuf Hg. revert s sb_buf Hbs Hbuf. induction Hg as [|group groups Hg _ IH]; intros s sb_buf Hbs Hbuf.
  { exists s. split; [done|apply written_refl]. }
  cbn [write_backups]. rewrite (bind_ok _ _ s 4096 s) by (by unfold reads; rewrite Hbs).
  assert (Hw : SuperBlock.wf (with_block_group_nr (wrap 16 group) sb)) by (apply with_block_group_nr_wf, wrap_uint; lia).
  rewrite (must_ok _ (group * 32768)) by (unfold blocks_per_group, umul; simpl; apply chk_some; unfold uint; lia).
  rewrite (must_ok _ (ds_bytes (with_block_group_nr (wrap 16 group) sb))) by (by apply write_sb).
  rewrite seek_write_ok by (rewrite Hbs; unfold uint; lia). rewrite Hbs.
  rewrite (must_ok _ (group * 32768 + 1)) by (apply chk_some; unfold uint; lia).
  rewrite seek_write_ok by (simpl; rewrite Hbs; unfold uint; lia). cbn [stored set_disk f_disk d_block_size]. rewrite Hbs.
  set (s1 := stored s _ _). set (s2 := stored s1 _ _).
  destruct (IH s2 (ds_bytes (with_block_group_nr (wrap 16 group) sb))) as (s' & -> & W); [done|by apply sb_bytes_zlen|].
  exists s'. split; [done|]. pose proof (written_trans _ _ _ _ _ (stored_written s _ _) (written_trans _ _ _ _ _ (stored_written s1 _ _) W)) as W'.
  cbn [mbind list_bind app] in *. unfold backup_writes, GROUP_BYTES. cbn [app].
  replace (group * (32768 * 4096)) with (group * 32768 * 4096) by lia.
  by replace (group * 32768 * 4096 + 4096) with ((group * 32768 + 1) * 4096) by lia.
Qed.

Definition table_writes (groups : list Z) : list (Z * buffer) :=
  [(4096, gdt); (0, replicate 1024 0); (1024, ds_bytes sb); (2048, replicate 2048 0)] ++ groups ≫= backup_writes.

Lemma write_tables_ok groups s : s.(f_disk).(d_block_size) = 4096 -> Forall (fun g => 1 <= g < 2 ^ 16) groups ->
  exists s', write_tables sb gdt groups s = (Ok tt, s') /\ written s (table_writes groups) s'.
Proof.
  intros Hbs Hg. unfold write_tables. pose proof (sb_bytes_zlen sb Hsb) as Hl.
  rewrite seek_write_ok by (by rewrite Hbs). set (s1 := stored s _ _).
  rewrite seek_write_ok by (by simpl; rewrite Hbs). set (s2 := stored s1 _ _).
  rewrite (must_ok _ (ds_bytes sb)) by (by apply write_sb).
  rewrite write_all_ok. set (s3 := stored s2 _ _). rewrite write_all_ok. set (s4 := stored s3 _ _).
  destruct (write_backups_ok groups s4 (ds_bytes sb)) as (s' & -> & W); [done|done|done|].
  exists s'. split; [done|].
  pose proof (written_trans _ _ _ _ _ (stored_written s _ _) (written_trans _ _ _ _ _ (stored_written s1 _ _)
    (written_trans _ _ _ _ _ (stored_written s2 _ _) (written_trans _ _ _ _ _ (stored_written s3 _ _) W)))) as W'.
  cbn [stored set_disk f_disk d_block_size d_pos s1 s2 s3] in W'. rewrite Hbs, Hl in W'. exact W'.
Qed.

(** A group's copies stay within the group. *)
Lemma backup_writes_within group w : w ∈ backup_writes group ->
  group * GROUP_BYTES <= w.1 /\ w.1 + zlen w.2 <= (group + 1) * GROUP_BYTES.
Proof.
  pose proof (zlen_nonneg gdt). unfold backup_writes, GROUP_BYTES.
  rewrite !elem_of_cons, elem_of_nil. intros [->|[->|[]]]; simpl; [|lia].
  rewrite sb_bytes_zlen by (apply with_block_group_nr_wf, wrap_uint; lia). lia.
Qed.

Lemma backup_writes_separate group : 0 <= group -> separate (backup_writes group).
Proof.
  intros Hg. unfold backup_writes, GROUP_BYTES, separate, disjoint. rewrite Forall_singleton. simpl.
  rewrite sb_bytes_zlen by (apply with_block_group_nr_wf, wrap_uint; lia). split; [lia|]. split; [lia|]. split; [lia|]. by split.
Qed.

Lemma within_disjoint lo1 hi1 lo2 w1 w2 : lo1 <= w1.1 -> w1.1 + zlen w1.2 <= hi1 -> hi1 <= lo2 -> lo2 <= w2.1 -> disjoint w1 w2.
Proof. intros. left. lia. Qed.

Lemma backups_separate groups : NoDup groups -> Forall (fun g => 1 <= g < 2 ^ 16) groups -> separate (groups ≫= backup_writes).
Proof.
  intros Hnd Hg. induction groups as [|group groups IH]; [done|]. apply NoDup_cons in Hnd as [Hn Hnd].
  apply Forall_cons_1 in Hg as [Hg1 Hg]. cbn [mbind list_bind]. apply separate_app; [apply backup_writes_separate; lia|by apply IH|].
  apply Forall_forall. intros w Hw. apply Forall_forall. intros w' (g' & Hw' & Hg')%list_elem_of_bind.
  apply backup_writes_within in Hw as [? ?]. apply backup_writes_within in Hw' as [? ?].
  assert (g' <> group) by (intros ->; done). unfold disjoint, GROUP_BYTES in *. lia.
Qed.

Lemma head_writes_separate z1 x z2 : zlen z1 = 1024 -> zlen x = 1024 -> zlen z2 = 2048 ->
  let ws := [(4096, gdt); (0, z1); (1024, x); (2048, z2)] in
  separate ws /\ Forall (fun w => w.1 + zlen w.2 <= GROUP_BYTES) ws.
Proof.
  intros H1 Hx H2 ws. pose proof (zlen_nonneg gdt). unfold ws, GROUP_BYTES, separate, disjoint. rewrite !Forall_cons, !Forall_nil. cbn [fst snd].
  rewrite H1, Hx, H2. intuition lia.
Qed.

Lemma table_writes_separate groups : NoDup groups -> Forall (fun g => 1 <= g < 2 ^ 16) groups -> separate (table_writes groups).
Proof.
  intros Hnd Hg. unfold table_writes.
  destruct (head_writes_separate (replicate 1024 0) (ds_bytes sb) (replicate 2048 0)) as [Hs Hb];
    [apply zlen_replicate_nat|by apply sb_bytes_zlen|apply zlen_replicate_nat|].
  apply separate_app; [exact Hs|by apply backups_separate|]. eapply Forall_impl; [exact Hb|]. intros w Hw.
  apply Forall_forall. intros w' (g & Hw' & Hin)%list_elem_of_bind. apply backup_writes_within in Hw' as [? _].
  rewrite Forall_forall in Hg. specialize (Hg _ Hin). left. unfold GROUP_BYTES in *. lia.
Qed.
End Tables.

(** ** The descriptor table *)

Lemma gd_bytes_zlen (gd : GroupDescriptor.t) : GroupDescriptor.wf gd -> zlen (ds_bytes gd) = 32.
Proof. intros H. exact (ds_bytes_zlen gd H). Qed.

Lemma write_gd gd buf : GroupDescriptor.wf gd -> zlen buf = 32 -> GroupDescriptor.write_to gd buf = Some (ds_bytes gd).
Proof.
  intros Hx Hl. pose proof (ds_write_spec gd buf Hx) as E. change (ds_size (A:=GroupDescriptor.t)) with 32 in E.
  change (GroupDescriptor.write_to gd buf) with (ds_write gd buf). rewrite E by lia.
  rewrite drop_ge, app_nil_r; [done|]. unfold zlen in Hl. lia.
Qed.

Lemma read_gd gd : GroupDescriptor.wf gd -> GroupDescriptor.read_from (ds_bytes gd) = Some gd.
Proof. intros Hx. pose proof (ds_read_bytes gd [] Hx) as E. by rewrite app_nil_r in E. Qed.

Lemma gd_checksum_total uuid nr gd : bytes_ok uuid -> GroupDescriptor.wf gd ->
  exists c, Checksum.group_descriptor uuid nr gd = Some c /\ uint 16 c.
Proof.
  intros Hu Hw. rewrite group_descriptor_eq by done. eexists. split; [done|]. apply crc16_uint; [done|].
  apply bytes_ok_app. split; [done|]. apply bytes_ok_app. split; [apply to_le_bytes_ok|]. apply Forall_take.
  unfold ds_bytes. apply Forall_concat. by apply ds_layout_ok.
Qed.

(** Descriptor [i] of a table, as it reads back. *)
Definition reads_descriptor (uuid table : buffer) (i : Z) (gd : GroupDescriptor.t) : Prop :=
  exists c, Checksum.group_descriptor uuid i gd = Some c /\
    GroupDescriptor.read_from (slice (i * GroupDescriptor.SIZE) GroupDescriptor.SIZE table) =
      Some (GroupDescriptor.set_checksum c gd).

Lemma put_descriptors_spec uuid gds : bytes_ok uuid -> Forall GroupDescriptor.wf gds ->
  forall nr buf, 0 <= nr -> (nr + zlen gds) * 32 <= zlen buf ->
  exists buf', put_descriptors uuid nr gds buf = Some buf' /\ zlen buf' = zlen buf /\
    (forall p n, 0 <= p -> 0 <= n -> p + n <= nr * 32 -> slice p n buf' = slice p n buf) /\
    (forall i gd, gds !! i = Some gd -> reads_descriptor uuid buf' (nr + Z.of_nat i) gd).
Proof.
  intros Hu Hw. induction Hw as [|gd gds Hgd Hgds IH]; intros nr buf Hnr Hl; cbn [put_descriptors].
  { exists buf. do 3 (split; [done|]). intros i gd Hi. by rewrite lookup_nil in Hi. }
  rewrite zlen_cons in Hl. pose proof (zlen_nonneg gds). destruct (gd_checksum_total uuid nr gd Hu Hgd) as (c & Ec & Hc). rewrite Ec.
  cbn [mbind option_bind]. pose proof (GroupDescriptor.set_checksum_wf c gd Hgd Hc) as Hwc.
  assert (Hb : zlen (ds_bytes (GroupDescriptor.set_checksum c gd)) = 32) by by apply gd_bytes_zlen.
  rewrite (with_slice_ok _ _ _ _ (ds_bytes (GroupDescriptor.set_checksum c gd))); unfold GroupDescriptor.SIZE in *;
    [|lia|lia|apply write_gd; [done|rewrite zlen_slice; lia]]. cbn [mbind option_bind].
  set (buf1 := splice buf _ _). assert (Hl1 : zlen buf1 = zlen buf) by (unfold buf1; apply zlen_splice; lia).
  destruct (IH (nr + 1) buf1) as (buf' & -> & Hl' & Hkeep & Hread); [lia|lia|].
  exists buf'. split; [done|]. split; [lia|]. split.
  - intros p n Hp Hn Hpn. rewrite Hkeep by lia. apply slice_splice_miss; lia.
  - intros [|i] x Hx; simplify_eq/=.
    + rewrite Z.add_0_r. exists c. split; [done|]. unfold GroupDescriptor.SIZE. rewrite Hkeep by lia.
      assert (E : slice (nr * 32) 32 buf1 = ds_bytes (GroupDescriptor.set_checksum c x)).
      { rewrite <- Hb. apply slice_splice_hit; lia. }
      rewrite E. by apply read_gd.
    + replace (nr + Z.of_nat (S i)) with (nr + 1 + Z.of_nat i) by lia. by apply Hread.
Qed.

(** ** Backup groups *)

Lemma filter_groups_spec groups : Forall (uint 32) groups ->
  exists gs, filter_groups groups = Some gs /\ sublist gs groups /\
    (forall g, g ∈ gs <-> g ∈ groups /\ g <> 0 /\ sparse_group g).
Proof.
  induction 1 as [|g groups Hg _ IH]; cbn [filter_groups].
  { exists []. split; [done|]. split; [constructor|]. intros g. rewrite elem_of_nil. tauto. }
  unfold has_sparse_super_backup. destruct (has_sparse_super_spec g Hg) as (b & -> & Hb). cbn [mbind option_bind].
  destruct IH as (gs & -> & Hsub & Hin). cbn [mbind option_bind]. eexists. split; [done|].
  destruct (Z.eqb_spec g 0) as [->|Hz]; [|destruct b]; cbn [negb andb];
    (split; [by constructor|]); intros x; rewrite ?elem_of_cons, Hin.
  - naive_solver.
  - assert (sparse_group g) by by apply Hb. naive_solver.
  - assert (~ sparse_group g) by (intros ?%Hb; done). naive_solver.
Qed.

Lemma backup_groups_spec total : 1 <= total <= 2 ^ 16 ->
  exists gs, backup_groups total = Some gs /\ NoDup gs /\ Forall (fun g => 1 <= g < 2 ^ 16) gs /\
    (forall g, g ∈ gs <-> 1 <= g < total /\ sparse_group g).
Proof.
  intros Ht. unfold backup_groups. destruct (filter_groups_spec (seqZ 1 (total - 1))) as (gs & E & Hsub & Hin).
  { apply Forall_forall. intros g Hg%elem_of_seqZ. unfold uint. lia. }
  exists gs. split; [done|]. split; [eapply sublist_NoDup; [apply NoDup_seqZ|done]|]. split.
  - apply Forall_forall. intros g [Hg%elem_of_seqZ _]%Hin. lia.
  - intros g. rewrite Hin, elem_of_seqZ. split; [intros (? & ? & ?); split; [lia|done]|intros [? ?]; split; [lia|split; [lia|done]]].
Qed.

(** ** The superblock *)

(** What [close] feeds into the superblock, within the range of a disk of 2^16 groups. *)
Record sb_inputs (ipg total used_blocks used_inodes reserved : Z) (uuid : buffer) (label : option buffer) : Prop := {
  si_ipg : 0 < ipg <= 32768;
  si_total : 1 <= total <= 2 ^ 16;
  si_blocks : 0 <= used_blocks <= total * 32768;
  si_inodes : 0 <= used_inodes <= total * ipg;
  si_fit : total * ipg < 2 ^ 32 /\ total * 32768 < 2 ^ 32;
  si_reserved : uint 16 reserved;
  si_uuid : zlen uuid = 16 /\ bytes_ok uuid;
  si_label : forall l, label = Some l -> zlen l <= 16 /\ bytes_ok l }.

Lemma wrap_uint_lit w x : (0 <=? w) = true -> uint w (wrap w x).
Proof. intros H%Z.leb_le. by apply wrap_uint. Qed.

Ltac sb_field :=
  first [ assumption | apply wrap_uint_lit; reflexivity
        | apply (bool_decide_unpack _); vm_compute; exact I ].

Lemma superblock_ok ipg total used_blocks used_inodes reserved uuid label :
  sb_inputs ipg total used_blocks used_inodes reserved uuid label ->
  exists sb, superblock 4096 32768 ipg total used_blocks used_inodes reserved uuid label = Some sb /\ SuperBlock.wf sb /\
    SuperBlock.magic sb = SUPERBLOCK_MAGIC /\ SuperBlock.log_block_size sb = 2 /\ SuperBlock.uuid sb = uuid /\
    SuperBlock.inodes_count sb = total * ipg /\ SuperBlock.free_inodes_count sb = total * ipg - used_inodes /\
    SuperBlock.blocks_count_lo sb = total * 32768 /\ SuperBlock.free_blocks_count_lo sb = total * 32768 - used_blocks /\
    SuperBlock.reserved_gdt_blocks sb = reserved.
Proof.
  intros [Hi Ht Hb Hu [Hf1 Hf2] Hr [Hul Huo] Hlab]. unfold superblock, umul, usub.
  rewrite (chk_some 64 (total * ipg)) by (unfold uint; lia). cbn [mbind option_bind].
  rewrite (chk_some 64 (total * 32768)) by (unfold uint; lia). cbn [mbind option_bind].
  rewrite (proj2 (Z.ltb_ge (total * 32768) used_blocks)) by lia.
  rewrite (wrap_id 32 (total * ipg)) by (unfold uint; lia).
  rewrite (chk_some 32 (total * ipg - used_inodes)) by (unfold uint; lia). cbn [mbind option_bind].
  assert (Hv : exists v, match label with Some bytes => put_bytes (replicate 16 0) 0 bytes | None => Some (replicate 16 0) end = Some v /\
                 zlen v = 16 /\ bytes_ok v).
  { destruct label as [l|]; [|exists (replicate 16 0); split_and!; [done|done|apply bytes_ok_zeros]].
    destruct (Hlab l eq_refl) as [Hl Ho]. rewrite put_bytes_in by (change (zlen (replicate 16 0)) with 16; lia).
    eexists. split; [done|]. split; [apply zlen_splice; change (zlen (replicate 16 0)) with 16; lia|].
    apply bytes_ok_splice; [apply bytes_ok_zeros|done]. }
  destruct Hv as (v & -> & Hv & Hvo). cbn [mbind option_bind]. eexists. split; [reflexivity|]. split.
  - assert (uint 32 (total * ipg)) by (unfold uint; lia). assert (uint 32 (total * ipg - used_inodes)) by (unfold uint; lia).
    assert (uint 32 ipg) by (unfold uint; lia). unfold SuperBlock.wf. cbn -[wrap Z.mul Z.sub Z.lor replicate].
    repeat (split; [sb_field|]). sb_field.
  - cbn -[wrap Z.mul Z.sub]. rewrite Z.max_r, !wrap_id by (unfold uint in *; lia). done.
Qed.

(** The superblock at [pos] of a file is [sb]. *)
Definition reads_superblock (f : buffer) (pos : Z) (sb : SuperBlock.t) : Prop :=
  exists b, file_read f pos SUPERBLOCK_SIZE = Some b /\ SuperBlock.read_from b = Some sb.

Lemma reads_superblock_written f ws pos sb : SuperBlock.wf sb -> separate ws -> (pos, ds_bytes sb) ∈ ws ->
  reads_superblock (apply_writes f ws) pos sb.
Proof.
  intros Hsb Hs Hin. exists (ds_bytes sb). pose proof (apply_writes_read ws f _ Hs Hin) as E. simpl in E.
  rewrite sb_bytes_zlen in E by done. split; [exact E|]. pose proof (ds_read_bytes sb [] Hsb) as Er. by rewrite app_nil_r in Er.
Qed.

(** C10 tables_readback: The last stage of [close] neither fails nor panics, and afterwards
    the image holds, at byte 1024 and at the start of every other group that ext4's
    sparse-super rule names, a superblock that reads back as the one [close] computed, with
    the group's number in the copies, and in the following block a descriptor table in
    which every group's descriptor reads back with the CRC-16 bound to the image's
    identifier and the group's number.  Blocks have 4096 bytes, there is one descriptor per
    group, and the counts are within the bounds [sb_inputs] lists, those of the format. *)
Theorem tables_readback s ipg total used_blocks used_inodes reserved uuid label gds :
  s.(f_disk).(d_block_size) = 4096 ->
  sb_inputs ipg total used_blocks used_inodes reserved uuid label ->
  Forall GroupDescriptor.wf gds -> zlen gds = total ->
  exists n sb table groups s',
    descriptor_blocks_for_groups 4096 total = Some n /\
    superblock 4096 32768 ipg total used_blocks used_inodes reserved uuid label = Some sb /\
    put_descriptors uuid 0 gds (replicate (Z.to_nat (n * 4096)) 0) = Some table /\
    backup_groups total = Some groups /\
    write_tables sb table groups s = (Ok tt, s') /\
    (forall i gd, gds !! i = Some gd -> reads_descriptor uuid table (Z.of_nat i) gd) /\
    reads_superblock s'.(f_disk).(d_file) 1024 sb /\
    file_read s'.(f_disk).(d_file) 4096 (zlen table) = Some table /\
    (forall g, 1 <= g < total -> sparse_group g ->
       reads_superblock s'.(f_disk).(d_file) (g * GROUP_BYTES) (with_block_group_nr g sb) /\
       file_read s'.(f_disk).(d_file) (g * GROUP_BYTES + 4096) (zlen table) = Some table).
Proof.
  intros Hbs Hin Hgds Hlen. pose proof (si_total _ _ _ _ _ _ _ Hin) as Ht. pose proof (si_uuid _ _ _ _ _ _ _ Hin) as [_ Hu].
  destruct (superblock_ok _ _ _ _ _ _ _ Hin) as (sb & Esb & Hsb & _).
  set (n := (total - 1) / 128 + 1). assert (Hn : total <= n * 128 /\ 1 <= n <= 512).
  { unfold n. pose proof (Z.div_mod (total - 1) 128). pose proof (Z.mod_pos_bound (total - 1) 128). lia. }
  destruct (put_descriptors_spec uuid gds Hu Hgds 0 (replicate (Z.to_nat (n * 4096)) 0)) as (table & Et & Hl & _ & Hread);
    [lia|rewrite zlen_replicate; lia|]. rewrite zlen_replicate in Hl by lia.
  destruct (backup_groups_spec total Ht) as (groups & Eg & Hnd & Hr & Hgs).
  destruct (write_tables_ok sb table Hsb groups s Hbs Hr) as (s' & Ew & pos & Es').
  pose proof (table_writes_separate sb table Hsb ltac:(lia) groups Hnd Hr) as Hsep.
  exists n, sb, table, groups, s'. split.
  { unfold descriptor_blocks_for_groups, usub, uadd. rewrite chk_some by (unfold uint; lia). cbn [mbind option_bind].
    change (groups_per_descriptor_block 4096) with 128. apply chk_some. unfold uint. fold n. lia. }
  do 4 (split; [done|]). split; [exact Hread|]. subst s'. cbn [set_disk f_disk d_file].
  split; [apply reads_superblock_written; [done|done|]|].
  { unfold table_writes. apply elem_of_app. left. do 2 apply list_elem_of_further. by left. }
  split; [apply (apply_writes_read _ _ (4096, table)); [done|by left]|].
  intros g Hg Hsp. assert (Hin' : forall w, w ∈ backup_writes sb table g -> w ∈ table_writes sb table groups).
  { intros w Hw. unfold table_writes. apply elem_of_app. right. apply list_elem_of_bind. exists g. split; [done|]. by apply Hgs. }
  unfold backup_writes in Hin'. rewrite wrap_id in Hin' by (unfold uint; lia). split.
  - apply reads_superblock_written; [apply with_block_group_nr_wf; [done|unfold uint; lia]|done|]. apply Hin'. by left.
  - apply (apply_writes_read _ _ (g * GROUP_BYTES + 4096, table)); [done|]. apply Hin'. right. by left.
Qed.

Lemma tables_readback_witness :
  exists sb table s', write_tables sb table [1; 3] (fresh sample_clock (options_new 0)) = (Ok tt, s') /\
    reads_superblock s'.(f_disk).(d_file) (3 * GROUP_BYTES) (with_block_group_nr 3 sb) /\
    reads_descriptor pinned_uuid table 2 pinned_gd.
Proof.
  destruct (tables_readback (fresh sample_clock (options_new 0)) 8192 4 5000 11 31 pinned_uuid None (replicate 4 pinned_gd))
    as (n & sb & table & groups & s' & _ & _ & _ & Eg & Ew & Hd & _ & _ & Hb); [done| | |done|].
  - split; [lia|lia|lia|lia|lia|done| |done]. split; [done|]. apply (bool_decide_unpack _). vm_compute. exact I.
  - apply Forall_replicate. apply (bool_decide_unpack _). vm_compute. exact I.
  - exists sb, table, s'. vm_compute in Eg. injection Eg as <-. split; [exact Ew|]. split.
    + apply Hb; [lia|]. right. right. exists 3, 1. split; [by left|]. lia.
    + exact (Hd 2%nat pinned_gd eq_refl).
Defined.

(** ** Where the layout does not hold up *)

(** The inode table is placed right behind the data, also across the start of a group
    that gets a superblock copy: with 40 inodes and data up to block 32766, inode 17 lies
    where the copy of group 1 is written afterwards ([tables_readback]). *)
Example inode_table_overwritten :
  optimize_block_group_layout 4096 32767 40 = Some (2, 8192) /\
  (exists p, plan_layout 4096 32767 2 8192 = Some p /\ p.(p_table) * 4096 + 16 * INODE_SIZE = 1 * GROUP_BYTES) /\
  backup_groups 2 = Some [1] /\ sparse_group 1.
Proof.
  split; [by vm_compute|]. split; [eexists; split; [by vm_compute|by vm_compute]|]. split; [by vm_compute|]. right. by left.
Qed.

(** The descriptor area [close] compares with is computed from the size the image has
    grown to, not from the one the first data block was placed by: an image declared
    with 1 MiB keeps 32 blocks free, and with 17 GiB of content passes the check for 64,
    of which blocks 33 to 64 hold data. *)
Example descriptor_area_grows :
  group_descriptor_blocks 4096 (2 ^ 20) = Some 32 /\
  group_descriptor_blocks 4096 (17 * 2 ^ 30) = Some 64 /\
  group_descriptor_area_blocks_for_groups 4096 136 = Some 64.
Proof. by vm_compute. Qed.
