(* ===== verification/FormatterLimits.v ===== *)
(** * Where the formatter departs from its documentation

    Runs of the formatter whose outcome is not what the names and comments of
    [formatter.rs] announce.  Each is a theorem about the definitions of
    [Formatter.v] on a concrete state; the states are reached by the public
    operations. *)

From stdpp Require Import base list option numbers strings gmap.
From S2P Require Import Prelude Bytes Utf8 Errors Constants DiskTypes Image Extent Xattr Geometry Paths FileTree Formatter UnlinkSpec.

Definition DIR : Z := make_mode file_mode.S_IFDIR 0x1ED.
Definition mode_of (s : Formatter) (ino : Z) : option Z := Inode.mode <$> get_inode s ino.
Definition links_of (s : Formatter) (ino : Z) : option Z := Inode.links_count <$> get_inode s ino.

(** The node of a hard link carries the root's inode number as a
    placeholder, and the operations that look only at that number act on the root
    directory: changing the permissions of the link [/g] of a file changes the
    root's and not the file's, a file can be created below the link, and linking
    to the link is refused as linking to a directory. *)
Theorem hard_link_stands_for_root :
  mode_of (set_permissions (bstr "/g") 0x1C0 sample_fs).2 ROOT_INODE = Some 0x41C0 /\
  mode_of sample_fs ROOT_INODE = Some 0x41ED /\
  mode_of (set_permissions (bstr "/g") 0x1C0 sample_fs).2 14 = mode_of sample_fs 14 /\
  (let r := create_path sample_clock (bstr "/g/x") REG None None None None None None sample_fs in
   r.1 = Ok tt /\ list_dir r.2 (bstr "/g") = Some [bstr "x"]) /\
  (link sample_clock (bstr "/h") (bstr "/g") sample_fs).1 = Err (CannotHardlinkDirectory (bstr "/g")).
Proof. vm_compute. repeat split; reflexivity. Qed.

(** Removing a directory takes its link count from 2 to 1 and never to
    0, so its inode is not reset: after [unlink /a] the inodes of [/a] and [/a/b]
    are still directories with one link although no path leads to them. *)
Theorem unlink_keeps_directory_inode :
  let r := unlink_path sample_clock (bstr "/a") false sample_fs in
  r.1 = Ok tt /\ exists_path r.2 (bstr "/a") = Some false /\
  links_of sample_fs 13 = Some 2 /\
  (links_of r.2 12 = Some 1 /\ mode_of r.2 12 = Some 0x41ED) /\
  (links_of r.2 13 = Some 1 /\ mode_of r.2 13 = Some 0x41ED).
Proof. vm_compute. repeat split; reflexivity. Qed.

(** [link] removes an existing entry at the link path after it has
    looked up the target; when the target lies below that entry the target is
    deleted first and the new link names an empty inode. *)
Theorem link_over_own_directory :
  let s := (unlink_path sample_clock (bstr "/g") false sample_fs).2 in
  let r := link sample_clock (bstr "/a") (bstr "/a/b/f") s in
  r.1 = Ok tt /\ links_of s 14 = Some 1 /\ mode_of s 14 = Some 0x81A4 /\
  links_of r.2 14 = Some 1 /\ mode_of r.2 14 = Some 0 /\ list_dir r.2 (bstr "/") = Some [bstr "lost+found"; bstr "a"].
Proof. vm_compute. repeat split; reflexivity. Qed.

(** The sample with the link count of [/a/b/f] at the limit. *)
Definition crowded : Formatter :=
  default sample_fs (upd_inode 14 (fun x => Some (Inode.set_links_count MAX_LINKS x)) sample_fs).

(** [link] compares the link count of the parent directory with
    [MAX_LINKS], not the count it increments: a file that has [MAX_LINKS] links
    can be linked once more. *)
Theorem link_past_the_limit :
  links_of crowded 14 = Some MAX_LINKS /\
  let r := link sample_clock (bstr "/h") (bstr "/a/b/f") crowded in
  r.1 = Ok tt /\ links_of r.2 14 = Some (MAX_LINKS + 1).
Proof. vm_compute. repeat split; reflexivity. Qed.

(** ** A directory entry called [.] *)

(** [/a] and then [/a/.]: [Path::components] drops the dot, so the lookup finds
    [/a], whose name is not the base name [.], and a second entry is created. *)
Definition dotted : Formatter :=
  let run := _ <~ create_path sample_clock (bstr "/a") DIR None None None None None None ;;
             create_path sample_clock (bstr "/a/.") DIR None None None None None None in
  (run (fresh sample_clock (options_new 4096))).2.

Lemma components_dot p : components (p ++ slash :: dot) = components p \/ p = [].
Proof.
  destruct p as [|c p]; [by right|]. left. unfold components. rewrite split_app_slash, filter_app.
  change (split_slash dot) with [dot]. rewrite (filter_cons_False _ dot) by (by vm_compute).
  rewrite filter_nil, app_nil_r. destruct (split_slash (c :: p)) as [|x l] eqn:E; [by apply split_nonempty in E|].
  simpl. by destruct (c =? slash).
Qed.

Lemma dotted_loop fuel : forall path, components path = [root_path; bstr "a"] ->
  unlink sample_clock fuel path false dotted = (Panic, dotted).
Proof.
  induction fuel as [|fuel IH]; intros path Hp; cbn [unlink]; [done|]. unfold lookup_path.
  rewrite (bind_reads _ _ _ (Some 1%nat)) by (unfold lookup; rewrite Hp; vm_compute; reflexivity).
  set (n := node_at dotted "/a").
  rewrite (bind_reads _ _ _ n) by (vm_compute; reflexivity).
  rewrite (bind_reads _ _ _ 10%nat) by (vm_compute; reflexivity).
  rewrite (bind_reads _ _ _ 10%nat) by (vm_compute; reflexivity).
  rewrite (bind_ok _ _ _ true dotted) by (vm_compute; reflexivity). cbn [andb].
  rewrite (bind_reads _ _ _ [dot]) by (vm_compute; reflexivity). cbn [for_each].
  assert (Hc : components (child_path path dot) = [root_path; bstr "a"]).
  { unfold child_path. rewrite bool_decide_eq_false_2 by (intros ->; by vm_compute in Hp).
    destruct (components_dot path) as [-> | ->]; [done|by vm_compute in Hp]. }
  unfold bind at 2. unfold bind at 1. by rewrite IH.
Qed.

(** The public operations can put an entry called [.] into a
    directory ([create("/a")], then [create("/a/.")]), and on that state
    [unlink("/a")] recurses into the same directory for ever: no amount of stack
    is enough. *)
Theorem unlink_dot_entry_diverges :
  list_dir dotted (bstr "/a") = Some [dot] /\
  forall fuel, (unlink sample_clock fuel (bstr "/a") false dotted).1 = Panic.
Proof.
  split; [vm_compute; reflexivity|]. intros fuel. by rewrite dotted_loop.
Qed.
