(* ===== verification/SampleImage.v ===== *)
(** * A small image

    Six blocks: superblock, descriptors, sixteen inodes, the root directory with a
    directory [d] and the symbolic links [l -> d], [g -> d/f] and [z -> z], the directory
    [d] with the regular file [f] and the symbolic link [a -> /d/f], and the contents of [f].  The reader's
    operations are evaluated on it. *)

From stdpp Require Import base list list_numbers option numbers strings gmap.
From S2P Require Import Prelude Bytes Utf8 Str Errors Constants SuperBlock DiskTypes Dir Image Extent Paths FileTree Close Reader.

Definition oget {A} (d : A) (o : option A) : A := default d o.

Definition sample_sb : SuperBlock.t := oget SuperBlock.default (superblock 4096 32768 16 1 10 10 0 (replicate 16 7) None).

Definition sample_gd : GroupDescriptor.t :=
  {| GroupDescriptor.block_bitmap_lo := 0; GroupDescriptor.inode_bitmap_lo := 0; GroupDescriptor.inode_table_lo := 2;
     GroupDescriptor.free_blocks_count_lo := 0; GroupDescriptor.free_inodes_count_lo := 0; GroupDescriptor.used_dirs_count_lo := 2;
     GroupDescriptor.flags := 0; GroupDescriptor.exclude_bitmap_lo := 0; GroupDescriptor.block_bitmap_csum_lo := 0;
     GroupDescriptor.inode_bitmap_csum_lo := 0; GroupDescriptor.itable_unused_lo := 0; GroupDescriptor.checksum := 0 |}.

(** An inode whose one block is [b]; a short symbolic link. *)
Definition block_inode (mode size b : Z) : Inode.t :=
  let i := Inode.set_file_size size (Inode.set_links_count 1 (Inode.set_mode mode Inode.default)) in
  oget i (fst <$> (fst <$> write_extents i [mk_range b (b + 1)] 4096 [] 100)).
Definition link_inode (target : buffer) : Inode.t :=
  let i := Inode.set_file_size (zlen target) (Inode.set_links_count 1 (Inode.set_mode 0xA1FF Inode.default)) in
  Inode.set_block (oget [] (put_bytes (Inode.block i) 0 target)) i.

Definition sample_inodes : list Inode.t :=
  [Inode.default; block_inode 0x41ED 4096 3] ++ replicate 8 Inode.default ++
  [block_inode 0x41ED 4096 4; block_inode 0x81A4 5 5; link_inode (bstr "d"); link_inode (bstr "d/f"); link_inode (bstr "z"); link_inode (bstr "/d/f")].

Definition sample_root_dir : buffer := oget [] (fst <$> write_entries [] 4096 4096
  [mk_dirent (bstr ".") 2 0x41ED None; mk_dirent (bstr "..") 2 0x41ED None; mk_dirent (bstr "d") 11 0x41ED None;
   mk_dirent (bstr "l") 13 0xA1FF None; mk_dirent (bstr "g") 14 0xA1FF None; mk_dirent (bstr "z") 15 0xA1FF None]).
Definition sample_sub_dir : buffer := oget [] (fst <$> write_entries [] 4096 4096
  [mk_dirent (bstr ".") 11 0x41ED None; mk_dirent (bstr "..") 2 0x41ED None; mk_dirent (bstr "f") 12 0x81A4 None;
   mk_dirent (bstr "a") 16 0xA1FF None]).

Definition pad_block (b : buffer) : buffer := b ++ replicate (4096 - length b) 0.

Definition sample_image : buffer :=
  replicate 1024 0 ++ oget [] (SuperBlock.write_to sample_sb (replicate 1024 0)) ++ replicate 2048 0 ++
  pad_block (oget [] (GroupDescriptor.write_to sample_gd (replicate 32 0))) ++
  concat ((fun i => oget [] (Inode.write_to i (replicate 256 0))) <$> sample_inodes) ++
  sample_root_dir ++ sample_sub_dir ++ pad_block (bstr "hello").

(** The reader opens it. *)
Definition sample_reader : Reader :=
  match reader_new 10 (bstr "image") (Some sample_image) with
  | Some (Ok r) => r
  | _ => mk_reader [] SuperBlock.default ∅ ∅ (new_tree ROOT_INODE dot) ∅
  end.

Example sample_opens :
  zlen sample_image = 6 * 4096 /\
  (n_name <$> sample_reader.(r_tree).(t_nodes)) = bstr <$> [".";"d";"g";"l";"z";"a";"f"]%string /\
  (stat (bstr "/l/f") sample_reader).1 = (stat (bstr "/d/f") sample_reader).1 /\
  (read_file (bstr "/g") 1 (Some 3) sample_reader).1 = Ok (bstr "ell") /\
  (read_list_dir (bstr "/l/../d") sample_reader).1 = Ok [bstr "a"; bstr "f"] /\
  (stat (bstr "/d/a") sample_reader).1 = (stat (bstr "/d/f") sample_reader).1 /\
  (stat_no_follow (bstr "/d/a") sample_reader).1 = Ok (16, link_inode (bstr "/d/f")) /\
  (stat (bstr "/z") sample_reader).1 = Err (SymlinkLoop (bstr "/z")).
Proof. vm_compute. done. Qed.

(** *** Where path resolution departs from its description *)

(** Looking up [/l/f] without following the last component does not follow the first
    one either. *)
Example no_follow_stops_early :
  (stat_no_follow (bstr "/l/f") sample_reader).1 = Err (NotADirectory (bstr "f")) /\
  exists i, (stat (bstr "/l/f") sample_reader).1 = Ok (12, i).
Proof. split; [vm_compute; done|]. eexists. vm_compute. done. Qed.

(** A link that occurs twice in a path, without any loop, is reported as a loop. *)
Example repeated_link_is_a_loop :
  (stat (bstr "/l/../l/f") sample_reader).1 = Err (SymlinkLoop (bstr "/l/../l/f")).
Proof. vm_compute. done. Qed.

(** [..] after a regular file leads to the file's directory. *)
Example dotdot_after_file :
  (stat (bstr "/d/f/..") sample_reader).1 = (stat (bstr "/d") sample_reader).1.
Proof. vm_compute. done. Qed.
