(* ===== verification/ReaderSpec.v ===== *)
(** * What the reader returns

    Theorems about [Reader]: the caches are unobservable, opening an image ends, files
    read back what their extents hold. *)

From stdpp Require Import base list list_numbers option numbers strings gmap.
From S2P Require Import Prelude Bytes Utf8 Str Errors Constants SuperBlock DiskTypes Dir Image Extent Xattr Paths FileTree Reader SampleImage.

(** ** The caches *)

(** The inode a number stands for, read from the image. *)
Definition inode_at (f : buffer) (sb : SuperBlock.t) (number : Z) : outcome ReadError Inode.t :=
  loc <-! inode_location sb number ;;
  gd <- read_group_descriptor f sb loc.1 ;;
  read_inode_in f sb number loc.2 gd.

(** What the caches hold is what the image holds. *)
Record coherent (r : Reader) : Prop := {
  co_gds : forall n gd, r.(r_group_descriptors) !! n = Some gd -> read_group_descriptor r.(r_file) r.(r_superblock) n = Ok gd;
  co_inodes : forall n i, r.(r_inodes) !! n = Some i -> inode_at r.(r_file) r.(r_superblock) n = Ok i }.

(** A reader without its caches. *)
Definition cold (r : Reader) : Reader := mk_reader r.(r_file) r.(r_superblock) ∅ ∅ r.(r_tree) r.(r_hardlinks).

Definition agree (r1 r2 : Reader) : Prop := coherent r1 /\ coherent r2 /\ cold r1 = cold r2.

(** The result does not depend on the caches, and only the caches change. *)
Definition transparent {A} (m : R A) : Prop := forall r1 r2, agree r1 r2 ->
  (m r1).1 = (m r2).1 /\ agree (m r1).2 (m r2).2 /\ cold (m r1).2 = cold r1.

Lemma coherent_cold r : coherent (cold r).
Proof. split; intros n x; cbn [cold r_group_descriptors r_inodes]; by rewrite lookup_empty. Qed.

Lemma agree_cold r : coherent r -> agree r (cold r).
Proof. intros H. split; [done|]. split; [apply coherent_cold|done]. Qed.

Lemma agree_image r1 r2 : agree r1 r2 -> r1.(r_file) = r2.(r_file) /\ r1.(r_superblock) = r2.(r_superblock).
Proof. intros (_ & _ & E). by injection E. Qed.

Lemma transparent_const {A} (o : outcome ReadError A) : transparent (fun r => (o, r)).
Proof. intros r1 r2 H. done. Qed.

Lemma transparent_image {A} (g : Reader -> A) : (forall r, g r = g (cold r)) -> transparent (rget g).
Proof. intros Hg r1 r2 H. split; [|done]. simpl. destruct H as (_ & _ & E). by rewrite (Hg r1), (Hg r2), E. Qed.

Lemma transparent_bind {A B} (m : R A) (k : A -> R B) : transparent m -> (forall a, transparent (k a)) -> transparent (rbind m k).
Proof.
  intros Hm Hk r1 r2 H. destruct (Hm r1 r2 H) as (E & Ha & Hc). unfold rbind.
  destruct (m r1) as [o1 s1], (m r2) as [o2 s2]. simpl in *. subst o2. destruct o1 as [a|e|]; [|done..].
  destruct (Hk a s1 s2 Ha) as (E' & Ha' & Hc'). split; [done|]. split; [done|]. congruence.
Qed.

(** A computation that is a function of the image, and fills the caches coherently. *)
Lemma transparent_computes {A} (m : R A) (o : buffer -> SuperBlock.t -> outcome ReadError A) :
  (forall r, coherent r -> (m r).1 = o r.(r_file) r.(r_superblock) /\ coherent (m r).2 /\ cold (m r).2 = cold r) -> transparent m.
Proof.
  intros Hm r1 r2 H. pose proof (agree_image _ _ H) as [Ef Es]. destruct H as (H1 & H2 & E).
  destruct (Hm r1 H1) as (E1 & C1 & F1), (Hm r2 H2) as (E2 & C2 & F2). split; [by rewrite E1, E2, Ef, Es|].
  split; [|done]. split; [done|]. split; [done|]. congruence.
Qed.

Lemma get_group_descriptor_computes n r : coherent r ->
  (get_group_descriptor n r).1 = read_group_descriptor r.(r_file) r.(r_superblock) n /\
  coherent (get_group_descriptor n r).2 /\ cold (get_group_descriptor n r).2 = cold r.
Proof.
  intros Hr. unfold get_group_descriptor. destruct (r_group_descriptors r !! n) as [gd|] eqn:E.
  { by rewrite (co_gds r Hr n gd E). }
  destruct (read_group_descriptor _ _ n) as [gd|e|] eqn:Er; [|done..]. simpl. split; [done|]. split; [|done].
  split; simpl; [|apply Hr]. intros m x. destruct (decide (n = m)) as [->|Hne].
  - rewrite lookup_insert_eq. by intros [= <-].
  - rewrite lookup_insert_ne by done. apply Hr.
Qed.

Lemma read_inode_computes n r : coherent r ->
  (read_inode n r).1 = inode_at r.(r_file) r.(r_superblock) n /\ coherent (read_inode n r).2 /\ cold (read_inode n r).2 = cold r.
Proof.
  intros Hr. unfold read_inode, inode_at, rbind, rget, rmust. simpl. destruct (inode_location _ n) as [loc|]; [|done]. simpl.
  destruct (get_group_descriptor_computes loc.1 r Hr) as (E & Hc & Hf).
  destruct (get_group_descriptor loc.1 r) as [o r']. simpl in *. subst o.
  destruct (read_group_descriptor _ _ _) as [gd|e|]; [|done..]. simpl. split; [|done]. by injection Hf as -> _ _ _.
Qed.

Lemma get_inode_computes n r : coherent r ->
  (get_inode n r).1 = inode_at r.(r_file) r.(r_superblock) n /\ coherent (get_inode n r).2 /\ cold (get_inode n r).2 = cold r.
Proof.
  intros Hr. unfold get_inode, rbind, rget. destruct (r_inodes r !! n) as [i|] eqn:E.
  { simpl. by rewrite (co_inodes r Hr n i E). }
  destruct (read_inode_computes n r Hr) as (Eo & Hc & Hf). destruct (read_inode n r) as [o r']. simpl in *. subst o.
  destruct (inode_at _ _ n) as [i|e|] eqn:Ei; [|done..]. simpl. split; [done|]. split; [|done].
  injection Hf as Ef Es _ _. split; simpl; [apply Hc|]. intros m x. destruct (decide (n = m)) as [->|Hne].
  - rewrite lookup_insert_eq. intros [= <-]. congruence.
  - rewrite lookup_insert_ne by done. apply Hc.
Qed.

(** *** Every query is transparent *)

Lemma get_inode_transparent n : transparent (get_inode n).
Proof. apply (transparent_computes _ (fun f sb => inode_at f sb n)). intros r. apply get_inode_computes. Qed.

Create HintDb reader.
#[local] Hint Resolve get_inode_transparent transparent_const : reader.
Ltac transparent :=
  repeat first
    [ solve [eauto with reader]
    | apply transparent_const
    | apply transparent_image; intros; reflexivity
    | apply transparent_bind; [|intros]
    | case_match ].

Lemma block_size_transparent : transparent block_size.
Proof. unfold block_size. transparent. Qed.

Lemma extents_transparent i : transparent (extents_of_inode i).
Proof. unfold extents_of_inode. pose proof block_size_transparent. transparent. Qed.
#[local] Hint Resolve block_size_transparent extents_transparent : reader.

Lemma children_transparent n : transparent (children_of n).
Proof. unfold children_of, get_dir_entries. transparent. Qed.
#[local] Hint Resolve children_transparent : reader.

Lemma read_from_extents_transparent n start count : transparent (read_from_extents n start count).
Proof. unfold read_from_extents. transparent. Qed.
#[local] Hint Resolve read_from_extents_transparent : reader.

Lemma read_symlink_target_transparent i n : transparent (read_symlink_target i n).
Proof. unfold read_symlink_target. transparent. Qed.

Lemma go_up_transparent c st : transparent (go_up c st).
Proof. unfold go_up. transparent. Qed.

Lemma go_down_transparent c name : transparent (go_down c name).
Proof. unfold go_down. transparent. Qed.
#[local] Hint Resolve read_symlink_target_transparent go_up_transparent go_down_transparent : reader.

Lemma resolve_loop_transparent hops path follow : forall cs current stack visited,
  transparent (resolve_loop hops path follow cs current stack visited).
Proof.
  induction hops as [|hops IH]; intros cs; induction cs as [|name cs IHc]; intros current stack visited; cbn [resolve_loop];
    fold resolve_loop in *; transparent; by apply IHc.
Qed.

(** What a query owes to its caller. *)
Definition unaffected {A} (m : R A) (r : Reader) : Prop :=
  (m r).1 = (m (cold r)).1 /\ coherent (m r).2 /\ cold (m r).2 = cold r.

Lemma transparent_unaffected {A} (m : R A) r : transparent m -> coherent r -> unaffected m r.
Proof. intros Hm Hr. destruct (Hm r (cold r) (agree_cold r Hr)) as (E & (Hc & _ & _) & Hf). done. Qed.

#[local] Opaque MAX_SYMLINK_HOPS.

Lemma resolve_path_transparent path follow : transparent (resolve_path path follow).
Proof. unfold resolve_path. pose proof resolve_loop_transparent. transparent. Qed.
#[local] Hint Resolve resolve_path_transparent : reader.

Lemma path_exists_transparent path : transparent (path_exists path).
Proof.
  intros r1 r2 H. destruct (resolve_path_transparent path true r1 r2 H) as (E & Ha & Hc). unfold path_exists.
  destruct (resolve_path path true r1) as [o1 s1], (resolve_path path true r2) as [o2 s2]. simpl in *. subst o2. by destruct o1.
Qed.

Lemma read_file_transparent path offset count : transparent (read_file path offset count).
Proof. unfold read_file, stat. transparent. Qed.

Lemma read_list_dir_transparent path : transparent (read_list_dir path).
Proof. unfold read_list_dir, stat. transparent. Qed.

(** As long as the caches hold what the image holds, every query
    of the reader, on every path and with every outcome, errors included, returns what a
    reader with empty caches returns; it leaves the caches true to the image and changes
    nothing else, so queries can be made in any order. *)
Theorem queries_unaffected r path offset count : coherent r ->
  unaffected (stat path) r /\ unaffected (stat_no_follow path) r /\ unaffected (path_exists path) r /\
  unaffected (read_list_dir path) r /\ unaffected (read_file path offset count) r.
Proof.
  intros Hr. split_and!; apply transparent_unaffected; try done;
    [apply resolve_path_transparent..|apply path_exists_transparent|apply read_list_dir_transparent|apply read_file_transparent].
Qed.

(** ** Opening an image *)

Lemma file_read_bytes_ok f p n b : bytes_ok f -> file_read f p n = Some b -> bytes_ok b.
Proof.
  unfold file_read. intros Hf. destruct (_ && _); [intros [= <-]; by apply bytes_ok_slice|].
  destruct (_ =? _); [intros [= <-]; constructor|done].
Qed.

Lemma read_entry_wf data e : bytes_ok data -> DirectoryEntry.read_from data = Some e -> DirectoryEntry.wf e.
Proof.
  intros Hok E. destruct (Z.le_gt_cases DirectoryEntry.SIZE (zlen data)) as [Hl|Hl].
  - destruct (read_entry_total data Hok Hl) as (e' & E' & Hw). by simplify_eq.
  - pose proof (ds_read_short (A:=DirectoryEntry.t) data Hl) as Hs. change (ds_read data) with (DirectoryEntry.read_from data) in Hs. congruence.
Qed.

Lemma parse_loop_inodes fuel data off es : bytes_ok data -> parse_loop fuel data off = Some es -> Forall (fun e => uint 32 e.2) es.
Proof.
  intros Hok. revert off es. induction fuel as [|fuel IH]; intros off es; cbn [parse_loop]; [done|].
  destruct (_ <=? _); [|intros [= <-]; constructor].
  destruct (DirectoryEntry.read_from _) as [e|] eqn:E; [|done]. cbn [mbind option_bind].
  apply read_entry_wf in E as (Hi & _); [|by apply bytes_ok_drop].
  destruct (_ =? 0); [intros [= <-]; constructor|].
  destruct (parse_loop fuel data _) as [rest|] eqn:Er; [|done]. cbn [mbind option_bind]. intros [= <-].
  apply Forall_app. split; [|by eapply IH].
  repeat case_match; try apply Forall_nil_2; apply Forall_singleton; done.
Qed.

Lemma read_dir_blocks_inodes n f bs start i es : bytes_ok f -> read_dir_blocks n f bs start i = Ok es -> Forall (fun e => uint 32 e.2) es.
Proof.
  intros Hf. revert i es. induction n as [|n IH]; intros i es; cbn [read_dir_blocks]; [intros [= <-]; constructor|].
  intros (blk & _ & H)%obind_ok_inv. apply obind_ok_inv in H as (b & Hb & H). apply obind_ok_inv in H as (es1 & H1 & H).
  apply obind_ok_inv in H as (es2 & H2 & H). injection H as <-. apply Forall_app. split; [|by eapply IH].
  apply lift_ok_inv in H1. unfold ok_or in Hb. destruct (file_read f _ bs) as [b'|] eqn:Er; [|done]. injection Hb as <-.
  eapply parse_loop_inodes; [by eapply file_read_bytes_ok|exact H1].
Qed.

Lemma read_dir_extents_inodes f bs xs es : bytes_ok f -> read_dir_extents f bs xs = Ok es -> Forall (fun e => uint 32 e.2) es.
Proof.
  intros Hf. revert es. induction xs as [|[lo hi] xs IH]; intros es; cbn [read_dir_extents]; [intros [= <-]; constructor|].
  intros (pos & _ & H)%obind_ok_inv. destruct (2 ^ 63 <=? pos); [done|]. apply obind_ok_inv in H as (n & _ & H).
  apply obind_ok_inv in H as (es1 & H1 & H). apply obind_ok_inv in H as (es2 & H2 & H). injection H as <-.
  apply Forall_app. split; [by eapply read_dir_blocks_inodes|by apply IH].
Qed.

(** The steps of a computation that succeeds. *)
Lemma rbind_ok {A B} (m : R A) (k : A -> R B) r b r' : rbind m k r = (Ok b, r') ->
  exists a r1, m r = (Ok a, r1) /\ k a r1 = (Ok b, r').
Proof. unfold rbind. destruct (m r) as [[a|e|] r1]; intros H; simplify_eq. eauto. Qed.

Lemma transparent_ok {A} (m : R A) r a r' : transparent m -> coherent r -> m r = (Ok a, r') ->
  coherent r' /\ cold r' = cold r.
Proof. intros Hm Hr E. destruct (transparent_unaffected m r Hm Hr) as (_ & H). by rewrite E in H. Qed.

Lemma cold_inv r r' : cold r' = cold r ->
  r'.(r_file) = r.(r_file) /\ r'.(r_superblock) = r.(r_superblock) /\ r'.(r_tree) = r.(r_tree) /\ r'.(r_hardlinks) = r.(r_hardlinks).
Proof. by injection 1. Qed.

(** [get_inode] adds at most the inode it returns. *)
Lemma get_inode_cache n r i r' : get_inode n r = (Ok i, r') ->
  r'.(r_inodes) = (if decide (is_Some (r.(r_inodes) !! n)) then r.(r_inodes) else <[n := i]> r.(r_inodes)) /\
  r'.(r_inodes) !! n = Some i.
Proof.
  unfold get_inode. intros (c & r1 & [= <- <-] & H)%rbind_ok. destruct (r_inodes r !! n) as [j|] eqn:E.
  { injection H as <- <-. by rewrite decide_True by eauto. }
  rewrite decide_False by (by intros [? ?]).
  apply rbind_ok in H as (j & r2 & H1 & H). apply rbind_ok in H as ([] & r3 & [= <-] & H). injection H as <- <-. simpl.
  assert (E2 : r_inodes r2 = r_inodes r).
  { unfold read_inode in H1. apply rbind_ok in H1 as (? & ? & [= <- <-] & H1). apply rbind_ok in H1 as (loc & ? & Hl & H1).
    unfold rmust in Hl. injection Hl as _ <-. apply rbind_ok in H1 as (gd & r3 & Hg & H1).
    apply rbind_ok in H1 as (? & ? & [= <- <-] & H1). unfold rtry in H1. injection H1 as _ <-. unfold get_group_descriptor in Hg.
    repeat case_match; by simplify_eq/=. }
  rewrite E2. split; [done|]. apply lookup_insert_eq.
Qed.

Lemma extents_of_inode_state i r xs r' : extents_of_inode i r = (Ok xs, r') -> r' = r.
Proof.
  unfold extents_of_inode, block_size. intros (bs & r1 & H1 & H)%rbind_ok. apply rbind_ok in H1 as (? & ? & [= <- <-] & H1).
  unfold rmust in H1. injection H1 as _ <-. apply rbind_ok in H as (? & ? & [= <- <-] & H). unfold rtry in H. by injection H as _ <-.
Qed.

(** The invariant of the traversal: every node but the root stands for a cached inode,
    and no inode has two nodes. *)
Record scan_inv (f : buffer) (r : Reader) : Prop := {
  sc_file : r.(r_file) = f;
  sc_coherent : coherent r;
  sc_keys : forall n, is_Some (r.(r_inodes) !! n) -> uint 32 n;
  sc_tree : tree_wf r.(r_tree);
  sc_root : exists n, r.(r_tree).(t_nodes) !! 0%nat = Some n /\ n.(n_inode) = ROOT_INODE;
  sc_cached : forall i n, r.(r_tree).(t_nodes) !! i = Some n -> i <> 0%nat -> is_Some (r.(r_inodes) !! n.(n_inode));
  sc_unique : NoDup (n_inode <$> r.(r_tree).(t_nodes)) }.

Definition is_node (r : Reader) (i : nat) : Prop := is_Some (r.(r_tree).(t_nodes) !! i).

(** Reading a directory keeps the invariant, and caches the directory's inode. *)
Lemma get_inode_inv f n r i r' : scan_inv f r -> uint 32 n -> get_inode n r = (Ok i, r') ->
  scan_inv f r' /\ r'.(r_tree) = r.(r_tree) /\ is_Some (r'.(r_inodes) !! n) /\ (r.(r_inodes) ⊆ r'.(r_inodes)).
Proof.
  intros [Hf Hc Hk Ht Hr Hn Hu] Hn32 E. pose proof (get_inode_cache n r i r' E) as [Ec El].
  destruct (transparent_ok _ _ _ _ (get_inode_transparent n) Hc E) as [Hc' Hcold].
  destruct (cold_inv _ _ Hcold) as (Ef & _ & Et & _).
  assert (Hsub : r.(r_inodes) ⊆ r'.(r_inodes)).
  { rewrite Ec. case_decide as Hd; [done|]. apply insert_subseteq. by apply eq_None_not_Some. }
  split; [|by eauto]. split; rewrite ?Et; try done; [congruence| |].
  - intros m. rewrite Ec. case_decide; [apply Hk|]. destruct (decide (n = m)) as [->|]; [done|]. rewrite lookup_insert_ne by done. apply Hk.
  - intros j x Hj Hj0. destruct (Hn j x Hj Hj0) as [y Hy]. exists y. by eapply lookup_weaken.
Qed.

Lemma get_dir_entries_inv f n r es r' : bytes_ok f -> scan_inv f r -> uint 32 n -> get_dir_entries n r = (Ok es, r') ->
  scan_inv f r' /\ r'.(r_tree) = r.(r_tree) /\ is_Some (r'.(r_inodes) !! n) /\ (r.(r_inodes) ⊆ r'.(r_inodes)) /\
  Forall (fun e => uint 32 e.2) es.
Proof.
  intros Hf Hr Hn (i & r1 & H1 & H)%rbind_ok. apply rbind_ok in H as (xs & r2 & H2 & H). apply extents_of_inode_state in H2 as ->.
  apply rbind_ok in H as (bs & r3 & H3 & H). apply rbind_ok in H3 as (? & ? & [= <- <-] & H3). unfold rmust in H3. injection H3 as _ <-.
  apply rbind_ok in H as (f' & ? & [= <- <-] & H). apply rbind_ok in H as (es' & r4 & H4 & H). unfold rtry in H4. injection H4 as E4 <-.
  injection H as <- <-. destruct (get_inode_inv f n r i r1 Hr Hn H1) as (Hr1 & Et & Hs & Hsub). split; [done|]. split; [done|].
  split; [done|]. split; [done|]. rewrite sort_by_perm.
  eapply read_dir_extents_inodes; [|exact E4]. by rewrite (sc_file _ _ Hr1).
Qed.

(** The tree after a new entry. *)
Lemma added_inodes t parent node t' : added t parent node t' -> tree_wf t -> tree_wf t' -> length t'.(t_nodes) = S (length t.(t_nodes)) ->
  n_inode <$> t'.(t_nodes) = (n_inode <$> t.(t_nodes)) ++ [node.(n_inode)].
Proof.
  intros [_ Hn (p & Hp & Hp') Ho] _ _ Hl. apply list_eq. intros i. rewrite list_lookup_fmap.
  pose proof (lookup_lt_Some _ _ _ Hp) as Hlt. destruct (Nat.lt_trichotomy i (length t.(t_nodes))) as [Hi|[->|Hi]].
  - rewrite lookup_app_l by (by rewrite length_fmap). rewrite list_lookup_fmap. destruct (Nat.eq_dec i parent) as [->|].
    + by rewrite Hp, Hp'.
    + by rewrite Ho by lia.
  - rewrite Hn, lookup_app_r by (by rewrite length_fmap). by rewrite length_fmap, Nat.sub_diag.
  - rewrite (lookup_ge_None_2 t'.(t_nodes)) by lia. simpl. symmetry. apply lookup_ge_None_2. rewrite length_app, length_fmap. simpl. lia.
Qed.

Lemma add_child_length t parent node t' idx : add_child t parent node = Some (t', idx) ->
  length t'.(t_nodes) = S (length t.(t_nodes)) /\ idx = length t.(t_nodes).
Proof.
  unfold add_child. intros H. apply bind_Some in H as (p & _ & [= <- <-]). simpl. rewrite length_insert, length_app. simpl. lia.
Qed.

(** A new entry: its inode is cached and gets a node of its own. *)
Lemma attach_entry_inv f r parent node t' idx : scan_inv f r -> is_node r parent ->
  add_child r.(r_tree) parent node = Some (t', idx) -> node.(n_children) = [] ->
  is_Some (r.(r_inodes) !! node.(n_inode)) -> node.(n_inode) ∉ (n_inode <$> r.(r_tree).(t_nodes)) ->
  scan_inv f (set_reader_tree t' r) /\ is_node (set_reader_tree t' r) idx /\
  (forall i, is_node r i -> is_node (set_reader_tree t' r) i).
Proof.
  intros [Hf Hc Hk Ht (n0 & Hn0 & Hr0) Hn Hu] Hp Ea Hch Hin Hnew. destruct (add_child_length _ _ _ _ _ Ea) as [Hl ->].
  destruct (add_child_added _ _ node Hp) as (t1 & E1 & Had). rewrite Ea in E1. injection E1 as <-.
  pose proof (added_wf _ _ _ _ Ht Had Hch) as Ht'. pose proof (added_inodes _ _ _ _ Had Ht Ht' Hl) as Hi.
  assert (Hold : forall i x, t_nodes t' !! i = Some x -> (i < length (t_nodes (r_tree r)))%nat ->
            exists y, t_nodes (r_tree r) !! i = Some y /\ y.(n_inode) = x.(n_inode)).
  { intros i x Hx Hlt. destruct (lookup_lt_is_Some_2 _ _ Hlt) as [y Hy]. exists y. split; [done|].
    assert (E : (n_inode <$> t_nodes t') !! i = Some y.(n_inode)).
    { rewrite Hi, lookup_app_l by (by rewrite length_fmap). by rewrite list_lookup_fmap, Hy. }
    rewrite list_lookup_fmap, Hx in E. by injection E. }
  split; [split; simpl; try done|].
  - by destruct Hc.
  - destruct (lookup_lt_is_Some_2 (t_nodes t') 0%nat ltac:(lia)) as [x Hx]. exists x. split; [done|].
    destruct (Hold 0%nat x Hx) as (y & Hy & E); [by apply lookup_lt_Some in Hn0|]. congruence.
  - intros i x Hx Hi0. destruct (Nat.lt_ge_cases i (length (t_nodes (r_tree r)))) as [Hlt|Hge].
    + destruct (Hold i x Hx Hlt) as (y & Hy & <-). by eapply Hn.
    + apply lookup_lt_Some in Hx as Hlt. assert (i = length (t_nodes (r_tree r))) as -> by lia.
      rewrite (ad_new _ _ _ _ Had) in Hx. by injection Hx as <-.
  - rewrite Hi. apply list.NoDup_app. split; [done|]. split; [|apply NoDup_singleton].
    intros x Hx ->%list_elem_of_singleton. done.
  - unfold is_node. simpl. split; [apply lookup_lt_is_Some_2; lia|]. intros i [x Hx]. apply lookup_lt_Some in Hx.
    apply lookup_lt_is_Some_2. lia.
Qed.

(** The directories waiting, and the inodes not yet cached: the measure of the traversal. *)
Definition queue_ok (r : Reader) (queue : list (nat * Z)) : Prop := Forall (fun q => is_node r q.1 /\ uint 32 q.2) queue.

Definition visit_ok (f : buffer) (r : Reader) (queue : list (nat * Z)) (r' : Reader) (queue' : list (nat * Z)) : Prop :=
  scan_inv f r' /\ queue_ok r' queue' /\ (forall i, is_node r i -> is_node r' i) /\ r.(r_inodes) ⊆ r'.(r_inodes) /\
  (length queue' + size r.(r_inodes) <= length queue + size r'.(r_inodes))%nat.

Lemma visit_entry_ok f idx queue e r queue' r' : scan_inv f r -> is_Some (r.(r_inodes) !! ROOT_INODE) -> queue_ok r queue ->
  is_node r idx -> uint 32 e.2 -> visit_entry idx queue e r = (Ok queue', r') -> visit_ok f r queue r' queue'.
Proof.
  intros Hr Hroot Hq Hidx He. destruct e as [name ino]. simpl in He. unfold visit_entry. destruct (is_dots name).
  { intros [= <- <-]. done. }
  intros (c & r1 & [= <- <-] & H)%rbind_ok. case_bool_decide as Hc.
  { apply rbind_ok in H as (t & ? & [= <- <-] & H). apply rbind_ok in H as (pp & r2 & H2 & H). unfold rmust in H2. injection H2 as _ <-.
    apply rbind_ok in H as ([] & r3 & [= <-] & H). injection H as <- <-.
    destruct Hr as [Hf [Hc1 Hc2] Hk Ht Hn0 Hn Hu]. split; [split; simpl; try done; by split|]. by split_and!. }
  apply rbind_ok in H as (i & r1 & H1 & H). destruct (get_inode_inv f ino r i r1 Hr He H1) as (Hr1 & Et & Hs & Hsub).
  apply rbind_ok in H as (xs & r2 & H2 & H). apply extents_of_inode_state in H2 as ->.
  apply rbind_ok in H as (t & ? & [= <- <-] & H). apply rbind_ok in H as ([t' ci] & r3 & H3 & H). unfold rmust in H3.
  destruct (add_child _ _ _) as [[t1 ci1]|] eqn:Ea; [|done]. simpl in H3. injection H3 as -> -> <-.
  apply rbind_ok in H as ([] & r4 & [= <-] & H). cbn [fst snd] in H.
  destruct (attach_entry_inv f r1 idx (entry_node name ino xs) t' ci) as (Hr4 & Hci & Hkeep); try done.
  { unfold is_node. by rewrite Et. }
  { rewrite Et. intros (n & E & [j Hj]%list_elem_of_lookup_1)%list_elem_of_fmap. simpl in E. destruct (Nat.eq_dec j 0%nat) as [->|Hj0].
    - destruct (sc_root _ _ Hr) as (n0 & Hn0 & E0). simplify_eq. rewrite E0 in Hc. done.
    - apply Hc. rewrite E. by eapply sc_cached. }
  apply rbind_ok in H as (i' & r5 & H5 & H). destruct (get_inode_inv f ino _ i' r5 Hr4 He H5) as (Hr5 & Et5 & _ & Hsub5).
  injection H as <- <-.
  assert (Hnodes : forall j, is_node r j -> is_node r5 j).
  { intros j Hj. unfold is_node. rewrite Et5. apply Hkeep. unfold is_node. by rewrite Et. }
  assert (Hq5 : queue_ok r5 queue) by (eapply Forall_impl; [exact Hq|]; intros q [? ?]; auto).
  assert (Hall : r.(r_inodes) ⊆ r5.(r_inodes)) by (etrans; [exact Hsub|exact Hsub5]).
  assert (Hsize : (S (size (r_inodes r)) <= size (r_inodes r5))%nat).
  { rewrite <- !size_dom. apply (subset_size (dom r.(r_inodes))). split; [by apply subseteq_dom|].
    intros Hle. apply Hc. apply elem_of_dom, Hle, elem_of_dom. destruct Hs as [y Hy]. exists y. by eapply lookup_weaken. }
  split; [done|]. split; [|split; [done|split; [done|case_match; simpl; lia]]].
  case_match; [|done]. constructor; [|done]. simpl. split; [|done]. unfold is_node. rewrite Et5. exact Hci.
Qed.

Lemma visit_entries_ok f idx es : forall queue r queue' r', scan_inv f r -> is_Some (r.(r_inodes) !! ROOT_INODE) -> queue_ok r queue ->
  is_node r idx -> Forall (fun e => uint 32 e.2) es -> visit_entries idx queue es r = (Ok queue', r') -> visit_ok f r queue r' queue'.
Proof.
  induction es as [|e es IH]; intros queue r queue' r' Hr Hroot Hq Hidx Hes; cbn [visit_entries].
  { intros [= <- <-]. by split_and!. }
  apply Forall_cons_1 in Hes as [He Hes]. intros (q1 & r1 & H1 & H)%rbind_ok.
  destruct (visit_entry_ok f idx queue e r q1 r1 Hr Hroot Hq Hidx He H1) as (Hr1 & Hq1 & Hn1 & Hs1 & Hl1).
  destruct (IH q1 r1 queue' r' Hr1) as (Hr2 & Hq2 & Hn2 & Hs2 & Hl2); [|done|auto|done|done|].
  { destruct Hroot as [y Hy]. exists y. by eapply lookup_weaken. }
  split; [done|]. split; [done|]. split; [auto|]. split; [by etrans|lia].
Qed.

(** Numbers below [n] are at most [n]. *)
Lemma size_of_numbers (X : gset Z) n : (forall x, x ∈ X -> 0 <= x < n) -> Z.of_nat (size X) <= Z.max 0 n.
Proof.
  intros H. transitivity (Z.of_nat (size (list_to_set (seqZ 0 n) : gset Z))).
  - apply inj_le, subseteq_size. intros x Hx. apply elem_of_list_to_set, elem_of_seqZ. specialize (H x Hx). lia.
  - rewrite size_list_to_set by apply NoDup_seqZ. rewrite length_seqZ. lia.
Qed.

Lemma scan_inv_size f r : scan_inv f r -> Z.of_nat (size r.(r_inodes)) <= 2 ^ 32.
Proof.
  intros Hr. rewrite <- size_dom. pose proof (size_of_numbers (dom r.(r_inodes)) (2 ^ 32)) as H. etrans; [apply H|lia].
  intros x Hx%elem_of_dom. apply (sc_keys _ _ Hr x Hx).
Qed.

(** One directory: the work that waits gets less. *)
Lemma scan_step_ok f idx n queue r queue' r' : bytes_ok f -> scan_inv f r -> queue_ok r ((idx, n) :: queue) ->
  is_Some (r.(r_inodes) !! ROOT_INODE) \/ (exists i, (idx, n) :: queue = [(i, ROOT_INODE)]) ->
  (children <~~ get_dir_entries n ;; visit_entries idx queue children) r = (Ok queue', r') ->
  scan_inv f r' /\ queue_ok r' queue' /\ is_Some (r'.(r_inodes) !! ROOT_INODE) /\
  (length queue' + size r.(r_inodes) <= length queue + size r'.(r_inodes))%nat.
Proof.
  intros Hf Hr Hq Hroot E. apply Forall_cons_1 in Hq as [[Hidx Hn] Hq]. cbn [fst snd] in Hidx, Hn.
  apply rbind_ok in E as (es & r1 & H1 & H2).
  destruct (get_dir_entries_inv f n r es r1 Hf Hr Hn H1) as (Hr1 & Et & Hs & Hsub & Hes).
  assert (Hroot1 : is_Some (r1.(r_inodes) !! ROOT_INODE)).
  { destruct Hroot as [[y Hy]|(i & [= -> ->])]; [exists y; by eapply lookup_weaken|done]. }
  assert (Hkeep : forall i, is_node r i -> is_node r1 i) by (intros i; unfold is_node; by rewrite Et).
  destruct (visit_entries_ok f idx es queue r1 queue' r' Hr1 Hroot1) as (Hr' & Hq' & _ & Hs' & Hl); [|auto|done|done|].
  { eapply Forall_impl; [exact Hq|]. intros q [? ?]. auto. }
  do 2 (split; [done|]). split; [destruct Hroot1 as [y Hy]; exists y; by eapply lookup_weaken|].
  assert (size (r_inodes r) <= size (r_inodes r1))%nat by (by apply map_subseteq_size). lia.
Qed.

Lemma scan_keeps f fuel : bytes_ok f -> forall queue r r', scan_inv f r -> queue_ok r queue ->
  is_Some (r.(r_inodes) !! ROOT_INODE) \/ (exists i, queue = [(i, ROOT_INODE)]) ->
  scan fuel queue r = Some (Ok tt, r') -> scan_inv f r'.
Proof.
  intros Hf. induction fuel as [|fuel IH]; intros [|[idx n] queue] r r' Hr Hq Hroot; cbn [scan]; try done; try by intros [= <-].
  destruct (rbind _ _ r) as [[queue'|e|] r1] eqn:E; [|done..].
  destruct (scan_step_ok f idx n queue r queue' r1 Hf Hr Hq Hroot E) as (Hr1 & Hq1 & Hroot1 & _). apply IH; auto.
Qed.

Lemma scan_ends f fuel : bytes_ok f -> forall queue r, scan_inv f r -> queue_ok r queue ->
  is_Some (r.(r_inodes) !! ROOT_INODE) \/ (exists i, queue = [(i, ROOT_INODE)]) ->
  Z.of_nat (length queue) + 2 ^ 32 - Z.of_nat (size r.(r_inodes)) <= Z.of_nat fuel -> is_Some (scan fuel queue r).
Proof.
  intros Hf. induction fuel as [|fuel IH]; intros [|[idx n] queue] r Hr Hq Hroot Hm; cbn [scan]; try by eexists.
  { pose proof (scan_inv_size f r Hr). cbn [length] in Hm. lia. }
  destruct (rbind _ _ r) as [[queue'|e|] r1] eqn:E; [|by eexists..].
  destruct (scan_step_ok f idx n queue r queue' r1 Hf Hr Hq Hroot E) as (Hr1 & Hq1 & Hroot1 & Hl).
  apply IH; [done|done|by left|]. cbn [length] in Hm. lia.
Qed.

Lemma new_tree_inv f sb : scan_inv f (mk_reader f sb ∅ ∅ (new_tree ROOT_INODE dot) ∅).
Proof.
  split; simpl; try done.
  - intros n. rewrite lookup_empty. by intros [? ?].
  - split; simpl; [done|by eexists| |].
    + intros [|i] x c E Hc; simplify_eq/=. by apply elem_of_nil in Hc.
    + intros [|i] x p E Hp; by simplify_eq/=.
  - by eexists.
  - intros [|i] x E; by simplify_eq/=.
  - apply NoDup_singleton.
Qed.

(** A reader that opened satisfies the invariant. *)
Lemma reader_new_inv path f fuel r : bytes_ok f -> reader_new fuel path (Some f) = Some (Ok r) -> scan_inv f r.
Proof.
  intros Hf. unfold reader_new. destruct (open_image path (Some f)) as [r0|e|] eqn:E; [|done..].
  unfold open_image in E. apply obind_ok_inv in E as (f' & [= <-] & E). apply obind_ok_inv in E as (b & _ & E).
  apply obind_ok_inv in E as (sb & _ & E). destruct (negb _); [done|]. injection E as <-. cbn [r_tree new_tree t_root].
  destruct (scan fuel _ _) as [[[[]|e|] r1]|] eqn:Es; try done. intros [= <-].
  eapply (scan_keeps f fuel Hf [(0%nat, ROOT_INODE)]); [apply (new_tree_inv f sb)| |right; by eexists|exact Es].
  constructor; [|constructor]. split; [by eexists|done].
Qed.

(** C9 reader_new_ends: Opening an image ends, whatever bytes it holds: a directory is
    visited once, because an entry whose inode was seen before is recorded as a hard link
    and not entered again.  The reader that results has caches true to the image, a
    well-formed tree and no two nodes for one inode. *)
Theorem reader_new_ends path f fuel : bytes_ok f -> 2 ^ 32 < Z.of_nat fuel ->
  exists o, reader_new fuel path (Some f) = Some o /\
    forall r, o = Ok r -> r.(r_file) = f /\ coherent r /\ tree_wf r.(r_tree) /\ NoDup (n_inode <$> r.(r_tree).(t_nodes)).
Proof.
  intros Hf Hfuel. assert (H : is_Some (reader_new fuel path (Some f))).
  { unfold reader_new. destruct (open_image path (Some f)) as [r|e|] eqn:E; [|by eexists..].
    unfold open_image in E. apply obind_ok_inv in E as (f' & [= <-] & E). apply obind_ok_inv in E as (b & _ & E).
    apply obind_ok_inv in E as (sb & _ & E). destruct (negb _); [done|]. injection E as <-. cbn [r_tree new_tree t_root].
    destruct (scan_ends f fuel Hf [(0%nat, ROOT_INODE)] _ (new_tree_inv f sb)) as [[[[]|e|] r'] ->]; [..|by eexists|by eexists|by eexists].
    - constructor; [|constructor]. split; [by eexists|done].
    - right. by eexists.
    - simpl. change (size (∅ : gmap Z Inode.t)) with 0%nat. lia. }
  destruct H as [o Ho]. exists o. split; [done|]. intros r ->.
  destruct (reader_new_inv path f fuel r Hf Ho) as [? ? ? ? ? ? ?]. by split_and!.
Qed.

Lemma sample_bytes_ok : bytes_ok sample_image.
Proof. apply (bool_decide_unpack _). vm_compute. exact I. Qed.

Lemma sample_reader_inv : scan_inv sample_image sample_reader.
Proof.
  apply (reader_new_inv (bstr "image") sample_image 10); [exact sample_bytes_ok|]. unfold sample_reader.
  destruct (reader_new 10 (bstr "image") (Some sample_image)) as [[r|e|]|] eqn:E; [done|exfalso..];
    vm_compute in E; discriminate E.
Qed.

Lemma reader_new_ends_witness :
  exists o, reader_new (Z.to_nat (2 ^ 32 + 1)) (bstr "image") (Some sample_image) = Some o /\
    forall r, o = Ok r -> coherent r /\ NoDup (n_inode <$> r.(r_tree).(t_nodes)).
Proof.
  destruct (reader_new_ends (bstr "image") sample_image (Z.to_nat (2 ^ 32 + 1))) as (o & E & Ho);
    [exact sample_bytes_ok|rewrite Z2Nat.id; lia|].
  exists o. split; [exact E|]. intros r Hr. destruct (Ho r Hr) as (_ & H1 & _ & H2). exact (conj H1 H2).
Defined.

Lemma queries_unaffected_witness : unaffected (stat (bstr "/l/f")) sample_reader /\ unaffected (read_file (bstr "/g") 1 (Some 3)) sample_reader.
Proof.
  destruct (queries_unaffected sample_reader (bstr "/l/f") 1 (Some 3)) as (H1 & _); [exact (sc_coherent _ _ sample_reader_inv)|].
  destruct (queries_unaffected sample_reader (bstr "/g") 1 (Some 3)) as (_ & _ & _ & _ & H2); [exact (sc_coherent _ _ sample_reader_inv)|].
  exact (conj H1 H2).
Defined.

(** ** File contents *)

Lemma slice_clip {A} (l : list A) pos n : 0 <= pos -> zlen l <= pos + n -> slice pos n l = drop (Z.to_nat pos) l.
Proof. intros Hp H. unfold slice, zlen in *. apply take_ge. rewrite length_drop. lia. Qed.

Lemma read_chunks_spec fuel f : forall pos n, 0 <= pos -> 0 <= n -> pos + n <= zlen f -> n <= Z.of_nat fuel * 2 ^ 20 ->
  read_chunks fuel f pos n = Some (slice pos n f).
Proof.
  induction fuel as [|fuel IH]; intros pos n Hp Hn Hf Hfu; cbn [read_chunks]; destruct (Z.leb_spec n 0); try lia.
  1-2: assert (n = 0) as -> by lia; done.
  set (c := Z.min n (2 ^ 20)). assert (Hc : 0 < c <= n) by lia. rewrite zlen_slice by lia.
  rewrite (proj2 (Z.eqb_neq c 0)) by lia. rewrite IH by lia. cbn [mbind option_bind]. rewrite slice_cons_app by lia.
  do 2 f_equal. lia.
Qed.

Lemma chunk_fuel_enough n : 0 <= n -> n <= Z.of_nat (chunk_fuel n) * 2 ^ 20.
Proof.
  intros Hn. unfold chunk_fuel. pose proof (Z.div_mod n (2 ^ 20) ltac:(lia)). pose proof (Z.mod_pos_bound n (2 ^ 20) ltac:(lia)).
  pose proof (Z.div_pos n (2 ^ 20) Hn ltac:(lia)). lia.
Qed.

Section Extents.
Context (f : buffer) (bs : Z) (Hbs : 0 < bs <= 65536) (Hf : zlen f < 2 ^ 63).

(** The bytes of an extent, and of all of them in file order. *)
Definition extent_content (x : Z * Z) : buffer := slice (x.1 * bs) ((x.2 - x.1) * bs) f.
Definition content (xs : list (Z * Z)) : buffer := concat (extent_content <$> xs).

(** The extent lies in the image. *)
Definition extent_in (x : Z * Z) : Prop := 0 <= x.1 <= x.2 /\ x.2 < 2 ^ 32 /\ x.2 * bs <= zlen f.

Lemma extent_content_zlen x : extent_in x -> zlen (extent_content x) = (x.2 - x.1) * bs.
Proof. intros (? & ? & ?). apply zlen_slice; nia. Qed.

(** What lies before the request does not count. *)
Lemma slice_before {A} start count (pre x : list A) : 0 <= start -> zlen pre + zlen x <= start ->
  slice start count (pre ++ x) = slice start count pre.
Proof. intros Hs H. unfold slice, zlen in *. rewrite !drop_ge; [done|lia|rewrite length_app; lia]. Qed.

(** The overlap of a request with the next piece. *)
Lemma slice_overlap {A} start count (pre x : list A) : 0 <= start -> 0 <= count ->
  start < zlen pre + zlen x -> zlen pre < start + count ->
  let lo := Z.max start (zlen pre) in let hi := Z.min (start + count) (zlen pre + zlen x) in
  slice start count (pre ++ x) = slice start count pre ++ slice (lo - zlen pre) (hi - lo) x.
Proof.
  intros Hs Hc H1 H2 lo hi. unfold slice, zlen in *. rewrite drop_app, take_app. f_equal.
  rewrite length_drop. replace (Z.to_nat start - length pre)%nat with (Z.to_nat (lo - Z.of_nat (length pre))) by lia.
  destruct (Z.le_gt_cases (start + count) (Z.of_nat (length pre) + Z.of_nat (length x))).
  - f_equal. lia.
  - rewrite !take_ge; [done|rewrite length_drop; lia..].
Qed.

Lemma slice_full {A} start count (l rest : list A) : 0 <= start -> 0 <= count -> count <= zlen (slice start count l) ->
  slice start count (l ++ rest) = slice start count l.
Proof.
  intros Hs Hc H. unfold slice, zlen in *. rewrite length_take, length_drop in H.
  destruct (Z.eq_dec count 0) as [->|]; [done|]. rewrite drop_app_le by lia. apply take_app_le. rewrite length_drop. lia.
Qed.

Lemma read_extents_loop_spec start count xs : 0 <= start -> 0 < count -> start + count < 2 ^ 63 ->
  Forall extent_in xs -> forall pre, zlen pre + zlen (content xs) < 2 ^ 63 ->
  read_extents_loop f bs start (start + count) count (zlen pre) (slice start count pre) xs =
    Ok (slice start count (pre ++ content xs)).
Proof.
  intros Hs Hc Hsc. induction 1 as [|[lo hi] xs Hx Hxs IH]; intros pre Hl; cbn [read_extents_loop].
  { unfold content. simpl. by rewrite app_nil_r. }
  pose proof (extent_content_zlen _ Hx) as Hn. set (x := extent_content (lo, hi)) in *.
  change (content ((lo, hi) :: xs)) with (x ++ content xs) in *. rewrite app_assoc. rewrite zlen_app in Hl.
  pose proof (zlen_nonneg pre). pose proof (zlen_nonneg x). pose proof (zlen_nonneg (content xs)).
  destruct Hx as (Hx1 & Hx2 & Hx3). cbn [fst snd] in *. unfold usub, umul, uadd.
  rewrite (chk_some 64 (hi - lo)) by (unfold uint; lia). cbn [lift obind].
  rewrite (chk_some 64 ((hi - lo) * bs)) by (unfold uint; lia). cbn [lift obind]. rewrite <- Hn.
  rewrite (chk_some 64 (zlen pre + zlen x)) by (unfold uint; lia). cbn [lift obind]. rewrite <- zlen_app.
  assert (IH' : forall out, out = slice start count (pre ++ x) ->
     read_extents_loop f bs start (start + count) count (zlen (pre ++ x)) out xs = Ok (slice start count ((pre ++ x) ++ content xs))).
  { intros out ->. apply IH. rewrite zlen_app. lia. }
  rewrite zlen_app in *. destruct (Z.leb_spec (zlen pre + zlen x) start) as [Hle|Hgt].
  { apply IH'. symmetry. by apply slice_before. }
  destruct (Z.leb_spec (start + count) (zlen pre)) as [Hle|Hgt2].
  { f_equal. rewrite <- app_assoc. symmetry. apply slice_full; [done|lia|]. rewrite zlen_slice; lia. }
  pose proof (slice_overlap start count pre x Hs ltac:(lia) Hgt Hgt2) as Hov. cbv zeta in Hov.
  set (os := Z.max start (zlen pre)) in *. set (oe := Z.min (start + count) (zlen pre + zlen x)) in *.
  rewrite (chk_some 64 (oe - os)) by (unfold uint; lia). cbn [lift obind].
  destruct (Z.eqb_spec (oe - os) 0) as [Hz|Hnz].
  { apply IH'. rewrite Hov, Hz. unfold slice at 3. simpl. by rewrite app_nil_r. }
  rewrite (chk_some 64 (os - zlen pre)) by (unfold uint; lia). cbn [lift obind].
  rewrite (chk_some 64 (lo * bs)) by (unfold uint; nia). cbn [lift obind].
  rewrite (chk_some 64 (lo * bs + (os - zlen pre))) by (unfold uint; nia). cbn [lift obind].
  rewrite (proj2 (Z.leb_gt (2 ^ 63) (lo * bs + (os - zlen pre)))) by nia.
  rewrite read_chunks_spec by (try apply chunk_fuel_enough; nia). cbn [lift obind].
  assert (Hgot : slice (lo * bs + (os - zlen pre)) (oe - os) f = slice (os - zlen pre) (oe - os) x).
  { unfold x, extent_content. cbn [fst snd]. rewrite slice_slice by nia. done. }
  rewrite Hgot, <- Hov. destruct (Z.leb_spec count (zlen (slice start count (pre ++ x)))) as [Hful|Hful].
  - f_equal. symmetry. apply slice_full; lia.
  - by apply IH'.
Qed.
End Extents.

(** A query that returned tells what its steps returned. *)
Lemma stat_inode r path n i r' : coherent r -> stat path r = (Ok (n, i), r') ->
  coherent r' /\ r'.(r_file) = r.(r_file) /\ r'.(r_superblock) = r.(r_superblock) /\ inode_at r.(r_file) r.(r_superblock) n = Ok i.
Proof.
  intros Hr E. unfold stat in E.
  destruct (transparent_ok (resolve_path path true) r (n, i) r' (resolve_path_transparent path true) Hr E) as [Hc Hcold].
  destruct (cold_inv _ _ Hcold) as (Ef & Es & _). do 3 (split; [done|]).
  unfold resolve_path in E. apply rbind_ok in E as (c & r1 & H1 & H). apply rbind_ok in H as (j & r2 & H2 & H). injection H as -> <- <-.
  destruct (transparent_ok _ _ _ _ (resolve_loop_transparent _ _ _ _ _ _ _) Hr H1) as [Hc1 Hcold1].
  destruct (cold_inv _ _ Hcold1) as (Ef1 & Es1 & _). destruct (get_inode_computes n r1 Hc1) as (E & _ & _).
  rewrite H2 in E. simpl in E. by rewrite E, Ef1, Es1.
Qed.

Lemma rbind_must {A B} (o : option A) a (k : A -> R B) r : o = Some a -> rbind (rmust o) k r = k a r.
Proof. by intros ->. Qed.

Lemma rbind_try {A B} (o : outcome ReadError A) a (k : A -> R B) r : o = Ok a -> rbind (rtry o) k r = k a r.
Proof. by intros ->. Qed.

Lemma rbind_get {A B} (g : Reader -> A) (k : A -> R B) r : rbind (rget g) k r = k (g r) r.
Proof. done. Qed.

Lemma rbind_step {A B} (m : R A) a r1 (k : A -> R B) r : m r = (Ok a, r1) -> rbind m k r = k a r1.
Proof. unfold rbind. by intros ->. Qed.

Lemma block_size_ok r bs : block_size_of r.(r_superblock) = Some bs -> block_size r = (Ok bs, r).
Proof. intros H. unfold block_size. rewrite rbind_get. unfold rmust. by rewrite H. Qed.

Lemma extents_of_inode_ok r i bs xs : block_size_of r.(r_superblock) = Some bs -> parse_extents i bs r.(r_file) = Ok xs ->
  extents_of_inode i r = (Ok xs, r).
Proof.
  intros Hb Hx. unfold extents_of_inode. rewrite (rbind_step _ bs r) by (by apply block_size_ok). rewrite rbind_get.
  unfold rtry. by rewrite Hx.
Qed.

Lemma read_from_extents_spec r n i bs xs start count : coherent r -> inode_at r.(r_file) r.(r_superblock) n = Ok i ->
  block_size_of r.(r_superblock) = Some bs -> 0 < bs <= 65536 -> zlen r.(r_file) < 2 ^ 63 ->
  parse_extents i bs r.(r_file) = Ok xs -> Forall (extent_in r.(r_file) bs) xs -> zlen (content r.(r_file) bs xs) < 2 ^ 63 ->
  0 <= start -> 0 < count -> start + count < 2 ^ 63 ->
  (read_from_extents n start count r).1 = Ok (slice start count (content r.(r_file) bs xs)).
Proof.
  intros Hr Hi Hb Hbs Hf Hx Hin Hl Hs Hc Hsc. destruct (get_inode_computes n r Hr) as (E & _ & Hcold).
  destruct (get_inode n r) as [o r1] eqn:Eg. cbn [fst snd] in E, Hcold. rewrite Hi in E. subst o.
  destruct (cold_inv _ _ Hcold) as (Ef & Es & _). unfold read_from_extents. rewrite (rbind_step _ _ _ _ _ Eg).
  rewrite (rbind_step _ xs r1) by (apply (extents_of_inode_ok _ _ bs); congruence).
  destruct xs as [|x xs]. { unfold content, slice. simpl. by rewrite drop_nil, take_nil. }
  rewrite (rbind_step _ bs r1) by (apply block_size_ok; congruence). rewrite rbind_get.
  rewrite (rbind_must _ (start + count)) by (apply chk_some; unfold uint; lia).
  rewrite (rbind_must _ tt) by (by rewrite (proj2 (Z.ltb_lt count (2 ^ 63))) by lia).
  pose proof (read_extents_loop_spec (r_file r) bs Hbs Hf start count (x :: xs) Hs Hc Hsc Hin []) as El.
  rewrite zlen_nil, app_nil_l in El. unfold slice at 1 in El. rewrite drop_nil, take_nil in El.
  rewrite (rbind_try _ (slice start count (content (r_file r) bs (x :: xs)))) by (rewrite Ef; apply El; lia).
  cbn [rret fst]. f_equal. unfold slice. rewrite take_take. f_equal. lia.
Qed.

(** A request cut at [sz]. *)
Lemma slice_cut {A} (l : list A) offset count sz : 0 <= offset -> 0 <= count -> 0 <= sz ->
  slice offset count (take (Z.to_nat sz) l) = slice (Z.min offset sz) (Z.min count (sz - Z.min offset sz)) l.
Proof.
  intros Ho Hc Hs. unfold slice. rewrite skipn_firstn_comm, take_take.
  destruct (Z.le_gt_cases offset sz).
  - rewrite (Z.min_l offset sz) by lia. f_equal. lia.
  - rewrite (Z.min_r offset sz) by lia. replace (Z.to_nat count `min` (Z.to_nat sz - Z.to_nat offset))%nat with 0%nat by lia.
    replace (Z.to_nat (Z.min count (sz - sz))) with 0%nat by lia. done.
Qed.

(** Reading [count] bytes at [offset] of a regular file returns
    exactly that part of the concatenation, in file order, of the blocks its extents name,
    cut at the file's size: bytes past the end are not returned, whatever the blocks hold
    there, and the chunked, extent by extent loop neither loses, repeats nor moves a byte. *)
Theorem read_file_contents r path n i r' bs xs offset count : coherent r -> stat path r = (Ok (n, i), r') ->
  Inode.is_dir i = false -> Inode.is_reg i = true ->
  block_size_of r.(r_superblock) = Some bs -> 0 < bs <= 65536 -> zlen r.(r_file) < 2 ^ 63 ->
  parse_extents i bs r.(r_file) = Ok xs -> Forall (extent_in r.(r_file) bs) xs -> zlen (content r.(r_file) bs xs) < 2 ^ 63 ->
  0 <= Inode.file_size i < 2 ^ 63 -> 0 <= offset -> 0 <= count ->
  (read_file path offset (Some count) r).1 =
    Ok (slice offset count (take (Z.to_nat (Inode.file_size i)) (content r.(r_file) bs xs))).
Proof.
  intros Hr Hst Hd Hreg Hb Hbs Hf Hx Hin Hl Hsz Ho Hc. destruct (stat_inode _ _ _ _ _ Hr Hst) as (Hr' & Ef & Es & Hi).
  unfold read_file, rbind at 1. rewrite Hst. cbn [fst snd]. rewrite Hd, Hreg. cbn [negb].
  set (sz := Inode.file_size i) in *. set (start := Z.min offset sz). set (want := Z.min count (sz - start)).
  rewrite slice_cut by lia. fold start want. destruct (Z.eqb_spec want 0) as [Hw|Hw].
  { rewrite Hw. unfold slice. done. }
  rewrite <- Ef. apply (read_from_extents_spec r' n i); rewrite ?Ef, ?Es; try done; unfold want, start in *; lia.
Qed.

(** The file of the sample image, through its link. *)
Definition sample_file_inode : Inode.t := block_inode 0x81A4 5 5.

Lemma sample_file_stat : exists r', stat (bstr "/g") sample_reader = (Ok (12, sample_file_inode), r').
Proof.
  assert (E : (stat (bstr "/g") sample_reader).1 = Ok (12, sample_file_inode)) by (vm_compute; reflexivity).
  destruct (stat (bstr "/g") sample_reader) as [o r'] eqn:Es. cbn [fst] in E. exists r'. by rewrite E.
Qed.

Lemma sample_file_image : block_size_of sample_reader.(r_superblock) = Some 4096 /\ zlen sample_reader.(r_file) = 24576 /\
  parse_extents sample_file_inode 4096 sample_reader.(r_file) = Ok [(5, 6)] /\ Inode.file_size sample_file_inode = 5.
Proof. split_and!; vm_compute; reflexivity. Qed.

Lemma sample_file_extents : Forall (extent_in sample_reader.(r_file) 4096) [(5, 6)] /\
  zlen (content sample_reader.(r_file) 4096 [(5, 6)]) = 4096.
Proof.
  destruct sample_file_image as (_ & Hl & _). split; [|vm_compute; reflexivity]. apply Forall_singleton. unfold extent_in.
  rewrite Hl. simpl. lia.
Qed.

Lemma read_file_contents_witness :
  exists n i r', stat (bstr "/g") sample_reader = (Ok (n, i), r') /\
    (read_file (bstr "/g") 1 (Some 100) sample_reader).1 = Ok (slice 1 100 (take 5 (content sample_reader.(r_file) 4096 [(5, 6)]))).
Proof.
  destruct sample_file_stat as [r' E]. destruct sample_file_image as (Hb & Hl & Hx & Hs). destruct sample_file_extents as [He Hc].
  exists 12, sample_file_inode, r'. split; [exact E|].
  pose proof (read_file_contents sample_reader (bstr "/g") 12 sample_file_inode r' 4096 [(5, 6)] 1 100) as H.
  rewrite Hs in H. apply H; first [exact (sc_coherent _ _ sample_reader_inv)|exact E|exact Hb|exact Hx|exact He|rewrite ?Hl, ?Hc; lia|reflexivity].
Defined.
