(* ===== verification/ReadBack.v ===== *)
(** * From the formatter to the reader

    A file the formatter stored is read back by the reader. *)

From stdpp Require Import base list list_numbers option numbers strings gmap.
From S2P Require Import Prelude Bytes Utf8 Str Errors Constants SuperBlock DiskTypes Dir Image Extent Xattr Geometry Paths FileTree Formatter CreateSpec Reader SampleImage ReaderSpec.

(** ** Bytes of a file *)

Definition blocks_of (xs : list (Z * Z)) : list Z := concat (parsed_blocks <$> xs).

Lemma zlen_parsed_blocks x : x.1 <= x.2 -> zlen (parsed_blocks x) = x.2 - x.1.
Proof. intros H. unfold parsed_blocks, zlen. rewrite length_seqZ. lia. Qed.

Lemma zlookup_app_l {A} (l1 l2 : list A) k : 0 <= k < zlen l1 -> zlookup (l1 ++ l2) k = zlookup l1 k.
Proof. intros H. rewrite !zlookup_nonneg by lia. apply lookup_app_l. unfold zlen in H. lia. Qed.

Lemma zlookup_app_r {A} (l1 l2 : list A) k : zlen l1 <= k -> zlookup (l1 ++ l2) k = zlookup l2 (k - zlen l1).
Proof.
  intros H. pose proof (zlen_nonneg l1). rewrite !zlookup_nonneg by lia. unfold zlen in *. rewrite lookup_app_r by lia. f_equal. lia.
Qed.

Lemma zlookup_slice (f : buffer) pos n k : 0 <= pos -> 0 <= k < n -> pos + n <= zlen f ->
  zlookup (slice pos n f) k = Some (byte_at f (pos + k)).
Proof.
  intros Hp Hk Hl. unfold byte_at. rewrite !zlookup_nonneg by lia. unfold slice, zlen in *. rewrite lookup_take_lt, lookup_drop by lia.
  replace (Z.to_nat pos + Z.to_nat k)%nat with (Z.to_nat (pos + k)) by lia.
  destruct (lookup_lt_is_Some_2 f (Z.to_nat (pos + k)) ltac:(lia)) as [b Hb]. by rewrite Hb.
Qed.

(** Byte [k] of the contents lies where the list of blocks says. *)
Lemma content_byte f xs : Forall (extent_in f 4096) xs ->
  zlen (content f 4096 xs) = zlen (blocks_of xs) * 4096 /\
  forall k, 0 <= k < zlen (content f 4096 xs) -> zlookup (content f 4096 xs) k = Some (byte_at f (addr (blocks_of xs) k)).
Proof.
  induction 1 as [|x xs Hx Hxs [IHl IH]]; [split; [done|unfold zlen; simpl; lia]|].
  change (content f 4096 (x :: xs)) with (extent_content f 4096 x ++ content f 4096 xs).
  change (blocks_of (x :: xs)) with (parsed_blocks x ++ blocks_of xs).
  pose proof (extent_content_zlen f 4096 ltac:(lia) x Hx) as Hn. destruct Hx as (H1 & H2 & H3).
  pose proof (zlen_parsed_blocks x ltac:(lia)) as Hb. rewrite !zlen_app, Hn, Hb, IHl. split; [lia|]. intros k Hk.
  pose proof (Z.div_mod k 4096 ltac:(lia)). pose proof (Z.mod_pos_bound k 4096 ltac:(lia)). unfold addr.
  destruct (Z.lt_ge_cases k ((x.2 - x.1) * 4096)) as [Hlt|Hge].
  - rewrite zlookup_app_l by lia. rewrite (zlookup_app_l (parsed_blocks x)) by lia. unfold extent_content.
    rewrite zlookup_slice by lia. unfold parsed_blocks. rewrite (zlookup_nonneg (seqZ _ _)) by lia. rewrite lookup_seqZ_lt by lia.
    do 2 f_equal. simpl. lia.
  - rewrite zlookup_app_r by lia. rewrite (zlookup_app_r (parsed_blocks x)) by lia. rewrite IH by lia. unfold addr. rewrite Hn, Hb.
    replace (k - (x.2 - x.1) * 4096) with (k + (- (x.2 - x.1)) * 4096) by lia. rewrite Z.div_add, Z_mod_plus_full by lia. done.
Qed.

(** The image a reader opened still holds the blocks of a file of the disk [d]. *)
Definition keeps_file (d : disk) (i : Inode.t) (f : buffer) : Prop :=
  exists xs, parse_extents i 4096 d.(d_file) = Ok xs /\ parse_extents i 4096 f = Ok xs /\ Forall (extent_in f 4096) xs /\
    zlen (content f 4096 xs) < 2 ^ 63 /\
    forall k, 0 <= k < zlen (content f 4096 xs) -> byte_at f (addr (blocks_of xs) k) = byte_at d.(d_file) (addr (blocks_of xs) k).

Lemma readable_content f0 p0 d i data f : readable f0 p0 d i data -> keeps_file d i f ->
  exists xs, parse_extents i 4096 f = Ok xs /\ Forall (extent_in f 4096) xs /\ zlen (content f 4096 xs) < 2 ^ 63 /\
    take (Z.to_nat (zlen data)) (content f 4096 xs) = data.
Proof.
  intros [_ _ (rs & Hrs & Hlen & Hdata)] (xs & Hx & Hxf & Hin & Hl & Hkeep). rewrite Hrs in Hx. injection Hx as <-.
  exists rs. do 3 (split; [done|]). destruct (content_byte f rs Hin) as [Hc Hbyte]. fold (blocks_of rs) in *.
  pose proof (zlen_nonneg data). pose proof (div_ceil_bounds (zlen data) 4096 ltac:(lia) ltac:(lia)) as Hdc.
  apply list_eq. intros j. destruct (Nat.lt_ge_cases j (length data)) as [Hj|Hj].
  - rewrite lookup_take_lt by (unfold zlen; lia).
    assert (Hk : 0 <= Z.of_nat j < zlen (content f 4096 rs)) by (unfold zlen in *; lia).
    pose proof (Hbyte _ Hk) as E1. pose proof (Hdata (Z.of_nat j) ltac:(unfold zlen; lia)) as E2. rewrite (Hkeep _ Hk), <- E2 in E1.
    rewrite !zlookup_nonneg, Nat2Z.id in E1 by lia. done.
  - rewrite lookup_take_ge by (unfold zlen; lia). by rewrite lookup_ge_None_2.
Qed.

(** C8 stored_file_reads_back: What the formatter stored under an inode, as [create]
    leaves it, is what the reader returns for a path that leads to that inode, through
    directories and symbolic links, at every offset and for every count, as long as the image still holds the
    file's blocks.  The image has blocks of 4096 bytes, and image and file are smaller than 2^63 bytes. *)
Theorem stored_file_reads_back r d f0 p0 i data path n r' offset count :
  readable f0 p0 d i data -> keeps_file d i r.(r_file) -> Inode.file_size i = zlen data -> zlen data < 2 ^ 63 ->
  coherent r -> stat path r = (Ok (n, i), r') -> Inode.is_dir i = false -> Inode.is_reg i = true ->
  block_size_of r.(r_superblock) = Some 4096 -> zlen r.(r_file) < 2 ^ 63 -> 0 <= offset -> 0 <= count ->
  (read_file path offset (Some count) r).1 = Ok (slice offset count data).
Proof.
  intros Hrd Hk Hsz Hd Hr Hst Hdir Hreg Hbs Hf Ho Hc.
  destruct (readable_content _ _ _ _ _ _ Hrd Hk) as (xs & Hx & Hin & Hl & E). pose proof (zlen_nonneg data).
  destruct (stat_inode _ _ _ _ _ Hr Hst) as (Hr' & Ef & Es & Hi).
  unfold read_file. rewrite (rbind_step _ _ _ _ _ Hst). cbn [fst snd]. rewrite Hdir, Hreg, Hsz. cbn [negb].
  assert (Es' : slice offset count data =
      slice (Z.min offset (zlen data)) (Z.min count (zlen data - Z.min offset (zlen data))) (content (r_file r) 4096 xs))
    by (rewrite <- slice_cut by lia; by rewrite E).
  rewrite Es'. destruct (Z.eqb_spec (Z.min count (zlen data - Z.min offset (zlen data))) 0) as [->|Hw]; [done|].
  rewrite <- Ef. apply (read_from_extents_spec r' n i); rewrite ?Ef, ?Es; try done; lia.
Qed.

(** The disk behind the sample image, as the formatter would leave it. *)
Definition sample_disk : disk := mk_disk sample_image (6 * 4096) 4096 (64 * 1024 * 1024).

Lemma sample_readable : readable [] 0 sample_disk sample_file_inode (bstr "hello").
Proof.
  split.
  - split; [done|unfold size_ok; simpl; lia|simpl; lia].
  - intros p Hp. lia.
  - exists [(5, 6)]. split; [vm_compute; reflexivity|]. split; [vm_compute; reflexivity|].
    intros k Hk. change (zlen (bstr "hello")) with 5 in Hk.
    assert (k = 0 \/ k = 1 \/ k = 2 \/ k = 3 \/ k = 4) as [->|[->|[->|[->| ->]]]] by lia; vm_compute; reflexivity.
Qed.

Lemma sample_keeps_file : keeps_file sample_disk sample_file_inode sample_reader.(r_file).
Proof.
  destruct sample_file_image as (_ & _ & Hx & _). destruct sample_file_extents as [He Hc].
  exists [(5, 6)]. split; [vm_compute; reflexivity|]. split; [exact Hx|]. split; [exact He|]. split; [rewrite Hc; lia|].
  intros k _. by rewrite (sc_file _ _ sample_reader_inv).
Qed.

Lemma stored_file_reads_back_witness :
  (read_file (bstr "/g") 1 (Some 3) sample_reader).1 = Ok (slice 1 3 (bstr "hello")).
Proof.
  destruct sample_file_stat as [r' E]. destruct sample_file_image as (Hb & Hl & Hx & Hs).
  apply (stored_file_reads_back sample_reader sample_disk [] 0 sample_file_inode (bstr "hello") (bstr "/g") 12 r' 1 3);
    first [exact sample_readable|exact sample_keeps_file|exact Hs|exact (sc_coherent _ _ sample_reader_inv)|exact E|exact Hb
          |rewrite ?Hl; lia|reflexivity].
Defined.
