(* ===== verification/Transitions.v ===== *)
(** * The life cycle of a machine

    [runtime/libvm/src/runtime/transitions.rs] (the reducer), the part of
    [runtime/core.rs] that feeds it (the operations of [Runtime] on a machine's
    state and the reconciliation of the stored state with what the host shows) and
    the data they share ([store/models/machine.rs], [vmmon/exit_status.rs],
    [vmmon/process]).  Process ids and times are integers that the code only
    copies and compares; the clock, the process table, the pid file and the exit
    status file are arguments. *)

From stdpp Require Import base list option numbers strings.
From S2P Require Import Prelude.

(** ** Data *)

Inductive MachineRuntimeState : Type := Stopped | Starting | Running | Stopping | Error.

#[export] Instance runtime_state_eq : EqDecision MachineRuntimeState.
Proof. solve_decision. Defined.

(** [MachineRuntimeState::as_str] and [parse] *)
Definition as_str (s : MachineRuntimeState) : string :=
  match s with
  | Stopped => "stopped" | Starting => "starting" | Running => "running"
  | Stopping => "stopping" | Error => "error"
  end.

Definition parse (value : string) : option MachineRuntimeState :=
  if bool_decide (value = "stopped"%string) then Some Stopped
  else if bool_decide (value = "starting"%string) then Some Starting
  else if bool_decide (value = "running"%string) then Some Running
  else if bool_decide (value = "stopping"%string) then Some Stopping
  else if bool_decide (value = "error"%string) then Some Error
  else None.

(** [struct MachineState] *)
Record MachineState := mk_mstate {
  machine_id : Z; status : MachineRuntimeState; vmmon_pid : option Z; started_at : option Z;
  run_id : option string; last_error : option string; updated_at : Z }.

Inductive StartFailure : Type := FStopped | FError.

Inductive Event : Type :=
| StartRequested (run_id : string)
| MonitorReady (run_id : string) (pid started_at : Z)
| MonitorObserved (pid started_at : Z) (run_id : option string)
| StartFailed (run_id : string) (failure : StartFailure) (error : option string)
| StopRequested (pid : Z) (started_at : option Z) (run_id : option string)
| StopCompleted (pid : Z) (started_at : option Z) (run_id : option string) (last_error : option string)
| ExitObserved (clean : bool) (error : option string)
| MonitorGone (last_error : option string)
| StartTimedOut.

Inductive TransitionError : Type :=
| AlreadyActive
| NotRunning
| InvalidTransition (state : MachineRuntimeState) (event : string)
| StaleGeneration.

Definition result : Type := outcome TransitionError MachineState.

(** ** Helpers *)

Definition replace_runtime (state : MachineState) (st : MachineRuntimeState) (pid started : option Z)
    (run : option string) (err : option string) (now : Z) : MachineState :=
  mk_mstate state.(machine_id) st pid started run err now.

Definition is_active (s : MachineRuntimeState) : bool :=
  match s with Starting | Running | Stopping => true | _ => false end.

Definition require_state (actual expected : MachineRuntimeState) (event : string) : outcome TransitionError unit :=
  if bool_decide (actual = expected) then Ok tt else Err (InvalidTransition actual event).

Definition require_run_id (state : MachineState) (run : option string) : outcome TransitionError unit :=
  match run with
  | Some run => if bool_decide (state.(run_id) = Some run) then Ok tt else Err StaleGeneration
  | None => Ok tt
  end.

Definition require_generation (state : MachineState) (pid : Z) (started : option Z) (run : option string)
    : outcome TransitionError unit :=
  _ <- require_run_id state run ;;
  if negb (bool_decide (state.(vmmon_pid) = Some pid)) then Err StaleGeneration
  else if bool_decide (is_Some started) && negb (bool_decide (state.(started_at) = started)) then Err StaleGeneration
  else Ok tt.

Definition START_TIMEOUT_ERROR : string := "machine start did not leave a live runtime".

(** ** The reducer, one definition per event *)

Definition start_requested (state : MachineState) (run : string) (now : Z) : result :=
  if is_active state.(status) then Err AlreadyActive
  else Ok (replace_runtime state Starting None None (Some run) None now).

Definition monitor_ready (state : MachineState) (run : string) (pid started : Z) (now : Z) : result :=
  _ <- require_state state.(status) Starting "MonitorReady" ;;
  _ <- require_run_id state (Some run) ;;
  Ok (replace_runtime state Running (Some pid) (Some started) (Some run) None now).

Definition monitor_observed (state : MachineState) (pid started : Z) (run : option string) (now : Z) : result :=
  let st := match state.(status) with Starting => Starting | Stopping => Stopping | _ => Running end in
  Ok (replace_runtime state st (Some pid) (Some started) run None now).

Definition start_failed (state : MachineState) (run : string) (failure : StartFailure) (error : option string)
    (now : Z) : result :=
  _ <- require_state state.(status) Starting "StartFailed" ;;
  _ <- require_run_id state (Some run) ;;
  let st := match failure with FStopped => Stopped | FError => Error end in
  Ok (replace_runtime state st None None None error now).

Definition stop_requested (state : MachineState) (pid : Z) (started : option Z) (run : option string) (now : Z)
    : result :=
  match state.(status) with
  | Stopped | Error => Err NotRunning
  | _ => Ok (replace_runtime state Stopping (Some pid) started run None now)
  end.

Definition stop_completed (state : MachineState) (pid : Z) (started : option Z) (run : option string)
    (err : option string) (now : Z) : result :=
  _ <- require_state state.(status) Stopping "StopCompleted" ;;
  _ <- require_generation state pid started run ;;
  Ok (replace_runtime state Stopped None None None err now).

Definition exit_observed (state : MachineState) (clean : bool) (error : option string) (now : Z) : result :=
  let '(st, err) :=
    if clean then (Stopped, None)
    else (Error, Some (default "machine runtime exited with an error"%string error)) in
  Ok (replace_runtime state st None None None err now).

Definition monitor_gone (state : MachineState) (err : option string) (now : Z) : result :=
  let st := match state.(status) with Error => Error | _ => Stopped end in
  Ok (replace_runtime state st None None None err now).

Definition start_timed_out (state : MachineState) (now : Z) : result :=
  _ <- require_state state.(status) Starting "StartTimedOut" ;;
  Ok (replace_runtime state Error None None None (Some START_TIMEOUT_ERROR) now).

(** [fn reduce] *)
Definition reduce (state : MachineState) (event : Event) (now : Z) : result :=
  match event with
  | StartRequested run => start_requested state run now
  | MonitorReady run pid started => monitor_ready state run pid started now
  | MonitorObserved pid started run => monitor_observed state pid started run now
  | StartFailed run failure error => start_failed state run failure error now
  | StopRequested pid started run => stop_requested state pid started run now
  | StopCompleted pid started run err => stop_completed state pid started run err now
  | ExitObserved clean error => exit_observed state clean error now
  | MonitorGone err => monitor_gone state err now
  | StartTimedOut => start_timed_out state now
  end.

(** ** Observing the host *)

(** [ProcessIdentity] on Linux carries no birth time; on macOS it may. *)
Inductive ProcessIdentity : Type :=
| LinuxProcess (pid : Z)
| MacProcess (pid : Z) (birth : option Z).

Definition identity_pid (i : ProcessIdentity) : Z := match i with LinuxProcess p | MacProcess p _ => p end.
Definition identity_started_at (i : ProcessIdentity) : option Z :=
  match i with LinuxProcess _ => None | MacProcess _ b => b end.
Definition matches_started_at (i : ProcessIdentity) (expected : option Z) : bool :=
  match i with
  | LinuxProcess _ => true
  | MacProcess _ b => bool_decide (expected = None) || bool_decide (b = expected)
  end.

Inductive VmmonExitOutcome : Type := ExitClean | ExitError.
Record VmmonExitStatus := mk_exit {
  x_run_id : option string; x_pid : option Z; x_outcome : VmmonExitOutcome; x_error : option string }.

(** [struct VmmonRunIdentity] *)
Record VmmonRunIdentity := mk_generation { g_pid : Z; g_started_at : option Z; g_run_id : option string }.

(** What one look at the host returns: the process table, the pid file and its
    modification time, the exit status file, the clock. *)
Record host := mk_host {
  for_pid : Z -> option ProcessIdentity; pid_file : option Z; pid_file_mtime : Z;
  exit_status : option VmmonExitStatus; now_unix : Z }.

(** The loop of [live_monitor_identity] over the candidate pids. *)
Fixpoint live_identity_loop (h : host) (last_pid expected : option Z) (pids : list Z) : option ProcessIdentity :=
  match pids with
  | [] => None
  | pid :: pids =>
      if bool_decide (last_pid = Some pid) then live_identity_loop h last_pid expected pids
      else match h.(for_pid) pid with
           | Some proc =>
               if matches_started_at proc expected then Some proc
               else live_identity_loop h (Some pid) expected pids
           | None => live_identity_loop h (Some pid) expected pids
           end
  end.

Definition live_monitor_identity (h : host) (pid_from_file stored_pid expected : option Z) : option ProcessIdentity :=
  live_identity_loop h None expected (option_list pid_from_file ++ option_list stored_pid).

Definition runtime_exit_matches (x : VmmonExitStatus) (state : option MachineState) : bool :=
  match state with
  | None => true
  | Some state =>
      match x.(x_run_id) with
      | Some run => bool_decide (state.(run_id) = Some run)
      | None => match x.(x_pid) with
                | Some pid => bool_decide (state.(vmmon_pid) = Some pid)
                | None => true
                end
      end
  end.

Definition exit_observed_event (x : VmmonExitStatus) : bool * option string :=
  match x.(x_outcome) with ExitClean => (true, None) | ExitError => (false, x.(x_error)) end.

Definition STALE_STARTING_TIMEOUT : Z := 60.

(** [i64::saturating_sub] *)
Definition saturating_sub (a b : Z) : Z := Z.max (- 2 ^ 63) (Z.min (2 ^ 63 - 1) (a - b)).

Definition state_is_older_than (h : host) (state : MachineState) (age : Z) : bool :=
  age <=? saturating_sub h.(now_unix) state.(updated_at).

Definition stopped_machine_state (id : Z) (err : option string) (now : Z) : MachineState :=
  mk_mstate id Stopped None None None err now.

(** [observe_machine_state] *)
Definition observe_machine_state (h : host) (id : Z) (runtime : option MachineState) : result :=
  let stored_pid := runtime ≫= vmmon_pid in
  let expected_started_at := runtime ≫= started_at in
  let live_identity := live_monitor_identity h h.(pid_file) stored_pid expected_started_at in
  let live_pid := identity_pid <$> live_identity in
  let current_state := default Stopped (status <$> runtime) in
  let matching_exit := x ← h.(exit_status);
    if runtime_exit_matches x runtime && bool_decide (live_pid = None) then Some x else None in
  let stale_starting := bool_decide (current_state = Starting) && bool_decide (live_pid = None) &&
    match runtime with Some r => state_is_older_than h r STALE_STARTING_TIMEOUT | None => false end in
  let stored_state := default (stopped_machine_state id None h.(now_unix)) runtime in
  match matching_exit with
  | Some x => let '(clean, error) := exit_observed_event x in reduce stored_state (ExitObserved clean error) h.(now_unix)
  | None =>
      match live_pid with
      | Some pid =>
          let started := match live_identity ≫= identity_started_at with
                         | Some t => t
                         | None => default h.(pid_file_mtime) (runtime ≫= started_at)
                         end in
          reduce stored_state (MonitorObserved pid started (runtime ≫= run_id)) h.(now_unix)
      | None =>
          if stale_starting then reduce stored_state StartTimedOut h.(now_unix)
          else if bool_decide (current_state = Starting)
          then Ok (mk_mstate stored_state.(machine_id) stored_state.(status) None None stored_state.(run_id) None h.(now_unix))
          else reduce stored_state (MonitorGone (runtime ≫= last_error)) h.(now_unix)
      end
  end.

Definition machine_state_needs_writeback (persisted : option MachineState) (observed : MachineState) : bool :=
  match persisted with
  | None => true
  | Some p =>
      negb (bool_decide (p.(status) = observed.(status))) ||
      negb (bool_decide (p.(vmmon_pid) = observed.(vmmon_pid))) ||
      negb (bool_decide (p.(started_at) = observed.(started_at))) ||
      negb (bool_decide (p.(run_id) = observed.(run_id))) ||
      negb (bool_decide (p.(last_error) = observed.(last_error)))
  end.

(** [reconcile_machine_runtime_locked]: the state to store and the one reported. *)
Definition reconcile (h : host) (id : Z) (persisted : option MachineState)
    : outcome TransitionError (option MachineState * MachineState) :=
  observed <- observe_machine_state h id persisted ;;
  Ok (if machine_state_needs_writeback persisted observed then Some observed else persisted, observed).

Definition vmmon_run_identity_matches (state : MachineState) (g : VmmonRunIdentity) : bool :=
  match g.(g_run_id) with
  | Some run => bool_decide (state.(run_id) = Some run)
  | None => true
  end &&
  bool_decide (state.(vmmon_pid) = Some g.(g_pid)) &&
  match g.(g_started_at) with
  | Some t => bool_decide (state.(started_at) = Some t)
  | None => true
  end.

Definition vmmon_run_is_alive (h : host) (g : VmmonRunIdentity) : bool :=
  match h.(for_pid) g.(g_pid) with
  | Some proc => matches_started_at proc g.(g_started_at)
  | None => false
  end.

(** The stored row, [None] when there is none; a machine without a row is stopped. *)
Definition store : Type := option MachineState.

(** [machine_state] *)
Definition machine_state (id now : Z) (st : store) : MachineState := default (stopped_machine_state id None now) st.

(** ** The invariant *)

(** A machine at rest has no process and no run; one that is starting has a run;
    one that is running has a process and a start time; one that is stopping has
    a process. *)
Definition state_ok (s : MachineState) : Prop :=
  match s.(status) with
  | Stopped | Error => s.(vmmon_pid) = None /\ s.(started_at) = None /\ s.(run_id) = None
  | Starting => is_Some s.(run_id)
  | Running => is_Some s.(vmmon_pid) /\ is_Some s.(started_at)
  | Stopping => is_Some s.(vmmon_pid)
  end.

Definition store_ok (st : store) : Prop := forall s, st = Some s -> state_ok s.

Lemma machine_state_ok id now st : store_ok st -> state_ok (machine_state id now st).
Proof. intros H. destruct st as [s|]; [by apply H|done]. Qed.

(** The events that carry a run id of their own repeat the one that is stored. *)
Definition own_run (s : MachineState) (e : Event) : Prop :=
  match e with
  | MonitorObserved _ _ r | StopRequested _ _ r => r = s.(run_id)
  | _ => True
  end.

Ltac unfold_reduce := unfold reduce, start_requested, monitor_ready, monitor_observed, start_failed, stop_requested,
  stop_completed, exit_observed, monitor_gone, start_timed_out, require_state, require_generation, require_run_id in *.

Lemma reduce_ok s e now s' : state_ok s -> reduce s e now = Ok s' -> own_run s e -> state_ok s'.
Proof.
  intros Hs H Hrun. destruct e; unfold_reduce; repeat (case_match; simplify_eq/=); unfold state_ok in *; simpl in *; eauto.
  by match goal with H : status s = Starting |- _ => rewrite H in Hs end.
Qed.

(** An observation is one event on the stored row, or leaves a fresh start alone. *)
Lemma observe_event h id st s : observe_machine_state h id st = Ok s ->
  let stored := machine_state id h.(now_unix) st in
  (exists e, own_run stored e /\ reduce stored e h.(now_unix) = Ok s) \/
  (stored.(status) = Starting /\ s = replace_runtime stored Starting None None stored.(run_id) None h.(now_unix)).
Proof.
  unfold observe_machine_state, machine_state. set (stored := default _ st).
  set (live := live_monitor_identity _ _ _ _). cbv zeta.
  assert (Hrun : st ≫= run_id = stored.(run_id)) by (by destruct st).
  destruct (h.(exit_status) ≫= _) as [x|].
  { destruct (exit_observed_event x) as [c e]. intros E. left. by exists (ExitObserved c e). }
  destruct (identity_pid <$> live) as [pid|].
  { intros E. left. eexists. split; [|exact E]. done. }
  case_match; [intros E; left; by exists StartTimedOut|]. case_bool_decide as Hst'.
  - intros [= <-]. right. assert (Hss : stored.(status) = Starting) by (destruct st; simpl in *; done).
    by rewrite Hss.
  - intros E. left. eexists. split; [|exact E]. done.
Qed.

Lemma observe_ok h id st s : store_ok st -> observe_machine_state h id st = Ok s -> state_ok s.
Proof.
  intros Hst E. pose proof (machine_state_ok id h.(now_unix) st Hst) as Hs.
  destruct (observe_event _ _ _ _ E) as [(e & He & Hr)|[Hss ->]]; [by eapply reduce_ok|].
  unfold state_ok in *. simpl. by rewrite Hss in Hs.
Qed.

Lemma reconcile_ok h id st st' s : store_ok st -> reconcile h id st = Ok (st', s) -> store_ok st' /\ state_ok s.
Proof.
  intros Hst. unfold reconcile. destruct (observe_machine_state h id st) as [o| |] eqn:E; simpl; [|done..].
  intros [= <- <-]. pose proof (observe_ok _ _ _ _ Hst E) as Ho. split; [|done].
  case_match; [|done]. by intros s' [= <-].
Qed.

(** ** Reconciliation *)

(** The monitor the host shows for a stored state. *)
Definition live (h : host) (st : store) : option ProcessIdentity :=
  live_monitor_identity h h.(pid_file) (st ≫= vmmon_pid) (st ≫= started_at).

(** The events reconciliation issues are always accepted. *)
Lemma observe_total h id st : exists s, observe_machine_state h id st = Ok s.
Proof.
  unfold observe_machine_state. destruct (h.(exit_status) ≫= _) as [x|].
  { destruct (exit_observed_event x) as [c e]. simpl. unfold exit_observed. case_match; eauto. }
  destruct (identity_pid <$> _) as [pid|]; [simpl; unfold monitor_observed; eauto|].
  case_match eqn:Hstale.
  - rewrite !andb_true_iff, bool_decide_eq_true in Hstale. destruct Hstale as [[Hs _] _].
    destruct st as [s|]; simpl in *; [|done]. unfold start_timed_out, require_state.
    rewrite bool_decide_eq_true_2 by done. simpl. eauto.
  - case_bool_decide; [eauto|]. simpl. unfold monitor_gone. eauto.
Qed.

(** What the observation says when no monitor is alive, and when one is. *)
Lemma observe_dead h id st s : live h st = None -> observe_machine_state h id st = Ok s ->
  s.(status) <> Running /\ s.(status) <> Stopping /\ s.(vmmon_pid) = None /\ s.(started_at) = None.
Proof.
  intros Hl. unfold observe_machine_state. fold (live h st). rewrite Hl. simpl.
  destruct (h.(exit_status) ≫= _) as [x|].
  { unfold exit_observed_event. destruct (x_outcome x); simpl; unfold exit_observed; by intros [= <-]. }
  destruct st as [r|]; simpl; [|by intros [= <-]].
  case_match eqn:Hstale.
  - unfold start_timed_out, require_state. case_bool_decide; simpl; [by intros [= <-]|done].
  - case_bool_decide as Hs; [intros [= <-]; simpl; by rewrite Hs|].
    unfold monitor_gone. intros [= <-]. simpl. by destruct (status r).
Qed.

Lemma observe_live h id st i s : live h st = Some i -> observe_machine_state h id st = Ok s ->
  is_active s.(status) = true /\ s.(vmmon_pid) = Some (identity_pid i) /\ s.(run_id) = st ≫= run_id.
Proof.
  intros Hl. unfold observe_machine_state. fold (live h st). rewrite Hl. simpl.
  replace (h.(exit_status) ≫= _) with (@None VmmonExitStatus).
  2:{ destruct (h.(exit_status)) as [x|]; [|done]. simpl. by rewrite andb_false_r. }
  unfold monitor_observed. intros [= <-]. simpl. split; [|done]. by destruct (status _).
Qed.

(** The loop over the candidate pids only returns processes of the table. *)
Lemma live_loop_some h last e pids i : live_identity_loop h last e pids = Some i ->
  exists p, p ∈ pids /\ h.(for_pid) p = Some i.
Proof.
  revert last. induction pids as [|p pids IH]; intros last; simpl; [done|].
  case_bool_decide; [intros H'; destruct (IH _ H') as (p' & ? & ?); exists p'; split; [by right|done]|].
  destruct (for_pid h p) as [j|] eqn:E.
  - case_match; [intros [= <-]; exists p; split; [by left|done]|].
    intros H'; destruct (IH _ H') as (p' & ? & ?); exists p'; split; [by right|done].
  - intros H'; destruct (IH _ H') as (p' & ? & ?); exists p'; split; [by right|done].
Qed.

(** A table of Linux processes, which knows every process by its own pid. *)
Definition linux (h : host) : Prop := forall p i, h.(for_pid) p = Some i -> i = LinuxProcess p.

Lemma linux_live h st i : linux h -> live h st = Some i ->
  i = LinuxProcess (identity_pid i) /\ h.(for_pid) (identity_pid i) = Some i.
Proof.
  intros Hl H. apply live_loop_some in H as (p & _ & Hp). pose proof (Hl _ _ Hp) as ->. by split.
Qed.

(** On Linux the monitor is the process of the pid file, or else the one stored. *)
Lemma live_linux h st : linux h ->
  live h st = (h.(pid_file) ≫= h.(for_pid)) ∪ ((st ≫= vmmon_pid) ≫= h.(for_pid)).
Proof.
  intros Hl. unfold live, live_monitor_identity.
  destruct (pid_file h) as [p|], (st ≫= vmmon_pid) as [q|]; simpl; try done.
  - destruct (for_pid h p) as [i|] eqn:Hp.
    + rewrite (Hl _ _ Hp). simpl. by destruct (for_pid h q).
    + case_bool_decide as Hpq.
      * injection Hpq as <-. by rewrite Hp.
      * destruct (for_pid h q) as [i|] eqn:Hq; [by rewrite (Hl _ _ Hq)|done].
  - destruct (for_pid h p) as [i|] eqn:Hp; [by rewrite (Hl _ _ Hp)|done].
  - destruct (for_pid h q) as [i|] eqn:Hq; [by rewrite (Hl _ _ Hq)|done].
Qed.

Lemma live_linux_dead h st s : linux h -> live h st = None -> s.(vmmon_pid) = None -> live h (Some s) = None.
Proof.
  intros Hl. rewrite !live_linux by done. simpl. intros H ->. simpl.
  destruct (pid_file h ≫= for_pid h); [|done]. by destruct ((st ≫= vmmon_pid) ≫= for_pid h).
Qed.

Lemma live_linux_same h st s i : linux h -> live h st = Some i -> s.(vmmon_pid) = Some (identity_pid i) ->
  live h (Some s) = Some i.
Proof.
  intros Hl H Hs. destruct (linux_live _ _ _ Hl H) as [_ Hp]. revert H. rewrite !live_linux by done. simpl.
  rewrite Hs. simpl. rewrite Hp. destruct (pid_file h ≫= for_pid h); [|done]. by destruct ((st ≫= vmmon_pid) ≫= for_pid h).
Qed.

(** The exit status file that matches the row, when no monitor is alive. *)
Definition matching (h : host) (st : store) : option VmmonExitStatus :=
  x ← h.(exit_status); if runtime_exit_matches x st then Some x else None.

Lemma observe_no_monitor h id st : live h st = None ->
  observe_machine_state h id st =
    let stored := machine_state id h.(now_unix) st in
    match matching h st with
    | Some x => reduce stored (ExitObserved (exit_observed_event x).1 (exit_observed_event x).2) h.(now_unix)
    | None =>
        if bool_decide (stored.(status) = Starting) then
          if match st with Some r => state_is_older_than h r STALE_STARTING_TIMEOUT | None => false end
          then reduce stored StartTimedOut h.(now_unix)
          else Ok (mk_mstate stored.(machine_id) stored.(status) None None stored.(run_id) None h.(now_unix))
        else reduce stored (MonitorGone (st ≫= last_error)) h.(now_unix)
    end.
Proof.
  intros Hl. unfold observe_machine_state, machine_state, matching. fold (live h st). rewrite Hl. cbv zeta.
  replace (h.(exit_status) ≫= _) with (x ← h.(exit_status); if runtime_exit_matches x st then Some x else None).
  2:{ destruct (exit_status h) as [x|]; [|done]. simpl. by rewrite andb_true_r. }
  destruct (_ ≫= _) as [x|]; [by destruct (exit_observed_event x)|].
  destruct st as [r|]; simpl; [|done]. rewrite andb_true_r. by repeat case_bool_decide; repeat case_match.
Qed.

Lemma observe_monitor h id st i : live h st = Some i ->
  observe_machine_state h id st =
    reduce (machine_state id h.(now_unix) st)
      (MonitorObserved (identity_pid i)
         match identity_started_at i with Some t => t | None => default h.(pid_file_mtime) (st ≫= started_at) end
         (st ≫= run_id)) h.(now_unix).
Proof.
  intros Hl. unfold observe_machine_state, machine_state. fold (live h st). rewrite Hl. cbv zeta. simpl.
  replace (h.(exit_status) ≫= _) with (@None VmmonExitStatus); [done|].
  destruct (exit_status h) as [x|]; [|done]. simpl. by rewrite andb_false_r.
Qed.

(** An exit status that does not match a row does not match the row without its
    process either, and one that names nobody matches every row. *)
Lemma matching_cleared h st s : s.(vmmon_pid) = None -> (s.(run_id) = None \/ s.(run_id) = st ≫= run_id) ->
  is_Some st -> matching h st = None -> matching h (Some s) = None.
Proof.
  unfold matching. intros Hp Hr [r ->] H. destruct (exit_status h) as [x|]; [|done]. simpl in *.
  destruct (x_run_id x) as [run|]; [|destruct (x_pid x) as [p|]; [|done]].
  - rewrite bool_decide_eq_false_2; [done|]. destruct Hr as [->| ->]; [done|]. simpl. by case_bool_decide.
  - rewrite bool_decide_eq_false_2; [done|]. by rewrite Hp.
Qed.

(** A row an exit status was applied to: either the file no longer matches, or it
    names nobody. *)
Lemma matching_applied h st s x : s.(vmmon_pid) = None -> s.(run_id) = None -> matching h st = Some x ->
  matching h (Some s) = None \/ matching h (Some s) = Some x.
Proof.
  unfold matching. intros Hp Hr H. destruct (exit_status h) as [y|]; [|done]. simpl in *.
  assert (y = x) as -> by (by case_match; simplify_eq). rewrite Hr, Hp.
  destruct (x_run_id x) as [run|]; [by left|]. destruct (x_pid x); [by left|by right].
Qed.

(** What the row becomes when no monitor is alive: it names no process, and unless
    the machine is still starting no run. *)
Lemma observe_cleared h id st s : live h st = None -> observe_machine_state h id st = Ok s ->
  s.(vmmon_pid) = None /\ s.(started_at) = None /\ s.(updated_at) = h.(now_unix) /\
  (s.(run_id) = None \/ s.(run_id) = st ≫= run_id).
Proof.
  intros Hl. rewrite observe_no_monitor by done. cbv zeta. destruct (matching h st) as [x|].
  { simpl. unfold exit_observed. case_match; case_match; simplify_eq; intros [= <-]; simpl; auto. }
  case_bool_decide as Hs.
  - case_match; [|by intros [= <-]; simpl; destruct st; auto].
    simpl. unfold start_timed_out, require_state. case_bool_decide; simpl; [|done]. intros [= <-]. simpl. auto.
  - simpl. unfold monitor_gone. intros [= <-]. simpl. auto.
Qed.

Lemma saturating_sub_self n : saturating_sub n n = 0%Z.
Proof. unfold saturating_sub. lia. Qed.

(** On Linux the state an observation gives observes as itself. *)
Lemma observe_fix h id st s : linux h -> observe_machine_state h id st = Ok s ->
  observe_machine_state h id (Some s) = Ok s.
Proof.
  intros Hlin H. destruct (live h st) as [i|] eqn:Hl.
  - destruct (observe_live _ _ _ _ _ Hl H) as (_ & Hp & _).
    rewrite (observe_monitor _ _ _ i) by (by eapply live_linux_same).
    destruct (linux_live _ _ _ Hlin Hl) as [Hi _]. rewrite (observe_monitor _ _ _ _ Hl) in H.
    rewrite Hi in *. simpl in *. unfold monitor_observed in *. injection H as <-. unfold replace_runtime. simpl.
    f_equal. f_equal. by destruct (status _).
  - destruct (observe_cleared _ _ _ _ Hl H) as (Hp & Hst & Hu & Hr).
    rewrite observe_no_monitor by (by eapply live_linux_dead). rewrite (observe_no_monitor _ _ _ Hl) in H.
    cbv zeta in *. destruct (matching h st) as [x|] eqn:Hm.
    + assert (Hs : s = replace_runtime (machine_state id (now_unix h) st)
        (if (exit_observed_event x).1 then Stopped else Error) None None None
        (if (exit_observed_event x).1 then None else Some (default "machine runtime exited with an error"%string (exit_observed_event x).2))
        (now_unix h)).
      { simpl in H. unfold exit_observed in H. by destruct (exit_observed_event x).1; injection H as <-. }
      destruct (matching_applied h st s x) as [->| ->]; [done|by rewrite Hs|done| |]; subst s; simpl;
        unfold monitor_gone, exit_observed; by destruct (exit_observed_event x).1.
    + assert (matching h (Some s) = None) as ->.
      { destruct st as [r|]; [by eapply matching_cleared|].
        revert Hm. unfold matching. by destruct (exit_status h) as [y|]. }
      revert H. case_bool_decide as Hss; intros H.
      * case_match.
        -- simpl in H. unfold start_timed_out, require_state in H. case_bool_decide; simplify_eq/=. done.
        -- injection H as <-. simpl. rewrite bool_decide_eq_true_2 by done. unfold state_is_older_than. simpl.
           by rewrite saturating_sub_self.
      * simpl in H. unfold monitor_gone in H. injection H as <-. simpl.
        rewrite bool_decide_eq_false_2 by (by destruct (status _)). unfold monitor_gone. simpl.
        unfold replace_runtime. simpl. by destruct (status (machine_state id (now_unix h) st)).
Qed.

(** ** What reconciliation promises *)

Lemma writeback_false p s : machine_state_needs_writeback (Some p) s = false ->
  p.(status) = s.(status) /\ p.(vmmon_pid) = s.(vmmon_pid) /\ p.(started_at) = s.(started_at) /\
  p.(run_id) = s.(run_id) /\ p.(last_error) = s.(last_error).
Proof. unfold machine_state_needs_writeback. rewrite !orb_false_iff, !negb_false_iff, !bool_decide_eq_true. tauto. Qed.

(** Two rows that differ in the time of their last write at most. *)
Definition same_row (p s : MachineState) : Prop :=
  p.(status) = s.(status) /\ p.(vmmon_pid) = s.(vmmon_pid) /\ p.(started_at) = s.(started_at) /\
  p.(run_id) = s.(run_id) /\ p.(last_error) = s.(last_error).

#[export] Instance same_row_equivalence : Equivalence same_row.
Proof.
  unfold same_row. split; [done|intros p q (? & ? & ? & ? & ?); auto|].
  intros p q r (-> & -> & -> & -> & ->); done.
Qed.

Lemma reconcile_eq h id st : exists s st', reconcile h id st = Ok (st', s) /\ observe_machine_state h id st = Ok s /\
  ((st' = st /\ machine_state_needs_writeback st s = false) \/ st' = Some s).
Proof.
  destruct (observe_total h id st) as [s Hs]. unfold reconcile. rewrite Hs. simpl.
  case_match eqn:E; eauto 10.
Qed.

Lemma reconcile_row h id st st' s : reconcile h id st = Ok (st', s) -> exists r, st' = Some r /\ same_row r s.
Proof.
  intros H. destruct (reconcile_eq h id st) as (s0 & st0 & H0 & _ & Hw). rewrite H0 in H. simplify_eq.
  destruct Hw as [[-> Hw]| ->]; [|by exists s]. destruct st as [r|]; [|done]. exists r. split; [done|]. by apply writeback_false.
Qed.

(** Reconciliation always succeeds, leaves in the store the
    row it reports (up to the time of the last write) and reports the host
    truthfully: when a monitor process is alive the machine is active under that
    process and its run; when none is, the machine is neither running nor stopping
    and the row names no process. *)
Theorem reconcile_reports h id st : exists st' s r, reconcile h id st = Ok (st', s) /\ st' = Some r /\ same_row r s /\
  match live h st with
  | Some i => is_active s.(status) = true /\ s.(vmmon_pid) = Some (identity_pid i) /\ s.(run_id) = st ≫= run_id
  | None => s.(status) <> Running /\ s.(status) <> Stopping /\ s.(vmmon_pid) = None /\ s.(started_at) = None
  end.
Proof.
  destruct (reconcile_eq h id st) as (s & st' & H & Ho & _). destruct (reconcile_row _ _ _ _ _ H) as (r & -> & Hr).
  exists (Some r), s, r. repeat (split; [done|]). destruct (live h st) as [i|] eqn:Hl.
  - by eapply observe_live.
  - by eapply observe_dead.
Qed.

(** On Linux, reconciling again with the same view of the
    host reports the same state and writes nothing. *)
Theorem reconcile_idempotent h id st st' s : linux h -> reconcile h id st = Ok (st', s) ->
  reconcile h id st' = Ok (st', s).
Proof.
  intros Hl H. destruct (reconcile_eq h id st) as (s0 & st0 & H0 & Ho & Hw). rewrite H in H0. simplify_eq.
  destruct Hw as [[-> _]| ->]; [done|]. unfold reconcile. rewrite (observe_fix _ _ _ _ Hl Ho). simpl.
  by case_match.
Qed.

(** ** Giving up on a start *)

(** Nothing on the host speaks for the row: no monitor, no exit status of it. *)
Definition quiet (h : host) (s : MachineState) : Prop := live h (Some s) = None /\ matching h (Some s) = None.

(** A row as [StartRequested] leaves it. *)
Definition fresh_start (s : MachineState) : Prop :=
  s.(status) = Starting /\ s.(vmmon_pid) = None /\ s.(started_at) = None /\ s.(last_error) = None.

(** The row after a client polled the machine with each of the hosts in turn. *)
Definition polled (id : Z) (hs : list host) (st : store) : store :=
  foldl (fun st h => match reconcile h id st with Ok (st', _) => st' | _ => st end) st hs.

Lemma older_than_iff h s age : (0 <= age < 2 ^ 63)%Z ->
  state_is_older_than h s age = true <-> (s.(updated_at) + age <= h.(now_unix))%Z.
Proof. intros Ha. unfold state_is_older_than, saturating_sub. rewrite Z.leb_le. lia. Qed.

Lemma reconcile_starting h id s : fresh_start s -> quiet h s ->
  reconcile h id (Some s) =
    if state_is_older_than h s STALE_STARTING_TIMEOUT
    then let e := replace_runtime s Error None None None (Some START_TIMEOUT_ERROR) h.(now_unix) in Ok (Some e, e)
    else Ok (Some s, mk_mstate s.(machine_id) Starting None None s.(run_id) None h.(now_unix)).
Proof.
  intros (Hs & Hp & Ht & He) [Hl Hm]. unfold reconcile. rewrite observe_no_monitor, Hm by done. cbv zeta. simpl.
  unfold start_timed_out, require_state. rewrite Hs. destruct (state_is_older_than h s _); simpl.
  - done.
  - rewrite Hp, Ht, He. by rewrite !bool_decide_eq_true_2 by done.
Qed.

Lemma polled_starting id s hs : fresh_start s ->
  Forall (fun h => quiet h s /\ (h.(now_unix) < s.(updated_at) + STALE_STARTING_TIMEOUT)%Z) hs ->
  polled id hs (Some s) = Some s.
Proof.
  intros Hf H. unfold polled. induction H as [|h hs [Hq Hn] _ IH]; [done|]. simpl.
  rewrite reconcile_starting by done. destruct (state_is_older_than h s _) eqn:E; [|done].
  apply older_than_iff in E; unfold STALE_STARTING_TIMEOUT in *; lia.
Qed.

(** Polling a start that shows no monitor and no exit status
    does not postpone its timeout: whatever was polled before, the first poll sixty
    seconds after the request turns the machine into an error that can be started
    again, and no poll before that changes the row. *)
Theorem start_gives_up id s hs h : fresh_start s ->
  Forall (fun h => quiet h s /\ (h.(now_unix) < s.(updated_at) + STALE_STARTING_TIMEOUT)%Z) hs ->
  quiet h s -> (s.(updated_at) + STALE_STARTING_TIMEOUT <= h.(now_unix))%Z ->
  polled id hs (Some s) = Some s /\
  exists e, polled id (hs ++ [h]) (Some s) = Some e /\ e.(status) = Error /\
    e.(last_error) = Some START_TIMEOUT_ERROR /\ forall run now, exists n, start_requested e run now = Ok n.
Proof.
  intros Hf Hs Hq Hn. pose proof (polled_starting id s hs Hf Hs) as Hp. split; [done|].
  unfold polled in *. rewrite foldl_app, Hp. simpl. rewrite reconcile_starting by done.
  rewrite (proj2 (older_than_iff h s STALE_STARTING_TIMEOUT ltac:(unfold STALE_STARTING_TIMEOUT; lia))) by done.
  simpl. eexists. split; [done|]. split; [done|]. split; [done|]. intros run now. unfold start_requested. simpl. eauto.
Qed.

(** A host on which process 7 runs and the pid file names it, and one that is empty. *)
Definition sample_host (now : Z) : host :=
  mk_host (fun p => if bool_decide (p = 7%Z) then Some (LinuxProcess 7) else None) (Some 7%Z) 100 None now.
Definition empty_host (now : Z) : host := mk_host (fun _ => None) None 0 None now.
Definition starting_row : MachineState := mk_mstate 1 Starting None None (Some "r1"%string) None 100.

Lemma reconcile_idempotent_witness :
  reconcile (sample_host 120) 1 (Some (mk_mstate 1 Starting (Some 7%Z) (Some 100%Z) (Some "r1"%string) None 120)) =
  Ok (Some (mk_mstate 1 Starting (Some 7%Z) (Some 100%Z) (Some "r1"%string) None 120),
      mk_mstate 1 Starting (Some 7%Z) (Some 100%Z) (Some "r1"%string) None 120).
Proof.
  apply (reconcile_idempotent (sample_host 120) 1 (Some starting_row)).
  - intros p i. simpl. case_bool_decide; [by intros [= <-]; subst|done].
  - reflexivity.
Defined.

Lemma start_gives_up_witness :
  polled 1 [empty_host 110; empty_host 159] (Some starting_row) = Some starting_row /\
  exists e, polled 1 ([empty_host 110; empty_host 159] ++ [empty_host 160]) (Some starting_row) = Some e /\ e.(status) = Error /\
    e.(last_error) = Some START_TIMEOUT_ERROR /\ forall run now, exists n, start_requested e run now = Ok n.
Proof.
  apply (start_gives_up 1 starting_row [empty_host 110; empty_host 159] (empty_host 160)).
  - repeat split.
  - repeat constructor.
  - repeat split.
  - done.
Defined.
