(* ===== verification/Lifecycle.v ===== *)
(** * The operations on a machine

    [runtime/libvm/src/machine/lifecycle.rs] (start, stop, kill, wait, cleanup,
    remove) and the operations of [runtime/core.rs] they are made of.  Each is a
    sequence of sections that hold the machine's lock; a section is one definition
    on the stored row, so that the operations of several clients interleave as
    sequences of sections.  The row is what the model keeps; what a section does to
    the network, the disk and the files of the machine enters only through the
    failures it can end in. *)

From stdpp Require Import base list option numbers strings relations.
From S2P Require Import Prelude Transitions.

(** ** Sections *)

Inductive LibVmError : Type :=
| MachineAlreadyRunning | MachineNotRunning | MonitorConnection | Io (message : string)
| Transition (e : TransitionError).

(** What reading the host gives: a pid file, an exit status or a process that
    cannot be read ends the section. *)
Definition look : Type := outcome LibVmError host.
Definition locked (A : Type) : Type := store * outcome LibVmError A.

(** [transition_current_machine_state] *)
Definition transition_current_machine_state (id now : Z) (e : Event) (st : store) : locked unit :=
  match reduce (machine_state id now st) e now with
  | Ok next => (Some next, Ok tt)
  | Err err => (st, Err (Transition err))
  | Panic => (st, Panic)
  end.

Definition request_machine_start (id now : Z) (run : string) : store -> locked unit :=
  transition_current_machine_state id now (StartRequested run).
Definition mark_machine_monitor_ready (id now : Z) (run : string) (pid started : Z) : store -> locked unit :=
  transition_current_machine_state id now (MonitorReady run pid started).
Definition mark_machine_start_failed (id now : Z) (run : string) (failure : StartFailure) (error : option string)
    : store -> locked unit :=
  transition_current_machine_state id now (StartFailed run failure error).
Definition mark_machine_start_stopped (id now : Z) (run : string) (error : option string) : store -> locked unit :=
  mark_machine_start_failed id now run FStopped error.
Definition mark_machine_start_error (id now : Z) (run : string) (error : option string) : store -> locked unit :=
  mark_machine_start_failed id now run FError error.
Definition request_machine_stop (id now : Z) (g : VmmonRunIdentity) : store -> locked unit :=
  transition_current_machine_state id now (StopRequested g.(g_pid) g.(g_started_at) g.(g_run_id)).

(** [set_machine_state] and [mark_machine_stopped] *)
Definition set_machine_state (id : Z) (st : MachineRuntimeState) (pid started : option Z) (run err : option string)
    (now : Z) : store := Some (mk_mstate id st pid started run err now).
Definition mark_machine_stopped (id now : Z) (err : option string) : store :=
  set_machine_state id Stopped None None None err now.

(** [reconcile_machine_runtime_locked] and the rest of the section. *)
Definition after_reconcile {A} (l : look) (id : Z) (st : store) (k : host -> store -> MachineState -> locked A)
    : locked A :=
  match l with
  | Ok h => match reconcile h id st with
            | Ok (st, observed) => k h st observed
            | Err e => (st, Err (Transition e))
            | Panic => (st, Panic)
            end
  | Err e => (st, Err e)
  | Panic => (st, Panic)
  end.

(** ** Starting *)

(** What happens between the request and the monitor's registration: a
    preparation step, the launch, the pid file or the process itself may fail. *)
Inductive launch : Type :=
| PrepareFailed (e : LibVmError)
| SpawnFailed (e : LibVmError) (message : string)
| PidUnreadable (message : string)
| MonitorMissing (message : string)
| Launched (pid started : Z).

(** [r?; k]: the error of a section that failed wins. *)
Definition and_then {A B} (r : locked A) (k : store -> locked B) : locked B :=
  match r with
  | (st, Ok _) => k st
  | (st, Err e) => (st, Err e)
  | (st, Panic) => (st, Panic)
  end.

(** [start_with] *)
Definition start_with (l : look) (id : Z) (run : string) (launched : launch) (st : store) : locked unit :=
  after_reconcile l id st (fun h st observed =>
    if is_active observed.(status) then (st, Err MachineAlreadyRunning)
    else match launched with
    | PrepareFailed e => (st, Err e)
    | _ =>
        and_then (request_machine_start id h.(now_unix) run st) (fun st =>
        match launched with
        | PrepareFailed e => (st, Err e)
        | SpawnFailed e msg =>
            and_then (mark_machine_start_stopped id h.(now_unix) run (Some msg) st) (fun st => (st, Err e))
        | PidUnreadable msg =>
            and_then (mark_machine_start_error id h.(now_unix) run (Some msg) st) (fun st => (st, Err (Io msg)))
        | MonitorMissing msg =>
            and_then (mark_machine_start_error id h.(now_unix) run (Some msg) st) (fun st => (st, Err MonitorConnection))
        | Launched pid started => mark_machine_monitor_ready id h.(now_unix) run pid started st
        end)
    end).

(** ** Stopping *)

(** The outcome of [interrupt_monitor] and [kill_monitor_process_group]. *)
Inductive signal : Type := Delivered | NoSuchProcess | SignalFailed (message : string).

Record WaitTarget := mk_target { w_generation : VmmonRunIdentity; w_stop_requested : bool; w_forced : bool }.

(** The generation an operation works on. *)
Definition generation_of (h : host) (s : MachineState) (pid : Z) : VmmonRunIdentity :=
  mk_generation pid (Some (default h.(pid_file_mtime) s.(started_at))) s.(run_id).

Definition request_and_wait (h : host) (id : Z) (g : VmmonRunIdentity) (forced : bool) (st : store)
    : locked (option WaitTarget) :=
  and_then (request_machine_stop id h.(now_unix) g st) (fun st => (st, Ok (Some (mk_target g true forced)))).

(** [stop_with] up to the wait; [None] when there is nothing to wait for. *)
Definition stop_section (l : look) (id : Z) (sig : signal) (st : store) : locked (option WaitTarget) :=
  let previous := default Stopped (status <$> st) in
  after_reconcile l id st (fun h st observed =>
    match observed.(status) with
    | Stopped | Error =>
        if bool_decide (previous = Stopping) then (st, Ok None) else (st, Err MachineNotRunning)
    | _ =>
        match observed.(vmmon_pid) with
        | None => (mark_machine_stopped id h.(now_unix) None, Ok None)
        | Some pid =>
            let g := generation_of h observed pid in
            if bool_decide (observed.(status) = Stopping) then request_and_wait h id g false st
            else match sig with
                 | Delivered => request_and_wait h id g false st
                 | NoSuchProcess => (mark_machine_stopped id h.(now_unix) None, Ok None)
                 | SignalFailed msg => (st, Err (Io msg))
                 end
        end
    end).

(** [kill_with] up to the wait. *)
Definition kill_section (l : look) (id : Z) (sig : signal) (st : store) : locked (option WaitTarget) :=
  after_reconcile l id st (fun h st observed =>
    match observed.(status) with
    | Stopped | Error => (st, Err MachineNotRunning)
    | _ =>
        match observed.(vmmon_pid) with
        | None => (mark_machine_stopped id h.(now_unix) None, Ok None)
        | Some pid =>
            match sig with
            | Delivered => request_and_wait h id (generation_of h observed pid) true st
            | NoSuchProcess => (mark_machine_stopped id h.(now_unix) None, Ok None)
            | SignalFailed msg => (st, Err (Io msg))
            end
        end
    end).

(** ** Waiting *)

(** [active_wait_target] *)
Definition active_wait_target (l : look) (id : Z) (st : store) : locked (option WaitTarget) :=
  let target h s := (fun pid => mk_target (generation_of h s pid) false false) <$> s.(vmmon_pid) in
  after_reconcile l id st (fun h st' observed =>
    if negb (is_active observed.(status))
    then (st', Ok (match st with Some s => if is_active s.(status) then target h s else None | None => None end))
    else (st', Ok (target h observed))).

(** [complete_stop_locked] *)
Definition complete_stop_locked (l : look) (id : Z) (g : VmmonRunIdentity) (err : option string) (st : store)
    : locked unit :=
  match l with
  | Ok h =>
      let state := machine_state id h.(now_unix) st in
      if negb (vmmon_run_identity_matches state g) then (st, Ok tt)
      else if vmmon_run_is_alive h g then (st, Ok tt)
      else match reduce state (StopCompleted g.(g_pid) g.(g_started_at) g.(g_run_id) err) h.(now_unix) with
           | Ok next => (Some next, Ok tt)
           | Err StaleGeneration => (st, Ok tt)
           | Err e => (st, Err (Transition e))
           | Panic => (st, Panic)
           end
  | Err e => (st, Err e)
  | Panic => (st, Panic)
  end.

(** [wait_for_target_exit] after the monitor is gone. *)
Definition wait_section (l : look) (id : Z) (w : WaitTarget) (st : store) : locked unit :=
  if w.(w_stop_requested) then complete_stop_locked l id w.(w_generation) None st
  else after_reconcile l id st (fun _ st _ => (st, Ok tt)).

(** [exit_status_matches_generation] and [machine_exit] *)
Inductive MachineExitOutcome : Type := OutcomeClean | OutcomeError (message : option string) | Forced | Unknown.

Definition exit_status_matches_generation (x : VmmonExitStatus) (g : VmmonRunIdentity) : bool :=
  match x.(x_run_id) with
  | Some run => bool_decide (g.(g_run_id) = Some run)
  | None => match x.(x_pid) with Some pid => bool_decide (g.(g_pid) = pid) | None => true end
  end.

Definition machine_exit (g : VmmonRunIdentity) (forced : bool) (x : option VmmonExitStatus) : MachineExitOutcome :=
  match x ≫= (fun x => if exit_status_matches_generation x g then Some x else None) with
  | Some x => match x.(x_outcome) with ExitClean => OutcomeClean | ExitError => OutcomeError x.(x_error) end
  | None => if forced then Forced else Unknown
  end.

(** ** Cleaning up and removing *)

Definition cleanup (l : look) (id : Z) (st : store) : locked unit :=
  after_reconcile l id st (fun h st observed =>
    if is_active observed.(status) then (st, Ok tt)
    else if bool_decide (observed.(status) = Stopping) then (mark_machine_stopped id h.(now_unix) None, Ok tt)
    else (st, Ok tt)).

(** [remove]; [removed] is whether the machine's directory and its row could be
    deleted, [freed] whether its lock could be given back. *)
Definition remove (l : look) (id : Z) (removed freed : outcome LibVmError unit) (st : store) : locked unit :=
  after_reconcile l id st (fun _ st observed =>
    if is_active observed.(status) then (st, Err MachineAlreadyRunning)
    else match removed with
         | Ok _ => (None, freed)
         | Err e => (st, Err e)
         | Panic => (st, Panic)
         end).

(** ** Interleavings *)

(** A section some client runs on the row.  A client that dies inside [start_with]
    leaves the row as the request left it. *)
Inductive op : Type :=
| OpReconcile (l : look)
| OpStart (l : look) (run : string) (launched : launch)
| OpStartDies (l : look) (run : string)
| OpStop (l : look) (sig : signal)
| OpKill (l : look) (sig : signal)
| OpWaitTarget (l : look)
| OpWait (l : look) (w : WaitTarget)
| OpCleanup (l : look)
| OpRemove (l : look) (removed freed : outcome LibVmError unit).

Definition start_dies (l : look) (id : Z) (run : string) (st : store) : locked unit :=
  after_reconcile l id st (fun h st observed =>
    if is_active observed.(status) then (st, Err MachineAlreadyRunning)
    else request_machine_start id h.(now_unix) run st).

Definition run_op (id : Z) (o : op) (st : store) : store :=
  match o with
  | OpReconcile l => (after_reconcile l id st (fun _ st _ => (st, Ok tt))).1
  | OpStart l run launched => (start_with l id run launched st).1
  | OpStartDies l run => (start_dies l id run st).1
  | OpStop l sig => (stop_section l id sig st).1
  | OpKill l sig => (kill_section l id sig st).1
  | OpWaitTarget l => (active_wait_target l id st).1
  | OpWait l w => (wait_section l id w st).1
  | OpCleanup l => (cleanup l id st).1
  | OpRemove l removed freed => (remove l id removed freed st).1
  end.

Inductive step (id : Z) : store -> store -> Prop :=
| step_op o st : step id st (run_op id o st).

(** ** What an operation can do to the row *)

Section induction.
Context (id : Z) (P : store -> store -> Prop).

(** A relation on rows that holds of every event the sections issue holds of every
    section. *)
Class row_rule : Prop := {
  rule_refl st : P st st;
  rule_trans a b c : P a b -> P b c -> P a c;
  rule_observe h st s : observe_machine_state h id st = Ok s -> P st (Some s);
  rule_event now e st s : own_run (machine_state id now st) e ->
    reduce (machine_state id now st) e now = Ok s -> P st (Some s);
  rule_stopped now err st : P st (mark_machine_stopped id now err);
  rule_remove st : is_active (default Stopped (status <$> st)) = false -> P st None }.

Context `{R : row_rule}.

Lemma reconcile_rule h st st' s : reconcile h id st = Ok (st', s) -> P st st'.
Proof using R.
  intros H. destruct (reconcile_eq h id st) as (s0 & st0 & H0 & Ho & Hw). rewrite H in H0. simplify_eq.
  destruct Hw as [[-> _]| ->]; [apply rule_refl|by eapply rule_observe].
Qed.

Lemma transition_rule now e st : own_run (machine_state id now st) e ->
  P st (transition_current_machine_state id now e st).1.
Proof using R.
  intros He. unfold transition_current_machine_state.
  destruct (reduce _ _ _) as [s| |] eqn:E; simpl; [by eapply rule_event|apply rule_refl..].
Qed.

Lemma after_reconcile_rule {A} l st (k : host -> store -> MachineState -> locked A) :
  (forall h r s, l = Ok h -> reconcile h id st = Ok (Some r, s) -> same_row r s -> P (Some r) (k h (Some r) s).1) ->
  P st (after_reconcile l id st k).1.
Proof using R.
  intros Hk. unfold after_reconcile. destruct l as [h|e|]; simpl; [|apply rule_refl..].
  destruct (reconcile_eq h id st) as (s & st' & H & _ & _). rewrite H.
  destruct (reconcile_row _ _ _ _ _ H) as (r & -> & Hr). eapply rule_trans; [by eapply reconcile_rule|by apply Hk].
Qed.

Lemma and_then_rule {A B} (r : locked A) (k : store -> locked B) st :
  P st r.1 -> (forall st', P st' (k st').1) -> P st (and_then r k).1.
Proof using R. destruct r as [st' [a| |]]; simpl; intros H Hk; [eapply rule_trans; [done|apply Hk]|done..]. Qed.

Lemma request_rule h g forced r s pid : same_row r s -> g = generation_of h s pid ->
  P (Some r) (request_and_wait h id g forced (Some r)).1.
Proof using R.
  intros Hr ->. apply and_then_rule; [|intros st'; apply rule_refl]. apply transition_rule. simpl. by symmetry; apply Hr.
Qed.

Lemma start_rule l run launched st : P st (start_with l id run launched st).1.
Proof using R.
  apply after_reconcile_rule. intros h r s _ _ _. case_match; [apply rule_refl|].
  destruct launched; [apply rule_refl|..];
    (apply and_then_rule; [by apply transition_rule|intros st']; try (apply and_then_rule; [|intros; apply rule_refl]));
    by apply transition_rule.
Qed.

Lemma stop_rule l sig st : P st (stop_section l id sig st).1.
Proof using R.
  apply after_reconcile_rule. intros h r s _ _ Hr.
  destruct (status s) eqn:Es; try (case_match; apply rule_refl);
    (destruct (vmmon_pid s) as [pid|]; [|apply rule_stopped]);
    (case_match; [by eapply request_rule|]);
    (destruct sig; [by eapply request_rule|apply rule_stopped|apply rule_refl]).
Qed.

Lemma kill_rule l sig st : P st (kill_section l id sig st).1.
Proof using R.
  apply after_reconcile_rule. intros h r s _ _ Hr.
  destruct (status s); try apply rule_refl; (destruct (vmmon_pid s) as [pid|]; [|apply rule_stopped]);
    (destruct sig; [by eapply request_rule|apply rule_stopped|apply rule_refl]).
Qed.

Lemma complete_rule l g err st : P st (complete_stop_locked l id g err st).1.
Proof using R.
  unfold complete_stop_locked. destruct l as [h|e|]; [|apply rule_refl..]. cbv zeta.
  case_match; [apply rule_refl|]. case_match; [apply rule_refl|].
  destruct (reduce _ _ _) as [s|[]|] eqn:E; try apply rule_refl. by eapply rule_event; [|exact E].
Qed.

Lemma run_op_rule o st : P st (run_op id o st).
Proof using R.
  destruct o; simpl.
  - apply after_reconcile_rule. intros. apply rule_refl.
  - apply start_rule.
  - apply after_reconcile_rule. intros h r s _ _ _. case_match; [apply rule_refl|by apply transition_rule].
  - apply stop_rule.
  - apply kill_rule.
  - apply after_reconcile_rule. intros. case_match; apply rule_refl.
  - unfold wait_section. case_match; [apply complete_rule|]. apply after_reconcile_rule. intros. apply rule_refl.
  - apply after_reconcile_rule. intros. case_match; [apply rule_refl|]. case_match; [apply rule_stopped|apply rule_refl].
  - apply after_reconcile_rule. intros h r s _ _ Hr. destruct (is_active (status s)) eqn:Ha; [apply rule_refl|].
    destruct removed; simpl; [|apply rule_refl..]. apply rule_remove. simpl. by destruct Hr as [-> _].
Qed.

Lemma steps_rule st st' : rtc (step id) st st' -> P st st'.
Proof using R.
  induction 1 as [st|a b c [o st] _ IH]; [apply rule_refl|]. eapply rule_trans; [apply run_op_rule|done].
Qed.
End induction.

(** ** The invariant *)

Definition keeps_ok (st st' : store) : Prop := store_ok st -> store_ok st'.

#[export] Instance store_ok_rule id : row_rule id keeps_ok.
Proof.
  split; unfold keeps_ok; try done.
  - auto.
  - intros h st s Ho Hst s' [= <-]. by eapply observe_ok.
  - intros now e st s He Hr Hst s' [= <-]. eapply reduce_ok; [by apply (machine_state_ok id now)|exact Hr|done].
  - intros now err st _ s [= <-]. done.
Qed.

(** C14 lifecycle_invariant: whatever clients do, in whatever order and with
    whatever they find on the host, the row of a machine stays consistent: at rest
    it names no process, no start time and no run; while it starts it names a run;
    while it runs a process and its start time; while it stops a process. *)
Theorem lifecycle_invariant id st : rtc (step id) None st -> store_ok st.
Proof. intros H. by apply (steps_rule id keeps_ok None st H). Qed.

(** ** Starting *)

Lemma transition_eq id now e st : transition_current_machine_state id now e st =
  match reduce (machine_state id now st) e now with
  | Ok next => (Some next, Ok tt) | Err err => (st, Err (Transition err)) | Panic => (st, Panic)
  end.
Proof. done. Qed.

(** A start request on a row that is at rest is accepted. *)
Lemma request_accepted id now run r : is_active r.(status) = false ->
  request_machine_start id now run (Some r) = (Some (replace_runtime r Starting None None (Some run) None now), Ok tt).
Proof. intros H. unfold request_machine_start. rewrite transition_eq. simpl. unfold start_requested. by rewrite H. Qed.

(** The monitor and the failures of a start are accepted for the run requested. *)
Lemma ready_accepted id now run r pid started : r.(status) = Starting -> r.(run_id) = Some run ->
  mark_machine_monitor_ready id now run pid started (Some r) =
    (Some (replace_runtime r Running (Some pid) (Some started) (Some run) None now), Ok tt).
Proof.
  intros Hs Hr. unfold mark_machine_monitor_ready. rewrite transition_eq. simpl. unfold_reduce.
  by rewrite Hs, Hr, !bool_decide_eq_true_2 by done.
Qed.

Lemma failed_accepted id now run r failure error : r.(status) = Starting -> r.(run_id) = Some run ->
  mark_machine_start_failed id now run failure error (Some r) =
    (Some (replace_runtime r (match failure with FStopped => Stopped | FError => Error end) None None None error now), Ok tt).
Proof.
  intros Hs Hr. unfold mark_machine_start_failed. rewrite transition_eq. simpl. unfold_reduce.
  by rewrite Hs, Hr, !bool_decide_eq_true_2 by done.
Qed.

(** [start_with] on a host that can be read. *)
Lemma start_with_eq h id run launched st : exists r s, reconcile h id st = Ok (Some r, s) /\ same_row r s /\
  start_with (Ok h) id run launched st =
    if is_active s.(status) then (Some r, Err MachineAlreadyRunning)
    else let row st pid started run err := Some (mk_mstate r.(machine_id) st pid started run err h.(now_unix)) in
    match launched with
    | PrepareFailed e => (Some r, Err e)
    | SpawnFailed e msg => (row Stopped None None None (Some msg), Err e)
    | PidUnreadable msg => (row Error None None None (Some msg), Err (Io msg))
    | MonitorMissing msg => (row Error None None None (Some msg), Err MonitorConnection)
    | Launched pid started => (row Running (Some pid) (Some started) (Some run) None, Ok tt)
    end.
Proof.
  destruct (reconcile_eq h id st) as (s & st' & H & _ & _). destruct (reconcile_row _ _ _ _ _ H) as (r & -> & Hr).
  exists r, s. split; [done|]. split; [done|]. unfold start_with, after_reconcile. rewrite H.
  destruct (is_active (status s)) eqn:Ha; [done|]. assert (is_active r.(status) = false) by (by destruct Hr as [-> _]).
  cbv zeta. destruct launched; [done|..]; rewrite request_accepted by done; cbn [and_then];
    [unfold mark_machine_start_stopped|unfold mark_machine_start_error..|]; try (by rewrite failed_accepted).
  by rewrite ready_accepted.
Qed.

(** ** Refinement of the life cycle *)

(** What a user is told of the life of a machine; of a launch also whether its
    monitor has been seen. *)
Inductive phase : Type :=
| Idle
| Launching (run : option string) (known : bool)
| Up (run : option string)
| Closing (run : option string).

Definition busy (p : phase) : bool := match p with Idle => false | _ => true end.
Definition monitored (p : phase) : bool := match p with Idle => false | Launching _ known => known | _ => true end.
Definition closing (p : phase) : bool := match p with Closing _ => true | _ => false end.
Definition phase_run (p : phase) : option string :=
  match p with Idle => None | Launching run _ | Up run | Closing run => run end.

(** What a client sees of the monitor: it is alive, it left a record of its end, or
    there is no trace of it, for at least as long as a start may take or not. *)
Inductive sight : Type := MonitorAlive | EndRecorded | NoTrace (overdue : bool).

(** What a look at the host makes of a phase.  A monitor behind an idle machine is
    adopted, and one that has gone ends the run; a launch is given its time. *)
Definition noticed (v : sight) (p : phase) : phase :=
  match v, p with
  | MonitorAlive, Idle => Up None
  | MonitorAlive, Launching run _ => Launching run true
  | MonitorAlive, Up run => Up run
  | MonitorAlive, Closing run => Closing run
  | NoTrace false, Launching run _ => Launching run false
  | _, _ => Idle
  end.

(** What clients ask for.  [AskEnd gone] completes a stop, and [gone] says that the
    monitor that was waited for is the one of the machine and has gone. *)
Inductive request : Type :=
| AskLook | AskStart (run : string) (launched : launch) | AskStartDies (run : string)
| AskStop (sig : signal) | AskKill (sig : signal) | AskTarget | AskEnd (gone : bool)
| AskRemove (removed freed : outcome LibVmError unit).

(** The answer: an error, or the run that is left to wait for. *)
Abbreviation reply := (outcome LibVmError (option (option string))) (only parsing).
Definition done_ : reply := Ok None.
Definition from_unit (o : outcome LibVmError unit) : reply :=
  match o with Ok _ => done_ | Err e => Err e | Panic => Panic end.

(** A signal to the monitor of a machine that is not idle. *)
Definition signalled (sig : signal) (q : phase) : phase * reply :=
  if negb (monitored q) then (Idle, done_)
  else match sig with
       | Delivered => (Closing (phase_run q), Ok (Some (phase_run q)))
       | NoSuchProcess => (Idle, done_)
       | SignalFailed message => (q, Err (Io message))
       end.

(** The abstract machine. *)
Definition serve (r : request) (v : sight) (p : phase) : phase * reply :=
  let q := noticed v p in
  match r with
  | AskLook => (q, done_)
  | AskStart run launched =>
      if busy q then (q, Err MachineAlreadyRunning)
      else match launched with
           | Launched _ _ => (Up (Some run), done_)
           | PrepareFailed e | SpawnFailed e _ => (Idle, Err e)
           | PidUnreadable message => (Idle, Err (Io message))
           | MonitorMissing _ => (Idle, Err MonitorConnection)
           end
  | AskStartDies run => if busy q then (q, Err MachineAlreadyRunning) else (Launching (Some run) false, done_)
  | AskStop sig =>
      if negb (busy q) then (Idle, if closing p then done_ else Err MachineNotRunning)
      else signalled (if closing q then Delivered else sig) q
  | AskKill sig => if negb (busy q) then (Idle, Err MachineNotRunning) else signalled sig q
  | AskTarget => (q, Ok (let p := if busy q then q else p in if monitored p then Some (phase_run p) else None))
  | AskEnd gone =>
      if negb gone then (p, done_)
      else match p with
           | Closing _ => (Idle, done_)
           | Launching _ _ => (p, Err (Transition (InvalidTransition Starting "StopCompleted")))
           | Up _ => (p, Err (Transition (InvalidTransition Running "StopCompleted")))
           | Idle => (p, done_)
           end
  | AskRemove removed freed =>
      if busy q then (q, Err MachineAlreadyRunning)
      else (Idle, match removed with Ok _ => from_unit freed | o => from_unit o end)
  end.

(** A client that cannot read the host does nothing. *)
Definition abstract_step (r : request) (v : outcome LibVmError sight) (p : phase) : phase * reply :=
  match v with Ok v => serve r v p | Err e => (p, Err e) | Panic => (p, Panic) end.

(** What the host shows of the machine of a row: a process of the pid file or of the
    row that started when the row says, or an exit status of the row's run. *)
Definition shows (h : host) (st : store) : sight :=
  let alive pid := match h.(for_pid) pid with Some i => matches_started_at i (st ≫= started_at) | None => false end in
  let overdue := match st with Some s => s.(updated_at) + STALE_STARTING_TIMEOUT <=? h.(now_unix) | None => false end in
  if existsb alive (option_list h.(pid_file) ++ option_list (st ≫= vmmon_pid)) then MonitorAlive
  else match h.(exit_status) with
       | Some x => if runtime_exit_matches x st then EndRecorded else NoTrace overdue
       | None => NoTrace overdue
       end.
Definition sight_of (l : look) (st : store) : outcome LibVmError sight :=
  match l with Ok h => Ok (shows h st) | Err e => Err e | Panic => Panic end.

(** The row is about the generation [g], whose process is not there. *)
Definition has_gone (h : host) (g : VmmonRunIdentity) (st : store) : bool :=
  match st with
  | Some s => vmmon_run_identity_matches s g && negb (vmmon_run_is_alive h g)
  | None => false
  end.

(** An operation as the abstract machine sees it. *)
Definition request_of (o : op) (st : store) : request * outcome LibVmError sight :=
  match o with
  | OpReconcile l | OpCleanup l => (AskLook, sight_of l st)
  | OpStart l run launched => (AskStart run launched, sight_of l st)
  | OpStartDies l run => (AskStartDies run, sight_of l st)
  | OpStop l sig => (AskStop sig, sight_of l st)
  | OpKill l sig => (AskKill sig, sight_of l st)
  | OpWaitTarget l => (AskTarget, sight_of l st)
  | OpWait l w =>
      (if w.(w_stop_requested) then AskEnd (match l with Ok h => has_gone h w.(w_generation) st | _ => false end) else AskLook, sight_of l st)
  | OpRemove l removed freed => (AskRemove removed freed, sight_of l st)
  end.

(** What an operation answers. *)
Definition target_reply (o : outcome LibVmError (option WaitTarget)) : reply :=
  match o with Ok w => Ok ((fun w => w.(w_generation).(g_run_id)) <$> w) | Err e => Err e | Panic => Panic end.
Definition op_reply (id : Z) (o : op) (st : store) : reply :=
  match o with
  | OpReconcile l => from_unit (after_reconcile l id st (fun _ st _ => (st, Ok tt))).2
  | OpStart l run launched => from_unit (start_with l id run launched st).2
  | OpStartDies l run => from_unit (start_dies l id run st).2
  | OpStop l sig => target_reply (stop_section l id sig st).2
  | OpKill l sig => target_reply (kill_section l id sig st).2
  | OpWaitTarget l => target_reply (active_wait_target l id st).2
  | OpWait l w => from_unit (wait_section l id w st).2
  | OpCleanup l => from_unit (cleanup l id st).2
  | OpRemove l removed freed => from_unit (remove l id removed freed st).2
  end.

(** Histories: operations on the row, and what the abstract machine makes of them. *)
Fixpoint history (id : Z) (ops : list op) (st : store) : store * list reply :=
  match ops with
  | [] => (st, [])
  | o :: ops => let r := history id ops (run_op id o st) in (r.1, op_reply id o st :: r.2)
  end.
Fixpoint requests (id : Z) (ops : list op) (st : store) : list (request * outcome LibVmError sight) :=
  match ops with [] => [] | o :: ops => request_of o st :: requests id ops (run_op id o st) end.
Fixpoint abstract_history (rs : list (request * outcome LibVmError sight)) (p : phase) : phase * list reply :=
  match rs with
  | [] => (p, [])
  | (r, v) :: rs => let s := abstract_step r v p in let t := abstract_history rs s.1 in (t.1, s.2 :: t.2)
  end.

Definition phase_of (s : MachineState) : phase :=
  match s.(status) with
  | Stopped | Error => Idle
  | Starting => Launching s.(run_id) (bool_decide (is_Some s.(vmmon_pid)))
  | Running => Up s.(run_id)
  | Stopping => Closing s.(run_id)
  end.
Definition abstract (st : store) : phase := match st with Some s => phase_of s | None => Idle end.

(** *** The simulation *)

Lemma live_loop_exists h expected last pids :
  let alive pid := match h.(for_pid) pid with Some i => matches_started_at i expected | None => false end in
  (forall pid, last = Some pid -> alive pid = false) ->
  existsb alive pids = bool_decide (is_Some (live_identity_loop h last expected pids)).
Proof.
  intros alive. revert last. induction pids as [|pid pids IH]; intros last Hl; [done|]. simpl.
  destruct (bool_decide_reflect (last = Some pid)) as [E|E]; [rewrite (Hl pid E); by apply IH|]. unfold alive at 1.
  destruct (for_pid h pid) as [i|] eqn:Ei; [destruct (matches_started_at i expected) eqn:Em; [done|]|];
    (apply IH; intros p [= <-]; unfold alive; by rewrite Ei).
Qed.

Lemma shows_eq h st : shows h st =
  match live h st, matching h st with
  | Some _, _ => MonitorAlive
  | None, Some _ => EndRecorded
  | None, None => NoTrace match st with Some r => state_is_older_than h r STALE_STARTING_TIMEOUT | None => false end
  end.
Proof.
  unfold shows, live, live_monitor_identity, matching. rewrite live_loop_exists with (last := None) by done.
  destruct (live_identity_loop _ _ _ _); simpl; [done|]. assert (forall r, (updated_at r + STALE_STARTING_TIMEOUT <=? now_unix h) = state_is_older_than h r STALE_STARTING_TIMEOUT) as Ho.
  { intros r. apply eq_true_iff_eq. rewrite older_than_iff by (unfold STALE_STARTING_TIMEOUT; lia). apply Z.leb_le. }
  destruct (exit_status h) as [x|]; simpl; [destruct (runtime_exit_matches x st); [done|]|]; (destruct st as [r|]; [by rewrite Ho|done]).
Qed.

Lemma same_row_phase r s : same_row r s -> phase_of r = phase_of s.
Proof. intros (E1 & E2 & _ & E3 & _). unfold phase_of. by rewrite E1, E2, E3. Qed.

(** One look. *)
Lemma observe_noticed h id st s : store_ok st -> observe_machine_state h id st = Ok s -> phase_of s = noticed (shows h st) (abstract st).
Proof.
  intros Hst. rewrite shows_eq. pose proof (machine_state_ok id (now_unix h) st Hst) as Hok. destruct (live h st) as [i|] eqn:Hl.
  - rewrite (observe_monitor _ _ _ _ Hl). intros [= <-]. destruct st as [r|]; [|done]. unfold abstract, phase_of, state_ok in *. simpl in *.
    destruct (status r); simpl; try done; by destruct Hok as (_ & _ & ->).
  - rewrite (observe_no_monitor _ _ _ Hl). cbv zeta. destruct (matching h st) as [x|].
    + unfold exit_observed_event. simpl. unfold exit_observed. destruct (x_outcome x); simpl; intros [= <-]; simpl; by destruct (abstract st).
    + destruct st as [r|]; simpl; [|by intros [= <-]]. unfold phase_of. destruct (status r) eqn:Es; simpl; unfold monitor_gone, start_timed_out, require_state;
        rewrite ?Es; simpl; destruct (state_is_older_than h r _); simpl; by intros [= <-].
Qed.
Lemma looked h id st : store_ok st -> exists r s, reconcile h id st = Ok (Some r, s) /\ same_row r s /\ state_ok s /\
  phase_of s = noticed (shows h st) (abstract st) /\ phase_of r = phase_of s.
Proof.
  intros Hst. destruct (reconcile_eq h id st) as (s & st' & H & Ho & _). destruct (reconcile_row _ _ _ _ _ H) as (r & -> & Hr).
  destruct (reconcile_ok _ _ _ _ _ Hst H) as [_ Hs]. exists r, s. split; [done|]. split; [done|]. split; [done|].
  split; [by apply observe_noticed with (id := id)|by apply same_row_phase].
Qed.

(** The abstraction reads off a row what the operations look at. *)
Lemma phase_facts s : state_ok s -> busy (phase_of s) = is_active s.(status) /\ closing (phase_of s) = bool_decide (s.(status) = Stopping) /\
  monitored (phase_of s) = bool_decide (is_Some s.(vmmon_pid)) /\ phase_run (phase_of s) = s.(run_id).
Proof.
  unfold state_ok, phase_of. destruct (status s); simpl; intros Hs; destruct_and?;
    repeat match goal with H : ?x = None |- _ => rewrite H | H : is_Some ?x |- _ => rewrite (bool_decide_eq_true_2 (is_Some x)) by done end; done.
Qed.
Lemma idle_phase r : is_active r.(status) = false -> phase_of r = Idle.
Proof. unfold phase_of. by destruct (status r). Qed.

Lemma request_sim h id r s pid forced : same_row r s -> is_active s.(status) = true -> 
  exists r', request_and_wait h id (generation_of h s pid) forced (Some r) =
    (Some r', Ok (Some (mk_target (generation_of h s pid) true forced))) /\ phase_of r' = Closing s.(run_id).
Proof.
  intros (Es & _) Ha. unfold request_and_wait, request_machine_stop, transition_current_machine_state. simpl. unfold stop_requested. rewrite Es.
  destruct (status s); try done; eexists; (split; [reflexivity|done]).
Qed.

Lemma start_sim h id run launched st : store_ok st ->
  (abstract (start_with (Ok h) id run launched st).1, from_unit (start_with (Ok h) id run launched st).2) = serve (AskStart run launched) (shows h st) (abstract st).
Proof.
  intros Hst. destruct (looked h id st Hst) as (r & s & H & Hr & Hs & Hq & Hrs). destruct (start_with_eq h id run launched st) as (r0 & s0 & H0 & _ & ->).
  rewrite H in H0. simplify_eq. unfold serve. rewrite <- Hq. destruct (phase_facts s0 Hs) as (-> & _). destruct (is_active (status s0)) eqn:Ha.
  - simpl. by rewrite Hrs.
  - cbv zeta. destruct launched; simpl; try done. by rewrite Hrs, idle_phase.
Qed.
Lemma signal_sim h id r s sig forced : same_row r s -> state_ok s -> is_active s.(status) = true ->
  let res := match s.(vmmon_pid) with
    | None => (mark_machine_stopped id h.(now_unix) None, Ok None)
    | Some pid => match sig with
                  | Delivered => request_and_wait h id (generation_of h s pid) forced (Some r)
                  | NoSuchProcess => (mark_machine_stopped id h.(now_unix) None, Ok None)
                  | SignalFailed msg => (Some r, Err (Io msg))
                  end
    end in
  (abstract res.1, target_reply res.2) = signalled sig (phase_of s).
Proof.
  intros Hr Hs Ha. destruct (phase_facts s Hs) as (_ & _ & Hm & Hrun). unfold signalled. rewrite Hm, Hrun. cbv zeta.
  destruct (vmmon_pid s) as [pid|] eqn:Ep; simpl; [|done]. destruct sig; simpl; [|done|by rewrite (same_row_phase r s)].
  destruct (request_sim h id r s pid forced Hr Ha) as (r' & -> & E). simpl. by rewrite E.
Qed.

Lemma closing_abstract st : closing (abstract st) = bool_decide (default Stopped (status <$> st) = Stopping).
Proof. destruct st as [s|]; [|done]. simpl. unfold phase_of. by destruct (status s). Qed.

Lemma stop_sim h id sig st : store_ok st ->
  (abstract (stop_section (Ok h) id sig st).1, target_reply (stop_section (Ok h) id sig st).2) = serve (AskStop sig) (shows h st) (abstract st).
Proof.
  intros Hst. destruct (looked h id st Hst) as (r & s & H & Hr & Hs & Hq & Hrs). unfold stop_section, after_reconcile. rewrite H. unfold serve. rewrite <- Hq.
  destruct (phase_facts s Hs) as (-> & -> & _). rewrite closing_abstract. pose proof (signal_sim h id r s sig false Hr Hs) as Hsig. 
  pose proof (signal_sim h id r s Delivered false Hr Hs) as Hdel. destruct (status s) eqn:Es; simpl in *.
  1,5: by (case_bool_decide; simpl; rewrite Hrs, idle_phase by (by rewrite Es)).
  1,2: rewrite <- Hsig by done; by destruct (vmmon_pid s).
  rewrite <- Hdel by done. by destruct (vmmon_pid s).
Qed.
Lemma kill_sim h id sig st : store_ok st ->
  (abstract (kill_section (Ok h) id sig st).1, target_reply (kill_section (Ok h) id sig st).2) = serve (AskKill sig) (shows h st) (abstract st).
Proof.
  intros Hst. destruct (looked h id st Hst) as (r & s & H & Hr & Hs & Hq & Hrs). unfold kill_section, after_reconcile. rewrite H. unfold serve. rewrite <- Hq.
  destruct (phase_facts s Hs) as (-> & _). pose proof (signal_sim h id r s sig true Hr Hs) as Hsig. destruct (status s) eqn:Es; simpl in *.
  1,5: simpl; by rewrite Hrs, idle_phase by (by rewrite Es).
  all: rewrite <- Hsig by done; by destruct (vmmon_pid s).
Qed.

Lemma target_sim h id st : store_ok st ->
  (abstract (active_wait_target (Ok h) id st).1, target_reply (active_wait_target (Ok h) id st).2) = serve AskTarget (shows h st) (abstract st).
Proof.
  intros Hst. destruct (looked h id st Hst) as (r & s & H & Hr & Hs & Hq & Hrs). unfold active_wait_target, after_reconcile. rewrite H. unfold serve. rewrite <- Hq.
  destruct (phase_facts s Hs) as (-> & _ & Hm & Hrun). destruct (is_active (status s)) eqn:Ha; simpl; rewrite Hrs.
  - rewrite Hm, Hrun. by destruct (vmmon_pid s).
  - destruct st as [p|]; [|done]. simpl. destruct (phase_facts p (Hst p eq_refl)) as (Hb & _ & Hmp & Hrp). rewrite Hmp, Hrp.
    pose proof (Hst p eq_refl) as Hp. unfold state_ok in Hp. destruct (is_active (status p)) eqn:Hap; [by destruct (vmmon_pid p)|].
    assert (vmmon_pid p = None) as -> by (destruct (status p); try done; by destruct Hp). done.
Qed.

Lemma wait_sim h id g st : store_ok st ->
  (abstract (complete_stop_locked (Ok h) id g None st).1, from_unit (complete_stop_locked (Ok h) id g None st).2) =
  serve (AskEnd (has_gone h g st)) (shows h st) (abstract st).
Proof.
  intros Hst. unfold complete_stop_locked, serve, has_gone. destruct st as [s|]; simpl.
  2: { unfold vmmon_run_identity_matches. simpl. by rewrite andb_false_r. }
  destruct (vmmon_run_identity_matches s g) eqn:Hm; simpl; [|done]. destruct (vmmon_run_is_alive h g); simpl; [done|].
  unfold vmmon_run_identity_matches in Hm. rewrite !andb_true_iff, bool_decide_eq_true in Hm. destruct Hm as [[Hr Hp] Ht].
  pose proof (Hst s eq_refl) as Hs. unfold state_ok in Hs. unfold stop_completed, require_state, phase_of. destruct (status s) eqn:Es; simpl.
  1,5: destruct Hs as (Hn & _); by rewrite Hn in Hp.
  1,2: unfold phase_of; by rewrite Es.
  unfold require_generation, require_run_id. assert (match g_run_id g with Some run => if bool_decide (run_id s = Some run) then Ok tt else Err StaleGeneration | None => Ok tt end = Ok tt) as ->
    by (destruct (g_run_id g); [by rewrite Hr|done]). simpl. rewrite (bool_decide_eq_true_2 (vmmon_pid s = _)) by done. simpl.
  assert (bool_decide (is_Some (g_started_at g)) && negb (bool_decide (started_at s = g_started_at g)) = false) as ->; [|done].
  destruct (g_started_at g); [by rewrite Ht|done].
Qed.

(** Every operation is a step of the abstract machine, and answers as it does. *)
Lemma op_refines id o st : store_ok st ->
  (abstract (run_op id o st), op_reply id o st) = abstract_step (request_of o st).1 (request_of o st).2 (abstract st).
Proof.
  intros Hst. destruct o as [l|l run launched|l run|l sig|l sig|l|l w|l|l removed freed]; simpl;
    (destruct l as [h|e|]; simpl; [|first [done|by destruct w as [g [] f]]..]).
  - destruct (looked h id st Hst) as (r & s & H & _ & _ & Hq & Hrs). rewrite H. simpl. by rewrite Hrs, Hq.
  - by apply start_sim.
  - destruct (looked h id st Hst) as (r & s & H & Hr & Hs & Hq & Hrs). unfold start_dies, after_reconcile. rewrite H. simpl. unfold serve. rewrite <- Hq.
    destruct (phase_facts s Hs) as (-> & _). destruct (is_active (status s)) eqn:Ha; simpl; [by rewrite Hrs|].
    rewrite request_accepted; [done|]. by destruct Hr as [-> _].
  - by apply stop_sim.
  - by apply kill_sim.
  - by apply target_sim.
  - destruct w as [g [] f]; simpl; [by apply wait_sim|].
    unfold wait_section. simpl. destruct (looked h id st Hst) as (r & s & H & _ & _ & Hq & Hrs). rewrite H. simpl. by rewrite Hrs, Hq.
  - unfold cleanup, after_reconcile. destruct (looked h id st Hst) as (r & s & H & _ & Hs & Hq & Hrs). rewrite H. destruct (status s) eqn:Es; simpl; by rewrite Hrs, Hq.
  - unfold remove, after_reconcile. destruct (looked h id st Hst) as (r & s & H & Hr & Hs & Hq & Hrs). rewrite H. unfold serve. rewrite <- Hq.
    destruct (phase_facts s Hs) as (-> & _). destruct (is_active (status s)) eqn:Ha; simpl; [by rewrite Hrs|].
    destruct removed; simpl; [by destruct freed| |]; by rewrite Hrs, idle_phase.
Qed.


(** ** What a start does *)

(** A start succeeds only when the host shows no live monitor
    of the machine, and it leaves the machine running under exactly the process
    and run that were launched. *)
Theorem start_exclusive l id run launched st st' : start_with l id run launched st = (st', Ok tt) ->
  exists h pid started s, l = Ok h /\ launched = Launched pid started /\ live h st = None /\ st' = Some s /\
    s.(status) = Running /\ s.(vmmon_pid) = Some pid /\ s.(started_at) = Some started /\ s.(run_id) = Some run /\
    s.(last_error) = None.
Proof.
  destruct l as [h| |]; [|done..]. destruct (start_with_eq h id run launched st) as (r & s & H & Hr & ->).
  destruct (is_active (status s)) eqn:Ha; [done|]. destruct launched; try done. cbv zeta. intros [= <-].
  exists h, pid, started. eexists. repeat (split; [done|]). split; [|done].
  destruct (live h st) as [i|] eqn:Hl; [|done]. destruct (reconcile_eq h id st) as (s0 & st0 & H0 & Ho & _).
  rewrite H in H0. simplify_eq. destruct (observe_live _ _ _ _ _ Hl Ho) as [Hact _]. by rewrite Hact in Ha.
Qed.

(** A start that fails for any reason other than the machine
    being active leaves a row that is at rest and names no process, so that the
    next start is not refused because of it. *)
Theorem start_failure h id run launched st st' e : start_with (Ok h) id run launched st = (st', Err e) ->
  e <> MachineAlreadyRunning -> store_ok st ->
  exists s, st' = Some s /\ is_active s.(status) = false /\ s.(vmmon_pid) = None /\ s.(run_id) = None /\
    forall run' now, (request_machine_start id now run' st').2 = Ok tt.
Proof.
  destruct (start_with_eq h id run launched st) as (r & s & H & Hr & ->). intros Hs Hne Hst.
  assert (Hrow : exists r', st' = Some r' /\ is_active r'.(status) = false /\ r'.(vmmon_pid) = None /\ r'.(run_id) = None).
  { destruct (is_active (status s)) eqn:Ha; [by simplify_eq|]. cbv zeta in Hs.
    destruct launched; simplify_eq; eexists; (split; [done|]); [|done..].
    destruct (reconcile_ok _ _ _ _ _ Hst H) as [Hok _]. specialize (Hok _ eq_refl). unfold state_ok in Hok.
    destruct Hr as [Hrs _]. rewrite <- Hrs in Ha. by destruct (status r); try done; destruct Hok as (? & ? & ?). }
  destruct Hrow as (r' & -> & Ha & Hp & Hrun). exists r'. repeat (split; [done|]). intros run' now. by rewrite request_accepted.
Qed.

(** ** Stopping *)

(** C15 stop_completion: completing a stop touches the row only when the row is
    still stopping the very generation that was waited for and that process is
    gone; a row that has moved on to another run is left alone. *)
Theorem stop_completion h id g err st :
  (complete_stop_locked (Ok h) id g err st).1 = st \/
  exists s, st = Some s /\ s.(status) = Stopping /\ s.(vmmon_pid) = Some g.(g_pid) /\
    (g.(g_run_id) = None \/ s.(run_id) = g.(g_run_id)) /\ (g.(g_started_at) = None \/ s.(started_at) = g.(g_started_at)) /\
    vmmon_run_is_alive h g = false /\
    (complete_stop_locked (Ok h) id g err st).1 = Some (replace_runtime s Stopped None None None err h.(now_unix)).
Proof.
  unfold complete_stop_locked. destruct (vmmon_run_identity_matches _ g) eqn:Hm; [|by left]. simpl.
  destruct (vmmon_run_is_alive h g) eqn:Hal; [by left|]. unfold_reduce.
  destruct st as [s|]; simpl in *; [|by left]. case_bool_decide as Hs; [|by left]. simpl.
  unfold vmmon_run_identity_matches in Hm. rewrite !andb_true_iff, bool_decide_eq_true in Hm. destruct Hm as [[Hr Hp] Ht].
  destruct (g_run_id g) as [run|]; [case_bool_decide|]; simpl; try by left.
  all: rewrite bool_decide_eq_true_2 by done; simpl; destruct (bool_decide (is_Some _) && _); [by left|right; exists s].
  all: destruct (g_started_at g) as [t|]; [apply bool_decide_eq_true in Ht|]; naive_solver.
Qed.

(** C16 stop_then_wait: once a stop has been requested and the monitor it was
    requested from has exited, the wait that follows leaves the machine stopped. *)
Theorem stop_then_wait h h' id sig st st' w : stop_section (Ok h) id sig st = (st', Ok (Some w)) ->
  vmmon_run_is_alive h' w.(w_generation) = false ->
  exists s, wait_section (Ok h') id w st' = (Some s, Ok tt) /\ s.(status) = Stopped /\ s.(vmmon_pid) = None.
Proof.
  destruct (reconcile_eq h id st) as (s & st0 & H & _ & _). destruct (reconcile_row _ _ _ _ _ H) as (r & -> & Hr).
  unfold stop_section, after_reconcile. rewrite H. intros Hs Hdead.
  assert (exists g, w = mk_target g true false /\ st' = Some (replace_runtime r Stopping (Some g.(g_pid)) g.(g_started_at) g.(g_run_id) None h.(now_unix))) as (g & -> & ->).
  { unfold request_and_wait, request_machine_stop, and_then, transition_current_machine_state in Hs. unfold_reduce.
    simpl in Hs. destruct Hr as [Hrs _]. rewrite Hrs in Hs.
    repeat (case_match; simplify_eq/=; eauto). }
  simpl in *. unfold wait_section. simpl. unfold complete_stop_locked. simpl. unfold vmmon_run_identity_matches. simpl.
  rewrite (bool_decide_eq_true_2 (Some (g_pid g) = Some (g_pid g))) by done.
  rewrite Hdead. unfold_reduce. simpl.
  destruct (g_run_id g), (g_started_at g); simpl; rewrite ?bool_decide_eq_true_2 by done; simpl; eauto.
Qed.

(** ** Instances *)

Definition sample_start : op := OpStart (Ok (empty_host 100)) "r1" (Launched 7 101).
Definition running_row : MachineState := mk_mstate 1 Running (Some 7%Z) (Some 101%Z) (Some "r1"%string) None 100.

Lemma sample_started : run_op 1 sample_start None = Some running_row.
Proof. reflexivity. Qed.

Lemma lifecycle_invariant_witness : store_ok (Some running_row).
Proof.
  apply (lifecycle_invariant 1). rewrite <- sample_started. apply rtc_once, step_op.
Defined.

(** A start, a look while the monitor runs, a stop, and the wait for it. *)
Example sample_history :
  history 1 [sample_start; OpStop (Ok (sample_host 120)) Delivered;
             OpWait (Ok (empty_host 130)) (mk_target (mk_generation 7 (Some 101%Z) (Some "r1"%string)) true false)] None =
  (Some (mk_mstate 1 Stopped None None None None 130), [done_; Ok (Some (Some "r1"%string)); done_]).
Proof. reflexivity. Qed.

Lemma start_exclusive_witness :
  exists h pid started s, Ok (empty_host 100) = Ok (E := LibVmError) h /\ Launched 7 101 = Launched pid started /\ live h None = None /\
    Some running_row = Some s /\
    s.(status) = Running /\ s.(vmmon_pid) = Some pid /\ s.(started_at) = Some started /\ s.(run_id) = Some "r1"%string /\
    s.(last_error) = None.
Proof. apply (start_exclusive (Ok (empty_host 100)) 1 "r1" (Launched 7 101) None (Some running_row)). reflexivity. Defined.

Lemma start_failure_witness :
  exists s, Some (mk_mstate 1 Error None None None (Some "no pid"%string) 100) = Some s /\ is_active s.(status) = false /\
    s.(vmmon_pid) = None /\ s.(run_id) = None /\
    forall run' now, (request_machine_start 1 now run' (Some (mk_mstate 1 Error None None None (Some "no pid"%string) 100))).2 = Ok tt.
Proof.
  apply (start_failure (empty_host 100) 1 "r1" (PidUnreadable "no pid") None
    (Some (mk_mstate 1 Error None None None (Some "no pid"%string) 100)) (Io "no pid")).
  - reflexivity.
  - discriminate.
  - intros s Hs. discriminate Hs.
Defined.

Lemma stop_then_wait_witness :
  let g := mk_generation 7 (Some 101%Z) (Some "r1"%string) in
  exists s, wait_section (Ok (empty_host 130)) 1 (mk_target g true false)
      (Some (mk_mstate 1 Stopping (Some 7%Z) (Some 101%Z) (Some "r1"%string) None 120)) = (Some s, Ok tt) /\
    s.(status) = Stopped /\ s.(vmmon_pid) = None.
Proof. apply (stop_then_wait (sample_host 120) (empty_host 130) 1 Delivered (Some running_row)); reflexivity. Defined.
