(* ===== verification/LockManager.v ===== *)
(** * Machine locks

    [runtime/libvm/src/lock_manager.rs].  A lock id is reserved by the existence of
    a file of that name in the lock directory; the file is then locked with
    [flock].  The directory is a map from ids to the files behind them, a file
    being known by its inode number, because a name that was freed and created
    again is another file; an advisory lock belongs to the file. *)

From stdpp Require Import base gmap sets list numbers relations.
From S2P Require Import Prelude.

(** [LockId] is a [u32]. *)
Abbreviation LockId := N (only parsing).
Definition MAX_ID : N := (2 ^ 32 - 1)%N.
Abbreviation inode := N (only parsing).
Abbreviation client := N (only parsing).

(** The lock directory; [next] is an inode number no file has had. *)
Record locks := mk_locks { files : gmap LockId inode; next : inode }.

Inductive IoError : Type := AlreadyExists | NoIds | Other.

(** A new file under a name that is free. *)
Definition put_file (id : LockId) (d : locks) : locks := mk_locks (<[id := d.(next)]> d.(files)) (d.(next) + 1)%N.

(** [create_lock_allocation] ([create_new]) *)
Definition create_lock_allocation (id : LockId) (d : locks) : outcome IoError locks :=
  match d.(files) !! id with
  | Some _ => Err AlreadyExists
  | None => Ok (put_file id d)
  end.

(** [open_lock_file] ([create], no [create_new]): the file that is there, or a new one. *)
Definition open_lock_file (id : LockId) (d : locks) : inode * locks :=
  match d.(files) !! id with
  | Some i => (i, d)
  | None => (d.(next), put_file id d)
  end.

(** [LockManager::free] *)
Definition free (id : LockId) (d : locks) : locks := mk_locks (delete id d.(files)) d.(next).

(** The loop of [allocate] over [raw_id..=u32::MAX]. *)
Fixpoint scan (fuel : nat) (raw_id : N) (d : locks) : outcome IoError (LockId * locks) :=
  match fuel with
  | O => Panic
  | S fuel =>
      if (MAX_ID <? raw_id)%N then Err NoIds
      else match create_lock_allocation raw_id d with
           | Ok d => Ok (raw_id, d)
           | Err AlreadyExists => scan fuel (raw_id + 1)%N d
           | Err e => Err e
           | Panic => Panic
           end
  end.

(** [LockManager::allocate]; one pass more than there are files is enough. *)
Definition allocate (d : locks) : outcome IoError (LockId * locks) := scan (S (size d.(files))) 0 d.

(** ** One allocation *)

(** The ids below [n]. *)
Definition below (n : N) : gset N := list_to_set (N.of_nat <$> seq 0 (N.to_nat n)).

Lemma elem_of_below i n : i ∈ below n <-> (i < n)%N.
Proof.
  unfold below. rewrite elem_of_list_to_set, list_elem_of_fmap. split.
  - intros (k & -> & Hk%elem_of_seq). lia.
  - intros Hi. exists (N.to_nat i). split; [lia|]. apply elem_of_seq. lia.
Qed.

Lemma size_below n : size (below n) = N.to_nat n.
Proof.
  unfold below. rewrite size_list_to_set, length_fmap, length_seq; [done|].
  apply NoDup_fmap_2; [apply _|apply NoDup_seq].
Qed.

Lemma scan_spec fuel raw d : (forall i, (i < raw)%N -> is_Some (d.(files) !! i)) ->
  (size d.(files) < fuel + N.to_nat raw)%nat ->
  match scan fuel raw d with
  | Ok (id, d') => (raw <= id <= MAX_ID)%N /\ d.(files) !! id = None /\ d' = put_file id d /\
      forall i, (i < id)%N -> is_Some (d.(files) !! i)
  | Err e => e = NoIds /\ forall i, (i <= MAX_ID)%N -> is_Some (d.(files) !! i)
  | Panic => False
  end.
Proof.
  revert raw. induction fuel as [|fuel IH]; intros raw Hb Hs; cbn [scan].
  - assert (Hsub : below raw ⊆ dom d.(files)).
    { intros i Hi%elem_of_below. by apply elem_of_dom, Hb. }
    apply subseteq_size in Hsub. rewrite size_below, size_dom in Hsub. lia.
  - destruct (MAX_ID <? raw)%N eqn:Hm.
    { apply N.ltb_lt in Hm. split; [done|]. intros i Hi. apply Hb. lia. }
    apply N.ltb_ge in Hm. unfold create_lock_allocation. destruct (files d !! raw) as [x|] eqn:Hx.
    + assert (Hb' : forall i, (i < raw + 1)%N -> is_Some (files d !! i)).
      { intros i Hi. destruct (decide (i = raw)) as [->|]; [by rewrite Hx|apply Hb; lia]. }
      specialize (IH (raw + 1)%N Hb' ltac:(lia)). destruct (scan fuel (raw + 1)%N d) as [[id d']| |]; [|done..].
      destruct IH as (? & ? & ? & ?). split; [lia|done].
    + split; [lia|]. done.
Qed.

(** Allocation ends; it reserves the lowest id that is not
    reserved and changes no other reservation, and it fails exactly when all
    [2^32] ids are taken. *)
Theorem allocate_lowest d :
  match allocate d with
  | Ok (id, d') => (id <= MAX_ID)%N /\ d.(files) !! id = None /\ (forall i, (i < id)%N -> is_Some (d.(files) !! i)) /\
      is_Some (d'.(files) !! id) /\ forall i, i <> id -> d'.(files) !! i = d.(files) !! i
  | Err e => e = NoIds /\ forall i, (i <= MAX_ID)%N -> is_Some (d.(files) !! i)
  | Panic => False
  end.
Proof.
  pose proof (scan_spec (S (size d.(files))) 0 d ltac:(intros; lia) ltac:(lia)) as H. unfold allocate.
  destruct (scan _ 0 d) as [[id d']| |]; [|done..]. destruct H as (? & Hn & -> & Hl). split; [lia|].
  split; [done|]. split; [done|]. unfold put_file. simpl. split; [by rewrite lookup_insert_eq|].
  intros i Hi. by rewrite lookup_insert_ne.
Qed.

(** ** Clients at once *)

(** A client looks for an id, or is about to lock the file it opened. *)
Inductive activity : Type :=
| Scanning (raw_id : N)
| Waiting (id : LockId) (file : inode)
| Holding (id : LockId) (file : inode).

(** [owned] lists the ids handed out and not yet freed, with the client each went
    to; [flocks] is the kernel's table of exclusive locks. *)
Record world := mk_world {
  dir : locks; doing : gmap client activity; owned : list (client * LockId); flocks : gmap inode client }.

Definition set_doing (c : client) (a : activity) (w : world) : world :=
  mk_world w.(dir) (<[c := a]> w.(doing)) w.(owned) w.(flocks).

(** The atomic steps: each is one system call of some client. *)
Inductive wstep : world -> world -> Prop :=
| w_begin c w : w.(doing) !! c = None -> wstep w (set_doing c (Scanning 0) w)
| w_taken c raw w : w.(doing) !! c = Some (Scanning raw) -> (raw <= MAX_ID)%N ->
    create_lock_allocation raw w.(dir) = Err AlreadyExists -> wstep w (set_doing c (Scanning (raw + 1)%N) w)
| w_won c raw d w : w.(doing) !! c = Some (Scanning raw) -> (raw <= MAX_ID)%N ->
    create_lock_allocation raw w.(dir) = Ok d ->
    wstep w (mk_world d (delete c w.(doing)) ((c, raw) :: w.(owned)) w.(flocks))
| w_exhausted c raw w : w.(doing) !! c = Some (Scanning raw) -> (MAX_ID < raw)%N ->
    wstep w (mk_world w.(dir) (delete c w.(doing)) w.(owned) w.(flocks))
| w_open c id w : w.(doing) !! c = None ->
    wstep w (mk_world (open_lock_file id w.(dir)).2
      (<[c := Waiting id (open_lock_file id w.(dir)).1]> w.(doing)) w.(owned) w.(flocks))
| w_lock c id i w : w.(doing) !! c = Some (Waiting id i) -> w.(flocks) !! i = None ->
    wstep w (mk_world w.(dir) (<[c := Holding id i]> w.(doing)) w.(owned) (<[i := c]> w.(flocks)))
| w_unlock c id i w : w.(doing) !! c = Some (Holding id i) ->
    wstep w (mk_world w.(dir) (delete c w.(doing)) w.(owned) (delete i w.(flocks)))
| w_free id w : wstep w (mk_world (free id w.(dir)) w.(doing) (filter (fun p => p.2 <> id) w.(owned)) w.(flocks)).

Definition init : world := mk_world (mk_locks ∅ 0) ∅ [] ∅.

(** The ids handed out are reserved and distinct, and whoever holds a guard is the
    one the kernel recorded for its file. *)
Definition world_ok (w : world) : Prop :=
  NoDup w.(owned).*2 /\ (forall id, id ∈ w.(owned).*2 -> is_Some (w.(dir).(files) !! id)) /\
  (forall c id i, w.(doing) !! c = Some (Holding id i) -> w.(flocks) !! i = Some c).

Lemma NoDup_filter_snd {A} (l : list (A * N)) (P : A * N -> Prop) `{forall x, Decision (P x)} :
  NoDup l.*2 -> NoDup (filter P l).*2.
Proof.
  induction l as [|x l IH]; [done|]. rewrite fmap_cons, NoDup_cons. intros [Hn Hd]. rewrite filter_cons.
  case_decide; [|auto]. rewrite fmap_cons. apply NoDup_cons. split; [|auto].
  intros (y & Hy & Hin)%list_elem_of_fmap. apply Hn, list_elem_of_fmap. exists y.
  split; [done|]. by apply list_elem_of_filter in Hin as [_ ?].
Qed.

Lemma put_file_keeps id d i : is_Some (d.(files) !! i) -> is_Some ((put_file id d).(files) !! i).
Proof. intros H. unfold put_file. simpl. apply lookup_insert_is_Some'. by right. Qed.

Lemma wstep_ok w w' : wstep w w' -> world_ok w -> world_ok w'.
Proof.
  intros H (Hnd & Hin & Hh). destruct H as [c w Hc|c raw w Hc Hm He|c raw d w Hc Hm He|c raw w Hc Hm|c id w Hc|c id i w Hc Hf|c id i w Hc|id w];
    unfold world_ok, set_doing; simpl in *; (split; [|split]); try done.
  - intros c' id i. rewrite lookup_insert_Some. intros [[_ ?]|[_ ?]]; [done|eauto].
  - intros c' id i. rewrite lookup_insert_Some. intros [[_ ?]|[_ ?]]; [done|eauto].
  - unfold create_lock_allocation in He. destruct (files (dir w) !! raw) eqn:Hr; [done|]. injection He as <-.
    apply NoDup_cons. split; [|done]. intros Hi. destruct (Hin _ Hi). congruence.
  - unfold create_lock_allocation in He. destruct (files (dir w) !! raw) eqn:Hr; [done|]. injection He as <-.
    intros id [->|Hi]%elem_of_cons; [|by apply put_file_keeps, Hin]. unfold put_file. simpl. by rewrite lookup_insert_eq.
  - intros c' id i. rewrite lookup_delete_Some. intros [_ ?]. eauto.
  - intros c' id i. rewrite lookup_delete_Some. intros [_ ?]. eauto.
  - intros id' Hi. unfold open_lock_file. destruct (files (dir w) !! id); simpl; [by apply Hin|by apply put_file_keeps, Hin].
  - intros c' id' i. rewrite lookup_insert_Some. intros [[_ ?]|[_ ?]]; [done|eauto].
  - intros c' id' i'. rewrite !lookup_insert_Some. intros [[<- [= <- <-]]|[Hne Hc']]; [by left|].
    right. split; [|by eapply Hh]. intros ->. pose proof (Hh _ _ _ Hc'). congruence.
  - intros c' id' i'. rewrite lookup_delete_Some. intros [Hne Hc']. apply lookup_delete_Some.
    split; [|by eapply Hh]. intros ->. pose proof (Hh _ _ _ Hc'). pose proof (Hh _ _ _ Hc). congruence.
  - by apply NoDup_filter_snd.
  - intros id' (p & -> & [Hp Hi]%list_elem_of_filter)%list_elem_of_fmap. unfold free. simpl.
    rewrite lookup_delete_ne by done. apply Hin, list_elem_of_fmap. by exists p.
Qed.

Lemma init_ok : world_ok init.
Proof.
  split; [constructor|]. split.
  - intros id Hi. by apply not_elem_of_nil in Hi.
  - intros c id i Hc. unfold init in Hc. simpl in Hc. by rewrite lookup_empty in Hc.
Qed.

Lemma reachable_ok w : rtc wstep init w -> world_ok w.
Proof.
  intros H. cut (world_ok init -> world_ok w); [intros Hc; apply Hc, init_ok|].
  induction H as [|a b c Hab _ IH]; [done|]. intros Ha. by apply IH, (wstep_ok a b).
Qed.

(** C36 allocations_distinct: however the system calls of concurrent clients
    interleave, no id is ever handed out twice without having been freed in between,
    every id handed out stays reserved, and two guards on the same lock file are
    one client's. *)
Theorem allocations_distinct w : rtc wstep init w ->
  NoDup w.(owned).*2 /\ (forall c id, (c, id) ∈ w.(owned) -> is_Some (w.(dir).(files) !! id)) /\
  forall c c' id id' i, w.(doing) !! c = Some (Holding id i) -> w.(doing) !! c' = Some (Holding id' i) -> c = c'.
Proof.
  intros (Hnd & Hin & Hh)%reachable_ok. split; [done|]. split.
  - intros c id Hc. apply Hin, list_elem_of_fmap. by exists (c, id).
  - intros c c' id id' i Hc Hc'. apply Hh in Hc, Hc'. congruence.
Qed.

(** Two clients that race for an id: the loser goes on to the next one. *)
Definition raced : world :=
  mk_world (mk_locks (<[1%N := 1%N]> (<[0%N := 0%N]> ∅)) 2) ∅ [(2%N, 1%N); (1%N, 0%N)] ∅.

Lemma raced_reachable : rtc wstep init raced.
Proof.
  eapply rtc_l; [apply (w_begin 1); reflexivity|]. eapply rtc_l; [apply (w_begin 2); reflexivity|].
  eapply rtc_l; [eapply (w_won 1 0); [reflexivity|done|reflexivity]|].
  eapply rtc_l; [eapply (w_taken 2 0); [reflexivity|done|reflexivity]|].
  eapply rtc_l; [eapply (w_won 2 1); [reflexivity|done|reflexivity]|]. apply rtc_refl.
Qed.

Lemma allocations_distinct_witness : NoDup raced.(owned).*2.
Proof. apply (allocations_distinct raced raced_reachable). Defined.

(** Freeing a lock that is held ends its protection: the next client to lock the
    same id gets a new file, and both hold a guard.  This is why an operation looks
    the machine up again once it holds the lock. *)
Lemma freed_lock_is_another : exists w, rtc wstep init w /\
  w.(doing) !! 1%N = Some (Holding 0 0) /\ w.(doing) !! 2%N = Some (Holding 0 1).
Proof.
  eexists. split; [|split].
  - eapply rtc_l; [apply (w_open 1 0); reflexivity|]. eapply rtc_l; [eapply (w_lock 1 0 0); reflexivity|].
    eapply rtc_l; [apply (w_free 0)|]. eapply rtc_l; [apply (w_open 2 0); reflexivity|].
    eapply rtc_l; [eapply (w_lock 2 0 1); reflexivity|]. apply rtc_refl.
  - reflexivity.
  - reflexivity.
Qed.
