(* ===== verification/Unpack.v ===== *)
(** * Unpacking an archive

    [common/ext4/src/unpack.rs]: a tar archive is applied to a formatter entry by
    entry, whiteouts delete, hard links are collected and made at the end.  The
    archive is the sequence of entries the [tar] crate yields, each field with the
    error it can give.  The hard links are a [HashMap] from paths to paths, and
    paths compare by their components, so the map is keyed by components and keeps
    the spelling of the key that was inserted first; the order in which the map is
    iterated is an argument. *)

From stdpp Require Import base list option numbers strings gmap relations.
From S2P Require Import Prelude Bytes Utf8 Str Errors Constants Extent FileTree Paths DiskTypes Geometry Formatter UnlinkSpec.

(** ** Helpers *)

(** [fn preprocess_path] *)
Definition preprocess_path (p : buffer) : buffer :=
  let s := from_utf8_lossy p in
  let s := default s (strip_prefix (bstr "./") s) in
  match s with
  | c :: _ => if c =? slash then s else slash :: s
  | [] => [slash]
  end.

(** [fn parent_str] *)
Definition parent_str (path : buffer) : buffer :=
  if bool_decide (path = root_path) then root_path
  else match rcut (trim_end_slashes path) with
       | Some ([], _) => root_path
       | Some (pre, _) => pre
       | None => root_path
       end.

(** [Path::file_name]: the last component, when it is a normal one. *)
Definition file_name (path : buffer) : option buffer :=
  c ← list.last (components path);
  if bool_decide (c = root_path) || bool_decide (c = dot) || bool_decide (c = bstr "..") then None else Some c.

(** ** Hard links *)

Abbreviation key := (list buffer) (only parsing).

(** The map: the components of a path, the path as it was inserted, its target. *)
Abbreviation links := (gmap (list buffer) (buffer * buffer)) (only parsing).

(** [HashMap::get], and [insert], which keeps the key that is there. *)
Definition links_get (m : links) (p : buffer) : option buffer := snd <$> m !! components p.
Definition links_insert (p target : buffer) (m : links) : links :=
  <[components p := (from_option fst p (m !! components p), target)]> m.

(** The loop [check_acyclic] and [resolve_hardlink] share: follow the links from
    [next]; [Err] when a path comes up again. *)
Fixpoint follow (fuel : nat) (m : links) (visited : gset (list buffer)) (next : buffer) : outcome unit buffer :=
  match fuel with
  | O => Panic
  | S fuel =>
      match links_get m next with
      | None => Ok next
      | Some item =>
          if bool_decide (components item ∈ visited) then Err tt
          else follow fuel m ({[components item]} ∪ visited) item
      end
  end.

(** Every turn visits another key, so one turn more than there are links is enough. *)
Definition follow_from (m : links) (target : buffer) : outcome unit buffer :=
  follow (S (size m)) m {[components target]} target.

(** [fn check_acyclic]; the order of the values does not matter. *)
Definition check_acyclic (m : links) : bool :=
  forallb (fun e : key * (buffer * buffer) =>
    match follow_from m e.2.2 with Ok _ => true | _ => false end) (map_to_list m).

(** [fn resolve_hardlink] *)
Definition resolve_hardlink (p : buffer) (m : links) : option buffer :=
  target ← links_get m p;
  match follow_from m target with Ok r => Some r | _ => None end.

(** ** Entries *)

Inductive EntryType : Type := Directory | Regular | Continuous | Symlink | Link | OtherType.

(** A [tar::Entry]: the fields the code asks for, as the crate answers. *)
Record entry := mk_entry {
  e_path : outcome FormatError buffer; e_type : EntryType; e_link_name : outcome FormatError (option buffer);
  e_uid : option Z; e_gid : option Z; e_mode : option Z; e_mtime : option Z; e_data : list buffer }.

Section Unpack.
Context (clock : nat -> Z * Z).

(** [fn entry_timestamps] *)
Definition entry_timestamps (e : entry) : M FileTimestamps :=
  now <~ timestamp_now clock ;;
  let mtime_lo := wrap 32 (default 0 e.(e_mtime)) in
  ret (mk_ts (mtime_lo, 0) (mtime_lo, 0) (mtime_lo, 0) now).

(** A whiteout deletes what it names. *)
Definition apply_whiteout (path_str base target_name : buffer) : M unit :=
  let parent := parent_str path_str in
  if bool_decide (base = bstr ".wh..wh..opq") then unlink_path clock parent true
  else
    let target := if bool_decide (parent = root_path) then slash :: target_name
                  else parent ++ slash :: target_name in
    unlink_path clock target false.

(** The dispatch on the type of an entry that is neither whiteout nor hard link. *)
Definition apply_entry (path_str : buffer) (e : entry) : M unit :=
  ts <~ entry_timestamps e ;;
  let uid := wrap 32 <$> e.(e_uid) in
  let gid := wrap 32 <$> e.(e_gid) in
  let perm := Z.land (default 0x1A4 e.(e_mode)) 0xFFF in
  match e.(e_type) with
  | Directory =>
      create_path clock path_str (make_mode file_mode.S_IFDIR perm) None (Some ts) None uid gid None
  | Regular | Continuous =>
      create_path clock path_str (make_mode file_mode.S_IFREG perm) None (Some ts) (Some e.(e_data)) uid gid None
  | Symlink =>
      target <~ try e.(e_link_name) ;;
      create_path clock path_str (make_mode file_mode.S_IFLNK perm) (from_utf8_lossy <$> target) (Some ts) None uid gid None
  | _ => ret tt
  end.

(** One turn of the loop over the archive; the result is the new link map. *)
Definition unpack_entry (m : links) (e : entry) : M links :=
  raw_path <~ try e.(e_path) ;;
  let path_str := preprocess_path raw_path in
  let base := default [] (file_name path_str) in
  match strip_prefix (bstr ".wh.") base with
  | Some target_name => _ <~ apply_whiteout path_str base target_name ;; ret m
  | None =>
      match e.(e_type) with
      | Link =>
          link_target <~ try e.(e_link_name) ;;
          match link_target with
          | Some t => ret (links_insert path_str (preprocess_path t) m)
          | None => _ <~ apply_entry path_str e ;; ret m
          end
      | _ => _ <~ apply_entry path_str e ;; ret m
      end
  end.

Fixpoint unpack_entries (m : links) (archive : list (outcome FormatError entry)) : M links :=
  match archive with
  | [] => ret m
  | e :: archive => e <~ try e ;; m <~ unpack_entry m e ;; unpack_entries m archive
  end.

Context (iteration : links -> list buffer).

(** The hard links, made once the rest is there. *)
Definition make_links (m : links) : M unit :=
  for_each (iteration m) (fun link_path =>
    match resolve_hardlink link_path m with
    | Some resolved => link clock link_path resolved
    | None => ret tt
    end).

(** [fn unpack_tar] *)
Definition unpack_tar (archive : list (outcome FormatError entry)) : M unit :=
  m <~ unpack_entries ∅ archive ;;
  if negb (check_acyclic m) then throw CircularLinks else make_links m.
End Unpack.

(** ** Cycles *)

(** [k] is a link to [k']. *)
Definition edge (m : links) (k k' : key) : Prop := exists e, m !! k = Some e /\ components e.2 = k'.

Lemma edge_fun m k a b : edge m k a -> edge m k b -> a = b.
Proof. intros (e & He & <-) (e' & He' & <-). congruence. Qed.

Lemma edge_get m p t : links_get m p = Some t -> edge m (components p) (components t).
Proof. unfold links_get. intros (e & He & ->)%fmap_Some_1. by exists e. Qed.

Lemma get_none m p : links_get m p = None <-> m !! components p = None.
Proof. unfold links_get. apply fmap_None. Qed.

(** The paths visited lead to the current one, and all but it are links. *)
Lemma follow_spec fuel m visited next :
  components next ∈ visited -> (forall v, v ∈ visited -> rtc (edge m) v (components next)) ->
  visited ∖ {[components next]} ⊆ dom m -> (size m < fuel + size (visited ∖ {[components next]}))%nat ->
  match follow fuel m visited next with
  | Ok p => rtc (edge m) (components next) (components p) /\ m !! components p = None
  | Err _ => exists v, tc (edge m) v v
  | Panic => False
  end.
Proof.
  revert visited next. induction fuel as [|fuel IH]; intros visited next Hin Hreach Hsub Hfuel; simpl.
  { apply subseteq_size in Hsub. rewrite size_dom in Hsub. lia. }
  destruct (links_get m next) as [item|] eqn:Hg; [|by split; [|apply get_none]].
  pose proof (edge_get _ _ _ Hg) as He. case_bool_decide as Hv.
  - exists (components item). eapply tc_rtc_l; [by apply Hreach|]. by apply tc_once.
  - assert (Hd : components next ∈ dom m) by (destruct He as (e & He & _); by apply elem_of_dom_2 in He).
    assert (Hvis : ({[components item]} ∪ visited) ∖ {[components item]} = visited) by set_solver.
    specialize (IH ({[components item]} ∪ visited) item). rewrite Hvis in IH. ospecialize* IH.
    + set_solver.
    + intros v [->%elem_of_singleton|Hvv]%elem_of_union; [done|]. eapply rtc_r; [by apply Hreach|done].
    + intros v Hvv. destruct (decide (v = components next)) as [->|]; [done|]. apply Hsub. set_solver.
    + rewrite (union_difference_L {[components next]} visited) by set_solver.
      rewrite size_union, size_singleton by set_solver. lia.
    + destruct (follow fuel m _ item) as [p| |]; [|done..]. destruct IH as [Hr Hn]. split; [|done]. by eapply rtc_l.
Qed.

Lemma follow_from_spec m target :
  match follow_from m target with
  | Ok p => rtc (edge m) (components target) (components p) /\ m !! components p = None
  | Err _ => exists v, tc (edge m) v v
  | Panic => False
  end.
Proof.
  apply follow_spec; [set_solver| |set_solver|].
  - intros v ->%elem_of_singleton. done.
  - rewrite difference_diag_L, size_empty. lia.
Qed.

(** A path on a cycle only leads to links. *)
Lemma cycle_reaches_links m k k' : tc (edge m) k k -> rtc (edge m) k k' -> is_Some (m !! k').
Proof.
  intros Hc Hr. assert (Hc' : tc (edge m) k' k').
  { induction Hr as [|a b c Hab _ IH]; [done|]. apply IH. inversion Hc as [? ? Ha|? b' ? Hab' Hb]; subst.
    - by rewrite (edge_fun m a b a Hab Ha) in *.
    - rewrite (edge_fun m a b b' Hab Hab'). eapply tc_r; [exact Hb|done]. }
  inversion Hc' as [? ? (e & He & _)|? ? ? (e & He & _)]; by rewrite He.
Qed.

(** The cycle check accepts a set of hard links exactly when
    following them from any path never leads back to it. *)
Theorem check_acyclic_iff m : check_acyclic m = true <-> forall k, ~ tc (edge m) k k.
Proof.
  unfold check_acyclic. rewrite forallb_forall. split.
  - intros H k Hc. assert (exists e, m !! k = Some e) as [e He].
    { inversion Hc as [? ? (e & He & _)|? ? ? (e & He & _)]; eauto. }
    specialize (H (k, e)). ospecialize* H; [by apply list_elem_of_In, elem_of_map_to_list|]. simpl in H.
    pose proof (follow_from_spec m e.2) as Hf. destruct (follow_from m e.2) as [p| |]; [|done..].
    destruct Hf as [Hr Hn]. assert (is_Some (m !! components p)) as [? Hs]; [|congruence].
    eapply cycle_reaches_links; [exact Hc|]. eapply rtc_l; [|exact Hr]. by exists e.
  - intros H [k e] Hin. simpl. pose proof (follow_from_spec m e.2) as Hf.
    destruct (follow_from m e.2) as [p| |]; [done| |done]. destruct Hf as [v Hv]. by destruct (H v).
Qed.

(** In a set of hard links the check accepts, every
    link resolves, its chain of links ends in the path returned, and that path is
    no hard link itself. *)
Theorem resolve_hardlink_ends m p : check_acyclic m = true -> is_Some (m !! components p) ->
  exists r, resolve_hardlink p m = Some r /\ tc (edge m) (components p) (components r) /\ m !! components r = None.
Proof.
  intros Hc [e He]. unfold resolve_hardlink, links_get. rewrite He. simpl.
  unfold check_acyclic in Hc. rewrite forallb_forall in Hc.
  specialize (Hc (components p, e)). ospecialize* Hc; [by apply list_elem_of_In, elem_of_map_to_list|]. simpl in Hc.
  pose proof (follow_from_spec m e.2) as Hf. destruct (follow_from m e.2) as [r| |]; [|done..]. destruct Hf as [Hr Hn].
  exists r. split; [done|]. split; [|done]. eapply tc_rtc_r; [|exact Hr]. apply tc_once. by exists e.
Qed.

(** ** Whiteouts *)

Lemma parent_str_of path : parent_str path = parent_of path.
Proof. done. Qed.

(** A path as archives write it: absolute, relative, or relative with a leading dot. *)
Definition spelled (names : list buffer) (raw : buffer) : Prop :=
  exists rel, abs_path names = slash :: rel /\ (raw = slash :: rel \/ raw = rel \/ raw = bstr "./" ++ rel).

(** All spellings of a path become the absolute one. *)
Lemma relative_head names rel : names <> [] -> Forall name_ok names -> abs_path names = slash :: rel ->
  exists c t, rel = c :: t /\ (c =? slash) = false /\ strip_prefix (bstr "./") rel = None.
Proof.
  intros Hne Hn Ha. destruct names as [|n names]; [done|]. apply Forall_cons in Hn as [(Hs & Hn0 & Hd) _].
  assert (rel = n ++ concat ((fun s => slash :: s) <$> names)) as -> by (revert Ha; simpl; by intros [= <-]).
  destruct n as [|c n]; [done|]. apply Forall_cons in Hs as [Hc Hs]. exists c. eexists. split; [reflexivity|]. split; [by apply Z.eqb_neq|].
  change (bstr "./") with [46; 47]. cbn [strip_prefix app]. destruct (Z.eqb_spec 46 c) as [<-|]; [|done]. destruct n as [|d n]; [by destruct Hd|]. apply Forall_cons in Hs as [Hds _]. cbn [strip_prefix app].
  destruct (Z.eqb_spec 47 d) as [<-|]; [|done]. by destruct Hds.
Qed.
Lemma preprocess_spelled names raw : names <> [] -> Forall name_ok names -> spelled names raw -> utf8_valid raw = true ->
  preprocess_path raw = abs_path names.
Proof.
  intros Hne Hn (rel & Ha & Hraw) Hv. unfold preprocess_path. rewrite from_utf8_lossy_valid, Ha by done.
  destruct (relative_head names rel Hne Hn Ha) as (c & t & -> & Hc & Hstrip). destruct Hraw as [->|[->| ->]].
  - simpl. done.
  - rewrite Hstrip. simpl. by rewrite Hc.
  - rewrite strip_prefix_app. simpl. by rewrite Hc.
Qed.

Lemma file_name_abs names x : Forall name_ok names -> name_ok x -> x <> bstr ".." -> file_name (abs_path (names ++ [x])) = Some x.
Proof.
  intros Hn Hx Hd. unfold file_name. rewrite components_abs by (apply Forall_app; split; [done|by apply Forall_singleton]).
  rewrite app_comm_cons, last_snoc. simpl. destruct Hx as (Hs & _ & Hdot).
  assert (x <> root_path) by (intros ->; apply Forall_cons_1 in Hs as [Hs _]; by destruct Hs).
  by rewrite !bool_decide_eq_false_2.
Qed.

(** The name of a whiteout of [x]. *)
Definition wh (x : buffer) : buffer := bstr ".wh." ++ x.

(** An entry, of whatever type, that is the whiteout of [x] in the directory [q], in any spelling. *)
Definition whiteout_of (e : entry) (q : list buffer) (x : buffer) : Prop :=
  Forall name_ok q /\ name_ok x /\ wh x <> bstr ".wh..wh..opq" /\
  exists raw, e.(e_path) = Ok raw /\ spelled (q ++ [wh x]) raw /\ utf8_valid raw = true.

Lemma wh_name x : name_ok x -> name_ok (wh x) /\ wh x <> bstr "..".
Proof.
  intros (Hn & _ & _). split; [split|done]; [|done]. unfold no_slash, wh. apply Forall_app. split; [|done].
  by repeat (constructor; [done|]).
Qed.

Lemma unpack_whiteout clock m e q x s : fs_ok s -> whiteout_of e q x ->
  exists s', unpack_entry clock m e s = (Ok m, s') /\ removed (q ++ [x]) s s' /\ fs_ok s'.
Proof.
  intros Hok (Hq & Hx & Hopq & raw & Hp & Hsp & Hv). destruct (wh_name x Hx) as [Hw Hdd]. unfold unpack_entry. rewrite Hp.
  change (bind (try (Ok ?a)) ?k) with (k a). cbv beta zeta.
  rewrite (preprocess_spelled (q ++ [wh x]) raw); [|by destruct q|apply Forall_app; split; [done|by apply Forall_singleton]|done..].
  rewrite file_name_abs by done. cbn [default from_option id].
  rewrite strip_prefix_app. unfold apply_whiteout. rewrite bool_decide_eq_false_2 by done.
  rewrite parent_str_of. destruct (parent_basename_abs q (wh x) Hq Hw) as [-> _].
  assert (Ht : (if bool_decide (abs_path q = root_path) then slash :: x else abs_path q ++ slash :: x) = abs_path (q ++ [x])).
  { apply (child_path_abs q x Hq). }
  rewrite Ht. destruct (unlink_path_ok clock s (q ++ [x])) as (s' & E & Hr); [done|apply Forall_app; split; [done|by apply Forall_singleton]|by destruct q|].
  exists s'. unfold bind. rewrite E. split; [done|]. split; [done|]. by destruct Hr.
Qed.

Lemma unpack_whiteouts clock m es s : fs_ok s -> Forall (fun e => whiteout_of e.1 e.2.1 e.2.2) es ->
  exists s', unpack_entries clock m ((fun e => Ok e.1) <$> es) s = (Ok m, s') /\ fs_ok s' /\
    forall r, Forall name_ok r ->
      lookup s'.(f_tree) (abs_path r) =
        (if decide (Exists (fun e => (e.2.1 ++ [e.2.2]) `prefix_of` r) es) then Some None
         else lookup s.(f_tree) (abs_path r)).
Proof.
  intros Hok Hes. revert s Hok. induction Hes as [|[e [q x]] es He _ IH]; intros s Hok.
  { exists s. split; [done|]. split; [done|]. intros r _. rewrite decide_False; [done|]. by inversion 1. }
  destruct (unpack_whiteout clock m e q x s Hok He) as (s1 & E1 & Hr & Hok1).
  destruct (IH s1 Hok1) as (s' & E' & Hok' & Hw). exists s'. split; [|split; [done|]].
  { rewrite fmap_cons. cbn [unpack_entries]. unfold bind, try. cbn [fst]. by rewrite E1. }
  intros r Hnr. rewrite Hw by done. destruct Hr as [_ _ _ Hrem].
  rewrite (lookup_walk s1), (lookup_walk s), Hrem by done. simpl.
  destruct (decide (Exists _ es)) as [Hex|Hex].
  - rewrite decide_True; [done|by apply Exists_cons_tl].
  - destruct (decide (q ++ [x] `prefix_of` r)); [rewrite decide_True; [done|by apply Exists_cons_hd]|].
    rewrite decide_False; [done|]. by intros [?|?]%Exists_cons.
Qed.

(** C37 whiteout_layer: a layer that consists of single-file whiteouts always
    unpacks, keeps the file system well formed and removes exactly the entries the
    whiteouts name, with everything below them; every other path resolves to the
    node it did before.  The paths of the entries are valid UTF-8, made of proper names
    (neither empty nor a dot), and written in any of the ways archives have: absolute, relative, or
    with a leading dot and slash. *)
Theorem whiteout_layer clock iteration es s :
  fs_ok s -> Forall (fun e => whiteout_of e.1 e.2.1 e.2.2) es -> iteration ∅ = [] ->
  exists s', unpack_tar clock iteration ((fun e => Ok e.1) <$> es) s = (Ok tt, s') /\ fs_ok s' /\
    forall r, Forall name_ok r ->
      lookup s'.(f_tree) (abs_path r) =
        (if decide (Exists (fun e => (e.2.1 ++ [e.2.2]) `prefix_of` r) es) then Some None
         else lookup s.(f_tree) (abs_path r)).
Proof.
  intros Hok Hes Hit. destruct (unpack_whiteouts clock ∅ es s Hok Hes) as (s' & E & Hok' & Hw).
  exists s'. split; [|done]. unfold unpack_tar, bind. rewrite E.
  change (check_acyclic ∅) with true. simpl. unfold make_links. by rewrite Hit.
Qed.

(** ** Instances *)

Definition sample_links : links :=
  links_insert (bstr "/c") (bstr "/b") (links_insert (bstr "/b") (bstr "/a") ∅).

Lemma resolve_hardlink_ends_witness : exists r, resolve_hardlink (bstr "/c") sample_links = Some r /\
  tc (edge sample_links) (components (bstr "/c")) (components r) /\ sample_links !! components r = None.
Proof. apply (resolve_hardlink_ends sample_links (bstr "/c")); [vm_compute; reflexivity|by vm_compute; eexists]. Defined.

Definition file_entry (path : string) (data : buffer) : entry :=
  mk_entry (Ok (bstr path)) Regular (Ok None) (Some 0) (Some 0) (Some 0x1A4) (Some 0) [data].
Definition link_entry (path target : string) : entry :=
  mk_entry (Ok (bstr path)) Link (Ok (Some (bstr target))) (Some 0) (Some 0) (Some 0x1A4) (Some 0) [].

(** One order in which the link map may be iterated. *)
Definition by_key (m : links) : list buffer := (fun e => e.2.1) <$> map_to_list m.

Definition sample_whiteouts : list (entry * (list buffer * buffer)) :=
  [(file_entry "a/b/.wh.f" [], ([bstr "a"; bstr "b"], bstr "f")); (file_entry "./.wh.g" [], ([], bstr "g"));
   (file_entry "/a/.wh.h" [], ([bstr "a"], bstr "h"))].

Lemma sample_whiteouts_ok : Forall (fun e => whiteout_of e.1 e.2.1 e.2.2) sample_whiteouts.
Proof.
  repeat (apply Forall_cons; split); [| | |by constructor]; (split; [repeat constructor; discriminate|]; split; [repeat constructor; discriminate|]; split; [discriminate|]);
    eexists; (split; [reflexivity|]; split; [|reflexivity]); eexists; (split; [reflexivity|]); [right; left|right; right|left]; reflexivity.
Qed.

Lemma whiteout_layer_witness :
  exists s', unpack_tar sample_clock by_key ((fun e => Ok e.1) <$> sample_whiteouts) sample_fs = (Ok tt, s') /\ fs_ok s' /\
    forall r, Forall name_ok r ->
      lookup s'.(f_tree) (abs_path r) =
        (if decide (Exists (fun e => (e.2.1 ++ [e.2.2]) `prefix_of` r) sample_whiteouts) then Some None
         else lookup sample_fs.(f_tree) (abs_path r)).
Proof.
  apply (whiteout_layer sample_clock by_key sample_whiteouts sample_fs); [exact sample_fs_ok|exact sample_whiteouts_ok|reflexivity].
Defined.

(** The links of an archive are made after all its other entries, so a hard link
    replaces a file of the same name that comes later in the archive: here the
    archive stores [/x], then [/y] as a link to it, then a file [/y], and the
    result still has [/y] as a link to [/x]. *)
Lemma deferred_link_replaces_later_file :
  let archive := [Ok (file_entry "x" [1]); Ok (link_entry "y" "x"); Ok (file_entry "y" [2; 2])] in
  let r := unpack_tar sample_clock by_key archive sample_fs in
  r.1 = Ok tt /\ lookup r.2.(f_tree) (bstr "/x") = Some (Some 6%nat) /\
  (n_inode <$> get_node r.2 6) = Some 15 /\
  exists idx, lookup r.2.(f_tree) (bstr "/y") = Some (Some idx) /\ (n_link <$> get_node r.2 idx) = Some (Some 15).
Proof. vm_compute. split; [reflexivity|]. split; [reflexivity|]. split; [reflexivity|]. eexists. split; reflexivity. Qed.
