(* ===== verification/Condition.v ===== *)
(** * Conditions of the network policy

    [common/policy/src/condition.rs]: a condition is CEL text over [http.*]; it is
    rewritten to plain variables, compiled by the [cel] crate and run once on a
    dummy request.  The crate is a parameter: what it compiles to, how it compiles
    and how it executes. *)

From stdpp Require Import base list option numbers strings gmap.
From S2P Require Import Prelude Bytes Utf8 Str.

Definition quote1 : Z := 39.
Definition quote2 : Z := 34.
Definition backslash : Z := 92.

(** [fn is_identifier_char]; no byte of a longer character is one. *)
Definition is_identifier_char (c : Z) : bool := is_ascii_alphanumeric c || (c =? 95) || (c =? 45).

(** ** Rewriting the source *)

(** The loop of [contains_http_facet]. *)
Fixpoint facet_loop (fuel : nat) (facet rest : buffer) : bool :=
  match fuel with
  | O => false
  | S fuel =>
      match find facet rest with
      | None => false
      | Some relative =>
          let after := drop (relative + length facet) rest in
          if match after with [] => true | c :: _ => negb (is_identifier_char c) end then true
          else facet_loop fuel facet after
      end
  end.
Definition contains_http_facet (source facet : buffer) : bool := facet_loop (S (length source)) facet source.

(** [fn reject_known_unavailable_facets]; the error carries the facet. *)
Definition unavailable_facets : list buffer :=
  [bstr "http.body"; bstr "http.body_json"; bstr "http.header"; bstr "http.raw_path"; bstr "http.escaped_path";
   bstr "http.unknown"].
Definition reject_known_unavailable_facets (source : buffer) : outcome buffer unit :=
  match filter (fun facet => contains_http_facet source facet = true) unavailable_facets with
  | [] => Ok tt
  | facet :: _ => Err (bstr "unsupported http condition facet " ++ facet)
  end.

Section Condition.
Context (unicode_lowercase : buffer -> buffer).

Definition maybe_lower (lowercase_key : bool) (key : buffer) : buffer :=
  if lowercase_key then to_lowercase unicode_lowercase key else key.

(** The text of an index with the given key. *)
Definition indexed (key : buffer) : buffer := bstr "['" ++ key ++ bstr "']".

(** The loop of [rewrite_field_selects] on what is left of the source. *)
Fixpoint field_loop (fuel : nat) (original replacement : buffer) (lowercase_key : bool) (rest : buffer)
    (keys : gset buffer) : buffer * gset buffer :=
  match fuel with
  | O => (rest, keys)
  | S fuel =>
      match find original rest with
      | None => (rest, keys)
      | Some relative =>
          let after := drop (relative + length original) rest in
          let plain :=
            let '(out, keys) := field_loop fuel original replacement lowercase_key after keys in
            (take relative rest ++ original ++ out, keys) in
          match after with
          | c :: selected =>
              let key_len := default (length selected) (find_if (fun c => negb (is_identifier_char c)) selected) in
              if (c =? 46) && bool_decide (key_len <> 0%nat) then
                let key := maybe_lower lowercase_key (take key_len selected) in
                let '(out, keys) :=
                  field_loop fuel original replacement lowercase_key (drop key_len selected) ({[key]} ∪ keys) in
                (take relative rest ++ replacement ++ indexed key ++ out, keys)
              else plain
          | [] => plain
          end
      end
  end.
Definition rewrite_field_selects (source original replacement : buffer) (lowercase_key : bool) (keys : gset buffer)
    : buffer * gset buffer := field_loop (S (length source)) original replacement lowercase_key source keys.

(** A quoted key in brackets: the key and what follows the bracket. *)
Definition bracket_key (after : buffer) : option (buffer * buffer) :=
  match after with
  | b :: q :: quoted =>
      if (b =? 91) && ((q =? quote1) || (q =? quote2)) then
        e ← find [q] quoted;
        match drop (S e) quoted with
        | c :: tail => if c =? 93 then Some (take e quoted, tail) else None
        | [] => None
        end
      else None
  | _ => None
  end.

(** The loop of [rewrite_bracket_keys]. *)
Fixpoint bracket_loop (fuel : nat) (variable : buffer) (lowercase_key : bool) (rest : buffer) (keys : gset buffer)
    : buffer * gset buffer :=
  match fuel with
  | O => (rest, keys)
  | S fuel =>
      match find variable rest with
      | None => (rest, keys)
      | Some relative =>
          let after := drop (relative + length variable) rest in
          let '(replaced, after, keys) :=
            match bracket_key after with
            | Some (key, tail) =>
                let key := maybe_lower lowercase_key key in (indexed key, tail, {[key]} ∪ keys)
            | None => ([], after, keys)
            end in
          let '(out, keys) := bracket_loop fuel variable lowercase_key after keys in
          (take relative rest ++ variable ++ replaced ++ out, keys)
      end
  end.
Definition rewrite_bracket_keys (source variable : buffer) (lowercase_key : bool) (keys : gset buffer)
    : buffer * gset buffer := bracket_loop (S (length source)) variable lowercase_key source keys.

(** [fn lowercase_string_literals]: [quote] is the one the scan is inside of. *)
Fixpoint literal_loop (quote : option Z) (s : buffer) : buffer :=
  match s with
  | [] => []
  | c :: s =>
      match quote with
      | None => c :: literal_loop (if (c =? quote1) || (c =? quote2) then Some c else None) s
      | Some q =>
          to_ascii_lowercase c ::
            (if c =? q then literal_loop None s
             else if c =? backslash then
               match s with
               | e :: s => to_ascii_lowercase e :: literal_loop (Some q) s
               | [] => []
               end
             else literal_loop (Some q) s)
      end
  end.
Definition lowercase_string_literals (source : buffer) : buffer := literal_loop None source.

(** The loop of [indexed_list_compared_to_string]. *)
Fixpoint compared_loop (fuel : nat) (variable rest : buffer) : bool :=
  match fuel with
  | O => false
  | S fuel =>
      match find variable rest with
      | None => false
      | Some index =>
          let rest := drop (index + length variable) rest in
          let trimmed := trim_start rest in
          if negb (starts_with (bstr "[") trimmed) then compared_loop fuel variable rest
          else match find (bstr "]") trimmed with
               | Some close =>
                   let after := trim_start (drop (S close) trimmed) in
                   if starts_with (bstr "== '") after || starts_with (bstr "== " ++ [quote2]) after then true
                   else compared_loop fuel variable rest
               | None => compared_loop fuel variable rest
               end
      end
  end.
Definition indexed_list_compared_to_string (source variable : buffer) : bool :=
  compared_loop (S (length source)) variable source.

(** [fn reject_static_type_mismatches] *)
Definition reject_static_type_mismatches (source : buffer) : outcome buffer unit :=
  if contains (bstr "http_query ==") source || contains (bstr "== http_query") source
  then Err (bstr "http.query comparisons must index a string list")
  else if contains (bstr "http_headers ==") source || contains (bstr "== http_headers") source
  then Err (bstr "http.headers comparisons must index a string list")
  else if indexed_list_compared_to_string source (bstr "http_headers") ||
          indexed_list_compared_to_string source (bstr "http_query")
  then Err (bstr "http query and header entries are string lists")
  else Ok tt.

(** [struct PreparedSource] *)
Record PreparedSource := mk_prepared { p_source : buffer; p_query_keys : gset buffer; p_header_keys : gset buffer }.

(** [fn prepare_http_condition_source] *)
Definition prepare_http_condition_source (source : buffer) : outcome buffer PreparedSource :=
  _ <- reject_known_unavailable_facets source ;;
  let '(prepared, query_keys) := rewrite_field_selects source (bstr "http.query") (bstr "http_query") false ∅ in
  let '(prepared, header_keys) := rewrite_field_selects prepared (bstr "http.headers") (bstr "http_headers") true ∅ in
  let '(prepared, query_keys) := rewrite_bracket_keys prepared (bstr "http.query") false query_keys in
  let '(prepared, header_keys) := rewrite_bracket_keys prepared (bstr "http.headers") true header_keys in
  let prepared := replace (bstr "http.method") (bstr "http_method") prepared in
  let prepared := replace (bstr "http.host") (bstr "http_host") prepared in
  let prepared := replace (bstr "http.path") (bstr "http_path") prepared in
  let prepared := replace (bstr "http.query") (bstr "http_query") prepared in
  let prepared := replace (bstr "http.headers") (bstr "http_headers") prepared in
  if contains (bstr "http.") prepared then Err (bstr "unknown http condition facet")
  else
    let prepared := if contains (bstr "http_method") prepared then lowercase_string_literals prepared else prepared in
    _ <- reject_static_type_mismatches prepared ;;
    Ok (mk_prepared prepared query_keys header_keys).

(** ** Contexts *)

(** [struct HttpConditionContext] *)
Record HttpConditionContext := mk_ctx {
  c_method : buffer; c_host : buffer; c_path : buffer;
  c_query : gmap buffer (list buffer); c_headers : gmap buffer (list buffer) }.

(** [entry(key).or_default()] for every key *)
Definition fill_keys (keys : gset buffer) (m : gmap buffer (list buffer)) : gmap buffer (list buffer) :=
  m ∪ gset_to_gmap [] keys.

Definition default_with_keys (query_keys header_keys : gset buffer) : HttpConditionContext :=
  mk_ctx [] [] [] (gset_to_gmap [[]; []] query_keys) (gset_to_gmap [[]; []] header_keys).

Definition fill_missing_keys (c : HttpConditionContext) (query_keys header_keys : gset buffer) : HttpConditionContext :=
  mk_ctx c.(c_method) c.(c_host) c.(c_path) (fill_keys query_keys c.(c_query)) (fill_keys header_keys c.(c_headers)).

(** ** Compilation and evaluation *)

(** What a CEL program returns, as far as the code looks at it. *)
Inductive cel_value : Type := VBool (b : bool) | VOther (type_name : buffer).

Context (program : Type) (cel_compile : buffer -> outcome buffer program)
        (cel_execute : program -> HttpConditionContext -> outcome buffer cel_value).

(** [struct HttpCondition] *)
Record HttpCondition := mk_condition {
  h_program : program; h_query_keys : gset buffer; h_header_keys : gset buffer }.

(** [HttpCondition::compile] *)
Definition compile (source : buffer) : outcome buffer HttpCondition :=
  prepared <- prepare_http_condition_source source ;;
  prog <- (match cel_compile prepared.(p_source) with
           | Err e => Err (bstr "parse condition: " ++ e)
           | o => o
           end) ;;
  v <- cel_execute prog (default_with_keys prepared.(p_query_keys) prepared.(p_header_keys)) ;;
  match v with
  | VBool _ => Ok (mk_condition prog prepared.(p_query_keys) prepared.(p_header_keys))
  | VOther t => Err (bstr "must return bool, got " ++ t)
  end.

Inductive ConditionEvalError : Type := UnknownCondition (id : Z) | Message (m : buffer).

(** [HttpCondition::evaluate] *)
Definition evaluate (c : HttpCondition) (ctx : HttpConditionContext) : outcome ConditionEvalError bool :=
  match cel_execute c.(h_program) (fill_missing_keys ctx c.(h_query_keys) c.(h_header_keys)) with
  | Ok (VBool b) => Ok b
  | Ok (VOther t) => Err (Message (bstr "condition returned " ++ t))
  | Err e => Err (Message e)
  | Panic => Panic
  end.

(** ** What a condition sees *)

Lemma fill_keys_lookup keys m k : fill_keys keys m !! k =
  match m !! k with Some v => Some v | None => if decide (k ∈ keys) then Some [] else None end.
Proof.
  unfold fill_keys. rewrite lookup_union, lookup_gset_to_gmap. destruct (m !! k) as [v|].
  - by destruct (guard (k ∈ keys)).
  - case_decide; [by rewrite option_guard_True|by rewrite option_guard_False].
Qed.

(** A condition runs on the request it is given, unchanged except
    that every query and header key its text mentions is there: a key the request
    does not carry maps to the empty list, and only a boolean result is a verdict. *)
Theorem evaluate_sees (c : HttpCondition) (ctx : HttpConditionContext) : exists ctx',
  c_method ctx' = c_method ctx /\ c_host ctx' = c_host ctx /\ c_path ctx' = c_path ctx /\
  (forall k, c_query ctx' !! k =
     match c_query ctx !! k with Some v => Some v | None => if decide (k ∈ c.(h_query_keys)) then Some [] else None end) /\
  (forall k, c_headers ctx' !! k =
     match c_headers ctx !! k with Some v => Some v | None => if decide (k ∈ c.(h_header_keys)) then Some [] else None end) /\
  forall b, evaluate c ctx = Ok b <-> cel_execute c.(h_program) ctx' = Ok (VBool b).
Proof.
  exists (fill_missing_keys ctx c.(h_query_keys) c.(h_header_keys)). repeat (split; [done|]).
  split; [intros k; apply fill_keys_lookup|]. split; [intros k; apply fill_keys_lookup|].
  intros b. unfold evaluate. destruct (cel_execute _ _) as [[v|t]|e|]; split; intros H; by simplify_eq.
Qed.
End Condition.

(** Mentioning [http.method] lowers every string of the condition: the path below
    can no longer be matched, and the key [Foo] the context is filled with is not
    the key [foo] the program asks for. *)
Lemma method_test_lowers_literals : exists p,
  prepare_http_condition_source (fun s => s)
    (bstr "http.method == 'GET' && http.query['Foo'][0] == 'x' && http.path == '/API'") = Ok p /\
  p.(p_source) = bstr "http_method == 'get' && http_query['foo'][0] == 'x' && http_path == '/api'" /\
  elements p.(p_query_keys) = [bstr "Foo"].
Proof. eexists. split; [vm_compute; reflexivity|]. split; vm_compute; reflexivity. Qed.
#[global] Arguments bstr : simpl never.
