(* ===== verification/Policy.v ===== *)
(** * Loading a network policy

    [common/policy/src/model.rs] and [parse.rs]: the declarations of a policy, the
    decoding of attribute values, and the builder that reads the blocks of an HCL
    document, collects diagnostics and checks the references.  The HCL parser, the
    printing of HCL expressions, SHA-256, the CEL crate, the Unicode tables and the
    iteration order of a hash map are parameters. *)

From stdpp Require Import base list option numbers strings gmap.
From S2P Require Import Prelude Bytes Utf8 Str Condition.

(** ** Declarations ([model.rs]) *)

Inductive DiagnosticSeverity : Type := SevError | SevWarning.
Record Diagnostic := mk_diag { d_severity : DiagnosticSeverity; d_summary : buffer; d_detail : buffer; d_line : nat; d_column : nat }.

Inductive Action : Type := Allow | Deny.
Inductive EndpointFamily : Type := Ip | Http.
Inductive Transport : Type := PacketFilter | HttpProxy | HttpsMitm.

#[export] Instance family_eq : EqDecision EndpointFamily.
Proof. solve_decision. Defined.

Record AuditSettingsDecl := mk_audit { body_buffer : Z; body_storage : Z }.
Record SettingsDecl := mk_settings { default_action : Action; audit : option AuditSettingsDecl }.
Definition settings_default : SettingsDecl := mk_settings Allow None.

Record PortRange := mk_ports { start : Z; end_ : Z }.

Record EndpointDecl := mk_endpoint {
  ep_kind : buffer; ep_name : buffer; ep_family : EndpointFamily; ep_transport : Transport; ep_default_port : Z;
  ep_source : list buffer; ep_destination : list buffer; ep_protocol : buffer; ep_ports : list PortRange;
  ep_hosts : list buffer; ep_order : nat }.

Record Ref := mk_ref { r_kind : buffer; r_name : buffer }.

#[export] Instance ref_eq : EqDecision Ref.
Proof. solve_decision. Defined.

(** [format!("{kind}.{name}")] and [Ref::key] *)
Definition dotted_key (kind name : buffer) : buffer := kind ++ [46] ++ name.
Definition ref_key (r : Ref) : buffer := dotted_key r.(r_kind) r.(r_name).

Record ConditionDecl := mk_cond_decl { cd_id : Z; cd_source : buffer }.

Record CredentialDecl := mk_credential {
  cr_kind : buffer; cr_name : buffer; cr_endpoint : Ref; cr_username : buffer; cr_header : buffer; cr_prefix : buffer;
  cr_idempotency_key : bool; cr_condition : option ConditionDecl; cr_order : nat }.

Record RuleDecl := mk_rule {
  ru_name : buffer; ru_endpoints : list Ref; ru_credential : option Ref; ru_verdict : Action; ru_priority : Z;
  ru_disabled : bool; ru_condition : option ConditionDecl; ru_reason : buffer; ru_order : nat }.

Record PolicyDocument := mk_document {
  doc_id : Z; doc_filename : buffer; doc_diagnostics : list Diagnostic; doc_settings : SettingsDecl;
  doc_endpoints : list EndpointDecl; doc_credentials : list CredentialDecl; doc_rules : list RuleDecl }.

Record LoadError := mk_load_error { le_filename : buffer; le_diagnostics : list Diagnostic }.

(** [Policy]; [condition] is what conditions compile to. *)
Record Policy (condition : Type) := mk_policy {
  policy_hash : buffer; documents : list PolicyDocument; diagnostics : list Diagnostic; conditions : list condition }.
Arguments mk_policy {_}.
Arguments policy_hash {_}.
Arguments documents {_}.
Arguments diagnostics {_}.
Arguments conditions {_}.

(** *** Secrets *)

Inductive ExpectedSecret : Type := Plain | OAuth.
Record CredentialSecretSlot := mk_slot { sl_name : buffer; sl_required : bool; sl_expected : ExpectedSecret }.
Definition plain_slot (name : buffer) (required : bool) : CredentialSecretSlot := mk_slot name required Plain.

Definition is_str (s : buffer) (lit : string) : bool := bool_decide (s = bstr lit).

Definition credential_secret_slots (c : CredentialDecl) : list CredentialSecretSlot :=
  let kind := c.(cr_kind) in
  if is_str kind "basic_auth" then [plain_slot (bstr "password") true]
  else if is_str kind "bearer_token" || is_str kind "header_token" then [plain_slot (bstr "token") true]
  else if is_str kind "github_oauth" || is_str kind "openai_codex_oauth" then [mk_slot (bstr "oauth") true OAuth]
  else if is_str kind "aws_credential" then
    [plain_slot (bstr "access_key_id") true; plain_slot (bstr "secret_access_key") true;
     plain_slot (bstr "session_token") false; plain_slot (bstr "profile") false]
  else [].

Record SecretRequirement := mk_requirement {
  sr_credential : Ref; sr_endpoint : Ref; sr_slot : buffer; sr_required : bool; sr_expected : ExpectedSecret }.

Definition secret_requirements {C} (p : Policy C) : list SecretRequirement :=
  document ← p.(documents);
  credential ← document.(doc_credentials);
  slot ← credential_secret_slots credential;
  [mk_requirement (mk_ref credential.(cr_kind) credential.(cr_name)) credential.(cr_endpoint)
     slot.(sl_name) slot.(sl_required) slot.(sl_expected)].

(** ** HCL *)

(** [hcl::Expression] as far as the loader looks at it; a number is its printed
    form. *)
Inductive Expression : Type :=
| EString (s : buffer) | EBool (b : bool) | ENumber (text : buffer) | EArray (l : list Expression) | EOther (text : buffer).

Inductive Structure : Type :=
| Attribute (key : buffer) (e : Expression)
| SBlock (b : Block)
with Block : Type := mk_block (identifier : buffer) (labels : list buffer) (body : list Structure).

Definition identifier (b : Block) : buffer := let 'mk_block i _ _ := b in i.
Definition block_labels (b : Block) : list buffer := let 'mk_block _ l _ := b in l.
Definition block_body (b : Block) : list Structure := let 'mk_block _ _ s := b in s.

(** ** Decoding values *)

Definition quoted (s : buffer) : buffer := [quote2] ++ s ++ [quote2].

Definition decode_string (e : Expression) : outcome buffer buffer :=
  match e with EString s => Ok s | _ => Err (bstr "string value required") end.
Definition decode_bool (e : Expression) : outcome buffer bool :=
  match e with EBool b => Ok b | _ => Err (bstr "bool value required") end.
Definition decode_int (e : Expression) : outcome buffer Z :=
  match e with
  | ENumber text =>
      if contains (bstr ".") text then Err (bstr "number " ++ text ++ bstr " must be an integer")
      else match parse_i32 text with Some v => Ok v | None => Err (bstr "invalid integer " ++ text) end
  | _ => Err (bstr "integer value required")
  end.

(** [iter().map(f).collect::<Result<Vec<_>, _>>()] *)
Fixpoint collect {A B} (f : A -> outcome buffer B) (l : list A) : outcome buffer (list B) :=
  match l with
  | [] => Ok []
  | x :: l => y <- f x ;; ys <- collect f l ;; Ok (y :: ys)
  end.

Definition decode_string_list (e : Expression) : outcome buffer (list buffer) :=
  match e with EArray l => collect decode_string l | _ => Err (bstr "expected list of strings") end.

Definition out_of_range (value : buffer) : outcome buffer Z := Err (bstr "port " ++ quoted value ++ bstr " is out of range").

Definition parse_port (value : buffer) : outcome buffer Z :=
  if bool_decide (value = []) || negb (forallb is_ascii_digit value) then out_of_range value
  else match parse_u16 value with
       | Some port => if port =? 0 then out_of_range value else Ok port
       | None => out_of_range value
       end.

Definition parse_port_range (value : buffer) : outcome buffer PortRange :=
  let value := trim value in
  if bool_decide (value = []) then Err (bstr "port range must not be empty")
  else match split_once 45 value with
       | None => Err (bstr "invalid port range " ++ quoted value)
       | Some (s, e) =>
           if contains [45] e then Err (bstr "invalid port range " ++ quoted value)
           else
             s <- parse_port (trim s) ;;
             e <- parse_port (trim e) ;;
             if e <? s then Err (bstr "port range " ++ quoted value ++ bstr " ends before it starts")
             else Ok (mk_ports s e)
       end.

Definition decode_port (e : Expression) : outcome buffer PortRange :=
  match e with
  | ENumber text =>
      if contains (bstr ".") text then Err (bstr "port " ++ text ++ bstr " must be an integer")
      else match parse_u16 text with
           | Some port => if port =? 0 then Err (bstr "port 0 is out of range") else Ok (mk_ports port port)
           | None => Err (bstr "port " ++ text ++ bstr " is out of range")
           end
  | EString s => parse_port_range s
  | _ => Err (bstr "ports entries must be numbers or string ranges")
  end.

Definition decode_port_ranges (e : Expression) : outcome buffer (list PortRange) :=
  match e with EArray l => collect decode_port l | _ => Err (bstr "expected list of ports or port ranges") end.

Definition valid_identifier (s : buffer) : bool := bool_decide (s <> []) && forallb is_identifier_char s.

Definition ref_from_text (value : buffer) : outcome buffer Ref :=
  let text := trim value in
  match split_once 46 text with
  | None => Err (bstr "expected two-part reference like https.github")
  | Some (kind, name) =>
      if contains [46] name || negb (valid_identifier kind) || negb (valid_identifier name)
      then Err (bstr "reference " ++ quoted text ++ bstr " must use traversal identifiers")
      else Ok (mk_ref kind name)
  end.

Definition http_header_token_byte (c : Z) : bool :=
  is_ascii_alphanumeric c || bool_decide (c ∈ bstr "!#$%&'*+-.^_`|~").
Definition valid_http_header_name (s : buffer) : bool := bool_decide (s <> []) && forallb http_header_token_byte s.

Definition parse_terminal_action (value : buffer) : outcome buffer Action :=
  if bool_decide (value = []) || is_str value "allow" then Ok Allow
  else if is_str value "deny" then Ok Deny
  else Err (bstr "invalid action " ++ quoted value ++ bstr ", expected allow or deny").

Definition parse_rule_action (value : buffer) : outcome buffer Action :=
  if is_str value "allow" then Ok Allow
  else if is_str value "deny" then Ok Deny
  else Err (bstr "invalid verdict " ++ quoted value ++ bstr ", expected allow or deny").

Definition known_credential_kind (kind : buffer) : bool :=
  is_str kind "basic_auth" || is_str kind "bearer_token" || is_str kind "header_token" ||
  is_str kind "github_oauth" || is_str kind "openai_codex_oauth" || is_str kind "aws_credential".

(** *** References to secrets in a condition *)

Definition identifier_start_byte (c : Z) : bool := is_ascii_alphabetic c || (c =? 95).
Definition identifier_byte (c : Z) : bool := identifier_start_byte c || is_ascii_digit c.

(** [fn skip_quoted_condition_literal]: what follows the literal. *)
Fixpoint skip_quoted (quote : Z) (s : buffer) : buffer :=
  match s with
  | [] => []
  | c :: s =>
      if c =? backslash then match s with _ :: s => skip_quoted quote s | [] => [] end
      else if c =? quote then s
      else skip_quoted quote s
  end.

(** The identifier a string starts with, and the rest. *)
Fixpoint span_identifier (s : buffer) : buffer * buffer :=
  match s with
  | c :: s' => if identifier_byte c then let '(i, r) := span_identifier s' in (c :: i, r) else ([], s)
  | [] => ([], [])
  end.

(** [fn credential_condition_references_secret]; every turn consumes a byte. *)
Fixpoint secret_loop (fuel : nat) (s : buffer) : bool :=
  match fuel, s with
  | S fuel, c :: s' =>
      if (c =? quote1) || (c =? quote2) then secret_loop fuel (skip_quoted c s')
      else if identifier_start_byte c then
        let '(i, rest) := span_identifier s' in
        let ident := c :: i in
        if is_str ident "secret" || is_str ident "secrets" || is_str ident "credential" then true
        else secret_loop fuel rest
      else secret_loop fuel s'
  | _, _ => false
  end.
Definition credential_condition_references_secret (source : buffer) : bool := secret_loop (length source) source.

Section Loader.
Context (unicode_lowercase : buffer -> buffer).

(** [fn parse_size]; the product is checked, and a slice that does not end at a
    character panics. *)
Definition suffixes : list (buffer * Z) :=
  [(bstr "gib", 1024 * 1024 * 1024); (bstr "mib", 1024 * 1024); (bstr "kib", 1024); (bstr "b", 1)].

Definition parse_size (value : buffer) : outcome buffer Z :=
  let value := trim value in
  let invalid := Err (bstr "invalid size " ++ quoted value) in
  if bool_decide (value = []) then Err (bstr "size must not be empty")
  else
    let lower := to_lowercase unicode_lowercase value in
    match filter (fun s => ends_with s.1 lower = true) suffixes with
    | (suffix, multiplier) :: _ =>
        let cut := (length value - length suffix)%nat in
        if bool_decide (length value < length suffix)%nat || negb (is_char_boundary value cut) then Panic
        else match parse_i64 (trim (take cut value)) with
             | Some parsed =>
                 if parsed <? 0 then invalid
                 else if 2 ^ 63 <=? parsed * multiplier then Panic else Ok (parsed * multiplier)
             | None => invalid
             end
    | [] => match parse_i64 value with
            | Some parsed => if parsed <? 0 then invalid else Ok parsed
            | None => invalid
            end
    end.

(** ** Source positions *)

Record Position := mk_pos { p_line : nat; p_column : nat }.

Context (source_lines : list buffer).

(** The loop of [find_block_from] over the lines from [index] on. *)
Fixpoint find_block_loop (ls : list buffer) (index : nat) (ident : buffer) (labels : list buffer) : option Position :=
  match ls with
  | [] => None
  | line :: ls =>
      if starts_with ident (trim_start line) && forallb (fun label => contains label line) labels
      then Some (mk_pos (index + 1) (default 0%nat (find ident line) + 1))
      else find_block_loop ls (index + 1) ident labels
  end.

Definition find_block_from (ident : buffer) (labels : list buffer) (start_line : nat) : Position :=
  let start := (start_line - 1)%nat in
  default (mk_pos (start_line `max` 1) 1) (find_block_loop (drop start source_lines) start ident labels).

(** [fn find_attr_column] *)
Definition find_attr_column (line key : buffer) : option nat :=
  column ← find key line;
  if bool_decide (trim_start (take column line) <> []) then None
  else if starts_with (bstr "=") (trim_start (drop (column + length key) line)) then Some (column + 1)%nat
  else None.

Fixpoint find_attr_loop (ls : list buffer) (index : nat) (key : buffer) : option Position :=
  match ls with
  | [] => None
  | line :: ls =>
      match find_attr_column line key with
      | Some column => Some (mk_pos (index + 1) column)
      | None => find_attr_loop ls (index + 1) key
      end
  end.

Definition find_attr_after (key : buffer) (after_line : nat) : Position :=
  let start := (after_line - 1)%nat in
  default (mk_pos (after_line `max` 1) 1) (find_attr_loop (drop start source_lines) start key).

Definition find_label (line : nat) (label : buffer) : option Position :=
  text ← source_lines !! (line - 1)%nat;
  column ← find (quoted label) text;
  Some (mk_pos line (column + 1)).

(** ** The builder *)

Context (program : Type) (cel_compile : buffer -> outcome buffer program)
        (cel_execute : program -> HttpConditionContext -> outcome buffer cel_value)
        (show_expression : Expression -> buffer).

Abbreviation condition := (HttpCondition program).
Definition compile_condition : buffer -> outcome buffer condition :=
  compile unicode_lowercase program cel_compile cel_execute.

(** [struct DocumentBuilder], with the conditions of the policy it fills. *)
Record DocumentBuilder := mk_builder {
  b_cursor : nat; b_conditions : list condition; b_diagnostics : list Diagnostic;
  b_settings : SettingsDecl; b_settings_seen : bool;
  b_endpoints : list EndpointDecl; b_credentials : list CredentialDecl; b_rules : list RuleDecl;
  b_endpoint_keys : gset buffer; b_credential_keys : gset buffer; b_rule_names : gset buffer }.

Definition builder_new : DocumentBuilder := mk_builder 0 [] [] settings_default false [] [] [] ∅ ∅ ∅.

Implicit Types b : DocumentBuilder.

Definition add_diagnostics (ds : list Diagnostic) b : DocumentBuilder :=
  mk_builder b.(b_cursor) b.(b_conditions) (b.(b_diagnostics) ++ ds) b.(b_settings) b.(b_settings_seen)
    b.(b_endpoints) b.(b_credentials) b.(b_rules) b.(b_endpoint_keys) b.(b_credential_keys) b.(b_rule_names).
Definition set_cursor (c : nat) b : DocumentBuilder :=
  mk_builder c b.(b_conditions) b.(b_diagnostics) b.(b_settings) b.(b_settings_seen)
    b.(b_endpoints) b.(b_credentials) b.(b_rules) b.(b_endpoint_keys) b.(b_credential_keys) b.(b_rule_names).
Definition set_settings (seen : bool) (s : SettingsDecl) b : DocumentBuilder :=
  mk_builder b.(b_cursor) b.(b_conditions) b.(b_diagnostics) s seen
    b.(b_endpoints) b.(b_credentials) b.(b_rules) b.(b_endpoint_keys) b.(b_credential_keys) b.(b_rule_names).
Definition set_conditions (cs : list condition) b : DocumentBuilder :=
  mk_builder b.(b_cursor) cs b.(b_diagnostics) b.(b_settings) b.(b_settings_seen)
    b.(b_endpoints) b.(b_credentials) b.(b_rules) b.(b_endpoint_keys) b.(b_credential_keys) b.(b_rule_names).
Definition set_endpoints (es : list EndpointDecl) (ks : gset buffer) b : DocumentBuilder :=
  mk_builder b.(b_cursor) b.(b_conditions) b.(b_diagnostics) b.(b_settings) b.(b_settings_seen)
    es b.(b_credentials) b.(b_rules) ks b.(b_credential_keys) b.(b_rule_names).
Definition set_credentials (cs : list CredentialDecl) (ks : gset buffer) b : DocumentBuilder :=
  mk_builder b.(b_cursor) b.(b_conditions) b.(b_diagnostics) b.(b_settings) b.(b_settings_seen)
    b.(b_endpoints) cs b.(b_rules) b.(b_endpoint_keys) ks b.(b_rule_names).
Definition set_rules (rs : list RuleDecl) (ns : gset buffer) b : DocumentBuilder :=
  mk_builder b.(b_cursor) b.(b_conditions) b.(b_diagnostics) b.(b_settings) b.(b_settings_seen)
    b.(b_endpoints) b.(b_credentials) rs b.(b_endpoint_keys) b.(b_credential_keys) ns.

(** [error_at], [warning_at], [attr_error] *)
Definition error_diag (p : Position) (summary detail : buffer) : Diagnostic :=
  mk_diag SevError summary detail p.(p_line) p.(p_column).
Definition warning_diag (p : Position) (summary detail : buffer) : Diagnostic :=
  mk_diag SevWarning summary detail p.(p_line) p.(p_column).
Definition error_at (p : Position) (summary detail : buffer) b : DocumentBuilder :=
  add_diagnostics [error_diag p summary detail] b.
Definition warning_at (p : Position) (summary detail : buffer) b : DocumentBuilder :=
  add_diagnostics [warning_diag p summary detail] b.
Definition attr_error (key : buffer) (block_line : nat) (summary detail : buffer) b : DocumentBuilder :=
  error_at (find_attr_after key block_line) summary detail b.

(** [SourceLocator::find_block] moves the cursor. *)
Definition find_block (ident : buffer) (labels : list buffer) b : Position * DocumentBuilder :=
  let p := find_block_from ident labels (b.(b_cursor) + 1) in
  (p, set_cursor (p.(p_line) - 1) b).

(** [Policy::register_http_condition] *)
Definition register_http_condition (source : buffer) b : outcome buffer (ConditionDecl * DocumentBuilder) :=
  c <- compile_condition source ;;
  let id := wrap 32 (zlen b.(b_conditions) + 1) in
  Ok (mk_cond_decl id source, set_conditions (b.(b_conditions) ++ [c]) b).

(** *** Attributes

    A step on an attribute gives the new values of the local variables and the
    error to report, if any; [None] is a panic. *)

Definition step_result (L : Type) : Type := option (L * option (buffer * buffer)).

Definition decoded {A L} (o : outcome buffer A) (summary : string) (l : L) (set : A -> L) : step_result L :=
  match o with
  | Ok v => Some (set v, None)
  | Err detail => Some (l, Some (bstr summary, detail))
  | Panic => None
  end.

Definition refused {L} (summary : string) (detail : buffer) (l : L) : step_result L := Some (l, Some (bstr summary, detail)).

Definition unsupported_argument {L} (key : buffer) (l : L) : step_result L :=
  refused "Unsupported argument" (bstr "An argument named " ++ quoted key ++ bstr " is not expected here.") l.

Definition unsupported_block (ident : buffer) (p : Position) b : DocumentBuilder :=
  error_at p (bstr "Unsupported block") (bstr "Blocks of type " ++ quoted ident ++ bstr " are not expected here.") b.

(** The loop over the body of a block that has attributes only. *)
Fixpoint read_fields {L} (step : buffer -> Expression -> L -> step_result L) (block_line : nat)
    (body : list Structure) (l : L) b : option (L * DocumentBuilder) :=
  match body with
  | [] => Some (l, b)
  | Attribute key e :: body =>
      r ← step key e l;
      read_fields step block_line body r.1
        (match r.2 with Some (summary, detail) => attr_error key block_line summary detail b | None => b end)
  | SBlock child :: body =>
      read_fields step block_line body l
        (unsupported_block (identifier child)
           (find_block_from (identifier child) (block_labels child) block_line) b)
  end.

Definition decode_ref (e : Expression) : outcome buffer Ref := ref_from_text (show_expression e).
Definition decode_ref_list (e : Expression) : outcome buffer (list Ref) :=
  match e with
  | EArray [] => Err (bstr "expected at least one reference")
  | EArray l => collect decode_ref l
  | _ => Err (bstr "expected at least one reference")
  end.

(** *** Settings *)

Definition audit_step (key : buffer) (e : Expression) (l : Z * Z) : step_result (Z * Z) :=
  if is_str key "body_buffer" then
    decoded (v <- decode_string e ;; parse_size v) "Invalid settings.audit.body_buffer" l (fun v => (v, l.2))
  else if is_str key "body_storage" then
    decoded (v <- decode_string e ;; parse_size v) "Invalid settings.audit.body_storage" l (fun v => (l.1, v))
  else unsupported_argument key l.

Definition read_audit_settings (block : Block) (block_line : nat) b : option DocumentBuilder :=
  '(l, b) ← read_fields audit_step block_line (block_body block) (1024 * 1024, 4 * 1024) b;
  let b := if l.1 <? l.2
           then warning_at (mk_pos block_line 1) (bstr "Policy warning")
                  (bstr "settings.audit.body_buffer is smaller than settings.audit.body_storage") b
           else b in
  Some (set_settings b.(b_settings_seen) (mk_settings b.(b_settings).(default_action) (Some (mk_audit l.1 l.2))) b).

Definition set_default_action (a : Action) b : DocumentBuilder :=
  set_settings b.(b_settings_seen) (mk_settings a b.(b_settings).(audit)) b.

(** The loop of [read_settings]. *)
Fixpoint settings_loop (block_line : nat) (audit_seen : bool) (body : list Structure) b : option DocumentBuilder :=
  match body with
  | [] => Some b
  | Attribute key e :: body =>
      let b :=
        if is_str key "default_action" then
          match (v <- decode_string e ;; parse_terminal_action v) with
          | Ok action => set_default_action action b
          | Err detail => attr_error key block_line (bstr "Invalid settings.default_action") detail b
          | Panic => b
          end
        else attr_error key block_line (bstr "Unsupported argument")
               (bstr "An argument named " ++ quoted key ++ bstr " is not expected here.") b in
      settings_loop block_line audit_seen body b
  | SBlock child :: body =>
      if is_str (identifier child) "audit" then
        let p := find_block_from (bstr "audit") [] block_line in
        if audit_seen then
          settings_loop block_line audit_seen body
            (error_at p (bstr "Duplicate settings.audit block") (bstr "Only one settings.audit block is allowed.") b)
        else
          b ← read_audit_settings child p.(p_line) b;
          settings_loop block_line true body b
      else
        settings_loop block_line audit_seen body
          (unsupported_block (identifier child)
             (find_block_from (identifier child) (block_labels child) block_line) b)
  end.
Definition read_settings (block : Block) (block_line : nat) b : option DocumentBuilder :=
  settings_loop block_line false (block_body block) b.

(** *** Endpoints *)

Record endpoint_locals := mk_el {
  el_source : list buffer; el_destination : list buffer; el_protocol : buffer; el_ports : list PortRange;
  el_hosts : list buffer; el_hosts_seen : bool }.

Definition endpoint_step (kind key : buffer) (e : Expression) (l : endpoint_locals) : step_result endpoint_locals :=
  let '(mk_el s d p ports hosts seen) := l in
  if is_str kind "ip" then
    if is_str key "source" then
      decoded (decode_string_list e) "Invalid endpoint source" l (fun v => mk_el v d p ports hosts seen)
    else if is_str key "destination" then
      decoded (decode_string_list e) "Invalid endpoint destination" l (fun v => mk_el s v p ports hosts seen)
    else if is_str key "protocol" then
      decoded (decode_string e) "Invalid endpoint protocol" l (fun v => mk_el s d v ports hosts seen)
    else if is_str key "ports" then
      decoded (decode_port_ranges e) "Invalid endpoint ports" l (fun v => mk_el s d p v hosts seen)
    else unsupported_argument key l
  else if (is_str kind "http" || is_str kind "https") && is_str key "hosts" then
    let l := mk_el s d p ports hosts true in
    match decode_string_list e with
    | Ok [] => refused "Invalid hosts" (bstr "hosts must not be empty") l
    | o => decoded o "Invalid hosts" l (fun v => mk_el s d p ports v true)
    end
  else unsupported_argument key l.

(** The family, transport and port of an endpoint kind. *)
Definition endpoint_class (kind : buffer) : option (EndpointFamily * Transport * Z) :=
  if is_str kind "ip" then Some (Ip, PacketFilter, 0)
  else if is_str kind "http" then Some (Http, HttpProxy, 80)
  else if is_str kind "https" then Some (Http, HttpsMitm, 443)
  else None.

Definition read_endpoint (block : Block) (labels : list buffer) (p : Position) b : option DocumentBuilder :=
  match labels with
  | [kind; name] =>
      let key := dotted_key kind name in
      if negb (valid_identifier name) then
        Some (error_at (default p (find_label p.(p_line) name)) (bstr "Invalid endpoint name")
                (bstr "endpoint " ++ quoted kind ++ bstr "." ++ quoted name ++ bstr " name must use a traversal identifier") b)
      else match endpoint_class kind with
      | None =>
          Some (error_at (default p (find_label p.(p_line) kind)) (bstr "Unsupported endpoint kind")
                  (bstr "unsupported endpoint kind " ++ quoted kind) b)
      | Some (family, transport, default_port) =>
          if bool_decide (key ∈ b.(b_endpoint_keys)) then
            Some (error_at p (bstr "Duplicate endpoint")
                    (bstr "Endpoint " ++ quoted key ++ bstr " is already defined.") b)
          else
            let b := set_endpoints b.(b_endpoints) ({[key]} ∪ b.(b_endpoint_keys)) b in
            let l0 := mk_el [] [] (if is_str kind "ip" then bstr "any" else []) [] [] false in
            '(l, b) ← read_fields (endpoint_step kind) p.(p_line) (block_body block) l0 b;
            let b := if (is_str kind "http" || is_str kind "https") && negb l.(el_hosts_seen)
                     then error_at p (bstr "Missing hosts") (bstr "hosts is required") b else b in
            let e := mk_endpoint kind name family transport default_port l.(el_source) l.(el_destination)
                       l.(el_protocol) l.(el_ports) l.(el_hosts) (length b.(b_endpoints)) in
            Some (set_endpoints (b.(b_endpoints) ++ [e]) b.(b_endpoint_keys) b)
      end
  | _ => Some (error_at p (bstr "Invalid endpoint block") (bstr "endpoint requires kind and name labels") b)
  end.

(** *** Credentials *)

Record credential_locals := mk_cl {
  cl_endpoint : option Ref; cl_condition : option buffer; cl_username : buffer; cl_header : buffer; cl_prefix : buffer;
  cl_idempotency_key : bool }.

Definition credential_step (kind key : buffer) (e : Expression) (l : credential_locals) : step_result credential_locals :=
  let '(mk_cl ep cond user header prefix idem) := l in
  if is_str key "endpoint" then
    decoded (decode_ref e) "Invalid credential endpoint" l (fun v => mk_cl (Some v) cond user header prefix idem)
  else if is_str key "condition" then
    decoded (decode_string e) "Invalid credential condition" l (fun v => mk_cl ep (Some v) user header prefix idem)
  else if is_str kind "basic_auth" && is_str key "username" then
    match decode_string e with
    | Ok [] => refused "Invalid credential username" (bstr "username must not be empty") l
    | o => decoded o "Invalid credential username" l (fun v => mk_cl ep cond v header prefix idem)
    end
  else if is_str kind "bearer_token" && is_str key "idempotency_key" then
    decoded (decode_bool e) "Invalid credential idempotency_key" l (fun v => mk_cl ep cond user header prefix v)
  else if is_str kind "header_token" && is_str key "header" then
    match decode_string e with
    | Ok v => if valid_http_header_name v then Some (mk_cl ep cond user v prefix idem, None)
              else refused "Invalid credential header" (bstr "header must be a valid HTTP header name") l
    | o => decoded o "Invalid credential header" l (fun v => mk_cl ep cond user v prefix idem)
    end
  else if is_str kind "header_token" && is_str key "prefix" then
    decoded (decode_string e) "Invalid credential prefix" l (fun v => mk_cl ep cond user header v idem)
  else unsupported_argument key l.

Definition credential_label (kind name : buffer) : buffer :=
  bstr "credential " ++ quoted kind ++ bstr "." ++ quoted name.

(** The condition of a credential or a rule: an empty or absent one is none. *)
Definition register_condition (source : option buffer) (p : Position) (summary : string) (subject : buffer) b
    : option (option ConditionDecl * DocumentBuilder) :=
  match source with
  | Some (c :: source') =>
      match register_http_condition (c :: source') b with
      | Ok (decl, b) => Some (Some decl, b)
      | Err err => Some (None, error_at p (bstr summary) (subject ++ bstr " condition: " ++ err) b)
      | Panic => None
      end
  | _ => Some (None, b)
  end.

Definition credential_condition (source : option buffer) (p : Position) (subject : buffer) b
    : option (option ConditionDecl * DocumentBuilder) :=
  match source with
  | Some (c :: source') =>
      if credential_condition_references_secret (c :: source')
      then Some (None, error_at p (bstr "Invalid credential")
                   (subject ++ bstr " condition cannot reference credential.* or secret material") b)
      else register_condition source p "Invalid credential" subject b
  | _ => Some (None, b)
  end.

(** The attributes a kind of credential cannot do without. *)
Definition require_metadata (kind : buffer) (l : credential_locals) (p : Position) (subject : buffer) b : DocumentBuilder :=
  if is_str kind "basic_auth" && bool_decide (l.(cl_username) = [])
  then error_at p (bstr "Invalid credential") (subject ++ bstr " requires username") b
  else if is_str kind "header_token" && bool_decide (l.(cl_header) = [])
  then error_at p (bstr "Invalid credential") (subject ++ bstr " requires header") b
  else b.

Definition read_credential (block : Block) (labels : list buffer) (p : Position) b : option DocumentBuilder :=
  match labels with
  | [kind; name] =>
      let subject := credential_label kind name in
      let b := if valid_identifier name then b
               else error_at (default p (find_label p.(p_line) name)) (bstr "Invalid credential name")
                      (subject ++ bstr " name must use a traversal identifier") b in
      let key := dotted_key kind name in
      if bool_decide (key ∈ b.(b_credential_keys)) then
        Some (error_at p (bstr "Invalid credential") (bstr "duplicate credential " ++ quoted key) b)
      else
        let b := set_credentials b.(b_credentials) ({[key]} ∪ b.(b_credential_keys)) b in
        '(l, b) ← read_fields (credential_step kind) p.(p_line) (block_body block) (mk_cl None None [] [] [] false) b;
        match l.(cl_endpoint) with
        | None => Some (error_at p (bstr "Missing credential endpoint") (subject ++ bstr " requires endpoint") b)
        | Some endpoint =>
            '(cond, b) ← credential_condition l.(cl_condition) p subject (require_metadata kind l p subject b);
            let c := mk_credential kind name endpoint l.(cl_username) l.(cl_header) l.(cl_prefix)
                       l.(cl_idempotency_key) cond (length b.(b_credentials)) in
            Some (set_credentials (b.(b_credentials) ++ [c]) b.(b_credential_keys) b)
        end
  | _ => Some (error_at p (bstr "Invalid credential block") (bstr "credential requires kind and name labels") b)
  end.

(** *** Rules *)

Record rule_locals := mk_rl {
  rl_endpoints : list Ref; rl_saw_endpoint : bool; rl_saw_endpoints : bool; rl_credential : option Ref;
  rl_verdict : option Action; rl_priority : Z; rl_disabled : bool; rl_condition : option buffer; rl_reason : buffer }.

Definition rule_step (name key : buffer) (e : Expression) (l : rule_locals) : step_result rule_locals :=
  let '(mk_rl eps saw saws cred verdict prio dis cond reason) := l in
  if is_str key "endpoint" then
    let l := mk_rl eps true saws cred verdict prio dis cond reason in
    decoded (decode_ref e) "Invalid rule endpoint" l (fun v => mk_rl (eps ++ [v]) true saws cred verdict prio dis cond reason)
  else if is_str key "endpoints" then
    let l := mk_rl eps saw true cred verdict prio dis cond reason in
    if saw then refused "Invalid rule endpoints" (bstr "rule " ++ quoted name ++ bstr " uses endpoint and endpoints") l
    else decoded (decode_ref_list e) "Invalid rule endpoints" l (fun v => mk_rl v saw true cred verdict prio dis cond reason)
  else if is_str key "credential" then
    decoded (decode_ref e) "Invalid rule credential" l (fun v => mk_rl eps saw saws (Some v) verdict prio dis cond reason)
  else if is_str key "condition" then
    decoded (decode_string e) "Invalid rule condition" l (fun v => mk_rl eps saw saws cred verdict prio dis (Some v) reason)
  else if is_str key "verdict" then
    decoded (v <- decode_string e ;; parse_rule_action v) "Invalid rule verdict" l
      (fun v => mk_rl eps saw saws cred (Some v) prio dis cond reason)
  else if is_str key "priority" then
    decoded (decode_int e) "Invalid rule priority" l (fun v => mk_rl eps saw saws cred verdict v dis cond reason)
  else if is_str key "disabled" then
    decoded (decode_bool e) "Invalid rule disabled" l (fun v => mk_rl eps saw saws cred verdict prio v cond reason)
  else if is_str key "reason" then
    decoded (decode_string e) "Invalid rule reason" l (fun v => mk_rl eps saw saws cred verdict prio dis cond v)
  else unsupported_argument key l.

Definition read_rule (block : Block) (labels : list buffer) (p : Position) b : option DocumentBuilder :=
  match labels with
  | [name] =>
      if bool_decide (name ∈ b.(b_rule_names)) then
        Some (error_at p (bstr "Duplicate rule") (bstr "Rule " ++ quoted name ++ bstr " is already defined.") b)
      else
        let b := set_rules b.(b_rules) ({[name]} ∪ b.(b_rule_names)) b in
        let subject := bstr "rule " ++ quoted name in
        '(l, b) ← read_fields (rule_step name) p.(p_line) (block_body block)
                    (mk_rl [] false false None None 0 false None []) b;
        let endpoints := if l.(rl_saw_endpoint) && l.(rl_saw_endpoints) then take 1 l.(rl_endpoints) else l.(rl_endpoints) in
        let b := if bool_decide (endpoints = [])
                 then error_at p (bstr "Missing rule endpoint") (subject ++ bstr " requires endpoint or endpoints") b else b in
        match l.(rl_verdict) with
        | None => Some (error_at p (bstr "Missing rule verdict") (subject ++ bstr " requires verdict") b)
        | Some verdict =>
            '(cond, b) ← register_condition l.(rl_condition) p "Invalid rule" subject b;
            let r := mk_rule name endpoints l.(rl_credential) verdict l.(rl_priority) l.(rl_disabled) cond l.(rl_reason)
                       (length b.(b_rules)) in
            Some (set_rules (b.(b_rules) ++ [r]) b.(b_rule_names) b)
        end
  | _ => Some (error_at p (bstr "Invalid rule block") (bstr "rule requires a name label") b)
  end.

(** *** The document *)

Definition read_top_level_block (block : Block) b : option DocumentBuilder :=
  let labels := block_labels block in
  let ident := identifier block in
  let '(p, b) := find_block ident labels b in
  if is_str ident "settings" then
    match labels with
    | _ :: _ => Some (error_at p (bstr "Invalid settings block") (bstr "settings does not accept labels") b)
    | [] =>
        if b.(b_settings_seen) then
          Some (error_at p (bstr "Duplicate settings block") (bstr "Only one settings block is allowed.") b)
        else read_settings block p.(p_line) (set_settings true b.(b_settings) b)
    end
  else if is_str ident "endpoint" then read_endpoint block labels p b
  else if is_str ident "credential" then read_credential block labels p b
  else if is_str ident "rule" then read_rule block labels p b
  else if is_str ident "tailscale" || is_str ident "forward" then
    Some (error_at p (bstr "Reserved policy block")
            (ident ++ bstr " blocks are reserved by the policy schema but not implemented by netd yet") b)
  else Some (unsupported_block ident p b).

Fixpoint read_body (body : list Structure) b : option DocumentBuilder :=
  match body with
  | [] => Some b
  | Attribute key _ :: body =>
      read_body body (error_at (find_attr_after key 1) (bstr "Unsupported argument")
                        (bstr "An argument named " ++ quoted key ++ bstr " is not expected here.") b)
  | SBlock block :: body => b ← read_top_level_block block b; read_body body b
  end.

(** ** References *)

Definition endpoint_key (e : EndpointDecl) : buffer := dotted_key e.(ep_kind) e.(ep_name).
Definition credential_key (c : CredentialDecl) : buffer := dotted_key c.(cr_kind) c.(cr_name).

(** [iter().map(..).collect::<HashMap<_, _>>()] *)
Definition collect_map {A V} (key : A -> buffer) (val : A -> V) (l : list A) : gmap buffer V :=
  foldl (fun m x => <[key x := val x]> m) ∅ l.

Definition endpoint_kinds (es : list EndpointDecl) : gmap buffer buffer := collect_map endpoint_key ep_kind es.
Definition credential_endpoints (cs : list CredentialDecl) : gmap buffer Ref := collect_map credential_key cr_endpoint cs.

Definition top : Position := mk_pos 1 1.

(** What the loop over the credentials reports for one of them. *)
Definition credential_diagnostics (kinds : gmap buffer buffer) (c : CredentialDecl) : list Diagnostic :=
  let subject := credential_label c.(cr_kind) c.(cr_name) in
  if negb (known_credential_kind c.(cr_kind)) then
    [error_diag top (bstr "Invalid credential") (bstr "unsupported credential kind " ++ quoted c.(cr_kind))]
  else if negb (is_str c.(cr_endpoint).(r_kind) "https") then
    [error_diag top (bstr "Invalid credential") (subject ++ bstr " must reference an https endpoint")]
  else match kinds !! ref_key c.(cr_endpoint) with
       | None => [error_diag top (bstr "Invalid credential")
                    (subject ++ bstr " references unknown endpoint " ++ quoted (ref_key c.(cr_endpoint)))]
       | Some _ => []
       end.

(** [fn warn_credential_overlap]; [iteration] lists the groups in the order of the
    map that holds them. *)
Definition by_endpoint (cs : list CredentialDecl) : gmap buffer (list CredentialDecl) :=
  foldl (fun m c => <[ref_key c.(cr_endpoint) := default [] (m !! ref_key c.(cr_endpoint)) ++ [c]]> m) ∅ cs.

Fixpoint repeated_conditions (endpoint : buffer) (seen warned : gset buffer) (sources : list buffer) : list Diagnostic :=
  match sources with
  | [] => []
  | s :: sources =>
      if bool_decide (s ∈ seen) then
        if bool_decide (s ∈ warned) then repeated_conditions endpoint seen warned sources
        else warning_diag top (bstr "Policy warning")
               (bstr "multiple credentials on endpoint " ++ quoted endpoint ++ bstr " use the same condition string") ::
             repeated_conditions endpoint seen ({[s]} ∪ warned) sources
      else repeated_conditions endpoint ({[s]} ∪ seen) warned sources
  end.

Definition overlap_diagnostics (group : buffer * list CredentialDecl) : list Diagnostic :=
  let '(endpoint, credentials) := group in
  let unconditional := length (filter (fun c => c.(cr_condition) = None) credentials) in
  (if (1 <? Z.of_nat unconditional)
   then [warning_diag top (bstr "Policy warning")
           (bstr "multiple unconditional credentials bind to endpoint " ++ quoted endpoint ++
            bstr "; runtime requests will fail closed if more than one matches")]
   else []) ++
  repeated_conditions endpoint ∅ ∅ (omap (fun c => cd_source <$> c.(cr_condition)) credentials).

Context (iteration : gmap buffer (list CredentialDecl) -> list (buffer * list CredentialDecl)).

(** The loop over the endpoints of a rule: the family so far and the reports. *)
Fixpoint rule_families (kinds : gmap buffer buffer) (subject : buffer) (family : option EndpointFamily) (eps : list Ref)
    : option EndpointFamily * list Diagnostic :=
  match eps with
  | [] => (family, [])
  | r :: eps =>
      match kinds !! ref_key r with
      | None =>
          let '(f, ds) := rule_families kinds subject family eps in
          (f, error_diag top (bstr "Invalid rule")
                (subject ++ bstr ": references unknown endpoint " ++ quoted (ref_key r)) :: ds)
      | Some kind =>
          let endpoint_family := if is_str kind "ip" then Ip else Http in
          match family with
          | Some existing =>
              let '(f, ds) := rule_families kinds subject family eps in
              (f, (if bool_decide (existing = endpoint_family) then []
                   else [error_diag top (bstr "Invalid rule")
                           (subject ++ bstr ": all endpoints in one rule must have the same family")]) ++ ds)
          | None => rule_families kinds subject (Some endpoint_family) eps
          end
      end
  end.

(** What the loop over the rules reports for one of them. *)
Definition rule_diagnostics (kinds : gmap buffer buffer) (creds : gmap buffer Ref) (r : RuleDecl) : list Diagnostic :=
  let subject := bstr "rule " ++ quoted r.(ru_name) in
  let '(family, ds) := rule_families kinds subject None r.(ru_endpoints) in
  ds ++
  (if bool_decide (family = Some Ip) && bool_decide (is_Some r.(ru_condition))
   then [error_diag top (bstr "Invalid rule") (subject ++ bstr " condition is only supported for HTTP-family endpoint rules")]
   else []) ++
  match r.(ru_credential) with
  | None => []
  | Some credential =>
      match creds !! ref_key credential with
      | None => [error_diag top (bstr "Invalid rule")
                   (subject ++ bstr " references unknown credential " ++ quoted (ref_key credential))]
      | Some endpoint =>
          if negb (bool_decide (family = Some Http)) then
            [error_diag top (bstr "Invalid rule") (subject ++ bstr " credential predicates are invalid on ip endpoints")]
          else if bool_decide (endpoint ∈ r.(ru_endpoints)) then []
          else [error_diag top (bstr "Invalid rule")
                  (subject ++ bstr " credential " ++ quoted (ref_key credential) ++
                   bstr " must bind to a directly referenced endpoint")]
      end
  end.

(** [fn validate_references] *)
Definition validate_references b : DocumentBuilder :=
  let kinds := endpoint_kinds b.(b_endpoints) in
  let creds := credential_endpoints b.(b_credentials) in
  add_diagnostics
    ((b.(b_credentials) ≫= credential_diagnostics kinds) ++
     (iteration (by_endpoint b.(b_credentials)) ≫= overlap_diagnostics) ++
     (b.(b_rules) ≫= rule_diagnostics kinds creds)) b.
End Loader.

Arguments mk_builder {_}.
Arguments b_cursor {_}.
Arguments b_conditions {_}.
Arguments b_diagnostics {_}.
Arguments b_settings {_}.
Arguments b_settings_seen {_}.
Arguments b_endpoints {_}.
Arguments b_credentials {_}.
Arguments b_rules {_}.
Arguments b_endpoint_keys {_}.
Arguments b_credential_keys {_}.
Arguments b_rule_names {_}.
Arguments add_diagnostics {_}.
Arguments error_at {_}.
Arguments set_endpoints {_}.
Arguments set_credentials {_}.
Arguments set_rules {_}.
Arguments set_conditions {_}.
Arguments set_cursor {_}.
Arguments set_settings {_}.
Arguments require_metadata {_}.

(** ** Policies *)

Definition is_error (d : Diagnostic) : bool := match d.(d_severity) with SevError => true | SevWarning => false end.
Definition has_errors (ds : list Diagnostic) : bool := existsb is_error ds.

Section Parse.
Context (unicode_lowercase : buffer -> buffer)
        (program : Type) (cel_compile : buffer -> outcome buffer program)
        (cel_execute : program -> HttpConditionContext -> outcome buffer cel_value)
        (show_expression : Expression -> buffer)
        (iteration : gmap buffer (list CredentialDecl) -> list (buffer * list CredentialDecl))
        (hcl_parse : buffer -> outcome buffer (list Structure)) (sha256_hex : buffer -> buffer).

(** [fn parse_document], with the conditions it registers; [Err] is a [LoadError]. *)
Definition parse_document (filename source : buffer)
    : outcome LoadError (PolicyDocument * list (HttpCondition program)) :=
  match hcl_parse source with
  | Err err => Err (mk_load_error filename [mk_diag SevError (bstr "Parse error") err 1 1])
  | Panic => Panic
  | Ok body =>
      match read_body unicode_lowercase (lines source) program cel_compile cel_execute show_expression body
              (builder_new program) with
      | None => Panic
      | Some b =>
          let b := validate_references program iteration b in
          Ok (mk_document 1 filename b.(b_diagnostics) b.(b_settings) b.(b_endpoints) b.(b_credentials)
                b.(b_rules), b.(b_conditions))
      end
  end.

(** [fn parse_policy] *)
Definition parse_policy (filename source : buffer) : outcome LoadError (Policy (HttpCondition program)) :=
  '(document, cs) <- parse_document filename source ;;
  if has_errors document.(doc_diagnostics) then Err (mk_load_error filename document.(doc_diagnostics))
  else Ok (mk_policy (bstr "sha256:" ++ sha256_hex source) [document] document.(doc_diagnostics) cs).

(** [Policy::evaluate_http_condition] *)
Definition evaluate_http_condition (p : Policy (HttpCondition program)) (condition_id : Z) (ctx : HttpConditionContext)
    : outcome ConditionEvalError bool :=
  if condition_id =? 0 then Ok true
  else match p.(conditions) !! Z.to_nat (condition_id - 1) with
       | Some c => evaluate program cel_execute c ctx
       | None => Err (UnknownCondition condition_id)
       end.
End Parse.
