(* ===== verification/PolicySpec.v ===== *)
(** * What a loaded policy guarantees

    The loader of [Policy.v] either reports an error or returns a document in which
    every declaration is well formed and every reference resolves. *)

From stdpp Require Import base list option numbers strings gmap.
From S2P Require Import Prelude Bytes Utf8 Str Condition Policy.

(** ** Well-formed declarations *)

Definition port_ok (p : PortRange) : Prop := 1 <= p.(start) /\ p.(start) <= p.(end_) /\ p.(end_) <= 65535.

Definition ref_ok (r : Ref) : Prop := valid_identifier r.(r_kind) = true /\ valid_identifier r.(r_name) = true.

Record endpoint_ok (e : EndpointDecl) : Prop := {
  eo_name : valid_identifier e.(ep_name) = true;
  eo_class : endpoint_class e.(ep_kind) = Some (e.(ep_family), e.(ep_transport), e.(ep_default_port));
  eo_ports : Forall port_ok e.(ep_ports);
  eo_http : e.(ep_family) = Http -> e.(ep_hosts) <> [] /\ e.(ep_source) = [] /\ e.(ep_destination) = [] /\ e.(ep_ports) = [];
  eo_ip : e.(ep_family) = Ip -> e.(ep_hosts) = [] }.

Record credential_ok (c : CredentialDecl) : Prop := {
  co_name : valid_identifier c.(cr_name) = true;
  co_endpoint : ref_ok c.(cr_endpoint);
  co_user : c.(cr_kind) = bstr "basic_auth" -> c.(cr_username) <> [];
  co_header : c.(cr_kind) = bstr "header_token" -> valid_http_header_name c.(cr_header) = true }.

Record rule_ok (r : RuleDecl) : Prop := {
  ro_endpoints : r.(ru_endpoints) <> [];
  ro_refs : Forall ref_ok r.(ru_endpoints);
  ro_credential : forall c, r.(ru_credential) = Some c -> ref_ok c }.

(** ** Decoding *)

Lemma collect_ok {A B} (f : A -> outcome buffer B) (P : B -> Prop) l ys :
  (forall x y, f x = Ok y -> P y) -> collect f l = Ok ys -> Forall P ys.
Proof.
  intros Hf. revert ys. induction l as [|x l IH]; intros ys; simpl; [by intros [= <-]|].
  destruct (f x) as [y| |] eqn:E; [|done..]. simpl. destruct (collect f l) as [zs| |]; [|done..].
  intros [= <-]. constructor; [by eapply Hf|by apply IH].
Qed.

Lemma collect_length {A B} (f : A -> outcome buffer B) l ys : collect f l = Ok ys -> length ys = length l.
Proof.
  revert ys. induction l as [|x l IH]; intros ys; simpl; [by intros [= <-]|].
  destruct (f x) as [y| |]; [|done..]. simpl. destruct (collect f l) as [zs| |]; [|done..].
  intros [= <-]. simpl. by rewrite (IH zs).
Qed.

Lemma parse_port_ok s v : parse_port s = Ok v -> 1 <= v <= 65535.
Proof.
  unfold parse_port, out_of_range. case_match; [done|]. destruct (parse_u16 s) as [n|] eqn:E; [|done].
  apply parse_int_range in E. destruct (Z.eqb_spec n 0); [done|]. intros [= <-]. lia.
Qed.

Lemma decode_port_ok e p : decode_port e = Ok p -> port_ok p.
Proof.
  destruct e; simpl; try done.
  - unfold parse_port_range. case_match; [done|]. destruct (split_once _ _) as [[x y]|]; [|done]. case_match; [done|].
    destruct (parse_port (trim x)) as [a| |] eqn:Ea; [|done..]. simpl.
    destruct (parse_port (trim y)) as [z| |] eqn:Ez; [|done..]. simpl.
    destruct (Z.ltb_spec z a); [done|]. intros [= <-]. apply parse_port_ok in Ea, Ez. unfold port_ok. simpl. lia.
  - case_match; [done|]. destruct (parse_u16 text) as [n|] eqn:E; [|done]. apply parse_int_range in E.
    destruct (Z.eqb_spec n 0); [done|]. intros [= <-]. unfold port_ok. simpl. lia.
Qed.

(** Every port range the loader accepts, written as a number or
    as a range, lies within 1 and 65535 and does not end before it starts, and one
    is produced for every entry of the list. *)
Theorem ports_in_range e ports : decode_port_ranges e = Ok ports ->
  Forall port_ok ports /\ exists l, e = EArray l /\ length ports = length l.
Proof.
  destruct e as [| | |l|]; simpl; try done. intros H. split; [|exists l; split; [done|by eapply collect_length]].
  eapply collect_ok; [|exact H]. intros x y. apply decode_port_ok.
Qed.

Lemma ref_from_text_ok s r : ref_from_text s = Ok r -> ref_ok r.
Proof.
  unfold ref_from_text. destruct (split_once _ _) as [[k n]|]; [|done].
  destruct (contains _ _); simpl; [done|]. destruct (valid_identifier k) eqn:Hk, (valid_identifier n) eqn:Hn; simpl; try done.
  intros [= <-]. done.
Qed.

(** ** Keys *)

Lemma identifier_no_dot s : valid_identifier s = true -> 46 ∉ s.
Proof.
  unfold valid_identifier. rewrite andb_true_iff. intros [_ H] Hin. rewrite forallb_forall in H.
  specialize (H 46 ltac:(by apply list_elem_of_In)). done.
Qed.

Lemma dotted_key_inj k n k' n' : 46 ∉ k -> 46 ∉ k' -> dotted_key k n = dotted_key k' n' -> k = k' /\ n = n'.
Proof.
  unfold dotted_key. revert k'. induction k as [|c k IH]; intros [|c' k'] Hk Hk' E; simpl in *; simplify_eq; try done.
  - by destruct Hk'; left.
  - by destruct Hk; left.
  - destruct (IH k') as [-> ->]; [set_solver..|done|done].
Qed.

Lemma has_errors_app a b : has_errors (a ++ b) = has_errors a || has_errors b.
Proof. apply existsb_app. Qed.

Lemma has_errors_bind {A} (f : A -> list Diagnostic) l x : has_errors (l ≫= f) = false -> x ∈ l -> has_errors (f x) = false.
Proof.
  intros H Hx. induction l as [|y l IH]; [by apply not_elem_of_nil in Hx|]. simpl in H.
  change (has_errors (f y ++ (l ≫= f)) = false) in H. rewrite has_errors_app in H. apply orb_false_iff in H as [H1 H2].
  apply elem_of_cons in Hx as [->|Hx]; [done|by apply IH].
Qed.

(** ** The builder *)

Section Builder.
Context (unicode_lowercase : buffer -> buffer) (source_lines : list buffer)
        (program : Type) (cel_compile : buffer -> outcome buffer program)
        (cel_execute : program -> HttpConditionContext -> outcome buffer cel_value)
        (show_expression : Expression -> buffer).

Abbreviation builder := (DocumentBuilder program).
Abbreviation compiles := (compile_condition unicode_lowercase program cel_compile cel_execute).
Implicit Types b : builder.

Definition errs b : bool := has_errors b.(b_diagnostics).

(** A declared condition is the one registered under its id. *)
Definition cond_ok (cs : list (HttpCondition program)) (d : ConditionDecl) : Prop :=
  1 <= d.(cd_id) /\ exists c, cs !! Z.to_nat (d.(cd_id) - 1) = Some c /\ compiles d.(cd_source) = Ok c.

Lemma cond_ok_grow cs cs' d : cond_ok cs d -> cond_ok (cs ++ cs') d.
Proof. intros (H1 & c & Hc & Hs). split; [done|]. exists c. split; [|done]. by apply lookup_app_l_Some. Qed.

(** A list of declarations that carry their position, with distinct keys that are
    all recorded. *)
Record listed {A} (P : A -> Prop) (key : A -> buffer) (order : A -> nat) (keys : gset buffer) (l : list A) : Prop := {
  ls_ok : Forall P l;
  ls_order : order <$> l = seq 0 (length l);
  ls_keys : forall x, x ∈ l -> key x ∈ keys;
  ls_nodup : NoDup (key <$> l) }.

Lemma listed_more {A} (P : A -> Prop) key order ks k l : listed P key order ks l -> listed P key order ({[k]} ∪ ks) l.
Proof. intros []. split; try done. set_solver. Qed.

Lemma listed_snoc {A} (P : A -> Prop) key order ks l x :
  listed P key order ks l -> P x -> order x = length l -> key x ∉ ks -> listed P key order ({[key x]} ∪ ks) (l ++ [x]).
Proof.
  intros [Hok Ho Hk Hn] Hx Hord Hnew. split.
  - apply Forall_app. split; [done|by apply Forall_singleton].
  - rewrite fmap_app, Ho, length_app, seq_app. simpl. by rewrite Hord.
  - intros y [Hy|Hy]%elem_of_app; [apply elem_of_union_r; by apply Hk|apply list_elem_of_singleton in Hy as ->; set_solver].
  - rewrite fmap_app. apply list.NoDup_app. split; [done|]. split; [|apply NoDup_singleton].
    intros k (y & -> & Hy)%list_elem_of_fmap Hin%list_elem_of_singleton. apply Hnew. rewrite <- Hin. by apply Hk.
Qed.

Record good b : Prop := {
  g_endpoints : listed endpoint_ok endpoint_key ep_order b.(b_endpoint_keys) b.(b_endpoints);
  g_credentials : listed credential_ok credential_key cr_order b.(b_credential_keys) b.(b_credentials);
  g_rules : listed rule_ok ru_name ru_order b.(b_rule_names) b.(b_rules);
  g_conditions : zlen b.(b_conditions) < 2 ^ 32 ->
    (forall c d, c ∈ b.(b_credentials) -> c.(cr_condition) = Some d -> cond_ok b.(b_conditions) d) /\
    (forall r d, r ∈ b.(b_rules) -> r.(ru_condition) = Some d -> cond_ok b.(b_conditions) d) }.

(** What a part of the loader does: if no error is recorded afterwards none was
    before, and the declarations stay good. *)
Definition reads b b' : Prop := errs b' = false -> errs b = false /\ (good b -> good b').

Lemma reads_refl b : reads b b.
Proof. by intros H. Qed.

Lemma reads_trans a b c : reads a b -> reads b c -> reads a c.
Proof. intros H1 H2 Hc. destruct (H2 Hc) as [Hb Hbc]. destruct (H1 Hb) as [Ha Hab]. split; [done|auto]. Qed.

Lemma errs_add ds b : errs (add_diagnostics ds b) = errs b || has_errors ds.
Proof. unfold errs. simpl. apply has_errors_app. Qed.

Lemma errs_error p s d b : errs (error_at p s d b) = true.
Proof. unfold error_at. rewrite errs_add. apply orb_true_r. Qed.

Lemma errs_set_endpoints es ks b : errs (set_endpoints es ks b) = errs b.
Proof. done. Qed.
Lemma errs_set_credentials cs ks b : errs (set_credentials cs ks b) = errs b.
Proof. done. Qed.
Lemma errs_set_rules rs ns b : errs (set_rules rs ns b) = errs b.
Proof. done. Qed.

Lemma reads_error p s d b : forall b0, reads b0 (error_at p s d b).
Proof. intros b0 H. by rewrite errs_error in H. Qed.

Lemma reads_add ds b : reads b (add_diagnostics ds b).
Proof. intros H. rewrite errs_add in H. apply orb_false_iff in H as [H _]. split; [done|]. intros []. by split. Qed.

Lemma reads_same b b' : b'.(b_diagnostics) = b.(b_diagnostics) -> (good b -> good b') -> reads b b'.
Proof. intros Hd Hg H. unfold errs in *. rewrite Hd in H. auto. Qed.

Lemma add_add ds ds' b : add_diagnostics ds' (add_diagnostics ds b) = add_diagnostics (ds ++ ds') b.
Proof. unfold add_diagnostics. simpl. by rewrite app_assoc. Qed.

Lemma add_nil b : add_diagnostics [] b = b.
Proof. unfold add_diagnostics. rewrite app_nil_r. by destruct b. Qed.

(** Reading the attributes of a block adds diagnostics, and when none of them is an
    error the local variables went through accepted steps only. *)
Lemma read_fields_spec {L} (step : buffer -> Expression -> L -> step_result L) line body l b l' b' :
  read_fields source_lines program step line body l b = Some (l', b') ->
  (exists ds, b' = add_diagnostics ds b) /\
  (errs b' = false -> forall I : L -> Prop, (forall k e x x', step k e x = Some (x', None) -> I x -> I x') -> I l -> I l').
Proof.
  revert l b. induction body as [|s body IH]; intros l b; simpl.
  { intros [= <- <-]. split; [exists []; by rewrite add_nil|done]. }
  destruct s as [key e|child].
  - destruct (step key e l) as [[l1 err]|] eqn:Es; [|done]. simpl. intros H. apply IH in H as [[ds ->] Hi].
    destruct err as [[summary detail]|].
    + split; [eexists; unfold attr_error, error_at; apply add_add|]. rewrite errs_add. unfold attr_error.
      by rewrite errs_error.
    + split; [by exists ds|]. intros He I Hstep HI. apply (Hi He I Hstep). by eapply Hstep.
  - intros H. apply IH in H as [[ds ->] Hi]. split; [eexists; unfold unsupported_block, error_at; apply add_add|].
    rewrite errs_add. unfold unsupported_block. by rewrite errs_error.
Qed.

Lemma decoded_some {A L} (o : outcome buffer A) s (l l' : L) set : decoded o s l set = Some (l', None) ->
  exists v, o = Ok v /\ l' = set v.
Proof. unfold decoded. destruct o; try done. intros [= <-]. eauto. Qed.

Lemma refused_some {L} s d (l l' : L) : refused s d l = Some (l', None) -> False.
Proof. done. Qed.

Lemma unsupported_some {L} k (l l' : L) : unsupported_argument k l = Some (l', None) -> False.
Proof. done. Qed.

Lemma is_str_true s lit : is_str s lit = true -> s = bstr lit.
Proof. apply bool_decide_eq_true_1. Qed.

Lemma is_str_false s lit : is_str s lit = false -> s <> bstr lit.
Proof. apply bool_decide_eq_false_1. Qed.

(** Takes an accepted attribute step apart. *)
Ltac step_cases H :=
  repeat match type of H with
  | context [if is_str ?a ?b then _ else _] => destruct (is_str a b) eqn:?; cbn [andb orb] in H
  | context [if (is_str ?a ?b && _)%bool then _ else _] => destruct (is_str a b) eqn:?; cbn [andb orb] in H
  | context [if (is_str ?a ?b || _)%bool then _ else _] => destruct (is_str a b) eqn:?; cbn [andb orb] in H
  | unsupported_argument _ _ = Some (_, None) => by apply unsupported_some in H
  | refused _ _ _ = Some (_, None) => by apply refused_some in H
  | decoded _ _ _ _ = Some (_, None) => apply decoded_some in H as (? & ? & ->)
  end.

(** *** Endpoints *)

Definition endpoint_inv (kind : buffer) (l : endpoint_locals) : Prop :=
  Forall port_ok l.(el_ports) /\ (l.(el_hosts_seen) = true -> l.(el_hosts) <> []) /\
  (is_str kind "ip" = true -> l.(el_hosts) = []) /\
  (is_str kind "ip" = false -> l.(el_source) = [] /\ l.(el_destination) = [] /\ l.(el_ports) = []).

Lemma endpoint_step_inv kind k e l l' : endpoint_step kind k e l = Some (l', None) -> endpoint_inv kind l -> endpoint_inv kind l'.
Proof.
  unfold endpoint_inv. intros H (Hp & Hh & Hip & Hhttp). destruct l as [s d p ports hosts seen].
  unfold endpoint_step in H. step_cases H; cbn [el_source el_destination el_protocol el_ports el_hosts el_hosts_seen] in *.
  - done.
  - done.
  - done.
  - split; [|done]. destruct e; try done. eapply collect_ok; [|done]. apply decode_port_ok.
  - destruct ((is_str kind "http" || is_str kind "https") && is_str k "hosts"); [|done].
    destruct (decode_string_list e) as [[|h hs]| |]; try done.
    apply decoded_some in H as (v & [= <-] & ->). done.
Qed.

Lemma endpoint_class_str kind f t d : endpoint_class kind = Some (f, t, d) ->
  f = (if is_str kind "ip" then Ip else Http) /\ (is_str kind "ip" = false -> (is_str kind "http" || is_str kind "https") = true).
Proof.
  unfold endpoint_class. destruct (is_str kind "ip"); [by intros [= <- <- <-]|].
  destruct (is_str kind "http"); [by intros [= <- <- <-]|]. destruct (is_str kind "https"); [by intros [= <- <- <-]|done].
Qed.

Lemma read_endpoint_reads block labels p b b' : 
  read_endpoint source_lines program block labels p b = Some b' -> reads b b'.
Proof.
  unfold read_endpoint. destruct labels as [|kind [|name [|]]]; try (intros [= <-]; apply reads_error).
  cbv zeta. destruct (valid_identifier name) eqn:Hname; [|intros [= <-]; apply reads_error].
  destruct (endpoint_class kind) as [[[f t] dp]|] eqn:Hclass; [|intros [= <-]; apply reads_error].
  cbn [negb]. case_bool_decide as Hnew; [intros [= <-]; apply reads_error|].
  destruct (read_fields _ _ _ _ _ _ _) as [[l b1]|] eqn:Hf; [|done]. simpl. intros [= <-] He.
  destruct (endpoint_class_str _ _ _ _ Hclass) as [-> Hkinds].
  destruct (read_fields_spec _ _ _ _ _ _ _ Hf) as [[ds ->] Hinv].
  destruct ((is_str kind "http" || is_str kind "https") && negb (el_hosts_seen l)) eqn:Hseen; rewrite errs_set_endpoints in He; [by rewrite errs_error in He|].
  pose proof He as He1. rewrite errs_add, errs_set_endpoints, orb_false_iff in He1.
  destruct (Hinv He (endpoint_inv kind)) as (Hp & Hh & Hip & Hhttp);
    [apply endpoint_step_inv|by split|].
  split; [apply He1|]. intros []. split; try done. simpl.
  apply (listed_snoc endpoint_ok endpoint_key ep_order _ _ (mk_endpoint kind name _ t dp _ _ _ _ _ _)); [done| |done|done].
  split; simpl; try done.
  - destruct (is_str kind "ip") eqn:Ek; [done|]. intros _. rewrite (Hkinds eq_refl) in Hseen. simpl in Hseen.
    apply negb_false_iff in Hseen. destruct (Hhttp eq_refl) as (? & ? & ?). auto.
  - destruct (is_str kind "ip"); [|done]. auto.
Qed.

(** *** Conditions *)

Lemma register_reads src p summary subject b c b' :
  register_condition unicode_lowercase program cel_compile cel_execute src p summary subject b = Some (c, b') ->
  reads b b' /\ b'.(b_credentials) = b.(b_credentials) /\ b'.(b_rules) = b.(b_rules) /\ b'.(b_endpoints) = b.(b_endpoints) /\
  b'.(b_credential_keys) = b.(b_credential_keys) /\ b'.(b_rule_names) = b.(b_rule_names) /\
  (errs b' = false -> zlen b'.(b_conditions) < 2 ^ 32 -> forall d, c = Some d -> cond_ok b'.(b_conditions) d).
Proof.
  unfold register_condition. destruct src as [[|x src]|]; try (intros [= <- <-]; by split; [apply reads_refl|]).
  unfold register_http_condition. destruct (compiles (x :: src)) as [cnd| |] eqn:Hc; simpl; [| |done].
  - intros [= <- <-]. split.
    + apply reads_same; [done|]. intros [He Hcr Hru Hcond]. split; try done. simpl. rewrite zlen_app. intros Hlen.
      assert (Hlen' : zlen (b_conditions b) < 2 ^ 32) by (pose proof (zlen_nonneg [cnd]); lia).
      destruct (Hcond Hlen') as [H1 H2]. split; intros; apply cond_ok_grow; eauto.
    + repeat (split; [done|]). intros _ Hlen d [= <-]. simpl in *. rewrite zlen_app in Hlen. change (zlen [cnd]) with 1 in Hlen.
      pose proof (zlen_nonneg (b_conditions b)). rewrite wrap_id by (unfold uint; lia).
      split; simpl; [lia|]. exists cnd. split; [|done].
      replace (Z.to_nat (zlen (b_conditions b) + 1 - 1)) with (length (b_conditions b)) by (unfold zlen; lia).
      by rewrite lookup_app_r, Nat.sub_diag.
  - intros [= <- <-]. split; [apply reads_error|]. by repeat (split; [done|]).
Qed.

Lemma credential_condition_reads src p subject b c b' :
  credential_condition unicode_lowercase program cel_compile cel_execute src p subject b = Some (c, b') ->
  reads b b' /\ b'.(b_credentials) = b.(b_credentials) /\ b'.(b_rules) = b.(b_rules) /\ b'.(b_endpoints) = b.(b_endpoints) /\
  b'.(b_credential_keys) = b.(b_credential_keys) /\ b'.(b_rule_names) = b.(b_rule_names) /\
  (errs b' = false -> zlen b'.(b_conditions) < 2 ^ 32 -> forall d, c = Some d -> cond_ok b'.(b_conditions) d).
Proof.
  unfold credential_condition. destruct src as [[|x src]|]; try (intros [= <- <-]; by split; [apply reads_refl|]).
  case_match; [|apply register_reads]. intros [= <- <-]. split; [apply reads_error|]. by repeat (split; [done|]).
Qed.

(** *** Credentials *)

Definition credential_inv (l : credential_locals) : Prop :=
  (forall r, l.(cl_endpoint) = Some r -> ref_ok r) /\ (l.(cl_header) = [] \/ valid_http_header_name l.(cl_header) = true).

Lemma credential_step_inv kind k e l l' :
  credential_step show_expression kind k e l = Some (l', None) -> credential_inv l -> credential_inv l'.
Proof.
  unfold credential_inv. intros H [Hr Hh]. destruct l as [ep cond user header prefix idem].
  unfold credential_step in H.
  destruct (is_str k "endpoint").
  { apply decoded_some in H as (v & Hv & ->). simpl in *. split; [|done]. intros r [= <-]. by eapply ref_from_text_ok. }
  destruct (is_str k "condition"); [by apply decoded_some in H as (v & Hv & ->)|].
  destruct (is_str kind "basic_auth" && is_str k "username").
  { destruct (decode_string e) as [[|c s]| |]; try done; by apply decoded_some in H as (v & Hv & ->). }
  destruct (is_str kind "bearer_token" && is_str k "idempotency_key"); [by apply decoded_some in H as (v & Hv & ->)|].
  destruct (is_str kind "header_token" && is_str k "header").
  { destruct (decode_string e) as [v| |]; try done. destruct (valid_http_header_name v) eqn:Hv; [|done].
    injection H as <-. simpl. auto. }
  destruct (is_str kind "header_token" && is_str k "prefix"); [by apply decoded_some in H as (v & Hv & ->)|done].
Qed.

Lemma good_set_credentials k b : good b -> good (set_credentials b.(b_credentials) ({[k]} ∪ b.(b_credential_keys)) b).
Proof. intros []. split; try done. simpl. by apply listed_more. Qed.

Lemma require_metadata_spec kind l p subject b : errs (require_metadata kind l p subject b) = false ->
  errs b = false /\ require_metadata kind l p subject b = b /\
  (kind = bstr "basic_auth" -> l.(cl_username) <> []) /\ (kind = bstr "header_token" -> l.(cl_header) <> []).
Proof.
  unfold require_metadata. destruct (is_str kind "basic_auth") eqn:H1, (is_str kind "header_token") eqn:H2; cbn [andb];
    [apply is_str_true in H1; apply is_str_true in H2; by subst kind|..];
    try (case_bool_decide; [by rewrite errs_error|]); try apply is_str_false in H1; try apply is_str_false in H2; done.
Qed.

Lemma read_credential_reads block labels p b b' :
  read_credential unicode_lowercase source_lines program cel_compile cel_execute show_expression block labels p b = Some b' ->
  reads b b'.
Proof.
  unfold read_credential. destruct labels as [|kind [|name [|]]]; try (intros [= <-]; apply reads_error).
  cbv zeta. destruct (valid_identifier name) eqn:Hname.
  2:{ intros H He. exfalso. revert H.
      case_bool_decide; [intros [= <-]; by rewrite errs_error in He|].
      destruct (read_fields _ _ _ _ _ _ _) as [[l b1]|] eqn:Hf; [|done]. cbn [mbind option_bind].
      destruct (read_fields_spec _ _ _ _ _ _ _ Hf) as [[ds ->] _].
      destruct (cl_endpoint l); [|intros [= <-]; by rewrite errs_error in He].
      destruct (credential_condition _ _ _ _ _ _ _ _) as [[c b3]|] eqn:Hc; [|done]. cbn [mbind option_bind].
      intros [= <-]. apply credential_condition_reads in Hc as (Hc & _). rewrite errs_set_credentials in He.
      apply Hc in He as [He _]. apply require_metadata_spec in He as [He _]. by rewrite errs_add, errs_set_credentials, errs_error in He. }
  case_bool_decide as Hnew; [intros [= <-]; apply reads_error|].
  destruct (read_fields _ _ _ _ _ _ _) as [[l b1]|] eqn:Hf; [|done]. cbn [mbind option_bind].
  destruct (read_fields_spec _ _ _ _ _ _ _ Hf) as [[ds ->] Hinv].
  destruct (cl_endpoint l) as [ep|] eqn:Hep; [|intros [= <-]; apply reads_error].
  destruct (credential_condition _ _ _ _ _ _ _ _) as [[c b3]|] eqn:Hc; [|done]. cbn [mbind option_bind].
  intros [= <-] He. apply credential_condition_reads in Hc as (Hrd & Hcr & Hru & Hep' & Hk & Hn & Hcond).
  rewrite errs_set_credentials in He. destruct (Hrd He) as [He2 Hg].
  destruct (require_metadata_spec _ _ _ _ _ He2) as (He3 & Hb2 & Huser & Hheader). rewrite Hb2 in *. clear He2. rename He3 into He2.
  destruct (Hinv He2 credential_inv) as [Href Hhead]; [apply credential_step_inv|by split; [done|left]|].
  rewrite errs_add, errs_set_credentials, orb_false_iff in He2. split; [apply He2|]. intros Hgood.
  destruct (Hg ltac:(apply reads_add; [by rewrite errs_add, errs_set_credentials, orb_false_iff|by apply good_set_credentials])) as [G1 G2 G3 G4].
  simpl in *. split; simpl; try done.
  - rewrite Hcr, Hk. 
    apply (listed_snoc credential_ok credential_key cr_order _ _ (mk_credential kind name ep _ _ _ _ _ _)); [by destruct Hgood| |done|done].
    split; simpl; [done|by apply Href|done|]. intros Hkd. destruct Hhead as [Hh|]; [|done]. by destruct (Hheader Hkd).
  - intros Hlen. destruct (G4 Hlen) as [H1 H2]. split; [|done]. intros x d [Hx|Hx]%elem_of_app Hd; [by eapply H1|].
    apply list_elem_of_singleton in Hx as ->. simpl in Hd. by eapply Hcond.
Qed.

(** *** Rules *)

Definition rule_inv (l : rule_locals) : Prop :=
  Forall ref_ok l.(rl_endpoints) /\ (forall r, l.(rl_credential) = Some r -> ref_ok r).

Lemma rule_step_inv name k e l l' :
  rule_step show_expression name k e l = Some (l', None) -> rule_inv l -> rule_inv l'.
Proof.
  unfold rule_inv. intros H [Hr Hc]. destruct l as [eps saw saws cred verdict prio dis cond reason]. unfold rule_step in H.
  destruct (is_str k "endpoint").
  { apply decoded_some in H as (v & Hv & ->). simpl in *. split; [|done]. apply Forall_app. split; [done|].
    apply Forall_singleton. by eapply ref_from_text_ok. }
  destruct (is_str k "endpoints").
  { destruct saw; [done|]. apply decoded_some in H as (v & Hv & ->). simpl in *. split; [|done].
    unfold decode_ref_list in Hv. destruct e as [| | |[|x es]|]; try done. eapply collect_ok; [|exact Hv].
    intros ? ?. apply ref_from_text_ok. }
  destruct (is_str k "credential").
  { apply decoded_some in H as (v & Hv & ->). simpl in *. split; [done|]. intros r [= <-]. by eapply ref_from_text_ok. }
  repeat match type of H with (if is_str ?a ?b then _ else _) = _ => destruct (is_str a b); [by apply decoded_some in H as (v & Hv & ->)|] end.
  done.
Qed.

Lemma good_set_rules k b : good b -> good (set_rules b.(b_rules) ({[k]} ∪ b.(b_rule_names)) b).
Proof. intros []. split; try done. simpl. by apply listed_more. Qed.

Lemma read_rule_reads block labels p b b' :
  read_rule unicode_lowercase source_lines program cel_compile cel_execute show_expression block labels p b = Some b' ->
  reads b b'.
Proof.
  unfold read_rule. destruct labels as [|name [|]]; try (intros [= <-]; apply reads_error). cbv zeta.
  case_bool_decide as Hnew; [intros [= <-]; apply reads_error|].
  destruct (read_fields _ _ _ _ _ _ _) as [[l b1]|] eqn:Hf; [|done]. cbn [mbind option_bind].
  destruct (read_fields_spec _ _ _ _ _ _ _ Hf) as [[ds ->] Hinv].
  set (eps := if rl_saw_endpoint l && rl_saw_endpoints l then take 1 (rl_endpoints l) else rl_endpoints l).
  destruct (rl_verdict l) as [verdict|]; [|intros [= <-]; apply reads_error].
  destruct (register_condition _ _ _ _ _ _ _ _ _) as [[c b3]|] eqn:Hc; [|done]. cbn [mbind option_bind].
  intros [= <-] He. apply register_reads in Hc as (Hrd & Hcr & Hru & Hep' & Hk & Hn & Hcond).
  rewrite errs_set_rules in He. destruct (Hrd He) as [He2 Hg].
  destruct (bool_decide (eps = [])) eqn:Heps; [by rewrite errs_error in He2|]. apply bool_decide_eq_false in Heps.
  destruct (Hinv He2 rule_inv) as [Hrefs Hcred]; [apply rule_step_inv|by split|].
  rewrite errs_add, errs_set_rules, orb_false_iff in He2. split; [apply He2|]. intros Hgood.
  destruct (Hg ltac:(apply reads_add; [by rewrite errs_add, errs_set_rules, orb_false_iff|by apply good_set_rules])) as [G1 G2 G3 G4].
  simpl in *. split; simpl; try done.
  - rewrite Hru, Hn.
    apply (listed_snoc rule_ok ru_name ru_order _ _ (mk_rule name eps _ verdict _ _ _ _ _)); [by destruct Hgood| |done|done].
    split; simpl; [done| |done]. unfold eps. case_match; [by apply Forall_take|done].
  - intros Hlen. destruct (G4 Hlen) as [H1 H2]. split; [done|]. intros x d [Hx|Hx]%elem_of_app Hd; [by eapply H2|].
    apply list_elem_of_singleton in Hx as ->. simpl in Hd. by eapply Hcond.
Qed.

(** *** Settings and the body *)

Lemma reads_settings seen st b : reads b (set_settings seen st b).
Proof. apply reads_same; [done|]. intros []. by split. Qed.

Lemma reads_cursor c b : reads b (set_cursor c b).
Proof. apply reads_same; [done|]. intros []. by split. Qed.

Lemma read_audit_reads block line b b' :
  read_audit_settings unicode_lowercase source_lines program block line b = Some b' -> reads b b'.
Proof.
  unfold read_audit_settings. destruct (read_fields _ _ _ _ _ _ _) as [[l b1]|] eqn:Hf; [|done]. cbn [mbind option_bind].
  destruct (read_fields_spec _ _ _ _ _ _ _ Hf) as [[ds ->] _]. intros [= <-].
  eapply reads_trans; [apply reads_add|]. eapply reads_trans; [|apply reads_settings].
  case_match; [apply reads_add|apply reads_refl].
Qed.

Lemma settings_loop_reads line body : forall seen b b',
  settings_loop unicode_lowercase source_lines program line seen body b = Some b' -> reads b b'.
Proof.
  induction body as [|s body IH]; intros seen b b'; cbn [settings_loop]; [intros [= <-]; apply reads_refl|].
  destruct s as [key e|child].
  - intros Hr%IH. eapply reads_trans; [|exact Hr]. case_match; [|apply reads_error].
    destruct (v <- decode_string e ;; parse_terminal_action v); [apply reads_settings|apply reads_error|apply reads_refl].
  - case_match; [destruct seen|].
    + intros Hr%IH. eapply reads_trans; [apply reads_error|exact Hr].
    + destruct (read_audit_settings _ _ _ _ _ _) as [b1|] eqn:Ha; [|done]. cbn [mbind option_bind]. intros Hr%IH.
      eapply reads_trans; [by eapply read_audit_reads|exact Hr].
    + intros Hr%IH. eapply reads_trans; [apply reads_error|exact Hr].
Qed.

Lemma read_block_reads block b b' :
  read_top_level_block unicode_lowercase source_lines program cel_compile cel_execute show_expression block b = Some b' ->
  reads b b'.
Proof.
  unfold read_top_level_block. simpl. set (b1 := set_cursor _ b). intros Hr. apply (reads_trans b b1 b'); [apply reads_cursor|].
  revert Hr. case_match.
  { destruct (block_labels block); [|intros [= <-]; apply reads_error]. case_match; [intros [= <-]; apply reads_error|].
    intros Hr. eapply reads_trans; [apply reads_settings|]. by eapply settings_loop_reads. }
  case_match; [apply read_endpoint_reads|]. case_match; [apply read_credential_reads|]. case_match; [apply read_rule_reads|].
  case_match; intros [= <-]; apply reads_error.
Qed.

Lemma read_body_reads body : forall b b',
  read_body unicode_lowercase source_lines program cel_compile cel_execute show_expression body b = Some b' -> reads b b'.
Proof.
  induction body as [|[key e|block] body IH]; intros b b'; cbn [read_body]; [intros [= <-]; apply reads_refl|..].
  - intros Hr%IH. eapply reads_trans; [apply reads_error|exact Hr].
  - destruct (read_top_level_block _ _ _ _ _ _ _ _) as [b1|] eqn:E; [|done]. cbn [mbind option_bind]. intros Hr%IH.
    eapply reads_trans; [by eapply read_block_reads|exact Hr].
Qed.

Lemma good_new : good (builder_new program).
Proof.
  split; simpl; try (split; [constructor|done|intros x Hx; by apply not_elem_of_nil in Hx|constructor]).
  intros _. split; intros x d Hx; by apply not_elem_of_nil in Hx.
Qed.
End Builder.

(** ** References *)

Lemma collect_map_some {A V} (key : A -> buffer) (val : A -> V) l k v :
  collect_map key val l !! k = Some v -> exists x, x ∈ l /\ key x = k /\ val x = v.
Proof.
  unfold collect_map. induction l as [|x l IH] using rev_ind; [simpl; by rewrite lookup_empty|].
  rewrite foldl_app. simpl. rewrite lookup_insert_Some. intros [[Hk Hv]|[_ H]].
  - exists x. split; [set_solver|done].
  - destruct (IH H) as (y & Hy & ?). exists y. split; [set_solver|done].
Qed.

Lemma credential_diagnostics_ok kinds c : has_errors (credential_diagnostics kinds c) = false ->
  known_credential_kind c.(cr_kind) = true /\ c.(cr_endpoint).(r_kind) = bstr "https" /\
  is_Some (kinds !! ref_key c.(cr_endpoint)).
Proof.
  unfold credential_diagnostics. destruct (known_credential_kind _); [|done].
  destruct (is_str _ _) eqn:Hs; [|done]. apply is_str_true in Hs. simpl. destruct (kinds !! _); [eauto|done].
Qed.

Definition family_of (kind : buffer) : EndpointFamily := if is_str kind "ip" then Ip else Http.

Lemma rule_families_ok kinds subject fam eps f ds : rule_families kinds subject fam eps = (f, ds) ->
  has_errors ds = false ->
  (forall x, fam = Some x -> f = Some x) /\
  (forall r, r ∈ eps -> exists k, kinds !! ref_key r = Some k /\ f = Some (family_of k)).
Proof.
  revert fam f ds. induction eps as [|r eps IH]; intros fam f ds; cbn [rule_families].
  { intros [= <- <-] _. split; [done|]. intros r Hr. by apply not_elem_of_nil in Hr. }
  destruct (kinds !! ref_key r) as [k|] eqn:Hk.
  - fold (family_of k). destruct fam as [ex|].
    + destruct (rule_families kinds subject (Some ex) eps) as [f' ds'] eqn:E. intros [= <- <-].
      rewrite has_errors_app, orb_false_iff. intros [H1 H2]. destruct (IH _ _ _ E H2) as [Hf Hr].
      case_bool_decide as Hx; [|done]. split; [done|]. intros r' [->|Hr']%elem_of_cons; [|by apply Hr].
      exists k. split; [done|]. rewrite <- Hx. by apply Hf.
    + intros E H. destruct (IH _ _ _ E H) as [Hf Hr]. split; [done|]. intros r' [->|Hr']%elem_of_cons; [|by apply Hr].
      exists k. split; [done|]. by apply Hf.
  - destruct (rule_families kinds subject fam eps) as [f' ds']. by intros [= <- <-].
Qed.

(** A rule that draws no error: one family for all its endpoints, HTTP when it has a
    condition or a credential, and the credential bound to one of them. *)
Lemma rule_diagnostics_ok kinds creds r : has_errors (rule_diagnostics kinds creds r) = false -> r.(ru_endpoints) <> [] ->
  exists f, (forall ref, ref ∈ r.(ru_endpoints) -> exists k, kinds !! ref_key ref = Some k /\ f = family_of k) /\
    (is_Some r.(ru_condition) -> f = Http) /\
    (forall c, r.(ru_credential) = Some c -> f = Http /\ exists e, creds !! ref_key c = Some e /\ e ∈ r.(ru_endpoints)).
Proof.
  unfold rule_diagnostics. destruct (rule_families _ _ _ _) as [f ds] eqn:E.
  rewrite !has_errors_app, !orb_false_iff. intros (H1 & H2 & H3) Hne.
  destruct (rule_families_ok _ _ _ _ _ _ E H1) as [_ Hr].
  assert (exists x, f = Some x) as [x ->].
  { destruct (ru_endpoints r) as [|r0 eps]; [done|]. destruct (Hr r0) as (k & _ & ->); [by left|eauto]. }
  exists x. split; [|split].
  - intros ref Href. destruct (Hr _ Href) as (k & ? & [= ->]). eauto.
  - intros Hc. destruct x; [|done]. by rewrite (bool_decide_eq_true_2 (is_Some (ru_condition r))) in H2.
  - intros c Hc. rewrite Hc in H3. destruct (creds !! ref_key c) as [e|]; [|done].
    clear H2. case_bool_decide as Hx; [|done]. simpl in H3. case_bool_decide; [|done]. injection Hx as ->. eauto.
Qed.

(** ** Documents *)

(** A reference names a declared endpoint. *)
Definition resolves (es : list EndpointDecl) (r : Ref) (e : EndpointDecl) : Prop :=
  e ∈ es /\ e.(ep_kind) = r.(r_kind) /\ e.(ep_name) = r.(r_name).

Record document_ok (d : PolicyDocument) : Prop := {
  do_endpoints : Forall endpoint_ok d.(doc_endpoints);
  do_endpoint_keys : NoDup (endpoint_key <$> d.(doc_endpoints));
  do_credential_keys : NoDup (credential_key <$> d.(doc_credentials));
  do_rule_names : NoDup (ru_name <$> d.(doc_rules));
  do_orders : ep_order <$> d.(doc_endpoints) = seq 0 (length d.(doc_endpoints)) /\
    cr_order <$> d.(doc_credentials) = seq 0 (length d.(doc_credentials)) /\
    ru_order <$> d.(doc_rules) = seq 0 (length d.(doc_rules));
  do_credentials : forall c, c ∈ d.(doc_credentials) -> credential_ok c /\ known_credential_kind c.(cr_kind) = true /\
    exists e, resolves d.(doc_endpoints) c.(cr_endpoint) e /\ e.(ep_transport) = HttpsMitm;
  do_rules : forall r, r ∈ d.(doc_rules) -> rule_ok r /\
    exists f, (forall ref, ref ∈ r.(ru_endpoints) -> exists e, resolves d.(doc_endpoints) ref e /\ e.(ep_family) = f) /\
      (is_Some r.(ru_condition) -> f = Http) /\
      (forall cref, r.(ru_credential) = Some cref -> f = Http /\
         exists c, c ∈ d.(doc_credentials) /\ c.(cr_kind) = cref.(r_kind) /\ c.(cr_name) = cref.(r_name) /\
           c.(cr_endpoint) ∈ r.(ru_endpoints)) }.

Lemma known_kind_no_dot kind : known_credential_kind kind = true -> 46 ∉ kind.
Proof.
  unfold known_credential_kind. rewrite !orb_true_iff.
  intros [[[[[H|H]|H]|H]|H]|H]; apply is_str_true in H as ->; by apply (bool_decide_unpack _).
Qed.

Lemma endpoint_kind_no_dot e : endpoint_ok e -> 46 ∉ e.(ep_kind).
Proof.
  intros [_ Hc _ _ _]. unfold endpoint_class in Hc.
  destruct (is_str (ep_kind e) "ip") eqn:H1; [apply is_str_true in H1 as ->; by apply (bool_decide_unpack _)|].
  destruct (is_str (ep_kind e) "http") eqn:H2; [apply is_str_true in H2 as ->; by apply (bool_decide_unpack _)|].
  destruct (is_str (ep_kind e) "https") eqn:H3; [apply is_str_true in H3 as ->; by apply (bool_decide_unpack _)|done].
Qed.

Lemma kinds_resolve es r k : Forall endpoint_ok es -> ref_ok r -> endpoint_kinds es !! ref_key r = Some k ->
  exists e, resolves es r e /\ e.(ep_family) = family_of k /\ endpoint_ok e.
Proof.
  intros Hes [Hk Hn] H. apply collect_map_some in H as (e & He & Hkey & <-).
  pose proof (proj1 (Forall_forall _ _) Hes e He) as Hok. exists e.
  apply dotted_key_inj in Hkey as [Hk' Hn']; [|by apply endpoint_kind_no_dot|by apply identifier_no_dot].
  split; [done|]. split; [|done]. by destruct (endpoint_class_str _ _ _ _ (eo_class _ Hok)) as [-> _].
Qed.

Section Document.
Context (unicode_lowercase : buffer -> buffer) (program : Type) (cel_compile : buffer -> outcome buffer program)
        (cel_execute : program -> HttpConditionContext -> outcome buffer cel_value)
        (iteration : gmap buffer (list CredentialDecl) -> list (buffer * list CredentialDecl)).

Lemma validated_ok (b : DocumentBuilder program) filename : good unicode_lowercase program cel_compile cel_execute b ->
  let b' := validate_references program iteration b in has_errors b'.(b_diagnostics) = false ->
  document_ok (mk_document 1 filename b'.(b_diagnostics) b'.(b_settings) b'.(b_endpoints) b'.(b_credentials) b'.(b_rules)).
Proof.
  intros [[He1 He2 He3 He4] [Hc1 Hc2 Hc3 Hc4] [Hr1 Hr2 Hr3 Hr4] _]. simpl.
  rewrite !has_errors_app, !orb_false_iff. intros (_ & Hcd & _ & Hrd).
  assert (Hcred : forall c, c ∈ b.(b_credentials) -> credential_ok c /\ known_credential_kind c.(cr_kind) = true /\
    exists e, resolves b.(b_endpoints) c.(cr_endpoint) e /\ e.(ep_transport) = HttpsMitm).
  { intros c Hc. pose proof (has_errors_bind _ _ _ Hcd Hc) as H. apply credential_diagnostics_ok in H as (Hk & Hs & k & Hkk).
    pose proof (proj1 (Forall_forall _ _) Hc1 c Hc) as Hok. split; [done|]. split; [done|].
    destruct (kinds_resolve _ _ _ He1 (co_endpoint _ Hok) Hkk) as (e & Hre & _ & Heo). exists e. split; [done|].
    pose proof (eo_class _ Heo) as Hcl. destruct Hre as (_ & Hek & _). rewrite Hek, Hs in Hcl. by injection Hcl. }
  split; simpl; try done.
  intros r Hr. pose proof (has_errors_bind _ _ _ Hrd Hr) as H. pose proof (proj1 (Forall_forall _ _) Hr1 r Hr) as Hok.
  split; [done|]. apply rule_diagnostics_ok in H as (f & Hf & Hcond & Hcr); [|by destruct Hok]. exists f. split; [|split; [done|]].
  - intros ref Href. destruct (Hf _ Href) as (k & Hk & ->).
    destruct (kinds_resolve _ _ _ He1 (proj1 (Forall_forall _ _) (ro_refs _ Hok) ref Href) Hk) as (e & Hre & Hfam & _). eauto.
  - intros cref Hcref. destruct (Hcr _ Hcref) as (Hh & e & Hce & Hin). split; [done|].
    apply collect_map_some in Hce as (c & Hc & Hkey & <-). exists c.
    destruct (Hcred c Hc) as (_ & Hknown & _). destruct (ro_credential _ Hok _ Hcref) as [Hrk _].
    apply dotted_key_inj in Hkey as [Hkk Hnn]; [done|by apply known_kind_no_dot|by apply identifier_no_dot].
Qed.

Context (show_expression : Expression -> buffer) (hcl_parse : buffer -> outcome buffer (list Structure))
        (sha256_hex : buffer -> buffer).

Abbreviation parse := (parse_policy unicode_lowercase program cel_compile cel_execute show_expression iteration hcl_parse sha256_hex).

Lemma parse_inv filename source p : parse filename source = Ok p ->
  exists b, let b' := validate_references program iteration b in
    good unicode_lowercase program cel_compile cel_execute b /\ has_errors b'.(b_diagnostics) = false /\
    p = mk_policy (bstr "sha256:" ++ sha256_hex source)
      [mk_document 1 filename b'.(b_diagnostics) b'.(b_settings) b'.(b_endpoints) b'.(b_credentials) b'.(b_rules)]
      b'.(b_diagnostics) b.(b_conditions).
Proof.
  unfold parse_policy, parse_document. destruct (hcl_parse source) as [body| |]; [|done..].
  destruct (read_body _ _ _ _ _ _ _ _) as [b|] eqn:Hb; [|done]. simpl. destruct (has_errors _) eqn:He; [done|].
  intros [= <-]. exists b. split; [|done]. apply read_body_reads in Hb.
  rewrite has_errors_app, orb_false_iff in He. destruct (Hb (proj1 He)) as [_ Hg]. apply Hg, good_new.
Qed.

(** C38 policy_well_formed: a policy that loads has one document without errors, in
    which endpoints, credentials and rules have distinct names and their positions
    as order, every endpoint has the family, transport and port of its kind with
    ports in range and hosts exactly when it is an HTTP one, every credential is of
    a known kind, has the attributes its kind requires and binds to a declared
    [https] endpoint, and every rule names declared endpoints of a single family,
    with a condition or a credential only on HTTP endpoints and a credential that
    exists and is bound to one of the rule's endpoints. *)
Theorem policy_well_formed filename source p : parse filename source = Ok p ->
  exists d, p.(documents) = [d] /\ d.(doc_filename) = filename /\ has_errors p.(diagnostics) = false /\ document_ok d.
Proof.
  intros H. apply parse_inv in H as (b & Hg & He & ->). eexists. split; [done|]. split; [done|]. split; [done|].
  by apply validated_ok.
Qed.

(** In a loaded policy, evaluating the id a rule or a
    credential carries runs the condition compiled from the very text that was
    declared there (for fewer than [2^32] conditions, the range of the id). *)
Theorem condition_evaluates filename source p d decl : parse filename source = Ok p -> zlen p.(conditions) < 2 ^ 32 ->
  d ∈ p.(documents) ->
  (exists r, r ∈ d.(doc_rules) /\ r.(ru_condition) = Some decl) \/
  (exists c, c ∈ d.(doc_credentials) /\ c.(cr_condition) = Some decl) ->
  exists c, compile_condition unicode_lowercase program cel_compile cel_execute decl.(cd_source) = Ok c /\
    forall ctx, evaluate_http_condition program cel_execute p decl.(cd_id) ctx = evaluate program cel_execute c ctx.
Proof.
  intros H Hlen Hd Hdecl. apply parse_inv in H as (b & [_ _ _ Hc] & _ & ->). simpl in *.
  apply list_elem_of_singleton in Hd as ->. simpl in *. destruct (Hc Hlen) as [H1 H2].
  assert (cond_ok unicode_lowercase program cel_compile cel_execute (b_conditions b) decl) as (Hid & c & Hc' & Hs).
  { destruct Hdecl as [(r & Hr & Hrd)|(cr & Hr & Hrd)]; eauto. }
  exists c. split; [done|]. intros ctx. unfold evaluate_http_condition. simpl. rewrite Hc'.
  destruct (Z.eqb_spec (cd_id decl) 0); [lia|done].
Qed.
End Document.

(** ** Instances *)

Module Sample.
Definition show (e : Expression) : buffer := match e with EString s | ENumber s | EOther s => s | _ => [] end.
Definition attr (key text : string) : Structure := Attribute (bstr key) (EOther (bstr text)).
Definition str (key text : string) : Structure := Attribute (bstr key) (EString (bstr text)).
Definition blk (ident : string) (labels : list string) (body : list Structure) : Structure :=
  SBlock (mk_block (bstr ident) (bstr <$> labels) body).
Definition endpoint (name : string) : Structure :=
  blk "endpoint" ["https"; name]%string [Attribute (bstr "hosts") (EArray [EString (bstr "h.example")])].

Definition body : list Structure :=
  [endpoint "a"; endpoint "b"; endpoint "c";
   blk "credential" ["bearer_token"; "t"]%string [attr "endpoint" "https.a"; str "condition" "http.path == '/x'"];
   blk "rule" ["r"]%string [attr "endpoint" "https.a"; attr "credential" "bearer_token.t"; str "verdict" "allow"];
   blk "rule" ["mixed"]%string
     [Attribute (bstr "endpoints") (EArray [EOther (bstr "https.a"); EOther (bstr "https.b")]);
      attr "endpoint" "https.c"; str "verdict" "deny"]].

(** The parameters: a parser that yields this body, a CEL engine for which every
    condition holds. *)
Definition loads : outcome LoadError (Policy (HttpCondition unit)) :=
  parse_policy (fun s => s) unit (fun _ => Ok tt) (fun _ _ => Ok (VBool true)) show map_to_list (fun _ => Ok body) (fun s => s)
    (bstr "p.hcl") [].
Definition policy : Policy (HttpCondition unit) :=
  match loads with Ok p => p | _ => mk_policy [] [] [] [] end.
Definition document : PolicyDocument := default (mk_document 0 [] [] settings_default [] [] []) (head policy.(documents)).
Definition no_condition : ConditionDecl := mk_cond_decl 0 [].
Definition first_condition : ConditionDecl :=
  default no_condition (c ← head document.(doc_credentials); c.(cr_condition)).

Lemma loads_ok : loads = Ok policy.
Proof. vm_compute. reflexivity. Qed.
End Sample.

Lemma policy_well_formed_witness :
  exists d, Sample.policy.(documents) = [d] /\ d.(doc_filename) = bstr "p.hcl" /\ has_errors Sample.policy.(diagnostics) = false /\
    document_ok d.
Proof.
  apply (policy_well_formed (fun s => s) unit (fun _ => Ok tt) (fun _ _ => Ok (VBool true)) map_to_list Sample.show
    (fun _ => Ok Sample.body) (fun s => s) (bstr "p.hcl") [] Sample.policy).
  exact Sample.loads_ok.
Defined.

Lemma condition_evaluates_witness :
  exists c, compile_condition (fun s => s) unit (fun _ => Ok tt) (fun _ _ => Ok (VBool true)) Sample.first_condition.(cd_source) = Ok c /\
    forall ctx, evaluate_http_condition unit (fun _ _ => Ok (VBool true)) Sample.policy Sample.first_condition.(cd_id) ctx =
      evaluate unit (fun _ _ => Ok (VBool true)) c ctx.
Proof.
  apply (condition_evaluates (fun s => s) unit (fun _ => Ok tt) (fun _ _ => Ok (VBool true)) map_to_list Sample.show
    (fun _ => Ok Sample.body) (fun s => s) (bstr "p.hcl") [] Sample.policy Sample.document Sample.first_condition).
  - exact Sample.loads_ok.
  - vm_compute. reflexivity.
  - vm_compute. left.
  - right. eexists. split; [vm_compute; left|vm_compute; reflexivity].
Defined.

Lemma ports_in_range_witness :
  Forall port_ok [mk_ports 443 443; mk_ports 8000 8080] /\
  exists l, EArray [ENumber (bstr "443"); EString (bstr " 8000 - 8080")] = EArray l /\ length [mk_ports 443 443; mk_ports 8000 8080] = length l.
Proof. apply (ports_in_range (EArray [ENumber (bstr "443"); EString (bstr " 8000 - 8080")])). vm_compute. reflexivity. Defined.

(** The rule [mixed] gives both [endpoints] and [endpoint].  The policy loads without
    a diagnostic and the rule keeps the first endpoint only: the check for using
    both looks for an [endpoint] that comes first. *)
Lemma mixed_endpoints_load :
  Sample.policy.(diagnostics) = [] /\
  (ru_endpoints <$> Sample.document.(doc_rules) !! 1%nat) = Some [mk_ref (bstr "https") (bstr "a")].
Proof. vm_compute. split; reflexivity. Qed.

(** A size whose value exceeds 63 bits is multiplied without a check. *)
Lemma parse_size_overflows : parse_size (fun s => s) (bstr "9223372036854775807kib") = Panic.
Proof. vm_compute. reflexivity. Qed.
