(* ===== verification/OciLayer.v ===== *)
(** * Layers of an OCI image

    [error.rs], [platform.rs], [source.rs], [ext4_writer.rs] and [layer.rs] of
    [runtime/ocidisk], and the choice of a decoder in [store.rs].  [Ext4Writer] wraps the
    formatter of [common/ext4]; a layer is the sequence of entries the [tar] crate yields,
    [None] where it reports an error. *)

From stdpp Require Import base list option numbers strings gmap.
From S2P Require Import Prelude Bytes Utf8 Str Errors Constants Extent FileTree Paths DiskTypes Geometry Formatter Close Unpack.

(** ** [error.rs]; texts that only explain are left out. *)

Inductive OciDiskError : Type :=
| UnsupportedHostArchitecture (arch : buffer)
| InvalidReference (reference : buffer)
| InvalidImageSource (reference : buffer)
| LocalImageSource (reference : buffer)
| UnsupportedTarCompression (reference : buffer)
| OciArchive (message : buffer)
| Registry (reference : buffer)
| UnsupportedDigestAlgorithm (digest : buffer)
| InvalidDigest (digest : buffer)
| LayerDigestMismatch (digest actual : buffer)
| LayerSizeMismatch (digest : buffer) (expected actual : Z)
| MissingPlatform (reference requested : buffer)
| PlatformMismatch (reference requested actual : buffer)
| ImageConfigError (reference : buffer)
| UnsupportedLayerMediaType (media_type : buffer)
| InvalidTarPath (path : buffer)
| InvalidSymlinkTarget (path target : buffer)
| CorruptCacheEntry (path : list buffer)
| Ext4Error (e : FormatError)
| IoError
| JsonError.

(** ** [platform.rs] *)

Record Platform := mk_platform { os : buffer; architecture : buffer; variant : option buffer }.

#[export] Instance platform_eq_dec : EqDecision Platform.
Proof. solve_decision. Defined.

Definition linux_amd64 : Platform := mk_platform (bstr "linux") (bstr "amd64") None.
Definition linux_arm64 : Platform := mk_platform (bstr "linux") (bstr "arm64") None.

Definition host_platform (arch : buffer) : outcome OciDiskError Platform :=
  if bool_decide (arch = bstr "x86_64") || bool_decide (arch = bstr "amd64") then Ok linux_amd64
  else if bool_decide (arch = bstr "aarch64") || bool_decide (arch = bstr "arm64") then Ok linux_arm64
  else Err (UnsupportedHostArchitecture arch).

(** [sanitize_component] replaces characters: a byte that starts a character becomes a
    dash, the others of a longer character disappear. *)
Definition component_char (c : Z) : bool :=
  is_ascii_alphanumeric c || (c =? 46) || (c =? 45) || (c =? 95).
Definition sanitize_component (value : buffer) : buffer :=
  omap (fun c => if component_char c then Some c else if cont c then None else Some 45) value.

Definition cache_key (p : Platform) : buffer :=
  sanitize_component (p.(os) ++ [45] ++ p.(architecture) ++ match p.(variant) with Some v => 45 :: v | None => [] end).

Definition matches_config (p : Platform) (o a : buffer) (v : option buffer) : bool :=
  bool_decide (p.(os) = o) && bool_decide (p.(architecture) = a) &&
  match p.(variant) with Some expected => bool_decide (Some expected = v) | None => true end.

Definition platform_text (p : Platform) : buffer :=
  p.(os) ++ [slash] ++ p.(architecture) ++ match p.(variant) with Some v => slash :: v | None => [] end.

(** ** [source.rs] *)

Inductive ImageSource : Type :=
| RemoteOci (reference : buffer)
| LocalDisk (path : buffer)
| RootfsTar (path : buffer)
| OciArchiveFile (path : buffer).

Definition parse_local_path (reference path : buffer) : outcome OciDiskError buffer :=
  if bool_decide (trim path = []) then Err (InvalidImageSource reference) else Ok path.

Definition parse_source (image_ref : buffer) : outcome OciDiskError ImageSource :=
  let image_ref := trim image_ref in
  if bool_decide (image_ref = []) then Err (InvalidImageSource image_ref)
  else match strip_prefix (bstr "disk:") image_ref with
  | Some path => p <- parse_local_path image_ref path ;; Ok (LocalDisk p)
  | None =>
  match strip_prefix (bstr "tar:") image_ref with
  | Some path => p <- parse_local_path image_ref path ;; Ok (RootfsTar p)
  | None =>
  match strip_prefix (bstr "oci:") image_ref with
  | Some path => p <- parse_local_path image_ref path ;; Ok (OciArchiveFile p)
  | None => Ok (RemoteOci image_ref)
  end end end.

(** ** [ext4_writer.rs] *)

(** A writer is the formatter it wraps. *)
Definition Wr (A : Type) : Type := Formatter -> outcome OciDiskError A * Formatter.
Definition wret {A} (a : A) : Wr A := fun s => (Ok a, s).
Definition wfail {A} (e : OciDiskError) : Wr A := fun s => (Err e, s).
Definition wbind {A B} (m : Wr A) (k : A -> Wr B) : Wr B := fun s =>
  match m s with
  | (Ok a, s) => k a s
  | (Err e, s) => (Err e, s)
  | (Panic, s) => (Panic, s)
  end.
Definition wtry {A} (o : outcome OciDiskError A) : Wr A := fun s => (o, s).
Notation "x <- m ;;; k" := (wbind m (fun x => k))
  (at level 20, m at level 99, k at level 200, right associativity) : bento_scope.

(** [.map_err(OciDiskError::ext4)] *)
Definition ext4 {A} (m : M A) : Wr A := fun s =>
  match m s with
  | (Ok a, s) => (Ok a, s)
  | (Err e, s) => (Err (Ext4Error e), s)
  | (Panic, s) => (Panic, s)
  end.

Definition mode_bits (mode : Z) : Z := wrap 16 (Z.land mode 0xFFF).

(** [FormatOptions::new] *)
Definition writer_create (clock : nat -> Z * Z) (size_bytes : Z) : outcome OciDiskError Formatter :=
  match with_options clock (options_new size_bytes) with
  | Ok s => Ok s
  | Err e => Err (Ext4Error e)
  | Panic => Panic
  end.

Section Layer.
Context (clock : nat -> Z * Z).

Definition mkdir_p (path : buffer) (mode uid gid : Z) : Wr unit :=
  ext4 (create_path clock path (make_mode file_mode.S_IFDIR (mode_bits mode)) None None None (Some uid) (Some gid) None).
Definition write_file (path : buffer) (mode uid gid : Z) (data : list buffer) : Wr unit :=
  ext4 (create_path clock path (make_mode file_mode.S_IFREG (mode_bits mode)) None None (Some data) (Some uid) (Some gid) None).
Definition symlink (path target : buffer) (uid gid : Z) : Wr unit :=
  ext4 (create_path clock path (make_mode file_mode.S_IFLNK 0x1FF) (Some target) None None (Some uid) (Some gid) None).
Definition writer_link (path target : buffer) : Wr unit := ext4 (link clock path target).
Definition delete_path (path : buffer) : Wr unit := ext4 (unlink_path clock path false).
Definition clear_dir (path : buffer) : Wr unit := ext4 (unlink_path clock path true).
Definition finish (new_v4 : buffer) : Wr unit := ext4 (close clock new_v4).

(** ** [layer.rs] *)

Definition has_nul (s : buffer) : bool := existsb (Z.eqb 0) s.

(** One component of [sanitize_entry_path]: the name, nothing to skip it, or an error. *)
Definition clean_component (path c : buffer) : outcome OciDiskError (option buffer) :=
  if bool_decide (c = root_path) || bool_decide (c = dot) then Ok None
  else if bool_decide (c = bstr "..") then Err (InvalidTarPath path)
  else if negb (utf8_valid c) then Err (InvalidTarPath path)
  else if has_nul c then Err (InvalidTarPath path)
  else Ok (Some c).

Fixpoint clean_components (path : buffer) (cs : list buffer) : outcome OciDiskError (list buffer) :=
  match cs with
  | [] => Ok []
  | c :: cs =>
      r <- clean_component path c ;;
      rest <- clean_components path cs ;;
      Ok (match r with Some name => name :: rest | None => rest end)
  end.

Definition sanitize_entry_path (path : buffer) : outcome OciDiskError buffer :=
  clean <- clean_components path (components path) ;;
  Ok (match clean with [] => root_path | _ => concat ((fun name => slash :: name) <$> clean) end).

Inductive Whiteout : Type := Delete (path : buffer) | Opaque (path : buffer).

(** [basename], [parent_of] and [join] *)
Definition layer_basename (path : buffer) : option buffer :=
  let name := match rcut path with Some (_, name) => name | None => path end in
  match name with [] => None | _ => Some name end.
Definition layer_parent (path : buffer) : buffer :=
  match rcut path with Some ([], _) | None => root_path | Some (pre, _) => pre end.
Definition layer_join (parent name : buffer) : buffer :=
  if bool_decide (parent = root_path) then slash :: name else parent ++ slash :: name.

Definition parse_whiteout (path : buffer) : option Whiteout :=
  name ← layer_basename path;
  if bool_decide (name = bstr ".wh..wh..opq") then Some (Opaque (layer_parent path))
  else
    deleted ← strip_prefix (bstr ".wh.") name;
    match deleted with [] => None | _ => Some (Delete (layer_join (layer_parent path) deleted)) end.

Definition link_name (e : entry) (path : buffer) : outcome OciDiskError buffer :=
  match e.(e_link_name) with
  | Err _ => Err IoError
  | Panic => Panic
  | Ok None => Err (InvalidSymlinkTarget path [])
  | Ok (Some target) =>
      if negb (utf8_valid target) then Err (InvalidSymlinkTarget path (from_utf8_lossy target))
      else if has_nul target then Err (InvalidSymlinkTarget path target)
      else Ok target
  end.

(** An entry that is no whiteout. *)
Definition apply_entry_type (path : buffer) (e : entry) : Wr unit :=
  let mode := default 0x1A4 e.(e_mode) in
  let uid := wrap 32 (default 0 e.(e_uid)) in
  let gid := wrap 32 (default 0 e.(e_gid)) in
  match e.(e_type) with
  | Regular => write_file path mode uid gid e.(e_data)
  | Directory => mkdir_p path mode uid gid
  | Symlink => target <- wtry (link_name e path) ;;; symlink path target uid gid
  | Link =>
      target <- wtry (link_name e path) ;;;
      target <- wtry (sanitize_entry_path target) ;;;
      writer_link path target
  | _ => wret tt
  end.

Definition apply_layer_entry (e : entry) : Wr unit :=
  raw_path <- wtry (match e.(e_path) with Ok p => Ok p | Err _ => Err IoError | Panic => Panic end) ;;;
  path <- wtry (sanitize_entry_path raw_path) ;;;
  if bool_decide (path = root_path) then wret tt
  else match parse_whiteout path with
       | Some (Delete path) => delete_path path
       | Some (Opaque path) => clear_dir path
       | None => apply_entry_type path e
       end.

Fixpoint apply_layer (archive : list (option entry)) : Wr unit :=
  match archive with
  | [] => wret tt
  | None :: _ => wfail IoError
  | Some e :: archive => _ <- apply_layer_entry e ;;; apply_layer archive
  end.
End Layer.

(** ** Decoders, in [store.rs] *)

Inductive MediaType : Type :=
| OciLayer | OciLayerNondistributable
| OciLayerGzip | DockerLayerGzip | OciLayerNondistributableGzip
| OciLayerZstd | OciLayerNondistributableZstd
| OtherMedia (value : buffer).

Inductive encoding : Type := Plain | Gzip | Zstd.

(** [layer_reader_from_read]; whether a zstd decoder can be made is up to its library. *)
Definition layer_encoding (zstd_ok : bool) (media_type : MediaType) : outcome OciDiskError encoding :=
  match media_type with
  | OciLayer | OciLayerNondistributable => Ok Plain
  | OciLayerGzip | DockerLayerGzip | OciLayerNondistributableGzip => Ok Gzip
  | OciLayerZstd | OciLayerNondistributableZstd => if zstd_ok then Ok Zstd else Err IoError
  | OtherMedia value =>
      if bool_decide (value = bstr "application/vnd.docker.image.rootfs.diff.tar") then Ok Plain
      else Err (UnsupportedLayerMediaType value)
  end.

(** ** Paths of entries *)

Section EntryPaths.
Implicit Types (path c : buffer).

(** What a component of a sanitized path is: a name, and no way up. *)
Definition clean_name (c : buffer) : Prop := name_ok c /\ c <> bstr ".." /\ utf8_valid c = true /\ has_nul c = false.

Lemma split_slash_no_slash path : Forall no_slash (split_slash path).
Proof.
  induction path as [|c path IH]; simpl; [by repeat constructor|]. destruct (Z.eqb_spec c slash); [by repeat constructor|].
  destruct (split_slash path); [by repeat constructor|]. apply Forall_cons in IH as [Hs Hss].
  constructor; [by constructor|done].
Qed.

Lemma components_names path c : c ∈ components path -> c = root_path \/ c = dot \/ name_ok c.
Proof.
  unfold components. rewrite !elem_of_app. intros [Hc|[Hc|[Hk Hc]%list_elem_of_filter]].
  - left. destruct path as [|x path]; [by apply elem_of_nil in Hc|]. destruct (x =? slash); set_solver.
  - right. left. destruct (split_slash path) as [|s ss]; [by apply elem_of_nil in Hc|]. case_bool_decide; set_solver.
  - right. right. pose proof (split_slash_no_slash path) as Hn. rewrite Forall_forall in Hn. unfold kept in Hk.
    apply andb_true_iff in Hk as [H1%negb_true_iff%bool_decide_eq_false H2%negb_true_iff%bool_decide_eq_false].
    split_and!; [by apply Hn|done|done].
Qed.

Lemma clean_components_ok path cs names : clean_components path cs = Ok names ->
  (forall c, c ∈ cs -> c = root_path \/ c = dot \/ name_ok c) -> Forall clean_name names.
Proof.
  revert names. induction cs as [|c cs IH]; intros names; simpl; [by intros [= <-]|].
  unfold clean_component. destruct (_ || _) eqn:Es.
  - cbn [obind]. intros (rest & Hr & [= <-])%obind_ok_inv Hc. apply IH; [done|]. set_solver.
  - apply orb_false_iff in Es as [E1%bool_decide_eq_false E2%bool_decide_eq_false].
    case_bool_decide as Ed; [done|]. destruct (utf8_valid c) eqn:Eu; [cbn [negb]|done]. destruct (has_nul c) eqn:En; [done|].
    cbn [obind]. intros (rest & Hr & [= <-])%obind_ok_inv Hc. constructor; [|apply IH; [done|set_solver]].
    split; [|done]. destruct (Hc c) as [|[|]]; [set_solver|done..].
Qed.

Lemma clean_components_clean path names : Forall clean_name names -> clean_components path names = Ok names.
Proof.
  induction 1 as [|c names (Hn & Hd & Hu & Hz) _ IH]; [done|]. simpl. unfold clean_component.
  rewrite (bool_decide_eq_false_2 (c = root_path)), (bool_decide_eq_false_2 (c = dot)), (bool_decide_eq_false_2 (c = bstr ".."));
    [|done|by destruct Hn as (_ & _ & ?)|].
  - cbn [orb]. rewrite Hu, Hz. cbn [negb obind]. by rewrite IH.
  - intros ->. destruct Hn as [Hn _]. by apply Forall_cons in Hn as [Hn _].
Qed.
End EntryPaths.

(** The path that [sanitize_entry_path] makes of an entry is
    absolute, below the root: its components are the root and names that are neither [.] nor
    [..], without slashes and NUL bytes, and valid UTF-8; and it is its own sanitized form. *)
Theorem sanitize_entry_path_contained path out : sanitize_entry_path path = Ok out ->
  exists names, out = abs_path names /\ components out = root_path :: names /\ Forall clean_name names /\
    sanitize_entry_path out = Ok out.
Proof.
  unfold sanitize_entry_path at 1. intros (names & Hc & [= <-])%obind_ok_inv. fold (abs_path names). exists names.
  apply clean_components_ok in Hc; [|apply components_names].
  assert (Hk : components (abs_path names) = root_path :: names).
  { apply components_abs. eapply Forall_impl; [done|]. by intros c [? _]. }
  split_and!; [done|done|done|]. unfold sanitize_entry_path. rewrite Hk. cbn [clean_components].
  change (clean_component (abs_path names) root_path) with (@Ok OciDiskError (option buffer) None).
  cbn [obind]. by rewrite clean_components_clean.
Qed.

Lemma sanitize_entry_path_contained_witness :
  sanitize_entry_path (bstr "./etc//passwd") = Ok (bstr "/etc/passwd") /\
  exists names, bstr "/etc/passwd" = abs_path names /\ Forall clean_name names.
Proof.
  split; [vm_compute; reflexivity|].
  destruct (sanitize_entry_path_contained (bstr "./etc//passwd") (bstr "/etc/passwd")) as (names & Hn & _ & Hc & _);
    [vm_compute; reflexivity|]. exists names. split; [exact Hn|exact Hc].
Defined.
