(* ===== verification/HostFs.v ===== *)
(** * The file system of the host

    What [std::fs] does, as far as the code uses it.  Paths are lists of
    components, a disk maps them to files and directories.  Every operation may fail: it
    consumes an element of a schedule of faults, and one that is [Some k] makes it fail
    after [k] steps of its work (bytes written, directories made).  Renaming is atomic.
    A host also has what its clock will say, reading after reading, and counts the requests it
    sends to registries. *)

From Stdlib Require Import ZArith Lia.
From stdpp Require Import base list option numbers strings gmap.
From S2P Require Import Prelude Bytes.

Abbreviation path := (list buffer).

Inductive node : Type := FsFile (data : buffer) | FsDir.

Record host := mk_host { h_disk : gmap path node; h_faults : list (option nat); h_times : list Z; h_requests : nat }.

Definition put_disk (m : gmap path node) (h : host) : host := mk_host m h.(h_faults) h.(h_times) h.(h_requests).

(** How an operation of [std::fs] fails. *)
Inductive io_error : Type := IoNotFound | IoExists | IoOther.

(** ** Paths *)

Fixpoint strip_path (a k : path) : option path :=
  match a, k with
  | [], _ => Some k
  | x :: a, y :: k => if bool_decide (x = y) then strip_path a k else None
  | _ :: _, [] => None
  end.
Definition under (a k : path) : bool := bool_decide (is_Some (strip_path a k)).
Definition parent (p : path) : path := removelast p.
Fixpoint prefixes (p : path) : list path :=
  match p with
  | [] => []
  | c :: p => [c] :: ((fun q => c :: q) <$> prefixes p)
  end.

(** ** Operations *)

Definition fs (A : Type) : Type := host -> (A + io_error) * host.

(** The next element of the schedule. *)
Definition next_fault (h : host) : option nat * host :=
  match h.(h_faults) with
  | [] => (None, h)
  | f :: fl => (f, mk_host h.(h_disk) fl h.(h_times) h.(h_requests))
  end.

(** An operation that changes the disk: what it does, and what it does when it fails after
    [k] steps. *)
Definition attempt (fail : nat -> gmap path node -> gmap path node)
    (act : gmap path node -> gmap path node + io_error) : fs unit := fun h =>
  let '(f, h) := next_fault h in
  match f with
  | Some k => (inr IoOther, put_disk (fail k h.(h_disk)) h)
  | None =>
      match act h.(h_disk) with
      | inl m => (inl tt, put_disk m h)
      | inr e => (inr e, h)
      end
  end.

(** An operation that only looks. *)
Definition look {A} (act : gmap path node -> A + io_error) : fs A := fun h =>
  let '(f, h) := next_fault h in
  match f with
  | Some _ => (inr IoOther, h)
  | None => (act h.(h_disk), h)
  end.

Definition is_dir_at (m : gmap path node) (p : path) : bool := match m !! p with Some FsDir => true | _ => false end.

(** Directories for all prefixes; a file in the way is an error. *)
Definition add_dirs (ps : list path) (m : gmap path node) : gmap path node :=
  foldr (fun p m => match m !! p with Some _ => m | None => <[p := FsDir]> m end) m ps.
Definition create_dir_all (p : path) : fs unit :=
  attempt (fun k => add_dirs (take k (prefixes p)))
    (fun m => if forallb (fun q => match m !! q with Some (FsFile _) => false | _ => true end) (prefixes p)
              then inl (add_dirs (prefixes p) m) else inr IoOther).

Definition create_dir (p : path) : fs unit :=
  attempt (fun _ m => m)
    (fun m => match m !! p with
              | Some _ => inr IoExists
              | None => if is_dir_at m (parent p) then inl (<[p := FsDir]> m) else inr IoNotFound
              end).

(** A file can be written at [p]. *)
Definition writable (m : gmap path node) (p : path) : option io_error :=
  match m !! p with
  | Some FsDir => Some IoOther
  | Some (FsFile _) => None
  | None => if is_dir_at m (parent p) then None else Some IoNotFound
  end.
Definition data_at (m : gmap path node) (p : path) : buffer :=
  match m !! p with Some (FsFile b) => b | _ => [] end.
Definition when_writable (p : path) (m : gmap path node) (data : buffer) : gmap path node :=
  match writable m p with None => <[p := FsFile data]> m | Some _ => m end.

(** [fs::write] *)
Definition write (p : path) (data : buffer) : fs unit :=
  attempt (fun k m => when_writable p m (take k data))
    (fun m => match writable m p with None => inl (<[p := FsFile data]> m) | Some e => inr e end).

(** [File::write_all] on a file opened at its end. *)
Definition append (p : path) (data : buffer) : fs unit :=
  attempt (fun k m => when_writable p m (data_at m p ++ take k data))
    (fun m => match writable m p with None => inl (<[p := FsFile (data_at m p ++ data)]> m) | Some e => inr e end).

(** [OpenOptions] with [create], and [truncate] or not. *)
Definition open_file (p : path) (truncate : bool) : fs unit :=
  attempt (fun k m => match k with
                      | O => m
                      | S _ => when_writable p m (if truncate then [] else data_at m p)
                      end)
    (fun m => match writable m p with
              | None => inl (<[p := FsFile (if truncate then [] else data_at m p)]> m)
              | Some e => inr e
              end).

Definition read_file (p : path) : fs buffer :=
  look (fun m => match m !! p with Some (FsFile b) => inl b | Some FsDir => inr IoOther | None => inr IoNotFound end).
Definition metadata (p : path) : fs node :=
  look (fun m => match m !! p with Some n => inl n | None => inr IoNotFound end).

(** [Path::exists] and [Path::is_file] take an error for an answer. *)
Definition exists_at (p : path) : fs bool := fun h =>
  let '(f, h) := next_fault h in
  (inl (match f with Some _ => false | None => bool_decide (is_Some (h.(h_disk) !! p)) end), h).
Definition is_file_at (p : path) : fs bool := fun h =>
  let '(f, h) := next_fault h in
  (inl (match f with
        | Some _ => false
        | None => match h.(h_disk) !! p with Some (FsFile _) => true | _ => false end
        end), h).

Definition remove_file (p : path) : fs unit :=
  attempt (fun _ m => m)
    (fun m => match m !! p with
              | Some (FsFile _) => inl (delete p m)
              | Some FsDir => inr IoOther
              | None => inr IoNotFound
              end).

(** [fs::remove_dir_all]; a failure leaves part of the directory. *)
Definition remove_dir_all (p : path) : fs unit :=
  attempt (fun k m => foldr delete m (take k (filter (fun q => under p q = true) (map_to_list m).*1)))
    (fun m => match m !! p with
              | Some FsDir => inl (filter (fun kv => under p kv.1 = false) m)
              | Some (FsFile _) => inr IoOther
              | None => inr IoNotFound
              end).

(** The renaming of everything under [a]; what was under [b] is gone before. *)
Definition swap_path (a b k : path) : path :=
  match strip_path a k with
  | Some r => b ++ r
  | None => match strip_path b k with Some r => a ++ r | None => k end
  end.
Definition move_tree (a b : path) (m : gmap path node) : gmap path node :=
  kmap (swap_path a b) (filter (fun kv => under b kv.1 = false) m).

(** [fs::rename]: a file replaces a file, a directory an empty directory. *)
Definition rename (a b : path) : fs unit :=
  attempt (fun _ m => m)
    (fun m =>
       match m !! a with
       | None => inr IoNotFound
       | Some (FsFile d) =>
           match writable m b with None => inl (<[b := FsFile d]> (delete a m)) | Some e => inr e end
       | Some FsDir =>
           if under a b || under b a then inr IoOther
           else if negb (is_dir_at m (parent b)) then inr IoNotFound
           else match m !! b with
                | Some (FsFile _) => inr IoOther
                | Some FsDir =>
                    if forallb (fun q => negb (under b q) || bool_decide (q = b)) (map_to_list m).*1
                    then inl (move_tree a b m) else inr IoOther
                | None => inl (move_tree a b m)
                end
       end).

(** ** What operations leave alone *)

(** A program keeps the part of the disk that [Z] selects, whatever its result. *)
Definition keeps {A} (Z : path -> Prop) (m : host -> A * host) : Prop :=
  forall h k, Z k -> (m h).2.(h_disk) !! k = h.(h_disk) !! k.

Lemma next_fault_disk h f h' : next_fault h = (f, h') -> h'.(h_disk) = h.(h_disk).
Proof. unfold next_fault. intros H. by destruct h.(h_faults); simplify_eq. Qed.

Lemma attempt_keeps (Z : path -> Prop) fail act :
  (forall n m k, Z k -> fail n m !! k = m !! k) ->
  (forall m m' k, Z k -> act m = inl m' -> m' !! k = m !! k) -> keeps Z (attempt fail act).
Proof.
  intros Hf Ha h k HZ. unfold attempt. destruct (next_fault h) as [f h'] eqn:E. apply next_fault_disk in E.
  rewrite <- E. destruct f as [n|]; simpl; [by apply Hf|].
  destruct (act _) as [m|e] eqn:Ea; simpl; [by eapply Ha|done].
Qed.

Lemma look_keeps {A} (Z : path -> Prop) (act : gmap path node -> A + io_error) : keeps Z (look act).
Proof.
  intros h k _. unfold look. destruct (next_fault h) as [f h'] eqn:E. apply next_fault_disk in E. rewrite <- E.
  by destruct f.
Qed.

Lemma add_dirs_lookup ps m k : k ∉ ps -> add_dirs ps m !! k = m !! k.
Proof.
  induction ps as [|p ps IH]; simpl; [done|]. intros [Hk Hp]%not_elem_of_cons. rewrite <- IH by done.
  destruct (add_dirs ps m !! p) eqn:E; [done|]. by rewrite lookup_insert_ne.
Qed.

(** Making directories never replaces anything. *)
Lemma add_dirs_kept ps m k n : m !! k = Some n -> add_dirs ps m !! k = Some n.
Proof.
  intros H. induction ps as [|p ps IH]; simpl; [done|]. destruct (add_dirs ps m !! p) eqn:E; [done|].
  rewrite lookup_insert_ne; [done|]. intros ->. congruence.
Qed.

Lemma add_dirs_made ps m k : k ∈ ps -> is_Some (add_dirs ps m !! k).
Proof.
  induction ps as [|p ps IH]; simpl; [by intros ?%elem_of_nil|]. intros [->|Hk]%elem_of_cons.
  - destruct (add_dirs ps m !! p) eqn:E; [by rewrite E|]. by rewrite lookup_insert_eq.
  - destruct (add_dirs ps m !! p) eqn:E; [by apply IH|]. destruct (decide (p = k)) as [->|Hne].
    + by rewrite lookup_insert_eq.
    + rewrite lookup_insert_ne by done. by apply IH.
Qed.

Lemma when_writable_ne p m b k : k <> p -> when_writable p m b !! k = m !! k.
Proof. intros Hk. unfold when_writable. destruct (writable m p); [done|]. by rewrite lookup_insert_ne. Qed.

Section Keeps.
Context (Z : path -> Prop).

Lemma create_dir_all_keeps p : (forall k, Z k -> k ∉ prefixes p) -> keeps Z (create_dir_all p).
Proof.
  intros H. apply attempt_keeps.
  - intros n m k HZ. apply add_dirs_lookup. intros Hk. apply (H k HZ).
    by eapply subseteq_take.
  - intros m m' k HZ. destruct (forallb _ _); [|done]. intros [= <-]. apply add_dirs_lookup. auto.
Qed.

Lemma create_dir_keeps p : ~ Z p -> keeps Z (create_dir p).
Proof.
  intros H. apply attempt_keeps; [done|]. intros m m' k HZ. destruct (m !! p); [done|].
  destruct (is_dir_at _ _); [|done]. intros [= <-]. rewrite lookup_insert_ne; [done|]. by intros ->.
Qed.

Lemma write_keeps p b : ~ Z p -> keeps Z (write p b).
Proof.
  intros H. apply attempt_keeps.
  - intros n m k HZ. apply when_writable_ne. by intros ->.
  - intros m m' k HZ. destruct (writable m p); [done|]. intros [= <-]. rewrite lookup_insert_ne; [done|]. by intros ->.
Qed.

Lemma append_keeps p b : ~ Z p -> keeps Z (append p b).
Proof.
  intros H. apply attempt_keeps.
  - intros n m k HZ. apply when_writable_ne. by intros ->.
  - intros m m' k HZ. destruct (writable m p); [done|]. intros [= <-]. rewrite lookup_insert_ne; [done|]. by intros ->.
Qed.

Lemma open_file_keeps p t : ~ Z p -> keeps Z (open_file p t).
Proof.
  intros H. apply attempt_keeps.
  - intros [|n] m k HZ; [done|]. apply when_writable_ne. by intros ->.
  - intros m m' k HZ. destruct (writable m p); [done|]. intros [= <-]. rewrite lookup_insert_ne; [done|]. by intros ->.
Qed.

Lemma remove_file_keeps p : ~ Z p -> keeps Z (remove_file p).
Proof.
  intros H. apply attempt_keeps; [done|]. intros m m' k HZ. destruct (m !! p) as [[]|]; try done.
  intros [= <-]. rewrite lookup_delete_ne; [done|]. by intros ->.
Qed.

Lemma exists_at_keeps p : keeps Z (exists_at p).
Proof. intros h k _. unfold exists_at. destruct (next_fault h) as [f h'] eqn:E. simpl. by erewrite next_fault_disk. Qed.

Lemma is_file_at_keeps p : keeps Z (is_file_at p).
Proof. intros h k _. unfold is_file_at. destruct (next_fault h) as [f h'] eqn:E. simpl. by erewrite next_fault_disk. Qed.

Lemma remove_dir_all_keeps p : (forall k, Z k -> under p k = false) -> keeps Z (remove_dir_all p).
Proof.
  intros H. apply attempt_keeps.
  - intros n m k HZ. assert (Hk : k ∉ take n (filter (fun q => under p q = true) (map_to_list m).*1)).
    { intros Hk%subseteq_take%list_elem_of_filter. destruct Hk as [Hk _]. rewrite H in Hk by done. done. }
    revert Hk. generalize (take n (filter (fun q => under p q = true) (map_to_list m).*1)). intros l.
    induction l as [|q l IH]; simpl; [done|]. intros [Hq Hl]%not_elem_of_cons. rewrite lookup_delete_ne by done. auto.
  - intros m m' k HZ. destruct (m !! p) as [[|]|]; [done| |done]. intros [= <-]. rewrite map_lookup_filter.
    destruct (m !! k) as [n|]; simpl; [|done]. by rewrite option_guard_True by (simpl; auto).
Qed.
End Keeps.

(** ** Paths *)

Lemma strip_path_spec a k r : strip_path a k = Some r <-> k = a ++ r.
Proof.
  revert k. induction a as [|x a IH]; intros k; simpl; [by split; [intros [= ->]|intros ->]|].
  destruct k as [|y k]; [done|]. case_bool_decide as E; [subst|].
  - rewrite IH. split; [by intros ->|by intros [= ->]].
  - split; [done|]. by intros [= -> _].
Qed.

Lemma under_spec a k : under a k = true <-> exists r, k = a ++ r.
Proof.
  unfold under. rewrite bool_decide_eq_true. split.
  - intros [r Hr%strip_path_spec]. eauto.
  - intros [r Hr%strip_path_spec]. eauto.
Qed.

Lemma strip_path_none a k : under a k = false <-> strip_path a k = None.
Proof. unfold under. rewrite bool_decide_eq_false, <- eq_None_not_Some. done. Qed.

Lemma prefixes_spec p k : k ∈ prefixes p -> k <> [] /\ exists r, p = k ++ r.
Proof.
  revert k. induction p as [|c p IH]; intros k; simpl; [by intros ?%elem_of_nil|].
  intros [->|(q & -> & Hq)%list_elem_of_fmap]%elem_of_cons; [split; [done|by exists p]|].
  destruct (IH q Hq) as [_ [r ->]]. split; [done|by exists r].
Qed.

Lemma prefixes_self p : p <> [] -> p ∈ prefixes p.
Proof.
  induction p as [|c p IH]; [done|]. intros _. simpl. destruct p as [|d p]; [by apply list_elem_of_singleton|].
  apply elem_of_cons. right. apply list_elem_of_fmap. exists (d :: p). split; [done|]. by apply IH.
Qed.

(** ** Renaming *)

Section Rename.
Context (a b : path).
Context (Hab : under a b = false) (Hba : under b a = false).

Lemma apart_app r s : a ++ r <> b ++ s.
Proof.
  intros E. destruct (prefix_weak_total a b (a ++ r)) as [[t Ht]|[t Ht]]; [by exists r|by exists s; rewrite E| |].
  - apply (not_true_iff_false (under a b)) in Hab. apply Hab. apply under_spec. eauto.
  - apply (not_true_iff_false (under b a)) in Hba. apply Hba. apply under_spec. eauto.
Qed.

Lemma under_apart r : under b (a ++ r) = false.
Proof. apply not_true_iff_false. intros [s Hs]%under_spec. by apply apart_app in Hs. Qed.

Lemma swap_path_from r : swap_path a b (a ++ r) = b ++ r.
Proof. unfold swap_path. by rewrite (proj2 (strip_path_spec a (a ++ r) r) eq_refl). Qed.

Lemma swap_path_to r : swap_path a b (b ++ r) = a ++ r.
Proof.
  unfold swap_path. destruct (strip_path a (b ++ r)) as [s|] eqn:E.
  - apply strip_path_spec in E. symmetry in E. by apply apart_app in E.
  - by rewrite (proj2 (strip_path_spec b (b ++ r) r) eq_refl).
Qed.

Lemma swap_path_else k : under a k = false -> under b k = false -> swap_path a b k = k.
Proof. intros Ha%strip_path_none Hb%strip_path_none. unfold swap_path. by rewrite Ha, Hb. Qed.

Lemma swap_path_swap k : swap_path a b (swap_path a b k) = k.
Proof.
  destruct (under a k) eqn:Ha.
  - apply under_spec in Ha as [r ->]. by rewrite swap_path_from, swap_path_to.
  - destruct (under b k) eqn:Hb.
    + apply under_spec in Hb as [r ->]. by rewrite swap_path_to, swap_path_from.
    + by rewrite !swap_path_else; rewrite ?swap_path_else.
Qed.

#[local] Instance swap_path_inj : Inj eq eq (swap_path a b).
Proof. intros x y E. by rewrite <- (swap_path_swap x), E, swap_path_swap. Qed.

Lemma move_tree_lookup m k :
  move_tree a b m !! k = if under b (swap_path a b k) then None else m !! swap_path a b k.
Proof.
  unfold move_tree. rewrite <- (swap_path_swap k) at 1. rewrite (lookup_kmap (swap_path a b)).
  rewrite map_lookup_filter. destruct (m !! swap_path a b k) as [n|]; simpl; [|by case_match].
  by destruct (under b (swap_path a b k)).
Qed.

Lemma move_tree_there m r : move_tree a b m !! (b ++ r) = m !! (a ++ r).
Proof. by rewrite move_tree_lookup, swap_path_to, under_apart. Qed.

Lemma move_tree_elsewhere m k : under a k = false -> under b k = false -> move_tree a b m !! k = m !! k.
Proof. intros Ha Hb. rewrite move_tree_lookup, swap_path_else by done. by rewrite Hb. Qed.
End Rename.

Lemma rename_keeps (Z : path -> Prop) a b : (forall k, Z k -> under a k = false /\ under b k = false) -> keeps Z (rename a b).
Proof.
  intros H. assert (Hne : forall k, Z k -> k <> a /\ k <> b).
  { intros k HZ. destruct (H k HZ) as [Ha Hb]. split; intros ->.
    - apply (not_true_iff_false (under a a)) in Ha. apply Ha. apply under_spec. exists []. by rewrite app_nil_r.
    - apply (not_true_iff_false (under b b)) in Hb. apply Hb. apply under_spec. exists []. by rewrite app_nil_r. }
  apply attempt_keeps; [done|]. intros m m' k HZ. destruct (H k HZ) as [Ha Hb]. destruct (Hne k HZ) as [Na Nb].
  destruct (m !! a) as [[d|]|]; [| |done].
  - destruct (writable m b); [done|]. intros [= <-]. by rewrite lookup_insert_ne, lookup_delete_ne.
  - destruct (under a b || under b a) eqn:E; [done|]. apply orb_false_iff in E as [E1 E2].
    destruct (negb _); [done|].
    destruct (m !! b) as [[]|]; [done| |]; [destruct (forallb _ _); [|done]|];
      intros [= <-]; by apply move_tree_elsewhere.
Qed.
