(* ===== verification/HostProg.v ===== *)
(** * Programs on a host

    Code that changes a state and may fail: an error monad.  For programs that use the file
    system of the host, what such a program leaves alone ([keeps]), what holds when it ends,
    whichever operations fail ([triple]), and what it does when none of them fails
    ([total]). *)

From stdpp Require Import base list option numbers strings gmap.
From S2P Require Import Prelude Bytes HostFs.

(** A program on a state [S] that may fail with an [E]; the state is that of every outcome. *)
Definition sprog (S E A : Type) : Type := S -> outcome E A * S.
Abbreviation prog := (sprog host).

Section Effects.
Context {S E : Type}.
Definition sret {A} (a : A) : sprog S E A := fun h => (Ok a, h).
Definition sfail {A} (e : E) : sprog S E A := fun h => (Err e, h).
Definition sbind {A B} (m : sprog S E A) (k : A -> sprog S E B) : sprog S E B := fun h =>
  match m h with
  | (Ok a, h) => k a h
  | (Err e, h) => (Err e, h)
  | (Panic, h) => (Panic, h)
  end.
Definition stry {A} (o : outcome E A) : sprog S E A := fun h => (o, h).
End Effects.

Section Programs.
Context {E : Type}.

(** [?] on a result of [std::fs], with the conversion of its error. *)
Definition io_as {A} (conv : io_error -> E) (m : fs A) : prog E A := fun h =>
  match m h with
  | (inl a, h) => (Ok a, h)
  | (inr e, h) => (Err (conv e), h)
  end.
(** The result itself, for code that matches on it. *)
Definition io_result {A} (m : fs A) : prog E (A + io_error) := fun h => let '(r, h) := m h in (Ok r, h).

(** The clock, and a request, which gets the next number. *)
Definition now_nanos : prog E Z := fun h =>
  match h.(h_times) with
  | [] => (Ok 0, h)
  | t :: ts => (Ok t, mk_host h.(h_disk) h.(h_faults) ts h.(h_requests))
  end.
Definition request {A} (f : nat -> A) : prog E A := fun h =>
  (Ok (f h.(h_requests)), mk_host h.(h_disk) h.(h_faults) h.(h_times) (S h.(h_requests))).
End Programs.

Notation "x <-- m ;; k" := (sbind m (fun x => k))
  (at level 20, m at level 99, k at level 200, right associativity) : bento_scope.

Create HintDb store.
#[export] Hint Resolve exists_at_keeps is_file_at_keeps look_keeps : store.

(** ** Parts of the disk that programs keep *)

Section KeepsPrograms.
Context {Er : Type} (Z : path -> Prop).

Lemma sret_keeps {A} (a : A) : keeps Z (@sret host Er A a).
Proof. done. Qed.
Lemma sfail_keeps {A} e : keeps Z (@sfail host Er A e).
Proof. done. Qed.
Lemma stry_keeps {A} (o : outcome Er A) : keeps Z (stry o).
Proof. done. Qed.
Lemma request_keeps {A} (f : nat -> A) : keeps Z (@request Er A f).
Proof. done. Qed.
Lemma now_nanos_keeps : keeps Z (@now_nanos Er).
Proof. intros h k _. unfold now_nanos. by destruct h.(h_times). Qed.

Lemma sbind_keeps {A B} (m : prog Er A) (k : A -> prog Er B) : keeps Z m -> (forall a, keeps Z (k a)) -> keeps Z (sbind m k).
Proof.
  intros Hm Hk h p Hp. unfold sbind. specialize (Hm h p Hp). destruct (m h) as [[a|e|] h'] eqn:E; simpl in *; [|done..].
  by rewrite (Hk a h' p Hp).
Qed.

Lemma keeps_ok {A B} (a : A) (k : A -> prog Er B) : keeps Z (k a) -> keeps Z (sbind (stry (Ok a)) k).
Proof. done. Qed.

Lemma io_as_keeps {A} (conv : io_error -> Er) (m : fs A) : keeps Z m -> keeps Z (io_as conv m).
Proof. intros Hm h k Hk. unfold io_as. specialize (Hm h k Hk). by destruct (m h) as [[]]. Qed.
Lemma io_result_keeps {A} (m : fs A) : keeps Z m -> keeps Z (@io_result Er A m).
Proof. intros Hm h k Hk. unfold io_result. specialize (Hm h k Hk). by destruct (m h) as [? ?]. Qed.
End KeepsPrograms.

#[export] Hint Resolve sret_keeps sfail_keeps stry_keeps request_keeps now_nanos_keeps : store.
#[export] Hint Resolve io_as_keeps io_result_keeps : store.

(** One step through a program that keeps a part of the disk. *)
Ltac keeps_step :=
  match goal with
  | |- keeps _ (sbind _ _) => apply sbind_keeps; [|intros ?]
  | |- keeps _ (match ?x with _ => _ end) => destruct x
  | |- keeps _ (if ?x then _ else _) => destruct x
  | |- keeps _ (let _ := _ in _) => cbv zeta
  | |- keeps _ _ => solve [eauto with store nocore]
  end.
Ltac keeps_tac := repeat keeps_step.

(** ** Results *)

(** What a program does from a state: [Q] for the value it returns, [E] otherwise. *)
Definition wp {Er A : Type} (E : gmap path node -> Prop) (m : prog Er A) (Q : A -> gmap path node -> Prop) (h : host) : Prop :=
  match m h with
  | (Ok a, h) => Q a h.(h_disk)
  | (_, h) => E h.(h_disk)
  end.
(** From every host with a disk like that. *)
Definition triple {Er A : Type} (E P : gmap path node -> Prop) (m : prog Er A) (Q : A -> gmap path node -> Prop) : Prop :=
  forall h, P h.(h_disk) -> wp E m Q h.

Section Triples.
Context {Er : Type} (E : gmap path node -> Prop).

Lemma triple_bind {A B : Type} (P : gmap path node -> Prop) (m : prog Er A) (Q : A -> gmap path node -> Prop) (k : A -> prog Er B) R :
  triple E P m Q -> (forall a, triple E (Q a) (k a) R) -> triple E P (sbind m k) R.
Proof.
  intros Hm Hk h Hh. specialize (Hm h Hh). unfold wp, sbind in *. destruct (m h) as [[a|e|] h'] eqn:Em; [|done..].
  by apply Hk.
Qed.

Lemma triple_ret {A : Type} (P : gmap path node -> Prop) (a : A) (Q : A -> gmap path node -> Prop) :
  (forall d, P d -> Q a d) -> triple E P (@sret host Er A a) Q.
Proof. intros H h Hh. by apply H. Qed.

Lemma triple_fail {A : Type} (P : gmap path node -> Prop) (e : Er) (Q : A -> gmap path node -> Prop) :
  (forall d, P d -> E d) -> triple E P (sfail e) Q.
Proof. intros H h Hh. by apply H. Qed.

Lemma triple_try {A : Type} (P : gmap path node -> Prop) (o : outcome Er A) :
  (forall d, P d -> E d) -> triple E P (stry o) (fun a d => P d /\ o = Ok a).
Proof. intros H h Hh. unfold wp, stry. destruct o; auto. Qed.

Lemma triple_ok {A B : Type} (P : gmap path node -> Prop) (a : A) (k : A -> prog Er B) Q :
  triple E P (k a) Q -> triple E P (sbind (stry (Ok a)) k) Q.
Proof. done. Qed.

Lemma triple_weaken {A : Type} (P P' : gmap path node -> Prop) (m : prog Er A) (Q Q' : A -> gmap path node -> Prop) :
  triple E P' m Q' -> (forall d, P d -> P' d) -> (forall a d, Q' a d -> Q a d) -> triple E P m Q.
Proof.
  intros Hm HP HQ h Hh. specialize (Hm h (HP _ Hh)). unfold wp in *. destruct (m h) as [[a|e|] h'] eqn:Em; auto.
Qed.

(** A program that leaves alone what [P] is about. *)
Lemma triple_keeps {A : Type} (Z : path -> Prop) (P : gmap path node -> Prop) (m : prog Er A) :
  keeps Z m -> (forall d d', (forall k, Z k -> d' !! k = d !! k) -> P d -> P d') -> (forall d, P d -> E d) ->
  triple E P m (fun _ d => P d).
Proof.
  intros Hm HP HE h Hh. assert (P (m h).2.(h_disk)) as HP'; [by eapply HP; [apply Hm|]|].
  unfold wp. destruct (m h) as [[a|e|] h'] eqn:Em; simpl in *; auto.
Qed.

Lemma triple_same {A : Type} (P : gmap path node -> Prop) (m : prog Er A) :
  keeps (fun _ => True) m -> (forall d, P d -> E d) -> triple E P m (fun _ => P).
Proof. intros Hm. eapply triple_keeps; [done|]. intros d d' Hs Hd. by rewrite (map_eq d' d) by auto. Qed.

Lemma triple_exists (P : gmap path node -> Prop) (conv : io_error -> Er) p : (forall d, P d -> E d) ->
  triple E P (io_as conv (exists_at p)) (fun e d => P d /\ (e = true -> is_Some (d !! p))).
Proof.
  intros HE h Hh. unfold wp, io_as, exists_at. destruct (next_fault h) as [f h'] eqn:En. apply next_fault_disk in En.
  rewrite <- En in Hh. simpl. split; [done|]. destruct f; [done|]. by intros ?%bool_decide_eq_true.
Qed.

Lemma triple_pure {A : Type} (P : gmap path node -> Prop) (F : Prop) (m : prog Er A) Q :
  (F -> triple E P m Q) -> triple E (fun d => P d /\ F) m Q.
Proof. intros H h [Hh HF]. by apply H. Qed.

Lemma triple_attempt (P : gmap path node -> Prop) (fail : nat -> gmap path node -> gmap path node)
    (act : gmap path node -> gmap path node + io_error) (Q : unit -> gmap path node -> Prop) (conv : io_error -> Er) :
  (forall n d, P d -> E (fail n d)) -> (forall d e, P d -> act d = inr e -> E d) ->
  (forall d d', P d -> act d = inl d' -> Q tt d') -> triple E P (io_as conv (attempt fail act)) Q.
Proof.
  intros Hf He Ha h Hh. unfold wp, io_as, attempt. destruct (next_fault h) as [f h'] eqn:En.
  apply next_fault_disk in En. rewrite <- En in Hh. destruct f as [n|]; simpl; [by apply Hf|].
  destruct (act (h_disk h')) as [m|e] eqn:Ea; simpl; eauto.
Qed.

Lemma triple_look {A : Type} (P : gmap path node -> Prop) (act : gmap path node -> A + io_error) (Q : A -> gmap path node -> Prop) (conv : io_error -> Er) :
  (forall d, P d -> E d) -> (forall d a, P d -> act d = inl a -> Q a d) -> triple E P (io_as conv (look act)) Q.
Proof.
  intros He Ha h Hh. unfold wp, io_as, look. destruct (next_fault h) as [f h'] eqn:En.
  apply next_fault_disk in En. rewrite <- En in Hh. destruct f as [n|]; simpl; [by apply He|].
  destruct (act (h_disk h')) as [a|e] eqn:Ea; simpl; eauto.
Qed.

Lemma triple_attempt_result (P : gmap path node -> Prop) (fail : nat -> gmap path node -> gmap path node)
    (act : gmap path node -> gmap path node + io_error) (Q : unit + io_error -> gmap path node -> Prop) :
  (forall n d, P d -> Q (inr IoOther) (fail n d)) -> (forall d e, P d -> act d = inr e -> Q (inr e) d) ->
  (forall d d', P d -> act d = inl d' -> Q (inl tt) d') -> triple E P (@io_result Er unit (attempt fail act)) Q.
Proof.
  intros Hf He Ha h Hh. unfold wp, io_result, attempt. destruct (next_fault h) as [f h'] eqn:En.
  apply next_fault_disk in En. rewrite <- En in Hh. destruct f as [n|]; simpl; [by apply Hf|].
  destruct (act (h_disk h')) as [m|e] eqn:Ea; simpl; eauto.
Qed.

Lemma triple_look_result {A : Type} (P : gmap path node -> Prop) (act : gmap path node -> A + io_error) :
  triple E P (@io_result Er A (look act)) (fun r d => P d /\ forall a, r = inl a -> act d = inl a).
Proof.
  intros h Hh. unfold wp, io_result, look. destruct (next_fault h) as [f h'] eqn:En.
  apply next_fault_disk in En. rewrite <- En in Hh. destruct f as [n|]; simpl; split; try done.
Qed.
End Triples.

(** Nothing appears in a part of the disk. *)
Definition shrinks (Z : path -> Prop) (d d' : gmap path node) : Prop :=
  forall k n, Z k -> d' !! k = Some n -> d !! k = Some n.

Lemma same_shrinks (Z : path -> Prop) (d d' : gmap path node) : (forall k, Z k -> d' !! k = d !! k) -> shrinks Z d d'.
Proof. intros Hs k n Hk. by rewrite Hs. Qed.

Lemma delete_shrinks (Z : path -> Prop) (d : gmap path node) p : shrinks Z d (delete p d).
Proof. intros k n _ [_ Hn]%lookup_delete_Some. done. Qed.

(** ** Runs without faults *)

Definition total {Er A : Type} (P : gmap path node -> Prop) (m : prog Er A) (Q : A -> gmap path node -> Prop)
    (R : Er -> gmap path node -> Prop) : Prop :=
  forall h, h.(h_faults) = [] -> P h.(h_disk) ->
    match m h with
    | (Ok a, h') => h'.(h_faults) = [] /\ Q a h'.(h_disk)
    | (Err e, h') => h'.(h_faults) = [] /\ R e h'.(h_disk)
    | (Panic, _) => False
    end.

Section Total.
Context {Er : Type} (R : Er -> gmap path node -> Prop).

Lemma total_bind {A B : Type} (P : gmap path node -> Prop) (m : prog Er A) (Q : A -> gmap path node -> Prop) (k : A -> prog Er B) S :
  total P m Q R -> (forall a, total (Q a) (k a) S R) -> total P (sbind m k) S R.
Proof.
  intros Hm Hk h Hf Hp. specialize (Hm h Hf Hp). unfold sbind. destruct (m h) as [[a|e|] h']; [|done..].
  destruct Hm. by apply Hk.
Qed.

Lemma total_ret {A : Type} (P : gmap path node -> Prop) (a : A) (Q : A -> gmap path node -> Prop) :
  (forall d, P d -> Q a d) -> total P (@sret host Er A a) Q R.
Proof. intros Hq h Hf Hp. simpl. auto. Qed.

Lemma total_fail {A : Type} (P : gmap path node -> Prop) (e : Er) (Q : A -> gmap path node -> Prop) :
  (forall d, P d -> R e d) -> total P (sfail e) Q R.
Proof. intros Hq h Hf Hp. simpl. auto. Qed.

Lemma total_ok {A B : Type} (P : gmap path node -> Prop) (a : A) (k : A -> prog Er B) Q :
  total P (k a) Q R -> total P (sbind (stry (Ok a)) k) Q R.
Proof. done. Qed.

Lemma total_and {A : Type} (P : gmap path node -> Prop) (F : Prop) (m : prog Er A) Q :
  (F -> total P m Q R) -> total (fun d => P d /\ F) m Q R.
Proof. intros Hm h Hf [Hp HF]. by apply Hm. Qed.

Lemma total_exists {A Y : Type} (P : Y -> gmap path node -> Prop) (m : prog Er A) Q :
  (forall y, total (P y) m Q R) -> total (fun d => exists y, P y d) m Q R.
Proof. intros Hm h Hf [y Hp]. by apply (Hm y). Qed.

Lemma total_or {A : Type} (P P' : gmap path node -> Prop) (m : prog Er A) Q :
  total P m Q R -> total P' m Q R -> total (fun d => P d \/ P' d) m Q R.
Proof. intros Hm Hm' h Hf [Hp|Hp]; [by apply Hm|by apply Hm']. Qed.

Lemma total_weaken {A : Type} (P P' : gmap path node -> Prop) (m : prog Er A) (Q Q' : A -> gmap path node -> Prop) :
  total P' m Q' R -> (forall d, P d -> P' d) -> (forall a d, Q' a d -> Q a d) -> total P m Q R.
Proof.
  intros Hm HP HQ h Hf Hp. specialize (Hm h Hf (HP _ Hp)). destruct (m h) as [[a|e|] h']; naive_solver.
Qed.

Lemma next_fault_none h : h.(h_faults) = [] -> next_fault h = (None, h).
Proof. unfold next_fault. by intros ->. Qed.

Lemma total_attempt (P : gmap path node -> Prop) (fail : nat -> gmap path node -> gmap path node)
    (act : gmap path node -> gmap path node + io_error) (Q : unit -> gmap path node -> Prop) (conv : io_error -> Er) :
  (forall d, P d -> exists d', act d = inl d' /\ Q tt d') -> total P (io_as conv (attempt fail act)) Q R.
Proof.
  intros Ha h Hf Hp. unfold io_as, attempt. rewrite next_fault_none by done.
  destruct (Ha _ Hp) as (d' & -> & Hq). by split.
Qed.

Lemma total_look {A : Type} (P : gmap path node -> Prop) (act : gmap path node -> A + io_error) (Q : A -> gmap path node -> Prop) (conv : io_error -> Er) :
  (forall d, P d -> exists a, act d = inl a /\ Q a d) -> total P (io_as conv (look act)) Q R.
Proof.
  intros Ha h Hf Hp. unfold io_as, look. rewrite next_fault_none by done. destruct (Ha _ Hp) as (a & -> & Hq). by split.
Qed.

Lemma total_attempt_result (P : gmap path node -> Prop) (fail : nat -> gmap path node -> gmap path node)
    (act : gmap path node -> gmap path node + io_error) (Q : unit + io_error -> gmap path node -> Prop) :
  (forall d, P d -> match act d with inl d' => Q (inl tt) d' | inr e => Q (inr e) d end) ->
  total P (io_result (attempt fail act)) Q R.
Proof.
  intros Ha h Hf Hp. unfold io_result, attempt. rewrite next_fault_none by done. specialize (Ha _ Hp).
  by destruct (act (h_disk h)).
Qed.

Lemma total_look_result {A : Type} (P : gmap path node -> Prop) (act : gmap path node -> A + io_error) :
  total P (io_result (look act)) (fun r d => P d /\ r = act d) R.
Proof. intros h Hf Hp. unfold io_result, look. by rewrite next_fault_none. Qed.

Lemma total_look_known {A : Type} (P : gmap path node -> Prop) (act : gmap path node -> A + io_error) v :
  (forall d, P d -> act d = v) -> total P (io_result (look act)) (fun r d => P d /\ r = v) R.
Proof. intros Hv h Hf Hp. unfold io_result, look. rewrite next_fault_none by done. by rewrite Hv. Qed.

Lemma total_request {A : Type} (P : gmap path node -> Prop) (f : nat -> A) : total P (request f) (fun a d => P d /\ exists n, a = f n) R.
Proof. intros h Hf Hp. simpl. eauto. Qed.

End Total.

(** ** Directories *)

Definition no_file (ps : list path) (d : gmap path node) : Prop :=
  forall q b, q ∈ ps -> d !! q <> Some (FsFile b).

Lemma add_dirs_no_file ps qs d : no_file qs d -> no_file qs (add_dirs ps d).
Proof.
  intros Hn q b Hq. induction ps as [|p ps IH]; simpl; [by apply Hn|]. destruct (add_dirs ps d !! p) eqn:E; [done|].
  intros [[_ ?]|[_ ?]]%lookup_insert_Some; done.
Qed.

Lemma add_dirs_dir ps d p : p ∈ ps -> no_file ps d -> add_dirs ps d !! p = Some FsDir.
Proof.
  intros Hp Hn. destruct (add_dirs_made ps d p Hp) as [[b|] E]; [|done].
  by destruct (add_dirs_no_file ps ps d Hn p b Hp).
Qed.

Lemma create_dir_all_total {Er : Type} (R : Er -> gmap path node -> Prop) (P : gmap path node -> Prop) (Q : unit -> gmap path node -> Prop)
    (conv : io_error -> Er) p :
  (forall d, P d -> no_file (prefixes p) d /\ Q tt (add_dirs (prefixes p) d)) -> total P (io_as conv (create_dir_all p)) Q R.
Proof.
  intros HP. apply total_attempt. intros d Hd. destruct (HP d Hd) as [Hn Hq].
  assert (forallb (fun q => match d !! q with Some (FsFile _) => false | _ => true end) (prefixes p) = true) as ->.
  { apply forallb_forall. intros q Hq'%list_elem_of_In. specialize (Hn q). destruct (d !! q) as [[b|]|]; [|done..].
    by destruct (Hn b). }
  eauto.
Qed.

Lemma writable_file d p b : d !! p = Some (FsFile b) -> writable d p = None.
Proof. unfold writable. by intros ->. Qed.
Lemma writable_dir d p : d !! p <> Some FsDir -> d !! parent p = Some FsDir -> writable d p = None.
Proof. unfold writable, is_dir_at. intros Hp ->. by destruct (d !! p) as [[]|]. Qed.
