(* ===== verification/OciResolve.v ===== *)
(** * Resolving an image

    [registry.rs] and [oci_archive.rs] of [runtime/ocidisk]: which manifest of an index
    fits the platform, which layers it has, and the same for an archive on disk.  The
    registry client and the parsers of manifests and configurations are arguments. *)

From stdpp Require Import base list option numbers strings gmap.
From S2P Require Import Prelude Bytes Utf8 Str Paths Unpack OciLayer.

(** ** [registry.rs] *)

Record ResolvedLayer := mk_layer { digest : buffer; media_type : buffer; size_bytes : Z; diff_id : buffer }.
Record ResolvedManifest := mk_resolved {
  r_reference : buffer; manifest_digest : buffer; config_digest : buffer; r_layers : list ResolvedLayer }.

(** The parts of the types of [oci_client] and of the image configuration that are read. *)
Record ImageIndexEntry := mk_index_entry { ie_digest : buffer; ie_platform : option (buffer * buffer * option buffer) }.
Record OciDescriptor := mk_descriptor { d_media_type : buffer; d_digest : buffer; d_size : Z }.
Record OciImageManifest := mk_manifest { m_config : OciDescriptor; m_layers : list OciDescriptor }.
Inductive OciManifest := ManifestImage (m : OciImageManifest) | ManifestIndex (l : list ImageIndexEntry).
Record ImageConfig := mk_config { c_architecture : buffer; c_os : buffer; c_variant : option buffer; c_diff_ids : list buffer }.

Definition entry_matches (platform : Platform) (entry : ImageIndexEntry) : bool :=
  match entry.(ie_platform) with
  | None => false
  | Some (o, a, v) =>
      bool_decide (o = platform.(os)) && bool_decide (a = platform.(architecture)) &&
      match platform.(variant) with Some variant => bool_decide (v = Some variant) | None => true end
  end.
Definition select_platform_descriptor (reference : buffer) (manifests : list ImageIndexEntry) (platform : Platform)
    : outcome OciDiskError ImageIndexEntry :=
  ok_or (List.find (entry_matches platform) manifests) (MissingPlatform reference (platform_text platform)).

Definition validate_config_platform (reference : buffer) (requested : Platform) (config : ImageConfig)
    : outcome OciDiskError unit :=
  if matches_config requested config.(c_os) config.(c_architecture) config.(c_variant) then Ok tt
  else Err (PlatformMismatch reference (platform_text requested)
              (platform_text (mk_platform config.(c_os) config.(c_architecture) config.(c_variant)))).

Fixpoint resolved_layers (reference : buffer) (layers : list OciDescriptor) (diff_ids : list buffer)
    : outcome OciDiskError (list ResolvedLayer) :=
  match layers, diff_ids with
  | layer :: layers, diff_id :: diff_ids =>
      if layer.(d_size) <? 0 then Err (ImageConfigError reference)
      else
        rest <- resolved_layers reference layers diff_ids ;;
        Ok (mk_layer layer.(d_digest) layer.(d_media_type) layer.(d_size) diff_id :: rest)
  | _, _ => Ok []
  end.

(** [layer_descriptor] *)
Definition layer_descriptor (layer : ResolvedLayer) : OciDescriptor :=
  mk_descriptor layer.(media_type) layer.(digest) (Z.min layer.(size_bytes) (2 ^ 63 - 1)).

(** A stream of the client: its chunks, [None] where it breaks off. *)
Abbreviation stream := (list (option buffer)).
Fixpoint stream_bytes (s : stream) : outcome OciDiskError buffer :=
  match s with
  | [] => Ok []
  | None :: _ => Err IoError
  | Some chunk :: s => rest <- stream_bytes s ;; Ok (chunk ++ rest)
  end.

Section Resolve.
(** The client: a manifest with its digest, the stream of a blob; and the parser of
    configurations.  [clone_with_digest] builds the reference of a manifest. *)
Context (pull_manifest : buffer -> option (OciManifest * buffer)) (pull_blob_stream : buffer -> OciDescriptor -> option stream)
        (with_digest : buffer -> buffer -> buffer) (parse_config : buffer -> option ImageConfig).

(** The manifest of one image, through an index if there is one. *)
Definition select_manifest (reference : buffer) (platform : Platform)
    : outcome OciDiskError (buffer * OciImageManifest * buffer) :=
  ' (manifest, digest) <- ok_or (pull_manifest reference) (Registry reference) ;;
  match manifest with
  | ManifestImage manifest => Ok (reference, manifest, digest)
  | ManifestIndex manifests =>
      descriptor <- select_platform_descriptor reference manifests platform ;;
      let manifest_reference := with_digest reference descriptor.(ie_digest) in
      ' (selected, selected_digest) <- ok_or (pull_manifest manifest_reference) (Registry reference) ;;
      match selected with
      | ManifestImage manifest => Ok (manifest_reference, manifest, selected_digest)
      | ManifestIndex _ => Err (ImageConfigError reference)
      end
  end.

Definition pull_blob_bytes (reference : buffer) (descriptor : OciDescriptor) (requested_ref : buffer)
    : outcome OciDiskError buffer :=
  s <- ok_or (pull_blob_stream reference descriptor) (Registry requested_ref) ;; stream_bytes s.

Definition resolve_manifest (reference : buffer) (platform : Platform) : outcome OciDiskError ResolvedManifest :=
  ' (manifest_reference, manifest, digest) <- select_manifest reference platform ;;
  config_bytes <- pull_blob_bytes manifest_reference manifest.(m_config) reference ;;
  config <- ok_or (parse_config config_bytes) (ImageConfigError reference) ;;
  _ <- validate_config_platform reference platform config ;;
  if negb (bool_decide (length config.(c_diff_ids) = length manifest.(m_layers))) then Err (ImageConfigError reference)
  else
    layers <- resolved_layers reference manifest.(m_layers) config.(c_diff_ids) ;;
    Ok (mk_resolved manifest_reference digest manifest.(m_config).(d_digest) layers).
End Resolve.

(** ** [oci_archive.rs] *)

Record LocalOciLayer := mk_local_layer { l_media_type : MediaType; l_bytes : buffer }.
Record LocalOciImage := mk_local { a_manifest_digest : buffer; a_config_digest : buffer; a_layers : list LocalOciLayer }.

(** [archive_entry_path] differs from [sanitize_entry_path] in its errors and its form. *)
Definition archive_entry_path (path : buffer) : outcome OciDiskError buffer :=
  match clean_components path (components path) with
  | Ok [] | Err _ => Err (OciArchive (bstr "archive entry path"))
  | Ok (name :: rest) => Ok (name ++ concat ((fun name => slash :: name) <$> rest))
  | Panic => Panic
  end.

(** [read_archive_entries]: the regular files, the last one of a name. *)
Fixpoint read_archive_entries (archive : list (option entry)) (files : gmap buffer buffer)
    : outcome OciDiskError (gmap buffer buffer) :=
  match archive with
  | [] => Ok files
  | None :: _ => Err (OciArchive (bstr "entry"))
  | Some e :: archive =>
      match e.(e_type) with
      | Regular =>
          raw <- match e.(e_path) with Ok p => Ok p | Err _ => Err IoError | Panic => Panic end ;;
          entry_path <- archive_entry_path raw ;;
          read_archive_entries archive (<[entry_path := concat e.(e_data)]> files)
      | _ => read_archive_entries archive files
      end
  end.

(** [blob_bytes]; [PathBuf::join] on components that are not absolute. *)
Definition blob_bytes (entries : gmap buffer buffer) (digest : buffer) : outcome OciDiskError buffer :=
  match split_once 58 digest with
  | None => Err (OciArchive digest)
  | Some (algorithm, encoded) =>
      ok_or (entries !! from_utf8_lossy (push (push (bstr "blobs") algorithm) encoded)) (OciArchive digest)
  end.

Section Archive.
(** The parsers of [containerregistry_image]: the digests of an index; the configuration
    and the layers of a manifest; the platform of a configuration. *)
Context (index_of : buffer -> option (list buffer)) (manifest_of : buffer -> option (buffer * list (buffer * MediaType)))
        (config_of : buffer -> option Platform).

Fixpoint archive_layers (entries : gmap buffer buffer) (layers : list (buffer * MediaType))
    : outcome OciDiskError (list LocalOciLayer) :=
  match layers with
  | [] => Ok []
  | (digest, media_type) :: layers =>
      bytes <- blob_bytes entries digest ;;
      rest <- archive_layers entries layers ;;
      Ok (mk_local_layer media_type bytes :: rest)
  end.

(** The loop over the manifests of the index: the first whose platform fits. *)
Fixpoint find_manifest (reference : buffer) (platform : Platform) (entries : gmap buffer buffer) (manifests : list buffer)
    : outcome OciDiskError LocalOciImage :=
  match manifests with
  | [] => Err (MissingPlatform reference (platform_text platform))
  | digest :: manifests =>
      manifest_bytes <- blob_bytes entries digest ;;
      ' (config_digest, layers) <- ok_or (manifest_of manifest_bytes) (OciArchive digest) ;;
      config_bytes <- blob_bytes entries config_digest ;;
      config <- ok_or (config_of config_bytes) (OciArchive config_digest) ;;
      if negb (matches_config platform config.(os) config.(architecture) config.(variant))
      then find_manifest reference platform entries manifests
      else
        layers <- archive_layers entries layers ;;
        Ok (mk_local digest config_digest layers)
  end.

Definition read_oci_archive (archive : list (option entry)) (reference : buffer) (platform : Platform)
    : outcome OciDiskError LocalOciImage :=
  entries <- read_archive_entries archive ∅ ;;
  index_bytes <- ok_or (entries !! bstr "index.json") (OciArchive (bstr "index.json")) ;;
  manifests <- ok_or (index_of index_bytes) (OciArchive (bstr "index.json")) ;;
  find_manifest reference platform entries manifests.
End Archive.
