(* ===== verification/OciStore.v ===== *)
(** * The image store

    [store.rs] and [lock.rs] of [runtime/ocidisk]: layers are downloaded into a blob
    directory, unpacked into an ext4 image in a staging directory, and the directory is
    renamed into the cache.  Progress events, which no decision depends on, are left out.
    What the libraries do (hashes, JSON, decoders, the registry) is the class [Deps].

    The store runs one operation after the other: what a download does between two awaits
    concerns only files of its own digest, whose lock it holds. *)

From stdpp Require Import base list option numbers strings gmap pretty.
From S2P Require Import Prelude Bytes Utf8 Str Errors Paths Geometry Formatter Close Unpack OciLayer HostFs HostProg OciResolve.

(** ** Data *)

Record RootfsOptions := mk_rootfs_options { o_platform : Platform; disk_size_bytes : Z }.

Inductive RootfsImageSource : Type := FromOciRegistry | FromDisk | FromTar | FromOciArchive.

#[export] Instance rootfs_image_source_eq_dec : EqDecision RootfsImageSource.
Proof. solve_decision. Defined.

Record RootfsImage := mk_image {
  i_path : path; i_image_ref : buffer; i_image_id : buffer; i_platform : Platform; i_source : RootfsImageSource }.

Record ImageMetadata := mk_metadata {
  md_version : Z; md_image_ref : buffer; md_image_id : buffer; md_source : RootfsImageSource;
  md_manifest_digest : option buffer; md_config_digest : option buffer; md_layers : list ResolvedLayer;
  md_platform : Platform; md_filesystem : buffer; md_rootfs_file : buffer; md_created_at_unix : Z }.

Record ManifestMetadata := mk_manifest_metadata {
  mm_version : Z; mm_image_ref : buffer; mm_resolved_reference : buffer; mm_manifest_digest : buffer;
  mm_config_digest : buffer; mm_platform : Platform; mm_layers : list ResolvedLayer; mm_resolved_at_unix : Z }.

Record TagRecord := mk_tag {
  t_image_ref : buffer; t_platform : Platform; t_manifest_digest : buffer; t_updated_at_unix : Z }.
Record StoreIndex := mk_index { si_version : Z; si_tags : gmap buffer TagRecord }.
Definition index_default : StoreIndex := mk_index 1 ∅.

Record LayerBlob := mk_blob { b_index : nat; b_layer : ResolvedLayer; b_path : path }.

Inductive BlobResponse : Type := Partial (s : stream) | Full (s : stream).

(** ** What the libraries do *)

Class Deps := {
  (** [sha2], [serde_json], and [Display] of a path *)
  sha256 : buffer -> buffer;
  metadata_json : ImageMetadata -> buffer; metadata_of : buffer -> option ImageMetadata;
  manifest_json : ManifestMetadata -> buffer;
  index_json : StoreIndex -> buffer; index_of : buffer -> option StoreIndex;
  (** [Path::canonicalize], [to_string_lossy], and the length of a directory *)
  canonicalize : buffer -> option path; path_text : path -> buffer; dir_len : Z;
  (** the process, the clock and the identifiers of the ext4 formatter *)
  process_id : Z; ext4_clock : nat -> Z * Z; new_v4 : buffer;
  (** the archive in a decoded stream, media types, the zstd decoder *)
  tar_entries : encoding -> buffer -> list (option entry);
  media_type_from_str : buffer -> option MediaType; zstd_ok : bool;
  archive_index : buffer -> option (list buffer);
  archive_manifest : buffer -> option (buffer * list (buffer * MediaType));
  archive_config : buffer -> option Platform;
  (** the registry, whose answers may change from request to request *)
  reference_from_str : buffer -> option (buffer * option buffer);
  pull_manifest : nat -> buffer -> option (OciManifest * buffer);
  with_digest : buffer -> buffer -> buffer; config_from_slice : buffer -> option ImageConfig;
  pull_blob_stream : nat -> buffer -> OciDescriptor -> option stream;
  pull_blob_stream_partial : nat -> buffer -> OciDescriptor -> Z -> Z -> option BlobResponse }.

(** ** Programs of the store *)

Abbreviation St := (prog OciDiskError).
(** [?] on a result of [std::fs] *)
Definition io {A} (m : fs A) : St A := io_as (fun _ => IoError) m.

Definition now_unix : St Z := t <-- now_nanos ;; sret (Z.min (t / 1000000000) (2 ^ 63 - 1)).

(** ** Digests and names *)

Definition is_ascii_hexdigit (c : Z) : bool := is_ascii_digit c || in_range 65 70 c || in_range 97 102 c.

Definition digest_path_components (digest : buffer) : outcome OciDiskError (buffer * buffer) :=
  match split_once 58 digest with
  | None => Err (InvalidDigest digest)
  | Some (algorithm, encoded) =>
      if negb (bool_decide (algorithm = bstr "sha256")) then Err (UnsupportedDigestAlgorithm digest)
      else if negb (bool_decide (length encoded = 64%nat)) || negb (forallb is_ascii_hexdigit encoded)
      then Err (InvalidDigest digest)
      else Ok (sanitize_component algorithm, sanitize_component (to_ascii_lowercase <$> encoded))
  end.

Definition image_id_path_component (image_id : buffer) : outcome OciDiskError buffer :=
  match split_once 58 image_id with
  | None => Err (CorruptCacheEntry [image_id])
  | Some (algorithm, encoded) =>
      match algorithm, encoded with
      | [], _ | _, [] => Err (CorruptCacheEntry [image_id])
      | _, _ => Ok (sanitize_component algorithm ++ [45] ++ sanitize_component encoded)
      end
  end.

Definition tag_key (image_ref : buffer) (platform : Platform) : buffer := image_ref ++ [124] ++ cache_key platform.

(** [hex_digest] *)
Definition hex_char (d : Z) : Z := if d <? 10 then 48 + d else 87 + d.
Definition hex_digest (bytes : buffer) : buffer :=
  concat ((fun byte => [hex_char (Z.shiftr byte 4); hex_char (Z.land byte 15)]) <$> bytes).

Definition total_download_bytes (layers : list ResolvedLayer) : option Z :=
  foldl (fun total layer => t ← total; uadd 64 t layer.(size_bytes)) (Some 0) layers.

(** The parallelism of the host, if it is known. *)
Definition layer_download_concurrency (available : option Z) (layer_count : Z) : Z :=
  if layer_count =? 0 then 1
  else
    let host_limit := Z.max 4 (Z.min 16 (Z.min (default 4 available * 2) (2 ^ 64 - 1))) in
    Z.min layer_count host_limit.

Section Store.
Context `{Deps} (root : path).

(** ** Paths of the store *)

Definition image_dir (image_id : buffer) (platform : Platform) : outcome OciDiskError path :=
  c <- image_id_path_component image_id ;; Ok (root ++ [c; cache_key platform]).
Definition image_lock_path (image_id : buffer) (platform : Platform) : outcome OciDiskError path :=
  c <- image_id_path_component image_id ;;
  Ok (root ++ [bstr "tmp"; bstr "image-" ++ c ++ [45] ++ cache_key platform ++ bstr ".lock"]).
Definition blob_path (digest : buffer) : outcome OciDiskError path :=
  ' (algorithm, encoded) <- digest_path_components digest ;; Ok (root ++ [bstr "blobs"; algorithm; encoded]).
Definition blob_part_path (digest : buffer) : outcome OciDiskError path :=
  ' (algorithm, encoded) <- digest_path_components digest ;;
  Ok (root ++ [bstr "tmp"; algorithm ++ [45] ++ encoded ++ bstr ".part"]).
Definition blob_lock_path (digest : buffer) : outcome OciDiskError path :=
  ' (algorithm, encoded) <- digest_path_components digest ;;
  Ok (root ++ [bstr "tmp"; algorithm ++ [45] ++ encoded ++ bstr ".download.lock"]).
Definition manifest_dir (manifest_digest : buffer) : outcome OciDiskError path :=
  c <- image_id_path_component manifest_digest ;; Ok (root ++ [bstr "manifests"; c]).

Definition rootfs_name : buffer := bstr "rootfs.img".
Definition metadata_name : buffer := bstr "metadata.json".

(** ** Files *)

(** [FileLock::exclusive]: the file of the lock is made, and the lock is free. *)
Definition lock_exclusive (p : path) : St unit :=
  _ <-- io (create_dir_all (parent p)) ;;
  io (open_file p false).

Definition remove_file_if_exists (p : path) : St unit :=
  r <-- io_result (remove_file p) ;;
  match r with
  | inl _ | inr IoNotFound => sret tt
  | inr _ => sfail IoError
  end.

Definition node_len (n : node) : Z := match n with FsFile b => zlen b | FsDir => dir_len end.

Definition sha256_file (p : path) : St buffer := b <-- io (read_file p) ;; sret (hex_digest (sha256 b)).
Definition sha256_bytes (b : buffer) : buffer := hex_digest (sha256 b).

Definition layer_digest_matches (p : path) (digest : buffer) : St bool :=
  actual <-- sha256_file p ;;
  expected <-- stry (digest_path_components digest) ;;
  sret (bool_decide (actual = expected.2)).

Definition promote_layer_part (part blob : path) : St unit :=
  _ <-- io (create_dir_all (parent blob)) ;;
  _ <-- remove_file_if_exists blob ;;
  io (rename part blob).

Definition partial_download_offset (p : path) (layer : ResolvedLayer) : St Z :=
  r <-- io_result (metadata p) ;;
  match r with
  | inr IoNotFound => sret 0
  | inr _ => sfail IoError
  | inl n =>
      if layer.(size_bytes) <? node_len n then _ <-- remove_file_if_exists p ;; sret 0
      else sret (node_len n)
  end.

Definition verified_blob_exists (p : path) (digest : buffer) : St bool :=
  r <-- io_result (metadata p) ;;
  match r with
  | inr IoNotFound => sret false
  | inr _ => sfail IoError
  | inl FsDir => _ <-- remove_file_if_exists p ;; sret false
  | inl (FsFile _) =>
      ok <-- layer_digest_matches p digest ;;
      if ok : bool then sret true
      else _ <-- remove_file_if_exists p ;; sret false
  end.

Definition verify_layer_file (p : path) (layer : ResolvedLayer) : St unit :=
  n <-- io (metadata p) ;;
  if negb (node_len n =? layer.(size_bytes)) then
    _ <-- remove_file_if_exists p ;; sfail (LayerSizeMismatch layer.(digest) layer.(size_bytes) (node_len n))
  else
    actual <-- sha256_file p ;;
    expected <-- stry (digest_path_components layer.(digest)) ;;
    if negb (bool_decide (actual = expected.2)) then
      _ <-- remove_file_if_exists p ;; sfail (LayerDigestMismatch layer.(digest) actual)
    else sret tt.

(** ** Downloads *)

Fixpoint write_chunks (p : path) (s : stream) : St unit :=
  match s with
  | [] => sret tt
  | None :: _ => sfail IoError
  | Some chunk :: s => _ <-- io (append p chunk) ;; write_chunks p s
  end.

Definition write_layer_stream (p : path) (s : stream) (append : bool) (layer : ResolvedLayer) : St unit :=
  _ <-- io (open_file p (negb append)) ;;
  _ <-- write_chunks p s ;;
  n <-- io (metadata p) ;;
  if negb (node_len n =? layer.(size_bytes)) then
    _ <-- remove_file_if_exists p ;; sfail (LayerSizeMismatch layer.(digest) layer.(size_bytes) (node_len n))
  else sret tt.

(** [pull_layer_stream] and [pull_layer_stream_partial] of [registry.rs] *)
Definition pull_layer_stream (reference : buffer) (layer : ResolvedLayer) (requested_ref : buffer) : St stream :=
  r <-- request (fun n => pull_blob_stream n reference (layer_descriptor layer)) ;;
  stry (ok_or r (Registry requested_ref)).
Definition pull_layer_stream_partial (reference : buffer) (layer : ResolvedLayer) (requested_ref : buffer)
    (offset length : Z) : St BlobResponse :=
  r <-- request (fun n => pull_blob_stream_partial n reference (layer_descriptor layer) offset length) ;;
  stry (ok_or r (Registry requested_ref)).

(** The stream of [get_or_download_layer], and whether it continues the part file. *)
Definition layer_stream (reference image_ref : buffer) (layer : ResolvedLayer) (part : path) (offset : Z)
    : St (stream * bool) :=
  if 0 <? offset then
    response <-- pull_layer_stream_partial reference layer image_ref offset (Z.max 0 (layer.(size_bytes) - offset)) ;;
    match response with
    | Partial s => sret (s, true)
    | Full s => _ <-- remove_file_if_exists part ;; sret (s, false)
    end
  else s <-- pull_layer_stream reference layer image_ref ;; sret (s, false).

(** The download of a layer that is not there, from where a part file ends. *)
Definition download_layer (reference image_ref : buffer) (layer : ResolvedLayer) (blob part : path) (offset : Z)
    : St path :=
  sa <-- layer_stream reference image_ref layer part offset ;;
  _ <-- write_layer_stream part sa.1 sa.2 layer ;;
  _ <-- verify_layer_file part layer ;;
  _ <-- promote_layer_part part blob ;;
  sret blob.

(** [offset == layer.size_bytes && layer_digest_matches(..)?] *)
Definition part_complete (part : path) (layer : ResolvedLayer) (offset : Z) : St bool :=
  if offset =? layer.(size_bytes) then layer_digest_matches part layer.(digest) else sret false.

Definition get_or_download_layer (reference image_ref : buffer) (layer : ResolvedLayer) : St path :=
  blob <-- stry (blob_path layer.(digest)) ;;
  part <-- stry (blob_part_path layer.(digest)) ;;
  lock <-- stry (blob_lock_path layer.(digest)) ;;
  _ <-- lock_exclusive lock ;;
  exists_ <-- verified_blob_exists blob layer.(digest) ;;
  if exists_ : bool then sret blob
  else
    _ <-- remove_file_if_exists blob ;;
    _ <-- io (create_dir_all (parent blob)) ;;
    _ <-- io (create_dir_all (parent part)) ;;
    offset <-- partial_download_offset part layer ;;
    complete <-- part_complete part layer offset ;;
    if complete : bool then _ <-- promote_layer_part part blob ;; sret blob
    else if offset =? layer.(size_bytes) then
      _ <-- remove_file_if_exists part ;;
      download_layer reference image_ref layer blob part 0
    else download_layer reference image_ref layer blob part offset.

(** Downloads complete in any order; [order] is the one they do, by position. *)
Fixpoint download_all (reference image_ref : buffer) (layers : list (nat * ResolvedLayer)) : St (list LayerBlob) :=
  match layers with
  | [] => sret []
  | (index, layer) :: layers =>
      p <-- get_or_download_layer reference image_ref layer ;;
      rest <-- download_all reference image_ref layers ;;
      sret (mk_blob (S index) layer p :: rest)
  end.
Definition ensure_layer_blobs (order : list nat) (image_ref : buffer) (resolved : ResolvedManifest) : St (list LayerBlob) :=
  let layers := imap pair resolved.(r_layers) in
  blobs <-- download_all resolved.(r_reference) image_ref (omap (fun i => layers !! i) order) ;;
  sret (sort_by (fun b c => b.(b_index) <=? c.(b_index))%nat blobs).

(** [buffer_unordered] polls the downloads it has started one after the other, in one task.
    Up to its first await a download takes the lock of its blob, and it keeps the lock while
    it waits for the registry, if it [needs] to.  Taking a lock that another open file has
    blocks the thread: [None] when only the blocked thread itself could release it. *)
Fixpoint first_poll (needs : buffer -> bool) (held : list path) (digests : list buffer) : option (list path) :=
  match digests with
  | [] => Some held
  | d :: digests =>
      match blob_lock_path d with
      | Ok lock =>
          if bool_decide (lock ∈ held) then None
          else first_poll needs (if needs d then lock :: held else held) digests
      | _ => first_poll needs held digests
      end
  end.

(** ** The cache *)

Definition read_metadata (p : path) : St ImageMetadata :=
  data <-- io_as (fun e => match e with IoNotFound => CorruptCacheEntry p | _ => IoError end) (read_file p) ;;
  stry (ok_or (metadata_of data) (CorruptCacheEntry p)).

(** The comparisons of [cached_image], in its order. *)
Definition metadata_fits (image_id : buffer) (platform : Platform) (source : RootfsImageSource) (md : ImageMetadata) : bool :=
  (md.(md_version) =? 1) && bool_decide (md.(md_image_id) = image_id) && bool_decide (md.(md_source) = source) &&
  bool_decide (md.(md_platform) = platform) && bool_decide (md.(md_filesystem) = bstr "ext4") &&
  bool_decide (md.(md_rootfs_file) = rootfs_name).

Definition cached_image (image_ref image_id : buffer) (platform : Platform) (source : RootfsImageSource)
    : St (option RootfsImage) :=
  dir <-- stry (image_dir image_id platform) ;;
  e <-- io (exists_at dir) ;;
  if negb e then sret None
  else
    f <-- io (is_file_at (dir ++ [rootfs_name])) ;;
    if negb f then sfail (CorruptCacheEntry dir)
    else
      md <-- read_metadata (dir ++ [metadata_name]) ;;
      if negb (metadata_fits image_id platform source md) then sfail (CorruptCacheEntry (dir ++ [metadata_name]))
      else sret (Some (mk_image (dir ++ [rootfs_name]) image_ref image_id platform source)).

Definition write_metadata (dir : path) (image_ref image_id : buffer) (source : RootfsImageSource)
    (manifest_digest config_digest : option buffer) (layers : list ResolvedLayer) (platform : Platform) : St unit :=
  now <-- now_unix ;;
  io (write (dir ++ [metadata_name])
       (metadata_json (mk_metadata 1 image_ref image_id source manifest_digest config_digest layers platform
                         (bstr "ext4") rootfs_name now))).

Definition write_manifest_metadata (image_ref : buffer) (resolved : ResolvedManifest) (platform : Platform) : St unit :=
  dir <-- stry (manifest_dir resolved.(manifest_digest)) ;;
  _ <-- io (create_dir_all dir) ;;
  now <-- now_unix ;;
  let metadata := mk_manifest_metadata 1 image_ref resolved.(r_reference) resolved.(manifest_digest)
                    resolved.(config_digest) platform resolved.(r_layers) now in
  let p := dir ++ [metadata_name] in
  let temp := dir ++ [metadata_name ++ bstr ".tmp"] in
  _ <-- io (write temp (manifest_json metadata)) ;;
  io (rename temp p).

Definition index_path : path := root ++ [bstr "index.json"].

Definition read_index : St StoreIndex :=
  r <-- io_result (read_file index_path) ;;
  match r with
  | inr IoNotFound => sret index_default
  | inr _ => sfail IoError
  | inl data =>
      index <-- stry (ok_or (index_of data) (CorruptCacheEntry index_path)) ;;
      if negb (index.(si_version) =? 1) then sfail (CorruptCacheEntry index_path) else sret index
  end.

Definition write_index (index : StoreIndex) : St unit :=
  _ <-- io (create_dir_all root) ;;
  let temp := root ++ [bstr "index.json" ++ bstr ".tmp"] in
  _ <-- io (write temp (index_json index)) ;;
  io (rename temp index_path).

Definition update_tag_mapping (image_ref : buffer) (platform : Platform) (manifest_digest : buffer) : St unit :=
  index <-- read_index ;;
  now <-- now_unix ;;
  write_index (mk_index index.(si_version)
    (<[tag_key image_ref platform := mk_tag image_ref platform manifest_digest now]> index.(si_tags))).

(** ** Staging *)

Definition staging_create : St path :=
  let up := root ++ [bstr ".staging"] in
  _ <-- io (create_dir_all up) ;;
  now <-- now_nanos ;;
  let p := up ++ [bstr (pretty process_id) ++ [45] ++ bstr (pretty now)] in
  _ <-- io (create_dir p) ;;
  sret p.

(** A staging directory goes away when its owner is dropped, by a return, an error or a
    panic; the [bool] of the body says that it was disarmed. *)
Definition with_staging {A} (body : path -> St (A * bool)) : St A :=
  p <-- staging_create ;;
  fun h =>
    match body p h with
    | (Ok (a, true), h) => (Ok a, h)
    | (Ok (a, false), h) => (Ok a, (remove_dir_all p h).2)
    | (Err e, h) => (Err e, (remove_dir_all p h).2)
    | (Panic, h) => (Panic, (remove_dir_all p h).2)
    end.

(** [Ext4Writer::create] at a path, and what is done to a writer shows in its file. *)
Definition create_writer (p : path) (size : Z) : St Formatter :=
  _ <-- io_as (fun _ => Ext4Error Io) (open_file p true) ;;
  stry (writer_create ext4_clock size).
Definition put_image (p : path) (w : Formatter) (h : host) : host :=
  put_disk (<[p := FsFile w.(f_disk).(d_file)]> h.(h_disk)) h.
Definition on_writer (p : path) (w : Formatter) (m : Wr unit) : St Formatter := fun h =>
  let '(f, h) := next_fault h in
  match f with
  | Some _ => (Err (Ext4Error Io), h)
  | None =>
      match m w with
      | (Ok _, w) => (Ok w, put_image p w h)
      | (Err e, w) => (Err e, put_image p w h)
      | (Panic, w) => (Panic, put_image p w h)
      end
  end.

(** [layer_reader] and [layer_reader_from_path], down to the archive in the stream *)
Definition layer_reader (media_type : MediaType) (bytes : buffer) : outcome OciDiskError (list (option entry)) :=
  e <- layer_encoding zstd_ok media_type ;; Ok (tar_entries e bytes).
Definition layer_reader_from_path (media_type : buffer) (p : path) : St (list (option entry)) :=
  mt <-- stry (ok_or (media_type_from_str media_type) (UnsupportedLayerMediaType media_type)) ;;
  bytes <-- io (read_file p) ;;
  stry (layer_reader mt bytes).

(** The end of the three functions that make an image: once the writer is finished and the
    metadata are written, the directory gets its place, unless someone else was faster. *)
Definition publish (staging final_dir : path) (image_ref image_id : buffer) (platform : Platform) (source : RootfsImageSource)
    : St (RootfsImage * bool) :=
  _ <-- io (create_dir_all (parent final_dir)) ;;
  e <-- io (exists_at final_dir) ;;
  cached <-- (if e : bool then cached_image image_ref image_id platform source else sret None) ;;
  match cached with
  | Some image => sret (image, false)
  | None =>
      _ <-- io (rename staging final_dir) ;;
      sret (mk_image (final_dir ++ [rootfs_name]) image_ref image_id platform source, true)
  end.

Definition save_image (staging final_dir : path) (writer : Formatter) (image_ref image_id : buffer) (source : RootfsImageSource)
    (manifest_digest config_digest : option buffer) (layers : list ResolvedLayer) (platform : Platform)
    : St (RootfsImage * bool) :=
  _ <-- on_writer (staging ++ [rootfs_name]) writer (finish ext4_clock new_v4) ;;
  _ <-- write_metadata staging image_ref image_id source manifest_digest config_digest layers platform ;;
  publish staging final_dir image_ref image_id platform source.

(** ** Sources *)

Definition canonical_local_file (reference p : buffer) : St path :=
  canonical <-- stry (ok_or (canonicalize p) (LocalImageSource reference)) ;;
  n <-- io_as (fun _ => LocalImageSource reference) (metadata canonical) ;;
  match n with
  | FsFile _ => sret canonical
  | FsDir => sfail (LocalImageSource reference)
  end.

Definition local_disk (image_ref p : buffer) (options : RootfsOptions) : St RootfsImage :=
  canonical <-- canonical_local_file image_ref p ;;
  let image_id := bstr "local-disk-sha256:" ++ sha256_bytes (path_text canonical) in
  sret (mk_image canonical image_ref image_id options.(o_platform) FromDisk).

Definition known_compression (magic : buffer) : bool :=
  bool_decide (take 2 magic = [0x1f; 0x8b]) || bool_decide (take 4 magic = [0x28; 0xb5; 0x2f; 0xfd]) ||
  bool_decide (magic = [0xfd; 55; 122; 88; 90; 0]).
Definition reject_known_tar_compression (reference : buffer) (p : path) : St unit :=
  data <-- io (read_file p) ;;
  if known_compression (take 6 data) then sfail (UnsupportedTarCompression reference) else sret tt.

Definition get_or_create_rootfs_tar (image_ref p : buffer) (options : RootfsOptions) : St RootfsImage :=
  let platform := options.(o_platform) in
  _ <-- io (create_dir_all root) ;;
  p <-- canonical_local_file image_ref p ;;
  _ <-- reject_known_tar_compression image_ref p ;;
  hash <-- sha256_file p ;;
  let image_id := bstr "tar-sha256:" ++ hash in
  cached <-- cached_image image_ref image_id platform FromTar ;;
  match cached with
  | Some image => sret image
  | None =>
      final_dir <-- stry (image_dir image_id platform) ;;
      with_staging (fun staging =>
        let stage_rootfs := staging ++ [rootfs_name] in
        writer <-- (writer <-- create_writer stage_rootfs options.(disk_size_bytes) ;;
                    file <-- io (read_file p) ;;
                    on_writer stage_rootfs writer (apply_layer ext4_clock (tar_entries Plain file))) ;;
        save_image staging final_dir writer image_ref image_id FromTar None None [] platform)
  end.

Fixpoint apply_archive_layers (p : path) (writer : Formatter) (layers : list LocalOciLayer) : St Formatter :=
  match layers with
  | [] => sret writer
  | layer :: layers =>
      reader <-- stry (layer_reader layer.(l_media_type) layer.(l_bytes)) ;;
      writer <-- on_writer p writer (apply_layer ext4_clock reader) ;;
      apply_archive_layers p writer layers
  end.

Definition get_or_create_oci_archive (image_ref p : buffer) (options : RootfsOptions) : St RootfsImage :=
  let platform := options.(o_platform) in
  _ <-- io (create_dir_all root) ;;
  p <-- canonical_local_file image_ref p ;;
  data <-- io (read_file p) ;;
  archive <-- stry (read_oci_archive archive_index archive_manifest archive_config (tar_entries Plain data) image_ref platform) ;;
  let image_id := archive.(a_manifest_digest) in
  cached <-- cached_image image_ref image_id platform FromOciArchive ;;
  match cached with
  | Some image => sret image
  | None =>
      final_dir <-- stry (image_dir image_id platform) ;;
      with_staging (fun staging =>
        let stage_rootfs := staging ++ [rootfs_name] in
        writer <-- (writer <-- create_writer stage_rootfs options.(disk_size_bytes) ;;
                    apply_archive_layers stage_rootfs writer archive.(a_layers)) ;;
        save_image staging final_dir writer image_ref image_id FromOciArchive (Some archive.(a_manifest_digest))
          (Some archive.(a_config_digest)) [] platform)
  end.

Fixpoint apply_blobs (p : path) (writer : Formatter) (blobs : list LayerBlob) : St Formatter :=
  match blobs with
  | [] => sret writer
  | blob :: blobs =>
      reader <-- layer_reader_from_path blob.(b_layer).(media_type) blob.(b_path) ;;
      writer <-- on_writer p writer (apply_layer ext4_clock reader) ;;
      apply_blobs p writer blobs
  end.

Definition create_rootfs (order : list nat) (image_ref : buffer) (resolved : ResolvedManifest) (options : RootfsOptions)
    : St RootfsImage :=
  let platform := options.(o_platform) in
  let image_id := resolved.(manifest_digest) in
  final_dir <-- stry (image_dir image_id platform) ;;
  e <-- io (exists_at final_dir) ;;
  cached <-- (if e : bool then cached_image image_ref image_id platform FromOciRegistry else sret None) ;;
  match cached with
  | Some image => sret image
  | None =>
      blobs <-- ensure_layer_blobs order image_ref resolved ;;
      with_staging (fun staging =>
        let stage_rootfs := staging ++ [rootfs_name] in
        writer <-- (writer <-- create_writer stage_rootfs options.(disk_size_bytes) ;;
                    apply_blobs stage_rootfs writer blobs) ;;
        save_image staging final_dir writer image_ref image_id FromOciRegistry (Some resolved.(manifest_digest))
          (Some resolved.(config_digest)) resolved.(r_layers) platform)
  end.

Definition get_or_create_remote_oci (order : list nat) (image_ref : buffer) (options : RootfsOptions) : St RootfsImage :=
  let platform := options.(o_platform) in
  _ <-- io (create_dir_all root) ;;
  reference <-- stry (ok_or (reference_from_str image_ref) (InvalidReference image_ref)) ;;
  let '(canonical_ref, digest) := reference in
  let maps_to_tag := bool_decide (digest = None) in
  answer <-- request (fun n => resolve_manifest (pull_manifest n) (pull_blob_stream n) with_digest config_from_slice canonical_ref platform) ;;
  resolved <-- stry answer ;;
  lock <-- stry (image_lock_path resolved.(manifest_digest) platform) ;;
  _ <-- lock_exclusive lock ;;
  _ <-- write_manifest_metadata canonical_ref resolved platform ;;
  cached <-- cached_image canonical_ref resolved.(manifest_digest) platform FromOciRegistry ;;
  image <-- match cached with
            | Some image => sret image
            | None => create_rootfs order canonical_ref resolved options
            end ;;
  _ <-- (if maps_to_tag then update_tag_mapping canonical_ref platform resolved.(manifest_digest) else sret tt) ;;
  sret image.

Definition get_or_create (order : list nat) (image_ref : buffer) (options : RootfsOptions) : St RootfsImage :=
  source <-- stry (parse_source image_ref) ;;
  match source with
  | RemoteOci image_ref => get_or_create_remote_oci order image_ref options
  | LocalDisk p => local_disk image_ref p options
  | RootfsTar p => get_or_create_rootfs_tar image_ref p options
  | OciArchiveFile p => get_or_create_oci_archive image_ref p options
  end.
End Store.
