(* ===== verification/OciStoreSpec.v ===== *)
(** * What the image store guarantees

    For every disk, every registry and every schedule of failing operations: image
    directories come into being complete, blobs have the hash they are named after, and a
    download that is interrupted is taken up again.  A failure may happen at any call, and
    a crash is a schedule on which everything fails from some call on. *)

From stdpp Require Import base list option numbers strings gmap pretty.
From S2P Require Import Prelude Bytes Utf8 Str Errors Paths Geometry Formatter Close Unpack OciLayer HostFs HostProg OciResolve OciStore.

(** ** Parts of the disk that programs of the store keep *)

Lemma io_keeps {A} (Z : path -> Prop) (m : fs A) : keeps Z m -> keeps Z (io m).
Proof. apply io_as_keeps. Qed.
#[export] Hint Resolve io_keeps : store.

Section KeepsFiles.
Context `{Deps} (Z : path -> Prop).

Lemma now_unix_keeps : keeps Z now_unix.
Proof. unfold now_unix. keeps_tac. Qed.

Lemma remove_file_if_exists_keeps p : ~ Z p -> keeps Z (remove_file_if_exists p).
Proof. intros Hp. unfold remove_file_if_exists. pose proof (remove_file_keeps Z p Hp). keeps_tac. Qed.

Lemma sha256_file_keeps p : keeps Z (sha256_file p).
Proof. unfold sha256_file, read_file. keeps_tac. Qed.
#[local] Hint Resolve now_unix_keeps remove_file_if_exists_keeps sha256_file_keeps : store.

Lemma lock_exclusive_keeps p : ~ Z p -> (forall k, Z k -> k ∉ prefixes (parent p)) -> keeps Z (lock_exclusive p).
Proof.
  intros Hp Hd. unfold lock_exclusive. pose proof (open_file_keeps Z p false Hp).
  pose proof (create_dir_all_keeps Z (parent p) Hd). keeps_tac.
Qed.

Lemma layer_digest_matches_keeps p d : keeps Z (layer_digest_matches p d).
Proof. unfold layer_digest_matches. keeps_tac. Qed.
#[local] Hint Resolve layer_digest_matches_keeps : store.

Lemma part_complete_keeps p layer offset : keeps Z (part_complete p layer offset).
Proof. unfold part_complete. keeps_tac. Qed.

Lemma partial_download_offset_keeps p layer : ~ Z p -> keeps Z (partial_download_offset p layer).
Proof. intros Hp. unfold partial_download_offset, metadata. keeps_tac. Qed.

Lemma verified_blob_exists_keeps p d : ~ Z p -> keeps Z (verified_blob_exists p d).
Proof. intros Hp. unfold verified_blob_exists, metadata. keeps_tac. Qed.

Lemma verify_layer_file_keeps p layer : ~ Z p -> keeps Z (verify_layer_file p layer).
Proof. intros Hp. unfold verify_layer_file, metadata. keeps_tac. Qed.

Lemma write_chunks_keeps p s : ~ Z p -> keeps Z (write_chunks p s).
Proof.
  intros Hp. induction s as [|[c|] s IH]; simpl; [keeps_tac| |keeps_tac].
  pose proof (append_keeps Z p c Hp). keeps_tac.
Qed.
#[local] Hint Resolve write_chunks_keeps : store.

Lemma write_layer_stream_keeps p s append layer : ~ Z p -> keeps Z (write_layer_stream p s append layer).
Proof. intros Hp. unfold write_layer_stream, metadata. pose proof (open_file_keeps Z p (negb append) Hp). keeps_tac. Qed.

Lemma layer_stream_keeps reference image_ref layer part offset :
  ~ Z part -> keeps Z (layer_stream reference image_ref layer part offset).
Proof. intros Hp. unfold layer_stream, pull_layer_stream, pull_layer_stream_partial. keeps_tac. Qed.

Lemma read_metadata_keeps p : keeps Z (read_metadata p).
Proof. unfold read_metadata, read_file. keeps_tac. Qed.
#[local] Hint Resolve read_metadata_keeps : store.

Lemma cached_image_keeps root image_ref image_id platform source : keeps Z (cached_image root image_ref image_id platform source).
Proof. unfold cached_image. keeps_tac. Qed.

Lemma read_index_keeps root : keeps Z (read_index root).
Proof. unfold read_index, read_file. keeps_tac. Qed.

Lemma canonical_local_file_keeps reference p : keeps Z (canonical_local_file reference p).
Proof. unfold canonical_local_file, metadata. keeps_tac. Qed.

Lemma reject_known_tar_compression_keeps reference p : keeps Z (reject_known_tar_compression reference p).
Proof. unfold reject_known_tar_compression, read_file. keeps_tac. Qed.

Lemma layer_reader_from_path_keeps media p : keeps Z (layer_reader_from_path media p).
Proof. unfold layer_reader_from_path, read_file. keeps_tac. Qed.

Lemma on_writer_keeps p w m : ~ Z p -> keeps Z (on_writer p w m).
Proof.
  intros Hp h k Hk. unfold on_writer. destruct (next_fault h) as [f h'] eqn:E. apply next_fault_disk in E. rewrite <- E.
  destruct f; [done|]. destruct (m w) as [[?|e|] w']; simpl; rewrite lookup_insert_ne; congruence.
Qed.
#[local] Hint Resolve layer_reader_from_path_keeps on_writer_keeps : store.

Lemma create_writer_keeps p size : ~ Z p -> keeps Z (create_writer p size).
Proof. intros Hp. unfold create_writer. pose proof (open_file_keeps Z p true Hp). keeps_tac. Qed.

Lemma apply_blobs_keeps p w blobs : ~ Z p -> keeps Z (apply_blobs p w blobs).
Proof. intros Hp. revert w. induction blobs as [|b blobs IH]; intros w; simpl; keeps_tac. Qed.

Lemma apply_archive_layers_keeps p w layers : ~ Z p -> keeps Z (apply_archive_layers p w layers).
Proof. intros Hp. revert w. induction layers as [|b blobs IH]; intros w; simpl; keeps_tac. Qed.

Lemma write_metadata_keeps dir a b c d e f g : ~ Z (dir ++ [metadata_name]) -> keeps Z (write_metadata dir a b c d e f g).
Proof.
  intros Hp. unfold write_metadata. apply sbind_keeps; [keeps_tac|]. intros now. apply io_keeps. by apply write_keeps.
Qed.
End KeepsFiles.

#[export] Hint Resolve now_unix_keeps remove_file_if_exists_keeps sha256_file_keeps lock_exclusive_keeps
  layer_digest_matches_keeps part_complete_keeps partial_download_offset_keeps verified_blob_exists_keeps
  verify_layer_file_keeps write_chunks_keeps write_layer_stream_keeps layer_stream_keeps read_metadata_keeps
  cached_image_keeps read_index_keeps canonical_local_file_keeps reject_known_tar_compression_keeps
  layer_reader_from_path_keeps on_writer_keeps create_writer_keeps apply_blobs_keeps apply_archive_layers_keeps
  write_metadata_keeps : store.

(** ** Blobs *)

Section Blobs.
Context `{Deps} (root : path).

Definition blob_at (x : buffer) : path := root ++ [bstr "blobs"; bstr "sha256"; x].
Definition blob_zone (k : path) : Prop := exists x, k = blob_at x.

(** The file at a path has this hash. *)
Definition hashed (p : path) (x : buffer) (d : gmap path node) : Prop :=
  exists b, d !! p = Some (FsFile b) /\ hex_digest (sha256 b) = x.

(** Blobs have the hash they are named after. *)
Definition blobs_ok (d : gmap path node) : Prop :=
  forall x b, d !! blob_at x = Some (FsFile b) -> hex_digest (sha256 b) = x.

Lemma hex_component_char c : is_ascii_hexdigit c = true -> component_char (to_ascii_lowercase c) = true.
Proof.
  unfold is_ascii_hexdigit, component_char, to_ascii_lowercase, is_ascii_alphanumeric, is_ascii_alphabetic, is_ascii_digit, in_range.
  intros Hc. destruct ((65 <=? c) && (c <=? 90)) eqn:E; lia.
Qed.

Lemma sanitize_plain s : forallb component_char s = true -> sanitize_component s = s.
Proof.
  induction s as [|c s IH]; [done|]. simpl. intros [Hc Hs]%andb_true_iff. rewrite Hc. f_equal. by apply IH.
Qed.

(** A digest is [sha256:] and a number in hexadecimal; its file is named by the lower case. *)
Lemma digest_path_components_ok dg a x : digest_path_components dg = Ok (a, x) ->
  a = bstr "sha256" /\ length x = 64%nat /\
  exists e, split_once 58 dg = Some (bstr "sha256", e) /\ x = to_ascii_lowercase <$> e.
Proof.
  unfold digest_path_components. destruct (split_once 58 dg) as [[al e]|] eqn:Es; [|done].
  case_bool_decide as Ha; [|done]. subst al. cbn [negb]. case_bool_decide as Hl; [|done]. cbn [negb orb].
  destruct (forallb is_ascii_hexdigit e) eqn:Hh; [|done]. cbn [negb]. intros Hd.
  assert (Hx : sanitize_component (to_ascii_lowercase <$> e) = to_ascii_lowercase <$> e).
  { apply sanitize_plain. clear -Hh. induction e as [|c e IH]; [done|]. simpl in *.
    apply andb_true_iff in Hh as [Hc He]. apply andb_true_iff. split; [by apply hex_component_char|by apply IH]. }
  rewrite Hx in Hd. assert (a = bstr "sha256" /\ x = to_ascii_lowercase <$> e) as [-> ->] by (by injection Hd as <- <-).
  split; [done|]. rewrite length_fmap. eauto.
Qed.

(** A property of the disk that removing blobs and adding good ones does not hurt. *)
Class BlobSafe (I : gmap path node -> Prop) : Prop := {
  blob_safe_shrinks d d' : shrinks blob_zone d d' -> I d -> I d';
  blob_safe_add d p x b : I d -> d !! p = Some (FsFile b) -> hex_digest (sha256 b) = x ->
    I (<[blob_at x := FsFile b]> (delete p d)) }.

#[export] Instance blobs_ok_safe : BlobSafe blobs_ok.
Proof.
  split.
  - intros d d' Hs Hd x b Hx. apply (Hd x b). apply Hs; [by eexists|done].
  - intros d p x b Hd Hp Hb y c [[E [= ->]]|[Hne [_ Hc]%lookup_delete_Some]]%lookup_insert_Some; [|by apply Hd].
    unfold blob_at in E. apply app_inv_head in E. by injection E as <-.
Qed.

#[export] Instance true_safe : BlobSafe (fun _ => True).
Proof. by split. Qed.

Section Download.
Context (I : gmap path node -> Prop) `{!BlobSafe I}.
Context (dg x : buffer) (Hdg : digest_path_components dg = Ok (bstr "sha256", x)).

Lemma remove_file_if_exists_safe (P : gmap path node -> Prop) p :
  (forall d, P d -> I d) -> (forall d, P d -> P (delete p d)) -> triple I P (remove_file_if_exists p) (fun _ => P).
Proof.
  intros HI HP. unfold remove_file_if_exists. eapply triple_bind with (Q := fun _ => P).
  - apply triple_attempt_result; [done..|]. intros d d' Hd. destruct (d !! p) as [[]|]; try done. intros [= <-]. auto.
  - intros [[]|[]]; first [by apply triple_ret|by apply triple_fail].
Qed.

Lemma layer_digest_matches_spec (P : gmap path node -> Prop) p : (forall d, P d -> I d) ->
  triple I P (layer_digest_matches p dg) (fun ok d => P d /\ (ok = true -> hashed p x d)).
Proof.
  intros HP. unfold layer_digest_matches, sha256_file. rewrite Hdg.
  eapply triple_bind with (Q := fun a d => P d /\ hashed p a d).
  - eapply triple_bind with (Q := fun b d => P d /\ d !! p = Some (FsFile b)).
    + apply triple_look; [done|]. intros d a Hd. destruct (d !! p) as [[]|]; try done. by intros [= <-].
    + intros b. apply triple_ret. intros d [Hd Hb]. split; [done|]. by exists b.
  - intros a. eapply triple_bind; [apply triple_try; naive_solver|]. intros e. apply triple_ret.
    intros d [[Hd Ha] [= <-]]. split; [done|]. intros Hax%bool_decide_eq_true. simpl in Hax. by subst a.
Qed.

Lemma verified_blob_exists_spec :
  triple I I (verified_blob_exists (blob_at x) dg) (fun ok d => I d /\ (ok = true -> hashed (blob_at x) x d)).
Proof.
  assert (Hrm : forall p, triple I I (_ <-- remove_file_if_exists p ;; sret false) (fun ok d => I d /\ (ok = true -> hashed (blob_at x) x d))).
  { intros p. eapply triple_bind with (Q := fun _ => I); [|intros _; by apply triple_ret].
    apply remove_file_if_exists_safe; [done|]. intros d. apply blob_safe_shrinks, delete_shrinks. }
  unfold verified_blob_exists, metadata. eapply triple_bind with (Q := fun _ => I).
  - eapply triple_weaken; [apply triple_look_result| |]; [eauto|naive_solver].
  - intros [[b|]|[]].
    + eapply triple_bind; [by apply layer_digest_matches_spec|]. intros [].
      * apply triple_ret. naive_solver.
      * eapply triple_weaken; [apply Hrm|naive_solver|done].
    + apply Hrm.
    + by apply triple_ret.
    + by apply triple_fail.
    + by apply triple_fail.
Qed.

(** The part file, verified, becomes the blob. *)
Lemma promote_layer_part_spec part : part <> blob_at x ->
  triple I (fun d => I d /\ hashed part x d) (promote_layer_part part (blob_at x)) (fun _ d => I d /\ hashed (blob_at x) x d).
Proof.
  intros Hne. unfold promote_layer_part. set (Pre := fun d => I d /\ hashed part x d).
  assert (Hdirs : forall ps d, (forall k, k ∈ ps -> k ∈ prefixes (parent (blob_at x))) -> Pre d -> Pre (add_dirs ps d)).
  { intros ps d Hps [Hd (b & Hb & Hx)]. split; [|exists b; split; [by apply add_dirs_kept|done]].
    revert Hd. apply blob_safe_shrinks, same_shrinks. intros k [y ->]. apply add_dirs_lookup.
    intros [_ [r Hr]]%Hps%prefixes_spec. unfold parent, blob_at in Hr. rewrite removelast_app in Hr by done.
    rewrite <- app_assoc in Hr. apply app_inv_head in Hr. by simplify_eq/=. }
  eapply triple_bind with (Q := fun _ => Pre); [|intros _; eapply triple_bind with (Q := fun _ => Pre)].
  - apply triple_attempt.
    + intros n d Hd. apply (Hdirs _ d); [|done]. intros k. apply subseteq_take.
    + by intros d e [? _].
    + intros d d' Hd. destruct (forallb _ _); [|done]. intros [= <-]. by apply Hdirs.
  - apply remove_file_if_exists_safe; [by intros d [? _]|]. intros d [Hd (b & Hb & Hx)]. split.
    + revert Hd. apply blob_safe_shrinks, delete_shrinks.
    + exists b. by rewrite lookup_delete_ne.
  - intros _. apply triple_attempt; [by intros _ d [? _]|by intros d e [? _]|].
    intros d d' [Hd (b & Hb & Hx)]. rewrite Hb. destruct (writable d (blob_at x)); [done|]. intros [= <-].
    split; [by apply blob_safe_add|]. exists b. by rewrite lookup_insert_eq.
Qed.

Lemma safe_keeps {A : Type} (m : St A) : keeps blob_zone m -> triple I I m (fun _ => I).
Proof. intros Hm. eapply triple_keeps; [done| |done]. intros d d' Hs. by apply blob_safe_shrinks, same_shrinks. Qed.

Lemma verify_layer_file_spec p layer : layer.(digest) = dg ->
  triple I I (verify_layer_file p layer) (fun _ d => I d /\ hashed p x d).
Proof.
  intros Hl. assert (Hrm : forall e, triple I I (_ <-- remove_file_if_exists p ;; sfail (A := unit) e) (fun _ d => I d /\ hashed p x d)).
  { intros e. eapply triple_bind with (Q := fun _ => I); [|intros _; by apply triple_fail].
    apply remove_file_if_exists_safe; [done|]. intros d. apply blob_safe_shrinks, delete_shrinks. }
  unfold verify_layer_file, sha256_file. rewrite Hl, Hdg.
  eapply triple_bind with (Q := fun _ => I); [apply triple_look; naive_solver|].
  intros n. destruct (negb _); [apply Hrm|].
  eapply triple_bind with (Q := fun a d => I d /\ hashed p a d).
  - eapply triple_bind with (Q := fun b d => I d /\ d !! p = Some (FsFile b)).
    + apply triple_look; [done|]. intros d a Hd. destruct (d !! p) as [[]|]; try done. by intros [= <-].
    + intros b. apply triple_ret. intros d [Hd Hb]. split; [done|]. by exists b.
  - intros a. eapply triple_bind; [apply triple_try; naive_solver|]. intros e. case_bool_decide as Ha; simpl.
    + apply triple_ret. intros d [[Hd Hh] [= <-]]. simpl in Ha. by subst a.
    + eapply triple_weaken; [apply Hrm|naive_solver|done].
Qed.

Definition part_at : path := root ++ [bstr "tmp"; bstr "sha256" ++ [45] ++ x ++ bstr ".part"].
Definition lock_at : path := root ++ [bstr "tmp"; bstr "sha256" ++ [45] ++ x ++ bstr ".download.lock"].

Lemma not_blob_zone t n : t <> bstr "blobs" -> ~ blob_zone (root ++ [t; n]).
Proof. intros Ht [y E]. unfold blob_at in E. by apply app_inv_head in E. Qed.

Lemma not_blob_prefix p k : blob_zone k -> (length p <= length root + 2)%nat -> k ∉ prefixes p.
Proof.
  intros [y ->] Hp [_ [r ->]]%prefixes_spec. unfold blob_at in Hp. rewrite !length_app in Hp. simpl in Hp. lia.
Qed.

Lemma part_blob : part_at <> blob_at x.
Proof. unfold part_at, blob_at. intros E. by apply app_inv_head in E. Qed.

Lemma download_layer_spec reference image_ref layer offset : layer.(digest) = dg ->
  triple I I (download_layer reference image_ref layer (blob_at x) part_at offset)
    (fun p d => I d /\ p = blob_at x /\ hashed (blob_at x) x d).
Proof.
  intros Hl. assert (Hp : ~ blob_zone part_at) by (by apply not_blob_zone).
  unfold download_layer. eapply triple_bind; [apply safe_keeps; eauto with store|]. intros [s a].
  eapply triple_bind; [apply safe_keeps; eauto with store|]. intros ?.
  eapply triple_bind; [by apply verify_layer_file_spec|]. intros ?.
  eapply triple_bind; [apply promote_layer_part_spec, part_blob|]. intros ?.
  apply triple_ret. naive_solver.
Qed.

Lemma get_or_download_layer_spec reference image_ref layer : layer.(digest) = dg ->
  triple I I (get_or_download_layer root reference image_ref layer)
    (fun p d => I d /\ p = blob_at x /\ hashed (blob_at x) x d).
Proof.
  intros Hl. assert (Hp : ~ blob_zone part_at) by (by apply not_blob_zone).
  assert (Hk : ~ blob_zone lock_at) by (by apply not_blob_zone).
  assert (Hd : forall q, (length q <= length root + 2)%nat -> keeps blob_zone (io (create_dir_all q))).
  { intros q Hq. apply io_keeps, create_dir_all_keeps. intros k Hz. by apply not_blob_prefix. }
  unfold get_or_download_layer, blob_path, blob_part_path, blob_lock_path. rewrite Hl, Hdg. cbn [obind].
  change (root ++ [bstr "blobs"; bstr "sha256"; x]) with (blob_at x). fold part_at lock_at.
  do 3 apply triple_ok.
  eapply triple_bind; [apply safe_keeps; eapply lock_exclusive_keeps; [done|]|].
  { intros k Hz. apply not_blob_prefix; [done|]. unfold lock_at, parent. rewrite removelast_app, length_app by done. simpl. lia. }
  intros ?. eapply triple_bind; [apply verified_blob_exists_spec|]. intros []; [apply triple_ret; naive_solver|].
  apply triple_weaken with (P' := I) (Q' := fun p d => I d /\ p = blob_at x /\ hashed (blob_at x) x d); [|naive_solver|done].
  eapply triple_bind with (Q := fun _ => I).
  { apply remove_file_if_exists_safe; [done|]. intros d. apply blob_safe_shrinks, delete_shrinks. }
  intros ?. eapply triple_bind; [apply safe_keeps, Hd; unfold blob_at, parent; rewrite removelast_app, length_app by done; simpl; lia|].
  intros ?. eapply triple_bind; [apply safe_keeps, Hd; unfold part_at, parent; rewrite removelast_app, length_app by done; simpl; lia|].
  intros ?. eapply triple_bind; [apply safe_keeps; eauto with store|]. intros offset.
  eapply triple_bind with (Q := fun ok d => I d /\ (ok = true -> hashed part_at x d)).
  { unfold part_complete. destruct (_ =? _); [rewrite Hl; by apply layer_digest_matches_spec|by apply triple_ret]. }
  intros [].
  - eapply triple_bind with (Q := fun _ d => I d /\ hashed (blob_at x) x d); [|intros ?; apply triple_ret; naive_solver].
    eapply triple_weaken; [apply promote_layer_part_spec, part_blob|naive_solver|done].
  - apply triple_weaken with (P' := I) (Q' := fun p d => I d /\ p = blob_at x /\ hashed (blob_at x) x d); [|naive_solver|done].
    destruct (_ =? _); [|by apply download_layer_spec].
    eapply triple_bind; [apply safe_keeps; eauto with store|]. intros ?. by apply download_layer_spec.
Qed.
End Download.
End Blobs.

(** C32 get_or_download_layer_verified: whatever the registry sends, whatever is on the disk
    and whichever operations fail, a layer that [get_or_download_layer] returns is the blob
    of its digest and has that SHA-256 hash, and blobs that had the hash of their name before
    the call still have it after, also when it fails. *)
Theorem get_or_download_layer_verified `{Deps} root reference image_ref layer (h h' : host) r :
  get_or_download_layer root reference image_ref layer h = (r, h') ->
  (blobs_ok root h.(h_disk) -> blobs_ok root h'.(h_disk)) /\
  forall p, r = Ok p -> exists x b, digest_path_components layer.(digest) = Ok (bstr "sha256", x) /\
    p = root ++ [bstr "blobs"; bstr "sha256"; x] /\ h'.(h_disk) !! p = Some (FsFile b) /\ hex_digest (sha256 b) = x.
Proof.
  intros Hr. destruct (digest_path_components layer.(digest)) as [[a x]|e|] eqn:Hd.
  - destruct (digest_path_components_ok _ _ _ Hd) as [-> _].
    pose proof (fun I HI => @get_or_download_layer_spec _ root I HI _ x Hd reference image_ref layer eq_refl h) as Hs.
    unfold wp in Hs. rewrite Hr in Hs. split.
    + intros Hb. specialize (Hs _ _ Hb). destruct r; naive_solver.
    + intros p ->. destruct (Hs (fun _ => True) _ Logic.I) as (_ & -> & b & Hb & Hx). by exists x, b.
  - unfold get_or_download_layer, blob_path, blob_part_path, blob_lock_path in Hr. rewrite Hd in Hr. cbn in Hr. by simplify_eq.
  - unfold get_or_download_layer, blob_path, blob_part_path, blob_lock_path in Hr. rewrite Hd in Hr. cbn in Hr. by simplify_eq.
Qed.

(** ** Images *)

Section ImageZone.
Context (root : path).

(** The directories of images; no other name of the store has a dash. *)
Definition image_zone (k : path) : Prop := exists c y r, k = root ++ c :: y :: r /\ 45 ∈ c.

Lemma image_dir_form image_id platform dir : image_dir root image_id platform = Ok dir ->
  exists c, dir = root ++ [c; cache_key platform] /\ 45 ∈ c.
Proof.
  unfold image_dir, image_id_path_component. destruct (split_once 58 image_id) as [[[|a al] [|e en]]|]; try done.
  cbn [obind]. intros [= <-]. eexists. split; [done|]. set_solver.
Qed.

Lemma image_dir_zone image_id platform dir r : image_dir root image_id platform = Ok dir -> image_zone (dir ++ r).
Proof.
  intros (c & -> & Hc)%image_dir_form. exists c, (cache_key platform), r. by rewrite <- app_assoc.
Qed.

Lemma not_image_zone c r : 45 ∉ c -> ~ image_zone (root ++ c :: r).
Proof. intros Hc (c' & y & r' & E & Hc'). apply app_inv_head in E. by simplify_eq. Qed.

Lemma not_image_prefix c r k : 45 ∉ c -> image_zone k -> k ∉ prefixes (root ++ c :: r).
Proof.
  intros Hc (c' & y & r' & -> & Hc') [_ [s E]]%prefixes_spec. rewrite <- app_assoc in E. apply app_inv_head in E. by simplify_eq/=.
Qed.

Lemma short_image_prefix p k : (length p <= S (length root))%nat -> image_zone k -> k ∉ prefixes p.
Proof.
  intros Hp (c' & y & r' & -> & Hc') [_ [s ->]]%prefixes_spec. rewrite !length_app in Hp. simpl in Hp. lia.
Qed.

End ImageZone.

(** [serde_json] reads back what it wrote. *)
Class DepsLaws `{Deps} : Prop := {
  metadata_roundtrip md : metadata_of (metadata_json md) = Some md;
  index_roundtrip i : index_of (index_json i) = Some i }.

Section Images.
Context `{DepsLaws} (root : path).

(** The file of an image that [Ext4Writer::finish] completed. *)
Definition finished (img : buffer) : Prop :=
  exists w w', finish ext4_clock new_v4 w = (Ok tt, w') /\ img = w'.(f_disk).(d_file).

(** A complete entry of the cache: a finished image, and metadata that belong here. *)
Definition complete (d : gmap path node) (dir : path) : Prop :=
  (exists img, d !! (dir ++ [rootfs_name]) = Some (FsFile img) /\ finished img) /\
  exists b md, d !! (dir ++ [metadata_name]) = Some (FsFile b) /\ metadata_of b = Some md /\
    md.(md_version) = 1 /\ md.(md_filesystem) = bstr "ext4" /\ md.(md_rootfs_file) = rootfs_name /\
    image_dir root md.(md_image_id) md.(md_platform) = Ok dir.

(** Every directory of an image is complete. *)
Definition images_ok (d : gmap path node) : Prop :=
  forall image_id platform dir, image_dir root image_id platform = Ok dir -> is_Some (d !! dir) -> complete d dir.

(** The directory of an image that was handed out is there. *)
Definition standing (image : RootfsImage) (d : gmap path node) : Prop :=
  image.(i_source) = FromDisk \/
  exists dir, image_dir root image.(i_image_id) image.(i_platform) = Ok dir /\ image.(i_path) = dir ++ [rootfs_name] /\ is_Some (d !! dir).

Lemma standing_same image d d' : (forall k, image_zone root k -> d' !! k = d !! k) -> standing image d -> standing image d'.
Proof.
  intros Hs [Hd|(dir & Hdir & Hp & Hd)]; [by left|]. right. exists dir. split; [done|]. split; [done|].
  rewrite Hs; [done|]. rewrite <- (app_nil_r dir). by eapply image_dir_zone.
Qed.

Lemma cached_image_standing (E P : gmap path node -> Prop) image_ref image_id platform source : (forall d, P d -> E d) ->
  triple E P (cached_image root image_ref image_id platform source) (fun o d => P d /\ forall i, o = Some i -> standing i d).
Proof.
  intros HE. unfold cached_image. destruct (image_dir root image_id platform) as [dir|e|] eqn:Hdir; [|by intros h Hh; apply HE..].
  apply triple_ok. eapply triple_bind; [by apply triple_exists|]. intros [|]; [|by apply triple_ret; naive_solver]. cbn [negb].
  eapply triple_bind; [apply triple_same; [eauto with store|naive_solver]|]. intros [|]; [|by apply triple_fail; naive_solver]. cbn [negb].
  eapply triple_bind; [apply triple_same; [eauto with store|naive_solver]|]. intros md.
  destruct (metadata_fits _ _ _ md); [|by apply triple_fail; naive_solver]. apply triple_ret. cbv beta. intros d [Hd He]. split; [done|].
  intros i [= <-]. right. exists dir. simpl. split; [done|]. split; [done|]. by apply He.
Qed.

Lemma images_ok_same d d' : (forall k, image_zone root k -> d' !! k = d !! k) -> images_ok d -> images_ok d'.
Proof.
  intros Hs Hd id pl dir Hdir. pose proof (fun r => Hs _ (image_dir_zone root id pl dir r Hdir)) as Hs'.
  pose proof (Hs' []) as Hs0. rewrite app_nil_r in Hs0. rewrite Hs0. intros Hi.
  destruct (Hd id pl dir Hdir Hi) as [(img & Hr & Hf) (b & md & Hm & Hrest)]. split.
  - exists img. by rewrite Hs'.
  - exists b, md. by rewrite Hs'.
Qed.

Lemma images_keeps {A : Type} (m : St A) : keeps (image_zone root) m ->
  triple images_ok images_ok m (fun _ => images_ok).
Proof. intros Hm. eapply triple_keeps; [done| |done]. intros d d'. apply images_ok_same. Qed.

(** ** A staging directory and what is put into it *)

Section Staging.
Context (n : buffer).
Definition staging_at : path := root ++ [bstr ".staging"; n].

(** The image and its metadata stand in the staging directory. *)
Definition staged_file (name b : buffer) (d : gmap path node) : Prop := d !! (staging_at ++ [name]) = Some (FsFile b).
Definition staged (names : list (buffer * buffer)) (d : gmap path node) : Prop :=
  images_ok d /\ d !! staging_at = Some FsDir /\ Forall (fun nb => staged_file nb.1 nb.2 d) names.

(** The part of the disk that [staged] is about. *)
Definition staged_zone (names : list (buffer * buffer)) (k : path) : Prop :=
  image_zone root k \/ k = staging_at \/ exists nb, nb ∈ names /\ k = staging_at ++ [nb.1].

Lemma staged_same names d d' : (forall k, staged_zone names k -> d' !! k = d !! k) -> staged names d -> staged names d'.
Proof.
  intros Hs (Hi & Hd & Hn). split; [|split].
  - revert Hi. apply images_ok_same. intros k Hk. apply Hs. by left.
  - rewrite Hs; [done|]. right. by left.
  - apply Forall_forall. intros nb Hnb. unfold staged_file. rewrite Hs; [by rewrite Forall_forall in Hn; apply Hn|].
    right. right. eauto.
Qed.

Lemma not_staged_zone names name : name ∉ names.*1 -> ~ staged_zone names (staging_at ++ [name]).
Proof.
  intros Hn [Hz|[E|(nb & Hnb & E)]].
  - revert Hz. unfold staging_at. rewrite <- app_assoc. apply not_image_zone. by vm_compute; set_solver.
  - rewrite <- (app_nil_r staging_at) in E at 2. by apply app_inv_head in E.
  - apply app_inv_head in E. injection E as ->. apply Hn. apply list_elem_of_fmap. eauto.
Qed.

Lemma staged_keeps {A : Type} names (m : St A) : keeps (staged_zone names) m ->
  triple images_ok (staged names) m (fun _ => staged names).
Proof. intros Hm. eapply triple_keeps; [done|apply staged_same|by intros d [? _]]. Qed.

Lemma staged_add names name b d : name ∉ names.*1 -> staged names d ->
  staged ((name, b) :: names) (<[staging_at ++ [name] := FsFile b]> d).
Proof.
  intros Hn Hd. assert (staged names (<[staging_at ++ [name] := FsFile b]> d)) as (Hi & Hs & Hf).
  { revert Hd. apply staged_same. intros k Hk. rewrite lookup_insert_ne; [done|]. intros <-. by apply (not_staged_zone names name). }
  split; [done|]. split; [done|]. constructor; [|done]. unfold staged_file. by rewrite lookup_insert_eq.
Qed.

(** A finished writer and its metadata. *)
Lemma on_writer_finish w :
  triple images_ok (staged []) (on_writer (staging_at ++ [rootfs_name]) w (finish ext4_clock new_v4))
    (fun _ d => exists img, finished img /\ staged [(rootfs_name, img)] d).
Proof.
  intros h Hh. pose proof (staged_add [] rootfs_name) as Hadd. unfold wp, on_writer.
  destruct (next_fault h) as [f h'] eqn:En. apply next_fault_disk in En. rewrite <- En in Hh.
  destruct f; [by destruct Hh|]. destruct (finish ext4_clock new_v4 w) as [[[]|e|] w'] eqn:Ef; simpl.
  - exists w'.(f_disk).(d_file). split; [by exists w, w'|]. apply Hadd; [set_solver|done].
  - apply (Hadd (d_file (f_disk w')) (h_disk h')); [set_solver|done].
  - apply (Hadd (d_file (f_disk w')) (h_disk h')); [set_solver|done].
Qed.

Lemma write_metadata_spec img image_ref image_id source mdg cdg layers platform :
  triple images_ok (staged [(rootfs_name, img)])
    (write_metadata staging_at image_ref image_id source mdg cdg layers platform)
    (fun _ d => exists now, staged [(metadata_name, metadata_json (mk_metadata 1 image_ref image_id source mdg cdg layers
       platform (bstr "ext4") rootfs_name now)); (rootfs_name, img)] d).
Proof.
  assert (Hm : metadata_name ∉ [(rootfs_name, img)].*1) by (vm_compute; set_solver).
  unfold write_metadata. eapply triple_bind; [apply staged_keeps; eauto with store|]. intros now. apply triple_attempt.
  - intros k d Hd. unfold when_writable. destruct (writable _ _); [by destruct Hd|].
    refine (proj1 (staged_add _ metadata_name _ d Hm Hd)).
  - by intros d e [? _].
  - intros d d' Hd. destruct (writable _ _); [done|]. intros [= <-]. exists now. by apply staged_add.
Qed.

(** The directory is renamed to its place: that is how entries of the cache come about. *)
Lemma rename_images_ok img md image_id platform final_dir :
  finished img -> md.(md_version) = 1 -> md.(md_filesystem) = bstr "ext4" -> md.(md_rootfs_file) = rootfs_name ->
  md.(md_image_id) = image_id -> md.(md_platform) = platform -> image_dir root image_id platform = Ok final_dir ->
  triple images_ok (staged [(metadata_name, metadata_json md); (rootfs_name, img)]) (io (rename staging_at final_dir))
    (fun _ d => images_ok d /\ is_Some (d !! final_dir)).
Proof.
  intros Hf Hv Hfs Hrf Hid Hpl Hdir. apply triple_attempt; [by intros _ d [? _]|by intros d e [? _]|].
  intros d d' (Hi & Hs & Hn). rewrite Hs. destruct (_ || _) eqn:Hu; [done|]. apply orb_false_iff in Hu as [Hu1 Hu2].
  destruct (negb _); [done|]. intros Hd.
  assert (Hm : d' = move_tree staging_at final_dir d).
  { destruct (d !! final_dir) as [[]|]; [done| |by simplify_eq]. destruct (forallb _ _); by simplify_eq. }
  subst d'. clear Hd. pose proof (move_tree_there _ _ Hu1 Hu2 d) as Hthere.
  pose proof (Hthere []) as Hthere0. rewrite !app_nil_r, Hs in Hthere0.
  apply Forall_cons in Hn as [Hmd Hn]. apply Forall_cons in Hn as [Himg _]. unfold staged_file in Hmd, Himg. simpl in Hmd, Himg.
  split; [|by rewrite Hthere0]. intros id pl dir Hdir' Hsome.
  destruct (image_dir_form root _ _ _ Hdir) as (c & Ec & Hc). destruct (image_dir_form root _ _ _ Hdir') as (c' & Ec' & Hc').
  destruct (decide (dir = final_dir)) as [->|Hne].
  { split; [exists img; by rewrite Hthere|]. exists (metadata_json md), md. rewrite Hthere.
    split; [done|]. split; [apply metadata_roundtrip|]. by subst. }
  assert (Hsame : forall r, move_tree staging_at final_dir d !! (dir ++ r) = d !! (dir ++ r)).
  { intros r. apply move_tree_elsewhere; try done; apply not_true_iff_false; intros [s Es]%under_spec; subst dir.
    - unfold staging_at in Es. rewrite <- !app_assoc in Es. apply app_inv_head in Es. simplify_eq/=. by revert Hc'; vm_compute; set_solver.
    - subst final_dir. rewrite <- !app_assoc in Es. apply app_inv_head in Es. injection Es as -> Ek _. apply Hne. by rewrite Ek. }
  pose proof (Hsame []) as Hsame0. rewrite !app_nil_r in Hsame0. rewrite Hsame0 in Hsome.
  destruct (Hi id pl dir Hdir' Hsome) as [(i & Hr & Hfi) (b & m & Hm & Hrest)].
  split; [exists i|exists b, m]; by rewrite Hsame.
Qed.

Lemma publish_images_ok img md image_ref image_id platform source final_dir :
  finished img -> md.(md_version) = 1 -> md.(md_filesystem) = bstr "ext4" -> md.(md_rootfs_file) = rootfs_name ->
  md.(md_image_id) = image_id -> md.(md_platform) = platform -> image_dir root image_id platform = Ok final_dir ->
  triple images_ok (staged [(metadata_name, metadata_json md); (rootfs_name, img)])
    (publish root staging_at final_dir image_ref image_id platform source) (fun ab d => images_ok d /\ standing ab.1 d).
Proof.
  intros Hf Hv Hfs Hrf Hid Hpl Hdir. unfold publish.
  eapply triple_bind with (Q := fun _ => staged [(metadata_name, metadata_json md); (rootfs_name, img)]).
  { apply staged_keeps, io_keeps, create_dir_all_keeps. destruct (image_dir_form root _ _ _ Hdir) as (c & -> & _).
    intros k Hk [_ [s E]]%prefixes_spec. unfold parent in E. rewrite removelast_app in E by done. simpl in E.
    apply (f_equal length) in E. rewrite !length_app in E. simpl in E.
    destruct Hk as [(? & ? & ? & -> & _)|[->|(nb & _ & ->)]]; unfold staging_at in E; rewrite !length_app in E; simpl in E; lia. }
  intros ?. eapply triple_bind; [apply staged_keeps; eauto with store|]. intros e.
  set (P := staged [(metadata_name, metadata_json md); (rootfs_name, img)]).
  eapply triple_bind with (Q := fun o d => P d /\ forall i, o = Some i -> standing i d).
  { destruct e; [apply cached_image_standing; by intros d [? _]|by apply triple_ret]. }
  intros [image|].
  - apply triple_ret. intros d [[Hd _] Hi]. split; [done|]. by apply Hi.
  - eapply triple_bind; [eapply triple_weaken; [by eapply rename_images_ok|by intros d [? _]|done]|]. intros ?. apply triple_ret.
    intros d [Hd Hs]. split; [done|]. right. exists final_dir. by subst.
Qed.

Lemma save_images_ok w image_ref image_id source mdg cdg layers platform final_dir :
  image_dir root image_id platform = Ok final_dir ->
  triple images_ok (staged []) (save_image root staging_at final_dir w image_ref image_id source mdg cdg layers platform)
    (fun ab d => images_ok d /\ standing ab.1 d).
Proof.
  intros Hdir. unfold save_image. eapply triple_bind; [apply on_writer_finish|]. intros _ h (img & Hf & Hs). revert h Hs.
  eapply triple_bind; [apply write_metadata_spec|]. intros _ h (now & Hs). revert h Hs. by eapply publish_images_ok.
Qed.
End Staging.

Lemma staging_create_spec :
  triple images_ok images_ok (staging_create root) (fun p d => exists n, p = staging_at n /\ staged n [] d).
Proof.
  assert (Hk : keeps (image_zone root) (io (create_dir_all (root ++ [bstr ".staging"])))).
  { apply io_keeps, create_dir_all_keeps. intros k. apply not_image_prefix. by vm_compute; set_solver. }
  unfold staging_create. eapply triple_bind; [by apply images_keeps|]. intros ?.
  eapply triple_bind; [apply images_keeps; eauto with store|]. intros now.
  set (n := bstr (pretty process_id) ++ [45] ++ bstr (pretty now)).
  assert (Hp : (root ++ [bstr ".staging"]) ++ [n] = staging_at n) by (unfold staging_at; by rewrite <- app_assoc).
  rewrite Hp. eapply triple_bind with (Q := fun _ => staged n []); [|intros ?; apply triple_ret; eauto].
  apply triple_attempt; [done..|]. intros d d' Hd. destruct (d !! staging_at n); [done|].
  destruct (is_dir_at _ _); [|done]. intros [= <-]. split; [|split; [by rewrite lookup_insert_eq|done]].
  revert Hd. apply images_ok_same. intros k Hz. rewrite lookup_insert_ne; [done|]. intros <-. revert Hz.
  apply not_image_zone. by vm_compute; set_solver.
Qed.

Lemma with_staging_images_ok (body : path -> St (RootfsImage * bool)) :
  (forall n, triple images_ok (staged n []) (body (staging_at n)) (fun ab d => images_ok d /\ standing ab.1 d)) ->
  triple images_ok images_ok (with_staging root body) (fun i d => images_ok d /\ standing i d).
Proof.
  intros Hb. unfold with_staging. eapply triple_bind; [apply staging_create_spec|].
  intros p h (n & -> & Hs). specialize (Hb n h Hs). unfold wp in *.
  assert (Hrm : forall h k, image_zone root k -> (remove_dir_all (staging_at n) h).2.(h_disk) !! k = h.(h_disk) !! k).
  { apply remove_dir_all_keeps. intros k Hk. apply not_true_iff_false.
    intros [s ->]%under_spec. revert Hk. unfold staging_at. rewrite <- app_assoc. apply not_image_zone. by vm_compute; set_solver. }
  destruct (body (staging_at n) h) as [[[a []]|e|] h']; [done| | |]; simpl in *.
  - destruct Hb. split; [by eapply images_ok_same; [apply Hrm|]|by eapply standing_same; [apply Hrm|]].
  - by eapply images_ok_same; [apply Hrm|].
  - by eapply images_ok_same; [apply Hrm|].
Qed.
End Images.

(** ** The store as a whole *)

(** A part of the disk below the root that the bookkeeping of the store stays out of. *)
Definition plain_names : list buffer :=
  [bstr "tmp"; bstr "manifests"; bstr ".staging"; bstr "index.json"; bstr "index.json" ++ bstr ".tmp"].
Class StoreZone (root : path) (Z : path -> Prop) : Prop := {
  zone_plain c r : c ∈ plain_names -> ~ Z (root ++ c :: r);
  zone_deep k : Z k -> (length root + 2 <= length k)%nat }.

#[export] Instance image_store_zone root : StoreZone root (image_zone root).
Proof.
  split.
  - intros c r Hc. apply not_image_zone. revert c Hc. apply Forall_forall.
    apply (bool_decide_unpack _). by vm_compute.
  - intros k (c & y & r & -> & _). rewrite length_app. simpl. lia.
Qed.

#[export] Instance blob_store_zone root : StoreZone root (blob_zone root).
Proof.
  split.
  - intros c r Hc [x E]. unfold blob_at in E. apply app_inv_head in E. injection E as -> _. revert Hc. apply (bool_decide_unpack _). by vm_compute.
  - intros k [x ->]. unfold blob_at. rewrite length_app. simpl. lia.
Qed.

Section KeepZone.
Context `{Deps} (root : path) (Z : path -> Prop) `{!StoreZone root Z}.

Lemma dirs_keep_zone c r : c ∈ plain_names -> keeps Z (io (create_dir_all (root ++ c :: r))).
Proof.
  intros Hc. apply io_keeps, create_dir_all_keeps. intros k Hk [_ [s E]]%prefixes_spec.
  pose proof (zone_deep k Hk) as Hl. assert (exists t, k = root ++ c :: t) as [t ->]; [|by eapply zone_plain].
  apply app_eq_inv in E as [(t & -> & _)|([|c' t] & -> & E)]; [rewrite length_app in Hl; lia| |].
  - rewrite app_nil_r in Hl. lia.
  - injection E as <- _. eauto.
Qed.

Lemma short_dirs_keep_zone p : (length p <= S (length root))%nat -> keeps Z (io (create_dir_all p)).
Proof.
  intros Hp. apply io_keeps, create_dir_all_keeps. intros k Hk [_ [s ->]]%prefixes_spec.
  apply zone_deep in Hk. rewrite length_app in Hp. lia.
Qed.

Lemma rename_keep_zone c r c' r' : c ∈ plain_names -> c' ∈ plain_names -> keeps Z (io (rename (root ++ c :: r) (root ++ c' :: r'))).
Proof.
  intros Hc Hc'. apply io_keeps, rename_keeps. intros k Hk.
  split; apply not_true_iff_false; intros [s ->]%under_spec; revert Hk; rewrite <- app_assoc; by apply zone_plain.
Qed.

Lemma write_keep_zone c r b : c ∈ plain_names -> keeps Z (io (write (root ++ c :: r) b)).
Proof. intros Hc. by apply io_keeps, write_keeps, zone_plain. Qed.

Lemma tmp_plain : bstr "tmp" ∈ plain_names.
Proof. apply (bool_decide_unpack _). by vm_compute. Qed.
Lemma manifests_plain : bstr "manifests" ∈ plain_names.
Proof. apply (bool_decide_unpack _). by vm_compute. Qed.
Lemma staging_plain : bstr ".staging" ∈ plain_names.
Proof. apply (bool_decide_unpack _). by vm_compute. Qed.
Lemma index_plain : bstr "index.json" ∈ plain_names.
Proof. apply (bool_decide_unpack _). by vm_compute. Qed.
Lemma index_tmp_plain : bstr "index.json" ++ bstr ".tmp" ∈ plain_names.
Proof. apply (bool_decide_unpack _). by vm_compute. Qed.
#[local] Hint Resolve tmp_plain manifests_plain staging_plain index_plain index_tmp_plain : core.

Lemma lock_keep_zone n : keeps Z (lock_exclusive (root ++ [bstr "tmp"; n])).
Proof.
  unfold lock_exclusive. apply sbind_keeps; [|intros ?; by apply io_keeps, open_file_keeps, zone_plain].
  unfold parent. rewrite removelast_app by done. by apply dirs_keep_zone.
Qed.

Lemma write_manifest_metadata_keep_zone image_ref resolved platform : keeps Z (write_manifest_metadata root image_ref resolved platform).
Proof.
  unfold write_manifest_metadata, manifest_dir. destruct (image_id_path_component _) as [c|e|]; [|done..]. cbn [obind].
  set (dir := root ++ [bstr "manifests"; c]).
  assert (Hd : forall n, dir ++ [n] = root ++ bstr "manifests" :: [c; n]) by (intros n; unfold dir; by rewrite <- app_assoc).
  apply keeps_ok. apply sbind_keeps; [by apply dirs_keep_zone|]. intros ?.
  apply sbind_keeps; [eauto with store|]. intros now. cbv zeta. rewrite !Hd.
  apply sbind_keeps; [by apply write_keep_zone|]. intros ?. by apply rename_keep_zone.
Qed.

Lemma update_tag_mapping_keep_zone image_ref platform dg : keeps Z (update_tag_mapping root image_ref platform dg).
Proof.
  unfold update_tag_mapping. apply sbind_keeps; [eauto with store|]. intros index.
  apply sbind_keeps; [eauto with store|]. intros now. unfold write_index, index_path.
  apply sbind_keeps; [apply short_dirs_keep_zone; lia|]. intros ?. cbv zeta.
  apply sbind_keeps; [by apply write_keep_zone|]. intros ?. by apply rename_keep_zone.
Qed.
End KeepZone.

(** An invariant of the store, through all the ways to get an image, and what holds of the
    image they return. *)
Class StoreInv `{Deps} (root : path) (Z : path -> Prop) (I : gmap path node -> Prop)
    (J : RootfsImage -> gmap path node -> Prop) : Prop := {
  inv_zone :: StoreZone root Z;
  inv_same d d' : (forall k, Z k -> d' !! k = d !! k) -> I d -> I d';
  inv_download reference image_ref layer :
    triple I I (get_or_download_layer root reference image_ref layer) (fun _ => I);
  inv_save prep final_dir image_ref image_id source mdg cdg layers platform :
    image_dir root image_id platform = Ok final_dir ->
    (forall n, keeps (fun k => k <> staging_at root n ++ [rootfs_name]) (prep (staging_at root n))) ->
    triple I I (with_staging root (fun staging => w <-- prep staging ;;
      save_image root staging final_dir w image_ref image_id source mdg cdg layers platform)) (fun i d => I d /\ J i d);
  inv_image_same i d d' : (forall k, Z k -> d' !! k = d !! k) -> J i d -> J i d';
  inv_cached image_ref image_id platform source :
    triple I I (cached_image root image_ref image_id platform source) (fun o d => I d /\ forall i, o = Some i -> J i d);
  inv_disk i d : i.(i_source) = FromDisk -> J i d }.

Section Whole.
Context `{Deps} (root : path) (zn : path -> Prop) (I : gmap path node -> Prop) (J : RootfsImage -> gmap path node -> Prop).
Context `{!StoreInv root zn I J}.
Abbreviation image_post := (fun i d => I d /\ J i d).

Lemma inv_keeps {A : Type} (m : St A) : keeps zn m -> triple I I m (fun _ => I).
Proof. intros Hm. eapply triple_keeps; [done|apply inv_same|done]. Qed.

Lemma inv_ret {A : Type} (a : A) : triple I I (sret a : St A) (fun _ => I).
Proof. by apply triple_ret. Qed.

Lemma root_dir_inv : triple I I (io (create_dir_all root)) (fun _ => I).
Proof. apply inv_keeps. apply (short_dirs_keep_zone root zn). lia. Qed.

Lemma download_all_inv reference image_ref layers : triple I I (download_all root reference image_ref layers) (fun _ => I).
Proof.
  induction layers as [|[i l] layers IH]; simpl; [apply inv_ret|].
  eapply triple_bind; [apply inv_download|]. intros p. eapply triple_bind; [apply IH|]. intros ?. apply inv_ret.
Qed.

(** What can be written before the image is saved. *)
Lemma prep_keeps n : ~ (staging_at root n ++ [rootfs_name] <> staging_at root n ++ [rootfs_name]).
Proof. intros Hk. by apply Hk. Qed.
#[local] Hint Resolve prep_keeps : store.

Lemma inv_miss {A : Type} (F : gmap path node -> Prop) (m : St A) Q : triple I I m Q -> triple I (fun d => I d /\ F d) m Q.
Proof. intros Hm h [Hh _]. by apply Hm. Qed.

(** The end that the three share: the directory of the image is known or there is an error. *)
Lemma inv_saved (o : outcome OciDiskError path) prep image_ref image_id source mdg cdg layers platform :
  o = image_dir root image_id platform ->
  (forall n, keeps (fun k => k <> staging_at root n ++ [rootfs_name]) (prep (staging_at root n))) ->
  triple I I (final_dir <-- stry o ;; with_staging root (fun staging => w <-- prep staging ;;
      save_image root staging final_dir w image_ref image_id source mdg cdg layers platform)) image_post.
Proof.
  intros -> Hp. destruct (image_dir root image_id platform) as [final_dir|e|] eqn:Hdir;
    [apply triple_ok; by apply inv_save|by intros h Hh|by intros h Hh].
Qed.

Lemma get_or_create_rootfs_tar_inv image_ref p options : triple I I (get_or_create_rootfs_tar root image_ref p options) image_post.
Proof.
  unfold get_or_create_rootfs_tar. eapply triple_bind; [apply root_dir_inv|]. intros ?.
  eapply triple_bind; [apply inv_keeps; eauto with store|]. intros q.
  do 2 (eapply triple_bind; [apply inv_keeps; eauto with store|]; intros ?). cbv zeta.
  eapply triple_bind; [apply inv_cached|]. intros cached. destruct cached; [apply triple_ret; naive_solver|]. apply inv_miss.
  apply inv_saved; [done|]. intros n. unfold read_file. keeps_tac.
Qed.

Lemma get_or_create_oci_archive_inv image_ref p options : triple I I (get_or_create_oci_archive root image_ref p options) image_post.
Proof.
  unfold get_or_create_oci_archive, read_file. eapply triple_bind; [apply root_dir_inv|]. intros ?.
  do 3 (eapply triple_bind; [apply inv_keeps; eauto with store|]; intros ?). cbv zeta.
  eapply triple_bind; [apply inv_cached|]. intros cached. destruct cached; [apply triple_ret; naive_solver|]. apply inv_miss.
  apply inv_saved; [done|]. intros n. keeps_tac.
Qed.

Lemma create_rootfs_inv order image_ref resolved options : triple I I (create_rootfs root order image_ref resolved options) image_post.
Proof.
  unfold create_rootfs. cbv zeta. destruct (image_dir root _ _) as [final_dir|e|] eqn:Hdir; [|by intros h Hh..].
  apply triple_ok. eapply triple_bind; [apply inv_keeps; eauto with store|]. intros e.
  eapply triple_bind with (Q := fun o d => I d /\ forall i, o = Some i -> J i d); [destruct e; [apply inv_cached|by apply triple_ret]|].
  intros cached. destruct cached; [apply triple_ret; naive_solver|]. apply inv_miss.
  eapply triple_bind; [eapply triple_bind; [apply download_all_inv|intros ?; apply inv_ret]|].
  intros blobs. apply inv_save; [done|]. intros n. keeps_tac.
Qed.

Lemma get_or_create_remote_oci_inv order image_ref options :
  triple I I (get_or_create_remote_oci root order image_ref options) image_post.
Proof.
  unfold get_or_create_remote_oci. cbv zeta. eapply triple_bind; [apply root_dir_inv|]. intros ?.
  eapply triple_bind; [apply inv_keeps; eauto with store|]. intros [canonical_ref dg].
  do 2 (eapply triple_bind; [apply inv_keeps; eauto with store|]; intros ?).
  unfold image_lock_path. destruct (image_id_path_component _) as [c|e|]; [|by intros h Hh..]. cbn [obind]. apply triple_ok.
  eapply triple_bind; [apply inv_keeps, lock_keep_zone; apply inv_zone|]. intros ?.
  eapply triple_bind; [apply inv_keeps, write_manifest_metadata_keep_zone; apply inv_zone|]. intros ?.
  eapply triple_bind; [apply inv_cached|]. intros cached.
  eapply triple_bind with (Q := image_post).
  { destruct cached; [apply triple_ret; naive_solver|apply inv_miss, create_rootfs_inv]. }
  intros image. eapply triple_bind with (Q := fun _ => image_post image); [|intros ?; by apply triple_ret].
  destruct (bool_decide _); [|by apply triple_ret]. eapply triple_keeps; [apply (update_tag_mapping_keep_zone root zn)| |naive_solver].
  intros d d' Hs [Hi Hj]. split; [by eapply inv_same|by eapply inv_image_same].
Qed.

Lemma get_or_create_inv order image_ref options : triple I I (get_or_create root order image_ref options) image_post.
Proof.
  unfold get_or_create. eapply triple_bind; [apply inv_keeps; eauto with store|]. intros [r|p|p|p].
  - apply get_or_create_remote_oci_inv.
  - unfold local_disk. eapply triple_bind; [apply inv_keeps; eauto with store|]. intros ?.
    apply triple_ret. intros d Hd. split; [done|]. by apply inv_disk.
  - apply get_or_create_rootfs_tar_inv.
  - apply get_or_create_oci_archive_inv.
Qed.
End Whole.

(** ** The two invariants *)

Lemma keeps_mono {A} (Z Z' : path -> Prop) (m : host -> A * host) : (forall k, Z k -> Z' k) -> keeps Z' m -> keeps Z m.
Proof. intros HZ Hm h k Hk. by apply Hm, HZ. Qed.

Section Invariants.
Context `{Deps} (root : path).

Lemma get_or_download_layer_keeps_images reference image_ref layer :
  keeps (image_zone root) (get_or_download_layer root reference image_ref layer).
Proof.
  unfold get_or_download_layer, blob_path, blob_part_path, blob_lock_path.
  destruct (digest_path_components layer.(digest)) as [[a x]|e|]; [|done..]. cbn [obind]. do 3 apply keeps_ok.
  set (blob := root ++ [bstr "blobs"; a; x]). set (part := root ++ [bstr "tmp"; a ++ [45] ++ x ++ bstr ".part"]).
  assert (Hdash : 45 ∉ bstr "blobs") by (apply (bool_decide_unpack _); by vm_compute).
  assert (Hb : ~ image_zone root blob) by (by apply not_image_zone).
  assert (Hp : ~ image_zone root part) by (apply zone_plain, tmp_plain).
  assert (Hdb : keeps (image_zone root) (io (create_dir_all (parent blob)))).
  { unfold blob, parent. rewrite removelast_app by done. apply io_keeps, create_dir_all_keeps. intros k. by apply not_image_prefix. }
  assert (Hdp : keeps (image_zone root) (io (create_dir_all (parent part)))).
  { unfold part, parent. rewrite removelast_app by done. apply dirs_keep_zone; [apply _|apply tmp_plain]. }
  assert (Hr : keeps (image_zone root) (io (rename part blob))).
  { apply io_keeps, rename_keeps. intros k Hk. split; apply not_true_iff_false; intros [s ->]%under_spec; revert Hk;
      unfold part, blob; rewrite <- app_assoc; [apply zone_plain, tmp_plain|by apply not_image_zone]. }
  assert (Hpr : keeps (image_zone root) (promote_layer_part part blob)) by (unfold promote_layer_part; keeps_tac).
  assert (Hdl : forall offset, keeps (image_zone root) (download_layer reference image_ref layer blob part offset)).
  { intros offset. unfold download_layer. keeps_tac. }
  pose proof (lock_keep_zone root (image_zone root)) as Hlock. keeps_tac.
Qed.

#[export] Instance images_ok_inv `{!DepsLaws} : StoreInv root (image_zone root) (images_ok root) (standing root).
Proof.
  split; [apply _|apply images_ok_same| | |apply standing_same|by intros; apply cached_image_standing|by left].
  - intros. apply images_keeps, get_or_download_layer_keeps_images.
  - intros prep final_dir image_ref image_id source mdg cdg layers platform Hdir Hp. apply with_staging_images_ok.
    intros n. eapply triple_bind; [apply staged_keeps|intros w; by apply save_images_ok].
    eapply keeps_mono; [|apply Hp]. intros k Hk ->. revert Hk. apply not_staged_zone. set_solver.
Qed.

Lemma blobs_ok_same d d' : (forall k, blob_zone root k -> d' !! k = d !! k) -> blobs_ok root d -> blobs_ok root d'.
Proof. intros Hs. apply (blob_safe_shrinks root). by apply same_shrinks. Qed.

Lemma blobs_keeps {A : Type} (m : St A) : keeps (blob_zone root) m -> triple (blobs_ok root) (blobs_ok root) m (fun _ => blobs_ok root).
Proof. intros Hm. eapply triple_keeps; [done|apply blobs_ok_same|done]. Qed.

Lemma staging_create_blobs_ok :
  triple (blobs_ok root) (blobs_ok root) (staging_create root) (fun p d => blobs_ok root d /\ exists n, p = staging_at root n).
Proof.
  unfold staging_create. cbv zeta.
  eapply triple_bind; [apply blobs_keeps, dirs_keep_zone; [apply _|apply staging_plain]|]. intros ?.
  eapply triple_bind; [apply blobs_keeps; eauto with store|]. intros now. rewrite <- app_assoc.
  eapply triple_bind; [apply blobs_keeps, io_keeps, create_dir_keeps, zone_plain, staging_plain|]. intros ?.
  apply triple_ret. intros d Hd. split; [done|]. by eexists.
Qed.

Lemma save_image_keeps_blobs n final_dir w image_ref image_id source mdg cdg layers platform :
  image_dir root image_id platform = Ok final_dir ->
  keeps (blob_zone root) (save_image root (staging_at root n) final_dir w image_ref image_id source mdg cdg layers platform).
Proof.
  intros (c & -> & Hc)%image_dir_form.
  assert (Hn : forall name, ~ blob_zone root (staging_at root n ++ [name])).
  { intros name. unfold staging_at. rewrite <- app_assoc. apply zone_plain, staging_plain. }
  assert (Hd : keeps (blob_zone root) (io (create_dir_all (parent (root ++ [c; cache_key platform]))))).
  { apply (short_dirs_keep_zone root (blob_zone root)). unfold parent. rewrite removelast_app, length_app by done. simpl. lia. }
  assert (Hr : keeps (blob_zone root) (io (rename (staging_at root n) (root ++ [c; cache_key platform])))).
  { apply io_keeps, rename_keeps. intros k Hk. split; apply not_true_iff_false; intros [s ->]%under_spec.
    - revert Hk. unfold staging_at. rewrite <- app_assoc. apply zone_plain, staging_plain.
    - destruct Hk as [x E]. unfold blob_at in E. rewrite <- app_assoc in E. apply app_inv_head in E. injection E as -> _ _.
      revert Hc. apply (bool_decide_unpack _). by vm_compute. }
  unfold save_image, publish. keeps_tac.
Qed.

#[export] Instance blobs_ok_inv : StoreInv root (blob_zone root) (blobs_ok root) (fun _ _ => True).
Proof.
  split; [apply _|apply blobs_ok_same| | |done| |done].
  3:{ intros. eapply triple_weaken; [apply blobs_keeps; eauto with store|done|naive_solver]. }
  - intros reference image_ref layer. destruct (digest_path_components layer.(digest)) as [[a x]|e|] eqn:Hd.
    + destruct (digest_path_components_ok _ _ _ Hd) as [-> _].
      eapply triple_weaken; [by apply (get_or_download_layer_spec root (blobs_ok root) _ x Hd)|done|by intros p d [? _]].
    + intros h Hh. unfold wp, get_or_download_layer, blob_path, blob_part_path, blob_lock_path. by rewrite Hd.
    + intros h Hh. unfold wp, get_or_download_layer, blob_path, blob_part_path, blob_lock_path. by rewrite Hd.
  - intros prep final_dir image_ref image_id source mdg cdg layers platform Hdir Hp. unfold with_staging.
    eapply triple_bind; [apply staging_create_blobs_ok|]. intros p h (Hb & n & ->).
    assert (Hbody : keeps (blob_zone root) (w <-- prep (staging_at root n) ;;
      save_image root (staging_at root n) final_dir w image_ref image_id source mdg cdg layers platform)).
    { apply sbind_keeps; [|intros w; by apply save_image_keeps_blobs]. eapply keeps_mono; [|apply Hp].
      intros k Hk ->. revert Hk. unfold staging_at. rewrite <- app_assoc. apply zone_plain, staging_plain. }
    assert (Hrm : forall h, blobs_ok root h.(h_disk) -> blobs_ok root (remove_dir_all (staging_at root n) h).2.(h_disk)).
    { intros h1. apply blobs_ok_same. apply remove_dir_all_keeps. intros k Hk. apply not_true_iff_false.
      intros [s ->]%under_spec. revert Hk. unfold staging_at. rewrite <- app_assoc. apply zone_plain, staging_plain. }
    pose proof (blobs_keeps _ Hbody h Hb) as Hw. unfold wp in *.
    destruct (sbind _ _ h) as [[[i []]|e|] h']; auto.
Qed.
End Invariants.

(** C31 get_or_create_keeps_store: whichever operations of the file system fail, and whatever
    the registry answers, [get_or_create] leaves every directory of an image complete, with a
    finished ext4 image and metadata that belong to the directory, and every blob with the
    hash of its name: there is never a half-made entry, not even after a crash.  An image it
    returns is such an entry, at the path of its identifier and platform, unless it is a
    local disk. *)
Theorem get_or_create_keeps_store `{DepsLaws} root order image_ref options (h h' : host) r :
  get_or_create root order image_ref options h = (r, h') ->
  (blobs_ok root h.(h_disk) -> blobs_ok root h'.(h_disk)) /\
  (images_ok root h.(h_disk) -> images_ok root h'.(h_disk) /\
    forall image, r = Ok image -> image.(i_source) <> FromDisk ->
      exists dir img, image_dir root image.(i_image_id) image.(i_platform) = Ok dir /\ image.(i_path) = dir ++ [rootfs_name] /\
        h'.(h_disk) !! image.(i_path) = Some (FsFile img) /\ finished img).
Proof.
  intros Hr. split; intros Hi.
  - pose proof (get_or_create_inv root _ (blobs_ok root) _ order image_ref options h Hi) as Hw. unfold wp in Hw. rewrite Hr in Hw.
    destruct r; [by destruct Hw|done..].
  - pose proof (get_or_create_inv root _ (images_ok root) _ order image_ref options h Hi) as Hw. unfold wp in Hw. rewrite Hr in Hw.
    destruct r as [i|e|]; [|done..]. destruct Hw as [Hw Hs]. split; [done|]. intros image [= <-] Hd.
    destruct Hs as [?|(dir & Hdir & -> & Hsome)]; [done|].
    destruct (Hw _ _ dir Hdir Hsome) as [(img & Himg & Hf) _]. by exists dir, img.
Qed.
