(* ===== verification/OciResume.v ===== *)
(** * Downloads that were interrupted

    On a host where no operation fails and with a registry that sends the layer,
    [get_or_download_layer] takes a part file up where it ends.  A part file that is no
    beginning of the layer costs one attempt and is gone after it. *)

From stdpp Require Import base list option numbers strings gmap.
From S2P Require Import Prelude Bytes Utf8 Str Errors Paths OciLayer HostFs HostProg OciResolve OciStore OciStoreSpec.

Section Remove.
Context (R : OciDiskError -> gmap path node -> Prop).

(** [remove_file_if_exists] where there is no directory *)
Lemma remove_total (P : gmap path node -> Prop) (Q : gmap path node -> Prop) p :
  (forall d, P d -> d !! p <> Some FsDir /\ Q (delete p d)) -> total P (remove_file_if_exists p) (fun _ => Q) R.
Proof.
  intros HP. unfold remove_file_if_exists.
  eapply total_bind with (Q := fun r d => (r = inl tt \/ r = inr IoNotFound) /\ Q d).
  - apply total_attempt_result. intros d Hd. destruct (HP d Hd) as [Hn Hq].
    destruct (d !! p) as [[b|]|] eqn:E; [by auto|done|]. split; [by right|]. by rewrite delete_id in Hq.
  - intros r h Hf [[->| ->] Hq]; by split.
Qed.
End Remove.

(** ** One layer *)

(** The registry sends this content, whole, or from an offset on. *)
Class Honest `{Deps} (reference : buffer) (layer : ResolvedLayer) (content : buffer) : Prop := {
  honest_full n : exists cs, pull_blob_stream n reference (layer_descriptor layer) = Some (Some <$> cs) /\ concat cs = content;
  honest_partial n offset : 0 < offset < zlen content ->
    exists cs, (pull_blob_stream_partial n reference (layer_descriptor layer) offset (zlen content - offset)
                  = Some (Partial (Some <$> cs)) /\ concat cs = drop (Z.to_nat offset) content) \/
               (pull_blob_stream_partial n reference (layer_descriptor layer) offset (zlen content - offset)
                  = Some (Full (Some <$> cs)) /\ concat cs = content) }.

Section Resume.
Context `{Deps} (root : path) (reference image_ref : buffer) (layer : ResolvedLayer) (content : buffer).
Context (x : buffer) (Hdg : digest_path_components layer.(digest) = Ok (bstr "sha256", x)).
Context (Hhash : hex_digest (sha256 content) = x) (Hsize : layer.(size_bytes) = zlen content).
Context `{!Honest reference layer content}.

Definition tmp_at : path := root ++ [bstr "tmp"].
Definition sha_at : path := root ++ [bstr "blobs"; bstr "sha256"].
Abbreviation blob := (blob_at root x).
Abbreviation part := (part_at root x).
Abbreviation lock := (lock_at root x).

(** Nothing is in the way of the directories and files of a download; [pf] is the part file. *)
Definition room (pf : option buffer) (d : gmap path node) : Prop :=
  no_file (prefixes tmp_at) d /\ no_file (prefixes sha_at) d /\
  d !! blob <> Some FsDir /\ d !! lock <> Some FsDir /\ d !! part = FsFile <$> pf.

(** The same, with the directories made and no blob. *)
Definition prepared (pf : option buffer) (d : gmap path node) : Prop :=
  room pf d /\ d !! tmp_at = Some FsDir /\ d !! sha_at = Some FsDir /\ d !! blob = None.

Lemma parent_part : parent part = tmp_at.
Proof. unfold parent, part_at. by rewrite removelast_app. Qed.
Lemma parent_lock : parent lock = tmp_at.
Proof. unfold parent, lock_at. by rewrite removelast_app. Qed.
Lemma parent_blob : parent blob = sha_at.
Proof. unfold parent, blob_at. by rewrite removelast_app. Qed.

(** The files are none of the directories. *)
Lemma files_apart k p : k ∈ [blob; lock; part] -> p ∈ [tmp_at; sha_at] -> k ∉ prefixes p.
Proof.
  intros Hk Hp [_ [s E]]%prefixes_spec. set_unfold in Hk. set_unfold in Hp.
  destruct_or? Hk; destruct_or? Hp; try done; subst k p; unfold blob_at, lock_at, part_at, tmp_at, sha_at in E;
    rewrite <- ?app_assoc in E; apply app_inv_head in E; by simplify_eq/=.
Qed.

Lemma no_file_same ps d d' : (forall q, q ∈ ps -> d' !! q = d !! q) -> no_file ps d -> no_file ps d'.
Proof. intros Hs Hn q b Hq. rewrite Hs by done. by apply Hn. Qed.

Lemma names_differ : blob <> lock /\ blob <> part /\ lock <> part.
Proof.
  unfold blob_at, lock_at, part_at. split; [|split]; intros E; apply app_inv_head in E; try done.
  apply (f_equal (fun l => length (concat l))) in E. cbn [concat] in E. rewrite !length_app in E. simpl in E. lia.
Qed.

Lemma room_dirs pf p d : p ∈ [tmp_at; sha_at] -> room pf d -> room pf (add_dirs (prefixes p) d).
Proof.
  intros Hp (Ht & Hs & Hb & Hl & Hpf). unfold room.
  rewrite !add_dirs_lookup by (apply files_apart; [set_solver|done]). split_and!; try done; by apply add_dirs_no_file.
Qed.

(** A change to one of the three files *)
Lemma room_update pf pf' k d d' : k ∈ [blob; lock; part] -> (forall q, q <> k -> d' !! q = d !! q) ->
  d' !! k <> Some FsDir -> (k = part -> d' !! part = FsFile <$> pf') -> (k <> part -> pf' = pf) -> room pf d -> room pf' d'.
Proof.
  intros Hk Hs Hn Hp Hpf (Ht & Hsh & Hb & Hl & Hpart).
  assert (Hd : forall p, p ∈ [tmp_at; sha_at] -> no_file (prefixes p) d -> no_file (prefixes p) d').
  { intros p Hpp. apply no_file_same. intros q Hq. apply Hs. intros ->. by apply (files_apart k p). }
  assert (Hk' : forall q, d !! q <> Some FsDir -> d' !! q <> Some FsDir).
  { intros q Hq. destruct (decide (q = k)) as [->|Hne]; [done|]. by rewrite Hs. }
  split_and!; [apply Hd; [set_solver|done]..|by apply Hk'|by apply Hk'|].
  destruct (decide (k = part)) as [E|E]; [by apply Hp|]. rewrite Hs, Hpart by congruence. by rewrite Hpf.
Qed.

Section Steps.
Context (R : OciDiskError -> gmap path node -> Prop).

Lemma tmp_dirs pf d : room pf d -> room pf (add_dirs (prefixes tmp_at) d) /\ add_dirs (prefixes tmp_at) d !! tmp_at = Some FsDir.
Proof.
  intros Hr. split; [apply room_dirs; [set_solver|done]|]. apply add_dirs_dir; [|apply Hr].
  apply prefixes_self. unfold tmp_at. by destruct root.
Qed.

Lemma sha_dirs pf d : room pf d -> room pf (add_dirs (prefixes sha_at) d) /\ add_dirs (prefixes sha_at) d !! sha_at = Some FsDir.
Proof.
  intros Hr. split; [apply room_dirs; [set_solver|done]|]. apply add_dirs_dir; [|apply Hr].
  apply prefixes_self. unfold sha_at. by destruct root.
Qed.

Lemma dir_not_file k p : k ∈ [blob; lock; part] -> p ∈ [tmp_at; sha_at] -> p <> k.
Proof. intros Hk Hp ->. apply (files_apart k k Hk Hp). apply prefixes_self. set_unfold in Hk. destruct_or? Hk; subst; by destruct root. Qed.

Lemma update_file_prepared pf b d : prepared pf d -> prepared (Some b) (<[part := FsFile b]> d).
Proof.
  intros (Hr & Ht & Hs & Hb). destruct names_differ as (N1 & N2 & N3). split_and!.
  - eapply (room_update pf (Some b) part d); [set_solver|by intros q Hq; apply lookup_insert_ne|by rewrite lookup_insert_eq|by rewrite lookup_insert_eq|done|done].
  - rewrite lookup_insert_ne; [done|]. apply not_eq_sym, dir_not_file; set_solver.
  - rewrite lookup_insert_ne; [done|]. apply not_eq_sym, dir_not_file; set_solver.
  - by rewrite lookup_insert_ne.
Qed.

Lemma delete_file_prepared pf d : prepared pf d -> prepared None (delete part d).
Proof.
  intros (Hr & Ht & Hs & Hb). destruct names_differ as (N1 & N2 & N3). split_and!.
  - eapply (room_update pf None part d); [set_solver|by intros q Hq; apply lookup_delete_ne|by rewrite lookup_delete_eq|by rewrite lookup_delete_eq|done|done].
  - rewrite lookup_delete_ne; [done|]. apply not_eq_sym, dir_not_file; set_solver.
  - rewrite lookup_delete_ne; [done|]. apply not_eq_sym, dir_not_file; set_solver.
  - by rewrite lookup_delete_ne.
Qed.

Lemma prepared_part pf d : prepared pf d -> d !! part = FsFile <$> pf.
Proof. intros [(_ & _ & _ & _ & Hp) _]. done. Qed.

Lemma prepared_writable pf d : prepared pf d -> writable d part = None.
Proof. intros Hp. apply writable_dir; [rewrite (prepared_part pf d Hp); by destruct pf|]. rewrite parent_part. by destruct Hp as (_ & ? & _). Qed.

Lemma remove_part_total pf : total (prepared pf) (remove_file_if_exists part) (fun _ => prepared None) R.
Proof.
  apply remove_total. intros d Hd. split; [rewrite (prepared_part pf d Hd); by destruct pf|]. by apply (delete_file_prepared pf).
Qed.

Lemma open_total pf append : total (prepared pf) (io (open_file part (negb append)))
  (fun _ => prepared (Some (if append : bool then default [] pf else []))) R.
Proof.
  apply total_attempt. intros d Hd. rewrite (prepared_writable pf d Hd). eexists. split; [done|].
  unfold data_at. rewrite (prepared_part pf d Hd). destruct append, pf; by eapply update_file_prepared.
Qed.

Lemma chunks_total cs b : total (prepared (Some b)) (write_chunks part (Some <$> cs)) (fun _ => prepared (Some (b ++ concat cs))) R.
Proof.
  revert b. induction cs as [|c cs IH]; intros b; simpl.
  - apply total_ret. by rewrite app_nil_r.
  - eapply total_bind; [|intros ?; rewrite app_assoc; apply IH]. apply total_attempt. intros d Hd.
    rewrite (prepared_writable _ d Hd). eexists. split; [done|]. unfold data_at. rewrite (prepared_part _ d Hd).
    by eapply update_file_prepared.
Qed.

Lemma length_total b : total (prepared (Some b)) (io (metadata part)) (fun n d => prepared (Some b) d /\ n = FsFile b) R.
Proof. apply total_look. intros d Hd. rewrite (prepared_part _ d Hd). simpl. eauto. Qed.

Lemma write_layer_stream_total pf append cs b :
  b = (if append : bool then default [] pf else []) ++ concat cs -> zlen b = zlen content ->
  total (prepared pf) (write_layer_stream part (Some <$> cs) append layer) (fun _ => prepared (Some b)) R.
Proof.
  intros -> Hl. unfold write_layer_stream. eapply total_bind; [apply open_total|]. intros ?.
  eapply total_bind; [apply chunks_total|]. intros ?. eapply total_bind; [apply length_total|].
  intros n h Hf [Hd ->]. simpl. rewrite Hsize, Hl, Z.eqb_refl. by split.
Qed.

Lemma verify_total b : zlen b = zlen content ->
  (hex_digest (sha256 b) <> x -> forall d, prepared None d -> R (LayerDigestMismatch layer.(digest) (hex_digest (sha256 b))) d) ->
  total (prepared (Some b)) (verify_layer_file part layer) (fun _ d => prepared (Some b) d /\ hex_digest (sha256 b) = x) R.
Proof.
  intros Hl HR. unfold verify_layer_file, sha256_file. rewrite Hdg. eapply total_bind; [apply length_total|].
  intros n. apply total_and. intros ->. simpl. rewrite Hsize, Hl, Z.eqb_refl. simpl.
  eapply total_bind with (Q := fun a d => prepared (Some b) d /\ a = hex_digest (sha256 b)).
  { eapply total_bind with (Q := fun c d => prepared (Some b) d /\ c = b).
    - apply total_look. intros d Hd. rewrite (prepared_part _ d Hd). simpl. eauto.
    - intros c. apply total_ret. naive_solver. }
  intros a. apply total_and. intros ->. apply total_ok. simpl. case_bool_decide as Hx; simpl.
  - by apply total_ret.
  - eapply total_bind; [apply remove_part_total|]. intros ?. by apply total_fail, HR.
Qed.

Lemma promote_total b : hex_digest (sha256 b) = x ->
  total (prepared (Some b)) (promote_layer_part part blob) (fun _ d => room None d /\ hashed blob x d) R.
Proof.
  intros Hx. unfold promote_layer_part. rewrite parent_blob. destruct names_differ as (N1 & N2 & N3).
  eapply total_bind with (Q := fun _ => prepared (Some b)); [|intros ?; eapply total_bind with (Q := fun _ => prepared (Some b))].
  - apply create_dir_all_total. intros d (Hr & Ht & Hs & Hb). destruct (sha_dirs _ _ Hr) as [Hr' Hs']. split; [apply Hr|].
    split_and!; [done|by apply add_dirs_kept|done|]. rewrite add_dirs_lookup; [done|]. apply files_apart; set_solver.
  - apply remove_total. intros d Hd. destruct Hd as (Hr & Ht & Hs & Hb). rewrite Hb. split; [done|]. by rewrite delete_id.
  - intros ?. apply total_attempt. intros d Hd. rewrite (prepared_part _ d Hd). simpl.
    destruct Hd as (Hr & Ht & Hs & Hb). rewrite writable_dir; [|by rewrite Hb|by rewrite parent_blob].
    eexists. split; [done|]. split; [|exists b; by rewrite lookup_insert_eq].
    eapply (room_update None None blob (delete part d)); [set_solver|by intros q Hq; apply lookup_insert_ne|by rewrite lookup_insert_eq|done|done|].
    eapply (room_update (Some b) None part d); [set_solver|by intros q Hq; apply lookup_delete_ne|by rewrite lookup_delete_eq|by rewrite lookup_delete_eq|done|done].
Qed.

(** From the stream on *)
Lemma finish_total pf append cs b :
  b = (if append : bool then default [] pf else []) ++ concat cs -> zlen b = zlen content ->
  (hex_digest (sha256 b) <> x -> forall d, prepared None d -> R (LayerDigestMismatch layer.(digest) (hex_digest (sha256 b))) d) ->
  total (prepared pf)
    (_ <-- write_layer_stream part (Some <$> cs) append layer ;; _ <-- verify_layer_file part layer ;;
     _ <-- promote_layer_part part blob ;; sret blob)
    (fun p d => p = blob /\ room None d /\ hashed blob x d) R.
Proof.
  intros Hb Hl HR. eapply total_bind; [by apply write_layer_stream_total|]. intros ?.
  eapply total_bind; [by apply verify_total|]. intros ?. apply total_and. intros Hx.
  eapply total_bind; [by apply promote_total|]. intros ?. by apply total_ret.
Qed.

(** A download from the start *)
Lemma download_full_total pf : total (prepared pf) (download_layer reference image_ref layer blob part 0)
  (fun p d => p = blob /\ room None d /\ hashed blob x d) R.
Proof.
  unfold download_layer, layer_stream, pull_layer_stream. simpl.
  eapply total_bind with (Q := fun sa d => prepared pf d /\ exists cs, sa = (Some <$> cs, false) /\ concat cs = content).
  - eapply total_bind with (Q := fun s d => prepared pf d /\ exists cs, s = Some <$> cs /\ concat cs = content).
    + eapply total_bind; [apply total_request|]. intros r h Hf [Hd [n ->]]. destruct (honest_full n) as (cs & Hcs & Hc).
      rewrite Hcs. simpl. eauto 10.
    + intros s'. apply total_ret. intros d (Hd & cs & -> & Hc). eauto 10.
  - intros sa. apply total_and. intros (cs & -> & Hc). simpl. apply (finish_total _ _ _ content); [by rewrite Hc|done|].
    by intros Hne.
Qed.

(** The download goes on from the end of a part file. *)
Lemma download_partial_total b : 0 < zlen b < zlen content ->
  (~ b `prefix_of` content -> forall e d, prepared None d -> R e d) ->
  total (prepared (Some b)) (download_layer reference image_ref layer blob part (zlen b))
    (fun p d => p = blob /\ room None d /\ hashed blob x d) R.
Proof.
  intros Hb HR. unfold download_layer, layer_stream, pull_layer_stream_partial.
  rewrite (proj2 (Z.ltb_lt 0 (zlen b))) by lia. rewrite Hsize, Z.max_r by lia.
  eapply total_bind with (Q := fun sa d => exists cs,
    (prepared (Some b) d /\ sa = (Some <$> cs, true) /\ concat cs = drop (length b) content) \/
    (prepared None d /\ sa = (Some <$> cs, false) /\ concat cs = content)).
  - eapply total_bind with (Q := fun r d => prepared (Some b) d /\ exists cs,
      (r = Partial (Some <$> cs) /\ concat cs = drop (length b) content) \/ (r = Full (Some <$> cs) /\ concat cs = content)).
    + eapply total_bind; [apply total_request|]. intros r h Hf [Hd [n ->]].
      destruct (honest_partial n (zlen b) Hb) as (cs & [[-> Hc]|[-> Hc]]); simpl; split; try done; split; try done; exists cs;
        [left|right]; split; try done. by unfold zlen in Hc; rewrite Nat2Z.id in Hc.
    + intros r. apply total_and. intros (cs & [[-> Hc]|[-> Hc]]).
      * apply total_ret. intros d Hd. exists cs. by left.
      * eapply total_bind; [apply remove_part_total|]. intros ?. apply total_ret. intros d Hd. exists cs. by right.
  - intros sa. apply total_exists. intros cs. apply total_or; apply total_and; intros [-> Hc]; simpl.
    + apply (finish_total _ _ _ (b ++ drop (length b) content)); [by rewrite Hc| |].
      * unfold zlen in *. rewrite length_app, length_drop. lia.
      * intros Hne d. apply HR. intros [c ->]. apply Hne. by rewrite drop_app_length.
    + apply (finish_total _ _ _ content); [by rewrite Hc|done|]. by intros Hne.
Qed.

Definition locked (pf : option buffer) (d : gmap path node) : Prop := room pf d /\ d !! tmp_at = Some FsDir.

Lemma lock_total pf : total (room pf) (lock_exclusive lock) (fun _ => locked pf) R.
Proof.
  destruct names_differ as (N1 & N2 & N3). unfold lock_exclusive. rewrite parent_lock.
  eapply total_bind with (Q := fun _ => locked pf).
  - apply create_dir_all_total. intros d Hr. split; [apply Hr|]. by apply tmp_dirs.
  - intros ?. apply total_attempt. intros d [Hr Ht].
    rewrite writable_dir; [|by destruct Hr as (_ & _ & _ & ? & _)|by rewrite parent_lock].
    eexists. split; [done|]. split.
    + eapply (room_update pf pf lock d); [set_solver|by intros q Hq; apply lookup_insert_ne|by rewrite lookup_insert_eq|done|done|done].
    + rewrite lookup_insert_ne; [done|]. apply not_eq_sym, dir_not_file; set_solver.
Qed.

Lemma remove_blob_total pf : total (locked pf) (remove_file_if_exists blob) (fun _ d => locked pf d /\ d !! blob = None) R.
Proof.
  destruct names_differ as (N1 & N2 & N3).
  apply remove_total. intros d [Hr Ht]. split; [by destruct Hr as (_ & _ & ? & _)|]. split; [|by rewrite lookup_delete_eq]. split.
  - eapply (room_update pf pf blob d); [set_solver|by intros q Hq; apply lookup_delete_ne|by rewrite lookup_delete_eq|done|done|done].
  - rewrite lookup_delete_ne; [done|]. apply not_eq_sym, dir_not_file; set_solver.
Qed.

Lemma digest_matches_total (P : gmap path node -> Prop) p b : (forall d, P d -> d !! p = Some (FsFile b)) ->
  total P (layer_digest_matches p layer.(digest)) (fun ok d => P d /\ ok = bool_decide (hex_digest (sha256 b) = x)) R.
Proof.
  intros HP. unfold layer_digest_matches, sha256_file. rewrite Hdg.
  eapply total_bind with (Q := fun a d => P d /\ a = hex_digest (sha256 b)).
  - eapply total_bind with (Q := fun c d => P d /\ c = b).
    + apply total_look. intros d Hd. rewrite (HP d Hd). eauto.
    + intros c. apply total_ret. naive_solver.
  - intros a. apply total_and. intros ->. apply total_ok. by apply total_ret.
Qed.

Lemma verified_total pf : total (locked pf) (verified_blob_exists blob layer.(digest))
  (fun ok d => locked pf d /\ (ok = true -> hashed blob x d)) R.
Proof.
  unfold verified_blob_exists.
  assert (Hrm : total (locked pf) (_ <-- remove_file_if_exists blob ;; sret false) (fun ok d => locked pf d /\ (ok = true -> hashed blob x d)) R).
  { eapply total_bind; [apply remove_blob_total|]. intros ?. apply total_ret. naive_solver. }
  eapply total_bind; [apply total_look_result|]. intros r h Hf [Hd ->].
  destruct (h.(h_disk) !! blob) as [[b|]|] eqn:E.
  - assert (Hb : total (fun d => locked pf d /\ d !! blob = Some (FsFile b))
      (ok <-- layer_digest_matches blob layer.(digest) ;; (if ok : bool then sret true else _ <-- remove_file_if_exists blob ;; sret false))
      (fun ok d => locked pf d /\ (ok = true -> hashed blob x d)) R).
    { eapply total_bind; [by apply digest_matches_total; naive_solver|]. intros ok. apply total_and. intros ->.
      case_bool_decide as Hx; [|eapply total_weaken; [apply Hrm|naive_solver|done]].
      apply total_ret. intros d [Hl Hbl]. split; [done|]. intros _. by exists b. }
    apply (Hb h Hf). by split.
  - destruct Hd as [(_ & _ & Hn & _) _]. done.
  - by split.
Qed.

Lemma offset_total pf : total (prepared pf) (partial_download_offset part layer)
  (fun off d => exists pf', prepared pf' d /\ off = zlen (default [] pf') /\ (pf' = None \/ pf' = pf) /\ off <= zlen content) R.
Proof.
  pose proof (zlen_nonneg content) as Hc. unfold partial_download_offset.
  eapply total_bind with (Q := fun r d => prepared pf d /\ r = match pf with Some b => inl (FsFile b) | None => inr IoNotFound end).
  { apply total_look_known. intros d Hd. rewrite (prepared_part pf d Hd). by destruct pf. }
  intros r. apply total_and. intros ->. destruct pf as [b|]; simpl.
  - rewrite Hsize. destruct (zlen content <? zlen b) eqn:E.
    + eapply total_bind; [apply remove_part_total|]. intros ?. apply total_ret. intros d Hd. exists None. naive_solver.
    + apply total_ret. intros d Hd. exists (Some b). simpl. split_and!; [done|done|by right|lia].
  - apply total_ret. intros d Hd. exists None. naive_solver.
Qed.

Lemma sha_dirs_total pf : total (fun d => locked pf d /\ d !! blob = None) (io (create_dir_all (parent blob))) (fun _ => prepared pf) R.
Proof.
  rewrite parent_blob. apply create_dir_all_total. intros d [[Hr Ht] Hb]. destruct (sha_dirs _ _ Hr) as [Hr' Hs']. split; [apply Hr|].
  split_and!; [done|by apply add_dirs_kept|done|]. rewrite add_dirs_lookup; [done|]. apply files_apart; set_solver.
Qed.

Lemma tmp_dirs_total pf : total (prepared pf) (io (create_dir_all (parent part))) (fun _ => prepared pf) R.
Proof.
  rewrite parent_part. apply create_dir_all_total. intros d (Hr & Ht & Hs & Hb). destruct (tmp_dirs _ _ Hr) as [Hr' Ht']. split; [apply Hr|].
  split_and!; [done|done|by apply add_dirs_kept|]. rewrite add_dirs_lookup; [done|]. apply files_apart; set_solver.
Qed.

(** What is left to do once the offset is known *)
Lemma rest_total pf' off : 0 < zlen content -> off = zlen (default [] pf') -> off <= zlen content ->
  (forall b, pf' = Some b -> ~ b `prefix_of` content -> forall e d, prepared None d -> R e d) ->
  total (prepared pf')
    (complete <-- part_complete part layer off ;;
     if complete : bool then _ <-- promote_layer_part part blob ;; sret blob
     else if off =? layer.(size_bytes) then
       _ <-- remove_file_if_exists part ;; download_layer reference image_ref layer blob part 0
     else download_layer reference image_ref layer blob part off) (fun p d => p = blob /\ hashed blob x d) R.
Proof.
  intros Hpos -> Hle HR. unfold part_complete. rewrite Hsize.
  assert (Hfull : forall pf, total (prepared pf) (download_layer reference image_ref layer blob part 0) (fun p d => p = blob /\ hashed blob x d) R).
  { intros pf. eapply total_weaken; [apply download_full_total|done|naive_solver]. }
  destruct (zlen (default [] pf') =? zlen content) eqn:E.
  - destruct pf' as [b|]; [simpl in *|apply Z.eqb_eq in E; by rewrite <- E in Hpos].
    eapply total_bind; [apply digest_matches_total; apply (prepared_part (Some b))|]. intros ok. apply total_and. intros ->.
    case_bool_decide as Hx.
    + eapply total_bind; [by apply promote_total|]. intros ?. apply total_ret. naive_solver.
    + eapply total_bind; [apply remove_part_total|]. intros ?. apply Hfull.
  - eapply total_bind with (Q := fun ok d => prepared pf' d /\ ok = false); [by apply total_ret|]. intros ok. apply total_and. intros ->.
    destruct (decide (zlen (default [] pf') = 0)) as [->|Hnz]; [apply Hfull|].
    destruct pf' as [b|]; [simpl in *|done]. eapply total_weaken; [apply download_partial_total| |]; [|by eauto|done|naive_solver].
    pose proof (zlen_nonneg b). lia.
Qed.

(** The whole of [get_or_download_layer] *)
Lemma get_or_download_layer_total pf : 0 < zlen content ->
  (forall b, pf = Some b -> ~ b `prefix_of` content -> forall e d, prepared None d -> R e d) ->
  total (room pf) (get_or_download_layer root reference image_ref layer) (fun p d => p = blob /\ hashed blob x d) R.
Proof.
  intros Hpos HR. unfold get_or_download_layer, blob_path, blob_part_path, blob_lock_path. rewrite Hdg. cbn [obind].
  do 3 apply total_ok. change (root ++ [bstr "blobs"; bstr "sha256"; x]) with blob. fold part lock.
  eapply total_bind; [apply lock_total|]. intros ?. eapply total_bind; [apply verified_total|]. intros [].
  { apply total_ret. naive_solver. }
  eapply total_bind; [eapply total_weaken; [apply remove_blob_total|naive_solver|done]|]. intros ?.
  eapply total_bind; [apply sha_dirs_total|]. intros ?. eapply total_bind; [apply tmp_dirs_total|]. intros ?.
  eapply total_bind; [apply offset_total|]. intros off. apply total_exists. intros pf'. apply total_and.
  intros (Hoff & Hpf & Hle). apply (rest_total pf' off); [done..|]. destruct Hpf as [->| ->]; [done|]. exact HR.
Qed.
End Steps.
End Resume.

(** C33 download_completes: with a registry that sends the layer and a file system that works,
    a layer that is not empty is there after one call of [get_or_download_layer], verified,
    whatever part of it an interrupted download left behind; a part file that is not the
    beginning of the layer makes at most this call fail, and the next one succeeds. *)
Theorem download_completes `{Deps} root reference image_ref layer content x pf (h : host) :
  digest_path_components layer.(digest) = Ok (bstr "sha256", x) -> hex_digest (sha256 content) = x ->
  layer.(size_bytes) = zlen content -> 0 < zlen content -> Honest reference layer content ->
  h.(h_faults) = [] -> room root x pf h.(h_disk) ->
  exists r h1, get_or_download_layer root reference image_ref layer h = (r, h1) /\
    ((r = Ok (blob_at root x) /\ hashed (blob_at root x) x h1.(h_disk)) \/
     ((exists b, pf = Some b /\ ~ b `prefix_of` content) /\
      exists h2, get_or_download_layer root reference image_ref layer h1 = (Ok (blob_at root x), h2) /\
        hashed (blob_at root x) x h2.(h_disk))).
Proof.
  intros Hdg Hx Hsize Hpos Hh Hf Hr.
  pose proof (fun R => @get_or_download_layer_total _ root reference image_ref layer content x Hdg Hx Hsize Hh R) as Ht.
  pose proof (Ht (fun _ d => (exists b, pf = Some b /\ ~ b `prefix_of` content) /\ room root x None d) pf Hpos) as H1.
  specialize (H1 ltac:(intros b -> Hb e d [Hd _]; eauto) h Hf Hr).
  destruct (get_or_download_layer root reference image_ref layer h) as [[p|e|] h1]; [|destruct H1 as [Hf1 [Hb Hr1]]|done].
  - destruct H1 as [_ [-> Hp]]. do 2 eexists. split; [done|]. by left.
  - do 2 eexists. split; [done|]. right. split; [done|].
    specialize (Ht (fun _ _ => False) None Hpos ltac:(done) h1 Hf1 Hr1).
    destruct (get_or_download_layer root reference image_ref layer h1) as [[p|e'|] h2]; [|by destruct Ht|done].
    destruct Ht as [_ [-> Hp]]. eauto.
Qed.
