(* ===== verification/OciImages.v ===== *)
(** * Layers in order, the cache and the tags

    Downloads complete in any order, but layers are applied in the order of the manifest.
    On a store in order the cache answers, and a tag that was written is read back. *)

From stdpp Require Import base list option numbers strings gmap sorting.
From S2P Require Import Prelude Bytes Utf8 Str Errors Paths OciLayer HostFs HostProg OciResolve OciStore OciStoreSpec OciResume.

(** ** Layers in order *)

Section Order.
Context {A : Type} (key : A -> nat).
Abbreviation by_key := (fun b c => key b <=? key c)%nat.

Lemma insert_by_sorted x l : Sorted le (key <$> l) -> Sorted le (key <$> insert_by by_key x l).
Proof.
  induction l as [|y l IH]; simpl; [by repeat constructor|]. intros Hs.
  destruct (key x <=? key y)%nat eqn:E; simpl.
  - apply Nat.leb_le in E. constructor; [done|]. by constructor.
  - apply Nat.leb_gt in E. apply Sorted_inv in Hs as [Hs Hhd]. constructor; [by apply IH|].
    destruct l as [|z l]; simpl; [constructor; lia|]. destruct (key x <=? key z)%nat; constructor; [lia|].
    by inversion Hhd.
Qed.

Lemma sort_by_sorted l : Sorted le (key <$> sort_by by_key l).
Proof. induction l as [|x l IH]; simpl; [constructor|]. by apply insert_by_sorted. Qed.

(** Keys that are the numbers from [a] on come out in order. *)
Lemma sort_by_seq l a n : key <$> l ≡ₚ seq a n -> key <$> sort_by by_key l = seq a n.
Proof.
  intros Hp. apply (StronglySorted_unique le).
  - apply Sorted_StronglySorted; [intros ? ? ?; lia|]. apply sort_by_sorted.
  - apply Sorted_StronglySorted; [intros ? ? ?; lia|]. clear. revert a. induction n as [|n IH]; intros a; simpl; [constructor|].
    constructor; [apply IH|]. destruct n; constructor. lia.
  - rewrite <- Hp. apply fmap_Permutation, sort_by_perm.
Qed.
End Order.

Section Layers.
Context `{Deps} (root : path) (reference image_ref : buffer).

(** A blob is made of its index, the layer there and the path of the layer. *)
Definition blob_of (layers : list ResolvedLayer) (b : LayerBlob) : Prop :=
  exists i, b.(b_index) = S i /\ layers !! i = Some b.(b_layer) /\ blob_path root b.(b_layer).(digest) = Ok b.(b_path).

Lemma get_or_download_layer_path layer h p h' :
  get_or_download_layer root reference image_ref layer h = (Ok p, h') -> blob_path root layer.(digest) = Ok p.
Proof.
  intros Hr. destruct (digest_path_components layer.(digest)) as [[a x]|e|] eqn:Hd.
  - destruct (digest_path_components_ok _ _ _ Hd) as [-> _].
    pose proof (@get_or_download_layer_spec _ root (fun _ => True) (true_safe root) _ x Hd reference image_ref layer eq_refl h Logic.I) as Hs.
    unfold wp in Hs. rewrite Hr in Hs. destruct Hs as (_ & -> & _). unfold blob_path. by rewrite Hd.
  - unfold get_or_download_layer, blob_path in Hr. by rewrite Hd in Hr.
  - unfold get_or_download_layer, blob_path in Hr. by rewrite Hd in Hr.
Qed.

Lemma download_all_blobs layers todo h blobs h' :
  Forall (fun il => layers !! il.1 = Some il.2) todo -> download_all root reference image_ref todo h = (Ok blobs, h') ->
  Forall (blob_of layers) blobs /\ b_index <$> blobs = S <$> todo.*1.
Proof.
  intros Ht. revert h blobs. induction Ht as [|[i l] todo Hl Ht IH]; intros h blobs; simpl.
  - intros [= <- <-]. by split.
  - unfold sbind. destruct (get_or_download_layer root reference image_ref l h) as [[p|e|] h1] eqn:Eg; [|done..].
    destruct (download_all root reference image_ref todo h1) as [[rest|e|] h2] eqn:Ed; [|done..].
    intros [= <- <-]. destruct (IH _ _ Ed) as [Hb Hi]. split; [|by rewrite !fmap_cons, Hi].
    constructor; [|done]. exists i. simpl. split; [done|]. split; [done|]. by eapply get_or_download_layer_path.
Qed.
End Layers.

Lemma omap_lookup_seq {A} (k l : list A) : omap (fun i => (k ++ l) !! i) (seq (length k) (length l)) = l.
Proof.
  revert k. induction l as [|x l IH]; intros k; [done|]. cbn [length seq omap list_omap].
  rewrite list_lookup_middle by done. f_equal. specialize (IH (k ++ [x])). rewrite <- app_assoc, length_app in IH.
  simpl in IH. by rewrite Nat.add_1_r in IH.
Qed.

Lemma imap_pair_keys {A} (l : list A) : (imap pair l).*1 = seq 0 (length l).
Proof.
  apply list_eq. intros i. rewrite list_lookup_fmap, list_lookup_imap.
  destruct (l !! i) as [x|] eqn:E; simpl.
  - symmetry. apply lookup_seq. apply lookup_lt_Some in E. lia.
  - symmetry. apply lookup_ge_None. apply lookup_ge_None in E. rewrite length_seq. lia.
Qed.

(** The downloads of [ensure_layer_blobs] run side by side and
    may complete in any order, but the blobs it returns are those of the layers of the
    manifest, one for each, in the order of the manifest. *)
Theorem ensure_layer_blobs_ordered `{Deps} root order image_ref resolved (h h' : host) blobs :
  order ≡ₚ seq 0 (length resolved.(r_layers)) ->
  ensure_layer_blobs root order image_ref resolved h = (Ok blobs, h') ->
  b_layer <$> blobs = resolved.(r_layers) /\ b_index <$> blobs = seq 1 (length resolved.(r_layers)) /\
  Forall (fun b => blob_path root b.(b_layer).(digest) = Ok b.(b_path)) blobs.
Proof.
  intros Ho. unfold ensure_layer_blobs, sbind. set (layers := resolved.(r_layers)). set (todo := omap _ order).
  destruct (download_all _ _ _ todo h) as [[bs|e|] h1] eqn:Ed; [|done..]. intros [= <- <-].
  assert (Ht : todo ≡ₚ imap pair layers).
  { unfold todo. rewrite Ho. fold layers. pose proof (omap_lookup_seq [] (imap pair layers)) as E. simpl in E.
    rewrite length_imap in E. by rewrite E. }
  assert (Hf : Forall (fun il => layers !! il.1 = Some il.2) todo).
  { rewrite Ht. apply Forall_forall. intros [i l] (j & E)%list_elem_of_lookup. rewrite list_lookup_imap in E.
    destruct (layers !! j) as [l'|] eqn:El; simplify_eq/=. done. }
  destruct (download_all_blobs root _ _ layers todo h bs _ Hf Ed) as [Hb Hi].
  assert (Hs : b_index <$> sort_by (fun b c => b.(b_index) <=? c.(b_index))%nat bs = seq 1 (length layers)).
  { apply (sort_by_seq b_index). rewrite Hi, Ht, imap_pair_keys. by rewrite fmap_S_seq. }
  rewrite <- (sort_by_perm (fun b c => b.(b_index) <=? c.(b_index))%nat bs) in Hb.
  set (sorted := sort_by _ bs) in *. split; [|split; [done|]].
  - apply list_eq. intros i. rewrite list_lookup_fmap. destruct (sorted !! i) as [b|] eqn:E; simpl.
    + assert (Hi' : (b_index <$> sorted) !! i = Some b.(b_index)) by (by rewrite list_lookup_fmap, E).
      rewrite Hs in Hi'. apply lookup_seq in Hi' as [Hi' _]. rewrite Forall_forall in Hb.
      destruct (Hb b) as (j & Hj & Hl & _); [by eapply list_elem_of_lookup_2|]. by replace i with j by lia.
    + apply lookup_ge_None in E. symmetry. apply lookup_ge_None.
      apply (f_equal length) in Hs. rewrite length_fmap, length_seq in Hs. lia.
  - eapply Forall_impl; [apply Hb|]. by intros b (j & _ & _ & Hp).
Qed.

(** ** The cache *)

(** When every entry of the cache is complete and reading works,
    [cached_image] finds the image exactly when its directory is there and was made for the
    same identifier, source and platform; the only other answer is that the entry is one of
    another kind, never that a file is missing or unreadable. *)
Theorem cached_image_answers `{DepsLaws} root image_ref image_id platform source dir (h : host) :
  images_ok root h.(h_disk) -> h.(h_faults) = [] -> image_dir root image_id platform = Ok dir ->
  match h.(h_disk) !! dir with
  | None => cached_image root image_ref image_id platform source h = (Ok None, h)
  | Some _ => exists md b, h.(h_disk) !! (dir ++ [metadata_name]) = Some (FsFile b) /\ metadata_of b = Some md /\
      cached_image root image_ref image_id platform source h =
        (if decide (md.(md_image_id) = image_id /\ md.(md_source) = source /\ md.(md_platform) = platform)
         then Ok (Some (mk_image (dir ++ [rootfs_name]) image_ref image_id platform source))
         else Err (CorruptCacheEntry (dir ++ [metadata_name])), h)
  end.
Proof.
  intros Hi Hf Hdir. unfold cached_image. rewrite Hdir.
  unfold stry, sbind, io, io_as, exists_at, is_file_at, read_metadata, read_file, look. rewrite !next_fault_none by done.
  destruct (h.(h_disk) !! dir) as [n|] eqn:E; simpl; [|done].
  destruct (Hi image_id platform dir Hdir) as [(img & Hr & _) (b & md & Hb & Hmd & Hv & Hfs & Hrf & _)]; [by eauto|].
  rewrite !next_fault_none by done. simpl. rewrite Hr. unfold sbind, io_as, look. simpl.
  rewrite next_fault_none by done. rewrite Hb. simpl. rewrite Hmd. simpl. exists md, b. split; [done|]. split; [done|].
  unfold metadata_fits. rewrite Hv, Hfs, Hrf.
  repeat case_bool_decide; case_decide; simpl; naive_solver.
Qed.

(** ** Tags *)

Definition quiet (h : host) : host := mk_host h.(h_disk) [] h.(h_times) h.(h_requests).

Section Tags.
Context `{DepsLaws} (root : path).

Lemma index_temp_apart : index_path root <> root ++ [bstr "index.json" ++ bstr ".tmp"].
Proof. unfold index_path. intros E. by apply app_inv_head in E. Qed.

Lemma write_index_spec o index :
  triple (fun d => d !! index_path root = o) (fun d => d !! index_path root = o) (write_index root index)
    (fun _ d => d !! index_path root = Some (FsFile (index_json index))).
Proof.
  set (P := fun d : gmap path node => d !! index_path root = o). set (temp := root ++ [bstr "index.json" ++ bstr ".tmp"]).
  assert (Hk : forall A (m : St A), keeps (fun k => k = index_path root) m -> triple P P m (fun _ => P)).
  { intros A m Hm. eapply triple_keeps; [done| |done]. unfold P. intros d d' Hs. by rewrite Hs. }
  unfold write_index. eapply triple_bind; [apply Hk, io_keeps, create_dir_all_keeps|].
  { intros k -> [_ [s E]]%prefixes_spec. unfold index_path in E. apply (f_equal length) in E. rewrite !length_app in E. simpl in E. lia. }
  intros ?. cbv zeta. fold temp.
  eapply triple_bind with (Q := fun _ d => P d /\ d !! temp = Some (FsFile (index_json index))).
  - apply triple_attempt; unfold P; [|done|].
    + intros n d Hd. unfold when_writable. destruct (writable d temp); [done|]. rewrite lookup_insert_ne; [done|]. apply not_eq_sym, index_temp_apart.
    + intros d d' Hd. destruct (writable d temp); [done|]. intros [= <-]. rewrite lookup_insert_eq, lookup_insert_ne; [done|].
      apply not_eq_sym, index_temp_apart.
  - intros ?. apply triple_attempt; [by intros n d [? _]|by intros d e [? _]|]. intros d d' [Hd Ht]. rewrite Ht.
    destruct (writable d (index_path root)); [done|]. intros [= <-]. by rewrite lookup_insert_eq.
Qed.

Lemma read_index_quiet h old h1 : read_index root h = (Ok old, h1) -> (read_index root (quiet h)).1 = Ok old /\ old.(si_version) = 1.
Proof.
  unfold read_index, sbind, io_result, read_file, look. unfold quiet at 1. cbn [next_fault h_faults h_disk].
  destruct (next_fault h) as [f h2] eqn:E. apply next_fault_disk in E. rewrite E. destruct f as [n|]; [done|].
  destruct (h.(h_disk) !! index_path root) as [[b|]|]; [|done|by intros [= <- <-]].
  unfold stry. destruct (index_of b) as [i|]; cbn [ok_or]; [|done].
  destruct (si_version i =? 1) eqn:Ev; cbn [negb]; [|done]. intros [= <- <-]. split; [done|]. by apply Z.eqb_eq.
Qed.

Lemma read_index_after h index : index.(si_version) = 1 -> h.(h_disk) !! index_path root = Some (FsFile (index_json index)) ->
  (read_index root (quiet h)).1 = Ok index.
Proof.
  intros Hv Hd. unfold read_index, sbind, io_result, read_file, look, quiet. cbn [next_fault h_faults h_disk]. rewrite Hd.
  unfold stry. rewrite index_roundtrip. cbn [ok_or]. by rewrite Hv.
Qed.
End Tags.

(** Whichever operations fail, [update_tag_mapping] either
    leaves the index as it was, or it succeeds and the index is then read back with the tag
    of the image set and every other tag unchanged. *)
Theorem update_tag_mapping_atomic `{DepsLaws} root image_ref platform dg (h h' : host) r :
  update_tag_mapping root image_ref platform dg h = (r, h') ->
  match r with
  | Ok _ => exists old now, (read_index root (quiet h)).1 = Ok old /\
      (read_index root (quiet h')).1 =
        Ok (mk_index 1 (<[tag_key image_ref platform := mk_tag image_ref platform dg now]> old.(si_tags)))
  | _ => h'.(h_disk) !! index_path root = h.(h_disk) !! index_path root
  end.
Proof.
  intros Hr. set (o := h.(h_disk) !! index_path root).
  assert (Hkeep : forall A (m : St A), keeps (fun k => k = index_path root) m ->
    triple (fun d => d !! index_path root = o) (fun d => d !! index_path root = o) m (fun _ d => d !! index_path root = o)).
  { intros A m Hm. eapply triple_keeps; [done| |done]. intros d d' Hs. by rewrite Hs. }
  pose proof (Hkeep _ _ (read_index_keeps _ root) h eq_refl) as H1. unfold update_tag_mapping, sbind, wp in *.
  destruct (read_index root h) as [[old|e|] h1] eqn:Er; [|by simplify_eq..].
  pose proof (Hkeep _ _ (now_unix_keeps _) h1 H1) as H2. unfold wp in H2.
  destruct (now_unix h1) as [[now|e|] h2] eqn:En; [|by simplify_eq..].
  destruct (read_index_quiet root h old h1 Er) as [Hq Hv]. rewrite Hv in Hr.
  pose proof (fun i => write_index_spec root o i h2 H2) as H3. unfold wp in H3.
  match type of Hr with write_index _ ?i _ = _ => specialize (H3 i) end. rewrite Hr in H3.
  destruct r as [[]|e|]; [|done..]. exists old, now. split; [done|]. by apply read_index_after.
Qed.
