(* ===== verification/OciWorld.v ===== *)
(** * A small world for the image store

    Concrete libraries and a registry, on which the theorems about the store are applied,
    and runs that show what the code does in corners: a layer that is empty, one that occurs
    twice, an image that comes from a registry and from an archive, two tags at once. *)

From stdpp Require Import base list option numbers strings gmap.
From S2P Require Import Prelude Bytes Utf8 Str Errors Paths Constants Formatter Close Unpack OciLayer HostFs HostProg OciResolve OciStore OciStoreSpec OciResume OciImages.

(** ** Records as numbers *)

#[export] Instance platform_countable : Countable Platform.
Proof.
  apply (inj_countable' (fun p => (p.(os), p.(architecture), p.(variant))) (fun '(a, b, c) => mk_platform a b c)). by intros [].
Defined.
#[export] Instance resolved_layer_eq_dec : EqDecision ResolvedLayer.
Proof. solve_decision. Defined.
#[export] Instance resolved_layer_countable : Countable ResolvedLayer.
Proof.
  apply (inj_countable' (fun l => (l.(digest), l.(media_type), l.(size_bytes), l.(diff_id))) (fun '(a, b, c, d) => mk_layer a b c d)).
  by intros [].
Defined.
#[export] Instance source_countable : Countable RootfsImageSource.
Proof.
  apply (inj_countable' (fun s => match s with FromOciRegistry => 0%nat | FromDisk => 1%nat | FromTar => 2%nat | FromOciArchive => 3%nat end)
           (fun n => match n with 0%nat => FromOciRegistry | 1%nat => FromDisk | 2%nat => FromTar | _ => FromOciArchive end)). by intros [].
Defined.
#[export] Instance metadata_eq_dec : EqDecision ImageMetadata.
Proof. solve_decision. Defined.
#[export] Instance metadata_countable : Countable ImageMetadata.
Proof.
  apply (inj_countable'
    (fun m => (m.(md_version), m.(md_image_ref), m.(md_image_id), m.(md_source), m.(md_manifest_digest), m.(md_config_digest),
               m.(md_layers), m.(md_platform), m.(md_filesystem), m.(md_rootfs_file), m.(md_created_at_unix)))
    (fun '(a, b, c, d, e, f, g, h, i, j, k) => mk_metadata a b c d e f g h i j k)). by intros [].
Defined.
#[export] Instance tag_eq_dec : EqDecision TagRecord.
Proof. solve_decision. Defined.
#[export] Instance tag_countable : Countable TagRecord.
Proof.
  apply (inj_countable' (fun t => (t.(t_image_ref), t.(t_platform), t.(t_manifest_digest), t.(t_updated_at_unix)))
           (fun '(a, b, c, d) => mk_tag a b c d)). by intros [].
Defined.
#[export] Instance index_eq_dec : EqDecision StoreIndex.
Proof. solve_decision. Defined.
#[export] Instance index_countable : Countable StoreIndex.
Proof. apply (inj_countable' (fun i => (i.(si_version), i.(si_tags))) (fun '(a, b) => mk_index a b)). by intros []. Defined.

Definition as_file {A} `{Countable A} (a : A) : buffer := [Zpos (encode a)].
Definition of_file {A} `{Countable A} (b : buffer) : option A := match b with [Zpos p] => decode p | _ => None end.

Lemma of_as_file {A} `{Countable A} (a : A) : of_file (as_file a) = Some a.
Proof. unfold of_file, as_file. apply decode_encode. Qed.

(** ** Libraries and a registry with one image *)

(** A hash of 32 bytes; the sum stands for the whole. *)
Definition world_sha256 (b : buffer) : buffer := replicate 31 0 ++ [foldr Z.add 0 b mod 256].

Definition layer_bytes : buffer := [10; 20; 30; 40; 50].
Definition digest_of (b : buffer) : buffer := bstr "sha256:" ++ hex_digest (world_sha256 b).
Definition world_layer : ResolvedLayer := mk_layer (digest_of layer_bytes) (bstr "layer") 5 (bstr "diff").
Definition manifest_id : buffer := bstr "sha256:" ++ replicate 64 97.
Definition world_manifest : OciImageManifest :=
  mk_manifest (mk_descriptor (bstr "config") (bstr "sha256:cfg") 3) [mk_descriptor (bstr "layer") (digest_of layer_bytes) 5].

(** The same image in an archive. *)
Definition archive_file (name : buffer) : option entry :=
  Some (mk_entry (Ok name) Regular (Ok None) None None None None [bstr "x"]).
Definition archive_entries : list (option entry) := [archive_file (bstr "index.json"); archive_file (bstr "blobs/sha256/" ++ replicate 64 97)].

#[export] Instance world : Deps := {|
  sha256 := world_sha256;
  metadata_json := as_file; metadata_of := of_file;
  manifest_json _ := bstr "manifest"; index_json := as_file; index_of := of_file;
  canonicalize p := Some [bstr "home"; p]; path_text p := concat p; dir_len := 4096;
  process_id := 7; ext4_clock _ := (1700000000, 0); new_v4 := replicate 16 1;
  tar_entries _ b := if bool_decide (b = bstr "archive") then archive_entries else [];
  media_type_from_str _ := Some OciLayer; zstd_ok := true;
  archive_index _ := Some [manifest_id]; archive_manifest _ := Some (manifest_id, []); archive_config _ := Some linux_amd64;
  reference_from_str r := Some (r, None);
  pull_manifest _ _ := Some (ManifestImage world_manifest, manifest_id);
  with_digest r d := r ++ [64] ++ d;
  config_from_slice _ := Some (mk_config (bstr "amd64") (bstr "linux") None [bstr "diff"]);
  pull_blob_stream _ _ d := if bool_decide (d.(d_digest) = digest_of layer_bytes)
    then Some (Some <$> [take 2 layer_bytes; drop 2 layer_bytes]) else Some [Some (bstr "cfg")];
  pull_blob_stream_partial _ _ _ offset _ := Some (Partial (Some <$> [drop (Z.to_nat offset) layer_bytes])) |}.

#[export] Instance world_laws : DepsLaws.
Proof. split; intros; apply of_as_file. Qed.

Definition store_root : path := [bstr "var"; bstr "images"].
Definition empty_host : host := mk_host ∅ [] [5; 6; 7] 0.
Definition options : RootfsOptions := mk_rootfs_options linux_amd64 (256 * 1024).

(** ** The theorems about the store, applied *)

Lemma get_or_download_layer_verified_witness :
  exists h', get_or_download_layer store_root (bstr "r") (bstr "r") world_layer empty_host = (Ok (blob_at store_root (hex_digest (world_sha256 layer_bytes))), h') /\
    exists b, h'.(h_disk) !! blob_at store_root (hex_digest (world_sha256 layer_bytes)) = Some (FsFile b) /\
      hex_digest (sha256 b) = hex_digest (world_sha256 layer_bytes).
Proof.
  destruct (get_or_download_layer store_root (bstr "r") (bstr "r") world_layer empty_host) as [r h'] eqn:E.
  assert (Hr : r = Ok (blob_at store_root (hex_digest (world_sha256 layer_bytes)))).
  { replace r with (get_or_download_layer store_root (bstr "r") (bstr "r") world_layer empty_host).1 by (by rewrite E).
    vm_compute. reflexivity. }
  exists h'. subst r. split; [reflexivity|].
  destruct (proj2 (get_or_download_layer_verified store_root (bstr "r") (bstr "r") world_layer empty_host h' _ E) _ eq_refl)
    as (x & b & Hx & Hp & Hb & Hh).
  exists b. split; [exact Hb|]. rewrite Hh. unfold blob_at in Hp. apply app_inv_head in Hp. injection Hp as Hp. exact (eq_sym Hp).
Defined.

#[export] Instance world_honest : Honest (bstr "r") world_layer layer_bytes.
Proof.
  split.
  - intros n. exists [take 2 layer_bytes; drop 2 layer_bytes]. split; [vm_compute; reflexivity|reflexivity].
  - intros n offset _. exists [drop (Z.to_nat offset) layer_bytes]. left. split; [reflexivity|]. simpl. apply app_nil_r.
Qed.

(** A part file of three bytes, the second of which is wrong. *)
Definition garbled : host :=
  mk_host {[ part_at store_root (hex_digest (world_sha256 layer_bytes)) := FsFile [10; 99; 30] ]} [] [] 0.

Lemma garbled_room : room store_root (hex_digest (world_sha256 layer_bytes)) (Some [10; 99; 30]) garbled.(h_disk).
Proof.
  assert (Hne : forall q, q <> part_at store_root (hex_digest (world_sha256 layer_bytes)) -> garbled.(h_disk) !! q = None).
  { intros q Hq. by apply lookup_singleton_ne. }
  split_and!; [intros q b Hq; rewrite Hne; [done|]|intros q b Hq; rewrite Hne; [done|]|by rewrite Hne by (by vm_compute)|by rewrite Hne by (by vm_compute)|by vm_compute].
  - intros ->. revert Hq. apply (bool_decide_unpack _). by vm_compute.
  - intros ->. revert Hq. apply (bool_decide_unpack _). by vm_compute.
Qed.

Lemma download_completes_witness :
  exists r h1, get_or_download_layer store_root (bstr "r") (bstr "r") world_layer garbled = (r, h1) /\
    ((r = Ok (blob_at store_root (hex_digest (world_sha256 layer_bytes))) /\
      hashed (blob_at store_root (hex_digest (world_sha256 layer_bytes))) (hex_digest (world_sha256 layer_bytes)) h1.(h_disk)) \/
     ((exists b, Some [10; 99; 30] = Some b /\ ~ b `prefix_of` layer_bytes) /\
      exists h2, get_or_download_layer store_root (bstr "r") (bstr "r") world_layer h1
                   = (Ok (blob_at store_root (hex_digest (world_sha256 layer_bytes))), h2) /\
        hashed (blob_at store_root (hex_digest (world_sha256 layer_bytes))) (hex_digest (world_sha256 layer_bytes)) h2.(h_disk))).
Proof.
  apply (download_completes store_root (bstr "r") (bstr "r") world_layer layer_bytes _ (Some [10; 99; 30]) garbled);
    [vm_compute; reflexivity|reflexivity|reflexivity|reflexivity|apply world_honest|reflexivity|apply garbled_room].
Defined.

(** The garbled part file costs one attempt. *)
Example garbled_fails_once :
  (get_or_download_layer store_root (bstr "r") (bstr "r") world_layer garbled).1 =
    Err (LayerDigestMismatch world_layer.(digest) (hex_digest (world_sha256 [10; 99; 30; 40; 50]))) /\
  (get_or_download_layer store_root (bstr "r") (bstr "r") world_layer
     (get_or_download_layer store_root (bstr "r") (bstr "r") world_layer garbled).2).1
    = Ok (blob_at store_root (hex_digest (world_sha256 layer_bytes))).
Proof. split; vm_compute; reflexivity. Qed.

Lemma empty_store_ok : images_ok store_root empty_host.(h_disk) /\ blobs_ok store_root empty_host.(h_disk).
Proof. split; [intros id pl dir _ [n Hn]|intros x b Hb]; done. Qed.

Lemma get_or_create_keeps_store_witness :
  let h' := (get_or_create store_root [0%nat] (bstr "docker.io/debian") options empty_host).2 in
  images_ok store_root h'.(h_disk) /\ blobs_ok store_root h'.(h_disk).
Proof.
  destruct (get_or_create_keeps_store store_root [0%nat] (bstr "docker.io/debian") options empty_host _ _
              (surjective_pairing _)) as [Hb Hi].
  split; [exact (proj1 (Hi (proj1 empty_store_ok)))|exact (Hb (proj2 empty_store_ok))].
Defined.

Lemma ensure_layer_blobs_ordered_witness :
  let resolved := mk_resolved (bstr "r") manifest_id (bstr "c") [world_layer; mk_layer (digest_of layer_bytes) (bstr "second") 5 []] in
  exists blobs h', ensure_layer_blobs store_root [1%nat; 0%nat] (bstr "r") resolved empty_host = (Ok blobs, h') /\
    b_layer <$> blobs = resolved.(r_layers).
Proof.
  intros resolved. destruct (ensure_layer_blobs store_root [1%nat; 0%nat] (bstr "r") resolved empty_host) as [r h'] eqn:E.
  assert (Hok : exists blobs, r = Ok blobs).
  { replace r with (ensure_layer_blobs store_root [1%nat; 0%nat] (bstr "r") resolved empty_host).1 by (by rewrite E).
    eexists. vm_compute. reflexivity. }
  destruct Hok as [blobs ->]. exists blobs, h'. split; [reflexivity|].
  apply (ensure_layer_blobs_ordered store_root [1%nat; 0%nat] (bstr "r") resolved empty_host h' blobs); [|exact E].
  apply (bool_decide_unpack _). vm_compute. exact I.
Defined.

Lemma cached_image_answers_witness :
  exists dir, image_dir store_root manifest_id linux_amd64 = Ok dir /\
    cached_image store_root (bstr "r") manifest_id linux_amd64 FromOciRegistry empty_host = (Ok None, empty_host).
Proof.
  eexists. split; [vm_compute; reflexivity|].
  exact (cached_image_answers store_root (bstr "r") manifest_id linux_amd64 FromOciRegistry _ empty_host
           (proj1 empty_store_ok) eq_refl eq_refl).
Defined.

Lemma update_tag_mapping_atomic_witness :
  exists old now, (read_index store_root (quiet empty_host)).1 = Ok old /\
    (read_index store_root (quiet (update_tag_mapping store_root (bstr "debian") linux_amd64 manifest_id empty_host).2)).1 =
      Ok (mk_index 1 (<[tag_key (bstr "debian") linux_amd64 := mk_tag (bstr "debian") linux_amd64 manifest_id now]> old.(si_tags))).
Proof.
  destruct (update_tag_mapping store_root (bstr "debian") linux_amd64 manifest_id empty_host) as [r h'] eqn:E.
  assert (Hr : r = Ok tt).
  { replace r with (update_tag_mapping store_root (bstr "debian") linux_amd64 manifest_id empty_host).1 by (by rewrite E).
    vm_compute. reflexivity. }
  subst r. exact (update_tag_mapping_atomic store_root (bstr "debian") linux_amd64 manifest_id empty_host h' _ E).
Defined.

(** ** Corners *)

(** A layer of no bytes cannot be fetched: without a part file there is nothing to hash, and
    that is an error, at every attempt. *)
Definition empty_layer : ResolvedLayer := mk_layer (digest_of []) (bstr "layer") 0 (bstr "diff").
Example empty_layer_fails :
  let once := get_or_download_layer store_root (bstr "r") (bstr "r") empty_layer empty_host in
  once.1 = Err IoError /\ (get_or_download_layer store_root (bstr "r") (bstr "r") empty_layer once.2).1 = Err IoError.
Proof. split; vm_compute; reflexivity. Qed.

(** An image that was made from a registry cannot be used from an archive of the same image:
    the entry of the cache is taken to be corrupt. *)
Definition entry_dir : path := store_root ++ [bstr "sha256-" ++ replicate 64 97; bstr "linux-amd64"].
Definition pulled : host :=
  mk_host (<[entry_dir ++ [metadata_name] := FsFile (as_file (mk_metadata 1 (bstr "docker.io/debian") manifest_id FromOciRegistry
              (Some manifest_id) None [] linux_amd64 (bstr "ext4") rootfs_name 0))]>
          (<[entry_dir ++ [rootfs_name] := FsFile (bstr "image")]>
          (<[[bstr "home"; bstr "debian.tar"] := FsFile (bstr "archive")]> {[ entry_dir := FsDir ]}))) [] [] 0.

Example same_image_two_sources :
  (get_or_create store_root [0%nat] (bstr "docker.io/debian") options pulled).1 =
    Ok (mk_image (entry_dir ++ [rootfs_name]) (bstr "docker.io/debian") manifest_id linux_amd64 FromOciRegistry) /\
  (get_or_create store_root [] (bstr "oci:debian.tar") options pulled).1 = Err (CorruptCacheEntry (entry_dir ++ [metadata_name])).
Proof. split; vm_compute; reflexivity. Qed.

(** Two images have different locks, and both update the index: what one process writes
    between the reading and the writing of the other is lost. *)
Definition tag_a : buffer := tag_key (bstr "a") linux_amd64.
Definition tag_b : buffer := tag_key (bstr "b") linux_amd64.
Example tag_update_lost :
  let read := (read_index store_root empty_host).1 in
  let h := (update_tag_mapping store_root (bstr "b") linux_amd64 manifest_id empty_host).2 in
  let index := match read with Ok i => i | _ => index_default end in
  let h := (write_index store_root (mk_index 1 (<[tag_a := mk_tag (bstr "a") linux_amd64 manifest_id 0]> index.(si_tags))) h).2 in
  match (read_index store_root h).1 with
  | Ok i => bool_decide (is_Some (i.(si_tags) !! tag_a)) = true /\ bool_decide (is_Some (i.(si_tags) !! tag_b)) = false
  | _ => False
  end.
Proof. vm_compute. split; reflexivity. Qed.

(** A manifest with one layer twice never finishes its first download: the second download
    waits, in the thread of the first, for the lock of the first. *)
Theorem same_layer_twice_blocks root (needs : buffer -> bool) held before between after d lock :
  blob_lock_path root d = Ok lock -> needs d = true ->
  first_poll root needs held (before ++ d :: between ++ d :: after) = None.
Proof.
  intros Hl Hn. assert (Hheld : forall l held, lock ∈ held -> first_poll root needs held (l ++ d :: after) = None).
  { induction l as [|e l IH]; intros held' Hh; simpl.
    - rewrite Hl. by rewrite bool_decide_true.
    - destruct (blob_lock_path root e) as [k|e'|]; [|by apply IH..].
      case_bool_decide; [done|]. apply IH. destruct (needs e); set_solver. }
  revert held. induction before as [|e l IH]; intros held; simpl.
  - rewrite Hl. case_bool_decide; [done|]. rewrite Hn. apply Hheld. set_solver.
  - destruct (blob_lock_path root e) as [k|e'|]; [|by apply IH..]. case_bool_decide; [done|]. apply IH.
Qed.
