(* ===== verification/Secrets.v ===== *)
(** * Secrets

    [commands/secret.rs] of the command line tool: a store of secrets in one JSON file, and
    the commands that log in, set, list, show and remove.  The terminal is left out: what
    would be printed is returned.  File modes are not modelled; setting them is an operation
    that may fail.  JSON, HTTP, time stamps and standard input are the class [SecretDeps]. *)

From stdpp Require Import base list option numbers strings gmap pretty.
From S2P Require Import Prelude Bytes Utf8 Str Paths HostFs HostProg.

(** ** Data *)

Inductive Secret : Type :=
| PlainSecret (value : buffer)
| OAuth (access_token refresh_token expires_at : buffer) (account_id : option buffer) (created_at updated_at : buffer).

Inductive SecretError : Type :=
| NameEmpty | NameNotAllowed (name : buffer) | NameCharacters (name : buffer)
| SecretExists (name : buffer) | SecretNotFound (name : buffer) | RefusingToRemove (name : buffer)
| StdinTwice | ProviderOptions | ExactKeyOptions | KindOptions (kind : buffer) | ProfileAndKeys
| ValueAndStdin (label : buffer) | ValueMissing (label : buffer) | UnsupportedKind (kind : buffer) | BadTarget | NoSlots
| StorePath | StoreIo | StoreJson | StdinError | DataDir | NotAbsolute (name : buffer)
| HttpError | HttpStatus (status : Z) (body : buffer) | IncompleteResponse | MissingToken | LoginTimedOut | LoginUnfinished.

Record SetCmd := mk_set {
  s_target : list buffer; s_value : option buffer; s_value_stdin : bool; s_token : option buffer; s_token_stdin : bool;
  s_password : option buffer; s_password_stdin : bool; s_access_key_id : option buffer; s_access_key_id_stdin : bool;
  s_secret_access_key : option buffer; s_secret_access_key_stdin : bool; s_session_token : option buffer;
  s_session_token_stdin : bool; s_profile : option buffer; s_force : bool }.

Record SecretSummary := mk_summary { ss_provider : buffer; ss_name : buffer; ss_kind : buffer; ss_expires_at : buffer; ss_path : path }.
Record RedactedSecret := mk_redacted {
  rs_provider : buffer; rs_name : buffer; rs_path : path; rs_type : buffer; rs_kind : buffer; rs_expires_at : option buffer;
  rs_account_id : option buffer; rs_created_at : option buffer; rs_updated_at : option buffer; rs_fields : list buffer }.

(** Answers of the login server. *)
Record DeviceStartResponse := mk_device { device_auth_id : buffer; user_code : buffer; interval_seconds : option Z }.
Record TokenResponse := mk_token { access_token : buffer; refresh_token : buffer; expires_in : Z }.
Inductive DevicePoll : Type := Pending | Authorized (code verifier : buffer).
Inductive LoginRequest : Type :=
| StartDevice | PollDevice (device_auth_id user_code : buffer) | ExchangeCode (code verifier : buffer).

Class SecretDeps := {
  secrets_json : gmap buffer Secret -> buffer; secrets_of : buffer -> option (gmap buffer Secret);
  secret_pid : Z; stdin_string : option buffer;
  (** environment variables *)
  env_var : buffer -> option buffer;
  (** the server: a status and a body; the decoders of bodies *)
  post : nat -> LoginRequest -> option (Z * buffer);
  device_of : buffer -> option DeviceStartResponse; token_of : buffer -> option TokenResponse;
  poll_of : buffer -> option (buffer * buffer); poll_error_of : buffer -> option (option buffer);
  (** RFC 3339, to the second *)
  rfc3339 : Z -> buffer }.

(** ** Names *)

Definition name_char (c : Z) : bool := is_ascii_alphanumeric c || (c =? 45) || (c =? 95) || (c =? 46).
Definition validate_secret_name (name : buffer) : outcome SecretError unit :=
  match name with
  | [] => Err NameEmpty
  | c :: _ =>
      if c =? 46 then Err (NameNotAllowed name)
      else if forallb name_char name then Ok tt else Err (NameCharacters name)
  end.

Definition slot_key (kind name slot : buffer) : buffer := kind ++ [46] ++ name ++ [46] ++ slot.

(** The entries in the order of a [BTreeMap]. *)
Definition entries {V} (m : gmap buffer V) : list (buffer * V) := sort_by (fun a b => bytes_le a.1 b.1) (map_to_list m).

Fixpoint validate_names (names : list buffer) : outcome SecretError unit :=
  match names with
  | [] => Ok tt
  | n :: names => _ <- validate_secret_name n ;; validate_names names
  end.

Definition provider (s : Secret) : buffer := match s with PlainSecret _ => bstr "plain" | OAuth _ _ _ _ _ _ => bstr "openai-codex" end.
Definition kind (s : Secret) : buffer := match s with PlainSecret _ => bstr "plain" | OAuth _ _ _ _ _ _ => bstr "openai_codex_oauth" end.
Definition secret_type (s : Secret) : buffer := match s with PlainSecret _ => bstr "plain" | OAuth _ _ _ _ _ _ => bstr "oauth" end.
Definition secret_expires_at (s : Secret) : option buffer := match s with PlainSecret _ => None | OAuth _ _ e _ _ _ => Some e end.

Definition from_secret (name : buffer) (s : Secret) (p : path) : RedactedSecret :=
  match s with
  | PlainSecret _ => mk_redacted (provider s) name p (secret_type s) (kind s) None None None None [bstr "value"]
  | OAuth _ _ expires_at account_id created_at updated_at =>
      mk_redacted (provider s) name p (secret_type s) (kind s) (Some expires_at) account_id (Some created_at) (Some updated_at)
        [bstr "access_token"; bstr "refresh_token"]
  end.

(** The first 512 characters of an answer, for an error. *)
Fixpoint take_chars (n : nat) (s : buffer) : buffer :=
  match s with
  | [] => []
  | c :: s => if cont c then c :: take_chars n s else match n with O => [] | S n => c :: take_chars n s end
  end.
Definition sanitize_response_body (body : buffer) : buffer :=
  let body := trim body in
  match body with
  | [] => bstr "<empty>"
  | _ => let prefix := take_chars 512 body in
         if bool_decide (length prefix = length body) then prefix else prefix ++ bstr "..."
  end.

(** ** The store *)

Abbreviation Sec := (prog SecretError).
Definition sio {A} (m : fs A) : Sec A := io_as (fun _ => StoreIo) m.

(** [fs::set_permissions], after [fs::metadata] *)
Definition set_secure_permissions (p : path) : Sec unit :=
  _ <-- sio (metadata p) ;;
  sio (attempt (fun _ m => m) (fun m => match m !! p with Some _ => inl m | None => inr IoNotFound end)).

Section SecretStore.
Context `{SecretDeps} (store : path).

Definition read_all : Sec (gmap buffer Secret) :=
  e <-- sio (exists_at store) ;;
  if negb e then sret ∅
  else
    raw <-- sio (read_file store) ;;
    if negb (utf8_valid raw) then sfail StoreIo
    else if bool_decide (trim raw = []) then sret ∅
    else
      secrets <-- stry (ok_or (secrets_of raw) StoreJson) ;;
      _ <-- stry (validate_names (entries secrets).*1) ;;
      sret secrets.

Definition tmp_path (file_name : buffer) : path :=
  parent store ++ [[46] ++ file_name ++ bstr ".tmp." ++ bstr (pretty secret_pid)].

Definition write_all (secrets : gmap buffer Secret) : Sec unit :=
  match list.last store with
  | None => sfail StorePath
  | Some file_name =>
      _ <-- sio (create_dir_all (parent store)) ;;
      _ <-- set_secure_permissions (parent store) ;;
      if negb (utf8_valid file_name) then sfail StorePath
      else
        let tmp := tmp_path file_name in
        _ <-- sio (write tmp (secrets_json secrets ++ [10])) ;;
        _ <-- set_secure_permissions tmp ;;
        _ <-- sio (rename tmp store) ;;
        set_secure_permissions store
  end.

Definition contains (name : buffer) : Sec bool :=
  _ <-- stry (validate_secret_name name) ;;
  secrets <-- read_all ;;
  sret (bool_decide (is_Some (secrets !! name))).

Definition put (name : buffer) (secret : Secret) : Sec unit :=
  _ <-- stry (validate_secret_name name) ;;
  secrets <-- read_all ;;
  write_all (<[name := secret]> secrets).

Definition get (name : buffer) : Sec Secret :=
  _ <-- stry (validate_secret_name name) ;;
  secrets <-- read_all ;;
  stry (ok_or (secrets !! name) (SecretNotFound name)).

Definition remove (name : buffer) : Sec unit :=
  _ <-- stry (validate_secret_name name) ;;
  secrets <-- read_all ;;
  match secrets !! name with
  | None => sfail (SecretNotFound name)
  | Some _ => write_all (delete name secrets)
  end.

Definition summary_le (a b : SecretSummary) : bool :=
  if bool_decide (a.(ss_provider) = b.(ss_provider)) then bytes_le a.(ss_name) b.(ss_name) else bytes_le a.(ss_provider) b.(ss_provider).
Definition list_all : Sec (list SecretSummary) :=
  secrets <-- read_all ;;
  sret (sort_by summary_le
    ((fun ns => mk_summary (provider ns.2) ns.1 (kind ns.2) (default [] (secret_expires_at ns.2)) store) <$> entries secrets)).

(** ** Commands *)

Definition stdin_source_count (c : SetCmd) : nat :=
  length (filter (fun b => b = true)
    [c.(s_value_stdin); c.(s_token_stdin); c.(s_password_stdin); c.(s_access_key_id_stdin); c.(s_secret_access_key_stdin);
     c.(s_session_token_stdin)]).
Definition given (v : option buffer) : bool := bool_decide (is_Some v).
Definition has_exact_key_source (c : SetCmd) : bool := given c.(s_value) || c.(s_value_stdin).
Definition has_token_source (c : SetCmd) : bool := given c.(s_token) || c.(s_token_stdin).
Definition has_password_source (c : SetCmd) : bool := given c.(s_password) || c.(s_password_stdin).
Definition has_static_aws_source (c : SetCmd) : bool :=
  given c.(s_access_key_id) || c.(s_access_key_id_stdin) || given c.(s_secret_access_key) || c.(s_secret_access_key_stdin) ||
  given c.(s_session_token) || c.(s_session_token_stdin).
Definition has_provider_specific_source (c : SetCmd) : bool :=
  has_token_source c || has_password_source c || has_static_aws_source c || given c.(s_profile).

Definition read_stdin_string : outcome SecretError buffer := ok_or stdin_string StdinError.

Definition plain_secret_value (value : option buffer) (value_stdin : bool) (label : buffer) : outcome SecretError buffer :=
  match value, value_stdin with
  | Some _, true => Err (ValueAndStdin label)
  | Some value, false => Ok value
  | None, true => read_stdin_string
  | None, false => Err (ValueMissing label)
  end.
Definition optional_plain_secret_value (value : option buffer) (value_stdin : bool) (label : buffer)
    : outcome SecretError (option buffer) :=
  match value, value_stdin with
  | Some _, true => Err (ValueAndStdin label)
  | Some value, false => Ok (Some value)
  | None, true => v <- read_stdin_string ;; Ok (Some v)
  | None, false => Ok None
  end.

Definition aws_secret_entries (kind name : buffer) (c : SetCmd) : outcome SecretError (list (buffer * buffer)) :=
  if has_token_source c || has_password_source c then Err (KindOptions kind)
  else match c.(s_profile) with
  | Some profile =>
      if has_static_aws_source c then Err ProfileAndKeys
      else Ok [(slot_key kind name (bstr "profile"), profile)]
  | None =>
      id <- plain_secret_value c.(s_access_key_id) c.(s_access_key_id_stdin) (bstr "access-key-id") ;;
      key <- plain_secret_value c.(s_secret_access_key) c.(s_secret_access_key_stdin) (bstr "secret-access-key") ;;
      session <- optional_plain_secret_value c.(s_session_token) c.(s_session_token_stdin) (bstr "session-token") ;;
      Ok ([(slot_key kind name (bstr "access_key_id"), id); (slot_key kind name (bstr "secret_access_key"), key)] ++
          match session with Some t => [(slot_key kind name (bstr "session_token"), t)] | None => [] end)
  end.

(** The entries of [set_provider_plain_secret]. *)
Definition provider_entries (kind name : buffer) (c : SetCmd) : outcome SecretError (list (buffer * buffer)) :=
  if bool_decide (kind = bstr "basic_auth") then
    if has_token_source c || has_static_aws_source c || given c.(s_profile) then Err (KindOptions kind)
    else v <- plain_secret_value c.(s_password) c.(s_password_stdin) (bstr "password") ;; Ok [(slot_key kind name (bstr "password"), v)]
  else if bool_decide (kind = bstr "bearer_token") || bool_decide (kind = bstr "header_token") then
    if has_password_source c || has_static_aws_source c || given c.(s_profile) then Err (KindOptions kind)
    else v <- plain_secret_value c.(s_token) c.(s_token_stdin) (bstr "token") ;; Ok [(slot_key kind name (bstr "token"), v)]
  else if bool_decide (kind = bstr "aws_credential") then aws_secret_entries kind name c
  else Err (UnsupportedKind kind).

Definition write_plain_secret (name value : buffer) (force : bool) : Sec unit :=
  c <-- contains name ;;
  if c && negb force then sfail (SecretExists name) else put name (PlainSecret value).

Fixpoint check_absent (l : list (buffer * buffer)) : Sec unit :=
  match l with
  | [] => sret tt
  | (name, _) :: l => c <-- contains name ;; if c : bool then sfail (SecretExists name) else check_absent l
  end.
Fixpoint put_entries (l : list (buffer * buffer)) : Sec unit :=
  match l with
  | [] => sret tt
  | (name, value) :: l => _ <-- put name (PlainSecret value) ;; put_entries l
  end.
Definition write_plain_secret_entries (l : list (buffer * buffer)) (force : bool) : Sec unit :=
  match l with
  | [] => sfail NoSlots
  | _ => _ <-- (if force then sret tt else check_absent l) ;; put_entries l
  end.

Definition set_provider_plain_secret (kind name : buffer) (c : SetCmd) : Sec unit :=
  if has_exact_key_source c then sfail ExactKeyOptions
  else l <-- stry (provider_entries kind name c) ;; write_plain_secret_entries l c.(s_force).

Definition set_plain_secret (c : SetCmd) : Sec unit :=
  if (1 <? stdin_source_count c)%nat then sfail StdinTwice
  else match c.(s_target) with
  | [key] =>
      if has_provider_specific_source c then sfail ProviderOptions
      else v <-- stry (plain_secret_value c.(s_value) c.(s_value_stdin) (bstr "value")) ;; write_plain_secret key v c.(s_force)
  | [kind; name] => set_provider_plain_secret kind name c
  | _ => sfail BadTarget
  end.

(** What [show_secret] shows; with [--path] only the path. *)
Definition show_secret (name : buffer) (only_path : bool) : Sec (option RedactedSecret) :=
  if only_path then sret None
  else secret <-- get name ;; sret (Some (from_secret name secret store)).

Definition remove_secret (name : buffer) (force : bool) : Sec unit :=
  if negb force then sfail (RefusingToRemove name) else remove name.

(** ** Login *)

Definition is_success (status : Z) : bool := (200 <=? status) && (status <? 300).
Definition ask (r : LoginRequest) : Sec (Z * buffer) :=
  a <-- request (fun n => post n r) ;; stry (ok_or a HttpError).

Definition decode_json_response {A} (decode : buffer -> option A) (answer : Z * buffer) : outcome SecretError A :=
  let '(status, body) := answer in
  if negb (is_success status) then Err (HttpStatus status (sanitize_response_body body))
  else ok_or (decode body) StoreJson.

Definition start_openai_device_flow : Sec DeviceStartResponse :=
  answer <-- ask StartDevice ;;
  device <-- stry (decode_json_response device_of answer) ;;
  if bool_decide (device.(device_auth_id) = []) || bool_decide (device.(user_code) = []) then sfail IncompleteResponse
  else sret device.

Definition is_pending_device_poll_response (status : Z) (body : buffer) : bool :=
  if (status =? 202) || (status =? 204) then true
  else match poll_error_of body with
  | Some (Some code) => bool_decide (code = bstr "deviceauth_authorization_pending") || bool_decide (code = bstr "authorization_pending")
  | _ => false
  end.

Definition poll_openai_device_flow (device : DeviceStartResponse) : Sec DevicePoll :=
  answer <-- ask (PollDevice device.(device_auth_id) device.(user_code)) ;;
  let '(status, body) := answer in
  if is_pending_device_poll_response status body then sret Pending
  else if negb (is_success status) then sfail (HttpStatus status (sanitize_response_body body))
  else
    parsed <-- stry (ok_or (poll_of body) StoreJson) ;;
    let '(code, verifier) := parsed in
    if bool_decide (code = []) || bool_decide (verifier = []) then sret Pending else sret (Authorized code verifier).

Definition exchange_openai_code (code verifier : buffer) : Sec TokenResponse :=
  answer <-- ask (ExchangeCode code verifier) ;;
  token <-- stry (decode_json_response token_of answer) ;;
  if bool_decide (token.(access_token) = []) then sfail MissingToken
  else if bool_decide (token.(refresh_token) = []) then sfail MissingToken
  else sret token.

(** The loop of [login_openai_codex], until the deadline. *)
Fixpoint login_loop (fuel : nat) (device : DeviceStartResponse) (deadline : Z) : Sec TokenResponse :=
  match fuel with
  | O => sfail LoginUnfinished
  | S fuel =>
      now <-- now_nanos ;;
      if deadline <=? now then sfail LoginTimedOut
      else
        poll <-- poll_openai_device_flow device ;;
        match poll with
        | Pending => login_loop fuel device deadline
        | Authorized code verifier => exchange_openai_code code verifier
        end
  end.

Definition nanos_per_second : Z := 1000000000.
Definition login_timeout : Z := 600 * nanos_per_second.

Definition login_openai_codex (fuel : nat) : Sec TokenResponse :=
  device <-- start_openai_device_flow ;;
  start <-- now_nanos ;;
  login_loop fuel device (start + login_timeout).

Definition expires_at_from_seconds (expires_in : Z) : Sec buffer :=
  now <-- now_nanos ;;
  sret (rfc3339 (if 0 <? expires_in then now + expires_in * nanos_per_second else now)).

Definition login (fuel : nat) (name : buffer) : Sec unit :=
  let key := slot_key (bstr "openai_codex_oauth") name (bstr "oauth") in
  c <-- contains key ;;
  if c : bool then sfail (SecretExists key)
  else
    token <-- login_openai_codex fuel ;;
    now <-- now_nanos ;;
    expires_at <-- expires_at_from_seconds token.(expires_in) ;;
    put key (OAuth token.(access_token) token.(refresh_token) expires_at None (rfc3339 now) (rfc3339 now)).
End SecretStore.

(** ** Where the store is *)

Section DataDir.
Context `{SecretDeps}.

(** The components of an absolute path *)
Definition env_absolute_path (name : buffer) : outcome SecretError (option path) :=
  match env_var name with
  | None => Ok None
  | Some value =>
      match value with
      | c :: _ => if c =? slash then Ok (Some (tail (components value))) else Err (NotAbsolute name)
      | [] => Err (NotAbsolute name)
      end
  end.

Definition resolve_default_data_dir : outcome SecretError path :=
  data_home <- env_absolute_path (bstr "XDG_DATA_HOME") ;;
  match data_home with
  | Some data_home => Ok (data_home ++ [bstr "bento"])
  | None =>
      home <- env_absolute_path (bstr "HOME") ;;
      match home with
      | Some home => Ok (home ++ [bstr ".local"; bstr "share"; bstr "bento"])
      | None => Err DataDir
      end
  end.

Definition from_env : outcome SecretError path :=
  dir <- resolve_default_data_dir ;; Ok (dir ++ [bstr "secrets.json"]).
End DataDir.
