(* ===== verification/SecretsSpec.v ===== *)
(** * What the secret store guarantees

    The file of the store is replaced as a whole or not at all, a secret that was set is
    read back and the others stay, a command without [--force] replaces nothing, what is
    shown does not depend on the secret parts, and a login ends. *)

From stdpp Require Import base list option numbers strings gmap pretty sorting.
From S2P Require Import Prelude Bytes Utf8 Str Paths HostFs HostProg Secrets.

(** [serde_json] reads back what it wrote, and writes text that is not blank. *)
Class SecretLaws `{SecretDeps} : Prop := {
  secrets_roundtrip m : secrets_of (secrets_json m ++ [10]) = Some m;
  secrets_text m : utf8_valid (secrets_json m ++ [10]) = true;
  secrets_not_blank m : trim (secrets_json m ++ [10]) <> [] }.

Lemma sio_keeps {A} (Z : path -> Prop) (m : fs A) : keeps Z m -> keeps Z (sio m).
Proof. apply io_as_keeps. Qed.
#[export] Hint Resolve sio_keeps : store.

Section Store.
Context `{SecretDeps} (dir : path) (file_name : buffer).
Definition store_at : path := dir ++ [file_name].
Abbreviation store := store_at.

Lemma store_parent : parent store = dir.
Proof. unfold parent, store_at. rewrite removelast_app by done. simpl. apply app_nil_r. Qed.

Lemma set_secure_permissions_keeps (Z : path -> Prop) p : keeps Z (set_secure_permissions p).
Proof.
  unfold set_secure_permissions, metadata. apply sbind_keeps; [eauto with store|]. intros ?. apply sio_keeps, attempt_keeps; [done|].
  intros m m' k _. destruct (m !! p); [|done]. by intros [= <-].
Qed.
#[local] Hint Resolve set_secure_permissions_keeps : store.

Lemma read_all_keeps (Z : path -> Prop) : keeps Z (read_all store).
Proof. unfold read_all, read_file. keeps_tac. Qed.
#[local] Hint Resolve read_all_keeps : store.

Lemma contains_keeps (Z : path -> Prop) name : keeps Z (contains store name).
Proof. unfold contains. keeps_tac. Qed.

Lemma tmp_apart : tmp_path store file_name <> store.
Proof.
  unfold tmp_path. rewrite store_parent. unfold store_at. intros E. apply app_inv_head in E. injection E as E.
  apply (f_equal length) in E. cbn [length] in E. rewrite length_app in E. lia.
Qed.

(** The new contents of the file *)
Definition file_of (secrets : gmap buffer Secret) : option node := Some (FsFile (secrets_json secrets ++ [10])).

Lemma write_all_spec o secrets :
  triple (fun d => d !! store = o \/ d !! store = file_of secrets) (fun d => d !! store = o) (write_all store secrets)
    (fun _ d => d !! store = file_of secrets).
Proof.
  set (E := fun d : gmap path node => d !! store = o \/ d !! store = file_of secrets).
  assert (Hkeep : forall A v (m : Sec A), (forall d : gmap path node, d !! store = v -> E d) -> keeps (fun k => k = store) m ->
    triple E (fun d => d !! store = v) m (fun _ d => d !! store = v)).
  { intros A v m HE Hm. eapply triple_keeps; [done| |done]. intros d d' Hs. by rewrite Hs. }
  assert (Ho : forall d : gmap path node, d !! store = o -> E d) by (by left).
  unfold write_all. assert (list.last store = Some file_name) as -> by apply last_snoc. rewrite store_parent.
  eapply triple_bind; [apply Hkeep; [done|]; apply sio_keeps, create_dir_all_keeps|].
  { intros k -> [_ [s Es]]%prefixes_spec. unfold store_at in Es. apply (f_equal length) in Es. rewrite !length_app in Es. simpl in Es. lia. }
  intros ?. eapply triple_bind; [apply Hkeep; [done|eauto with store]|]. intros ?.
  destruct (utf8_valid file_name); cbn [negb]; [|by apply triple_fail]. cbv zeta. set (tmp := tmp_path store file_name).
  set (P := fun d : gmap path node => d !! store = o /\ d !! tmp = file_of secrets).
  eapply triple_bind with (Q := fun _ => P).
  { apply triple_attempt; [|by intros d e ?; left|].
    - intros n d Hd. left. unfold when_writable. destruct (writable d tmp); [done|]. rewrite lookup_insert_ne; [done|apply tmp_apart].
    - intros d d' Hd. destruct (writable d tmp); [done|]. intros [= <-]. split; [|by rewrite lookup_insert_eq].
      rewrite lookup_insert_ne; [done|apply tmp_apart]. }
  intros ?. eapply triple_bind with (Q := fun _ => P).
  { eapply triple_same; [eauto with store|]. intros d [Hd _]. by left. }
  intros ?. eapply triple_bind with (Q := fun _ d => d !! store = file_of secrets).
  { apply triple_attempt; [by intros n d [Hd _]; left|by intros d e [Hd _]; left|]. intros d d' [Hd Ht].
    unfold file_of in Ht. rewrite Ht. destruct (writable d store); [done|]. intros [= <-]. by rewrite lookup_insert_eq. }
  intros ?. apply Hkeep; [by right|eauto with store].
Qed.

(** C35 put_replaces_whole: whichever operations fail, [put] leaves the file of the store as it
    was or replaces it as a whole, by the secrets it read with the new one added; when it
    reports success it did the latter. *)
Theorem put_replaces_whole name secret (h h' : host) r : put store name secret h = (r, h') ->
  h'.(h_disk) !! store = h.(h_disk) !! store /\ r <> Ok tt \/
  exists old h1, read_all store h = (Ok old, h1) /\
    h'.(h_disk) !! store = Some (FsFile (secrets_json (<[name := secret]> old) ++ [10])).
Proof.
  unfold put, stry, sbind. destruct (validate_secret_name name); [|by intros [= <- <-]; left..].
  pose proof (read_all_keeps (fun k => k = store) h store eq_refl) as Hk.
  destruct (read_all store h) as [[old|e|] h1] eqn:Er; simpl in Hk; [|by intros [= <- <-]; left..].
  intros Hw. pose proof (write_all_spec (h.(h_disk) !! store) (<[name := secret]> old) h1 Hk) as Ht. unfold wp in Ht. rewrite Hw in Ht.
  destruct r as [[]|e|].
  - right. by exists old, h1.
  - destruct Ht as [Ht|Ht]; [by left|]. right. by exists old, h1.
  - destruct Ht as [Ht|Ht]; [by left|]. right. by exists old, h1.
Qed.

(** ** Without faults *)

(** The secrets that a disk holds, as a run without faults reads them. *)
Definition stored (d : gmap path node) (m : gmap buffer Secret) : Prop := (read_all store (mk_host d [] [] 0)).1 = Ok m.

(** Nothing is in the way of the store. *)
Definition room (d : gmap path node) : Prop :=
  no_file (prefixes dir) d /\ d !! tmp_path store file_name <> Some FsDir /\ d !! store <> Some FsDir.

Lemma read_all_quiet h m : h.(h_faults) = [] -> stored h.(h_disk) m -> read_all store h = (Ok m, h).
Proof.
  intros Hf. unfold stored, read_all, sbind, sio, io_as, exists_at, read_file, look, stry. rewrite (next_fault_none h) by done.
  cbn [next_fault h_faults h_disk]. destruct (bool_decide (is_Some (h.(h_disk) !! store))); cbn [negb]; [|by intros [= <-]].
  rewrite (next_fault_none h) by done. cbn [next_fault h_faults h_disk]. destruct (h.(h_disk) !! store) as [[raw|]|]; [|done..].
  destruct (utf8_valid raw); cbn [negb]; [|done]. destruct (bool_decide (trim raw = [])); [by intros [= <-]|].
  destruct (secrets_of raw) as [secrets|]; cbn [ok_or]; [|done]. destruct (validate_names _); [|done..]. by intros [= <-].
Qed.

Definition names_ok (m : gmap buffer Secret) : Prop := forall n, is_Some (m !! n) -> validate_secret_name n = Ok tt.

Lemma validate_names_ok l : validate_names l = Ok tt <-> Forall (fun n => validate_secret_name n = Ok tt) l.
Proof.
  induction l as [|n l IH]; simpl; [by split|]. rewrite Forall_cons, <- IH.
  destruct (validate_secret_name n) as [[]|e|]; cbn [obind]; naive_solver.
Qed.

Lemma entries_names m : validate_names (entries m).*1 = Ok tt <-> names_ok m.
Proof.
  rewrite validate_names_ok. assert (Hp : (entries m).*1 ≡ₚ (map_to_list m).*1) by (apply fmap_Permutation, sort_by_perm).
  rewrite Hp, Forall_forall. split; intros Hn n Hk; apply Hn.
  - destruct Hk as [v Hv]. apply list_elem_of_fmap. exists (n, v). split; [done|]. by apply elem_of_map_to_list.
  - apply list_elem_of_fmap in Hk as ([n' v] & -> & Hv). apply elem_of_map_to_list in Hv. by exists v.
Qed.

Lemma stored_names d m : stored d m -> names_ok m.
Proof.
  unfold stored, read_all, sbind, sio, io_as, exists_at, read_file, look, stry. cbn [next_fault h_faults h_disk].
  assert (He : names_ok ∅) by (intros n [v Hv]; done).
  destruct (bool_decide (is_Some (d !! store))); cbn [negb]; [|by intros [= <-]]. cbn [next_fault h_faults h_disk]. destruct (d !! store) as [[raw|]|]; [|intros ?; discriminate..].
  destruct (utf8_valid raw); cbn [negb]; [|intros ?; discriminate]. case_bool_decide; [by intros [= <-]|].
  destruct (secrets_of raw) as [secrets|]; cbn [ok_or]; [|intros ?; discriminate]. destruct (validate_names _) as [[]|e|] eqn:Ev; [|intros ?; discriminate..].
  intros [= <-]. by apply entries_names.
Qed.

Section Laws.
Context `{!SecretLaws} (Hname : utf8_valid file_name = true) (Hdir : dir <> []).

Lemma stored_file d m : d !! store = file_of m -> names_ok m -> stored d m.
Proof.
  intros Hd Hn. unfold stored, read_all, sbind, sio, io_as, exists_at, read_file, look, stry. cbn [next_fault h_faults h_disk].
  unfold file_of in Hd. rewrite Hd. rewrite (bool_decide_true (is_Some (Some _))) by (by eexists). cbn [negb next_fault h_faults h_disk]. rewrite Hd, secrets_text. cbn [negb]. rewrite bool_decide_false by apply secrets_not_blank.
  rewrite secrets_roundtrip. cbn [ok_or]. by rewrite (proj2 (entries_names m) Hn).
Qed.

Section Writing.
Context (R : SecretError -> gmap path node -> Prop).

Lemma set_permissions_total (P : gmap path node -> Prop) p :
  (forall d, P d -> is_Some (d !! p)) -> total P (set_secure_permissions p) (fun _ => P) R.
Proof.
  intros HP. unfold set_secure_permissions. eapply total_bind with (Q := fun _ => P).
  - apply total_look. intros d Hd. destruct (HP d Hd) as [n ->]. eauto.
  - intros ?. apply total_attempt. intros d Hd. destruct (HP d Hd) as [n ->]. eauto.
Qed.

Lemma dir_apart k : k ∈ [store; tmp_path store file_name] -> k ∉ prefixes dir.
Proof.
  intros Hk [_ [s Es]]%prefixes_spec. apply (f_equal length) in Es. rewrite length_app in Es.
  assert (Hl : length k = S (length dir)); [|lia].
  set_unfold in Hk. destruct Hk as [->|[->|[]]]; [unfold store_at|unfold tmp_path; rewrite store_parent]; rewrite length_app; simpl; lia.
Qed.

Lemma room_insert k b d : k ∈ [store; tmp_path store file_name] -> room d -> room (<[k := FsFile b]> d).
Proof.
  intros Hk (Hn & Ht & Hs). split_and!.
  - intros q c Hq. rewrite lookup_insert_ne; [by apply Hn|]. intros ->. by apply (dir_apart q).
  - intros [[_ ?]|[_ ?]]%lookup_insert_Some; done.
  - intros [[_ ?]|[_ ?]]%lookup_insert_Some; done.
Qed.

Lemma write_all_total m : names_ok m -> total room (write_all store m) (fun _ d => room d /\ stored d m) R.
Proof.
  intros Hm. unfold write_all. assert (list.last store = Some file_name) as -> by apply last_snoc. rewrite store_parent, Hname.
  cbn [negb]. cbv zeta. set (tmp := tmp_path store file_name). set (P := fun d => room d /\ d !! dir = Some FsDir).
  assert (Hpt : parent tmp = dir). { unfold tmp, tmp_path, parent at 1. rewrite removelast_app by done. simpl. by rewrite app_nil_r, store_parent. }
  assert (Hap : forall k, k ∈ [store; tmp] -> dir <> k). { intros k Hk E. apply (dir_apart k Hk). rewrite <- E. apply prefixes_self, Hdir. }
  eapply total_bind with (Q := fun _ => P).
  { apply create_dir_all_total. intros d (Hn & Ht & Hs). split; [done|]. split; [|by apply add_dirs_dir; [apply prefixes_self|]].
    split_and!; [by apply add_dirs_no_file|by rewrite add_dirs_lookup by (apply dir_apart; set_solver)..]. }
  intros ?. eapply total_bind; [apply set_permissions_total; by intros d [_ ->]|]. intros ?.
  eapply total_bind with (Q := fun _ d => P d /\ d !! tmp = file_of m).
  { apply total_attempt. intros d [Hr Hd]. rewrite writable_dir; [|by destruct Hr as (_ & ? & _)|by rewrite Hpt].
    eexists. split; [done|]. split; [split|by rewrite lookup_insert_eq]; [apply room_insert; [set_solver|done]|].
    rewrite lookup_insert_ne; [done|]. apply not_eq_sym, Hap. set_solver. }
  intros ?. eapply total_bind; [apply set_permissions_total; intros d [_ ->]; by eexists|]. intros ?.
  eapply total_bind with (Q := fun _ d => room d /\ d !! store = file_of m).
  { apply total_attempt. intros d [[Hr Hd] Ht]. unfold file_of in Ht. rewrite Ht.
    rewrite writable_dir; [|by destruct Hr as (_ & _ & ?)|by rewrite store_parent].
    eexists. split; [done|]. split; [|by rewrite lookup_insert_eq]. apply room_insert; [set_solver|].
    destruct Hr as (Hn & _ & Hs). split_and!.
    - intros q c Hq. rewrite lookup_delete_ne; [by apply Hn|]. intros E. apply (dir_apart tmp); [unfold tmp; set_solver|by rewrite E].
    - by rewrite lookup_delete_eq.
    - rewrite lookup_delete_ne; [done|]. apply tmp_apart. }
  intros ?. eapply total_weaken; [apply (set_permissions_total (fun d => room d /\ d !! store = file_of m)); intros d [_ ->]; by eexists|done|].
  intros ? d [Hr Hd]. split; [done|]. by apply stored_file.
Qed.

Lemma put_total m name secret : validate_secret_name name = Ok tt ->
  total (fun d => room d /\ stored d m) (put store name secret) (fun _ d => room d /\ stored d (<[name := secret]> m)) R.
Proof.
  intros Hv h Hf [Hr Hs]. unfold put. rewrite Hv. unfold stry, sbind. rewrite (read_all_quiet h m) by done.
  apply write_all_total; [|done|done]. intros n [v Hn]. destruct (decide (n = name)) as [->|Hne]; [done|].
  rewrite lookup_insert_ne in Hn by done. apply (stored_names _ _ Hs). by exists v.
Qed.

(** Secrets added one after the other *)
Definition add_entries (l : list (buffer * buffer)) (m : gmap buffer Secret) : gmap buffer Secret :=
  foldl (fun m nv => <[nv.1 := PlainSecret nv.2]> m) m l.

Lemma put_entries_total l m : Forall (fun nv => validate_secret_name nv.1 = Ok tt) l ->
  total (fun d => room d /\ stored d m) (put_entries store l) (fun _ d => room d /\ stored d (add_entries l m)) R.
Proof.
  intros Hl. revert m. induction Hl as [|[n v] l Hn Hl IH]; intros m; simpl; [by apply total_ret|].
  eapply total_bind; [by apply put_total|]. intros ?. apply IH.
Qed.
End Writing.

(** ** [bento secret set] *)

(** The slots a command asks to set. *)
Definition cmd_entries (c : SetCmd) : outcome SecretError (list (buffer * buffer)) :=
  if (1 <? stdin_source_count c)%nat then Err StdinTwice
  else match c.(s_target) with
  | [key] =>
      if has_provider_specific_source c then Err ProviderOptions
      else v <- plain_secret_value c.(s_value) c.(s_value_stdin) (bstr "value") ;; Ok [(key, v)]
  | [kind; name] => if has_exact_key_source c then Err ExactKeyOptions else provider_entries kind name c
  | _ => Err BadTarget
  end.

Definition valid (name : buffer) : Prop := validate_secret_name name = Ok tt.

Lemma slot_key_valid k c name slot : forallb name_char (c :: k) = true -> c <> 46 -> forallb name_char slot = true ->
  valid (slot_key (c :: k) name slot) <-> forallb name_char name = true.
Proof.
  intros Hk Hc Hs. assert (Hf : forallb name_char (slot_key (c :: k) name slot) = forallb name_char name).
  { unfold slot_key. rewrite !forallb_app, Hk, Hs. change (forallb name_char [46]) with true. cbn [andb]. apply andb_true_r. }
  unfold valid, validate_secret_name. rewrite Hf. unfold slot_key. cbn [app].
  rewrite (proj2 (Z.eqb_neq c 46)) by done. by destruct (forallb name_char name).
Qed.

(** All slots of a command are valid names, or none is. *)
Definition uniform (l : list (buffer * buffer)) : Prop :=
  l <> [] /\ (Forall (fun nv => valid nv.1) l \/ Forall (fun nv => ~ valid nv.1) l).

Lemma uniform_one n v : uniform [(n, v)].
Proof.
  split; [done|]. destruct (validate_secret_name n) as [[]|e|] eqn:E; [left|right; constructor..];
    rewrite ?Forall_singleton; try done; unfold valid; simpl; congruence.
Qed.

Lemma uniform_slots k c name slots : forallb name_char (c :: k) = true -> c <> 46 ->
  Forall (fun sv => forallb name_char sv.1 = true) slots -> slots <> [] ->
  uniform ((fun sv => (slot_key (c :: k) name sv.1, sv.2)) <$> slots).
Proof.
  intros Hk Hc Hs Hne. split; [by destruct slots|].
  destruct (forallb name_char name) eqn:En; [left|right]; apply Forall_fmap; eapply Forall_impl; try done; intros [slot v] Hv; simpl in *.
  - by apply slot_key_valid.
  - rewrite slot_key_valid by done. by rewrite En.
Qed.

Lemma provider_entries_uniform k name c l : provider_entries k name c = Ok l -> uniform l.
Proof.
  unfold provider_entries, aws_secret_entries. destruct (bool_decide (k = bstr "basic_auth")).
  { destruct (has_token_source c || has_static_aws_source c || given (s_profile c)); [done|]. intros (v & _ & [= <-])%obind_ok_inv. apply uniform_one. }
  destruct (bool_decide (k = bstr "bearer_token") || bool_decide (k = bstr "header_token")).
  { destruct (has_password_source c || has_static_aws_source c || given (s_profile c)); [done|]. intros (v & _ & [= <-])%obind_ok_inv. apply uniform_one. }
  destruct (bool_decide (k = bstr "aws_credential")) eqn:E3; [|done]. apply bool_decide_eq_true in E3 as ->.
  destruct (has_token_source c || has_password_source c); [done|]. destruct (s_profile c) as [profile|].
  { destruct (has_static_aws_source c); [done|]. intros [= <-]. apply uniform_one. }
  intros (id & _ & (key & _ & (session & _ & [= <-])%obind_ok_inv)%obind_ok_inv)%obind_ok_inv.
  pose proof (uniform_slots (bstr "ws_credential") 97 name
    ([(bstr "access_key_id", id); (bstr "secret_access_key", key)] ++
     match session with Some t => [(bstr "session_token", t)] | None => [] end)) as Hu.
  destruct session; apply Hu; try done; repeat constructor.
Qed.

Lemma cmd_entries_uniform c l : cmd_entries c = Ok l -> uniform l.
Proof.
  unfold cmd_entries. destruct (1 <? _)%nat; [done|]. destruct (s_target c) as [|key [|name [|]]]; [done| | |done].
  - destruct (has_provider_specific_source c); [done|]. intros (v & _ & [= <-])%obind_ok_inv. apply uniform_one.
  - destruct (has_exact_key_source c); [done|]. apply provider_entries_uniform.
Qed.

Lemma contains_quiet h m name : h.(h_faults) = [] -> stored h.(h_disk) m ->
  contains store name h = match validate_secret_name name with
                          | Ok _ => (Ok (bool_decide (is_Some (m !! name))), h)
                          | Err e => (Err e, h)
                          | Panic => (Panic, h)
                          end.
Proof.
  intros Hf Hs. unfold contains, stry, sbind. destruct (validate_secret_name name); [|done..]. by rewrite (read_all_quiet h m).
Qed.

Lemma validate_no_panic name : validate_secret_name name <> Panic.
Proof. unfold validate_secret_name. destruct name; [done|]. destruct (_ =? _); [done|]. by destruct (forallb _ _). Qed.

Lemma check_absent_quiet h m l : h.(h_faults) = [] -> stored h.(h_disk) m ->
  (check_absent store l h = (Ok tt, h) /\ Forall (fun nv => valid nv.1 /\ m !! nv.1 = None) l) \/
  (exists e, check_absent store l h = (Err e, h) /\ exists n, n ∈ l.*1 /\ (~ valid n \/ is_Some (m !! n))).
Proof.
  intros Hf Hs. induction l as [|[n v] l IH]; simpl; [by left|]. unfold sbind. rewrite (contains_quiet h m) by done.
  pose proof (validate_no_panic n). destruct (validate_secret_name n) as [[]|e|] eqn:Ev; [| |done].
  - case_bool_decide as Hn.
    + right. eexists. split; [done|]. exists n. split; [set_solver|by right].
    + rewrite <- eq_None_not_Some in Hn. destruct IH as [[-> Hl]|(e & -> & n' & Hn' & Hbad)].
      * left. split; [done|]. by constructor.
      * right. exists e. split; [done|]. exists n'. split; [set_solver|done].
  - right. exists e. split; [done|]. exists n. split; [set_solver|]. left. unfold valid. by rewrite Ev.
Qed.

(** The outcome of a command that asks for the slots [l]. *)
Definition set_outcome (l : list (buffer * buffer)) (force : bool) (m : gmap buffer Secret) (h : host)
    (res : outcome SecretError unit * host) : Prop :=
  (res.1 = Ok tt /\ stored res.2.(h_disk) (add_entries l m) /\ room res.2.(h_disk) /\ Forall (fun nv => valid nv.1) l /\
    (force = false -> Forall (fun nv => m !! nv.1 = None) l)) \/
  ((exists e, res = (Err e, h)) /\
    exists n, n ∈ l.*1 /\ (~ valid n \/ force = false /\ is_Some (m !! n))).

Lemma put_entries_quiet h m l : h.(h_faults) = [] -> stored h.(h_disk) m -> room h.(h_disk) -> Forall (fun nv => valid nv.1) l ->
  (put_entries store l h).1 = Ok tt /\ stored (put_entries store l h).2.(h_disk) (add_entries l m) /\ room (put_entries store l h).2.(h_disk).
Proof.
  intros Hf Hs Hr Hl. pose proof (put_entries_total (fun _ _ => False) l m Hl h Hf (conj Hr Hs)) as Ht.
  destruct (put_entries store l h) as [[[]|e|] h']; simpl in *; naive_solver.
Qed.

Lemma write_entries_outcome h m l force : h.(h_faults) = [] -> stored h.(h_disk) m -> room h.(h_disk) -> uniform l ->
  set_outcome l force m h (write_plain_secret_entries store l force h).
Proof.
  intros Hf Hs Hr [Hne Hu]. unfold write_plain_secret_entries, sbind. destruct l as [|nv l]; [done|]. set (l' := nv :: l) in *.
  destruct force.
  - destruct Hu as [Hu|Hu].
    + left. destruct (put_entries_quiet h m l') as (Hr1 & Hr2 & Hr3); [done..|]. naive_solver.
    + right. destruct nv as [n v]. apply Forall_cons in Hu as [Hn _]. simpl in Hn. split; [|exists n; split; [set_solver|by left]].
      unfold l'. simpl. unfold put, stry, sbind. pose proof (validate_no_panic n). unfold valid in Hn.
      destruct (validate_secret_name n) as [[]|e|]; [done|by exists e|done].
  - destruct (check_absent_quiet h m l' Hf Hs) as [[-> Hl]|(e & -> & n & Hn & Hbad)].
    + left. destruct (put_entries_quiet h m l') as (Hr1 & Hr2 & Hr3); [done..|by eapply Forall_impl; [apply Hl|intros ? [? _]]|].
      split_and!; [done|done|done|by eapply Forall_impl; [apply Hl|intros ? [? _]]|]. intros _. by eapply Forall_impl; [apply Hl|intros ? [_ ?]].
    + right. split; [by exists e|]. exists n. split; [done|]. destruct Hbad; auto.
Qed.

Lemma write_plain_outcome h m n v force : h.(h_faults) = [] -> stored h.(h_disk) m -> room h.(h_disk) ->
  set_outcome [(n, v)] force m h (write_plain_secret store n v force h).
Proof.
  intros Hf Hs Hr. unfold write_plain_secret, sbind. rewrite (contains_quiet h m) by done. pose proof (validate_no_panic n).
  destruct (validate_secret_name n) as [[]|e|] eqn:Ev; [| |done].
  - destruct (bool_decide (is_Some (m !! n)) && negb force) eqn:E.
    + apply andb_true_iff in E as [Hn%bool_decide_eq_true Hforce%negb_true_iff]. right. split; [by eexists|]. exists n. split; [set_solver|]. auto.
    + left. destruct (put_entries_quiet h m [(n, v)]) as (Hr1 & Hr2 & Hr3); [done..|by constructor|].
      assert (Hp : put_entries store [(n, v)] h = put store n (PlainSecret v) h).
      { simpl. unfold sbind. by destruct (put store n (PlainSecret v) h) as [[[]|e|] h']. }
      rewrite Hp in *. split_and!; [done|done|done|by constructor|]. intros ->. constructor; [|done]. simpl.
      rewrite andb_true_r in E. apply bool_decide_eq_false in E. by apply eq_None_not_Some.
  - right. split; [by exists e|]. exists n. split; [set_solver|]. left. unfold valid. by rewrite Ev.
Qed.
End Laws.
End Store.

Section NoPanic.
Context `{SecretDeps}.

Lemma plain_secret_value_no_panic v b l : plain_secret_value v b l <> Panic.
Proof. unfold plain_secret_value, read_stdin_string, ok_or. destruct v, b; try done. by destruct stdin_string. Qed.

Lemma optional_plain_secret_value_no_panic v b l : optional_plain_secret_value v b l <> Panic.
Proof. unfold optional_plain_secret_value, read_stdin_string, ok_or. destruct v, b; try done. by destruct stdin_string. Qed.

Lemma obind_no_panic {E A B} (m : outcome E A) (k : A -> outcome E B) : m <> Panic -> (forall a, k a <> Panic) -> obind m k <> Panic.
Proof. destruct m; simpl; [by intros _ Hk; apply Hk|done|done]. Qed.

Lemma provider_entries_no_panic k name c : provider_entries k name c <> Panic.
Proof.
  unfold provider_entries, aws_secret_entries.
  repeat match goal with
  | |- (if ?b then _ else _) <> _ => destruct b
  | |- match ?o with Some _ => _ | None => _ end <> _ => destruct o
  | |- obind _ _ <> _ => apply obind_no_panic; [|intros ?]
  end; first [done|apply plain_secret_value_no_panic|apply optional_plain_secret_value_no_panic].
Qed.
End NoPanic.

(** C34 set_plain_secret_sets: on a store that can be read and written, [bento secret set]
    either sets every slot the command asks for, leaving the other secrets alone, and without
    [--force] only slots that were free; or it fails without touching the disk, because the
    options do not fit, a value cannot be read, a name is not valid, or a slot is taken.  Which slots an
    option stands for is the table of the providers, [provider_entries]. *)
Theorem set_plain_secret_sets `{SecretLaws} dir file_name m c (h : host) :
  utf8_valid file_name = true -> dir <> [] -> h.(h_faults) = [] ->
  stored dir file_name h.(h_disk) m -> room dir file_name h.(h_disk) ->
  match cmd_entries c with
  | Ok l => set_outcome dir file_name l c.(s_force) m h (set_plain_secret (store_at dir file_name) c h)
  | Err e => set_plain_secret (store_at dir file_name) c h = (Err e, h)
  | Panic => False
  end.
Proof.
  intros Hn Hd Hf Hs Hr. pose proof (cmd_entries_uniform c) as Hu. unfold cmd_entries, set_plain_secret in *.
  destruct (1 <? stdin_source_count c)%nat; [done|]. destruct (s_target c) as [|key [|name [|]]]; [done| | |done].
  - destruct (has_provider_specific_source c); [done|]. unfold sbind, stry.
    destruct (plain_secret_value _ _ _) as [v|e|] eqn:Ev; cbn [obind]; [by apply write_plain_outcome|done|].
    by apply plain_secret_value_no_panic in Ev.
  - unfold set_provider_plain_secret. destruct (has_exact_key_source c); [done|]. unfold sbind, stry.
    destruct (provider_entries key name c) as [l|e|] eqn:Ev; [by apply write_entries_outcome; [..|apply Hu]|done|].
    by apply provider_entries_no_panic in Ev.
Qed.

(** ** What is shown *)

(** Two secrets that differ at most in what has to stay secret. *)
Definition same_public (s s' : Secret) : Prop :=
  match s, s' with
  | PlainSecret _, PlainSecret _ => True
  | OAuth _ _ e a c u, OAuth _ _ e' a' c' u' => e = e' /\ a = a' /\ c = c' /\ u = u'
  | _, _ => False
  end.

(** The order of names *)
Section SortedEntries.
Context {V : Type}.
Abbreviation key_le := (fun a b : buffer * V => bytes_le a.1 b.1).

Lemma insert_entry_sorted x l : StronglySorted (fun a b => key_le a b = true) l ->
  StronglySorted (fun a b => key_le a b = true) (insert_by key_le x l).
Proof.
  induction 1 as [|y l Hs IH Hy]; simpl; [by repeat constructor|]. destruct (bytes_le x.1 y.1) eqn:E.
  - constructor; [by constructor|]. constructor; [done|]. eapply Forall_impl; [done|]. intros z Hz. by eapply bytes_le_trans.
  - constructor; [done|]. rewrite insert_by_perm. constructor; [|done]. destruct (bytes_le_total x.1 y.1); congruence.
Qed.

Lemma sort_entries_sorted l : StronglySorted (fun a b => key_le a b = true) (sort_by key_le l).
Proof. induction l as [|x l IH]; simpl; [constructor|]. by apply insert_entry_sorted. Qed.
End SortedEntries.

Lemma entries_fmap {V W} (f : V -> W) (m : gmap buffer V) : (fun nv => (nv.1, f nv.2)) <$> entries m = entries (f <$> m).
Proof.
  assert (Hp : (fun nv => (nv.1, f nv.2)) <$> entries m ≡ₚ map_to_list (f <$> m)).
  { unfold entries. rewrite sort_by_perm, map_to_list_fmap. apply Permutation_refl'. apply list_fmap_ext. by intros i [n v]. }
  apply (StronglySorted_unique_strong (fun a b => bytes_le a.1 b.1 = true)).
  - intros x y Hx Hy Hxy Hyx. rewrite Hp in Hx. unfold entries in Hy. rewrite sort_by_perm in Hy.
    destruct x as [n v], y as [n' v']. pose proof (bytes_le_antisym _ _ Hxy Hyx) as E. simpl in E. subst n'.
    apply elem_of_map_to_list in Hx, Hy. congruence.
  - pose proof (sort_entries_sorted (map_to_list m)) as Hs. fold (entries m) in Hs. clear Hp.
    induction Hs as [|x l Hs IH Hx]; simpl; [constructor|]. constructor; [done|]. by apply Forall_fmap.
  - apply sort_entries_sorted.
  - rewrite Hp. unfold entries. by rewrite sort_by_perm.
Qed.

(** What [bento secret list] and [bento secret show] output is the same for
    two stores whose secrets differ at most in values and tokens: nothing of those is shown. *)
Theorem shown_is_public `{SecretDeps} store (h1 h2 : host) m1 m2 g1 g2 name p :
  read_all store h1 = (Ok m1, g1) -> read_all store h2 = (Ok m2, g2) ->
  (forall n, option_relation same_public (fun _ => False) (fun _ => False) (m1 !! n) (m2 !! n)) ->
  (list_all store h1).1 = (list_all store h2).1 /\ (show_secret store name p h1).1 = (show_secret store name p h2).1.
Proof.
  intros H1 H2 Hp. split.
  - unfold list_all, sbind. rewrite H1, H2. simpl. do 2 f_equal.
    set (public := fun s => (provider s, kind s, secret_expires_at s)).
    assert (Hl : forall m, (fun ns => mk_summary (provider ns.2) ns.1 (kind ns.2) (default [] (secret_expires_at ns.2)) store) <$> entries m
      = (fun np => mk_summary np.2.1.1 np.1 np.2.1.2 (default [] np.2.2) store) <$> entries (public <$> m)).
    { intros m. rewrite <- entries_fmap, <- list_fmap_compose. done. }
    rewrite !Hl. do 2 f_equal. apply map_eq. intros n. rewrite !lookup_fmap. specialize (Hp n).
    destruct (m1 !! n) as [s1|], (m2 !! n) as [s2|]; simpl in *; try done. f_equal. unfold public.
    destruct s1, s2; simpl in *; naive_solver.
  - unfold show_secret, get, sbind, stry. destruct p; [done|]. destruct (validate_secret_name name); [|done..].
    rewrite H1, H2. specialize (Hp name). destruct (m1 !! name) as [s1|], (m2 !! name) as [s2|]; simpl in *; try done.
    do 2 f_equal. destruct s1, s2; simpl in *; naive_solver.
Qed.

(** ** Login *)

Section Login.
Context `{SecretDeps}.

(** Each reading of the clock is at least a second after the one before, from [base] on;
    between two polls the code sleeps for an interval of at least one second. *)
Definition ticking (base : Z) (times : list Z) : Prop :=
  forall i t, times !! i = Some t -> base + Z.of_nat i * nanos_per_second <= t.

Lemma poll_result device h : exists r h', poll_openai_device_flow device h = (r, h') /\ h'.(h_times) = h.(h_times) /\ r <> Err LoginUnfinished.
Proof.
  unfold poll_openai_device_flow, ask, sbind, request, stry. simpl.
  destruct (post _ _) as [[status body]|]; simpl; [|by eauto].
  destruct (is_pending_device_poll_response status body); simpl; [by eauto|].
  destruct (is_success status); simpl; [|by eauto]. destruct (poll_of body) as [[code verifier]|]; simpl; [|by eauto].
  destruct (_ || _); simpl; eauto.
Qed.

Lemma exchange_result code verifier h : (exchange_openai_code code verifier h).1 <> Err LoginUnfinished.
Proof.
  unfold exchange_openai_code, ask, sbind, request, stry, decode_json_response. simpl.
  destruct (post _ _) as [[status body]|]; simpl; [|done]. destruct (is_success status); simpl; [|done].
  destruct (token_of body) as [t|]; simpl; [|done]. destruct (bool_decide _); [done|]. by destruct (bool_decide _).
Qed.

Lemma login_loop_ends fuel device deadline base h :
  ticking base h.(h_times) -> (fuel < length h.(h_times))%nat -> deadline <= base + Z.of_nat fuel * nanos_per_second ->
  (login_loop (S fuel) device deadline h).1 <> Err LoginUnfinished.
Proof.
  revert base h. induction fuel as [|fuel IH]; intros base h Ht Hl Hd; cbn [login_loop]; unfold sbind at 1, now_nanos;
    (destruct h.(h_times) as [|t ts] eqn:Et; [simpl in Hl; lia|]); pose proof (Ht 0%nat t eq_refl) as H0; rewrite Z.mul_0_l, Z.add_0_r in H0.
  - rewrite (proj2 (Z.leb_le deadline t)) by lia. done.
  - destruct (deadline <=? t); [done|]. unfold sbind at 1.
    destruct (poll_result device (mk_host h.(h_disk) h.(h_faults) ts h.(h_requests))) as (r & h' & -> & Hts & Hr).
    destruct r as [[|code verifier]|e|]; simpl; [|apply exchange_result|by intros [= ->]|done].
    apply (IH (base + nanos_per_second)).
    + rewrite Hts. intros i t' Hi. pose proof (Ht (S i) t' Hi). lia.
    + rewrite Hts. simpl in *. lia.
    + lia.
Qed.
End Login.

(** A login ends: the loop that polls the server runs at most 601 times when its clock goes on
    by a second or more from one turn to the next. *)
Theorem login_ends `{SecretDeps} (h : host) start ts :
  h.(h_times) = start :: ts -> ticking start ts -> (600 < length ts)%nat ->
  (login_openai_codex 601 h).1 <> Err LoginUnfinished.
Proof.
  intros Hh Ht Hl. unfold login_openai_codex, start_openai_device_flow, ask, decode_json_response, sbind, request, stry. simpl.
  destruct (post _ _) as [[status body]|]; simpl; [|done]. destruct (is_success status); simpl; [|done].
  destruct (device_of body) as [device|]; simpl; [|done]. destruct (_ || _); simpl; [done|].
  unfold now_nanos at 1. simpl. rewrite Hh. apply (login_loop_ends 600 device _ start); simpl; [done|done|].
  unfold login_timeout. lia.
Qed.
