(* ===== verification/SecretsWorld.v ===== *)
(** * A small world for the secret store

    Concrete JSON and a server, the theorems applied, and runs that show how secrets can be
    lost. *)

From stdpp Require Import base list option numbers strings gmap.
From S2P Require Import Prelude Bytes Utf8 Str Paths HostFs HostProg Secrets SecretsSpec.

#[export] Instance secret_eq_dec : EqDecision Secret.
Proof. solve_decision. Defined.
#[export] Instance secret_countable : Countable Secret.
Proof.
  apply (inj_countable' (fun s => match s with PlainSecret v => inl v | OAuth a b c d e f => inr (a, b, c, d, e, f) end)
           (fun x => match x with inl v => PlainSecret v | inr (a, b, c, d, e, f) => OAuth a b c d e f end)). by intros [].
Defined.

(** A number as text: a letter for each of its bits. *)
Fixpoint bits (p : positive) : buffer :=
  match p with xH => [65] | xO p => 66 :: bits p | xI p => 67 :: bits p end.
Fixpoint unbits (b : buffer) : option positive :=
  match b with
  | 65 :: _ => Some xH
  | 66 :: b => xO <$> unbits b
  | 67 :: b => xI <$> unbits b
  | _ => None
  end.

Lemma unbits_bits p b : unbits (bits p ++ b) = Some p.
Proof. induction p as [p IH|p IH|]; simpl; [by rewrite IH..|done]. Qed.

Lemma bits_ascii p : Forall (fun c => 65 <= c <= 67) (bits p).
Proof. induction p; simpl; repeat constructor; try lia; done. Qed.

#[export] Instance secret_world : SecretDeps := {|
  secrets_json m := bits (encode m); secrets_of b := p ← unbits b; decode p;
  secret_pid := 7; stdin_string := Some (bstr "from stdin");
  env_var n := if bool_decide (n = bstr "HOME") then Some (bstr "/home/u") else None;
  post _ _ := None; device_of _ := None; token_of _ := None; poll_of _ := None; poll_error_of _ := None;
  rfc3339 _ := bstr "now" |}.

(** A text that starts with a letter is not blank. *)
Lemma ws_len_letter c s : 65 <= c <= 67 -> ws_len (c :: s) = 0%nat.
Proof.
  intros Hc. unfold ws_len, in_range.
  rewrite (proj2 (Z.leb_gt c 13)), (proj2 (Z.eqb_neq c 32)), (proj2 (Z.eqb_neq c 0xC2)), (proj2 (Z.eqb_neq c 0xE1)),
    (proj2 (Z.eqb_neq c 0xE2)), (proj2 (Z.eqb_neq c 0xE3)) by lia.
  rewrite andb_false_r. simpl. by destruct s as [|d [|e s]].
Qed.

Lemma trim_end_letter fuel c s : 65 <= c <= 67 -> trim_end_loop fuel (c :: s) <> [].
Proof.
  intros Hc. revert s. induction fuel as [|fuel IH]; intros s; [done|]. cbn [trim_end_loop].
  assert (Hn : (ws_len_end (c :: s) < length (c :: s))%nat).
  { assert (Hk : forall k, ws_len (drop (length (c :: s) - k) (c :: s)) = k -> (0 < k)%nat -> (k < length (c :: s))%nat).
    { intros k Hk Hp. destruct (Nat.lt_ge_cases k (length (c :: s))) as [?|Hge]; [done|].
      replace (length (c :: s) - k)%nat with 0%nat in Hk by lia. rewrite drop_0, ws_len_letter in Hk by done. lia. }
    unfold ws_len_end. repeat case_bool_decide; [apply Hk; [done|lia]..|simpl; lia]. }
  destruct (ws_len_end (c :: s)) as [|n]; [done|]. simpl length in *.
  replace (S (length s) - S n)%nat with (S (length s - S n)) by lia. apply IH.
Qed.

Lemma bits_head p : exists c s, bits p = c :: s /\ 65 <= c <= 67.
Proof. destruct p; simpl; eexists _, _; (split; [done|lia]). Qed.

#[export] Instance secret_laws : SecretLaws.
Proof.
  split; intros m; unfold secrets_of, secrets_json; simpl.
  - rewrite unbits_bits. simpl. apply decode_encode.
  - apply ascii_utf8_valid. apply Forall_app. split; [|by repeat constructor].
    eapply Forall_impl; [apply bits_ascii|]. simpl. lia.
  - destruct (bits_head (encode m)) as (c & s & -> & Hc). unfold trim, trim_start. cbn [app length trim_start_loop].
    rewrite ws_len_letter by done. by apply trim_end_letter.
Qed.

Definition data_dir : path := [bstr "home"; bstr "u"].
Definition file : buffer := bstr "secrets.json".
Abbreviation store := (store_at data_dir file).
Definition fresh_host : host := mk_host ∅ [] [] 0.

Definition set_token (force : bool) (name value : buffer) : SetCmd :=
  mk_set [bstr "bearer_token"; name] None false (Some value) false None false None false None false None false None force.
Definition set_aws : SetCmd :=
  mk_set [bstr "aws_credential"; bstr "prod"] None false None false None false (Some (bstr "id")) false None true None false None false.

Lemma fresh_stored : stored data_dir file fresh_host.(h_disk) ∅.
Proof. by vm_compute. Qed.
Lemma fresh_room : room data_dir file fresh_host.(h_disk).
Proof. split_and!; [intros q b _|..]; done. Qed.

Lemma set_plain_secret_sets_witness :
  set_outcome data_dir file [(bstr "aws_credential.prod.access_key_id", bstr "id"); (bstr "aws_credential.prod.secret_access_key", bstr "from stdin")]
    false ∅ fresh_host (set_plain_secret store set_aws fresh_host).
Proof.
  pose proof (set_plain_secret_sets data_dir file ∅ set_aws fresh_host eq_refl ltac:(discriminate) eq_refl fresh_stored fresh_room) as Hs.
  exact Hs.
Defined.

Lemma put_replaces_whole_witness :
  let res := put store (bstr "token") (PlainSecret (bstr "v")) fresh_host in
  res.2.(h_disk) !! store = Some (FsFile (secrets_json (<[bstr "token" := PlainSecret (bstr "v")]> ∅) ++ [10])).
Proof.
  destruct (put_replaces_whole data_dir file (bstr "token") (PlainSecret (bstr "v")) fresh_host
              (put store (bstr "token") (PlainSecret (bstr "v")) fresh_host).2
              (put store (bstr "token") (PlainSecret (bstr "v")) fresh_host).1 (surjective_pairing _)) as [[_ Hne]|(old & h1 & Ho & Hd)].
  - exfalso. apply Hne. vm_compute. reflexivity.
  - assert (old = ∅) as ->; [|exact Hd]. assert (Hr : (read_all store fresh_host).1 = Ok ∅) by (vm_compute; reflexivity).
    rewrite Ho in Hr. simpl in Hr. congruence.
Defined.

(** Two stores that differ in a token *)
Definition with_token (v : buffer) : host := (set_plain_secret store (set_token false (bstr "api") v) fresh_host).2.
Lemma shown_is_public_witness :
  (list_all store (with_token (bstr "one"))).1 = (list_all store (with_token (bstr "two"))).1 /\
  (show_secret store (bstr "bearer_token.api.token") false (with_token (bstr "one"))).1 =
    (show_secret store (bstr "bearer_token.api.token") false (with_token (bstr "two"))).1.
Proof.
  apply (shown_is_public store (with_token (bstr "one")) (with_token (bstr "two"))
    {[ bstr "bearer_token.api.token" := PlainSecret (bstr "one") ]} {[ bstr "bearer_token.api.token" := PlainSecret (bstr "two") ]}
    (with_token (bstr "one")) (with_token (bstr "two"))); [vm_compute; reflexivity..|].
  intros n. destruct (decide (n = bstr "bearer_token.api.token")) as [->|Hne].
  - rewrite !lookup_singleton_eq. exact Logic.I.
  - rewrite !lookup_singleton_ne by congruence. exact Logic.I.
Defined.

(** ** Corners *)

(** [Path::exists] is [false] when looking fails; the store is then taken to be empty, and
    [put] writes a file that has only the new secret. *)
Definition one_secret : host := with_token (bstr "one").
Example unreadable_store_is_emptied :
  (write_plain_secret store (bstr "other") (bstr "v") true
     (mk_host one_secret.(h_disk) [None; None; Some 0%nat] [] 0)).1 = Ok tt /\
  (get store (bstr "bearer_token.api.token")
     (write_plain_secret store (bstr "other") (bstr "v") true
        (mk_host one_secret.(h_disk) [None; None; Some 0%nat] [] 0)).2).1 = Err (SecretNotFound (bstr "bearer_token.api.token")).
Proof. split; vm_compute; reflexivity. Qed.

(** There is no lock: a secret that another process sets between the reading and the writing
    is lost. *)
Example concurrent_set_lost :
  let read := (read_all store fresh_host).1 in
  let h := (put store (bstr "b") (PlainSecret (bstr "2")) fresh_host).2 in
  let secrets := match read with Ok m => m | _ => ∅ end in
  let h := (write_all store (<[bstr "a" := PlainSecret (bstr "1")]> secrets) h).2 in
  (get store (bstr "a") h).1 = Ok (PlainSecret (bstr "1")) /\ (get store (bstr "b") h).1 = Err (SecretNotFound (bstr "b")).
Proof. split; vm_compute; reflexivity. Qed.

(** The slots of a credential are written one by one: a failure leaves the first without the
    second, and the command cannot be repeated without [--force]. *)
Example half_a_credential :
  let h := (set_plain_secret store set_aws (mk_host ∅ (replicate 15 None ++ [Some 0%nat]) [] 0)).2 in
  (get store (bstr "aws_credential.prod.access_key_id") h).1 = Ok (PlainSecret (bstr "id")) /\
  (get store (bstr "aws_credential.prod.secret_access_key") h).1 = Err (SecretNotFound (bstr "aws_credential.prod.secret_access_key")) /\
  (set_plain_secret store set_aws h).1 = Err (SecretExists (bstr "aws_credential.prod.access_key_id")).
Proof. split_and!; vm_compute; reflexivity. Qed.
