(* ===== verification/MachineModel.v ===== *)
(** * Machines: data, names and references

    The durable description of a machine ([specs/vm-spec], [store/models], [machine/] of
    [runtime/libvm]) and the code on it that needs no state: identifiers ([utils.rs]),
    references to machines ([reference.rs], [machine_id.rs]), generated names
    ([name_generator.rs]), sizes of memory ([memory.rs]), networks ([network/api.rs]) and the
    requests of [builder.rs] and [update.rs].  A path is its components and whether it is
    absolute; text is bytes. *)

From stdpp Require Import base list option numbers strings gmap pretty.
From S2P Require Import Prelude Bytes Utf8 Str HostFs.

(** ** Specifications of machines *)

Record PathBuf := mk_pathbuf { pb_absolute : bool; pb_components : path }.

Inductive GuestOs : Type := Linux.
Record Guest := mk_guest { guest_os : option GuestOs }.
Record Kernel := mk_kernel { kernel_path : option PathBuf; cmdline : list buffer; initramfs : option PathBuf }.
Record Boot := mk_boot { boot_kernel : option Kernel; boot_userdata : option buffer }.
Record Hardware := mk_hardware {
  cpus : option Z; memory : option Z; nested_virtualization : option bool; rosetta : option bool }.
Record Disk := mk_disk { disk_path : PathBuf; disk_read_only : bool }.
Record Storage := mk_storage { disks : list Disk }.
Record Mount := mk_mount { mount_source : PathBuf; mount_tag : buffer; mount_read_only : bool }.

Inductive VsockEndpointMode : Type := Connect | Listen.
Inductive RestartPolicy : Type := Never | OnFailure | Always.
Record Backoff := mk_backoff { backoff_initial : Z; backoff_max : Z }.
(** The configuration of a plugin is JSON text. *)
Record Plugin := mk_plugin {
  plugin_command : PathBuf; plugin_args : list buffer; plugin_env : gmap buffer buffer;
  plugin_working_dir : option PathBuf; plugin_config : option buffer }.
Record Lifecycle := mk_lifecycle {
  autostart : bool; startup_timeout_ms : Z; restart : RestartPolicy; backoff_ms : Backoff }.
Record VsockEndpoint := mk_endpoint {
  endpoint_name : buffer; endpoint_port : Z; endpoint_mode : VsockEndpointMode;
  endpoint_plugin : Plugin; endpoint_lifecycle : Lifecycle }.
Record Vsock := mk_vsock { endpoints : list VsockEndpoint }.

Record VmSpec := mk_spec {
  spec_version : Z * Z * Z; guest : option Guest; boot : option Boot; hardware : option Hardware;
  storage : option Storage; mounts : list Mount; vsock : option Vsock; annotations : gmap buffer buffer }.

(** [VmSpec::current] *)
Definition current : VmSpec := mk_spec (0, 1, 0) None None None None [] None ∅.

Definition with_hardware (hw : option Hardware) (s : VmSpec) : VmSpec :=
  mk_spec s.(spec_version) s.(guest) s.(boot) hw s.(storage) s.(mounts) s.(vsock) s.(annotations).

Definition empty_hardware : Hardware := mk_hardware None None None None.

(** ** Errors *)

Inductive IdentifierReason : Type := NameEmpty | NameDash | NameReserved (name : buffer) | NameCharacter (ch : buffer).
Inductive PrefixReason : Type := PrefixShort | PrefixLong | PrefixNotHex.
Inductive CreateReason : Type :=
| DiskSizeZero | UserdataEmpty | MemoryZero | MemoryTooLarge (bytes : Z) | PathMissing (p : PathBuf) | StateIdMismatch | SerializeFailed
| BadNetwork (reason : IdentifierReason) | VzNatTopology.
Inductive UpdateReason : Type :=
| NothingToUpdate | UpdateCpusZero | UpdateMemoryZero | UpdateMemoryTooLarge (bytes : Z) | UpdateDiskZero
| NameTaken (name : buffer) | DiskShrinks (from to : Z).
Inductive NetworkMessage : Type :=
| NetworkName (reason : IdentifierReason) | NetworkUndefined (name : buffer) | TopologyUnsupported (name : buffer) | PolicyUnsupported | BadPolicyRef
| AuthorityFailed | AuthorityIncomplete | SpawnFailed | PidTooLarge | StartupFailed (message : buffer) | RollbackFailed (network_id : buffer)
| AttachmentUnreadable | NetworkSerialize.
Inductive RootDiskError : Type :=
| BaseRootfsNotFound (p : path) | BaseRootfsNotFile (p : path)
| RawDiskShrinkUnsupported (p : path) (current_size requested_size : Z) | RootDiskIo (e : io_error).
(** What SQLite reports: a constraint that is violated, a row that cannot be decoded, or a
    failure of its own. *)
Inductive DbError : Type := UniqueName | UniqueId | UniqueDefinition | ForeignKey | RowMismatch | DbFailure.

Inductive LibVmError : Type :=
| InvalidMachineName (name : buffer) (reason : IdentifierReason)
| InvalidMachineIdPrefix (prefix : buffer) (reason : PrefixReason)
| MachineAlreadyExists (name : buffer)
| MachineNameGenerationFailed (attempts : Z)
| MachineNotFound (reference : buffer)
| MachineIdAlreadyExists (id : buffer)
| MachineAlreadyRunning (reference : buffer)
| NetworkRuntime (reference : buffer) (message : NetworkMessage)
| InvalidCreateRequest (name : buffer) (reason : CreateReason)
| InvalidMachineUpdate (reference : buffer) (reason : UpdateReason)
| AmbiguousIdPrefix (prefix : buffer) (count : nat)
| StateDecode (count : Z)
| SpecSerializeFailed (name : buffer)
| LockIdChanged
| BadTransition
| Database (e : DbError)
| Io (e : io_error)
| RootDisk (e : RootDiskError).

(** ** Identifiers *)

Definition identifier_char (c : Z) : bool := is_ascii_alphanumeric c || (c =? 45) || (c =? 95) || (c =? 46).

Definition validate_identifier (reserved : list buffer) (name : buffer) : outcome IdentifierReason unit :=
  match name with
  | [] => Err NameEmpty
  | c :: _ =>
      if c =? 45 then Err NameDash
      else if bool_decide (name ∈ reserved) then Err (NameReserved name)
      else match find_if (fun c => negb (identifier_char c)) name with
           | Some n => let rest := drop n name in Err (NameCharacter (take (utf8_step rest).1 rest))
           | None => Ok tt
           end
  end.

Definition map_err {E F A} (f : E -> F) (o : outcome E A) : outcome F A :=
  match o with Ok a => Ok a | Err e => Err (f e) | Panic => Panic end.

Definition validate_machine_name (name : buffer) : outcome LibVmError unit :=
  map_err (InvalidMachineName name) (validate_identifier [] name).

Definition RESERVED_NETWORK_NAMES : list buffer := [bstr "private"; bstr "none"].
Definition validate_network_name (name : buffer) : outcome IdentifierReason unit :=
  validate_identifier RESERVED_NETWORK_NAMES name.

(** ** References *)

(** A [MachineId] is the 128-bit number of a UUID. *)
Abbreviation MachineId := Z (only parsing).

(** The crate [uuid]: the form without hyphens, and the parser. *)
Class Uuids := { simple : MachineId -> buffer; parse_uuid : buffer -> option MachineId }.

Inductive MachineRef : Type := RefId (id : MachineId) | RefIdPrefix (prefix : buffer) | RefName (name : buffer).

Definition is_ascii_hexdigit (c : Z) : bool := is_ascii_digit c || in_range 97 102 c || in_range 65 70 c.
Definition looks_like_id_prefix (input : buffer) : bool :=
  (3 <=? length input)%nat && (length input <=? 32)%nat && forallb is_ascii_hexdigit input.

(** [MachineRef::parse]; the prefix is ASCII, so that it is put in lower case byte by byte. *)
Definition parse_ref `{Uuids} (input : buffer) : outcome LibVmError MachineRef :=
  match parse_uuid input with
  | Some id => Ok (RefId id)
  | None =>
      if looks_like_id_prefix input then Ok (RefIdPrefix (to_ascii_lowercase <$> input))
      else _ <- validate_machine_name input ;; Ok (RefName input)
  end.

(** [Store::validate_machine_id_prefix] *)
Definition is_normal_hex (c : Z) : bool := is_ascii_digit c || in_range 97 102 c.
Definition validate_machine_id_prefix (prefix : buffer) : outcome LibVmError unit :=
  let valid_length := (3 <=? length prefix)%nat && (length prefix <=? 32)%nat in
  let normalized_hex := forallb is_normal_hex prefix in
  if valid_length && normalized_hex then Ok tt
  else Err (InvalidMachineIdPrefix prefix
         (if (length prefix <? 3)%nat then PrefixShort
          else if (32 <? length prefix)%nat then PrefixLong else PrefixNotHex)).

(** ** Generated names *)

Definition ADJECTIVES : list buffer := bstr <$> [
    "amber"; "brave"; "bright"; "calm"; "cedar"; "clever"; "cosmic"; "crisp"; "daring"; "dawn";
    "eager"; "ember"; "fabled"; "fleet"; "gentle"; "golden"; "harbor"; "hidden"; "honest"; "jolly";
    "lively"; "lunar"; "mellow"; "mighty"; "nimble"; "noble"; "patient"; "plucky"; "proud"; "quiet";
    "rapid"; "ready"; "remote"; "river"; "silver"; "steady"; "sunny"; "swift"; "tidy"; "valiant";
    "velvet"; "vivid"; "wandering"; "warm"; "wild"; "winter"; "wise"; "zesty"]%string.
Definition NOUNS : list buffer := bstr <$> [
    "badger"; "beacon"; "bison"; "branch"; "brook"; "comet"; "coyote"; "cricket"; "drift"; "falcon";
    "fern"; "forge"; "gopher"; "grove"; "harrier"; "heron"; "island"; "juniper"; "koala"; "lantern";
    "lark"; "maple"; "meadow"; "meteor"; "otter"; "panda"; "pioneer"; "quartz"; "raccoon"; "raven";
    "sable"; "salmon"; "sparrow"; "spruce"; "summit"; "tundra"; "valley"; "violet"; "walrus";
    "willow"; "wombat"; "yak"; "zephyr"; "zircon"; "anchor"; "cinder"; "glacier"; "orchid"]%string.

Definition choose_word (words : list buffer) (entropy : Z) : outcome LibVmError buffer :=
  let word_count := zlen words in
  if word_count =? 0 then Err (MachineNameGenerationFailed 0)
  else ok_or (words !! Z.to_nat (entropy mod word_count)) (MachineNameGenerationFailed 0).

(** [u64::rotate_left] *)
Definition rotate_left (v n : Z) : Z := Z.lor (wrap 64 (Z.shiftl v n)) (Z.shiftr v (64 - n)).

(** [{:04x}] of a [u16] *)
Definition hex_digit (d : Z) : Z := if d <? 10 then 48 + d else 87 + d.
Definition hex4 (v : Z) : buffer :=
  hex_digit <$> [Z.land (Z.shiftr v 12) 15; Z.land (Z.shiftr v 8) 15; Z.land (Z.shiftr v 4) 15; Z.land v 15].

Definition name_from_entropy (entropy : Z) : outcome LibVmError buffer :=
  adjective <- choose_word ADJECTIVES entropy ;;
  noun <- choose_word NOUNS (rotate_left entropy 21) ;;
  let suffix := Z.land (rotate_left entropy 42) 65535 in
  let name := adjective ++ [45] ++ noun ++ [45] ++ hex4 suffix in
  _ <- validate_machine_name name ;;
  Ok name.

(** ** Memory *)

Definition BYTES_PER_MEBIBYTE : Z := 1024 * 1024.
Definition BYTES_PER_GIBIBYTE : Z := 1024 * BYTES_PER_MEBIBYTE.

(** A [Memory] is its bytes, a [u64]. *)
Definition saturating_mul (a b : Z) : Z := Z.min (a * b) (2 ^ 64 - 1).
Definition mebibytes (n : Z) : Z := saturating_mul n BYTES_PER_MEBIBYTE.
Definition gibibytes (n : Z) : Z := saturating_mul n BYTES_PER_GIBIBYTE.

Definition to_vm_spec_mebibytes (bytes : Z) (name : buffer) : outcome LibVmError Z :=
  if bytes =? 0 then Err (InvalidCreateRequest name MemoryZero)
  else ok_or (chk 32 (div_ceil bytes BYTES_PER_MEBIBYTE)) (InvalidCreateRequest name (MemoryTooLarge bytes)).

Definition to_update_mebibytes (bytes : Z) (reference : buffer) : outcome LibVmError Z :=
  if bytes =? 0 then Err (InvalidMachineUpdate reference UpdateMemoryZero)
  else ok_or (chk 32 (div_ceil bytes BYTES_PER_MEBIBYTE)) (InvalidMachineUpdate reference (UpdateMemoryTooLarge bytes)).

(** ** Networks *)

(** The network of a machine, in the public form and in the stored one, which agree. *)
Inductive MachineNetworkConfig : Type :=
| NetPrivate (policy_ref : option buffer) | NetNone | NetNamed (name : buffer).
Definition default_network : MachineNetworkConfig := NetPrivate None.
Definition network_config_name (n : MachineNetworkConfig) : buffer :=
  match n with NetPrivate _ => bstr "private" | NetNone => bstr "none" | NetNamed name => name end.
(** [MachineNetworkConfig::try_named] *)
Definition try_named (name : buffer) : outcome IdentifierReason MachineNetworkConfig :=
  _ <- validate_network_name name ;; Ok (NetNamed name).

Inductive NetworkTopology : Type := Nat | Bridge | Isolated.
Inductive NetworkDriver : Type := Auto | Netd | VzNat.
#[export] Instance network_topology_eq_dec : EqDecision NetworkTopology.
Proof. solve_decision. Defined.
#[export] Instance network_driver_eq_dec : EqDecision NetworkDriver.
Proof. solve_decision. Defined.

Record NetworkDefinition := mk_definition {
  nd_name : buffer; nd_topology : NetworkTopology; nd_driver : NetworkDriver; nd_created_at : Z; nd_modified_at : Z }.

(** [NetworkDefinition::validate] *)
Definition validate_definition (d : NetworkDefinition) : outcome CreateReason unit :=
  _ <- map_err BadNetwork (validate_network_name d.(nd_name)) ;;
  if bool_decide (d.(nd_driver) = VzNat) && negb (bool_decide (d.(nd_topology) = Nat)) then Err VzNatTopology else Ok tt.

(** A running network; its attachment and the state of its driver are JSON text. *)
Record NetworkInstance := mk_instance {
  ni_id : buffer; ni_driver : buffer; ni_definition_name : option buffer; ni_runtime_dir : path;
  ni_attachment_json : buffer; ni_driver_state_json : buffer; ni_created_at : Z; ni_modified_at : Z }.
Record NetworkAttachment := mk_attachment {
  na_machine_id : MachineId; na_network_instance_id : buffer; na_guest_mac : buffer; na_created_at : Z; na_modified_at : Z }.

(** ** The stored configuration, and requests to create and to change one *)

Record MachineConfig := mk_config {
  mc_id : MachineId; mc_lock_id : N; mc_name : buffer; mc_spec : VmSpec; mc_machine_dir : path;
  mc_created_at : Z; mc_modified_at : Z; mc_image_ref : buffer; mc_root_disk_size : option Z;
  mc_labels : gmap buffer buffer; mc_metadata : gmap buffer buffer; mc_network : MachineNetworkConfig }.

Record MachineCreateRequest := mk_request {
  rq_image_ref : buffer; rq_base_rootfs_path : PathBuf; rq_name : option buffer; rq_labels : gmap buffer
    buffer; rq_metadata : gmap buffer buffer; rq_cpus : option Z; rq_memory : option Z; rq_kernel : option
    PathBuf; rq_initramfs : option PathBuf; rq_disk_size_bytes : option Z; rq_nested_virtualization : bool;
    rq_rosetta : bool; rq_userdata : option buffer; rq_disks : list PathBuf; rq_mounts : list Mount;
    rq_network : option MachineNetworkConfig }.

(** [MachineBuilder::new] and its setters *)
Definition b_new (image_ref : buffer) (base_rootfs_path : PathBuf) : MachineCreateRequest :=
  mk_request image_ref base_rootfs_path None ∅ ∅ None None None None None false false None [] [] None.
Definition b_name (n : buffer) (r : MachineCreateRequest) : MachineCreateRequest :=
  mk_request r.(rq_image_ref) r.(rq_base_rootfs_path) (Some n) r.(rq_labels) r.(rq_metadata) r.(rq_cpus)
    r.(rq_memory) r.(rq_kernel) r.(rq_initramfs) r.(rq_disk_size_bytes) r.(rq_nested_virtualization)
    r.(rq_rosetta) r.(rq_userdata) r.(rq_disks) r.(rq_mounts) r.(rq_network).
Definition b_maybe_name (n : option buffer) (r : MachineCreateRequest) : MachineCreateRequest :=
  mk_request r.(rq_image_ref) r.(rq_base_rootfs_path) (n) r.(rq_labels) r.(rq_metadata) r.(rq_cpus)
    r.(rq_memory) r.(rq_kernel) r.(rq_initramfs) r.(rq_disk_size_bytes) r.(rq_nested_virtualization)
    r.(rq_rosetta) r.(rq_userdata) r.(rq_disks) r.(rq_mounts) r.(rq_network).
Definition b_labels (l : gmap buffer buffer) (r : MachineCreateRequest) : MachineCreateRequest :=
  mk_request r.(rq_image_ref) r.(rq_base_rootfs_path) r.(rq_name) (l) r.(rq_metadata) r.(rq_cpus)
    r.(rq_memory) r.(rq_kernel) r.(rq_initramfs) r.(rq_disk_size_bytes) r.(rq_nested_virtualization)
    r.(rq_rosetta) r.(rq_userdata) r.(rq_disks) r.(rq_mounts) r.(rq_network).
Definition b_label (k v : buffer) (r : MachineCreateRequest) : MachineCreateRequest :=
  mk_request r.(rq_image_ref) r.(rq_base_rootfs_path) r.(rq_name) (<[k := v]> r.(rq_labels))
    r.(rq_metadata) r.(rq_cpus) r.(rq_memory) r.(rq_kernel) r.(rq_initramfs) r.(rq_disk_size_bytes)
    r.(rq_nested_virtualization) r.(rq_rosetta) r.(rq_userdata) r.(rq_disks) r.(rq_mounts) r.(rq_network).
Definition b_metadata (m : gmap buffer buffer) (r : MachineCreateRequest) : MachineCreateRequest :=
  mk_request r.(rq_image_ref) r.(rq_base_rootfs_path) r.(rq_name) r.(rq_labels) (m) r.(rq_cpus)
    r.(rq_memory) r.(rq_kernel) r.(rq_initramfs) r.(rq_disk_size_bytes) r.(rq_nested_virtualization)
    r.(rq_rosetta) r.(rq_userdata) r.(rq_disks) r.(rq_mounts) r.(rq_network).
Definition b_metadata_entry (k v : buffer) (r : MachineCreateRequest) : MachineCreateRequest :=
  mk_request r.(rq_image_ref) r.(rq_base_rootfs_path) r.(rq_name) r.(rq_labels) (<[k := v]>
    r.(rq_metadata)) r.(rq_cpus) r.(rq_memory) r.(rq_kernel) r.(rq_initramfs) r.(rq_disk_size_bytes)
    r.(rq_nested_virtualization) r.(rq_rosetta) r.(rq_userdata) r.(rq_disks) r.(rq_mounts) r.(rq_network).
Definition b_cpus (n : Z) (r : MachineCreateRequest) : MachineCreateRequest :=
  mk_request r.(rq_image_ref) r.(rq_base_rootfs_path) r.(rq_name) r.(rq_labels) r.(rq_metadata) (Some n)
    r.(rq_memory) r.(rq_kernel) r.(rq_initramfs) r.(rq_disk_size_bytes) r.(rq_nested_virtualization)
    r.(rq_rosetta) r.(rq_userdata) r.(rq_disks) r.(rq_mounts) r.(rq_network).
Definition b_maybe_cpus (n : option Z) (r : MachineCreateRequest) : MachineCreateRequest :=
  mk_request r.(rq_image_ref) r.(rq_base_rootfs_path) r.(rq_name) r.(rq_labels) r.(rq_metadata) (n)
    r.(rq_memory) r.(rq_kernel) r.(rq_initramfs) r.(rq_disk_size_bytes) r.(rq_nested_virtualization)
    r.(rq_rosetta) r.(rq_userdata) r.(rq_disks) r.(rq_mounts) r.(rq_network).
Definition b_memory (m : Z) (r : MachineCreateRequest) : MachineCreateRequest :=
  mk_request r.(rq_image_ref) r.(rq_base_rootfs_path) r.(rq_name) r.(rq_labels) r.(rq_metadata) r.(rq_cpus)
    (Some m) r.(rq_kernel) r.(rq_initramfs) r.(rq_disk_size_bytes) r.(rq_nested_virtualization)
    r.(rq_rosetta) r.(rq_userdata) r.(rq_disks) r.(rq_mounts) r.(rq_network).
Definition b_maybe_memory (m : option Z) (r : MachineCreateRequest) : MachineCreateRequest :=
  mk_request r.(rq_image_ref) r.(rq_base_rootfs_path) r.(rq_name) r.(rq_labels) r.(rq_metadata) r.(rq_cpus)
    (m) r.(rq_kernel) r.(rq_initramfs) r.(rq_disk_size_bytes) r.(rq_nested_virtualization) r.(rq_rosetta)
    r.(rq_userdata) r.(rq_disks) r.(rq_mounts) r.(rq_network).
Definition b_kernel (p : PathBuf) (r : MachineCreateRequest) : MachineCreateRequest :=
  mk_request r.(rq_image_ref) r.(rq_base_rootfs_path) r.(rq_name) r.(rq_labels) r.(rq_metadata) r.(rq_cpus)
    r.(rq_memory) (Some p) r.(rq_initramfs) r.(rq_disk_size_bytes) r.(rq_nested_virtualization)
    r.(rq_rosetta) r.(rq_userdata) r.(rq_disks) r.(rq_mounts) r.(rq_network).
Definition b_maybe_kernel (p : option PathBuf) (r : MachineCreateRequest) : MachineCreateRequest :=
  mk_request r.(rq_image_ref) r.(rq_base_rootfs_path) r.(rq_name) r.(rq_labels) r.(rq_metadata) r.(rq_cpus)
    r.(rq_memory) (p) r.(rq_initramfs) r.(rq_disk_size_bytes) r.(rq_nested_virtualization) r.(rq_rosetta)
    r.(rq_userdata) r.(rq_disks) r.(rq_mounts) r.(rq_network).
Definition b_initramfs (p : PathBuf) (r : MachineCreateRequest) : MachineCreateRequest :=
  mk_request r.(rq_image_ref) r.(rq_base_rootfs_path) r.(rq_name) r.(rq_labels) r.(rq_metadata) r.(rq_cpus)
    r.(rq_memory) r.(rq_kernel) (Some p) r.(rq_disk_size_bytes) r.(rq_nested_virtualization) r.(rq_rosetta)
    r.(rq_userdata) r.(rq_disks) r.(rq_mounts) r.(rq_network).
Definition b_maybe_initramfs (p : option PathBuf) (r : MachineCreateRequest) : MachineCreateRequest :=
  mk_request r.(rq_image_ref) r.(rq_base_rootfs_path) r.(rq_name) r.(rq_labels) r.(rq_metadata) r.(rq_cpus)
    r.(rq_memory) r.(rq_kernel) (p) r.(rq_disk_size_bytes) r.(rq_nested_virtualization) r.(rq_rosetta)
    r.(rq_userdata) r.(rq_disks) r.(rq_mounts) r.(rq_network).
Definition b_root_disk_size (n : Z) (r : MachineCreateRequest) : MachineCreateRequest :=
  mk_request r.(rq_image_ref) r.(rq_base_rootfs_path) r.(rq_name) r.(rq_labels) r.(rq_metadata) r.(rq_cpus)
    r.(rq_memory) r.(rq_kernel) r.(rq_initramfs) (Some n) r.(rq_nested_virtualization) r.(rq_rosetta)
    r.(rq_userdata) r.(rq_disks) r.(rq_mounts) r.(rq_network).
Definition b_maybe_root_disk_size (n : option Z) (r : MachineCreateRequest) : MachineCreateRequest :=
  mk_request r.(rq_image_ref) r.(rq_base_rootfs_path) r.(rq_name) r.(rq_labels) r.(rq_metadata) r.(rq_cpus)
    r.(rq_memory) r.(rq_kernel) r.(rq_initramfs) (n) r.(rq_nested_virtualization) r.(rq_rosetta)
    r.(rq_userdata) r.(rq_disks) r.(rq_mounts) r.(rq_network).
Definition b_nested_virtualization (b : bool) (r : MachineCreateRequest) : MachineCreateRequest :=
  mk_request r.(rq_image_ref) r.(rq_base_rootfs_path) r.(rq_name) r.(rq_labels) r.(rq_metadata) r.(rq_cpus)
    r.(rq_memory) r.(rq_kernel) r.(rq_initramfs) r.(rq_disk_size_bytes) (b) r.(rq_rosetta) r.(rq_userdata)
    r.(rq_disks) r.(rq_mounts) r.(rq_network).
Definition b_rosetta (b : bool) (r : MachineCreateRequest) : MachineCreateRequest :=
  mk_request r.(rq_image_ref) r.(rq_base_rootfs_path) r.(rq_name) r.(rq_labels) r.(rq_metadata) r.(rq_cpus)
    r.(rq_memory) r.(rq_kernel) r.(rq_initramfs) r.(rq_disk_size_bytes) r.(rq_nested_virtualization) (b)
    r.(rq_userdata) r.(rq_disks) r.(rq_mounts) r.(rq_network).
Definition b_userdata (u : buffer) (r : MachineCreateRequest) : MachineCreateRequest :=
  mk_request r.(rq_image_ref) r.(rq_base_rootfs_path) r.(rq_name) r.(rq_labels) r.(rq_metadata) r.(rq_cpus)
    r.(rq_memory) r.(rq_kernel) r.(rq_initramfs) r.(rq_disk_size_bytes) r.(rq_nested_virtualization)
    r.(rq_rosetta) (Some u) r.(rq_disks) r.(rq_mounts) r.(rq_network).
Definition b_maybe_userdata (u : option buffer) (r : MachineCreateRequest) : MachineCreateRequest :=
  mk_request r.(rq_image_ref) r.(rq_base_rootfs_path) r.(rq_name) r.(rq_labels) r.(rq_metadata) r.(rq_cpus)
    r.(rq_memory) r.(rq_kernel) r.(rq_initramfs) r.(rq_disk_size_bytes) r.(rq_nested_virtualization)
    r.(rq_rosetta) (u) r.(rq_disks) r.(rq_mounts) r.(rq_network).
Definition b_disks (l : list PathBuf) (r : MachineCreateRequest) : MachineCreateRequest :=
  mk_request r.(rq_image_ref) r.(rq_base_rootfs_path) r.(rq_name) r.(rq_labels) r.(rq_metadata) r.(rq_cpus)
    r.(rq_memory) r.(rq_kernel) r.(rq_initramfs) r.(rq_disk_size_bytes) r.(rq_nested_virtualization)
    r.(rq_rosetta) r.(rq_userdata) (l) r.(rq_mounts) r.(rq_network).
Definition b_mounts (l : list Mount) (r : MachineCreateRequest) : MachineCreateRequest :=
  mk_request r.(rq_image_ref) r.(rq_base_rootfs_path) r.(rq_name) r.(rq_labels) r.(rq_metadata) r.(rq_cpus)
    r.(rq_memory) r.(rq_kernel) r.(rq_initramfs) r.(rq_disk_size_bytes) r.(rq_nested_virtualization)
    r.(rq_rosetta) r.(rq_userdata) r.(rq_disks) (l) r.(rq_network).
Definition b_network (n : MachineNetworkConfig) (r : MachineCreateRequest) : MachineCreateRequest :=
  mk_request r.(rq_image_ref) r.(rq_base_rootfs_path) r.(rq_name) r.(rq_labels) r.(rq_metadata) r.(rq_cpus)
    r.(rq_memory) r.(rq_kernel) r.(rq_initramfs) r.(rq_disk_size_bytes) r.(rq_nested_virtualization)
    r.(rq_rosetta) r.(rq_userdata) r.(rq_disks) r.(rq_mounts) (Some n).
Definition b_maybe_network (n : option MachineNetworkConfig) (r : MachineCreateRequest) :
    MachineCreateRequest :=
  mk_request r.(rq_image_ref) r.(rq_base_rootfs_path) r.(rq_name) r.(rq_labels) r.(rq_metadata) r.(rq_cpus)
    r.(rq_memory) r.(rq_kernel) r.(rq_initramfs) r.(rq_disk_size_bytes) r.(rq_nested_virtualization)
    r.(rq_rosetta) r.(rq_userdata) r.(rq_disks) r.(rq_mounts) (n).

Record MachineUpdate := mk_update {
  up_name : option buffer; up_cpus : option Z; up_memory : option Z; up_root_disk_size : option Z;
  up_nested_virtualization : option bool; up_rosetta : option bool; up_network : option MachineNetworkConfig }.
(** [MachineUpdate::new] and its setters *)
Definition u_new : MachineUpdate := mk_update None None None None None None None.
Definition u_name (v : buffer) (u : MachineUpdate) : MachineUpdate :=
  mk_update (Some v) u.(up_cpus) u.(up_memory) u.(up_root_disk_size) u.(up_nested_virtualization) u.(up_rosetta) u.(up_network).
Definition u_cpus (v : Z) (u : MachineUpdate) : MachineUpdate :=
  mk_update u.(up_name) (Some v) u.(up_memory) u.(up_root_disk_size) u.(up_nested_virtualization) u.(up_rosetta) u.(up_network).
Definition u_memory (v : Z) (u : MachineUpdate) : MachineUpdate :=
  mk_update u.(up_name) u.(up_cpus) (Some v) u.(up_root_disk_size) u.(up_nested_virtualization) u.(up_rosetta) u.(up_network).
Definition u_root_disk_size (v : Z) (u : MachineUpdate) : MachineUpdate :=
  mk_update u.(up_name) u.(up_cpus) u.(up_memory) (Some v) u.(up_nested_virtualization) u.(up_rosetta) u.(up_network).
Definition u_nested_virtualization (v : bool) (u : MachineUpdate) : MachineUpdate :=
  mk_update u.(up_name) u.(up_cpus) u.(up_memory) u.(up_root_disk_size) (Some v) u.(up_rosetta) u.(up_network).
Definition u_rosetta (v : bool) (u : MachineUpdate) : MachineUpdate :=
  mk_update u.(up_name) u.(up_cpus) u.(up_memory) u.(up_root_disk_size) u.(up_nested_virtualization) (Some v) u.(up_network).
Definition u_network (v : MachineNetworkConfig) (u : MachineUpdate) : MachineUpdate :=
  mk_update u.(up_name) u.(up_cpus) u.(up_memory) u.(up_root_disk_size) u.(up_nested_virtualization) u.(up_rosetta) (Some v).
(** [MachineUpdate::is_empty] *)
Definition update_is_empty (u : MachineUpdate) : bool :=
  bool_decide (u.(up_name) = None) && bool_decide (u.(up_cpus) = None) && bool_decide (u.(up_memory) = None) && bool_decide (u.(up_root_disk_size) = None) && bool_decide (u.(up_nested_virtualization) = None) && bool_decide (u.(up_rosetta) = None) && bool_decide (u.(up_network) = None).

Definition assign_mount_tags (mounts : list Mount) : list Mount :=
  imap (fun index m =>
    match trim m.(mount_tag) with
    | [] => mk_mount m.(mount_source) (bstr "mount" ++ bstr (pretty index)) m.(mount_read_only)
    | _ => m
    end) mounts.
