(* ===== verification/MachineDb.v ===== *)
(** * The database of machines

    [runtime/libvm/src/store] over the schema of [migrations/0001_initial.sql].  A table is a
    map from its primary key; the statements check the constraints that the schema
    declares (primary keys, unique names, foreign keys with cascades), since SQLite is opened
    with foreign keys on.  A column that stores JSON holds the value itself, beside the
    columns the code keeps in step with it.  The database shares the runtime with the disk,
    the lock files and what is drawn at random; every statement may fail, and a transaction
    takes effect when it commits or not at all. *)

From stdpp Require Import base list option numbers strings gmap.
From S2P Require Import Prelude Transitions LockManager Bytes Utf8 Str HostFs HostProg MachineModel.

(** ** Tables *)

Record config_row := mk_config_row { cr_name : buffer; cr_config : MachineConfig }.
Record state_row := mk_state_row { sr_status : string; sr_state : MachineState }.

Record db := mk_db {
  t_config : gmap MachineId config_row; t_state : gmap MachineId state_row;
  t_instances : gmap buffer NetworkInstance; t_attachments : gmap MachineId NetworkAttachment;
  t_definitions : gmap buffer NetworkDefinition }.

(** Another row has the name. *)
Definition name_taken (id : MachineId) (name : buffer) (t : gmap MachineId config_row) : bool :=
  existsb (fun kv => negb (kv.1 =? id) && bool_decide (kv.2.(cr_name) = name)) (map_to_list t).
Definition definition_taken (id : buffer) (definition : option buffer) (t : gmap buffer NetworkInstance) : bool :=
  bool_decide (is_Some definition) &&
  existsb (fun kv => negb (bool_decide (kv.1 = id)) && bool_decide (kv.2.(ni_definition_name) = definition)) (map_to_list t).

(** ** Statements *)

Definition set_config t (d : db) : db := mk_db t d.(t_state) d.(t_instances) d.(t_attachments) d.(t_definitions).
Definition set_state t (d : db) : db := mk_db d.(t_config) t d.(t_instances) d.(t_attachments) d.(t_definitions).
Definition set_instances t (d : db) : db := mk_db d.(t_config) d.(t_state) t d.(t_attachments) d.(t_definitions).
Definition set_attachments t (d : db) : db := mk_db d.(t_config) d.(t_state) d.(t_instances) t d.(t_definitions).
Definition set_definitions t (d : db) : db := mk_db d.(t_config) d.(t_state) d.(t_instances) d.(t_attachments) t.

Definition insert_config (c : MachineConfig) (d : db) : db + DbError :=
  match d.(t_config) !! c.(mc_id) with
  | Some _ => inr UniqueId
  | None => if name_taken c.(mc_id) c.(mc_name) d.(t_config) then inr UniqueName
            else inl (set_config (<[c.(mc_id) := mk_config_row c.(mc_name) c]> d.(t_config)) d)
  end.
Definition update_config (c : MachineConfig) (d : db) : (bool * db) + DbError :=
  match d.(t_config) !! c.(mc_id) with
  | None => inl (false, d)
  | Some _ => if name_taken c.(mc_id) c.(mc_name) d.(t_config) then inr UniqueName
              else inl (true, set_config (<[c.(mc_id) := mk_config_row c.(mc_name) c]> d.(t_config)) d)
  end.
(** The rows that refer to a machine go with it. *)
Definition delete_config (id : MachineId) (d : db) : db :=
  mk_db (delete id d.(t_config)) (delete id d.(t_state)) d.(t_instances) (delete id d.(t_attachments)) d.(t_definitions).

Definition upsert_state (s : MachineState) (d : db) : db + DbError :=
  match d.(t_config) !! s.(machine_id) with
  | None => inr ForeignKey
  | Some _ => inl (set_state (<[s.(machine_id) := mk_state_row (as_str s.(status)) s]> d.(t_state)) d)
  end.
Definition insert_state (s : MachineState) (d : db) : db + DbError :=
  match d.(t_state) !! s.(machine_id) with
  | Some _ => inr UniqueId
  | None => upsert_state s d
  end.

Definition upsert_instance (i : NetworkInstance) (d : db) : db + DbError :=
  if definition_taken i.(ni_id) i.(ni_definition_name) d.(t_instances) then inr UniqueDefinition
  else let created := match d.(t_instances) !! i.(ni_id) with Some o => o.(ni_created_at) | None => i.(ni_created_at) end in
       inl (set_instances (<[i.(ni_id) := mk_instance i.(ni_id) i.(ni_driver) i.(ni_definition_name) i.(ni_runtime_dir)
              i.(ni_attachment_json) i.(ni_driver_state_json) created i.(ni_modified_at)]> d.(t_instances)) d).
Definition delete_instance (id : buffer) (d : db) : db :=
  set_attachments (filter (fun kv => kv.2.(na_network_instance_id) <> id) d.(t_attachments))
    (set_instances (delete id d.(t_instances)) d).

Definition upsert_attachment (a : NetworkAttachment) (d : db) : db + DbError :=
  match d.(t_config) !! a.(na_machine_id), d.(t_instances) !! a.(na_network_instance_id) with
  | Some _, Some _ =>
      let created := match d.(t_attachments) !! a.(na_machine_id) with Some o => o.(na_created_at) | None => a.(na_created_at) end in
      inl (set_attachments (<[a.(na_machine_id) := mk_attachment a.(na_machine_id) a.(na_network_instance_id)
             a.(na_guest_mac) created a.(na_modified_at)]> d.(t_attachments)) d)
  | _, _ => inr ForeignKey
  end.

Definition upsert_definition (n : NetworkDefinition) (d : db) : db :=
  let created := match d.(t_definitions) !! n.(nd_name) with Some o => o.(nd_created_at) | None => n.(nd_created_at) end in
  set_definitions (<[n.(nd_name) := mk_definition n.(nd_name) n.(nd_topology) n.(nd_driver) created n.(nd_modified_at)]>
    d.(t_definitions)) d.

(** ** The runtime *)

(** [rt_signals] are the signals sent, newest first: a process or, negated, a group. *)
Record rt := mk_rt {
  rt_host : host; rt_db : db; rt_locks : locks; rt_uuids : list MachineId; rt_entropy : list (option Z);
  rt_signals : list Z }.
Abbreviation Rt := (sprog rt LibVmError).

Definition put_host h (w : rt) : rt := mk_rt h w.(rt_db) w.(rt_locks) w.(rt_uuids) w.(rt_entropy) w.(rt_signals).
Definition put_db d (w : rt) : rt := mk_rt w.(rt_host) d w.(rt_locks) w.(rt_uuids) w.(rt_entropy) w.(rt_signals).
Definition put_locks l (w : rt) : rt := mk_rt w.(rt_host) w.(rt_db) l w.(rt_uuids) w.(rt_entropy) w.(rt_signals).

Definition on_host {A} (m : prog LibVmError A) : Rt A := fun w => let '(o, h) := m w.(rt_host) in (o, put_host h w).
(** [?] on a result of [std::fs], and the result itself *)
Definition rio {A} (m : fs A) : Rt A := on_host (io_as Io m).
Definition rresult {A} (m : fs A) : Rt (A + io_error) := on_host (io_result m).

Definition map_error {A} (f : LibVmError -> LibVmError) (m : Rt A) : Rt A := fun w =>
  let '(o, w) := m w in (map_err f o, w).

(** [utils::now_unix] *)
Definition unix_seconds (nanos : Z) : Z := Z.min (Z.max 0 (nanos / 10 ^ 9)) (2 ^ 63 - 1).
Definition now_unix : Rt Z := t <-- on_host now_nanos ;; sret (unix_seconds t).

(** [MachineId::new], and eight random bytes *)
Definition new_id : Rt MachineId := fun w =>
  match w.(rt_uuids) with
  | [] => (Ok 0, w)
  | u :: l => (Ok u, mk_rt w.(rt_host) w.(rt_db) w.(rt_locks) l w.(rt_entropy) w.(rt_signals))
  end.
Definition random_u64 : Rt (option Z) := fun w =>
  match w.(rt_entropy) with
  | [] => (Ok None, w)
  | e :: l => (Ok e, mk_rt w.(rt_host) w.(rt_db) w.(rt_locks) w.(rt_uuids) l w.(rt_signals))
  end.
Definition send_signal (pid : Z) : Rt unit := fun w =>
  (Ok tt, mk_rt w.(rt_host) w.(rt_db) w.(rt_locks) w.(rt_uuids) w.(rt_entropy) (pid :: w.(rt_signals))).

(** A fault of the schedule makes the next operation of the database, or on a lock, fail. *)
Definition may_fail (e : LibVmError) : Rt unit := fun w =>
  let '(f, h) := next_fault w.(rt_host) in
  (match f with Some _ => Err e | None => Ok tt end, put_host h w).

Definition of_db {A} (r : A + DbError) : outcome LibVmError A := match r with inl a => Ok a | inr e => Err (Database e) end.

(** A query, a statement of its own, and the parts of a transaction. *)
Definition query {A} (f : db -> outcome LibVmError A) : Rt A :=
  _ <-- may_fail (Database DbFailure) ;; fun w => (f w.(rt_db), w).
Definition execute {A} (f : db -> (A * db) + DbError) : Rt A :=
  _ <-- may_fail (Database DbFailure) ;; fun w =>
  match f w.(rt_db) with
  | inl (a, d) => (Ok a, put_db d w)
  | inr e => (Err (Database e), w)
  end.
Definition begin_tx : Rt db := query Ok.
Definition in_tx (f : db -> db + DbError) (d : db) : Rt db := _ <-- may_fail (Database DbFailure) ;; stry (of_db (f d)).
Definition commit_tx (d : db) : Rt unit := execute (fun _ => inl (tt, d)).

(** ** Rows ([row.rs]) *)

Definition config_of_row (id : MachineId) (r : config_row) : outcome LibVmError MachineConfig :=
  if negb (r.(cr_config).(mc_id) =? id) then Err (Database RowMismatch)
  else if negb (bool_decide (r.(cr_config).(mc_name) = r.(cr_name))) then Err (Database RowMismatch)
  else Ok r.(cr_config).
Definition state_of_row (id : MachineId) (r : state_row) : outcome LibVmError MachineState :=
  match parse r.(sr_status) with
  | None => Err (Database RowMismatch)
  | Some st =>
      if negb (r.(sr_state).(machine_id) =? id) then Err (Database RowMismatch)
      else if negb (bool_decide (r.(sr_state).(status) = st)) then Err (Database RowMismatch)
      else Ok r.(sr_state)
  end.

Fixpoint decode_all (l : list (MachineId * config_row)) : outcome LibVmError (list MachineConfig) :=
  match l with
  | [] => Ok []
  | (id, r) :: l => c <- config_of_row id r ;; cs <- decode_all l ;; Ok (c :: cs)
  end.
Definition decode_optional {R A} (f : R -> outcome LibVmError A) (o : option R) : outcome LibVmError (option A) :=
  match o with None => Ok None | Some r => a <- f r ;; Ok (Some a) end.

(** ** [MachineStore] *)

Record InspectResponse := mk_response { summary : buffer; ready : bool; guest_state : Z; vm_state : Z }.

(** What the runtime gets from elsewhere: UUIDs, the JSON of specifications and whether a
    configuration has one, support for reflinks, the size of a directory, the process that
    the state of a network driver names, the process table, and what a monitor answers to a
    request to inspect it. *)
Class RtDeps := {
  #[global] rt_uuid :: Uuids; spec_json : VmSpec -> option buffer; config_serializes : MachineConfig -> bool;
  reflinks : bool; dir_len : Z; helper_pid : buffer -> option Z; process_is_alive : Z -> bool;
  inspect_rpc : MachineId -> InspectResponse + buffer }.

Section MachineStore.
Context `{RtDeps}.

Definition map_add_machine_error (name : buffer) (e : LibVmError) : LibVmError :=
  match e with Database UniqueName => MachineAlreadyExists name | e => e end.

(** [serialize] of a configuration, for its column *)
Definition serialize_config (c : MachineConfig) : outcome LibVmError unit :=
  if config_serializes c then Ok tt else Err (InvalidCreateRequest (bstr "machine_config.config_json") SerializeFailed).

Definition add_machine (c : MachineConfig) (initial : MachineState) : Rt unit :=
  if negb (initial.(machine_id) =? c.(mc_id)) then sfail (InvalidCreateRequest c.(mc_name) StateIdMismatch)
  else d <-- begin_tx ;;
       _ <-- stry (serialize_config c) ;;
       d <-- map_error (map_add_machine_error c.(mc_name)) (in_tx (insert_config c) d) ;;
       d <-- in_tx (insert_state initial) d ;;
       commit_tx d.

(** The query behind [machine_state] *)
Definition stored_state (id : MachineId) : Rt (option MachineState) :=
  query (fun d => decode_optional (state_of_row id) (d.(t_state) !! id)).
Definition save_machine_state (s : MachineState) : Rt unit :=
  execute (fun d => match upsert_state s d with inl d => inl (tt, d) | inr e => inr e end).

Definition save_machine_config (c : MachineConfig) : Rt unit :=
  _ <-- stry (serialize_config c) ;;
  found <-- execute (update_config c) ;;
  if found : bool then sret tt else sfail (MachineNotFound (simple c.(mc_id))).

Definition machine_config (id : MachineId) : Rt (option MachineConfig) :=
  query (fun d => decode_optional (config_of_row id) (d.(t_config) !! id)).
(** At most one row has the name. *)
Definition machine_config_by_name (name : buffer) : Rt (option MachineConfig) :=
  query (fun d => decode_optional (fun kv => config_of_row kv.1 kv.2)
                    (head (filter (fun kv => kv.2.(cr_name) = name) (map_to_list d.(t_config))))).
Definition machine_configs_by_id_prefix (prefix : buffer) : Rt (list MachineConfig) :=
  _ <-- stry (validate_machine_id_prefix prefix) ;;
  query (fun d => decode_all (filter (fun kv => starts_with prefix (simple kv.1) = true) (map_to_list d.(t_config)))).
Definition list_machine_configs : Rt (list MachineConfig) :=
  query (fun d => decode_all (sort_by (fun a b => bytes_le a.2.(cr_name) b.2.(cr_name)) (map_to_list d.(t_config)))).

Definition remove_machine (c : MachineConfig) : Rt unit :=
  d <-- begin_tx ;;
  d <-- in_tx (fun d => inl (set_state (delete c.(mc_id) d.(t_state)) d)) d ;;
  d <-- in_tx (fun d => inl (delete_config c.(mc_id) d)) d ;;
  commit_tx d.
End MachineStore.

(** ** [NetworkStore] *)

Definition network_attachment (id : MachineId) : Rt (option NetworkAttachment) := query (fun d => Ok (d.(t_attachments) !! id)).
Definition network_instance (id : buffer) : Rt (option NetworkInstance) := query (fun d => Ok (d.(t_instances) !! id)).
Definition save_network_instance (i : NetworkInstance) : Rt unit :=
  execute (fun d => match upsert_instance i d with inl d => inl (tt, d) | inr e => inr e end).
Definition attach_network (a : NetworkAttachment) : Rt unit :=
  execute (fun d => match upsert_attachment a d with inl d => inl (tt, d) | inr e => inr e end).
Definition detach_network (id : MachineId) : Rt unit :=
  execute (fun d => inl (tt, set_attachments (delete id d.(t_attachments)) d)).
Definition remove_network_instance (id : buffer) : Rt unit := execute (fun d => inl (tt, delete_instance id d)).
Definition network_instance_by_definition (name : buffer) : Rt (option NetworkInstance) :=
  query (fun d => Ok (snd <$> head (filter (fun kv => kv.2.(ni_definition_name) = Some name) (map_to_list d.(t_instances))))).
Definition attached_to (id : buffer) (d : db) : list (MachineId * NetworkAttachment) :=
  filter (fun kv => kv.2.(na_network_instance_id) = id) (map_to_list d.(t_attachments)).
Definition network_attachment_count (id : buffer) : Rt Z :=
  query (fun d => let count := zlen (attached_to id d) in ok_or (chk 32 count) (StateDecode count)).

Definition define_network (n : NetworkDefinition) : Rt unit :=
  now <-- now_unix ;;
  execute (fun d => inl (tt, upsert_definition (mk_definition n.(nd_name) n.(nd_topology) n.(nd_driver) now now) d)).
Definition list_network_definitions : Rt (list NetworkDefinition) :=
  query (fun d => Ok (sort_by (fun a b => bytes_le a.(nd_name) b.(nd_name)) (snd <$> map_to_list d.(t_definitions)))).
Definition network_definition (name : buffer) : Rt (option NetworkDefinition) := query (fun d => Ok (d.(t_definitions) !! name)).
Definition remove_network_definition (name : buffer) : Rt unit :=
  execute (fun d => inl (tt, set_definitions (delete name d.(t_definitions)) d)).
