(* ===== verification/Machines.v ===== *)
(** * The registry of machines

    Creating, finding, changing and removing machines in [runtime/libvm]: [builder.rs],
    [root_disk.rs], [config.rs], the part of [lifecycle.rs] that removes, the network clean-up
    of [network/mod.rs], and what [runtime/core.rs] gives them.  A machine is a row of the
    database, a directory and a reserved lock number.  Locks are free when they are asked
    for; what an operation sees of a machine's monitor is an argument, as in [Lifecycle].
    A symbolic link is a file that holds its target: nothing here follows one.  Reflinks are
    those of Linux. *)

From stdpp Require Import base list option numbers strings gmap.
From S2P Require Import Prelude Transitions LockManager Bytes Utf8 Str HostFs HostProg MachineModel MachineDb.

(** ** Paths *)

Record LocalRoots := mk_roots { data_root : path; run_root : path; image_root : path }.

Definition machines_dir (r : LocalRoots) : path := r.(data_root) ++ [bstr "machines"].
Definition machine_dir_of `{Uuids} (r : LocalRoots) (id : MachineId) : path := machines_dir r ++ [simple id].
Definition vm_spec_path_in (dir : path) : path := dir ++ [bstr "config.json"].
Definition root_disk_path (dir : path) : path := dir ++ [bstr "rootfs.img"].
Definition network_link (dir : path) : path := dir ++ [bstr "net"].
Definition root_disk_relative_path : PathBuf := mk_pathbuf false [bstr "rootfs.img"].
Definition display_path (p : path) : buffer := concat ((fun c => 47 :: c) <$> p).

(** ** More of [std::fs] *)

(** [fs::canonicalize] from the directory [at_]. *)
Fixpoint walk (m : gmap path node) (at_ : path) (l : path) : path + io_error :=
  match l with
  | [] => inl at_
  | c :: l =>
      if bool_decide (c = bstr ".") then walk m at_ l
      else if bool_decide (c = bstr "..") then walk m (parent at_) l
      else match m !! (at_ ++ [c]) with
           | Some FsDir => walk m (at_ ++ [c]) l
           | Some (FsFile _) => match l with [] => inl (at_ ++ [c]) | _ => inr IoOther end
           | None => inr IoNotFound
           end
  end.
Definition canonicalize (p : path) : fs path := look (fun m => walk m [] p).

Definition create_new (p : path) : fs unit :=
  attempt (fun _ m => m)
    (fun m => match m !! p with
              | Some _ => inr IoExists
              | None => if is_dir_at m (parent p) then inl (<[p := FsFile []]> m) else inr IoNotFound
              end).

(** [File::set_len]: the file is cut, or filled with zeros. *)
Definition set_len (p : path) (n : Z) : fs unit :=
  attempt (fun _ m => m)
    (fun m => match m !! p with
              | Some (FsFile b) => inl (<[p := FsFile (resize (Z.to_nat n) 0 b)]> m)
              | Some FsDir => inr IoOther
              | None => inr IoNotFound
              end).

(** The [FICLONE] request: the file gets the content of the other. *)
Definition ficlone (supported : bool) (source destination : path) : fs unit :=
  attempt (fun _ m => m)
    (fun m => match m !! source with
              | Some (FsFile b) => if supported then inl (<[destination := FsFile b]> m) else inr IoOther
              | _ => inr IoOther
              end).

Definition symlink (target link : path) : fs unit :=
  attempt (fun _ m => m)
    (fun m => match m !! link with
              | Some _ => inr IoExists
              | None => if is_dir_at m (parent link) then inl (<[link := FsFile (display_path target)]> m) else inr IoNotFound
              end).

(** What is seen of the monitor, unless its files cannot be read. *)
Abbreviation seen := (outcome LibVmError Transitions.host).

Section Machines.
Context `{RtDeps} (roots : LocalRoots) (cwd : path).

(** ** Locks *)

Definition allocate_machine_lock : Rt LockId :=
  _ <-- may_fail (Io IoOther) ;; fun w =>
  match LockManager.allocate w.(rt_locks) with
  | Ok (id, l) => (Ok id, put_locks l w)
  | Err _ => (Err (Io IoOther), w)
  | Panic => (Panic, w)
  end.
Definition free_lock (id : LockId) : Rt unit :=
  _ <-- may_fail (Io IoOther) ;; fun w => (Ok tt, put_locks (LockManager.free id w.(rt_locks)) w).
(** The file is made if it is missing. *)
Definition acquire_machine_lock (id : LockId) : Rt unit :=
  _ <-- may_fail (Io IoOther) ;; fun w => (Ok tt, put_locks (open_lock_file id w.(rt_locks)).2 w).

(** ** Root disks *)

Inductive CloneDiskMethod : Type := Reflink | Copy.

Definition root_disk_io (e : io_error) : LibVmError := RootDisk (RootDiskIo e).
Definition dio {A} (m : fs A) : Rt A := on_host (io_as root_disk_io m).

Definition validate_base_rootfs (p : path) : Rt unit :=
  r <-- rresult (metadata p) ;;
  match r with
  | inl (FsFile _) => sret tt
  | inl FsDir => sfail (RootDisk (BaseRootfsNotFile p))
  | inr IoNotFound => sfail (RootDisk (BaseRootfsNotFound p))
  | inr e => sfail (root_disk_io e)
  end.

(** Whether it worked; a file that could not be cloned is removed again. *)
Definition try_reflink (source destination : path) : Rt bool :=
  r <-- rresult (metadata source) ;;
  match r with
  | inr _ => sret false
  | inl _ =>
      r <-- rresult (create_new destination) ;;
      match r with
      | inr _ => sret false
      | inl _ =>
          r <-- rresult (ficlone reflinks source destination) ;;
          match r with
          | inl _ => sret true
          | inr _ => _ <-- rresult (remove_file destination) ;; sret false
          end
      end
  end.

(** [fs::copy] *)
Definition copy_file (source destination : path) : Rt unit :=
  data <-- dio (read_file source) ;; dio (write destination data).

Definition clone_or_copy_root_disk (source destination : path) : Rt CloneDiskMethod :=
  _ <-- validate_base_rootfs source ;;
  _ <-- dio (create_dir_all (parent destination)) ;;
  cloned <-- try_reflink source destination ;;
  if cloned : bool then sret Reflink else _ <-- copy_file source destination ;; sret Copy.

Definition node_len (n : node) : Z := match n with FsFile b => zlen b | FsDir => dir_len end.

Definition resize_raw_disk (p : path) (size_bytes : Z) : Rt unit :=
  _ <-- dio (look (fun m => match m !! p with Some (FsFile _) => inl tt | Some FsDir => inr IoOther | None => inr IoNotFound end)) ;;
  n <-- dio (metadata p) ;;
  if size_bytes <? node_len n then sfail (RootDisk (RawDiskShrinkUnsupported p (node_len n) size_bytes))
  else dio (set_len p size_bytes).

(** ** Creating *)

Definition canonicalize_existing_path (p : PathBuf) (kind : buffer) : Rt PathBuf :=
  abs <-- (if p.(pb_absolute) then sret p.(pb_components)
           else _ <-- may_fail (Io IoOther) ;; sret (cwd ++ p.(pb_components))) ;;
  q <-- map_error (fun _ => InvalidCreateRequest kind (PathMissing (mk_pathbuf true abs))) (rio (canonicalize abs)) ;;
  sret (mk_pathbuf true q).
Definition canonicalize_optional_existing_path (p : option PathBuf) (kind : buffer) : Rt (option PathBuf) :=
  match p with
  | None => sret None
  | Some p => q <-- canonicalize_existing_path p kind ;; sret (Some q)
  end.
Fixpoint canonicalize_existing_paths (l : list PathBuf) (kind : buffer) : Rt (list PathBuf) :=
  match l with
  | [] => sret []
  | p :: l => q <-- canonicalize_existing_path p kind ;; l <-- canonicalize_existing_paths l kind ;; sret (q :: l)
  end.

Definition write_machine_config (dir : path) (name : buffer) (spec : VmSpec) : Rt unit :=
  match spec_json spec with
  | None => sfail (SpecSerializeFailed name)
  | Some text => rio (write (vm_spec_path_in dir) text)
  end.

Definition validate_machine_network_config (n : MachineNetworkConfig) : Rt unit :=
  match n with
  | NetNamed name =>
      _ <-- stry (map_err (fun r => NetworkRuntime name (NetworkName r)) (validate_network_name name)) ;;
      d <-- network_definition name ;;
      match d with Some _ => sret tt | None => sfail (NetworkRuntime name (NetworkUndefined name)) end
  | _ => sret tt
  end.

Record MachineCreatePlan := mk_plan {
  pl_name : buffer; pl_spec : VmSpec; pl_image_ref : buffer; pl_root_disk_size : option Z;
  pl_labels : gmap buffer buffer; pl_metadata : gmap buffer buffer; pl_network : MachineNetworkConfig }.

(** [MachineCreateGuard]; [committed] is the case in which it is not dropped. *)
Record MachineCreateGuard := mk_guard {
  g_id : MachineId; g_plan : MachineCreatePlan; g_machine_dir : path; g_lock : LockId; g_dir_created : bool }.

(** [Drop]: failures are ignored. *)
Definition drop_guard (g : MachineCreateGuard) (w : rt) : rt :=
  let w := if g.(g_dir_created) then (rresult (remove_dir_all g.(g_machine_dir)) w).2 else w in
  (free_lock g.(g_lock) w).2.
(** Code during which the guard is dropped when it is left with an error. *)
Definition guarded {A} (g : MachineCreateGuard) (m : Rt A) : Rt A := fun w =>
  match m w with
  | (Ok a, w) => (Ok a, w)
  | (o, w) => (o, drop_guard g w)
  end.

Definition create_machine_dir (g : MachineCreateGuard) : Rt MachineCreateGuard :=
  _ <-- rio (create_dir_all (parent g.(g_machine_dir))) ;;
  r <-- rresult (create_dir g.(g_machine_dir)) ;;
  match r with
  | inl _ => sret (mk_guard g.(g_id) g.(g_plan) g.(g_machine_dir) g.(g_lock) true)
  | inr IoExists => sfail (MachineIdAlreadyExists (simple g.(g_id)))
  | inr e => sfail (Io e)
  end.

Definition create_machine_guard (plan : MachineCreatePlan) : Rt MachineCreateGuard :=
  _ <-- stry (validate_machine_name plan.(pl_name)) ;;
  existing <-- machine_config_by_name plan.(pl_name) ;;
  match existing with
  | Some _ => sfail (MachineAlreadyExists plan.(pl_name))
  | None =>
      id <-- new_id ;;
      let machine_dir := machine_dir_of roots id in
      lock <-- allocate_machine_lock ;;
      let g := mk_guard id plan machine_dir lock false in
      g <-- guarded g (create_machine_dir g) ;;
      _ <-- guarded g (write_machine_config g.(g_machine_dir) plan.(pl_name) plan.(pl_spec)) ;;
      sret g
  end.

Definition guard_config (g : MachineCreateGuard) (now : Z) : MachineConfig :=
  let p := g.(g_plan) in
  mk_config g.(g_id) g.(g_lock) p.(pl_name) p.(pl_spec) g.(g_machine_dir) now now p.(pl_image_ref)
    p.(pl_root_disk_size) p.(pl_labels) p.(pl_metadata) p.(pl_network).

Definition commit (g : MachineCreateGuard) : Rt MachineConfig :=
  now <-- now_unix ;;
  let config := guard_config g now in
  now <-- now_unix ;;
  _ <-- add_machine config (stopped_machine_state g.(g_id) None now) ;;
  sret config.

Definition DEFAULT_IMAGE_CPUS : Z := 1.
Definition DEFAULT_IMAGE_MEMORY_MIB : Z := 512.
Definition ROOT_DISK_KERNEL_ARG : buffer := bstr "root=/dev/vda".

(** The specification of a request whose paths are resolved. *)
Definition request_spec (r : MachineCreateRequest) (kernel_path initramfs_path : option PathBuf)
    (disk_paths : list PathBuf) (memory_mib : Z) : VmSpec :=
  mk_spec current.(spec_version) (Some (mk_guest (Some Linux)))
    (Some (mk_boot (Some (mk_kernel kernel_path [ROOT_DISK_KERNEL_ARG] initramfs_path)) r.(rq_userdata)))
    (Some (mk_hardware (Some (default DEFAULT_IMAGE_CPUS r.(rq_cpus))) (Some memory_mib)
             (Some r.(rq_nested_virtualization)) (Some r.(rq_rosetta))))
    (Some (mk_storage (mk_disk root_disk_relative_path false :: ((fun p => mk_disk p false) <$> disk_paths))))
    (assign_mount_tags r.(rq_mounts)) current.(vsock) current.(annotations).

Definition create_machine_config_with_name (r : MachineCreateRequest) (name : buffer) : Rt MachineConfig :=
  if bool_decide (r.(rq_disk_size_bytes) = Some 0) then sfail (InvalidCreateRequest name DiskSizeZero) else
  base <-- canonicalize_existing_path r.(rq_base_rootfs_path) (bstr "base rootfs") ;;
  root_disk_size <-- match r.(rq_disk_size_bytes) with
                     | Some n => sret (Some n)
                     | None => m <-- rresult (metadata base.(pb_components)) ;;
                               sret (match m with inl n => Some (node_len n) | inr _ => None end)
                     end ;;
  if bool_decide (root_disk_size = Some 0) then sfail (InvalidCreateRequest name DiskSizeZero) else
  kernel_path <-- canonicalize_optional_existing_path r.(rq_kernel) (bstr "kernel") ;;
  initramfs_path <-- canonicalize_optional_existing_path r.(rq_initramfs) (bstr "initramfs") ;;
  if bool_decide (trim <$> r.(rq_userdata) = Some []) then sfail (InvalidCreateRequest name UserdataEmpty) else
  disk_paths <-- canonicalize_existing_paths r.(rq_disks) (bstr "disk") ;;
  memory_mib <-- match r.(rq_memory) with
                 | Some bytes => stry (to_vm_spec_mebibytes bytes name)
                 | None => sret DEFAULT_IMAGE_MEMORY_MIB
                 end ;;
  let network := default default_network r.(rq_network) in
  _ <-- validate_machine_network_config network ;;
  g <-- create_machine_guard (mk_plan name (request_spec r kernel_path initramfs_path disk_paths memory_mib)
          r.(rq_image_ref) root_disk_size r.(rq_labels) r.(rq_metadata) network) ;;
  guarded g (
    let rootfs_path := root_disk_path g.(g_machine_dir) in
    _ <-- clone_or_copy_root_disk base.(pb_components) rootfs_path ;;
    _ <-- match r.(rq_disk_size_bytes) with Some n => resize_raw_disk rootfs_path n | None => sret tt end ;;
    commit g).

Definition GENERATED_NAME_ATTEMPTS : nat := 3.
Definition generate_machine_name : Rt buffer :=
  e <-- random_u64 ;;
  match e with
  | None => sfail (MachineNameGenerationFailed 0)
  | Some entropy => stry (name_from_entropy entropy)
  end.
Fixpoint generated_name_loop (attempts : nat) (r : MachineCreateRequest) : Rt MachineConfig :=
  match attempts with
  | O => sfail (MachineNameGenerationFailed (Z.of_nat GENERATED_NAME_ATTEMPTS))
  | S attempts =>
      name <-- generate_machine_name ;; fun w =>
      match create_machine_config_with_name r name w with
      | (Err (MachineAlreadyExists _), w) => generated_name_loop attempts r w
      | result => result
      end
  end.

(** [create_machine_config] and [MachineBuilder::create], which returns the id as a handle *)
Definition create_machine_config (r : MachineCreateRequest) : Rt MachineConfig :=
  match r.(rq_name) with
  | Some name => create_machine_config_with_name r name
  | None => generated_name_loop GENERATED_NAME_ATTEMPTS r
  end.

(** ** Finding *)

Definition resolve_machine_config (r : MachineRef) : Rt MachineConfig :=
  match r with
  | RefId id =>
      c <-- machine_config id ;;
      match c with Some c => sret c | None => sfail (MachineNotFound (simple id)) end
  | RefName name =>
      c <-- machine_config_by_name name ;;
      match c with Some c => sret c | None => sfail (MachineNotFound name) end
  | RefIdPrefix prefix =>
      matches <-- machine_configs_by_id_prefix prefix ;;
      match matches with
      | [] => sfail (MachineNotFound prefix)
      | [c] => sret c
      | l => sfail (AmbiguousIdPrefix prefix (length l))
      end
  end.

(** [MachineRef::parse], then [get_machine] *)
Definition get_machine (input : buffer) : Rt MachineConfig :=
  r <-- stry (parse_ref input) ;; resolve_machine_config r.

Definition lock_machine_config (id : MachineId) : Rt MachineConfig :=
  initial <-- resolve_machine_config (RefId id) ;;
  _ <-- acquire_machine_lock initial.(mc_lock_id) ;;
  config <-- resolve_machine_config (RefId id) ;;
  if negb (config.(mc_lock_id) =? initial.(mc_lock_id))%N then sfail LockIdChanged else sret config.

(** ** The state of a machine *)

Definition observe (s : seen) (id : MachineId) (persisted : option MachineState) : Rt MachineState :=
  h <-- stry s ;; stry (map_err (fun _ => BadTransition) (observe_machine_state h id persisted)).

Definition reconcile_machine_runtime_locked (s : seen) (c : MachineConfig) : Rt MachineState :=
  persisted <-- stored_state c.(mc_id) ;;
  observed <-- observe s c.(mc_id) persisted ;;
  _ <-- (if machine_state_needs_writeback persisted observed then save_machine_state observed else sret tt) ;;
  sret observed.

(** [machine_state] *)
Definition current_state (id : MachineId) : Rt MachineState :=
  st <-- stored_state id ;;
  match st with
  | Some st => sret st
  | None => now <-- now_unix ;; sret (stopped_machine_state id None now)
  end.

(** A lock that is held, by this process too, is not acquired again. *)
Definition reconcile_machine_runtime_best_effort (held : bool) (s s' : seen) (c : MachineConfig) : Rt MachineState :=
  persisted <-- stored_state c.(mc_id) ;;
  observed <-- observe s c.(mc_id) persisted ;;
  if machine_state_needs_writeback persisted observed then
    if held then current_state c.(mc_id)
    else _ <-- acquire_machine_lock c.(mc_lock_id) ;; reconcile_machine_runtime_locked s' c
  else sret observed.

Inductive MachineStatus : Type :=
| StatusStopped
| StatusStarting (message : option buffer)
| StatusRunning (guest_ready : bool) (message : option buffer)
| StatusStopping (message : option buffer)
| StatusError (message : option buffer).

Definition non_empty_message (message : option buffer) : option buffer :=
  match trim <$> message with Some [] => None | m => m end.
Definition from_machine_state (st : MachineRuntimeState) (last_error : option buffer) : MachineStatus :=
  match st with
  | Stopped => StatusStopped
  | Starting => StatusStarting None
  | Running => StatusRunning false None
  | Stopping => StatusStopping None
  | Error => StatusError (non_empty_message last_error)
  end.
(** [LifecycleState] of [vm_monitor.proto] by number *)
Definition from_protocol (r : InspectResponse) : MachineStatus :=
  let message := non_empty_message (Some r.(summary)) in
  let guest_ready := r.(ready) && (r.(guest_state) =? 2) in
  match r.(vm_state) with
  | 4 => StatusStopped
  | 1 => StatusStarting message
  | 3 => StatusStopping message
  | 5 => StatusError message
  | _ => StatusRunning guest_ready message
  end.
Definition running_with_message (message : buffer) : MachineStatus := StatusRunning false (non_empty_message (Some message)).

Record MachineData := mk_data {
  md_config : MachineConfig; md_status : MachineStatus; md_started_at : option Z; md_last_error : option string; md_updated_at : Z }.

Definition machine_inspect_data (held : bool) (s s' : seen) (c : MachineConfig) : Rt MachineData :=
  runtime_status <-- reconcile_machine_runtime_best_effort held s s' c ;;
  st <-- current_state c.(mc_id) ;;
  let status_ :=
    if bool_decide (runtime_status.(status) = Running) then
      match inspect_rpc c.(mc_id) with
      | inl response => from_protocol response
      | inr message => running_with_message (bstr "vmmon inspect failed: " ++ message)
      end
    else from_machine_state st.(status) (bstr <$> st.(last_error)) in
  sret (mk_data c status_ st.(started_at) st.(last_error) st.(updated_at)).

(** ** Changing *)

Definition with_spec (spec : VmSpec) (now : Z) (c : MachineConfig) : MachineConfig :=
  mk_config c.(mc_id) c.(mc_lock_id) c.(mc_name) spec c.(mc_machine_dir) c.(mc_created_at) now c.(mc_image_ref)
    c.(mc_root_disk_size) c.(mc_labels) c.(mc_metadata) c.(mc_network).
Definition with_network (n : MachineNetworkConfig) (now : Z) (c : MachineConfig) : MachineConfig :=
  mk_config c.(mc_id) c.(mc_lock_id) c.(mc_name) c.(mc_spec) c.(mc_machine_dir) c.(mc_created_at) now c.(mc_image_ref)
    c.(mc_root_disk_size) c.(mc_labels) c.(mc_metadata) n.

(** The lock, and the machine at rest. *)
Definition lock_inactive (s : seen) (id : MachineId) : Rt MachineConfig :=
  config <-- lock_machine_config id ;;
  st <-- reconcile_machine_runtime_locked s config ;;
  if is_active st.(status) then sfail (MachineAlreadyRunning config.(mc_name)) else sret config.

(** Saving a configuration, after its specification was written when it changed; what was
    there is written back when saving fails. *)
Definition save_or_restore (previous : VmSpec) (spec_changed : bool) (c : MachineConfig) : Rt unit := fun w =>
  match save_machine_config c w with
  | (Ok tt, w) => (Ok tt, w)
  | (o, w) => (o, if spec_changed then (write_machine_config c.(mc_machine_dir) c.(mc_name) previous w).2 else w)
  end.

Definition replace_config (s s' s'' : seen) (id : MachineId) (spec : VmSpec) : Rt MachineData :=
  config <-- lock_inactive s id ;;
  now <-- now_unix ;;
  let changed := with_spec spec now config in
  _ <-- write_machine_config changed.(mc_machine_dir) changed.(mc_name) spec ;;
  _ <-- save_or_restore config.(mc_spec) true changed ;;
  machine_inspect_data true s' s'' changed.

Definition set_network (s s' s'' : seen) (id : MachineId) (n : MachineNetworkConfig) : Rt MachineData :=
  _ <-- validate_machine_network_config n ;;
  config <-- lock_inactive s id ;;
  now <-- now_unix ;;
  let changed := with_network n now config in
  _ <-- save_machine_config changed ;;
  machine_inspect_data true s' s'' changed.

Definition validate_root_disk_growth (c : MachineConfig) (desired_size : Z) : Rt unit :=
  n <-- rio (metadata (root_disk_path c.(mc_machine_dir))) ;;
  if desired_size <? node_len n then sfail (InvalidMachineUpdate c.(mc_name) (DiskShrinks (node_len n) desired_size))
  else sret tt.
Definition reconcile_root_disk_size (c : MachineConfig) : Rt unit :=
  match c.(mc_root_disk_size) with
  | None => sret tt
  | Some n => resize_raw_disk (root_disk_path c.(mc_machine_dir)) n
  end.

(** The part of [update] that looks only at the request. *)
Definition check_update (id : MachineId) (u : MachineUpdate) : outcome LibVmError (option Z) :=
  _ <- match u.(up_name) with Some name => validate_machine_name name | None => Ok tt end ;;
  if update_is_empty u then Err (InvalidMachineUpdate (simple id) NothingToUpdate) else
  if bool_decide (u.(up_cpus) = Some 0) then Err (InvalidMachineUpdate (simple id) UpdateCpusZero) else
  mem <- match u.(up_memory) with
         | Some bytes => mib <- to_update_mebibytes bytes (simple id) ;; Ok (Some mib)
         | None => Ok None
         end ;;
  if bool_decide (u.(up_root_disk_size) = Some 0) then Err (InvalidMachineUpdate (simple id) UpdateDiskZero) else Ok mem.

(** A new name that no other machine has. *)
Definition update_name (u : MachineUpdate) (c : MachineConfig) : Rt buffer :=
  match u.(up_name) with
  | Some new_name =>
      if bool_decide (new_name = c.(mc_name)) then sret c.(mc_name) else
      existing <-- machine_config_by_name new_name ;;
      match existing with
      | Some e => if e.(mc_id) =? c.(mc_id) then sret new_name
                  else sfail (InvalidMachineUpdate c.(mc_name) (NameTaken new_name))
      | None => sret new_name
      end
  | None => sret c.(mc_name)
  end.

Definition spec_changes (u : MachineUpdate) : bool :=
  bool_decide (is_Some u.(up_cpus)) || bool_decide (is_Some u.(up_memory)) ||
  bool_decide (is_Some u.(up_nested_virtualization)) || bool_decide (is_Some u.(up_rosetta)).
Definition or_else {A} (o p : option A) : option A := match o with Some a => Some a | None => p end.
Definition update_spec (u : MachineUpdate) (mem : option Z) (spec : VmSpec) : VmSpec :=
  if spec_changes u then
    let hw := default empty_hardware spec.(hardware) in
    with_hardware (Some (mk_hardware (or_else u.(up_cpus) hw.(cpus)) (or_else mem hw.(memory))
      (or_else u.(up_nested_virtualization) hw.(nested_virtualization)) (or_else u.(up_rosetta) hw.(rosetta)))) spec
  else spec.

Definition updated_config (u : MachineUpdate) (mem : option Z) (name : buffer) (now : Z) (c : MachineConfig) : MachineConfig :=
  mk_config c.(mc_id) c.(mc_lock_id) name (update_spec u mem c.(mc_spec)) c.(mc_machine_dir) c.(mc_created_at) now
    c.(mc_image_ref) (or_else u.(up_root_disk_size) c.(mc_root_disk_size)) c.(mc_labels) c.(mc_metadata)
    (default c.(mc_network) u.(up_network)).

(** [update] up to the point at which the change is stored *)
Definition store_update (s : seen) (id : MachineId) (u : MachineUpdate) : Rt MachineConfig :=
  _ <-- match u.(up_network) with Some n => validate_machine_network_config n | None => sret tt end ;;
  mem <-- stry (check_update id u) ;;
  config <-- lock_inactive s id ;;
  name <-- update_name u config ;;
  _ <-- match u.(up_root_disk_size) with
        | Some n => validate_root_disk_growth (updated_config u mem name config.(mc_modified_at) config) n
        | None => sret tt
        end ;;
  now <-- now_unix ;;
  let changed := updated_config u mem name now config in
  _ <-- (if spec_changes u then write_machine_config changed.(mc_machine_dir) changed.(mc_name) changed.(mc_spec) else sret tt) ;;
  _ <-- save_or_restore config.(mc_spec) (spec_changes u) changed ;;
  sret changed.
Definition update (s s' s'' : seen) (id : MachineId) (u : MachineUpdate) : Rt MachineData :=
  changed <-- store_update s id u ;; machine_inspect_data true s' s'' changed.

(** ** Networks *)

Definition DRIVER_NETD : buffer := bstr "netd".

(** [terminate_helper], through [terminate_network_instance] *)
Definition terminate_helper (pid : Z) : Rt unit :=
  if (pid <=? 0) || negb (process_is_alive pid) then sret tt else send_signal (- pid).
Definition terminate_network_instance (i : NetworkInstance) : Rt unit :=
  if bool_decide (i.(ni_driver) = DRIVER_NETD) then
    match helper_pid i.(ni_driver_state_json) with Some pid => terminate_helper pid | None => sret tt end
  else sret tt.
Definition network_instance_is_alive (i : NetworkInstance) : bool :=
  if bool_decide (i.(ni_driver) = DRIVER_NETD) then
    match helper_pid i.(ni_driver_state_json) with Some pid => process_is_alive pid | None => false end
  else false.

Definition remove_instance_network_link (id : MachineId) : Rt unit :=
  let link := network_link (machine_dir_of roots id) in
  m <-- rresult (metadata link) ;;
  match m with
  | inr IoNotFound => sret tt
  | inr e => sfail (Io e)
  | inl FsDir => rio (remove_dir_all link)
  | inl (FsFile _) => rio (remove_file link)
  end.
Definition ensure_instance_network_link (id : MachineId) (runtime_dir : path) : Rt unit :=
  _ <-- remove_instance_network_link id ;; rio (symlink runtime_dir (network_link (machine_dir_of roots id))).
Definition remove_runtime_dir (p : path) : Rt unit :=
  r <-- rresult (remove_dir_all p) ;;
  match r with inl _ | inr IoNotFound => sret tt | inr e => sfail (Io e) end.

(** A network that nobody uses is stopped. *)
Definition release_instance (i : NetworkInstance) : Rt unit :=
  n <-- network_attachment_count i.(ni_id) ;;
  if n =? 0 then
    _ <-- terminate_network_instance i ;;
    _ <-- remove_network_instance i.(ni_id) ;;
    remove_runtime_dir i.(ni_runtime_dir)
  else sret tt.

Definition reconcile_network_runtime (c : MachineConfig) (monitor_running : bool) : Rt unit :=
  attachment <-- network_attachment c.(mc_id) ;;
  match attachment with
  | None => sret tt
  | Some a =>
      instance <-- network_instance a.(na_network_instance_id) ;;
      match instance with
      | None => _ <-- remove_instance_network_link c.(mc_id) ;; detach_network c.(mc_id)
      | Some i =>
          if monitor_running && network_instance_is_alive i
          then ensure_instance_network_link c.(mc_id) i.(ni_runtime_dir)
          else _ <-- detach_network c.(mc_id) ;;
               _ <-- remove_instance_network_link c.(mc_id) ;;
               release_instance i
      end
  end.

Definition remove_attached_network (id : MachineId) : Rt unit :=
  attachment <-- network_attachment id ;;
  match attachment with
  | None => remove_instance_network_link id
  | Some a =>
      instance <-- network_instance a.(na_network_instance_id) ;;
      _ <-- detach_network id ;;
      _ <-- remove_instance_network_link id ;;
      match instance with Some i => release_instance i | None => sret tt end
  end.

Definition create_network_definition (n : NetworkDefinition) : Rt unit :=
  _ <-- stry (map_err (InvalidCreateRequest n.(nd_name)) (validate_definition n)) ;; define_network n.

(** ** Removing *)

Definition remove_machine_records (c : MachineConfig) : Rt unit :=
  _ <-- remove_machine c ;; free_lock c.(mc_lock_id).

Definition remove (s : seen) (id : MachineId) : Rt unit :=
  config <-- lock_machine_config id ;;
  st <-- reconcile_machine_runtime_locked s config ;;
  _ <-- reconcile_network_runtime config (is_active st.(status)) ;;
  if is_active st.(status) then sfail (MachineAlreadyRunning config.(mc_name)) else
  r <-- rresult (remove_dir_all config.(mc_machine_dir)) ;;
  match r with
  | inl _ | inr IoNotFound => remove_machine_records config
  | inr e => sfail (Io e)
  end.
End Machines.
