(* ===== verification/MachinesSpec.v ===== *)
(** * What the registry of machines guarantees

    The invariant that the database, the lock files and the code keep between them, whatever
    fails; and what creating, changing and removing a machine do. *)

From stdpp Require Import base list option numbers strings gmap.
From S2P Require Import Prelude Transitions LockManager Bytes Utf8 Str HostFs HostProg MachineModel MachineDb Machines.

(** ** Programs that may fail *)

(** From [P], the value and the state satisfy [Q], or an error leaves a state in [R]. *)
Definition hoare {S E A : Type} (P : S -> Prop) (m : sprog S E A) (Q : A -> S -> Prop) (R : S -> Prop) : Prop :=
  forall s, P s -> match m s with (Ok a, s') => Q a s' | (_, s') => R s' end.

Section Hoare.
Context {S E : Type} (R : S -> Prop).

Lemma hoare_bind {A B : Type} (P : S -> Prop) (m : sprog S E A) Q (k : A -> sprog S E B) Q' :
  hoare P m Q R -> (forall a, hoare (Q a) (k a) Q' R) -> hoare P (sbind m k) Q' R.
Proof. intros Hm Hk s Hs. specialize (Hm s Hs). unfold sbind. destruct (m s) as [[a|e|] s']; [by apply Hk|done..]. Qed.

Lemma hoare_ret {A : Type} (P : S -> Prop) (a : A) (Q : A -> S -> Prop) :
  (forall s, P s -> Q a s) -> hoare P (sret (E:=E) a) Q R.
Proof. intros H s Hs. by apply H. Qed.

Lemma hoare_fail {A : Type} (P : S -> Prop) (e : E) (Q : A -> S -> Prop) : (forall s, P s -> R s) -> hoare P (sfail e) Q R.
Proof. intros H s Hs. by apply H. Qed.

Lemma hoare_try {A : Type} (P : S -> Prop) (o : outcome E A) :
  (forall s, P s -> R s) -> hoare P (stry o) (fun a s => P s /\ o = Ok a) R.
Proof. intros H s Hs. unfold stry. destruct o; auto. Qed.

Lemma hoare_pre {A : Type} (P P' : S -> Prop) (m : sprog S E A) Q :
  hoare P' m Q R -> (forall s, P s -> P' s) -> hoare P m Q R.
Proof. intros Hm HP s Hs. apply Hm; auto. Qed.

Lemma hoare_post {A : Type} (P : S -> Prop) (m : sprog S E A) (Q Q' : A -> S -> Prop) :
  hoare P m Q' R -> (forall a s, Q' a s -> Q a s) -> hoare P m Q R.
Proof. intros Hm HQ s Hs. specialize (Hm s Hs). destruct (m s) as [[a|e|] s']; auto. Qed.
End Hoare.

(** A program that keeps [P], whatever its outcome. *)
Definition invariant {S E A : Type} (P : S -> Prop) (m : sprog S E A) : Prop := forall s, P s -> P (m s).2.

Section Invariant.
Context {S E : Type} (P : S -> Prop).

Lemma invariant_hoare {A : Type} (m : sprog S E A) : invariant P m <-> hoare P m (fun _ => P) P.
Proof.
  split; intros H s Hs; specialize (H s Hs); [|]; by destruct (m s) as [[a|e|] s'].
Qed.
Lemma invariant_bind {A B : Type} (m : sprog S E A) (k : A -> sprog S E B) :
  invariant P m -> (forall a, invariant P (k a)) -> invariant P (sbind m k).
Proof. intros Hm Hk s Hs. specialize (Hm s Hs). unfold sbind. destruct (m s) as [[a|e|] s']; [by apply Hk|done..]. Qed.
Lemma invariant_ret {A : Type} (a : A) : invariant P (sret (E:=E) a).
Proof. by intros s. Qed.
Lemma invariant_fail {A : Type} (e : E) : invariant P (sfail (A:=A) e).
Proof. by intros s. Qed.
Lemma invariant_try {A : Type} (o : outcome E A) : invariant P (stry o).
Proof. by intros s. Qed.
End Invariant.

Create HintDb machines.
#[export] Hint Resolve invariant_ret invariant_fail invariant_try : machines.

(** One step through a program with an invariant. *)
Ltac invariant_step :=
  match goal with
  | |- invariant _ _ => solve [eauto with machines nocore]
  | |- invariant _ (sbind _ _) => apply invariant_bind; [|intros ?]
  | |- invariant _ (match ?x with _ => _ end) => destruct x
  | |- invariant _ (if ?x then _ else _) => destruct x
  | |- invariant _ (let _ := _ in _) => cbv zeta
  end.
Ltac invariant_tac := repeat invariant_step.

(** ** What the database keeps *)

Section DbOk.
Context `{RtDeps} (roots : LocalRoots).

Definition row_ok (id : MachineId) (r : config_row) : Prop :=
  r.(cr_config).(mc_id) = id /\ r.(cr_config).(mc_name) = r.(cr_name) /\ r.(cr_config).(mc_machine_dir) = machine_dir_of roots id.

Record db_ok (d : db) : Prop := mk_db_ok {
  ok_rows : forall id r, d.(t_config) !! id = Some r -> row_ok id r;
  ok_names : forall id id' r r', d.(t_config) !! id = Some r -> d.(t_config) !! id' = Some r' -> r.(cr_name) = r'.(cr_name) -> id = id';
  ok_states : forall id r, d.(t_state) !! id = Some r ->
    is_Some (d.(t_config) !! id) /\ r.(sr_state).(machine_id) = id /\ r.(sr_status) = as_str r.(sr_state).(status);
  ok_instances : forall id i, d.(t_instances) !! id = Some i -> i.(ni_id) = id;
  ok_definitions : forall id id' i i', d.(t_instances) !! id = Some i -> d.(t_instances) !! id' = Some i' ->
    is_Some i.(ni_definition_name) -> i.(ni_definition_name) = i'.(ni_definition_name) -> id = id';
  ok_attachments : forall id a, d.(t_attachments) !! id = Some a ->
    a.(na_machine_id) = id /\ is_Some (d.(t_config) !! id) /\ is_Some (d.(t_instances) !! a.(na_network_instance_id)) }.

Lemma name_taken_false id name t : name_taken id name t = false ->
  forall id' r, t !! id' = Some r -> r.(cr_name) = name -> id' = id.
Proof.
  intros Hn id' r Hr <-. destruct (decide (id' = id)) as [|Hne]; [done|]. exfalso.
  apply not_true_iff_false in Hn. apply Hn. unfold name_taken. apply existsb_exists. exists (id', r). split.
  - by apply list_elem_of_In, elem_of_map_to_list.
  - simpl. apply andb_true_iff. split; [apply negb_true_iff; by apply Z.eqb_neq|by apply bool_decide_eq_true].
Qed.

Lemma definition_taken_false id name t : definition_taken id name t = false -> is_Some name ->
  forall id' i, t !! id' = Some i -> i.(ni_definition_name) = name -> id' = id.
Proof.
  intros Hn Hs id' i Hi <-. destruct (decide (id' = id)) as [|Hne]; [done|]. exfalso.
  apply not_true_iff_false in Hn. apply Hn. unfold definition_taken. rewrite bool_decide_eq_true_2 by done. simpl.
  apply existsb_exists. exists (id', i). split.
  - by apply list_elem_of_In, elem_of_map_to_list.
  - simpl. rewrite bool_decide_eq_false_2 by done. by apply bool_decide_eq_true.
Qed.

(** Putting a row with a name nobody else has. *)
Lemma put_config_ok c d : db_ok d -> c.(mc_machine_dir) = machine_dir_of roots c.(mc_id) ->
  name_taken c.(mc_id) c.(mc_name) d.(t_config) = false ->
  db_ok (set_config (<[c.(mc_id) := mk_config_row c.(mc_name) c]> d.(t_config)) d).
Proof.
  intros [Hr Hn Hs Hi Hd Ha] Hdir Ht. pose proof (name_taken_false _ _ _ Ht) as Hu.
  split; simpl.
  - intros id r [[<- <-]|[_ ?]]%lookup_insert_Some; [done|by apply Hr].
  - intros id id' r r' [[<- <-]|[Hne Hid]]%lookup_insert_Some [[<- <-]|[Hne' Hid']]%lookup_insert_Some; simpl; intros E; [done| | |].
    + symmetry. by apply (Hu id' r').
    + by apply (Hu id r).
    + by apply (Hn id id' r r').
  - intros id r Hir. destruct (Hs id r Hir) as (? & ? & ?). split; [by apply lookup_insert_is_Some'; right|done].
  - done.
  - done.
  - intros id a Hia. destruct (Ha id a Hia) as (? & ? & ?). split; [done|]. split; [by apply lookup_insert_is_Some'; right|done].
Qed.

Lemma put_state_ok s d d' : db_ok d -> upsert_state s d = inl d' -> db_ok d'.
Proof.
  intros [Hr Hn Hs Hi Hd Ha]. unfold upsert_state. destruct (t_config d !! machine_id s) eqn:E; [|done]. intros [= <-].
  split; simpl; try done. intros id r [[<- <-]|[_ ?]]%lookup_insert_Some; [|by apply Hs]. by rewrite E.
Qed.

Lemma delete_config_ok id d : db_ok d -> db_ok (delete_config id d).
Proof.
  intros [Hr Hn Hs Hi Hd Ha]. split; simpl; try done.
  - intros i r [_ ?]%lookup_delete_Some. by apply Hr.
  - intros i i' r r' [_ ?]%lookup_delete_Some [_ ?]%lookup_delete_Some. by apply Hn.
  - intros i r [Hne Hir]%lookup_delete_Some. rewrite lookup_delete_ne by done. by apply Hs.
  - intros i a [Hne Hia]%lookup_delete_Some. rewrite lookup_delete_ne by done. by apply Ha.
Qed.

Lemma drop_state_ok id d : db_ok d -> db_ok (set_state (delete id d.(t_state)) d).
Proof. intros [Hr Hn Hs Hi Hd Ha]. split; simpl; try done. intros i r [_ ?]%lookup_delete_Some. by apply Hs. Qed.

Lemma detach_db_ok id d : db_ok d -> db_ok (set_attachments (delete id d.(t_attachments)) d).
Proof. intros [Hr Hn Hs Hi Hd Ha]. split; simpl; try done. intros i a [_ ?]%lookup_delete_Some. by apply Ha. Qed.

Lemma delete_instance_ok id d : db_ok d -> db_ok (delete_instance id d).
Proof.
  intros [Hr Hn Hs Hi Hd Ha]. split; simpl; try done.
  - intros i x [_ ?]%lookup_delete_Some. by apply Hi.
  - intros i i' x x' [_ ?]%lookup_delete_Some [_ ?]%lookup_delete_Some. by apply Hd.
  - intros i a [Hia Hne]%map_lookup_filter_Some. simpl in Hne. destruct (Ha i a Hia) as (? & ? & ?).
    rewrite lookup_delete_ne by done. done.
Qed.

Lemma put_instance_ok i d d' : db_ok d -> upsert_instance i d = inl d' -> db_ok d'.
Proof.
  intros [Hr Hn Hs Hi Hd Ha]. unfold upsert_instance. destruct (definition_taken _ _ _) eqn:E; [done|]. intros [= <-].
  pose proof (definition_taken_false _ _ _ E) as Hu. split; simpl; try done.
  - intros id x [[<- <-]|[_ ?]]%lookup_insert_Some; [done|by apply Hi].
  - intros id id' x x' [[<- <-]|[Hne Hid]]%lookup_insert_Some [[<- <-]|[Hne' Hid']]%lookup_insert_Some; simpl; intros Hsm Heq; [done| | |].
    + symmetry. by apply (Hu Hsm id' x').
    + rewrite Heq in Hsm. by apply (Hu Hsm id x).
    + by apply (Hd id id' x x').
  - intros id a Hia. destruct (Ha id a Hia) as (? & ? & ?). split; [done|]. split; [done|]. by apply lookup_insert_is_Some'; right.
Qed.

Lemma put_attachment_ok a d d' : db_ok d -> upsert_attachment a d = inl d' -> db_ok d'.
Proof.
  intros [Hr Hn Hs Hi Hd Ha]. unfold upsert_attachment. destruct (t_config d !! na_machine_id a) eqn:Ec; [|done].
  destruct (t_instances d !! na_network_instance_id a) eqn:Ei; [|done]. intros [= <-]. split; simpl; try done.
  intros id x [[<- <-]|[_ ?]]%lookup_insert_Some; [|by apply Ha]. simpl. by rewrite Ec, Ei.
Qed.

Lemma set_definitions_ok t d : db_ok d -> db_ok (set_definitions t d).
Proof. by intros [Hr Hn Hs Hi Hd Ha]. Qed.
End DbOk.

(** ** Programs on the database and the locks *)

(** A property of the database and the lock files alone. *)
Definition on_state (J : db -> locks -> Prop) (w : rt) : Prop := J w.(rt_db) w.(rt_locks).

Section OnState.
Context `{RtDeps} (J : db -> locks -> Prop).
Abbreviation I := (on_state J).

Lemma on_host_inv {A} (m : prog LibVmError A) : invariant I (on_host m).
Proof. intros w Hw. unfold on_host. by destruct (m (rt_host w)). Qed.
Lemma rio_inv {A} (m : fs A) : invariant I (rio m).
Proof. apply on_host_inv. Qed.
Lemma rresult_inv {A} (m : fs A) : invariant I (rresult m).
Proof. apply on_host_inv. Qed.
Lemma dio_inv {A} (m : fs A) : invariant I (dio m).
Proof. apply on_host_inv. Qed.
Lemma map_error_inv {A} f (m : Rt A) : invariant I m -> invariant I (map_error f m).
Proof. intros Hm w Hw. specialize (Hm w Hw). unfold map_error. by destruct (m w). Qed.
Lemma may_fail_inv e : invariant I (may_fail e).
Proof. intros w Hw. unfold may_fail. by destruct (next_fault (rt_host w)). Qed.
Lemma new_id_inv : invariant I new_id.
Proof. intros w Hw. unfold new_id. by destruct (rt_uuids w). Qed.
Lemma random_u64_inv : invariant I random_u64.
Proof. intros w Hw. unfold random_u64. by destruct (rt_entropy w). Qed.
Lemma send_signal_inv pid : invariant I (send_signal pid).
Proof. by intros w Hw. Qed.
Lemma query_inv {A} (f : db -> outcome LibVmError A) : invariant I (query f).
Proof. apply invariant_bind; [apply may_fail_inv|]. by intros ? w Hw. Qed.
Lemma execute_inv {A} (f : db -> (A * db) + DbError) :
  (forall d l a d', J d l -> f d = inl (a, d') -> J d' l) -> invariant I (execute f).
Proof.
  intros Hf. apply invariant_bind; [apply may_fail_inv|]. intros ? w Hw.
  destruct (f (rt_db w)) as [[a' d]|e] eqn:E; simpl; [|done]. unfold on_state. simpl. by eapply Hf.
Qed.
Lemma in_tx_inv f d : invariant I (in_tx f d).
Proof. apply invariant_bind; [apply may_fail_inv|]. intros ?. apply invariant_try. Qed.
End OnState.

#[export] Hint Resolve on_host_inv rio_inv rresult_inv dio_inv map_error_inv may_fail_inv new_id_inv random_u64_inv : machines.
#[export] Hint Resolve send_signal_inv query_inv in_tx_inv : machines.

(** Programs that change neither the database nor the locks. *)
Section Quiet.
Context `{RtDeps} (roots : LocalRoots) (cwd : path) (J : db -> locks -> Prop).
Abbreviation I := (on_state J).

Lemma now_unix_inv : invariant I now_unix.
Proof. unfold now_unix. invariant_tac. Qed.
Lemma stored_state_inv id : invariant I (stored_state id).
Proof. apply query_inv. Qed.
Lemma begin_tx_inv : invariant I begin_tx.
Proof. apply query_inv. Qed.
Lemma machine_config_inv id : invariant I (machine_config id).
Proof. apply query_inv. Qed.
Lemma machine_config_by_name_inv name : invariant I (machine_config_by_name name).
Proof. apply query_inv. Qed.
Lemma network_definition_inv name : invariant I (network_definition name).
Proof. apply query_inv. Qed.
Lemma network_attachment_inv id : invariant I (network_attachment id).
Proof. apply query_inv. Qed.
Lemma network_instance_inv id : invariant I (network_instance id).
Proof. apply query_inv. Qed.
Lemma network_attachment_count_inv id : invariant I (network_attachment_count id).
Proof. apply query_inv. Qed.
#[local] Hint Resolve now_unix_inv stored_state_inv machine_config_inv machine_config_by_name_inv network_definition_inv : machines.

Lemma canonicalize_existing_path_inv p kind : invariant I (canonicalize_existing_path cwd p kind).
Proof. unfold canonicalize_existing_path. invariant_tac. Qed.
#[local] Hint Resolve canonicalize_existing_path_inv : machines.
Lemma canonicalize_optional_inv p kind : invariant I (canonicalize_optional_existing_path cwd p kind).
Proof. unfold canonicalize_optional_existing_path. invariant_tac. Qed.
Lemma canonicalize_paths_inv l kind : invariant I (canonicalize_existing_paths cwd l kind).
Proof. induction l; simpl; invariant_tac; done. Qed.
Lemma write_machine_config_inv dir name spec : invariant I (write_machine_config dir name spec).
Proof. unfold write_machine_config. invariant_tac. Qed.
Lemma validate_network_inv n : invariant I (validate_machine_network_config n).
Proof. unfold validate_machine_network_config. invariant_tac. Qed.
Lemma validate_base_rootfs_inv p : invariant I (validate_base_rootfs p).
Proof. unfold validate_base_rootfs. invariant_tac. Qed.
Lemma try_reflink_inv p q : invariant I (try_reflink p q).
Proof. unfold try_reflink. invariant_tac. Qed.
Lemma copy_file_inv p q : invariant I (copy_file p q).
Proof. unfold copy_file. invariant_tac. Qed.
#[local] Hint Resolve validate_base_rootfs_inv try_reflink_inv copy_file_inv : machines.
Lemma clone_inv p q : invariant I (clone_or_copy_root_disk p q).
Proof. unfold clone_or_copy_root_disk. invariant_tac. Qed.
Lemma resize_inv p n : invariant I (resize_raw_disk p n).
Proof. unfold resize_raw_disk. invariant_tac. Qed.
Lemma generate_machine_name_inv : invariant I generate_machine_name.
Proof. unfold generate_machine_name. invariant_tac. Qed.
Lemma resolve_inv r : invariant I (resolve_machine_config r).
Proof. unfold resolve_machine_config, machine_configs_by_id_prefix. invariant_tac. Qed.
Lemma observe_inv s id p : invariant I (observe s id p).
Proof. unfold observe. invariant_tac. Qed.
Lemma current_state_inv id : invariant I (current_state id).
Proof. unfold current_state. invariant_tac. Qed.
Lemma create_machine_dir_inv g : invariant I (create_machine_dir g).
Proof. unfold create_machine_dir. invariant_tac. Qed.
Lemma update_name_inv u c : invariant I (update_name u c).
Proof. unfold update_name. invariant_tac. Qed.
Lemma validate_growth_inv c n : invariant I (validate_root_disk_growth c n).
Proof. unfold validate_root_disk_growth. invariant_tac. Qed.
Lemma terminate_inv i : invariant I (terminate_network_instance i).
Proof. unfold terminate_network_instance, terminate_helper. invariant_tac. Qed.
Lemma remove_link_inv id : invariant I (remove_instance_network_link roots id).
Proof. unfold remove_instance_network_link. invariant_tac. Qed.
Lemma remove_runtime_dir_inv p : invariant I (remove_runtime_dir p).
Proof. unfold remove_runtime_dir. invariant_tac. Qed.
End Quiet.

#[export] Hint Resolve now_unix_inv stored_state_inv begin_tx_inv machine_config_inv machine_config_by_name_inv : machines.
#[export] Hint Resolve network_definition_inv network_attachment_inv network_instance_inv network_attachment_count_inv : machines.
#[export] Hint Resolve canonicalize_existing_path_inv canonicalize_optional_inv canonicalize_paths_inv write_machine_config_inv : machines.
#[export] Hint Resolve validate_network_inv clone_inv resize_inv generate_machine_name_inv resolve_inv observe_inv : machines.
#[export] Hint Resolve current_state_inv create_machine_dir_inv update_name_inv validate_growth_inv terminate_inv : machines.
#[export] Hint Resolve remove_link_inv remove_runtime_dir_inv : machines.

(** ** The invariant of the registry *)

Section Registry.
Context `{RtDeps} (roots : LocalRoots) (cwd : path).

(** Every machine has a reserved lock number, and no two have the same. *)
Definition registered (d : db) (l : locks) : Prop :=
  db_ok roots d /\
  (forall id r, d.(t_config) !! id = Some r -> is_Some (l.(files) !! r.(cr_config).(mc_lock_id))) /\
  (forall id id' r r', d.(t_config) !! id = Some r -> d.(t_config) !! id' = Some r' ->
     r.(cr_config).(mc_lock_id) = r'.(cr_config).(mc_lock_id) -> id = id').
Abbreviation registry_ok := (on_state registered).

(** A number that is reserved and belongs to no machine yet. *)
Definition owned (lk : LockId) (d : db) (l : locks) : Prop :=
  registered d l /\ is_Some (l.(files) !! lk) /\ forall id r, d.(t_config) !! id = Some r -> r.(cr_config).(mc_lock_id) <> lk.

Lemma open_lock_file_kept id l i : is_Some (l.(files) !! i) -> is_Some ((open_lock_file id l).2.(files) !! i).
Proof. intros Hi. unfold open_lock_file. destruct (files l !! id); [done|]. by apply put_file_keeps. Qed.

Lemma acquire_ok id : invariant registry_ok (acquire_machine_lock id).
Proof.
  apply invariant_bind; [apply may_fail_inv|]. intros _ w (Hd & Hr & Hu). split; [done|]. split; [|done].
  intros i r Hi. by apply open_lock_file_kept, (Hr i).
Qed.

Lemma allocate_ok : hoare registry_ok allocate_machine_lock (fun lk => on_state (owned lk)) registry_ok.
Proof.
  eapply hoare_bind; [apply invariant_hoare, may_fail_inv|]. intros _ w (Hd & Hr & Hu). simpl.
  pose proof (allocate_lowest (rt_locks w)) as Ha. destruct (LockManager.allocate (rt_locks w)) as [[id l]|e|]; [|done..].
  destruct Ha as (_ & Hn & _ & Hid & Hl). unfold on_state, owned, registered. simpl. split; [split; [done|split; [|done]]|split; [done|]].
  - intros i r Hi. destruct (decide (mc_lock_id (cr_config r) = id)) as [->|Hne]; [done|]. rewrite Hl by done. by apply (Hr i).
  - intros i r Hi E. specialize (Hr i r Hi). rewrite E, Hn in Hr. by destruct Hr.
Qed.

Lemma free_owned lk d l : owned lk d l -> registered d (LockManager.free lk l).
Proof.
  intros ((Hd & Hr & Hu) & _ & Hn). split; [done|]. split; [|done]. intros i r Hi. unfold LockManager.free. simpl.
  rewrite lookup_delete_ne by (intros E; by apply (Hn i r Hi)). by apply (Hr i).
Qed.

Lemma drop_guard_ok g w : on_state (owned g.(g_lock)) w -> registry_ok (drop_guard g w).
Proof.
  intros Hw. unfold drop_guard.
  assert (on_state (owned (g_lock g)) (if g_dir_created g then (rresult (remove_dir_all (g_machine_dir g)) w).2 else w)) as Hw'.
  { destruct (g_dir_created g); [|done]. by apply rresult_inv. }
  revert Hw'. generalize (if g_dir_created g then (rresult (remove_dir_all (g_machine_dir g)) w).2 else w). intros w' Hw'.
  unfold free_lock, sbind, may_fail. destruct (next_fault (rt_host w')) as [[n|] h]; simpl; [by destruct Hw'|].
  by apply free_owned.
Qed.

Lemma guarded_ok {A} g (m : Rt A) Q :
  hoare (on_state (owned g.(g_lock))) m Q (on_state (owned g.(g_lock))) ->
  hoare (on_state (owned g.(g_lock))) (guarded g m) Q registry_ok.
Proof.
  intros Hm w Hw. specialize (Hm w Hw). unfold guarded. destruct (m w) as [[a|e|] w']; [done|..]; by apply drop_guard_ok.
Qed.

(** [add_machine] adds both rows, or nothing. *)
Lemma add_machine_cases c s w :
  match add_machine c s w with
  | (Ok _, w') => s.(machine_id) = c.(mc_id) /\
      (exists d1 d2, insert_config c w.(rt_db) = inl d1 /\ insert_state s d1 = inl d2 /\ w'.(rt_db) = d2) /\
      w'.(rt_locks) = w.(rt_locks) /\ w'.(rt_host).(h_disk) = w.(rt_host).(h_disk)
  | (_, w') => w'.(rt_db) = w.(rt_db) /\ w'.(rt_locks) = w.(rt_locks) /\ w'.(rt_host).(h_disk) = w.(rt_host).(h_disk)
  end.
Proof.
  unfold add_machine. destruct (Z.eqb_spec (machine_id s) (mc_id c)) as [Eid|]; simpl; [|done].
  unfold begin_tx, query, in_tx, commit_tx, execute, map_error, sbind, may_fail, stry.
  destruct (next_fault (rt_host w)) as [[n|] h1] eqn:E1; apply next_fault_disk in E1; simpl; [done|].
  destruct (serialize_config c); simpl; [|done..].
  destruct (next_fault h1) as [[n|] h2] eqn:E2; apply next_fault_disk in E2; simpl; [by rewrite E2|].
  destruct (insert_config c (rt_db w)) as [d1|e] eqn:Ec; simpl; [|by rewrite E2].
  destruct (next_fault h2) as [[n|] h3] eqn:E3; apply next_fault_disk in E3; simpl; [by rewrite E3, E2|].
  destruct (insert_state s d1) as [d2|e] eqn:Es; simpl; [|by rewrite E3, E2].
  destruct (next_fault h3) as [[n|] h4] eqn:E4; apply next_fault_disk in E4; simpl; [by rewrite E4, E3, E2|].
  split; [done|]. split; [eauto|]. split; [done|]. by rewrite E4, E3, E2.
Qed.

Lemma insert_rows_ok c s d d1 d2 l : owned c.(mc_lock_id) d l -> c.(mc_machine_dir) = machine_dir_of roots c.(mc_id) ->
  insert_config c d = inl d1 -> insert_state s d1 = inl d2 -> registered d2 l.
Proof.
  intros ((Hd & Hr & Hu) & Hl & Hn) Hdir. unfold insert_config, insert_state. destruct (t_config d !! mc_id c) eqn:E; [done|].
  destruct (name_taken _ _ _) eqn:Et; [done|]. intros [= <-]. destruct (t_state _ !! machine_id s); [done|]. intros Hs.
  pose proof (put_state_ok _ _ _ _ (put_config_ok _ _ _ Hd Hdir Et) Hs) as Hd2. split; [done|]. revert Hs.
  unfold upsert_state. destruct (t_config _ !! machine_id s); [|done]. intros [= <-]. simpl. split.
  - intros id r [[<- <-]|[_ Hi]]%lookup_insert_Some; [done|by eapply Hr].
  - intros id id' r r' [[<- <-]|[Hne Hi]]%lookup_insert_Some [[<- <-]|[Hne' Hi']]%lookup_insert_Some; simpl; intros El; [done|..].
    + by destruct (Hn id' r' Hi').
    + by destruct (Hn id r Hi).
    + by apply (Hu id id' r r').
Qed.

Lemma commit_ok g : g.(g_machine_dir) = machine_dir_of roots g.(g_id) ->
  hoare (on_state (owned g.(g_lock))) (commit g) (fun _ => registry_ok) (on_state (owned g.(g_lock))).
Proof.
  intros Hdir. unfold commit. eapply hoare_bind; [apply invariant_hoare, now_unix_inv|]. intros now.
  eapply hoare_bind; [apply invariant_hoare, now_unix_inv|]. intros now'.
  eapply hoare_bind with (Q := fun _ => registry_ok); [|by intros ? s Hs].
  intros w Hw. pose proof (add_machine_cases (guard_config g now) (stopped_machine_state (g_id g) None now') w) as Ha.
  unfold on_state in *. destruct (add_machine _ _ w) as [[a|e|] w'].
  - destruct Ha as (_ & (d1 & d2 & H1 & H2 & ->) & -> & _). by eapply (insert_rows_ok (guard_config g now)).
  - destruct Ha as (-> & -> & _). done.
  - destruct Ha as (-> & -> & _). done.
Qed.

Lemma create_machine_guard_ok plan :
  hoare registry_ok (create_machine_guard roots plan)
    (fun g w => on_state (owned g.(g_lock)) w /\ g.(g_machine_dir) = machine_dir_of roots g.(g_id)) registry_ok.
Proof.
  unfold create_machine_guard. eapply hoare_bind; [apply invariant_hoare, invariant_try|]. intros ?.
  eapply hoare_bind; [apply invariant_hoare, machine_config_by_name_inv|]. intros [c|]; [by apply hoare_fail|].
  eapply hoare_bind; [apply invariant_hoare, new_id_inv|]. intros id. cbv zeta.
  eapply hoare_bind; [apply allocate_ok|]. intros lk.
  eapply hoare_bind with (Q := fun g w => on_state (owned (g_lock g)) w /\ g_machine_dir g = machine_dir_of roots (g_id g)).
  - apply (guarded_ok (mk_guard id plan (machine_dir_of roots id) lk false)). unfold create_machine_dir. eapply hoare_bind; [apply invariant_hoare, rio_inv|]. intros ?.
    eapply hoare_bind; [apply invariant_hoare, rresult_inv|]. intros [?|[]]; [|by apply hoare_fail..].
    apply hoare_ret. by intros s Hs.
  - intros g. eapply hoare_bind with (Q := fun _ w => on_state (owned (g_lock g)) w /\ g_machine_dir g = machine_dir_of roots (g_id g)).
    + intros w [Hw Hdir]. pose proof (guarded_ok g (write_machine_config (g_machine_dir g) (pl_name plan) (pl_spec plan))
        (fun _ => on_state (owned (g_lock g))) ltac:(apply invariant_hoare, write_machine_config_inv) w Hw) as Hg.
      by destruct (guarded g _ w) as [[]].
    + intros ?. by apply hoare_ret.
Qed.

(** From the reservation on, the guard sees to it. *)
Lemma create_guarded_ok plan (m : MachineCreateGuard -> Rt MachineConfig) :
  (forall g, g.(g_machine_dir) = machine_dir_of roots g.(g_id) ->
     hoare (on_state (owned g.(g_lock))) (m g) (fun _ => registry_ok) (on_state (owned g.(g_lock)))) ->
  invariant registry_ok (g <-- create_machine_guard roots plan ;; guarded g (m g)).
Proof.
  intros Hm. apply invariant_hoare. eapply hoare_bind; [apply create_machine_guard_ok|]. intros g w [Hw Hdir].
  by apply (guarded_ok g (m g) (fun _ => registry_ok) (Hm g Hdir)).
Qed.

Lemma create_with_name_ok r name : invariant registry_ok (create_machine_config_with_name roots cwd r name).
Proof.
  assert (forall plan base, invariant registry_ok (g <-- create_machine_guard roots plan ;; guarded g (
    let rootfs_path := root_disk_path g.(g_machine_dir) in
    _ <-- clone_or_copy_root_disk base rootfs_path ;;
    _ <-- match r.(rq_disk_size_bytes) with Some n => resize_raw_disk rootfs_path n | None => sret tt end ;;
    commit g))) as Hc.
  { intros plan base. apply create_guarded_ok. intros g Hdir. cbv zeta.
    eapply hoare_bind; [apply invariant_hoare, clone_inv|]. intros ?.
    eapply hoare_bind; [apply invariant_hoare; invariant_tac|]. intros ?. by apply commit_ok. }
  unfold create_machine_config_with_name. cbv zeta. invariant_tac.
Qed.

Lemma generated_name_loop_ok n r : invariant registry_ok (generated_name_loop roots cwd n r).
Proof.
  induction n as [|n IH]; [apply invariant_fail|]. cbn [generated_name_loop].
  apply invariant_bind; [apply generate_machine_name_inv|]. intros name w Hw.
  pose proof (create_with_name_ok r name w Hw) as Hc. destruct (create_machine_config_with_name _ _ _ _ w) as [[c|[]|] w']; auto.
Qed.

Lemma create_ok r : invariant registry_ok (create_machine_config roots cwd r).
Proof. unfold create_machine_config. destruct (rq_name r); [apply create_with_name_ok|apply generated_name_loop_ok]. Qed.

(** Properties that depend on the configurations and on the constraints only. *)
Section ConfigStable.
Context (J : db -> locks -> Prop) (Jdb : forall d l, J d l -> db_ok roots d).
Context (Jstable : forall d d' l, J d l -> db_ok roots d' -> d'.(t_config) = d.(t_config) -> J d' l).
Abbreviation I := (on_state J).

Lemma save_machine_state_inv st : invariant I (save_machine_state st).
Proof.
  apply execute_inv. intros d l a d' Hj. destruct (upsert_state st d) as [d1|] eqn:E; [|done]. intros [= _ ->].
  apply (Jstable d); [done|by eapply put_state_ok, E; eapply Jdb|]. revert E. unfold upsert_state.
  destruct (t_config d !! machine_id st); [|done]. by intros [= <-].
Qed.
Lemma reconcile_locked_inv s c : invariant I (reconcile_machine_runtime_locked s c).
Proof. pose proof save_machine_state_inv. unfold reconcile_machine_runtime_locked. invariant_tac. Qed.
Lemma inspect_inv s s' c : invariant I (machine_inspect_data true s s' c).
Proof. unfold machine_inspect_data, reconcile_machine_runtime_best_effort. invariant_tac. Qed.
Lemma detach_inv id : invariant I (detach_network id).
Proof. apply execute_inv. intros d l a d' Hj [= _ <-]. apply (Jstable d); [done| |done]. by eapply detach_db_ok, Jdb. Qed.
Lemma remove_network_instance_inv id : invariant I (remove_network_instance id).
Proof. apply execute_inv. intros d l a d' Hj [= _ <-]. apply (Jstable d); [done| |done]. by eapply delete_instance_ok, Jdb. Qed.
Lemma release_inv i : invariant I (release_instance i).
Proof. pose proof remove_network_instance_inv. unfold release_instance. invariant_tac. Qed.
Lemma reconcile_network_inv c b : invariant I (reconcile_network_runtime roots c b).
Proof.
  pose proof detach_inv. pose proof release_inv. unfold reconcile_network_runtime, ensure_instance_network_link. invariant_tac.
Qed.
Lemma remove_attached_inv id : invariant I (remove_attached_network roots id).
Proof. pose proof detach_inv. pose proof release_inv. unfold remove_attached_network. invariant_tac. Qed.
Lemma define_network_inv n : invariant I (create_network_definition n).
Proof.
  unfold create_network_definition, define_network. invariant_tac. apply execute_inv. intros d l x d' Hj [= _ <-].
  apply (Jstable d); [done| |done]. by eapply set_definitions_ok, Jdb.
Qed.
Lemma undefine_network_inv name : invariant I (remove_network_definition name).
Proof. apply execute_inv. intros d l a d' Hj [= _ <-]. apply (Jstable d); [done| |done]. by eapply set_definitions_ok, Jdb. Qed.
End ConfigStable.

Lemma registered_db d l : registered d l -> db_ok roots d.
Proof. by intros [Hd _]. Qed.
Lemma registered_stable d d' l : registered d l -> db_ok roots d' -> d'.(t_config) = d.(t_config) -> registered d' l.
Proof. intros (Hd & Hr & Hu) Hd' E. split; [done|]. by rewrite E. Qed.

(** The configuration that was read under the lock is still the one stored. *)
Definition holding (c : MachineConfig) (d : db) (l : locks) : Prop :=
  registered d l /\ exists r, d.(t_config) !! c.(mc_id) = Some r /\ r.(cr_config) = c.

Lemma holding_db c d l : holding c d l -> db_ok roots d.
Proof. by intros [[Hd _] _]. Qed.
Lemma holding_stable c d d' l : holding c d l -> db_ok roots d' -> d'.(t_config) = d.(t_config) -> holding c d' l.
Proof. intros [Hr Hc] Hd' E. split; [by eapply registered_stable|]. by rewrite E. Qed.

Lemma resolve_id_ok id : hoare registry_ok (resolve_machine_config (RefId id))
  (fun c w => on_state (holding c) w /\ c.(mc_id) = id) registry_ok.
Proof.
  simpl. eapply hoare_bind with (Q := fun c w => registry_ok w /\ forall x, c = Some x -> on_state (holding x) w /\ x.(mc_id) = id).
  - unfold machine_config, query. eapply hoare_bind; [apply invariant_hoare, may_fail_inv|]. intros ? w Hw.
    unfold decode_optional. destruct (t_config (rt_db w) !! id) as [r|] eqn:E; simpl; [|done].
    unfold config_of_row. destruct (Z.eqb_spec (mc_id (cr_config r)) id) as [Ei|]; simpl; [|done].
    destruct (negb (bool_decide _)); simpl; [done|]. split; [done|]. intros x [= <-]. split; [|done]. split; [done|].
    rewrite Ei. eauto.
  - intros [c|]; [|apply hoare_fail; by intros w [Hw _]]. apply hoare_ret. intros w [_ Hx]. by apply Hx.
Qed.

Lemma acquire_holding c id : invariant (on_state (holding c)) (acquire_machine_lock id).
Proof.
  apply invariant_bind; [apply may_fail_inv|]. intros ? w [(Hd & Hr & Hu) Hc]. split; [split; [done|split; [|done]]|done].
  intros i r Hi. by apply open_lock_file_kept, (Hr i).
Qed.

Lemma lock_machine_config_ok id : hoare registry_ok (lock_machine_config id)
  (fun c w => on_state (holding c) w /\ c.(mc_id) = id) registry_ok.
Proof.
  unfold lock_machine_config. eapply hoare_bind with (Q := fun _ => registry_ok).
  { eapply hoare_post; [apply resolve_id_ok|]. by intros c w [[Hw _] _]. }
  intros c0. eapply hoare_bind; [apply invariant_hoare, acquire_ok|]. intros ?.
  eapply hoare_bind; [apply resolve_id_ok|]. intros c. destruct (negb _); [|by apply hoare_ret].
  apply hoare_fail. by intros w [[Hw _] _].
Qed.

(** A configuration is replaced by one with the same id, lock and directory. *)
Definition same_place (c c' : MachineConfig) : Prop :=
  c'.(mc_id) = c.(mc_id) /\ c'.(mc_lock_id) = c.(mc_lock_id) /\ c'.(mc_machine_dir) = c.(mc_machine_dir).

Lemma update_config_ok c c' d d' b l : same_place c c' -> holding c d l -> update_config c' d = inl (b, d') -> registered d' l.
Proof.
  intros (Ei & El & Ed) [(Hd & Hr & Hu) (r0 & Hc & Er)]. unfold update_config. rewrite Ei, Hc.
  destruct (name_taken _ _ _) eqn:Et; [done|]. intros [= _ <-]. rewrite <- Ei in *.
  split; [|split]; simpl.
  - apply put_config_ok; [done| |done]. rewrite Ed, <- Er. by apply (ok_rows _ _ Hd _ _ Hc).
  - intros id r [[<- <-]|[_ Hi]]%lookup_insert_Some; [|by apply (Hr id)]. simpl. rewrite El, <- Er. by eapply Hr.
  - intros id id' r r' [[<- <-]|[Hne Hi]]%lookup_insert_Some [[<- <-]|[Hne' Hi']]%lookup_insert_Some; simpl; [done|..].
    + rewrite El, <- Er. by apply Hu.
    + rewrite El, <- Er. by apply Hu.
    + by apply Hu.
Qed.

Lemma save_config_ok c c' : same_place c c' ->
  hoare (on_state (holding c)) (save_machine_config c') (fun _ => registry_ok) registry_ok.
Proof.
  intros Hs. unfold save_machine_config. eapply hoare_bind with (Q := fun _ => on_state (holding c)).
  { intros w Hw. unfold stry. destruct (serialize_config c'); [done|apply Hw..]. }
  intros ?. eapply hoare_bind with (Q := fun _ => registry_ok).
  - unfold execute. eapply hoare_bind with (Q := fun _ => on_state (holding c)).
    { intros w Hw. pose proof (may_fail_inv (holding c) (Database DbFailure) w Hw) as Hm.
      destruct (may_fail _ w) as [[]]; [done|apply Hm..]. }
    intros ? w Hw. destruct (update_config c' (rt_db w)) as [[b d]|e] eqn:E; simpl; [|apply Hw].
    by eapply update_config_ok.
  - intros []; [by apply hoare_ret|by apply hoare_fail].
Qed.

Lemma save_or_restore_ok c c' previous b : same_place c c' ->
  hoare (on_state (holding c)) (save_or_restore previous b c') (fun _ => registry_ok) registry_ok.
Proof.
  intros Hs w Hw. pose proof (save_config_ok c c' Hs w Hw) as Hc. unfold save_or_restore.
  destruct (save_machine_config c' w) as [[[]|e|] w']; [done|..]; (destruct b; [|done]); by apply write_machine_config_inv.
Qed.

Lemma lock_inactive_ok s id : hoare registry_ok (lock_inactive s id)
  (fun c w => on_state (holding c) w /\ c.(mc_id) = id) registry_ok.
Proof.
  unfold lock_inactive. eapply hoare_bind; [apply lock_machine_config_ok|]. intros c.
  eapply hoare_bind with (Q := fun _ w => on_state (holding c) w /\ c.(mc_id) = id).
  - intros w [Hw Hid]. pose proof (reconcile_locked_inv (holding c) (holding_db c) (holding_stable c) s c w Hw) as Hr.
    destruct (reconcile_machine_runtime_locked s c w) as [[]]; [done|apply Hr..].
  - intros st. destruct (is_active _); [|by apply hoare_ret]. apply hoare_fail. by intros w [[Hw _] _].
Qed.

(** The rest of a command that keeps the configuration as it is while it looks. *)
Lemma holding_step {A} c (m : Rt A) : invariant (on_state (holding c)) m ->
  hoare (on_state (holding c)) m (fun _ => on_state (holding c)) registry_ok.
Proof. intros Hm w Hw. specialize (Hm w Hw). destruct (m w) as [[]]; [done|apply Hm..]. Qed.

Lemma inspect_ok s s' c : invariant registry_ok (machine_inspect_data true s s' c).
Proof. apply inspect_inv. Qed.

Lemma replace_config_ok s s' s'' id spec : invariant registry_ok (replace_config s s' s'' id spec).
Proof.
  apply invariant_hoare. unfold replace_config. eapply hoare_bind; [apply lock_inactive_ok|]. intros c.
  eapply hoare_pre with (P' := on_state (holding c)); [|by intros w [Hw _]].
  eapply hoare_bind; [apply holding_step, now_unix_inv|]. intros now. cbv zeta.
  eapply hoare_bind; [apply holding_step, write_machine_config_inv|]. intros ?.
  eapply hoare_bind; [by apply save_or_restore_ok|]. intros ?. apply invariant_hoare, inspect_ok.
Qed.

Lemma set_network_ok s s' s'' id n : invariant registry_ok (set_network s s' s'' id n).
Proof.
  apply invariant_hoare. unfold set_network. eapply hoare_bind; [apply invariant_hoare, validate_network_inv|]. intros ?.
  eapply hoare_bind; [apply lock_inactive_ok|]. intros c.
  eapply hoare_pre with (P' := on_state (holding c)); [|by intros w [Hw _]].
  eapply hoare_bind; [apply holding_step, now_unix_inv|]. intros now. cbv zeta.
  eapply hoare_bind; [by apply save_config_ok|]. intros ?. apply invariant_hoare, inspect_ok.
Qed.

Lemma store_update_ok s id u : hoare registry_ok (store_update s id u) (fun _ => registry_ok) registry_ok.
Proof.
  unfold store_update. eapply hoare_bind; [apply invariant_hoare; invariant_tac|]. intros ?.
  eapply hoare_bind; [apply invariant_hoare, invariant_try|]. intros mem.
  eapply hoare_bind; [apply lock_inactive_ok|]. intros c.
  eapply hoare_pre with (P' := on_state (holding c)); [|by intros w [Hw _]].
  eapply hoare_bind; [apply holding_step, update_name_inv|]. intros name.
  eapply hoare_bind; [apply holding_step; invariant_tac|]. intros ?.
  eapply hoare_bind; [apply holding_step, now_unix_inv|]. intros now. cbv zeta.
  eapply hoare_bind; [apply holding_step; invariant_tac|]. intros ?.
  eapply hoare_bind; [by apply save_or_restore_ok|]. intros ?. by apply hoare_ret.
Qed.

Lemma update_ok s s' s'' id u : invariant registry_ok (update s s' s'' id u).
Proof.
  apply invariant_hoare. unfold update. eapply hoare_bind; [apply store_update_ok|]. intros ?. apply invariant_hoare, inspect_ok.
Qed.

(** [remove_machine] removes both rows, or nothing. *)
Lemma remove_machine_cases c w :
  match remove_machine c w with
  | (Ok _, w') => w'.(rt_db) = delete_config c.(mc_id) (set_state (delete c.(mc_id) w.(rt_db).(t_state)) w.(rt_db)) /\
      w'.(rt_locks) = w.(rt_locks) /\ w'.(rt_host).(h_disk) = w.(rt_host).(h_disk)
  | (_, w') => w'.(rt_db) = w.(rt_db) /\ w'.(rt_locks) = w.(rt_locks) /\ w'.(rt_host).(h_disk) = w.(rt_host).(h_disk)
  end.
Proof.
  unfold remove_machine, begin_tx, query, in_tx, commit_tx, execute, sbind, may_fail, stry.
  destruct (next_fault (rt_host w)) as [[n|] h1] eqn:E1; apply next_fault_disk in E1; simpl; [done|].
  destruct (next_fault h1) as [[n|] h2] eqn:E2; apply next_fault_disk in E2; simpl; [by rewrite E2|].
  destruct (next_fault h2) as [[n|] h3] eqn:E3; apply next_fault_disk in E3; simpl; [by rewrite E3, E2|].
  destruct (next_fault h3) as [[n|] h4] eqn:E4; apply next_fault_disk in E4; simpl; by rewrite E4, E3, E2.
Qed.

Lemma delete_rows_owned c d l : holding c d l ->
  owned c.(mc_lock_id) (delete_config c.(mc_id) (set_state (delete c.(mc_id) d.(t_state)) d)) l.
Proof.
  intros [(Hd & Hr & Hu) (r0 & Hc & Er)]. split; [split; [|split]|split]; simpl.
  - by apply delete_config_ok, drop_state_ok.
  - intros id r [_ Hi]%lookup_delete_Some. by apply (Hr id).
  - intros id id' r r' [_ Hi]%lookup_delete_Some [_ Hi']%lookup_delete_Some. by apply Hu.
  - rewrite <- Er. by eapply Hr.
  - intros id r [Hne Hi]%lookup_delete_Some E. rewrite <- Er in E. by destruct (Hne (eq_sym (Hu _ _ _ _ Hi Hc E))).
Qed.

Lemma remove_records_ok c : hoare (on_state (holding c)) (remove_machine_records c) (fun _ => registry_ok) registry_ok.
Proof.
  unfold remove_machine_records. eapply hoare_bind with (Q := fun _ => on_state (owned c.(mc_lock_id))).
  - intros w Hw. pose proof (remove_machine_cases c w) as Hc. unfold on_state. destruct (remove_machine c w) as [[a|e|] w'].
    + destruct Hc as (-> & -> & _). by apply delete_rows_owned.
    + destruct Hc as (-> & -> & _). apply Hw.
    + destruct Hc as (-> & -> & _). apply Hw.
  - intros ? w Hw. unfold free_lock, sbind, may_fail. destruct (next_fault (rt_host w)) as [[n|] h]; simpl; [by destruct Hw|].
    by apply free_owned.
Qed.

Lemma remove_ok s id : invariant registry_ok (remove roots s id).
Proof.
  apply invariant_hoare. unfold remove. eapply hoare_bind; [apply lock_machine_config_ok|]. intros c.
  eapply hoare_pre with (P' := on_state (holding c)); [|by intros w [Hw _]].
  eapply hoare_bind; [apply holding_step, reconcile_locked_inv; [apply holding_db|apply holding_stable]|]. intros st.
  eapply hoare_bind; [apply holding_step, reconcile_network_inv; [apply holding_db|apply holding_stable]|]. intros ?.
  destruct (is_active _); [apply hoare_fail; by intros w [Hw _]|].
  eapply hoare_bind; [apply holding_step, rresult_inv|]. intros [?|[]];
    first [apply remove_records_ok|apply hoare_fail; by intros w [Hw _]].
Qed.

(** ** Commands *)

Inductive command : Type :=
| CmdCreate (r : MachineCreateRequest) | CmdReplace (s s' s'' : seen) (id : MachineId) (spec : VmSpec)
| CmdNetwork (s s' s'' : seen) (id : MachineId) (n : MachineNetworkConfig)
| CmdUpdate (s s' s'' : seen) (id : MachineId) (u : MachineUpdate) | CmdRemove (s : seen) (id : MachineId)
| CmdDefine (n : NetworkDefinition) | CmdUndefine (name : buffer).

Definition run_command (c : command) (w : rt) : rt :=
  match c with
  | CmdCreate r => (create_machine_config roots cwd r w).2
  | CmdReplace s s' s'' id spec => (replace_config s s' s'' id spec w).2
  | CmdNetwork s s' s'' id n => (set_network s s' s'' id n w).2
  | CmdUpdate s s' s'' id u => (update s s' s'' id u w).2
  | CmdRemove s id => (remove roots s id w).2
  | CmdDefine n => (create_network_definition n w).2
  | CmdUndefine name => (remove_network_definition name w).2
  end.

(** C17 registry_invariant: whatever commands run, in whatever order, and whichever of their
    operations on the disk, the database and the lock files fail, the registry stays
    consistent: every row is stored under its id with its name and directory, no two machines
    have the same name, every machine has a lock number reserved that no other machine has, and states
    and network attachments belong to machines that exist. *)
Theorem registry_invariant cmds w : registry_ok w -> registry_ok (foldl (fun w c => run_command c w) w cmds).
Proof.
  revert w. induction cmds as [|c cmds IH]; intros w Hw; [done|]. simpl. apply IH. destruct c; simpl.
  - by apply create_ok.
  - by apply replace_config_ok.
  - by apply set_network_ok.
  - by apply update_ok.
  - by apply remove_ok.
  - by apply define_network_inv; [apply registered_db|apply registered_stable|].
  - by apply undefine_network_inv; [apply registered_db|apply registered_stable|].
Qed.
End Registry.
