(* ===== verification/MachinesCreate.v ===== *)
(** * Creating a machine

    What a creation that fails leaves behind, and what one that succeeds has made. *)

From stdpp Require Import base list option numbers strings gmap.
From S2P Require Import Prelude Transitions LockManager Bytes Utf8 Str HostFs HostProg MachineModel MachineDb Machines MachinesSpec.

Abbreviation disk w := (h_disk (rt_host w)).
Abbreviation faults w := (h_faults (rt_host w)).

(** ** Disks *)

(** Whatever is on the disk is in a directory. *)
Definition closed (m : gmap path node) : Prop := forall k x n, k <> [] -> m !! (k ++ [x]) = Some n -> m !! k = Some FsDir.

Lemma closed_below (m : gmap path node) (p r : path) : closed m -> p <> [] -> m !! p = None -> m !! (p ++ r) = None.
Proof.
  intros Hc Hp Hn. induction r as [|x r IH] using rev_ind; [by rewrite app_nil_r|]. rewrite app_assoc.
  destruct (m !! ((p ++ r) ++ [x])) eqn:E; [|done]. apply Hc in E; [congruence|]. by destruct p.
Qed.

Lemma parent_snoc (p : path) c : parent (p ++ [c]) = p.
Proof. apply removelast_last. Qed.

Lemma prefixes_snoc p c k : k ∈ prefixes (p ++ [c]) -> k ∈ prefixes p \/ k = p ++ [c].
Proof.
  revert k. induction p as [|x p IH]; intros k; simpl.
  - intros [->|[]%elem_of_nil]%elem_of_cons. by right.
  - intros [->|(q & -> & Hq)%list_elem_of_fmap]%elem_of_cons; [left; apply list_elem_of_here|].
    destruct (IH q Hq) as [Hp| ->]; [|by right]. left. apply list_elem_of_further, list_elem_of_fmap. eauto.
Qed.

Lemma under_self p : under p p = true.
Proof. apply under_spec. exists []. by rewrite app_nil_r. Qed.
Lemma under_child p c : under p (p ++ c) = true.
Proof. apply under_spec. eauto. Qed.

(** ** Programs that stay in a directory *)

Section Stay.
Context `{RtDeps} (roots : LocalRoots).

Definition inside (dir : option path) (k : path) : bool := match dir with Some p => under p k | None => false end.

(** A program that changes neither database nor locks, and of the disk only what is inside
    a directory, which stays there; it may make missing directories on the way to those of
    the machines; it causes no faults. *)
Definition stays (dir : option path) {A} (m : Rt A) : Prop := forall w,
  (m w).2.(rt_db) = w.(rt_db) /\ (m w).2.(rt_locks) = w.(rt_locks) /\
  (forall k n, inside dir k = false -> disk w !! k = Some n -> disk (m w).2 !! k = Some n) /\
  (forall k, k ∉ prefixes (machines_dir roots) -> inside dir k = false -> disk (m w).2 !! k = disk w !! k) /\
  (forall p, dir = Some p -> disk w !! p = Some FsDir -> disk (m w).2 !! p = Some FsDir) /\
  (faults w = [] -> faults (m w).2 = []).

Context (dir : option path).

Lemma stays_refl {A} (m : Rt A) : (forall w, (m w).2 = w) -> stays dir m.
Proof. intros Hm w. rewrite Hm. naive_solver. Qed.
Lemma stays_bind {A B} (m : Rt A) (k : A -> Rt B) : stays dir m -> (forall a, stays dir (k a)) -> stays dir (sbind m k).
Proof.
  intros Hm Hk w. specialize (Hm w). unfold sbind. destruct (m w) as [[a|e|] w1]; [|done..]. specialize (Hk a w1). simpl in Hm.
  destruct Hm as (D1 & L1 & K1 & O1 & P1 & F1), Hk as (D2 & L2 & K2 & O2 & P2 & F2).
  split; [congruence|]. split; [congruence|]. split; [by auto|]. split; [|split; by auto].
  intros q Hq Hi. by rewrite O2, O1.
Qed.
Lemma stays_ret {A} (a : A) : stays dir (sret a).
Proof. by apply stays_refl. Qed.
Lemma stays_fail {A} e : stays dir (@sfail rt LibVmError A e).
Proof. by apply stays_refl. Qed.
Lemma stays_try {A} (o : outcome LibVmError A) : stays dir (stry o).
Proof. by apply stays_refl. Qed.
Lemma stays_map_error {A} f (m : Rt A) : stays dir m -> stays dir (map_error f m).
Proof. intros Hm w. specialize (Hm w). unfold map_error. by destruct (m w). Qed.

Lemma next_fault_calm h f h' : next_fault h = (f, h') -> h.(h_faults) = [] -> h'.(h_faults) = [].
Proof. unfold next_fault. intros E Hf. rewrite Hf in E. by simplify_eq. Qed.

Lemma stays_may_fail e : stays dir (may_fail e).
Proof.
  intros w. unfold may_fail. destruct (next_fault (rt_host w)) as [f h] eqn:E. simpl.
  pose proof (next_fault_calm _ _ _ E). apply next_fault_disk in E. rewrite E. naive_solver.
Qed.
Lemma stays_query {A} (f : db -> outcome LibVmError A) : stays dir (query f).
Proof. apply stays_bind; [apply stays_may_fail|]. intros ?. by apply stays_refl. Qed.
Lemma stays_now_unix : stays dir now_unix.
Proof.
  unfold now_unix. apply stays_bind; [|intros ?; apply stays_ret]. intros w. unfold on_host, now_nanos.
  destruct (h_times (rt_host w)); simpl; naive_solver.
Qed.
Lemma stays_new_id : stays dir new_id.
Proof. intros w. unfold new_id. destruct (rt_uuids w); simpl; naive_solver. Qed.

(** An operation of the file system, with either way to use its result. *)
Definition fs_stays {A} (m : fs A) : Prop := forall h,
  (forall k n, inside dir k = false -> h.(h_disk) !! k = Some n -> (m h).2.(h_disk) !! k = Some n) /\
  (forall k, k ∉ prefixes (machines_dir roots) -> inside dir k = false -> (m h).2.(h_disk) !! k = h.(h_disk) !! k) /\
  (forall p, dir = Some p -> h.(h_disk) !! p = Some FsDir -> (m h).2.(h_disk) !! p = Some FsDir) /\
  (h.(h_faults) = [] -> (m h).2.(h_faults) = []).

Lemma stays_io {A} conv (m : fs A) : fs_stays m -> stays dir (on_host (io_as conv m)).
Proof.
  intros Hm w. specialize (Hm (rt_host w)). unfold on_host, io_as. destruct (m (rt_host w)) as [[a|e] h]; by split; [|split].
Qed.
Lemma stays_result {A} (m : fs A) : fs_stays m -> stays dir (rresult m).
Proof.
  intros Hm w. specialize (Hm (rt_host w)). unfold rresult, on_host, io_result.
  destruct (m (rt_host w)) as [a h]; by split; [|split].
Qed.

Lemma attempt_calm fail act h : h.(h_faults) = [] -> (attempt fail act h).2.(h_faults) = [].
Proof.
  intros Hf. unfold attempt. rewrite next_fault_none by done. by destruct (act (h_disk h)).
Qed.
Lemma look_calm {A} (act : gmap path node -> A + io_error) h : h.(h_faults) = [] -> (look act h).2.(h_faults) = [].
Proof. intros Hf. unfold look. by rewrite next_fault_none. Qed.

Lemma fs_stays_look {A} (act : gmap path node -> A + io_error) : fs_stays (look act).
Proof.
  intros h. pose proof (look_keeps (fun _ => True) act h) as Hk.
  split; [intros k n _ Hn; by rewrite Hk|]. split; [intros k _ _; by apply Hk|].
  split; [intros p _ Hp; by rewrite Hk|]. apply look_calm.
Qed.

(** An operation that changes one path below the directory. *)
Lemma fs_stays_below p c fail act : dir = Some p -> keeps (fun k => k <> p ++ [c]) (attempt fail act) -> fs_stays (attempt fail act).
Proof.
  intros Hdir Hk h. specialize (Hk h). assert (p <> p ++ [c]) as Hp.
  { intros E. apply (f_equal length) in E. rewrite length_app in E. simpl in E. lia. }
  assert (forall k, inside dir k = false -> k <> p ++ [c]) as Hi.
  { intros k Hin ->. subst dir. simpl in Hin. by rewrite under_child in Hin. }
  split; [intros k n Hin Hn; rewrite Hk; auto|]. split; [intros k _ Hin; apply Hk; auto|].
  split; [|apply attempt_calm]. intros q Hq Hn. rewrite Hk; [done|]. by simplify_eq.
Qed.

(** Making directories down to those of the machines, or to the one inside. *)
Lemma fs_stays_create_dir_all q : (forall k, k ∈ prefixes q -> k ∈ prefixes (machines_dir roots) \/ inside dir k = true) ->
  fs_stays (create_dir_all q).
Proof.
  intros Hq h. unfold create_dir_all, attempt. destruct (next_fault h) as [f h'] eqn:E.
  pose proof (next_fault_calm _ _ _ E) as Hc. apply next_fault_disk in E. rewrite <- E.
  assert (forall ps, (forall k, k ∈ ps -> k ∈ prefixes q) ->
    (forall k n, inside dir k = false -> h_disk h' !! k = Some n -> add_dirs ps (h_disk h') !! k = Some n) /\
    (forall k, k ∉ prefixes (machines_dir roots) -> inside dir k = false -> add_dirs ps (h_disk h') !! k = h_disk h' !! k) /\
    (forall p, dir = Some p -> h_disk h' !! p = Some FsDir -> add_dirs ps (h_disk h') !! p = Some FsDir)) as Ha.
  { intros ps Hps. split; [intros k n _; apply add_dirs_kept|]. split; [|intros p _; apply add_dirs_kept].
    intros k Hk Hi. apply add_dirs_lookup. intros Hin. apply Hps, Hq in Hin as [|]; congruence. }
  destruct f as [n|].
  - destruct (Ha (take n (prefixes q))) as (H1 & H2 & H3); [by intros k Hk; eapply subseteq_take|]. done.
  - destruct (forallb _ _); [|naive_solver]. destruct (Ha (prefixes q)) as (H1 & H2 & H3); [done|]. done.
Qed.

(** The operations of a creation on one path below the directory *)
Lemma create_new_keeps (Z : path -> Prop) p : ~ Z p -> keeps Z (create_new p).
Proof.
  intros HZ. apply attempt_keeps; [done|]. intros m m' k Hk. destruct (m !! p); [done|]. destruct (is_dir_at _ _); [|done].
  intros [= <-]. rewrite lookup_insert_ne; [done|]. by intros ->.
Qed.
Lemma ficlone_keeps (Z : path -> Prop) b q p : ~ Z p -> keeps Z (ficlone b q p).
Proof.
  intros HZ. apply attempt_keeps; [done|]. intros m m' k Hk. destruct (m !! q) as [[]|]; [|done..]. destruct b; [|done].
  intros [= <-]. rewrite lookup_insert_ne; [done|]. by intros ->.
Qed.
Lemma set_len_keeps (Z : path -> Prop) p n : ~ Z p -> keeps Z (set_len p n).
Proof.
  intros HZ. apply attempt_keeps; [done|]. intros m m' k Hk. destruct (m !! p) as [[]|]; [|done..].
  intros [= <-]. rewrite lookup_insert_ne; [done|]. by intros ->.
Qed.

Context (p : path) (Hdir : dir = Some p).
Lemma stays_write_config name spec : stays dir (write_machine_config p name spec).
Proof.
  unfold write_machine_config. destruct (spec_json spec); [|apply stays_fail]. apply stays_io.
  eapply fs_stays_below; [done|]. apply write_keeps. by intros [].
Qed.
Lemma stays_try_reflink q c : stays dir (try_reflink q (p ++ [c])).
Proof.
  unfold try_reflink. apply stays_bind; [apply stays_result, fs_stays_look|]. intros [?|?]; [|apply stays_ret].
  apply stays_bind; [eapply stays_result, fs_stays_below; [done|]; apply create_new_keeps; by intros []|].
  intros [?|?]; [|apply stays_ret].
  apply stays_bind; [eapply stays_result, fs_stays_below; [done|]; apply ficlone_keeps; by intros []|].
  intros [?|?]; [apply stays_ret|].
  apply stays_bind; [eapply stays_result, fs_stays_below; [done|]; apply remove_file_keeps; by intros []|].
  intros ?. apply stays_ret.
Qed.
Lemma stays_clone q c : (forall k, k ∈ prefixes p -> k ∈ prefixes (machines_dir roots) \/ inside dir k = true) ->
  stays dir (clone_or_copy_root_disk q (p ++ [c])).
Proof.
  intros Hp. unfold clone_or_copy_root_disk, validate_base_rootfs, copy_file. apply stays_bind.
  { apply stays_bind; [apply stays_result, fs_stays_look|]. intros [[]|[]]; first [apply stays_ret|apply stays_fail]. }
  intros ?. apply stays_bind; [rewrite parent_snoc; by apply stays_io, fs_stays_create_dir_all|]. intros ?.
  apply stays_bind; [apply stays_try_reflink|]. intros []; [apply stays_ret|].
  apply stays_bind; [|intros ?; apply stays_ret]. apply stays_bind; [apply stays_io, fs_stays_look|]. intros data.
  eapply stays_io, fs_stays_below; [done|]. apply write_keeps. by intros [].
Qed.
Lemma stays_resize c n : stays dir (resize_raw_disk (p ++ [c]) n).
Proof.
  unfold resize_raw_disk. apply stays_bind; [apply stays_io, fs_stays_look|]. intros ?.
  apply stays_bind; [apply stays_io, fs_stays_look|]. intros ?. destruct (_ <? _); [apply stays_fail|].
  eapply stays_io, fs_stays_below; [done|]. apply set_len_keeps. by intros [].
Qed.
End Stay.

#[export] Hint Resolve stays_ret stays_fail stays_try stays_map_error stays_may_fail stays_query stays_now_unix stays_new_id : machines.
#[export] Hint Resolve fs_stays_look : machines.

(** One step through a program that stays in a directory. *)
Ltac stays_step :=
  match goal with
  | |- stays _ _ _ => solve [eauto with machines nocore]
  | |- stays _ _ (on_host (io_as _ _)) => apply stays_io
  | |- stays _ _ (rio _) => apply stays_io
  | |- stays _ _ (rresult _) => apply stays_result
  | |- fs_stays _ _ _ => solve [eauto with machines nocore]
  | |- stays _ _ (sbind _ _) => apply stays_bind; [|intros ?]
  | |- stays _ _ (match ?x with _ => _ end) => destruct x
  | |- stays _ _ (if ?x then _ else _) => destruct x
  | |- stays _ _ (let _ := _ in _) => cbv zeta
  end.
Ltac stays_tac := repeat stays_step.

(** ** A creation that fails *)

Section Failure.
Context `{RtDeps} (roots : LocalRoots) (cwd : path) (w0 : rt) (Hclosed : closed (disk w0)).

(** How far a creation is: the directory it has made and the lock it has reserved. *)
Definition stage (dir : option path) (lk : option LockId) (w : rt) : Prop :=
  w.(rt_db) = w0.(rt_db) /\
  (forall k n, disk w0 !! k = Some n -> inside dir k = false /\ disk w !! k = Some n) /\
  (faults w0 = [] -> faults w = [] /\
     (forall k, k ∉ prefixes (machines_dir roots) -> inside dir k = false -> disk w !! k = disk w0 !! k) /\
     (forall p, dir = Some p -> disk w !! p = Some FsDir) /\
     match lk with
     | None => w.(rt_locks).(files) = w0.(rt_locks).(files)
     | Some lk => w0.(rt_locks).(files) !! lk = None /\ delete lk w.(rt_locks).(files) = w0.(rt_locks).(files)
     end).

Lemma stays_stage {A} dir lk (m : Rt A) : stays roots dir m -> invariant (stage dir lk) m.
Proof.
  intros Hm w (Hd & Hk & Hf). specialize (Hm w) as (D & L & K & O & P & F). split; [congruence|]. split.
  - intros k n Hn. destruct (Hk k n Hn) as [Hi Hw]. split; [done|]. by apply K.
  - intros H0. destruct (Hf H0) as (Hfl & Ho & Hp & Hl). split; [auto|]. split; [|split].
    + intros k Hn Hi. rewrite O by done. by apply Ho.
    + intros p Hpd. apply (P p Hpd), Hp, Hpd.
    + by rewrite L.
Qed.

Lemma canonicalize_stays dir q kind : stays roots dir (canonicalize_existing_path cwd q kind).
Proof. unfold canonicalize_existing_path. stays_tac. apply stays_map_error. stays_tac. Qed.
#[local] Hint Resolve canonicalize_stays : machines.
Lemma canonicalize_optional_stays dir q kind : stays roots dir (canonicalize_optional_existing_path cwd q kind).
Proof. unfold canonicalize_optional_existing_path. stays_tac. Qed.
Lemma canonicalize_paths_stays dir l kind : stays roots dir (canonicalize_existing_paths cwd l kind).
Proof. induction l; simpl; stays_tac; done. Qed.
Lemma validate_network_stays dir n : stays roots dir (validate_machine_network_config n).
Proof. unfold validate_machine_network_config, network_definition. stays_tac. Qed.

Lemma allocate_stage : hoare (stage None None) allocate_machine_lock (fun lk => stage None (Some lk)) (stage None None).
Proof.
  eapply hoare_bind; [apply invariant_hoare, stays_stage, stays_may_fail|]. intros ? w (Hd & Hk & Hf). simpl.
  pose proof (allocate_lowest (rt_locks w)) as Ha.
  destruct (LockManager.allocate (rt_locks w)) as [[id l]|e|] eqn:E; [|done..].
  destruct Ha as (_ & Hn & _ & Hid & Hl). split; [done|]. split; [done|]. intros H0. destruct (Hf H0) as (Hfl & Ho & Hp & Hlk).
  split; [done|]. split; [done|]. split; [done|]. rewrite <- Hlk. split; [done|]. simpl. apply map_eq. intros i.
  destruct (decide (i = id)) as [->|Hne]; [by rewrite lookup_delete_eq, Hn|]. rewrite lookup_delete_ne by done. by apply Hl.
Qed.

(** A directory that was made is new, so nothing was in it. *)
Lemma create_dir_stage x lk : hoare (stage None (Some lk)) (rresult (create_dir (machines_dir roots ++ [x])))
  (fun r => match r with
            | inl _ => stage (Some (machines_dir roots ++ [x])) (Some lk)
            | inr _ => stage None (Some lk)
            end) (stage None (Some lk)).
Proof.
  intros w (Hd & Hk & Hf). unfold rresult, on_host, io_result, create_dir, attempt. destruct (next_fault (rt_host w)) as [f h] eqn:E.
  pose proof (next_fault_calm _ _ _ E) as Hc. apply next_fault_disk in E. set (p := machines_dir roots ++ [x]).
  assert (stage None (Some lk) (put_host h w)) as Hsame.
  { split; [done|]. simpl. rewrite E. split; [done|]. intros H0. destruct (Hf H0) as (Hfl & Hrest). by split; [apply Hc|]. }
  destruct f as [n|]; [done|]. destruct (h_disk h !! p) as [nd|] eqn:Ep; [done|]. destruct (is_dir_at (h_disk h) (parent p)); [|done].
  rewrite E in *. split; [done|]. simpl. assert (forall k n, disk w0 !! k = Some n -> under p k = false) as Hu.
  { intros k n Hn. apply not_true_iff_false. intros [r ->]%under_spec. rewrite closed_below in Hn; [done|done|by destruct (machines_dir roots)|].
    apply eq_None_not_Some. intros [nd Hnd]. destruct (Hk p nd Hnd) as [_ ?]. congruence. }
  split.
  - intros k n Hn. split; [by eapply Hu|]. rewrite lookup_insert_ne; [by apply Hk|]. intros <-. specialize (Hu p n Hn). by rewrite under_self in Hu.
  - intros H0. destruct (Hf H0) as (Hfl & Ho & _ & Hl). split; [by apply Hc|]. split; [|split; [|done]].
    + intros k Hn Hi. rewrite lookup_insert_ne by (intros <-; by rewrite under_self in Hi). by apply Ho.
    + intros q [= <-]. by rewrite lookup_insert_eq.
Qed.

Definition guard_dir (g : MachineCreateGuard) : option path := if g.(g_dir_created) then Some g.(g_machine_dir) else None.

Lemma remove_dir_stage p lk w : stage (Some p) lk w -> stage None lk (rresult (remove_dir_all p) w).2.
Proof.
  intros (Hd & Hk & Hf). pose proof (remove_dir_all_keeps (fun k => under p k = false) p ltac:(done) (rt_host w)) as Hr.
  unfold rresult, on_host, io_result. split; [by destruct (remove_dir_all p (rt_host w))|]. split.
  - intros k n Hn. destruct (Hk k n Hn) as [Hi Hw]. split; [done|]. specialize (Hr k Hi). rewrite Hw in Hr.
    by destruct (remove_dir_all p (rt_host w)).
  - intros H0. destruct (Hf H0) as (Hfl & Ho & Hp & Hl). specialize (Hp p eq_refl). unfold remove_dir_all, attempt.
    rewrite next_fault_none by done. rewrite Hp. simpl. split; [done|]. split; [|split; [done|done]].
    intros k Hn _. rewrite map_lookup_filter. destruct (under p k) eqn:Hi.
    + destruct (disk w0 !! k) as [n|] eqn:E0; [destruct (Hk k n E0); simpl in *; congruence|].
      destruct (disk w !! k); [|done]. simpl. rewrite option_guard_False by (simpl; congruence). done.
    + rewrite Ho by done. destruct (disk w0 !! k); [|done]. simpl. by rewrite option_guard_True.
Qed.

Lemma drop_stage g w : stage (guard_dir g) (Some g.(g_lock)) w -> stage None None (drop_guard g w).
Proof.
  intros Hw. unfold drop_guard.
  assert (stage None (Some (g_lock g)) (if g_dir_created g then (rresult (remove_dir_all (g_machine_dir g)) w).2 else w)) as Hw'.
  { unfold guard_dir in Hw. destruct (g_dir_created g); [by apply remove_dir_stage|done]. }
  revert Hw'. generalize (if g_dir_created g then (rresult (remove_dir_all (g_machine_dir g)) w).2 else w). intros w' (Hd & Hk & Hf).
  unfold free_lock, sbind, may_fail. destruct (next_fault (rt_host w')) as [f h] eqn:E.
  pose proof (next_fault_calm _ _ _ E) as Hc. destruct f as [n|]; simpl.
  - split; [done|]. assert (faults w0 = [] -> False) as Hno.
    { intros H0. destruct (Hf H0) as (Hfl & _). rewrite next_fault_none in E by done. done. }
    apply next_fault_disk in E. simpl. rewrite E. split; [done|]. intros H0. by destruct Hno.
  - apply next_fault_disk in E. split; [done|]. simpl. rewrite E. split; [done|]. intros H0.
    destruct (Hf H0) as (Hfl & Ho & Hp & Hn & Hl). split; [by apply Hc|]. split; [done|]. by split.
Qed.

Lemma guarded_stage {A} g (m : Rt A) Q :
  hoare (stage (guard_dir g) (Some g.(g_lock))) m Q (stage (guard_dir g) (Some g.(g_lock))) ->
  hoare (stage (guard_dir g) (Some g.(g_lock))) (guarded g m) Q (stage None None).
Proof.
  intros Hm w Hw. specialize (Hm w Hw). unfold guarded. destruct (m w) as [[a|e|] w']; [done|..]; by apply drop_stage.
Qed.

(** The guard that creation goes on with has made its directory. *)
Definition ready_guard (g : MachineCreateGuard) (w : rt) : Prop :=
  stage (guard_dir g) (Some g.(g_lock)) w /\ g.(g_dir_created) = true /\ exists x, g.(g_machine_dir) = machines_dir roots ++ [x].

Lemma create_machine_guard_stage plan :
  hoare (stage None None) (create_machine_guard roots plan) ready_guard (stage None None).
Proof.
  unfold create_machine_guard. eapply hoare_bind; [apply invariant_hoare, stays_stage, stays_try|]. intros ?.
  eapply hoare_bind; [apply invariant_hoare, stays_stage, stays_query|]. intros [c|]; [by apply hoare_fail|].
  eapply hoare_bind; [apply invariant_hoare, stays_stage, stays_new_id|]. intros id. cbv zeta.
  eapply hoare_bind; [apply allocate_stage|]. intros lk.
  eapply hoare_bind with (Q := ready_guard).
  - apply (guarded_stage (mk_guard id plan (machine_dir_of roots id) lk false)). unfold create_machine_dir, machine_dir_of. simpl.
    eapply hoare_bind.
    { rewrite parent_snoc. apply invariant_hoare, stays_stage, stays_io, fs_stays_create_dir_all. by left. }
    intros ?. eapply hoare_bind; [apply create_dir_stage|]. intros [?|[]]; [|by apply hoare_fail..].
    apply hoare_ret. intros w Hw. by split; [|split; [|eexists]].
  - intros g. eapply hoare_bind with (Q := fun _ => ready_guard g); [|intros ?; by apply hoare_ret].
    intros w (Hw & Hc & x & Hx). pose proof (guarded_stage g (write_machine_config (g_machine_dir g) (pl_name plan) (pl_spec plan))
      (fun _ => stage (guard_dir g) (Some (g_lock g)))) as Hg.
    specialize (Hg ltac:(apply invariant_hoare, stays_stage, stays_write_config; unfold guard_dir; by rewrite Hc) w Hw).
    destruct (guarded g _ w) as [[]]; [|done..]. by split; [|split; [|eexists]].
Qed.

Lemma add_machine_calm c s w : faults w = [] -> faults (add_machine c s w).2 = [].
Proof.
  intros Hf. unfold add_machine. destruct (negb _); [done|].
  unfold begin_tx, query, in_tx, commit_tx, execute, map_error, sbind, may_fail, stry.
  rewrite next_fault_none by done. simpl. destruct (serialize_config c); simpl; [|done..].
  rewrite next_fault_none by done. simpl. destruct (insert_config c (rt_db w)); simpl; [|done].
  rewrite next_fault_none by done. simpl. destruct (insert_state s _); simpl; [|done].
  by rewrite next_fault_none by done.
Qed.

Lemma commit_stage dir lk g : hoare (stage dir lk) (commit g) (fun _ _ => True) (stage dir lk).
Proof.
  unfold commit. eapply hoare_bind; [apply invariant_hoare, stays_stage, stays_now_unix|]. intros now.
  eapply hoare_bind; [apply invariant_hoare, stays_stage, stays_now_unix|]. intros now'.
  eapply hoare_bind with (Q := fun _ _ => True); [|intros ?; by apply hoare_ret].
  intros w (Hd & Hk & Hf). set (c := guard_config g now). set (st := stopped_machine_state (g_id g) None now').
  pose proof (add_machine_cases c st w) as Ha. pose proof (add_machine_calm c st w) as Hc.
  destruct (add_machine c st w) as [[a|e|] w']; [done|..]; destruct Ha as (D & L & K); (split; [congruence|]);
    rewrite K; (split; [done|]); intros H0; destruct (Hf H0) as (Hfl & Hrest); rewrite L; (split; [by apply Hc|done]).
Qed.

Lemma create_with_name_stage r name :
  hoare (stage None None) (create_machine_config_with_name roots cwd r name) (fun _ _ => True) (stage None None).
Proof.
  assert (forall plan base, hoare (stage None None) (g <-- create_machine_guard roots plan ;; guarded g (
    let rootfs_path := root_disk_path g.(g_machine_dir) in
    _ <-- clone_or_copy_root_disk base rootfs_path ;;
    _ <-- match r.(rq_disk_size_bytes) with Some n => resize_raw_disk rootfs_path n | None => sret tt end ;;
    commit g)) (fun _ _ => True) (stage None None)) as Hc.
  { intros plan base. eapply hoare_bind; [apply create_machine_guard_stage|]. intros g w (Hw & Hc & x & Hx). revert w Hw.
    apply guarded_stage. cbv zeta. unfold root_disk_path. assert (guard_dir g = Some (g_machine_dir g)) as Hg.
    { unfold guard_dir. by rewrite Hc. }
    eapply hoare_bind.
    { apply invariant_hoare, stays_stage, stays_clone; [done|]. rewrite Hg, Hx. intros k [?| ->]%prefixes_snoc; [by left|].
      right. apply under_self. }
    intros ?. eapply hoare_bind; [|intros ?; apply commit_stage]. apply invariant_hoare, stays_stage.
    destruct (rq_disk_size_bytes r); [by apply stays_resize|apply stays_ret]. }
  unfold create_machine_config_with_name. destruct (bool_decide _); [by apply hoare_fail|].
  eapply hoare_bind; [apply invariant_hoare, stays_stage, canonicalize_stays|]. intros base.
  eapply hoare_bind; [apply invariant_hoare, stays_stage; stays_tac|]. intros size.
  destruct (bool_decide _); [by apply hoare_fail|].
  eapply hoare_bind; [apply invariant_hoare, stays_stage, canonicalize_optional_stays|]. intros kernel.
  eapply hoare_bind; [apply invariant_hoare, stays_stage, canonicalize_optional_stays|]. intros initramfs.
  destruct (bool_decide _); [by apply hoare_fail|].
  eapply hoare_bind; [apply invariant_hoare, stays_stage, canonicalize_paths_stays|]. intros disks.
  eapply hoare_bind; [apply invariant_hoare, stays_stage; stays_tac|]. intros mem. cbv zeta.
  eapply hoare_bind; [apply invariant_hoare, stays_stage, validate_network_stays|]. intros ?. apply Hc.
Qed.

Lemma create_stage r : hoare (stage None None) (create_machine_config roots cwd r) (fun _ _ => True) (stage None None).
Proof.
  unfold create_machine_config. destruct (rq_name r); [apply create_with_name_stage|].
  generalize GENERATED_NAME_ATTEMPTS. intros n. induction n as [|n IH]; [by apply hoare_fail|]. cbn [generated_name_loop].
  eapply hoare_bind with (Q := fun _ => stage None None).
  { unfold generate_machine_name. apply invariant_hoare. apply invariant_bind; [|intros [?|]; [apply invariant_try|apply invariant_fail]].
    intros w Hw. unfold random_u64. by destruct (rt_entropy w). }
  intros name w Hw. pose proof (create_with_name_stage r name w Hw) as Hc.
  destruct (create_machine_config_with_name _ _ _ _ w) as [[c|[]|] w']; auto. by apply IH.
Qed.
End Failure.

(** C18 create_failure: a machine that could not be created is not registered, and whatever was
    on the disk before still is, whichever operations failed.  When the reason was not a
    failure of the host, nothing else is left either: the directory is removed and the
    lock number given back. *)
Theorem create_failure `{RtDeps} roots cwd r w :
  closed (disk w) -> (forall c, (create_machine_config roots cwd r w).1 <> Ok c) ->
  let w' := (create_machine_config roots cwd r w).2 in
  w'.(rt_db) = w.(rt_db) /\ (forall k n, disk w !! k = Some n -> disk w' !! k = Some n) /\
  (faults w = [] -> w'.(rt_locks).(files) = w.(rt_locks).(files) /\
     forall k, k ∉ prefixes (machines_dir roots) -> disk w' !! k = disk w !! k).
Proof.
  intros Hc Ho. assert (stage roots w None None w) as Hs.
  { split; [done|]. split; [done|]. intros Hf. split; [done|]. split; [done|]. by split. }
  pose proof (create_stage roots cwd w Hc r w Hs) as Hr. destruct (create_machine_config roots cwd r w) as [[c|e|] w'].
  { by destruct (Ho c). }
  all: destruct Hr as (Hd & Hk & Hf); cbv zeta; simpl; (split; [done|]); (split; [by intros k n Hn; apply Hk|]);
    intros H0; destruct (Hf H0) as (_ & Hd' & _ & Hl); (split; [done|]); intros k Hn; by apply Hd'.
Qed.

(** ** Runs without faults *)

Definition with_disk (m : gmap path node) (w : rt) : rt := put_host (put_disk m w.(rt_host)) w.

Lemma run_bind {A B} (m : Rt A) (k : A -> Rt B) w a w' : m w = (Ok a, w') -> sbind m k w = k a w'.
Proof. unfold sbind. by intros ->. Qed.

Lemma run_bind_out {A B} (m : Rt A) (k : A -> Rt B) w o w' : m w = (o, w') ->
  sbind m k w = match o with Ok a => k a w' | Err e => (Err e, w') | Panic => (Panic, w') end.
Proof. unfold sbind. by intros ->. Qed.

Lemma put_host_self w : put_host (rt_host w) w = w.
Proof. by destruct w. Qed.
Lemma put_db_self w : put_db (rt_db w) w = w.
Proof. by destruct w. Qed.

Section Runs.
Context `{RtDeps} (w : rt) (Hf : faults w = []).

Lemma run_may_fail e : may_fail e w = (Ok tt, w).
Proof. unfold may_fail. rewrite next_fault_none by done. by rewrite put_host_self. Qed.
Lemma run_query {A} (f : db -> outcome LibVmError A) : query f w = (f w.(rt_db), w).
Proof. unfold query. by erewrite run_bind by apply run_may_fail. Qed.
Lemma run_execute {A} (f : db -> (A * db) + DbError) a d : f w.(rt_db) = inl (a, d) -> execute f w = (Ok a, put_db d w).
Proof. intros E. unfold execute. erewrite run_bind by apply run_may_fail. by rewrite E. Qed.
Lemma run_in_tx f d d' : f d = inl d' -> in_tx f d w = (Ok d', w).
Proof. intros E. unfold in_tx. erewrite run_bind by apply run_may_fail. by rewrite E. Qed.

Lemma run_look_io {A} (conv : io_error -> LibVmError) (act : gmap path node -> A + io_error) (a : A) : act (disk w) = inl a -> on_host (io_as conv (look act)) w = (Ok a, w).
Proof. intros E. unfold on_host, io_as, look. rewrite next_fault_none by done. by rewrite E, put_host_self. Qed.
Lemma run_look_result {A} (act : gmap path node -> A + io_error) : rresult (look act) w = (Ok (act (disk w)), w).
Proof. unfold rresult, on_host, io_result, look. rewrite next_fault_none by done. by rewrite put_host_self. Qed.
Lemma run_attempt_io (conv : io_error -> LibVmError) (fail : nat -> gmap path node -> gmap path node)
    (act : gmap path node -> gmap path node + io_error) (m : gmap path node) :
  act (disk w) = inl m -> on_host (io_as conv (attempt fail act)) w = (Ok tt, with_disk m w).
Proof. intros E. unfold on_host, io_as, attempt. rewrite next_fault_none by done. by rewrite E. Qed.
Lemma run_attempt_result (fail : nat -> gmap path node -> gmap path node) (act : gmap path node -> gmap path node + io_error) :
  rresult (attempt fail act) w =
  match act (disk w) with inl m => (Ok (inl tt), with_disk m w) | inr e => (Ok (inr e), w) end.
Proof.
  unfold rresult, on_host, io_result, attempt. rewrite next_fault_none by done.
  destruct (act (disk w)); [done|]. by rewrite put_host_self.
Qed.

Lemma run_now_unix : exists now h, now_unix w = (Ok now, put_host h w) /\ h.(h_disk) = disk w /\ h.(h_faults) = [].
Proof.
  unfold now_unix, sbind, on_host, now_nanos. destruct (h_times (rt_host w)) eqn:E; [by do 2 eexists|].
  do 2 eexists. split; [done|]. by split.
Qed.

(** [add_machine] with a free id and a free name *)
Lemma run_add_machine c s : s.(machine_id) = c.(mc_id) -> config_serializes c = true ->
  w.(rt_db).(t_config) !! c.(mc_id) = None -> w.(rt_db).(t_state) !! c.(mc_id) = None ->
  name_taken c.(mc_id) c.(mc_name) w.(rt_db).(t_config) = false ->
  add_machine c s w = (Ok tt, put_db (set_state (<[c.(mc_id) := mk_state_row (as_str s.(status)) s]> w.(rt_db).(t_state))
    (set_config (<[c.(mc_id) := mk_config_row c.(mc_name) c]> w.(rt_db).(t_config)) w.(rt_db))) w).
Proof.
  intros Es Hser Hc Hs Hn. unfold add_machine. rewrite Es, Z.eqb_refl. simpl.
  erewrite run_bind by (apply run_query). erewrite run_bind by (unfold stry, serialize_config; by rewrite Hser).
  erewrite run_bind; [|unfold map_error; erewrite run_in_tx; [done|]; unfold insert_config; by rewrite Hc, Hn].
  erewrite run_bind; [|apply run_in_tx; unfold insert_state; simpl; rewrite Es, Hs; unfold upsert_state; simpl;
    by rewrite Es, lookup_insert_eq].
  unfold commit_tx. by erewrite run_execute.
Qed.
End Runs.

(** ** A creation that succeeds *)

Section Success.
Context `{RtDeps} (cwd : path).

(** The path as it is resolved on a disk. *)
Definition resolved (m : gmap path node) (p : PathBuf) : path + io_error :=
  walk m [] (if p.(pb_absolute) then p.(pb_components) else cwd ++ p.(pb_components)).
Fixpoint resolved_all (m : gmap path node) (l : list PathBuf) : option (list PathBuf) :=
  match l with
  | [] => Some []
  | p :: l => match resolved m p, resolved_all m l with
              | inl q, Some l => Some (mk_pathbuf true q :: l)
              | _, _ => None
              end
  end.
Definition resolved_optional (m : gmap path node) (p : option PathBuf) : option (option PathBuf) :=
  match p with
  | None => Some None
  | Some p => match resolved m p with inl q => Some (Some (mk_pathbuf true q)) | inr _ => None end
  end.

Context (w : rt) (Hf : faults w = []).

Lemma run_canonicalize p kind q : resolved (disk w) p = inl q -> canonicalize_existing_path cwd p kind w = (Ok (mk_pathbuf true q), w).
Proof.
  unfold resolved, canonicalize_existing_path. intros Hq.
  erewrite run_bind with (a := if pb_absolute p then pb_components p else cwd ++ pb_components p) (w' := w).
  2: { destruct (pb_absolute p); [done|]. by erewrite run_bind by (by apply run_may_fail). }
  erewrite run_bind; [done|]. unfold map_error, rio, canonicalize. by erewrite run_look_io.
Qed.
Lemma run_canonicalize_optional p kind q : resolved_optional (disk w) p = Some q ->
  canonicalize_optional_existing_path cwd p kind w = (Ok q, w).
Proof.
  destruct p as [p|]; simpl; [|by intros [= <-]]. destruct (resolved (disk w) p) as [r|] eqn:E; [|done]. intros [= <-].
  by erewrite run_bind by (by apply run_canonicalize).
Qed.
Lemma run_canonicalize_all l kind q : resolved_all (disk w) l = Some q -> canonicalize_existing_paths cwd l kind w = (Ok q, w).
Proof.
  revert q. induction l as [|p l IH]; intros q; simpl; [by intros [= <-]|].
  destruct (resolved (disk w) p) as [r|] eqn:E; [|done]. destruct (resolved_all (disk w) l) as [t|]; [|done]. intros [= <-].
  erewrite run_bind by (by apply run_canonicalize). by erewrite run_bind by (by apply IH).
Qed.

Lemma add_dirs_present (ps : list path) (m : gmap path node) : (forall k, k ∈ ps -> is_Some (m !! k)) -> add_dirs ps m = m.
Proof.
  induction ps as [|p ps IH]; intros Hp; [done|]. simpl. rewrite IH by (intros; apply Hp; by right).
  destruct (Hp p ltac:(by left)) as [n ->]. done.
Qed.

(** The disk is cloned or copied; which of the two cannot be seen afterwards. *)
Lemma run_clone source p c data : disk w !! source = Some (FsFile data) -> disk w !! (p ++ [c]) = None ->
  disk w !! p = Some FsDir -> (forall k, k ∈ prefixes p -> disk w !! k = Some FsDir) ->
  exists method, clone_or_copy_root_disk source (p ++ [c]) w = (Ok method, with_disk (<[p ++ [c] := FsFile data]> (disk w)) w).
Proof.
  intros Hs Hd Hp Hps. assert (source <> p ++ [c]) as Hne by congruence. unfold clone_or_copy_root_disk.
  erewrite run_bind. 2: { unfold validate_base_rootfs. erewrite run_bind by (by apply run_look_result). by rewrite Hs. }
  erewrite run_bind.
  2: { unfold dio, create_dir_all. erewrite run_attempt_io; [done|done|]. rewrite parent_snoc.
       rewrite (proj2 (forallb_forall _ _)); [|intros k Hk%list_elem_of_In; by rewrite Hps].
       by rewrite add_dirs_present by (intros k Hk; by rewrite Hps). }
  assert (with_disk (disk w) w = w) as -> by (by destruct w as [[] ? ? ? ? ?]).
  set (w1 := with_disk (<[p ++ [c] := FsFile []]> (disk w)) w).
  assert (try_reflink source (p ++ [c]) w =
    if reflinks then (Ok true, with_disk (<[p ++ [c] := FsFile data]> (disk w)) w) else (Ok false, w)) as Ht.
  { unfold try_reflink. erewrite run_bind by (by apply run_look_result). rewrite Hs.
    erewrite run_bind with (w' := w1).
    2: { unfold create_new. rewrite run_attempt_result by done. rewrite Hd, parent_snoc. unfold is_dir_at. by rewrite Hp. }
    simpl. unfold ficlone. destruct reflinks.
    - erewrite run_bind; [|rewrite run_attempt_result by done; simpl; by rewrite lookup_insert_ne, Hs].
      unfold w1. simpl. rewrite insert_insert_eq. done.
    - erewrite run_bind; [|rewrite run_attempt_result by done; simpl; by rewrite lookup_insert_ne, Hs].
      cbn iota. erewrite run_bind; [|unfold remove_file; rewrite run_attempt_result by done; simpl; by rewrite lookup_insert_eq].
      unfold sret, w1, with_disk, put_disk, put_host. simpl. rewrite delete_insert_id by done. by destruct w as [[] ? ? ? ? ?]. }
  destruct reflinks; erewrite run_bind by exact Ht; cbn iota; [by eexists|]. erewrite run_bind; [by eexists|].
  unfold copy_file. erewrite run_bind. 2: { unfold dio, read_file. erewrite run_look_io; [done|done|]. by rewrite Hs. }
  unfold dio, write. apply run_attempt_io; [done|]. unfold writable. rewrite Hd, parent_snoc. unfold is_dir_at. by rewrite Hp.
Qed.

Lemma run_resize q data n : disk w !! q = Some (FsFile data) -> zlen data <= n ->
  resize_raw_disk q n w = (Ok tt, with_disk (<[q := FsFile (resize (Z.to_nat n) 0 data)]> (disk w)) w).
Proof.
  intros Hq Hn. unfold resize_raw_disk. erewrite run_bind. 2: { unfold dio. erewrite run_look_io; [done|done|]. by rewrite Hq. }
  erewrite run_bind. 2: { unfold dio, metadata. erewrite run_look_io; [done|done|]. by rewrite Hq. }
  simpl. rewrite (proj2 (Z.ltb_ge _ _)) by done. unfold dio, set_len. apply run_attempt_io; [done|]. by rewrite Hq.
Qed.
End Success.

Section Created.
Context `{RtDeps} (roots : LocalRoots) (cwd : path).

(** A request that can be satisfied: the name is valid and free, the base image is a file that
    is not larger than the disk asked for, the paths exist, memory and network are right. *)
Record request_ok (w : rt) (r : MachineCreateRequest) (name : buffer) (base : path) (data : buffer) (spec : VmSpec) (text : buffer)
    : Prop := mk_request_ok {
  req_name : r.(rq_name) = Some name;
  req_valid : validate_machine_name name = Ok tt;
  req_free : forall id row, w.(rt_db).(t_config) !! id = Some row -> row.(cr_name) <> name;
  req_base : resolved cwd (disk w) r.(rq_base_rootfs_path) = inl base;
  req_data : disk w !! base = Some (FsFile data);
  req_nonempty : data <> [];
  req_size : forall n, r.(rq_disk_size_bytes) = Some n -> zlen data <= n;
  req_userdata : forall u, r.(rq_userdata) = Some u -> trim u <> [];
  req_spec : exists kernel initramfs disks mib,
    resolved_optional cwd (disk w) r.(rq_kernel) = Some kernel /\ resolved_optional cwd (disk w) r.(rq_initramfs) = Some initramfs /\
    resolved_all cwd (disk w) r.(rq_disks) = Some disks /\
    match r.(rq_memory) with Some bytes => to_vm_spec_mebibytes bytes name = Ok mib | None => mib = DEFAULT_IMAGE_MEMORY_MIB end /\
    spec = request_spec r kernel initramfs disks mib;
  req_network : match r.(rq_network) with
                | Some (NetNamed n) => validate_network_name n = Ok tt /\ is_Some (w.(rt_db).(t_definitions) !! n)
                | _ => True
                end;
  req_json : spec_json spec = Some text }.

(** A runtime with room for another machine, whose id is drawn next. *)
Record room_for (w : rt) (id : MachineId) (lk : LockId) (l : locks) : Prop := mk_room {
  room_faults : faults w = [];
  room_ok : on_state (registered roots) w;
  room_closed : closed (disk w);
  room_id : exists rest, w.(rt_uuids) = id :: rest;
  room_fresh : w.(rt_db).(t_config) !! id = None;
  room_dir : disk w !! machine_dir_of roots id = None;
  room_dirs : no_file (prefixes (machines_dir roots)) (disk w);
  room_lock : LockManager.allocate w.(rt_locks) = Ok (lk, l) }.

Definition created_disk (roots : LocalRoots) (id : MachineId) (text image : buffer) (d : gmap path node) : gmap path node :=
  let dir := machine_dir_of roots id in
  <[root_disk_path dir := FsFile image]> (<[vm_spec_path_in dir := FsFile text]> (<[dir := FsDir]>
    (add_dirs (prefixes (machines_dir roots)) d))).

Lemma run_by_name_none w name : faults w = [] -> (forall id row, w.(rt_db).(t_config) !! id = Some row -> row.(cr_name) <> name) ->
  machine_config_by_name name w = (Ok None, w).
Proof.
  intros Hf Hn. unfold machine_config_by_name. rewrite run_query by done.
  assert (filter (fun kv : MachineId * config_row => cr_name kv.2 = name) (map_to_list (t_config (rt_db w))) = []) as ->; [|done].
  destruct (filter _ _) as [|[id row] l] eqn:E; [done|]. assert ((id, row) ∈ (id, row) :: l) as Hin by (by left).
  rewrite <- E in Hin. apply list_elem_of_filter in Hin as [Hr Hin%elem_of_map_to_list]. by destruct (Hn id row Hin).
Qed.

Lemma name_free_false w name id : (forall id row, w.(rt_db).(t_config) !! id = Some row -> row.(cr_name) <> name) ->
  name_taken id name (t_config (rt_db w)) = false.
Proof.
  intros Hn. unfold name_taken. apply not_true_iff_false. intros ([i row] & Hin%list_elem_of_In & Hb)%existsb_exists.
  apply elem_of_map_to_list in Hin. apply andb_true_iff in Hb as [_ Hb%bool_decide_eq_true]. by destruct (Hn i row Hin).
Qed.

(** The first half: the directory with the specification, and a reserved lock. *)
Lemma run_create_guard w id lk l plan text : room_for w id lk l -> validate_machine_name plan.(pl_name) = Ok tt ->
  (forall id row, w.(rt_db).(t_config) !! id = Some row -> row.(cr_name) <> plan.(pl_name)) -> spec_json plan.(pl_spec) = Some text ->
  let dir := machine_dir_of roots id in
  exists w', create_machine_guard roots plan w = (Ok (mk_guard id plan dir lk true), w') /\
    faults w' = [] /\ w'.(rt_db) = w.(rt_db) /\ w'.(rt_locks) = l /\
    disk w' = <[vm_spec_path_in dir := FsFile text]> (<[dir := FsDir]> (add_dirs (prefixes (machines_dir roots)) (disk w))).
Proof.
  intros [Hf Hok Hcl [rest Hid] Hfr Hdir Hdirs Hlk] Hv Hn Hj dir. fold dir in Hdir. unfold create_machine_guard.
  erewrite run_bind by (unfold stry; by rewrite Hv). erewrite run_bind by (by apply run_by_name_none). cbn iota.
  erewrite run_bind; [|unfold new_id; by rewrite Hid]. cbv zeta. fold dir.
  set (w1 := mk_rt (rt_host w) (rt_db w) (rt_locks w) rest (rt_entropy w) (rt_signals w)).
  assert (faults w1 = []) as Hf1 by done. erewrite run_bind with (w' := put_locks l w1).
  2: { unfold allocate_machine_lock. erewrite run_bind by (by apply run_may_fail). simpl. by rewrite Hlk. }
  set (w2 := put_locks l w1). set (m3 := <[dir := FsDir]> (add_dirs (prefixes (machines_dir roots)) (disk w))).
  set (g := mk_guard id plan dir lk true). assert (machines_dir roots <> []) as Hmd by (by unfold machines_dir; destruct (data_root roots)).
  assert (create_machine_dir (mk_guard id plan dir lk false) w2 = (Ok g, with_disk m3 w2)) as Hcd.
  { unfold create_machine_dir. erewrite run_bind.
    2: { unfold rio, create_dir_all. apply run_attempt_io; [done|]. simpl. unfold dir, machine_dir_of. rewrite parent_snoc.
         rewrite (proj2 (forallb_forall _ _)); [done|]. intros k Hk%list_elem_of_In. specialize (Hdirs k).
         destruct (disk w !! k) as [[b|]|]; [|done..]. by destruct (Hdirs b Hk). }
    erewrite run_bind with (a := inl tt) (w' := with_disk m3 w2); [done|].
    unfold create_dir. rewrite run_attempt_result by done. simpl.
    rewrite add_dirs_lookup; [rewrite Hdir|].
    - unfold dir at 1, machine_dir_of. rewrite parent_snoc. unfold is_dir_at.
      rewrite add_dirs_dir; [done|by apply prefixes_self|done].
    - intros [_ [q Hq]]%prefixes_spec. apply (f_equal length) in Hq. unfold dir, machine_dir_of in Hq. rewrite !length_app in Hq. simpl in Hq. lia. }
  erewrite run_bind; [|unfold guarded; by rewrite Hcd]. simpl.
  erewrite run_bind.
  2: { unfold guarded, write_machine_config. rewrite Hj. unfold rio, write. erewrite run_attempt_io; [done|done|]. simpl.
       unfold writable, vm_spec_path_in. rewrite parent_snoc. unfold is_dir_at, m3 at 2. rewrite lookup_insert_eq.
       unfold m3 at 1. rewrite lookup_insert_ne, add_dirs_lookup, closed_below; [done|done|by unfold dir, machine_dir_of; destruct (machines_dir roots)|done| |].
       - intros [_ [q Hq]]%prefixes_spec. apply (f_equal length) in Hq. unfold dir, machine_dir_of in Hq. rewrite !length_app in Hq. simpl in Hq. lia.
       - intros Hq. apply (f_equal length) in Hq. rewrite length_app in Hq. simpl in Hq. lia. }
  eexists. split; [done|]. done.
Qed.

(** The second half: the disk, and the rows. *)
Lemma run_create_disk w id lk plan base data text size d :
  let dir := machine_dir_of roots id in
  let g := mk_guard id plan dir lk true in
  faults w = [] -> disk w = <[vm_spec_path_in dir := FsFile text]> (<[dir := FsDir]> (add_dirs (prefixes (machines_dir roots)) d)) ->
  closed d -> no_file (prefixes (machines_dir roots)) d -> d !! dir = None -> d !! base = Some (FsFile data) ->
  (forall n, size = Some n -> zlen data <= n) ->
  w.(rt_db).(t_config) !! id = None -> w.(rt_db).(t_state) !! id = None -> name_taken id plan.(pl_name) w.(rt_db).(t_config) = false ->
  (forall now, config_serializes (guard_config g now) = true) ->
  exists now now' w', guarded g (
    let rootfs_path := root_disk_path dir in
    _ <-- clone_or_copy_root_disk base rootfs_path ;;
    _ <-- match size with Some n => resize_raw_disk rootfs_path n | None => sret tt end ;;
    commit g) w = (Ok (guard_config g now), w') /\
    faults w' = [] /\ w'.(rt_locks) = w.(rt_locks) /\
    w'.(rt_db) = set_state (<[id := mk_state_row (as_str Stopped) (stopped_machine_state id None now')]> w.(rt_db).(t_state))
      (set_config (<[id := mk_config_row plan.(pl_name) (guard_config g now)]> w.(rt_db).(t_config)) w.(rt_db)) /\
    disk w' = created_disk roots id text (default data ((fun n => resize (Z.to_nat n) 0 data) <$> size)) d.
Proof.
  intros dir g Hf Hw Hcl Hnf Hdn Hb Hsz Hc Hst Hn Hser. assert (machines_dir roots <> []) as Hmd by (by unfold machines_dir; destruct (data_root roots)).
  assert (dir <> []) as Hdne by (by unfold dir, machine_dir_of; destruct (machines_dir roots)).
  assert (forall c, d !! (dir ++ c) = None) as Hbelow by (intros c; by apply closed_below).
  assert (forall c, dir <> dir ++ [c]) as Hdc.
  { intros c E. apply (f_equal length) in E. rewrite length_app in E. simpl in E. lia. }
  assert (forall c, (dir ++ c) ∉ prefixes (machines_dir roots)) as Hnp.
  { intros c [_ [q Hq]]%prefixes_spec. apply (f_equal length) in Hq. unfold dir, machine_dir_of in Hq. rewrite !length_app in Hq. simpl in Hq. lia. }
  destruct (run_clone w Hf base dir (bstr "rootfs.img") data) as [method Hcl'].
  { rewrite Hw. rewrite lookup_insert_ne by (intros <-; unfold vm_spec_path_in in Hb; by rewrite Hbelow in Hb).
    rewrite lookup_insert_ne by (intros <-; congruence). by apply add_dirs_kept. }
  { rewrite Hw. rewrite lookup_insert_ne by (intros E; by apply app_inj_tail in E as [_ ?]).
    rewrite lookup_insert_ne by apply Hdc. rewrite add_dirs_lookup by apply Hnp. apply Hbelow. }
  { rewrite Hw. rewrite lookup_insert_ne by (intros E; by destruct (Hdc (bstr "config.json"))). by rewrite lookup_insert_eq. }
  { intros k Hk. rewrite Hw. destruct (decide (k = dir)) as [->|Hkd].
    - rewrite lookup_insert_ne by (intros E; by destruct (Hdc (bstr "config.json"))). by rewrite lookup_insert_eq.
    - apply prefixes_snoc in Hk as [Hk|]; [|done]. rewrite lookup_insert_ne by (intros <-; by apply (Hnp [bstr "config.json"])).
      rewrite lookup_insert_ne by done. by apply add_dirs_dir. }
  set (image := default data ((fun n => resize (Z.to_nat n) 0 data) <$> size)).
  set (w2 := with_disk (created_disk roots id text image d) w). unfold guarded. cbv zeta.
  erewrite run_bind by exact Hcl'. erewrite run_bind with (a := tt) (w' := w2).
  2: { unfold w2, created_disk, image. fold dir. rewrite <- Hw. destruct size as [n|]; [|done].
       erewrite run_resize; [|done|simpl; by rewrite lookup_insert_eq|by apply Hsz]. simpl. rewrite insert_insert_eq. done. }
  destruct (run_now_unix w2 Hf) as (now & h1 & E1 & D1 & F1). unfold commit. erewrite run_bind by exact E1. cbv zeta.
  destruct (run_now_unix (put_host h1 w2) F1) as (now' & h2 & E2 & D2 & F2). erewrite run_bind by exact E2.
  erewrite run_bind; [|by apply run_add_machine].
  exists now, now'. eexists. split; [done|]. simpl. split; [done|]. split; [done|]. split; [done|]. by rewrite D2; simpl; rewrite D1.
Qed.

(** C19 create_success: where the host does not fail, a machine with a name that can be created is
    (the request is valid, its files exist, the name is free, and its configuration has a JSON form): the
    configuration that is returned is the one stored, under a fresh id and the lowest free
    lock number, with a stopped state; its directory holds the specification and a root disk
    that is the base image, filled up with zeros to the size asked for; nothing else on
    the disk has changed, except that the directories above were made. *)
Theorem create_success w r name base data spec text id lk l :
  request_ok w r name base data spec text -> room_for w id lk l ->
  (forall c, c.(mc_spec) = spec -> config_serializes c = true) ->
  exists now now' w',
  let c := mk_config id lk name spec (machine_dir_of roots id) now now r.(rq_image_ref)
    (Some (default (zlen data) r.(rq_disk_size_bytes))) r.(rq_labels) r.(rq_metadata) (default default_network r.(rq_network)) in
  create_machine_config roots cwd r w = (Ok c, w') /\
  w'.(rt_db) = set_state (<[id := mk_state_row (as_str Stopped) (stopped_machine_state id None now')]> w.(rt_db).(t_state))
    (set_config (<[id := mk_config_row name c]> w.(rt_db).(t_config)) w.(rt_db)) /\
  w'.(rt_locks) = l /\
  disk w' = created_disk roots id text (default data ((fun n => resize (Z.to_nat n) 0 data) <$> r.(rq_disk_size_bytes))) (disk w).
Proof.
  intros [Hn Hv Hfree Hb Hd Hne Hsz Hu (kernel & initramfs & disks & mib & Hk & Hi & Hds & Hm & ->) Hnet Hj] Hroom Hser.
  pose proof Hroom as [Hf Hok Hcl Hid Hfr Hdir Hnf Hlk]. assert (zlen data <> 0) as Hz by (by destruct data).
  unfold create_machine_config. rewrite Hn. unfold create_machine_config_with_name.
  rewrite bool_decide_eq_false_2 by (intros E; specialize (Hsz 0 E); pose proof (zlen_nonneg data); lia).
  erewrite run_bind by (by apply run_canonicalize). cbn [pb_components].
  erewrite run_bind with (a := Some (default (zlen data) r.(rq_disk_size_bytes))) (w' := w).
  2: { destruct (rq_disk_size_bytes r); [done|]. erewrite run_bind by (by apply run_look_result). by rewrite Hd. }
  rewrite bool_decide_eq_false_2.
  2: { destruct (rq_disk_size_bytes r) as [n|]; simpl; intros [= E]; [specialize (Hsz n eq_refl); pose proof (zlen_nonneg data); lia|done]. }
  erewrite run_bind by (by apply run_canonicalize_optional). erewrite run_bind by (by apply run_canonicalize_optional).
  rewrite bool_decide_eq_false_2.
  2: { destruct (rq_userdata r) as [u|]; [|done]. simpl. intros [= E]. by apply (Hu u). }
  erewrite run_bind by (by apply run_canonicalize_all).
  erewrite run_bind with (a := mib) (w' := w).
  2: { destruct (rq_memory r); [unfold stry; by rewrite Hm|by subst]. }
  cbv zeta. erewrite run_bind with (a := tt) (w' := w).
  2: { destruct (rq_network r) as [[| |n]|]; [done|done| |done]. simpl. destruct Hnet as [Hv' [def Hdef]].
       erewrite run_bind by (unfold stry; by rewrite Hv'). unfold network_definition.
       erewrite run_bind; [|by rewrite run_query]. by rewrite Hdef. }
  set (plan := mk_plan _ _ _ _ _ _ _).
  destruct (run_create_guard w id lk l plan text Hroom Hv Hfree Hj) as (w1 & E1 & F1 & D1 & L1 & K1).
  erewrite run_bind by exact E1. destruct (run_create_disk w1 id lk plan base data text (rq_disk_size_bytes r) (disk w))
    as (now & now' & w' & E2 & F2 & L2 & D2 & K2); try done.
  { by rewrite D1. }
  { rewrite D1. destruct (t_state (rt_db w) !! id) as [row|] eqn:Es; [|done]. destruct Hok as [Hdb _].
    destruct (ok_states _ _ Hdb id row Es) as [[x Hx] _]. congruence. }
  { rewrite D1. by apply name_free_false. }
  { intros now. by apply Hser. }
  exists now, now', w'. cbv zeta. split; [exact E2|]. split; [by rewrite D2, D1|]. split; [congruence|done].
Qed.
End Created.
