(* ===== verification/MachineRefs.v ===== *)
(** * References to machines

    What a reference finds, and the names that are generated. *)

From stdpp Require Import base list option numbers strings gmap.
From S2P Require Import Prelude Transitions LockManager Bytes Utf8 Str HostFs HostProg MachineModel MachineDb Machines MachinesSpec MachinesCreate.

(** The crate [uuid]: an id is written as 32 digits in lower case, which the parser reads;
    the parser takes nothing shorter. *)
Class UuidLaws `{Uuids} : Prop := {
  simple_length : forall u, length (simple u) = 32%nat;
  simple_hex : forall u, forallb is_normal_hex (simple u) = true;
  parse_simple : forall u, uint 128 u -> parse_uuid (simple u) = Some u;
  parse_length : forall s u, parse_uuid s = Some u -> (32 <= length s)%nat }.

(** ** Generated names *)

Lemma choose_word_elem words e : 0 <= e -> words <> [] -> exists x, choose_word words e = Ok x /\ x ∈ words.
Proof.
  intros He Hw. unfold choose_word. assert (0 < zlen words) as Hz by (destruct words; [done|]; zlen; pose proof (zlen_nonneg words); lia).
  rewrite (proj2 (Z.eqb_neq _ _)) by lia. pose proof (Z.mod_pos_bound e (zlen words) Hz) as Hm.
  destruct (lookup_lt_is_Some_2 words (Z.to_nat (e mod zlen words))) as [x Hx]; [unfold zlen in *; lia|].
  exists x. rewrite Hx. split; [done|]. by eapply list_elem_of_lookup_2.
Qed.

Definition word_ok (s : buffer) : bool :=
  forallb identifier_char s && (length s <=? 12)%nat && match s with c :: _ => negb (c =? 45) | [] => false end.
Lemma words_ok : forallb word_ok (ADJECTIVES ++ NOUNS) = true.
Proof. vm_compute. reflexivity. Qed.

Lemma elem_word_ok s : s ∈ ADJECTIVES ++ NOUNS -> word_ok s = true.
Proof. intros Hs. pose proof words_ok as H. rewrite forallb_forall in H. by apply H, list_elem_of_In. Qed.

Lemma hex_digit_ok d : 0 <= d < 16 -> identifier_char (hex_digit d) = true.
Proof.
  intros Hd. assert (d ∈ seqZ 0 16) as Hin by (apply elem_of_seqZ; lia). apply list_elem_of_In in Hin. revert d Hin Hd.
  assert (forallb (fun d => identifier_char (hex_digit d)) (seqZ 0 16) = true) as H by done. rewrite forallb_forall in H. auto.
Qed.
Lemma hex4_ok v : forallb identifier_char (hex4 v) = true /\ length (hex4 v) = 4%nat.
Proof.
  split; [|done]. unfold hex4. cbn [fmap list_fmap forallb]. rewrite !hex_digit_ok; [done|..];
    rewrite (Z.land_ones _ 4) by lia; apply Z.mod_pos_bound; lia.
Qed.

Lemma find_if_none f s : forallb (fun c => negb (f c)) s = true -> find_if f s = None.
Proof.
  induction s as [|c s IH]; [done|]. simpl. rewrite andb_true_iff. intros [Hc Hs]. destruct (f c); [done|]. by rewrite IH.
Qed.
Lemma identifier_ok s : forallb identifier_char s = true -> match s with c :: _ => negb (c =? 45) | [] => false end = true ->
  validate_machine_name s = Ok tt.
Proof.
  intros Hs Hc. unfold validate_machine_name, validate_identifier. destruct s as [|c s]; [done|]. apply negb_true_iff in Hc.
  rewrite Hc, bool_decide_eq_false_2 by apply not_elem_of_nil. rewrite find_if_none; [done|].
  rewrite forallb_forall in *. intros x Hx. by rewrite Hs.
Qed.

(** A name with a hyphen is no prefix of an id. *)
Lemma hyphen_no_prefix s : 45 ∈ s -> looks_like_id_prefix s = false.
Proof.
  intros Hs. unfold looks_like_id_prefix. assert (forallb is_ascii_hexdigit s = false) as ->; [|by rewrite andb_false_r].
  apply not_true_iff_false. rewrite forallb_forall. intros Hf. apply list_elem_of_In in Hs. by specialize (Hf 45 Hs).
Qed.

Lemma rotate_left_nonneg e n : 0 <= e -> 0 <= rotate_left e n.
Proof.
  intros He. unfold rotate_left. apply Z.lor_nonneg. split; [apply wrap_uint; lia|]. by apply Z.shiftr_nonneg.
Qed.

(** From any eight random bytes a name is generated; it is a valid
    name of a machine, and as a reference it is read as a name, so that the machine can be found
    by the name it was given. *)
Theorem generated_name_resolves `{UuidLaws} entropy : uint 64 entropy ->
  exists name, name_from_entropy entropy = Ok name /\ validate_machine_name name = Ok tt /\ parse_ref name = Ok (RefName name).
Proof.
  intros [He _]. unfold name_from_entropy. destruct (choose_word_elem ADJECTIVES entropy He) as (a & -> & Ha); [done|].
  destruct (choose_word_elem NOUNS (rotate_left entropy 21)) as (n & -> & Hn); [by apply rotate_left_nonneg|done|]. cbn [obind].
  cbv zeta. set (v := Z.land _ _). set (name := a ++ [45] ++ n ++ [45] ++ hex4 v).
  assert (word_ok a = true) as Hwa by (apply elem_word_ok, elem_of_app; auto).
  assert (word_ok n = true) as Hwn by (apply elem_word_ok, elem_of_app; auto).
  unfold word_ok in *. apply andb_true_iff in Hwa as [[Hac Hal%Nat.leb_le]%andb_true_iff Hah].
  apply andb_true_iff in Hwn as [[Hnc Hnl%Nat.leb_le]%andb_true_iff Hnh]. destruct (hex4_ok v) as [Hvc Hvl].
  assert (validate_machine_name name = Ok tt) as Hv.
  { apply identifier_ok; [unfold name; by rewrite !forallb_app, Hac, Hnc, Hvc|]. unfold name. by destruct a. }
  exists name. rewrite Hv. split; [done|]. split; [done|]. unfold parse_ref.
  assert (parse_uuid name = None) as ->.
  { destruct (parse_uuid name) as [u|] eqn:E; [|done]. apply parse_length in E. unfold name in E. rewrite !length_app, Hvl in E. simpl in E. lia. }
  rewrite hyphen_no_prefix; [by rewrite Hv|]. unfold name. apply elem_of_app. right. by left.
Qed.

(** ** What a reference finds *)

Section Finds.
Context `{RtDeps} (roots : LocalRoots).

Lemma config_of_row_ok id r : row_ok roots id r -> config_of_row id r = Ok r.(cr_config).
Proof.
  intros (Hid & Hn & _). unfold config_of_row. rewrite Hid, Z.eqb_refl. simpl. by rewrite bool_decide_eq_true_2.
Qed.
Lemma decode_all_ok l : (forall id r, (id, r) ∈ l -> row_ok roots id r) -> decode_all l = Ok ((fun kv => cr_config kv.2) <$> l).
Proof.
  induction l as [|[id r] l IH]; intros Hl; [done|]. simpl. rewrite config_of_row_ok by (apply Hl; by left). simpl.
  rewrite IH; [done|]. intros i x Hx. apply Hl. by right.
Qed.

Lemma lowercase_hex c : is_ascii_hexdigit c = true -> is_normal_hex (to_ascii_lowercase c) = true.
Proof.
  unfold is_ascii_hexdigit, is_normal_hex, to_ascii_lowercase, is_ascii_digit, in_range.
  rewrite !orb_true_iff, !andb_true_iff, !Z.leb_le. destruct ((65 <=? c) && (c <=? 90)) eqn:E.
  - apply andb_true_iff in E as [?%Z.leb_le ?%Z.leb_le]. lia.
  - apply andb_false_iff in E as [?%Z.leb_gt|?%Z.leb_gt]; lia.
Qed.
Lemma lowercase_prefix_valid input : looks_like_id_prefix input = true ->
  validate_machine_id_prefix (to_ascii_lowercase <$> input) = Ok tt.
Proof.
  unfold looks_like_id_prefix, validate_machine_id_prefix. rewrite length_fmap, !andb_true_iff. intros [[Ha Hb] Hh].
  rewrite Ha, Hb. assert (forallb is_normal_hex (to_ascii_lowercase <$> input) = true) as ->; [|done].
  rewrite forallb_forall in *. intros x (y & -> & Hy)%list_elem_of_In%list_elem_of_fmap. by apply lowercase_hex, Hh, list_elem_of_In.
Qed.

(** Among the rows that a list selects, the one there is. *)
Lemma one_found (f : MachineId * config_row -> Prop) `{forall x, Decision (f x)} (d : db) c : db_ok roots d ->
  ((fun kv => cr_config kv.2) <$> filter f (map_to_list d.(t_config)) = [c] <->
  (exists row, d.(t_config) !! c.(mc_id) = Some row /\ row.(cr_config) = c /\ f (c.(mc_id), row)) /\
  forall id row, d.(t_config) !! id = Some row -> f (id, row) -> id = c.(mc_id)).
Proof.
  intros Hd. pose proof (NoDup_fst_map_to_list d.(t_config)) as Hnd. split.
  - intros E. destruct (filter f _) as [|[i row] [|]] eqn:Ef; [done| |done]. injection E as E. simpl in E.
    assert (forall id r, d.(t_config) !! id = Some r -> f (id, r) -> (id, r) = (i, row)) as Hall.
    { intros id r Hr Hfr. apply list_elem_of_singleton. rewrite <- Ef. apply list_elem_of_filter. by rewrite elem_of_map_to_list. }
    assert ((i, row) ∈ filter f (map_to_list d.(t_config))) as Hin by (rewrite Ef; by left).
    apply list_elem_of_filter in Hin as [Hfi Hin%elem_of_map_to_list]. destruct (ok_rows _ _ Hd i row Hin) as (Hi & _).
    rewrite E in Hi. rewrite Hi. split; [by exists row|]. intros id r Hr Hfr. by specialize (Hall id r Hr Hfr) as [= -> _].
  - intros [(row & Hr & Hc & Hfr) Hu]. assert (filter f (map_to_list d.(t_config)) ≡ₚ [(mc_id c, row)]) as Hp.
    { apply NoDup_Permutation; [by apply NoDup_filter, NoDup_map_to_list|apply NoDup_singleton|]. intros [i x].
      rewrite list_elem_of_filter, elem_of_map_to_list, list_elem_of_singleton. split; [|by intros [= -> ->]].
      intros [Hfi Hi]. specialize (Hu i x Hi Hfi) as ->. congruence. }
    apply Permutation_singleton_r in Hp. rewrite Hp. simpl. by rewrite Hc.
Qed.

(** The search, on a store that answers. *)
Definition chosen (input : buffer) (t : gmap MachineId config_row) : outcome LibVmError MachineConfig :=
  match parse_uuid input with
  | Some u => match t !! u with Some row => Ok row.(cr_config) | None => Err (MachineNotFound (simple u)) end
  | None =>
      if looks_like_id_prefix input then
        let prefix := to_ascii_lowercase <$> input in
        match (fun kv => cr_config kv.2) <$> filter (fun kv => starts_with prefix (simple kv.1) = true) (map_to_list t) with
        | [] => Err (MachineNotFound prefix)
        | [c] => Ok c
        | l => Err (AmbiguousIdPrefix prefix (length l))
        end
      else
        _ <- validate_machine_name input ;;
        match (fun kv => cr_config kv.2) <$> filter (fun kv => cr_name kv.2 = input) (map_to_list t) with
        | [] => Err (MachineNotFound input)
        | c :: _ => Ok c
        end
  end.
Lemma get_machine_chosen input w : on_state (registered roots) w -> faults w = [] -> get_machine input w = (chosen input w.(rt_db).(t_config), w).
Proof.
  intros [Hd _] Hf. unfold get_machine, parse_ref, chosen. destruct (parse_uuid input) as [u|].
  - erewrite run_bind by done. simpl. unfold machine_config. erewrite run_bind_out by (by rewrite run_query).
    destruct (t_config (rt_db w) !! u) as [row|] eqn:E; simpl; [|done]. by rewrite config_of_row_ok by (by eapply ok_rows).
  - destruct (looks_like_id_prefix input) eqn:Ep.
    + erewrite run_bind by done. cbn [resolve_machine_config]. unfold machine_configs_by_id_prefix.
      erewrite (run_bind (_ <-- stry _ ;; _)).
      2: { erewrite run_bind by (unfold stry; by rewrite lowercase_prefix_valid). rewrite run_query by done.
           by rewrite decode_all_ok by (intros i r [_ Hi%elem_of_map_to_list]%list_elem_of_filter; by eapply ok_rows). }
      cbv zeta. by destruct (_ <$> filter _ _) as [|x [|y l]].
    + destruct (validate_machine_name input) as [[]|e|] eqn:Ev; simpl; [|done..].
      erewrite run_bind by done. cbn [resolve_machine_config]. unfold machine_config_by_name.
      erewrite run_bind_out by (by rewrite run_query). destruct (filter _ _) as [|[i row] l] eqn:Ef; [done|]. simpl.
      assert ((i, row) ∈ (i, row) :: l) as Hin by (by left). rewrite <- Ef in Hin.
      apply list_elem_of_filter in Hin as [_ Hin%elem_of_map_to_list]. by rewrite config_of_row_ok by (by eapply ok_rows).
Qed.

(** A reference that the id begins with, in upper or lower case. *)
Definition id_prefix (input : buffer) (id : MachineId) : Prop := exists rest, simple id = (to_ascii_lowercase <$> input) ++ rest.

Lemma id_prefix_starts input id : starts_with (to_ascii_lowercase <$> input) (simple id) = true <-> id_prefix input id.
Proof. apply starts_with_spec. Qed.
Lemma hex_of_lowercase c : is_normal_hex (to_ascii_lowercase c) = true -> is_ascii_hexdigit c = true.
Proof.
  unfold is_ascii_hexdigit, is_normal_hex, to_ascii_lowercase, is_ascii_digit, in_range.
  rewrite !orb_true_iff, !andb_true_iff, !Z.leb_le. destruct ((65 <=? c) && (c <=? 90)) eqn:E; [apply andb_true_iff in E as [?%Z.leb_le ?%Z.leb_le]; lia|lia].
Qed.
Lemma id_prefix_looks `{!UuidLaws} input id : (3 <= length input < 32)%nat -> id_prefix input id -> parse_uuid input = None /\ looks_like_id_prefix input = true.
Proof.
  intros Hl [rest Hr]. split; [destruct (parse_uuid input) as [u|] eqn:E; [apply parse_length in E; lia|done]|].
  unfold looks_like_id_prefix. rewrite (proj2 (Nat.leb_le _ _)), (proj2 (Nat.leb_le _ _)) by lia. simpl.
  pose proof (simple_hex id) as Hh. rewrite Hr, forallb_app, andb_true_iff in Hh. destruct Hh as [Hh _]. rewrite forallb_forall in *.
  intros c Hc. apply hex_of_lowercase, Hh. by apply list_elem_of_In, list_elem_of_fmap_2, list_elem_of_In.
Qed.

Lemma chosen_sound input d c : db_ok roots d -> chosen input d.(t_config) = Ok c ->
  exists row, d.(t_config) !! c.(mc_id) = Some row /\ row.(cr_config) = c /\ (parse_uuid input = Some c.(mc_id) \/ id_prefix input c.(mc_id) \/ c.(mc_name) = input).
Proof.
  intros Hd. unfold chosen. destruct (parse_uuid input) as [u|].
  - destruct (t_config d !! u) as [row|] eqn:E; [|done]. intros [= <-]. destruct (ok_rows _ _ Hd u row E) as (-> & _). eauto.
  - assert (forall (f : MachineId * config_row -> Prop) `{forall x, Decision (f x)} l, (fun kv => cr_config kv.2) <$> filter f (map_to_list (t_config d)) = c :: l ->
      exists row, t_config d !! mc_id c = Some row /\ cr_config row = c /\ f (mc_id c, row)) as Hf.
    { intros f Hdec l E. destruct (filter f _) as [|[i row] l'] eqn:Ef; [done|]. injection E as E _. simpl in E.
      assert ((i, row) ∈ (i, row) :: l') as Hin by (by left). rewrite <- Ef in Hin. apply list_elem_of_filter in Hin as [Hfi Hin%elem_of_map_to_list].
      destruct (ok_rows _ _ Hd i row Hin) as (Hi & _). rewrite E in Hi. exists row. by rewrite Hi. }
    destruct (looks_like_id_prefix input).
    + cbv zeta. destruct (_ <$> filter _ _) as [|x [|y l]] eqn:E; [done| |done]. intros [= ->]. destruct (Hf _ _ _ E) as (row & Hr & Hc & Hp).
      exists row. split; [done|]. split; [done|]. right. left. by apply id_prefix_starts.
    + destruct (validate_machine_name input) as [[]|e|]; simpl; [|done..]. destruct (_ <$> filter _ _) as [|x l] eqn:E; [done|].
      intros [= ->]. destruct (Hf _ _ _ E) as (row & Hr & Hc & Hp). exists row. destruct (ok_rows _ _ Hd _ _ Hr) as (_ & Hn & _). simpl in Hp.
      split; [done|]. split; [done|]. right. right. by rewrite <- Hp, <- Hn, Hc.
Qed.
Lemma chosen_prefix `{!UuidLaws} input d id row : db_ok roots d -> d.(t_config) !! id = Some row -> (3 <= length input < 32)%nat -> id_prefix input id ->
  (forall id' row', d.(t_config) !! id' = Some row' -> id_prefix input id' -> id' = id) -> chosen input d.(t_config) = Ok row.(cr_config).
Proof.
  intros Hd Hr Hl Hp Hu. destruct (id_prefix_looks input id Hl Hp) as [E1 E2]. unfold chosen. rewrite E1, E2. cbv zeta.
  destruct (ok_rows _ _ Hd id row Hr) as (Hid & _).
  rewrite (proj2 (one_found (fun kv => starts_with (to_ascii_lowercase <$> input) (simple kv.1) = true) d (cr_config row) Hd)); [done|].
  rewrite Hid. split; [exists row; split; [done|]; split; [done|]; by apply id_prefix_starts|]. intros i x Hx Hs. apply (Hu i x Hx). by apply id_prefix_starts.
Qed.
Lemma chosen_ambiguous `{!UuidLaws} input d id id' row row' : d.(t_config) !! id = Some row -> d.(t_config) !! id' = Some row' -> id <> id' ->
  (3 <= length input < 32)%nat -> id_prefix input id -> id_prefix input id' ->
  exists n, (2 <= n)%nat /\ chosen input d.(t_config) = Err (AmbiguousIdPrefix (to_ascii_lowercase <$> input) n).
Proof.
  intros Hr Hr' Hne Hl Hp Hp'. destruct (id_prefix_looks input id Hl Hp) as [E1 E2]. unfold chosen. rewrite E1, E2. cbv zeta.
  assert (forall i x, t_config d !! i = Some x -> id_prefix input i -> (i, x) ∈ filter (fun kv => starts_with (to_ascii_lowercase <$> input) (simple kv.1) = true) (map_to_list (t_config d))) as Hin.
  { intros i x Hx Hi. apply list_elem_of_filter. split; [by apply id_prefix_starts|]. by apply elem_of_map_to_list. }
  pose proof (Hin _ _ Hr Hp) as H1. pose proof (Hin _ _ Hr' Hp') as H2. destruct (filter _ _) as [|[i x] [|[j y] l]].
  - by apply not_elem_of_nil in H1.
  - apply list_elem_of_singleton in H1, H2. congruence.
  - eexists. split; [|reflexivity]. simpl. lia.
Qed.
Lemma chosen_name input d id row : db_ok roots d -> d.(t_config) !! id = Some row -> row.(cr_name) = input -> validate_machine_name input = Ok tt ->
  parse_uuid input = None -> looks_like_id_prefix input = false -> chosen input d.(t_config) = Ok row.(cr_config).
Proof.
  intros Hd Hr Hn Hv E1 E2. unfold chosen. rewrite E1, E2, Hv. simpl. destruct (ok_rows _ _ Hd id row Hr) as (Hid & _).
  rewrite (proj2 (one_found (fun kv => cr_name kv.2 = input) d (cr_config row) Hd)); [done|]. rewrite Hid. split; [by exists row|].
  intros i x Hx Hs. simpl in Hs. by eapply (ok_names _ _ Hd); [done|done|congruence].
Qed.

(** C23 get_machine_finds: what a reference finds.  A machine that is found is in the store, and the
    reference is its id, the beginning of its id or its name.  In turn a machine is found by its id, by a
    beginning of its id of at least three digits, in upper or lower case, that no other id has, and
    by its name; a beginning that two ids have is refused as ambiguous.  Names have an exception: one
    that reads as an id, or that consists of three to 32 hexadecimal digits, is not looked for as a
    name.  The search changes nothing. *)
Theorem get_machine_finds `{!UuidLaws} input w : on_state (registered roots) w -> faults w = [] ->
  let t := w.(rt_db).(t_config) in
  let found row := get_machine input w = (Ok row.(cr_config), w) in
  (forall c w', get_machine input w = (Ok c, w') -> w' = w /\ exists row, t !! c.(mc_id) = Some row /\ row.(cr_config) = c /\
     (parse_uuid input = Some c.(mc_id) \/ id_prefix input c.(mc_id) \/ c.(mc_name) = input)) /\
  (forall id row, t !! id = Some row ->
     (uint 128 id -> input = simple id -> found row) /\
     ((3 <= length input < 32)%nat -> id_prefix input id -> (forall id' row', t !! id' = Some row' -> id_prefix input id' -> id' = id) -> found row) /\
     (row.(cr_name) = input -> validate_machine_name input = Ok tt -> parse_uuid input = None ->
        ~ ((3 <= length input <= 32)%nat /\ Forall (fun c => is_ascii_hexdigit c = true) input) -> found row)) /\
  (forall id id' row row', t !! id = Some row -> t !! id' = Some row' -> id <> id' -> (3 <= length input < 32)%nat ->
     id_prefix input id -> id_prefix input id' ->
     exists n, (2 <= n)%nat /\ get_machine input w = (Err (AmbiguousIdPrefix (to_ascii_lowercase <$> input) n), w)).
Proof.
  intros Hw Hf t found. subst t found. cbv beta. rewrite (get_machine_chosen input w Hw Hf). destruct Hw as [Hd _]. split_and!.
  - intros c w' [= Hc <-]. split; [done|]. by apply chosen_sound.
  - intros id row Hr. split_and!.
    + intros Hid ->. unfold chosen. rewrite parse_simple by done. by rewrite Hr.
    + intros Hl Hp Hu. by rewrite (chosen_prefix input (rt_db w) id row).
    + intros Hn Hv E1 Hx. rewrite (chosen_name input (rt_db w) id row); try done. apply not_true_iff_false. intros Hx'. apply Hx.
      unfold looks_like_id_prefix in Hx'. rewrite !andb_true_iff, !Nat.leb_le in Hx'. destruct Hx' as [? Hh]. split; [done|].
      apply Forall_forall. intros c Hc. rewrite forallb_forall in Hh. by apply Hh, list_elem_of_In.
  - intros id id' row row' Hr Hr' Hne Hl Hp Hp'. destruct (chosen_ambiguous input (rt_db w) id id' row row' Hr Hr' Hne Hl Hp Hp') as (n & Hn & E).
    exists n. split; [done|]. by rewrite E.
Qed.
End Finds.
