(* ===== verification/MachinesChange.v ===== *)
(** * Changing and removing a machine

    An update is stored as a whole or not at all; a removal of a machine at rest leaves
    nothing of it; a network is stopped with the last machine that uses it. *)

From stdpp Require Import base list option numbers strings gmap.
From S2P Require Import Prelude Transitions LockManager Bytes Utf8 Str HostFs HostProg MachineModel MachineDb Machines MachinesSpec MachinesCreate.

Lemma hoare_and {S E A : Type} (P P' : S -> Prop) (m : sprog S E A) Q Q' R R' :
  hoare P m Q R -> hoare P' m Q' R' -> hoare (fun s => P s /\ P' s) m (fun a s => Q a s /\ Q' a s) (fun s => R s /\ R' s).
Proof. intros Hm Hm' s [Hs Hs']. specialize (Hm s Hs). specialize (Hm' s Hs'). by destruct (m s) as [[a|e|] s']. Qed.

Lemma hoare_error {S E A : Type} (P : S -> Prop) (m : sprog S E A) Q (R R' : S -> Prop) :
  hoare P m Q R -> (forall s, R s -> R' s) -> hoare P m Q R'.
Proof. intros Hm HR s Hs. specialize (Hm s Hs). destruct (m s) as [[a|e|] s']; auto. Qed.

(** ** Updates *)

Section Update.
Context `{RtDeps} (roots : LocalRoots) (t : gmap MachineId config_row).

(** The configurations are those of [t]. *)
Definition configs (d : db) (l : locks) : Prop := d.(t_config) = t.

Lemma save_state_configs st : invariant (on_state configs) (save_machine_state st).
Proof.
  apply execute_inv. unfold configs, upsert_state. intros d l a d' Hd. destruct (t_config d !! machine_id st); [|done].
  by intros [= _ <-].
Qed.
Lemma lock_inactive_configs s id : invariant (on_state configs) (lock_inactive s id).
Proof.
  pose proof save_state_configs. unfold lock_inactive, lock_machine_config, reconcile_machine_runtime_locked.
  assert (forall i, invariant (on_state configs) (acquire_machine_lock i)) as Ha.
  { intros i. apply invariant_bind; [apply may_fail_inv|]. by intros ? w Hw. }
  invariant_tac.
Qed.

Lemma save_config_configs c : hoare (on_state configs) (save_machine_config c)
  (fun _ w => w.(rt_db).(t_config) = <[c.(mc_id) := mk_config_row c.(mc_name) c]> t) (on_state configs).
Proof.
  unfold save_machine_config. eapply hoare_bind; [apply invariant_hoare, invariant_try|]. intros ?. unfold execute.
  eapply hoare_bind with (Q := fun found w => if found : bool then w.(rt_db).(t_config) = <[c.(mc_id) := mk_config_row c.(mc_name) c]> t
                                               else on_state configs w).
  - eapply hoare_bind; [apply invariant_hoare, may_fail_inv|]. intros ? w Hw. unfold update_config.
    destruct (t_config (rt_db w) !! mc_id c); [|done]. destruct (name_taken _ _ _); [done|]. simpl. by rewrite Hw.
  - intros []; [by apply hoare_ret|by apply hoare_fail].
Qed.

Lemma save_or_restore_configs previous b c : hoare (on_state configs) (save_or_restore previous b c)
  (fun _ w => w.(rt_db).(t_config) = <[c.(mc_id) := mk_config_row c.(mc_name) c]> t) (on_state configs).
Proof.
  intros w Hw. pose proof (save_config_configs c w Hw) as Hc. unfold save_or_restore.
  destruct (save_machine_config c w) as [[[]|e|] w']; [done|..]; (destruct b; [|done]);
    by apply (write_machine_config_inv configs).
Qed.

(** What is known once the machine is locked and at rest. *)
Definition at_rest (id : MachineId) (c : MachineConfig) (w : rt) : Prop :=
  on_state configs w /\ c.(mc_id) = id /\ exists row, t !! id = Some row /\ row.(cr_config) = c.

Lemma lock_inactive_at_rest s id : hoare (fun w => on_state (registered roots) w /\ on_state configs w) (lock_inactive s id)
  (at_rest id) (on_state configs).
Proof.
  pose proof (hoare_and _ _ _ _ _ _ _ (lock_inactive_ok roots s id) (proj1 (invariant_hoare _ _) (lock_inactive_configs s id))) as Ha.
  eapply hoare_error; [eapply hoare_post; [exact Ha|]|by intros w [_ Hw]].
  intros c w [[[_ (row & Hr & Hc)] Hid] Hw]. split; [done|]. split; [done|]. exists row. by rewrite <- Hid, <- Hw.
Qed.

Lemma at_rest_step {A} id c (m : Rt A) : invariant (on_state configs) m -> hoare (at_rest id c) m (fun _ => at_rest id c) (on_state configs).
Proof. intros Hm w [Hw Hrest]. specialize (Hm w Hw). by destruct (m w) as [[]]. Qed.

Lemma update_name_value u c : hoare (on_state configs) (update_name u c)
  (fun name w => on_state configs w /\ name = default c.(mc_name) u.(up_name)) (on_state configs).
Proof.
  unfold update_name. destruct (up_name u) as [name|]; [|by apply hoare_ret]. case_bool_decide; [by subst; apply hoare_ret|].
  eapply hoare_bind; [apply invariant_hoare, machine_config_by_name_inv|]. intros [e|]; [|by apply hoare_ret].
  destruct (_ =? _); [by apply hoare_ret|by apply hoare_fail].
Qed.

Lemma store_update_configs s id u :
  hoare (fun w => on_state (registered roots) w /\ on_state configs w) (store_update s id u)
    (fun c w => exists row mem now, t !! id = Some row /\ check_update id u = Ok mem /\
       c = updated_config u mem (default row.(cr_config).(mc_name) u.(up_name)) now row.(cr_config) /\
       w.(rt_db).(t_config) = <[id := mk_config_row c.(mc_name) c]> t)
    (on_state configs).
Proof.
  unfold store_update. eapply hoare_bind with (Q := fun _ w => on_state (registered roots) w /\ on_state configs w).
  { intros w [Hr Hw]. assert (forall J, invariant (on_state J) (match up_network u with Some n => validate_machine_network_config n | None => sret tt end)) as Hi
      by (intros J; invariant_tac).
    pose proof (Hi _ w Hr). pose proof (Hi _ w Hw). by destruct (match up_network u with _ => _ end w) as [[]]. }
  intros ?. eapply hoare_bind; [apply hoare_try; by intros w [_ Hw]|]. intros mem.
  intros w [Hw Hm]. revert w Hw. change (hoare (fun w => on_state (registered roots) w /\ on_state configs w) (
    config <-- lock_inactive s id ;;
    name <-- update_name u config ;;
    _ <-- match u.(up_root_disk_size) with
          | Some n => validate_root_disk_growth (updated_config u mem name config.(mc_modified_at) config) n
          | None => sret tt
          end ;;
    now <-- now_unix ;;
    let changed := updated_config u mem name now config in
    _ <-- (if spec_changes u then write_machine_config changed.(mc_machine_dir) changed.(mc_name) changed.(mc_spec) else sret tt) ;;
    _ <-- save_or_restore config.(mc_spec) (spec_changes u) changed ;;
    sret changed)
    (fun c w => exists row mem now, t !! id = Some row /\ check_update id u = Ok mem /\
       c = updated_config u mem (default row.(cr_config).(mc_name) u.(up_name)) now row.(cr_config) /\
       w.(rt_db).(t_config) = <[id := mk_config_row c.(mc_name) c]> t)
    (on_state configs)).
  eapply hoare_bind; [apply lock_inactive_at_rest|]. intros c w (Hw & Hid & row & Hr & Hc). revert w Hw.
  eapply hoare_bind; [apply update_name_value|]. intros name w [Hw ->]. revert w Hw.
  eapply hoare_bind with (Q := fun _ => on_state configs); [apply invariant_hoare; invariant_tac|]. intros ?.
  eapply hoare_bind with (Q := fun _ => on_state configs); [apply invariant_hoare, now_unix_inv|]. intros now. cbv zeta.
  eapply hoare_bind with (Q := fun _ => on_state configs); [apply invariant_hoare; invariant_tac|]. intros ?.
  eapply hoare_bind; [apply save_or_restore_configs|]. intros ?. apply hoare_ret. intros w Hw. exists row, mem, now.
  rewrite Hc. split; [done|]. split; [done|]. split; [done|]. rewrite Hw. cbn [updated_config mc_id mc_name]. by rewrite Hid.
Qed.

(** The answer is about the configuration that was stored, and storing nothing. *)
Lemma inspect_configs b s s' c : invariant (on_state configs) (machine_inspect_data b s s' c).
Proof.
  pose proof save_state_configs. unfold machine_inspect_data, reconcile_machine_runtime_best_effort, reconcile_machine_runtime_locked.
  assert (forall i, invariant (on_state configs) (acquire_machine_lock i)) as Ha.
  { intros i. apply invariant_bind; [apply may_fail_inv|]. by intros ? w Hw. }
  invariant_tac.
Qed.
Lemma inspect_config b s s' c w d : (machine_inspect_data b s s' c w).1 = Ok d -> d.(md_config) = c.
Proof.
  unfold machine_inspect_data, sbind. destruct (reconcile_machine_runtime_best_effort b s s' c w) as [[o|e|] w1]; [|done..].
  destruct (current_state (mc_id c) w1) as [[st|e|] w2]; [|done..]. simpl. by intros [= <-].
Qed.
End Update.

(** *** What the disk holds *)

Section Undisturbed.
Context `{RtDeps} (m : gmap path node).
Definition same_disk (w : rt) : Prop := disk w = m.
Abbreviation undisturbed := (invariant same_disk).

Lemma may_fail_disk e : undisturbed (may_fail e).
Proof. intros w Hw. unfold may_fail. destruct (next_fault (rt_host w)) as [f h] eqn:E. apply next_fault_disk in E. unfold same_disk in *. simpl. congruence. Qed.
Lemma look_disk {A} (act : gmap path node -> A + io_error) : undisturbed (rio (look act)).
Proof.
  intros w Hw. unfold rio, on_host, io_as, look. destruct (next_fault (rt_host w)) as [f h] eqn:E. apply next_fault_disk in E. unfold same_disk in *.
  destruct f; [simpl; congruence|]. destruct (act (h_disk h)); simpl; congruence.
Qed.
Lemma now_unix_disk : undisturbed now_unix.
Proof. intros w Hw. unfold now_unix, sbind, on_host, now_nanos. by destruct (h_times (rt_host w)). Qed.
Lemma query_disk {A} (f : db -> outcome LibVmError A) : undisturbed (query f).
Proof. apply invariant_bind; [apply may_fail_disk|]. by intros ? w Hw. Qed.
Lemma execute_disk {A} (f : db -> (A * db) + DbError) : undisturbed (execute f).
Proof. apply invariant_bind; [apply may_fail_disk|]. intros ? w Hw. by destruct (f (rt_db w)) as [[]|]. Qed.
Lemma lock_disk i : undisturbed (acquire_machine_lock i).
Proof. apply invariant_bind; [apply may_fail_disk|]. by intros ? w Hw. Qed.
#[local] Hint Resolve may_fail_disk look_disk now_unix_disk query_disk execute_disk lock_disk : machines.

Lemma lock_inactive_disk s id : undisturbed (lock_inactive s id).
Proof.
  unfold lock_inactive, lock_machine_config, reconcile_machine_runtime_locked, observe, stored_state, resolve_machine_config, machine_config, save_machine_state.
  invariant_tac.
Qed.
Lemma inspect_disk b s s' c : undisturbed (machine_inspect_data b s s' c).
Proof.
  unfold machine_inspect_data, reconcile_machine_runtime_best_effort, reconcile_machine_runtime_locked, current_state, observe, stored_state, save_machine_state.
  invariant_tac.
Qed.
Lemma save_config_disk c : undisturbed (save_machine_config c).
Proof. unfold save_machine_config. invariant_tac. Qed.
Lemma update_name_disk u c : undisturbed (update_name u c).
Proof. unfold update_name, machine_config_by_name. invariant_tac. Qed.
Lemma network_config_disk n : undisturbed (validate_machine_network_config n).
Proof. unfold validate_machine_network_config, network_definition. invariant_tac. Qed.
Lemma growth_disk c n : undisturbed (validate_root_disk_growth c n).
Proof. unfold validate_root_disk_growth, metadata. invariant_tac. Qed.

End Undisturbed.

(** Only the file with the specification is written. *)
Section UpdateDisk.
Context `{RtDeps} (roots : LocalRoots) (m : gmap path node).
Abbreviation same_disk := (same_disk m).
Abbreviation undisturbed := (invariant same_disk).
Definition only_at (p : path) (w : rt) : Prop := forall k, k <> p -> disk w !! k = m !! k.
Lemma only_at_same p w : same_disk w -> only_at p w.
Proof. intros Hw k _. by rewrite Hw. Qed.
Lemma write_config_only p dir name spec : p = vm_spec_path_in dir -> invariant (only_at p) (write_machine_config dir name spec).
Proof.
  intros ->. unfold write_machine_config. destruct (spec_json spec) as [text|]; [|apply invariant_fail].
  intros w Hw k Hk. rewrite <- (Hw k Hk). unfold rio, on_host, io_as, write, attempt. destruct (next_fault (rt_host w)) as [f h] eqn:E. apply next_fault_disk in E.
  destruct f; [|destruct (writable _ _)]; simpl; [unfold when_writable; destruct (writable _ _)|..]; rewrite ?lookup_insert_ne by done; by rewrite E.
Qed.
Lemma write_config_stored p dir name spec : p = vm_spec_path_in dir ->
  hoare same_disk (write_machine_config dir name spec)
    (fun _ w => exists text, spec_json spec = Some text /\ disk w = <[p := FsFile text]> m) (only_at p).
Proof.
  intros Hp w Hw. pose proof (write_config_only p dir name spec Hp w (only_at_same p w Hw)) as Hr. subst p. unfold write_machine_config in *.
  destruct (spec_json spec) as [text|]; [|done]. revert Hr. unfold rio, on_host, io_as, write, attempt.
  destruct (next_fault (rt_host w)) as [f h] eqn:E. apply next_fault_disk in E. destruct f; [done|]. destruct (writable _ _); [done|]. simpl. intros _.
  exists text. split; [done|]. f_equal. unfold same_disk in Hw. congruence.
Qed.

Lemma hoare_pure {A} (phi : Prop) (P : rt -> Prop) (k : Rt A) Q R : (phi -> hoare P k Q R) -> hoare (fun w => P w /\ phi) k Q R.
Proof. intros Hk w [Hw Hphi]. by apply Hk. Qed.
Lemma undisturbed_hoare {A} p (k : Rt A) : undisturbed k -> hoare same_disk k (fun _ => same_disk) (only_at p).
Proof. intros Hk. eapply hoare_error; [by apply invariant_hoare|apply only_at_same]. Qed.

Lemma store_update_disk s id u : let p := vm_spec_path_in (machine_dir_of roots id) in
  hoare (fun w => on_state (registered roots) w /\ same_disk w) (store_update s id u)
    (fun c w => if spec_changes u then exists text, spec_json c.(mc_spec) = Some text /\ disk w = <[p := FsFile text]> m else same_disk w)
    (only_at p).
Proof.
  intros p. unfold store_update. eapply hoare_bind with (Q := fun _ w => on_state (registered roots) w /\ same_disk w).
  { intros w [Hr Hw]. assert (undisturbed (match up_network u with Some n => validate_machine_network_config n | None => sret tt end)) as Hi
      by (destruct (up_network u); [apply network_config_disk|apply invariant_ret]).
    assert (forall J, invariant (on_state J) (match up_network u with Some n => validate_machine_network_config n | None => sret tt end)) as Hj by (intros J; invariant_tac).
    pose proof (Hi w Hw) as Hd. pose proof (Hj _ w Hr). destruct (match up_network u with _ => _ end w) as [[]]; [done|by apply only_at_same..]. }
  intros ?. eapply hoare_bind with (Q := fun _ w => on_state (registered roots) w /\ same_disk w).
  { intros w [Hr Hw]. unfold stry. destruct (check_update id u); [done|by apply only_at_same..]. }
  intros mem. eapply hoare_bind with (Q := fun c w => same_disk w /\ c.(mc_machine_dir) = machine_dir_of roots id).
  { intros w [Hr Hw]. pose proof (lock_inactive_ok roots s id w Hr) as Ho. pose proof (lock_inactive_disk m s id w Hw) as Hd.
    destruct (lock_inactive s id w) as [[c|e|] w']; [|by apply only_at_same..]. split; [done|]. destruct Ho as [[Hreg (row & Hrow & Hc)] Hid].
    destruct (ok_rows _ _ (registered_db _ _ _ Hreg) _ _ Hrow) as (_ & _ & Hdir). by rewrite <- Hc, Hdir, Hid. }
  intros c. apply hoare_pure. intros Hdir. eapply hoare_bind; [apply undisturbed_hoare, update_name_disk|]. intros name.
  eapply hoare_bind with (Q := fun _ => same_disk); [apply undisturbed_hoare; destruct (up_root_disk_size u); [apply growth_disk|apply invariant_ret]|]. intros ?.
  eapply hoare_bind; [apply undisturbed_hoare, now_unix_disk|]. intros now. cbv zeta. set (changed := updated_config u mem name now c).
  assert (mc_machine_dir changed = machine_dir_of roots id) as Hch by exact Hdir.
  destruct (spec_changes u).
  - eapply hoare_bind; [apply (write_config_stored p); by rewrite Hch|]. intros ?.
    eapply hoare_bind with (Q := fun _ w => exists text, spec_json (mc_spec changed) = Some text /\ disk w = <[p := FsFile text]> m); [|intros ?; by apply hoare_ret].
    intros w (text & Ht & Hw). unfold save_or_restore. pose proof (save_config_disk _ changed w Hw) as Hd.
    destruct (save_machine_config changed w) as [[[]|e|] w']; [by exists text|..]; (apply (write_config_only p); [by rewrite Hch|]; intros k Hk; by rewrite Hd, lookup_insert_ne).
  - eapply hoare_bind with (Q := fun _ => same_disk); [by apply hoare_ret|]. intros ?. eapply hoare_bind with (Q := fun _ => same_disk); [|intros ?; by apply hoare_ret].
    intros w Hw. pose proof (save_config_disk m changed w Hw) as Hd. unfold save_or_restore. destruct (save_machine_config changed w) as [[[]|e|] w']; [done|by apply only_at_same..].
Qed.
End UpdateDisk.

(** *** What an update asks for *)

Definition setting {A} (f : Hardware -> option A) (c : MachineConfig) : option A := hw ← c.(mc_spec).(hardware); f hw.
(** The part of a specification that is not about hardware *)
Definition other_spec (s : VmSpec) : (Z * Z * Z) * option Guest * option Boot * option Storage * list Mount * option Vsock * gmap buffer buffer :=
  (s.(spec_version), s.(guest), s.(boot), s.(storage), s.(mounts), s.(vsock), s.(annotations)).
(** [new] is [old] with the settings of [u]: each one that is given has the value that was given,
    the memory in whole mebibytes that hold it, and everything else but the time of the change is as it was. *)
Record changed_as (u : MachineUpdate) (old new : MachineConfig) : Prop := mk_changed_as {
  ca_identity : new.(mc_id) = old.(mc_id) /\ new.(mc_lock_id) = old.(mc_lock_id) /\ new.(mc_machine_dir) = old.(mc_machine_dir) /\
    new.(mc_created_at) = old.(mc_created_at) /\ new.(mc_image_ref) = old.(mc_image_ref);
  ca_labels : new.(mc_labels) = old.(mc_labels) /\ new.(mc_metadata) = old.(mc_metadata);
  ca_name : new.(mc_name) = match u.(up_name) with Some name => name | None => old.(mc_name) end;
  ca_network : new.(mc_network) = match u.(up_network) with Some n => n | None => old.(mc_network) end;
  ca_disk : new.(mc_root_disk_size) = match u.(up_root_disk_size) with Some n => Some n | None => old.(mc_root_disk_size) end;
  ca_cpus : setting cpus new = match u.(up_cpus) with Some n => Some n | None => setting cpus old end;
  ca_memory : match u.(up_memory) with
              | Some bytes => exists mib, setting memory new = Some mib /\ (mib - 1) * 2 ^ 20 < bytes <= mib * 2 ^ 20
              | None => setting memory new = setting memory old
              end;
  ca_nested : setting nested_virtualization new = match u.(up_nested_virtualization) with Some b => Some b | None => setting nested_virtualization old end;
  ca_rosetta : setting rosetta new = match u.(up_rosetta) with Some b => Some b | None => setting rosetta old end;
  ca_spec : other_spec new.(mc_spec) = other_spec old.(mc_spec) }.

Definition about_hardware (u : MachineUpdate) : Prop :=
  is_Some u.(up_cpus) \/ is_Some u.(up_memory) \/ is_Some u.(up_nested_virtualization) \/ is_Some u.(up_rosetta).
Lemma spec_changes_about u : spec_changes u = true <-> about_hardware u.
Proof. unfold spec_changes, about_hardware. rewrite !orb_true_iff, !bool_decide_eq_true. tauto. Qed.
Lemma checked_memory `{RtDeps} id u mem : check_update id u = Ok mem ->
  match u.(up_memory) with Some bytes => exists mib, mem = Some mib /\ (mib - 1) * 2 ^ 20 < bytes <= mib * 2 ^ 20 | None => mem = None end.
Proof.
  unfold check_update. destruct (match up_name u with Some name => validate_machine_name name | None => Ok tt end); simpl; [|done..].
  destruct (update_is_empty u); [done|]. destruct (bool_decide (up_cpus u = Some 0)); [done|]. destruct (up_memory u) as [bytes|]; simpl.
  - unfold to_update_mebibytes. destruct (bytes =? 0); [done|]. unfold chk. destruct (uintb _ _); simpl; [|done].
    destruct (bool_decide _); [done|]. intros [= <-]. eexists. split; [done|]. unfold div_ceil. change BYTES_PER_MEBIBYTE with 1048576.
    pose proof (Z.div_mod (bytes + 1048576 - 1) 1048576 ltac:(lia)). pose proof (Z.mod_pos_bound (bytes + 1048576 - 1) 1048576 ltac:(lia)). lia.
  - destruct (bool_decide _); [done|]. by intros [= <-].
Qed.
Lemma updated_changed `{RtDeps} id u mem now c : check_update id u = Ok mem ->
  changed_as u c (updated_config u mem (default c.(mc_name) u.(up_name)) now c).
Proof.
  intros Hc. pose proof (checked_memory id u mem Hc) as Hm. destruct u as [name cpu bytes disk nested ros net]. simpl in Hm.
  split; simpl; try done; unfold setting, other_spec; simpl; unfold update_spec, spec_changes; simpl.
  all: try (by destruct name); try (by destruct net); try (by destruct disk).
  all: destruct bytes as [bytes|]; [destruct Hm as (mib & -> & Hm)|subst mem]; destruct cpu, nested, ros; simpl; first [by exists mib|by destruct (hardware (mc_spec c))].
Qed.

(** C20 update_stored: an update of a machine either is stored as a whole or leaves every configuration as
    it was, whatever fails.  When it is stored, the new configuration is the old one with the
    settings that were given and no others, and, where one of them is about the hardware, the
    file with the specification holds the new one.  An update that succeeds was stored and returns the new configuration;
    one that fails may have been stored too, when only the state of the machine could not be read for
    the answer.  Of the disk at most the file with the specification changes; when the update is not
    stored, a failed write may have damaged that file. *)
Theorem update_stored `{RtDeps} roots s s' s'' id u w : on_state (registered roots) w ->
  let r := update s s' s'' id u w in
  let t := w.(rt_db).(t_config) in
  let p := vm_spec_path_in (machine_dir_of roots id) in
  (forall k, k <> p -> disk r.2 !! k = disk w !! k) /\
  ((r.2.(rt_db).(t_config) = t /\ forall d, r.1 <> Ok d) \/
   exists row new, t !! id = Some row /\ changed_as u row.(cr_config) new /\
     r.2.(rt_db).(t_config) = <[id := mk_config_row new.(mc_name) new]> t /\
     (about_hardware u -> exists text, spec_json new.(mc_spec) = Some text /\ disk r.2 !! p = Some (FsFile text)) /\
     (~ about_hardware u -> disk r.2 = disk w) /\
     forall d, r.1 = Ok d -> d.(md_config) = new).
Proof.
  intros Hw r t p. subst r. unfold update.
  pose proof (store_update_configs roots t s id u w (conj Hw eq_refl)) as Hc. pose proof (store_update_disk roots (disk w) s id u w (conj Hw eq_refl)) as Hd.
  unfold sbind. destruct (store_update s id u w) as [[c|e|] w1]; [|by split; [|left]..].
  destruct Hc as (row & mem & now & Hrow & Hmem & Hnew & Ht1).
  pose proof (inspect_disk _ true s' s'' c w1 eq_refl) as Hi. pose proof (inspect_configs (t_config (rt_db w1)) true s' s'' c w1 eq_refl) as Hic.
  pose proof (inspect_config true s' s'' c w1) as Hdata. destruct (machine_inspect_data true s' s'' c w1) as [o w2]. cbn [fst snd] in *.
  unfold same_disk, on_state, configs in Hi, Hic. rewrite Hi, Hic. split.
  - intros k Hk. destruct (spec_changes u); [destruct Hd as (text & _ & ->); by rewrite lookup_insert_ne|by rewrite Hd].
  - right. exists row, c. split; [done|]. split; [rewrite Hnew; by eapply updated_changed|]. split; [done|].
    rewrite <- spec_changes_about. destruct (spec_changes u); split_and!; try done. intros _. destruct Hd as (text & Hs & ->). exists text. split; [done|]. apply lookup_insert_eq.
Qed.

(** ** Removal *)

Lemma parse_as_str st : parse (as_str st) = Some st.
Proof. by destruct st. Qed.

Lemma reduce_machine_id s e now s' : reduce s e now = Ok s' -> s'.(machine_id) = s.(machine_id).
Proof.
  destruct e; simpl; unfold start_requested, monitor_ready, monitor_observed, start_failed, stop_requested, stop_completed,
    exit_observed, monitor_gone, start_timed_out, obind; repeat case_match; try done; intros [= <-]; done.
Qed.

(** A machine is observed under its own id. *)
Lemma observe_machine_id h id p st : observe_machine_state h id p = Ok st -> (forall s, p = Some s -> s.(machine_id) = id) ->
  st.(machine_id) = id.
Proof.
  unfold observe_machine_state. cbv zeta. intros Ho Hp.
  assert (machine_id (default (stopped_machine_state id None (Transitions.now_unix h)) p) = id) as Hd.
  { destruct p as [s|]; simpl; [by apply Hp|done]. }
  revert Ho. set (stored := default _ p) in *. clearbody stored. destruct (exit_status h ≫= _) as [x|].
  { destruct (exit_observed_event x). by intros ->%reduce_machine_id. }
  destruct (identity_pid <$> _); [by intros ->%reduce_machine_id|].
  repeat (match goal with |- (if ?b then _ else _) = _ -> _ => destruct b end);
    first [by intros ->%reduce_machine_id|by intros [= <-]].
Qed.

Section Remove.
Context `{RtDeps} (roots : LocalRoots) (w : rt) (Hok : on_state (registered roots) w) (Hf : faults w = []).

Lemma run_stored_state id : stored_state id w = (Ok (sr_state <$> w.(rt_db).(t_state) !! id), w).
Proof.
  unfold stored_state. rewrite run_query by done. f_equal. unfold decode_optional. destruct (t_state (rt_db w) !! id) as [r|] eqn:E; [|done].
  destruct Hok as [Hd _]. destruct (ok_states _ _ Hd id r E) as (_ & Hid & Hs). unfold state_of_row.
  rewrite Hs, parse_as_str, Hid, Z.eqb_refl. simpl. by rewrite bool_decide_eq_true_2.
Qed.

Lemma run_resolve_id id row : w.(rt_db).(t_config) !! id = Some row -> resolve_machine_config (RefId id) w = (Ok row.(cr_config), w).
Proof.
  intros Hr. simpl. unfold machine_config. erewrite run_bind_out by (by rewrite run_query). rewrite Hr. simpl.
  destruct Hok as [Hd _]. destruct (ok_rows _ _ Hd id row Hr) as (Hi & Hn & _). unfold config_of_row.
  rewrite Hi, Z.eqb_refl. simpl. by rewrite bool_decide_eq_true_2.
Qed.

Lemma run_lock_machine_config id row : w.(rt_db).(t_config) !! id = Some row -> lock_machine_config id w = (Ok row.(cr_config), w).
Proof.
  intros Hr. unfold lock_machine_config. erewrite run_bind by (by apply run_resolve_id).
  erewrite run_bind with (w' := w).
  2: { unfold acquire_machine_lock. erewrite run_bind by (by apply run_may_fail). unfold open_lock_file.
       destruct Hok as (_ & Hres & _). destruct (Hres id row Hr) as [i ->]. simpl. by destruct w. }
  erewrite run_bind by (by apply run_resolve_id). by rewrite N.eqb_refl.
Qed.

(** Reconciling writes the observed state, at most. *)
Lemma run_reconcile h id row st : w.(rt_db).(t_config) !! id = Some row ->
  observe_machine_state h id (sr_state <$> w.(rt_db).(t_state) !! id) = Ok st ->
  exists ts, reconcile_machine_runtime_locked (Ok h) row.(cr_config) w = (Ok st, put_db (set_state ts w.(rt_db)) w) /\
    delete id ts = delete id w.(rt_db).(t_state).
Proof.
  intros Hr Ho. destruct Hok as [Hd _]. destruct (ok_rows _ _ Hd id row Hr) as (Hi & _).
  assert (machine_id st = id) as Hst.
  { eapply observe_machine_id; [exact Ho|]. intros s Hs. destruct (t_state (rt_db w) !! id) as [r|] eqn:E; [|done].
    injection Hs as <-. by apply (ok_states _ _ Hd id r E). }
  unfold reconcile_machine_runtime_locked. rewrite Hi. erewrite run_bind by apply run_stored_state.
  erewrite run_bind with (w' := w); [|unfold observe; erewrite run_bind by done; unfold stry; by rewrite Ho].
  destruct (machine_state_needs_writeback _ st).
  - eexists. erewrite run_bind; [split; [done|]|unfold save_machine_state; apply run_execute; [done|]; unfold upsert_state;
      rewrite Hst, Hr; done].
    by rewrite delete_insert_eq.
  - exists (t_state (rt_db w)). erewrite run_bind by done. split; [|done].
    unfold sret, put_db, set_state. by destruct w as [? [] ? ? ? ?].
Qed.
End Remove.

(** C21 remove_complete: where the host does not fail, removing a machine at rest that has no
    network removes its rows, its lock number and its directory with all it holds, and nothing
    else; removing an active machine fails and leaves configurations, locks and disk as they
    were. *)
Theorem remove_complete `{RtDeps} roots h id row st w :
  on_state (registered roots) w -> faults w = [] -> closed (disk w) ->
  w.(rt_db).(t_config) !! id = Some row -> w.(rt_db).(t_attachments) !! id = None ->
  (forall b, disk w !! row.(cr_config).(mc_machine_dir) <> Some (FsFile b)) ->
  observe_machine_state h id (sr_state <$> w.(rt_db).(t_state) !! id) = Ok st ->
  match remove roots (Ok h) id w with
  | (Ok _, w') => is_active st.(status) = false /\
      w'.(rt_db) = delete_config id w.(rt_db) /\ w'.(rt_locks).(files) = delete row.(cr_config).(mc_lock_id) w.(rt_locks).(files) /\
      forall k, disk w' !! k = if under row.(cr_config).(mc_machine_dir) k then None else disk w !! k
  | (Err e, w') => is_active st.(status) = true /\ e = MachineAlreadyRunning row.(cr_config).(mc_name) /\
      w'.(rt_db).(t_config) = w.(rt_db).(t_config) /\ w'.(rt_locks) = w.(rt_locks) /\ disk w' = disk w
  | (Panic, _) => False
  end.
Proof.
  intros Hok Hf Hcl Hr Hatt Hdf Ho. destruct (run_reconcile roots w Hok Hf h id row st Hr Ho) as (ts & Hrec & Hts).
  unfold remove. erewrite run_bind by (by eapply run_lock_machine_config). erewrite run_bind by exact Hrec.
  destruct Hok as [Hd _]. destruct (ok_rows _ _ Hd id row Hr) as (Hi & _ & Hdir). set (c := cr_config row) in *.
  set (w1 := put_db (set_state ts (rt_db w)) w). assert (faults w1 = []) as Hf1 by done.
  erewrite run_bind with (w' := w1).
  2: { unfold reconcile_network_runtime, network_attachment. erewrite run_bind; [|by rewrite run_query]. simpl. by rewrite Hi, Hatt. }
  destruct (is_active (status st)); [done|]. set (p := mc_machine_dir c) in *.
  assert (p <> []) as Hpn by (rewrite Hdir; by unfold machine_dir_of; destruct (machines_dir roots)).
  assert (exists r m, rresult (remove_dir_all p) w1 = (Ok r, with_disk m w1) /\ (r = inl tt \/ r = inr IoNotFound) /\
    forall k, m !! k = if under p k then None else disk w !! k) as (r & m & Hrd & Hres & Hm).
  { unfold remove_dir_all. rewrite run_attempt_result by done. simpl. destruct (disk w !! p) as [[b|]|] eqn:Ep; [by destruct (Hdf b)|..].
    - do 2 eexists. split; [done|]. split; [by left|]. intros k. rewrite map_lookup_filter. destruct (under p k) eqn:Eu.
      + destruct (disk w !! k); [|done]. simpl. by rewrite option_guard_False by (simpl; congruence).
      + destruct (disk w !! k); [|done]. simpl. by rewrite option_guard_True.
    - exists (inr IoNotFound), (disk w). split; [unfold with_disk, put_host, w1; by destruct w as [[] ? ? ? ? ?]|].
      split; [by right|]. intros k. destruct (under p k) eqn:Eu; [|done]. apply under_spec in Eu as [q ->]. by apply closed_below. }
  erewrite run_bind by exact Hrd.
  assert (remove_machine_records c (with_disk m w1) =
    (Ok tt, put_locks (LockManager.free (mc_lock_id c) (rt_locks w)) (put_db (delete_config id (rt_db w)) (with_disk m w1)))) as Hrr.
  { unfold remove_machine_records. assert (faults (with_disk m w1) = []) as Hf2 by done. erewrite run_bind.
    2: { unfold remove_machine. erewrite run_bind by (by apply run_query). erewrite run_bind by (by apply run_in_tx).
         erewrite run_bind by (by apply run_in_tx). unfold commit_tx. by apply run_execute. }
    unfold free_lock. erewrite run_bind by (by apply run_may_fail). unfold delete_config, put_db. simpl. rewrite Hi, Hts.
    by rewrite delete_delete_eq. }
  destruct Hres as [-> | ->]; cbn iota; rewrite Hrr; done.
Qed.

(** ** Networks *)

Section Network.
Context `{RtDeps} (roots : LocalRoots).

Definition uses (iid : buffer) (id : MachineId) (d : db) : Prop :=
  exists a, d.(t_attachments) !! id = Some a /\ a.(na_network_instance_id) = iid.

Lemma attached_to_nil iid d : attached_to iid d = [] <-> forall id, ~ uses iid id d.
Proof.
  unfold attached_to. split.
  - intros E id (a & Ha & Hi). assert ((id, a) ∈ filter (fun kv : MachineId * NetworkAttachment => na_network_instance_id kv.2 = iid)
      (map_to_list (t_attachments d))) as Hin by (apply list_elem_of_filter; by rewrite elem_of_map_to_list).
    rewrite E in Hin. by apply not_elem_of_nil in Hin.
  - intros Hn. destruct (filter _ _) as [|[id a] l] eqn:E; [done|]. assert ((id, a) ∈ (id, a) :: l) as Hin by (by left).
    rewrite <- E in Hin. apply list_elem_of_filter in Hin as [Hi Hin%elem_of_map_to_list]. destruct (Hn id). by exists a.
Qed.

Lemma attached_to_length iid d : (length (attached_to iid d) <= size d.(t_attachments))%nat.
Proof.
  unfold attached_to. rewrite <- length_map_to_list. apply length_filter.
Qed.

(** The link is removed, whatever is there. *)
Definition unlinked (id : MachineId) (d : gmap path node) : gmap path node :=
  let link := network_link (machine_dir_of roots id) in
  match d !! link with
  | Some FsDir => filter (fun kv => under link kv.1 = false) d
  | Some (FsFile _) => delete link d
  | None => d
  end.
Lemma run_remove_link id w : faults w = [] -> remove_instance_network_link roots id w = (Ok tt, with_disk (unlinked id (disk w)) w).
Proof.
  intros Hf. unfold remove_instance_network_link, unlinked. cbv zeta. erewrite run_bind by (by apply run_look_result).
  destruct (disk w !! network_link (machine_dir_of roots id)) as [[b|]|] eqn:E.
  - unfold rio, remove_file. apply run_attempt_io; [done|]. by rewrite E.
  - unfold rio, remove_dir_all. apply run_attempt_io; [done|]. by rewrite E.
  - by destruct w as [[] ? ? ? ? ?].
Qed.
Lemma unlinked_none id d k b : d !! k <> Some (FsFile b) -> unlinked id d !! k <> Some (FsFile b).
Proof.
  intros Hk. unfold unlinked. cbv zeta. destruct (d !! network_link _) as [[]|]; [| |done].
  - intros [_ ?]%lookup_delete_Some. done.
  - intros [? _]%map_lookup_filter_Some. done.
Qed.

Lemma run_remove_runtime_dir p w : faults w = [] -> (forall b, disk w !! p <> Some (FsFile b)) ->
  exists m, remove_runtime_dir p w = (Ok tt, with_disk m w).
Proof.
  intros Hf Hp. unfold remove_runtime_dir, remove_dir_all.
  destruct (disk w !! p) as [[b|]|] eqn:E; [by destruct (Hp b)|..].
  - eexists. erewrite run_bind; [|rewrite run_attempt_result by done; by rewrite E]. done.
  - exists (disk w). erewrite run_bind; [|rewrite run_attempt_result by done; by rewrite E]. by destruct w as [[] ? ? ? ? ?].
Qed.

(** The process group of the helper that is told to end. *)
Definition helper_signals (i : NetworkInstance) : list Z :=
  if bool_decide (i.(ni_driver) = DRIVER_NETD) then
    match helper_pid i.(ni_driver_state_json) with
    | Some pid => if (pid <=? 0) || negb (process_is_alive pid) then [] else [- pid]
    | None => []
    end
  else [].
Lemma run_terminate i w : terminate_network_instance i w =
  (Ok tt, mk_rt w.(rt_host) w.(rt_db) w.(rt_locks) w.(rt_uuids) w.(rt_entropy) (helper_signals i ++ w.(rt_signals))).
Proof.
  unfold terminate_network_instance, helper_signals, terminate_helper. destruct w.
  repeat case_match; done.
Qed.
End Network.

(** C22 network_released: where the host does not fail, a machine that has stopped is detached from
    its network.  A network that another machine still uses stays as it is; with the
    last machine the helper process is told to end, if it still runs, and the network is removed. *)
Theorem network_released `{RtDeps} roots c a i w :
  on_state (registered roots) w -> faults w = [] ->
  w.(rt_db).(t_attachments) !! c.(mc_id) = Some a -> w.(rt_db).(t_instances) !! a.(na_network_instance_id) = Some i ->
  Z.of_nat (size w.(rt_db).(t_attachments)) < 2 ^ 32 ->
  (forall b, disk w !! i.(ni_runtime_dir) <> Some (FsFile b)) ->
  exists w', reconcile_network_runtime roots c false w = (Ok tt, w') /\
  w'.(rt_db).(t_attachments) = delete c.(mc_id) w.(rt_db).(t_attachments) /\
  ((exists id, id <> c.(mc_id) /\ uses i.(ni_id) id w.(rt_db)) ->
     w'.(rt_db).(t_instances) = w.(rt_db).(t_instances) /\ w'.(rt_signals) = w.(rt_signals)) /\
  ((forall id, uses i.(ni_id) id w.(rt_db) -> id = c.(mc_id)) ->
     w'.(rt_db).(t_instances) = delete i.(ni_id) w.(rt_db).(t_instances) /\ w'.(rt_signals) = helper_signals i ++ w.(rt_signals)).
Proof.
  intros [Hd _] Hf Ha Hi Hsz Hlink. pose proof (ok_instances _ _ Hd _ _ Hi) as Hid.
  unfold reconcile_network_runtime, network_attachment, network_instance.
  erewrite run_bind; [|by rewrite run_query]. rewrite Ha. cbn iota. erewrite run_bind; [|by rewrite run_query]. rewrite Hi. simpl.
  set (atts := delete (mc_id c) (t_attachments (rt_db w))). set (d1 := set_attachments atts (rt_db w)).
  erewrite run_bind with (a := tt) (w' := put_db d1 w); [|unfold detach_network; by apply run_execute].
  erewrite run_bind by (by apply run_remove_link). set (w2 := with_disk _ (put_db d1 w)). assert (faults w2 = []) as Hf2 by done.
  assert (forall id, uses (ni_id i) id d1 <-> uses (ni_id i) id (rt_db w) /\ id <> mc_id c) as Hu.
  { intros id. unfold uses, d1, atts. simpl. split; [intros (x & Hx & Hxi); apply lookup_delete_Some in Hx as [? ?]; naive_solver|].
    intros [(x & Hx & Hxi) Hne]. exists x. by rewrite lookup_delete_ne. }
  unfold release_instance, network_attachment_count. erewrite run_bind.
  2: { rewrite run_query by done. simpl. rewrite chk_some; [done|]. split; [apply zlen_nonneg|].
       pose proof (attached_to_length (ni_id i) d1) as Hl. unfold zlen. assert (size atts <= size (t_attachments (rt_db w)))%nat.
       { apply map_subseteq_size, delete_subseteq. }
       assert (size (t_attachments d1) = size atts) as Hs by done. rewrite Hs in Hl.
       change (Z.of_nat (length (attached_to (ni_id i) d1)) < 2 ^ 32). lia. }
  destruct (attached_to (ni_id i) d1) as [|kv l] eqn:El.
  - pose proof (proj1 (attached_to_nil _ _) El) as Hnone. change (zlen (@nil (MachineId * NetworkAttachment)) =? 0) with true. cbn iota.
    erewrite run_bind by apply run_terminate. erewrite run_bind; [|unfold remove_network_instance; by apply run_execute].
    destruct (run_remove_runtime_dir (ni_runtime_dir i) (put_db (delete_instance (ni_id i) d1)
      (mk_rt (rt_host w2) (rt_db w2) (rt_locks w2) (rt_uuids w2) (rt_entropy w2) (helper_signals i ++ rt_signals w2)))) as [m Hm]; [done| |].
    { intros b. simpl. by apply unlinked_none. }
    eexists. split; [exact Hm|]. simpl. split; [|split].
    + apply map_eq. intros id. rewrite map_lookup_filter. destruct (atts !! id) as [x|] eqn:Ex; [|done]. simpl.
      rewrite option_guard_True; [done|]. simpl. intros E. apply (Hnone id). exists x. done.
    + intros (id & Hne & Hus). destruct (Hnone id). by apply Hu.
    + done.
  - assert (zlen (kv :: l) <> 0) as Hz by (zlen; pose proof (zlen_nonneg l); lia). rewrite (proj2 (Z.eqb_neq _ _)) by done.
    eexists. split; [done|]. simpl. split; [done|]. split; [done|]. intros Hall.
    assert (exists id, uses (ni_id i) id d1) as [id [Hus Hne]%Hu]; [|by destruct Hne; apply Hall].
    destruct kv as [id x]. exists id. assert ((id, x) ∈ attached_to (ni_id i) d1) as Hin by (rewrite El; by left).
    apply list_elem_of_filter in Hin as [Hx Hin%elem_of_map_to_list]. by exists x.
Qed.
