(* ===== verification/MachineWorld.v ===== *)
(** * A runtime to evaluate the registry on

    An instance of the libraries behind the registry, a host with a base image, and the
    theorems applied to them; then inputs on which the code departs from what it means to do. *)

From stdpp Require Import base list option numbers strings gmap.
From S2P Require Import Prelude Transitions LockManager Bytes Utf8 Str HostFs HostProg MachineModel MachineDb Machines MachinesSpec MachinesCreate MachineRefs MachinesChange.

(** ** UUIDs as 32 digits *)

Fixpoint hex_digits (n : nat) (u : Z) : buffer :=
  match n with O => [] | S n => hex_digits n (u / 16) ++ [hex_digit (u mod 16)] end.
Definition hex_value (c : Z) : Z := if in_range 48 57 c then c - 48 else if in_range 97 102 c then c - 87 else c - 55.
Definition read_hex (s : buffer) : Z := fold_left (fun n c => 16 * n + hex_value c) s 0.
Definition parse_simple_uuid (s : buffer) : option Z :=
  if (length s =? 32)%nat && forallb is_ascii_hexdigit s then Some (read_hex s) else None.

Lemma digits_in (f : Z -> bool) d : 0 <= d < 16 -> forallb f (seqZ 0 16) = true -> f d = true.
Proof. intros Hd H. rewrite forallb_forall in H. apply H, list_elem_of_In, elem_of_seqZ. lia. Qed.

Lemma hex_digits_length n u : length (hex_digits n u) = n.
Proof. revert u. induction n as [|n IH]; intros u; [done|]. simpl. rewrite length_app, IH. simpl. lia. Qed.
Lemma hex_digits_normal n u : forallb is_normal_hex (hex_digits n u) = true.
Proof.
  revert u. induction n as [|n IH]; intros u; [done|]. simpl. rewrite forallb_app, IH. simpl. rewrite andb_true_r.
  apply (digits_in (fun d => is_normal_hex (hex_digit d))); [by apply Z.mod_pos_bound|done].
Qed.
Lemma read_hex_digits n u : 0 <= u < 16 ^ Z.of_nat n -> read_hex (hex_digits n u) = u.
Proof.
  revert u. induction n as [|n IH]; intros u Hu; [simpl in Hu; unfold read_hex; simpl; lia|]. simpl. unfold read_hex in *.
  rewrite fold_left_app. simpl. rewrite Nat2Z.inj_succ, Z.pow_succ_r in Hu by lia.
  rewrite IH by (split; [apply Z.div_pos; lia|apply Z.div_lt_upper_bound; lia]).
  assert (hex_value (hex_digit (u mod 16)) = u mod 16) as ->.
  { apply Z.eqb_eq, (digits_in (fun d => hex_value (hex_digit d) =? d)); [by apply Z.mod_pos_bound|done]. }
  symmetry. apply Z.div_mod. lia.
Qed.

Definition sample_uuids : Uuids := {| simple := hex_digits 32; parse_uuid := parse_simple_uuid |}.
#[export] Instance sample_uuid_laws : @UuidLaws sample_uuids.
Proof.
  split.
  - intros u. apply (hex_digits_length 32).
  - intros u. apply (hex_digits_normal 32).
  - intros u Hu. change (parse_simple_uuid (hex_digits 32 u) = Some u). unfold parse_simple_uuid. rewrite hex_digits_length. assert (forallb is_ascii_hexdigit (hex_digits 32 u) = true) as ->.
    { pose proof (hex_digits_normal 32 u) as Hn. rewrite forallb_forall in *. intros c Hc. specialize (Hn c Hc).
      unfold is_ascii_hexdigit, is_normal_hex in *. by rewrite Hn. }
    rewrite read_hex_digits; [done|exact Hu].
  - intros s u. change (parse_simple_uuid s = Some u -> (32 <= length s)%nat). unfold parse_simple_uuid. destruct (length s =? 32)%nat eqn:E; [|done]. apply Nat.eqb_eq in E. lia.
Qed.

(** ** A host *)

#[export] Instance sample_rt : RtDeps := {|
  rt_uuid := sample_uuids; spec_json := fun _ => Some (bstr "{}"); config_serializes := fun _ => true; reflinks := false;
  dir_len := 4096; helper_pid := fun s => if bool_decide (s = bstr "42") then Some 42 else None;
  process_is_alive := fun pid => pid =? 42; inspect_rpc := fun _ => inr [] |}.

Definition sample_roots : LocalRoots := mk_roots [bstr "d"] [bstr "r"] [bstr "i"].
Definition base_image : PathBuf := mk_pathbuf true [bstr "base.img"].
Definition empty_db : db := mk_db ∅ ∅ ∅ ∅ ∅.
Definition sample_disk : gmap path node := <[[bstr "base.img"] := FsFile [1; 2; 3]]> (<[[bstr "d"] := FsDir]> ∅).
Definition fresh (fl : list (option nat)) : rt :=
  mk_rt (mk_host sample_disk fl [5 * 10 ^ 9; 6 * 10 ^ 9; 7 * 10 ^ 9] 0) empty_db (mk_locks ∅ 0) [7; 8; 9] [Some 42] [].
Definition devbox : MachineCreateRequest :=
  b_label (bstr "k") (bstr "v") (b_root_disk_size 5 (b_memory (gibibytes 1) (b_name (bstr "devbox") (b_new (bstr "alpine") base_image)))).

Lemma fresh_ok fl : on_state (registered sample_roots) (fresh fl).
Proof. split; [split; simpl; intros; by simplify_map_eq|]. split; simpl; intros; by simplify_map_eq. Qed.

Definition closed_check (m : gmap path node) : bool :=
  forallb (fun kv => match kv.1 with
                     | [] | [_] => true
                     | k => is_dir_at m (parent k)
                     end) (map_to_list m).
Lemma closed_checked m : closed_check m = true -> closed m.
Proof.
  unfold closed_check. rewrite forallb_forall. intros Hm k x n Hk Hn. specialize (Hm (k ++ [x], n)).
  rewrite <- list_elem_of_In, elem_of_map_to_list in Hm. specialize (Hm Hn).
  destruct k as [|a k]; [done|]. cbn [fst app] in Hm. destruct (k ++ [x]) eqn:E; [by destruct k|].
  rewrite <- E in Hm. change (a :: k ++ [x]) with ((a :: k) ++ [x]) in Hm. rewrite parent_snoc in Hm. unfold is_dir_at in Hm.
  by destruct (m !! (a :: k)) as [[]|].
Qed.

Definition devbox_spec : VmSpec := request_spec devbox None None [] 1024.

Lemma create_success_witness : exists now now' w',
  let c := mk_config 7 0 (bstr "devbox") devbox_spec (machine_dir_of sample_roots 7) now now devbox.(rq_image_ref)
    (Some (default (zlen [1; 2; 3]) devbox.(rq_disk_size_bytes))) devbox.(rq_labels) devbox.(rq_metadata)
    (default default_network devbox.(rq_network)) in
  create_machine_config sample_roots [] devbox (fresh []) = (Ok c, w') /\
  w'.(rt_db) = set_state (<[7 := mk_state_row (as_str Stopped) (stopped_machine_state 7 None now')]> empty_db.(t_state))
    (set_config (<[7 := mk_config_row (bstr "devbox") c]> empty_db.(t_config)) empty_db) /\
  w'.(rt_locks) = mk_locks (<[0%N := 0%N]> ∅) 1 /\
  disk w' = created_disk sample_roots 7 (bstr "{}")
    (default [1; 2; 3] ((fun n => resize (Z.to_nat n) 0 [1; 2; 3]) <$> devbox.(rq_disk_size_bytes))) sample_disk.
Proof.
  apply (create_success sample_roots [] (fresh []) devbox (bstr "devbox") [bstr "base.img"] [1; 2; 3] devbox_spec (bstr "{}") 7 0
    (mk_locks (<[0%N := 0%N]> ∅) 1)).
  - split; try done.
    + intros n [= <-]. vm_compute. discriminate.
    + exists None, None, [], 1024. repeat split; vm_compute; reflexivity.
  - split; try done.
    + by apply closed_checked.
    + by exists [8; 9].
    + intros q b Hq. vm_compute in Hq. set_solver.
  - done.
Defined.

(** The runtime after the machine was created. *)
Definition created : rt := (create_machine_config sample_roots [] devbox (fresh [])).2.
Lemma created_ok : on_state (registered sample_roots) created.
Proof. apply create_ok, fresh_ok. Qed.

Definition at_rest : seen := Ok (empty_host 100).
Definition bigger : MachineUpdate := u_cpus 2 (u_name (bstr "box2") u_new).

Lemma registry_invariant_witness :
  on_state (registered sample_roots) (foldl (fun w c => run_command sample_roots [] c w) (fresh [None; None; Some 1%nat])
    [CmdCreate devbox; CmdCreate devbox; CmdUpdate at_rest at_rest at_rest 8 bigger; CmdCreate devbox; CmdRemove at_rest 8]).
Proof. apply (registry_invariant sample_roots []), fresh_ok. Defined.

(** A disk of one byte does not hold the image. *)
Definition too_small : MachineCreateRequest := b_root_disk_size 1 devbox.

Lemma create_failure_witness :
  let w' := (create_machine_config sample_roots [] too_small (fresh [])).2 in
  w'.(rt_db) = empty_db /\ (forall k n, sample_disk !! k = Some n -> disk w' !! k = Some n) /\
  (faults (fresh []) = [] -> w'.(rt_locks).(files) = ∅ /\
     forall k, k ∉ prefixes (machines_dir sample_roots) -> disk w' !! k = sample_disk !! k).
Proof.
  apply (create_failure sample_roots [] too_small (fresh [])); [by apply closed_checked|].
  intros c. vm_compute. discriminate.
Defined.

Definition devbox_row : config_row := default (mk_config_row [] (guard_config (mk_guard 0 (mk_plan [] devbox_spec [] None ∅ ∅ default_network) [] 0 false) 0))
  (t_config (rt_db created) !! 7).

Lemma update_stored_witness :
  let r := update at_rest at_rest at_rest 7 bigger created in
  let t := created.(rt_db).(t_config) in
  let p := vm_spec_path_in (machine_dir_of sample_roots 7) in
  (forall k, k <> p -> disk r.2 !! k = disk created !! k) /\
  ((r.2.(rt_db).(t_config) = t /\ forall d, r.1 <> Ok d) \/
   exists row new, t !! 7 = Some row /\ changed_as bigger row.(cr_config) new /\
     r.2.(rt_db).(t_config) = <[7 := mk_config_row new.(mc_name) new]> t /\
     (about_hardware bigger -> exists text, spec_json new.(mc_spec) = Some text /\ disk r.2 !! p = Some (FsFile text)) /\
     (~ about_hardware bigger -> disk r.2 = disk created) /\
     forall d, r.1 = Ok d -> d.(md_config) = new).
Proof. apply (update_stored sample_roots), created_ok. Defined.
Example update_succeeds : match (update at_rest at_rest at_rest 7 bigger created).1 with Ok d => mc_name d.(md_config) = bstr "box2" | _ => False end.
Proof. vm_compute. reflexivity. Qed.

Definition devbox_state : MachineState := stopped_machine_state 7 None 100.

Lemma remove_complete_witness :
  match remove sample_roots (Ok (empty_host 100)) 7 created with
  | (Ok _, w') => is_active devbox_state.(status) = false /\
      w'.(rt_db) = delete_config 7 created.(rt_db) /\
      w'.(rt_locks).(files) = delete devbox_row.(cr_config).(mc_lock_id) created.(rt_locks).(files) /\
      forall k, disk w' !! k = if under devbox_row.(cr_config).(mc_machine_dir) k then None else disk created !! k
  | (Err e, w') => is_active devbox_state.(status) = true /\ e = MachineAlreadyRunning devbox_row.(cr_config).(mc_name) /\
      w'.(rt_db).(t_config) = created.(rt_db).(t_config) /\ w'.(rt_locks) = created.(rt_locks) /\ disk w' = disk created
  | (Panic, _) => False
  end.
Proof.
  apply (remove_complete sample_roots (empty_host 100) 7 devbox_row devbox_state created).
  - apply created_ok.
  - vm_compute. reflexivity.
  - apply closed_checked. vm_compute. reflexivity.
  - vm_compute. reflexivity.
  - vm_compute. reflexivity.
  - intros b. vm_compute. discriminate.
  - vm_compute. reflexivity.
Defined.

Lemma generated_name_resolves_witness : exists name,
  name_from_entropy 42 = Ok name /\ validate_machine_name name = Ok tt /\
  @parse_ref sample_uuids name = Ok (RefName name).
Proof. apply generated_name_resolves. by split. Defined.

Lemma get_machine_finds_witness : get_machine (bstr "devbox") created = (Ok (cr_config devbox_row), created).
Proof.
  destruct (get_machine_finds sample_roots (bstr "devbox") created created_ok ltac:(vm_compute; reflexivity)) as (_ & Hc & _).
  apply (Hc 7 devbox_row); [vm_compute; reflexivity..|].
  intros [_ Hh]. apply Forall_cons in Hh as [_ Hh]. apply Forall_cons in Hh as [_ Hh]. apply Forall_cons in Hh as [Hh _]. discriminate Hh.
Defined.

(** The machine attached to a network whose helper runs. *)
Definition helper : NetworkInstance := mk_instance (bstr "n1") DRIVER_NETD None [bstr "r"; bstr "n1"] [] (bstr "42") 6 6.
Definition attached : NetworkAttachment := mk_attachment 7 (bstr "n1") (bstr "02:00:00:00:00:01") 6 6.
Definition attach (i : NetworkInstance) (a : NetworkAttachment) (d : db) : db :=
  match upsert_instance i d with
  | inr _ => d
  | inl d1 => match upsert_attachment a d1 with inl d2 => d2 | inr _ => d1 end
  end.
Definition with_helper (w : rt) : rt :=
  mk_rt w.(rt_host) (attach helper attached w.(rt_db)) w.(rt_locks) w.(rt_uuids) w.(rt_entropy) w.(rt_signals).
Definition networked : rt := with_helper created.

Lemma upsert_instance_config i d d' : upsert_instance i d = inl d' -> d'.(t_config) = d.(t_config).
Proof. unfold upsert_instance. destruct (definition_taken _ _ _); [done|]. by intros [= <-]. Qed.
Lemma upsert_attachment_config a d d' : upsert_attachment a d = inl d' -> d'.(t_config) = d.(t_config).
Proof. unfold upsert_attachment. destruct (t_config d !! _); [|done]. destruct (t_instances d !! _); [|done]. by intros [= <-]. Qed.
Lemma attach_db_ok i a d l : registered sample_roots d l -> registered sample_roots (attach i a d) l.
Proof.
  intros Hd. unfold attach. destruct (upsert_instance i d) as [d1|] eqn:E1; [|done].
  assert (registered sample_roots d1 l) as H1.
  { eapply registered_stable; [exact Hd|by eapply put_instance_ok, E1; apply Hd|by eapply upsert_instance_config]. }
  destruct (upsert_attachment a d1) as [d2|] eqn:E2; [|done].
  eapply registered_stable; [exact H1|by eapply put_attachment_ok, E2; apply H1|by eapply upsert_attachment_config].
Qed.
Lemma with_helper_ok w : on_state (registered sample_roots) w -> on_state (registered sample_roots) (with_helper w).
Proof. apply attach_db_ok. Qed.
Lemma networked_ok : on_state (registered sample_roots) networked.
Proof. exact (with_helper_ok created created_ok). Qed.

Lemma network_released_witness :
  exists w', reconcile_network_runtime sample_roots devbox_row.(cr_config) false networked = (Ok tt, w') /\
  w'.(rt_db).(t_attachments) = delete devbox_row.(cr_config).(mc_id) networked.(rt_db).(t_attachments) /\
  ((exists id, id <> devbox_row.(cr_config).(mc_id) /\ uses helper.(ni_id) id networked.(rt_db)) ->
     w'.(rt_db).(t_instances) = networked.(rt_db).(t_instances) /\ w'.(rt_signals) = networked.(rt_signals)) /\
  ((forall id, uses helper.(ni_id) id networked.(rt_db) -> id = devbox_row.(cr_config).(mc_id)) ->
     w'.(rt_db).(t_instances) = delete helper.(ni_id) networked.(rt_db).(t_instances) /\
     w'.(rt_signals) = helper_signals helper ++ networked.(rt_signals)).
Proof.
  apply (network_released sample_roots devbox_row.(cr_config) attached helper networked).
  - apply networked_ok.
  - vm_compute. reflexivity.
  - vm_compute. reflexivity.
  - vm_compute. reflexivity.
  - vm_compute. reflexivity.
  - intros b. vm_compute. discriminate.
Defined.

(** ** Where the code departs from what it means to do *)

Definition named (name : string) : MachineCreateRequest := b_name (bstr name) devbox.

(** A machine may have a name of hexadecimal digits, and is not found by it: the reference is
    read as the beginning of an id. *)
Example hex_name_not_found :
  match create_machine_config sample_roots [] (named "cafe") (fresh []) with
  | (Ok c, w) => c.(mc_name) = bstr "cafe" /\ (get_machine (bstr "cafe") w).1 = Err (MachineNotFound (bstr "cafe"))
  | _ => False
  end.
Proof. vm_compute. split; reflexivity. Qed.

(** No processors are accepted when a machine is created, and refused when it is changed. *)
Example zero_cpus_created :
  match create_machine_config sample_roots [] (b_cpus 0 devbox) (fresh []) with
  | (Ok c, w) => (hw ← c.(mc_spec).(hardware); hw.(cpus)) = Some 0 /\
      (store_update at_rest 7 (u_cpus 0 u_new) w).1 = Err (InvalidMachineUpdate (simple 7) UpdateCpusZero)
  | _ => False
  end.
Proof. vm_compute. split; reflexivity. Qed.

(** A tag that was chosen for a mount without one can be the tag of another mount. *)
Example mount_tags_clash :
  let mounts := [mk_mount base_image [] false; mk_mount base_image (bstr "mount0") false] in
  mount_tag <$> assign_mount_tags mounts = [bstr "mount0"; bstr "mount0"].
Proof. vm_compute. reflexivity. Qed.
