(* ===== verification/Units.v ===== *)
(** * Sizes and hardware addresses

    [common/utils/src/lib.rs]: sizes as users write them, and the text of a MAC address. *)

From stdpp Require Import base list option numbers strings pretty.
From S2P Require Import Prelude Bytes Utf8 Str.

Definition BYTES_PER_MB : Z := 1000000.
Definition BYTES_PER_GB : Z := 1000000000.
Definition BYTES_PER_MIB : Z := 1024 * 1024.
Definition BYTES_PER_GIB : Z := 1024 * 1024 * 1024.

Inductive HumanSizeUnit : Type := Mb | Gb | Mib | Gib.
Record HumanSize := mk_size { quantity : Z; unit_of : HumanSizeUnit }.
Inductive SizeError : Type :=
| SizeTooLarge | MemorySizeTooLarge | MemorySizeZero | SizeRequired | NoQuantity | BadQuantity | UnitMissing | BadUnit.

Definition checked_mul64 (a b : Z) : option Z := if a * b <? 2 ^ 64 then Some (a * b) else None.
Definition bytes_multiplier (u : HumanSizeUnit) : Z :=
  match u with Mb => BYTES_PER_MB | Gb => BYTES_PER_GB | Mib => BYTES_PER_MIB | Gib => BYTES_PER_GIB end.
Definition storage_bytes_multiplier (u : HumanSizeUnit) : Z := match u with Mb | Mib => BYTES_PER_MIB | Gb | Gib => BYTES_PER_GIB end.
Definition memory_mib_multiplier (u : HumanSizeUnit) : Z := match u with Mb | Mib => 1 | Gb | Gib => 1024 end.
Definition size_bytes (s : HumanSize) : outcome SizeError Z := ok_or (checked_mul64 s.(quantity) (bytes_multiplier s.(unit_of))) SizeTooLarge.
Definition storage_bytes (s : HumanSize) : outcome SizeError Z := ok_or (checked_mul64 s.(quantity) (storage_bytes_multiplier s.(unit_of))) SizeTooLarge.
Definition memory_mib (s : HumanSize) : outcome SizeError Z :=
  mib <- ok_or (checked_mul64 s.(quantity) (memory_mib_multiplier s.(unit_of))) MemorySizeTooLarge ;;
  if mib =? 0 then Err MemorySizeZero else if mib <? 2 ^ 32 then Ok mib else Err MemorySizeTooLarge.

(** [HumanSizeUnit::parse] *)
Definition parse_unit (s : buffer) : outcome SizeError HumanSizeUnit :=
  let s := to_ascii_lowercase <$> s in
  if bool_decide (s = bstr "m") || bool_decide (s = bstr "mb") then Ok Mb
  else if bool_decide (s = bstr "g") || bool_decide (s = bstr "gb") then Ok Gb
  else if bool_decide (s = bstr "mib") then Ok Mib
  else if bool_decide (s = bstr "gib") then Ok Gib
  else Err BadUnit.

Fixpoint digits_len (s : buffer) : nat := match s with c :: s => if is_ascii_digit c then S (digits_len s) else 0%nat | [] => 0%nat end.
Definition parse_u64 : buffer -> option Z := parse_int 0 (2 ^ 64 - 1).

(** [HumanSize::from_str] *)
Definition size_from_str (input : buffer) : outcome SizeError HumanSize :=
  let input := trim input in
  if bool_decide (input = []) then Err SizeRequired
  else if bool_decide (digits_len input = 0%nat) then Err NoQuantity
  else
    quantity <- ok_or (parse_u64 (take (digits_len input) input)) BadQuantity ;;
    let unit := trim_start (drop (digits_len input) input) in
    if bool_decide (unit = []) then Err UnitMissing
    else if negb (forallb is_ascii_alphabetic unit) then Err BadUnit
    else u <- parse_unit unit ;; let size := mk_size quantity u in _ <- storage_bytes size ;; Ok size.

(** [Display] of both *)
Definition unit_text (u : HumanSizeUnit) : buffer := match u with Mb => bstr "mb" | Gb => bstr "gb" | Mib => bstr "mib" | Gib => bstr "gib" end.
Definition size_text (s : HumanSize) : buffer := bstr (pretty s.(quantity)) ++ unit_text s.(unit_of).

Definition format_binary_unit (bytes unit : Z) (suffix : buffer) : buffer :=
  let whole := bytes / unit in
  let remainder := bytes mod unit in
  if remainder =? 0 then bstr (pretty whole) ++ suffix
  else
    let hundredths := (remainder * 100 + unit / 2) / unit in
    if hundredths =? 100 then bstr (pretty (whole + 1)) ++ suffix
    else
      let tenths := hundredths / 10 in
      let hundredths := hundredths mod 10 in
      if hundredths =? 0 then bstr (pretty whole) ++ bstr "." ++ bstr (pretty tenths) ++ suffix
      else bstr (pretty whole) ++ bstr "." ++ bstr (pretty tenths) ++ bstr (pretty hundredths) ++ suffix.
Definition format_storage_size (bytes : Z) : buffer :=
  if BYTES_PER_GIB <=? bytes then format_binary_unit bytes BYTES_PER_GIB (bstr "GiB")
  else if BYTES_PER_MIB <=? bytes then format_binary_unit bytes BYTES_PER_MIB (bstr "MiB")
  else bstr (pretty bytes) ++ bstr "B".

(** ** Hardware addresses *)

(** [str::split] at an ASCII character *)
Fixpoint split_char (sep : Z) (s : buffer) : list buffer :=
  match s with
  | [] => [[]]
  | c :: s => if c =? sep then [] :: split_char sep s
              else match split_char sep s with p :: ps => (c :: p) :: ps | [] => [[c]] end
  end.

(** [{:02x}] of a byte, and [u8::from_str_radix(_, 16)], which takes a sign *)
Definition lower_hex (d : Z) : Z := if d <? 10 then 48 + d else 87 + d.
Definition hex2 (b : Z) : buffer := [lower_hex (Z.shiftr b 4); lower_hex (Z.land b 15)].
Definition hex_nibble (c : Z) : option Z :=
  if in_range 48 57 c then Some (c - 48) else if in_range 97 102 c then Some (c - 97 + 10) else if in_range 65 70 c then Some (c - 65 + 10) else None.
Definition hex_value (l : buffer) : option Z := fold_left (fun acc c => n ← acc; d ← hex_nibble c; Some (16 * n + d)) l (Some 0).
Definition u8_from_hex (s : buffer) : option Z :=
  let ds := match s with c :: (_ :: _) as ds => if c =? 43 then ds else s | _ => s end in
  match ds with [] => None | _ => v ← hex_value ds; if v <? 256 then Some v else None end.

Definition format_mac (mac : list Z) : buffer :=
  match mac with
  | [a; b; c; d; e; f] => hex2 a ++ 58 :: hex2 b ++ 58 :: hex2 c ++ 58 :: hex2 d ++ 58 :: hex2 e ++ 58 :: hex2 f
  | _ => []
  end.
Inductive MacError : Type := MacParts | MacByteLength (part : buffer) | MacByte (part : buffer) | MacMulticast.
Fixpoint parse_mac_bytes (parts : list buffer) : outcome MacError (list Z) :=
  match parts with
  | [] => Ok []
  | part :: parts =>
      if negb (zlen part =? 2) then Err (MacByteLength part)
      else b <- ok_or (u8_from_hex part) (MacByte part) ;; r <- parse_mac_bytes parts ;; Ok (b :: r)
  end.
Definition parse_mac (input : buffer) : outcome MacError (list Z) :=
  let parts := split_char 58 input in
  if negb (zlen parts =? 6) then Err MacParts
  else
    mac <- parse_mac_bytes parts ;;
    if negb (Z.land (default 0 (head mac)) 1 =? 0) then Err MacMulticast else Ok mac.

(** ** Numbers are read back *)

Lemma pretty_digit x : (x < 10)%N -> Z.of_N (Ascii.N_of_ascii (pretty_N_char x)) = 48 + Z.of_N x.
Proof. intros H. assert (x = 0 \/ x = 1 \/ x = 2 \/ x = 3 \/ x = 4 \/ x = 5 \/ x = 6 \/ x = 7 \/ x = 8 \/ x = 9)%N as Hx by lia. by repeat (destruct Hx as [->|Hx]); [..|subst]. Qed.
Lemma bstr_cons c s : bstr (String.String c s) = Z.of_N (Ascii.N_of_ascii c) :: bstr s.
Proof. done. Qed.
Lemma digits_acc l n : fold_left (fun n c => 10 * n + (c - 48)) l n = n * 10 ^ zlen l + digits_value l.
Proof.
  unfold digits_value, zlen. revert n. induction l as [|c l IH]; intros n; [simpl; lia|]. cbn [fold_left]. rewrite IH, (IH (10 * 0 + (c - 48))). simpl length.
  rewrite Nat2Z.inj_succ, Z.pow_succ_r by lia. ring.
Qed.
Lemma digits_cons c l : digits_value (c :: l) = (c - 48) * 10 ^ zlen l + digits_value l.
Proof. unfold digits_value at 1. cbn [fold_left]. rewrite digits_acc. ring. Qed.

Lemma pretty_go x s : Forall (fun c => is_ascii_digit c = true) (bstr s) ->
  Forall (fun c => is_ascii_digit c = true) (bstr (pretty_N_go x s)) /\
  digits_value (bstr (pretty_N_go x s)) = Z.of_N x * 10 ^ zlen (bstr s) + digits_value (bstr s) /\
  ((0 < x)%N \/ bstr s <> [] -> bstr (pretty_N_go x s) <> []).
Proof.
  revert s. induction (N.lt_wf_0 x) as [x _ IH]; intros s Hs. destruct (decide (x = 0)%N) as [->|Hx].
  { rewrite pretty_N_go_0. split_and!; [done|lia|]. intros [?|?]; [lia|done]. }
  rewrite pretty_N_go_step by lia. pose proof (N.mod_upper_bound x 10 ltac:(done)) as Hm.
  destruct (IH (x `div` 10)%N ltac:(apply N.div_lt; lia) (String.String (pretty_N_char (x `mod` 10)) s)) as (H1 & H2 & H3).
  { rewrite bstr_cons, pretty_digit by done. constructor; [|done]. revert Hm. generalize (x `mod` 10)%N. intros d Hm.
    unfold is_ascii_digit, in_range. apply andb_true_iff. split; apply Z.leb_le; lia. }
  split_and!; [done| |intros _; apply H3; right; by rewrite bstr_cons]. rewrite H2, bstr_cons, digits_cons, pretty_digit by done.
  replace (zlen ((48 + Z.of_N (x `mod` 10)) :: bstr s)) with (Z.succ (zlen (bstr s))) by (unfold zlen; simpl; lia).
  rewrite Z.pow_succ_r by (unfold zlen; lia). rewrite N2Z.inj_div, N2Z.inj_mod. pose proof (Z.div_mod (Z.of_N x) (Z.of_N 10) ltac:(done)) as E.
  change (Z.of_N 10) with 10 in *. nia.
Qed.
Lemma pretty_digits z : 0 <= z -> Forall (fun c => is_ascii_digit c = true) (bstr (pretty z)) /\ digits_value (bstr (pretty z)) = z /\ bstr (pretty z) <> [].
Proof.
  intros Hz. destruct z as [|p|p]; [by split_and!; [repeat constructor|..]| |lia].
  change (pretty (Zpos p)) with (pretty (Npos p)). unfold pretty, pretty_N. rewrite decide_False by done.
  destruct (pretty_go (Npos p) String.EmptyString) as (H1 & H2 & H3); [constructor|]. split_and!; [done| |apply H3; left; lia].
  rewrite H2. change (bstr String.EmptyString) with (@nil Z). unfold zlen, digits_value. simpl. lia.
Qed.
Lemma forallb_Forall_true {A} (f : A -> bool) l : Forall (fun c => f c = true) l -> forallb f l = true.
Proof. induction 1 as [|x l Hx _ IH]; [done|]. simpl. by rewrite Hx, IH. Qed.
Lemma parse_pretty lo hi z : 0 <= z -> lo <= z <= hi -> parse_int lo hi (bstr (pretty z)) = Some z.
Proof.
  intros Hz Hb. destruct (pretty_digits z Hz) as (Hd & Hv & Hn). unfold parse_int. destruct (bstr (pretty z)) as [|c s] eqn:E; [done|].
  pose proof Hd as Hd'. apply Forall_cons in Hd' as [Hc _]. unfold is_ascii_digit, in_range in Hc. apply andb_true_iff in Hc as [Hc _]. apply Z.leb_le in Hc.
  destruct (Z.eqb_spec c 43) as [|]; [lia|]. destruct (Z.eqb_spec c 45) as [|]; [lia|]. cbn [andb].
  rewrite bool_decide_eq_true_2 by done. rewrite forallb_Forall_true by done. cbn [andb]. rewrite Hv.
  by rewrite (proj2 (Z.leb_le lo z)), (proj2 (Z.leb_le z hi)) by lia.
Qed.

(** ** Texts are read back *)

Definition visible (s : buffer) : Prop := Forall (fun c => 33 <= c < 128) s.
Lemma ws_len_visible s : visible s -> ws_len s = 0%nat.
Proof.
  destruct s as [|c s]; [done|]. intros Hs. apply Forall_cons in Hs as [Hc _]. unfold ws_len, in_range.
  repeat (match goal with |- context [?a =? ?b] => is_var a; destruct (Z.eqb_spec a b) as [|]; [try lia|] end; cbn [andb orb]).
  all: destruct (Z.leb_spec c 13) as [|]; [lia|]; rewrite andb_false_r; cbn [orb]; repeat (case_match; try done).
Qed.
Lemma trim_start_visible s : visible s -> trim_start s = s.
Proof. intros Hs. unfold trim_start. destruct (length s); [done|]. simpl. by rewrite (ws_len_visible s Hs). Qed.
Lemma trim_visible s : visible s -> trim s = s.
Proof.
  intros Hs. unfold trim. rewrite trim_start_visible by done. destruct (length s) as [|n]; [done|]. simpl.
  assert (forall k, ws_len (drop k s) = 0%nat) as Hd by (intros k; apply ws_len_visible, Forall_drop, Hs). unfold ws_len_end. by rewrite !Hd.
Qed.

Lemma digits_len_app s t : Forall (fun c => is_ascii_digit c = true) s -> digits_len t = 0%nat -> digits_len (s ++ t) = length s.
Proof. induction 1 as [|c s Hc _ IH]; intros Ht; [done|]. simpl. by rewrite Hc, IH. Qed.
Lemma digit_visible c : is_ascii_digit c = true -> 33 <= c < 128.
Proof. unfold is_ascii_digit, in_range. intros H. apply andb_true_iff in H as [H1 H2]. apply Z.leb_le in H1, H2. lia. Qed.

(** A size is read back from its text. *)
Lemma size_roundtrip s : 0 <= s.(quantity) -> s.(quantity) * storage_bytes_multiplier s.(unit_of) < 2 ^ 64 -> size_from_str (size_text s) = Ok s.
Proof.
  destruct s as [q u]. simpl. intros Hq Hm. destruct (pretty_digits q Hq) as (Hd & _ & Hn).
  assert (0 < storage_bytes_multiplier u) as Hpos by (destruct u; vm_compute; reflexivity). assert (q < 2 ^ 64) as Hl by nia.
  assert (visible (unit_text u) /\ digits_len (unit_text u) = 0%nat /\ forallb is_ascii_alphabetic (unit_text u) = true /\
    unit_text u <> [] /\ parse_unit (unit_text u) = Ok u) as (Hv & H0 & Ha & Hne & Hp).
  { destruct u; split_and!; try (by vm_compute); repeat constructor; vm_compute; done. }
  unfold size_from_str, size_text. cbn [quantity unit_of]. rewrite trim_visible.
  2: { apply Forall_app. split; [|done]. eapply Forall_impl; [exact Hd|]. intros c. apply digit_visible. }
  rewrite bool_decide_eq_false_2 by (destruct (bstr (pretty q)); done). rewrite digits_len_app by done.
  rewrite bool_decide_eq_false_2 by (destruct (bstr (pretty q)); done). rewrite take_app_length, drop_app_length.
  unfold parse_u64. rewrite parse_pretty by lia. cbn [ok_or obind]. rewrite trim_start_visible by done.
  rewrite bool_decide_eq_false_2 by done. rewrite Ha. cbn [negb]. rewrite Hp. cbn [obind]. unfold storage_bytes, checked_mul64. cbn [quantity unit_of].
  by rewrite (proj2 (Z.ltb_lt _ _) Hm).
Qed.

Lemma split_char_none sep p : Forall (fun c => c <> sep) p -> split_char sep p = [p].
Proof. induction 1 as [|c p Hc _ IH]; [done|]. simpl. by rewrite (proj2 (Z.eqb_neq _ _) Hc), IH. Qed.
Lemma split_char_app sep p s : Forall (fun c => c <> sep) p -> split_char sep (p ++ sep :: s) = p :: split_char sep s.
Proof. induction 1 as [|c p Hc _ IH]; simpl; [by rewrite Z.eqb_refl|]. by rewrite (proj2 (Z.eqb_neq _ _) Hc), IH. Qed.

Lemma byte_cases (f : Z -> bool) b : uint 8 b -> forallb f (Z.of_nat <$> seq 0 256) = true -> f b = true.
Proof.
  intros Hb H. rewrite forallb_forall in H. apply H. apply list_elem_of_In, list_elem_of_fmap. exists (Z.to_nat b).
  unfold uint in Hb. change (2 ^ 8) with 256 in Hb. split; [lia|]. apply elem_of_seq. lia.
Qed.
Lemma hex2_back b : uint 8 b -> u8_from_hex (hex2 b) = Some b.
Proof. intros Hb. apply (bool_decide_eq_true_1 (u8_from_hex (hex2 b) = Some b)). apply (byte_cases (fun b => bool_decide (u8_from_hex (hex2 b) = Some b)) b Hb). vm_compute. reflexivity. Qed.
Lemma hex2_chars b : uint 8 b -> Forall (fun c => is_ascii_alphanumeric c = true) (hex2 b).
Proof.
  intros Hb. assert (forallb is_ascii_alphanumeric (hex2 b) = true) as H.
  { apply (byte_cases (fun b => forallb is_ascii_alphanumeric (hex2 b)) b Hb). vm_compute. reflexivity. }
  simpl in H. apply andb_true_iff in H as [H1 H2]. apply andb_true_iff in H2 as [H2 _]. by repeat constructor.
Qed.
Lemma alphanumeric_not sep c : is_ascii_alphanumeric sep = false -> is_ascii_alphanumeric c = true -> c <> sep.
Proof. intros Hs Hc ->. congruence. Qed.

(** A unicast address is read back from its text. *)
Lemma mac_roundtrip a b c d e f : Forall (uint 8) [a; b; c; d; e; f] -> Z.land a 1 = 0 -> parse_mac (format_mac [a; b; c; d; e; f]) = Ok [a; b; c; d; e; f].
Proof.
  intros Hm Ha. repeat (apply Forall_cons in Hm as [? Hm]).
  assert (forall x, uint 8 x -> Forall (fun c => c <> 58) (hex2 x)) as Hc.
  { intros x Hx. eapply Forall_impl; [apply (hex2_chars x Hx)|]. intros k Hk. by apply (alphanumeric_not 58 k). }
  unfold parse_mac, format_mac. rewrite !split_char_app, split_char_none by (by apply Hc).
  change (zlen [hex2 a; hex2 b; hex2 c; hex2 d; hex2 e; hex2 f] =? 6) with true. cbn [negb parse_mac_bytes].
  assert (forall x, (zlen (hex2 x) =? 2) = true) as H2' by done. rewrite !H2'. cbn [negb].
  rewrite !hex2_back by done. cbn [ok_or obind]. change (default 0 (head [a; b; c; d; e; f])) with a. by rewrite Ha.
Qed.
