(* ===== verification/Metadata.v ===== *)
(** * The metadata of a guest

    [specs/protocol/src/lib.rs]: the metadata configuration is a JSON object on the host and
    a protobuf [Struct] on the wire, whose numbers are all doubles.  The conversions, and the
    port of the guest's services on the kernel command line. *)

From stdpp Require Import base list option numbers strings pretty.
From S2P Require Import Prelude Bytes Utf8 Str.

(** ** Doubles *)

(** A double by its value: [m * 2 ^ e], the zero with a sign, and what is not finite. *)
Inductive f64 : Type := F64 (m e : Z) | NegZero | Infinite (negative : bool) | NaN.
Definition is_finite (f : f64) : bool := match f with F64 _ _ | NegZero => true | _ => false end.
(** [fract() == 0.0] *)
Definition is_integral (f : f64) : bool :=
  match f with F64 m e => (0 <=? e) || (m mod 2 ^ (- e) =? 0) | NegZero => true | _ => false end.
(** The part before the point *)
Definition truncated (f : f64) : Z :=
  match f with F64 m e => if 0 <=? e then m * 2 ^ e else Z.quot m (2 ^ (- e)) | _ => 0 end.
(** Of an integral value: [lo <= f && f <= hi] *)
Definition integral_between (lo hi : Z) (f : f64) : bool := (lo <=? truncated f) && (truncated f <=? hi).

(** [n as f64]: 53 bits, ties to even *)
Definition f64_of_int (n : Z) : f64 :=
  let a := Z.abs n in
  if a <? 2 ^ 53 then F64 n 0
  else
    let s := Z.log2 a - 52 in
    let q := a / 2 ^ s in let r := a mod 2 ^ s in let half := 2 ^ (s - 1) in
    let q := if (half <? r) || ((half =? r) && Z.odd q) then q + 1 else q in
    F64 (Z.sgn n * q) s.

(** ** JSON and protobuf values *)

(** [serde_json::Number]; a float is finite. *)
Inductive Number : Type := PosInt (n : Z) | NegInt (n : Z) | Float (f : f64).
Definition as_f64 (n : Number) : option f64 := match n with PosInt n | NegInt n => Some (f64_of_int n) | Float f => Some f end.
Definition as_i64 (n : Number) : option Z :=
  match n with PosInt n => if n <=? 2 ^ 63 - 1 then Some n else None | NegInt n => Some n | Float _ => None end.
Definition as_u64 (n : Number) : option Z := match n with PosInt n => Some n | _ => None end.
(** [Number::from(i64)], [Number::from_f64] *)
Definition number_of_i64 (n : Z) : Number := if n <? 0 then NegInt n else PosInt n.
Definition number_from_f64 (f : f64) : option Number := if is_finite f then Some (Float f) else None.

(** Objects by their entries, in the order of the keys: both kinds of map are [BTreeMap]s, and the
    conversions keep the keys. *)
Inductive json : Type :=
| JNull | JBool (b : bool) | JNumber (n : Number) | JString (s : buffer) | JArray (l : list json) | JObject (fields : list (buffer * json)).
Inductive pvalue : Type :=
| NoKind | NullValue | BoolValue (b : bool) | NumberValue (f : f64) | StringValue (s : buffer) | ListValue (l : list pvalue)
| StructValue (fields : list (buffer * pvalue)).
Abbreviation Struct := (list (buffer * pvalue)).

Inductive MetadataConfigError : Type :=
| TopLevelMustBeObject | UnsupportedNumber (n : Number) | UnsupportedDouble (f : f64) | MissingProtobufValueKind.

Definition JSON_MAX_SAFE_INTEGER : Z := 9007199254740991.
Definition JSON_MIN_SAFE_INTEGER : Z := - JSON_MAX_SAFE_INTEGER.
Definition safe_integer (n : Z) : bool := (JSON_MIN_SAFE_INTEGER <=? n) && (n <=? JSON_MAX_SAFE_INTEGER).

Definition json_number_to_protobuf (v : Number) : outcome MetadataConfigError f64 :=
  match as_f64 v with
  | None => Err (UnsupportedNumber v)
  | Some number =>
      if negb (is_finite number) then Err (UnsupportedNumber v)
      else if match as_i64 v with Some i => negb (safe_integer i) | None => false end then Err (UnsupportedNumber v)
      else if match as_u64 v with Some i => JSON_MAX_SAFE_INTEGER <? i | None => false end then Err (UnsupportedNumber v)
      else Ok number
  end.
Definition protobuf_number_to_json (f : f64) : outcome MetadataConfigError Number :=
  if negb (is_finite f) then Err (UnsupportedDouble f)
  else if is_integral f && integral_between JSON_MIN_SAFE_INTEGER JSON_MAX_SAFE_INTEGER f then Ok (number_of_i64 (truncated f))
  else ok_or (number_from_f64 f) (UnsupportedDouble f).

(** [collect] of results: the first error ends it. *)
Section Collect.
Context {E A B : Type} (f : A -> outcome E B).
Fixpoint collect (l : list A) : outcome E (list B) :=
  match l with [] => Ok [] | x :: l => y <- f x ;; r <- collect l ;; Ok (y :: r) end.
Fixpoint collect_fields (l : list (buffer * A)) : outcome E (list (buffer * B)) :=
  match l with [] => Ok [] | (k, x) :: l => y <- f x ;; r <- collect_fields l ;; Ok ((k, y) :: r) end.
End Collect.

Fixpoint serde_json_to_protobuf_value (v : json) : outcome MetadataConfigError pvalue :=
  match v with
  | JNull => Ok NullValue
  | JBool b => Ok (BoolValue b)
  | JNumber n => f <- json_number_to_protobuf n ;; Ok (NumberValue f)
  | JString s => Ok (StringValue s)
  | JArray l => r <- collect serde_json_to_protobuf_value l ;; Ok (ListValue r)
  | JObject fields => r <- collect_fields serde_json_to_protobuf_value fields ;; Ok (StructValue r)
  end.
Fixpoint protobuf_value_to_serde_json (v : pvalue) : outcome MetadataConfigError json :=
  match v with
  | NoKind => Err MissingProtobufValueKind
  | NullValue => Ok JNull
  | BoolValue b => Ok (JBool b)
  | NumberValue f => n <- protobuf_number_to_json f ;; Ok (JNumber n)
  | StringValue s => Ok (JString s)
  | ListValue l => r <- collect protobuf_value_to_serde_json l ;; Ok (JArray r)
  | StructValue fields => r <- collect_fields protobuf_value_to_serde_json fields ;; Ok (JObject r)
  end.
Definition serde_json_to_protobuf_struct (v : json) : outcome MetadataConfigError Struct :=
  match v with JObject fields => collect_fields serde_json_to_protobuf_value fields | _ => Err TopLevelMustBeObject end.
Definition protobuf_struct_to_serde_json (s : Struct) : outcome MetadataConfigError json :=
  r <- collect_fields protobuf_value_to_serde_json s ;; Ok (JObject r).

(** ** The port of the guest's services *)

Definition DEFAULT_GUEST_CONTROL_PORT : Z := 1027.
Definition KERNEL_PARAM_GUEST_PORT : buffer := bstr "bento.guest.port".
Definition guest_port_arg (port : Z) : buffer := KERNEL_PARAM_GUEST_PORT ++ bstr "=" ++ bstr (pretty port).
Definition parse_u32 : buffer -> option Z := parse_int 0 (2 ^ 32 - 1).
Fixpoint parse_guest_port_args (args : list buffer) : Z :=
  match args with
  | [] => DEFAULT_GUEST_CONTROL_PORT
  | arg :: args =>
      match strip_prefix (KERNEL_PARAM_GUEST_PORT ++ bstr "=") arg with
      | None => parse_guest_port_args args
      | Some raw_port =>
          match parse_u32 raw_port with
          | None => parse_guest_port_args args
          | Some port => if (1 <=? port) && (port <=? 65535) then port else parse_guest_port_args args
          end
      end
  end.

(** ** What the conversions keep *)

Section Induction.
Context (P : json -> Prop) (Hnull : P JNull) (Hbool : forall b, P (JBool b)) (Hnum : forall n, P (JNumber n)) (Hstr : forall s, P (JString s))
  (Harr : forall l, Forall P l -> P (JArray l)) (Hobj : forall l, Forall (fun kv => P kv.2) l -> P (JObject l)).
Fixpoint json_induction (v : json) : P v :=
  match v with
  | JNull => Hnull | JBool b => Hbool b | JNumber n => Hnum n | JString s => Hstr s
  | JArray l => Harr l ((fix go (l : list json) : Forall P l := match l with [] => Forall_nil_2 _ | x :: l => Forall_cons_2 _ _ _ (json_induction x) (go l) end) l)
  | JObject l => Hobj l ((fix go (l : list (buffer * json)) : Forall (fun kv => P kv.2) l :=
      match l with [] => Forall_nil_2 _ | x :: l => Forall_cons_2 _ _ _ (json_induction x.2) (go l) end) l)
  end.
End Induction.

(** A number as [serde_json] keeps it: of its width, and floats are finite. *)
Definition number_ok (n : Number) : bool :=
  match n with PosInt n => (0 <=? n) && (n <? 2 ^ 64) | NegInt n => (- 2 ^ 63 <=? n) && (n <? 0) | Float f => is_finite f end.
(** Numbers the wire can carry: no integer beyond what a double has exactly. *)
Definition number_fits (n : Number) : bool := match n with PosInt n | NegInt n => safe_integer n | Float _ => true end.
(** What comes back: a float that is a safe integer comes back as that integer. *)
Definition number_back (n : Number) : Number :=
  match n with
  | Float f => if is_integral f && safe_integer (truncated f) then number_of_i64 (truncated f) else Float f
  | n => n
  end.
Section Everywhere.
Context (p : Number -> bool).
Fixpoint numbers_all (v : json) : bool :=
  match v with
  | JNumber n => p n
  | JArray l => forallb numbers_all l
  | JObject fields => forallb (fun kv => numbers_all kv.2) fields
  | _ => true
  end.
End Everywhere.
Fixpoint comes_back (v : json) : json :=
  match v with
  | JNumber n => JNumber (number_back n)
  | JArray l => JArray (comes_back <$> l)
  | JObject fields => JObject ((fun kv => (kv.1, comes_back kv.2)) <$> fields)
  | v => v
  end.

Lemma number_roundtrip n : number_ok n = true ->
  match json_number_to_protobuf n with
  | Ok f => number_fits n = true /\ protobuf_number_to_json f = Ok (number_back n)
  | Err e => number_fits n = false /\ e = UnsupportedNumber n
  | Panic => False
  end.
Proof.
  assert (forall n, is_finite (f64_of_int n) = true) as Hfin by (intros k; unfold f64_of_int; by destruct (_ <? _)).
  assert (forall k, safe_integer k = true -> f64_of_int k = F64 k 0) as Hex.
  { intros k Hk. unfold safe_integer, JSON_MIN_SAFE_INTEGER, JSON_MAX_SAFE_INTEGER in Hk. apply andb_true_iff in Hk as [H1 H2]. apply Z.leb_le in H1, H2.
    unfold f64_of_int. destruct (Z.ltb_spec (Z.abs k) (2 ^ 53)) as [|Hl]; [done|]. change (2 ^ 53) with 9007199254740992 in Hl. lia. }
  assert (forall k, safe_integer k = true -> protobuf_number_to_json (F64 k 0) = Ok (number_of_i64 k)) as Hback.
  { intros k Hk. unfold protobuf_number_to_json, integral_between. simpl. rewrite Z.mul_1_r. unfold safe_integer in Hk. by rewrite Hk. }
  intros Hok. unfold json_number_to_protobuf. destruct n as [n|n|f]; simpl in *; rewrite ?Hfin; simpl.
  - apply andb_true_iff in Hok as [H1 H2]. apply Z.leb_le in H1. apply Z.ltb_lt in H2.
    destruct (safe_integer n) eqn:Hs.
    + pose proof Hs as Hs'. unfold safe_integer in Hs'. apply andb_true_iff in Hs' as [_ Hs']. apply Z.leb_le in Hs'.
      destruct (Z.leb_spec n (2 ^ 63 - 1)) as [|]; [|unfold JSON_MAX_SAFE_INTEGER in Hs'; lia]. rewrite Hs. simpl.
      destruct (Z.ltb_spec JSON_MAX_SAFE_INTEGER n) as [|]; [lia|]. split; [done|]. rewrite (Hex n Hs), (Hback n Hs).
      unfold number_of_i64. destruct (Z.ltb_spec n 0) as [|]; [lia|done].
    + assert (JSON_MAX_SAFE_INTEGER < n) as Hl.
      { unfold safe_integer in Hs. apply andb_false_iff in Hs as [Hs|Hs]; apply Z.leb_gt in Hs; [unfold JSON_MIN_SAFE_INTEGER, JSON_MAX_SAFE_INTEGER in *; lia|done]. }
      destruct (n <=? 2 ^ 63 - 1); rewrite ?Hs; simpl; [done|]. by rewrite (proj2 (Z.ltb_lt _ _) Hl).
  - apply andb_true_iff in Hok as [H1 H2]. apply Z.leb_le in H1. apply Z.ltb_lt in H2. destruct (safe_integer n) eqn:Hs; simpl; [|done].
    split; [done|]. rewrite (Hex n Hs), (Hback n Hs). unfold number_of_i64. by rewrite (proj2 (Z.ltb_lt _ _) H2).
  - rewrite Hok. simpl. split; [done|]. unfold protobuf_number_to_json. rewrite Hok. simpl. unfold integral_between, safe_integer.
    destruct (is_integral f && _); [done|]. unfold number_from_f64. by rewrite Hok.
Qed.
