(* ===== verification/MetadataSpec.v ===== *)
(** * The metadata of a guest: what arrives is what was meant

    Encoding succeeds exactly for objects whose integers a double has exactly, and decoding
    gives the object back; a float that is a whole number comes back as an integer. *)

From stdpp Require Import base list option numbers strings pretty.
From S2P Require Import Prelude Bytes Utf8 Str Metadata.

(** What one value's conversion does. *)
Definition carried (v : json) : Prop :=
  match serde_json_to_protobuf_value v with
  | Ok p => numbers_all number_fits v = true /\ protobuf_value_to_serde_json p = Ok (comes_back v)
  | Err e => numbers_all number_fits v = false /\ exists n, e = UnsupportedNumber n /\ number_fits n = false
  | Panic => False
  end.

Lemma collect_carried l : Forall carried l ->
  match collect serde_json_to_protobuf_value l with
  | Ok r => forallb (numbers_all number_fits) l = true /\ collect protobuf_value_to_serde_json r = Ok (comes_back <$> l)
  | Err e => forallb (numbers_all number_fits) l = false /\ exists n, e = UnsupportedNumber n /\ number_fits n = false
  | Panic => False
  end.
Proof.
  induction l as [|v l IH]; intros Hl; [done|]. apply Forall_cons in Hl as [Hv Hl]. specialize (IH Hl). unfold carried in Hv. simpl.
  destruct (serde_json_to_protobuf_value v) as [p|e|]; simpl; [|destruct Hv as [-> He]; by split|done]. destruct Hv as [-> Hp].
  destruct (collect serde_json_to_protobuf_value l) as [r|e|]; simpl; [|done|done]. destruct IH as [-> Hr]. split; [done|]. by rewrite Hp, Hr.
Qed.

Lemma collect_fields_carried l : Forall (fun kv => carried kv.2) l ->
  match collect_fields serde_json_to_protobuf_value l with
  | Ok r => forallb (fun kv => numbers_all number_fits kv.2) l = true /\
      collect_fields protobuf_value_to_serde_json r = Ok ((fun kv => (kv.1, comes_back kv.2)) <$> l)
  | Err e => forallb (fun kv => numbers_all number_fits kv.2) l = false /\ exists n, e = UnsupportedNumber n /\ number_fits n = false
  | Panic => False
  end.
Proof.
  induction l as [|[k v] l IH]; intros Hl; [done|]. apply Forall_cons in Hl as [Hv Hl]. specialize (IH Hl). unfold carried in Hv. simpl in *.
  destruct (serde_json_to_protobuf_value v) as [p|e|]; simpl; [|destruct Hv as [-> He]; by split|done]. destruct Hv as [-> Hp].
  destruct (collect_fields serde_json_to_protobuf_value l) as [r|e|]; simpl; [|done|done]. destruct IH as [-> Hr]. split; [done|]. by rewrite Hp, Hr.
Qed.

(** A part of a value whose numbers are well formed has well formed numbers. *)
Lemma Forall_forallb_impl {A} (f : A -> bool) (P : A -> Prop) l : Forall (fun x => f x = true -> P x) l -> forallb f l = true -> Forall P l.
Proof. induction l as [|x l IH]; [done|]. intros Hl Hb. apply Forall_cons in Hl as [Hx Hl]. apply andb_true_iff in Hb as [H1 H2]. constructor; auto. Qed.

Lemma value_carried v : numbers_all number_ok v = true -> carried v.
Proof.
  induction v as [|b|n|s|l IH|l IH] using json_induction; intros Hok; simpl in Hok; try done.
  - unfold carried. simpl. pose proof (number_roundtrip n Hok) as Hn. destruct (json_number_to_protobuf n) as [f|e|]; simpl; [|destruct Hn; eauto|done].
    destruct Hn as [Hf Hn]. split; [done|]. by rewrite Hn.
  - pose proof (collect_carried l (Forall_forallb_impl _ _ _ IH Hok)) as Hc. unfold carried. simpl.
    destruct (collect _ l) as [r|e|]; simpl; [|done|done]. destruct Hc as [Hf Hc]. split; [done|]. by rewrite Hc.
  - pose proof (collect_fields_carried l (Forall_forallb_impl _ _ _ IH Hok)) as Hc. unfold carried. simpl.
    destruct (collect_fields _ l) as [r|e|]; simpl; [|done|done]. destruct Hc as [Hf Hc]. split; [done|]. by rewrite Hc.
Qed.

(** Floats that are whole numbers in the safe range *)
Definition whole_float (n : Number) : bool := match n with Float f => is_integral f && safe_integer (truncated f) | _ => false end.
Lemma fmap_same {A} (f : A -> A) l : Forall (fun x => f x = x) l -> f <$> l = l.
Proof. induction 1 as [|x l Hx _ IH]; [done|]. by rewrite fmap_cons, Hx, IH. Qed.
Lemma comes_back_same v : numbers_all (fun n => negb (whole_float n)) v = true -> comes_back v = v.
Proof.
  induction v as [|b|n|s|l IH|l IH] using json_induction; intros Hw; simpl in *; try done.
  - destruct n as [n|n|f]; [done|done|]. simpl in *. by destruct (is_integral f && _).
  - f_equal. apply fmap_same. exact (Forall_forallb_impl _ _ _ IH Hw).
  - f_equal. apply fmap_same. pose proof (Forall_forallb_impl _ _ _ IH Hw) as Hl. eapply Forall_impl; [exact Hl|]. intros [k v] Hv. simpl in *. by rewrite Hv.
Qed.

(** C30 metadata_roundtrip: the metadata of a guest is encoded exactly if it is an object
    and has no integer outside the range in which doubles are exact, and then decoding gives
    that object back, where a float that is a whole number in that range comes back as that
    integer, and every other float as it was.  An object without such floats comes back unchanged.  What is refused is refused for one of these two reasons. *)
Theorem metadata_roundtrip v : numbers_all number_ok v = true ->
  match serde_json_to_protobuf_struct v with
  | Ok s => (exists fields, v = JObject fields) /\ numbers_all number_fits v = true /\ protobuf_struct_to_serde_json s = Ok (comes_back v) /\
      (numbers_all (fun n => negb (whole_float n)) v = true -> protobuf_struct_to_serde_json s = Ok v)
  | Err TopLevelMustBeObject => forall fields, v <> JObject fields
  | Err (UnsupportedNumber n) => numbers_all number_fits v = false /\ number_fits n = false
  | _ => False
  end.
Proof.
  intros Hok. pose proof (comes_back_same v) as Hs. destruct v as [|b|n|s|l|l]; try done. simpl in *.
  pose proof (collect_fields_carried l) as Hc. destruct (collect_fields serde_json_to_protobuf_value l) as [r|e|] eqn:E.
  - destruct Hc as [Hf Hc]. { apply (Forall_forallb_impl (fun kv => numbers_all number_ok kv.2)); [|done]. apply Forall_forall. intros kv _. apply value_carried. }
    unfold protobuf_struct_to_serde_json. rewrite Hc. simpl. split_and!; [by exists l|done|done|]. intros Hw. by rewrite (Hs Hw).
  - destruct Hc as (Hf & n & -> & Hn). { apply (Forall_forallb_impl (fun kv => numbers_all number_ok kv.2)); [|done]. apply Forall_forall. intros kv _. apply value_carried. }
    done.
  - apply Hc. apply (Forall_forallb_impl (fun kv => numbers_all number_ok kv.2)); [|done]. apply Forall_forall. intros kv _. apply value_carried.
Qed.

(** The value of the source's own test *)
Definition sample_metadata : json :=
  JObject [(bstr "forward", JObject [(bstr "enabled", JBool true); (bstr "port", JNumber (PosInt 4100));
             (bstr "uds", JArray [JObject [(bstr "guest_path", JString (bstr "/var/run/docker.sock"))]])]);
           (bstr "provision", JObject [(bstr "float", JNumber (Float (F64 3 (-1)))); (bstr "hostname", JString (bstr "demo")); (bstr "nothing", JNull)])].
Lemma metadata_roundtrip_witness : match serde_json_to_protobuf_struct sample_metadata with
  | Ok s => protobuf_struct_to_serde_json s = Ok sample_metadata
  | _ => False
  end.
Proof.
  assert (numbers_all number_ok sample_metadata = true) as Hok by (vm_compute; reflexivity). pose proof (metadata_roundtrip sample_metadata Hok) as H.
  destruct (serde_json_to_protobuf_struct sample_metadata) as [s|e|] eqn:E; [|vm_compute in E; discriminate|vm_compute in E; discriminate].
  destruct H as (_ & _ & _ & H). apply H. vm_compute. reflexivity.
Defined.
Example unsafe_integer_refused :
  serde_json_to_protobuf_struct (JObject [(bstr "too_big", JNumber (PosInt 9007199254740992))]) = Err (UnsupportedNumber (PosInt 9007199254740992)).
Proof. vm_compute. reflexivity. Qed.

(** A port is read back from the command line, behind arguments that are no ports. *)
Lemma guest_port_found args : Forall (fun a => strip_prefix (KERNEL_PARAM_GUEST_PORT ++ bstr "=") a = None) args ->
  parse_guest_port_args (args ++ [guest_port_arg DEFAULT_GUEST_CONTROL_PORT]) = DEFAULT_GUEST_CONTROL_PORT.
Proof. induction 1 as [|a l Ha _ IH]; [vm_compute; reflexivity|]. cbn [app parse_guest_port_args]. by rewrite Ha. Qed.
