(* ===== verification/Launch.v ===== *)
(** * Launching a machine

    How a stored machine becomes the configuration of a virtual machine: the specification
    is completed ([vmmon/launch_spec.rs], [machine/mounts.rs] of [runtime/libvm]), the network attachment becomes
    an argument ([network/mod.rs]), the monitor parses it ([startup.rs] of [runtime/vmmon]) and builds the
    configuration ([machine.rs], [ext.rs] there, [types.rs] of [virt/virt]); the result of the start comes back
    over a pipe ([launch.rs], [startup.rs]).  The host is Linux. *)

From stdpp Require Import base list option numbers strings gmap pretty.
From S2P Require Import Prelude Bytes Utf8 Str Paths HostFs MachineModel MachineDb Machines Units Metadata.

(** ** Paths as texts *)

Definition pathbuf_from (s : buffer) : PathBuf :=
  match components s with
  | c :: l => if bool_decide (c = root_path) then mk_pathbuf true l else mk_pathbuf false (c :: l)
  | [] => mk_pathbuf false []
  end.
Fixpoint join_slash (l : path) : buffer := match l with [] => [] | [c] => c | c :: l => c ++ slash :: join_slash l end.
(** The text of a path that is spelled without superfluous parts. *)
Definition pathbuf_text (p : PathBuf) : buffer := (if p.(pb_absolute) then [slash] else []) ++ join_slash p.(pb_components).
(** [join] below an absolute directory *)
Definition join_path (dir : path) (p : PathBuf) : PathBuf := if p.(pb_absolute) then p else mk_pathbuf true (dir ++ p.(pb_components)).
(** [Path::is_file] of an absolute path *)
Definition is_file (m : gmap path node) (p : PathBuf) : bool :=
  match walk m [] p.(pb_components) with inl q => match m !! q with Some (FsFile _) => true | _ => false end | inr _ => false end.

(** ** The launch specification *)

Inductive LaunchError : Type :=
| HomeUnknown | BadTilde (raw : buffer) | AssetMissing (p : PathBuf) | ManyNetworks | BadNetworkArg (value : buffer) | BadKeyValue (value : buffer)
| KernelPathMissing | KernelNotFile (p : PathBuf) | InitramfsNotFile (p : PathBuf) | BadMac (e : MacError) | InvalidMountTag (source : PathBuf).

Definition tilde : Z := 126.
(** [resolve_mount_location], on texts; [home] is the variable [HOME]. *)
Definition resolve_mount_location (home : option buffer) (raw : buffer) : outcome LaunchError buffer :=
  if bool_decide (raw = [tilde]) then ok_or home HomeUnknown
  else match strip_prefix [tilde; slash] raw with
       | Some rest => home <- ok_or home HomeUnknown ;; Ok (match rest with [] => home | _ => push home rest end)
       | None => if starts_with [tilde] raw then Err (BadTilde raw) else Ok raw
       end.
Fixpoint normalize_mount_sources (home : option buffer) (relative_mount_base : path) (l : list Mount) : outcome LaunchError (list Mount) :=
  match l with
  | [] => Ok []
  | mt :: l =>
      resolved <- resolve_mount_location home (pathbuf_text mt.(mount_source)) ;;
      r <- normalize_mount_sources home relative_mount_base l ;;
      Ok (mk_mount (join_path relative_mount_base (pathbuf_from resolved)) mt.(mount_tag) mt.(mount_read_only) :: r)
  end.

Definition spec_kernel (s : VmSpec) : option Kernel := b ← s.(boot); b.(boot_kernel).
Definition spec_initramfs (s : VmSpec) : option PathBuf := k ← spec_kernel s; k.(initramfs).
(** The assignment through [spec_kernel_mut] *)
Definition set_initramfs (p : PathBuf) (s : VmSpec) : VmSpec :=
  let b := default (mk_boot None None) s.(boot) in
  let k := default (mk_kernel None [] None) b.(boot_kernel) in
  mk_spec s.(spec_version) s.(guest) (Some (mk_boot (Some (mk_kernel k.(kernel_path) k.(cmdline) (Some p))) b.(boot_userdata)))
    s.(hardware) s.(storage) s.(mounts) s.(vsock) s.(annotations).
Definition with_mounts (l : list Mount) (s : VmSpec) : VmSpec :=
  mk_spec s.(spec_version) s.(guest) s.(boot) s.(hardware) s.(storage) l s.(vsock) s.(annotations).
Definition ASSET_INITRAMFS_FILENAME : buffer := bstr "initramfs".
Definition assets_dir (r : LocalRoots) : path := r.(data_root) ++ [bstr "assets"].
Definition require_asset (m : gmap path node) (p : PathBuf) : outcome LaunchError unit := if is_file m p then Ok tt else Err (AssetMissing p).
Definition prepare_default_initramfs (m : gmap path node) (roots : LocalRoots) (s : VmSpec) : outcome LaunchError VmSpec :=
  match spec_initramfs s with
  | Some _ => Ok s
  | None =>
      let p := mk_pathbuf true (assets_dir roots ++ [ASSET_INITRAMFS_FILENAME]) in
      _ <- require_asset m p ;; Ok (set_initramfs p s)
  end.
Definition prepare_launch_spec (m : gmap path node) (roots : LocalRoots) (home : option buffer) (relative_mount_base : path) (s : VmSpec) :
    outcome LaunchError VmSpec :=
  l <- normalize_mount_sources home relative_mount_base s.(mounts) ;;
  prepare_default_initramfs m roots (with_mounts l s).

(** ** The network argument *)

Inductive VmmonNetworkAttachment : Type := AttachNone | AttachVzNat (mac : option buffer) | AttachUnixDatagram (p : path) (mac : buffer).
Definition to_vmmon_arg (a : VmmonNetworkAttachment) : buffer :=
  match a with
  | AttachNone => bstr "none"
  | AttachVzNat None => bstr "vznat"
  | AttachVzNat (Some mac) => bstr "vznat,mac=" ++ mac
  | AttachUnixDatagram p mac => bstr "unixdg," ++ from_utf8_lossy (display_path p) ++ bstr ",mac=" ++ mac
  end.

Definition hex_byte (high low : option Z) : Z :=
  let nibble o := default 0 (c ← o; hex_nibble c) in Z.lor (Z.shiftl (nibble high) 4) (nibble low).
Definition mac_from_machine_id `{Uuids} (id : MachineId) : list Z :=
  let bytes := simple id in
  0x02 :: ((fun offset => hex_byte (bytes !! offset) (bytes !! (S offset))) <$> [0%nat; 2%nat; 4%nat; 6%nat; 8%nat]).

Inductive RuntimeNetwork : Type := RuntimeNone | RuntimeVzNat (mac : option buffer) | RuntimeUnixDatagram (p : PathBuf) (mac : buffer).
Definition parse_key_value (value key : buffer) : outcome LaunchError buffer :=
  match split_once 61 value with
  | None => Err (BadKeyValue value)
  | Some (actual_key, actual_value) =>
      if negb (bool_decide (actual_key = key)) || bool_decide (actual_value = []) then Err (BadKeyValue value) else Ok actual_value
  end.
Definition parse_network_arg (value : buffer) : outcome LaunchError RuntimeNetwork :=
  match split_char 44 value with
  | [kind] =>
      if bool_decide (kind = bstr "none") then Ok RuntimeNone
      else if bool_decide (kind = bstr "vznat") then Ok (RuntimeVzNat None) else Err (BadNetworkArg value)
  | [kind; option] =>
      if bool_decide (kind = bstr "vznat") then mac <- parse_key_value option (bstr "mac") ;; Ok (RuntimeVzNat (Some mac)) else Err (BadNetworkArg value)
  | [kind; p; mac] =>
      if bool_decide (kind = bstr "unixdg") then mac <- parse_key_value mac (bstr "mac") ;; Ok (RuntimeUnixDatagram (pathbuf_from p) mac)
      else Err (BadNetworkArg value)
  | _ => Err (BadNetworkArg value)
  end.
Definition parse_network_args (values : list buffer) : outcome LaunchError RuntimeNetwork :=
  match values with [] => Ok RuntimeNone | [value] => parse_network_arg value | _ => Err ManyNetworks end.

(** ** The configuration of the virtual machine *)

Record DiskImage := mk_image { image_path : PathBuf; image_read_only : bool }.
Record SharedDirectory := mk_shared { host_path : PathBuf; shared_tag : buffer; shared_read_only : bool }.
Inductive VsockPortMode : Type := PortConnect | PortListen.
Record VsockPort := mk_port { port : Z; port_mode : VsockPortMode }.
Inductive NetworkMode : Type :=
| NoNetwork | VzNatMode | UnixDatagramMode (peer_path : PathBuf) (mac : list Z) | UnixStreamMode (p : PathBuf) (mac : list Z) | TapMode (name : buffer) (mac : list Z).
Record VmConfig := mk_vm_config {
  vc_name : buffer; vm_id : buffer; vc_cpus : option Z; memory_mib : option Z; base_directory : PathBuf; vc_kernel : option PathBuf; vc_initramfs : option PathBuf; machine_identifier : option buffer; vc_nested : bool; vc_rosetta : bool; network : NetworkMode; kernel_cmdline : list buffer; vc_disks : list DiskImage; vc_mounts : list SharedDirectory; vsock_ports : list VsockPort }.
Definition new_vm_config : VmConfig := mk_vm_config [] [] None None (mk_pathbuf false []) None None None false false NoNetwork [] [] [] [].
(** [VmConfig::builder] and the methods of the builder *)
Definition cfg_builder (name : buffer) : VmConfig :=
  mk_vm_config (name) new_vm_config.(vm_id) new_vm_config.(vc_cpus) new_vm_config.(memory_mib) new_vm_config.(base_directory) new_vm_config.(vc_kernel) new_vm_config.(vc_initramfs) new_vm_config.(machine_identifier) new_vm_config.(vc_nested) new_vm_config.(vc_rosetta) new_vm_config.(network) new_vm_config.(kernel_cmdline) new_vm_config.(vc_disks) new_vm_config.(vc_mounts) new_vm_config.(vsock_ports).
Definition cfg_cpus (v : Z) (c : VmConfig) : VmConfig :=
  mk_vm_config c.(vc_name) c.(vm_id) (Some v) c.(memory_mib) c.(base_directory) c.(vc_kernel) c.(vc_initramfs)
    c.(machine_identifier) c.(vc_nested) c.(vc_rosetta) c.(network) c.(kernel_cmdline) c.(vc_disks) c.(vc_mounts) c.(vsock_ports).
Definition cfg_memory (v : Z) (c : VmConfig) : VmConfig :=
  mk_vm_config c.(vc_name) c.(vm_id) c.(vc_cpus) (Some v) c.(base_directory) c.(vc_kernel) c.(vc_initramfs) c.(machine_identifier)
    c.(vc_nested) c.(vc_rosetta) c.(network) c.(kernel_cmdline) c.(vc_disks) c.(vc_mounts) c.(vsock_ports).
Definition cfg_base_directory (v : PathBuf) (c : VmConfig) : VmConfig :=
  mk_vm_config c.(vc_name) c.(vm_id) c.(vc_cpus) c.(memory_mib) (v) c.(vc_kernel) c.(vc_initramfs) c.(machine_identifier)
    c.(vc_nested) c.(vc_rosetta) c.(network) c.(kernel_cmdline) c.(vc_disks) c.(vc_mounts) c.(vsock_ports).
Definition cfg_vm_id (v : buffer) (c : VmConfig) : VmConfig :=
  mk_vm_config c.(vc_name) (v) c.(vc_cpus) c.(memory_mib) c.(base_directory) c.(vc_kernel) c.(vc_initramfs) c.(machine_identifier)
    c.(vc_nested) c.(vc_rosetta) c.(network) c.(kernel_cmdline) c.(vc_disks) c.(vc_mounts) c.(vsock_ports).
Definition cfg_kernel (v : PathBuf) (c : VmConfig) : VmConfig :=
  mk_vm_config c.(vc_name) c.(vm_id) c.(vc_cpus) c.(memory_mib) c.(base_directory) (Some v) c.(vc_initramfs)
    c.(machine_identifier) c.(vc_nested) c.(vc_rosetta) c.(network) c.(kernel_cmdline) c.(vc_disks) c.(vc_mounts) c.(vsock_ports).
Definition cfg_initramfs (v : PathBuf) (c : VmConfig) : VmConfig :=
  mk_vm_config c.(vc_name) c.(vm_id) c.(vc_cpus) c.(memory_mib) c.(base_directory) c.(vc_kernel) (Some v) c.(machine_identifier)
    c.(vc_nested) c.(vc_rosetta) c.(network) c.(kernel_cmdline) c.(vc_disks) c.(vc_mounts) c.(vsock_ports).
Definition cfg_machine_identifier (v : buffer) (c : VmConfig) : VmConfig :=
  mk_vm_config c.(vc_name) c.(vm_id) c.(vc_cpus) c.(memory_mib) c.(base_directory) c.(vc_kernel) c.(vc_initramfs) (Some v)
    c.(vc_nested) c.(vc_rosetta) c.(network) c.(kernel_cmdline) c.(vc_disks) c.(vc_mounts) c.(vsock_ports).
Definition cfg_nested_virtualization (v : bool) (c : VmConfig) : VmConfig :=
  mk_vm_config c.(vc_name) c.(vm_id) c.(vc_cpus) c.(memory_mib) c.(base_directory) c.(vc_kernel) c.(vc_initramfs)
    c.(machine_identifier) (v) c.(vc_rosetta) c.(network) c.(kernel_cmdline) c.(vc_disks) c.(vc_mounts) c.(vsock_ports).
Definition cfg_rosetta (v : bool) (c : VmConfig) : VmConfig :=
  mk_vm_config c.(vc_name) c.(vm_id) c.(vc_cpus) c.(memory_mib) c.(base_directory) c.(vc_kernel) c.(vc_initramfs)
    c.(machine_identifier) c.(vc_nested) (v) c.(network) c.(kernel_cmdline) c.(vc_disks) c.(vc_mounts) c.(vsock_ports).
Definition cfg_network (v : NetworkMode) (c : VmConfig) : VmConfig :=
  mk_vm_config c.(vc_name) c.(vm_id) c.(vc_cpus) c.(memory_mib) c.(base_directory) c.(vc_kernel) c.(vc_initramfs)
    c.(machine_identifier) c.(vc_nested) c.(vc_rosetta) (v) c.(kernel_cmdline) c.(vc_disks) c.(vc_mounts) c.(vsock_ports).
Definition cfg_no_network (c : VmConfig) : VmConfig :=
  mk_vm_config c.(vc_name) c.(vm_id) c.(vc_cpus) c.(memory_mib) c.(base_directory) c.(vc_kernel) c.(vc_initramfs)
    c.(machine_identifier) c.(vc_nested) c.(vc_rosetta) (NoNetwork) c.(kernel_cmdline) c.(vc_disks) c.(vc_mounts) c.(vsock_ports).
Definition cfg_vz_nat_network (c : VmConfig) : VmConfig :=
  mk_vm_config c.(vc_name) c.(vm_id) c.(vc_cpus) c.(memory_mib) c.(base_directory) c.(vc_kernel) c.(vc_initramfs)
    c.(machine_identifier) c.(vc_nested) c.(vc_rosetta) (VzNatMode) c.(kernel_cmdline) c.(vc_disks) c.(vc_mounts) c.(vsock_ports).
Definition cfg_unix_datagram_network (peer_path : PathBuf) (mac : list Z) (c : VmConfig) : VmConfig :=
  mk_vm_config c.(vc_name) c.(vm_id) c.(vc_cpus) c.(memory_mib) c.(base_directory) c.(vc_kernel) c.(vc_initramfs)
    c.(machine_identifier) c.(vc_nested) c.(vc_rosetta) (UnixDatagramMode peer_path mac) c.(kernel_cmdline) c.(vc_disks)
    c.(vc_mounts) c.(vsock_ports).
Definition cfg_unix_stream_network (p : PathBuf) (mac : list Z) (c : VmConfig) : VmConfig :=
  mk_vm_config c.(vc_name) c.(vm_id) c.(vc_cpus) c.(memory_mib) c.(base_directory) c.(vc_kernel) c.(vc_initramfs)
    c.(machine_identifier) c.(vc_nested) c.(vc_rosetta) (UnixStreamMode p mac) c.(kernel_cmdline) c.(vc_disks) c.(vc_mounts)
    c.(vsock_ports).
Definition cfg_tap_network (name : buffer) (mac : list Z) (c : VmConfig) : VmConfig :=
  mk_vm_config c.(vc_name) c.(vm_id) c.(vc_cpus) c.(memory_mib) c.(base_directory) c.(vc_kernel) c.(vc_initramfs)
    c.(machine_identifier) c.(vc_nested) c.(vc_rosetta) (TapMode name mac) c.(kernel_cmdline) c.(vc_disks) c.(vc_mounts)
    c.(vsock_ports).
Definition cfg_kernel_cmdline (v : list buffer) (c : VmConfig) : VmConfig :=
  mk_vm_config c.(vc_name) c.(vm_id) c.(vc_cpus) c.(memory_mib) c.(base_directory) c.(vc_kernel) c.(vc_initramfs)
    c.(machine_identifier) c.(vc_nested) c.(vc_rosetta) c.(network) (v) c.(vc_disks) c.(vc_mounts) c.(vsock_ports).
Definition cfg_disk (v : DiskImage) (c : VmConfig) : VmConfig :=
  mk_vm_config c.(vc_name) c.(vm_id) c.(vc_cpus) c.(memory_mib) c.(base_directory) c.(vc_kernel) c.(vc_initramfs)
    c.(machine_identifier) c.(vc_nested) c.(vc_rosetta) c.(network) c.(kernel_cmdline) (c.(vc_disks) ++ [v]) c.(vc_mounts)
    c.(vsock_ports).
Definition cfg_mount (v : SharedDirectory) (c : VmConfig) : VmConfig :=
  mk_vm_config c.(vc_name) c.(vm_id) c.(vc_cpus) c.(memory_mib) c.(base_directory) c.(vc_kernel) c.(vc_initramfs)
    c.(machine_identifier) c.(vc_nested) c.(vc_rosetta) c.(network) c.(kernel_cmdline) c.(vc_disks) (c.(vc_mounts) ++ [v])
    c.(vsock_ports).
Definition cfg_vsock_port (v : VsockPort) (c : VmConfig) : VmConfig :=
  mk_vm_config c.(vc_name) c.(vm_id) c.(vc_cpus) c.(memory_mib) c.(base_directory) c.(vc_kernel) c.(vc_initramfs)
    c.(machine_identifier) c.(vc_nested) c.(vc_rosetta) c.(network) c.(kernel_cmdline) c.(vc_disks) c.(vc_mounts) (c.(vsock_ports)
    ++ [v]).

Definition GUEST_CONTROL_PORT : Z := 1027.
Definition SSH_VSOCK_PORT : Z := 22.

(** [VmSpecExt] *)
Definition cpus_or_default (s : VmSpec) : Z := default 1 (h ← s.(hardware); h.(cpus)).
Definition memory_or_default (s : VmSpec) : Z := default 512 (h ← s.(hardware); h.(memory)).
Definition nested_virtualization_or_default (s : VmSpec) : bool := default false (h ← s.(hardware); h.(nested_virtualization)).
Definition rosetta_or_default (s : VmSpec) : bool := default false (h ← s.(hardware); h.(rosetta)).

Definition resolve_spec_path (data_dir : path) (p : PathBuf) : PathBuf := join_path data_dir p.
Definition vm_spec_boot_assets (m : gmap path node) (data_dir : path) (s : VmSpec) : outcome LaunchError (PathBuf * option PathBuf) :=
  match k ← spec_kernel s; k.(kernel_path) with
  | None => Err KernelPathMissing
  | Some p =>
      let kernel := resolve_spec_path data_dir p in
      let initramfs := resolve_spec_path data_dir <$> spec_initramfs s in
      if negb (is_file m kernel) then Err (KernelNotFile kernel)
      else match initramfs with
           | Some i => if is_file m i then Ok (kernel, Some i) else Err (InitramfsNotFile i)
           | None => Ok (kernel, None)
           end
  end.
Definition vm_spec_kernel_cmdline (s : VmSpec) (guest_services_enabled : bool) : list buffer :=
  default [] (cmdline <$> spec_kernel s) ++ (if guest_services_enabled then [guest_port_arg GUEST_CONTROL_PORT] else []).
Definition map_vsock_endpoint_mode (md : VsockEndpointMode) : VsockPortMode := match md with Connect => PortConnect | Listen => PortListen end.
Definition vm_spec_vsock_ports (s : VmSpec) (guest_services_enabled : bool) : list VsockPort :=
  default [] ((fun v => (fun e => mk_port e.(endpoint_port) (map_vsock_endpoint_mode e.(endpoint_mode))) <$> v.(endpoints)) <$> s.(vsock)) ++
  (if guest_services_enabled then [mk_port GUEST_CONTROL_PORT PortListen; mk_port SSH_VSOCK_PORT PortConnect] else []).
Definition apply_runtime_network (n : RuntimeNetwork) (c : VmConfig) : outcome LaunchError VmConfig :=
  match n with
  | RuntimeNone => Ok (cfg_no_network c)
  | RuntimeVzNat _ => Ok (cfg_vz_nat_network c)
  | RuntimeUnixDatagram p mac => match parse_mac mac with Ok mac => Ok (cfg_unix_datagram_network p mac c) | Err e => Err (BadMac e) | Panic => Panic end
  end.
(** The loop over the mounts *)
Fixpoint add_mounts (l : list Mount) (c : VmConfig) : outcome LaunchError VmConfig :=
  match l with
  | [] => Ok c
  | mt :: l =>
      if bool_decide (trim mt.(mount_tag) = []) then Err (InvalidMountTag mt.(mount_source))
      else add_mounts l (cfg_mount (mk_shared mt.(mount_source) mt.(mount_tag) mt.(mount_read_only)) c)
  end.

Record VmSpecInputs := mk_inputs {
  in_name : buffer; in_id : buffer; in_data_dir : path; in_spec : VmSpec; in_network : RuntimeNetwork; in_guest_services : bool }.
Definition vm_spec_machine_config (m : gmap path node) (i : VmSpecInputs) : outcome LaunchError VmConfig :=
  assets <- vm_spec_boot_assets m i.(in_data_dir) i.(in_spec) ;;
  let c := cfg_rosetta (rosetta_or_default i.(in_spec)) (cfg_nested_virtualization (nested_virtualization_or_default i.(in_spec))
             (cfg_kernel_cmdline (vm_spec_kernel_cmdline i.(in_spec) i.(in_guest_services))
               (cfg_base_directory (mk_pathbuf true i.(in_data_dir)) (cfg_vm_id i.(in_id) (cfg_builder i.(in_name)))))) in
  c <- apply_runtime_network i.(in_network) c ;;
  let c := cfg_kernel assets.1 (cfg_memory (memory_or_default i.(in_spec)) (cfg_cpus (cpus_or_default i.(in_spec)) c)) in
  let c := match assets.2 with Some p => cfg_initramfs p c | None => c end in
  let c := foldl (fun c d => cfg_disk (mk_image (resolve_spec_path i.(in_data_dir) d.(disk_path)) d.(disk_read_only)) c) c
             (default [] (disks <$> i.(in_spec).(storage))) in
  c <- add_mounts i.(in_spec).(mounts) c ;;
  Ok (foldl (fun c p => cfg_vsock_port p c) c (vm_spec_vsock_ports i.(in_spec) i.(in_guest_services))).

(** [init]: the part before the machine is made; [metadata] says whether there is a metadata
    configuration, [wait] is how long the guest has to register. *)
Definition init_config (m : gmap path node) (dir : path) (id name : buffer) (network_args : list buffer) (metadata : bool) (wait : Z) (s : VmSpec) :
    outcome LaunchError VmConfig :=
  let guest_services_enabled := metadata || negb (wait =? 0) in
  network <- parse_network_args network_args ;;
  vm_spec_machine_config m (mk_inputs name id dir s network guest_services_enabled).

(** ** The result of the start *)

(** [SyncReporter]: the pipe, which is closed after one message *)
Record SyncReporter := mk_reporter { pipe_open : bool; pipe : buffer }.
Definition write_message (message : buffer) (r : SyncReporter) : SyncReporter :=
  if r.(pipe_open) then mk_reporter false (r.(pipe) ++ message) else r.
Definition report_started (r : SyncReporter) : SyncReporter := write_message (bstr "started" ++ [newline]) r.
Definition report_failed (message : buffer) (r : SyncReporter) : SyncReporter := write_message (bstr "failed" ++ [9] ++ message ++ [newline]) r.

Inductive StartupResult : Type := Started | StartFailed (message : buffer).
Inductive SyncError : Type := SyncEof | SyncUnexpected (input : buffer).
(** [read_line]: up to and with the first line feed *)
Fixpoint read_line (s : buffer) : buffer := match s with [] => [] | c :: s => if c =? newline then [c] else c :: read_line s end.
Definition trim_end (s : buffer) : buffer := trim_end_loop (length s) s.
Definition read_syncpipe (s : buffer) : outcome SyncError StartupResult :=
  let input := read_line s in
  if bool_decide (input = bstr "started" ++ [newline]) then Ok Started
  else match strip_prefix (bstr "failed" ++ [9]) input with
       | Some message => Ok (StartFailed (trim_end message))
       | None => if bool_decide (input = []) then Err SyncEof else Err (SyncUnexpected input)
       end.
