(* ===== verification/LaunchSpec.v ===== *)
(** * Launching a machine: the monitor gets what the library meant

    The theorem follows a created machine through the specification that is written for
    the monitor and the arguments it is started with, to the configuration of the virtual machine. *)

From stdpp Require Import base list option numbers strings gmap pretty.
From S2P Require Import Prelude Bytes Utf8 Str Paths HostFs MachineModel MachineDb Machines MachineWorld Units Metadata MetadataSpec Launch.

(** ** The network argument *)

Lemma hex_nibble_bound c n : hex_nibble c = Some n -> 0 <= n < 16.
Proof.
  unfold hex_nibble, in_range. intros H. repeat (case_match; simplify_eq);
    repeat match goal with E : (_ && _)%bool = true |- _ => apply andb_true_iff in E as [?%Z.leb_le ?%Z.leb_le] end; lia.
Qed.
Lemma hex_byte_uint high low : uint 8 (hex_byte high low).
Proof.
  assert (forall o, 0 <= default 0 (c ← o; hex_nibble c) < 16) as Hb.
  { intros [c|]; simpl; [|lia]. destruct (hex_nibble c) as [n|] eqn:E; simpl; [by apply hex_nibble_bound in E|lia]. }
  unfold hex_byte. pose proof (Hb high) as H1. pose proof (Hb low) as H2. revert H1 H2.
  generalize (default 0 (c ← high; hex_nibble c)) (default 0 (c ← low; hex_nibble c)). intros h l Hh Hl.
  rewrite Z.lor_comm, lor_shiftl_add; [|lia|unfold uint; lia|lia]. unfold uint. lia.
Qed.

Section Launches.
Context `{Uuids}.

Lemma mac_of_id id : exists a b c d e, mac_from_machine_id id = [2; a; b; c; d; e] /\ Forall (uint 8) [2; a; b; c; d; e].
Proof.
  unfold mac_from_machine_id. simpl. do 5 eexists. split; [reflexivity|]. repeat (constructor; [first [apply hex_byte_uint|unfold uint; lia]|]). constructor.
Qed.
(** The address made of an id is unicast, so it is read back. *)
Lemma mac_of_id_back id : parse_mac (format_mac (mac_from_machine_id id)) = Ok (mac_from_machine_id id).
Proof. destruct (mac_of_id id) as (a & b & c & d & e & -> & Hu). by apply mac_roundtrip. Qed.
Lemma format_mac_chars mac : Forall (uint 8) mac -> length mac = 6%nat -> Forall (fun c => is_ascii_alphanumeric c = true \/ c = 58) (format_mac mac).
Proof.
  intros Hu Hl. do 6 (destruct mac as [|? mac]; [done|]). destruct mac; [|done]. repeat (apply Forall_cons in Hu as [? Hu]).
  assert (forall x, uint 8 x -> Forall (fun c => is_ascii_alphanumeric c = true \/ c = 58) (hex2 x)) as Hx.
  { intros x Hx. eapply Forall_impl; [by apply hex2_chars|]. by left. }
  unfold format_mac. repeat first [by apply Hx|apply Forall_app; split|constructor; [by right|]].
Qed.
Lemma mac_text_ok id : Forall (fun c => c <> 44) (format_mac (mac_from_machine_id id)) /\ format_mac (mac_from_machine_id id) <> [].
Proof.
  destruct (mac_of_id id) as (a & b & c & d & e & E & Hu). rewrite E. split; [|done].
  eapply Forall_impl; [by apply format_mac_chars|]. intros k [Hk| ->]; [by apply (alphanumeric_not 44)|done].
Qed.

Lemma find_char c p s : Forall (fun x => x <> c) p -> find [c] (p ++ c :: s) = Some (length p).
Proof.
  induction 1 as [|x p Hx _ IH]; simpl; unfold starts_with; simpl.
  - rewrite Z.eqb_refl. by rewrite bool_decide_eq_true_2.
  - rewrite (proj2 (Z.eqb_neq c x)) by congruence. rewrite bool_decide_eq_false_2 by (by intros [? ?]). by rewrite IH.
Qed.
Lemma key_value_back key value : Forall (fun x => x <> 61) key -> value <> [] -> parse_key_value (key ++ 61 :: value) key = Ok value.
Proof.
  intros Hk Hv. unfold parse_key_value, split_once. rewrite find_char by done. simpl. rewrite take_app_length.
  replace (drop (S (length key)) (key ++ 61 :: value)) with value.
  - rewrite bool_decide_eq_true_2, bool_decide_eq_false_2 by done. done.
  - change (key ++ 61 :: value) with (key ++ [61] ++ value). rewrite app_assoc. replace (S (length key)) with (length (key ++ [61])) by (rewrite length_app; simpl; lia).
    by rewrite drop_app_length.
Qed.

(** The text of an absolute path of proper names is read back. *)
Lemma display_snoc p s : display_path (p ++ [s]) = display_path p ++ slash :: s.
Proof. unfold display_path. rewrite fmap_app, concat_app. simpl. by rewrite app_nil_r. Qed.
Lemma components_display p : p <> [] -> Forall name_ok p -> components (display_path p) = root_path :: p.
Proof.
  induction p as [|s p IH] using rev_ind; [done|]. intros _ Hp. apply Forall_app in Hp as [Hp Hs]. apply Forall_cons in Hs as [Hs _].
  rewrite display_snoc. destruct p as [|c p].
  - simpl. destruct Hs as (Hn & Hne & Hd). unfold components. rewrite Z.eqb_refl. cbn [split_slash]. rewrite Z.eqb_refl, (split_no_slash s Hn).
    rewrite bool_decide_eq_false_2 by done. cbn [app]. rewrite filter_cons_False by done. rewrite filter_cons_True by (by apply kept_name). done.
  - specialize (IH ltac:(done) Hp). change (display_path (c :: p)) with (slash :: c ++ display_path p) in *. cbn [app]. rewrite components_snoc by done. by rewrite IH.
Qed.

(** A path that survives as text: proper names in UTF-8. *)
Definition plain_path (p : path) : Prop := p <> [] /\ Forall name_ok p /\ utf8_valid (display_path p) = true.
Lemma plain_path_back p : plain_path p -> pathbuf_from (from_utf8_lossy (display_path p)) = mk_pathbuf true p.
Proof.
  intros (Hne & Hn & Hu). rewrite from_utf8_lossy_valid by done. unfold pathbuf_from. rewrite components_display by done. by rewrite bool_decide_eq_true_2.
Qed.

Lemma network_arg_back p id : 44 ∉ from_utf8_lossy (display_path p) ->
  parse_network_args [to_vmmon_arg (AttachUnixDatagram p (format_mac (mac_from_machine_id id)))] =
  Ok (RuntimeUnixDatagram (pathbuf_from (from_utf8_lossy (display_path p))) (format_mac (mac_from_machine_id id))).
Proof.
  destruct (mac_text_ok id) as [Hm Hm0]. revert Hm Hm0. generalize (format_mac (mac_from_machine_id id)). intros mac Hm Hm0.
  cbn [parse_network_args to_vmmon_arg]. generalize (from_utf8_lossy (display_path p)). intros text Hc. unfold parse_network_arg.
  replace (bstr "unixdg," ++ text ++ bstr ",mac=" ++ mac) with (bstr "unixdg" ++ 44 :: text ++ 44 :: bstr "mac" ++ 61 :: mac) by done.
  rewrite !split_char_app by first [by repeat constructor|apply Forall_forall; by intros ? ? ->].
  rewrite split_char_none by (apply Forall_app; split; [repeat constructor; done|constructor; done]).
  rewrite bool_decide_eq_true_2 by done. by rewrite key_value_back by first [done|by repeat constructor].
Qed.
(** A comma in the path makes too many fields. *)
Lemma split_char_length c s : length (split_char c s) = S (count_occ Z.eq_dec s c).
Proof.
  induction s as [|x s IH]; [done|]. cbn [split_char count_occ]. destruct (Z.eqb_spec x c), (Z.eq_dec x c); try done; simpl; [by rewrite IH|].
  by destruct (split_char c s).
Qed.
Lemma network_arg_refused p id : 44 ∈ from_utf8_lossy (display_path p) ->
  let arg := to_vmmon_arg (AttachUnixDatagram p (format_mac (mac_from_machine_id id))) in
  parse_network_args [arg] = Err (BadNetworkArg arg).
Proof.
  intros Hc arg. cbn [parse_network_args]. unfold parse_network_arg. assert (4 <= length (split_char 44 arg))%nat as Hl.
  { rewrite split_char_length. unfold arg. cbn [to_vmmon_arg]. rewrite !count_occ_app.
    apply list_elem_of_In, (count_occ_In Z.eq_dec) in Hc. change (count_occ Z.eq_dec (bstr "unixdg,") 44) with 1%nat.
    change (count_occ Z.eq_dec (bstr ",mac=") 44) with 1%nat. lia. }
  destruct (split_char 44 arg) as [|? [|? [|? [|? ?]]]]; simpl in Hl; first [lia|done].
Qed.
(** ** The configuration *)

#[local] Arguments mac_from_machine_id : simpl never.
#[local] Arguments parse_mac : simpl never.
#[local] Arguments format_mac : simpl never.
#[local] Arguments machine_dir_of : simpl never.

(** The fields that the loops extend. *)
Definition extended (c : VmConfig) (ds : list DiskImage) (ms : list SharedDirectory) (ps : list VsockPort) : VmConfig :=
  mk_vm_config c.(vc_name) c.(vm_id) c.(vc_cpus) c.(Launch.memory_mib) c.(base_directory) c.(vc_kernel) c.(vc_initramfs)
    c.(machine_identifier) c.(vc_nested) c.(vc_rosetta) c.(network) c.(kernel_cmdline)
    (c.(vc_disks) ++ ds) (c.(vc_mounts) ++ ms) (c.(vsock_ports) ++ ps).
Lemma extended_nil c : extended c [] [] [] = c.
Proof. destruct c. unfold extended. simpl. by rewrite !app_nil_r. Qed.
Lemma disks_added {A} (f : A -> DiskImage) l c : foldl (fun c d => cfg_disk (f d) c) c l = extended c (f <$> l) [] [].
Proof.
  revert c. induction l as [|d l IH]; intros c; [by rewrite extended_nil|]. simpl. rewrite IH. unfold extended. simpl. by rewrite <- app_assoc, !app_nil_r.
Qed.
Lemma ports_added l c : foldl (fun c p => cfg_vsock_port p c) c l = extended c [] [] l.
Proof.
  revert c. induction l as [|d l IH]; intros c; [by rewrite extended_nil|]. simpl. rewrite IH. unfold extended. simpl. by rewrite <- app_assoc, !app_nil_r.
Qed.
Definition share (mt : Mount) : SharedDirectory := mk_shared mt.(mount_source) mt.(mount_tag) mt.(mount_read_only).
Lemma mounts_added l c : Forall (fun mt => trim mt.(mount_tag) <> []) l -> add_mounts l c = Ok (extended c [] (share <$> l) []).
Proof.
  intros Hl. revert c. induction Hl as [|mt l Hm _ IH]; intros c; [by rewrite extended_nil|]. simpl. rewrite bool_decide_eq_false_2 by done.
  rewrite IH. unfold extended. simpl. by rewrite <- app_assoc, !app_nil_r.
Qed.

Lemma extended_all c ds ms ps : extended (extended (extended c ds [] []) [] ms []) [] [] ps = extended c ds ms ps.
Proof. unfold extended. simpl. by rewrite !app_nil_r. Qed.
(** The configuration before its network, and what the loops add to it. *)
Definition before_network (i : VmSpecInputs) : VmConfig :=
  cfg_rosetta (rosetta_or_default i.(in_spec)) (cfg_nested_virtualization (nested_virtualization_or_default i.(in_spec))
    (cfg_kernel_cmdline (vm_spec_kernel_cmdline i.(in_spec) i.(in_guest_services))
      (cfg_base_directory (mk_pathbuf true i.(in_data_dir)) (cfg_vm_id i.(in_id) (cfg_builder i.(in_name)))))).
Lemma config_built (m : gmap path node) i assets c0 : vm_spec_boot_assets m i.(in_data_dir) i.(in_spec) = Ok assets ->
  apply_runtime_network i.(in_network) (before_network i) = Ok c0 -> Forall (fun mt => trim mt.(mount_tag) <> []) i.(in_spec).(mounts) ->
  vm_spec_machine_config m i = Ok (extended
    (match assets.2 with Some p => cfg_initramfs p | None => id end (cfg_kernel assets.1 (cfg_memory (memory_or_default i.(in_spec)) (cfg_cpus (cpus_or_default i.(in_spec)) c0))))
    ((fun d => mk_image (resolve_spec_path i.(in_data_dir) d.(disk_path)) d.(disk_read_only)) <$> default [] (disks <$> i.(in_spec).(storage)))
    (share <$> i.(in_spec).(mounts)) (vm_spec_vsock_ports i.(in_spec) i.(in_guest_services))).
Proof.
  intros Ha Hn Hm. unfold vm_spec_machine_config. rewrite Ha. cbn [obind]. fold (before_network i). rewrite Hn. cbn [obind].
  rewrite (disks_added (fun d => mk_image (resolve_spec_path i.(in_data_dir) d.(disk_path)) d.(disk_read_only))). rewrite mounts_added by done. cbn [obind].
  rewrite ports_added, extended_all. by destruct assets.2.
Qed.

(** The fields of what is built *)
Lemma built_fields i kernel rd p mac ds ms ps :
  let c := extended (cfg_initramfs rd (cfg_kernel kernel (cfg_memory (memory_or_default i.(in_spec)) (cfg_cpus (cpus_or_default i.(in_spec))
             (cfg_unix_datagram_network p mac (before_network i)))))) ds ms ps in
  (c.(vc_disks) = ds /\ c.(vc_mounts) = ms /\ c.(vsock_ports) = ps) /\ (c.(vc_kernel) = Some kernel /\ c.(vc_initramfs) = Some rd) /\
  (c.(vc_cpus) = Some (cpus_or_default i.(in_spec)) /\ c.(Launch.memory_mib) = Some (memory_or_default i.(in_spec)) /\
   c.(vc_nested) = nested_virtualization_or_default i.(in_spec) /\ c.(vc_rosetta) = rosetta_or_default i.(in_spec)) /\
  c.(network) = UnixDatagramMode p mac /\ c.(kernel_cmdline) = vm_spec_kernel_cmdline i.(in_spec) i.(in_guest_services).
Proof. by split_and!. Qed.

(** Normalizing keeps tags and flags, and makes sources absolute. *)
Lemma normalized home base l l' : normalize_mount_sources home base l = Ok l' ->
  mount_tag <$> l' = mount_tag <$> l /\ mount_read_only <$> l' = mount_read_only <$> l /\ Forall (fun mt => mt.(mount_source).(pb_absolute) = true) l'.
Proof.
  revert l'. induction l as [|mt l IH]; intros l' E; simpl in E; [by simplify_eq|]. destruct (resolve_mount_location _ _) as [res|e|]; [|done|done]. simpl in E.
  destruct (normalize_mount_sources home base l) as [r|e|]; [|done|done]. simpl in E. simplify_eq. destruct (IH r eq_refl) as (Ht & Hr & Ha).
  rewrite !fmap_cons, Ht, Hr. split_and!; [done|done|]. constructor; [|done]. cbn [mount_source]. unfold join_path.
  destruct (pb_absolute (pathbuf_from res)) eqn:Eb; [exact Eb|reflexivity].
Qed.
(** A mount of a created machine has a tag. *)
Lemma assigned_tags l : Forall (fun mt => trim mt.(mount_tag) <> []) (assign_mount_tags l).
Proof.
  unfold assign_mount_tags. apply Forall_lookup. intros i mt. rewrite list_lookup_imap. destruct (l !! i) as [x|]; [|done]. simpl. intros E. simplify_eq.
  destruct (trim (mount_tag x)) eqn:Et; [|by rewrite Et]. simpl. destruct (pretty_digits (Z.of_nat i) ltac:(lia)) as (Hd & _ & _).
  change (pretty i) with (pretty (N.of_nat i)). replace (pretty (N.of_nat i)) with (pretty (Z.of_nat i)) by (by destruct i).
  change (trim (bstr "mount" ++ bstr (pretty (Z.of_nat i))) <> []). rewrite trim_visible; [done|]. apply Forall_app. split; [repeat (constructor; [by vm_compute|]); constructor|].
  eapply Forall_impl; [exact Hd|]. intros c. apply digit_visible.
Qed.
Lemma tags_transfer (l l' : list Mount) : mount_tag <$> l' = mount_tag <$> l -> Forall (fun mt => trim mt.(mount_tag) <> []) l -> Forall (fun mt => trim mt.(mount_tag) <> []) l'.
Proof.
  intros E Hl. apply (Forall_fmap mount_tag (fun t => trim t <> []) l') . rewrite E. by apply (Forall_fmap mount_tag (fun t => trim t <> []) l).
Qed.

(** A created machine's specification with its mounts normalized and an initial RAM disk *)
Definition prepared (r : MachineCreateRequest) (kernel rd : PathBuf) (disk_paths : list PathBuf) (mem : Z) (l : list Mount) : VmSpec :=
  with_mounts l (request_spec r (Some kernel) (Some rd) disk_paths mem).
Lemma initramfs_prepared (m : gmap path node) roots r kernel initr disk_paths mem l spec :
  (forall p, initr = Some p -> p.(pb_absolute) = true /\ is_file m p = true) ->
  prepare_default_initramfs m roots (with_mounts l (request_spec r (Some kernel) initr disk_paths mem)) = Ok spec ->
  let rd := default (mk_pathbuf true (assets_dir roots ++ [ASSET_INITRAMFS_FILENAME])) initr in
  spec = prepared r kernel rd disk_paths mem l /\ rd.(pb_absolute) = true /\ is_file m rd = true.
Proof.
  intros Hi Hp. unfold prepare_default_initramfs in Hp. destruct initr as [p|].
  - destruct (Hi p eq_refl) as [Hp1 Hp2]. change (spec_initramfs _) with (Some p) in Hp. cbv iota in Hp.
    assert (spec = with_mounts l (request_spec r (Some kernel) (Some p) disk_paths mem)) as -> by congruence. split_and!; [reflexivity|exact Hp1|exact Hp2].
  - change (spec_initramfs _) with (@None PathBuf) in Hp. cbv iota in Hp. unfold require_asset in Hp. cbv zeta.
    change (default ?d None) with d. revert Hp. destruct (is_file m _) eqn:Ef; [|done]. cbn [obind]. intros Hp.
    split_and!; [|reflexivity|reflexivity]. transitivity (set_initramfs (mk_pathbuf true (assets_dir roots ++ [ASSET_INITRAMFS_FILENAME]))
      (with_mounts l (request_spec r (Some kernel) None disk_paths mem))); [congruence|reflexivity].
Qed.

(** C25 launch_config: a created machine is launched as it was asked for.  Its stored
    specification is prepared and given to the monitor, with the socket of its network as an argument.  Where kernel and initial
    RAM disk are files at absolute paths, as they are stored, the monitor builds a configuration whose first disk is the root disk in the machine's own
    directory, followed by the disks of the request, all writable; with the kernel, the processors, the memory and
    the flags of the request; with the tags and flags of its mounts, whose sources are absolute; with the
    socket of the network, as its path is displayed, and the unicast address made of the machine's id; and, where guest services are
    enabled, with the ports of those services, which the guest finds on its command line.  The socket is
    the one of the network where its path is UTF-8; where the path has a comma, which separates the
    fields of the argument, the monitor refuses to start with an error that names the argument. *)
Theorem launch_config (m : gmap path node) roots home base id name r kernel initr disk_paths mem sock metadata wait spec :
  kernel.(pb_absolute) = true -> Forall (fun p => p.(pb_absolute) = true) disk_paths -> (forall p, initr = Some p -> p.(pb_absolute) = true /\ is_file m p = true) ->
  is_file m kernel = true ->
  prepare_launch_spec m roots home base (request_spec r (Some kernel) initr disk_paths mem) = Ok spec ->
  let dir := machine_dir_of roots id in
  let mac := mac_from_machine_id id in
  let services := metadata || negb (wait =? 0) in
  let arg := to_vmmon_arg (AttachUnixDatagram sock (format_mac mac)) in
  let socket_text := from_utf8_lossy (display_path sock) in
  (plain_path sock -> pathbuf_from socket_text = mk_pathbuf true sock) /\
  match init_config m dir (simple id) name [arg] metadata wait spec with
  | Ok c =>
      44 ∉ socket_text /\
      c.(vc_disks) = mk_image (mk_pathbuf true (root_disk_path dir)) false :: ((fun p => mk_image p false) <$> disk_paths) /\
      (c.(vc_kernel) = Some kernel /\ c.(vc_initramfs) = Some (default (mk_pathbuf true (assets_dir roots ++ [ASSET_INITRAMFS_FILENAME])) initr)) /\
      (c.(vc_cpus) = Some (default DEFAULT_IMAGE_CPUS r.(rq_cpus)) /\ c.(Launch.memory_mib) = Some mem /\
       c.(vc_nested) = r.(rq_nested_virtualization) /\ c.(vc_rosetta) = r.(rq_rosetta)) /\
      (Forall (fun s => s.(host_path).(pb_absolute) = true) c.(vc_mounts) /\
       shared_tag <$> c.(vc_mounts) = mount_tag <$> assign_mount_tags r.(rq_mounts) /\
       shared_read_only <$> c.(vc_mounts) = mount_read_only <$> assign_mount_tags r.(rq_mounts)) /\
      (c.(network) = UnixDatagramMode (pathbuf_from socket_text) mac /\ Z.land (default 0 (head mac)) 1 = 0) /\
      (if services then c.(vsock_ports) = [mk_port GUEST_CONTROL_PORT PortListen; mk_port SSH_VSOCK_PORT PortConnect] /\
         parse_guest_port_args c.(kernel_cmdline) = GUEST_CONTROL_PORT
       else c.(vsock_ports) = [])
  | Err e => 44 ∈ socket_text /\ e = BadNetworkArg arg
  | Panic => False
  end.
Proof.
  intros Hk Hd Hi Hkf Hp dir mac services arg socket_text. split; [apply plain_path_back|].
  destruct (decide (44 ∈ socket_text)) as [Hcomma|Hs]; [unfold init_config, arg, mac; by rewrite (network_arg_refused sock id Hcomma)|].
  unfold prepare_launch_spec in Hp. cbn [mounts request_spec] in Hp.
  destruct (normalize_mount_sources _ _ _) as [l|e|] eqn:El; [|done|done]. cbn [obind] in Hp. destruct (normalized _ _ _ _ El) as (Ht & Hr & Ha).
  pose proof (tags_transfer _ _ Ht (assigned_tags r.(rq_mounts))) as Hl.
  set (rd := default (mk_pathbuf true (assets_dir roots ++ [ASSET_INITRAMFS_FILENAME])) initr).
  destruct (initramfs_prepared m roots r kernel initr disk_paths mem l spec Hi Hp) as (-> & Hra & Hrf). fold rd in Hra, Hrf |- *.
  subst mac dir arg. unfold init_config. rewrite network_arg_back by done. cbn [obind]. fold socket_text. fold services. pose proof (mac_of_id_back id) as Hmb.
  assert (Z.land (default 0 (head (mac_from_machine_id id))) 1 = 0) as Hodd by done.
  generalize dependent (mac_from_machine_id id). intros mac Hmb Hodd.
  match goal with |- context [vm_spec_machine_config m ?i] =>
    rewrite (config_built m i (kernel, Some rd) (cfg_unix_datagram_network (pathbuf_from socket_text) mac (before_network i))); [| | |exact Hl] end.
  - cbn [fst snd]. match goal with |- context [extended (cfg_initramfs _ (cfg_kernel _ (cfg_memory _ (cfg_cpus _ (cfg_unix_datagram_network _ _ (before_network ?i)))))) ?ds ?ms ?ps] =>
      pose proof (built_fields i kernel rd (pathbuf_from socket_text) mac ds ms ps) as Hf end. cbv zeta in Hf. cbn [in_spec in_data_dir in_guest_services] in Hf |- *.
    match type of Hf with context [vc_disks ?x] => generalize dependent x end. intros c ((-> & -> & ->) & (-> & ->) & (-> & -> & -> & ->) & -> & ->).
    split_and!; try reflexivity.
    + exact Hs.
    + change (default [] (disks <$> storage (prepared r kernel rd disk_paths mem l))) with
        (mk_disk root_disk_relative_path false :: ((fun p => mk_disk p false) <$> disk_paths)).
      rewrite fmap_cons. f_equal. rewrite <- list_fmap_compose. clear -Hd. induction Hd as [|p ds Hp _ IH]; [done|].
      rewrite !fmap_cons, IH. simpl. unfold resolve_spec_path, join_path. by rewrite Hp.
    + apply Forall_fmap. eapply Forall_impl; [exact Ha|]. done.
    + rewrite <- Ht, <- list_fmap_compose. done.
    + rewrite <- Hr, <- list_fmap_compose. done.
    + exact Hodd.
    + destruct services; [|reflexivity]. split; [reflexivity|]. apply (guest_port_found [ROOT_DISK_KERNEL_ARG]). by repeat constructor.
  - unfold vm_spec_boot_assets, spec_initramfs. cbn [in_spec in_data_dir].
    assert (spec_kernel (prepared r kernel rd disk_paths mem l) = Some (mk_kernel (Some kernel) [ROOT_DISK_KERNEL_ARG] (Some rd))) as -> by reflexivity.
    cbn. unfold resolve_spec_path, join_path. rewrite Hk, Hkf, Hra, Hrf. reflexivity.
  - cbn [in_network apply_runtime_network]. by rewrite Hmb.
Qed.
End Launches.

(** ** The result of the start *)

Lemma read_line_app s t : Forall (fun c => c <> newline) s -> read_line (s ++ newline :: t) = s ++ [newline].
Proof. induction 1 as [|c s Hc _ IH]; [done|]. simpl. by rewrite (proj2 (Z.eqb_neq c newline) Hc), IH. Qed.
(** The first report is the one that arrives; a failure arrives without the white space at its end. *)
Lemma report_arrives message later : Forall (fun c => c <> newline) message ->
  read_syncpipe (report_failed later (report_started (mk_reporter true []))).(pipe) = Ok Started /\
  read_syncpipe (report_started (report_failed message (mk_reporter true []))).(pipe) = Ok (StartFailed (trim_end (message ++ [newline]))).
Proof.
  intros Hm. split; [reflexivity|].
  change (read_syncpipe (((bstr "failed" ++ [9]) ++ message) ++ newline :: []) = Ok (StartFailed (trim_end (message ++ [newline])))).
  unfold read_syncpipe. rewrite read_line_app by (apply Forall_app; split; [by repeat constructor|done]).
  rewrite bool_decide_eq_false_2 by done. reflexivity.
Qed.

(** ** A machine *)

Definition launch_request : MachineCreateRequest :=
  b_mounts [mk_mount (mk_pathbuf false [bstr "~"; bstr "src"]) [] false; mk_mount (mk_pathbuf false [bstr "data"]) (bstr "data") true]
    (b_cpus 4 (b_new (bstr "debian") base_image)).
Definition kernel_file : PathBuf := mk_pathbuf true [bstr "vmlinuz"].
Definition launch_disk : gmap path node :=
  <[[bstr "vmlinuz"] := FsFile [1]]> (<[[bstr "d"] := FsDir]> (<[[bstr "d"; bstr "assets"] := FsDir]> (<[[bstr "d"; bstr "assets"; bstr "initramfs"] := FsFile [2]]> ∅))).
Definition netd_socket : path := [bstr "r"; bstr "net"; bstr "n1"; bstr "netd.sock"].
#[local] Existing Instance sample_uuids.
Definition launched : outcome LaunchError VmSpec :=
  prepare_launch_spec launch_disk sample_roots (Some (bstr "/home/me")) [bstr "work"] (request_spec launch_request (Some kernel_file) None [] 4096).
Lemma launch_config_witness :
  match launched with
  | Ok spec =>
      match init_config launch_disk (machine_dir_of sample_roots 7) (simple 7) (bstr "devbox")
              [to_vmmon_arg (AttachUnixDatagram netd_socket (format_mac (mac_from_machine_id 7)))] true 30 spec with
      | Ok c => c.(vc_disks) = [mk_image (mk_pathbuf true (root_disk_path (machine_dir_of sample_roots 7))) false] /\
          host_path <$> c.(vc_mounts) = [mk_pathbuf true [bstr "home"; bstr "me"; bstr "src"]; mk_pathbuf true [bstr "work"; bstr "data"]]
      | _ => False
      end
  | _ => False
  end.
Proof.
  destruct launched as [spec|e|] eqn:E; [|vm_compute in E; discriminate|vm_compute in E; discriminate].
  pose proof (launch_config launch_disk sample_roots (Some (bstr "/home/me")) [bstr "work"] 7 (bstr "devbox") launch_request kernel_file None [] 4096 netd_socket true 30 spec
    ltac:(reflexivity) ltac:(constructor) ltac:(discriminate) ltac:(vm_compute; reflexivity) E) as [_ Hc].
  revert Hc. assert (spec = match launched with Ok s => s | _ => current end) as Es by (by rewrite E). clear E.
  destruct (init_config _ _ _ _ _ _ _ _) as [c|e|] eqn:Ec; [|intros [Hin _]; exfalso; revert Hin; vm_compute; set_solver|done]. intros (_ & Hd & _). split; [exact Hd|].
  subst spec. vm_compute in Ec. by simplify_eq.
Defined.

(** ** Where the code departs from what it means to do *)

(** A comma in the path of the socket makes an argument that the monitor refuses. *)
Example comma_breaks_network :
  parse_network_args [to_vmmon_arg (AttachUnixDatagram [bstr "data,old"; bstr "netd.sock"] (format_mac [2; 0; 0; 0; 0; 1]))] =
  Err (BadNetworkArg (bstr "unixdg,/data,old/netd.sock,mac=02:00:00:00:00:01")).
Proof. vm_compute. reflexivity. Qed.
(** A byte of an address is read as a number with an optional sign. *)
Example signed_mac_byte : parse_mac (bstr "+2:00:00:00:00:01") = Ok [2; 0; 0; 0; 0; 1].
Proof. vm_compute. reflexivity. Qed.
(** What follows [~/] replaces the home directory where it starts with a slash. *)
Example tilde_leaves_home : resolve_mount_location (Some (bstr "/home/me")) (bstr "~//etc") = Ok (bstr "/etc").
Proof. vm_compute. reflexivity. Qed.
(** Of a failure with several lines the first arrives. *)
Example failure_cut :
  read_syncpipe (report_failed (bstr "open disk" ++ [newline] ++ bstr "permission denied") (mk_reporter true [])).(pipe) = Ok (StartFailed (bstr "open disk")).
Proof. vm_compute. reflexivity. Qed.
