(* ===== verification/NetDriver.v ===== *)
(** * Networks of machines

    [network/mod.rs], [network/core.rs], [network/netd_driver.rs], [network/vznat_driver.rs] and [network/policy.rs] of
    [runtime/libvm]: before a machine starts, its network is prepared.  A private network gets a helper
    process of its own; a named one is shared by the machines on it.  The start of a helper is
    guarded: when anything fails it is stopped and its files are removed.  The helper's behaviour, the
    certificate authority and JSON are parameters. *)

From stdpp Require Import base list option numbers strings gmap pretty.
From S2P Require Import Prelude Transitions LockManager Bytes Utf8 Str Paths HostFs HostProg MachineModel MachineDb Machines Units Launch.

(** ** References to policies *)

Inductive PolicyError : Type := PolicyNotHcl (p : buffer) | PolicyEmpty | PolicyRelative (value : buffer) | PolicyName (value : buffer) | PolicyNoHome (value : buffer).
Definition is_absolute (s : buffer) : bool := starts_with [slash] s.
(** [extension() == Some("hcl")] of the file name: what follows the last dot, unless that is the first character. *)
Definition has_hcl_extension (s : buffer) : bool :=
  match list.last (components s) with
  | Some name => ends_with (bstr ".hcl") name && negb (bool_decide (name = bstr ".hcl"))
  | None => false
  end.
Definition validate_absolute_policy_path (s : buffer) : outcome PolicyError unit := if has_hcl_extension s then Ok tt else Err (PolicyNotHcl s).
Definition validate_policy_name (s : buffer) : outcome PolicyError unit :=
  if bool_decide (trim s = []) then Err PolicyEmpty
  else if contains [47] s || contains [92] s then Err (PolicyRelative s)
  else if bool_decide (s = bstr ".") || bool_decide (s = bstr "..") then Err (PolicyName s)
  else Ok tt.
Definition validate_policy_ref (s : buffer) : outcome PolicyError unit := if is_absolute s then validate_absolute_policy_path s else validate_policy_name s.
(** [NetworkPolicyRef::resolve] *)
Definition resolve_policy (value : buffer) (config_dir : option path) : outcome PolicyError PathBuf :=
  if is_absolute value then _ <- validate_absolute_policy_path value ;; Ok (pathbuf_from value)
  else
    _ <- validate_policy_name value ;;
    dir <- ok_or config_dir (PolicyNoHome value) ;;
    Ok (mk_pathbuf true (dir ++ [bstr "policies"; value ++ bstr ".hcl"])).

(** ** The last lines of a helper's error output *)

Definition STDERR_CAPTURE_LIMIT : Z := 64 * 1024.
Record CapturedStderrLines := mk_captured { captured_lines : list buffer; byte_len : Z }.
(** The loop: lines are dropped at the front until the new one fits. *)
Fixpoint drop_lines (line_len : Z) (lines : list buffer) (len : Z) : list buffer * Z :=
  if STDERR_CAPTURE_LIMIT <? len + line_len then
    match lines with
    | [] => ([], 0)
    | removed :: lines => drop_lines line_len lines (Z.max 0 (len - zlen removed))
    end
  else (lines, len).
Definition append_bounded_stderr_line (c : CapturedStderrLines) (line : buffer) : CapturedStderrLines :=
  let line := if STDERR_CAPTURE_LIMIT <? zlen line then from_utf8_lossy (drop (Z.to_nat (zlen line - STDERR_CAPTURE_LIMIT)) line) else line in
  let '(lines, len) := drop_lines (zlen line) c.(captured_lines) c.(byte_len) in
  mk_captured (lines ++ [line]) (len + zlen line).

(** What a failed start is reported as; a line may be a record in JSON. *)
Record NetdStartupErrorRecord := mk_record { rec_kind : buffer; rec_message : buffer; rec_detail : buffer; rec_file : option buffer; rec_line : option Z; rec_column : option Z }.
Definition linefeed : buffer := [newline].
Definition render_netd_startup_error_record (r : NetdStartupErrorRecord) : buffer :=
  match r.(rec_file) with
  | Some (c :: file) =>
      (c :: file) ++
      match r.(rec_line) with
      | Some line => if 0 <? line then bstr ":" ++ bstr (pretty line) ++
                       match r.(rec_column) with Some column => if 0 <? column then bstr ":" ++ bstr (pretty column) else [] | None => [] end
                     else []
      | None => []
      end ++ bstr ": "
  | _ => []
  end ++ trim r.(rec_message) ++
  match trim r.(rec_detail) with [] => [] | detail => concat ((fun l => linefeed ++ bstr "  " ++ l) <$> lines detail) end.
Definition push_line (output line : buffer) : buffer := match output with [] => line | _ => output ++ linefeed ++ line end.
Section Rendering.
Context (parse_record : buffer -> option NetdStartupErrorRecord).
Definition render_netd_startup_stderr (l : list buffer) : option buffer :=
  let l := filter (fun line => line <> []) (trim <$> l) in
  let records := omap parse_record l in
  let raw_lines := filter (fun line => parse_record line = None) l in
  match records, raw_lines with
  | [], [] => None
  | _, _ => Some (foldl push_line [] ((render_netd_startup_error_record <$> records) ++ raw_lines))
  end.
Definition format_netd_startup_failure (reason : buffer) (stderr_lines : list buffer) (log_path : path) : buffer :=
  bstr "netd failed during startup" ++
  match render_netd_startup_stderr stderr_lines with
  | Some stderr => linefeed ++ linefeed ++ stderr
  | None => match trim reason with [] => [] | reason => linefeed ++ linefeed ++ reason end
  end ++ linefeed ++ linefeed ++ bstr "netd log: " ++ from_utf8_lossy (display_path log_path).
End Rendering.

(** ** Requests and drivers *)

Inductive NetworkDriverKind : Type := KindNetd | KindVzNat.
Record NetdRuntimeConfig := mk_netd_config { subnet : buffer; pcap : bool; tls_ca_cert : option PathBuf; tls_ca_key : option PathBuf }.
Record RuntimeNetworkingConfig := mk_networking { private_driver : NetworkDriverKind; policy_config_dir : option path; netd_config : NetdRuntimeConfig }.
Definition default_netd_config : NetdRuntimeConfig := mk_netd_config (bstr "192.168.105.0/24") false None None.
Definition default_networking : RuntimeNetworkingConfig := mk_networking KindNetd None default_netd_config.
Definition with_subnet (s : buffer) (c : NetdRuntimeConfig) : NetdRuntimeConfig := mk_netd_config s c.(pcap) c.(tls_ca_cert) c.(tls_ca_key).
Definition with_pcap (b : bool) (c : NetdRuntimeConfig) : NetdRuntimeConfig := mk_netd_config c.(subnet) b c.(tls_ca_cert) c.(tls_ca_key).
Definition with_tls_ca (cert key : PathBuf) (c : NetdRuntimeConfig) : NetdRuntimeConfig := mk_netd_config c.(subnet) c.(pcap) (Some cert) (Some key).
Definition with_private_driver (k : NetworkDriverKind) (c : RuntimeNetworkingConfig) : RuntimeNetworkingConfig := mk_networking k c.(policy_config_dir) c.(netd_config).
Definition with_policy_config_dir (dir : path) (c : RuntimeNetworkingConfig) : RuntimeNetworkingConfig := mk_networking c.(private_driver) (Some dir) c.(netd_config).
Definition with_netd (n : NetdRuntimeConfig) (c : RuntimeNetworkingConfig) : RuntimeNetworkingConfig := mk_networking c.(private_driver) c.(policy_config_dir) n.
Inductive NetworkAttachmentTarget : Type := TargetPrivate (policy_ref : option buffer) | TargetNamed (definition_name : buffer).
Definition request_policy_ref (t : NetworkAttachmentTarget) : option buffer := match t with TargetPrivate p => p | TargetNamed _ => None end.
Definition request_definition_name (t : NetworkAttachmentTarget) : option buffer := match t with TargetPrivate _ => None | TargetNamed n => Some n end.

Record NetdDriverState := mk_driver_state { ds_helper_pid : Z; ds_subnet : buffer; ds_socket_path : path; ds_log_path : path; ds_pid_path : path; ds_pcap_path : option path }.

(** JSON of attachments and of the driver's state, and of the lines of a helper *)
Class NetJson := {
  attachment_to_json : VmmonNetworkAttachment -> option buffer; attachment_from_json : buffer -> option VmmonNetworkAttachment;
  driver_state_to_json : NetdDriverState -> option buffer; parse_record_json : buffer -> option NetdStartupErrorRecord }.

(** What happens while a helper starts: whether it was spawned and its process, what each look
    at it shows until the deadline (there is one at least), and its error output. *)
Inductive wait_status : Type := StillRunning | Exited (status : buffer) | WaitFailed (err : buffer).
Record poll := mk_poll { socket_exists : bool; child_status : wait_status }.
Record helper_run := mk_helper { spawned : option Z; polls : list poll; stderr_seen : list buffer }.
Fixpoint wait_for_netd_startup (socket : path) (l : list poll) : unit + buffer :=
  match l with
  | [] => inr (bstr "userspace network helper did not create socket " ++ from_utf8_lossy (display_path socket))
  | p :: l =>
      if p.(socket_exists) then inl tt
      else match p.(child_status) with
           | Exited status => inr (bstr "userspace network helper exited during startup with status " ++ status)
           | WaitFailed err => inr (bstr "check userspace network helper startup status: " ++ err)
           | StillRunning => wait_for_netd_startup socket l
           end
  end.
(** Whether the exit of the helper was collected while waiting *)
Fixpoint reaped (l : list poll) : bool :=
  match l with
  | [] => false
  | p :: l => if p.(socket_exists) then false else match p.(child_status) with Exited _ => true | WaitFailed _ => false | StillRunning => reaped l end
  end.

Definition DRIVER_VZNAT : buffer := bstr "vznat".
Definition net_dir (r : LocalRoots) : path := r.(run_root) ++ [bstr "net"].
Definition net_socket_path (dir : path) : path := dir ++ [bstr "netd.sock"].
Definition net_log_path (dir : path) : path := dir ++ [bstr "netd.log"].
Definition net_pid_path (dir : path) : path := dir ++ [bstr "netd.pid"].
Definition net_pcap_path (dir : path) : path := dir ++ [bstr "capture.pcap"].

Section Drivers.
Context `{RtDeps} `{NetJson} (roots : LocalRoots).
(** [host::ensure_certificate_authority_in] *)
Context (ensure_certificate_authority : Rt (path * path)).

(** A result that is not looked at *)
Definition ignored {A} (m : Rt A) : Rt unit := fun w => (Ok tt, (m w).2).
(** What the guard does when its scope ends without a commit *)
Definition on_failure {A} (cleanup : Rt unit) (m : Rt A) : Rt A := fun w =>
  match m w with (Ok a, w) => (Ok a, w) | (o, w) => (o, (cleanup w).2) end.
Definition stop_helper (child : option Z) (was_reaped : bool) : Rt unit :=
  match child with
  | None => sret tt
  | Some pid =>
      _ <-- (if pid <=? 2 ^ 31 - 1 then ignored (terminate_helper pid) else sret tt) ;;
      if was_reaped then sret tt else send_signal pid
  end.
Definition rollback_files (id : MachineId) (runtime_dir : path) : Rt unit :=
  _ <-- ignored (remove_instance_network_link roots id) ;; ignored (remove_runtime_dir runtime_dir).
(** [NetdStartupGuard], dropped while it is armed *)
Definition drop_startup_guard (id : MachineId) (runtime_dir : path) (child : option Z) (was_reaped : bool) : Rt unit :=
  _ <-- stop_helper child was_reaped ;; rollback_files id runtime_dir.

Definition remove_file_if_exists (p : path) : Rt unit :=
  r <-- rresult (remove_file p) ;; match r with inl _ | inr IoNotFound => sret tt | inr e => sfail (Io e) end.
Definition resolve_network_policy_path (c : MachineConfig) (policy_ref : option buffer) (config_dir : option path) : outcome LibVmError (option PathBuf) :=
  match policy_ref with
  | None => Ok None
  | Some value => match resolve_policy value config_dir with Ok p => Ok (Some p) | Err _ => Err (NetworkRuntime c.(mc_name) BadPolicyRef) | Panic => Panic end
  end.
Definition resolve_certificate_authority_paths (cfg : NetdRuntimeConfig) (reference : buffer) : Rt (PathBuf * PathBuf) :=
  match cfg.(tls_ca_cert), cfg.(tls_ca_key) with
  | Some certificate_path, Some private_key_path => sret (certificate_path, private_key_path)
  | None, None =>
      a <-- map_error (fun _ => NetworkRuntime reference AuthorityFailed) ensure_certificate_authority ;;
      sret (mk_pathbuf true a.1, mk_pathbuf true a.2)
  | _, _ => sfail (NetworkRuntime reference AuthorityIncomplete)
  end.

(** Of the driver, an instance is alive if its helper is. *)
Definition netd_instance_is_alive (i : NetworkInstance) : bool :=
  match helper_pid i.(ni_driver_state_json) with Some pid => process_is_alive pid | None => false end.
Definition network_attachment_from_instance (i : NetworkInstance) (mac : buffer) : outcome LibVmError VmmonNetworkAttachment :=
  a <- ok_or (attachment_from_json i.(ni_attachment_json)) (NetworkRuntime i.(ni_id) AttachmentUnreadable) ;;
  Ok (match a with AttachUnixDatagram p _ => AttachUnixDatagram p mac | a => a end).
Definition attach_existing_runtime (c : MachineConfig) (i : NetworkInstance) : Rt VmmonNetworkAttachment :=
  _ <-- ensure_instance_network_link roots c.(mc_id) i.(ni_runtime_dir) ;;
  now <-- now_unix ;;
  let mac := format_mac (mac_from_machine_id c.(mc_id)) in
  attachment <-- stry (network_attachment_from_instance i mac) ;;
  _ <-- attach_network (mk_attachment c.(mc_id) i.(ni_id) mac now now) ;;
  sret attachment.

(** What precedes the helper: policy, certificates, old files, the log, the process *)
Definition spawn_netd (cfg : RuntimeNetworkingConfig) (c : MachineConfig) (target : NetworkAttachmentTarget) (h : helper_run) (dir : path) : Rt Z :=
  _ <-- stry (resolve_network_policy_path c (request_policy_ref target) cfg.(policy_config_dir)) ;;
  _ <-- resolve_certificate_authority_paths cfg.(netd_config) c.(mc_name) ;;
  _ <-- remove_file_if_exists (net_socket_path dir) ;;
  _ <-- remove_file_if_exists (net_pid_path dir) ;;
  _ <-- rio (open_file (net_log_path dir) false) ;;
  _ <-- rio (look (fun _ => inl tt)) ;; (* [log.try_clone()] *)
  match h.(spawned) with None => sfail (NetworkRuntime c.(mc_name) SpawnFailed) | Some pid => sret pid end.
(** [attach_network], with the instance removed again when it fails *)
Definition attach_or_remove (c : MachineConfig) (network_id : buffer) (a : NetworkAttachment) : Rt unit := fun w =>
  match attach_network a w with
  | (Err e, w) =>
      match remove_network_instance network_id w with
      | (Ok _, w) => (Err e, w)
      | (_, w) => (Err (NetworkRuntime c.(mc_name) (RollbackFailed network_id)), w)
      end
  | r => r
  end.
(** What follows it: the wait for its socket, and the rows *)
Definition adopt_netd (cfg : RuntimeNetworkingConfig) (c : MachineConfig) (target : NetworkAttachmentTarget) (h : helper_run)
    (network_id : buffer) (dir : path) (pid : Z) : Rt VmmonNetworkAttachment :=
  if 2 ^ 31 - 1 <? pid then sfail (NetworkRuntime c.(mc_name) PidTooLarge) else
  match wait_for_netd_startup (net_socket_path dir) h.(polls) with
  | inr reason => sfail (NetworkRuntime c.(mc_name) (StartupFailed (format_netd_startup_failure parse_record_json reason (captured_lines (foldl append_bounded_stderr_line (mk_captured [] 0) h.(stderr_seen))) (net_log_path dir))))
  | inl _ =>
      let mac := format_mac (mac_from_machine_id c.(mc_id)) in
      let network := AttachUnixDatagram (net_socket_path dir) mac in
      let state := mk_driver_state pid cfg.(netd_config).(subnet) (net_socket_path dir) (net_log_path dir) (net_pid_path dir)
                     (if cfg.(netd_config).(pcap) then Some (net_pcap_path dir) else None) in
      now <-- now_unix ;;
      attachment_json <-- stry (ok_or (attachment_to_json network) (NetworkRuntime (bstr "network attachment") NetworkSerialize)) ;;
      driver_state_json <-- stry (ok_or (driver_state_to_json state) (NetworkRuntime (bstr "netd driver state") NetworkSerialize)) ;;
      _ <-- save_network_instance (mk_instance network_id DRIVER_NETD (request_definition_name target) dir attachment_json driver_state_json now now) ;;
      _ <-- attach_or_remove c network_id (mk_attachment c.(mc_id) network_id mac now now) ;;
      sret network
  end.
Definition run_netd (cfg : RuntimeNetworkingConfig) (c : MachineConfig) (target : NetworkAttachmentTarget) (h : helper_run)
    (network_id : buffer) (dir : path) (pid : Z) : Rt VmmonNetworkAttachment :=
  on_failure (drop_startup_guard c.(mc_id) dir (Some pid) ((pid <=? 2 ^ 31 - 1) && reaped h.(polls))) (adopt_netd cfg c target h network_id dir pid).
Definition start_netd (cfg : RuntimeNetworkingConfig) (c : MachineConfig) (target : NetworkAttachmentTarget) (h : helper_run) : Rt VmmonNetworkAttachment :=
  uuid <-- new_id ;;
  let network_id := simple uuid in
  let dir := net_dir roots ++ [network_id] in
  _ <-- rio (create_dir_all dir) ;;
  _ <-- ensure_instance_network_link roots c.(mc_id) dir ;;
  pid <-- on_failure (drop_startup_guard c.(mc_id) dir None false) (spawn_netd cfg c target h dir) ;;
  run_netd cfg c target h network_id dir pid.
Definition reusable_instance (target : NetworkAttachmentTarget) : Rt (option NetworkInstance) :=
  match request_definition_name target with
  | None => sret None
  | Some name =>
      instance <-- network_instance_by_definition name ;;
      match instance with
      | None => sret None
      | Some i =>
          if netd_instance_is_alive i then sret (Some i)
          else _ <-- remove_network_instance i.(ni_id) ;; _ <-- remove_runtime_dir i.(ni_runtime_dir) ;; sret None
      end
  end.
Definition prepare_netd_runtime (cfg : RuntimeNetworkingConfig) (c : MachineConfig) (target : NetworkAttachmentTarget) (h : helper_run) : Rt VmmonNetworkAttachment :=
  instance <-- reusable_instance target ;;
  match instance with Some i => attach_existing_runtime c i | None => start_netd cfg c target h end.

(** The driver of macOS *)
Definition prepare_vznat_runtime (c : MachineConfig) : Rt VmmonNetworkAttachment :=
  _ <-- remove_attached_network roots c.(mc_id) ;;
  _ <-- rio (create_dir_all (network_link (machine_dir_of roots c.(mc_id)))) ;;
  sret (AttachVzNat None).
Definition prepare_with_driver (kind : NetworkDriverKind) (cfg : RuntimeNetworkingConfig) (c : MachineConfig) (target : NetworkAttachmentTarget) (h : helper_run) :
    Rt VmmonNetworkAttachment :=
  match kind with
  | KindNetd => prepare_netd_runtime cfg c target h
  | KindVzNat =>
      match request_policy_ref target with
      | Some _ => sfail (NetworkRuntime c.(mc_name) PolicyUnsupported)
      | None => prepare_vznat_runtime c
      end
  end.
Definition resolve_named_network (cfg : RuntimeNetworkingConfig) (c : MachineConfig) (d : NetworkDefinition) (h : helper_run) : Rt VmmonNetworkAttachment :=
  match d.(nd_topology) with
  | Nat => prepare_with_driver (match d.(nd_driver) with Auto | Netd => KindNetd | VzNat => KindVzNat end) cfg c (TargetNamed d.(nd_name)) h
  | Bridge | Isolated => sfail (NetworkRuntime c.(mc_name) (TopologyUnsupported d.(nd_name)))
  end.
Definition prepare_network_runtime (cfg : RuntimeNetworkingConfig) (c : MachineConfig) (h : helper_run) : Rt VmmonNetworkAttachment :=
  _ <-- reconcile_network_runtime roots c false ;;
  match c.(mc_network) with
  | NetNone => _ <-- remove_attached_network roots c.(mc_id) ;; sret AttachNone
  | NetPrivate policy_ref => prepare_with_driver cfg.(private_driver) cfg c (TargetPrivate policy_ref) h
  | NetNamed name =>
      definition <-- network_definition name ;;
      match definition with
      | None => sfail (NetworkRuntime c.(mc_name) (NetworkUndefined name))
      | Some d => resolve_named_network cfg c d h
      end
  end.

(** The arguments of the helper *)
Definition configure_network_helper_command (cfg : NetdRuntimeConfig) (c : MachineConfig) (network_id : buffer) (dir : path)
    (policy_path : option PathBuf) (secret_store_path tls_ca_cert tls_ca_key : buffer) : list buffer :=
  [bstr "--listen-vfkit"; bstr "unixgram://" ++ from_utf8_lossy (display_path (net_socket_path dir)); bstr "--ssh-port"; bstr "-1";
   bstr "--subnet"; cfg.(subnet); bstr "--log-file"; display_path (net_log_path dir); bstr "--pid-file"; display_path (net_pid_path dir)] ++
  (if cfg.(pcap) then [bstr "--pcap"; display_path (net_pcap_path dir)] else []) ++
  [bstr "--vm-id"; simple c.(mc_id); bstr "--network-id"; network_id] ++
  match policy_path with Some p => [bstr "--policy-file"; pathbuf_text p] | None => [] end ++
  [bstr "--secret-store-file"; secret_store_path; bstr "--tls-ca-cert"; tls_ca_cert; bstr "--tls-ca-key"; tls_ca_key].
End Drivers.
