(* ===== verification/NetDriverSpec.v ===== *)
(** * Networks of machines: no helper is forgotten

    A helper process that was started is either recorded in the database, with the machine attached to
    it, or it was stopped; and preparing a network keeps the registry consistent, whatever fails. *)

From stdpp Require Import base list option numbers strings gmap pretty.
From S2P Require Import Prelude Transitions LockManager Bytes Utf8 Str Paths HostFs HostProg MachineModel MachineDb Machines MachinesSpec MachinesCreate MachinesChange MachineWorld Units Launch NetDriver.

(** The JSON of a driver's state names its process. *)
Class NetJsonLaws `{RtDeps} `{NetJson} : Prop := {
  state_pid : forall s text, driver_state_to_json s = Some text -> helper_pid text = Some s.(ds_helper_pid) }.

Section Adopting.
Context `{RtDeps} `{NetJson} (roots : LocalRoots) (ensure_certificate_authority : Rt (path * path)).

(** A statement of its own fails and changes nothing, or does what it says. *)
Lemma execute_cases {A} (f : db -> (A * db) + DbError) w : exists h,
  execute f w = (Err (Database DbFailure), put_host h w) \/
  execute f w = match f w.(rt_db) with inl (a, d) => (Ok a, put_db d (put_host h w)) | inr e => (Err (Database e), put_host h w) end.
Proof.
  unfold execute, sbind, may_fail. destruct (next_fault (rt_host w)) as [[k|] h] eqn:E; exists h; [by left|right]. simpl.
  destruct (f (rt_db w)) as [[a d]|e]; reflexivity.
Qed.
Lemma now_unix_quiet w : exists now h, now_unix w = (Ok now, put_host h w).
Proof. unfold now_unix, sbind, on_host, now_nanos. destruct (h_times (rt_host w)); do 2 eexists; reflexivity. Qed.

(** An instance nobody is attached to, removed right after it was added *)
Lemma added_removed i d d' : db_ok roots d -> d.(t_instances) !! i.(ni_id) = None -> upsert_instance i d = inl d' -> delete_instance i.(ni_id) d' = d.
Proof.
  intros Hd Hf. unfold upsert_instance. destruct (definition_taken _ _ _); [done|]. intros [= <-]. unfold delete_instance. destruct d as [t1 t2 t3 t4 t5]. simpl in *.
  unfold set_attachments, set_instances. simpl. rewrite delete_insert_id by done. f_equal. apply map_filter_id. intros k a Ha E.
  destruct (ok_attachments _ _ Hd k a Ha) as (_ & _ & [x Hx]). simpl in Hx. simpl in E. congruence.
Qed.

(** What a started helper comes to. *)
Definition adopted (c : MachineConfig) (network_id : buffer) (dir : path) (pid : Z) (w w' : rt) (a : VmmonNetworkAttachment) : Prop :=
  let mac := format_mac (mac_from_machine_id c.(mc_id)) in
  a = AttachUnixDatagram (net_socket_path dir) mac /\
  (exists i, w'.(rt_db).(t_instances) = <[network_id := i]> w.(rt_db).(t_instances) /\
     i.(ni_id) = network_id /\ i.(ni_driver) = DRIVER_NETD /\ helper_pid i.(ni_driver_state_json) = Some pid /\ i.(ni_runtime_dir) = dir) /\
  exists at_, w'.(rt_db).(t_attachments) = <[c.(mc_id) := at_]> w.(rt_db).(t_attachments) /\ at_.(na_network_instance_id) = network_id /\ at_.(na_guest_mac) = mac.

(** The second row is written, or the first is removed again. *)
Lemma attach_or_remove_cases c network_id at_ d w : delete_instance network_id w.(rt_db) = d ->
  let r := attach_or_remove c network_id at_ w in
  r.2.(rt_signals) = w.(rt_signals) /\
  ((exists d2, upsert_attachment at_ w.(rt_db) = inl d2 /\ r.1 = Ok tt /\ r.2.(rt_db) = d2) \/
   (exists e, r.1 = Err e /\ (r.2.(rt_db) = d \/ e = NetworkRuntime c.(mc_name) (RollbackFailed network_id)))).
Proof.
  intros Hd. unfold attach_or_remove, attach_network, remove_network_instance. cbv zeta.
  assert (forall h e, let r := match execute (fun d => inl (tt, delete_instance network_id d)) (put_host h w) with
      | (Ok _, w') => (Err e, w') | (_, w') => (Err (NetworkRuntime c.(mc_name) (RollbackFailed network_id)), w') end : outcome LibVmError unit * rt in
      rt_signals r.2 = rt_signals w /\ exists e, r.1 = Err e /\ (rt_db r.2 = d \/ e = NetworkRuntime c.(mc_name) (RollbackFailed network_id))) as Hrb.
  { intros h e. destruct (execute_cases (fun d => inl (tt, delete_instance network_id d)) (put_host h w)) as [h4 [->| ->]]; simpl; (split; [done|]); eexists;
      (split; [reflexivity|]); auto. }
  destruct (execute_cases (fun d => match upsert_attachment at_ d with inl d => inl (tt, d) | inr e => inr e end) w) as [h3 [->| ->]].
  - destruct (Hrb h3 (Database DbFailure)). split; [done|]. by right.
  - destruct (upsert_attachment at_ (rt_db w)) as [d2|e] eqn:Eat; simpl.
    + split; [done|]. left. by exists d2.
    + destruct (Hrb h3 (Database e)). split; [done|]. by right.
Qed.

Lemma save_cases i w :
  let r := save_network_instance i w in
  r.2.(rt_signals) = w.(rt_signals) /\
  ((r.1 = Ok tt /\ upsert_instance i w.(rt_db) = inl r.2.(rt_db)) \/ (exists e, r.1 = Err e /\ r.2.(rt_db) = w.(rt_db))).
Proof.
  unfold save_network_instance.
  destruct (execute_cases (fun d => match upsert_instance i d with inl d => inl (tt, d) | inr e => inr e end) w) as [h [->| ->]]; cbn.
  - split; [done|]. right. by eexists.
  - destruct (upsert_instance i (rt_db w)); cbn; (split; [done|]); [by left|right; by eexists].
Qed.

Lemma upserted i at_ d d1 d2 : upsert_instance i d = inl d1 -> upsert_attachment at_ d1 = inl d2 ->
  (exists j, t_instances d2 = <[ni_id i := j]> (t_instances d) /\ ni_id j = ni_id i /\ ni_driver j = ni_driver i /\ ni_driver_state_json j = ni_driver_state_json i /\
     ni_runtime_dir j = ni_runtime_dir i) /\
  exists b, t_attachments d2 = <[na_machine_id at_ := b]> (t_attachments d) /\ na_network_instance_id b = na_network_instance_id at_ /\ na_guest_mac b = na_guest_mac at_.
Proof.
  unfold upsert_instance, upsert_attachment. destruct (definition_taken _ _ _); [done|]. intros [= <-]. destruct (_ !! _); [|done].
  destruct (_ !! na_network_instance_id at_); [|done]. intros [= <-]. simpl. split; (eexists; split; [reflexivity|done]).
Qed.

Lemma adopt_cases `{!NetJsonLaws} cfg c target h network_id dir pid w :
  db_ok roots w.(rt_db) -> w.(rt_db).(t_instances) !! network_id = None ->
  let r := adopt_netd cfg c target h network_id dir pid w in
  r.2.(rt_signals) = w.(rt_signals) /\
  match r.1 with
  | Ok a => adopted c network_id dir pid w r.2 a
  | Err e => r.2.(rt_db) = w.(rt_db) \/ e = NetworkRuntime c.(mc_name) (RollbackFailed network_id)
  | Panic => False
  end.
Proof.
  intros Hd Hf. unfold adopt_netd. destruct (_ <? pid); [by split; [|left]|]. destruct (wait_for_netd_startup _ _); [|by split; [|left]].
  destruct (now_unix_quiet w) as (now & h1 & En). cbv zeta. erewrite run_bind by exact En.
  unfold stry, sbind. destruct (attachment_to_json _) as [aj|]; [|by split; [|left]].
  destruct (driver_state_to_json _) as [dj|] eqn:Edj; [|by split; [|left]]. cbn [ok_or]. apply state_pid in Edj. cbn [ds_helper_pid] in Edj.
  set (i := mk_instance network_id _ _ dir aj dj now now). set (at_ := mk_attachment _ network_id _ now now).
  pose proof (save_cases i (put_host h1 w)) as Hs. destruct (save_network_instance i _) as [o w2]. simpl in Hs.
  destruct Hs as [Hsig [[-> Ei]|(e & -> & Ed)]]; [|split; [done|by left]].
  pose proof (attach_or_remove_cases c network_id at_ (rt_db w) w2 (added_removed i _ _ Hd Hf Ei)) as Ha.
  destruct (attach_or_remove c network_id at_ w2) as [o w3]. simpl in Ha. destruct Ha as [Hsig3 [(d2 & Eat & -> & Edb)|(e & -> & He)]]; simpl.
  - split; [congruence|]. split; [done|]. destruct (upserted i at_ _ _ _ Ei Eat) as [(j & Ej & ? & ? & Es & ?) Hb]. rewrite Edb. split; [|done].
    exists j. by rewrite Es.
  - split; [congruence|done].
Qed.

(** The files of a start are removed without a signal and without the database. *)
Lemma host_only {A} (P : rt -> Prop) (m : prog LibVmError A) : (forall h w, P w -> P (put_host h w)) -> invariant P (on_host m).
Proof. intros HP w Hw. unfold on_host. destruct (m (rt_host w)). by apply HP. Qed.
Lemma ignored_inv {A} (P : rt -> Prop) (m : Rt A) : invariant P m -> invariant P (ignored m).
Proof. intros Hm w Hw. by apply Hm. Qed.
Lemma rollback_files_inv (P : rt -> Prop) id dir : (forall h w, P w -> P (put_host h w)) -> invariant P (rollback_files roots id dir).
Proof.
  intros HP. unfold rollback_files, remove_instance_network_link, remove_runtime_dir, rresult, rio.
  repeat first [invariant_step | apply host_only; exact HP | apply ignored_inv].
Qed.

(** The guard that is dropped stops the helper, unless it has ended, and leaves the database. *)
Lemma guard_stops id dir pid was_reaped w :
  let w' := (drop_startup_guard roots id dir (Some pid) was_reaped w).2 in
  rt_db w' = rt_db w /\ (was_reaped = true \/ pid ∈ rt_signals w').
Proof.
  unfold drop_startup_guard. set (P := fun w' => rt_db w' = rt_db w /\ (was_reaped = true \/ pid ∈ rt_signals w')).
  assert (invariant P (rollback_files roots id dir)) as Hr by (apply rollback_files_inv; by intros h w').
  assert (exists w', stop_helper (Some pid) was_reaped w = (Ok tt, w') /\ P w') as (w' & E & HP).
  { unfold stop_helper, sbind.
    assert (exists s, (if pid <=? 2 ^ 31 - 1 then ignored (terminate_helper pid) else sret tt) w = (Ok tt, s) /\ rt_db s = rt_db w) as (s & -> & Es).
    { destruct (pid <=? _); [|by exists w]. unfold ignored, terminate_helper. destruct (_ || _); eexists; (split; [reflexivity|done]). }
    destruct was_reaped; eexists; (split; [reflexivity|]); split; try done; [by left|right; by left]. }
  erewrite run_bind by exact E. by apply Hr.
Qed.

(** C24 helper_accounted: a helper process that has been started is never forgotten: either it is recorded in
    the database under the new network, with its process, its directory and the machine attached to it
    with its own address, and no process was signalled; or the start fails, the process is killed or had
    ended and was collected, and the database is as before, unless the removal of the half-made record is
    what failed, which the error says. *)
Theorem helper_accounted `{!NetJsonLaws} cfg c target h network_id dir pid w :
  db_ok roots w.(rt_db) -> w.(rt_db).(t_instances) !! network_id = None ->
  let r := run_netd roots cfg c target h network_id dir pid w in
  match r.1 with
  | Ok a => adopted c network_id dir pid w r.2 a /\ r.2.(rt_signals) = w.(rt_signals)
  | Err e =>
      (pid ∈ r.2.(rt_signals) \/ reaped h.(polls) = true) /\
      (r.2.(rt_db) = w.(rt_db) \/ e = NetworkRuntime c.(mc_name) (RollbackFailed network_id))
  | Panic => False
  end.
Proof.
  intros Hd Hf. unfold run_netd, on_failure. pose proof (adopt_cases cfg c target h network_id dir pid w Hd Hf) as Ha.
  destruct (adopt_netd cfg c target h network_id dir pid w) as [[a|e|] w']; simpl in *; [by destruct Ha| |by destruct Ha].
  destruct (guard_stops (mc_id c) dir pid ((pid <=? 2 ^ 31 - 1) && reaped (polls h)) w') as [Edb Hs]. simpl in *. rewrite Edb. split; [|by destruct Ha].
  destruct Hs as [E|]; [|by left]. apply andb_true_iff in E as [_ E]. by right.
Qed.
End Adopting.

(** ** Preparing a network keeps the registry *)

Section Keeping.
Context `{RtDeps} `{NetJson} (roots : LocalRoots) (ensure_certificate_authority : Rt (path * path)).
Abbreviation kept := (invariant (on_state (registered roots))).
Hypothesis authority_kept : kept ensure_certificate_authority.

Lemma on_failure_inv {A} (P : rt -> Prop) (cleanup : Rt unit) (m : Rt A) : invariant P cleanup -> invariant P m -> invariant P (on_failure cleanup m).
Proof. intros Hc Hm w Hw. unfold on_failure. specialize (Hm w Hw). destruct (m w) as [[a|e|] w']; [done|by apply Hc..]. Qed.
Lemma save_instance_kept i : kept (save_network_instance i).
Proof.
  apply execute_inv. intros d l a d' Hd. destruct (upsert_instance i d) as [d1|] eqn:E; [|done]. intros [= _ <-].
  eapply registered_stable; [exact Hd|by eapply put_instance_ok, E; apply Hd|by eapply upsert_instance_config].
Qed.
Lemma attach_network_kept at_ : kept (attach_network at_).
Proof.
  apply execute_inv. intros d l a d' Hd. destruct (upsert_attachment at_ d) as [d1|] eqn:E; [|done]. intros [= _ <-].
  eapply registered_stable; [exact Hd|by eapply put_attachment_ok, E; apply Hd|by eapply upsert_attachment_config].
Qed.
Lemma remove_instance_kept id : kept (remove_network_instance id).
Proof. eapply remove_network_instance_inv; [by intros d l []|]. apply registered_stable. Qed.
Lemma attach_or_remove_kept c network_id at_ : kept (attach_or_remove c network_id at_).
Proof.
  intros w Hw. unfold attach_or_remove. pose proof (attach_network_kept at_ w Hw) as Ha. destruct (attach_network at_ w) as [[a|e|] w']; try done.
  pose proof (remove_instance_kept network_id w' Ha). by destruct (remove_network_instance network_id w') as [[]].
Qed.
Lemma send_signal_kept pid : kept (send_signal pid).
Proof. by intros w. Qed.
Lemma guard_kept id dir child b : kept (drop_startup_guard roots id dir child b).
Proof.
  unfold drop_startup_guard, stop_helper, terminate_helper. apply invariant_bind; [|intros ?; by apply rollback_files_inv].
  repeat first [invariant_step | apply send_signal_kept | apply ignored_inv].
Qed.
#[local] Hint Resolve save_instance_kept attach_network_kept remove_instance_kept attach_or_remove_kept send_signal_kept guard_kept authority_kept : machines.

Lemma prepare_netd_kept cfg c target h : kept (prepare_netd_runtime roots ensure_certificate_authority cfg c target h).
Proof.
  unfold prepare_netd_runtime, reusable_instance, attach_existing_runtime, start_netd, run_netd, spawn_netd, adopt_netd, resolve_certificate_authority_paths,
    remove_file_if_exists, ensure_instance_network_link, remove_instance_network_link, remove_runtime_dir.
  repeat first [invariant_step | apply on_failure_inv].
Qed.

(** Whatever fails while the network of a machine is prepared, the registry stays consistent. *)
Lemma prepare_network_kept cfg c h : kept (prepare_network_runtime roots ensure_certificate_authority cfg c h).
Proof.
  assert (forall d l, registered roots d l -> db_ok roots d) as Hdb by (by intros d l []).
  pose proof (reconcile_network_inv roots _ Hdb (registered_stable roots)). pose proof (remove_attached_inv roots _ Hdb (registered_stable roots)).
  pose proof prepare_netd_kept. unfold prepare_network_runtime, resolve_named_network, prepare_with_driver, prepare_vznat_runtime. invariant_tac.
Qed.
End Keeping.

(** ** The error output that is kept *)

Definition total (l : list buffer) : Z := foldr (fun line n => zlen line + n) 0 l.
Definition captured_ok (c : CapturedStderrLines) : Prop := c.(byte_len) = total c.(captured_lines) /\ c.(byte_len) <= STDERR_CAPTURE_LIMIT.

Lemma total_nonneg l : 0 <= total l.
Proof. induction l; simpl; [lia|]. unfold zlen. lia. Qed.
Lemma total_app l l' : total (l ++ l') = total l + total l'.
Proof. induction l; simpl; lia. Qed.
Lemma drop_lines_fits n l len : len = total l -> 0 <= n <= STDERR_CAPTURE_LIMIT ->
  let '(l', len') := drop_lines n l len in l' `suffix_of` l /\ len' = total l' /\ len' + n <= STDERR_CAPTURE_LIMIT.
Proof.
  intros -> Hn. induction l as [|x l IH]; simpl.
  - change (total []) with 0. rewrite Z.add_0_l. destruct (STDERR_CAPTURE_LIMIT <? n); (split; [done|]); simpl; lia.
  - pose proof (total_nonneg l) as Hl. destruct (Z.ltb_spec STDERR_CAPTURE_LIMIT (zlen x + total l + n)) as [Hlt|Hge]; [|split; [done|]; simpl; lia].
    replace (Z.max 0 (zlen x + total l - zlen x)) with (total l) by lia. destruct (drop_lines n l (total l)) as [l' len'].
    destruct IH as (Hs & ? & ?). split; [by apply suffix_cons_r|done].
Qed.
(** What is kept of the output of a helper fits the limit and ends with the newest line, and the count is exact. *)
Lemma captured_bounded c line : captured_ok c -> zlen line <= STDERR_CAPTURE_LIMIT ->
  captured_ok (append_bounded_stderr_line c line) /\ list.last (captured_lines (append_bounded_stderr_line c line)) = Some line.
Proof.
  intros [Hlen _] Hline. unfold append_bounded_stderr_line. destruct (Z.ltb_spec STDERR_CAPTURE_LIMIT (zlen line)); [lia|].
  pose proof (drop_lines_fits (zlen line) _ _ Hlen ltac:(unfold zlen in *; lia)) as Hd. destruct (drop_lines _ _ _) as [l' len'].
  destruct Hd as (_ & -> & Hle). unfold captured_ok. simpl. rewrite total_app, last_snoc. simpl. repeat split; lia.
Qed.

(** ** On a concrete runtime *)

#[local] Instance sample_net_json : NetJson := {|
  attachment_to_json := fun _ => Some (bstr "{}"); attachment_from_json := fun _ => None;
  driver_state_to_json := fun s => if s.(ds_helper_pid) =? 42 then Some (bstr "42") else None; parse_record_json := fun _ => None |}.
#[local] Instance sample_net_json_laws : NetJsonLaws.
Proof. split. intros s text. cbn. destruct (Z.eqb_spec (ds_helper_pid s) 42) as [->|]; [|done]. by intros [= <-]. Qed.
Definition sample_networking : RuntimeNetworkingConfig := with_netd (with_pcap true default_netd_config) default_networking.
Definition ready : helper_run := mk_helper (Some 42) [mk_poll false StillRunning; mk_poll true StillRunning] [].
Definition net_dir_2 : path := net_dir sample_roots ++ [bstr "n2"].

Lemma helper_accounted_witness :
  let r := run_netd sample_roots sample_networking (cr_config devbox_row) (TargetPrivate None) ready (bstr "n2") net_dir_2 42 created in
  match r.1 with
  | Ok a => adopted (cr_config devbox_row) (bstr "n2") net_dir_2 42 created r.2 a /\ r.2.(rt_signals) = created.(rt_signals)
  | Err e =>
      (42 ∈ r.2.(rt_signals) \/ reaped ready.(polls) = true) /\
      (r.2.(rt_db) = created.(rt_db) \/ e = NetworkRuntime (cr_config devbox_row).(mc_name) (RollbackFailed (bstr "n2")))
  | Panic => False
  end.
Proof.
  apply (helper_accounted sample_roots sample_networking (cr_config devbox_row) (TargetPrivate None) ready (bstr "n2") net_dir_2 42 created).
  - apply created_ok.
  - vm_compute. reflexivity.
Defined.
Example helper_adopted :
  match run_netd sample_roots sample_networking (cr_config devbox_row) (TargetPrivate None) ready (bstr "n2") net_dir_2 42 created with
  | (Ok a, w') => a = AttachUnixDatagram (net_socket_path net_dir_2) (format_mac (mac_from_machine_id 7)) /\ w'.(rt_signals) = []
  | _ => False
  end.
Proof. vm_compute. split; reflexivity. Qed.
(** A helper that ends while it starts was collected; one that never answers is killed. *)
Example helper_killed : forall polls, polls = [mk_poll false StillRunning] ->
  match run_netd sample_roots sample_networking (cr_config devbox_row) (TargetPrivate None) (mk_helper (Some 42) polls []) (bstr "n2") net_dir_2 42 created with
  | (Err _, w') => w'.(rt_signals) = [42; -42] /\ w'.(rt_db).(t_instances) !! bstr "n2" = None
  | _ => False
  end.
Proof. intros polls ->. vm_compute. split; reflexivity. Qed.

(** The guard is made after the link: when the link cannot be made, the directory of the network stays. *)
Definition link_fails (w : rt) : rt :=
  put_host (mk_host w.(rt_host).(h_disk) [None; None; Some 1%nat] w.(rt_host).(h_times) w.(rt_host).(h_requests)) w.
Example failed_link_leaves_directory :
  match start_netd sample_roots (sret ([], [])) sample_networking (cr_config devbox_row) (TargetPrivate None) ready (link_fails created) with
  | (Err (Io _), w') => disk (link_fails created) !! (net_dir sample_roots ++ [simple 8]) = None /\ disk w' !! (net_dir sample_roots ++ [simple 8]) = Some FsDir
  | _ => False
  end.
Proof. vm_compute. split; reflexivity. Qed.
