(* ===== verification/Broker.v ===== *)
(** * The control channel between the monitor and its endpoint plugins

    Frames ([runtime/vmmon/src/endpoints/control.rs]; [runtime/plugins/src/lib.rs] has a copy
    of the same code), the broker of [runtime/vmmon/src/endpoints.rs] that opens connections
    into the machine, and the runtime of a plugin that asks for them.  The channel is a pair of
    Unix datagram sockets, which keep the order and the boundaries of messages; a descriptor
    travels beside a frame.  A request to a broker that is gone cannot be sent.  Numbers have the byte order of the hosts the program runs on. *)

From stdpp Require Import base list option numbers strings gmap.
From S2P Require Import Prelude Bytes Utf8 Str.

(** ** Frames *)

Definition CONTROL_MAGIC : Z := 0x42524b52.
Definition CONTROL_MESSAGE_MAX_BYTES : Z := 256.
(** [size_of::<ControlMessageFrameV1>] *)
Definition FRAME_SIZE : Z := 4 + 4 + 8 + 4 + 4 + CONTROL_MESSAGE_MAX_BYTES.

Inductive ControlMessageKind : Type :=
| ConnectOpen (request_id : Z)
| ConnectOpenOk (request_id : Z)
| ConnectOpenErr (request_id : Z) (retryable : bool) (message : buffer)
| ListenIncoming (conn_id : Z).

Inductive ControlError : Type :=
| MessageTooLong | UnexpectedSize (n : Z) | UnexpectedMagic (magic : Z) | MessageLength | MessageUtf8 | UnknownKind (kind : Z).

Definition header (kind id flags message_len : Z) : buffer :=
  to_le_bytes 4 CONTROL_MAGIC ++ to_le_bytes 4 kind ++ to_le_bytes 8 id ++ to_le_bytes 4 flags ++ to_le_bytes 4 message_len.
Definition pad (bytes : buffer) : buffer := resize (Z.to_nat FRAME_SIZE) 0 bytes.

Definition to_bytes (m : ControlMessageKind) : outcome ControlError buffer :=
  match m with
  | ConnectOpen id => Ok (pad (header 1 id 0 0))
  | ConnectOpenOk id => Ok (pad (header 2 id 0 0))
  | ConnectOpenErr id retryable message =>
      if CONTROL_MESSAGE_MAX_BYTES <? zlen message then Err MessageTooLong
      else Ok (pad (header 3 id (Z.b2z retryable) (zlen message) ++ message))
  | ListenIncoming id => Ok (pad (header 4 id 0 0))
  end.

Definition from_bytes (bytes : buffer) : outcome ControlError ControlMessageKind :=
  if negb (zlen bytes =? FRAME_SIZE) then Err (UnexpectedSize (zlen bytes)) else
  let magic := from_le_bytes (slice 0 4 bytes) in
  if negb (magic =? CONTROL_MAGIC) then Err (UnexpectedMagic magic) else
  let kind := from_le_bytes (slice 4 4 bytes) in
  let id := from_le_bytes (slice 8 8 bytes) in
  let flags := from_le_bytes (slice 16 4 bytes) in
  let message_len := from_le_bytes (slice 20 4 bytes) in
  if CONTROL_MESSAGE_MAX_BYTES <? message_len then Err MessageLength else
  let message := slice 24 message_len bytes in
  if negb (utf8_valid message) then Err MessageUtf8 else
  match kind with
  | 1 => Ok (ConnectOpen id)
  | 2 => Ok (ConnectOpenOk id)
  | 3 => Ok (ConnectOpenErr id (negb (flags =? 0)) message)
  | 4 => Ok (ListenIncoming id)
  | k => Err (UnknownKind k)
  end.

Definition control_message_name (m : ControlMessageKind) : buffer :=
  match m with
  | ConnectOpen _ => bstr "connect_open"
  | ConnectOpenOk _ => bstr "connect_open_ok"
  | ConnectOpenErr _ _ _ => bstr "connect_open_err"
  | ListenIncoming _ => bstr "listen_incoming"
  end.

(** The numbers are 64 bits wide and the text is UTF-8. *)
Definition message_ok (m : ControlMessageKind) : Prop :=
  match m with
  | ConnectOpen id | ConnectOpenOk id | ListenIncoming id => uint 64 id
  | ConnectOpenErr id _ message => uint 64 id /\ utf8_valid message = true
  end.

Section Frames.
Variables (kind id flags len : Z) (message : buffer).
Hypotheses (Hk : uint 32 kind) (Hid : uint 64 id) (Hf : uint 32 flags) (Hm : zlen message = len) (Hl : len <= CONTROL_MESSAGE_MAX_BYTES).

Lemma zlen_header : zlen (header kind id flags len) = 24.
Proof. unfold header. rewrite !zlen_app, !zlen_to_le_bytes. reflexivity. Qed.
Lemma pad_app : pad (header kind id flags len ++ message) =
  to_le_bytes 4 CONTROL_MAGIC ++ to_le_bytes 4 kind ++ to_le_bytes 8 id ++ to_le_bytes 4 flags ++ to_le_bytes 4 len ++
  message ++ replicate (Z.to_nat (CONTROL_MESSAGE_MAX_BYTES - len)) 0.
Proof.
  unfold pad. rewrite resize_ge.
  - unfold header. rewrite <- !app_assoc. repeat f_equal. pose proof zlen_header as Hh. unfold header, zlen in *.
    rewrite !length_app, !to_le_bytes_length in *. unfold FRAME_SIZE, CONTROL_MESSAGE_MAX_BYTES in *. lia.
  - pose proof zlen_header as Hh. unfold zlen in *. rewrite length_app. unfold FRAME_SIZE, CONTROL_MESSAGE_MAX_BYTES in *. lia.
Qed.

Ltac slices := repeat (rewrite slice_app_skip by (rewrite zlen_to_le_bytes; lia); rewrite zlen_to_le_bytes); simpl (_ - _)%Z;
  rewrite slice_app_hit by (rewrite ?zlen_to_le_bytes; lia); rewrite ?from_to_le_bytes_id by done.

Lemma from_bytes_frame : utf8_valid message = true ->
  from_bytes (pad (header kind id flags len ++ message)) =
  match kind with
  | 1 => Ok (ConnectOpen id)
  | 2 => Ok (ConnectOpenOk id)
  | 3 => Ok (ConnectOpenErr id (negb (flags =? 0)) message)
  | 4 => Ok (ListenIncoming id)
  | k => Err (UnknownKind k)
  end.
Proof.
  intros Hu. pose proof (zlen_nonneg message) as Hn. rewrite pad_app. unfold from_bytes.
  rewrite !zlen_app, !zlen_to_le_bytes, zlen_replicate, Hm by lia.
  replace (_ =? FRAME_SIZE) with true by (symmetry; apply Z.eqb_eq; unfold FRAME_SIZE; lia). cbn [negb].
  assert (uint 32 len) as Hlen by (unfold uint, CONTROL_MESSAGE_MAX_BYTES in *; lia).
  assert (from_le_bytes (slice 0 4 (to_le_bytes 4 CONTROL_MAGIC ++ to_le_bytes 4 kind ++ to_le_bytes 8 id ++ to_le_bytes 4 flags ++
    to_le_bytes 4 len ++ message ++ replicate (Z.to_nat (CONTROL_MESSAGE_MAX_BYTES - len)) 0)) = CONTROL_MAGIC) as -> by (by slices).
  rewrite Z.eqb_refl. cbn [negb].
  match goal with |- context [slice 20 4 ?b] => assert (from_le_bytes (slice 20 4 b) = len) as -> by (by slices);
    assert (from_le_bytes (slice 4 4 b) = kind) as -> by (by slices); assert (from_le_bytes (slice 8 8 b) = id) as -> by (by slices);
    assert (from_le_bytes (slice 16 4 b) = flags) as -> by (by slices); assert (slice 24 len b = message) as -> by (by slices) end.
  replace (CONTROL_MESSAGE_MAX_BYTES <? len) with false by (symmetry; apply Z.ltb_ge; lia). by rewrite Hu.
Qed.
End Frames.

Lemma from_to_bytes m b : message_ok m -> to_bytes m = Ok b -> from_bytes b = Ok m.
Proof.
  assert (forall k id, uint 32 k -> uint 64 id -> from_bytes (pad (header k id 0 0)) =
    match k with 1 => Ok (ConnectOpen id) | 2 => Ok (ConnectOpenOk id) | 3 => Ok (ConnectOpenErr id false []) | 4 => Ok (ListenIncoming id)
    | k => Err (UnknownKind k) end) as Hs.
  { intros k id Hk Hid. rewrite <- (app_nil_r (header k id 0 0)). by apply from_bytes_frame. }
  destruct m as [id|id|id r message|id]; cbn [to_bytes message_ok]; intros Hok; try (intros [= <-]; by apply Hs).
  destruct (CONTROL_MESSAGE_MAX_BYTES <? zlen message) eqn:E; [done|]. apply Z.ltb_ge in E. intros Hb. destruct Hok as [Hid Hu].
  assert (pad (header 3 id (Z.b2z r) (zlen message) ++ message) = b) as <- by congruence.
  rewrite from_bytes_frame; try done; by destruct r.
Qed.

(** ** The plugin's runtime *)

(** A connection handed over, and the errors a call of [connect] ends with. *)
Abbreviation fd := Z (only parsing).
Inductive PluginError : Type := SendFailed | ChannelClosed | Refused (message : buffer) | MissingFd | Unexpected | ControlClosed (e : ControlError + unit).
Abbreviation caller := nat (only parsing).

(** [PluginRuntime]: a request waits in [pending] with the call that made it; [answers] are
    what the calls got; [incoming] holds the connections nobody has accepted yet. *)
Record PluginRuntime := mk_plugin_runtime {
  next_request_id : Z; pending : gmap Z caller; answers : gmap caller (fd + PluginError);
  incoming : list (fd + PluginError); reading : bool }.

Definition datagram : Type := buffer * option fd.

Definition answer (c : caller) (r : fd + PluginError) (p : PluginRuntime) : PluginRuntime :=
  mk_plugin_runtime p.(next_request_id) p.(pending) (<[c := r]> p.(answers)) p.(incoming) p.(reading).
Definition set_pending (m : gmap Z caller) (p : PluginRuntime) : PluginRuntime :=
  mk_plugin_runtime p.(next_request_id) m p.(answers) p.(incoming) p.(reading).
Definition push_incoming (r : fd + PluginError) (p : PluginRuntime) : PluginRuntime :=
  mk_plugin_runtime p.(next_request_id) p.(pending) p.(answers) (p.(incoming) ++ [r]) p.(reading).
Definition stop_reading (p : PluginRuntime) : PluginRuntime :=
  mk_plugin_runtime p.(next_request_id) p.(pending) p.(answers) p.(incoming) false.

(** [connect] up to the request: a sender that the map drops closes its channel. *)
Definition connect_begin (c : caller) (p : PluginRuntime) : Z * PluginRuntime :=
  let id := p.(next_request_id) in
  let p := mk_plugin_runtime (wrap 64 (id + 1)) p.(pending) p.(answers) p.(incoming) p.(reading) in
  let p := match p.(pending) !! id with Some old => answer old (inr ChannelClosed) p | None => p end in
  (id, set_pending (<[id := c]> p.(pending)) p).
Definition connect_send_failed (c : caller) (id : Z) (p : PluginRuntime) : PluginRuntime :=
  answer c (inr SendFailed) (set_pending (delete id p.(pending)) p).

Definition satisfy_pending (id : Z) (r : fd + PluginError) (p : PluginRuntime) : PluginRuntime :=
  match p.(pending) !! id with
  | Some c => answer c r (set_pending (delete id p.(pending)) p)
  | None => p
  end.
Definition fail_all_pending (e : PluginError) (p : PluginRuntime) : PluginRuntime :=
  mk_plugin_runtime p.(next_request_id) ∅ (list_to_map ((fun kv => (kv.2, inr e)) <$> map_to_list p.(pending)) ∪ p.(answers))
    p.(incoming) p.(reading).

(** [run_control_reader]: one message, or the end of the channel. *)
Definition reader_fails (e : PluginError) (p : PluginRuntime) : PluginRuntime :=
  stop_reading (push_incoming (inr e) (fail_all_pending e p)).
Definition read_message (d : datagram) (p : PluginRuntime) : PluginRuntime :=
  match from_bytes d.1 with
  | Ok (ConnectOpenOk id) =>
      match d.2 with
      | Some f => satisfy_pending id (inl f) p
      | None => satisfy_pending id (inr MissingFd) p
      end
  | Ok (ConnectOpenErr id _ message) => satisfy_pending id (inr (Refused message)) p
  | Ok (ListenIncoming _) =>
      match d.2 with
      | Some f => push_incoming (inl f) p
      | None => push_incoming (inr MissingFd) p
      end
  | Ok (ConnectOpen id) => satisfy_pending id (inr Unexpected) p
  | Err e => reader_fails (ControlClosed (inl e)) p
  | Panic => p
  end.

(** ** The broker *)

(** What [connect_vsock] gives within its time. *)
Inductive connect_result : Type := Connected (f : fd) | ConnectFailed (error : buffer) | ConnectTimedOut.
Inductive BrokerError : Type := BrokerRead (e : ControlError) | BrokerSend (e : ControlError) | BrokerUnexpected (name : buffer).

Definition timeout_message : buffer := bstr "connect_vsock timed out after 5s".
Definition reply_message (id : Z) (r : connect_result) : ControlMessageKind :=
  match r with
  | Connected _ => ConnectOpenOk id
  | ConnectFailed error => ConnectOpenErr id true (bstr "connect_vsock: " ++ error)
  | ConnectTimedOut => ConnectOpenErr id true timeout_message
  end.
Definition reply_fd (r : connect_result) : option fd := match r with Connected f => Some f | _ => None end.

(** One turn of [run_connect_broker]: the reply, or the error with which the broker ends. *)
Definition broker_turn (bytes : buffer) (r : connect_result) : outcome BrokerError datagram :=
  match from_bytes bytes with
  | Ok (ConnectOpen id) =>
      match to_bytes (reply_message id r) with
      | Ok b => Ok (b, reply_fd r)
      | Err e => Err (BrokerSend e)
      | Panic => Panic
      end
  | Ok other => Err (BrokerUnexpected (control_message_name other))
  | Err e => Err (BrokerRead e)
  | Panic => Panic
  end.

(** [run_listen_dispatch]: the frame for the next connection. *)
Definition next_conn_id (conn_id : Z) : Z := Z.min (conn_id + 1) (2 ^ 64 - 1).
Definition incoming_frame (conn_id : Z) (f : fd) : outcome ControlError datagram :=
  b <- to_bytes (ListenIncoming conn_id) ;; Ok (b, Some f).

(** ** A plugin and its broker *)

(** [calls] and [opened] record which request a call made and what the broker found for a
    request. *)
Record channel := mk_channel {
  plugin : PluginRuntime; to_broker : list datagram; to_plugin : list datagram; broker_up : bool;
  calls : gmap caller Z; opened : gmap Z connect_result }.

Definition new_runtime : PluginRuntime := mk_plugin_runtime 1 ∅ ∅ [] true.
Definition new_channel : channel := mk_channel new_runtime [] [] true ∅ ∅.

Definition connect_frame (id : Z) : buffer := pad (header 1 id 0 0).

(** Calls, the broker and the reader take turns in any order; the broker may go away at any
    time, after which the reader sees the replies that were sent and then the end. *)
Inductive cstep : channel -> channel -> Prop :=
| step_call c p p' q r cs op id :
    cs !! c = None -> connect_begin c p = (id, p') ->
    cstep (mk_channel p q r true cs op) (mk_channel p' (q ++ [(connect_frame id, None)]) r true (<[c := id]> cs) op)
| step_call_fails c p p' q r up cs op id :
    cs !! c = None -> connect_begin c p = (id, p') ->
    cstep (mk_channel p q r up cs op) (mk_channel (connect_send_failed c id p') q r up (<[c := id]> cs) op)
| step_broker p b f q r cs op res d id :
    broker_turn b res = Ok d -> from_bytes b = Ok (ConnectOpen id) -> message_ok (reply_message id res) ->
    cstep (mk_channel p ((b, f) :: q) r true cs op) (mk_channel p q (r ++ [d]) true cs (<[id := res]> op))
| step_broker_ends p q r cs op :
    cstep (mk_channel p q r true cs op) (mk_channel p q r false cs op)
| step_reader p q d r up cs op :
    p.(reading) = true -> cstep (mk_channel p q (d :: r) up cs op) (mk_channel (read_message d p) q r up cs op)
| step_reader_end p q cs op :
    p.(reading) = true ->
    cstep (mk_channel p q [] false cs op) (mk_channel (reader_fails (ControlClosed (inr tt)) p) q [] false cs op).
