(* ===== verification/BrokerSpec.v ===== *)
(** * Calls of a plugin and what they get

    The invariant of the channel between a plugin and its broker, by induction on the steps:
    every request is in exactly one place until it is answered. *)

From stdpp Require Import base list option numbers strings gmap relations.
From S2P Require Import Prelude Bytes Utf8 Str Broker.

(** What a call gets for what the broker found. *)
Definition result_of (res : connect_result) : fd + PluginError :=
  match res with
  | Connected f => inl f
  | ConnectFailed error => inr (Refused (bstr "connect_vsock: " ++ error))
  | ConnectTimedOut => inr (Refused timeout_message)
  end.

(** The reply for a request travels to the plugin. *)
Definition replies (op : gmap Z connect_result) (id : Z) (d : datagram) : Prop :=
  exists res, op !! id = Some res /\ message_ok (reply_message id res) /\
  to_bytes (reply_message id res) = Ok d.1 /\ d.2 = reply_fd res.

(** An answer that a call may have got. *)
Definition answered (op : gmap Z connect_result) (id : Z) (r : fd + PluginError) : Prop :=
  r = inr SendFailed \/ r = inr (ControlClosed (inr tt)) \/ exists res, op !! id = Some res /\ r = result_of res.

Record channel_ok (w : channel) (asked sent : list Z) : Prop := mk_channel_ok {
  ok_next : w.(plugin).(next_request_id) = 1 + Z.of_nat (size w.(calls));
  ok_asked : w.(to_broker) = (fun id => (connect_frame id, None)) <$> asked;
  ok_sent : Forall2 (replies w.(opened)) sent w.(to_plugin);
  ok_once : NoDup (asked ++ sent);
  ok_flight : forall id, id ∈ asked ++ sent -> 0 < id < w.(plugin).(next_request_id);
  ok_unopened : forall id, id ∈ asked -> w.(opened) !! id = None;
  ok_opened : forall id res, w.(opened) !! id = Some res -> 0 < id < w.(plugin).(next_request_id);
  ok_pending : forall id c, w.(plugin).(pending) !! id = Some c ->
    id ∈ asked ++ sent /\ w.(calls) !! c = Some id /\ w.(plugin).(answers) !! c = None;
  ok_calls : forall c id, w.(calls) !! c = Some id -> 0 < id < w.(plugin).(next_request_id) /\
    (w.(plugin).(pending) !! id = Some c \/ exists r, w.(plugin).(answers) !! c = Some r /\ answered w.(opened) id r);
  ok_distinct : forall c c' id, w.(calls) !! c = Some id -> w.(calls) !! c' = Some id -> c = c';
  ok_answers : forall c r, w.(plugin).(answers) !! c = Some r -> is_Some (w.(calls) !! c);
  ok_ended : w.(plugin).(reading) = false -> w.(plugin).(pending) = ∅ /\ w.(broker_up) = false }.

Lemma new_channel_ok : channel_ok new_channel [] [].
Proof. split; simpl; try done; try apply NoDup_nil_2; intros *; rewrite ?lookup_empty, ?elem_of_nil; done. Qed.

Lemma connect_frame_parses id : uint 64 id -> from_bytes (connect_frame id) = Ok (ConnectOpen id).
Proof. intros Hid. by apply (from_to_bytes (ConnectOpen id)). Qed.

(** A new request has a number of its own. *)
Lemma connect_begin_ok w asked sent c id p' : channel_ok w asked sent -> Z.of_nat (size w.(calls)) + 1 < 2 ^ 64 - 1 ->
  w.(calls) !! c = None -> connect_begin c w.(plugin) = (id, p') ->
  id = w.(plugin).(next_request_id) /\ uint 64 id /\
  p' = mk_plugin_runtime (id + 1) (<[id := c]> w.(plugin).(pending)) w.(plugin).(answers) w.(plugin).(incoming) w.(plugin).(reading).
Proof.
  intros [Hn _ _ _ Hfl _ _ Hp _ _ _ _] Hs Hc. unfold connect_begin. cbn [pending].
  assert (uint 64 (next_request_id (plugin w) + 1)) as Hu by (unfold uint; lia).
  destruct (pending (plugin w) !! next_request_id (plugin w)) as [old|] eqn:E.
  - destruct (Hp _ _ E) as [Hin _]. specialize (Hfl _ Hin). lia.
  - intros [= <- <-]. split; [done|]. split; [unfold uint in *; lia|]. unfold set_pending. cbn [next_request_id pending answers incoming reading].
    by rewrite (wrap_id 64).
Qed.

Lemma call_ok w asked sent c id p' : channel_ok w asked sent -> Z.of_nat (size w.(calls)) + 1 < 2 ^ 64 - 1 ->
  w.(calls) !! c = None -> connect_begin c w.(plugin) = (id, p') -> w.(broker_up) = true ->
  channel_ok (mk_channel p' (w.(to_broker) ++ [(connect_frame id, None)]) w.(to_plugin) true (<[c := id]> w.(calls)) w.(opened))
    (asked ++ [id]) sent.
Proof.
  intros Hok Hs Hc Hb Hup. destruct (connect_begin_ok _ _ _ _ _ _ Hok Hs Hc Hb) as (Hid & Hu & ->).
  destruct Hok as [Hn Ha Hse Ho Hfl Hun Hop Hp Hca Hd Han He]. split; cbn [plugin to_broker to_plugin broker_up calls opened next_request_id pending answers reading].
  - rewrite map_size_insert_None by done. lia.
  - by rewrite Ha, fmap_app.
  - done.
  - assert (id ∉ asked ++ sent) as Hni by (intros Hi; specialize (Hfl _ Hi); lia).
    rewrite <- app_assoc. cbn [app]. rewrite <- Permutation_middle. by apply NoDup_cons_2.
  - intros i. rewrite !elem_of_app, list_elem_of_singleton. intros Hi. assert (i ∈ asked ++ sent \/ i = id) as [Hin| ->] by set_solver.
    + specialize (Hfl _ Hin). lia.
    + lia.
  - intros i [Hi| ->%list_elem_of_singleton]%elem_of_app; [by apply Hun|]. destruct (opened w !! id) eqn:E; [|done]. specialize (Hop _ _ E). lia.
  - intros i res Hi. specialize (Hop _ _ Hi). lia.
  - intros i c'. rewrite lookup_insert_Some. intros [[<- <-]|[Hne Hi]].
    + rewrite lookup_insert_eq. split; [set_solver|]. split; [done|]. destruct (answers (plugin w) !! c) eqn:E; [|done].
      destruct (Han _ _ E). congruence.
    + destruct (Hp _ _ Hi) as (Hin & Hcc & Hna). split; [set_solver|]. split; [|done]. rewrite lookup_insert_ne; [done|]. intros ->. congruence.
  - intros c' i. rewrite lookup_insert_Some. intros [[<- <-]|[Hne Hi]].
    + split; [lia|]. left. apply lookup_insert_eq.
    + destruct (Hca _ _ Hi) as [Hr [Hpe|Hr']]; (split; [lia|]); [left|by right]. rewrite lookup_insert_ne by lia. done.
  - intros c1 c2 i. rewrite !lookup_insert_Some. intros [[<- <-]|[Hne Hi]] [[<- E]|[Hne' Hi']]; try done.
    + destruct (Hca _ _ Hi'). lia.
    + subst i. destruct (Hca _ _ Hi). lia.
    + by apply (Hd _ _ i).
  - intros c' r Hr. apply lookup_insert_is_Some'. right. by apply (Han c' r).
  - intros Hr. destruct (He Hr). congruence.
Qed.

(** A call that could not send its request leaves nothing behind. *)
Lemma call_fails_ok w asked sent c id p' : channel_ok w asked sent -> Z.of_nat (size w.(calls)) + 1 < 2 ^ 64 - 1 ->
  w.(calls) !! c = None -> connect_begin c w.(plugin) = (id, p') ->
  channel_ok (mk_channel (connect_send_failed c id p') w.(to_broker) w.(to_plugin) w.(broker_up) (<[c := id]> w.(calls)) w.(opened)) asked sent.
Proof.
  intros Hok Hs Hc Hb. destruct (connect_begin_ok _ _ _ _ _ _ Hok Hs Hc Hb) as (Hid & Hu & ->).
  destruct Hok as [Hn Ha Hse Ho Hfl Hun Hop Hp Hca Hd Han He].
  assert (w.(plugin).(pending) !! id = None) as Hnp.
  { destruct (w.(plugin).(pending) !! id) eqn:E; [|done]. destruct (Hp _ _ E) as [Hin _]. specialize (Hfl _ Hin). lia. }
  unfold connect_send_failed, answer, set_pending. cbn [next_request_id pending answers incoming reading]. rewrite delete_insert_id by done.
  split; cbn [plugin to_broker to_plugin broker_up calls opened next_request_id pending answers reading]; try done.
  - rewrite map_size_insert_None by done. lia.
  - intros i Hi. specialize (Hfl _ Hi). lia.
  - intros i res Hi. specialize (Hop _ _ Hi). lia.
  - intros i c' Hi. destruct (Hp _ _ Hi) as (Hin & Hcc & Hna). split; [done|]. rewrite !lookup_insert_ne by congruence. done.
  - intros c' i. rewrite lookup_insert_Some. intros [[<- <-]|[Hne Hi]].
    + split; [lia|]. right. exists (inr SendFailed). split; [apply lookup_insert_eq|by left].
    + destruct (Hca _ _ Hi) as [Hr [Hpe|(r & Hr' & Hr'')]]; (split; [lia|]); [by left|right; exists r]. by rewrite lookup_insert_ne.
  - intros c1 c2 i. rewrite !lookup_insert_Some. intros [[<- <-]|[Hne Hi]] [[<- E]|[Hne' Hi']]; try done.
    + destruct (Hca _ _ Hi'). lia.
    + subst i. destruct (Hca _ _ Hi). lia.
    + by apply (Hd _ _ i).
  - intros c' r. rewrite lookup_insert_Some. intros [[<- <-]|[Hne Hr]]; apply lookup_insert_is_Some'; [by left|right]. by apply (Han c' r).
Qed.

Lemma answered_later op id res i r : op !! id = None -> answered op i r -> answered (<[id := res]> op) i r.
Proof.
  intros Hn [->|[->|(x & Hx & ->)]]; [by left|by right; left|]. right; right. exists x. split; [|done].
  rewrite lookup_insert_ne by congruence. done.
Qed.

(** The broker takes a request and sends the reply. *)
Lemma broker_ok w asked sent b f q res d id : channel_ok w asked sent -> Z.of_nat (size w.(calls)) < 2 ^ 64 - 1 ->
  w.(to_broker) = (b, f) :: q -> w.(broker_up) = true -> broker_turn b res = Ok d -> from_bytes b = Ok (ConnectOpen id) ->
  message_ok (reply_message id res) ->
  exists asked', asked = id :: asked' /\
  channel_ok (mk_channel w.(plugin) q (w.(to_plugin) ++ [d]) true w.(calls) (<[id := res]> w.(opened))) asked' (sent ++ [id]).
Proof.
  intros [Hn Ha Hse Ho Hfl Hun Hop Hp Hca Hd Han He] Hs Hq Hup Ht Hb Hm. rewrite Ha in Hq.
  destruct asked as [|i asked]; [done|]. cbn [fmap list_fmap] in Hq. injection Hq as Hi _ Hq. 
  assert (i = id) as ->.
  { rewrite <- Hi, connect_frame_parses in Hb; [by injection Hb|]. specialize (Hfl i (list_elem_of_here _ _)). unfold uint. lia. }
  exists asked. split; [done|]. unfold broker_turn in Ht. rewrite Hb in Ht. destruct (to_bytes _) as [bb|e|] eqn:E; [|done|done]. injection Ht as <-.
  pose proof (Hun id (list_elem_of_here _ _)) as Hno. assert (id :: asked ++ sent ≡ₚ asked ++ sent ++ [id]) as Hperm.
  { rewrite (app_assoc asked sent [id]). apply Permutation_cons_append. }
  split; cbn [plugin to_broker to_plugin broker_up calls opened]; try done.
  - apply Forall2_app.
    + eapply Forall2_impl; [exact Hse|]. intros i x (y & Hy & Hrest). exists y. split; [|done]. rewrite lookup_insert_ne by congruence. done.
    + constructor; [|constructor]. exists res. by rewrite lookup_insert_eq.
  - by rewrite <- Hperm.
  - intros i. rewrite <- Hperm. apply Hfl.
  - intros i Hi'. rewrite lookup_insert_ne; [apply Hun; by right|]. intros <-. apply NoDup_cons in Ho as [Hni _]. apply Hni, elem_of_app. by left.
  - intros i y. rewrite lookup_insert_Some. intros [[<- <-]|[_ Hy]]; [|by apply Hop in Hy]. apply Hfl. by left.
  - intros i c Hi'. destruct (Hp _ _ Hi') as (Hin & Hrest). split; [|done]. by rewrite <- Hperm.
  - intros c i Hi'. destruct (Hca _ _ Hi') as [Hr [Hpe|(r & Hr' & Hr'')]]; (split; [done|]); [by left|right]. exists r. split; [done|]. by apply answered_later.
  - intros Hr. destruct (He Hr). congruence.
Qed.

Lemma read_reply op id d p : replies op id d -> exists res, op !! id = Some res /\ read_message d p = satisfy_pending id (result_of res) p.
Proof.
  intros (res & Hr & Hm & Hb & Hf). exists res. split; [done|]. unfold read_message. rewrite (from_to_bytes _ _ Hm Hb).
  destruct res; simpl in *; [by rewrite Hf|done|done].
Qed.

Lemma satisfy_fields id r p : (satisfy_pending id r p).(next_request_id) = p.(next_request_id) /\
  (satisfy_pending id r p).(reading) = p.(reading) /\ (satisfy_pending id r p).(pending) = delete id p.(pending) /\
  forall c, (satisfy_pending id r p).(answers) !! c = if decide (p.(pending) !! id = Some c) then Some r else p.(answers) !! c.
Proof.
  unfold satisfy_pending. destruct (pending p !! id) as [c|] eqn:E; simpl.
  - split_and!; try done. intros c'. case_decide as Hd; [injection Hd as ->; apply lookup_insert_eq|]. apply lookup_insert_ne. congruence.
  - split_and!; try done. by rewrite delete_id.
Qed.

(** The plugin reads a reply. *)
Lemma reader_ok w asked sent d r : channel_ok w asked sent -> w.(plugin).(reading) = true -> w.(to_plugin) = d :: r ->
  exists sent', channel_ok (mk_channel (read_message d w.(plugin)) w.(to_broker) r w.(broker_up) w.(calls) w.(opened)) asked sent'.
Proof.
  intros [Hn Ha Hse Ho Hfl Hun Hop Hp Hca Hd Han He] Hre Hr. rewrite Hr in Hse. apply Forall2_cons_inv_r in Hse as (id & sent' & Hd' & Hse & ->).
  exists sent'. destruct (read_reply _ _ _ w.(plugin) Hd') as (res & Hres & ->).
  destruct (satisfy_fields id (result_of res) w.(plugin)) as (En & Er & Ep & Ea).
  assert (asked ++ id :: sent' ≡ₚ id :: asked ++ sent') as Hperm by (by rewrite Permutation_middle).
  rewrite Hperm in Ho. apply NoDup_cons in Ho as [Hni Ho].
  split; cbn [plugin to_broker to_plugin broker_up calls opened]; rewrite ?En, ?Er, ?Ep; try done.
  - intros i Hi. apply Hfl. rewrite Hperm. by right.
  - intros i c. rewrite lookup_delete_Some, Ea. intros [Hne Hi]. destruct (Hp _ _ Hi) as (Hin & Hcc & Hna). split; [|split; [done|]].
    + rewrite Hperm, elem_of_cons in Hin. destruct Hin; [congruence|done].
    + case_decide as Hc; [|done]. destruct (Hp _ _ Hc) as (_ & Hc' & _). congruence.
  - intros c i Hi. destruct (Hca _ _ Hi) as [Hb Hor]. split; [done|]. rewrite Ea. case_decide as Hc.
    + right. exists (result_of res). split; [done|]. destruct (Hp _ _ Hc) as (_ & Hc' & _). right; right. exists res. split; [congruence|done].
    + destruct Hor as [Hpe|Hr']; [left|by right]. apply lookup_delete_Some. split; [congruence|done].
  - intros c x. rewrite Ea. case_decide as Hc; [|by apply Han]. intros _. destruct (Hp _ _ Hc) as (_ & Hc' & _). eauto.
  - congruence.
Qed.


Lemma failed_pending e p c : (exists id, p.(pending) !! id = Some c) -> (fail_all_pending e p).(answers) !! c = Some (inr e).
Proof.
  intros [id Hid]. simpl. rewrite lookup_union. set (l := _ <$> _). assert ((c, inr e) ∈ l) as Hin.
  { unfold l. apply list_elem_of_fmap. exists (id, c). by rewrite elem_of_map_to_list. }
  destruct (list_to_map l !! c) as [r|] eqn:E.
  - apply elem_of_list_to_map_2 in E. unfold l in E. apply list_elem_of_fmap in E as ((i & c') & [= -> ->] & _). by destruct (answers p !! c').
  - apply not_elem_of_list_to_map_2 in E. destruct E. by apply (list_elem_of_fmap_2 fst _ (c, inr e)).
Qed.
Lemma failed_kept e p c : (forall id, p.(pending) !! id <> Some c) -> (fail_all_pending e p).(answers) !! c = p.(answers) !! c.
Proof.
  intros Hno. simpl. rewrite lookup_union. set (l := _ <$> _). rewrite (not_elem_of_list_to_map_1 l c); [by rewrite (left_id_L None _)|].
  unfold l. rewrite <- list_fmap_compose, list_elem_of_fmap. intros ((i & c') & -> & Hi%elem_of_map_to_list). by apply (Hno i).
Qed.

(** The channel ends: whoever still waits gets the error. *)
Lemma reader_end_ok w asked sent : channel_ok w asked sent -> w.(broker_up) = false -> w.(to_plugin) = [] ->
  channel_ok (mk_channel (reader_fails (ControlClosed (inr tt)) w.(plugin)) w.(to_broker) [] false w.(calls) w.(opened)) asked sent.
Proof.
  intros [Hn Ha Hse Ho Hfl Hun Hop Hp Hca Hd Han He] Hup Hr. rewrite Hr in Hse. set (e := ControlClosed (inr tt)).
  assert (forall c, (reader_fails e w.(plugin)).(answers) !! c = (fail_all_pending e w.(plugin)).(answers) !! c) as Ea by done.
  split; cbn [plugin to_broker to_plugin broker_up calls opened]; try done.
  - intros c i Hi. destruct (Hca _ _ Hi) as [Hb Hor]. split; [done|]. right. rewrite Ea. destruct Hor as [Hpe|(r & Hr' & Hr'')].
    + exists (inr e). rewrite failed_pending by eauto. split; [done|]. by right; left.
    + exists r. rewrite failed_kept; [done|]. intros id Hid. destruct (Hp _ _ Hid) as (_ & _ & Hna). congruence.
  - intros c r. rewrite Ea. destruct (w.(calls) !! c) as [id|] eqn:E; [eauto|]. rewrite failed_kept; [intros Hx; by destruct (Han _ _ Hx); congruence|].
    intros id Hid. destruct (Hp _ _ Hid) as (_ & Hcc & _). congruence.
Qed.

Lemma cstep_calls w w' : cstep w w' -> (size w.(calls) <= size w'.(calls))%nat.
Proof. intros Hs. destruct Hs; simpl; rewrite ?map_size_insert_None by done; lia. Qed.

Lemma cstep_ok w w' : cstep w w' -> Z.of_nat (size w'.(calls)) < 2 ^ 64 - 1 ->
  (exists asked sent, channel_ok w asked sent) -> exists asked sent, channel_ok w' asked sent.
Proof.
  intros Hs Hsz (asked & sent & Hok). destruct Hs as [c p p' q r cs op id Hc Hb|c p p' q r up cs op id Hc Hb|p b f q r cs op res d id Ht Hb Hm|p q r cs op|p q d r up cs op Hre|p q cs op Hre]; simpl in Hsz.
  - rewrite map_size_insert_None in Hsz by done. eexists _, _. eapply (call_ok (mk_channel p q r true cs op)); simpl; eauto. lia.
  - rewrite map_size_insert_None in Hsz by done. eexists _, _. eapply (call_fails_ok (mk_channel p q r up cs op)); simpl; eauto. lia.
  - edestruct (broker_ok (mk_channel p ((b, f) :: q) r true cs op)) as (asked' & _ & Hok'); simpl; eauto.
  - exists asked, sent. destruct Hok as [Hn Ha Hse Ho Hfl Hun Hop Hp Hca Hd Han He]. split; simpl in *; try done. intros Hr. by destruct (He Hr).
  - edestruct (reader_ok (mk_channel p q (d :: r) up cs op)) as (sent' & Hok'); simpl; eauto.
  - eexists _, _. by eapply (reader_end_ok (mk_channel p q [] false cs op)).
Qed.

Lemma channel_reachable_ok w w' : rtc cstep w w' -> (exists asked sent, channel_ok w asked sent) -> Z.of_nat (size w'.(calls)) < 2 ^ 64 - 1 ->
  exists asked sent, channel_ok w' asked sent.
Proof.
  intros Hr. induction Hr as [|w1 w2 w3 Hs Hr IH]; [done|]. intros Hok Hsz. apply IH; [|done]. eapply cstep_ok; [done| |done].
  clear IH Hok Hs. induction Hr as [|a b c Ha Hr IH]; [done|]. specialize (IH Hsz). pose proof (cstep_calls _ _ Ha). lia.
Qed.

(** An answer stays. *)
Lemma cstep_keeps_answer w w' asked sent c r : channel_ok w asked sent -> cstep w w' -> Z.of_nat (size w'.(calls)) < 2 ^ 64 - 1 ->
  w.(plugin).(answers) !! c = Some r -> w'.(plugin).(answers) !! c = Some r.
Proof.
  intros Hok Hs Hsz. pose proof (ok_answers _ _ _ Hok) as Han. pose proof (ok_pending _ _ _ Hok) as Hp.
  destruct Hs as [x p p' q r' cs op id Hc Hb|x p p' q r' up cs op id Hc Hb|p b f q r' cs op res d id Ht Hb Hm|p q r' cs op|p q d r' up cs op Hre|p q cs op Hre];
    simpl in *; try done.
  - rewrite map_size_insert_None in Hsz by done.
    destruct (connect_begin_ok (mk_channel p q r' true cs op) _ _ _ _ _ Hok ltac:(simpl; lia) Hc Hb) as (_ & _ & ->). done.
  - rewrite map_size_insert_None in Hsz by done. intros Hr.
    destruct (connect_begin_ok (mk_channel p q r' up cs op) _ _ _ _ _ Hok ltac:(simpl; lia) Hc Hb) as (_ & _ & ->). simpl.
    rewrite lookup_insert_ne; [done|]. intros ->. destruct (Han _ _ Hr). congruence.
  - intros Hr. pose proof (ok_sent _ _ _ Hok) as Hse. simpl in Hse. apply Forall2_cons_inv_r in Hse as (id & sent' & Hd' & _ & _).
    destruct (read_reply _ _ _ p Hd') as (res & _ & ->). destruct (satisfy_fields id (result_of res) p) as (_ & _ & _ & ->).
    case_decide as Hc; [|done]. destruct (Hp _ _ Hc) as (_ & _ & Hna). congruence.
  - intros Hr. rewrite <- Hr. apply failed_kept. intros id Hid. destruct (Hp _ _ Hid) as (_ & _ & Hna). congruence.
Qed.

(** C28 connects_answered: whatever the order in which calls, broker and reader run, no two calls of
    [connect] share a request, and a call gets either the connection or the error that the broker found for its own
    request, or one of the errors that the channel gives; it never gets more than one answer.
    When the channel is quiet and the broker is there, every call has its answer.  Request numbers are
    those of the first 2^64 - 2 calls. *)
Theorem connects_answered w : rtc cstep new_channel w -> Z.of_nat (size w.(calls)) < 2 ^ 64 - 1 ->
  (forall c c' id, w.(calls) !! c = Some id -> w.(calls) !! c' = Some id -> c = c') /\
  (forall c id r, w.(calls) !! c = Some id -> w.(plugin).(answers) !! c = Some r -> answered w.(opened) id r) /\
  (forall w' c r, cstep w w' -> Z.of_nat (size w'.(calls)) < 2 ^ 64 - 1 -> w.(plugin).(answers) !! c = Some r -> w'.(plugin).(answers) !! c = Some r) /\
  (w.(to_broker) = [] -> w.(to_plugin) = [] -> w.(broker_up) = true -> forall c, is_Some (w.(calls) !! c) -> is_Some (w.(plugin).(answers) !! c)).
Proof.
  intros Hr Hsz. destruct (channel_reachable_ok _ _ Hr (ex_intro _ [] (ex_intro _ [] new_channel_ok)) Hsz) as (asked & sent & Hok).
  pose proof Hok as [Hn Ha Hse Ho Hfl Hun Hop Hp Hca Hd Han He]. split; [done|]. split; [|split].
  - intros c id r Hc Hr'. destruct (Hca _ _ Hc) as [_ [Hpe|(x & Hx & Hx')]]; [|congruence]. destruct (Hp _ _ Hpe) as (_ & _ & Hna). congruence.
  - intros w' c r Hs Hsz'. by eapply cstep_keeps_answer.
  - intros Hq1 Hq2 Hup c [id Hid]. destruct (Hca _ _ Hid) as [_ [Hpe|(x & Hx & _)]]; [|eauto]. destruct (Hp _ _ Hpe) as (Hin & _).
    rewrite Hq2 in Hse. apply Forall2_nil_inv_r in Hse as ->. rewrite Ha in Hq1. apply fmap_nil_inv in Hq1 as ->. by apply elem_of_nil in Hin.
Qed.

(** ** A run *)

Definition asked_once : channel :=
  mk_channel (connect_begin 7 new_runtime).2 [(connect_frame 1, None)] [] true {[7%nat := 1]} ∅.
Definition opened_once : channel :=
  mk_channel asked_once.(plugin) [] [(pad (header 2 1 0 0), Some 40)] true {[7%nat := 1]} {[1 := Connected 40]}.
Definition connected_once : channel :=
  mk_channel (read_message (pad (header 2 1 0 0), Some 40) asked_once.(plugin)) [] [] true {[7%nat := 1]} {[1 := Connected 40]}.

Lemma connects_answered_witness :
  (forall c c' id, connected_once.(calls) !! c = Some id -> connected_once.(calls) !! c' = Some id -> c = c') /\
  (forall c id r, connected_once.(calls) !! c = Some id -> connected_once.(plugin).(answers) !! c = Some r -> answered connected_once.(opened) id r) /\
  (forall w' c r, cstep connected_once w' -> Z.of_nat (size w'.(calls)) < 2 ^ 64 - 1 ->
     connected_once.(plugin).(answers) !! c = Some r -> w'.(plugin).(answers) !! c = Some r) /\
  (connected_once.(to_broker) = [] -> connected_once.(to_plugin) = [] -> connected_once.(broker_up) = true ->
     forall c, is_Some (connected_once.(calls) !! c) -> is_Some (connected_once.(plugin).(answers) !! c)).
Proof.
  apply (connects_answered connected_once); [|vm_compute; reflexivity].
  apply (rtc_l _ _ asked_once); [by apply (step_call 7 new_runtime (connect_begin 7 new_runtime).2 [] [] ∅ ∅ 1)|].
  apply (rtc_l _ _ opened_once).
  { apply (step_broker (plugin asked_once) (connect_frame 1) None [] [] {[7%nat := 1]} ∅ (Connected 40) (pad (header 2 1 0 0), Some 40) 1);
      [vm_compute; reflexivity|vm_compute; reflexivity|by split]. }
  apply (rtc_l _ _ connected_once); [|constructor]. by apply step_reader.
Defined.
Example connected_answer : connected_once.(plugin).(answers) !! 7%nat = Some (inl 40).
Proof. vm_compute. reflexivity. Qed.

(** A connection error with a long text does not reach the plugin: it ends the broker, and
    with it the endpoint. *)
Example long_error_stops_broker :
  broker_turn (connect_frame 1) (ConnectFailed (replicate 250 97)) = Err (BrokerSend MessageTooLong).
Proof. vm_compute. reflexivity. Qed.
