(* ===== verification/Endpoints.v ===== *)
(** * Endpoint supervision in the monitor

    [runtime/vmmon/src/endpoints.rs] and [endpoints/plugin.rs]: a plugin is started, waited
    for, watched and, as its policy says, started again after a delay.  What happens to a
    plugin is a list of events, in the order in which the code sees them; what the code does to the plugin
    and to the task that serves its control socket is a list of effects.  Times are in
    milliseconds.  JSON and process creation are parameters; logging is left out. *)

From stdpp Require Import base list option numbers strings gmap.
From S2P Require Import Prelude Bytes Utf8 Str HostFs MachineModel Broker.

(** ** The plugin's side of the start *)

Inductive PluginTransport : Type := BrokeredConnect | ListenAccept.
#[export] Instance plugin_transport_eq_dec : EqDecision PluginTransport.
Proof. solve_decision. Defined.

(** [PluginTransport::for_mode] *)
Definition for_mode (m : VsockEndpointMode) : PluginTransport :=
  match m with Connect => BrokeredConnect | Listen => ListenAccept end.
(** The name of a mode, in logs and in JSON. *)
Definition endpoint_mode_name (m : VsockEndpointMode) : buffer :=
  match m with Connect => bstr "connect" | Listen => bstr "listen" end.
Definition restart_policy_name (p : RestartPolicy) : buffer :=
  match p with Never => bstr "never" | OnFailure => bstr "on_failure" | Always => bstr "always" end.

Record StartupMessage := mk_startup {
  api_version : Z; vsock_endpoint : buffer; startup_mode : buffer; startup_port : Z; transport : PluginTransport;
  runtime_dir : buffer; startup_config : option buffer; startup_fd : Z }.

(** [StartupMessage::new], as the plugin decodes it *)
Definition startup_message (e : VsockEndpoint) (dir : buffer) (f : Z) : StartupMessage :=
  mk_startup 1 e.(endpoint_name) (endpoint_mode_name e.(endpoint_mode)) e.(endpoint_port) (for_mode e.(endpoint_mode)) dir
    e.(endpoint_plugin).(plugin_config) f.

Inductive StartupError : Type := BadApiVersion (v : Z) | BadFd (f : Z) | BadMode (mode : buffer) | BadTransport (t : PluginTransport).
Definition expect_api_v1 (s : StartupMessage) : outcome StartupError unit :=
  if negb (s.(api_version) =? 1) then Err (BadApiVersion s.(api_version))
  else if negb (s.(startup_fd) =? 3) then Err (BadFd s.(startup_fd)) else Ok tt.
Definition expect_connect (s : StartupMessage) : outcome StartupError unit :=
  _ <- expect_api_v1 s ;;
  if negb (bool_decide (s.(startup_mode) = bstr "connect")) then Err (BadMode s.(startup_mode))
  else if negb (bool_decide (s.(transport) = BrokeredConnect)) then Err (BadTransport s.(transport)) else Ok tt.
Definition expect_listen (s : StartupMessage) : outcome StartupError unit :=
  _ <- expect_api_v1 s ;;
  if negb (bool_decide (s.(startup_mode) = bstr "listen")) then Err (BadMode s.(startup_mode))
  else if negb (bool_decide (s.(transport) = ListenAccept)) then Err (BadTransport s.(transport)) else Ok tt.

(** ** What is seen of a plugin *)

Inductive PluginEvent : Type := Ready | PluginFailed (message : buffer).

(** [spawn_stdout_reader]: lines, or a failure to read one; [None] at the end of the output. *)
Section Stdout.
Variable parse_event : buffer -> option PluginEvent.
Fixpoint stdout_events (lines : list (option buffer)) : list (option PluginEvent) :=
  match lines with
  | [] => [None]
  | None :: _ => [Some (PluginFailed (bstr "read plugin stdout")); None]
  | Some line :: rest =>
      match parse_event line with
      | Some e => Some e :: stdout_events rest
      | None => [Some (PluginFailed (bstr "invalid plugin stdout event")); None]
      end
  end.
End Stdout.

Inductive Failure : Type :=
| ListenFailed | SocketPairFailed | RuntimeDirFailed | SpawnFailed | NotReady (timeout : Z) | StdoutClosedEarly
| StdoutClosed | ReportedFailure (message : buffer) | BadStatus (code : Z) | WaitFailed | ControlFailed (message : buffer).
Inductive EndpointOutcome : Type := Shutdown | ExitedCleanly | Failed (why : Failure).

(** What [select!] finds: the cancellation, the end of the time to start, the exit of the process, a line of its
    output, the end of the control task.  [polled] says that the branch of the control task
    was polled before. *)
Inductive event : Type :=
| EvShutdown | EvDeadline | EvExit (status : option Z) | EvStdout (e : option PluginEvent) | EvControl (r : unit + buffer).
Record seen_event := mk_seen { polled : bool; ev : event }.

Inductive effect : Type := SpawnControl | AbortControl | DetachControl | Kill.

Definition child_exit_outcome (status : option Z) : EndpointOutcome :=
  match status with
  | Some 0 => ExitedCleanly
  | Some code => Failed (BadStatus code)
  | None => Failed WaitFailed
  end.

(** Events of branches that the code does not wait for are passed over; [None]: still waiting. *)
Fixpoint wait_for_plugin_ready (timeout : Z) (l : list seen_event) : option ((unit + EndpointOutcome) * list effect * list seen_event) :=
  match l with
  | [] => None
  | s :: l =>
      match s.(ev) with
      | EvShutdown => Some (inr Shutdown, [Kill], l)
      | EvDeadline => Some (inr (Failed (NotReady timeout)), [Kill], l)
      | EvExit status => Some (inr (child_exit_outcome status), [], l)
      | EvStdout (Some Ready) => Some (inl tt, [], l)
      | EvStdout (Some (PluginFailed m)) => Some (inr (Failed (ReportedFailure m)), [Kill], l)
      | EvStdout None => Some (inr (Failed StdoutClosedEarly), [], l)
      | EvControl _ => wait_for_plugin_ready timeout l
      end
  end.

Definition handle_plugin_event (e : option PluginEvent) : option EndpointOutcome :=
  match e with
  | Some Ready => None
  | Some (PluginFailed m) => Some (Failed (ReportedFailure m))
  | None => Some (Failed StdoutClosed)
  end.

(** The handle of the control task: [await_broker] takes it when it is first polled, so that
    it is gone when another branch wins after that. *)
Definition after_poll (broker : bool) (s : seen_event) : bool * list effect :=
  if broker && s.(polled) then (false, [DetachControl]) else (broker, []).
(** [stop_control_task] *)
Definition stop_control_task (broker : bool) : list effect := if broker then [AbortControl] else [].

Fixpoint run_plugin_event_loop (broker : bool) (l : list seen_event) : option (EndpointOutcome * list effect) :=
  match l with
  | [] => None
  | s :: l =>
      match s.(ev) with
      | EvShutdown => let '(broker, eff) := after_poll broker s in Some (Shutdown, eff ++ stop_control_task broker ++ [Kill])
      | EvExit status => let '(broker, eff) := after_poll broker s in Some (child_exit_outcome status, eff ++ stop_control_task broker)
      | EvStdout e =>
          let '(broker, eff) := after_poll broker s in
          match handle_plugin_event e with
          | Some ExitedCleanly => Some (ExitedCleanly, eff ++ stop_control_task broker)
          | Some outcome => Some (outcome, eff ++ stop_control_task broker ++ [Kill])
          | None => '(o, eff') ← run_plugin_event_loop broker l; Some (o, eff ++ eff')
          end
      | EvControl r =>
          if broker then
            match r with
            | inl _ => run_plugin_event_loop false l
            | inr m => Some (Failed (ControlFailed m), [Kill])
            end
          else run_plugin_event_loop broker l
      | EvDeadline => run_plugin_event_loop broker l
      end
  end.

(** ** One run of an endpoint *)

Record run_env := mk_run {
  cancelled : bool; listens : bool; started : unit + Failure; events : list seen_event; elapsed : Z; cancelled_in_sleep : bool }.

Definition finish_run (before : list effect) (r : EndpointOutcome * list effect) : EndpointOutcome * list effect :=
  (r.1, before ++ r.2 ++ match r.1 with Shutdown => [] | _ => [Kill] end).

Definition run_connect_endpoint (e : VsockEndpoint) (r : run_env) : option (EndpointOutcome * list effect) :=
  match r.(started) with
  | inr why => Some (Failed why, [])
  | inl _ =>
      match wait_for_plugin_ready e.(endpoint_lifecycle).(startup_timeout_ms) r.(events) with
      | None => None
      | Some (inr outcome, eff, _) => Some (outcome, SpawnControl :: eff ++ [AbortControl])
      | Some (inl _, eff, l) => finish_run (SpawnControl :: eff) <$> run_plugin_event_loop true l
      end
  end.

Definition run_listen_endpoint (e : VsockEndpoint) (r : run_env) : option (EndpointOutcome * list effect) :=
  if negb r.(listens) then Some (Failed ListenFailed, []) else
  match r.(started) with
  | inr why => Some (Failed why, [])
  | inl _ =>
      match wait_for_plugin_ready e.(endpoint_lifecycle).(startup_timeout_ms) r.(events) with
      | None => None
      | Some (inr outcome, eff, _) => Some (outcome, eff)
      | Some (inl _, eff, l) => finish_run (eff ++ [SpawnControl]) <$> run_plugin_event_loop true l
      end
  end.

Definition run_endpoint (e : VsockEndpoint) (r : run_env) : option (EndpointOutcome * list effect) :=
  match e.(endpoint_mode) with
  | Connect => run_connect_endpoint e r
  | Listen => run_listen_endpoint e r
  end.

(** ** Supervision *)

Definition STABLE_RUN_RESET : Z := 30 * 1000.
(** [Duration::MAX], rounded down *)
Definition DURATION_MAX : Z := 2 ^ 64 * 1000 - 1.
Definition endpoint_backoff_initial (e : VsockEndpoint) : Z := e.(endpoint_lifecycle).(backoff_ms).(backoff_initial).
Definition endpoint_backoff_max (e : VsockEndpoint) : Z := e.(endpoint_lifecycle).(backoff_ms).(backoff_max).
Definition next_backoff (e : VsockEndpoint) (b : Z) : Z := Z.min (Z.min (2 * b) DURATION_MAX) (endpoint_backoff_max e).

Definition should_restart (p : RestartPolicy) (o : EndpointOutcome) : bool :=
  match p, o with
  | _, Shutdown => false
  | Never, _ => false
  | OnFailure, ExitedCleanly => false
  | OnFailure, Failed _ => true
  | Always, _ => true
  end.

(** How each run ended, and the delay after it unless supervision ended with it. *)
Fixpoint supervise_loop (e : VsockEndpoint) (backoff : Z) (runs : list run_env) : list (EndpointOutcome * option Z) :=
  match runs with
  | [] => []
  | r :: runs =>
      if r.(cancelled) then [] else
      match run_endpoint e r with
      | None => []
      | Some (outcome, _) =>
          if negb (should_restart e.(endpoint_lifecycle).(restart) outcome) then [(outcome, None)] else
          let backoff := if STABLE_RUN_RESET <=? r.(elapsed) then endpoint_backoff_initial e else backoff in
          if r.(cancelled_in_sleep) then [(outcome, None)]
          else (outcome, Some backoff) :: supervise_loop e (next_backoff e backoff) runs
      end
  end.
Definition supervise_endpoint (e : VsockEndpoint) (runs : list run_env) : list (EndpointOutcome * option Z) :=
  supervise_loop e (endpoint_backoff_initial e) runs.

(** [start_endpoint_supervisor]: the endpoints that are supervised *)
Definition supervised (spec : VmSpec) : list VsockEndpoint :=
  filter (fun e => e.(endpoint_lifecycle).(autostart) = true) (match spec.(vsock) with Some v => v.(endpoints) | None => [] end).

(** ** Handing over connections *)

Inductive send_result : Type := Sent | TooManyRefs | SendErr.
Inductive HandoverError : Type := CancelledHandover | HandoverSend.

(** [send_incoming_conn_with_retry]: the delays taken, and how it ended; [None]: still trying.
    With each refusal comes whether the delay was cut short by the shutdown. *)
Fixpoint send_with_retry (e : VsockEndpoint) (backoff : Z) (l : list (send_result * bool)) : list Z * option (unit + HandoverError) :=
  match l with
  | [] => ([], None)
  | (Sent, _) :: _ => ([], Some (inl tt))
  | (SendErr, _) :: _ => ([], Some (inr HandoverSend))
  | (TooManyRefs, true) :: _ => ([], Some (inr CancelledHandover))
  | (TooManyRefs, false) :: l => let '(d, r) := send_with_retry e (next_backoff e backoff) l in (backoff :: d, r)
  end.
Definition send_incoming_conn_with_retry (e : VsockEndpoint) (l : list (send_result * bool)) : list Z * option (unit + HandoverError) :=
  send_with_retry e (endpoint_backoff_initial e) l.
