(* ===== verification/EndpointsSpec.v ===== *)
(** * When an endpoint is started again, and after which delay *)

From stdpp Require Import base list option numbers strings gmap.
From S2P Require Import Prelude Bytes Utf8 Str HostFs MachineModel Broker Endpoints.

(** A plugin is told to do what its endpoint is for, and nothing else. *)
Lemma startup_accepted e dir :
  (expect_connect (startup_message e dir 3) = Ok tt <-> e.(endpoint_mode) = Connect) /\
  (expect_listen (startup_message e dir 3) = Ok tt <-> e.(endpoint_mode) = Listen).
Proof. unfold expect_connect, expect_listen, startup_message. destruct (endpoint_mode e); simpl; repeat split; done. Qed.

Definition stable (r : run_env) : bool := STABLE_RUN_RESET <=? r.(elapsed).

(** The delays taken since the last stable run, or since the start; the latest run first. *)
Fixpoint delays_since (past : list run_env) : nat :=
  match past with
  | [] => 0
  | r :: past => if stable r then 0 else match past with [] => 0 | _ => S (delays_since past) end
  end.

Section Delays.
Variables (e : VsockEndpoint).
Abbreviation initial := (endpoint_backoff_initial e).
Abbreviation max := (endpoint_backoff_max e).
Hypotheses (Hi : 0 <= initial <= max) (Hm : max < 2 ^ 64).

Definition delay (n : nat) : Z := Z.min (initial * 2 ^ Z.of_nat n) max.
Definition waiting (past : list run_env) : Z := match past with [] => initial | _ => delay (S (delays_since past)) end.

Lemma delay_0 : delay 0 = initial.
Proof. unfold delay. simpl. lia. Qed.
Lemma delay_next n : next_backoff e (delay n) = delay (S n).
Proof.
  unfold next_backoff, delay, DURATION_MAX. rewrite Nat2Z.inj_succ, Z.pow_succ_r by lia.
  assert (0 <= initial * 2 ^ Z.of_nat n) by (apply Z.mul_nonneg_nonneg; [lia|apply Z.pow_nonneg; lia]). lia.
Qed.
Lemma waiting_now r past : (if STABLE_RUN_RESET <=? r.(elapsed) then initial else waiting past) = delay (delays_since (r :: past)).
Proof. simpl. unfold stable. destruct (_ <=? _); [by rewrite delay_0|]. destruct past; [by rewrite delay_0|done]. Qed.

(** What the supervision of [runs] does after the runs [past]. *)
Definition supervised_as (past runs : list run_env) (trace : list (EndpointOutcome * option Z)) : Prop :=
  (forall k o d, trace !! k = Some (o, d) -> exists r eff, runs !! k = Some r /\ r.(cancelled) = false /\ run_endpoint e r = Some (o, eff) /\
     match d with
     | Some b => should_restart e.(endpoint_lifecycle).(restart) o = true /\ r.(cancelled_in_sleep) = false /\
         b = delay (delays_since (reverse (take (S k) runs) ++ past))
     | None => (should_restart e.(endpoint_lifecycle).(restart) o = false \/ r.(cancelled_in_sleep) = true) /\ length trace = S k
     end) /\
  ((exists o, last trace = Some (o, None)) \/
   match runs !! length trace with Some r => r.(cancelled) = true \/ run_endpoint e r = None | None => True end).

Lemma supervised_one past r runs o eff : r.(cancelled) = false -> run_endpoint e r = Some (o, eff) ->
  should_restart e.(endpoint_lifecycle).(restart) o = false \/ r.(cancelled_in_sleep) = true -> supervised_as past (r :: runs) [(o, None)].
Proof.
  intros Hc Hr Hs. split; [|left; by exists o]. intros [|k] o' d Hk; [|done]. injection Hk as <- <-. exists r, eff. done.
Qed.

Lemma supervise_loop_as past runs : supervised_as past runs (supervise_loop e (waiting past) runs).
Proof.
  revert past. induction runs as [|r runs IH]; intros past; simpl; [split; [done|by right]|].
  destruct (cancelled r) eqn:Hc; [split; [done|]; right; by left|].
  destruct (run_endpoint e r) as [[o eff]|] eqn:Hr; [|split; [done|]; right; by right].
  destruct (should_restart _ o) eqn:Hs; simpl; [|eapply supervised_one; eauto].
  destruct (cancelled_in_sleep r) eqn:Hz; [eapply supervised_one; eauto|].
  rewrite waiting_now, delay_next. change (delay (S (delays_since (r :: past)))) with (waiting (r :: past)).
  destruct (IH (r :: past)) as [Hall Hend]. split.
  - intros [|k] o' d Hk; [injection Hk as <- <-; by exists r, eff|]. destruct (Hall k o' d Hk) as (r' & eff' & Hr' & Hc' & Hr'' & Hd).
    exists r', eff'. split; [done|]. split; [done|]. split; [done|]. destruct d as [b|].
    + destruct Hd as (H1 & H2 & ->). split; [done|]. split; [done|]. by rewrite firstn_cons, reverse_cons, <- app_assoc.
    + destruct Hd as [H1 H2]. split; [done|]. rewrite <- H2. done.
  - destruct Hend as [[o' Ho]|Hend]; [left|by right]. exists o'. rewrite last_cons, Ho. done.
Qed.
End Delays.

(** C29 supervise_delays: supervision runs the endpoint again exactly as its policy says: after every run but the last the policy
    asked for another one, and supervision ends only with a run after which the policy asks for none, or with the shutdown.
    The delay after a run starts at the initial one, doubles with every restart up to the
    maximum, and starts again after a run of thirty seconds.  The initial delay is at most the maximum. *)
Theorem supervise_delays e runs :
  0 <= endpoint_backoff_initial e <= endpoint_backoff_max e -> endpoint_backoff_max e < 2 ^ 64 ->
  let trace := supervise_endpoint e runs in
  (forall k o d, trace !! k = Some (o, d) -> exists r eff, runs !! k = Some r /\ r.(cancelled) = false /\ run_endpoint e r = Some (o, eff) /\
     match d with
     | Some b => should_restart e.(endpoint_lifecycle).(restart) o = true /\ r.(cancelled_in_sleep) = false /\
         b = Z.min (endpoint_backoff_initial e * 2 ^ Z.of_nat (delays_since (reverse (take (S k) runs)))) (endpoint_backoff_max e)
     | None => (should_restart e.(endpoint_lifecycle).(restart) o = false \/ r.(cancelled_in_sleep) = true) /\ length trace = S k
     end) /\
  ((exists o, last trace = Some (o, None)) \/
   match runs !! length trace with Some r => r.(cancelled) = true \/ run_endpoint e r = None | None => True end).
Proof.
  intros Hi Hm. destruct (supervise_loop_as e Hi Hm [] runs) as [Hall Hend]. split; [|exact Hend].
  intros k o d Hk. destruct (Hall k o d Hk) as (r & eff & H1 & H2 & H3 & H4). exists r, eff. do 3 (split; [done|]).
  destruct d; [|done]. by rewrite app_nil_r in H4.
Qed.

(** ** Runs *)

Definition sample_endpoint (mode : VsockEndpointMode) (policy : RestartPolicy) (b : Backoff) : VsockEndpoint :=
  mk_endpoint (bstr "ssh") 22 mode (mk_plugin (mk_pathbuf true [bstr "forward"]) [] ∅ None None) (mk_lifecycle true 5000 policy b).
Definition default_backoff : Backoff := mk_backoff 200 5000.
Definition run_of (l : list event) : run_env := mk_run false true (inl tt) (mk_seen true <$> l) 100 false.
Definition crash : run_env := run_of [EvStdout (Some Ready); EvExit (Some 1)].

Lemma supervise_delays_witness : let e := sample_endpoint Connect OnFailure default_backoff in
  let runs := replicate 7 crash ++ [run_of [EvStdout (Some Ready); EvExit (Some 0)]] in let trace := supervise_endpoint e runs in
  (forall k o d, trace !! k = Some (o, d) -> exists r eff, runs !! k = Some r /\ r.(cancelled) = false /\ run_endpoint e r = Some (o, eff) /\
     match d with
     | Some b => should_restart e.(endpoint_lifecycle).(restart) o = true /\ r.(cancelled_in_sleep) = false /\
         b = Z.min (endpoint_backoff_initial e * 2 ^ Z.of_nat (delays_since (reverse (take (S k) runs)))) (endpoint_backoff_max e)
     | None => (should_restart e.(endpoint_lifecycle).(restart) o = false \/ r.(cancelled_in_sleep) = true) /\ length trace = S k
     end) /\
  ((exists o, last trace = Some (o, None)) \/
   match runs !! length trace with Some r => r.(cancelled) = true \/ run_endpoint e r = None | None => True end).
Proof. apply supervise_delays; vm_compute; [split; discriminate|reflexivity]. Defined.
Example delays_of_crashes :
  snd <$> supervise_endpoint (sample_endpoint Connect OnFailure default_backoff) (replicate 7 crash ++ [run_of [EvStdout (Some Ready); EvExit (Some 0)]]) =
  [Some 200; Some 400; Some 800; Some 1600; Some 3200; Some 5000; Some 5000; None].
Proof. vm_compute. reflexivity. Qed.

(** A plugin that exits cleanly closes its output as well.  If the code sees that first,
    it takes the exit for a failure and starts the plugin again. *)
Example clean_exit_races :
  let e := sample_endpoint Connect OnFailure default_backoff in
  supervise_endpoint e [run_of [EvStdout (Some Ready); EvExit (Some 0); EvStdout None]] = [(ExitedCleanly, None)] /\
  supervise_endpoint e [run_of [EvStdout (Some Ready); EvStdout None; EvExit (Some 0)]] = [(Failed StdoutClosed, Some 200)].
Proof. vm_compute. split; reflexivity. Qed.

(** The task that hands connections to a plugin outlives it, since its handle is gone when it should be stopped. *)
Example control_task_detached :
  snd <$> run_endpoint (sample_endpoint Listen Always default_backoff) crash = Some [SpawnControl; DetachControl; Kill].
Proof. vm_compute. reflexivity. Qed.

(** The first delay is not bounded by the maximum. *)
Example first_delay_exceeds_max :
  snd <$> supervise_endpoint (sample_endpoint Connect Always (mk_backoff 9000 5000)) [crash; crash] = [Some 9000; Some 5000].
Proof. vm_compute. reflexivity. Qed.
