(* ===== verification/Vmmon.v ===== *)
(** * The control socket of a machine's monitor

    The handshake of [specs/protocol/src/negotiate.rs] with its two ends, the client in the
    same file and the server of [runtime/vmmon/src/net]; the status that the monitor keeps
    ([state.rs]) with the answers of [services.rs] that are made from it; the registration
    of the guest ([guest.rs]).  The serializer [postcard] is a parameter.  A connection is the bytes
    that arrive on it in time; the identity of the peer is what the host reports. *)

From stdpp Require Import base list option numbers strings gmap pretty.
From S2P Require Import Prelude Bytes Utf8 Str.

(** ** Messages of the handshake *)

Definition NEGOTIATE_PROTOCOL_VERSION : Z := 1.
Definition MAX_NEGOTIATE_FRAME_BYTES : Z := 16 * 1024.
Definition MAX_MESSAGE_BYTES : Z := 1024.
Definition MAX_AUTH_TOKEN_BYTES : Z := 4096.

Inductive Upgrade : Type := Serial | Shell | Api (api_version : Z).
Record Negotiate := mk_negotiate { protocol_version : Z; neg_request_id : Z; upgrade : Upgrade; auth_token : option buffer }.
Record Accept := mk_accept { acc_request_id : Z; acc_message : option buffer }.
Inductive RejectCode : Type :=
| UnsupportedProtocol | UnsupportedUpgrade | UnsupportedService | ServiceStarting | ServiceUnavailable | PermissionDenied
| AuthFailed | Internal.
Record Reject := mk_reject { rej_request_id : Z; code : RejectCode; rej_message : buffer; retry_after_ms : option Z }.
Inductive Response : Type := RespAccept (a : Accept) | RespReject (r : Reject).

Inductive NegotiateError : Type :=
| TokenTooLong | AcceptTooLong | RejectEmpty | RejectTooLong | SerializeError | FrameTooLarge | Eof | DecodeError | WriteError | TimedOut.
Inductive ClientUpgradeStreamError : Type := ClientIo (e : NegotiateError) | ClientReject (r : Reject).

(** [Negotiate::new] *)
Definition new_negotiate (id : Z) (u : Upgrade) : Negotiate := mk_negotiate NEGOTIATE_PROTOCOL_VERSION id u None.

Definition validate_negotiate (n : Negotiate) : outcome NegotiateError unit :=
  match n.(auth_token) with
  | Some token => if MAX_AUTH_TOKEN_BYTES <? zlen token then Err TokenTooLong else Ok tt
  | None => Ok tt
  end.
Definition validate_accept (a : Accept) : outcome NegotiateError unit :=
  match a.(acc_message) with
  | Some message => if MAX_MESSAGE_BYTES <? zlen message then Err AcceptTooLong else Ok tt
  | None => Ok tt
  end.
Definition validate_reject (r : Reject) : outcome NegotiateError unit :=
  if bool_decide (r.(rej_message) = []) then Err RejectEmpty
  else if MAX_MESSAGE_BYTES <? zlen r.(rej_message) then Err RejectTooLong else Ok tt.

(** ** Frames *)

(** [write_framed_async], given the serialized value: the bytes sent. *)
Definition write_framed (payload : option buffer) : outcome NegotiateError buffer :=
  payload <- ok_or payload SerializeError ;;
  if MAX_NEGOTIATE_FRAME_BYTES <? zlen payload then Err FrameTooLarge
  else Ok (to_le_bytes 4 (wrap 32 (zlen payload)) ++ payload).

(** [read_frame_async]: the payload and what follows it. *)
Definition read_frame (input : buffer) : outcome NegotiateError (buffer * buffer) :=
  if zlen input <? 4 then Err Eof else
  let len := from_le_bytes (take 4 input) in
  if MAX_NEGOTIATE_FRAME_BYTES <? len then Err FrameTooLarge else
  let rest := drop 4 input in
  if zlen rest <? len then Err Eof else Ok (take (Z.to_nat len) rest, drop (Z.to_nat len) rest).

Class Postcard := {
  encode_negotiate : Negotiate -> option buffer; decode_negotiate : buffer -> option Negotiate;
  encode_response : Response -> option buffer; decode_response : buffer -> option Response }.

Section Handshake.
Context `{Postcard}.

Definition write_negotiate (n : Negotiate) : outcome NegotiateError buffer :=
  _ <- validate_negotiate n ;; write_framed (encode_negotiate n).
Definition read_negotiate (input : buffer) : outcome NegotiateError (Negotiate * buffer) :=
  '(payload, rest) <- read_frame input ;;
  n <- ok_or (decode_negotiate payload) DecodeError ;;
  _ <- validate_negotiate n ;; Ok (n, rest).

(** [Response::write_to], which does not validate, and [Response::read_from] *)
Definition write_response (r : Response) : outcome NegotiateError buffer := write_framed (encode_response r).
Definition read_response (input : buffer) : outcome NegotiateError (Response * buffer) :=
  '(payload, rest) <- read_frame input ;;
  r <- ok_or (decode_response payload) DecodeError ;;
  _ <- match r with RespAccept a => validate_accept a | RespReject r => validate_reject r end ;; Ok (r, rest).

(** [client_upgrade_stream_v1]: the request, and what the client makes of the answer, which is [None] when it does
    not come in time. *)
Definition client_request (u : Upgrade) : outcome NegotiateError buffer := write_negotiate (new_negotiate 1 u).
Definition client_result (reply : option buffer) : unit + ClientUpgradeStreamError :=
  match reply with
  | None => inr (ClientIo TimedOut)
  | Some input =>
      match read_response input with
      | Ok (RespAccept _, _) => inl tt
      | Ok (RespReject r, _) => inr (ClientReject r)
      | Err e => inr (ClientIo e)
      | Panic => inr (ClientIo DecodeError)
      end
  end.

(** ** The server *)

(** What arrives on a connection in time, who is on the other side, and whether it can be
    written to. *)
Record connection := mk_connection { arrived : option buffer; peer_uid : option Z; writable : bool }.
Record PendingNegotiation := mk_pending { pend_request_id : Z; pend_upgrade : Upgrade }.
Record NegotiationRejection := mk_rejection { nr_code : RejectCode; nr_message : buffer; nr_retry_after_ms : option Z }.

Definition send_response (c : connection) (r : Response) : outcome NegotiateError buffer :=
  if c.(writable) then write_response r else Err WriteError.
Definition reject (c : connection) (id : Z) (code : RejectCode) (message : buffer) (retry : option Z) : outcome NegotiateError buffer :=
  send_response c (RespReject (mk_reject id code message retry)).
Definition accept (c : connection) (id : Z) (message : option buffer) : outcome NegotiateError buffer :=
  send_response c (RespAccept (mk_accept id message)).

(** What is sent: nothing after an error, which is only logged. *)
Definition sent (o : outcome NegotiateError buffer) : buffer := match o with Ok b => b | _ => [] end.

Definition peer_uid_matches_current (c : connection) (euid : Z) : bool := bool_decide (c.(peer_uid) = Some euid).

(** One turn of [NegotiateListener::next]: what is sent, and the negotiation unless the
    connection is given up. *)
Definition next_connection (euid : Z) (c : connection) : buffer * option PendingNegotiation :=
  match c.(arrived) with
  | None => ([], None)
  | Some input =>
      match read_negotiate input with
      | Ok (request, _) =>
          if negb (request.(protocol_version) =? NEGOTIATE_PROTOCOL_VERSION) then
            (sent (reject c request.(neg_request_id) UnsupportedProtocol
               (bstr "Negotiate protocol version " ++ bstr (pretty request.(protocol_version)) ++ bstr " is unsupported") None), None)
          else if negb (peer_uid_matches_current c euid) then
            (sent (reject c request.(neg_request_id) PermissionDenied (bstr "peer uid is not authorized for this socket") None), None)
          else ([], Some (mk_pending request.(neg_request_id) request.(upgrade)))
      | _ => ([], None)
      end
  end.

(** One turn of [NegotiateServer::listen]: what is sent, and the request for which a handler is started. *)
Definition serve_connection (euid : Z) (policy : Upgrade -> option NegotiationRejection) (c : connection) : buffer * option Upgrade :=
  match next_connection euid c with
  | (out, None) => (out, None)
  | (_, Some pending) =>
      match policy pending.(pend_upgrade) with
      | Some r => (sent (reject c pending.(pend_request_id) r.(nr_code) r.(nr_message) r.(nr_retry_after_ms)), None)
      | None =>
          match accept c pending.(pend_request_id) None with
          | Ok b => (b, Some pending.(pend_upgrade))
          | _ => ([], None)
          end
      end
  end.

(** The loop; a connection that could not be accepted is skipped, and [None] is the shutdown. *)
Fixpoint listen (euid : Z) (policy : Upgrade -> option NegotiationRejection) (l : list (option (connection + unit))) : list (buffer * option Upgrade) :=
  match l with
  | [] | None :: _ => []
  | Some (inr _) :: l => listen euid policy l
  | Some (inl c) :: l => serve_connection euid policy c :: listen euid policy l
  end.
End Handshake.

(** ** The status of the machine *)

(** [LifecycleState] and [StatusSource] of the protocol *)
Inductive LifecycleState : Type := Unspecified | Starting | Running | Stopping | Stopped | StateError.
#[export] Instance lifecycle_state_eq_dec : EqDecision LifecycleState.
Proof. solve_decision. Defined.
Definition state_number (s : LifecycleState) : Z :=
  match s with Unspecified => 0 | Starting => 1 | Running => 2 | Stopping => 3 | Stopped => 4 | StateError => 5 end.
Definition state_name (s : LifecycleState) : buffer :=
  match s with
  | Unspecified => bstr "Unspecified" | Starting => bstr "Starting" | Running => bstr "Running" | Stopping => bstr "Stopping"
  | Stopped => bstr "Stopped" | StateError => bstr "Error"
  end.
Inductive StatusSource : Type := SourceVm | SourceGuest.
Record StatusUpdate := mk_update_event { upd_source : StatusSource; upd_state : LifecycleState; upd_message : buffer }.

Record InstanceState := mk_instance_state { is_vm : LifecycleState; is_guest : LifecycleState; is_guest_message : buffer }.
Definition default_instance_state : InstanceState := mk_instance_state Unspecified Unspecified [].

Inductive Action : Type :=
| VmTransition (state : LifecycleState) (message : buffer)
| GuestTransition (state : LifecycleState) (message : buffer).
Definition vm_starting : Action := VmTransition Starting (bstr "vm starting").
Definition vm_running : Action := VmTransition Running (bstr "vm running").
Definition guest_starting : Action := GuestTransition Starting (bstr "waiting for guest service registration").
Definition guest_running : Action := GuestTransition Running (bstr "guest service registered").
Definition guest_error (message : buffer) : Action := GuestTransition StateError message.

Definition reduce_instance_state (current : InstanceState) (a : Action) : InstanceState :=
  match a with
  | VmTransition state _ => mk_instance_state state current.(is_guest) current.(is_guest_message)
  | GuestTransition state message => mk_instance_state current.(is_vm) state message
  end.
Definition project_status_update (a : Action) : option StatusUpdate :=
  match a with
  | VmTransition state message => Some (mk_update_event SourceVm state message)
  | GuestTransition state message => Some (mk_update_event SourceGuest state message)
  end.

(** [Store] with its [Bus].  A dispatch reduces under the lock, which fails when it is
    poisoned, and publishes after it was released. *)
Record Store := mk_store { store_state : InstanceState; poisoned : bool; published : list StatusUpdate }.
Inductive StoreError : Type := Poisoned.
Definition new_instance_store : Store := mk_store default_instance_state false [].
Definition reduce_locked (a : Action) (s : Store) : outcome StoreError unit * Store :=
  if s.(poisoned) then (Err Poisoned, s) else (Ok tt, mk_store (reduce_instance_state s.(store_state) a) false s.(published)).
Definition publish (a : Action) (s : Store) : Store :=
  mk_store s.(store_state) s.(poisoned) (s.(published) ++ option_list (project_status_update a)).
Definition dispatch (a : Action) (s : Store) : outcome StoreError unit * Store :=
  match reduce_locked a s with (Ok _, s1) => (Ok tt, publish a s1) | r => r end.
Definition snapshot (s : Store) : outcome StoreError InstanceState := if s.(poisoned) then Err Poisoned else Ok s.(store_state).
(** A subscription is the place from which it reads.  The channel keeps the last updates
    only: who is further behind is told how many it lost and goes on at the oldest kept. *)
Definition BUS_CAPACITY : nat := 256.
Definition subscribe (s : Store) : nat := length s.(published).
Definition recv (from : nat) (s : Store) : option ((StatusUpdate + nat) * nat) :=
  let oldest := (length s.(published) - BUS_CAPACITY)%nat in
  if (from <? oldest)%nat then Some (inr (oldest - from)%nat, oldest)
  else match s.(published) !! from with Some u => Some (inl u, S from) | None => None end.

Definition status_summary (s : InstanceState) : buffer :=
  if negb (bool_decide (s.(is_vm) = Running)) then bstr "vm not ready (vm_state=" ++ state_name s.(is_vm) ++ bstr ")"
  else if bool_decide (s.(is_guest) = Running) then bstr "instance ready" else s.(is_guest_message).
Definition is_ready (s : InstanceState) : bool := bool_decide (s.(is_vm) = Running) && bool_decide (s.(is_guest) = Running).
Record PingResponse := mk_ping { ping_ok : bool; ping_message : buffer }.
Definition select_current_ping (s : InstanceState) : PingResponse := mk_ping (is_ready s) (status_summary s).
Record VmInspectResponse := mk_vm_inspect { insp_vm_state : Z; insp_guest_state : Z; insp_ready : bool; insp_summary : buffer }.
Definition select_current_inspect (s : InstanceState) : VmInspectResponse :=
  mk_vm_inspect (state_number s.(is_vm)) (state_number s.(is_guest)) (is_ready s) (status_summary s).
Definition select_current_events (s : InstanceState) : list StatusUpdate :=
  (if bool_decide (s.(is_vm) = Unspecified) then [] else [mk_update_event SourceVm s.(is_vm) []]) ++
  (if bool_decide (s.(is_guest) = Unspecified) then [] else [mk_update_event SourceGuest s.(is_guest) s.(is_guest_message)]).
Definition guest_shell_ready (s : InstanceState) : bool := bool_decide (s.(is_guest) = Running).

(** [watch_status]: the stream starts with what was true at the snapshot, then the
    subscription is made, and every item that arrives on it is passed on; [watching] is [None]
    before the subscription. *)
Record watcher := mk_watcher { seen : list (StatusUpdate + nat); watching : option nat }.
Definition watch_status (at_snapshot : InstanceState) : watcher := mk_watcher (inl <$> select_current_events at_snapshot) None.
Definition watch_recv (w : watcher) (s : Store) : watcher :=
  match w.(watching) with
  | None => w
  | Some from => match recv from s with None => w | Some (item, next) => mk_watcher (w.(seen) ++ [item]) (Some next) end
  end.

(** The monitor with one stream: dispatches of several tasks that have reduced and have yet to
    publish, and the steps of the stream. *)
Record monitor := mk_monitor { m_store : Store; in_flight : list Action; m_watch : option watcher }.
Definition new_monitor : monitor := mk_monitor new_instance_store [] None.
Inductive monitor_event : Type := Reduces (a : Action) | Publishes (nth : nat) | Snapshot | Subscribe | Receives.
Definition monitor_step (m : monitor) (e : monitor_event) : monitor :=
  match e with
  | Reduces a =>
      match reduce_locked a m.(m_store) with (Ok _, s) => mk_monitor s (m.(in_flight) ++ [a]) m.(m_watch) | _ => m end
  | Publishes nth =>
      match m.(in_flight) !! nth with
      | Some a => mk_monitor (publish a m.(m_store)) (delete nth m.(in_flight)) m.(m_watch)
      | None => m
      end
  | Snapshot => match snapshot m.(m_store) with Ok st => mk_monitor m.(m_store) m.(in_flight) (Some (watch_status st)) | _ => m end
  | Subscribe =>
      mk_monitor m.(m_store) m.(in_flight) ((fun w => mk_watcher w.(seen) (Some (subscribe m.(m_store)))) <$> m.(m_watch))
  | Receives => mk_monitor m.(m_store) m.(in_flight) ((fun w => watch_recv w m.(m_store)) <$> m.(m_watch))
  end.
Definition monitor_run (l : list monitor_event) (m : monitor) : monitor := foldl monitor_step m l.

Definition SHELL_RETRY_AFTER_MS : Z := 1000.
Definition upgrade_rejection (s : Store) (u : Upgrade) : option NegotiationRejection :=
  match u with
  | Shell =>
      match snapshot s with
      | Ok st => if guest_shell_ready st then None
                 else Some (mk_rejection ServiceStarting (bstr "guest shell is not ready") (Some SHELL_RETRY_AFTER_MS))
      | _ => Some (mk_rejection Internal (bstr "vmmon state unavailable: vmmon state store lock is poisoned") None)
      end
  | _ => None
  end.

(** ** The registration of the guest *)

(** What the tasks share: the status and the flag [ready]. *)
Record guest_shared := mk_guest_shared { g_store : Store; g_ready : bool }.
Definition dispatched (a : Action) (g : guest_shared) : guest_shared := mk_guest_shared (dispatch a g.(g_store)).2 g.(g_ready).
(** [register]: the two steps *)
Definition register_status (g : guest_shared) : guest_shared := dispatched guest_running g.
Definition register_flag (g : guest_shared) : guest_shared := mk_guest_shared g.(g_store) true.
(** [spawn_readiness_timeout]: the test, and what follows it *)
Definition timeout_test (g : guest_shared) : bool := negb g.(g_ready).
Definition timeout_acts (test : bool) (seconds : Z) (g : guest_shared) : guest_shared :=
  if test then dispatched (guest_error (bstr "guest service did not register within " ++ bstr (pretty seconds) ++ bstr " seconds")) g else g.

(** [start_services]: the status of the guest at the start *)
Definition guest_at_start (guest_services_enabled : bool) (wait_seconds : Z) : Action :=
  if guest_services_enabled then if wait_seconds =? 0 then guest_running else guest_starting else guest_running.
