(* ===== verification/VmmonSpec.v ===== *)
(** * What the two ends of the control socket agree on *)

From stdpp Require Import base list option numbers strings gmap pretty.
From S2P Require Import Prelude Bytes Utf8 Str Vmmon.

(** [postcard] reads back what it wrote. *)
Class PostcardLaws `{Postcard} : Prop := {
  decode_encode_negotiate n b : encode_negotiate n = Some b -> decode_negotiate b = Some n;
  decode_encode_response r b : encode_response r = Some b -> decode_response b = Some r }.

Lemma read_written_frame payload b rest : write_framed payload = Ok b ->
  exists p, payload = Some p /\ read_frame (b ++ rest) = Ok (p, rest).
Proof.
  unfold write_framed. destruct payload as [p|]; [|done]. cbn [ok_or obind]. destruct (MAX_NEGOTIATE_FRAME_BYTES <? zlen p) eqn:E; [done|].
  intros Hb. assert (to_le_bytes 4 (wrap 32 (zlen p)) ++ p = b) as <- by congruence. exists p. split; [done|].
  apply Z.ltb_ge in E. pose proof (zlen_nonneg p) as Hp. assert (uint 32 (zlen p)) as Hu by (unfold uint, MAX_NEGOTIATE_FRAME_BYTES in *; lia).
  rewrite (wrap_id 32) by done. unfold read_frame. rewrite <- app_assoc, !zlen_app, zlen_to_le_bytes.
  pose proof (zlen_nonneg rest) as Hr. replace (_ <? 4) with false by (symmetry; apply Z.ltb_ge; lia).
  rewrite take_app_length' by (by rewrite to_le_bytes_length). rewrite drop_app_length' by (by rewrite to_le_bytes_length).
  rewrite from_to_le_bytes_id by done. replace (MAX_NEGOTIATE_FRAME_BYTES <? zlen p) with false by (symmetry; apply Z.ltb_ge; lia).
  rewrite zlen_app. replace (_ <? zlen p) with false by (symmetry; apply Z.ltb_ge; lia).
  unfold zlen. rewrite Nat2Z.id. by rewrite take_app_length, drop_app_length.
Qed.

Section Laws.
Context `{PostcardLaws}.

Lemma read_written_negotiate n b rest : write_negotiate n = Ok b -> read_negotiate (b ++ rest) = Ok (n, rest).
Proof.
  unfold write_negotiate, read_negotiate. destruct (validate_negotiate n) as [[]|e|] eqn:Ev; [|done|done]. cbn [obind]. intros Hw.
  destruct (read_written_frame _ _ rest Hw) as (p & Hp & ->). cbn [obind]. rewrite (decode_encode_negotiate n p Hp). cbn [ok_or obind].
  by rewrite Ev.
Qed.

Definition response_valid (r : Response) : outcome NegotiateError unit :=
  match r with RespAccept a => validate_accept a | RespReject r => validate_reject r end.
Lemma read_written_response r b rest : write_response r = Ok b -> response_valid r = Ok tt -> read_response (b ++ rest) = Ok (r, rest).
Proof.
  unfold write_response, read_response. intros Hw Hv. destruct (read_written_frame _ _ rest Hw) as (p & Hp & ->). cbn [obind].
  rewrite (decode_encode_response r p Hp). cbn [ok_or obind]. unfold response_valid in Hv. destruct r; by rewrite Hv.
Qed.

(** A response that fits into a frame. *)
Definition fits (r : Response) : Prop := exists b, write_response r = Ok b.

Lemma client_reads r b : write_response r = Ok b -> response_valid r = Ok tt ->
  client_result (Some b) = match r with RespAccept _ => inl tt | RespReject r => inr (ClientReject r) end.
Proof. intros Hw Hv. unfold client_result. rewrite <- (app_nil_r b), (read_written_response r b [] Hw Hv). by destruct r. Qed.

(** C26 handshake: a client of the same user that asks for an upgrade is answered as the policy
    says.  Where the policy has nothing against it, a handler is started for that upgrade and the
    client is told so; where it has, the client gets the reason, in the words of the policy, and no
    handler is started.  A handler is started for nobody else: only for a
    request of the current version that arrived from the same user, that the policy
    allows, and whose sender was told.  The answers that are spelled out here fit the largest message, and
    a rejection is one that the client's own check accepts. *)
Theorem handshake euid policy :
  (forall u request, client_request u = Ok request ->
    let answer := serve_connection euid policy (mk_connection (Some request) (Some euid) true) in
    match policy u with
    | None => fits (RespAccept (mk_accept 1 None)) -> answer.2 = Some u /\ client_result (Some answer.1) = inl tt
    | Some r => let rejection := mk_reject 1 r.(nr_code) r.(nr_message) r.(nr_retry_after_ms) in
        fits (RespReject rejection) -> validate_reject rejection = Ok tt ->
        answer.2 = None /\ client_result (Some answer.1) = inr (ClientReject rejection)
    end) /\
  (forall c u, (serve_connection euid policy c).2 = Some u ->
    c.(peer_uid) = Some euid /\ policy u = None /\ client_result (Some (serve_connection euid policy c).1) = inl tt /\
    exists input request rest, c.(arrived) = Some input /\ read_negotiate input = Ok (request, rest) /\
      request.(upgrade) = u /\ request.(protocol_version) = NEGOTIATE_PROTOCOL_VERSION).
Proof.
  split.
  - intros u request Hreq. unfold client_request in Hreq. pose proof (read_written_negotiate _ _ [] Hreq) as Hr. rewrite app_nil_r in Hr.
    unfold serve_connection, next_connection, peer_uid_matches_current. cbn [arrived peer_uid]. rewrite Hr.
    cbn [protocol_version new_negotiate neg_request_id upgrade]. rewrite bool_decide_eq_true_2 by done. cbn [negb Z.eqb pend_upgrade pend_request_id].
    replace (NEGOTIATE_PROTOCOL_VERSION =? NEGOTIATE_PROTOCOL_VERSION) with true by reflexivity. cbn [negb].
    destruct (policy u) as [r|] eqn:Hp; cbn [pend_upgrade pend_request_id]; rewrite Hp.
    + intros [b Hb] Hv. unfold reject, send_response. cbn [writable]. rewrite Hb. split; [done|]. cbn [fst sent]. by rewrite (client_reads _ _ Hb).
    + intros [b Hb]. unfold accept, send_response. cbn [writable]. rewrite Hb. split; [done|]. cbn [fst sent]. by rewrite (client_reads _ _ Hb).
  - intros c u. unfold serve_connection, next_connection. destruct (arrived c) as [input|] eqn:Ha; [|done].
    destruct (read_negotiate input) as [[request rest]|e|] eqn:Hr; [|done|done].
    destruct (Z.eqb_spec (protocol_version request) NEGOTIATE_PROTOCOL_VERSION) as [Hv|]; cbn [negb]; [|done].
    unfold peer_uid_matches_current. destruct (bool_decide (peer_uid c = Some euid)) eqn:Hu; cbn [negb pend_upgrade pend_request_id]; [|done].
    destruct (policy (upgrade request)) eqn:Hp; [done|]. destruct (accept c (neg_request_id request) None) as [b|e|] eqn:Hacc; [|done|done].
    cbn [snd]. intros [= <-]. apply bool_decide_eq_true in Hu. split; [done|]. split; [done|]. split; [|by exists input, request, rest].
    unfold accept, send_response in Hacc. destruct (writable c); [|done]. cbn [fst]. by rewrite (client_reads _ _ Hacc).
Qed.
End Laws.

(** ** Watching *)

(** What a client knows after a list of updates: machine, guest and the guest's message. *)
Definition learn (s : InstanceState) (e : StatusUpdate) : InstanceState :=
  match e.(upd_source) with
  | SourceVm => mk_instance_state e.(upd_state) s.(is_guest) s.(is_guest_message)
  | SourceGuest => mk_instance_state s.(is_vm) e.(upd_state) e.(upd_message)
  end.
Definition knows (l : list StatusUpdate) : InstanceState := foldl learn default_instance_state l.

Definition dispatch_all (l : list Action) (s : Store) : Store := foldl (fun s a => (dispatch a s).2) s l.
(** Actions set a state. *)
Definition sets (a : Action) : Prop := match a with VmTransition st _ | GuestTransition st _ => st <> Unspecified end.

Lemma learn_project l s : foldl learn s (omap project_status_update l) = foldl reduce_instance_state s l.
Proof. revert s. induction l as [|a l IH]; intros s; [done|]. destruct a; simpl; apply IH. Qed.

Definition message_kept (s : InstanceState) : Prop := s.(is_guest) = Unspecified -> s.(is_guest_message) = [].
Lemma message_kept_all l s : message_kept s -> Forall sets l -> message_kept (foldl reduce_instance_state s l).
Proof.
  revert s. induction l as [|a l IH]; intros s Hs Hl; [done|]. apply Forall_cons in Hl as [Ha Hl]. simpl. apply IH; [|done].
  destruct a; simpl in *; unfold message_kept; simpl; [apply Hs|done].
Qed.
Lemma knows_events s : message_kept s -> knows (select_current_events s) = s.
Proof.
  destruct s as [vm guest message]. unfold message_kept, select_current_events, knows. simpl. intros Hm.
  destruct (bool_decide (vm = Unspecified)) eqn:Ev, (bool_decide (guest = Unspecified)) eqn:Eg; simpl;
    try apply bool_decide_eq_true in Ev as ->; try apply bool_decide_eq_true in Eg as ->; simpl; try rewrite Hm by done; done.
Qed.

(** The last word on each of the two. *)
Definition vm_word (a : Action) : option LifecycleState := match a with VmTransition st _ => Some st | _ => None end.
Definition guest_word (a : Action) : option (LifecycleState * buffer) := match a with GuestTransition st m => Some (st, m) | _ => None end.
Lemma reduced_last q s : foldl reduce_instance_state s q =
  mk_instance_state (default s.(is_vm) (last (omap vm_word q))) (default s.(is_guest) (fst <$> last (omap guest_word q)))
    (default s.(is_guest_message) (snd <$> last (omap guest_word q))).
Proof.
  induction q as [|a q IH] using rev_ind; [by destruct s|]. rewrite foldl_app, IH, !omap_app. simpl.
  destruct a; simpl; rewrite ?app_nil_r, !last_snoc; reflexivity.
Qed.
Lemma reduced_twice q s : foldl reduce_instance_state (foldl reduce_instance_state s q) q = foldl reduce_instance_state s q.
Proof. rewrite !reduced_last. simpl. by destruct (last (omap vm_word q)), (last (omap guest_word q)). Qed.

(** The items of a stream that are updates, and that none of them tells of a loss. *)
Definition updates (l : list (StatusUpdate + nat)) : list StatusUpdate := omap (fun i => match i with inl u => Some u | inr _ => None end) l.
Lemma updates_inl l : updates (inl <$> l) = l.
Proof. induction l as [|u l IH]; [done|]. change (updates (inl <$> u :: l)) with (u :: updates (inl <$> l)). by rewrite IH. Qed.
Lemma knows_snoc l u : knows (updates (l ++ [inl u])) = learn (knows (updates l)) u.
Proof. unfold knows, updates. by rewrite omap_app, foldl_app. Qed.
Definition is_update (i : StatusUpdate + nat) : Prop := match i with inl _ => True | inr _ => False end.
(** Tasks publish in the order in which they reduced. *)
Definition in_order (e : monitor_event) : Prop :=
  match e with Reduces a => sets a | Publishes nth => nth = 0%nat | Receives => True | Snapshot | Subscribe => False end.

(** The status is what the actions in flight made of an earlier one. *)
Definition explained (m : monitor) : Prop :=
  m.(m_store).(poisoned) = false /\ message_kept m.(m_store).(store_state) /\
  exists base, m.(m_store).(store_state) = foldl reduce_instance_state base m.(in_flight).
Lemma step_explained m e : in_order e -> explained m -> explained (monitor_step m e).
Proof.
  destruct m as [[st p pub] fl w]. intros He (Hp & Hk & base & Hb). simpl in *. subst p. destruct e as [a|nth| | |]; simpl in *; try done.
  - split_and!; [done| |exists base; simpl; by rewrite foldl_app, <- Hb]. destruct a; unfold message_kept in *; simpl in *; [apply Hk|done].
  - subst nth. destruct fl as [|a fl]; simpl; [by split_and!; [|apply Hk|exists base]|]. split_and!; [done|apply Hk|by exists (reduce_instance_state base a)].
  - by split_and!; [|apply Hk|exists base].
Qed.
Lemma monitor_run_app l1 l2 m : monitor_run (l1 ++ l2) m = monitor_run l2 (monitor_run l1 m).
Proof. apply foldl_app. Qed.
Lemma run_explained l m : Forall in_order l -> explained m -> explained (monitor_run l m).
Proof. revert m. induction l as [|e l IH]; intros m Hl Hm; [done|]. apply Forall_cons in Hl as [He Hl]. by apply IH; [|apply step_explained]. Qed.

(** What the client of the stream knows, brought up to date by what is on its way. *)
Definition informed (m : monitor) : Prop :=
  match m.(m_watch) with
  | Some (mk_watcher items (Some from)) => Forall is_update items ->
      (from <= length m.(m_store).(published))%nat /\
      foldl learn (knows (updates items)) (drop from m.(m_store).(published) ++ omap project_status_update m.(in_flight)) = m.(m_store).(store_state)
  | _ => False
  end.
Lemma started_informed m : explained m -> informed (monitor_step (monitor_step m Snapshot) Subscribe).
Proof.
  destruct m as [[st p pub] fl w]. intros (Hp & Hk & base & Hb). simpl in *. subst p. unfold informed. simpl. intros _. split; [done|].
  unfold subscribe. simpl. rewrite drop_all. simpl. rewrite learn_project. rewrite updates_inl, knows_events by apply Hk. rewrite Hb. apply reduced_twice.
Qed.
Lemma step_informed m e : m.(m_store).(poisoned) = false -> in_order e -> informed m -> informed (monitor_step m e).
Proof.
  destruct m as [[st p pub] fl [[items [from|]]|]]; try done. unfold informed. simpl. intros -> He Hm. destruct e as [a|nth| | |]; simpl in *; try done.
  - intros Hi. destruct (Hm Hi) as [Hl Hs]. split; [done|]. by rewrite omap_app, app_assoc, foldl_app, Hs, learn_project.
  - subst nth. destruct fl as [|a fl]; simpl; [done|]. intros Hi. destruct (Hm Hi) as [Hl Hs]. split; [rewrite length_app; lia|].
    rewrite drop_app_le, <- app_assoc by done. rewrite <- Hs. by destruct a.
  - unfold watch_recv, recv. simpl. destruct (Nat.ltb_spec from (length pub - BUS_CAPACITY)) as [|Hf].
    { intros Hi. apply Forall_app in Hi as [_ Hi]. by apply Forall_cons in Hi as [[] _]. }
    destruct (pub !! from) as [u|] eqn:Hu; [|done]. intros Hi. apply Forall_app in Hi as [Hi _]. destruct (Hm Hi) as [Hl Hs].
    split; [apply lookup_lt_Some in Hu; lia|]. by rewrite <- Hs, (drop_S pub u from Hu), knows_snoc.
Qed.
Lemma run_informed l m : Forall in_order l -> explained m -> informed m -> explained (monitor_run l m) /\ informed (monitor_run l m).
Proof.
  revert m. induction l as [|e l IH]; intros m Hl Hx Hm; [done|]. apply Forall_cons in Hl as [He Hl].
  apply IH; [done|by apply step_explained|apply step_informed; [apply Hx|done|done]].
Qed.

(** A stream that has fallen behind by no more than the channel holds reads all of it. *)
Lemma drained k m items from : m.(m_watch) = Some (mk_watcher items (Some from)) -> Forall is_update items ->
  (from + k = length m.(m_store).(published))%nat -> (k <= BUS_CAPACITY)%nat ->
  let m' := monitor_run (replicate k Receives) m in
  m'.(m_store) = m.(m_store) /\ m'.(in_flight) = m.(in_flight) /\
  exists more, m'.(m_watch) = Some (mk_watcher more (Some (length m.(m_store).(published)))) /\ Forall is_update more.
Proof.
  revert m items from. induction k as [|k IH]; intros [[st p pub] fl w] items from Hw Hi Hk Hc; simpl in *.
  { subst. split_and!; [done|done|]. exists items. by rewrite <- Hk, Nat.add_0_r. }
  subst w. unfold watch_recv, recv. simpl. destruct (Nat.ltb_spec from (length pub - BUS_CAPACITY)) as [|Hf]; [lia|].
  destruct (lookup_lt_is_Some_2 pub from) as [u Hu]; [lia|]. rewrite Hu.
  apply (IH (mk_monitor (mk_store st p pub) fl (Some (mk_watcher (items ++ [inl u]) (Some (S from))))) (items ++ [inl u]) (S from));
    [done|apply Forall_app; by repeat constructor|simpl; lia|lia].
Qed.

(** C27 watch_faithful: status streams lose nothing, where the snapshot and the
    subscription are made without a change in between and tasks publish in the order of their changes.  Whatever
    happened before and whatever happens meanwhile: a client that was not told of
    lost updates and is behind by no more than the channel holds knows the status of the machine and of the guest
    as soon as it has read what is there, so it knows whether the machine is ready.
    Actions may be in flight when the stream starts. *)
Theorem watch_faithful before after : Forall in_order before -> Forall in_order after ->
  let m := monitor_run (before ++ Snapshot :: Subscribe :: after) new_monitor in
  match m.(m_watch) with
  | Some (mk_watcher items (Some from)) =>
      Forall is_update items -> m.(in_flight) = [] -> (length m.(m_store).(published) <= from + BUS_CAPACITY)%nat ->
      let m' := monitor_run (replicate (length m.(m_store).(published) - from) Receives) m in
      match m'.(m_watch) with
      | Some w => knows (updates w.(seen)) = m.(m_store).(store_state) /\
          select_current_ping (knows (updates w.(seen))) = select_current_ping m.(m_store).(store_state)
      | None => False
      end
  | _ => False
  end.
Proof.
  intros Hb Ha. cbv zeta. rewrite monitor_run_app. change (monitor_run (Snapshot :: Subscribe :: after) ?m) with
    (monitor_run after (monitor_step (monitor_step m Snapshot) Subscribe)).
  assert (explained (monitor_run before new_monitor)) as Hx.
  { apply run_explained; [done|]. split_and!; [done|done|by exists default_instance_state]. }
  pose proof (started_informed _ Hx) as Hi. revert Hx Hi. generalize (monitor_run before new_monitor). intros m0 Hx Hi.
  assert (explained (monitor_step (monitor_step m0 Snapshot) Subscribe)) as Hx1.
  { destruct m0 as [[st p pub] fl w], Hx as (Hp & Hk & Hb'). simpl in *. by subst p. }
  revert Hx1 Hi. generalize (monitor_step (monitor_step m0 Snapshot) Subscribe). clear Hx m0. intros m0 Hx Hi.
  destruct (run_informed after m0 Ha Hx Hi) as [Hx' Hi']. revert Hx' Hi'.
  generalize (monitor_run after m0). intros m Hx' Hi'. unfold informed in Hi' |- *.
  destruct (m_watch m) as [[items [from|]]|] eqn:Hw; try done. intros Hu Hf Hc. destruct (Hi' Hu) as [Hl _].
  destruct (drained (length (published (m_store m)) - from) m items from Hw Hu) as (Hs & Hq & more & Hm & Hmore); [lia|lia|].
  assert (informed (monitor_run (replicate (length (published (m_store m)) - from) Receives) m)) as Hend.
  { apply run_informed; [by apply Forall_replicate|done|]. unfold informed. by rewrite Hw. }
  unfold informed in Hend. rewrite Hm, Hs, Hq, Hf in Hend. destruct (Hend Hmore) as [_ E]. rewrite drop_all in E.
  rewrite Hm. simpl in E |- *. by rewrite E.
Qed.

(** ** A serializer of a few messages *)

#[export] Instance upgrade_eq_dec : EqDecision Upgrade.
Proof. solve_decision. Defined.
#[export] Instance negotiate_eq_dec : EqDecision Negotiate.
Proof. solve_decision. Defined.
#[export] Instance accept_eq_dec : EqDecision Accept.
Proof. solve_decision. Defined.
#[export] Instance reject_code_eq_dec : EqDecision RejectCode.
Proof. solve_decision. Defined.
#[export] Instance reject_eq_dec : EqDecision Reject.
Proof. solve_decision. Defined.
#[export] Instance response_eq_dec : EqDecision Response.
Proof. solve_decision. Defined.

Definition shell_rejection : NegotiationRejection := mk_rejection ServiceStarting (bstr "guest shell is not ready") (Some SHELL_RETRY_AFTER_MS).
Definition accepted : Response := RespAccept (mk_accept 1 None).
Definition starting : Response := RespReject (mk_reject 1 ServiceStarting (bstr "guest shell is not ready") (Some 1000)).
Definition wordless : Response := RespReject (mk_reject 1 Internal [] None).

Definition number_of {A} `{EqDecision A} (table : list (Z * A)) (a : A) : option buffer :=
  (fun kv => [kv.1]) <$> head (filter (fun kv => kv.2 = a) table).
Definition numbered {A} (table : list (Z * A)) (b : buffer) : option A :=
  match b with [n] => snd <$> head (filter (fun kv => kv.1 = n) table) | _ => None end.
Lemma numbered_number {A} `{EqDecision A} (table : list (Z * A)) a b : NoDup table.*1 -> number_of table a = Some b -> numbered table b = Some a.
Proof.
  intros Hnd. unfold number_of. destruct (filter _ table) as [|[n x] l] eqn:E; [done|]. intros [= <-]. simpl.
  assert ((n, x) ∈ filter (fun kv : Z * A => kv.2 = a) table) as Hin by (rewrite E; by left).
  apply list_elem_of_filter in Hin as [Hx Hin]. simpl in Hx. subst x.
  assert ((n, a) ∈ filter (fun kv : Z * A => kv.1 = n) table) as Hin' by (by apply list_elem_of_filter).
  destruct (filter (fun kv : Z * A => kv.1 = n) table) as [|[n' a'] l'] eqn:E'; [by apply elem_of_nil in Hin'|]. simpl. f_equal.
  assert ((n', a') ∈ filter (fun kv : Z * A => kv.1 = n) table) as H' by (rewrite E'; by left).
  apply list_elem_of_filter in H' as [Hn' H']. simpl in Hn'. subst n'.
  apply list_elem_of_lookup in H' as [i Hi]. apply list_elem_of_lookup in Hin as [j Hj].
  assert (i = j) as ->; [|congruence]. eapply NoDup_lookup; [exact Hnd| |]; rewrite list_lookup_fmap; [by rewrite Hi|by rewrite Hj].
Qed.

Definition requests_table : list (Z * Negotiate) := [(1, new_negotiate 1 Shell); (2, new_negotiate 1 Serial)].
Definition responses_table : list (Z * Response) := [(1, accepted); (2, starting); (3, wordless)].
#[export] Instance sample_postcard : Postcard := {|
  encode_negotiate := number_of requests_table; decode_negotiate := numbered requests_table;
  encode_response := number_of responses_table; decode_response := numbered responses_table |}.
#[export] Instance sample_postcard_laws : PostcardLaws.
Proof. split; intros x b; apply numbered_number; repeat constructor; set_solver. Qed.

Definition ready_store : Store := dispatch_all [vm_running; guest_running] new_instance_store.
Definition booting_store : Store := dispatch_all [vm_starting; guest_starting] new_instance_store.

Lemma handshake_witness :
  (forall u request, client_request u = Ok request ->
    let answer := serve_connection 1000 (upgrade_rejection booting_store) (mk_connection (Some request) (Some 1000) true) in
    match upgrade_rejection booting_store u with
    | None => fits (RespAccept (mk_accept 1 None)) -> answer.2 = Some u /\ client_result (Some answer.1) = inl tt
    | Some r => let rejection := mk_reject 1 r.(nr_code) r.(nr_message) r.(nr_retry_after_ms) in
        fits (RespReject rejection) -> validate_reject rejection = Ok tt ->
        answer.2 = None /\ client_result (Some answer.1) = inr (ClientReject rejection)
    end) /\
  (forall c u, (serve_connection 1000 (upgrade_rejection booting_store) c).2 = Some u ->
    c.(peer_uid) = Some 1000 /\ upgrade_rejection booting_store u = None /\
    client_result (Some (serve_connection 1000 (upgrade_rejection booting_store) c).1) = inl tt /\
    exists input request rest, c.(arrived) = Some input /\ read_negotiate input = Ok (request, rest) /\
      request.(upgrade) = u /\ request.(protocol_version) = NEGOTIATE_PROTOCOL_VERSION).
Proof. apply (handshake 1000 (upgrade_rejection booting_store)). Defined.

(** The shell is refused while the guest starts, and given once it is there. *)
Definition shell_request : buffer := sent (client_request Shell).
Definition shell_answer (s : Store) : buffer * option Upgrade :=
  serve_connection 1000 (upgrade_rejection s) (mk_connection (Some shell_request) (Some 1000) true).
Example shell_refused : (shell_answer booting_store).2 = None /\
  client_result (Some (shell_answer booting_store).1) = inr (ClientReject (mk_reject 1 ServiceStarting (bstr "guest shell is not ready") (Some 1000))).
Proof. vm_compute. split; reflexivity. Qed.
Example shell_given : (shell_answer ready_store).2 = Some Shell /\ client_result (Some (shell_answer ready_store).1) = inl tt.
Proof. vm_compute. split; reflexivity. Qed.
Example other_user_refused :
  (serve_connection 1000 (upgrade_rejection ready_store) (mk_connection (Some shell_request) (Some 1001) true)).2 = None.
Proof. vm_compute. reflexivity. Qed.

Definition booting : list monitor_event :=
  [Reduces vm_starting; Publishes 0; Reduces vm_running; Publishes 0; Reduces guest_starting].
Definition registers : list monitor_event := [Publishes 0; Receives; Reduces guest_running; Publishes 0].
Lemma watch_faithful_witness :
  let m := monitor_run (booting ++ Snapshot :: Subscribe :: registers) new_monitor in
  match m.(m_watch) with
  | Some (mk_watcher items (Some from)) =>
      let m' := monitor_run (replicate (length m.(m_store).(published) - from) Receives) m in
      match m'.(m_watch) with
      | Some w => knows (updates w.(seen)) = m.(m_store).(store_state) /\
          select_current_ping (knows (updates w.(seen))) = select_current_ping m.(m_store).(store_state)
      | None => False
      end
  | _ => False
  end.
Proof.
  assert (Forall in_order booting) as Hb by (repeat constructor; discriminate).
  assert (Forall in_order registers) as Hr by (repeat constructor; discriminate).
  pose proof (watch_faithful booting registers Hb Hr) as H. apply H; [repeat constructor|reflexivity|vm_compute; lia].
Defined.

(** ** Where the code departs from what it means to do *)

(** A response is not validated when it is sent, so a refusal without a text reaches the client as broken data. *)
Example wordless_refusal :
  let policy := fun _ : Upgrade => Some (mk_rejection Internal [] None) in
  client_result (Some (serve_connection 1000 policy (mk_connection (Some shell_request) (Some 1000) true)).1) = inr (ClientIo RejectEmpty).
Proof. vm_compute. reflexivity. Qed.

(** The subscription is made after the snapshot: what happens in between never arrives. *)
Example watch_misses_update :
  let m := monitor_run (booting ++ [Publishes 0; Snapshot; Reduces guest_running; Publishes 0; Subscribe; Receives]) new_monitor in
  match m.(m_watch) with
  | Some w => is_ready (knows (updates w.(seen))) = false /\ is_ready m.(m_store).(store_state) = true /\ w.(watching) = Some (length m.(m_store).(published))
  | None => False
  end.
Proof. vm_compute. repeat split. Qed.

(** Publishing happens after the lock is released, so two tasks may publish in the other
    order: the guest registers and then its server fails, and the client believes it to run. *)
Example published_out_of_order :
  let m := monitor_run (booting ++ [Publishes 0; Snapshot; Subscribe; Reduces guest_running; Reduces (guest_error (bstr "failed"));
    Publishes 1; Publishes 0; Receives; Receives]) new_monitor in
  match m.(m_watch) with
  | Some w => is_ready (knows (updates w.(seen))) = true /\ m.(m_store).(store_state).(is_guest) = StateError /\
      Forall is_update w.(seen) /\ w.(watching) = Some (length m.(m_store).(published)) /\ m.(in_flight) = []
  | None => False
  end.
Proof. vm_compute. repeat split; repeat constructor. Qed.

(** The guest registers between the test of the timeout and what it does: the machine stays
    in the error state, although the registration was accepted. *)
Example registered_and_failed :
  let g := mk_guest_shared booting_store false in
  let test := timeout_test g in
  let g := timeout_acts test 30 (register_flag (register_status g)) in
  g.(g_ready) = true /\ g.(g_store).(store_state).(is_guest) = StateError /\ guest_shell_ready g.(g_store).(store_state) = false.
Proof. vm_compute. repeat split. Qed.
