(* ===== verification/ShellText.v ===== *)
(** * The guest's shell: numbers, state, scanning and arithmetic

    [guest/init/src/sys.rs] and, of [guest/init/src/applets/shell], [state.rs],
    [util.rs] (scanning and formatting), [arithmetic.rs], [pattern_matches] and
    [find_case_end] of [control.rs] and [parse_assignment_value] of [parser.rs].
    A script is its bytes, a position in it a [nat]; [script[pos]] under the guard
    [pos < script.len()] is [script !! pos].  Loops whose termination is not
    structural take fuel and end in [Err OutOfFuel] without it. *)

From stdpp Require Import base list option numbers strings gmap.
From S2P Require Import Prelude Bytes Utf8 Str.

Inductive stuck : Type := OutOfFuel.
Abbreviation run := (outcome stuck).

Abbreviation c_tab := 9. Abbreviation c_nl := 10. Abbreviation c_cr := 13. Abbreviation c_sp := 32.
Abbreviation c_dq := 34. Abbreviation c_hash := 35. Abbreviation c_dollar := 36. Abbreviation c_pct := 37.
Abbreviation c_amp := 38. Abbreviation c_sq := 39. Abbreviation c_lpar := 40. Abbreviation c_rpar := 41.
Abbreviation c_star := 42. Abbreviation c_plus := 43. Abbreviation c_minus := 45. Abbreviation c_slash := 47.
Abbreviation c_zero := 48. Abbreviation c_two := 50. Abbreviation c_colon := 58. Abbreviation c_semi := 59.
Abbreviation c_lt := 60. Abbreviation c_eq := 61. Abbreviation c_gt := 62. Abbreviation c_quest := 63.
Abbreviation c_at := 64. Abbreviation c_bsl := 92. Abbreviation c_us := 95. Abbreviation c_lbrace := 123.
Abbreviation c_bar := 124. Abbreviation c_rbrace := 125.

(** ** Signed machine integers *)

Definition sint (w z : Z) : Prop := - 2 ^ (w - 1) <= z < 2 ^ (w - 1).
Definition sintb (w z : Z) : bool := (- 2 ^ (w - 1) <=? z) && (z <? 2 ^ (w - 1)).
Definition ichk (w z : Z) : option Z := if sintb w z then Some z else None.

(** [z as iN] *)
Definition swrap (w z : Z) : Z := let r := z mod 2 ^ w in if r <? 2 ^ (w - 1) then r else r - 2 ^ w.

(** ** [sys.rs] *)

Fixpoint parse_u64_loop (value : Z) (input : buffer) : option Z :=
  match input with
  | [] => Some value
  | byte :: input =>
      if is_ascii_digit byte then
        value ← umul 64 value 10; value ← uadd 64 value (byte - c_zero); parse_u64_loop value input
      else None
  end.
Definition parse_u64 (input : buffer) : option Z :=
  match input with [] => None | _ => parse_u64_loop 0 input end.

Definition parse_i64 (input : buffer) : option Z :=
  match input with
  | [] => None
  | c :: rest =>
      let '(negative, digits) :=
        if c =? c_minus then (true, rest) else if c =? c_plus then (false, rest) else (false, input) in
      value ← parse_u64 digits;
      if (negative : bool) then
        if value =? 2 ^ 63 then Some (- 2 ^ 63)
        else if value <? 2 ^ 63 then Some (- value) else None
      else if value <? 2 ^ 63 then Some value else None
  end.

(** The loops of [format_u64], [format_hex] and [format_number]: digits are put in
    front while the buffer has room. *)
Fixpoint format_loop (base : Z) (digit : Z -> Z) (room : nat) (value : Z) (out : buffer) : buffer :=
  if 0 <? value then
    match room with
    | O => out
    | S room => format_loop base digit room (value / base) (digit (value mod base) :: out)
    end
  else out.

Definition decimal_digit (d : Z) : Z := c_zero + d.
Definition hex_digit (d : Z) : Z := if d <? 10 then c_zero + d else 87 + d.

(** The second argument is the length of the buffer written to. *)
Definition format_u64 (value : Z) (len : nat) : buffer :=
  match len with O => [] | _ => if value =? 0 then [c_zero] else format_loop 10 decimal_digit len value [] end.
Definition format_hex (value : Z) (len : nat) : buffer :=
  match len with O => [] | _ => if value =? 0 then [c_zero] else format_loop 16 hex_digit len value [] end.

(** ** [state.rs] *)

Record Shell := mk_shell {
  last_status : Z;
  interactive : bool;
  should_exit : bool;
  exit_code : Z;
  variables : gmap buffer buffer;
  aliases : gmap buffer buffer;
  positional_params : list buffer
}.

Definition shell_new (interactive : bool) : Shell := mk_shell 0 interactive false 0 ∅ ∅ [].

Definition set_last_status (st : Z) (sh : Shell) : Shell :=
  mk_shell st sh.(interactive) sh.(should_exit) sh.(exit_code) sh.(variables) sh.(aliases) sh.(positional_params).
Definition set_exit (code : Z) (sh : Shell) : Shell :=
  mk_shell sh.(last_status) sh.(interactive) true code sh.(variables) sh.(aliases) sh.(positional_params).
Definition set_variables (m : gmap buffer buffer) (sh : Shell) : Shell :=
  mk_shell sh.(last_status) sh.(interactive) sh.(should_exit) sh.(exit_code) m sh.(aliases) sh.(positional_params).
Definition set_aliases (m : gmap buffer buffer) (sh : Shell) : Shell :=
  mk_shell sh.(last_status) sh.(interactive) sh.(should_exit) sh.(exit_code) sh.(variables) m sh.(positional_params).
Definition set_params (ps : list buffer) (sh : Shell) : Shell :=
  mk_shell sh.(last_status) sh.(interactive) sh.(should_exit) sh.(exit_code) sh.(variables) sh.(aliases) ps.

Definition set_var (name value : buffer) (sh : Shell) : Shell :=
  set_variables (<[name := value]> sh.(variables)) sh.
Definition get_var (sh : Shell) (name : buffer) : option buffer := sh.(variables) !! name.
Definition get_positional (sh : Shell) (index : nat) : option buffer := sh.(positional_params) !! index.
Definition set_positional_params (script_name : buffer) (args : list buffer) (sh : Shell) : Shell :=
  set_params (script_name :: args) sh.
Definition param_count (sh : Shell) : nat :=
  match sh.(positional_params) with [] => 0%nat | _ :: ps => length ps end.

(** The entries in the order of a [BTreeMap]. *)
Definition entries (m : gmap buffer buffer) : list (buffer * buffer) :=
  sort_by (fun x y => bytes_le x.1 y.1) (map_to_list m).

(** ** [util.rs]: scanning *)

(** How many bytes at the start satisfy a predicate. *)
Fixpoint span_len (f : Z -> bool) (s : buffer) : nat :=
  match s with
  | [] => 0%nat
  | c :: s => if f c then S (span_len f s) else 0%nat
  end.

(** [u8::trim_ascii_start], [trim_ascii_end] and [trim_ascii] *)
Definition is_ascii_whitespace (c : Z) : bool :=
  (c =? c_sp) || (c =? c_tab) || (c =? c_nl) || (c =? c_cr) || (c =? 12).
Definition trim_ascii_start (s : buffer) : buffer := drop (span_len is_ascii_whitespace s) s.
Definition trim_ascii_end (s : buffer) : buffer := rev (trim_ascii_start (rev s)).
Definition trim_ascii (s : buffer) : buffer := trim_ascii_end (trim_ascii_start s).

Definition is_blank (c : Z) : bool := (c =? c_sp) || (c =? c_tab).
Definition is_word_char (c : Z) : bool := is_ascii_alphanumeric c || (c =? c_us).

(** The bytes [skip_whitespace_and_comments] passes; [comment] is its inner loop,
    which leaves the newline to the outer one. *)
Fixpoint skip_len (comment : bool) (s : buffer) : nat :=
  match s with
  | [] => 0%nat
  | c :: s =>
      if comment && negb (c =? c_nl) then S (skip_len true s)
      else if is_blank c || (c =? c_cr) || (c =? c_nl) || (c =? c_semi) then S (skip_len false s)
      else if c =? c_hash then S (skip_len true s)
      else 0%nat
  end.
Definition skip_whitespace_and_comments (script : buffer) (start : nat) : nat :=
  (start + skip_len false (drop start script))%nat.

Definition find_word_end (script : buffer) (start : nat) : nat :=
  (start + span_len is_word_char (drop start script))%nat.

Definition is_keyword_boundary (script : buffer) (pos : nat) : bool :=
  match script !! pos with
  | None => true
  | Some c => is_blank c || (c =? c_nl) || (c =? c_cr) || (c =? c_semi) || (c =? c_bar) || (c =? c_amp) ||
              (c =? c_lt) || (c =? c_gt) || (c =? c_lpar) || (c =? c_rpar) || (c =? c_hash)
  end.

(** The bytes up to the first one outside quotes that satisfies [stop]: the loop of
    [skip_to_next_token] and of [execute_simple_line]. *)
Inductive quoting := Unquoted | Single | Double.
Fixpoint quoted_len (stop : Z -> bool) (q : quoting) (s : buffer) : nat :=
  match s with
  | [] => 0%nat
  | c :: s =>
      match q with
      | Single => S (quoted_len stop (if c =? c_sq then Unquoted else Single) s)
      | Double =>
          if c =? c_dq then S (quoted_len stop Unquoted s)
          else match s with
               | _ :: s' => if c =? c_bsl then S (S (quoted_len stop Double s')) else S (quoted_len stop Double s)
               | [] => 1%nat
               end
      | Unquoted =>
          if c =? c_sq then S (quoted_len stop Single s)
          else if c =? c_dq then S (quoted_len stop Double s)
          else if stop c then 0%nat
          else S (quoted_len stop Unquoted s)
      end
  end.

Definition token_stop (c : Z) : bool := is_blank c || (c =? c_nl) || (c =? c_semi).
Definition skip_to_next_token (script : buffer) (start : nat) : nat :=
  (start + quoted_len token_stop Unquoted (drop start script))%nat.

(** The word at a position, [&script[pos..word_end]]. *)
Definition word_at (script : buffer) (pos : nat) : buffer :=
  take (find_word_end script pos - pos) (drop pos script).
Definition is_keyword (script : buffer) (pos : nat) (keyword : buffer) : bool :=
  bool_decide (word_at script pos = keyword) && is_keyword_boundary script (find_word_end script pos).

Fixpoint find_keyword_loop (fuel : nat) (script : buffer) (pos : nat) (keyword : buffer) : run (option nat) :=
  match fuel with
  | O => Err OutOfFuel
  | S fuel =>
      let pos := skip_whitespace_and_comments script pos in
      if (length script <=? pos)%nat then Ok None
      else if is_keyword script pos keyword then Ok (Some pos)
      else find_keyword_loop fuel script (skip_to_next_token script pos) keyword
  end.
Definition find_keyword (script : buffer) (start : nat) (keyword : buffer) : run (option nat) :=
  find_keyword_loop (S (length script)) script start keyword.

(** [find_matching_done] and [find_matching_esac]: the keywords that open a block and
    the one that closes it. *)
Fixpoint find_matching_loop (fuel : nat) (openers : list buffer) (closer : buffer) (script : buffer)
    (pos depth : nat) : run (option nat) :=
  match fuel with
  | O => Err OutOfFuel
  | S fuel =>
      let pos := skip_whitespace_and_comments script pos in
      if (length script <=? pos)%nat then Ok None
      else if existsb (is_keyword script pos) openers
      then find_matching_loop fuel openers closer script (skip_to_next_token script pos) (S depth)
      else if is_keyword script pos closer then
        if bool_decide (depth = 1%nat) then Ok (Some pos)
        else find_matching_loop fuel openers closer script (skip_to_next_token script pos) (depth - 1)
      else find_matching_loop fuel openers closer script (skip_to_next_token script pos) depth
  end.
Definition find_matching_done (script : buffer) (start : nat) : run (option nat) :=
  find_matching_loop (S (length script)) [bstr "while"; bstr "for"; bstr "until"] (bstr "done") script start 1.
Definition find_matching_esac (script : buffer) (start : nat) : run (option nat) :=
  find_matching_loop (S (length script)) [bstr "case"] (bstr "esac") script start 1.

(** ** [util.rs]: formatting *)

Definition format_number (n : Z) (len : nat) : buffer :=
  match len with O => [] | _ => if n =? 0 then [c_zero] else format_loop 10 decimal_digit len n [] end.

(** [-n] of the smallest [i64] overflows.  The digits stand at the end of [buf[1..]],
    the sign right before them. *)
Definition format_signed (n : Z) (len : nat) : option buffer :=
  if (len <? 2)%nat then Some []
  else if n <? 0 then
    m ← ichk 64 (- n);
    match format_number (wrap 64 m) (len - 1) with
    | [] => Some []
    | digits => Some (c_minus :: digits)
    end
  else Some (format_number (wrap 64 n) len).

(** ** [control.rs]: patterns *)

(** The loop of [pattern_matches]; the answer is the position in the pattern when the
    word is used up, [None] for a mismatch. *)
Fixpoint match_loop (fuel : nat) (word pattern : buffer) (wi pi : nat) (star : option (nat * nat))
    : run (option nat) :=
  match fuel with
  | O => Err OutOfFuel
  | S fuel =>
      match word !! wi with
      | None => Ok (Some pi)
      | Some c =>
          let p := pattern !! pi in
          if match p with Some p => (p =? c_quest) || (p =? c) | None => false end
          then match_loop fuel word pattern (S wi) (S pi) star
          else if match p with Some p => p =? c_star | None => false end
          then match_loop fuel word pattern wi (S pi) (Some (pi, wi))
          else match star with
               | Some (sp, star_wi) => match_loop fuel word pattern (S star_wi) (S sp) (Some (sp, S star_wi))
               | None => Ok None
               end
      end
  end.

Definition match_fuel (word pattern : buffer) : nat := S (S (length word) * S (length pattern)).

Definition pattern_matches (word pattern : buffer) : run bool :=
  if bool_decide (pattern = [c_star]) then Ok true
  else
    r <- match_loop (match_fuel word pattern) word pattern 0 0 None ;;
    match r with
    | None => Ok false
    | Some pi => Ok (bool_decide (pi + span_len (Z.eqb c_star) (drop pi pattern) = length pattern)%nat)
    end.

(** [find_case_end] *)
Fixpoint case_end_loop (n : nat) (script : buffer) (pos : nat) : nat :=
  match n with
  | O => pos
  | S n => if starts_with (bstr ";;") (drop pos script) then pos else case_end_loop n script (S pos)
  end.
Definition find_case_end (script : buffer) (start esac_pos : nat) : nat :=
  if (start <? esac_pos)%nat then case_end_loop (esac_pos - start) script start else esac_pos.

(** ** [parser.rs]: the value of an assignment *)

Fixpoint assignment_loop (q : quoting) (depth : nat) (value s : buffer) : buffer * buffer :=
  match s with
  | [] => (value, [])
  | c :: s' =>
      match q with
      | Single => if c =? c_sq then assignment_loop Unquoted depth value s'
                  else assignment_loop Single depth (value ++ [c]) s'
      | Double =>
          if c =? c_dq then assignment_loop Unquoted depth value s'
          else match s' with
               | d :: s'' => if c =? c_bsl then assignment_loop Double depth (value ++ [d]) s''
                             else assignment_loop Double depth (value ++ [c]) s'
               | [] => (value ++ [c], [])
               end
      | Unquoted =>
          if c =? c_sq then assignment_loop Single depth value s'
          else if c =? c_dq then assignment_loop Double depth value s'
          else if c =? c_lpar then assignment_loop Unquoted (S depth) (value ++ [c]) s'
          else if c =? c_rpar then assignment_loop Unquoted (depth - 1) (value ++ [c]) s'
          else if is_blank c && bool_decide (depth = 0%nat) then (value, s)
          else assignment_loop Unquoted depth (value ++ [c]) s'
      end
  end.
Definition parse_assignment_value (s : buffer) : buffer * buffer := assignment_loop Unquoted 0 [] s.

(** ** [arithmetic.rs] *)

Definition skip_arith_ws (expr : buffer) (pos : nat) : nat := (pos + span_len is_blank (drop pos expr))%nat.

(** [num * 10 + digit] over the digits at a position. *)
Fixpoint number_loop (num : Z) (s : buffer) : option (Z * nat) :=
  match s with
  | [] => Some (num, 0%nat)
  | c :: s =>
      if is_ascii_digit c then
        n ← ichk 64 (num * 10); n ← ichk 64 (n + (c - c_zero)); '(r, k) ← number_loop n s; Some (r, S k)
      else Some (num, 0%nat)
  end.

(** The operators of a term; division truncates, by zero it leaves the left operand. *)
Definition arith_mul (lhs rhs : Z) : option Z := ichk 64 (lhs * rhs).
Definition arith_div (lhs rhs : Z) : option Z :=
  if rhs =? 0 then Some lhs else ichk 64 (Z.quot lhs rhs).
Definition arith_rem (lhs rhs : Z) : option Z :=
  if rhs =? 0 then Some lhs
  else _ ← ichk 64 (Z.quot lhs rhs); Some (Z.rem lhs rhs).
Definition arith_add (lhs rhs : Z) : option Z := ichk 64 (lhs + rhs).
Definition arith_sub (lhs rhs : Z) : option Z := ichk 64 (lhs - rhs).

Definition term_op (c : Z) : option (Z -> Z -> option Z) :=
  if c =? c_star then Some arith_mul else if c =? c_slash then Some arith_div
  else if c =? c_pct then Some arith_rem else None.
Definition expr_op (c : Z) : option (Z -> Z -> option Z) :=
  if c =? c_plus then Some arith_add else if c =? c_minus then Some arith_sub else None.

Section Loops.
Context (op : Z -> option (Z -> Z -> option Z)) (operand : buffer -> nat -> run (Z * nat)).

(** The loops of [eval_arith_expr_with_shell] and [eval_arith_term_with_shell]. *)
Fixpoint op_loop (fuel : nat) (expr : buffer) (lhs : Z) (pos : nat) : run (Z * nat) :=
  match fuel with
  | O => Err OutOfFuel
  | S fuel =>
      let pos := skip_arith_ws expr pos in
      match expr !! pos ≫= op with
      | None => Ok (lhs, pos)
      | Some f =>
          ' (rhs, new_pos) <- operand expr (S pos) ;;
          lhs <-! f lhs rhs ;;
          op_loop fuel expr lhs new_pos
      end
  end.
Definition op_chain (expr : buffer) (pos : nat) : run (Z * nat) :=
  ' (lhs, pos) <- operand expr pos ;; op_loop (S (length expr)) expr lhs pos.
End Loops.

Definition eval_arith_term_with_shell (factor : buffer -> nat -> run (Z * nat)) : buffer -> nat -> run (Z * nat) :=
  op_chain term_op factor.
Definition eval_arith_expr_with_shell (factor : buffer -> nat -> run (Z * nat)) : buffer -> nat -> run (Z * nat) :=
  op_chain expr_op (eval_arith_term_with_shell factor).

Fixpoint eval_arith_factor_with_shell (fuel : nat) (sh : Shell) (expr : buffer) (pos : nat) : run (Z * nat) :=
  match fuel with
  | O => Err OutOfFuel
  | S fuel =>
      let pos := skip_arith_ws expr pos in
      match expr !! pos with
      | None => Ok (0, pos)
      | Some c =>
          if c =? c_lpar then
            ' (val, new_pos) <- eval_arith_expr_with_shell (eval_arith_factor_with_shell fuel sh) expr (S pos) ;;
            let pos := skip_arith_ws expr new_pos in
            if match expr !! pos with Some d => d =? c_rpar | None => false end
            then Ok (val, S pos) else Ok (val, pos)
          else if c =? c_minus then
            ' (val, new_pos) <- eval_arith_factor_with_shell fuel sh expr (S pos) ;;
            val <-! ichk 64 (- val) ;; Ok (val, new_pos)
          else if is_ascii_digit c then
            ' (num, k) <- lift (number_loop 0 (drop pos expr)) ;; Ok (num, (pos + k)%nat)
          else if is_ascii_alphabetic c || (c =? c_us) then
            let stop := find_word_end expr pos in
            match get_var sh (take (stop - pos) (drop pos expr)) with
            | Some value => Ok (default 0 (parse_i64 value), stop)
            | None => Ok (0, stop)
            end
          else Ok (0, pos)
      end
  end.

(** [eval_arith_expr_with_shell(shell, &expanded, 0).0]; a factor consumes a byte before
    it starts another, so the length bounds the depth. *)
Definition eval_expanded (sh : Shell) (expanded : buffer) : run Z :=
  ' (v, _) <- eval_arith_expr_with_shell (eval_arith_factor_with_shell (S (S (length expanded))) sh) expanded 0 ;;
  Ok v.
