(* ===== verification/ShellTextSpec.v ===== *)
(** * The guest's shell: patterns, numbers and arithmetic are right

    The pattern matcher against a declarative definition, decimal formatting against
    parsing, and the arithmetic evaluator against the value of syntax trees. *)

From Stdlib Require Import ZArith Lia.
From stdpp Require Import base list option numbers strings gmap.
From S2P Require Import Prelude Bytes Utf8 Str ShellText.

(** ** Patterns *)

(** The words a pattern stands for: [?] is any byte, [*] any bytes. *)
Inductive glob : buffer -> buffer -> Prop :=
| glob_nil : glob [] []
| glob_any p c w : glob p w -> glob (c_quest :: p) (c :: w)
| glob_lit p c w : c <> c_star -> c <> c_quest -> glob p w -> glob (c :: p) (c :: w)
| glob_star p u w : glob p w -> glob (c_star :: p) (u ++ w).
#[local] Hint Constructors glob : core.

Lemma glob_star_inv p w : glob (c_star :: p) w -> exists k, (k <= length w)%nat /\ glob p (drop k w).
Proof.
  inversion 1 as [| |p' c' w' ? ?|p' u w' Hg]; subst; [congruence|].
  exists (length u). rewrite length_app, drop_app_length. split; [lia|done].
Qed.

Lemma glob_star_drop p w k : glob p (drop k w) -> glob (c_star :: p) w.
Proof. intros H. rewrite <- (take_drop k w). by constructor. Qed.

Lemma glob_star_more p w k : glob (c_star :: p) (drop k w) -> glob (c_star :: p) w.
Proof. intros H. apply glob_star_inv in H as (j & _ & H). rewrite drop_drop in H. by eapply glob_star_drop. Qed.

Lemma glob_end p : glob p [] <-> Forall (eq c_star) p.
Proof.
  split.
  - remember ([] : buffer) as w eqn:E. induction 1 as [| | |p u w H IH]; try discriminate; [constructor|].
    apply app_eq_nil in E as [-> ->]. by constructor; auto.
  - induction 1 as [|c p <- H IH]; [done|]. by apply (glob_star p [] []).
Qed.

(** A byte that is not [*] takes exactly one byte of the word. *)
Lemma glob_cons c p d w : c <> c_star -> glob (c :: p) (d :: w) <-> (c = c_quest \/ c = d) /\ glob p w.
Proof.
  intros Hc. split.
  - inversion 1; subst; try congruence; auto.
  - intros [[->| ->] H]; [by constructor|]. destruct (decide (d = c_quest)) as [->|]; by constructor.
Qed.

Lemma glob_segment seg q w : c_star ∉ seg -> glob (seg ++ q) w ->
  (length seg <= length w)%nat /\ glob q (drop (length seg) w).
Proof.
  revert w. induction seg as [|c seg IH]; intros w Hs H; simpl in *; [split; [lia|by rewrite drop_0]|].
  apply not_elem_of_cons in Hs as [Hc Hs]. destruct w as [|d w].
  - apply glob_end, Forall_cons_1 in H as [? _]. congruence.
  - apply glob_cons in H as [_ H]; [|done]. destruct (IH w Hs H). simpl. split; [lia|done].
Qed.

Section Matcher.
Context (word pattern : buffer) (Hword : c_star ∉ word).

(** What remains open: the current position, or another start behind the last star. *)
Definition open_matches (wi pi : nat) (star : option (nat * nat)) : Prop :=
  glob (drop pi pattern) (drop wi word) \/
  match star with
  | None => False
  | Some (sp, swi) => exists k, (swi < k <= length word)%nat /\ glob (drop (S sp) pattern) (drop k word)
  end.

(** The pattern between the last star and the position has no star, and as many bytes
    as the word since. *)
Definition since_star (wi pi : nat) (star : option (nat * nat)) : Prop :=
  (wi <= length word)%nat /\ (pi <= length pattern)%nat /\
  match star with
  | None => True
  | Some (sp, swi) => (sp < length pattern)%nat /\ exists seg, drop (S sp) pattern = seg ++ drop pi pattern /\
                      c_star ∉ seg /\ wi = (swi + length seg)%nat
  end.

Definition weight (wi pi : nat) (star : option (nat * nat)) : nat :=
  ((length word - match star with Some (_, swi) => swi | None => 0 end) * S (length pattern) +
   (length pattern - pi))%nat.

Lemma star_subsumed sp swi seg rest wi :
  drop (S sp) pattern = seg ++ c_star :: rest -> c_star ∉ seg -> wi = (swi + length seg)%nat ->
  (exists k, (swi < k <= length word)%nat /\ glob (drop (S sp) pattern) (drop k word)) ->
  glob (c_star :: rest) (drop wi word).
Proof.
  intros Hp Hs -> (k & Hk & Hg). rewrite Hp in Hg. apply glob_segment in Hg as [Hl Hg]; [|done].
  rewrite drop_drop in Hg. apply (glob_star_more _ _ (k - swi)). rewrite drop_drop.
  by replace (swi + length seg + (k - swi))%nat with (k + length seg)%nat by lia.
Qed.

Lemma drop_lookup_cons (l : buffer) i c : l !! i = Some c -> drop i l = c :: drop (S i) l.
Proof. intros H. by apply drop_S. Qed.

(** The loop ended, with the right answer for a state. *)
Definition settles (m : run (option nat)) (wi pi : nat) (star : option (nat * nat)) : Prop :=
  exists r, m = Ok r /\ (forall pi', r = Some pi' -> (pi' <= length pattern)%nat) /\
    ((exists pi', r = Some pi' /\ Forall (eq c_star) (drop pi' pattern)) <-> open_matches wi pi star).

Lemma settles_iff m wi pi star wi' pi' star' :
  (open_matches wi pi star <-> open_matches wi' pi' star') -> settles m wi pi star -> settles m wi' pi' star'.
Proof. intros E (r & ? & ? & H). exists r. split; [done|]. split; [done|]. by rewrite H. Qed.

Lemma settles_end wi pi star : since_star wi pi star -> word !! wi = None -> settles (Ok (Some pi)) wi pi star.
Proof.
  intros (Hwi & Hpi & Hst) Ew%lookup_ge_None. eexists. split; [done|]. split; [by intros ? [= <-]|].
  unfold open_matches. rewrite (drop_ge word wi), glob_end by lia. split.
  - intros (? & [= <-] & H). by left.
  - intros [H|H]; [eauto|]. destruct star as [[sp swi]|]; [|done].
    destruct Hst as (Hsp & seg & Hd & Hs & ->), H as (k & Hk & Hg). rewrite Hd in Hg.
    apply glob_segment in Hg as [Hl _]; [|done]. rewrite length_drop in Hl. lia.
Qed.

Lemma open_matches_byte wi pi star c q :
  word !! wi = Some c -> pattern !! pi = Some q -> q = c_quest \/ q = c ->
  open_matches (S wi) (S pi) star <-> open_matches wi pi star.
Proof.
  intros Ew Ep Hq. assert (q <> c_star).
  { destruct Hq as [-> | ->]; [done|]. intros ->. apply Hword. by eapply list_elem_of_lookup_2. }
  unfold open_matches. rewrite (drop_lookup_cons _ _ _ Ew), (drop_lookup_cons _ _ _ Ep), glob_cons by done. tauto.
Qed.

Lemma open_matches_star wi pi star : since_star wi pi star -> pattern !! pi = Some c_star ->
  open_matches wi (S pi) (Some (pi, wi)) <-> open_matches wi pi star.
Proof.
  intros (Hwi & Hpi & Hst) Ep. pose proof (drop_lookup_cons _ _ _ Ep) as Edp. unfold open_matches. split.
  - intros [H|(k & Hk & H)]; left; rewrite Edp; [by apply (glob_star_drop _ _ 0)|].
    apply (glob_star_drop _ _ (k - wi)). rewrite drop_drop. by replace (wi + (k - wi))%nat with k by lia.
  - intros H. assert (Hg : glob (c_star :: drop (S pi) pattern) (drop wi word)).
    { rewrite <- Edp. destruct H as [H|H]; [done|]. destruct star as [[sp swi]|]; [|done].
      destruct Hst as (Hsp & seg & Hd & Hs & E). rewrite Edp in Hd |- *. by eapply star_subsumed. }
    apply glob_star_inv in Hg as (k & Hk & Hg). rewrite drop_drop in Hg. rewrite length_drop in Hk.
    destruct (decide (k = 0%nat)) as [->|]; [left; by rewrite Nat.add_0_r in Hg|].
    right. exists (wi + k)%nat. split; [lia|done].
Qed.

Lemma open_matches_restart wi pi sp swi :
  (swi < length word)%nat -> ~ glob (drop pi pattern) (drop wi word) ->
  open_matches (S swi) (S sp) (Some (sp, S swi)) <-> open_matches wi pi (Some (sp, swi)).
Proof.
  intros Hlt Hno. unfold open_matches. split.
  - intros [H|(k & Hk & H)]; right; [exists (S swi)|exists k]; (split; [lia|done]).
  - intros [H|(k & Hk & H)]; [done|].
    destruct (decide (k = S swi)) as [->|]; [by left|right; exists k; split; [lia|done]].
Qed.

Lemma since_star_byte wi pi star q : since_star wi pi star -> (wi < length word)%nat -> pattern !! pi = Some q ->
  q <> c_star -> since_star (S wi) (S pi) star.
Proof.
  intros (Hwi & Hpi & Hst) Hlt Ep Hq. pose proof (lookup_lt_Some _ _ _ Ep).
  split; [lia|]. split; [lia|]. destruct star as [[sp swi]|]; [|done].
  destruct Hst as (Hsp & seg & Hd & Hs & ->). split; [done|]. exists (seg ++ [q]).
  rewrite Hd, (drop_lookup_cons _ _ _ Ep), <- app_assoc. split; [done|].
  split; [rewrite elem_of_app, list_elem_of_singleton; intuition congruence|]. rewrite length_app. simpl. lia.
Qed.

Lemma since_star_here wi pi : (wi <= length word)%nat -> (pi < length pattern)%nat ->
  since_star wi (S pi) (Some (pi, wi)).
Proof.
  intros. split; [lia|]. split; [lia|]. split; [lia|]. exists []. split; [done|]. split; [apply not_elem_of_nil|simpl; lia].
Qed.

Lemma match_loop_spec fuel wi pi star : since_star wi pi star -> (weight wi pi star < fuel)%nat ->
  settles (match_loop fuel word pattern wi pi star) wi pi star.
Proof.
  revert wi pi star. induction fuel as [|fuel IH]; intros wi pi star Hst Hf; [lia|]. cbn [match_loop].
  destruct (word !! wi) as [c|] eqn:Ew; [|by apply settles_end].
  pose proof (lookup_lt_Some _ _ _ Ew) as Hlt. pose proof (drop_lookup_cons _ _ _ Ew) as Edw.
  destruct (match pattern !! pi with Some q => _ | None => false end) eqn:Em.
  { destruct (pattern !! pi) as [q|] eqn:Ep; [|done]. pose proof (lookup_lt_Some _ _ _ Ep).
    assert (Hq : q = c_quest \/ q = c) by (apply orb_true_iff in Em as [Em|Em]; apply Z.eqb_eq in Em; auto).
    assert (q <> c_star).
    { destruct Hq as [-> | ->]; [done|]. intros ->. apply Hword. by eapply list_elem_of_lookup_2. }
    eapply settles_iff; [by eapply open_matches_byte|]. apply IH; [by eapply since_star_byte|].
    unfold weight in *. destruct star as [[? ?]|]; nia. }
  destruct (match pattern !! pi with Some q => q =? c_star | None => false end) eqn:Es.
  { destruct (pattern !! pi) as [q|] eqn:Ep; [|done]. apply Z.eqb_eq in Es as ->.
    pose proof (lookup_lt_Some _ _ _ Ep).
    eapply settles_iff; [by apply open_matches_star|]. apply IH; [apply since_star_here; lia|].
    unfold weight in *. destruct star as [[sp swi]|]; [destruct Hst as (_ & _ & _ & seg & _ & _ & ->)|]; nia. }
  assert (Hno : ~ glob (drop pi pattern) (drop wi word)).
  { destruct (pattern !! pi) as [q|] eqn:Ep.
    - apply Z.eqb_neq in Es. rewrite (drop_lookup_cons _ _ _ Ep), Edw, glob_cons by done.
      apply orb_false_iff in Em as [E1 E2]. apply Z.eqb_neq in E1, E2. tauto.
    - apply lookup_ge_None in Ep. rewrite drop_ge, Edw by done. inversion 1. }
  destruct star as [[sp swi]|].
  - destruct Hst as (? & ? & Hsp & seg & Hd & Hs & ->).
    eapply settles_iff; [apply open_matches_restart; [lia|exact Hno]|].
    apply IH; [apply since_star_here; lia|]. unfold weight in *. nia.
  - eexists. split; [done|]. split; [done|]. unfold open_matches. split; [by intros (? & ? & _)|tauto].
Qed.
End Matcher.

Lemma span_len_all f s : span_len f s = length s <-> Forall (fun c => f c = true) s.
Proof.
  induction s as [|c s IH]; simpl; [split; [constructor|done]|]. rewrite Forall_cons, <- IH.
  destruct (f c); split; intros H; [split; [done|lia]|destruct H; lia|lia|by destruct H].
Qed.

Lemma glob_star_everything w : glob [c_star] w.
Proof. rewrite <- (app_nil_r w). by repeat constructor. Qed.

(** [case] patterns: on every word without a literal [*] the matcher returns, and it
    answers yes exactly for the words the pattern stands for. *)
Theorem pattern_matches_glob word pattern : c_star ∉ word ->
  exists b, pattern_matches word pattern = Ok b /\ (b = true <-> glob pattern word).
Proof.
  intros Hw. unfold pattern_matches. case_bool_decide as Hp.
  { subst. exists true. split; [done|]. split; [|done]. intros _. apply glob_star_everything. }
  destruct (match_loop_spec word pattern Hw (match_fuel word pattern) 0 0 None) as (r & -> & Hle & Hr).
  - split; [lia|]. split; [lia|done].
  - unfold weight, match_fuel. lia.
  - unfold open_matches in Hr. rewrite !drop_0 in Hr. simpl. destruct r as [pi|].
    + eexists. split; [done|]. rewrite bool_decide_eq_true. specialize (Hle pi eq_refl).
      transitivity (span_len (Z.eqb c_star) (drop pi pattern) = length (drop pi pattern)).
      { rewrite length_drop. lia. }
      rewrite span_len_all. transitivity (Forall (eq c_star) (drop pi pattern)).
      { apply Forall_iff. intros c. by rewrite Z.eqb_eq. }
      split; [intros H; destruct (proj1 Hr) as [|[]]; eauto|].
      intros H. destruct (proj2 Hr) as (? & [= <-] & ?); auto.
    + exists false. split; [done|]. split; [done|]. intros H. by destruct (proj2 Hr) as (? & ? & _); [left|].
Qed.

Lemma pattern_matches_glob_witness :
  c_star ∉ bstr "net0.conf" /\
  exists b, pattern_matches (bstr "net0.conf") (bstr "n*t?.*f") = Ok b /\ (b = true <-> glob (bstr "n*t?.*f") (bstr "net0.conf")).
Proof.
  assert (H : c_star ∉ bstr "net0.conf") by (by apply (bool_decide_unpack (c_star ∉ bstr "net0.conf"))).
  split; [exact H|]. apply (pattern_matches_glob _ _ H).
Defined.

(** ** Decimal numbers *)

(** The value of digits behind those worth [n]. *)
Definition digits_from (n : Z) (s : buffer) : Z := fold_left (fun n c => 10 * n + (c - 48)) s n.

Lemma is_ascii_digit_range c : is_ascii_digit c = true <-> 48 <= c <= 57.
Proof. unfold is_ascii_digit, in_range. rewrite andb_true_iff, !Z.leb_le. done. Qed.

Lemma digits_from_ge n s : 0 <= n -> Forall (fun c => is_ascii_digit c = true) s -> n <= digits_from n s.
Proof.
  revert n. induction s as [|c s IH]; intros n Hn H; [done|]. apply Forall_cons_1 in H as [Hc Hs].
  apply is_ascii_digit_range in Hc. simpl. specialize (IH (10 * n + (c - 48)) ltac:(lia) Hs). lia.
Qed.

Lemma parse_u64_loop_digits n s : 0 <= n -> Forall (fun c => is_ascii_digit c = true) s ->
  digits_from n s < 2 ^ 64 -> parse_u64_loop n s = Some (digits_from n s).
Proof.
  revert n. induction s as [|c s IH]; intros n Hn H Hb; [done|]. apply Forall_cons_1 in H as [Hc Hs].
  simpl. rewrite Hc. apply is_ascii_digit_range in Hc. simpl in Hb.
  pose proof (digits_from_ge (10 * n + (c - 48)) s ltac:(lia) Hs).
  unfold umul, uadd. rewrite (chk_some 64 (n * 10)) by (split; lia). simpl.
  rewrite (chk_some 64 (n * 10 + (c - 48))) by (split; lia). simpl.
  replace (n * 10 + (c - 48)) with (10 * n + (c - 48)) by lia. by apply IH; [lia| |].
Qed.

Lemma format_loop_digits room v acc : 0 <= v < 10 ^ Z.of_nat room ->
  Forall (fun c => is_ascii_digit c = true) acc ->
  Forall (fun c => is_ascii_digit c = true) (format_loop 10 decimal_digit room v acc) /\
  digits_from 0 (format_loop 10 decimal_digit room v acc) = digits_from v acc.
Proof.
  revert v acc. induction room as [|room IH]; intros v acc Hv Ha; cbn [format_loop];
    destruct (Z.ltb_spec 0 v) as [Hp|Hp]; try (assert (v = 0) as -> by lia; done).
  pose proof (Z.mod_pos_bound v 10 ltac:(lia)). pose proof (Z.div_mod v 10 ltac:(lia)).
  destruct (IH (v / 10) (decimal_digit (v mod 10) :: acc)) as [H1 H2].
  - split; [apply Z.div_pos; lia|]. apply Z.div_lt_upper_bound; [lia|].
    rewrite Nat2Z.inj_succ, Z.pow_succ_r in Hv by lia. lia.
  - constructor; [|done]. apply is_ascii_digit_range. unfold decimal_digit. lia.
  - split; [done|]. rewrite H2. unfold decimal_digit. simpl. f_equal. lia.
Qed.

(** The digits of a number: not empty, and they parse. *)
Lemma format_number_digits v len : 0 <= v < 10 ^ Z.of_nat len -> (0 < len)%nat ->
  Forall (fun c => is_ascii_digit c = true) (format_number v len) /\
  digits_from 0 (format_number v len) = v /\ format_number v len <> [].
Proof.
  intros Hv Hl. unfold format_number. destruct len as [|len]; [lia|].
  destruct (Z.eqb_spec v 0) as [->|Hn]; [repeat split; [by repeat constructor|done]|].
  destruct (format_loop_digits (S len) v [] Hv) as [H1 H2]; [constructor|]. split; [done|]. split; [done|].
  intros E. rewrite E in H2. simpl in H2. congruence.
Qed.

Lemma parse_u64_digits s : s <> [] -> Forall (fun c => is_ascii_digit c = true) s -> digits_from 0 s < 2 ^ 64 ->
  parse_u64 s = Some (digits_from 0 s).
Proof. intros Hs H Hb. unfold parse_u64. destruct s; [done|]. by apply parse_u64_loop_digits. Qed.

Lemma parse_i64_digits s : s <> [] -> Forall (fun c => is_ascii_digit c = true) s -> digits_from 0 s < 2 ^ 63 ->
  parse_i64 s = Some (digits_from 0 s) /\ parse_i64 (c_minus :: s) = Some (- digits_from 0 s).
Proof.
  intros Hs H Hb. unfold parse_i64. simpl. rewrite (parse_u64_digits s) by (done || lia). simpl.
  destruct s as [|c s']; [done|]. assert (Hc : 48 <= c <= 57) by (apply is_ascii_digit_range; by inversion H).
  rewrite (proj2 (Z.eqb_neq c c_minus)), (proj2 (Z.eqb_neq c c_plus)) by lia.
  rewrite parse_u64_digits by (done || lia). cbn [mbind option_bind].
  rewrite (proj2 (Z.ltb_lt _ (2 ^ 63)) Hb), (proj2 (Z.eqb_neq _ (2 ^ 63))) by lia. done.
Qed.

Lemma ichk_some w z : sint w z -> ichk w z = Some z.
Proof.
  unfold sint, ichk, sintb. intros [H1 H2]. by rewrite (proj2 (Z.leb_le _ _) H1), (proj2 (Z.ltb_lt _ _) H2).
Qed.
Lemma ichk_inv w z r : ichk w z = Some r -> r = z /\ sint w z.
Proof.
  unfold sint, ichk, sintb. destruct (_ && _) eqn:E; [|done]. intros [= <-]. apply andb_true_iff in E as [E1 E2].
  apply Z.leb_le in E1. apply Z.ltb_lt in E2. done.
Qed.

(** What [format_signed] writes into its 20 bytes is what [parse_i64] reads; only the
    smallest number cannot be written, its negation overflows. *)
Theorem format_signed_roundtrip n : sint 64 n ->
  match format_signed n 20 with
  | Some s => parse_i64 s = Some n
  | None => n = - 2 ^ 63
  end.
Proof.
  unfold sint, format_signed. intros Hn. change (20 <? 2)%nat with false. cbv iota.
  destruct (Z.ltb_spec n 0) as [Hneg|Hpos].
  - destruct (ichk 64 (- n)) as [m|] eqn:E; cbn [mbind option_bind].
    + apply ichk_inv in E as [-> Hm]. unfold sint in Hm. rewrite wrap_id by (split; lia).
      destruct (format_number_digits (- n) 19) as (H1 & H2 & H3); [simpl; lia|lia|].
      change (20 - 1)%nat with 19%nat. destruct (parse_i64_digits (format_number (- n) 19)) as [_ Hp]; [done|done|lia|].
      destruct (format_number (- n) 19); [done|].
      etrans; [exact Hp|]. f_equal. lia.
    + destruct (decide (n = - 2 ^ 63)); [done|]. rewrite ichk_some in E; [done|]. unfold sint. lia.
  - rewrite wrap_id by (split; lia). destruct (format_number_digits n 20) as (H1 & H2 & H3); [simpl; lia|lia|].
    destruct (parse_i64_digits (format_number n 20)) as [-> _]; [done|done|lia|]. by rewrite H2.
Qed.

Lemma format_signed_roundtrip_witness :
  sint 64 (-4095) /\ match format_signed (-4095) 20 with Some s => parse_i64 s = Some (-4095) | None => -4095 = - 2 ^ 63 end.
Proof. split; [split; vm_compute; congruence|]. apply (format_signed_roundtrip (-4095)). split; vm_compute; congruence. Defined.
