(* ===== verification/ShellArith.v ===== *)
(** * The guest's shell: arithmetic

    Syntax trees, their value in 64-bit arithmetic and their text; the evaluator of
    [arithmetic.rs] gives the text of a tree its value. *)

From Stdlib Require Import ZArith Lia.
From stdpp Require Import base list option numbers strings gmap.
From S2P Require Import Prelude Bytes Utf8 Str ShellText ShellTextSpec.

Inductive binop := Add | Sub | Mul | Div | Rem.
Inductive aexp :=
| Lit (n : Z)
| Var (x : buffer)
| Neg (e : aexp)
| Bin (op : binop) (l r : aexp).

(** The value; nothing where a step leaves the range of [i64]. *)
Definition apply_op (op : binop) : Z -> Z -> option Z :=
  match op with Add => arith_add | Sub => arith_sub | Mul => arith_mul | Div => arith_div | Rem => arith_rem end.
Fixpoint value (sh : Shell) (e : aexp) : option Z :=
  match e with
  | Lit n => Some n
  | Var x => Some (default 0 (get_var sh x ≫= parse_i64))
  | Neg e => v ← value sh e; ichk 64 (- v)
  | Bin op l r => a ← value sh l; b ← value sh r; apply_op op a b
  end.

(** The text: operators of a chain associate to the left, [*], [/] and [%] bind closer;
    parentheses stand where this does not suffice.  [sp] are the blanks around an
    operator. *)
Definition prec (op : binop) : nat := match op with Add | Sub => 0 | _ => 1 end.
Definition op_char (op : binop) : Z :=
  match op with Add => c_plus | Sub => c_minus | Mul => c_star | Div => c_slash | Rem => c_pct end.
Definition paren (b : bool) (s : buffer) : buffer := if b then [c_lpar] ++ s ++ [c_rpar] else s.
Fixpoint print (sp : buffer) (level : nat) (e : aexp) : buffer :=
  match e with
  | Lit n => format_number n 20
  | Var x => x
  | Neg e => c_minus :: print sp 2 e
  | Bin op l r =>
      paren (prec op <? level)%nat
        (print sp (prec op) l ++ sp ++ op_char op :: sp ++ print sp (S (prec op)) r)
  end.

Definition name_ok (x : buffer) : Prop :=
  match x with
  | [] => False
  | c :: _ => (is_ascii_alphabetic c || (c =? c_us)) = true /\ Forall (fun c => is_word_char c = true) x
  end.
Fixpoint aexp_ok (e : aexp) : Prop :=
  match e with
  | Lit n => 0 <= n < 2 ^ 63
  | Var x => name_ok x
  | Neg e => aexp_ok e
  | Bin _ l r => aexp_ok l /\ aexp_ok r
  end.

Definition blanks (s : buffer) : Prop := Forall (fun c => is_blank c = true) s.

(** ** Scanning *)

Lemma span_len_app f s t : Forall (fun c => f c = true) s ->
  match t with [] => True | c :: _ => f c = false end -> span_len f (s ++ t) = length s.
Proof.
  intros Hs Ht. induction Hs as [|c s Hc Hs IH]; simpl.
  - destruct t as [|c t]; [done|]. simpl. by rewrite Ht.
  - by rewrite Hc, IH.
Qed.

Lemma span_len_le f s : (span_len f s <= length s)%nat.
Proof. induction s as [|c s IH]; simpl; [done|]. destruct (f c); lia. Qed.

Lemma span_len_drop f s : span_len f (drop (span_len f s) s) = 0%nat.
Proof. induction s as [|c s IH]; simpl; [done|]. destruct (f c) eqn:E; [done|]. simpl. by rewrite E. Qed.

Lemma drop_cons_lookup (l : buffer) i c t : drop i l = c :: t -> l !! i = Some c.
Proof. intros H. rewrite <- (Nat.add_0_r i), <- lookup_drop, H. done. Qed.
Lemma drop_nil_lookup (l : buffer) i : drop i l = [] -> l !! i = None.
Proof. intros H. rewrite <- (Nat.add_0_r i), <- lookup_drop, H. done. Qed.
Lemma drop_app_shift (l : buffer) i s t : drop i l = s ++ t -> drop (i + length s) l = t.
Proof. intros H. by rewrite <- drop_drop, H, drop_app_length. Qed.
Lemma drop_app_bound (l : buffer) i s t : drop i l = s ++ t -> s <> [] -> (i + length s <= length l)%nat.
Proof.
  intros H Hs. apply (f_equal length) in H. rewrite length_drop, length_app in H.
  destruct s; [done|]. simpl in *. lia.
Qed.

Lemma skip_arith_ws_app expr pos s t : drop pos expr = s ++ t -> blanks s ->
  match t with [] => True | c :: _ => is_blank c = false end -> skip_arith_ws expr pos = (pos + length s)%nat.
Proof. intros H Hs Ht. unfold skip_arith_ws. rewrite H. by rewrite span_len_app. Qed.

Lemma skip_arith_ws_idem expr pos : skip_arith_ws expr (skip_arith_ws expr pos) = skip_arith_ws expr pos.
Proof. unfold skip_arith_ws. rewrite <- drop_drop, span_len_drop. lia. Qed.

Lemma op_loop_skip op operand n expr v pos :
  op_loop op operand n expr v (skip_arith_ws expr pos) = op_loop op operand n expr v pos.
Proof. destruct n; [done|]. cbn [op_loop]. by rewrite skip_arith_ws_idem. Qed.

(** A blank is no operator and no part of a word. *)
Lemma word_char_not_blank c : is_word_char c = true -> is_blank c = false.
Proof.
  unfold is_word_char, is_blank, is_ascii_alphanumeric, is_ascii_alphabetic, is_ascii_digit, in_range. intros H.
  apply orb_false_iff. split; apply Z.eqb_neq; intros ->; discriminate.
Qed.
Lemma blank_not_word_char c : is_blank c = true -> is_word_char c = false.
Proof. intros H. destruct (is_word_char c) eqn:E; [|done]. apply word_char_not_blank in E. congruence. Qed.
Lemma digit_word_char c : is_ascii_digit c = true -> is_word_char c = true.
Proof. unfold is_word_char, is_ascii_alphanumeric. intros ->. by rewrite orb_true_r. Qed.

(** Text behind a word, and text behind a chain of factors. *)
Definition bounded (rest : buffer) : Prop := match rest with [] => True | c :: _ => is_word_char c = false end.
Definition term_ends (rest : buffer) : Prop :=
  exists s t, rest = s ++ t /\ blanks s /\
    match t with [] => True | c :: _ => is_blank c = false /\ is_word_char c = false /\ term_op c = None end.

Lemma term_ends_bounded rest : term_ends rest -> bounded rest.
Proof.
  intros (s & t & -> & Hs & Ht). destruct s as [|c s]; simpl.
  - destruct t; [done|]. apply Ht.
  - apply blank_not_word_char. by inversion Hs.
Qed.

Lemma op_char_facts op : is_blank (op_char op) = false /\ is_word_char (op_char op) = false.
Proof. by destruct op. Qed.

Lemma bounded_op sp op t : blanks sp -> bounded (sp ++ op_char op :: t).
Proof.
  intros H. destruct sp as [|c sp]; simpl; [apply op_char_facts|]. apply blank_not_word_char. by inversion H.
Qed.

(** ** Factors, terms and sums *)

Lemma number_loop_digits n s rest : 0 <= n -> Forall (fun c => is_ascii_digit c = true) s -> bounded rest ->
  digits_from n s < 2 ^ 63 -> number_loop n (s ++ rest) = Some (digits_from n s, length s).
Proof.
  intros Hn Hs Hr. revert n Hn. induction Hs as [|c s Hc Hs IH]; intros n Hn Hb; simpl.
  - destruct rest as [|c rest]; [done|]. simpl in *. destruct (is_ascii_digit c) eqn:E; [|done].
    apply digit_word_char in E. congruence.
  - rewrite Hc. apply is_ascii_digit_range in Hc. simpl in Hb.
    pose proof (digits_from_ge (10 * n + (c - 48)) s ltac:(lia) Hs).
    rewrite (ichk_some 64 (n * 10)) by (unfold sint; lia). simpl.
    rewrite (ichk_some 64 (n * 10 + (c - 48))) by (unfold sint; lia). simpl.
    replace (n * 10 + (c - 48)) with (10 * n + (c - 48)) by lia. by rewrite IH by lia.
Qed.

Lemma print_head sp level e : aexp_ok e -> exists c t, print sp level e = c :: t /\ is_blank c = false.
Proof.
  revert level. induction e as [n|x|e IH|op l IHl r IHr]; intros level H; simpl in H; cbn [print].
  - destruct (format_number_digits n 20) as (H1 & _ & H3); [simpl; lia|lia|].
    destruct (format_number n 20) as [|c t]; [done|]. exists c, t. split; [done|].
    apply word_char_not_blank, digit_word_char. by inversion H1.
  - destruct x as [|c t]; [done|]. exists c, t. split; [done|]. apply word_char_not_blank. destruct H as [_ H]. by inversion H.
  - by exists c_minus, (print sp 2 e).
  - destruct H as [Hl Hr]. destruct (IHl (prec op) Hl) as (c & t & -> & Hc). unfold paren. case_match; simpl; eauto.
Qed.

Section Evaluator.
Context (sh : Shell) (expr sp : buffer) (Hsp : blanks sp).

Abbreviation factor fuel := (eval_arith_factor_with_shell fuel sh).
Abbreviation left_at pos := (length expr - pos)%nat.

(** A chain of operands with the fuel of its loop explicit. *)
Definition chain op (operand : buffer -> nat -> run (Z * nat)) (n pos : nat) : run (Z * nat) :=
  ' (lhs, pos) <- operand expr pos ;; op_loop op operand n expr lhs pos.

(** The text of [e] stands at [pos] behind blanks, [rest] follows at [stop]. *)
Definition stands (level : nat) (e : aexp) (pos stop : nat) (rest : buffer) : Prop :=
  exists s, blanks s /\ drop pos expr = s ++ print sp level e ++ rest /\
            stop = (pos + length s + length (print sp level e))%nat.

Definition factor_ok (e : aexp) : Prop := forall fuel pos stop rest,
  stands 2 e pos stop rest -> bounded rest -> (left_at pos < fuel)%nat ->
  factor fuel expr pos = (v <-! value sh e ;; Ok (v, stop)).

Definition chain_ok op (operand : (buffer -> nat -> run (Z * nat)) -> buffer -> nat -> run (Z * nat)) (level : nat) (ends : buffer -> Prop) (e : aexp) : Prop :=
  forall fuel pos stop rest n,
  stands level e pos stop rest -> ends rest -> (left_at pos < fuel)%nat -> (left_at pos < n)%nat ->
  exists n', (left_at stop < n')%nat /\
    chain op (operand (factor fuel)) n pos = (v <-! value sh e ;; op_loop op (operand (factor fuel)) n' expr v stop).

Abbreviation term_ok := (chain_ok term_op id 1 bounded).
Abbreviation sum_ok := (chain_ok expr_op eval_arith_term_with_shell 0 term_ends).

Lemma stands_rest level e pos stop rest : stands level e pos stop rest -> drop stop expr = rest.
Proof.
  intros (s & _ & H & ->). rewrite app_assoc in H. apply drop_app_shift in H.
  by rewrite length_app, Nat.add_assoc in H.
Qed.

Lemma stands_bounds level e pos stop rest : aexp_ok e -> stands level e pos stop rest ->
  (pos < stop <= length expr)%nat.
Proof.
  intros He (s & _ & H & ->). destruct (print_head sp level e He) as (c & t & E & _).
  rewrite app_assoc in H. apply drop_app_bound in H; [|rewrite E; by destruct s].
  rewrite length_app in H. rewrite E in *. simpl in *. lia.
Qed.

(** Where the text starts: the blanks are skipped. *)
Lemma stands_start level e pos stop rest : aexp_ok e -> stands level e pos stop rest ->
  let start := skip_arith_ws expr pos in
  (pos <= start)%nat /\ drop start expr = print sp level e ++ rest /\
  stop = (start + length (print sp level e))%nat.
Proof.
  intros He (s & Hs & H & ->). destruct (print_head sp level e He) as (c & t & E & Hc).
  rewrite (skip_arith_ws_app expr pos s (print sp level e ++ rest)) by (done || by rewrite E).
  split; [lia|]. split; [by apply drop_app_shift|done].
Qed.

Lemma factor_lit n : aexp_ok (Lit n) -> factor_ok (Lit n).
Proof.
  intros Hn fuel pos stop rest H Hr Hf. destruct fuel as [|fuel]; [lia|].
  assert (Hb : 0 <= n < 2 ^ 63) by exact Hn.
  destruct (stands_start _ _ _ _ _ Hn H) as (Hp & Hd & ->). cbn [eval_arith_factor_with_shell].
  set (start := skip_arith_ws expr pos) in *. cbn [print value] in *.
  destruct (format_number_digits n 20) as (H1 & H2 & H3); [change (Z.of_nat 20) with 20; lia|lia|].
  destruct (format_number n 20) as [|c t] eqn:E; [done|]. rewrite <- E in *.
  assert (Hc : is_ascii_digit c = true) by (rewrite E in H1; by inversion H1).
  rewrite (drop_cons_lookup expr start c (t ++ rest)) by (by rewrite Hd, E).
  pose proof (proj1 (is_ascii_digit_range c) Hc).
  rewrite (proj2 (Z.eqb_neq c c_lpar)), (proj2 (Z.eqb_neq c c_minus)), Hc by lia.
  rewrite Hd, (number_loop_digits 0 _ rest (Z.le_refl 0) H1 Hr), H2 by (rewrite H2; apply Hb). done.
Qed.

Lemma find_word_end_app pos x rest : drop pos expr = x ++ rest -> Forall (fun c => is_word_char c = true) x ->
  bounded rest -> find_word_end expr pos = (pos + length x)%nat.
Proof. intros H Hx Hr. unfold find_word_end. rewrite H. by rewrite span_len_app. Qed.

Lemma name_head_facts c : (is_ascii_alphabetic c || (c =? c_us)) = true ->
  c <> c_lpar /\ c <> c_minus /\ is_ascii_digit c = false.
Proof.
  unfold is_ascii_alphabetic, is_ascii_digit, in_range. intros H.
  rewrite !orb_true_iff, !andb_true_iff, !Z.leb_le, Z.eqb_eq in H.
  repeat split; [lia|lia|]. apply andb_false_iff. rewrite !Z.leb_gt. lia.
Qed.

Lemma factor_var x : aexp_ok (Var x) -> factor_ok (Var x).
Proof.
  intros Hx fuel pos stop rest H Hr Hf. destruct fuel as [|fuel]; [lia|].
  destruct (stands_start _ _ _ _ _ Hx H) as (Hp & Hd & ->). cbn [eval_arith_factor_with_shell].
  set (start := skip_arith_ws expr pos) in *. cbn [print value] in *.
  destruct x as [|c t]; [done|]. destruct Hx as [Hc Hx]. destruct (name_head_facts c Hc) as (H1 & H2 & H3).
  rewrite (drop_cons_lookup expr start c (t ++ rest)) by done.
  rewrite (proj2 (Z.eqb_neq _ _) H1), (proj2 (Z.eqb_neq _ _) H2), H3, Hc.
  rewrite (find_word_end_app start (c :: t) rest) by done.
  replace (start + length (c :: t) - start)%nat with (length (c :: t)) by lia. rewrite Hd, take_app_length.
  destruct (get_var sh (c :: t)) as [v|]; done.
Qed.

Lemma factor_neg e : aexp_ok e -> factor_ok e -> factor_ok (Neg e).
Proof.
  intros He IH fuel pos stop rest H Hr Hf. destruct fuel as [|fuel]; [lia|].
  destruct (stands_start _ _ _ _ _ (He : aexp_ok (Neg e)) H) as (Hp & Hd & ->). cbn [eval_arith_factor_with_shell].
  set (start := skip_arith_ws expr pos) in *. cbn [print value] in *.
  pose proof (stands_bounds _ _ _ _ _ (He : aexp_ok (Neg e)) H) as Hb. cbn [print] in Hb.
  rewrite (drop_cons_lookup expr start c_minus (print sp 2 e ++ rest)) by done. simpl (c_minus =? _).
  cbv iota. rewrite (IH fuel (S start) (start + length (c_minus :: print sp 2 e))%nat rest).
  - destruct (value sh e) as [v|]; [|done]. simpl. by destruct (ichk 64 (- v)).
  - exists []. split; [constructor|]. simpl. split; [|lia].
    replace (S start) with (start + length [c_minus])%nat by (simpl; lia). by eapply drop_app_shift.
  - done.
  - cbn [length] in Hb. lia.
Qed.

Lemma op_loop_step op operand n s c t v pos f : drop pos expr = s ++ c :: t -> blanks s -> is_blank c = false ->
  op c = Some f ->
  op_loop op operand (S n) expr v pos =
  (' (rhs, new_pos) <- operand expr (S (pos + length s)) ;; lhs <-! f v rhs ;; op_loop op operand n expr lhs new_pos).
Proof.
  intros H Hs Hc Ho. cbn [op_loop]. rewrite (skip_arith_ws_app expr pos s (c :: t)) by done.
  rewrite (drop_cons_lookup expr _ c t) by (by eapply drop_app_shift). simpl. by rewrite Ho.
Qed.

Lemma op_loop_stop op operand n v pos : (expr !! skip_arith_ws expr pos) ≫= op = None ->
  op_loop op operand (S n) expr v pos = Ok (v, skip_arith_ws expr pos).
Proof. intros H. cbn [op_loop]. by rewrite H. Qed.

(** An operand that is given its value, its end taken up to blanks. *)
Definition operand_ok (operand : (buffer -> nat -> run (Z * nat)) -> buffer -> nat -> run (Z * nat)) (level : nat) (ends : buffer -> Prop) (e : aexp) : Prop :=
  forall fuel pos stop rest,
  stands level e pos stop rest -> ends rest -> (left_at pos < fuel)%nat ->
  exists stop', (stop' = stop \/ stop' = skip_arith_ws expr stop) /\
    operand (factor fuel) expr pos = (v <-! value sh e ;; Ok (v, stop')).

(** The position behind an operand may stand before or behind blanks. *)
Lemma op_loop_either op operand n v stop stop' : stop' = stop \/ stop' = skip_arith_ws expr stop ->
  op_loop op operand n expr v stop' = op_loop op operand n expr v stop.
Proof. intros [-> | ->]; [done|]. apply op_loop_skip. Qed.


Lemma chain_bin op opf operand (ends : buffer -> Prop) l r :
  opf (op_char op) = Some (apply_op op) -> (forall t, ends (sp ++ op_char op :: t)) ->
  aexp_ok l -> aexp_ok r ->
  chain_ok opf operand (prec op) ends l -> operand_ok operand (S (prec op)) ends r ->
  chain_ok opf operand (prec op) ends (Bin op l r).
Proof.
  intros Ho He Hl Hr IHl IHr fuel pos stop rest n (s & Hs & Hd & ->) Hends Hf Hn. cbn [print] in *.
  rewrite Nat.ltb_irrefl in *. cbn [paren] in *. rewrite <- !app_assoc in Hd. simpl in Hd. rewrite <- app_assoc in Hd.
  set (tail := sp ++ op_char op :: sp ++ print sp (S (prec op)) r ++ rest) in *.
  set (stop_l := (pos + length s + length (print sp (prec op) l))%nat).
  assert (Sl : stands (prec op) l pos stop_l tail) by (by exists s).
  destruct (IHl fuel pos stop_l tail n Sl (He _) Hf Hn) as (n1 & Hn1 & ->).
  pose proof (stands_bounds _ _ _ _ _ Hl Sl) as Bl. pose proof (stands_rest _ _ _ _ _ Sl) as Dl.
  destruct n1 as [|n1]; [lia|].
  set (pos_r := S (stop_l + length sp)). set (stop := (pos + _ + _)%nat).
  assert (Es : stop = (pos_r + length sp + length (print sp (S (prec op)) r))%nat).
  { unfold stop, pos_r, stop_l. rewrite !length_app. simpl. rewrite length_app. lia. }
  assert (Sr : stands (S (prec op)) r pos_r stop rest).
  { exists sp. split; [done|]. split; [|done]. unfold pos_r, tail in *.
    replace (S (stop_l + length sp)) with (stop_l + length (sp ++ [op_char op]))%nat by (rewrite length_app; simpl; lia).
    eapply drop_app_shift. rewrite Dl, <- app_assoc. done. }
  pose proof (stands_bounds _ _ _ _ _ Hr Sr) as Br.
  destruct (IHr fuel pos_r stop rest Sr Hends) as (stop' & Hstop & Er); [lia|].
  exists n1. split; [lia|]. cbn [value]. destruct (value sh l) as [a|]; [|done]. cbn [lift obind mbind option_bind].
  rewrite (op_loop_step opf _ n1 sp (op_char op) (sp ++ print sp (S (prec op)) r ++ rest) a stop_l (apply_op op))
    by (done || apply op_char_facts).
  fold pos_r. rewrite Er. destruct (value sh r) as [b|]; [|done]. cbn [lift obind mbind option_bind].
  destruct (apply_op op a b) as [v|]; [|done]. cbn [lift obind mbind option_bind]. by apply op_loop_either.
Qed.

Lemma chain_single opf operand level ends e : aexp_ok e -> operand_ok operand level ends e ->
  chain_ok opf operand level ends e.
Proof.
  intros He Hop fuel pos stop rest n Hst Hr Hf Hn.
  destruct (Hop fuel pos stop rest Hst Hr Hf) as (stop' & Hs & E). exists n.
  pose proof (stands_bounds _ _ _ _ _ He Hst). split; [lia|]. unfold chain. rewrite E.
  destruct (value sh e) as [v|]; [|done]. cbn [lift obind]. by apply op_loop_either.
Qed.

Lemma factor_operand e : factor_ok e -> operand_ok id 2 bounded e.
Proof. intros H fuel pos stop rest Hst Hr Hf. exists stop. split; [by left|]. by apply (H fuel pos stop rest). Qed.

(** A term ends where no operator of terms follows. *)
Lemma term_operand e : aexp_ok e -> term_ok e -> operand_ok eval_arith_term_with_shell 1 term_ends e.
Proof.
  intros He H fuel pos stop rest Hst Hr Hf. exists (skip_arith_ws expr stop). split; [by right|].
  pose proof (stands_bounds _ _ _ _ _ He Hst).
  destruct (H fuel pos stop rest (S (length expr)) Hst (term_ends_bounded _ Hr) Hf) as (n & Hn & E); [lia|].
  unfold eval_arith_term_with_shell, op_chain. unfold chain in E. unfold id in E. rewrite E.
  destruct (value sh e) as [v|]; [|done]. cbn [lift obind]. destruct n as [|n]; [lia|]. apply op_loop_stop.
  destruct Hr as (s & t & -> & Hs & Ht). apply stands_rest in Hst.
  rewrite (skip_arith_ws_app expr stop s t) by (done || by destruct t; [|apply Ht]).
  apply drop_app_shift in Hst. destruct t as [|c t]; [by rewrite drop_nil_lookup|].
  rewrite (drop_cons_lookup _ _ _ _ Hst). simpl. apply Ht.
Qed.

(** A sum in parentheses is a factor. *)
Lemma factor_paren op l r : aexp_ok (Bin op l r) -> sum_ok (Bin op l r) -> factor_ok (Bin op l r).
Proof.
  intros He H fuel pos stop rest Hst Hr Hf. destruct fuel as [|fuel]; [lia|].
  pose proof (stands_bounds _ _ _ _ _ He Hst) as Hb.
  destruct (stands_start _ _ _ _ _ He Hst) as (Hp & Hd & Es). cbn [eval_arith_factor_with_shell].
  set (start := skip_arith_ws expr pos) in *.
  assert (Ep : print sp 2 (Bin op l r) = [c_lpar] ++ print sp 0 (Bin op l r) ++ [c_rpar]) by (by destruct op).
  rewrite Ep, <- !app_assoc in Hd. rewrite (drop_cons_lookup _ _ _ _ Hd). simpl (c_lpar =? _). cbv iota.
  set (stop0 := (S start + length (print sp 0 (Bin op l r)))%nat).
  assert (S0 : stands 0 (Bin op l r) (S start) stop0 (c_rpar :: rest)).
  { exists []. split; [constructor|]. split; [|unfold stop0; cbn [length]; lia]. cbn [app].
    replace (S start) with (start + length [c_lpar])%nat by (simpl; lia). by eapply drop_app_shift. }
  pose proof (stands_bounds _ _ _ _ _ He S0) as Hb0. pose proof (stands_rest _ _ _ _ _ S0) as Hd0.
  assert (Ews : skip_arith_ws expr stop0 = stop0).
  { rewrite (skip_arith_ws_app expr stop0 [] (c_rpar :: rest)); [apply Nat.add_0_r|done|constructor|done]. }
  assert (Est : stop = S stop0) by (rewrite Es, Ep; unfold stop0; rewrite !length_app; cbn [length]; lia).
  destruct (H fuel (S start) stop0 (c_rpar :: rest) (S (length expr)) S0) as (n & Hn & E); [|lia|lia|].
  { exists [], (c_rpar :: rest). repeat split. constructor. }
  unfold chain in E. unfold eval_arith_expr_with_shell, op_chain. rewrite E.
  destruct (value sh (Bin op l r)) as [v|]; [|done]. cbn [lift obind]. destruct n as [|n]; [lia|].
  rewrite op_loop_stop; rewrite Ews; [|by rewrite (drop_cons_lookup _ _ _ _ Hd0)].
  cbn [obind]. rewrite Ews, (drop_cons_lookup _ _ _ _ Hd0). by rewrite Est.
Qed.

Lemma term_ends_op op t : prec op = 0%nat -> term_ends (sp ++ op_char op :: t).
Proof. intros H. exists sp, (op_char op :: t). by destruct op. Qed.

Lemma operand_ok_level operand level level' ends e : print sp level e = print sp level' e ->
  operand_ok operand level ends e -> operand_ok operand level' ends e.
Proof. unfold operand_ok, stands. intros E H. rewrite <- E. exact H. Qed.

(** A tree whose text is the same at the next level is an operand by itself. *)
Lemma term_single e : aexp_ok e -> print sp 2 e = print sp 1 e -> factor_ok e -> term_ok e.
Proof. intros He E H. apply chain_single; [done|]. eapply operand_ok_level; [exact E|]. by apply factor_operand. Qed.

Lemma sum_single e : aexp_ok e -> print sp 1 e = print sp 0 e -> term_ok e -> sum_ok e.
Proof. intros He E H. apply chain_single; [done|]. eapply operand_ok_level; [exact E|]. by apply term_operand. Qed.

Lemma atom_ok e : aexp_ok e -> print sp 2 e = print sp 1 e -> print sp 1 e = print sp 0 e -> factor_ok e ->
  factor_ok e /\ term_ok e /\ sum_ok e.
Proof. intros He E1 E0 H. pose proof (term_single e He E1 H). pose proof (sum_single e He E0). auto. Qed.

Lemma product_ok op l r : prec op = 1%nat -> aexp_ok l -> aexp_ok r -> term_ok l -> factor_ok r ->
  term_ok (Bin op l r).
Proof.
  intros Hop Hl Hr IHl IHr. pose proof (chain_bin op term_op id bounded l r) as H. rewrite Hop in H.
  apply H; [by destruct op|intros t; by apply bounded_op|done..|by apply factor_operand].
Qed.

Lemma difference_ok op l r : prec op = 0%nat -> aexp_ok l -> aexp_ok r -> sum_ok l -> term_ok r ->
  sum_ok (Bin op l r).
Proof.
  intros Hop Hl Hr IHl IHr. pose proof (chain_bin op expr_op eval_arith_term_with_shell term_ends l r) as H.
  rewrite Hop in H.
  apply H; [by destruct op|intros t; by apply term_ends_op|done..|by apply term_operand].
Qed.

Lemma evaluator_ok e : aexp_ok e -> factor_ok e /\ term_ok e /\ sum_ok e.
Proof.
  induction e as [n|x|e IH|op l IHl r IHr]; intros He.
  - apply atom_ok; [done..|]. by apply factor_lit.
  - apply atom_ok; [done..|]. by apply factor_var.
  - apply atom_ok; [done..|]. apply factor_neg; [done|]. by apply IH.
  - destruct He as [Hl Hr]. destruct (IHl Hl) as (Fl & Tl & Sl), (IHr Hr) as (Fr & Tr & Sr).
    assert (He : aexp_ok (Bin op l r)) by done. destruct (prec op) eqn:Hop.
    + assert (S0 : sum_ok (Bin op l r)) by (by apply difference_ok). pose proof (factor_paren _ _ _ He S0) as F0.
      split; [done|]. split; [|done]. apply term_single; [done| |done]. by destruct op.
    + assert (T1 : term_ok (Bin op l r)) by (apply product_ok; auto; by destruct op).
      assert (S0 : sum_ok (Bin op l r)) by (apply sum_single; [done| |done]; by destruct op).
      split; [by apply factor_paren|done].
Qed.
End Evaluator.

(** The evaluator gives the text of a tree its value, and panics where the value does not
    fit. *)
Lemma eval_expanded_print sh sp e : blanks sp -> aexp_ok e -> eval_expanded sh (print sp 0 e) = lift (value sh e).
Proof.
  intros Hsp He. destruct (evaluator_ok sh (print sp 0 e) sp Hsp e He) as (_ & _ & H).
  assert (Hst : stands (print sp 0 e) sp 0 e 0 (length (print sp 0 e)) []).
  { exists []. split; [constructor|]. rewrite app_nil_r. split; [done|simpl; lia]. }
  destruct (H (S (S (length (print sp 0 e)))) 0%nat _ [] (S (length (print sp 0 e))) Hst) as (n & Hn & E);
    [exists [], []; repeat split; constructor|lia|lia|].
  unfold eval_expanded, eval_arith_expr_with_shell, op_chain. unfold chain in E. rewrite E.
  destruct (value sh e) as [v|]; [|done]. cbn [lift obind]. destruct n as [|n]; [lia|].
  rewrite op_loop_stop; [done|]. pose proof (stands_rest _ _ _ _ _ _ _ Hst) as Hd.
  rewrite (skip_arith_ws_app _ _ [] []); [|done|constructor|done].
  rewrite drop_nil_lookup; [done|]. by rewrite Nat.add_0_r.
Qed.
