(* ===== verification/ShellExpand.v ===== *)
(** * The guest's shell: expansion and tokens

    [expand.rs] and [parser.rs] of [guest/init/src/applets/shell].  The operating
    system is an interface ([OS]): what the shell asks it and tells it, over a type of
    worlds that is threaded through.  [execute_capture] forks a child that runs a
    script, so it belongs to [ShellExec.v]; here it is an argument. *)

From stdpp Require Import base list option numbers strings gmap.
From S2P Require Import Prelude Bytes Utf8 Str ShellText.

(** ** Programs over a world

    A program ends with a value, panics, runs out of fuel, or ends its process: [_exit]
    and a successful [execvp] do not return. *)

Inductive halt (W : Type) : Type :=
| NoFuel
| Exited (status : Z) (w : W).
Arguments NoFuel {W}.
Arguments Exited {W} status w.

Definition prog (W A : Type) : Type := W -> outcome (halt W) (A * W).
Definition pret {W A} (a : A) : prog W A := fun w => Ok (a, w).
Definition pbind {W A B} (m : prog W A) (k : A -> prog W B) : prog W B :=
  fun w => match m w with Ok (a, w) => k a w | Err e => Err e | Panic => Panic end.
Definition no_fuel {W A} : prog W A := fun _ => Err NoFuel.
Definition prun {W A} (m : run A) : prog W A :=
  fun w => match m with Ok a => Ok (a, w) | Err OutOfFuel => Err NoFuel | Panic => Panic end.
Definition pact {W} (f : W -> W) : prog W unit := fun w => Ok (tt, f w).
Definition pcall {W A} (f : W -> A * W) : prog W A := fun w => Ok (f w).
Definition pask {W A} (f : W -> A) : prog W A := fun w => Ok (f w, w).

(** ** The operating system, [io.rs]

    What the shell asks the system and tells it.  A file is opened, duplicated and closed
    by descriptor; [os_stat] and [os_lstat] give mode and size; [os_waitpid] the status
    word; [os_fork] gets what the child does and returns the child's number to the parent,
    negative if there is no child; [os_execvp] gives the status the program ends with,
    nothing if it cannot be run. *)
Class OS (W : Type) : Type := {
  os_getpid : W -> Z;
  os_getenv : W -> buffer -> option buffer;
  os_setenv : buffer -> buffer -> W -> W;
  os_unsetenv : buffer -> W -> W;
  os_write : Z -> buffer -> W -> W;
  os_read_byte : Z -> W -> option Z * W;
  os_read_all : Z -> W -> buffer * W;
  os_open : buffer -> Z -> Z -> W -> Z * W;
  os_close : Z -> W -> W;
  os_dup : Z -> W -> Z * W;
  os_dup2 : Z -> Z -> W -> W;
  os_chdir : buffer -> W -> Z * W;
  os_getcwd : W -> option buffer;
  os_isatty : W -> Z -> bool;
  os_stat : W -> buffer -> option (Z * Z);
  os_lstat : W -> buffer -> option (Z * Z);
  os_access : W -> buffer -> Z -> bool;
  os_pipe : W -> option (Z * Z) * W;
  os_fork : prog W unit -> prog W Z;
  os_waitpid : Z -> W -> Z * W;
  os_execvp : list buffer -> W -> option (Z * W)
}.

Notation "x <~ m ;; k" := (pbind m (fun x => k))
  (at level 20, m at level 99, k at level 200, right associativity) : bento_scope.
Notation "' p <~ m ;; k" := (pbind m (fun x => match x with p => k end))
  (at level 20, p pattern, m at level 99, k at level 200, right associativity) : bento_scope.

(** [&s[a..b]] on positions *)
Definition sub_slice (s : buffer) (a b : nat) : option buffer :=
  if ((a <=? b) && (b <=? length s))%nat then Some (take (b - a) (drop a s)) else None.

Definition STDIN : Z := 0.
Definition STDOUT : Z := 1.
Definition STDERR : Z := 2.

(** ** [expand.rs] *)

(** [$@], [$*]: the parameters from the first on, with a space between. *)
Definition all_params (sh : Shell) : buffer :=
  foldl (fun result i => (if (1 <? i)%nat then result ++ [c_sp] else result) ++ default [] (get_positional sh i))
        [] (seq 1 (param_count sh)).

Definition parse_usize (s : buffer) : Z :=
  foldl (fun n c => if is_ascii_digit c then wrap 64 (wrap 64 (n * 10) + (c - c_zero)) else n) 0 s.

Definition positional_at (sh : Shell) (idx : Z) : option buffer :=
  if idx <? zlen sh.(positional_params) then get_positional sh (Z.to_nat idx) else None.

(** The position behind the parenthesis that closes [depth] open ones. *)
Fixpoint paren_len (depth : nat) (s : buffer) : nat :=
  match depth, s with
  | O, _ | _, [] => 0%nat
  | S d, c :: s =>
      S (paren_len (if c =? c_lpar then S depth else if c =? c_rpar then d else depth) s)
  end.

(** The name in braces, up to an operator; [?] may be its first byte. *)
Fixpoint brace_name_len (first : bool) (s : buffer) : nat :=
  match s with
  | [] => 0%nat
  | c :: s =>
      if negb (c =? c_rbrace) && negb (c =? c_colon) && negb (c =? c_minus) && negb (c =? c_plus) &&
         negb (c =? c_eq) && (negb (c =? c_quest) || first)
      then S (brace_name_len false s) else 0%nat
  end.

(** The operand, up to the brace that closes [depth] open ones. *)
Fixpoint operand_len (depth : nat) (s : buffer) : nat :=
  match s with
  | [] => 0%nat
  | c :: s =>
      if c =? c_lbrace then S (operand_len (S depth) s)
      else if c =? c_rbrace then
        match depth with
        | O | S O => 0%nat
        | S d => S (operand_len d s)
        end
      else S (operand_len depth s)
  end.

Definition byte_is (s : buffer) (pos : nat) (c : Z) : bool :=
  match s !! pos with Some d => d =? c | None => false end.
(** [pos < s.len() && s[pos] != c] *)
Definition byte_not (s : buffer) (pos : nat) (c : Z) : bool :=
  match s !! pos with Some d => negb (d =? c) | None => false end.
(** [if pos < s.len() && s[pos] == c { pos += 1 }] *)
Definition skip_byte (s : buffer) (pos : nat) (c : Z) : nat := if byte_is s pos c then S pos else pos.

Section Expand.
Context {W : Type} `{!OS W} (capture : Shell -> buffer -> prog W buffer).

Definition lookup_var (sh : Shell) (name : buffer) : prog W (option buffer) :=
  if bool_decide (length name = 1%nat) && forallb is_ascii_digit name
  then pret (positional_at sh (match name with c :: _ => c - c_zero | [] => 0 end))
  else if bool_decide (name <> []) && forallb is_ascii_digit name then pret (positional_at sh (parse_usize name))
  else if bool_decide (name = bstr "#") then pret (Some (format_number (Z.of_nat (param_count sh)) 16))
  else if bool_decide (name = bstr "@") || bool_decide (name = bstr "*") then pret (Some (all_params sh))
  else if bool_decide (name = bstr "?") then pret (Some (format_number (wrap 64 sh.(last_status)) 16))
  else match get_var sh name with
       | Some value => pret (Some value)
       | None => pask (fun w => os_getenv w name)
       end.

(** The [match op] of [expand_dollar]. *)
Definition apply_operator (op : Z) (unset : bool) (var_name expanded_operand : buffer) (value : option buffer)
    : prog W buffer :=
  if op =? c_minus then pret (if unset then expanded_operand else default [] value)
  else if op =? c_plus then pret (if unset then [] else expanded_operand)
  else if op =? c_eq then pret (if unset then expanded_operand else default [] value)
  else if op =? c_quest then
    if unset then
      _ <~ pact (os_write STDERR (bstr "sh: ")) ;;
      _ <~ pact (os_write STDERR var_name) ;;
      _ <~ pact (os_write STDERR (bstr ": ")) ;;
      _ <~ (match expanded_operand with
            | [] => pact (os_write STDERR (bstr "parameter not set" ++ [c_nl]))
            | _ => _ <~ pact (os_write STDERR expanded_operand) ;; pact (os_write STDERR [c_nl])
            end) ;;
      pret []
    else pret (default [] value)
  else pret (default [] value).

Definition length_text (value : option buffer) : buffer :=
  format_number (match value with Some v => zlen v | None => 0 end) 16.

(** The end of [expand_dollar]: the name is complete. *)
Definition expand_name (sh : Shell) (start pos : nat) (var_name : buffer) : prog W (buffer * nat) :=
  match var_name with
  | [] => pret ([c_dollar], S start)
  | _ => v <~ lookup_var sh var_name ;; pret (default [] v, pos)
  end.

Section Dollar.
Context (rec : Shell -> buffer -> prog W buffer).

Definition eval_arithmetic (sh : Shell) (expr : buffer) : prog W Z :=
  expanded <~ rec sh expr ;; prun (eval_expanded sh expanded).

(** The operator and the operand of a braced expansion, from the position of the operator. *)
Definition braced_operator (sh : Shell) (input : buffer) (pos : nat) (length_op : bool) (var_name : buffer)
    : prog W (buffer * nat) :=
  let colon_variant := byte_is input pos c_colon in
  let '(op, pos) :=
    if colon_variant then
      let pos := S pos in
      if byte_not input pos c_rbrace then (default 0 (input !! pos), S pos) else (0, pos)
    else (default 0 (input !! pos), S pos) in
  let n := operand_len 1 (drop pos input) in
  let operand := take n (drop pos input) in
  let pos := skip_byte input (pos + n) c_rbrace in
  expanded_operand <~ rec sh operand ;;
  value <~ lookup_var sh var_name ;;
  let unset := match value with None => true | Some v => colon_variant && bool_decide (v = []) end in
  if length_op then pret (length_text value, pos)
  else s <~ apply_operator op unset var_name expanded_operand value ;; pret (s, pos).

Definition expand_brace (sh : Shell) (input : buffer) (start pos : nat) : prog W (buffer * nat) :=
  let length_op := byte_is input pos c_hash && byte_not input (S pos) c_rbrace in
  let pos := if length_op then S pos else pos in
  let n := brace_name_len true (drop pos input) in
  let var_name := take n (drop pos input) in
  let pos := (pos + n)%nat in
  if byte_not input pos c_rbrace then braced_operator sh input pos length_op var_name
  else
    let pos := skip_byte input pos c_rbrace in
    if length_op then value <~ lookup_var sh var_name ;; pret (length_text value, pos)
    else expand_name sh start pos var_name.

(** [$((..))] from behind the parentheses, and [$(..)]. *)
Definition expand_arith (sh : Shell) (input : buffer) (start_expr : nat) : prog W (buffer * nat) :=
  let pos := (start_expr + paren_len 2 (drop start_expr input))%nat in
  expr <~ prun (lift (sub_slice input start_expr (pos - 2))) ;;
  result <~ eval_arithmetic sh expr ;;
  s <~ prun (lift (format_signed result 20)) ;;
  pret (s, pos).
Definition expand_command (sh : Shell) (input : buffer) (start_cmd : nat) : prog W (buffer * nat) :=
  let pos := (start_cmd + paren_len 1 (drop start_cmd input))%nat in
  cmd <~ prun (lift (sub_slice input start_cmd (pos - 1))) ;;
  output <~ capture sh cmd ;;
  pret (trim_ascii_end output, pos).

Definition expand_dollar (sh : Shell) (input : buffer) (start : nat) : prog W (buffer * nat) :=
  let pos := S start in
  match input !! pos with
  | None => pret ([c_dollar], pos)
  | Some c =>
      if c =? c_quest then pret (format_number (wrap 64 sh.(last_status)) 16, S pos)
      else if c =? c_dollar then pid <~ pask os_getpid ;; pret (format_number (wrap 64 pid) 16, S pos)
      else if c =? c_hash then pret (format_number (Z.of_nat (param_count sh)) 16, S pos)
      else if is_ascii_digit c then pret (default [] (get_positional sh (Z.to_nat (c - c_zero))), S pos)
      else if c =? c_at then pret (all_params sh, S pos)
      else if c =? c_star then pret (all_params sh, S pos)
      else if (c =? c_lpar) && byte_is input (S pos) c_lpar then expand_arith sh input (S (S pos))
      else if c =? c_lpar then expand_command sh input (S pos)
      else if c =? c_lbrace then expand_brace sh input start (S pos)
      else
        let n := span_len is_word_char (drop pos input) in
        expand_name sh start (pos + n) (take n (drop pos input))
  end.
End Dollar.

(** The loop of [expand_string]. *)
Fixpoint expand_loop (dollar : nat -> prog W (buffer * nat)) (fuel : nat) (input : buffer) (pos : nat)
    (result : buffer) : prog W buffer :=
  match fuel with
  | O => no_fuel
  | S fuel =>
      match input !! pos with
      | None => pret result
      | Some c =>
          if c =? c_dollar then
            ' (expanded, new_pos) <~ dollar pos ;; expand_loop dollar fuel input new_pos (result ++ expanded)
          else expand_loop dollar fuel input (S pos) (result ++ [c])
      end
  end.

(** [expand_string], with the depth of nested operands bounded. *)
Fixpoint expand_at (depth : nat) (sh : Shell) (input : buffer) : prog W buffer :=
  match depth with
  | O => no_fuel
  | S depth => expand_loop (expand_dollar (expand_at depth) sh input) (S (length input)) input 0 []
  end.

(** An operand is shorter than the text it stands in. *)
Definition expand_string (sh : Shell) (input : buffer) : prog W buffer := expand_at (S (length input)) sh input.
Definition dollar (sh : Shell) (input : buffer) : nat -> prog W (buffer * nat) :=
  expand_dollar (expand_at (length input)) sh input.

(** ** [parser.rs] *)

Inductive Token :=
| Word (w : buffer) | Pipe | AndIf | OrIf | RedirectOut | RedirectAppend | RedirectIn | RedirectErr | Background.

Definition word_stop (c : Z) : bool :=
  is_blank c || (c =? c_nl) || (c =? c_semi) || (c =? c_bar) || (c =? c_amp) || (c =? c_gt) || (c =? c_lt) ||
  (c =? c_hash).

(** The loop of a double-quoted part of a word. *)
Fixpoint dquote_loop (fuel : nat) (sh : Shell) (input : buffer) (pos : nat) (word : buffer)
    : prog W (buffer * nat) :=
  match fuel with
  | O => no_fuel
  | S fuel =>
      match input !! pos with
      | None => pret (word, pos)
      | Some c =>
          if c =? c_dq then pret (word, pos)
          else if (c =? c_bsl) && (S pos <? length input)%nat then
            dquote_loop fuel sh input (S (S pos)) (word ++ [default 0 (input !! S pos)])
          else if c =? c_dollar then
            ' (expanded, new_pos) <~ dollar sh input pos ;; dquote_loop fuel sh input new_pos (word ++ expanded)
          else dquote_loop fuel sh input (S pos) (word ++ [c])
      end
  end.

Fixpoint word_loop (fuel : nat) (sh : Shell) (input : buffer) (pos : nat) (word : buffer) : prog W (buffer * nat) :=
  match fuel with
  | O => no_fuel
  | S fuel =>
      match input !! pos with
      | None => pret (word, pos)
      | Some c =>
          if word_stop c then pret (word, pos)
          else if c =? c_sq then
            let n := span_len (fun d => negb (d =? c_sq)) (drop (S pos) input) in
            let pos := S pos in
            word_loop fuel sh input (skip_byte input (pos + n) c_sq) (word ++ take n (drop pos input))
          else if c =? c_dq then
            ' (word, pos) <~ dquote_loop (S (length input)) sh input (S pos) word ;;
            word_loop fuel sh input (skip_byte input pos c_dq) word
          else if (c =? c_bsl) && (S pos <? length input)%nat then
            word_loop fuel sh input (S (S pos)) (word ++ [default 0 (input !! S pos)])
          else if c =? c_dollar then
            ' (expanded, new_pos) <~ dollar sh input pos ;; word_loop fuel sh input new_pos (word ++ expanded)
          else word_loop fuel sh input (S pos) (word ++ [c])
      end
  end.
Definition parse_word (sh : Shell) (input : buffer) (start : nat) : prog W (buffer * nat) :=
  word_loop (S (length input)) sh input start [].

(** The tokens that are not words, with their lengths. *)
Definition operator_at (input : buffer) (pos : nat) (c : Z) : option (Token * nat) :=
  if c =? c_bar then Some (if byte_is input (S pos) c_bar then (OrIf, 2%nat) else (Pipe, 1%nat))
  else if c =? c_amp then Some (if byte_is input (S pos) c_amp then (AndIf, 2%nat) else (Background, 1%nat))
  else if c =? c_gt then Some (if byte_is input (S pos) c_gt then (RedirectAppend, 2%nat) else (RedirectOut, 1%nat))
  else if c =? c_lt then Some (RedirectIn, 1%nat)
  else if (c =? c_two) && byte_is input (S pos) c_gt then Some (RedirectErr, 2%nat)
  else None.

Definition push_word (word : buffer) (tokens : list Token) : list Token :=
  match word with [] => tokens | _ => tokens ++ [Word word] end.

Fixpoint tokenize_loop (fuel : nat) (sh : Shell) (input : buffer) (pos : nat) (tokens : list Token)
    : prog W (list Token) :=
  match fuel with
  | O => no_fuel
  | S fuel =>
      match input !! pos with
      | None => pret tokens
      | Some c =>
          if is_blank c then tokenize_loop fuel sh input (S pos) tokens
          else if c =? c_hash then pret tokens
          else match operator_at input pos c with
          | Some (token, n) => tokenize_loop fuel sh input (pos + n) (tokens ++ [token])
          | None =>
              ' (word, new_pos) <~ parse_word sh input pos ;;
              tokenize_loop fuel sh input new_pos (push_word word tokens)
          end
      end
  end.
Definition tokenize (sh : Shell) (input : buffer) : prog W (list Token) :=
  tokenize_loop (S (length input)) sh input 0 [].

(** [split_words] of [expand.rs] *)
Fixpoint split_loop (fuel : nat) (sh : Shell) (s : buffer) (pos : nat) (words : list buffer) : prog W (list buffer) :=
  match fuel with
  | O => no_fuel
  | S fuel =>
      let pos := skip_whitespace_and_comments s pos in
      if (length s <=? pos)%nat then pret words
      else
        ' (word, new_pos) <~ parse_word sh s pos ;;
        split_loop fuel sh s new_pos (match word with [] => words | _ => words ++ [word] end)
  end.
Definition split_words (sh : Shell) (s : buffer) : prog W (list buffer) := split_loop (S (length s)) sh s 0 [].
End Expand.
