(* ===== verification/ShellWords.v ===== *)
(** * The guest's shell: what words and expansions mean

    A grammar of words (plain bytes, escapes, both kinds of quotes, variables) with the
    value of each; the tokenizer of [parser.rs] gives a line of such words their values.
    Arithmetic expansion writes the value of a syntax tree. *)

From Stdlib Require Import ZArith Lia.
From stdpp Require Import base list option numbers strings gmap.
From S2P Require Import Prelude Bytes Utf8 Str ShellText ShellTextSpec ShellArith ShellExpand.

(** ** Arithmetic expansion *)

(** Text whose parentheses are balanced. *)
Definition balanced (s : buffer) : Prop :=
  forall d t, paren_len (S d) (s ++ t) = (length s + paren_len (S d) t)%nat.

Lemma balanced_app s t : balanced s -> balanced t -> balanced (s ++ t).
Proof. intros Hs Ht d u. rewrite <- app_assoc, Hs, Ht, length_app. lia. Qed.

Lemma balanced_plain s : Forall (fun c => c <> c_lpar /\ c <> c_rpar) s -> balanced s.
Proof.
  induction 1 as [|c s [H1 H2] H IH]; intros d t; [done|]. simpl.
  rewrite (proj2 (Z.eqb_neq _ _) H1), (proj2 (Z.eqb_neq _ _) H2). f_equal. apply IH.
Qed.

Lemma balanced_paren s : balanced s -> balanced (c_lpar :: s ++ [c_rpar]).
Proof.
  intros H d t. simpl. rewrite <- app_assoc, H. simpl. rewrite length_app. simpl. lia.
Qed.

Lemma word_char_plain c : is_word_char c = true -> c <> c_lpar /\ c <> c_rpar /\ c <> c_dollar.
Proof. intros H. repeat split; intros ->; discriminate. Qed.
Lemma blank_plain c : is_blank c = true -> c <> c_lpar /\ c <> c_rpar /\ c <> c_dollar.
Proof. intros H. repeat split; intros ->; discriminate. Qed.

Lemma format_number_word_chars n : 0 <= n < 2 ^ 63 -> Forall (fun c => is_word_char c = true) (format_number n 20).
Proof.
  intros Hn. destruct (format_number_digits n 20) as (H & _ & _); [change (Z.of_nat 20) with 20; lia|lia|].
  eapply Forall_impl; [exact H|]. apply digit_word_char.
Qed.

Lemma name_ok_word_chars x : name_ok x -> Forall (fun c => is_word_char c = true) x.
Proof. destruct x; [done|]. by intros [_ H]. Qed.

Lemma print_balanced sp level e : blanks sp -> aexp_ok e -> balanced (print sp level e).
Proof.
  intros Hsp. assert (Hw : forall s, Forall (fun c => is_word_char c = true) s -> balanced s).
  { intros s H. apply balanced_plain. eapply Forall_impl; [exact H|]. intros c Hc. apply word_char_plain in Hc. tauto. }
  assert (Hb : balanced sp).
  { apply balanced_plain. eapply Forall_impl; [exact Hsp|]. intros c Hc. apply blank_plain in Hc. tauto. }
  revert level. induction e as [n|x|e IH|op l IHl r IHr]; intros level He; simpl in He; cbn [print].
  - by apply Hw, format_number_word_chars.
  - by apply Hw, name_ok_word_chars.
  - apply (balanced_app [c_minus]); [|auto]. apply balanced_plain. by repeat constructor.
  - destruct He as [Hl Hr].
    assert (Hbody : balanced (print sp (prec op) l ++ sp ++ op_char op :: sp ++ print sp (S (prec op)) r)).
    { apply balanced_app; [auto|]. apply balanced_app; [done|].
      apply (balanced_app [op_char op]); [|by apply balanced_app; auto]. apply balanced_plain. by destruct op; repeat constructor. }
    unfold paren. case_match; [|done]. by apply balanced_paren.
Qed.

Lemma print_no_dollar sp level e : blanks sp -> aexp_ok e -> c_dollar ∉ print sp level e.
Proof.
  intros Hsp. assert (Hw : forall s, Forall (fun c => is_word_char c = true) s -> c_dollar ∉ s).
  { intros s H Hin. by apply (proj1 (Forall_forall _ _) H) in Hin. }
  assert (Hb : c_dollar ∉ sp) by (intros Hin; by apply (proj1 (Forall_forall _ _) Hsp) in Hin).
  revert level. induction e as [n|x|e IH|op l IHl r IHr]; intros level He; simpl in He; cbn [print].
  - by apply Hw, format_number_word_chars.
  - by apply Hw, name_ok_word_chars.
  - rewrite not_elem_of_cons. auto.
  - destruct He as [Hl Hr]. specialize (IHl (prec op) Hl). specialize (IHr (S (prec op)) Hr).
    assert (c_dollar <> op_char op) by (by destruct op).
    unfold paren. case_match; rewrite ?elem_of_app, ?elem_of_cons, ?elem_of_app, ?elem_of_cons, ?elem_of_app, ?elem_of_cons, ?elem_of_app, ?elem_of_nil; intuition congruence.
Qed.

#[local] Arguments format_signed : simpl never.
#[local] Arguments format_number : simpl never.

Section Expansion.
Context {W : Type} `{!OS W} (capture : Shell -> buffer -> prog W buffer).

(** Text without [$] is copied. *)
Lemma expand_loop_plain dl fuel input pos s t res w :
  drop pos input = s ++ t -> c_dollar ∉ s ->
  expand_loop dl (length s + fuel) input pos res w = expand_loop (W:=W) dl fuel input (pos + length s) (res ++ s) w.
Proof.
  revert pos res. induction s as [|c s IH]; intros pos res Hd Hs.
  - simpl. by rewrite Nat.add_0_r, app_nil_r.
  - apply not_elem_of_cons in Hs as [Hc Hs]. simpl. rewrite (drop_cons_lookup input pos c (s ++ t)) by done.
    rewrite (proj2 (Z.eqb_neq c c_dollar)) by congruence. rewrite (IH (S pos)).
    + rewrite <- app_assoc. simpl. by replace (pos + S (length s))%nat with (S pos + length s)%nat by lia.
    + replace (S pos) with (pos + length [c])%nat by (simpl; lia). by eapply drop_app_shift.
    + done.
Qed.

Lemma expand_loop_end dl fuel input pos res w : drop pos input = [] ->
  expand_loop (W:=W) dl (S fuel) input pos res w = Ok (res, w).
Proof. intros H. cbn [expand_loop]. by rewrite drop_nil_lookup. Qed.

Lemma expand_at_plain d sh s w : c_dollar ∉ s -> expand_at capture (S d) sh s w = Ok (s, w).
Proof.
  intros Hs. cbn [expand_at]. replace (S (length s)) with (length s + 1)%nat by lia.
  rewrite (expand_loop_plain _ 1 s 0 s [] [] w) by (done || by rewrite app_nil_r).
  apply expand_loop_end. apply drop_ge. lia.
Qed.

Lemma sub_slice_app s t u : sub_slice (s ++ t ++ u) (length s) (length s + length t) = Some t.
Proof.
  unfold sub_slice. rewrite !length_app, (proj2 (Nat.leb_le _ _)), (proj2 (Nat.leb_le _ _)) by lia. simpl.
  rewrite drop_app_length. by replace (length s + length t - length s)%nat with (length t) by lia; rewrite take_app_length.
Qed.

Definition arith_open : buffer := [c_dollar; c_lpar; c_lpar].
Definition arith_close : buffer := [c_rpar; c_rpar].

Lemma expand_dollar_arith_case rec sh input start :
  input !! S start = Some c_lpar -> input !! S (S start) = Some c_lpar ->
  expand_dollar capture rec sh input start = expand_arith rec sh input (S (S (S start))).
Proof. intros H1 H2. unfold expand_dollar, byte_is. by rewrite H1, H2. Qed.

Lemma expand_dollar_arith d sh sp e pre post w :
  blanks sp -> aexp_ok e ->
  let input := pre ++ arith_open ++ print sp 0 e ++ arith_close ++ post in
  expand_dollar capture (expand_at capture (S d)) sh input (length pre) w =
  match value sh e ≫= fun v => format_signed v 20 with
  | Some s => Ok ((s, (length pre + 5 + length (print sp 0 e))%nat), w)
  | None => Panic
  end.
Proof.
  intros Hsp He input.
  assert (Hd : forall k, drop (length pre + k) input = drop k (arith_open ++ print sp 0 e ++ arith_close ++ post))
    by (intros k; by rewrite <- drop_drop; unfold input; rewrite drop_app_length).
  rewrite (expand_dollar_arith_case _ _ _ (length pre)).
  2:{ replace (S (length pre)) with (length pre + 1)%nat by lia. exact (drop_cons_lookup _ _ _ _ (Hd 1%nat)). }
  2:{ replace (S (S (length pre))) with (length pre + 2)%nat by lia. exact (drop_cons_lookup _ _ _ _ (Hd 2%nat)). }
  replace (S (S (S (length pre)))) with (length (pre ++ arith_open)) by (rewrite length_app; simpl; lia).
  unfold expand_arith. set (p := print sp 0 e) in *.
  assert (Hp : paren_len 2 (drop (length (pre ++ arith_open)) input) = (length p + 2)%nat).
  { unfold input. rewrite app_assoc, drop_app_length. unfold p. rewrite (print_balanced sp 0 e Hsp He). simpl. by destruct post. }
  rewrite Hp. replace (length (pre ++ arith_open) + (length p + 2) - 2)%nat with (length (pre ++ arith_open) + length p)%nat by lia.
  unfold input. rewrite (app_assoc pre), sub_slice_app. unfold pbind at 1. cbn [lift prun]. unfold pbind at 1, eval_arithmetic.
  unfold pbind at 1. unfold p. rewrite expand_at_plain by (by apply print_no_dollar).
  rewrite eval_expanded_print by done. destruct (value sh e) as [v|]; [|done]. cbn [lift prun mbind option_bind].
  unfold pbind. destruct (format_signed v 20) as [s|]; [|done]. cbn [lift prun pret]. unfold pret.
  by replace (length (pre ++ arith_open) + (length (print sp 0 e) + 2))%nat with (length pre + 5 + length (print sp 0 e))%nat
    by (rewrite length_app; simpl; lia).
Qed.

(** A tree written between [$((] and [))], in any text without
    another [$], is replaced by the decimal number that is its value under the usual
    precedences; where the value, or a step on the way, leaves [i64], the shell panics. *)
Theorem arithmetic_expansion sh sp e pre post w :
  blanks sp -> aexp_ok e -> c_dollar ∉ pre -> c_dollar ∉ post ->
  expand_string capture sh (pre ++ arith_open ++ print sp 0 e ++ arith_close ++ post) w =
  match value sh e ≫= fun v => format_signed v 20 with
  | Some s => Ok (pre ++ s ++ post, w)
  | None => Panic
  end.
Proof.
  intros Hsp He Hpre Hpost. set (input := pre ++ _). unfold expand_string. cbn [expand_at].
  assert (Hl : length input = (length pre + 5 + length (print sp 0 e) + length post)%nat)
    by (unfold input; rewrite !length_app; simpl; lia).
  replace (S (length input)) with (length pre + S (length post + S (4 + length (print sp 0 e))))%nat by lia.
  rewrite (expand_loop_plain _ _ input 0 pre (arith_open ++ print sp 0 e ++ arith_close ++ post)) by done.
  cbn [expand_loop app]. rewrite Nat.add_0_l, (drop_cons_lookup input (length pre) c_dollar
    ([c_lpar; c_lpar] ++ print sp 0 e ++ arith_close ++ post)) by (unfold input; by rewrite drop_app_length).
  rewrite Z.eqb_refl. unfold pbind. replace (length input) with (S (length input - 1)) by lia.
  unfold input at 2. rewrite expand_dollar_arith by done.
  destruct (value sh e ≫= _) as [s|]; [|done]. rewrite (expand_loop_plain _ _ _ _ post []); [| |done].
  - rewrite expand_loop_end; [by rewrite <- app_assoc|]. apply drop_ge. lia.
  - unfold input. rewrite app_nil_r, 3 app_assoc.
    replace (length pre + 5 + length (print sp 0 e))%nat with (length (((pre ++ arith_open) ++ print sp 0 e) ++ arith_close))
      by (rewrite !length_app; simpl; lia). apply drop_app_length.
Qed.
End Expansion.


(** ** A grammar of words *)

(** The parts of a double-quoted text and of a word. *)
Inductive dpiece := DChar (c : Z) | DEsc (c : Z) | DVar (x : buffer).
Inductive piece := PChar (c : Z) | PEsc (c : Z) | PSingle (s : buffer) | PDouble (l : list dpiece) | PVar (x : buffer).

Definition var_text (x : buffer) : buffer := [c_dollar; c_lbrace] ++ x ++ [c_rbrace].
Definition dpiece_text (p : dpiece) : buffer :=
  match p with DChar c => [c] | DEsc c => [c_bsl; c] | DVar x => var_text x end.
Definition dtext (l : list dpiece) : buffer := concat (dpiece_text <$> l).
Definition piece_text (p : piece) : buffer :=
  match p with
  | PChar c => [c]
  | PEsc c => [c_bsl; c]
  | PSingle s => c_sq :: s ++ [c_sq]
  | PDouble l => c_dq :: dtext l ++ [c_dq]
  | PVar x => var_text x
  end.
Definition word_text (ps : list piece) : buffer := concat (piece_text <$> ps).

Definition dpiece_ok (p : dpiece) : Prop :=
  match p with DChar c => c <> c_dq /\ c <> c_bsl /\ c <> c_dollar | DEsc _ => True | DVar x => name_ok x end.
Definition piece_ok (p : piece) : Prop :=
  match p with
  | PChar c => word_stop c = false /\ c <> c_sq /\ c <> c_dq /\ c <> c_bsl /\ c <> c_dollar
  | PEsc _ => True
  | PSingle s => c_sq ∉ s
  | PDouble l => Forall dpiece_ok l
  | PVar x => name_ok x
  end.

Section Words.
Context {W : Type} `{!OS W} (capture : Shell -> buffer -> prog W buffer) (sh : Shell) (w : W).

(** A variable of the shell, else of the environment, else nothing. *)
Definition var_value (x : buffer) : buffer :=
  default [] (match get_var sh x with Some v => Some v | None => os_getenv w x end).
Definition dpiece_value (p : dpiece) : buffer :=
  match p with DChar c | DEsc c => [c] | DVar x => var_value x end.
Definition dvalue (l : list dpiece) : buffer := concat (dpiece_value <$> l).
Definition piece_value (p : piece) : buffer :=
  match p with
  | PChar c | PEsc c => [c]
  | PSingle s => s
  | PDouble l => dvalue l
  | PVar x => var_value x
  end.
Definition word_value (ps : list piece) : buffer := concat (piece_value <$> ps).

Lemma lookup_var_name x : name_ok x ->
  lookup_var sh x w = Ok (match get_var sh x with Some v => Some v | None => os_getenv w x end, w).
Proof.
  destruct x as [|c x]; [done|]. intros [Hc Hx]. destruct (name_head_facts c Hc) as (_ & _ & Hd).
  unfold lookup_var. cbn [forallb]. rewrite Hd, !andb_false_l, !andb_false_r.
  assert (Hne : forall d, d = c_hash \/ d = c_at \/ d = c_star \/ d = c_quest -> bool_decide (c :: x = [d]) = false).
  { intros d H. apply bool_decide_eq_false. intros [= -> ->].
    by destruct H as [->|[->|[->| ->]]]. }
  change (bstr "#") with [c_hash]. change (bstr "@") with [c_at]. change (bstr "*") with [c_star].
  change (bstr "?") with [c_quest]. rewrite !Hne by tauto. by destruct (get_var sh (c :: x)).
Qed.

Lemma brace_name_len_app x t : Forall (fun c => is_word_char c = true) x ->
  forall first, brace_name_len first (x ++ c_rbrace :: t) = length x.
Proof.
  induction 1 as [|c x Hc Hx IH]; intros first; [done|]. simpl.
  assert (Hn : forall d, is_word_char d = false -> (c =? d) = false).
  { intros d Hd. apply Z.eqb_neq. congruence. }
  rewrite !Hn by done. simpl. by rewrite IH.
Qed.

(** A variable in braces is replaced by its value. *)
Lemma dollar_var input pos x t : drop pos input = var_text x ++ t -> name_ok x ->
  dollar capture sh input pos w = Ok ((var_value x, (pos + length (var_text x))%nat), w).
Proof.
  intros Hd Hx. unfold dollar, expand_dollar.
  assert (Hk : forall k, drop (pos + k) input = drop k (var_text x ++ t)) by (intros k; by rewrite <- drop_drop, Hd).
  assert (Hlen : length (var_text x) = (length x + 3)%nat) by (unfold var_text; rewrite !length_app; simpl; lia).
  replace (S pos) with (pos + 1)%nat by lia. rewrite (drop_cons_lookup _ _ _ _ (Hk 1%nat)). cbv beta iota.
  change (expand_brace (expand_at capture (length input)) sh input pos (S (pos + 1)) w = Ok (var_value x, (pos + length (var_text x))%nat, w)).
  replace (S (pos + 1)) with (pos + 2)%nat by lia. unfold expand_brace.
  pose proof (Hk 2%nat) as H2. unfold var_text in H2. rewrite <- !app_assoc in H2. simpl in H2. rewrite drop_0 in H2.
  destruct x as [|c x']; [done|]. set (x := c :: x') in *.
  assert (Hh : byte_is input (pos + 2) c_hash = false).
  { unfold byte_is. rewrite (drop_cons_lookup _ _ _ _ H2). apply Z.eqb_neq. destruct Hx as [Hc _]. intros ->. done. }
  rewrite Hh. cbv beta iota zeta delta [andb]. rewrite H2, brace_name_len_app by (by apply name_ok_word_chars).
  rewrite take_app_length. apply drop_app_shift in H2.
  assert (Hr : byte_not input (pos + 2 + length x) c_rbrace = false) by (unfold byte_not; by rewrite (drop_cons_lookup _ _ _ _ H2)).
  assert (Hi : byte_is input (pos + 2 + length x) c_rbrace = true) by (unfold byte_is; by rewrite (drop_cons_lookup _ _ _ _ H2)).
  rewrite Hr. unfold skip_byte. rewrite Hi. unfold expand_name. unfold x at 1. fold x. unfold pbind.
  rewrite lookup_var_name by done. unfold pret, var_value. repeat f_equal. lia.
Qed.

Lemma drop_at (input : buffer) pos s t k : drop pos input = s ++ t -> (k <= length s)%nat ->
  drop (pos + k) input = drop k s ++ t.
Proof. intros H Hk. by rewrite <- drop_drop, H, drop_app_le. Qed.

(** The loops take one turn for each piece. *)
Lemma dquote_loop_piece fuel input pos word p t : drop pos input = dpiece_text p ++ t -> dpiece_ok p ->
  dquote_loop capture (S fuel) sh input pos word w =
  dquote_loop capture fuel sh input (pos + length (dpiece_text p)) (word ++ dpiece_value p) w.
Proof.
  intros Hd Hp. destruct p as [c|c|x]; cbn [dpiece_text dpiece_value dpiece_ok] in *; cbn [dquote_loop].
  - destruct Hp as (H1 & H2 & H3). rewrite (drop_cons_lookup _ _ _ _ Hd).
    rewrite (proj2 (Z.eqb_neq _ _) H1), (proj2 (Z.eqb_neq _ _) H2), (proj2 (Z.eqb_neq _ _) H3). simpl.
    by rewrite Nat.add_1_r.
  - rewrite (drop_cons_lookup _ _ _ _ Hd). pose proof (drop_at _ _ _ _ 1 Hd ltac:(simpl; lia)) as H1. simpl in H1.
    apply drop_cons_lookup in H1. rewrite Nat.add_1_r in H1. pose proof (lookup_lt_Some _ _ _ H1).
    rewrite (proj2 (Nat.ltb_lt _ _)) by done. rewrite H1. simpl. by rewrite !Nat.add_succ_r, Nat.add_0_r.
  - rewrite (drop_cons_lookup _ _ _ _ Hd). cbn [Z.eqb Pos.eqb andb]. unfold pbind.
    by rewrite (dollar_var input pos x t Hd Hp).
Qed.

Lemma dquote_loop_pieces fuel input pos word l t : drop pos input = dtext l ++ t -> Forall dpiece_ok l ->
  dquote_loop capture (length l + fuel) sh input pos word w =
  dquote_loop capture fuel sh input (pos + length (dtext l)) (word ++ dvalue l) w.
Proof.
  intros Hd Hl. revert pos word Hd. induction Hl as [|p l Hp Hl IH]; intros pos word Hd.
  - unfold dtext, dvalue. simpl. by rewrite Nat.add_0_r, app_nil_r.
  - unfold dtext, dvalue in *. rewrite !fmap_cons in *. cbn [concat length Nat.add] in *. rewrite <- app_assoc in Hd.
    rewrite (dquote_loop_piece _ _ _ _ p _ Hd Hp), IH by (by eapply drop_app_shift).
    by rewrite <- app_assoc, length_app, Nat.add_assoc.
Qed.

Lemma dtext_length l : (length l <= length (dtext l))%nat.
Proof.
  induction l as [|p l IH]; [done|]. unfold dtext in *. rewrite fmap_cons. cbn [concat length]. rewrite length_app.
  destruct p; simpl; lia.
Qed.

Lemma word_loop_single fuel input pos word s t : drop pos input = piece_text (PSingle s) ++ t -> c_sq ∉ s ->
  word_loop capture (S fuel) sh input pos word w =
  word_loop capture fuel sh input (pos + length (piece_text (PSingle s))) (word ++ s) w.
Proof.
  intros Hd Hs. cbn [piece_text] in *. cbn [word_loop]. rewrite (drop_cons_lookup _ _ _ _ Hd).
  pose proof (drop_at _ _ _ _ 1 Hd ltac:(simpl; lia)) as H1. simpl in H1. rewrite drop_0, Nat.add_1_r, <- app_assoc in H1.
  cbn [word_stop is_blank Z.eqb Pos.eqb orb]. change (word_stop c_sq) with false. cbv iota.
  rewrite H1, span_len_app.
  - rewrite take_app_length. apply drop_app_shift in H1. unfold skip_byte, byte_is.
    rewrite (drop_cons_lookup _ _ _ _ H1). simpl. rewrite length_app. simpl.
    by replace (pos + S (length s + 1))%nat with (S (S (pos + length s))) by lia.
  - apply Forall_forall. intros c Hc. apply negb_true_iff, Z.eqb_neq. congruence.
  - done.
Qed.

Lemma word_loop_double fuel input pos word l t : drop pos input = piece_text (PDouble l) ++ t -> Forall dpiece_ok l ->
  word_loop capture (S fuel) sh input pos word w =
  word_loop capture fuel sh input (pos + length (piece_text (PDouble l))) (word ++ dvalue l) w.
Proof.
  intros Hd Hl. cbn [piece_text] in *. cbn [word_loop]. rewrite (drop_cons_lookup _ _ _ _ Hd).
  pose proof (drop_at _ _ _ _ 1 Hd ltac:(simpl; lia)) as H1. simpl in H1. rewrite drop_0, Nat.add_1_r, <- app_assoc in H1.
  change (word_stop c_dq) with false. cbn [Z.eqb Pos.eqb]. unfold pbind.
  assert (Hf : (length l <= length input)%nat).
  { pose proof (dtext_length l). apply (f_equal length) in H1. rewrite length_drop, length_app in H1. lia. }
  replace (S (length input)) with (length l + S (length input - length l))%nat by lia.
  rewrite (dquote_loop_pieces _ _ _ _ _ _ H1 Hl). apply drop_app_shift in H1. cbn [dquote_loop].
  rewrite (drop_cons_lookup _ _ _ _ H1). cbn [Z.eqb Pos.eqb]. unfold pret, skip_byte, byte_is.
  rewrite (drop_cons_lookup _ _ _ _ H1). simpl. rewrite length_app. simpl.
  by replace (pos + S (length (dtext l) + 1))%nat with (S (S (pos + length (dtext l)))) by lia.
Qed.

Lemma word_loop_piece fuel input pos word p t : drop pos input = piece_text p ++ t -> piece_ok p ->
  word_loop capture (S fuel) sh input pos word w =
  word_loop capture fuel sh input (pos + length (piece_text p)) (word ++ piece_value p) w.
Proof.
  intros Hd Hp. destruct p as [c|c|s|l|x]; cbn [piece_value piece_ok] in *;
    [| |by eapply word_loop_single|by eapply word_loop_double|]; cbn [piece_text] in *; cbn [word_loop].
  - destruct Hp as (H0 & H1 & H2 & H3 & H4). rewrite (drop_cons_lookup _ _ _ _ Hd), H0.
    rewrite (proj2 (Z.eqb_neq _ _) H1), (proj2 (Z.eqb_neq _ _) H2), (proj2 (Z.eqb_neq _ _) H3), (proj2 (Z.eqb_neq _ _) H4).
    simpl. by rewrite Nat.add_1_r.
  - rewrite (drop_cons_lookup _ _ _ _ Hd). pose proof (drop_at _ _ _ _ 1 Hd ltac:(simpl; lia)) as H1. simpl in H1.
    apply drop_cons_lookup in H1. rewrite Nat.add_1_r in H1. pose proof (lookup_lt_Some _ _ _ H1).
    change (word_stop c_bsl) with false. cbn [Z.eqb Pos.eqb andb].
    rewrite (proj2 (Nat.ltb_lt _ _)) by done. rewrite H1. simpl. by rewrite !Nat.add_succ_r, Nat.add_0_r.
  - rewrite (drop_cons_lookup _ _ _ _ Hd). change (word_stop c_dollar) with false. cbn [Z.eqb Pos.eqb andb]. unfold pbind.
    by rewrite (dollar_var input pos x t Hd Hp).
Qed.

Lemma word_loop_pieces fuel input pos word ps t : drop pos input = word_text ps ++ t -> Forall piece_ok ps ->
  word_loop capture (length ps + fuel) sh input pos word w =
  word_loop capture fuel sh input (pos + length (word_text ps)) (word ++ word_value ps) w.
Proof.
  intros Hd Hl. revert pos word Hd. induction Hl as [|p l Hp Hl IH]; intros pos word Hd.
  - unfold word_text, word_value. simpl. by rewrite Nat.add_0_r, app_nil_r.
  - unfold word_text, word_value in *. rewrite !fmap_cons in *. cbn [concat length Nat.add] in *. rewrite <- app_assoc in Hd.
    rewrite (word_loop_piece _ _ _ _ p _ Hd Hp), IH by (by eapply drop_app_shift).
    by rewrite <- app_assoc, length_app, Nat.add_assoc.
Qed.

Lemma word_text_length ps : (length ps <= length (word_text ps))%nat.
Proof.
  induction ps as [|p l IH]; [done|]. unfold word_text in *. rewrite fmap_cons. cbn [concat length]. rewrite length_app.
  destruct p; simpl; lia.
Qed.

(** A word is read up to its end, a blank or the end of the line. *)
Definition word_end (t : buffer) : Prop := match t with [] => True | c :: _ => is_blank c = true end.

Lemma parse_word_pieces input pos ps t : drop pos input = word_text ps ++ t -> Forall piece_ok ps -> word_end t ->
  parse_word capture sh input pos w = Ok ((word_value ps, (pos + length (word_text ps))%nat), w).
Proof.
  intros Hd Hps Ht. unfold parse_word.
  assert (Hf : (length ps <= length input)%nat).
  { pose proof (word_text_length ps). apply (f_equal length) in Hd. rewrite length_drop, length_app in Hd. lia. }
  replace (S (length input)) with (length ps + S (length input - length ps))%nat by lia.
  rewrite (word_loop_pieces _ _ _ _ _ _ Hd Hps). apply drop_app_shift in Hd. cbn [word_loop app].
  destruct t as [|c t]; [by rewrite (drop_nil_lookup _ _ Hd)|]. rewrite (drop_cons_lookup _ _ _ _ Hd).
  unfold word_stop. by rewrite (Ht : is_blank c = true).
Qed.

(** ** Lines of words *)

Fixpoint line_text (ws : list (list piece)) : buffer :=
  match ws with
  | [] => []
  | [ps] => word_text ps
  | ps :: ws => word_text ps ++ c_sp :: line_text ws
  end.

(** The first byte of a word neither ends a word nor starts an operator. *)
Lemma piece_head p : piece_ok p -> exists c t, piece_text p = c :: t /\ word_stop c = false.
Proof. intros Hp. destruct p; simpl; eauto. destruct Hp. eauto. Qed.

Lemma word_head ps : ps <> [] -> Forall piece_ok ps -> exists c t, word_text ps = c :: t /\ word_stop c = false /\
  (c = c_two -> forall u, word_end u -> match t ++ u with [] => True | d :: _ => d <> c_gt end).
Proof.
  intros Hne Hps. destruct Hps as [|p ps Hp Hps]; [done|]. destruct (piece_head p Hp) as (c & t & E & Hc).
  exists c, (t ++ word_text ps). unfold word_text. rewrite fmap_cons. cbn [concat]. rewrite E. split; [done|]. split; [done|].
  intros -> u Hu. destruct p; try discriminate. injection E as -> <-. simpl.
  destruct Hps as [|p' ps Hp' Hps]; simpl.
  - destruct u as [|d u]; [done|]. simpl in Hu. intros ->. discriminate.
  - destruct (piece_head p' Hp') as (d & t' & -> & Hd). simpl. intros ->. discriminate.
Qed.

Lemma word_stop_false c : word_stop c = false ->
  is_blank c = false /\ c <> c_hash /\ c <> c_bar /\ c <> c_amp /\ c <> c_gt /\ c <> c_lt.
Proof. unfold word_stop. intros H. breflect. done. Qed.

Lemma operator_at_word input pos c t u : drop pos input = c :: t ++ u -> word_stop c = false -> word_end u ->
  (c = c_two -> forall u, word_end u -> match t ++ u with [] => True | d :: _ => d <> c_gt end) ->
  operator_at input pos c = None.
Proof.
  intros Hd Hc Hu H2. destruct (word_stop_false c Hc) as (_ & _ & H3 & H4 & H5 & H6). unfold operator_at.
  rewrite (proj2 (Z.eqb_neq _ _) H3), (proj2 (Z.eqb_neq _ _) H4), (proj2 (Z.eqb_neq _ _) H5), (proj2 (Z.eqb_neq _ _) H6).
  destruct (Z.eqb_spec c c_two) as [->|]; [|done]. specialize (H2 eq_refl u Hu).
  assert (Hd' : drop (S pos) input = t ++ u).
  { replace (S pos) with (pos + length [c_two])%nat by (simpl; lia). by eapply drop_app_shift. }
  unfold byte_is. destruct (t ++ u) as [|d r]; [by rewrite (drop_nil_lookup _ _ Hd')|].
  rewrite (drop_cons_lookup _ _ _ _ Hd'), (proj2 (Z.eqb_neq _ _) H2). done.
Qed.

Lemma tokenize_loop_word fuel input pos tokens ps t :
  drop pos input = word_text ps ++ t -> ps <> [] -> Forall piece_ok ps -> word_end t ->
  tokenize_loop capture (S fuel) sh input pos tokens w =
  tokenize_loop capture fuel sh input (pos + length (word_text ps)) (push_word (word_value ps) tokens) w.
Proof.
  intros Hd Hne Hps Ht. destruct (word_head ps Hne Hps) as (c & u & E & Hc & H2).
  destruct (word_stop_false c Hc) as (Hb & Hh & _). cbn [tokenize_loop].
  assert (Hd' : drop pos input = c :: u ++ t) by (by rewrite Hd, E).
  rewrite (drop_cons_lookup _ _ _ _ Hd'), Hb, (proj2 (Z.eqb_neq _ _) Hh).
  rewrite (operator_at_word input pos c u t) by done. unfold pbind.
  by rewrite (parse_word_pieces input pos ps t).
Qed.

Lemma tokenize_loop_line fuel input pos tokens ws :
  drop pos input = line_text ws -> Forall (fun ps => ps <> [] /\ Forall piece_ok ps) ws ->
  (length input - pos < fuel)%nat ->
  tokenize_loop capture fuel sh input pos tokens w =
  Ok (tokens ++ (Word <$> filter (fun v => v <> []) (word_value <$> ws)), w).
Proof.
  revert fuel pos tokens. induction ws as [|ps ws IH]; intros fuel pos tokens Hd Hws Hf; (destruct fuel as [|fuel]; [lia|]).
  { cbn [tokenize_loop]. rewrite (drop_nil_lookup _ _ Hd). simpl. by rewrite app_nil_r. }
  apply Forall_cons_1 in Hws as [[Hne Hps] Hws].
  assert (Hpush : forall v l, push_word v tokens ++ (Word <$> filter (fun v => v <> []) l) =
                              tokens ++ (Word <$> filter (fun v => v <> []) (v :: l))).
  { intros v l. rewrite filter_cons. destruct v; simpl; [done|]. by rewrite <- app_assoc. }
  destruct (word_head ps Hne Hps) as (c & u & E & _).
  rewrite fmap_cons, <- Hpush. destruct ws as [|ps' ws].
  - assert (Hd' : drop pos input = word_text ps ++ []) by (by rewrite app_nil_r).
    rewrite (tokenize_loop_word fuel input pos tokens ps []) by done. pose proof (drop_app_shift _ _ _ _ Hd') as He.
    apply (f_equal length) in Hd'. rewrite length_drop, E in Hd'. simpl in Hd'.
    destruct fuel as [|fuel]; [lia|]. cbn [tokenize_loop]. rewrite (drop_nil_lookup _ _ He). simpl. by rewrite app_nil_r.
  - assert (Hd' : drop pos input = word_text ps ++ c_sp :: line_text (ps' :: ws)) by exact Hd.
    rewrite (tokenize_loop_word fuel input pos tokens ps (c_sp :: line_text (ps' :: ws))) by done.
    pose proof (drop_app_shift _ _ _ _ Hd') as He. apply (f_equal length) in Hd'.
    rewrite length_drop, length_app, E in Hd'. cbn [length] in Hd'.
    destruct fuel as [|fuel]; [lia|]. cbn [tokenize_loop]. rewrite (drop_cons_lookup _ _ _ _ He).
    change (is_blank c_sp) with true. cbv iota. apply IH; [|done|rewrite E; cbn [length]; lia].
    rewrite <- Nat.add_1_r. by apply (drop_app_shift _ _ [c_sp]).
Qed.

(** Reading a line of words: whatever mixture of plain bytes, escapes, quotes and
    variables they are written with, the tokenizer returns their values in order, and
    drops those whose value is empty. *)
Theorem tokenize_words ws : Forall (fun ps => ps <> [] /\ Forall piece_ok ps) ws ->
  tokenize capture sh (line_text ws) w = Ok (Word <$> filter (fun v => v <> []) (word_value <$> ws), w).
Proof. intros H. unfold tokenize. rewrite (tokenize_loop_line _ _ _ _ ws); [done|done|done|lia]. Qed.
End Words.
