(* ===== verification/ShellEnds.v ===== *)
(** * The guest's shell: expansion ends

    The evaluator of arithmetic, expansions and the tokenizer return on every input, the
    tokenizer unless a separator stands outside quotes, if command substitutions return.
    The fuel of [ShellText.v] and [ShellExpand.v] is therefore enough. *)

From Stdlib Require Import ZArith Lia.
From stdpp Require Import base list option numbers strings gmap.
From S2P Require Import Prelude Bytes Utf8 Str ShellText ShellTextSpec ShellArith ShellExpand.

(** ** Arithmetic *)

(** The result is not [OutOfFuel], and a position not before [pos]. *)
Definition advances (pos : nat) (r : run (Z * nat)) : Prop :=
  match r with Ok (_, p) => (pos <= p)%nat | Err _ => False | Panic => True end.

Lemma advances_mono p q r : (p <= q)%nat -> advances q r -> advances p r.
Proof. unfold advances. destruct r as [[v k]| |]; [lia|done|done]. Qed.

Lemma advances_bind pos (r : run (Z * nat)) k : advances pos r ->
  (forall v p, (pos <= p)%nat -> advances pos (k (v, p))) -> advances pos (obind r k).
Proof. destruct r as [[v p]| |]; simpl; auto. Qed.

Lemma skip_arith_ws_ge expr pos : (pos <= skip_arith_ws expr pos)%nat.
Proof. unfold skip_arith_ws. lia. Qed.

Section Arithmetic.
Context (expr : buffer).

Lemma op_loop_advances op operand n lhs pos :
  (forall p, (pos < p)%nat -> advances p (operand expr p)) -> (length expr - pos < n)%nat ->
  advances pos (op_loop op operand n expr lhs pos).
Proof.
  revert lhs pos. induction n as [|n IH]; intros lhs pos Hop Hn; [lia|]. cbn [op_loop].
  pose proof (skip_arith_ws_ge expr pos) as Hs.
  destruct (expr !! skip_arith_ws expr pos) as [c|] eqn:Ec; simpl; [|done].
  pose proof (lookup_lt_Some _ _ _ Ec). destruct (op c) as [f|]; [|done].
  pose proof (Hop (S (skip_arith_ws expr pos)) ltac:(lia)) as Ho.
  destruct (operand expr (S (skip_arith_ws expr pos))) as [[v p]| |]; [|done|done]. simpl in *.
  destruct (f lhs v) as [r|]; [|done]. simpl. apply (advances_mono _ p); [lia|].
  apply IH; [|lia]. intros q Hq. apply Hop. lia.
Qed.

Lemma op_chain_advances op operand pos :
  (forall p, (pos <= p)%nat -> advances p (operand expr p)) -> advances pos (op_chain op operand expr pos).
Proof.
  intros Hop. unfold op_chain. apply advances_bind; [by apply Hop|]. intros v p Hp.
  apply (advances_mono _ p); [done|]. apply op_loop_advances; [|lia]. intros q Hq. apply Hop. lia.
Qed.

Lemma number_loop_length n s v k : number_loop n s = Some (v, k) -> (k <= length s)%nat.
Proof.
  revert n v k. induction s as [|c s IH]; intros n v k; simpl; [by intros [= <- <-]|].
  destruct (is_ascii_digit c); [|intros [= <- <-]; lia].
  destruct (ichk 64 (n * 10)) as [a|]; [|done]. simpl. destruct (ichk 64 (a + (c - 48))) as [b|]; [|done]. simpl.
  destruct (number_loop b s) as [[r j]|] eqn:E; [|done]. intros [= <- <-]. apply IH in E. lia.
Qed.

Lemma factor_advances sh fuel pos : (length expr - pos < fuel)%nat ->
  advances pos (eval_arith_factor_with_shell fuel sh expr pos).
Proof.
  revert pos. induction fuel as [|fuel IH]; intros pos Hf; [lia|]. cbn [eval_arith_factor_with_shell].
  pose proof (skip_arith_ws_ge expr pos) as Hs. set (start := skip_arith_ws expr pos) in *.
  destruct (expr !! start) as [c|] eqn:Ec; [|done]. pose proof (lookup_lt_Some _ _ _ Ec).
  destruct (c =? c_lpar).
  { apply (advances_mono _ (S start)); [lia|]. apply advances_bind.
    - apply op_chain_advances. intros p Hp. apply op_chain_advances. intros q Hq. apply IH. lia.
    - intros v p Hp. pose proof (skip_arith_ws_ge expr p). case_match; simpl; lia. }
  destruct (c =? c_minus).
  { apply (advances_mono _ (S start)); [lia|]. apply advances_bind; [apply IH; lia|].
    intros v p Hp. by destruct (ichk 64 (- v)). }
  destruct (is_ascii_digit c).
  { destruct (number_loop 0 (drop start expr)) as [[v k]|]; simpl; [lia|done]. }
  destruct (is_ascii_alphabetic c || (c =? c_us)); [|done].
  assert (pos <= find_word_end expr start)%nat by (unfold find_word_end; lia). by case_match.
Qed.
End Arithmetic.

Lemma eval_expanded_ends sh s : eval_expanded sh s <> Err OutOfFuel.
Proof.
  unfold eval_expanded.
  assert (H : advances 0 (eval_arith_expr_with_shell (eval_arith_factor_with_shell (S (S (length s))) sh) s 0)).
  { apply op_chain_advances. intros p Hp. apply op_chain_advances. intros q Hq. apply factor_advances. lia. }
  destruct (eval_arith_expr_with_shell _ s 0) as [[v p]| |]; [done|done|done].
Qed.

Lemma skip_byte_ge s pos c : (pos <= skip_byte s pos c)%nat.
Proof. unfold skip_byte. destruct (byte_is s pos c); lia. Qed.

(** ** Programs that return *)

(** The program does not run out of fuel, and a value it returns satisfies [P]. *)
Definition returns {W A} (m : prog W A) (P : A -> Prop) : Prop :=
  forall w, match m w with Ok (a, _) => P a | Err NoFuel => False | Err (Exited _ _) => True | Panic => True end.

Section Returns.
Context {W : Type}.

Lemma returns_ret {A} (a : A) (P : A -> Prop) : P a -> returns (W:=W) (pret a) P.
Proof. by intros H w. Qed.
Lemma returns_bind {A B} (m : prog W A) (k : A -> prog W B) P Q :
  returns m P -> (forall a, P a -> returns (k a) Q) -> returns (pbind m k) Q.
Proof.
  intros Hm Hk w. unfold pbind. specialize (Hm w). destruct (m w) as [[a w']|e|]; [by apply Hk|done|done].
Qed.
Lemma returns_mono {A} (m : prog W A) (P Q : A -> Prop) : (forall a, P a -> Q a) -> returns m P -> returns m Q.
Proof. intros H Hm w. specialize (Hm w). destruct (m w) as [[a w']| [|]|]; auto. Qed.
Lemma returns_act f (P : unit -> Prop) : P tt -> returns (W:=W) (pact f) P.
Proof. by intros H w. Qed.
Lemma returns_ask {A} (f : W -> A) (P : A -> Prop) : (forall a, P a) -> returns (pask f) P.
Proof. intros H w. apply H. Qed.
Lemma returns_lift {A} (o : option A) (P : A -> Prop) : (forall a, o = Some a -> P a) -> returns (W:=W) (prun (lift o)) P.
Proof. intros H w. destruct o; simpl; auto. Qed.
Lemma returns_run {A} (m : run A) : m <> Err OutOfFuel -> returns (W:=W) (prun m) (fun _ => True).
Proof. intros H w. unfold prun. destruct m as [a|[]|]; [done|congruence|done]. Qed.
End Returns.
#[export] Hint Resolve returns_ret returns_act returns_ask : bento.

Section Expansion.
Context {W : Type} `{!OS W} (capture : Shell -> buffer -> prog W buffer).
Context (Hcapture : forall sh cmd, returns (capture sh cmd) (fun _ => True)).

Lemma lookup_var_returns sh name : returns (lookup_var sh name) (fun _ => True).
Proof. unfold lookup_var. repeat case_match; auto with bento. Qed.

Lemma apply_operator_returns op unset name operand v : returns (apply_operator op unset name operand v) (fun _ => True).
Proof.
  assert (Hw : forall fd t, returns (pact (os_write fd t)) (fun _ => True)) by auto with bento.
  unfold apply_operator. repeat case_match; auto with bento;
  repeat (eapply returns_bind; [by (apply Hw || (eapply returns_bind; [apply Hw|intros; apply Hw]))|intros ? _]);
  auto with bento.
Qed.

Section Dollar.
Context (rec : Shell -> buffer -> prog W buffer) (input : buffer).
Context (Hrec : forall sh s, (length s < length input)%nat -> returns (rec sh s) (fun _ => True)).

Lemma take_drop_shorter n pos : (0 < pos)%nat -> (0 < length input)%nat ->
  (length (take n (drop pos input)) < length input)%nat.
Proof. intros. rewrite length_take, length_drop. lia. Qed.

Lemma sub_slice_shorter a b s : sub_slice input a b = Some s -> (0 < a)%nat -> (0 < length input)%nat ->
  (length s < length input)%nat.
Proof. unfold sub_slice. case_match; [|done]. intros [= <-] **. by apply take_drop_shorter. Qed.

Lemma braced_operator_returns sh pos length_op name : (0 < length input)%nat ->
  returns (braced_operator rec sh input pos length_op name) (fun r => (pos < r.2)%nat).
Proof.
  intros Hi. unfold braced_operator.
  destruct (if byte_is input pos c_colon then _ else _) as [op p] eqn:E.
  assert (Hp : (pos < p)%nat) by (repeat case_match; simplify_eq; lia).
  eapply returns_bind; [apply Hrec, take_drop_shorter; lia|]. intros operand _.
  eapply returns_bind; [apply lookup_var_returns|]. intros v _.
  assert (Hs : forall n, (pos < skip_byte input (p + n) c_rbrace)%nat)
    by (intros n; pose proof (skip_byte_ge input (p + n) c_rbrace); lia).
  destruct length_op; [apply returns_ret, Hs|].
  eapply returns_bind; [apply apply_operator_returns|]. intros s _. apply returns_ret, Hs.
Qed.

Lemma expand_name_returns sh start pos name : (start < pos)%nat ->
  returns (expand_name sh start pos name) (fun r => (start < r.2)%nat).
Proof.
  intros H. unfold expand_name. case_match; [apply returns_ret; simpl; lia|].
  eapply returns_bind; [apply lookup_var_returns|]. intros v _. by apply returns_ret.
Qed.

Lemma expand_brace_returns sh start pos : (0 < length input)%nat -> (start < pos)%nat ->
  returns (expand_brace rec sh input start pos) (fun r => (start < r.2)%nat).
Proof.
  intros Hi H. unfold expand_brace. set (p := if _ && _ then S pos else pos).
  assert (Hp : (pos <= p)%nat) by (unfold p; case_match; lia).
  case_match.
  - eapply returns_mono; [|by apply braced_operator_returns]. simpl. intros a Ha. lia.
  - set (q := skip_byte input _ c_rbrace). 
    assert (Hq : (start < q)%nat) by (pose proof (skip_byte_ge input (p + brace_name_len true (drop p input)) c_rbrace); lia).
    case_match; [|by apply expand_name_returns].
    eapply returns_bind; [apply lookup_var_returns|]. intros v _. by apply returns_ret.
Qed.

Lemma expand_dollar_returns sh start : (0 < length input)%nat ->
  returns (expand_dollar capture rec sh input start) (fun r => (start < r.2)%nat).
Proof.
  intros Hi. unfold expand_dollar. destruct (input !! S start) as [c|]; [|apply returns_ret; simpl; lia].
  destruct (c =? c_quest); [apply returns_ret; simpl; lia|].
  destruct (c =? c_dollar); [eapply returns_bind; [by apply (returns_ask _ (fun _ => True))|intros; apply returns_ret; simpl; lia]|].
  do 4 (case_match; [apply returns_ret; simpl; lia|]).
  case_match; [|case_match; [|case_match]].
  - unfold expand_arith. eapply returns_bind; [apply returns_lift; intros s E; exact E|]. intros s E.
    eapply returns_bind; [unfold eval_arithmetic; eapply returns_bind;
      [apply Hrec; by eapply sub_slice_shorter; [exact E|lia|]|intros x _; apply returns_run, eval_expanded_ends]|].
    intros v _. eapply returns_bind; [by apply (returns_lift _ (fun _ => True))|]. intros t _. apply returns_ret. simpl. lia.
  - unfold expand_command. eapply returns_bind; [by apply (returns_lift _ (fun _ => True))|]. intros s _.
    eapply returns_bind; [apply Hcapture|]. intros t _. apply returns_ret. simpl. lia.
  - apply expand_brace_returns; [done|lia].
  - apply expand_name_returns. lia.
Qed.
End Dollar.

Lemma expand_loop_returns dl fuel input pos res :
  (forall p, (p < length input)%nat -> returns (dl p) (fun r => (p < r.2)%nat)) -> (length input - pos < fuel)%nat ->
  returns (W:=W) (expand_loop dl fuel input pos res) (fun _ => True).
Proof.
  intros Hd. revert pos res. induction fuel as [|fuel IH]; intros pos res Hf; [lia|]. cbn [expand_loop].
  destruct (input !! pos) as [c|] eqn:Ec; [|by apply returns_ret]. pose proof (lookup_lt_Some _ _ _ Ec).
  destruct (c =? c_dollar); [|apply IH; lia].
  eapply returns_bind; [by apply Hd|]. intros [s p] Hp. simpl in Hp. apply IH. lia.
Qed.

Lemma expand_at_returns depth sh input : (length input < depth)%nat ->
  returns (expand_at capture depth sh input) (fun _ => True).
Proof.
  revert sh input. induction depth as [|depth IH]; intros sh input Hl; [lia|]. cbn [expand_at].
  apply expand_loop_returns; [|lia]. intros p Hp. apply expand_dollar_returns; [|lia]. intros sh' s Hs. apply IH. lia.
Qed.

Lemma dollar_returns sh input pos : (pos < length input)%nat ->
  returns (dollar capture sh input pos) (fun r => (pos < r.2)%nat).
Proof. intros H. apply expand_dollar_returns; [|lia]. intros sh' s Hs. apply expand_at_returns. lia. Qed.

Lemma dquote_loop_returns fuel sh input pos word : (length input - pos < fuel)%nat ->
  returns (dquote_loop capture fuel sh input pos word) (fun r => (pos <= r.2)%nat).
Proof.
  revert pos word. induction fuel as [|fuel IH]; intros pos word Hf; [lia|]. cbn [dquote_loop].
  destruct (input !! pos) as [c|] eqn:Ec; [|by apply returns_ret]. pose proof (lookup_lt_Some _ _ _ Ec).
  assert (IH' : forall p word, (pos < p)%nat -> returns (dquote_loop capture fuel sh input p word) (fun r => (pos <= r.2)%nat)).
  { intros p u Hp. eapply returns_mono; [|apply IH; lia]. simpl. intros a Ha. lia. }
  destruct (c =? c_dq); [by apply returns_ret|]. destruct (_ && _); [apply IH'; lia|].
  destruct (c =? c_dollar); [|apply IH'; lia].
  eapply returns_bind; [by apply dollar_returns|]. intros [s p] Hp. by apply IH'.
Qed.

(** A turn of the loop over a word moves on, or the word ends. *)
Lemma word_loop_returns fuel sh input pos word : (length input - pos < fuel)%nat ->
  returns (word_loop capture fuel sh input pos word)
    (fun r => (pos <= r.2)%nat /\ (forall c, input !! pos = Some c -> word_stop c = false -> pos < r.2)%nat).
Proof.
  revert pos word. induction fuel as [|fuel IH]; intros pos word Hf; [lia|]. cbn [word_loop].
  destruct (input !! pos) as [c|] eqn:Ec; [|by apply returns_ret; simpl; split; [lia|]].
  pose proof (lookup_lt_Some _ _ _ Ec).
  destruct (word_stop c) eqn:Es; [apply returns_ret; simpl; split; [lia|intros ? [= <-]; congruence]|].
  assert (IH' : forall p word, (pos < p)%nat -> returns (word_loop capture fuel sh input p word)
            (fun r => (pos <= r.2)%nat /\ (forall c', Some c = Some c' -> word_stop c' = false -> pos < r.2)%nat)).
  { intros p u Hp. eapply returns_mono; [|apply IH; lia]. simpl. intros a [Ha _]. split; [lia|intros; lia]. }
  destruct (c =? c_sq). { apply IH'. pose proof (skip_byte_ge input (S pos + span_len (fun d => negb (d =? c_sq)) (drop (S pos) input)) c_sq). lia. }
  destruct (c =? c_dq).
  { eapply returns_bind; [apply dquote_loop_returns; lia|]. intros [s p] Hp. simpl in Hp. apply IH'.
    pose proof (skip_byte_ge input p c_dq). lia. }
  destruct (_ && _); [apply IH'; lia|]. destruct (c =? c_dollar); [|apply IH'; lia].
  eapply returns_bind; [by apply dollar_returns|]. intros [s p] Hp. by apply IH'.
Qed.

Lemma parse_word_returns sh input pos c : input !! pos = Some c -> word_stop c = false ->
  returns (parse_word capture sh input pos) (fun r => (pos < r.2)%nat).
Proof.
  intros Hc Hs. eapply returns_mono; [|apply word_loop_returns; lia]. simpl. intros a [_ H]. by eapply H.
Qed.

(** What the tokenizer leaves to [parse_word] does not end a word. *)
Lemma operator_at_none input pos c : operator_at input pos c = None -> is_blank c = false -> c <> c_hash ->
  c <> c_nl -> c <> c_semi -> word_stop c = false.
Proof.
  unfold operator_at, word_stop. intros H Hb Hh Hn Hs. rewrite Hb. destruct (c =? c_bar); [done|].
  destruct (c =? c_amp); [done|]. destruct (c =? c_gt); [done|]. destruct (c =? c_lt); [done|].
  by rewrite (proj2 (Z.eqb_neq _ _) Hh), (proj2 (Z.eqb_neq _ _) Hn), (proj2 (Z.eqb_neq _ _) Hs).
Qed.

Lemma operator_at_length input pos c t n : operator_at input pos c = Some (t, n) -> (0 < n)%nat.
Proof. unfold operator_at. intros H. repeat (case_match; simplify_eq; try lia). Qed.

Lemma tokenize_loop_returns fuel sh input pos tokens : c_nl ∉ input -> c_semi ∉ input -> (length input - pos < fuel)%nat ->
  returns (tokenize_loop capture fuel sh input pos tokens) (fun _ => True).
Proof.
  intros Hn Hs. revert pos tokens. induction fuel as [|fuel IH]; intros pos tokens Hf; [lia|]. cbn [tokenize_loop].
  destruct (input !! pos) as [c|] eqn:Ec; [|by apply returns_ret]. pose proof (lookup_lt_Some _ _ _ Ec).
  destruct (is_blank c) eqn:Eb; [apply IH; lia|]. destruct (Z.eqb_spec c c_hash); [by apply returns_ret|].
  destruct (operator_at input pos c) as [[t n']|] eqn:Eo.
  { apply IH. apply operator_at_length in Eo. lia. }
  eapply returns_bind; [eapply parse_word_returns; [exact Ec|]|].
  - apply (operator_at_none input pos); try done; intros ->; by apply list_elem_of_lookup_2 in Ec.
  - intros [s p] Hp. simpl in Hp. apply IH. lia.
Qed.

(** Where [skip_whitespace_and_comments] stops there is no blank and no comment. *)
Lemma skip_len_stop comment s : match drop (skip_len comment s) s with
  | [] => True
  | c :: _ => is_blank c = false /\ c <> c_nl /\ c <> c_semi /\ c <> c_hash
  end.
Proof.
  revert comment. induction s as [|c s IH]; intros comment; [done|]. cbn [skip_len].
  destruct (comment && negb (c =? c_nl)); [apply IH|].
  destruct (is_blank c || _ || _ || _) eqn:E; [apply IH|]. destruct (Z.eqb_spec c c_hash); [apply IH|].
  simpl. breflect. done.
Qed.

Lemma split_loop_returns fuel sh s pos words : Forall (fun c => c <> c_bar /\ c <> c_amp /\ c <> c_gt /\ c <> c_lt) s ->
  (length s - pos < fuel)%nat -> returns (split_loop capture fuel sh s pos words) (fun _ => True).
Proof.
  intros Hs. revert pos words. induction fuel as [|fuel IH]; intros pos words Hf; [lia|]. cbn [split_loop].
  destruct (Nat.leb_spec (length s) (skip_whitespace_and_comments s pos)) as [|Hlt]; [by apply returns_ret|].
  unfold skip_whitespace_and_comments in *. set (p := (pos + skip_len false (drop pos s))%nat) in *.
  destruct (lookup_lt_is_Some_2 s p Hlt) as [c Ec]. pose proof (skip_len_stop false (drop pos s)) as Hc.
  rewrite drop_drop in Hc. fold p in Hc. rewrite (drop_S _ _ _ Ec) in Hc. destruct Hc as (H1 & H2 & H3 & H4).
  pose proof (Forall_lookup_1 _ _ _ _ Hs Ec) as (H5 & H6 & H7 & H8).
  eapply returns_bind; [eapply parse_word_returns; [exact Ec|]|].
  - unfold word_stop. rewrite H1. by rewrite !(proj2 (Z.eqb_neq _ _)) by done.
  - intros [u q] Hq. simpl in Hq. apply IH. lia.
Qed.

(** C39 expansion_ends: expansion of any text ends; reading the tokens of a line ends unless it has a
    newline or a semicolon, and splitting words unless there is an operator, provided the
    commands substituted end. *)
Theorem expansion_ends sh input :
  returns (expand_string capture sh input) (fun _ => True) /\
  (c_nl ∉ input -> c_semi ∉ input -> returns (tokenize capture sh input) (fun _ => True)) /\
  (Forall (fun c => c <> c_bar /\ c <> c_amp /\ c <> c_gt /\ c <> c_lt) input ->
   returns (split_words capture sh input) (fun _ => True)).
Proof.
  split; [apply expand_at_returns; lia|]. split.
  - intros. apply tokenize_loop_returns; [done|done|lia].
  - intros. apply split_loop_returns; [done|lia].
Qed.
End Expansion.
