(* ===== verification/ShellExec.v ===== *)
(** * The guest's shell: execution

    [builtins.rs], [execute.rs], [control.rs], [entry.rs] and [execute_capture] of
    [guest/init/src/applets/shell], with [status_code] of [io.rs].  A function that takes
    [&mut Shell] returns the shell.  Scripts run scripts (control structures, [eval],
    [source], command substitution): [execute_script] takes fuel for the depth of nesting
    and for the turns of loops, and everything below it is written against the script
    runner of the next depth. *)

From stdpp Require Import base list option numbers strings gmap.
From S2P Require Import Prelude Bytes Utf8 Str ShellText ShellExpand.

Record Command := mk_command {
  args : list buffer;
  stdin_file : option buffer;
  stdout_file : option buffer;
  stdout_append : bool;
  stderr_file : option buffer;
  background : bool
}.
Definition command_new : Command := mk_command [] None None false None false.

Definition push_arg (w : buffer) (c : Command) : Command :=
  mk_command (c.(args) ++ [w]) c.(stdin_file) c.(stdout_file) c.(stdout_append) c.(stderr_file) c.(background).
Definition set_stdin (f : buffer) (c : Command) : Command :=
  mk_command c.(args) (Some f) c.(stdout_file) c.(stdout_append) c.(stderr_file) c.(background).
Definition set_stdout (f : buffer) (append : bool) (c : Command) : Command :=
  mk_command c.(args) c.(stdin_file) (Some f) append c.(stderr_file) c.(background).
Definition set_stderr (f : buffer) (c : Command) : Command :=
  mk_command c.(args) c.(stdin_file) c.(stdout_file) c.(stdout_append) (Some f) c.(background).
Definition set_background (c : Command) : Command :=
  mk_command c.(args) c.(stdin_file) c.(stdout_file) c.(stdout_append) c.(stderr_file) true.

(** Constants of the C library *)
Definition O_RDONLY : Z := 0.
Definition O_CREATE_APPEND : Z := Z.lor (Z.lor 1 0x40) 0x400.
Definition O_CREATE_TRUNC : Z := Z.lor (Z.lor 1 0x40) 0x200.
Definition S_IFMT : Z := 0xF000.
Definition S_IFREG : Z := 0x8000.
Definition S_IFDIR : Z := 0x4000.
Definition S_IFLNK : Z := 0xA000.
Definition X_OK : Z := 1.
Definition W_OK : Z := 2.
Definition R_OK : Z := 4.

(** [status_code] of [io.rs] *)
Definition status_code (status : Z) : Z :=
  let low := Z.land status 0x7F in
  if low =? 0 then Z.land (Z.shiftr status 8) 0xFF
  else if low <? 0x7F then 128 + low
  else 1.

Definition bytes_eqb (a b : buffer) : bool := bool_decide (a = b).

(** [s.split(|&c| c == sep)] *)
Fixpoint split_on (sep : Z) (s current : buffer) : list buffer :=
  match s with
  | [] => [current]
  | c :: s => if c =? sep then current :: split_on sep s [] else split_on sep s (current ++ [c])
  end.

(** [i32] from a decimal argument, [parse_i64(..).unwrap_or(0) as i32] *)
Definition status_arg (arg : buffer) : Z := swrap 32 (default 0 (parse_i64 arg)).

Section Exec.
Context {W : Type} `{!OS W}.

Definition puts (fd : Z) (s : buffer) : prog W unit := pact (os_write fd s).
Definition complain (parts : list buffer) : prog W unit := foldr (fun s k => _ <~ puts STDERR s ;; k) (pret tt) parts.
Definition say (parts : list buffer) : prog W unit := foldr (fun s k => _ <~ puts STDOUT s ;; k) (pret tt) parts.

(** ** File tests of [util.rs] and [execute_test] *)

Definition file_exists (w : W) (path : buffer) : bool := bool_decide (is_Some (os_stat w path)).
Definition has_type (t : Z) (st : option (Z * Z)) : bool :=
  match st with Some (mode, _) => Z.land mode S_IFMT =? t | None => false end.
Definition is_regular_file (w : W) (path : buffer) : bool := has_type S_IFREG (os_stat w path).
Definition is_directory (w : W) (path : buffer) : bool := has_type S_IFDIR (os_stat w path).
Definition is_symlink (w : W) (path : buffer) : bool := has_type S_IFLNK (os_lstat w path).
Definition is_readable (w : W) (path : buffer) : bool := os_access w path R_OK.
Definition is_writable (w : W) (path : buffer) : bool := os_access w path W_OK.
Definition is_executable (w : W) (path : buffer) : bool := os_access w path X_OK.
Definition file_size (w : W) (path : buffer) : Z := match os_stat w path with Some (_, size) => size | None => 0 end.

Definition status_of (b : bool) : Z := if b then 0 else 1.

Definition test_unary (rec : list buffer -> Z) (w : W) (op arg : buffer) : Z :=
  if bytes_eqb op (bstr "-n") then status_of (negb (bytes_eqb arg []))
  else if bytes_eqb op (bstr "-z") then status_of (bytes_eqb arg [])
  else if bytes_eqb op (bstr "-e") || bytes_eqb op (bstr "-a") then status_of (file_exists w arg)
  else if bytes_eqb op (bstr "-f") then status_of (is_regular_file w arg)
  else if bytes_eqb op (bstr "-d") then status_of (is_directory w arg)
  else if bytes_eqb op (bstr "-r") then status_of (is_readable w arg)
  else if bytes_eqb op (bstr "-w") then status_of (is_writable w arg)
  else if bytes_eqb op (bstr "-x") then status_of (is_executable w arg)
  else if bytes_eqb op (bstr "-s") then status_of (0 <? file_size w arg)
  else if bytes_eqb op (bstr "-L") || bytes_eqb op (bstr "-h") then status_of (is_symlink w arg)
  else if bytes_eqb op (bstr "!") then Z.lxor (rec [arg]) 1
  else 1.

Definition test_binary (lhs op rhs : buffer) : Z :=
  if bytes_eqb op (bstr "=") || bytes_eqb op (bstr "==") then status_of (bytes_eqb lhs rhs)
  else if bytes_eqb op (bstr "!=") then status_of (negb (bytes_eqb lhs rhs))
  else
    let ln := default 0 (parse_i64 lhs) in
    let rn := default 0 (parse_i64 rhs) in
    if bytes_eqb op (bstr "-eq") then status_of (ln =? rn)
    else if bytes_eqb op (bstr "-ne") then status_of (negb (ln =? rn))
    else if bytes_eqb op (bstr "-lt") then status_of (ln <? rn)
    else if bytes_eqb op (bstr "-le") then status_of (ln <=? rn)
    else if bytes_eqb op (bstr "-gt") then status_of (rn <? ln)
    else if bytes_eqb op (bstr "-ge") then status_of (rn <=? ln)
    else 1.

Definition test_args (rec : list buffer -> Z) (w : W) (all : list buffer) : Z :=
  match filter (fun a => bytes_eqb a (bstr "]") = false) all with
  | [] => 1
  | [a] => status_of (negb (bytes_eqb a []))
  | [op; arg] => test_unary rec w op arg
  | [lhs; op; rhs] => test_binary lhs op rhs
  | _ => 1
  end.
(** The call for [!] has one argument, and with one argument there is no further call. *)
Definition execute_test (w : W) (all : list buffer) : Z := test_args (test_args (fun _ => 1) w) w all.

(** ** [execute_command] *)

Definition execute_command (cmd : Command) : prog W unit :=
  match cmd.(args) with
  | [] => pret tt
  | name :: _ => fun w =>
      match os_execvp cmd.(args) w with
      | Some (status, w) => Err (Exited status w)
      | None => complain [bstr "sh: "; name; bstr ": command not found" ++ [c_nl]] w
      end
  end.

Definition exit_process {A} (code : Z) : prog W A := fun w => Err (Exited code w).

(** ** [execute_builtin] *)

Section Builtins.
Context (script : Shell -> buffer -> prog W Shell) (fuel : nat).

Definition arg1 (cmd : Command) : option buffer := cmd.(args) !! 1%nat.
Definition rest_args (cmd : Command) : list buffer := drop 1 cmd.(args).

Definition builtin_exit (sh : Shell) (cmd : Command) : Shell :=
  set_exit (match arg1 cmd with Some a => status_arg a | None => sh.(last_status) end) sh.

Definition builtin_cd (sh : Shell) (cmd : Command) : prog W Shell :=
  home <~ pask (fun w => os_getenv w (bstr "HOME")) ;;
  let path := match arg1 cmd with Some a => a | None => default (bstr "/root") home end in
  r <~ pcall (os_chdir path) ;;
  if r <? 0 then
    _ <~ complain [bstr "cd: "; path; bstr ": No such directory" ++ [c_nl]] ;; pret (set_last_status 1 sh)
  else pret (set_last_status 0 sh).

Definition builtin_pwd (sh : Shell) : prog W Shell :=
  cwd <~ pask os_getcwd ;;
  match cwd with
  | Some cwd => _ <~ say [cwd; [c_nl]] ;; pret (set_last_status 0 sh)
  | None => pret (set_last_status 1 sh)
  end.

Definition builtin_export (sh : Shell) (cmd : Command) : prog W Shell :=
  _ <~ (match arg1 cmd with
        | Some arg =>
            match find_if (Z.eqb c_eq) arg with
            | Some eq_pos => pact (os_setenv (take eq_pos arg) (drop (S eq_pos) arg))
            | None => match get_var sh arg with Some value => pact (os_setenv arg value) | None => pret tt end
            end
        | None => pret tt
        end) ;;
  pret (set_last_status 0 sh).

Definition builtin_unset (sh : Shell) (cmd : Command) : prog W Shell :=
  match arg1 cmd with
  | Some var =>
      _ <~ pact (os_unsetenv var) ;; pret (set_last_status 0 (set_variables (delete var sh.(variables)) sh))
  | None => pret (set_last_status 0 sh)
  end.

Fixpoint echo_args (first : bool) (l : list buffer) : prog W unit :=
  match l with
  | [] => pret tt
  | arg :: l => _ <~ (if first then pret tt else puts STDOUT [c_sp]) ;; _ <~ puts STDOUT arg ;; echo_args false l
  end.
Definition builtin_echo (sh : Shell) (cmd : Command) : prog W Shell :=
  let no_newline := match arg1 cmd with Some a => bytes_eqb a (bstr "-n") | None => false end in
  _ <~ echo_args true (drop (if no_newline then 2 else 1) cmd.(args)) ;;
  _ <~ (if no_newline then pret tt else puts STDOUT [c_nl]) ;;
  pret (set_last_status 0 sh).

Definition builtin_source (sh : Shell) (cmd : Command) : prog W Shell :=
  match arg1 cmd with
  | None => pret sh
  | Some path =>
      fd <~ pcall (os_open path O_RDONLY 0) ;;
      if 0 <=? fd then
        content <~ pcall (os_read_all fd) ;; _ <~ pact (os_close fd) ;; script sh content
      else
        _ <~ complain [bstr "sh: cannot open "; path; [c_nl]] ;; pret (set_last_status 1 sh)
  end.

(** Bytes up to a newline or the end of the input. *)
Fixpoint read_line (n : nat) (line : buffer) : prog W buffer :=
  match n with
  | O => no_fuel
  | S n =>
      b <~ pcall (os_read_byte STDIN) ;;
      match b with
      | None => pret line
      | Some c => if c =? c_nl then pret line else read_line n (line ++ [c])
      end
  end.
Definition builtin_read (sh : Shell) (cmd : Command) : prog W Shell :=
  match arg1 cmd with
  | None => pret (set_last_status 0 sh)
  | Some var_name => line <~ read_line fuel [] ;; pret (set_last_status 0 (set_var var_name line sh))
  end.

Definition builtin_exec (sh : Shell) (cmd : Command) : prog W Shell :=
  match arg1 cmd with
  | None => pret sh
  | Some _ =>
      _ <~ execute_command (mk_command (rest_args cmd) None None false None false) ;; pret (set_last_status 127 sh)
  end.

(** The digits of the argument of [shift]; the arithmetic of [usize] is checked. *)
Fixpoint shift_count (val : Z) (s : buffer) : option Z :=
  match s with
  | [] => Some (if val =? 0 then 1 else val)
  | c :: s =>
      if is_ascii_digit c then v ← umul 64 val 10; v ← uadd 64 v (c - c_zero); shift_count v s
      else shift_count val s
  end.
Definition remove_first_param (ps : list buffer) : list buffer :=
  match ps with p0 :: _ :: ps => p0 :: ps | _ => ps end.
Definition builtin_shift (sh : Shell) (cmd : Command) : prog W Shell :=
  n <~ prun (lift (match arg1 cmd with Some a => shift_count 0 a | None => Some 1 end)) ;;
  if Z.of_nat (param_count sh) <? n then pret (set_last_status 1 sh)
  else pret (set_last_status 0 (set_params (Nat.iter (Z.to_nat n) remove_first_param sh.(positional_params)) sh)).

Definition builtin_return (sh : Shell) (cmd : Command) : Shell :=
  set_last_status (match arg1 cmd with Some a => status_arg a | None => 0 end) sh.

Definition join_args (l : list buffer) : buffer :=
  match l with [] => [] | a :: l => foldl (fun line arg => line ++ [c_sp] ++ arg) a l end.
Definition builtin_eval (sh : Shell) (cmd : Command) : prog W Shell :=
  match rest_args cmd with [] => pret sh | l => script sh (join_args l) end.

Fixpoint list_aliases (l : list (buffer * buffer)) : prog W unit :=
  match l with
  | [] => pret tt
  | (name, value) :: l => _ <~ say [name; bstr "='"; value; [c_sq; c_nl]] ;; list_aliases l
  end.
Fixpoint define_aliases (sh : Shell) (l : list buffer) : prog W Shell :=
  match l with
  | [] => pret (set_last_status 0 sh)
  | arg :: l =>
      match find_if (Z.eqb c_eq) arg with
      | Some eq_pos => define_aliases (set_aliases (<[take eq_pos arg := drop (S eq_pos) arg]> sh.(aliases)) sh) l
      | None =>
          match sh.(aliases) !! arg with
          | Some value => _ <~ say [arg; bstr " is an alias for '"; value; [c_sq; c_nl]] ;; define_aliases sh l
          | None =>
              _ <~ complain [bstr "sh: alias: "; arg; bstr ": not found" ++ [c_nl]] ;; pret (set_last_status 1 sh)
          end
      end
  end.
Definition builtin_alias (sh : Shell) (cmd : Command) : prog W Shell :=
  match rest_args cmd with
  | [] => _ <~ list_aliases (entries sh.(aliases)) ;; pret (set_last_status 0 sh)
  | l => define_aliases sh l
  end.

Definition builtin_unalias (sh : Shell) (cmd : Command) : Shell :=
  set_last_status 0
    match arg1 cmd with
    | None => sh
    | Some a =>
        set_aliases (if bytes_eqb a (bstr "-a") then ∅
                     else foldl (fun m arg => delete arg m) sh.(aliases) (rest_args cmd)) sh
    end.

Definition builtin_names : list buffer :=
  [bstr "exit"; bstr "cd"; bstr "pwd"; bstr "export"; bstr "unset"; bstr "echo"; bstr "test"; bstr "["; bstr "true";
   bstr "false"; bstr ":"; bstr "source"; bstr "."; bstr "read"; bstr "exec"; bstr "set"; bstr "shift"; bstr "return";
   bstr "eval"; bstr "alias"; bstr "unalias"; bstr "type"].

Definition builtin_type (sh : Shell) (cmd : Command) : prog W Shell :=
  _ <~ (match arg1 cmd with
        | None => pret tt
        | Some target =>
            if existsb (bytes_eqb target) builtin_names then say [target; bstr " is a shell builtin" ++ [c_nl]]
            else match sh.(aliases) !! target with
                 | Some value => say [target; bstr " is an alias for '"; value; [c_sq; c_nl]]
                 | None => say [target; bstr " is an external command" ++ [c_nl]]
                 end
        end) ;;
  pret (set_last_status 0 sh).

(** The shell afterwards, or nothing when the command is not built in. *)
Definition execute_builtin (sh : Shell) (cmd : Command) : prog W (option Shell) :=
  match cmd.(args) with
  | [] => pret (Some sh)
  | name :: _ =>
      let named s := bytes_eqb name (bstr s) in
      let done (m : prog W Shell) : prog W (option Shell) := sh <~ m ;; pret (Some sh) in
      if named "exit" then pret (Some (builtin_exit sh cmd))
      else if named "cd" then done (builtin_cd sh cmd)
      else if named "pwd" then done (builtin_pwd sh)
      else if named "export" then done (builtin_export sh cmd)
      else if named "unset" then done (builtin_unset sh cmd)
      else if named "echo" then done (builtin_echo sh cmd)
      else if named "test" || named "[" then
        st <~ pask (fun w => execute_test w (rest_args cmd)) ;; pret (Some (set_last_status st sh))
      else if named "true" then pret (Some (set_last_status 0 sh))
      else if named "false" then pret (Some (set_last_status 1 sh))
      else if named ":" then pret (Some (set_last_status 0 sh))
      else if named "source" || named "." then done (builtin_source sh cmd)
      else if named "read" then done (builtin_read sh cmd)
      else if named "exec" then done (builtin_exec sh cmd)
      else if named "set" then pret (Some (set_last_status 0 sh))
      else if named "shift" then done (builtin_shift sh cmd)
      else if named "return" then pret (Some (builtin_return sh cmd))
      else if named "eval" then done (builtin_eval sh cmd)
      else if named "alias" then done (builtin_alias sh cmd)
      else if named "unalias" then pret (Some (builtin_unalias sh cmd))
      else if named "type" then done (builtin_type sh cmd)
      else pret None
  end.
End Builtins.
End Exec.
