(* ===== verification/ShellScript.v ===== *)
(** * The guest's shell: pipelines, control structures and scripts

    [execute.rs], [control.rs], [entry.rs] and [execute_capture] of [expand.rs]. *)

From stdpp Require Import base list option numbers strings gmap.
From S2P Require Import Prelude Bytes Utf8 Str ShellText ShellExpand ShellExec.

(** ** Commands of a pipeline *)

(** The loop of [execute_simple_pipeline] over the tokens; a redirection takes the word
    behind it, if there is one. *)
Fixpoint parse_commands (tokens : list Token) (current : Command) (commands : list Command) : list Command :=
  match tokens with
  | [] => match current.(args) with [] => commands | _ => commands ++ [current] end
  | Word w :: tokens => parse_commands tokens (push_arg w current) commands
  | Pipe :: tokens =>
      match current.(args) with
      | [] => parse_commands tokens current commands
      | _ => parse_commands tokens command_new (commands ++ [current])
      end
  | RedirectOut :: tokens =>
      match tokens with
      | Word f :: tokens => parse_commands tokens (set_stdout f false current) commands
      | _ => parse_commands tokens current commands
      end
  | RedirectAppend :: tokens =>
      match tokens with
      | Word f :: tokens => parse_commands tokens (set_stdout f true current) commands
      | _ => parse_commands tokens current commands
      end
  | RedirectIn :: tokens =>
      match tokens with
      | Word f :: tokens => parse_commands tokens (set_stdin f current) commands
      | _ => parse_commands tokens current commands
      end
  | RedirectErr :: tokens =>
      match tokens with
      | Word f :: tokens => parse_commands tokens (set_stderr f current) commands
      | _ => parse_commands tokens current commands
      end
  | Background :: tokens => parse_commands tokens (set_background current) commands
  | AndIf :: tokens | OrIf :: tokens => parse_commands tokens current commands
  end.

Definition has_redirects (cmd : Command) : bool :=
  bool_decide (is_Some cmd.(stdout_file)) || bool_decide (is_Some cmd.(stdin_file)) ||
  bool_decide (is_Some cmd.(stderr_file)).

(** The segments of [execute_pipeline], each with the connector behind it. *)
Fixpoint split_segments (tokens : list Token) (current : list Token) : list (list Token * option Token) :=
  match tokens with
  | [] => match current with [] => [] | _ => [(current, None)] end
  | AndIf :: tokens => (current, Some AndIf) :: split_segments tokens []
  | OrIf :: tokens => (current, Some OrIf) :: split_segments tokens []
  | token :: tokens => split_segments tokens (current ++ [token])
  end.

(** ** The scan of [execute_if] for [else], [elif] and [fi] *)

Fixpoint if_scan (fuel : nat) (script : buffer) (scan depth : nat) (first_else : option (nat * bool))
    : run (option (nat * bool) * option nat) :=
  match fuel with
  | O => Err OutOfFuel
  | S fuel =>
      let scan := skip_whitespace_and_comments script scan in
      let word_end := find_word_end script scan in
      if (length script <=? scan)%nat then Ok (first_else, None)
      else if is_keyword script scan (bstr "if") then if_scan fuel script word_end (S depth) first_else
      else if is_keyword script scan (bstr "fi") then
        if bool_decide (depth = 1%nat) then Ok (first_else, Some scan)
        else if_scan fuel script word_end (depth - 1) first_else
      else if is_keyword script scan (bstr "else") && bool_decide (depth = 1%nat) && bool_decide (first_else = None)
      then if_scan fuel script word_end depth (Some (scan, false))
      else if is_keyword script scan (bstr "elif") && bool_decide (depth = 1%nat) && bool_decide (first_else = None)
      then if_scan fuel script word_end depth (Some (scan, true))
      else if_scan fuel script (skip_to_next_token script scan) depth first_else
  end.

Definition line_stop (c : Z) : bool := (c =? c_nl) || (c =? c_semi).

(** Where the rest of a line starts behind the name of an alias. *)
Definition alias_skip (line : buffer) : nat :=
  let n := span_len is_blank line in
  (n + span_len (fun c => negb (is_blank c || (c =? c_nl) || (c =? c_semi) || (c =? c_bar) || (c =? c_amp) ||
                                 (c =? c_gt) || (c =? c_lt))%Z) (drop n line))%nat.

(** [before_eq] of [execute_line] is a name. *)
Definition is_assignment_name (s : buffer) : bool :=
  match s with
  | [] => false
  | c :: _ => (is_ascii_alphabetic c || (c =? c_us)) && forallb is_word_char s
  end.

Section Script.
Context {W : Type} `{!OS W}.

Section Level.
(** The script runner of the next depth, and the fuel for loops. *)
Context (script : Shell -> buffer -> prog W Shell) (fuel : nat).

(** ** [execute_capture] *)

Definition subshell (sh : Shell) : Shell :=
  set_params sh.(positional_params) (set_variables sh.(variables) (shell_new false)).

Definition execute_capture (sh : Shell) (cmd : buffer) : prog W buffer :=
  fds <~ pcall os_pipe ;;
  match fds with
  | None => pret []
  | Some (fd_read, fd_write) =>
      pid <~ os_fork (
        _ <~ pact (os_close fd_read) ;;
        _ <~ pact (os_dup2 fd_write STDOUT) ;;
        _ <~ pact (os_close fd_write) ;;
        sub <~ script (subshell sh) cmd ;;
        exit_process sub.(last_status)) ;;
      _ <~ pact (os_close fd_write) ;;
      output <~ pcall (os_read_all fd_read) ;;
      _ <~ pact (os_close fd_read) ;;
      _ <~ pcall (os_waitpid pid) ;;
      pret output
  end.

(** ** [execute_simple_pipeline] *)

Definition save_fd (file : option buffer) (fd : Z) : prog W Z :=
  match file with Some _ => pcall (os_dup fd) | None => pret (-1) end.
Definition restore_fd (saved fd : Z) : prog W unit :=
  if 0 <=? saved then _ <~ pact (os_dup2 saved fd) ;; pact (os_close saved) else pret tt.

(** Make [fd] refer to the open descriptor [from]. *)
Definition move_fd (from fd : Z) : prog W unit := _ <~ pact (os_dup2 from fd) ;; pact (os_close from).

Definition stdout_flags (cmd : Command) : Z := if cmd.(stdout_append) then O_CREATE_APPEND else O_CREATE_TRUNC.

(** One command with redirections runs in the shell itself: only built-in commands. *)
Definition redirect_stdin (sh : Shell) (cmd : Command) : prog W (bool * Shell) :=
  match cmd.(stdin_file) with
  | None => pret (true, sh)
  | Some f =>
      fd <~ pcall (os_open f O_RDONLY 0) ;;
      if fd <? 0 then
        _ <~ complain [bstr "sh: "; f; bstr ": No such file or directory" ++ [c_nl]] ;;
        pret (false, set_last_status 1 sh)
      else _ <~ move_fd fd STDIN ;; pret (true, sh)
  end.
Definition redirect_stdout (sh : Shell) (cmd : Command) : prog W (bool * Shell) :=
  match cmd.(stdout_file) with
  | None => pret (true, sh)
  | Some f =>
      fd <~ pcall (os_open f (stdout_flags cmd) 0x1A4) ;;
      if fd <? 0 then
        _ <~ complain [bstr "sh: cannot create "; f; [c_nl]] ;; pret (false, set_last_status 1 sh)
      else _ <~ move_fd fd STDOUT ;; pret (true, sh)
  end.
Definition redirect_stderr (cmd : Command) : prog W unit :=
  match cmd.(stderr_file) with
  | None => pret tt
  | Some f =>
      fd <~ pcall (os_open f O_CREATE_TRUNC 0x1A4) ;; if 0 <=? fd then move_fd fd STDERR else pret tt
  end.

Definition execute_redirected (sh : Shell) (cmd : Command) : prog W Shell :=
  saved_stdout <~ save_fd cmd.(stdout_file) STDOUT ;;
  saved_stdin <~ save_fd cmd.(stdin_file) STDIN ;;
  saved_stderr <~ save_fd cmd.(stderr_file) STDERR ;;
  ' (ok, sh) <~ redirect_stdin sh cmd ;;
  ' (ok, sh) <~ (if (ok : bool) then redirect_stdout sh cmd else pret (ok, sh)) ;;
  sh <~ (if (ok : bool) then
           _ <~ redirect_stderr cmd ;;
           r <~ execute_builtin script fuel sh cmd ;; pret (default sh r)
         else pret sh) ;;
  _ <~ restore_fd saved_stdout STDOUT ;;
  _ <~ restore_fd saved_stdin STDIN ;;
  _ <~ restore_fd saved_stderr STDERR ;;
  pret sh.

Fixpoint set_environment (l : list (buffer * buffer)) : prog W unit :=
  match l with
  | [] => pret tt
  | (k, v) :: l => _ <~ pact (os_setenv k v) ;; set_environment l
  end.

(** What the child for one command of a pipeline does. *)
Definition child (sh : Shell) (cmd : Command) (prev_pipe_read : Z) (pipe_fds : option (Z * Z)) : prog W unit :=
  _ <~ (if 0 <=? prev_pipe_read then move_fd prev_pipe_read STDIN else pret tt) ;;
  _ <~ (match pipe_fds with
        | Some (fd_read, fd_write) => _ <~ pact (os_close fd_read) ;; move_fd fd_write STDOUT
        | None => pret tt
        end) ;;
  _ <~ (match cmd.(stdin_file) with
        | None => pret tt
        | Some f =>
            fd <~ pcall (os_open f O_RDONLY 0) ;;
            if fd <? 0 then
              _ <~ complain [f; bstr ": No such file or directory" ++ [c_nl]] ;; exit_process 1
            else move_fd fd STDIN
        end) ;;
  _ <~ (match cmd.(stdout_file) with
        | None => pret tt
        | Some f =>
            fd <~ pcall (os_open f (stdout_flags cmd) 0x1A4) ;;
            if fd <? 0 then _ <~ complain [bstr "sh: cannot create "; f; [c_nl]] ;; exit_process 1
            else move_fd fd STDOUT
        end) ;;
  _ <~ redirect_stderr cmd ;;
  _ <~ set_environment (entries sh.(variables)) ;;
  _ <~ execute_command cmd ;;
  exit_process 127.

(** The loop that starts the commands; nothing when a pipe or a child cannot be made. *)
Fixpoint spawn (sh : Shell) (commands : list Command) (prev_pipe_read : Z) (pids : list Z) : prog W (option (list Z)) :=
  match commands with
  | [] => pret (Some pids)
  | cmd :: commands =>
      let is_last := match commands with [] => true | _ => false end in
      pipe_fds <~ (if is_last then pret (Some None) else fds <~ pcall os_pipe ;; pret (Some <$> fds)) ;;
      match pipe_fds with
      | None => _ <~ complain [bstr "sh: pipe failed" ++ [c_nl]] ;; pret None
      | Some pipe_fds =>
          pid <~ os_fork (child sh cmd prev_pipe_read pipe_fds) ;;
          if pid <? 0 then _ <~ complain [bstr "sh: fork failed" ++ [c_nl]] ;; pret None
          else
            _ <~ (if 0 <=? prev_pipe_read then pact (os_close prev_pipe_read) else pret tt) ;;
            prev_pipe_read <~ (match pipe_fds with
                               | Some (fd_read, fd_write) => _ <~ pact (os_close fd_write) ;; pret fd_read
                               | None => pret prev_pipe_read
                               end) ;;
            spawn sh commands prev_pipe_read (pids ++ [pid])
      end
  end.

Fixpoint wait_all (sh : Shell) (pids : list Z) : prog W Shell :=
  match pids with
  | [] => pret sh
  | pid :: pids => status <~ pcall (os_waitpid pid) ;; wait_all (set_last_status (status_code status) sh) pids
  end.

Definition run_pipeline (sh : Shell) (commands : list Command) : prog W Shell :=
  pids <~ spawn sh commands (-1) [] ;;
  match pids with
  | None => pret sh
  | Some pids =>
      if match list.last commands with Some c => c.(background) | None => false end then pret sh
      else wait_all sh pids
  end.

Definition execute_simple_pipeline (sh : Shell) (tokens : list Token) : prog W Shell :=
  match parse_commands tokens command_new [] with
  | [] => pret sh
  | [cmd] =>
      if cmd.(background) then run_pipeline sh [cmd]
      else if has_redirects cmd then execute_redirected sh cmd
      else
        r <~ execute_builtin script fuel sh cmd ;;
        match r with
        | Some sh => pret sh
        | None => run_pipeline sh [cmd]
        end
  | commands => run_pipeline sh commands
  end.

(** ** [execute_pipeline] *)

Definition should_execute (previous : option Token) (sh : Shell) : bool :=
  match previous with
  | Some AndIf => sh.(last_status) =? 0
  | Some OrIf => negb (sh.(last_status) =? 0)
  | _ => true
  end.
Fixpoint run_segments (sh : Shell) (previous : option Token) (segments : list (list Token * option Token)) : prog W Shell :=
  match segments with
  | [] => pret sh
  | (segment, connector_after) :: segments =>
      sh <~ (if should_execute previous sh then execute_simple_pipeline sh segment else pret sh) ;;
      run_segments sh connector_after segments
  end.
Definition execute_pipeline (sh : Shell) (tokens : list Token) : prog W Shell :=
  run_segments sh None (split_segments tokens []).

(** ** [execute_line] *)

Fixpoint execute_line (n : nat) (sh : Shell) (line : buffer) : prog W Shell :=
  match n with
  | O => no_fuel
  | S n =>
      let line := trim_ascii line in
      if match line with [] => true | c :: _ => c =? c_hash end then pret sh
      else
        let eq_pos := find_if (Z.eqb c_eq) line in
        let before_eq := match eq_pos with Some i => take i line | None => [] end in
        if is_assignment_name before_eq then
          let '(value, rest) := parse_assignment_value (drop (S (default 0%nat eq_pos)) line) in
          expanded_value <~ expand_string execute_capture sh value ;;
          match trim_ascii rest with
          | [] => pret (set_last_status 0 (set_var before_eq expanded_value sh))
          | rest => execute_line n (set_var before_eq expanded_value sh) rest
          end
        else
          tokens <~ tokenize execute_capture sh line ;;
          match tokens with
          | [] => pret sh
          | first :: _ =>
              match match first with Word w => sh.(aliases) !! w | _ => None end with
              | Some alias_value => execute_line n sh (alias_value ++ drop (alias_skip line) line)
              | None => execute_pipeline sh tokens
              end
          end
  end.

Definition execute_simple_line (sh : Shell) (scr : buffer) (pos : nat) : prog W (Shell * nat) :=
  let stop := (pos + quoted_len line_stop Unquoted (drop pos scr))%nat in
  let line := take (stop - pos) (drop pos scr) in
  sh <~ (match trim_ascii line with [] => pret sh | _ => execute_line fuel sh line end) ;;
  pret (sh, match scr !! stop with Some c => if line_stop c then S stop else stop | None => stop end).

(** ** [control.rs] *)

Definition syntax_error {A} (a : A) (expected : string) : prog W A :=
  _ <~ complain [bstr "sh: syntax error: expected '"; bstr expected; [c_sq; c_nl]] ;; pret a.

Definition part (scr : buffer) (a b : nat) : prog W buffer := prun (lift (sub_slice scr a b)).

Definition execute_if (sh : Shell) (scr : buffer) (start : nat) : prog W (Shell * nat) :=
  let pos := (start + 2)%nat in
  then_pos <~ prun (find_keyword scr pos (bstr "then")) ;;
  match then_pos with
  | None => syntax_error (sh, length scr) "then"
  | Some then_pos =>
      condition <~ part scr pos then_pos ;;
      sh <~ script sh (trim_ascii condition) ;;
      let condition_result := sh.(last_status) =? 0 in
      let pos := (then_pos + 4)%nat in
      ' (first_else, fi_pos) <~ prun (if_scan (S (length scr)) scr pos 1 None) ;;
      match fi_pos with
      | None => syntax_error (sh, length scr) "fi"
      | Some fi_pos =>
          sh <~ (if condition_result then
                   then_body <~ part scr pos (match first_else with Some (e, _) => e | None => fi_pos end) ;;
                   script sh then_body
                 else match first_else with
                      | Some (else_start, true) =>
                          elif_body <~ part scr (else_start + 2) (fi_pos + 2) ;; script sh (trim_ascii elif_body)
                      | Some (else_start, false) =>
                          else_body <~ part scr (else_start + 4) fi_pos ;; script sh else_body
                      | None => pret sh
                      end) ;;
          pret (sh, (fi_pos + 2)%nat)
      end
  end.

(** The loop of [execute_while] ([until] false) and of [execute_until] ([until] true). *)
Fixpoint loop_body (n : nat) (until : bool) (condition body : buffer) (sh : Shell) : prog W Shell :=
  match n with
  | O => no_fuel
  | S n =>
      sh <~ script sh (trim_ascii condition) ;;
      if Bool.eqb (sh.(last_status) =? 0) until then pret sh
      else
        sh <~ script sh body ;;
        if sh.(should_exit) then pret sh else loop_body n until condition body sh
  end.

Definition execute_loop (until : bool) (sh : Shell) (scr : buffer) (start : nat) : prog W (Shell * nat) :=
  let pos := (start + 5)%nat in
  do_pos <~ prun (find_keyword scr pos (bstr "do")) ;;
  match do_pos with
  | None => syntax_error (sh, length scr) "do"
  | Some do_pos =>
      condition <~ part scr pos do_pos ;;
      let pos := (do_pos + 2)%nat in
      done_pos <~ prun (find_matching_done scr pos) ;;
      match done_pos with
      | None => syntax_error (sh, length scr) "done"
      | Some done_pos =>
          body <~ part scr pos done_pos ;;
          sh <~ loop_body fuel until condition body sh ;;
          pret (sh, (done_pos + 4)%nat)
      end
  end.
Definition execute_while : Shell -> buffer -> nat -> prog W (Shell * nat) := execute_loop false.
Definition execute_until : Shell -> buffer -> nat -> prog W (Shell * nat) := execute_loop true.

Fixpoint for_loop (var_name : buffer) (words : list buffer) (body : buffer) (sh : Shell) : prog W Shell :=
  match words with
  | [] => pret sh
  | word :: words =>
      sh <~ script (set_var var_name word sh) body ;;
      if sh.(should_exit) then pret sh else for_loop var_name words body sh
  end.

Definition execute_for (sh : Shell) (scr : buffer) (start : nat) : prog W (Shell * nat) :=
  let pos := skip_whitespace_and_comments scr (start + 3) in
  let var_name := word_at scr pos in
  let pos := skip_whitespace_and_comments scr (find_word_end scr pos) in
  if negb (is_keyword scr pos (bstr "in")) then syntax_error (sh, length scr) "in"
  else
    let pos := find_word_end scr pos in
    do_pos <~ prun (find_keyword scr pos (bstr "do")) ;;
    match do_pos with
    | None => syntax_error (sh, length scr) "do"
    | Some do_pos =>
        words_str <~ part scr pos do_pos ;;
        words <~ split_words execute_capture sh words_str ;;
        let pos := (do_pos + 2)%nat in
        done_pos <~ prun (find_matching_done scr pos) ;;
        match done_pos with
        | None => syntax_error (sh, length scr) "done"
        | Some done_pos =>
            body <~ part scr pos done_pos ;;
            sh <~ for_loop var_name words body sh ;;
            pret (sh, (done_pos + 4)%nat)
        end
    end.

(** Some pattern of an arm matches. *)
Fixpoint any_pattern (word : buffer) (patterns : list buffer) : run bool :=
  match patterns with
  | [] => Ok false
  | pattern :: patterns =>
      m <- pattern_matches word (trim_ascii pattern) ;; if (m : bool) then Ok true else any_pattern word patterns
  end.

Fixpoint case_loop (n : nat) (match_word scr : buffer) (pos esac_pos : nat) (sh : Shell) : prog W Shell :=
  match n with
  | O => no_fuel
  | S n =>
      if (esac_pos <=? pos)%nat then pret sh
      else
        let pos := skip_whitespace_and_comments scr pos in
        if (esac_pos <=? pos)%nat then pret sh
        else
          match find_if (Z.eqb c_rpar) (take (esac_pos - pos) (drop pos scr)) with
          | None => pret sh
          | Some paren_rel =>
              let paren_pos := (pos + paren_rel)%nat in
              let patterns := take paren_rel (drop pos scr) in
              let pos := S paren_pos in
              let end_pos := find_case_end scr pos esac_pos in
              body <~ part scr pos end_pos ;;
              matched <~ prun (any_pattern match_word (split_on c_bar patterns [])) ;;
              if (matched : bool) then script sh body
              else
                case_loop n match_word scr
                  (if starts_with (bstr ";;") (drop end_pos scr) then S (S end_pos) else end_pos) esac_pos sh
          end
  end.

Definition execute_case (sh : Shell) (scr : buffer) (start : nat) : prog W (Shell * nat) :=
  let pos := skip_whitespace_and_comments scr (start + 4) in
  ' (match_word, pos) <~ parse_word execute_capture sh scr pos ;;
  let pos := skip_whitespace_and_comments scr pos in
  if negb (is_keyword scr pos (bstr "in")) then syntax_error (sh, length scr) "in"
  else
    let pos := find_word_end scr pos in
    esac_pos <~ prun (find_matching_esac scr pos) ;;
    match esac_pos with
    | None => syntax_error (sh, length scr) "esac"
    | Some esac_pos =>
        sh <~ case_loop (S (length scr)) match_word scr pos esac_pos sh ;;
        pret (sh, (esac_pos + 4)%nat)
    end.

(** ** [execute_statement] and the loop of [execute_script] *)

Definition execute_statement (sh : Shell) (scr : buffer) (start : nat) : prog W (Shell * nat) :=
  let pos := skip_whitespace_and_comments scr start in
  if (length scr <=? pos)%nat then pret (sh, pos)
  else if is_keyword scr pos (bstr "if") then execute_if sh scr pos
  else if is_keyword scr pos (bstr "while") then execute_while sh scr pos
  else if is_keyword scr pos (bstr "until") then execute_until sh scr pos
  else if is_keyword scr pos (bstr "for") then execute_for sh scr pos
  else if is_keyword scr pos (bstr "case") then execute_case sh scr pos
  else execute_simple_line sh scr pos.

Fixpoint script_loop (n : nat) (sh : Shell) (scr : buffer) (pos : nat) : prog W Shell :=
  match n with
  | O => no_fuel
  | S n =>
      if (length scr <=? pos)%nat || sh.(should_exit) then pret sh
      else ' (sh, pos) <~ execute_statement sh scr pos ;; script_loop n sh scr pos
  end.
End Level.

Fixpoint execute_script (fuel : nat) (sh : Shell) (scr : buffer) : prog W Shell :=
  match fuel with
  | O => no_fuel
  | S fuel => script_loop (execute_script fuel) fuel (S (length scr)) sh scr 0
  end.

(** ** [entry.rs] *)

Record Options := mk_options {
  script_file : option buffer;
  command_string : option buffer;
  login_shell : bool;
  script_args : list buffer
}.

(** The arguments behind the first. *)
Fixpoint parse_args (l : list buffer) (login : bool) : Options :=
  match l with
  | [] => mk_options None None login []
  | arg :: l =>
      if bytes_eqb arg (bstr "-c") then
        match l with
        | cmd :: l => mk_options None (Some cmd) login l
        | [] => mk_options None None login []
        end
      else if bytes_eqb arg (bstr "-l") || bytes_eqb arg (bstr "--login") then parse_args l true
      else if match arg with c :: _ => c =? c_minus | [] => false end then parse_args l login
      else mk_options (Some arg) None login l
  end.

Definition source_profile (fuel : nat) (sh : Shell) : prog W Shell :=
  fd <~ pcall (os_open (bstr "/etc/profile") O_RDONLY 0) ;;
  if 0 <=? fd then
    content <~ pcall (os_read_all fd) ;; _ <~ pact (os_close fd) ;; execute_script fuel sh content
  else pret sh.

(** A line of input; nothing at its end. *)
Fixpoint input_line (n : nat) (line : buffer) : prog W (option buffer) :=
  match n with
  | O => no_fuel
  | S n =>
      b <~ pcall (os_read_byte STDIN) ;;
      match b with
      | None => pret (match line with [] => None | _ => Some line end)
      | Some c => if c =? c_nl then pret (Some line) else input_line n (line ++ [c])
      end
  end.

Fixpoint interactive_loop (fuel n : nat) (sh : Shell) : prog W Shell :=
  match n with
  | O => no_fuel
  | S n =>
      if sh.(should_exit) then pret sh
      else
        _ <~ (if sh.(interactive) then puts STDOUT (bstr "$ ") else pret tt) ;;
        line <~ input_line fuel [] ;;
        match line with
        | None => pret (set_exit sh.(exit_code) sh)
        | Some [] => interactive_loop fuel n sh
        | Some line => sh <~ execute_script fuel sh line ;; interactive_loop fuel n sh
        end
  end.

Definition sh_main (fuel : nat) (argv : list buffer) : prog W Z :=
  let shell_name := default (bstr "sh") (argv !! 0%nat) in
  let o := parse_args (drop 1 argv) false in
  let profile sh := if o.(login_shell) then source_profile fuel sh else pret sh in
  match o.(command_string), o.(script_file) with
  | Some cmd, _ =>
      sh <~ profile (shell_new false) ;;
      let sh := match o.(script_args) with
                | dollar0 :: params => set_positional_params dollar0 params sh
                | [] => set_positional_params shell_name [] sh
                end in
      sh <~ execute_script fuel sh cmd ;;
      pret sh.(last_status)
  | None, Some file =>
      fd <~ pcall (os_open file O_RDONLY 0) ;;
      if fd <? 0 then _ <~ complain [bstr "sh: cannot open "; file; [c_nl]] ;; pret 127
      else
        content <~ pcall (os_read_all fd) ;;
        _ <~ pact (os_close fd) ;;
        sh <~ profile (shell_new false) ;;
        sh <~ execute_script fuel (set_positional_params file o.(script_args) sh) content ;;
        pret sh.(last_status)
  | None, None =>
      tty <~ pask (fun w => os_isatty w STDIN) ;;
      let sh := set_positional_params shell_name [] (shell_new tty) in
      sh <~ (if o.(login_shell) || tty then source_profile fuel sh else pret sh) ;;
      _ <~ (if (tty : bool) then puts STDOUT (bstr "Bentobox sh" ++ [c_nl]) else pret tt) ;;
      sh <~ interactive_loop fuel fuel sh ;;
      pret sh.(exit_code)
  end.
End Script.
