(* ===== verification/ShellWorld.v ===== *)
(** * A world for the guest's shell

    A small operating system to run scripts on: descriptors refer to files, a child runs to
    its end before its parent goes on, programs leave a trace.  It is an instance of [OS]
    for examples and witnesses.  The examples show the shell at work, and where it does
    not do what a shell does. *)

From stdpp Require Import base list option numbers strings gmap.
From S2P Require Import Prelude Bytes Utf8 Str ShellText ShellExpand ShellExec ShellScript.

Record world := mk_world {
  w_env : gmap buffer buffer;
  w_fds : gmap Z Z;
  w_files : gmap Z buffer;
  w_names : gmap buffer Z;
  w_next : Z;
  w_status : gmap Z Z;
  w_programs : gmap buffer Z;
  w_ran : list (list buffer)
}.

Definition set_env (m : gmap buffer buffer) (w : world) : world :=
  mk_world m w.(w_fds) w.(w_files) w.(w_names) w.(w_next) w.(w_status) w.(w_programs) w.(w_ran).
Definition set_fds (m : gmap Z Z) (w : world) : world :=
  mk_world w.(w_env) m w.(w_files) w.(w_names) w.(w_next) w.(w_status) w.(w_programs) w.(w_ran).
Definition set_file (o : Z) (s : buffer) (w : world) : world :=
  mk_world w.(w_env) w.(w_fds) (<[o := s]> w.(w_files)) w.(w_names) w.(w_next) w.(w_status) w.(w_programs) w.(w_ran).
Definition set_name (p : buffer) (o : Z) (w : world) : world :=
  mk_world w.(w_env) w.(w_fds) w.(w_files) (<[p := o]> w.(w_names)) w.(w_next) w.(w_status) w.(w_programs) w.(w_ran).
Definition set_status (pid st : Z) (w : world) : world :=
  mk_world w.(w_env) w.(w_fds) w.(w_files) w.(w_names) w.(w_next) (<[pid := st]> w.(w_status)) w.(w_programs) w.(w_ran).
Definition log_run (argv : list buffer) (w : world) : world :=
  mk_world w.(w_env) w.(w_fds) w.(w_files) w.(w_names) w.(w_next) w.(w_status) w.(w_programs) (w.(w_ran) ++ [argv]).

(** A new number, for a file, a descriptor or a process. *)
Definition fresh (w : world) : Z * world :=
  (w.(w_next), mk_world w.(w_env) w.(w_fds) w.(w_files) w.(w_names) (w.(w_next) + 1) w.(w_status) w.(w_programs) w.(w_ran)).

Definition file_of (w : world) (fd : Z) : option Z := w.(w_fds) !! fd.
Definition content (w : world) (o : Z) : buffer := default [] (w.(w_files) !! o).
Definition attach (o : Z) (w : world) : Z * world :=
  let '(fd, w) := fresh w in (fd, set_fds (<[fd := o]> w.(w_fds)) w).

Definition world_write (fd : Z) (s : buffer) (w : world) : world :=
  match file_of w fd with Some o => set_file o (content w o ++ s) w | None => w end.
Definition world_read_byte (fd : Z) (w : world) : option Z * world :=
  match file_of w fd with
  | Some o => match content w o with c :: s => (Some c, set_file o s w) | [] => (None, w) end
  | None => (None, w)
  end.
Definition world_read_all (fd : Z) (w : world) : buffer * world :=
  match file_of w fd with Some o => (content w o, w) | None => ([], w) end.
Definition world_open (path : buffer) (flags mode : Z) (w : world) : Z * world :=
  match w.(w_names) !! path with
  | Some o => attach o (if Z.testbit flags 9 then set_file o [] w else w)
  | None =>
      if Z.testbit flags 6 then let '(o, w) := fresh w in attach o (set_name path o (set_file o [] w)) else (-1, w)
  end.
Definition world_dup (fd : Z) (w : world) : Z * world :=
  match file_of w fd with Some o => attach o w | None => (-1, w) end.
Definition world_dup2 (from to : Z) (w : world) : world :=
  match file_of w from with Some o => set_fds (<[to := o]> w.(w_fds)) w | None => w end.
Definition world_pipe (w : world) : option (Z * Z) * world :=
  let '(o, w) := fresh w in
  let '(r, w) := attach o (set_file o [] w) in
  let '(s, w) := attach o w in (Some (r, s), w).
Definition world_stat (w : world) (path : buffer) : option (Z * Z) :=
  o ← w.(w_names) !! path; Some (S_IFREG, zlen (content w o)).

(** The parent keeps its descriptors and its environment; a panic is an abort. *)
Definition world_fork (child : prog world unit) : prog world Z := fun w =>
  let '(pid, w) := fresh w in
  let back st w' := Ok (pid, set_status pid st (set_env w.(w_env) (set_fds w.(w_fds) w'))) in
  match child w with
  | Ok (_, w') => back 0 w'
  | Err (Exited st w') => back (Z.shiftl (Z.land st 0xFF) 8) w'
  | Err NoFuel => Err NoFuel
  | Panic => back 6 w
  end.

Definition world_execvp (argv : list buffer) (w : world) : option (Z * world) :=
  match argv with
  | [] => None
  | name :: _ => st ← w.(w_programs) !! name; Some (st, log_run argv w)
  end.

#[export] Instance world_os : OS world := {
  os_getpid := fun _ => 1;
  os_getenv := fun w x => w.(w_env) !! x;
  os_setenv := fun x v w => set_env (<[x := v]> w.(w_env)) w;
  os_unsetenv := fun x w => set_env (delete x w.(w_env)) w;
  os_write := world_write;
  os_read_byte := world_read_byte;
  os_read_all := world_read_all;
  os_open := world_open;
  os_close := fun fd w => set_fds (delete fd w.(w_fds)) w;
  os_dup := world_dup;
  os_dup2 := world_dup2;
  os_chdir := fun _ w => (0, w);
  os_getcwd := fun _ => Some (bstr "/");
  os_isatty := fun _ _ => false;
  os_stat := world_stat;
  os_lstat := world_stat;
  os_access := fun w p _ => bool_decide (is_Some (world_stat w p));
  os_pipe := world_pipe;
  os_fork := world_fork;
  os_waitpid := fun pid w => (default 0 (w.(w_status) !! pid), w);
  os_execvp := world_execvp
}.

(** Descriptors 0, 1 and 2 are files 0, 1 and 2; there is a program [ls]. *)
Definition world0 : world :=
  mk_world {[bstr "HOME" := bstr "/root"]} (list_to_map [(0, 0); (1, 1); (2, 2)]) ∅ ∅ 10 ∅ {[bstr "ls" := 0]} [].

(** What a script leaves: its standard output, the programs run, the last status. *)
Definition outcome_of (script : string) : option (buffer * list (list buffer) * Z) :=
  match execute_script 40 (shell_new false) (bstr script) world0 with
  | Ok (sh, w) => Some (content w 1, w.(w_ran), sh.(last_status))
  | _ => None
  end.

Definition line (s : string) : buffer := bstr s ++ [c_nl].
