(* ===== verification/ShellSpec.v ===== *)
(** * The guest's shell: scripts

    A script of lines that are closed in themselves runs line by line until [exit]; the
    connectors of a list of pipelines decide on the last status.  The examples at the end
    run scripts in the world of [ShellWorld.v]. *)

From Stdlib Require Import ZArith Lia.
From stdpp Require Import base list option numbers strings gmap.
From S2P Require Import Prelude Bytes Utf8 Str ShellText ShellTextSpec ShellArith ShellExpand ShellWords ShellEnds ShellExec ShellScript ShellWorld.

(** ** Lines *)

(** No separator stands outside quotes, and quotes are closed at the end. *)
Fixpoint closed_line (q : quoting) (s : buffer) : bool :=
  match s with
  | [] => match q with Unquoted => true | _ => false end
  | c :: s =>
      match q with
      | Single => closed_line (if c =? c_sq then Unquoted else Single) s
      | Double =>
          if c =? c_dq then closed_line Unquoted s
          else match s with
               | _ :: s' => if c =? c_bsl then closed_line Double s' else closed_line Double s
               | [] => false
               end
      | Unquoted =>
          if c =? c_sq then closed_line Single s
          else if c =? c_dq then closed_line Double s
          else if line_stop c then false else closed_line Unquoted s
      end
  end.

Definition keywords : list buffer := [bstr "if"; bstr "while"; bstr "until"; bstr "for"; bstr "case"].

(** A line that is a statement of its own: it starts with a command. *)
Definition statement_ok (l : buffer) : bool :=
  match l with
  | [] => false
  | c :: _ => negb (is_ascii_whitespace c || (c =? c_semi) || (c =? c_hash)) && closed_line Unquoted l &&
              negb (existsb (bytes_eqb (take (span_len is_word_char l) l)) keywords)
  end.

Fixpoint script_text (ls : list (buffer * Z)) : buffer :=
  match ls with [] => [] | (l, sep) :: ls => l ++ sep :: script_text ls end.

Lemma closed_line_span q s sep t : closed_line q s = true -> line_stop sep = true ->
  quoted_len line_stop q (s ++ sep :: t) = length s.
Proof.
  intros Hs Hsep. assert (Hno : sep <> c_sq /\ sep <> c_dq) by (split; intros ->; discriminate).
  remember (length s) as n eqn:En. revert q s En Hs. induction (lt_wf n) as [n _ IH]. intros q s -> Hs.
  destruct s as [|c s].
  - destruct q; try discriminate. simpl. destruct Hno. by rewrite !(proj2 (Z.eqb_neq _ _)), Hsep by done.
  - cbn [app quoted_len closed_line length] in *. destruct q.
    + destruct (c =? c_sq); [f_equal; by apply (IH (length s)); [simpl; lia| |]|].
      destruct (c =? c_dq); [f_equal; by apply (IH (length s)); [simpl; lia| |]|].
      destruct (line_stop c); [done|]. f_equal; by apply (IH (length s)); [simpl; lia| |].
    + f_equal. by apply (IH (length s)); [simpl; lia| |].
    + destruct (c =? c_dq); [f_equal; by apply (IH (length s)); [simpl; lia| |]|].
      destruct s as [|d s]; [done|]. cbn [app].
      destruct (c =? c_bsl); [cbn [length]; do 2 f_equal; by apply (IH (length s)); [simpl; lia| |]|].
      f_equal. by apply (IH (length (d :: s)) ltac:(simpl; lia) Double (d :: s)).
Qed.

Lemma span_len_app_stop f s c t : f c = false -> span_len f (s ++ c :: t) = span_len f s.
Proof. intros H. induction s as [|d s IH]; simpl; [by rewrite H|]. by rewrite IH. Qed.

Lemma line_stop_cases sep : line_stop sep = true -> sep = c_nl \/ sep = c_semi.
Proof. unfold line_stop. intros H. apply orb_true_iff in H as [H|H]; apply Z.eqb_eq in H; auto. Qed.

(** What stands at a position, when a statement does. *)
Section Statement.
Context (scr : buffer) (pos : nat) (l : buffer) (sep : Z) (rest : buffer).
Context (Hd : drop pos scr = l ++ sep :: rest) (Hok : statement_ok l = true) (Hsep : line_stop sep = true).

Lemma statement_head : exists c l', l = c :: l' /\ is_ascii_whitespace c = false /\ c <> c_semi /\ c <> c_hash.
Proof.
  destruct l as [|c l']; [done|]. exists c, l'. unfold statement_ok in Hok. breflect. done.
Qed.

Lemma statement_keyword kw : kw ∈ keywords -> is_keyword scr pos kw = false.
Proof.
  intros Hk. unfold is_keyword, word_at, find_word_end.
  rewrite Hd, span_len_app_stop by (by destruct (line_stop_cases sep Hsep) as [-> | ->]).
  rewrite Nat.add_comm, Nat.add_sub, take_app_le by apply span_len_le.
  apply andb_false_iff. left. apply bool_decide_eq_false. intros E. destruct l as [|c l']; [done|].
  unfold statement_ok in Hok. apply andb_true_iff in Hok as [_ H]. apply negb_true_iff, not_true_iff_false in H.
  apply H. apply existsb_exists. exists kw. split; [by apply list_elem_of_In|]. by apply bool_decide_eq_true.
Qed.

Lemma statement_start : skip_whitespace_and_comments scr pos = pos.
Proof.
  destruct statement_head as (c & l' & -> & Hw & Hs & Hh). unfold skip_whitespace_and_comments. rewrite Hd.
  cbn [app skip_len]. unfold is_ascii_whitespace in Hw. unfold is_blank. breflect.
  rewrite !(proj2 (Z.eqb_neq _ _)) by done. simpl. lia.
Qed.

Lemma statement_in_range : (pos + S (length l) <= length scr)%nat.
Proof. apply (f_equal length) in Hd. rewrite length_drop, length_app in Hd. simpl in Hd. lia. Qed.

Lemma trim_ascii_nonempty : trim_ascii l <> [].
Proof.
  destruct statement_head as (c & l' & -> & Hw & _). unfold trim_ascii, trim_ascii_start. simpl. rewrite Hw.
  unfold trim_ascii_end, trim_ascii_start. simpl. intros H. apply (f_equal (@rev Z)) in H. rewrite rev_involutive in H.
  simpl in H. set (r := rev l') in *. clearbody r. clear -H Hw. induction r as [|d r IH]; simpl in *; [by rewrite Hw in H|].
  destruct (is_ascii_whitespace d); [by apply IH|done].
Qed.

Context {W : Type} `{!OS W}.

(** The statement is the line, and the next one starts behind its separator. *)
Lemma execute_statement_line script fuel sh w :
  execute_statement (W:=W) script fuel sh scr pos w =
  (sh <~ execute_line script fuel fuel sh l ;; pret (sh, (pos + S (length l))%nat)) w.
Proof.
  pose proof statement_in_range. unfold execute_statement. rewrite statement_start.
  rewrite (proj2 (Nat.leb_gt _ _)) by lia.
  rewrite !statement_keyword by (unfold keywords; set_solver). unfold execute_simple_line.
  assert (Hc : closed_line Unquoted l = true).
  { destruct l as [|c l']; [done|]. unfold statement_ok in Hok. breflect. done. }
  rewrite Hd, closed_line_span by done. rewrite Nat.add_comm, Nat.add_sub, take_app_length.
  pose proof (drop_app_shift _ _ _ _ Hd) as Hs. rewrite Nat.add_comm in Hs. rewrite (drop_cons_lookup _ _ _ _ Hs), Hsep.
  pose proof trim_ascii_nonempty. destruct (trim_ascii l) eqn:E; [done|]. unfold pbind.
  destruct (execute_line script fuel fuel sh l w) as [[sh' w']| |]; [|done|done].
  by replace (S (length l + pos)) with (pos + S (length l))%nat by lia.
Qed.
End Statement.

Section Scripts.
Context {W : Type} `{!OS W}.

(** The lines one after the other, until the shell is to exit. *)
Fixpoint run_lines (fuel : nat) (ls : list (buffer * Z)) (sh : Shell) : prog W Shell :=
  match ls with
  | [] => pret sh
  | (l, _) :: ls =>
      if sh.(should_exit) then pret sh
      else sh <~ execute_line (execute_script fuel) fuel fuel sh l ;; run_lines fuel ls sh
  end.

Lemma script_loop_lines fuel n scr pos ls sh w :
  drop pos scr = script_text ls -> Forall (fun x => statement_ok x.1 = true /\ line_stop x.2 = true) ls ->
  (length scr - pos < n)%nat ->
  script_loop (execute_script fuel) fuel n sh scr pos w = run_lines fuel ls sh w.
Proof.
  intros Hd Hls. revert n pos sh w Hd. induction Hls as [|[l sep] ls [Hl Hs] Hls IH]; intros n pos sh w Hd Hn;
    (destruct n as [|n]; [lia|]); cbn [script_loop run_lines].
  - apply (f_equal length) in Hd. rewrite length_drop in Hd. simpl in Hd. by rewrite (proj2 (Nat.leb_le _ _)) by lia.
  - pose proof (statement_in_range scr pos l sep (script_text ls) Hd). rewrite (proj2 (Nat.leb_gt _ _)) by lia. simpl.
    destruct (should_exit sh); [done|]. unfold pbind at 1.
    rewrite (execute_statement_line scr pos l sep (script_text ls) Hd Hl Hs). unfold pbind.
    destruct (execute_line (execute_script fuel) fuel fuel sh l w) as [[sh' w']| |]; [|done|done]. cbn [pret].
    apply IH; [|lia]. cbn [script_text] in Hd.
    replace (pos + S (length l))%nat with (pos + length (l ++ [sep]))%nat by (rewrite length_app; simpl; lia).
    eapply drop_app_shift. by rewrite Hd, <- app_assoc.
Qed.

End Scripts.

(** ** The theorems at work *)

Definition no_capture : Shell -> buffer -> prog world buffer := fun _ _ => pret [].

(** [2 * (x - 5)] *)
Definition tree0 : aexp := Bin Mul (Lit 2) (Bin Sub (Var (bstr "x")) (Lit 5)).
Definition shell0 : Shell := set_var (bstr "x") (bstr "3") (shell_new false).

Lemma arithmetic_expansion_witness :
  blanks [c_sp] /\ aexp_ok tree0 /\ c_dollar ∉ bstr "n=" /\ c_dollar ∉ bstr "!" /\
  expand_string no_capture shell0 (bstr "n=" ++ arith_open ++ print [c_sp] 0 tree0 ++ arith_close ++ bstr "!") world0 =
  Ok (bstr "n=-4!", world0).
Proof.
  assert (H1 : blanks [c_sp]) by (repeat constructor).
  assert (H2 : aexp_ok tree0) by (repeat split; try (vm_compute; congruence); repeat constructor).
  assert (H3 : c_dollar ∉ bstr "n=") by (by apply (bool_decide_unpack (c_dollar ∉ bstr "n="))).
  assert (H4 : c_dollar ∉ bstr "!") by (by apply (bool_decide_unpack (c_dollar ∉ bstr "!"))).
  split; [exact H1|]. split; [exact H2|]. split; [exact H3|]. split; [exact H4|].
  exact (arithmetic_expansion no_capture shell0 [c_sp] tree0 (bstr "n=") (bstr "!") world0 H1 H2 H3 H4).
Defined.

(** [a'b c'"$x is ${x}"] written with an escape, and an empty word. *)
Definition words0 : list (list piece) :=
  [[PChar 97; PSingle (bstr "b c")]; [PDouble [DEsc c_dollar; DChar 120; DChar c_sp; DVar (bstr "x")]]; [PSingle []]; [PEsc c_semi]].

Lemma tokenize_words_witness :
  Forall (fun ps => ps <> [] /\ Forall piece_ok ps) words0 /\
  tokenize no_capture shell0 (line_text words0) world0 =
  Ok ([Word (bstr "ab c"); Word (bstr "$x 3"); Word (bstr ";")], world0).
Proof.
  assert (H : Forall (fun ps => ps <> [] /\ Forall piece_ok ps) words0).
  { repeat constructor; try (vm_compute; congruence); try (apply (bool_decide_unpack (c_sq ∉ bstr "b c")); exact I);
    apply not_elem_of_nil. }
  split; [exact H|]. exact (tokenize_words no_capture shell0 world0 words0 H).
Defined.

Lemma no_capture_returns sh cmd : returns (no_capture sh cmd) (fun _ => True).
Proof. by apply returns_ret. Qed.

Lemma expansion_ends_witness :
  (forall sh cmd, returns (no_capture sh cmd) (fun _ => True)) /\ returns (expand_string no_capture shell0 (bstr "${x:-$((1+$x))}")) (fun _ => True).
Proof.
  split; [exact no_capture_returns|].
  exact (proj1 (expansion_ends no_capture no_capture_returns shell0 (bstr "${x:-$((1+$x))}"))).
Defined.

Definition lines0 : list (buffer * Z) := [(bstr "x='a;b'", c_semi); (bstr "echo $x", c_nl); (bstr "exit", c_nl); (bstr "echo no", c_nl)].


(** ** Where the shell is not a shell *)

(** A program with a redirection is not run: only built-in commands are. *)
Example redirect_skips_command :
  outcome_of "ls > out" = Some ([], [], 0) /\ outcome_of "ls" = Some ([], [[bstr "ls"]], 0).
Proof. split; vm_compute; reflexivity. Qed.

(** The status given to [exit] does not become the status of [sh -c]. *)
Example exit_status_lost :
  match sh_main 20 [bstr "sh"; bstr "-c"; bstr "exit 3"] world0 with Ok (code, _) => code = 0 | _ => False end.
Proof. vm_compute. reflexivity. Qed.

(** [exit] leaves the last status alone and does not stop the list it stands in. *)
Example exit_runs_on : outcome_of "exit && echo hi" = Some (line "hi", [], 0).
Proof. vm_compute. reflexivity. Qed.

(** An empty argument disappears, so that the empty string tests as not empty. *)
Example empty_is_not_empty : outcome_of "if [ -n '' ]; then echo yes; fi" = Some (line "yes", [], 0).
Proof. vm_compute. reflexivity. Qed.

(** An argument that is a keyword closes the loop it stands in. *)
Example argument_closes_loop :
  outcome_of "for i in a; do echo done; echo x; done" = Some ([c_nl] ++ line "x", [], 127).
Proof. vm_compute. reflexivity. Qed.

(** A negative status is shown as the last sixteen digits of its 64-bit pattern. *)
Example negative_status_cut : outcome_of "return -1; echo $?" = Some (line "6744073709551615", [], 0).
Proof. vm_compute. reflexivity. Qed.

(** A substitution that is not closed takes the shell down. *)
Example open_substitution_panics : expand_string no_capture shell0 (bstr "$(") world0 = Panic.
Proof. vm_compute. reflexivity. Qed.

(** A literal [*] in the word is compared with the [*] of the pattern. *)
Example star_in_word : pattern_matches (bstr "*ab") (bstr "*b") = Ok false /\ glob (bstr "*b") (bstr "*ab").
Proof.
  split; [vm_compute; reflexivity|]. apply (glob_star [98] [c_star; 97] [98]).
  apply glob_lit; [discriminate|discriminate|constructor].
Qed.

(** A separator that reaches the tokenizer is never passed: no fuel is enough. *)
Example separator_loops fuel sh tokens w : tokenize_loop no_capture fuel sh (bstr ";") 0 tokens w = Err NoFuel.
Proof. induction fuel as [|fuel IH]; [done|]. exact IH. Qed.

(** The line splitter lets one through behind an escaped quote. *)
Example escaped_quote_hangs : execute_script 40 (shell_new false) (bstr "echo \'; ls") world0 = Err NoFuel.
Proof. vm_compute. reflexivity. Qed.
